(* ===== verification/_CoqProject ===== *)
-Q . S2P
Prelude.v
Api.v
Session.v
Memory.v
ResourceInfo.v
Ledger.v
BufferRefs.v
Kernel.v
Resources.v
Wire.v
SyncFd.v
Ipc.v
IpcResources.v
LinuxImage.v
LinuxMapping.v
LinuxState.v
LinuxProducer.v
LinuxRecycle.v
LinuxRing.v
LinuxLifetime.v
LinuxHandover.v
LinuxConsumer.v
System.v
Windows.v
WinIpc.v
WinState.v
WinImage.v
WinRing.v
WinProducer.v
WinConsumer.v
WinChannel.v
WinLifetime.v
WinImport.v
WinRecycle.v
EventChannel.v
SessionContext.v
Process.v
Auth.v
Transport.v
LocalSession.v
Bytes.v
AndroidImage.v
AndroidState.v
AndroidProducer.v
AndroidRing.v
AndroidConsumer.v
AndroidChannel.v
AndroidRefines.v
AndroidSystem.v
AndroidLifetime.v
AndroidImport.v
Slots.v
SlotBackends.v
AudioWire.v
GstVideo.v
Element.v
GstSink.v
GstSinkSafe.v
GstSinkStream.v
GstSource.v
GstSourceSafe.v
GstSourceEnd.v
GstAudio.v
GstAudioSink.v
GstAudioTime.v
GstAudioSrc.v
GstAudioEnd.v
GstAudioStreams.v
GstAvBin.v
GstAvStart.v
GstAvSink.v
GstAvSinkSafe.v
GstAvSinkStart.v
GstAvSinkGate.v
GstAvSrc.v
GstAvSrcGate.v
FileSystem.v
Rendezvous.v
RendezvousSystem.v
RendezvousSafe.v
