(* ===== verification/Prelude.v ===== *)
(** * FrameLink: a verification library

    FrameLink moves video frames between two processes without copying them: a
    consumer owns a ring of GPU buffers, a producer draws into them, and a small
    control protocol says which slot holds a frame and which one is free again.
    Around it sit a session layer for audio and video (formats, clocks,
    configurations, authenticated set-up) and a policy that says which memory
    path two components may share.  This library models the C++ code and proves
    what makes it correct.

    ** The program and the files

    Shared by every part
    - Prelude.v: integers at their width, [return_if], the byte codecs, list
      search, and the lemmas and tactics on them.
    - Api.v, ResourceInfo.v: include/framelink.h, framelink_dmabuf.h,
      framelink_memory.h - the types of the interface.
    - Kernel.v, Resources.v: what the backends ask of the operating system, the
      monad and log of their calls, and the accounting of descriptors, buffer
      objects, handles and AHardwareBuffers.

    Self-contained components
    - Session.v: src/framelink_session.cpp - negotiation, validation, wire codec,
      replacement, timestamps.
    - Memory.v: src/framelink_memory.cpp - requirements, paths, boundaries, codec.
    - Ledger.v: src/fl_read_ledger.hpp - read leases; specification and refinement.
    - BufferRefs.v: src/fl_buffer_refs.hpp - producer-side references.

    The control channel
    - Wire.v: src/fl_protocol.h, fl_metadata.hpp, fl_layout.h - messages.
    - SyncFd.v: src/fl_sync_fd.hpp - completion descriptors and release queue.
    - Ipc.v: src/fl_ipc.h, fl_ipc_posix.cpp - sockets and descriptor passing;
      IpcResources.v: what its operations do to descriptors.

    The Linux backend, src/framelink_linux.cpp and fl_read_api.inc
    - LinuxImage.v, LinuxState.v, LinuxProducer.v, LinuxRing.v, LinuxConsumer.v:
      the code; LinuxMapping.v, LinuxRecycle.v, LinuxLifetime.v, LinuxHandover.v:
      what its parts promise; System.v: producer and consumer together.

    The Windows backend, src/framelink_win.cpp, fl_ipc_win32.cpp, fl_read_api.inc
    - Windows.v: the interface of its system calls; WinIpc.v, WinState.v,
      WinImage.v, WinRing.v, WinProducer.v, WinConsumer.v, WinChannel.v: the
      code; WinLifetime.v, WinImport.v, WinRecycle.v: what its parts promise.

    The Android backend, src/framelink_android.cpp and fl_read_api.inc
    - AndroidImage.v: the CPU views of its images; AndroidState.v,
      AndroidProducer.v, AndroidRing.v, AndroidConsumer.v, AndroidChannel.v: the
      code, over the interface [Ahb] of AHardwareBuffer; AndroidRefines.v: its
      protocol calls simulate the Linux ones; AndroidSystem.v: producer and
      consumer together; AndroidLifetime.v, AndroidImport.v: ownership.

    Over the public interface of a backend
    - Slots.v: src/framelink_slots.cpp - finding a free slot of a set;
      SlotBackends.v: the three backends as instances of what it needs.

    The elements of GStreamer, gst/gstframelink.cpp and fl_gst_*.hpp
    - Bytes.v: memory as addresses of bytes (also for AndroidImage.v); GstVideo.v:
      formats, pixel copies, buffer metadata, the memory policy of an element.
    - Element.v: a callback as code against the channel API, GLib and the
      coordinator, with a log; the logic of what it leaves in the log.
    - GstSink.v: framelinksink; GstSinkSafe.v: its slots and its statistics;
      GstSinkStream.v: what it announces.
    - GstSource.v: framelinksrc, with its native buffers on a heap; GstSourceSafe.v:
      its frames, leases and channels; GstSourceEnd.v: native layouts, the end.
    - AudioWire.v: gst/gstframelinkaudiosrc.cpp, boundedWire - PCM blocks on a stream; GstAudio.v:
      what the two audio elements share (gst/fl_gst_audio_startup.cpp).
    - GstAudioSink.v: framelinkaudiosink; GstAudioTime.v: where it puts the PCM it
      gets.  GstAudioSrc.v: framelinkaudiosrc; GstAudioEnd.v: the blocks and bytes
      both ends count; GstAudioStreams.v: the references to their streams.
    - GstAvBin.v: what the bins framelinkavsink and framelinkavsrc share, and
      GstAvStart.v, which children of a session were started; GstAvSink.v:
      framelinkavsink as a system of the steps of its threads; GstAvSinkSafe.v: its
      channels; GstAvSinkStart.v: what it starts, and why a wait at a pad fails;
      GstAvSinkGate.v: the order of what it does.  GstAvSrc.v: framelinkavsrc in the
      same way; GstAvSrcGate.v: what it starts and reports.

    The session layer, gst/ and runtime/
    - EventChannel.v: gst/fl_gst_event_channel.hpp - the video event stream.
    - SessionContext.v: gst/framelink_session_context.cpp - the coordinator.
    - Process.v: interactive code; one process against an environment, two
      against each other.
    - Auth.v: runtime/av_auth.cpp; Transport.v and LocalSession.v:
      gst/framelink_session_transport.cpp.
    - FileSystem.v, Rendezvous.v: runtime/av_rendezvous.cpp as programs of system
      calls; RendezvousSystem.v, RendezvousSafe.v: any number of them on one
      directory, with crashes.

    ** How state and operations correspond to the code

    A class or struct is a record with the source's fields and one setter per
    assignment; a method or function is one definition with the source's guards
    in the source's order ([return_if c with e ;; k] is [if (c) return e; k]).  A
    pointer argument is an option, a pointer to a shared object its address or an
    index into a store.  A function that holds the object's mutex is one atomic
    step.  A call the source does not contain - the kernel, Direct3D, GBM, GLib,
    GStreamer, an HMAC - is an operation of an interface ([Kernel], [Windows],
    [IO]) or a parameter, and theorems hold for every instance; what a theorem
    needs of one is a named hypothesis.  Effects are logged, so ownership and
    ordering are statements about the log; resources that a call brings into
    being are logged with it.

    ** What the theorems show

    - Frames (System.v): a slot a producer acquires is one the consumer cannot see,
      a reserved slot is reserved once, frames arrive in order - by rule induction
      over every interleaving of the calls of both ends.  The Android system
      refines the Linux one step by step, so the same holds there (AndroidSystem.v).
    - Recycling (LinuxRecycle.v, WinRecycle.v): the answer of an acquisition is exact,
      and it returns - on Linux, whose rounds drain the socket until it is empty, once
      the peer stops sending, on Windows by the clock; a release frees what it covers
      when its fence, and those of the releases before it, are ready.
    - Ownership (LinuxLifetime.v, LinuxMapping.v, WinLifetime.v, WinImport.v,
      AndroidLifetime.v, AndroidImport.v, Ipc.v): creation leaks nothing, close
      releases everything, a delegated socket is consumed, reallocation and import
      are all or nothing - except Android's import, which accounts for every handle
      but can leave half a ring - and a mapping is as long as the buffer it is of, with
      the view inside it.
    - Views (AndroidImage.v): a converted view shows the buffer sample by sample and
      unmapping writes back those samples and nothing else.
    - Round trips: hand-over of a ring (LinuxHandover.v), messages (Ipc.v, Wire.v),
      configurations (Session.v), requirements (Memory.v), offers (Transport.v).
    - Slots (Slots.v): the walk over a set ends, with the first slot that attaches,
      or the exact reason why none does, on every backend.
    - Rendezvous (RendezvousSafe.v): whatever the owners, clients and crashes around
      a directory do, a client reads only an endpoint that was published, whole; a
      live owner is the only one and the record is its own.
    - Refinement: the ledger and the references implement a queue of frames with
      pending readers and a finite map (Ledger.v, BufferRefs.v).
    - Sessions: the event stream is a prefix of what was sent; READY from the
      coordinator means every required track is ready for that very configuration;
      a generation has one mapping, one end, one audio claim (EventChannel.v,
      SessionContext.v).  Two honest ends of a negotiation agree in every schedule;
      a negotiation that succeeds was authenticated over its transcript; opening a
      local session leaves nothing half open (Transport.v, LocalSession.v).

    - The video sink: whatever callbacks it gets and whatever their calls answer,
      it uses only the channel it holds - not one it closed - and leaves no slot
      acquired (GstSinkSafe.v); it counts each frame once off Windows; in a session its
      records name exactly the frames published before them, and no frame goes out
      without its metadata (GstSinkStream.v).  The streaming copy of write-combined
      memory never faults and is the plain copy (GstVideo.v).
    - The video source: every frame it reads is released, leased or refused a lease,
      once; the leases left are those of the native buffers still alive, and no
      channel closes under one (GstSourceSafe.v).  A dma-buf buffer describes memory
      inside its size; EOS comes after exactly the announced frames, with every gap
      pushed downstream (GstSourceEnd.v).
    - Audio: a block decodes as if all its bytes were there, however the stream cuts
      them (AudioWire.v); the PCM a sink sends lies on one exact timeline of frames
      (GstAudioTime.v); a source accepts only the terminal that counts what it saw
      (GstAudioEnd.v); a sink returns every reference to its stream
      (GstAudioStreams.v).
    - The A/V sink bin, over every interleaving of its threads: a video channel has one
      owner until it is closed, once, while no call of releaseMedia outlives its
      session (GstAvSinkSafe.v); media is released only when every sink was started,
      buffers pass and EOS leaves only after what they wait for, and an event early
      only where its wait failed (GstAvSinkGate.v).  The source bin reports ready only
      when every source was started, and drained only when it is (GstAvSrcGate.v).

    ** Fuel and bounds

    A loop that runs against a peer or a clock takes fuel and answers [None] when
    it is used up; the theorems say how much is enough.  [acquireFuel timeoutMs] and
    [connectFuel timeoutMs] cover the 2 ms and 25 ms rounds of a timeout; the drain
    and geometry loops take the number of messages they may handle, and an
    acquisition whose drain has not come to an end has not come back:
    [LinuxRecycle.linux_acquire_exact] has it return for any finite number;
    [eintrBound] (64) bounds interruptions of one ioctl, after which it counts as
    failed, and [connectRounds] (64) those of the closing poke; Windows loops stop
    by the clock, which [WinRecycle.win_acquire_exact] makes a bound; discovery and attaching in
    LocalSession.v take their number of polling rounds.  A walk over slots takes one
    unit per sweep, and [Slots.slots_walk_exact] says how many the deadline needs.
    A sink that waits to connect takes one unit per dial; it stops by the clock.
    The source takes one unit per round of its waiting loops, which the code leaves
    only with a frame, an end, an error or a flush; its theorems are for all fuel.
    An audio element takes one unit per round of its waits for the coordinator and
    for a track, and per retry of a stream that would block; the loop that reads a
    bounded chunk takes its number of bytes, which is enough (AudioWire.v).
    In Rendezvous.v [rounds] bounds the retries of one call; a loop that uses it up
    hangs with what it holds, and the theorems are for every [rounds].

    ** What is not modelled

    - The Windows branch of runtime/av_rendezvous.cpp.
    - GStreamer: the native producers and pools (fl_gst_*_producer.hpp,
      fl_gst_native_pool.hpp), which the sink uses through the interface [NativeSink].
      Callbacks of an element run one after another, as its base class and its locks
      make them; other threads use its session.  The threads of a bin interleave, but
      a state change is one step, except the way to NULL.
    - Logging and tracing (src/fl_log.h, fl_trace.cpp, include/framelink_trace.hpp):
      they record events and change no state the code reads.
    - Programs: samples, tools, tests, language bindings and build files. *)
From stdpp Require Export base numbers list option relations.
From stdpp Require Import fin_maps.
From Stdlib Require Export ZArith Lia Bool ZifyBool.

#[export] Set Default Goal Selector "!".
#[global] Open Scope Z_scope.

(** ** Machine integers

    An unsigned [w]-bit integer is a [Z]; the predicates below say when a [Z] is
    a value of the C++ type, the [wrap] functions are the conversions to it. *)

Definition UINT32_MAX : Z := 4294967295.
Definition UINT64_MAX : Z := 18446744073709551615.
Definition INT64_MAX : Z := 9223372036854775807.
Definition INT64_MIN : Z := -9223372036854775808.

Definition u8 (x : Z) : Prop := 0 <= x < 256.
Definition u32 (x : Z) : Prop := 0 <= x <= UINT32_MAX.
Definition u64 (x : Z) : Prop := 0 <= x <= UINT64_MAX.
Definition i64 (x : Z) : Prop := INT64_MIN <= x <= INT64_MAX.

Definition wrap32 (x : Z) : Z := x mod 4294967296.
Definition wrap64 (x : Z) : Z := x mod 18446744073709551616.

(** [~x] on a [uint32_t]. *)
Definition not32 (x : Z) : Z := Z.lxor x UINT32_MAX.

(** The C++ conversion of an integer to [bool], and back. *)
Definition truthy (x : Z) : bool := negb (x =? 0).

(** ** Notation: early returns

    [return_if c with e ;; k] is the statement [if (c) return e;] followed by
    [k]. *)
Declare Scope fl_scope.
Delimit Scope fl_scope with fl.
Notation "'return_if' c 'with' e ;; k" := (if (c : bool) then e else k)
  (at level 200, c at level 99, e at level 99, k at level 200,
   format "'[v' 'return_if'  c  'with'  e  ;; '/' k ']'") : fl_scope.
#[global] Open Scope fl_scope.

(** ** Automation *)

Create HintDb fl.

#[export] Hint Unfold u8 u32 u64 i64 UINT32_MAX UINT64_MAX INT64_MAX INT64_MIN : fl.

(** Arithmetic over the machine-integer predicates. *)
Ltac ulia :=
  unfold u8, u32, u64, i64, UINT32_MAX, UINT64_MAX, INT64_MAX, INT64_MIN, truthy in *; lia.

(** Split every early return of a hypothesis, turning the tests into facts. *)
Ltac split_returns H :=
  repeat (let E := fresh "Hret" in
          match type of H with
          | (if ?c then _ else _) = _ => destruct c eqn:E
          | context [if ?c then _ else _] => destruct c eqn:E
          end; try discriminate H; try congruence).

(** Boolean tests as propositions, everywhere. *)
Ltac bools :=
  repeat match goal with
  | H : _ && _ = true |- _ => apply andb_true_iff in H as [? ?]
  | H : _ || _ = false |- _ => apply orb_false_iff in H as [? ?]
  | H : negb _ = true |- _ => apply negb_true_iff in H
  | H : negb _ = false |- _ => apply negb_false_iff in H
  end.

(** ** Machine-integer facts *)

Lemma truthy_true x : truthy x = true <-> x <> 0.
Proof. unfold truthy. lia. Qed.

Lemma truthy_false x : truthy x = false <-> x = 0.
Proof. unfold truthy. lia. Qed.

Lemma wrap32_small x : u32 x -> wrap32 x = x.
Proof. intros H. apply Z.mod_small. ulia. Qed.

Lemma wrap64_small x : u64 x -> wrap64 x = x.
Proof. intros H. apply Z.mod_small. ulia. Qed.

Lemma wrap32_u32 x : u32 (wrap32 x).
Proof. unfold wrap32. pose proof (Z.mod_pos_bound x 4294967296). ulia. Qed.

Lemma wrap64_u64 x : u64 (wrap64 x).
Proof. unfold wrap64. pose proof (Z.mod_pos_bound x 18446744073709551616). ulia. Qed.

#[export] Hint Resolve wrap32_u32 wrap64_u64 : fl.

(** *** Bit masks

    [a & ~b] is zero exactly when every bit of [a] is a bit of [b]. *)

Definition mask_incl (a b : Z) : Prop :=
  forall i, 0 <= i -> Z.testbit a i = true -> Z.testbit b i = true.

Lemma u32_testbit_high x i : u32 x -> 32 <= i -> Z.testbit x i = false.
Proof.
  intros Hx Hi. destruct (decide (x = 0)) as [->|]; [apply Z.bits_0|].
  apply Z.bits_above_log2; [ulia|].
  apply Z.lt_le_trans with 32; [|done]. apply Z.log2_lt_pow2; ulia.
Qed.

Lemma testbit_UINT32_MAX i : 0 <= i -> Z.testbit UINT32_MAX i = (i <? 32).
Proof.
  intros Hi. change UINT32_MAX with (Z.ones 32).
  destruct (i <? 32) eqn:E; [apply Z.ones_spec_low|apply Z.ones_spec_high]; lia.
Qed.

Lemma land_not32 a b : u32 a -> Z.land a (not32 b) = Z.ldiff a b.
Proof.
  intros Ha. apply Z.bits_inj'; intros i Hi. unfold not32.
  rewrite Z.land_spec, Z.lxor_spec, Z.ldiff_spec, testbit_UINT32_MAX by done.
  destruct (i <? 32) eqn:E.
  - by destruct (Z.testbit a i), (Z.testbit b i).
  - by rewrite (u32_testbit_high a i) by (done || lia).
Qed.

Lemma ldiff_0_incl a b : Z.ldiff a b = 0 <-> mask_incl a b.
Proof.
  unfold mask_incl. split.
  - intros H i Hi Ha. apply (f_equal (fun z => Z.testbit z i)) in H.
    rewrite Z.ldiff_spec, Z.bits_0, Ha in H. by destruct (Z.testbit b i).
  - intros H. apply Z.bits_inj'; intros i Hi. rewrite Z.ldiff_spec, Z.bits_0.
    destruct (Z.testbit a i) eqn:Ha; [|done]. by rewrite (H i Hi Ha).
Qed.

Lemma land_not32_0 a b : u32 a -> Z.land a (not32 b) = 0 <-> mask_incl a b.
Proof. intros Ha. by rewrite land_not32, ldiff_0_incl. Qed.

Lemma mask_incl_lor_l a b c : mask_incl (Z.lor a b) c <-> mask_incl a c /\ mask_incl b c.
Proof.
  unfold mask_incl. split.
  - intros H. split; intros i Hi Hx; apply H; try done;
      rewrite Z.lor_spec, Hx; [done|apply orb_true_r].
  - intros [H1 H2] i Hi. rewrite Z.lor_spec. intros [?|?]%orb_true_iff; auto.
Qed.

Lemma mask_incl_land_r a b c : mask_incl a (Z.land b c) <-> mask_incl a b /\ mask_incl a c.
Proof.
  unfold mask_incl. split.
  - intros H. split; intros i Hi Hx; specialize (H i Hi Hx);
      rewrite Z.land_spec in H; by apply andb_true_iff in H as [? ?].
  - intros [H1 H2] i Hi Hx. rewrite Z.land_spec. by rewrite H1, H2.
Qed.

Lemma mask_incl_refl a : mask_incl a a.
Proof. by intros i. Qed.

Lemma mask_incl_trans a b c : mask_incl a b -> mask_incl b c -> mask_incl a c.
Proof. unfold mask_incl. eauto. Qed.

Lemma mask_incl_0_l a : mask_incl 0 a.
Proof. intros i Hi. by rewrite Z.bits_0. Qed.

Lemma mask_incl_0_r a : mask_incl a 0 -> a = 0.
Proof. intros H. apply ldiff_0_incl in H. by rewrite Z.ldiff_0_r in H. Qed.

#[export] Instance mask_incl_preorder : PreOrder mask_incl.
Proof. split; [intros a; apply mask_incl_refl | intros a b c; apply mask_incl_trans]. Qed.

#[export] Hint Resolve mask_incl_refl mask_incl_0_l : fl.

Lemma u32_bound a : 0 <= a -> mask_incl a UINT32_MAX -> u32 a.
Proof.
  intros H0 H. split; [done|].
  apply ldiff_0_incl in H. change UINT32_MAX with (Z.ones 32) in *.
  rewrite Z.ldiff_ones_r in H by lia.
  apply Z.shiftl_eq_0_iff in H; [|lia].
  rewrite Z.shiftr_div_pow2 in H by lia.
  apply Z.div_small_iff in H; [|lia]. rewrite Z.ones_equiv. lia.
Qed.

Lemma mask_u32 a : u32 a -> mask_incl a UINT32_MAX.
Proof.
  intros Ha i Hi Hb. rewrite testbit_UINT32_MAX by done.
  destruct (decide (32 <= i)) as [Hg|]; [|lia].
  by rewrite (u32_testbit_high a i) in Hb.
Qed.

Lemma u32_lor a b : u32 a -> u32 b -> u32 (Z.lor a b).
Proof.
  intros Ha Hb. apply u32_bound.
  - apply Z.lor_nonneg. ulia.
  - apply mask_incl_lor_l. split; by apply mask_u32.
Qed.

Lemma mask_incl_land_l a b : mask_incl (Z.land a b) a.
Proof. intros i Hi. rewrite Z.land_spec. by intros [? ?]%andb_true_iff. Qed.

Lemma u32_land a b : u32 a -> 0 <= b -> u32 (Z.land a b).
Proof.
  intros Ha Hb. apply u32_bound.
  - apply Z.land_nonneg. ulia.
  - etrans; [apply mask_incl_land_l|]. by apply mask_u32.
Qed.

#[export] Hint Resolve u32_lor u32_land : fl.

(** ** Little-endian codec

    [put_le n v] is the byte loop [*p++ = uint8_t(v); v >>= 8;] run [n] times;
    [get_le n p] the loop [v |= uint64_t( *p++) << (8*i)], which also returns the
    advanced cursor. *)

Fixpoint put_le (n : nat) (v : Z) : list Z :=
  match n with
  | O => []
  | S n' => v mod 256 :: put_le n' (Z.shiftr v 8)
  end.

Fixpoint get_le_from (n : nat) (i : Z) (v : Z) (p : list Z) : Z * list Z :=
  match n, p with
  | O, _ => (v, p)
  | S n', b :: p' => get_le_from n' (i + 1) (Z.lor v (Z.shiftl b (8 * i))) p'
  | S _, [] => (v, [])
  end.

Definition get_le (n : nat) (p : list Z) : Z * list Z := get_le_from n 0 0 p.

Lemma length_put_le n v : length (put_le n v) = n.
Proof. revert v. induction n as [|n IH]; intros v; simpl; [done|by rewrite IH]. Qed.

Lemma put_le_u8 n v : Forall u8 (put_le n v).
Proof.
  revert v. induction n as [|n IH]; intros v; simpl; constructor; [|done].
  unfold u8. pose proof (Z.mod_pos_bound v 256). lia.
Qed.

(** The value of a little-endian byte string, as a plain recursion. *)
Fixpoint le_value (bs : list Z) : Z :=
  match bs with
  | [] => 0
  | b :: r => b + 256 * le_value r
  end.

Lemma le_value_bound bs : Forall u8 bs -> 0 <= le_value bs < 256 ^ Z.of_nat (length bs).
Proof.
  induction 1 as [|b r Hb _ IH]; simpl le_value; simpl length; [simpl; lia|].
  rewrite Nat2Z.inj_succ, Z.pow_succ_r by lia. unfold u8 in Hb. nia.
Qed.

Lemma lor_shiftl_disjoint v b k :
  0 <= k -> 0 <= v < 2 ^ k -> Z.lor v (Z.shiftl b k) = v + b * 2 ^ k.
Proof.
  intros Hk Hv. rewrite <- Z.shiftl_mul_pow2 by done.
  symmetry. rewrite <- Z.lxor_lor; [apply Z.add_nocarry_lxor|].
  all: apply Z.bits_inj'; intros i Hi; rewrite Z.land_spec, Z.bits_0, Z.shiftl_spec by done;
    destruct (decide (i < k));
    [ rewrite (Z.testbit_neg_r b (i - k)) by lia; apply andb_false_r
    | destruct (decide (v = 0)) as [->|]; [by rewrite Z.bits_0|];
      rewrite (Z.bits_above_log2 v i); [done|lia|];
      apply Z.lt_le_trans with k; [apply Z.log2_lt_pow2; lia|lia] ].
Qed.

Lemma get_le_from_app n i v bs r :
  length bs = n -> Forall u8 bs -> 0 <= i -> 0 <= v < 2 ^ (8 * i) ->
  get_le_from n i v (bs ++ r) = (v + le_value bs * 2 ^ (8 * i), r).
Proof.
  revert i v bs. induction n as [|n IH]; intros i v bs Hlen Hbs Hi Hv.
  - destruct bs; [|done]. simpl. f_equal. lia.
  - destruct bs as [|b bs]; [done|]. inversion Hbs as [|? ? Hb Hbs']; subst.
    simpl in Hlen. injection Hlen as Hlen. simpl get_le_from. unfold u8 in Hb.
    rewrite lor_shiftl_disjoint by lia.
    assert (2 ^ (8 * (i + 1)) = 256 * 2 ^ (8 * i)) as Hp.
    { replace (8 * (i + 1)) with (8 + 8 * i) by lia. by rewrite Z.pow_add_r by lia. }
    rewrite IH by (try done; nia).
    f_equal. simpl le_value. rewrite Hp. nia.
Qed.

Lemma get_le_app n bs r :
  length bs = n -> Forall u8 bs -> get_le n (bs ++ r) = (le_value bs, r).
Proof.
  intros Hlen Hbs. unfold get_le. rewrite get_le_from_app by (done || lia).
  f_equal. rewrite Z.mul_0_r. lia.
Qed.

Lemma le_value_put_le n v : 0 <= v < 256 ^ Z.of_nat n -> le_value (put_le n v) = v.
Proof.
  revert v. induction n as [|n IH]; intros v Hv.
  - simpl in *. lia.
  - rewrite Nat2Z.inj_succ, Z.pow_succ_r in Hv by lia.
    simpl. rewrite Z.shiftr_div_pow2 by lia. change (2 ^ 8) with 256.
    rewrite IH.
    + pose proof (Z.div_mod v 256). lia.
    + split; [apply Z.div_pos; lia|apply Z.div_lt_upper_bound; lia].
Qed.

Lemma put_le_le_value bs : Forall u8 bs -> put_le (length bs) (le_value bs) = bs.
Proof.
  induction 1 as [|b r Hb Hr IH]; simpl; [done|]. unfold u8 in Hb. f_equal.
  - rewrite (Z.mul_comm 256), Z.mod_add by lia. apply Z.mod_small. lia.
  - rewrite Z.shiftr_div_pow2 by lia. change (2 ^ 8) with 256.
    rewrite (Z.mul_comm 256), Z.div_add by lia. by rewrite Z.div_small by lia.
Qed.

(** Out-of-range values are truncated, as by the conversion to the field type. *)
Lemma le_value_put_le_mod n v : le_value (put_le n v) = v mod 256 ^ Z.of_nat n.
Proof.
  revert v. induction n as [|n IH]; intros v.
  - simpl. by rewrite Z.mod_1_r.
  - rewrite Nat2Z.inj_succ, Z.pow_succ_r by lia. simpl. rewrite IH, Z.shiftr_div_pow2 by lia.
    change (2 ^ 8) with 256. rewrite Z.rem_mul_r by lia. lia.
Qed.

Lemma get_put_le_mod n v r : get_le n (put_le n v ++ r) = (v mod 256 ^ Z.of_nat n, r).
Proof. rewrite get_le_app by (apply length_put_le || apply put_le_u8). by rewrite le_value_put_le_mod. Qed.

(** Round trip of one field, in both directions. *)
Lemma get_put_le n v r : 0 <= v < 256 ^ Z.of_nat n -> get_le n (put_le n v ++ r) = (v, r).
Proof.
  intros Hv. rewrite get_le_app by (apply length_put_le || apply put_le_u8).
  by rewrite le_value_put_le.
Qed.

Lemma get_le_inv n p v r :
  get_le n p = (v, r) -> (n <= length p)%nat -> Forall u8 p ->
  p = put_le n v ++ r /\ 0 <= v < 256 ^ Z.of_nat n /\ Forall u8 r
  /\ length r = (length p - n)%nat.
Proof.
  intros Hg Hn Hp. rewrite <- (take_drop n p) in Hg.
  assert (length (take n p) = n) as Hlen by (rewrite length_take; lia).
  apply Forall_take with (n := n) in Hp as Htk. apply Forall_drop with (n := n) in Hp as Hdr.
  rewrite get_le_app in Hg by done. injection Hg as <- <-.
  split_and!; try done.
  - assert (put_le n (le_value (take n p)) = take n p) as ->; [|by rewrite take_drop].
    rewrite <- Hlen at 1. by apply put_le_le_value.
  - apply le_value_bound in Htk. lia.
  - apply le_value_bound in Htk as [_ Htk]. by rewrite Hlen in Htk.
  - by rewrite length_drop.
Qed.

Lemma get_put_le4 v r : u32 v -> get_le 4 (put_le 4 v ++ r) = (v, r).
Proof. intros. apply get_put_le. change (256 ^ Z.of_nat 4) with 4294967296. ulia. Qed.

Lemma get_put_le8 v r : u64 v -> get_le 8 (put_le 8 v ++ r) = (v, r).
Proof. intros. apply get_put_le. change (256 ^ Z.of_nat 8) with 18446744073709551616. ulia. Qed.

(** A field read from a buffer of known length: the value, the rest, and how
    the buffer is put together from them. *)
Lemma get_le4_inv p v r :
  get_le 4 p = (v, r) -> forall n, length p = (4 + n)%nat -> Forall u8 p ->
  p = put_le 4 v ++ r /\ u32 v /\ Forall u8 r /\ length r = n.
Proof.
  intros H n Hl Hp. destruct (get_le_inv 4 p v r H ltac:(lia) Hp) as (? & ? & ? & ?).
  split_and!; try done; change (256 ^ Z.of_nat 4) with 4294967296 in *; ulia || lia.
Qed.

Lemma get_le8_inv p v r :
  get_le 8 p = (v, r) -> forall n, length p = (8 + n)%nat -> Forall u8 p ->
  p = put_le 8 v ++ r /\ u64 v /\ Forall u8 r /\ length r = n.
Proof.
  intros H n Hl Hp. destruct (get_le_inv 8 p v r H ltac:(lia) Hp) as (? & ? & ? & ?).
  split_and!; try done; change (256 ^ Z.of_nat 8) with 18446744073709551616 in *; ulia || lia.
Qed.

(** [while (p < end) if ( *p++) return ...;] - a run of zero bytes. *)
Definition all_zero (bs : list Z) : bool := forallb (fun b => b =? 0) bs.

Lemma all_zero_replicate n : all_zero (replicate n 0) = true.
Proof. by induction n. Qed.

Lemma all_zero_inv bs : all_zero bs = true -> bs = replicate (length bs) 0.
Proof.
  induction bs as [|b r IH]; simpl; [done|].
  intros [Hb Hr]%andb_true_iff. f_equal; [lia|by apply IH].
Qed.

#[export] Hint Resolve length_put_le put_le_u8 all_zero_replicate : fl.

Lemma Forall_impl2 {A} (P Q R : A -> Prop) l :
  Forall P l -> Forall Q l -> (forall x, P x -> Q x -> R x) -> Forall R l.
Proof. rewrite !Forall_forall. eauto. Qed.

(** ** List search

    [find_index p l] is the index the C++ loop [for (...) if (p) ...] stops at. *)
Fixpoint find_index {A} (p : A -> bool) (l : list A) : option nat :=
  match l with
  | [] => None
  | x :: r => if p x then Some 0%nat else S <$> find_index p r
  end.

Lemma find_index_Some {A} (p : A -> bool) l i :
  find_index p l = Some i ->
  exists x, l !! i = Some x /\ p x = true /\
    forall j y, (j < i)%nat -> l !! j = Some y -> p y = false.
Proof.
  revert i. induction l as [|x r IH]; intros i; simpl; [done|].
  destruct (p x) eqn:Hp.
  - intros [= <-]. exists x. split_and!; [done..|]. intros; lia.
  - destruct (find_index p r) as [k|]; [|done]. intros [= <-].
    destruct (IH k eq_refl) as (y & Hy & Hpy & Hmin). exists y. split_and!; try done.
    intros [|j] z Hj Hz; simpl in Hz; [congruence|]. apply (Hmin j); [lia|done].
Qed.

Lemma find_index_None {A} (p : A -> bool) l :
  find_index p l = None <-> forall i x, l !! i = Some x -> p x = false.
Proof.
  induction l as [|x r IH]; simpl.
  - split; [intros _ i y; by rewrite lookup_nil|done].
  - destruct (p x) eqn:Hp; split.
    + done.
    + intros H. specialize (H 0%nat x eq_refl). congruence.
    + destruct (find_index p r); [done|]. intros _ [|i] y Hy; simpl in Hy; [congruence|].
      by apply (proj1 IH eq_refl i).
    + intros H. assert (find_index p r = None) as ->; [|done].
      apply IH. intros i y Hy. apply (H (S i) y Hy).
Qed.

(** ** Tables: a list updated in place, up to permutation *)

Lemma insert_split {A} (l : list A) j x :
  l !! j = Some x -> exists rest, l ≡ₚ x :: rest /\ forall y, <[j := y]> l ≡ₚ y :: rest.
Proof.
  intros Hj. apply list_elem_of_split_length in Hj as (l1 & l2 & -> & ->).
  exists (l1 ++ l2). split; [by rewrite Permutation_middle|].
  intros y. rewrite insert_app_r_alt, Nat.sub_diag by done. simpl.
  by rewrite Permutation_middle.
Qed.

Lemma omap_cons {A B} (f : A -> option B) x (l : list A) :
  omap f (x :: l) = match f x with Some y => y :: omap f l | None => omap f l end.
Proof. done. Qed.

Lemma length_omap_le {A B} (f : A -> option B) (l : list A) : (length (omap f l) <= length l)%nat.
Proof.
  induction l as [|x r IH]; [done|]. rewrite omap_cons. destruct (f x); cbn [length]; lia.
Qed.
