(* ===== verification/Api.v ===== *)
(** * The public C API types (include/framelink.h)

    Result codes, pixel formats, channel flags and the structures a caller
    passes.  A C enum that callers or peers may fill with any value
    ([flFormat]) stays an integer; [flResult], which only the library produces,
    is an inductive.  A pointer to an image is the integer address of it, zero
    being the null pointer. *)
From S2P Require Import Prelude.
From Stdlib Require Import String.

Definition FL_VERSION : Z := 6.
Definition FL_MAX_POOL_SIZE : nat := 16.

Inductive flResult :=
| FL_OK | FL_TIMEOUT | FL_DISCONNECTED | FL_VERSION_MISMATCH
| FL_FORMAT_UNSUPPORTED | FL_ADAPTER_MISMATCH | FL_ACCESS_DENIED | FL_NOT_FOUND
| FL_BUSY | FL_INVALID | FL_OOM | FL_INTERNAL.

#[export] Instance flResult_eq_dec : EqDecision flResult.
Proof. solve_decision. Defined.

(** The numeric values of the enum. *)
Definition flResult_code (r : flResult) : Z :=
  match r with
  | FL_OK => 0 | FL_TIMEOUT => 1 | FL_DISCONNECTED => 2 | FL_VERSION_MISMATCH => 3
  | FL_FORMAT_UNSUPPORTED => 4 | FL_ADAPTER_MISMATCH => 5 | FL_ACCESS_DENIED => 6
  | FL_NOT_FOUND => 7 | FL_BUSY => 11 | FL_INVALID => 8 | FL_OOM => 9
  | FL_INTERNAL => 10
  end.

Definition flResultString (r : flResult) : string :=
  match r with
  | FL_OK => "ok"
  | FL_TIMEOUT => "timeout"
  | FL_DISCONNECTED => "peer disconnected"
  | FL_VERSION_MISMATCH => "protocol version mismatch"
  | FL_FORMAT_UNSUPPORTED => "format unsupported"
  | FL_ADAPTER_MISMATCH => "producer and consumer on different GPUs"
  | FL_ACCESS_DENIED => "access denied"
  | FL_NOT_FOUND => "channel not found"
  | FL_INVALID => "invalid argument"
  | FL_OOM => "out of memory"
  | FL_INTERNAL => "internal error"
  | FL_BUSY => "channel already has a producer"
  end.

(** [flFormat] *)
Definition FL_FORMAT_BGRA8 : Z := 1.
Definition FL_FORMAT_NV12 : Z := 2.
Definition FL_FORMAT_RGB10A2 : Z := 3.
Definition FL_FORMAT_RGBA8 : Z := 4.

(** Channel flags *)
Definition FL_MAP_CPU : Z := 0x1.
Definition FL_GPU_SYNC : Z := 0x2.
Definition FL_DEFER_RELEASE : Z := 0x4.
Definition FL_GPU_RENDER : Z := 0x8.
Definition FL_TRACK_ARRIVAL : Z := 0x10.
Definition FL_REQUIRE_FRAME_METADATA : Z := 0x20.

Record flChannelInfo := mkChannelInfo {
  info_version : Z;
  info_width : Z;
  info_height : Z;
  info_format : Z;
  info_poolSize : Z;
  info_generation : Z;
}.

(** Frame metadata *)
Definition FL_FRAME_METADATA_VERSION : Z := 1.
Definition FL_FRAME_HAS_DTS : Z := 0x1.
Definition FL_FRAME_HAS_DURATION : Z := 0x2.
Definition FL_FRAME_DISCONT : Z := 0x4.

Record flFrameMetadata := mkMetadata {
  md_version : Z;
  md_flags : Z;
  md_dtsNs : Z;
  md_durationNs : Z;
  md_streamGeneration : Z;
  md_reserved0 : Z;
  md_reserved1 : Z;
}.

Definition zeroMetadata : flFrameMetadata := mkMetadata 0 0 0 0 0 0 0.

#[export] Instance flFrameMetadata_eq_dec : EqDecision flFrameMetadata.
Proof. solve_decision. Defined.

Record flFrame := mkFrame {
  fr_slot : Z;
  fr_image : Z;       (* address; 0 is the null pointer *)
  fr_ptsNs : Z;
  fr_sequence : Z;
  fr_readyValue : Z;
}.

Definition zeroFrame : flFrame := mkFrame 0 0 0 0 0.

#[export] Instance flFrame_eq_dec : EqDecision flFrame.
Proof. solve_decision. Defined.

Record flBuffer := mkBuffer {
  buf_slot : Z;
  buf_image : Z;
}.

#[export] Instance flBuffer_eq_dec : EqDecision flBuffer.
Proof. solve_decision. Defined.

(** A CPU view of an image, plane by plane. *)
Record flMappedPlane := mkPlane {
  mp_pixels : Z; mp_stride : Z; mp_rowBytes : Z; mp_rows : Z }.
Record flMappedImage := mkMapped { mi_planes : Z; mi_plane : list flMappedPlane }.

Definition zeroPlane : flMappedPlane := mkPlane 0 0 0 0.
Definition zeroMapped : flMappedImage := mkMapped 0 (replicate 4 zeroPlane).
(** [flags & FLAG], as the condition of an [if]. *)
Definition has_flag (flags flag : Z) : bool := truthy (Z.land flags flag).
