(* ===== verification/Session.v ===== *)
(** * A/V session control contract (src/framelink_session.cpp)

    Format negotiation, configuration validation, the 160-byte wire codec of a
    configuration, replacement checks and the checked time arithmetic.

    A pointer argument is an [option] ([None] is the null pointer); a function
    with an out parameter takes the current pointee and returns the new one, so
    "output unchanged on failure" is a statement about the result. *)
From S2P Require Import Prelude Api.

Definition FL_SESSION_VERSION : Z := 1.
Definition FL_SESSION_OPTIONAL_TRACKS_VERSION : Z := 2.
Definition FL_SESSION_MAX_FORMATS : Z := 8.
Definition FL_SESSION_WIRE_SIZE : nat := 160.
Definition FL_PCM_S16 : Z := 1.
Definition FL_PCM_F32 : Z := 2.
Definition FL_LAYOUT_MONO : Z := 1.
Definition FL_LAYOUT_STEREO : Z := 2.

Inductive flSessionResult :=
| FL_SESSION_OK | FL_SESSION_INVALID | FL_SESSION_VERSION_ERROR
| FL_SESSION_INCOMPATIBLE | FL_SESSION_STALE | FL_SESSION_TIME_RANGE.

#[export] Instance flSessionResult_eq_dec : EqDecision flSessionResult.
Proof. solve_decision. Defined.

(** [flSessionId]: its 16 bytes. *)
Definition flSessionId : Type := list Z.

Record flAudioFormat := mkAudio { a_pcm : Z; a_rate : Z; a_layout : Z }.

Record flVideoFormat := mkVideo {
  v_format : Z; v_width : Z; v_height : Z; v_fpsNum : Z; v_fpsDen : Z }.

#[export] Instance flAudioFormat_eq_dec : EqDecision flAudioFormat.
Proof. solve_decision. Defined.
#[export] Instance flVideoFormat_eq_dec : EqDecision flVideoFormat.
Proof. solve_decision. Defined.

Definition zeroAudio : flAudioFormat := mkAudio 0 0 0.
Definition zeroVideo : flVideoFormat := mkVideo 0 0 0 0 0.

Record flSessionCapabilities := mkCaps {
  cap_version : Z; cap_videoCount : Z; cap_audioCount : Z;
  cap_video : list flVideoFormat;   (* 8 entries *)
  cap_audio : list flAudioFormat;   (* 8 entries *)
}.

Record flSessionConfig := mkConfig {
  c_version : Z;
  c_sessionId : flSessionId; c_clockId : flSessionId;
  c_generation : Z;
  c_videoTrackId : Z; c_audioTrackId : Z;
  c_video : flVideoFormat;
  c_audio : flAudioFormat;
  c_epochNs : Z;
  c_videoQueueFrames : Z; c_audioQueueMs : Z;
  c_connectTimeoutMs : Z; c_idleTimeoutMs : Z;
}.

Record flClockMapping := mkMapping {
  m_sourceClockId : flSessionId; m_targetClockId : flSessionId;
  m_sourceAnchorNs : Z; m_targetAnchorNs : Z;
  m_uncertaintyNs : Z;
}.

(** ** Helpers of the anonymous namespace *)

Definition versionValid (v : Z) : bool :=
  (v =? FL_SESSION_VERSION) || (v =? FL_SESSION_OPTIONAL_TRACKS_VERSION).

Definition videoEmpty (v : flVideoFormat) : bool :=
  negb (truthy (v_format v)) && negb (truthy (v_width v)) && negb (truthy (v_height v))
  && negb (truthy (v_fpsNum v)) && negb (truthy (v_fpsDen v)).

Definition audioEmpty (a : flAudioFormat) : bool :=
  negb (truthy (a_pcm a)) && negb (truthy (a_rate a)) && negb (truthy (a_layout a)).

Definition idValid (id : flSessionId) : bool :=
  negb (foldl (fun v b => Z.lor v b) 0 id =? 0).

Definition same (a b : flSessionId) : bool := bool_decide (a = b).

Definition audioValid (a : flAudioFormat) : bool :=
  ((a_pcm a =? FL_PCM_S16) || (a_pcm a =? FL_PCM_F32))
  && (8000 <=? a_rate a) && (a_rate a <=? 192000)
  && ((a_layout a =? FL_LAYOUT_MONO) || (a_layout a =? FL_LAYOUT_STEREO)).

Definition videoValid (v : flVideoFormat) : bool :=
  (FL_FORMAT_BGRA8 <=? v_format v) && (v_format v <=? FL_FORMAT_RGBA8)
  && truthy (v_width v) && truthy (v_height v)
  && (v_width v <=? 16384) && (v_height v <=? 16384)
  && truthy (v_fpsNum v) && (v_fpsNum v <=? 1000000)
  && truthy (v_fpsDen v) && (v_fpsDen v <=? 1000000)
  && (negb (v_format v =? FL_FORMAT_NV12)
      || (negb (truthy (Z.land (v_width v) 1)) && negb (truthy (Z.land (v_height v) 1)))).

(** The two overloads of [eq]. *)
Definition eq_audio (a b : flAudioFormat) : bool :=
  (a_pcm a =? a_pcm b) && (a_rate a =? a_rate b) && (a_layout a =? a_layout b).

Definition eq_video (a b : flVideoFormat) : bool :=
  (v_format a =? v_format b) && (v_width a =? v_width b) && (v_height a =? v_height b)
  && (wrap64 (v_fpsNum a * v_fpsDen b) =? wrap64 (v_fpsNum b * v_fpsDen a)).

(** The entries a loop [for(i=0;i<count;i++)] over an 8-entry array visits. *)
Definition entries {A} (count : Z) (l : list A) : list A := take (Z.to_nat count) l.

Definition caps (c : option flSessionCapabilities) : flSessionResult :=
  match c with
  | None => FL_SESSION_INVALID
  | Some c =>
    return_if negb (versionValid (cap_version c)) with FL_SESSION_VERSION_ERROR ;;
    return_if (FL_SESSION_MAX_FORMATS <? cap_videoCount c)
           || (FL_SESSION_MAX_FORMATS <? cap_audioCount c)
           || (negb (truthy (cap_videoCount c)) && negb (truthy (cap_audioCount c)))
      with FL_SESSION_INVALID ;;
    return_if (cap_version c =? FL_SESSION_VERSION)
           && (negb (truthy (cap_videoCount c)) || negb (truthy (cap_audioCount c)))
      with FL_SESSION_INVALID ;;
    return_if existsb (fun v => negb (videoValid v)) (entries (cap_videoCount c) (cap_video c))
      with FL_SESSION_INVALID ;;
    return_if existsb (fun a => negb (audioValid a)) (entries (cap_audioCount c) (cap_audio c))
      with FL_SESSION_INVALID ;;
    FL_SESSION_OK
  end.

(** Checked [int64_t] addition: [None] is [false]. *)
Definition add (a b : Z) : option Z :=
  if ((0 <? b) && (INT64_MAX - b <? a)) || ((b <? 0) && (a <? INT64_MIN - b))
  then None else Some (a + b).

Definition put (n : nat) (v : Z) : list Z := put_le n v.
Definition get (n : nat) (p : list Z) : Z * list Z := get_le n p.

(** [std::memcpy(dst,p,16); p+=16;] *)
Definition get_id (p : list Z) : flSessionId * list Z := (take 16 p, drop 16 p).

(** ** Negotiation *)

(** [for(i..&&!chosenV.width) for(j..) if(eq(p[i],c[j])) {chosenV=p[i]; break;}] *)
Fixpoint chooseVideo (pv cv : list flVideoFormat) (chosenV : flVideoFormat) : flVideoFormat :=
  match pv with
  | [] => chosenV
  | x :: r =>
    if truthy (v_width chosenV) then chosenV
    else chooseVideo r cv (if existsb (eq_video x) cv then x else chosenV)
  end.

(** One pass of the audio loop, for one value of [preferred]. *)
Fixpoint chooseAudioPass (preferred : bool) (pa ca : list flAudioFormat)
    (chosenA : flAudioFormat) : flAudioFormat :=
  match pa with
  | [] => chosenA
  | x :: r =>
    if truthy (a_rate chosenA) then chosenA
    else if preferred && negb (a_rate x =? 48000)
    then chooseAudioPass preferred r ca chosenA
    else chooseAudioPass preferred r ca (if existsb (eq_audio x) ca then x else chosenA)
  end.

(** [for(int preferred=1;preferred>=0&&!chosenA.rate;preferred--)] *)
Definition chooseAudio (pa ca : list flAudioFormat) : flAudioFormat :=
  let first := chooseAudioPass true pa ca zeroAudio in
  if truthy (a_rate first) then first else chooseAudioPass false pa ca first.

Definition flSessionNegotiate (p c : option flSessionCapabilities)
    (v : option flVideoFormat) (a : option flAudioFormat)
  : flSessionResult * option flVideoFormat * option flAudioFormat :=
  match v, a with
  | Some v0, Some a0 =>
    match caps p with
    | FL_SESSION_OK =>
      match caps c with
      | FL_SESSION_OK =>
        match p, c with
        | Some p, Some c =>
          return_if negb (cap_version p =? cap_version c)
            with (FL_SESSION_VERSION_ERROR, v, a) ;;
          return_if negb (Bool.eqb (truthy (cap_videoCount p)) (truthy (cap_videoCount c)))
                 || negb (Bool.eqb (truthy (cap_audioCount p)) (truthy (cap_audioCount c)))
            with (FL_SESSION_INCOMPATIBLE, v, a) ;;
          let chosenV := chooseVideo (entries (cap_videoCount p) (cap_video p))
                                     (entries (cap_videoCount c) (cap_video c)) zeroVideo in
          let chosenA := chooseAudio (entries (cap_audioCount p) (cap_audio p))
                                     (entries (cap_audioCount c) (cap_audio c)) in
          return_if (truthy (cap_videoCount p) && negb (truthy (v_width chosenV)))
                 || (truthy (cap_audioCount p) && negb (truthy (a_rate chosenA)))
            with (FL_SESSION_INCOMPATIBLE, v, a) ;;
          (FL_SESSION_OK, Some chosenV, Some chosenA)
        | _, _ => (FL_SESSION_INVALID, v, a)   (* caps accepted both pointers *)
        end
      | r => (r, v, a)
      end
    | r => (r, v, a)
    end
  | _, _ => (FL_SESSION_INVALID, v, a)
  end.

(** ** Validation *)

Definition flSessionValidate (c : option flSessionConfig) : flSessionResult :=
  match c with
  | None => FL_SESSION_INVALID
  | Some c =>
    return_if negb (versionValid (c_version c)) with FL_SESSION_VERSION_ERROR ;;
    return_if negb (idValid (c_sessionId c)) || negb (idValid (c_clockId c))
           || negb (truthy (c_generation c)) || (c_epochNs c <? 0)
           || negb (truthy (c_connectTimeoutMs c)) || (60000 <? c_connectTimeoutMs c)
           || negb (truthy (c_idleTimeoutMs c)) || (60000 <? c_idleTimeoutMs c)
      with FL_SESSION_INVALID ;;
    return_if negb (truthy (c_videoTrackId c)) && negb (truthy (c_audioTrackId c))
      with FL_SESSION_INVALID ;;
    return_if (c_version c =? FL_SESSION_VERSION)
           && (negb (truthy (c_videoTrackId c)) || negb (truthy (c_audioTrackId c)))
      with FL_SESSION_INVALID ;;
    return_if truthy (c_videoTrackId c) && (c_videoTrackId c =? c_audioTrackId c)
      with FL_SESSION_INVALID ;;
    return_if (if truthy (c_videoTrackId c)
               then negb (videoValid (c_video c)) || negb (truthy (c_videoQueueFrames c))
                    || (16 <? c_videoQueueFrames c)
               else negb (videoEmpty (c_video c)) || truthy (c_videoQueueFrames c))
      with FL_SESSION_INVALID ;;
    return_if (if truthy (c_audioTrackId c)
               then negb (audioValid (c_audio c)) || negb (truthy (c_audioQueueMs c))
                    || (2000 <? c_audioQueueMs c)
               else negb (audioEmpty (c_audio c)) || truthy (c_audioQueueMs c))
      with FL_SESSION_INVALID ;;
    FL_SESSION_OK
  end.

(** One iteration of [for(const auto* offer:{p,q})]; [None] falls through. *)
Definition selectionOffer (c : flSessionConfig) (offer : flSessionCapabilities)
  : option flSessionResult :=
  if negb (cap_version offer =? c_version c) then Some FL_SESSION_VERSION_ERROR
  else if negb (Bool.eqb (truthy (cap_videoCount offer)) (truthy (c_videoTrackId c)))
       || negb (Bool.eqb (truthy (cap_audioCount offer)) (truthy (c_audioTrackId c)))
  then Some FL_SESSION_INCOMPATIBLE
  else
    let video := foldl (fun acc x => acc || eq_video (c_video c) x)
      (negb (truthy (c_videoTrackId c))) (entries (cap_videoCount offer) (cap_video offer)) in
    let audio := foldl (fun acc x => acc || eq_audio (c_audio c) x)
      (negb (truthy (c_audioTrackId c))) (entries (cap_audioCount offer) (cap_audio offer)) in
    if negb video || negb audio then Some FL_SESSION_INCOMPATIBLE else None.

Definition flSessionValidateSelection (c : option flSessionConfig)
    (p q : option flSessionCapabilities) : flSessionResult :=
  match flSessionValidate c with
  | FL_SESSION_OK =>
    match caps p with
    | FL_SESSION_OK =>
      match caps q with
      | FL_SESSION_OK =>
        match c, p, q with
        | Some c, Some p, Some q =>
          match selectionOffer c p with
          | Some r => r
          | None => match selectionOffer c q with
                    | Some r => r
                    | None => FL_SESSION_OK
                    end
          end
        | _, _, _ => FL_SESSION_INVALID   (* all three pointers were accepted *)
        end
      | r => r
      end
    | r => r
    end
  | r => r
  end.

Definition flSessionValidateReplacement (c n : option flSessionConfig) : flSessionResult :=
  match flSessionValidate c with
  | FL_SESSION_OK =>
    match flSessionValidate n with
    | FL_SESSION_OK =>
      match c, n with
      | Some c, Some n =>
        return_if negb (c_version c =? c_version n) with FL_SESSION_VERSION_ERROR ;;
        return_if negb (same (c_sessionId c) (c_sessionId n))
               || negb (c_videoTrackId c =? c_videoTrackId n)
               || negb (c_audioTrackId c =? c_audioTrackId n)
          with FL_SESSION_INVALID ;;
        if c_generation c <? c_generation n then FL_SESSION_OK else FL_SESSION_STALE
      | _, _ => FL_SESSION_INVALID   (* both pointers were accepted *)
      end
    | r => r
    end
  | r => r
  end.

(** ** Wire codec *)

Definition magicFor (version : Z) : Z :=
  if version =? FL_SESSION_VERSION then 0x31535646 else 0x32535646.

(** The bytes the [put]/[memcpy] sequence writes, before the zero padding that
    [memset] left. *)
Definition encodeFields (c : flSessionConfig) : list Z :=
  put 4 (magicFor (c_version c)) ++ put 4 (c_version c)
  ++ c_sessionId c ++ c_clockId c
  ++ put 8 (c_generation c) ++ put 4 (c_videoTrackId c) ++ put 4 (c_audioTrackId c)
  ++ put 4 (v_format (c_video c)) ++ put 4 (v_width (c_video c))
  ++ put 4 (v_height (c_video c)) ++ put 4 (v_fpsNum (c_video c))
  ++ put 4 (v_fpsDen (c_video c))
  ++ put 4 (a_pcm (c_audio c)) ++ put 4 (a_rate (c_audio c)) ++ put 4 (a_layout (c_audio c))
  ++ put 8 (wrap64 (c_epochNs c))
  ++ put 4 (c_videoQueueFrames c) ++ put 4 (c_audioQueueMs c)
  ++ put 4 (c_connectTimeoutMs c) ++ put 4 (c_idleTimeoutMs c).

(** [data] is the buffer and [length data] the [size] argument. *)
Definition flSessionEncode (c : option flSessionConfig) (data : option (list Z))
  : flSessionResult * option (list Z) :=
  match data with
  | Some buf =>
    return_if negb (Nat.eqb (length buf) FL_SESSION_WIRE_SIZE) with (FL_SESSION_INVALID, data) ;;
    match flSessionValidate c, c with
    | FL_SESSION_OK, Some c =>
      let fields := encodeFields c in
      (FL_SESSION_OK, Some (fields ++ replicate (FL_SESSION_WIRE_SIZE - length fields) 0))
    | r, _ => (r, data)
    end
  | None => (FL_SESSION_INVALID, data)
  end.

Definition flSessionDecode (data : option (list Z)) (out : option flSessionConfig)
  : flSessionResult * option flSessionConfig :=
  match data, out with
  | Some p, Some _ =>
    return_if negb (Nat.eqb (length p) FL_SESSION_WIRE_SIZE) with (FL_SESSION_INVALID, out) ;;
    let '(magic, p) := get 4 p in
    return_if negb (magic =? 0x31535646) && negb (magic =? 0x32535646)
      with (FL_SESSION_INVALID, out) ;;
    let '(version, p) := get 4 p in
    return_if negb (versionValid version) || negb (magic =? magicFor version)
      with (FL_SESSION_VERSION_ERROR, out) ;;
    let '(sessionId, p) := get_id p in
    let '(clockId, p) := get_id p in
    let '(generation, p) := get 8 p in
    let '(videoTrackId, p) := get 4 p in
    let '(audioTrackId, p) := get 4 p in
    let '(format, p) := get 4 p in
    let '(width, p) := get 4 p in
    let '(height, p) := get 4 p in
    let '(fpsNum, p) := get 4 p in
    let '(fpsDen, p) := get 4 p in
    let '(pcm, p) := get 4 p in
    let '(rate, p) := get 4 p in
    let '(layout, p) := get 4 p in
    let '(epoch, p) := get 8 p in
    return_if INT64_MAX <? epoch with (FL_SESSION_TIME_RANGE, out) ;;
    let '(videoQueueFrames, p) := get 4 p in
    let '(audioQueueMs, p) := get 4 p in
    let '(connectTimeoutMs, p) := get 4 p in
    let '(idleTimeoutMs, p) := get 4 p in
    return_if negb (all_zero p) with (FL_SESSION_INVALID, out) ;;
    let c := mkConfig version sessionId clockId generation videoTrackId audioTrackId
               (mkVideo format width height fpsNum fpsDen) (mkAudio pcm rate layout)
               epoch videoQueueFrames audioQueueMs connectTimeoutMs idleTimeoutMs in
    match flSessionValidate (Some c) with
    | FL_SESSION_OK => (FL_SESSION_OK, Some c)
    | r => (r, out)
    end
  | _, _ => (FL_SESSION_INVALID, out)
  end.

(** ** Time arithmetic *)

Definition flSessionMapPts (c : option flSessionConfig) (m : option flClockMapping)
    (maxError pts : Z) (out : option Z) : flSessionResult * option Z :=
  match flSessionValidate c, c with
  | FL_SESSION_OK, Some c =>
    match m, out with
    | Some m, Some _ =>
      return_if (pts <? 0) || negb (same (c_clockId c) (m_sourceClockId m))
             || negb (idValid (m_targetClockId m))
             || (m_sourceAnchorNs m <? 0) || (m_targetAnchorNs m <? 0)
        with (FL_SESSION_INVALID, out) ;;
      return_if maxError <? m_uncertaintyNs m with (FL_SESSION_INCOMPATIBLE, out) ;;
      return_if same (m_sourceClockId m) (m_targetClockId m)
             && (negb (m_sourceAnchorNs m =? m_targetAnchorNs m) || truthy (m_uncertaintyNs m))
        with (FL_SESSION_INVALID, out) ;;
      match add (c_epochNs c) pts with
      | None => (FL_SESSION_TIME_RANGE, out)
      | Some absolute =>
        match add absolute (- m_sourceAnchorNs m) with
        | None => (FL_SESSION_TIME_RANGE, out)
        | Some result =>
          match add result (m_targetAnchorNs m) with
          | None => (FL_SESSION_TIME_RANGE, out)
          | Some result =>
            return_if result <? 0 with (FL_SESSION_TIME_RANGE, out) ;;
            (FL_SESSION_OK, Some result)
          end
        end
      end
    | _, _ => (FL_SESSION_INVALID, out)
    end
  | r, _ => (r, out)
  end.

Definition flSessionSampleOffset (index rate : Z) (out : option Z)
  : flSessionResult * option Z :=
  match out with
  | None => (FL_SESSION_INVALID, out)
  | Some _ =>
    return_if (rate <? 8000) || (192000 <? rate) with (FL_SESSION_INVALID, out) ;;
    let seconds := index / rate in
    let part := wrap64 (index mod rate * 1000000000) / rate in
    return_if INT64_MAX / 1000000000 <? seconds with (FL_SESSION_TIME_RANGE, out) ;;
    let result := wrap64 (wrap64 (seconds * 1000000000) + part) in
    return_if INT64_MAX <? result with (FL_SESSION_TIME_RANGE, out) ;;
    (FL_SESSION_OK, Some result)
  end.

(** * Properties *)

(** ** Representable values of the C structures *)

Definition wf_id (id : flSessionId) : Prop := length id = 16%nat /\ Forall u8 id.
Definition wf_audio (a : flAudioFormat) : Prop :=
  u32 (a_pcm a) /\ u32 (a_rate a) /\ u32 (a_layout a).
Definition wf_video (v : flVideoFormat) : Prop :=
  u32 (v_format v) /\ u32 (v_width v) /\ u32 (v_height v) /\ u32 (v_fpsNum v)
  /\ u32 (v_fpsDen v).

Definition wf_config (c : flSessionConfig) : Prop :=
  u32 (c_version c) /\ wf_id (c_sessionId c) /\ wf_id (c_clockId c)
  /\ u64 (c_generation c) /\ u32 (c_videoTrackId c) /\ u32 (c_audioTrackId c)
  /\ wf_video (c_video c) /\ wf_audio (c_audio c) /\ i64 (c_epochNs c)
  /\ u32 (c_videoQueueFrames c) /\ u32 (c_audioQueueMs c)
  /\ u32 (c_connectTimeoutMs c) /\ u32 (c_idleTimeoutMs c).

(** ** Reference definitions *)

(** Negotiation, declaratively: the first producer entry the consumer also
    offers; for audio, a 48 kHz one first. *)
Definition firstCommon {A} (eqv : A -> A -> bool) (pv cv : list A) : option A :=
  List.find (fun x => existsb (eqv x) cv) pv.

Definition firstCommonAudio (pa ca : list flAudioFormat) : option flAudioFormat :=
  match List.find (fun x => (a_rate x =? 48000) && existsb (eq_audio x) ca) pa with
  | Some x => Some x
  | None => firstCommon eq_audio pa ca
  end.

(** ** Lemmas *)

Lemma existsb_negb_false {A} (f : A -> bool) l :
  existsb (fun x => negb (f x)) l = false <-> forall x, In x l -> f x = true.
Proof.
  induction l as [|y r IH]; simpl; [naive_solver|].
  rewrite orb_false_iff, negb_false_iff, IH. naive_solver.
Qed.

Lemma foldl_orb {A} (f : A -> bool) l b :
  foldl (fun acc x => acc || f x) b l = b || existsb f l.
Proof.
  revert b. induction l as [|x r IH]; intros b; simpl; [by rewrite orb_false_r|].
  by rewrite IH, orb_assoc.
Qed.

(** What [caps] accepting an offer means. *)
Lemma caps_ok c :
  caps (Some c) = FL_SESSION_OK <->
  versionValid (cap_version c) = true
  /\ cap_videoCount c <= 8 /\ cap_audioCount c <= 8
  /\ (cap_videoCount c <> 0 \/ cap_audioCount c <> 0)
  /\ (cap_version c = FL_SESSION_VERSION -> cap_videoCount c <> 0 /\ cap_audioCount c <> 0)
  /\ (forall v, In v (entries (cap_videoCount c) (cap_video c)) -> videoValid v = true)
  /\ (forall a, In a (entries (cap_audioCount c) (cap_audio c)) -> audioValid a = true).
Proof.
  unfold caps, FL_SESSION_MAX_FORMATS, truthy.
  rewrite <- !existsb_negb_false.
  destruct (versionValid (cap_version c)); simpl; [|naive_solver].
  set (ev := existsb _ _); set (ea := existsb _ _).
  destruct ((8 <? cap_videoCount c) || (8 <? cap_audioCount c) || _) eqn:E1; [split; [done|lia]|].
  destruct ((cap_version c =? FL_SESSION_VERSION) && _) eqn:E2; [split; [done|lia]|].
  destruct ev; [naive_solver|]. destruct ea; [naive_solver|].
  split; [|done]. intros _. split_and!; try done; lia.
Qed.

(** Every clause of an accepted configuration. *)
Lemma flSessionValidate_ok c :
  flSessionValidate (Some c) = FL_SESSION_OK ->
  versionValid (c_version c) = true /\ idValid (c_sessionId c) = true
  /\ idValid (c_clockId c) = true /\ c_generation c <> 0 /\ 0 <= c_epochNs c
  /\ (c_videoTrackId c <> 0 \/ c_audioTrackId c <> 0)
  /\ (c_videoTrackId c <> 0 -> videoValid (c_video c) = true)
  /\ (c_audioTrackId c <> 0 -> audioValid (c_audio c) = true).
Proof.
  unfold flSessionValidate.
  destruct (versionValid (c_version c)); [simpl|done].
  destruct (_ || _) eqn:E1; [done|]. destruct (_ && _) eqn:E2; [done|].
  destruct ((c_version c =? _) && _) eqn:E3; [done|].
  destruct (truthy (c_videoTrackId c) && _) eqn:E4; [done|].
  destruct (truthy (c_videoTrackId c)) eqn:Ev.
  all: match goal with |- (if ?b then _ else _) = _ -> _ => destruct b eqn:E5; [done|] end.
  all: destruct (truthy (c_audioTrackId c)) eqn:Ea;
    match goal with |- (if ?b then _ else _) = _ -> _ => destruct b eqn:E6; [done|] end;
    intros _; unfold truthy in *; split_and!; lia.
Qed.

Lemma videoValid_width v : videoValid v = true -> v_width v <> 0.
Proof. unfold videoValid, truthy. lia. Qed.

Lemma audioValid_rate a : audioValid a = true -> a_rate a <> 0.
Proof. unfold audioValid. lia. Qed.

Lemma chooseVideo_found pv cv x :
  truthy (v_width x) = true -> chooseVideo pv cv x = x.
Proof. intros Hx. destruct pv; simpl; [done|by rewrite Hx]. Qed.

(** The nested loop with its early exits computes the first common entry. *)
Lemma chooseVideo_spec pv cv :
  (forall v, In v pv -> videoValid v = true) ->
  chooseVideo pv cv zeroVideo = default zeroVideo (firstCommon eq_video pv cv).
Proof.
  unfold firstCommon. induction pv as [|x r IH]; intros Hv; simpl; [done|].
  destruct (existsb (eq_video x) cv) eqn:E.
  - apply chooseVideo_found. apply truthy_true, videoValid_width, Hv. by left.
  - apply IH. intros; apply Hv; by right.
Qed.

Lemma chooseAudioPass_found b pa ca x :
  truthy (a_rate x) = true -> chooseAudioPass b pa ca x = x.
Proof. intros Hx. destruct pa; simpl; [done|by rewrite Hx]. Qed.

Lemma chooseAudioPass_spec (b : bool) pa ca :
  (forall a, In a pa -> audioValid a = true) ->
  chooseAudioPass b pa ca zeroAudio =
  default zeroAudio
    (List.find (fun x => (if b then a_rate x =? 48000 else true) && existsb (eq_audio x) ca) pa).
Proof.
  induction pa as [|x r IH]; intros Ha; simpl; [done|].
  assert (forall a, In a r -> audioValid a = true) as Hr by (intros; apply Ha; by right).
  assert (truthy (a_rate x) = true) as Hx.
  { apply truthy_true, audioValid_rate, Ha. by left. }
  destruct b; simpl.
  - destruct (a_rate x =? 48000); simpl; [|by apply IH].
    destruct (existsb (eq_audio x) ca); [by apply chooseAudioPass_found|by apply IH].
  - destruct (existsb (eq_audio x) ca); [by apply chooseAudioPass_found|by apply IH].
Qed.

Lemma chooseAudio_spec pa ca :
  (forall a, In a pa -> audioValid a = true) ->
  chooseAudio pa ca = default zeroAudio (firstCommonAudio pa ca).
Proof.
  intros Ha. unfold chooseAudio, firstCommonAudio, firstCommon.
  rewrite chooseAudioPass_spec by done. simpl.
  destruct (List.find (fun x => (a_rate x =? 48000) && _) pa) as [x|] eqn:E; simpl.
  - apply find_some in E as [Hin _].
    by rewrite (proj2 (truthy_true _) (audioValid_rate _ (Ha _ Hin))).
  - change (truthy 0) with false. cbn iota. by rewrite chooseAudioPass_spec.
Qed.

Lemma firstCommon_some {A} (eqv : A -> A -> bool) pv cv x :
  firstCommon eqv pv cv = Some x -> In x pv /\ existsb (eqv x) cv = true.
Proof. unfold firstCommon. apply find_some. Qed.

Lemma firstCommonAudio_some pa ca x :
  firstCommonAudio pa ca = Some x -> In x pa /\ existsb (eq_audio x) ca = true.
Proof.
  unfold firstCommonAudio. destruct (List.find _ pa) as [y|] eqn:E.
  - intros [= <-]. apply find_some in E as [? [_ ?]%andb_true_iff]. done.
  - apply firstCommon_some.
Qed.

Lemma eq_video_refl v : eq_video v v = true.
Proof. unfold eq_video. rewrite !Z.eqb_refl. done. Qed.

Lemma eq_audio_refl a : eq_audio a a = true.
Proof. unfold eq_audio. by rewrite !Z.eqb_refl. Qed.

Lemma find_in_nonempty_entries {A} n (l : list A) x : In x (entries n l) -> n <> 0.
Proof. intros Hin ->. unfold entries in Hin. by simpl in Hin. Qed.

Lemma length_encodeFields c :
  wf_config c -> length (encodeFields c) = 112%nat.
Proof.
  intros (_ & [Hs _] & [Hc _] & _). unfold encodeFields, put.
  rewrite !length_app, !length_put_le, Hs, Hc. done.
Qed.

Lemma get_id_app id r : length id = 16%nat -> get_id (id ++ r) = (id, r).
Proof. intros H. unfold get_id. by rewrite <- H, take_app_length, drop_app_length. Qed.

Lemma get_id_inv p id r :
  get_id p = (id, r) -> forall n, length p = (16 + n)%nat -> Forall u8 p ->
  p = id ++ r /\ wf_id id /\ Forall u8 r /\ length r = n.
Proof.
  unfold get_id, wf_id. intros [= <- <-] n Hl Hp. split_and!.
  - by rewrite take_drop.
  - rewrite length_take. lia.
  - by apply Forall_take.
  - by apply Forall_drop.
  - rewrite length_drop. lia.
Qed.

Lemma versionValid_cases v :
  versionValid v = true -> v = FL_SESSION_VERSION \/ v = FL_SESSION_OPTIONAL_TRACKS_VERSION.
Proof. unfold versionValid. lia. Qed.

(** Peel the next field off a wire image under decode. *)
Ltac peel_field :=
  let peel E lem Hl Hf :=
    eapply lem in E; [|exact Hl|exact Hf];
    let Heq := fresh "Heq" in destruct E as (Heq & ? & ? & ?); clear Hl Hf in
  match goal with
  | H : (let '(_, _) := get 4 ?p in _) = _, Hl : length ?p = _, Hf : Forall u8 ?p |- _ =>
    let E := fresh "Eg" in destruct (get 4 p) as [? ?] eqn:E; peel E get_le4_inv Hl Hf
  | H : (let '(_, _) := get 8 ?p in _) = _, Hl : length ?p = _, Hf : Forall u8 ?p |- _ =>
    let E := fresh "Eg" in destruct (get 8 p) as [? ?] eqn:E; peel E get_le8_inv Hl Hf
  | H : (let '(_, _) := get_id ?p in _) = _, Hl : length ?p = _, Hf : Forall u8 ?p |- _ =>
    let E := fresh "Eg" in destruct (get_id p) as [? ?] eqn:E; peel E get_id_inv Hl Hf
  | H : (if ?b then (_, _) else _) = _ |- _ =>
    let E := fresh "Et" in destruct b eqn:E; [discriminate H|]
  end.

Lemma flSessionEncode_ok_inv c buf bytes :
  flSessionEncode (Some c) (Some buf) = (FL_SESSION_OK, Some bytes) ->
  flSessionValidate (Some c) = FL_SESSION_OK
  /\ bytes = encodeFields c ++ replicate (FL_SESSION_WIRE_SIZE - length (encodeFields c)) 0.
Proof.
  unfold flSessionEncode. destruct (negb _); [done|].
  destruct (flSessionValidate (Some c)); [|done..]. by intros [= <-].
Qed.

Lemma same_spec a b : same a b = true <-> a = b.
Proof. apply bool_decide_eq_true. Qed.

Lemma add_spec a b r : add a b = Some r <-> r = a + b /\ (b > 0 -> a + b <= INT64_MAX)
  /\ (b < 0 -> INT64_MIN <= a + b).
Proof.
  unfold add. destruct (_ || _) eqn:E.
  - split; [done|]. lia.
  - split; [intros [= <-]; lia|intros (-> & _); done].
Qed.

Lemma add_None a b : add a b = None <->
  (b > 0 /\ INT64_MAX < a + b) \/ (b < 0 /\ a + b < INT64_MIN).
Proof. unfold add. destruct (_ || _) eqn:E; [split; [lia|done]|split; [done|lia]]. Qed.

(** ** Theorems *)

(** Encoding a representable configuration and decoding the bytes gives the
    configuration back, and the message is exactly FL_SESSION_WIRE_SIZE bytes. *)
Theorem session_encode_decode (c o : flSessionConfig) (buf bytes : list Z)
    (Hwf : wf_config c)
    (Henc : flSessionEncode (Some c) (Some buf) = (FL_SESSION_OK, Some bytes)) :
  length bytes = FL_SESSION_WIRE_SIZE
  /\ flSessionDecode (Some bytes) (Some o) = (FL_SESSION_OK, Some c).
Proof.
  apply flSessionEncode_ok_inv in Henc as [Hval ->].
  assert (length (encodeFields c ++
    replicate (FL_SESSION_WIRE_SIZE - length (encodeFields c)) 0) = FL_SESSION_WIRE_SIZE)
    as Hlen.
  { rewrite length_app, length_replicate, length_encodeFields by done. done. }
  split; [done|]. unfold flSessionDecode. rewrite Hlen. cbn [negb Nat.eqb].
  rewrite length_encodeFields by done.
  pose proof (flSessionValidate_ok c Hval) as (Hv & _ & _ & _ & Hep & _).
  destruct Hwf as (? & [? ?] & [? ?] & ? & ? & ? & (? & ? & ? & ? & ?) & (? & ? & ?)
                   & ? & ? & ? & ? & ?).
  unfold encodeFields, put, get. rewrite <- !app_assoc.
  rewrite get_put_le4
    by (destruct (versionValid_cases _ Hv) as [->| ->]; compute; split; congruence).
  destruct (negb (magicFor _ =? _) && _) eqn:Em.
  { exfalso. destruct (versionValid_cases _ Hv) as [Hv'|Hv']; rewrite Hv' in Em; done. }
  rewrite get_put_le4 by done. rewrite Hv, Z.eqb_refl. cbn [negb orb].
  rewrite !get_id_app by done.
  rewrite get_put_le8 by done. do 10 rewrite get_put_le4 by done.
  rewrite get_put_le8 by apply wrap64_u64.
  rewrite wrap64_small by ulia.
  destruct (INT64_MAX <? c_epochNs c) eqn:Ee; [ulia|].
  do 4 rewrite get_put_le4 by done.
  change (all_zero (replicate (FL_SESSION_WIRE_SIZE - 112) 0)) with true. cbn [negb].
  destruct c as [? ? ? ? ? ? [] [] ? ? ? ? ?]; cbn -[flSessionValidate] in *. by rewrite Hval.
Qed.

(** The wire form is canonical - every byte string that decodes is the
    encoding of the configuration it decodes to, so no two messages mean the same
    session and no unchecked byte is accepted. *)
Theorem session_decode_encode (c o : flSessionConfig) (bytes buf : list Z)
    (Hbytes : Forall u8 bytes) (Hbuf : length buf = FL_SESSION_WIRE_SIZE)
    (Hdec : flSessionDecode (Some bytes) (Some o) = (FL_SESSION_OK, Some c)) :
  wf_config c /\ flSessionValidate (Some c) = FL_SESSION_OK
  /\ flSessionEncode (Some c) (Some buf) = (FL_SESSION_OK, Some bytes).
Proof.
  unfold flSessionDecode in Hdec.
  destruct (negb (Nat.eqb _ _)) eqn:Hl; [discriminate|].
  apply negb_false_iff, Nat.eqb_eq in Hl. unfold FL_SESSION_WIRE_SIZE in Hl.
  repeat peel_field. apply negb_false_iff in Et2. apply all_zero_inv in Et2.
  match goal with Hn : length ?l = _, E : ?l = replicate _ _ |- _ => rewrite Hn in E end.
  match type of Hdec with context [flSessionValidate (Some ?c')] => set (c0 := c') in * end.
  destruct (flSessionValidate (Some c0)) eqn:Hval; [|discriminate..].
  injection Hdec as <-.
  assert (wf_config c0) as Hwf.
  { unfold wf_config, wf_video, wf_audio; subst c0; simpl. split_and!; try done; ulia. }
  split; [done|]. split; [done|].
  unfold flSessionEncode. rewrite Hbuf, Hval. cbn [negb Nat.eqb].
  rewrite length_encodeFields by done. do 2 f_equal.
  unfold encodeFields; subst c0; simpl. rewrite wrap64_small by done.
  rewrite <- !app_assoc. apply orb_false_iff in Et0 as [_ Hm].
  apply negb_false_iff, Z.eqb_eq in Hm. rewrite <- Hm.
  subst. done.
Qed.

(** the wire form of a configuration is a bijection.  A representable
    configuration that encodes fills exactly FL_SESSION_WIRE_SIZE bytes and decodes
    to itself; and every byte string that decodes is the encoding of the valid,
    representable configuration it decodes to, so no two messages mean the same
    session and no unchecked byte is accepted. *)
Theorem session_wire_bijective (c o : flSessionConfig) (buf bytes : list Z) :
  length buf = FL_SESSION_WIRE_SIZE ->
  (wf_config c -> flSessionEncode (Some c) (Some buf) = (FL_SESSION_OK, Some bytes) ->
   length bytes = FL_SESSION_WIRE_SIZE
   /\ flSessionDecode (Some bytes) (Some o) = (FL_SESSION_OK, Some c))
  /\ (Forall u8 bytes -> flSessionDecode (Some bytes) (Some o) = (FL_SESSION_OK, Some c) ->
      wf_config c /\ flSessionValidate (Some c) = FL_SESSION_OK
      /\ flSessionEncode (Some c) (Some buf) = (FL_SESSION_OK, Some bytes)).
Proof. intros Hbuf. split; [apply session_encode_decode|intros; by eapply session_decode_encode]. Qed.

(** negotiation is the exact intersection in the producer's order - for two
    offers that agree on version and track presence the answer is the first
    producer video format the consumer offers, and the first common 48 kHz audio
    format, else the first common one; it fails with INCOMPATIBLE exactly when an
    offered track has no common format, and then leaves the outputs alone. *)
Theorem session_negotiate_spec (p c : flSessionCapabilities) (v0 : flVideoFormat)
    (a0 : flAudioFormat) (pv := entries (cap_videoCount p) (cap_video p))
    (cv := entries (cap_videoCount c) (cap_video c))
    (pa := entries (cap_audioCount p) (cap_audio p))
    (ca := entries (cap_audioCount c) (cap_audio c))
    (Hp : caps (Some p) = FL_SESSION_OK) (Hc : caps (Some c) = FL_SESSION_OK)
    (Hversion : cap_version p = cap_version c)
    (Hvideo : truthy (cap_videoCount p) = truthy (cap_videoCount c))
    (Haudio : truthy (cap_audioCount p) = truthy (cap_audioCount c)) :
  flSessionNegotiate (Some p) (Some c) (Some v0) (Some a0) =
  match firstCommon eq_video pv cv, firstCommonAudio pa ca with
  | Some v, Some a => (FL_SESSION_OK, Some v, Some a)
  | Some v, None => if truthy (cap_audioCount p)
                    then (FL_SESSION_INCOMPATIBLE, Some v0, Some a0)
                    else (FL_SESSION_OK, Some v, Some zeroAudio)
  | None, Some a => if truthy (cap_videoCount p)
                    then (FL_SESSION_INCOMPATIBLE, Some v0, Some a0)
                    else (FL_SESSION_OK, Some zeroVideo, Some a)
  | None, None => (FL_SESSION_INCOMPATIBLE, Some v0, Some a0)
  end.
Proof.
  unfold flSessionNegotiate. rewrite Hp, Hc, Hversion, Z.eqb_refl, Hvideo, Haudio,
    !eqb_reflx. cbn [negb orb].
  apply caps_ok in Hp as (_ & _ & _ & Hany & _ & Hpv & Hpa).
  rewrite chooseVideo_spec, chooseAudio_spec by done. fold pv cv pa ca.
  destruct (firstCommon eq_video pv cv) as [v|] eqn:Ev; simpl.
  - apply firstCommon_some in Ev as [Hin _].
    rewrite (proj2 (truthy_true _) (videoValid_width _ (Hpv _ Hin))), andb_false_r. simpl.
    destruct (firstCommonAudio pa ca) as [a|] eqn:Ea; simpl.
    + apply firstCommonAudio_some in Ea as [Hia _].
      by rewrite (proj2 (truthy_true _) (audioValid_rate _ (Hpa _ Hia))), andb_false_r.
    + change (truthy 0) with false. by rewrite andb_true_r.
  - change (truthy 0) with false. rewrite andb_true_r.
    destruct (firstCommonAudio pa ca) as [a|] eqn:Ea; simpl.
    + apply firstCommonAudio_some in Ea as [Hia _].
      rewrite (proj2 (truthy_true _) (audioValid_rate _ (Hpa _ Hia))), andb_false_r, orb_false_r.
      done.
    + change (truthy 0) with false. rewrite andb_true_r.
      destruct (truthy (cap_videoCount c) || truthy (cap_audioCount c)) eqn:E; [done|].
      unfold truthy in *. lia.
Qed.

Lemma selectionOffer_accepts c offer :
  cap_version offer = c_version c ->
  truthy (cap_videoCount offer) = truthy (c_videoTrackId c) ->
  truthy (cap_audioCount offer) = truthy (c_audioTrackId c) ->
  (c_videoTrackId c <> 0 -> existsb (eq_video (c_video c))
     (entries (cap_videoCount offer) (cap_video offer)) = true) ->
  (c_audioTrackId c <> 0 -> existsb (eq_audio (c_audio c))
     (entries (cap_audioCount offer) (cap_audio offer)) = true) ->
  selectionOffer c offer = None.
Proof.
  intros Hver Hv Ha Hev Hea. unfold selectionOffer.
  rewrite Hver, Z.eqb_refl, Hv, Ha, !eqb_reflx, !foldl_orb. cbn [negb orb].
  assert (negb (truthy (c_videoTrackId c)) || existsb (eq_video (c_video c))
     (entries (cap_videoCount offer) (cap_video offer)) = true) as ->.
  { destruct (truthy (c_videoTrackId c)) eqn:E; [|done]. apply Hev. by apply truthy_true. }
  assert (negb (truthy (c_audioTrackId c)) || existsb (eq_audio (c_audio c))
     (entries (cap_audioCount offer) (cap_audio offer)) = true) as ->; [|done].
  destruct (truthy (c_audioTrackId c)) eqn:E; [|done]. apply Hea. by apply truthy_true.
Qed.

Lemma existsb_in {A} (f : A -> bool) l x : In x l -> f x = true -> existsb f l = true.
Proof. intros. apply existsb_exists. eauto. Qed.

(** what negotiation selects, selection validation accepts: a valid
    configuration of the agreed version and tracks that carries the negotiated
    formats passes flSessionValidateSelection against both offers. *)
Theorem session_negotiated_selection_valid (p c : flSessionCapabilities) (v v0 : flVideoFormat)
    (a a0 : flAudioFormat) (cfg : flSessionConfig)
    (Hneg : flSessionNegotiate (Some p) (Some c) (Some v0) (Some a0)
            = (FL_SESSION_OK, Some v, Some a))
    (Hcfg : flSessionValidate (Some cfg) = FL_SESSION_OK)
    (Hver : c_version cfg = cap_version p)
    (Hv : truthy (c_videoTrackId cfg) = truthy (cap_videoCount p))
    (Ha : truthy (c_audioTrackId cfg) = truthy (cap_audioCount p))
    (Hfv : c_video cfg = v) (Hfa : c_audio cfg = a) :
  flSessionValidateSelection (Some cfg) (Some p) (Some c) = FL_SESSION_OK.
Proof.
  unfold flSessionNegotiate in Hneg.
  destruct (caps (Some p)) eqn:Hp; [|discriminate..].
  destruct (caps (Some c)) eqn:Hc; [|discriminate..].
  destruct (negb (_ =? _)) eqn:Eq1; [discriminate|].
  destruct (negb (Bool.eqb _ _) || _) eqn:Eq2; [discriminate|].
  destruct ((truthy (cap_videoCount p) && _) || _) eqn:Eq3; [discriminate|].
  injection Hneg as Ev Ea. bools.
  apply Z.eqb_eq in Eq1.
  repeat match goal with H : Bool.eqb _ _ = true |- _ => apply eqb_prop in H end.
  pose proof (proj1 (caps_ok p) Hp) as (_ & _ & _ & _ & _ & Hpv & Hpa).
  rewrite chooseVideo_spec in * by done. rewrite chooseAudio_spec in * by done.
  unfold flSessionValidateSelection. rewrite Hcfg, Hp, Hc.
  assert (forall l, In v l -> existsb (eq_video (c_video cfg)) l = true) as Hiv.
  { intros l Hl. apply existsb_in with v; [done|]. rewrite Hfv. apply eq_video_refl. }
  assert (forall l, In a l -> existsb (eq_audio (c_audio cfg)) l = true) as Hia.
  { intros l Hl. apply existsb_in with a; [done|]. rewrite Hfa. apply eq_audio_refl. }
  assert (c_videoTrackId cfg <> 0 -> In v (entries (cap_videoCount p) (cap_video p)) /\
    existsb (eq_video v) (entries (cap_videoCount c) (cap_video c)) = true) as Hvc.
  { intros Hn. apply truthy_true in Hn. rewrite Hv in Hn.
    destruct (firstCommon eq_video _ _) as [w|] eqn:Ew; simpl in *; subst.
    - by apply firstCommon_some in Ew.
    - rewrite Hn in *. discriminate. }
  assert (c_audioTrackId cfg <> 0 -> In a (entries (cap_audioCount p) (cap_audio p)) /\
    existsb (eq_audio a) (entries (cap_audioCount c) (cap_audio c)) = true) as Hac.
  { intros Hn. apply truthy_true in Hn. rewrite Ha in Hn.
    destruct (firstCommonAudio _ _) as [w|] eqn:Ew; simpl in *; subst.
    - by apply firstCommonAudio_some in Ew.
    - rewrite Hn in *. discriminate. }
  rewrite selectionOffer_accepts; [|by rewrite ?Hver|congruence|congruence|..].
  - rewrite selectionOffer_accepts; [done|congruence|congruence|congruence|..]; intros Hn.
    + rewrite Hfv. by apply Hvc.
    + rewrite Hfa. by apply Hac.
  - intros Hn. by apply Hiv, Hvc.
  - intros Hn. by apply Hia, Hac.
Qed.

(** [n] may replace [c] on a running session. *)
Definition replaces (c n : flSessionConfig) : Prop :=
  flSessionValidateReplacement (Some c) (Some n) = FL_SESSION_OK.

Lemma replaces_inv c n :
  replaces c n ->
  c_generation c < c_generation n /\ c_sessionId c = c_sessionId n
  /\ c_version c = c_version n
  /\ c_videoTrackId c = c_videoTrackId n /\ c_audioTrackId c = c_audioTrackId n
  /\ flSessionValidate (Some n) = FL_SESSION_OK.
Proof.
  unfold replaces, flSessionValidateReplacement.
  destruct (flSessionValidate (Some c)); [|done..].
  destruct (flSessionValidate (Some n)); [|done..].
  destruct (negb _) eqn:E1; [done|]. destruct (_ || _) eqn:E2; [done|].
  destruct (_ <? _) eqn:E3; [|done]. intros _.
  apply orb_false_iff in E2 as [[E2 ?]%orb_false_iff ?].
  apply negb_false_iff, same_spec in E2. split_and!; try done; lia.
Qed.

(** Along any chain of accepted replacements the session identity, version
    and tracks never change and the generation strictly increases, so a
    superseded configuration can never be replayed. *)
Theorem session_replacement_chain (c n : flSessionConfig) (Hchain : tc replaces c n) :
  c_generation c < c_generation n /\ c_sessionId c = c_sessionId n
  /\ c_version c = c_version n
  /\ c_videoTrackId c = c_videoTrackId n /\ c_audioTrackId c = c_audioTrackId n
  /\ ~ replaces n c.
Proof.
  assert (c_generation c < c_generation n /\ c_sessionId c = c_sessionId n
    /\ c_version c = c_version n /\ c_videoTrackId c = c_videoTrackId n
    /\ c_audioTrackId c = c_audioTrackId n) as (Hg & ? & ? & ? & ?).
  { induction Hchain as [x y H|x y z H _ (? & ? & ? & ? & ?)];
      apply replaces_inv in H as (? & ? & ? & ? & ? & _); split_and!; congruence || lia. }
  split_and!; try done. intros (? & _)%replaces_inv. lia.
Qed.

(** timestamp mapping is exact and never wraps - for accepted arguments the
    mapped time is epoch + pts - source anchor + target anchor whenever epoch +
    pts and the result are representable and the result is nonnegative, and
    TIME_RANGE with the output untouched otherwise. *)
Theorem session_map_pts_exact (c : flSessionConfig) (m : flClockMapping)
    (maxError pts out0 : Z) (result := c_epochNs c + pts - m_sourceAnchorNs m + m_targetAnchorNs m)
    (Hc : flSessionValidate (Some c) = FL_SESSION_OK)
    (Hclock : c_clockId c = m_sourceClockId m) (Htarget : idValid (m_targetClockId m) = true)
    (Hepoch : i64 (c_epochNs c)) (Hs : 0 <= m_sourceAnchorNs m <= INT64_MAX) (Ht : 0 <= m_targetAnchorNs m <= INT64_MAX)
    (Hpts : 0 <= pts <= INT64_MAX) (Herr : m_uncertaintyNs m <= maxError)
    (Hident : m_sourceClockId m = m_targetClockId m ->
              m_sourceAnchorNs m = m_targetAnchorNs m /\ m_uncertaintyNs m = 0) :
  flSessionMapPts (Some c) (Some m) maxError pts (Some out0) =
  if bool_decide (c_epochNs c + pts <= INT64_MAX /\ 0 <= result <= INT64_MAX)
  then (FL_SESSION_OK, Some result) else (FL_SESSION_TIME_RANGE, Some out0).
Proof.
  apply flSessionValidate_ok in Hc as Hv. destruct Hv as (_ & _ & _ & _ & Hep & _).
  unfold flSessionMapPts. rewrite Hc.
  replace (same (c_clockId c) (m_sourceClockId m)) with true by (symmetry; by apply same_spec).
  rewrite Htarget. cbn [negb].
  replace ((pts <? 0) || false || false || (m_sourceAnchorNs m <? 0)
    || (m_targetAnchorNs m <? 0)) with false by lia.
  replace (maxError <? m_uncertaintyNs m) with false by lia.
  replace (same (m_sourceClockId m) (m_targetClockId m) &&
    (negb (m_sourceAnchorNs m =? m_targetAnchorNs m) || truthy (m_uncertaintyNs m))) with false.
  2: { destruct (same _ _) eqn:E; [|done]. apply same_spec in E.
       destruct (Hident E). unfold truthy. lia. }
  destruct (add (c_epochNs c) pts) as [s1|] eqn:E1.
  2: { apply add_None in E1. case_bool_decide; [unfold INT64_MIN in *; lia|done]. }
  apply add_spec in E1 as (-> & ? & ?).
  destruct (add _ (- _)) as [s2|] eqn:E2.
  2: { apply add_None in E2. unfold INT64_MIN, INT64_MAX in *. lia. }
  apply add_spec in E2 as (-> & ? & ?).
  destruct (add _ (m_targetAnchorNs m)) as [s3|] eqn:E3.
  2: { apply add_None in E3. case_bool_decide; [unfold result in *|done].
       unfold INT64_MIN, INT64_MAX in *; lia. }
  apply add_spec in E3 as (-> & ? & ?).
  assert (c_epochNs c + pts + - m_sourceAnchorNs m + m_targetAnchorNs m = result) as ->
    by (unfold result; lia).
  case_bool_decide as Hd.
  - replace (result <? 0) with false by lia. done.
  - destruct (result <? 0) eqn:Er; [done|]. exfalso. apply Hd.
    unfold result, i64, INT64_MAX, INT64_MIN in *. lia.
Qed.

(** a sample offset is floor(index * 10^9 / rate) exactly - the split into
    whole seconds and remainder neither rounds nor overflows - and is refused
    with TIME_RANGE precisely when it does not fit an int64. *)
Theorem session_sample_offset_exact (index rate out0 : Z)
    (Hindex : u64 index) (Hrate : 8000 <= rate <= 192000) :
  flSessionSampleOffset index rate (Some out0) =
  if index * 1000000000 / rate <=? INT64_MAX
  then (FL_SESSION_OK, Some (index * 1000000000 / rate))
  else (FL_SESSION_TIME_RANGE, Some out0).
Proof.
  unfold flSessionSampleOffset.
  replace ((rate <? 8000) || (192000 <? rate)) with false by lia.
  pose proof (Z.mod_pos_bound index rate ltac:(lia)) as Hm.
  pose proof (Z.div_mod index rate ltac:(lia)) as Hd.
  set (sec := index / rate) in *. set (rem := index mod rate) in *.
  assert (0 <= sec) as Hsec by (apply Z.div_pos; ulia).
  rewrite (wrap64_small (rem * 1000000000)) by ulia.
  assert (index * 1000000000 / rate = sec * 1000000000 + rem * 1000000000 / rate) as ->.
  { replace (index * 1000000000) with (rem * 1000000000 + sec * 1000000000 * rate) by lia.
    rewrite Z.div_add by lia. lia. }
  assert (0 <= rem * 1000000000 / rate < 1000000000) as Hpart.
  { split; [apply Z.div_pos; lia|apply Z.div_lt_upper_bound; lia]. }
  set (part := rem * 1000000000 / rate) in *.
  change (INT64_MAX / 1000000000) with 9223372036.
  destruct (9223372036 <? sec) eqn:E.
  - replace (sec * 1000000000 + part <=? INT64_MAX) with false by ulia. done.
  - rewrite (wrap64_small (sec * 1000000000)) by ulia. rewrite wrap64_small by ulia.
    destruct (INT64_MAX <? sec * 1000000000 + part) eqn:E2.
    + replace (sec * 1000000000 + part <=? INT64_MAX) with false by lia. done.
    + replace (sec * 1000000000 + part <=? INT64_MAX) with true by lia. done.
Qed.

(** ** Witnesses at concrete inputs *)

Definition exId (n : Z) : flSessionId := n :: replicate 15 0.
Definition exVideo : flVideoFormat := mkVideo 2 1280 720 60 1.
Definition exVideo' : flVideoFormat := mkVideo 2 1280 720 120 2.
Definition exAudio (rate : Z) : flAudioFormat := mkAudio 1 rate 2.
Definition exCfg (gen : Z) : flSessionConfig :=
  mkConfig 1 (exId 7) (exId 9) gen 1 2 exVideo (exAudio 48000) 1000 4 100 5000 2000.
Definition exCapsP : flSessionCapabilities :=
  mkCaps 1 1 2 (exVideo :: replicate 7 zeroVideo)
    (exAudio 44100 :: exAudio 48000 :: replicate 6 zeroAudio).
Definition exCapsC : flSessionCapabilities :=
  mkCaps 1 1 2 (exVideo' :: replicate 7 zeroVideo)
    (exAudio 44100 :: exAudio 48000 :: replicate 6 zeroAudio).
Definition exWire (gen : Z) : list Z :=
  encodeFields (exCfg gen) ++ replicate 48 0.

Lemma exCfg_wf gen : u64 gen -> wf_config (exCfg gen).
Proof.
  intros Hg. unfold wf_config, wf_id, wf_video, wf_audio, exCfg, exId; simpl.
  split_and!; try done; try ulia; repeat constructor; ulia.
Qed.

Lemma exWire_u8 : Forall u8 (exWire 3).
Proof.
  let l := eval vm_compute in (exWire 3) in change (exWire 3) with l.
  repeat (constructor; [ulia|]). constructor.
Qed.

Lemma session_wire_bijective_witness :
  (length (exWire 3) = FL_SESSION_WIRE_SIZE
   /\ flSessionDecode (Some (exWire 3)) (Some (exCfg 1)) = (FL_SESSION_OK, Some (exCfg 3)))
  /\ (wf_config (exCfg 3) /\ flSessionValidate (Some (exCfg 3)) = FL_SESSION_OK
      /\ flSessionEncode (Some (exCfg 3)) (Some (replicate 160 9)) = (FL_SESSION_OK, Some (exWire 3))).
Proof.
  destruct (session_wire_bijective (exCfg 3) (exCfg 1) (replicate 160 9) (exWire 3) eq_refl) as [H1 H2].
  split; [apply H1|apply H2].
  - apply exCfg_wf. ulia.
  - vm_compute. reflexivity.
  - apply exWire_u8.
  - vm_compute. reflexivity.
Defined.

(** 48 kHz is chosen although 44.1 kHz is listed first, and 60/1 equals 120/2. *)
Lemma session_negotiate_spec_witness :
  flSessionNegotiate (Some exCapsP) (Some exCapsC) (Some zeroVideo) (Some zeroAudio)
  = (FL_SESSION_OK, Some exVideo, Some (exAudio 48000)).
Proof.
  rewrite (session_negotiate_spec exCapsP exCapsC zeroVideo zeroAudio);
    [vm_compute; reflexivity|reflexivity..].
Defined.

Lemma session_negotiated_selection_valid_witness :
  flSessionValidateSelection (Some (exCfg 3)) (Some exCapsP) (Some exCapsC) = FL_SESSION_OK.
Proof.
  apply (session_negotiated_selection_valid exCapsP exCapsC exVideo zeroVideo
    (exAudio 48000) zeroAudio (exCfg 3)); vm_compute; reflexivity.
Defined.

Lemma session_replacement_chain_witness :
  c_generation (exCfg 3) < c_generation (exCfg 8) /\ ~ replaces (exCfg 8) (exCfg 3).
Proof.
  destruct (session_replacement_chain (exCfg 3) (exCfg 8)) as (H & _ & _ & _ & _ & Hn).
  - apply tc_l with (exCfg 5); [|apply tc_once]; vm_compute; reflexivity.
  - split; [exact H|exact Hn].
Defined.

Lemma session_map_pts_exact_witness :
  flSessionMapPts (Some (exCfg 3)) (Some (mkMapping (exId 9) (exId 5) 400 90 10)) 50 20 (Some 0)
  = (FL_SESSION_OK, Some 710).
Proof.
  rewrite (session_map_pts_exact (exCfg 3) (mkMapping (exId 9) (exId 5) 400 90 10) 50 20 0);
    simpl; try reflexivity; try ulia; done.
Defined.

Lemma session_sample_offset_exact_witness :
  flSessionSampleOffset 44101 44100 (Some 0) = (FL_SESSION_OK, Some 1000022675).
Proof.
  rewrite (session_sample_offset_exact 44101 44100 0); [reflexivity|ulia|lia].
Defined.
