(* ===== verification/Memory.v ===== *)
(** * Boundary memory policy (src/framelink_memory.cpp)

    Requirements, candidate paths, their evaluation, the combination of several
    participants' requirements, and the 64-byte wire codec of a requirement.

    Pointers are [option]s and out parameters are returned, as in [Session]. *)
From S2P Require Import Prelude.

Definition FL_MEMORY_VERSION : Z := 1.
Definition FL_MEMORY_REQUIREMENTS_WIRE_SIZE : nat := 64.
Definition FL_MEMORY_USAGE_ALL : Z := 0x1f.
Definition FL_MEMORY_RESOURCE_ALL : Z := 0x0f.
Definition FL_MEMORY_OPERATIONS_ALL : Z := 0x0f.
Definition FL_MEMORY_MAX_ENDPOINTS : nat := 16.

Inductive flMemoryResult :=
| FL_MEMORY_OK | FL_MEMORY_INVALID | FL_MEMORY_VERSION_MISMATCH | FL_MEMORY_INCOMPATIBLE.

#[export] Instance flMemoryResult_eq_dec : EqDecision flMemoryResult.
Proof. solve_decision. Defined.

Record flMemoryRequirements := mkRequirements {
  rq_version : Z; rq_requiredUsage : Z; rq_preferredUsage : Z;
  rq_allowedResourceTypes : Z; rq_allowedOperations : Z;
  rq_reserved : list Z;   (* 3 words *)
}.

Record flMemoryPath := mkPath {
  pa_version : Z; pa_resourceType : Z; pa_supportedUsage : Z; pa_operations : Z;
  pa_reserved : list Z;   (* 4 words *)
}.

Record flMemoryDecision := mkDecision {
  d_missingRequiredUsage : Z; d_unmetPreferredUsage : Z;
  d_rejectedResourceType : Z; d_forbiddenOperations : Z;
}.

(** [template <size_t N> bool zero(const uint32_t (&values)[N])] *)
Definition zero (values : list Z) : bool := forallb (fun v => negb (truthy v)) values.

Definition put (value : Z) : list Z := put_le 4 value.
Definition get (p : list Z) : Z * list Z := get_le 4 p.

Definition flMemoryRequirementsInit (out : option flMemoryRequirements)
  : flMemoryResult * option flMemoryRequirements :=
  match out with
  | None => (FL_MEMORY_INVALID, out)
  | Some _ =>
    (FL_MEMORY_OK, Some (mkRequirements FL_MEMORY_VERSION 0 0 FL_MEMORY_RESOURCE_ALL 0 [0; 0; 0]))
  end.

Definition flMemoryRequirementsValidate (r : option flMemoryRequirements) : flMemoryResult :=
  match r with
  | None => FL_MEMORY_INVALID
  | Some r =>
    return_if negb (rq_version r =? FL_MEMORY_VERSION) with FL_MEMORY_VERSION_MISMATCH ;;
    return_if truthy (Z.land (Z.lor (rq_requiredUsage r) (rq_preferredUsage r))
                        (not32 FL_MEMORY_USAGE_ALL))
           || negb (truthy (rq_allowedResourceTypes r))
           || truthy (Z.land (rq_allowedResourceTypes r) (not32 FL_MEMORY_RESOURCE_ALL))
           || truthy (Z.land (rq_allowedOperations r) (not32 FL_MEMORY_OPERATIONS_ALL))
           || negb (zero (rq_reserved r))
      with FL_MEMORY_INVALID ;;
    FL_MEMORY_OK
  end.

Definition flMemoryPathValidate (p : option flMemoryPath) : flMemoryResult :=
  match p with
  | None => FL_MEMORY_INVALID
  | Some p =>
    return_if negb (pa_version p =? FL_MEMORY_VERSION) with FL_MEMORY_VERSION_MISMATCH ;;
    return_if negb (truthy (pa_resourceType p))
           || truthy (Z.land (pa_resourceType p) (wrap32 (pa_resourceType p - 1)))
           || truthy (Z.land (pa_resourceType p) (not32 FL_MEMORY_RESOURCE_ALL))
           || truthy (Z.land (pa_supportedUsage p) (not32 FL_MEMORY_USAGE_ALL))
           || truthy (Z.land (pa_operations p) (not32 FL_MEMORY_OPERATIONS_ALL))
           || negb (zero (pa_reserved p))
      with FL_MEMORY_INVALID ;;
    FL_MEMORY_OK
  end.

Definition decide_path (r : flMemoryRequirements) (p : flMemoryPath) : flMemoryDecision :=
  mkDecision
    (Z.land (rq_requiredUsage r) (not32 (pa_supportedUsage p)))
    (Z.land (rq_preferredUsage r) (not32 (pa_supportedUsage p)))
    (Z.land (pa_resourceType p) (not32 (rq_allowedResourceTypes r)))
    (Z.land (pa_operations p) (not32 (rq_allowedOperations r))).

Definition flMemoryEvaluate (r : option flMemoryRequirements) (p : option flMemoryPath)
    (out : option flMemoryDecision) : flMemoryResult * option flMemoryDecision :=
  match out with
  | None => (FL_MEMORY_INVALID, out)
  | Some _ =>
    match flMemoryRequirementsValidate r, flMemoryPathValidate p, r, p with
    | FL_MEMORY_OK, FL_MEMORY_OK, Some r, Some p =>
      let d := decide_path r p in
      (if truthy (d_missingRequiredUsage d) || truthy (d_rejectedResourceType d)
          || truthy (d_forbiddenOperations d)
       then FL_MEMORY_INCOMPATIBLE else FL_MEMORY_OK, Some d)
    | FL_MEMORY_OK, e, _, _ => (e, out)
    | e, _, _, _ => (e, out)
    end
  end.

(** The loop of flMemoryRequirementsCombine: stop at the first invalid entry. *)
Fixpoint combineLoop (rs : list flMemoryRequirements) (combined : flMemoryRequirements)
  : flMemoryResult * flMemoryRequirements :=
  match rs with
  | [] => (FL_MEMORY_OK, combined)
  | r :: rest =>
    match flMemoryRequirementsValidate (Some r) with
    | FL_MEMORY_OK =>
      combineLoop rest
        (mkRequirements (rq_version combined)
           (Z.lor (rq_requiredUsage combined) (rq_requiredUsage r))
           (Z.lor (rq_preferredUsage combined) (rq_preferredUsage r))
           (Z.land (rq_allowedResourceTypes combined) (rq_allowedResourceTypes r))
           (Z.land (rq_allowedOperations combined) (rq_allowedOperations r))
           (rq_reserved combined))
    | e => (e, combined)
    end
  end.

Definition combineStart : flMemoryRequirements :=
  mkRequirements FL_MEMORY_VERSION 0 0 FL_MEMORY_RESOURCE_ALL FL_MEMORY_OPERATIONS_ALL [0; 0; 0].

(** [requirements]/[count] are the list and its length. *)
Definition flMemoryRequirementsCombine (requirements : option (list flMemoryRequirements))
    (out : option flMemoryRequirements) : flMemoryResult * option flMemoryRequirements :=
  match requirements, out with
  | Some rs, Some _ =>
    return_if Nat.eqb (length rs) 0 || Nat.ltb FL_MEMORY_MAX_ENDPOINTS (length rs)
      with (FL_MEMORY_INVALID, out) ;;
    match combineLoop rs combineStart with
    | (FL_MEMORY_OK, combined) =>
      return_if negb (truthy (rq_allowedResourceTypes combined))
        with (FL_MEMORY_INCOMPATIBLE, out) ;;
      (FL_MEMORY_OK, Some combined)
    | (e, _) => (e, out)
    end
  | _, _ => (FL_MEMORY_INVALID, out)
  end.

(** First loop of flMemoryEvaluateBoundary: validation and the operation union. *)
Fixpoint boundaryOperations (rs : list flMemoryRequirements) (ps : list flMemoryPath)
    (resourceType0 operations : Z) : flMemoryResult * Z :=
  match rs, ps with
  | r :: rs', p :: ps' =>
    match flMemoryRequirementsValidate (Some r) with
    | FL_MEMORY_OK =>
      match flMemoryPathValidate (Some p) with
      | FL_MEMORY_OK =>
        return_if negb (pa_resourceType p =? resourceType0) with (FL_MEMORY_INVALID, operations) ;;
        boundaryOperations rs' ps' resourceType0 (Z.lor operations (pa_operations p))
      | e => (e, operations)
      end
    | e => (e, operations)
    end
  | _, _ => (FL_MEMORY_OK, operations)
  end.

Definition with_operations (p : flMemoryPath) (ops : Z) : flMemoryPath :=
  mkPath (pa_version p) (pa_resourceType p) (pa_supportedUsage p) ops (pa_reserved p).

Definition zeroDecision : flMemoryDecision := mkDecision 0 0 0 0.

(** Second loop: every endpoint is evaluated against the union. *)
Fixpoint boundaryDecisions (rs : list flMemoryRequirements) (ps : list flMemoryPath)
    (operations : Z) (result : flMemoryResult) : flMemoryResult * list flMemoryDecision :=
  match rs, ps with
  | r :: rs', p :: ps' =>
    let '(e, d) := flMemoryEvaluate (Some r) (Some (with_operations p operations))
                     (Some zeroDecision) in
    let '(result', ds) := boundaryDecisions rs' ps' operations
      (match e with FL_MEMORY_OK => result | _ => FL_MEMORY_INCOMPATIBLE end) in
    (result', default zeroDecision d :: ds)
  | _, _ => (result, [])
  end.

(** [decisions] is the caller's array; its first [count] entries are written. *)
Definition flMemoryEvaluateBoundary (requirements : option (list flMemoryRequirements))
    (paths : option (list flMemoryPath)) (count : nat) (out : option (list flMemoryDecision))
  : flMemoryResult * option (list flMemoryDecision) :=
  match requirements, paths, out with
  | Some rs, Some ps, Some ds0 =>
    return_if Nat.eqb count 0 || Nat.ltb FL_MEMORY_MAX_ENDPOINTS count
      with (FL_MEMORY_INVALID, out) ;;
    let rs := take count rs in
    let ps := take count ps in
    match boundaryOperations rs ps (pa_resourceType (default (mkPath 0 0 0 0 []) (ps !! 0%nat))) 0 with
    | (FL_MEMORY_OK, operations) =>
      let '(result, ds) := boundaryDecisions rs ps operations FL_MEMORY_OK in
      (result, Some (ds ++ drop count ds0))
    | (e, _) => (e, out)
    end
  | _, _, _ => (FL_MEMORY_INVALID, out)
  end.

Definition FMR1 : Z := 0x31524d46.

Definition encodeFields (r : flMemoryRequirements) : list Z :=
  put FMR1 ++ put (rq_version r) ++ put (rq_requiredUsage r) ++ put (rq_preferredUsage r)
  ++ put (rq_allowedResourceTypes r) ++ put (rq_allowedOperations r).

(** [data] is the buffer and [length data] the [size] argument. *)
Definition flMemoryRequirementsEncode (r : option flMemoryRequirements) (data : option (list Z))
  : flMemoryResult * option (list Z) :=
  match data with
  | None => (FL_MEMORY_INVALID, data)
  | Some buf =>
    return_if negb (Nat.eqb (length buf) FL_MEMORY_REQUIREMENTS_WIRE_SIZE)
      with (FL_MEMORY_INVALID, data) ;;
    match flMemoryRequirementsValidate r, r with
    | FL_MEMORY_OK, Some r =>
      let fields := encodeFields r in
      (FL_MEMORY_OK,
       Some (fields ++ replicate (FL_MEMORY_REQUIREMENTS_WIRE_SIZE - length fields) 0))
    | e, _ => (e, data)
    end
  end.

Definition flMemoryRequirementsDecode (data : option (list Z)) (out : option flMemoryRequirements)
  : flMemoryResult * option flMemoryRequirements :=
  match data, out with
  | Some p, Some _ =>
    return_if negb (Nat.eqb (length p) FL_MEMORY_REQUIREMENTS_WIRE_SIZE)
      with (FL_MEMORY_INVALID, out) ;;
    let '(magic, p) := get p in
    return_if negb (magic =? FMR1) with (FL_MEMORY_INVALID, out) ;;
    let '(version, p) := get p in
    return_if negb (version =? FL_MEMORY_VERSION) with (FL_MEMORY_VERSION_MISMATCH, out) ;;
    let '(requiredUsage, p) := get p in
    let '(preferredUsage, p) := get p in
    let '(allowedResourceTypes, p) := get p in
    let '(allowedOperations, p) := get p in
    return_if negb (all_zero p) with (FL_MEMORY_INVALID, out) ;;
    let r := mkRequirements version requiredUsage preferredUsage allowedResourceTypes
               allowedOperations [0; 0; 0] in
    match flMemoryRequirementsValidate (Some r) with
    | FL_MEMORY_OK => (FL_MEMORY_OK, Some r)
    | e => (e, out)
    end
  | _, _ => (FL_MEMORY_INVALID, out)
  end.

(** * Properties *)

(** ** Representable values *)

Definition wf_requirements (r : flMemoryRequirements) : Prop :=
  u32 (rq_version r) /\ u32 (rq_requiredUsage r) /\ u32 (rq_preferredUsage r)
  /\ u32 (rq_allowedResourceTypes r) /\ u32 (rq_allowedOperations r)
  /\ length (rq_reserved r) = 3%nat.

Definition wf_path (p : flMemoryPath) : Prop :=
  u32 (pa_version p) /\ u32 (pa_resourceType p) /\ u32 (pa_supportedUsage p)
  /\ u32 (pa_operations p).

(** [r] and [p] pass validation. *)
Definition valid_requirements (r : flMemoryRequirements) : Prop :=
  wf_requirements r /\ flMemoryRequirementsValidate (Some r) = FL_MEMORY_OK.
Definition valid_path (p : flMemoryPath) : Prop :=
  wf_path p /\ flMemoryPathValidate (Some p) = FL_MEMORY_OK.

(** The policy, on sets of bits: the path supports every required usage, its
    resource type is allowed and it performs only allowed operations. *)
Definition satisfies (r : flMemoryRequirements) (p : flMemoryPath) : Prop :=
  mask_incl (rq_requiredUsage r) (pa_supportedUsage p)
  /\ mask_incl (pa_resourceType p) (rq_allowedResourceTypes r)
  /\ mask_incl (pa_operations p) (rq_allowedOperations r).

(** ** Lemmas *)

Lemma truthy_land_not32 a b : u32 a -> truthy (Z.land a (not32 b)) = false <-> mask_incl a b.
Proof. intros Ha. by rewrite truthy_false, land_not32_0. Qed.

Lemma zero_replicate n : zero (replicate n 0) = true.
Proof. by induction n. Qed.

Lemma zero_inv l : zero l = true -> l = replicate (length l) 0.
Proof.
  induction l as [|x r IH]; simpl; [done|].
  intros [Hx Hr]%andb_true_iff. apply negb_true_iff, truthy_false in Hx as ->.
  f_equal. by apply IH.
Qed.

Lemma requirements_valid_iff r :
  wf_requirements r ->
  flMemoryRequirementsValidate (Some r) = FL_MEMORY_OK <->
  rq_version r = FL_MEMORY_VERSION
  /\ mask_incl (rq_requiredUsage r) FL_MEMORY_USAGE_ALL
  /\ mask_incl (rq_preferredUsage r) FL_MEMORY_USAGE_ALL
  /\ rq_allowedResourceTypes r <> 0
  /\ mask_incl (rq_allowedResourceTypes r) FL_MEMORY_RESOURCE_ALL
  /\ mask_incl (rq_allowedOperations r) FL_MEMORY_OPERATIONS_ALL
  /\ rq_reserved r = [0; 0; 0].
Proof.
  intros (_ & Hr & Hp & Ht & Ho & Hres).
  assert (zero (rq_reserved r) = true <-> rq_reserved r = [0; 0; 0]) as Hz.
  { split; [intros E%zero_inv; by rewrite Hres in E|by intros ->]. }
  assert (truthy (Z.land (Z.lor (rq_requiredUsage r) (rq_preferredUsage r))
    (not32 FL_MEMORY_USAGE_ALL)) = false <->
    mask_incl (rq_requiredUsage r) FL_MEMORY_USAGE_ALL
    /\ mask_incl (rq_preferredUsage r) FL_MEMORY_USAGE_ALL) as Hu.
  { by rewrite truthy_land_not32, mask_incl_lor_l by auto with fl. }
  unfold flMemoryRequirementsValidate.
  rewrite <- (truthy_land_not32 (rq_allowedResourceTypes r)),
    <- (truthy_land_not32 (rq_allowedOperations r)), <- truthy_true, <- Hz by done.
  destruct (rq_version r =? FL_MEMORY_VERSION) eqn:Ev; simpl; [|split; [done|lia]].
  destruct (_ || _) eqn:E.
  - split; [done|]. intros (_ & H1 & H2 & H3 & H4 & H5 & H6). exfalso.
    by rewrite (proj2 Hu (conj H1 H2)), H3, H4, H5, H6 in E.
  - split; [|done]. intros _. bools. destruct Hu as [Hu _]. destruct Hu; [done|].
    split_and!; try done; lia.
Qed.

Lemma valid_requirements_mask r :
  valid_requirements r ->
  mask_incl (rq_requiredUsage r) FL_MEMORY_USAGE_ALL
  /\ mask_incl (rq_allowedResourceTypes r) FL_MEMORY_RESOURCE_ALL
  /\ mask_incl (rq_allowedOperations r) FL_MEMORY_OPERATIONS_ALL.
Proof. intros [Hwf Hv]. apply requirements_valid_iff in Hv; naive_solver. Qed.

Lemma path_valid_iff p :
  wf_path p ->
  flMemoryPathValidate (Some p) = FL_MEMORY_OK <->
  pa_version p = FL_MEMORY_VERSION /\ pa_resourceType p <> 0
  /\ Z.land (pa_resourceType p) (wrap32 (pa_resourceType p - 1)) = 0
  /\ mask_incl (pa_resourceType p) FL_MEMORY_RESOURCE_ALL
  /\ mask_incl (pa_supportedUsage p) FL_MEMORY_USAGE_ALL
  /\ mask_incl (pa_operations p) FL_MEMORY_OPERATIONS_ALL
  /\ zero (pa_reserved p) = true.
Proof.
  intros (_ & Ht & Hu & Ho). unfold flMemoryPathValidate.
  rewrite <- (truthy_land_not32 (pa_resourceType p)), <- (truthy_land_not32 (pa_supportedUsage p)),
    <- (truthy_land_not32 (pa_operations p)), <- truthy_true,
    <- (truthy_false (Z.land _ (wrap32 _))) by done.
  destruct (pa_version p =? FL_MEMORY_VERSION) eqn:Ev; simpl; [|split; [done|lia]].
  destruct (_ || _) eqn:E.
  - split; [done|]. intros (_ & H1 & H2 & H3 & H4 & H5 & H6). exfalso.
    by rewrite H1, H2, H3, H4, H5, H6 in E.
  - split; [|done]. intros _. bools. split_and!; try done; lia.
Qed.

Lemma evaluate_iff r p d0 :
  valid_requirements r -> valid_path p ->
  (flMemoryEvaluate (Some r) (Some p) (Some d0)).1 = FL_MEMORY_OK <-> satisfies r p.
Proof.
  intros [(_ & Hr & _) Hvr] [(_ & Ht & _ & Ho) Hvp].
  unfold flMemoryEvaluate, satisfies. rewrite Hvr, Hvp. simpl.
  rewrite <- (truthy_land_not32 (rq_requiredUsage r)), <- (truthy_land_not32 (pa_resourceType p)),
    <- (truthy_land_not32 (pa_operations p)) by done.
  destruct (truthy (Z.land (rq_requiredUsage r) _)), (truthy (Z.land (pa_resourceType p) _)),
    (truthy (Z.land (pa_operations p) _)); simpl; naive_solver.
Qed.

(** The loop accumulates the union of demands and the intersection of
    permissions. *)
Lemma combineLoop_inv rs start combined :
  combineLoop rs start = (FL_MEMORY_OK, combined) ->
  Forall wf_requirements rs -> wf_requirements start ->
  rq_version combined = rq_version start /\ rq_reserved combined = rq_reserved start
  /\ wf_requirements combined
  /\ Forall valid_requirements rs
  /\ (forall p, satisfies combined p <-> satisfies start p /\ Forall (fun r => satisfies r p) rs)
  /\ (forall m, mask_incl (rq_requiredUsage start) m /\ mask_incl (rq_preferredUsage start) m ->
      Forall (fun r => mask_incl (rq_requiredUsage r) m /\ mask_incl (rq_preferredUsage r) m) rs ->
      mask_incl (rq_requiredUsage combined) m /\ mask_incl (rq_preferredUsage combined) m)
  /\ mask_incl (rq_allowedResourceTypes combined) (rq_allowedResourceTypes start)
  /\ mask_incl (rq_allowedOperations combined) (rq_allowedOperations start).
Proof.
  revert start. induction rs as [|r rs IH]; intros start.
  - intros [= <-] _ Hwf. split_and!; auto using mask_incl_refl.
    intros p. rewrite Forall_nil. tauto.
  - cbn [combineLoop]. intros Hc Hwfs Hwf.
    destruct (flMemoryRequirementsValidate (Some r)) eqn:Hv; [|discriminate Hc..]. inversion Hwfs as [|? ? Hwr Hwrs]; subst.
    destruct Hwf as (H1 & H2 & H3 & H4 & H5 & H6).
    pose proof Hwr as (? & ? & ? & ? & ? & _).
    apply IH in Hc as (Hver & Hres & Hw & Hval & Hsat & Hmask & Hrt & Hop); [|done|].
    2: { unfold wf_requirements; simpl. split_and!; auto with fl.
         - apply u32_land; ulia.
         - apply u32_land; ulia. }
    simpl in *. apply mask_incl_land_r in Hrt as [? ?], Hop as [? ?].
    split_and!; auto.
    + by constructor.
    + intros p. rewrite Hsat, Forall_cons. unfold satisfies; simpl.
      rewrite mask_incl_lor_l, !mask_incl_land_r. tauto.
    + intros m [Hm1 Hm2] [[Hm3 Hm4] Hms]%Forall_cons. apply Hmask; [|done].
      split; by apply mask_incl_lor_l.
Qed.

Lemma wf_combineStart : wf_requirements combineStart.
Proof. unfold wf_requirements, combineStart; simpl. split_and!; try done; ulia. Qed.

Lemma combine_ok_inv rs out combined :
  flMemoryRequirementsCombine (Some rs) (Some out) = (FL_MEMORY_OK, Some combined) ->
  rs <> [] /\ combineLoop rs combineStart = (FL_MEMORY_OK, combined)
  /\ rq_allowedResourceTypes combined <> 0.
Proof.
  unfold flMemoryRequirementsCombine.
  destruct (_ || _) eqn:El; [done|]. apply orb_false_iff in El as [El _].
  destruct (combineLoop rs combineStart) as [[] c]; [|done..].
  destruct (negb _) eqn:En; [done|]. intros [= ->].
  apply negb_false_iff, truthy_true in En. split_and!; try done. by destruct rs.
Qed.

Lemma combined_valid rs combined :
  combineLoop rs combineStart = (FL_MEMORY_OK, combined) -> Forall wf_requirements rs ->
  rq_allowedResourceTypes combined <> 0 -> valid_requirements combined.
Proof.
  intros Hl Hwf Hnz.
  destruct (combineLoop_inv _ _ _ Hl Hwf wf_combineStart)
    as (Hv & Hres & Hw & Hval & _ & Hmask & Hrt & Hop).
  destruct (Hmask FL_MEMORY_USAGE_ALL) as [? ?].
  { simpl. auto with fl. }
  { eapply Forall_impl; [exact Hval|]. intros r [Hwr Hvr].
    apply requirements_valid_iff in Hvr; [|done]. naive_solver. }
  split; [done|]. apply requirements_valid_iff; [done|]. by rewrite Hv, Hres.
Qed.

(** An all-zero decision has a representative on both sides of the reject test. *)
Lemma evaluate_fst_cases r p d0 :
  valid_requirements r -> valid_path p ->
  (flMemoryEvaluate (Some r) (Some p) (Some d0)).1 = FL_MEMORY_OK
  \/ (flMemoryEvaluate (Some r) (Some p) (Some d0)).1 = FL_MEMORY_INCOMPATIBLE.
Proof.
  intros [_ Hr] [_ Hp]. unfold flMemoryEvaluate. rewrite Hr, Hp.
  destruct (_ || _); [by right|by left].
Qed.

Lemma combineLoop_valid rs start :
  Forall (fun r => flMemoryRequirementsValidate (Some r) = FL_MEMORY_OK) rs ->
  exists combined, combineLoop rs start = (FL_MEMORY_OK, combined).
Proof.
  intros H. revert start. induction H as [|r rs Hr _ IH]; intros start; cbn [combineLoop]; [eauto|].
  rewrite Hr. apply IH.
Qed.

(** The operation union of the boundary loop. *)
Lemma boundaryOperations_inv rs ps rt ops0 ops :
  boundaryOperations rs ps rt ops0 = (FL_MEMORY_OK, ops) -> length rs = length ps ->
  Forall wf_requirements rs -> Forall wf_path ps ->
  Forall valid_requirements rs /\ Forall valid_path ps
  /\ Forall (fun p => pa_resourceType p = rt) ps
  /\ (forall m, mask_incl ops m <-> mask_incl ops0 m /\ Forall (fun p => mask_incl (pa_operations p) m) ps)
  /\ (u32 ops0 -> u32 ops).
Proof.
  revert ps ops0. induction rs as [|r rs IH]; intros [|p ps] ops0; try done.
  - intros [= <-] _ _ _. split_and!; auto. intros m. rewrite Forall_nil. tauto.
  - cbn [boundaryOperations]. intros Hb [= Hlen] [Hwr Hwrs]%Forall_cons [Hwp Hwps]%Forall_cons.
    destruct (flMemoryRequirementsValidate (Some r)) eqn:Hr; [|discriminate Hb..].
    destruct (flMemoryPathValidate (Some p)) eqn:Hp; [|discriminate Hb..].
    destruct (negb _) eqn:Ert; [discriminate Hb|].
    apply IH in Hb as (? & ? & ? & Hm & Hu); [|done..]. split_and!.
    + by constructor.
    + by constructor.
    + constructor; [lia|done].
    + intros m. rewrite Hm, mask_incl_lor_l, Forall_cons. tauto.
    + intros Hz. apply Hu, u32_lor; [done|]. apply Hwp.
Qed.

Lemma with_operations_valid p ops :
  valid_path p -> u32 ops -> mask_incl ops FL_MEMORY_OPERATIONS_ALL ->
  valid_path (with_operations p ops).
Proof.
  intros [(? & ? & ? & ?) Hv] Hu Hm. assert (wf_path (with_operations p ops)) as Hwf by done.
  split; [done|]. apply path_valid_iff in Hv; [|done]. apply path_valid_iff; [done|].
  naive_solver.
Qed.

Lemma boundaryDecisions_fst rs ps ops res :
  length rs = length ps -> Forall valid_requirements rs ->
  Forall (fun p => valid_path (with_operations p ops)) ps ->
  (boundaryDecisions rs ps ops res).1 = FL_MEMORY_OK <->
  res = FL_MEMORY_OK /\ Forall2 (fun r p => satisfies r (with_operations p ops)) rs ps.
Proof.
  revert ps res. induction rs as [|r rs IH]; intros [|p ps] res; try done.
  - intros _ _ _. simpl. rewrite Forall2_nil. tauto.
  - cbn [boundaryDecisions]. intros [= Hlen] [Hr Hrs]%Forall_cons [Hp Hps]%Forall_cons.
    pose proof (evaluate_iff r _ zeroDecision Hr Hp) as He.
    destruct (flMemoryEvaluate _ _ _) as [e d]. simpl in He.
    specialize (IH ps (match e with FL_MEMORY_OK => res | _ => FL_MEMORY_INCOMPATIBLE end)
      Hlen Hrs Hps).
    destruct (boundaryDecisions rs ps ops _) as [res' ds].
    simpl in *. rewrite IH, Forall2_cons.
    destruct e; rewrite <- He; intuition congruence.
Qed.

Lemma boundaryOperations_ok rs ps rt ops0 :
  Forall (fun p => pa_resourceType p = rt) ps ->
  Forall valid_requirements rs -> Forall valid_path ps ->
  exists ops, boundaryOperations rs ps rt ops0 = (FL_MEMORY_OK, ops).
Proof.
  intros Hrt Hvr. revert rs Hvr ops0.
  induction Hrt as [|p q Hp Hrt IH]; intros [|r rs] Hvr ops0 Hvp; cbn [boundaryOperations]; eauto.
  apply Forall_cons in Hvr as [[_ Hr] Hvr], Hvp as [[_ Hp'] Hvp].
  rewrite Hr, Hp', Hp, Z.eqb_refl. by apply IH.
Qed.

Lemma valid_path_operations ps m :
  Forall valid_path ps -> mask_incl FL_MEMORY_OPERATIONS_ALL m ->
  Forall (fun p => mask_incl (pa_operations p) m) ps.
Proof.
  intros Hvp Hm. eapply Forall_impl; [exact Hvp|]. intros p [Hw Hv].
  apply path_valid_iff in Hv; [|done]. etrans; [|exact Hm]. tauto.
Qed.

(** The two loops together, once the first one has accepted. *)
Lemma boundary_loops_iff rs ps rt ops :
  boundaryOperations rs ps rt 0 = (FL_MEMORY_OK, ops) -> length rs = length ps ->
  Forall wf_requirements rs -> Forall wf_path ps ->
  (boundaryDecisions rs ps ops FL_MEMORY_OK).1 = FL_MEMORY_OK <->
  Forall2 (fun r p => mask_incl (rq_requiredUsage r) (pa_supportedUsage p)
                      /\ mask_incl (pa_resourceType p) (rq_allowedResourceTypes r)) rs ps
  /\ (forall r p, r ∈ rs -> p ∈ ps -> mask_incl (pa_operations p) (rq_allowedOperations r)).
Proof.
  intros Eb Hlen Hrs Hps.
  destruct (boundaryOperations_inv _ _ _ _ _ Eb Hlen Hrs Hps) as (Hvr & Hvp & _ & Hm & Hu).
  rewrite boundaryDecisions_fst; [|done|done|].
  2: { eapply Forall_impl; [exact Hvp|]. intros p Hp. apply with_operations_valid; [done|..].
       - apply Hu. ulia.
       - apply Hm. split; [auto with fl|]. by apply valid_path_operations. }
  split.
  - intros [_ Hsat]. split.
    + eapply Forall2_impl; [exact Hsat|]. intros r p (? & ? & _). done.
    + intros r p Hr Hp. apply list_elem_of_lookup in Hr as [i Hi].
      destruct (Forall2_lookup_l _ _ _ _ _ Hsat Hi) as (q & _ & _ & _ & Hops). simpl in Hops.
      apply Hm in Hops as [_ Hops]. rewrite Forall_forall in Hops. by apply Hops.
  - intros [Hsat Hops]. split; [done|]. apply Forall2_same_length_lookup. split; [done|].
    intros i r p Hr Hp.
    destruct (Forall2_lookup_lr _ _ _ _ _ _ Hsat Hr Hp). split_and!; try done. simpl.
    apply Hm. split; [auto with fl|]. apply Forall_forall. intros q Hq.
    apply Hops; [|done]. by eapply list_elem_of_lookup_2.
Qed.

(** Peel the next word off a wire image under decode. *)
Ltac peel_field :=
  match goal with
  | H : (let '(_, _) := get ?p in _) = _, Hl : length ?p = _, Hf : Forall u8 ?p |- _ =>
    let E := fresh "Eg" in destruct (get p) as [? ?] eqn:E;
    eapply get_le4_inv in E; [|exact Hl|exact Hf];
    let Heq := fresh "Heq" in destruct E as (Heq & ? & ? & ?); clear Hl Hf
  | H : (if ?b then (_, _) else _) = _ |- _ =>
    let E := fresh "Et" in destruct b eqn:E; [discriminate H|]
  end.

(** ** Theorems *)

(** evaluation decides the policy and always explains itself - for valid
    inputs the answer is OK exactly when the path supports every required usage,
    has an allowed resource type and performs no forbidden operation, INCOMPATIBLE
    otherwise, and in both cases each diagnostic word is exactly the offending
    bits; unmet preferences alone never reject. *)
Theorem memory_evaluate_spec (r : flMemoryRequirements) (p : flMemoryPath) (d0 : flMemoryDecision)
    (Hr : valid_requirements r) (Hp : valid_path p) :
  exists res d,
    flMemoryEvaluate (Some r) (Some p) (Some d0) = (res, Some d)
    /\ (res = FL_MEMORY_OK <-> satisfies r p)
    /\ (res = FL_MEMORY_OK \/ res = FL_MEMORY_INCOMPATIBLE)
    /\ forall i, 0 <= i ->
       Z.testbit (d_missingRequiredUsage d) i
         = Z.testbit (rq_requiredUsage r) i && negb (Z.testbit (pa_supportedUsage p) i)
       /\ Z.testbit (d_unmetPreferredUsage d) i
         = Z.testbit (rq_preferredUsage r) i && negb (Z.testbit (pa_supportedUsage p) i)
       /\ Z.testbit (d_rejectedResourceType d) i
         = Z.testbit (pa_resourceType p) i && negb (Z.testbit (rq_allowedResourceTypes r) i)
       /\ Z.testbit (d_forbiddenOperations d) i
         = Z.testbit (pa_operations p) i && negb (Z.testbit (rq_allowedOperations r) i).
Proof.
  pose proof (evaluate_iff r p d0 Hr Hp) as He.
  pose proof (evaluate_fst_cases r p d0 Hr Hp) as Hc.
  destruct Hr as [(_ & ? & ? & _) Hvr], Hp as [(_ & ? & _ & ?) Hvp].
  unfold flMemoryEvaluate in *. rewrite Hvr, Hvp in *. simpl in He, Hc.
  eexists _, _. split; [done|]. split; [done|]. split; [done|].
  intros i Hi. simpl. rewrite !land_not32 by done. by rewrite !Z.ldiff_spec.
Qed.

(** A combined requirement is the conjunction of its participants - a valid
    path is accepted by the combination exactly when every single participant
    accepts it, so combining neither drops nor weakens anybody's demand. *)
Theorem memory_combine_conjunction (rs : list flMemoryRequirements)
    (out combined : flMemoryRequirements) (p : flMemoryPath) (d0 : flMemoryDecision)
    (Hwf : Forall wf_requirements rs)
    (Hc : flMemoryRequirementsCombine (Some rs) (Some out) = (FL_MEMORY_OK, Some combined))
    (Hp : valid_path p) :
  (flMemoryEvaluate (Some combined) (Some p) (Some d0)).1 = FL_MEMORY_OK <->
  Forall (fun r => (flMemoryEvaluate (Some r) (Some p) (Some d0)).1 = FL_MEMORY_OK) rs.
Proof.
  apply combine_ok_inv in Hc as (_ & Hl & Hnz).
  rewrite evaluate_iff by (done || by eapply combined_valid).
  destruct (combineLoop_inv _ _ _ Hl Hwf wf_combineStart) as (_ & _ & _ & Hval & Hsat & _).
  rewrite Hsat.
  assert (satisfies combineStart p) as Hs.
  { destruct Hp as [Hwp Hvp]. apply path_valid_iff in Hvp; [|done].
    split_and!; simpl; [auto with fl|tauto|tauto]. }
  split.
  - intros [_ H]. eapply Forall_impl2; [exact H|exact Hval|]. intros r Hr Hv. by apply evaluate_iff.
  - intros H. split; [done|]. eapply Forall_impl2; [exact H|exact Hval|]. intros r Hr Hv. by apply evaluate_iff in Hr.
Qed.

(** Conflicting resource masks are a real conflict - when combining valid
    requirements answers INCOMPATIBLE, no valid path at all satisfies every
    participant (and the output is untouched). *)
Theorem memory_combine_incompatible (rs : list flMemoryRequirements)
    (out : flMemoryRequirements) (o : option flMemoryRequirements) (p : flMemoryPath)
    (d0 : flMemoryDecision) (Hrs : Forall valid_requirements rs)
    (Hc : flMemoryRequirementsCombine (Some rs) (Some out) = (FL_MEMORY_INCOMPATIBLE, o))
    (Hp : valid_path p) :
  o = Some out /\
  ~ Forall (fun r => (flMemoryEvaluate (Some r) (Some p) (Some d0)).1 = FL_MEMORY_OK) rs.
Proof.
  unfold flMemoryRequirementsCombine in Hc.
  destruct (_ || _); [discriminate|].
  destruct (combineLoop_valid rs combineStart) as [combined Hl].
  { eapply Forall_impl; [exact Hrs|]. by intros r [_ ?]. }
  rewrite Hl in Hc. destruct (negb _) eqn:En; [|discriminate]. injection Hc as <-.
  apply negb_true_iff, truthy_false in En. split; [done|]. intros Hall.
  assert (Forall wf_requirements rs) as Hwf.
  { eapply Forall_impl; [exact Hrs|]. by intros r [? _]. }
  destruct (combineLoop_inv _ _ _ Hl Hwf wf_combineStart) as (_ & _ & _ & _ & Hsat & _).
  assert (satisfies combined p) as (_ & Hrt & _).
  { apply Hsat. pose proof Hp as [Hwp Hvp]. apply path_valid_iff in Hvp; [|done]. split.
    - split_and!; simpl; [auto with fl|tauto|tauto].
    - eapply Forall_impl2; [exact Hall|exact Hrs|]. intros r Hr Hv. by apply evaluate_iff in Hr. }
  rewrite En in Hrt. apply mask_incl_0_r in Hrt.
  destruct Hp as [Hwp Hvp]. apply path_valid_iff in Hvp; [|done]. tauto.
Qed.

(** combining requirements is their conjunction, conflicts included.  When the
    combination succeeds, a valid path is accepted by it exactly when every
    participant accepts it; when combining valid requirements answers INCOMPATIBLE,
    no valid path satisfies every participant and the output is untouched. *)
Theorem memory_combine_exact (rs : list flMemoryRequirements) (out : flMemoryRequirements)
    (p : flMemoryPath) (d0 : flMemoryDecision) :
  Forall valid_requirements rs -> valid_path p ->
  match flMemoryRequirementsCombine (Some rs) (Some out) with
  | (FL_MEMORY_OK, Some combined) =>
    (flMemoryEvaluate (Some combined) (Some p) (Some d0)).1 = FL_MEMORY_OK <->
    Forall (fun r => (flMemoryEvaluate (Some r) (Some p) (Some d0)).1 = FL_MEMORY_OK) rs
  | (FL_MEMORY_INCOMPATIBLE, o) =>
    o = Some out
    /\ ~ Forall (fun r => (flMemoryEvaluate (Some r) (Some p) (Some d0)).1 = FL_MEMORY_OK) rs
  | _ => True
  end.
Proof.
  intros Hrs Hp. destruct (flMemoryRequirementsCombine _ _) as [[] o] eqn:E; try done.
  - destruct o as [combined|]; [|done]. eapply memory_combine_conjunction; [|exact E|done].
    eapply Forall_impl; [exact Hrs|]. by intros r [? _].
  - by eapply memory_combine_incompatible.
Qed.

(** C39: a boundary is accepted exactly when the policy is well formed, all
    endpoints name one resource type, each endpoint's own usage demands are met
    by its own path, and every endpoint allows the payload operations of every
    other - a copy made on the producer cannot bypass a strict consumer. *)
Theorem memory_boundary_no_bypass (rs : list flMemoryRequirements) (ps : list flMemoryPath)
    (ds0 : list flMemoryDecision)
    (Hrs : Forall wf_requirements rs) (Hps : Forall wf_path ps)
    (Hlen : length rs = length ps) (Hn : (0 < length rs <= FL_MEMORY_MAX_ENDPOINTS)%nat) :
  (flMemoryEvaluateBoundary (Some rs) (Some ps) (length rs) (Some ds0)).1 = FL_MEMORY_OK <->
  Forall valid_requirements rs /\ Forall valid_path ps
  /\ (forall p q, p ∈ ps -> q ∈ ps -> pa_resourceType p = pa_resourceType q)
  /\ Forall2 (fun r p => mask_incl (rq_requiredUsage r) (pa_supportedUsage p)
                         /\ mask_incl (pa_resourceType p) (rq_allowedResourceTypes r)) rs ps
  /\ (forall r p, r ∈ rs -> p ∈ ps -> mask_incl (pa_operations p) (rq_allowedOperations r)).
Proof.
  unfold flMemoryEvaluateBoundary.
  replace (Nat.eqb (length rs) 0 || Nat.ltb FL_MEMORY_MAX_ENDPOINTS (length rs)) with false by lia.
  rewrite (firstn_all2 rs), (firstn_all2 ps) by lia.
  destruct ps as [|p0 ps']; [simpl in Hlen; lia|]. simpl default.
  set (ps := p0 :: ps') in *. set (rt := pa_resourceType p0).
  split.
  - intros Hres. destruct (boundaryOperations rs ps rt 0) as [[] ops] eqn:Eb; try done.
    destruct (boundaryOperations_inv _ _ _ _ _ Eb Hlen Hrs Hps) as (Hvr & Hvp & Hrt & _).
    pose proof (boundary_loops_iff _ _ _ _ Eb Hlen Hrs Hps) as Hd.
    destruct (boundaryDecisions rs ps ops FL_MEMORY_OK) as [res ds]. simpl in Hres, Hd.
    destruct (proj1 Hd Hres) as [? ?]. split_and!; try done.
    rewrite Forall_forall in Hrt. intros p q Hp Hq. by rewrite !Hrt.
  - intros (Hvr & Hvp & Hrt & Hsat & Hops).
    destruct (boundaryOperations_ok rs ps rt 0) as [ops Eb]; [|done|done|].
    { apply Forall_forall. intros p Hp. apply Hrt; [done|]. subst ps. by left. }
    rewrite Eb. pose proof (boundary_loops_iff _ _ _ _ Eb Hlen Hrs Hps) as Hd.
    destruct (boundaryDecisions rs ps ops FL_MEMORY_OK) as [res ds]. by apply Hd.
Qed.

(** the 64-byte requirement message round-trips in both directions - encoding
    a valid requirement decodes to it, and any message that decodes is exactly the
    encoding of its value, so there is one wire form per requirement. *)
Theorem memory_wire_bijective (r o : flMemoryRequirements) (buf bytes : list Z)
    (Hbuf : length buf = FL_MEMORY_REQUIREMENTS_WIRE_SIZE) (Hbytes : Forall u8 bytes)
    (Hwf : wf_requirements r) :
  flMemoryRequirementsEncode (Some r) (Some buf) = (FL_MEMORY_OK, Some bytes) <->
  flMemoryRequirementsDecode (Some bytes) (Some o) = (FL_MEMORY_OK, Some r).
Proof.
  pose proof Hwf as (? & ? & ? & ? & ? & ?).
  assert (length (encodeFields r) = 24%nat) as Hlf
    by (unfold encodeFields, put; rewrite !length_app, !length_put_le; done).
  unfold flMemoryRequirementsEncode, flMemoryRequirementsDecode. rewrite Hbuf, Hlf. split.
  - destruct (flMemoryRequirementsValidate (Some r)) eqn:Hv; [|discriminate..].
    intros He. cbn [negb Nat.eqb FL_MEMORY_REQUIREMENTS_WIRE_SIZE Nat.sub] in He. assert (bytes = encodeFields r ++ replicate 40 0) as -> by congruence.
    rewrite length_app, Hlf. cbn [length plus negb Nat.eqb replicate minus].
    apply requirements_valid_iff in Hv as Hv'; [|done]. destruct Hv' as (Hver & _ & _ & _ & _ & _ & Hres).
    unfold encodeFields, put, get. rewrite <- !app_assoc.
    rewrite get_put_le4 by (unfold FMR1; ulia). rewrite Z.eqb_refl. cbn [negb].
    rewrite get_put_le4 by done. rewrite Hver at 1. cbn [negb Z.eqb Pos.eqb FL_MEMORY_VERSION].
    do 4 rewrite get_put_le4 by done.
    change (all_zero _) with true. cbn [negb]. destruct r; simpl in Hres; subst.
    cbn [rq_version rq_requiredUsage rq_preferredUsage rq_allowedResourceTypes
      rq_allowedOperations]. by rewrite Hv.
  - destruct (negb _) eqn:Hl; [discriminate|].
    apply negb_false_iff, Nat.eqb_eq in Hl. change (length bytes = 64%nat) in Hl.
    intros Hd. repeat peel_field. apply negb_false_iff, all_zero_inv in Et1.
    match goal with Hn : length ?l = _, E : ?l = replicate _ _ |- _ => rewrite Hn in E end.
    match type of Hd with context [flMemoryRequirementsValidate (Some ?c)] => set (r0 := c) in * end.
    destruct (flMemoryRequirementsValidate (Some r0)) eqn:Hv; [|discriminate..].
    injection Hd as <-. rewrite Hv. cbn [negb Nat.eqb FL_MEMORY_REQUIREMENTS_WIRE_SIZE].
    do 2 f_equal. unfold encodeFields. subst r0; simpl.
    apply negb_false_iff, Z.eqb_eq in Et. subst. done.
Qed.

(** ** Witnesses at concrete inputs *)

Definition exReq (required types ops : Z) : flMemoryRequirements :=
  mkRequirements 1 required 4 types ops [0; 0; 0].
Definition exPath (type usage ops : Z) : flMemoryPath := mkPath 1 type usage ops [0; 0; 0; 0].

Lemma exReq_wf required types ops :
  u32 required -> u32 types -> u32 ops -> wf_requirements (exReq required types ops).
Proof. intros. unfold wf_requirements; simpl. split_and!; try done; ulia. Qed.

Lemma exPath_wf type usage ops : u32 type -> u32 usage -> u32 ops -> wf_path (exPath type usage ops).
Proof. intros. unfold wf_path; simpl. split_and!; try done; ulia. Qed.

Ltac ex_valid :=
  split; [first [apply exReq_wf | apply exPath_wf]; ulia | vm_compute; reflexivity].

Lemma memory_evaluate_spec_witness :
  exists res d,
    flMemoryEvaluate (Some (exReq 9 4 0)) (Some (exPath 4 8 1)) (Some zeroDecision) = (res, Some d)
    /\ (res = FL_MEMORY_OK <-> satisfies (exReq 9 4 0) (exPath 4 8 1)).
Proof.
  destruct (memory_evaluate_spec (exReq 9 4 0) (exPath 4 8 1) zeroDecision)
    as (res & d & H1 & H2 & _); [ex_valid|ex_valid|].
  exists res, d. split; [exact H1|exact H2].
Defined.

Lemma memory_combine_exact_witness :
  ((flMemoryEvaluate (Some (mkRequirements 1 12 4 4 1 [0; 0; 0])) (Some (exPath 4 12 1))
     (Some zeroDecision)).1 = FL_MEMORY_OK <->
   Forall (fun r => (flMemoryEvaluate (Some r) (Some (exPath 4 12 1)) (Some zeroDecision)).1
     = FL_MEMORY_OK) [exReq 8 12 1; exReq 4 6 3])
  /\ ~ Forall (fun r => (flMemoryEvaluate (Some r) (Some (exPath 4 12 1)) (Some zeroDecision)).1
     = FL_MEMORY_OK) [exReq 8 4 1; exReq 4 2 3].
Proof.
  split.
  - apply (memory_combine_exact [exReq 8 12 1; exReq 4 6 3] combineStart (exPath 4 12 1) zeroDecision);
      [repeat constructor; simpl; ulia|ex_valid].
  - apply (memory_combine_exact [exReq 8 4 1; exReq 4 2 3] combineStart (exPath 4 12 1) zeroDecision);
      [repeat constructor; simpl; ulia|ex_valid].
Defined.

(** The producer copies (operation bit 1) and the consumer allows nothing. *)
Lemma memory_boundary_no_bypass_witness :
  ~ (flMemoryEvaluateBoundary (Some [exReq 8 4 1; exReq 4 4 0]) (Some [exPath 4 8 1; exPath 4 4 0])
     2 (Some [zeroDecision; zeroDecision])).1 = FL_MEMORY_OK.
Proof.
  intros H.
  apply (memory_boundary_no_bypass [exReq 8 4 1; exReq 4 4 0] [exPath 4 8 1; exPath 4 4 0]
    [zeroDecision; zeroDecision]) in H.
  - destruct H as (_ & _ & _ & _ & H).
    specialize (H (exReq 4 4 0) (exPath 4 8 1) ltac:(right; left) ltac:(left) 0 ltac:(lia) eq_refl).
    discriminate H.
  - repeat constructor; simpl; ulia.
  - repeat constructor; simpl; ulia.
  - reflexivity.
  - simpl. unfold FL_MEMORY_MAX_ENDPOINTS. lia.
Defined.

Lemma memory_wire_bijective_witness :
  flMemoryRequirementsDecode (Some (encodeFields (exReq 8 12 1) ++ replicate 40 0)) (Some combineStart)
  = (FL_MEMORY_OK, Some (exReq 8 12 1)).
Proof.
  apply (memory_wire_bijective (exReq 8 12 1) combineStart (replicate 64 7)).
  - reflexivity.
  - let l := eval vm_compute in (encodeFields (exReq 8 12 1) ++ replicate 40 0) in
      change (encodeFields (exReq 8 12 1) ++ replicate 40 0) with l.
    repeat (constructor; [ulia|]). constructor.
  - apply exReq_wf; ulia.
  - vm_compute. reflexivity.
Defined.
