(* ===== verification/ResourceInfo.v ===== *)
(** * Facts about a channel image (include/framelink_memory.h)

    [flMemoryResourceInfo], which every backend's [flImageMemoryInfo] fills in,
    and the constants it is made of. *)
From S2P Require Import Prelude.

(** [FL_MEMORY_*] of framelink_memory.h *)
Definition FL_MEMORY_CPU_READ : Z := 0x01.
Definition FL_MEMORY_CPU_WRITE : Z := 0x02.
Definition FL_MEMORY_GPU_SAMPLE : Z := 0x04.
Definition FL_MEMORY_GPU_RENDER : Z := 0x08.
Definition FL_MEMORY_DECODER_OUTPUT : Z := 0x10.
Definition FL_MEMORY_D3D11 : Z := 0x02.
Definition FL_MEMORY_DMABUF : Z := 0x04.
Definition FL_MEMORY_AHB : Z := 0x08.
Definition FL_MEMORY_COPY : Z := 0x01.
Definition FL_MEMORY_READBACK : Z := 0x02.
Definition FL_MEMORY_UPLOAD : Z := 0x04.
Definition FL_MEMORY_CONVERT : Z := 0x08.
Definition FL_MEMORY_INFO_VERSION : Z := 1.
Definition FL_MEMORY_INFO_NATIVE_USAGE : Z := 0x01.
Definition FL_MEMORY_INFO_PLANE_LAYOUT : Z := 0x02.
Definition FL_MEMORY_INFO_DEVICE : Z := 0x04.
Definition FL_MEMORY_INFO_DIRECT_USAGE : Z := 0x08.
Definition FL_MEMORY_INFO_MAPPED_USAGE : Z := 0x10.
Definition FL_MEMORY_INFO_MAP_OPERATIONS : Z := 0x20.
Definition FL_MEMORY_INFO_MODIFIER : Z := 0x40.
Definition FL_MEMORY_DEVICE_DXGI_LUID : Z := 1.
Definition FL_MEMORY_DEVICE_DRM_NODE : Z := 2.
Definition FL_MEMORY_SYNC_CPU_WAIT : Z := 0x01.
Definition FL_MEMORY_SYNC_TIMELINE : Z := 0x02.
Definition FL_MEMORY_SYNC_FD : Z := 0x04.
Definition FL_MEMORY_HANDLE_NT : Z := 1.
Definition FL_MEMORY_HANDLE_DMABUF : Z := 2.
Definition FL_MEMORY_HANDLE_AHB : Z := 3.
Definition FL_MEMORY_INTEROP_RING_IMPORT : Z := 0x01.
Definition FL_MEMORY_INTEROP_BORROW_NATIVE : Z := 0x02.
Definition FL_MEMORY_INTEROP_EXTERNAL_POOL : Z := 0x04.

(** [struct flMemoryResourceInfo] *)
Record flMemoryResourceInfo := mkInfo {
  ri_version : Z; ri_resourceType : Z; ri_logicalFormat : Z; ri_width : Z; ri_height : Z;
  ri_nativeFormat : Z; ri_knownFields : Z; ri_nativePlaneCount : Z; ri_nativeUsage : Z;
  ri_modifier : Z; ri_planeOffset : list Z; ri_planeStride : list Z; ri_directUsage : Z;
  ri_mappedUsage : Z; ri_mapOperations : Z; ri_deviceIdKind : Z; ri_deviceId : list Z;
  ri_syncTransport : Z; ri_handleTransport : Z; ri_interopCapabilities : Z; ri_generation : Z;
}.
