(* ===== verification/Ledger.v ===== *)
(** * The read-lease ledger (src/fl_read_ledger.hpp)

    [fl::ReadLedger] keeps the frames a consumer still reads in a ring of
    FL_MAX_POOL_SIZE records and the outstanding readers in a table of 256
    tokens.  Completion may come in any order; retirement is the completed prefix
    only.

    The file has the class as written ([ReadLedger] and one definition per
    method), an abstract specification (a FIFO of frames and a finite map from
    tokens to the ready value they pin), and the refinement between them.

    [nextToken_] is a process-wide atomic: it is passed in and out, and other
    ledgers may advance it between two calls. *)
From stdpp Require Import gmap sorting.
From S2P Require Import Prelude Api.

Definition MaxReaders : nat := 256.

(** [struct Retirement] *)
Record Retirement := mkRetirement { rt_generation : Z; rt_value : Z }.

(** [struct Frame]: the canonical frame data and its reader count. *)
Record LFrame := mkLFrame { lf_frame : flFrame; lf_generation : Z; lf_readers : Z }.

(** [struct Reader]; token zero is a free entry. *)
Record Reader := mkReader { rd_token : Z; rd_frame : nat; rd_pending : bool }.

Record ReadLedger := mkLedger {
  frames_ : list LFrame;     (* FL_MAX_POOL_SIZE entries *)
  readers_ : list Reader;    (* MaxReaders entries *)
  head_ : nat;
  count_ : nat;
  generation_ : Z;
  lastValue_ : Z;
}.

Definition zeroLFrame : LFrame := mkLFrame zeroFrame 0 0.
Definition zeroReader : Reader := mkReader 0 0 false.

Definition emptyLedger : ReadLedger :=
  mkLedger (replicate FL_MAX_POOL_SIZE zeroLFrame) (replicate MaxReaders zeroReader) 0 0 0 0.

#[export] Instance Retirement_eq_dec : EqDecision Retirement.
Proof. solve_decision. Defined.

Section Methods.
Implicit Types (L : ReadLedger) (nextToken t out : Z).

Definition with_frames L fs : ReadLedger :=
  mkLedger fs (readers_ L) (head_ L) (count_ L) (generation_ L) (lastValue_ L).
Definition with_readers L rs : ReadLedger :=
  mkLedger (frames_ L) rs (head_ L) (count_ L) (generation_ L) (lastValue_ L).

(** [frames_[k]] *)
Definition frameAt L (k : nat) : LFrame := default zeroLFrame (frames_ L !! k).

(** [(head_ + i) % frames_.size()] *)
Definition position L (i : nat) : nat := (head_ L + i) mod FL_MAX_POOL_SIZE.

(** [token()]: the compare-exchange loop as one atomic step. *)
Definition token nextToken : Z * Z :=
  if nextToken =? UINT64_MAX then (0, nextToken) else (nextToken, nextToken + 1).

Definition find L t (pending : bool) : option nat :=
  if t =? 0 then None
  else find_index (fun r => (rd_token r =? t) && Bool.eqb (rd_pending r) pending) (readers_ L).

Definition readerFrame L (j : nat) : nat := rd_frame (default zeroReader (readers_ L !! j)).

Definition set_reader_count (f : LFrame) (n : Z) : LFrame :=
  mkLFrame (lf_frame f) (lf_generation f) n.

Definition addReader L (f : nat) nextToken out : flResult * Z * ReadLedger * Z :=
  match find_index (fun r => rd_token r =? 0) (readers_ L) with
  | None => (FL_BUSY, out, L, nextToken)
  | Some j =>
    let '(t, nextToken') := token nextToken in
    return_if t =? 0 with (FL_INTERNAL, out, L, nextToken') ;;
    let fr := frameAt L f in
    (FL_OK, t,
     with_readers
       (with_frames L (<[f := set_reader_count fr (wrap64 (lf_readers fr + 1))]> (frames_ L)))
       (<[j := mkReader t f false]> (readers_ L)),
     nextToken')
  end.

Definition empty L : bool := Nat.eqb (count_ L) 0.
Definition size L : nat := count_ L.

Definition resetEpoch L : ReadLedger :=
  if empty L then mkLedger (frames_ L) (readers_ L) (head_ L) (count_ L) 0 0 else L.

(** [frames_[(head_ + i) % size]] for i < count_, oldest first. *)
Definition view L : list LFrame :=
  map (fun i => frameAt L (position L i)) (seq 0 (count_ L)).

Definition acquire L (generation : Z) (frame : flFrame) nextToken out
  : flResult * Z * ReadLedger * Z :=
  return_if negb (truthy generation) || negb (truthy (fr_image frame))
         || negb (truthy (fr_readyValue frame))
         || (Z.of_nat FL_MAX_POOL_SIZE <=? fr_slot frame)
    with (FL_INVALID, out, L, nextToken) ;;
  return_if Nat.eqb (count_ L) FL_MAX_POOL_SIZE with (FL_BUSY, out, L, nextToken) ;;
  return_if negb (generation_ L =? generation) && negb (Nat.eqb (count_ L) 0)
    with (FL_BUSY, out, L, nextToken) ;;
  return_if (generation_ L =? generation) && (fr_readyValue frame <=? lastValue_ L)
    with (FL_INVALID, out, L, nextToken) ;;
  return_if existsb (fun f => fr_slot (lf_frame f) =? fr_slot frame) (view L)
    with (FL_BUSY, out, L, nextToken) ;;
  let f := position L (count_ L) in
  let L1 := with_frames L (<[f := mkLFrame frame generation 0]> (frames_ L)) in
  match addReader L1 f nextToken out with
  | (FL_OK, out', L2, nextToken') =>
    (FL_OK, out',
     mkLedger (frames_ L2) (readers_ L2) (head_ L2) (count_ L2 + 1) generation
       (fr_readyValue frame),
     nextToken')
  | (result, out', L2, nextToken') =>
    (result, out', with_frames L2 (<[f := zeroLFrame]> (frames_ L2)), nextToken')
  end.

Definition retain L (source : Z) nextToken out : flResult * Z * ReadLedger * Z :=
  match find L source false with
  | Some j => addReader L (readerFrame L j) nextToken out
  | None => (FL_INVALID, out, L, nextToken)
  end.

Definition get L t (out : flFrame) (generation : Z) : flResult * flFrame * Z :=
  match find L t false with
  | Some j =>
    let f := frameAt L (readerFrame L j) in (FL_OK, lf_frame f, lf_generation f)
  | None => (FL_INVALID, out, generation)
  end.

(** [--frames_[r->frame].readers; *r = {};] *)
Definition dropReader L (j : nat) : ReadLedger :=
  let k := readerFrame L j in
  let fr := frameAt L k in
  with_readers
    (with_frames L (<[k := set_reader_count fr (wrap64 (lf_readers fr - 1))]> (frames_ L)))
    (<[j := zeroReader]> (readers_ L)).

Definition complete L t : flResult * ReadLedger :=
  match find L t false with
  | Some j => (FL_OK, dropReader L j)
  | None => (FL_INVALID, L)
  end.

Definition defer L t : flResult * ReadLedger :=
  match find L t false with
  | Some j =>
    let r := default zeroReader (readers_ L !! j) in
    (FL_OK, with_readers L (<[j := mkReader (rd_token r) (rd_frame r) true]> (readers_ L)))
  | None => (FL_INVALID, L)
  end.

Definition finishDeferred L t : flResult * ReadLedger :=
  match find L t true with
  | Some j => (FL_OK, dropReader L j)
  | None => (FL_INVALID, L)
  end.

(** The scan of [retirement()], over the frames oldest first. *)
Fixpoint retireScan (fs : list LFrame) (result : Retirement) : Retirement :=
  match fs with
  | [] => result
  | f :: rest =>
    if truthy (lf_readers f) then result
    else retireScan rest (mkRetirement (lf_generation f) (fr_readyValue (lf_frame f)))
  end.

Definition retirement L : Retirement := retireScan (view L) (mkRetirement 0 0).

(** [while (count_) {...}] of [retired()]; [count_] rounds are enough. *)
Fixpoint retireLoop (fuel : nat) L (value : Z) : ReadLedger :=
  match fuel with
  | O => L
  | S fuel' =>
    if Nat.eqb (count_ L) 0 then L
    else
      let f := frameAt L (head_ L) in
      if truthy (lf_readers f) || (value <? fr_readyValue (lf_frame f)) then L
      else retireLoop fuel'
        (mkLedger (<[head_ L := zeroLFrame]> (frames_ L)) (readers_ L)
           ((head_ L + 1) mod FL_MAX_POOL_SIZE) (count_ L - 1)
           (generation_ L) (lastValue_ L)) value
  end.

Definition retired L (value : Retirement) : flResult * ReadLedger :=
  let ready := retirement L in
  return_if negb (truthy (rt_value value)) || negb (rt_value value =? rt_value ready)
         || negb (rt_generation value =? rt_generation ready)
    with (FL_INVALID, L) ;;
  (FL_OK, retireLoop (count_ L) L (rt_value value)).
End Methods.

(** ** The abstract ledger

    Frames in arrival order and, per outstanding token, the ready value it pins
    and whether its completion is deferred to a fence. *)
Module Spec.
Record ledger := mk {
  queue : list flFrame;
  readers : gmap Z (Z * bool);
  generation : Z;
  lastValue : Z;
}.

Implicit Types A : ledger.

(** No outstanding token pins this frame. *)
Definition completed A (f : flFrame) : Prop :=
  map_Forall (fun _ e => e.1 <> fr_readyValue f) (readers A).

#[export] Instance completed_dec A f : Decision (completed A f).
Proof. unfold completed. apply _. Defined.

Fixpoint completed_prefix A (q : list flFrame) : list flFrame :=
  match q with
  | [] => []
  | f :: r => if decide (completed A f) then f :: completed_prefix A r else []
  end.

Definition retirement A : Retirement :=
  match last (completed_prefix A (queue A)) with
  | None => mkRetirement 0 0
  | Some f => mkRetirement (generation A) (fr_readyValue f)
  end.

Definition issue A (v nextToken out : Z) : flResult * Z * ledger * Z :=
  if Nat.eqb (base.size (readers A)) MaxReaders then (FL_BUSY, out, A, nextToken)
  else if nextToken =? UINT64_MAX then (FL_INTERNAL, out, A, nextToken)
  else (FL_OK, nextToken,
        mk (queue A) (<[nextToken := (v, false)]> (readers A)) (generation A) (lastValue A),
        nextToken + 1).

Definition acquire A (gen : Z) (frame : flFrame) (nextToken out : Z)
  : flResult * Z * ledger * Z :=
  if (gen =? 0) || (fr_image frame =? 0) || (fr_readyValue frame =? 0) || (16 <=? fr_slot frame)
  then (FL_INVALID, out, A, nextToken)
  else if Nat.eqb (length (queue A)) 16 then (FL_BUSY, out, A, nextToken)
  else if negb (generation A =? gen) && negb (Nat.eqb (length (queue A)) 0)
  then (FL_BUSY, out, A, nextToken)
  else if (generation A =? gen) && (fr_readyValue frame <=? lastValue A)
  then (FL_INVALID, out, A, nextToken)
  else if existsb (fun f => fr_slot f =? fr_slot frame) (queue A)
  then (FL_BUSY, out, A, nextToken)
  else match issue A (fr_readyValue frame) nextToken out with
       | (FL_OK, t, A', n') =>
         (FL_OK, t, mk (queue A ++ [frame]) (readers A') gen (fr_readyValue frame), n')
       | r => r
       end.

Definition retain A (source nextToken out : Z) : flResult * Z * ledger * Z :=
  match readers A !! source with
  | Some (v, false) => issue A v nextToken out
  | _ => (FL_INVALID, out, A, nextToken)
  end.

Definition get A (t : Z) (out : flFrame) (gen : Z) : flResult * flFrame * Z :=
  match readers A !! t with
  | Some (v, false) =>
    match List.find (fun f => fr_readyValue f =? v) (queue A) with
    | Some f => (FL_OK, f, generation A)
    | None => (FL_INVALID, out, gen)
    end
  | _ => (FL_INVALID, out, gen)
  end.

Definition drop A (t : Z) (pending : bool) : flResult * ledger :=
  match readers A !! t with
  | Some (_, b) =>
    if Bool.eqb b pending
    then (FL_OK, mk (queue A) (delete t (readers A)) (generation A) (lastValue A))
    else (FL_INVALID, A)
  | None => (FL_INVALID, A)
  end.

Definition defer A (t : Z) : flResult * ledger :=
  match readers A !! t with
  | Some (v, false) =>
    (FL_OK, mk (queue A) (<[t := (v, true)]> (readers A)) (generation A) (lastValue A))
  | _ => (FL_INVALID, A)
  end.

Definition retired A (value : Retirement) : flResult * ledger :=
  if (rt_value value =? 0) || negb (bool_decide (value = retirement A))
  then (FL_INVALID, A)
  else (FL_OK, mk (list.drop (length (completed_prefix A (queue A))) (queue A))
                 (readers A) (generation A) (lastValue A)).

Definition resetEpoch A : ledger :=
  match queue A with [] => mk [] (readers A) 0 0 | _ => A end.
End Spec.

(** * Invariant, abstraction and refinement *)

Section Invariant.
Implicit Types (L : ReadLedger) (nextToken : Z).

Definition entryAt L (i : nat) : LFrame := frameAt L (position L i).
Definition readyAt L (k : nat) : Z := fr_readyValue (lf_frame (frameAt L k)).

(** What a table entry contributes to the abstract map. *)
Definition live_entry L (r : Reader) : option (Z * (Z * bool)) :=
  if rd_token r =? 0 then None
  else Some (rd_token r, (readyAt L (rd_frame r), rd_pending r)).

Definition live L : list (Z * (Z * bool)) := omap (live_entry L) (readers_ L).

(** An entry that pins frame record [k]. *)
Definition pins (k : nat) (r : Reader) : Prop := rd_token r <> 0 /\ rd_frame r = k.

#[global] Instance pins_dec k r : Decision (pins k r).
Proof. unfold pins. apply _. Defined.

Record ledger_inv L nextToken : Prop := {
  inv_frames : length (frames_ L) = FL_MAX_POOL_SIZE;
  inv_readers : length (readers_ L) = MaxReaders;
  inv_head : (head_ L < FL_MAX_POOL_SIZE)%nat;
  inv_count : (count_ L <= FL_MAX_POOL_SIZE)%nat;
  inv_next : 1 <= nextToken <= UINT64_MAX;
  inv_order : forall i j, (i < j < count_ L)%nat ->
    fr_readyValue (lf_frame (entryAt L i)) < fr_readyValue (lf_frame (entryAt L j));
  inv_ready : forall i, (i < count_ L)%nat ->
    fr_readyValue (lf_frame (entryAt L i)) <> 0
    /\ fr_readyValue (lf_frame (entryAt L i)) <= lastValue_ L;
  inv_slots : forall i j, (i < j < count_ L)%nat ->
    fr_slot (lf_frame (entryAt L i)) <> fr_slot (lf_frame (entryAt L j));
  inv_generation : forall i, (i < count_ L)%nat -> lf_generation (entryAt L i) = generation_ L;
  inv_tokens : NoDup (live L).*1;
  inv_token_lt : Forall (fun r => rd_token r <> 0 -> 0 < rd_token r < nextToken) (readers_ L);
  inv_active : Forall (fun r => rd_token r <> 0 ->
    exists i, (i < count_ L)%nat /\ rd_frame r = position L i) (readers_ L);
  inv_counts : forall k, (k < FL_MAX_POOL_SIZE)%nat ->
    lf_readers (frameAt L k) = Z.of_nat (length (filter (pins k) (readers_ L)));
}.

Definition abs L : Spec.ledger :=
  Spec.mk (lf_frame <$> view L) (list_to_map (live L)) (generation_ L) (lastValue_ L).

(** *** Ring positions *)

Lemma position_lt L i : (position L i < FL_MAX_POOL_SIZE)%nat.
Proof. apply Nat.mod_upper_bound. done. Qed.

(** The ring index without the modulus. *)
Lemma position_cases L i :
  (head_ L < 16)%nat -> (i <= 16)%nat ->
  position L i = if Nat.ltb (head_ L + i) 16 then (head_ L + i)%nat else (head_ L + i - 16)%nat.
Proof.
  unfold position, FL_MAX_POOL_SIZE. intros Hh Hi.
  destruct (Nat.ltb (head_ L + i) 16) eqn:E; [apply Nat.mod_small; lia|].
  replace (head_ L + i)%nat with (head_ L + i - 16 + 1 * 16)%nat at 1 by lia.
  rewrite Nat.Div0.mod_add. apply Nat.mod_small. lia.
Qed.

Lemma position_inj L i j :
  (head_ L < 16)%nat -> (i < 16)%nat -> (j < 16)%nat ->
  position L i = position L j -> i = j.
Proof. intros Hh Hi Hj. rewrite !position_cases by lia. repeat case_match; lia. Qed.

Lemma length_view L : length (view L) = count_ L.
Proof. unfold view. by rewrite length_map, length_seq. Qed.

Lemma view_lookup L i : (i < count_ L)%nat -> view L !! i = Some (entryAt L i).
Proof. intros Hi. unfold view. rewrite list_lookup_fmap, lookup_seq_lt by done. done. Qed.

Lemma view_lookup_inv L i f : view L !! i = Some f -> (i < count_ L)%nat /\ f = entryAt L i.
Proof.
  intros H. assert (i < count_ L)%nat as Hi by (rewrite <- length_view; by eapply lookup_lt_Some).
  rewrite view_lookup in H by done. by injection H as <-.
Qed.

Lemma elem_of_view L f : f ∈ view L <-> exists i, (i < count_ L)%nat /\ f = entryAt L i.
Proof.
  rewrite list_elem_of_lookup. split.
  - intros [i Hi]. apply view_lookup_inv in Hi. eauto.
  - intros (i & Hi & ->). exists i. by apply view_lookup.
Qed.

Lemma frameAt_insert L k f : (k < length (frames_ L))%nat ->
  frameAt (with_frames L (<[k := f]> (frames_ L))) k = f.
Proof. intros Hk. unfold frameAt. simpl. by rewrite list_lookup_insert_eq. Qed.

Lemma frameAt_insert_ne L k k' f : k <> k' ->
  frameAt (with_frames L (<[k := f]> (frames_ L))) k' = frameAt L k'.
Proof. intros Hk. unfold frameAt. simpl. by rewrite list_lookup_insert_ne. Qed.

(** *** The reader table, up to permutation *)

Lemma live_lookup L t v b nextToken :
  ledger_inv L nextToken ->
  Spec.readers (abs L) !! t = Some (v, b) <->
  t <> 0 /\ exists j r, readers_ L !! j = Some r /\ rd_token r = t
    /\ readyAt L (rd_frame r) = v /\ rd_pending r = b.
Proof.
  intros HI. simpl. rewrite <- elem_of_list_to_map by apply HI.
  unfold live. rewrite list_elem_of_omap. split.
  - intros (r & Hr & Hlive). unfold live_entry in Hlive.
    destruct (rd_token r =? 0) eqn:E; [done|]. injection Hlive as <- <- <-.
    split; [lia|]. apply list_elem_of_lookup in Hr as [j Hj]. eauto 10.
  - intros (Ht & j & r & Hj & <- & <- & <-). exists r.
    split; [by eapply list_elem_of_lookup_2|]. unfold live_entry.
    by replace (rd_token r =? 0) with false by lia.
Qed.

(** Live entries are determined by their tokens. *)
Lemma live_token_inj L nextToken j1 j2 r1 r2 :
  ledger_inv L nextToken -> readers_ L !! j1 = Some r1 -> readers_ L !! j2 = Some r2 ->
  rd_token r1 = rd_token r2 -> rd_token r1 <> 0 -> j1 = j2.
Proof.
  intros HI H1 H2 Heq Hnz. destruct (decide (j1 = j2)) as [|Hne]; [done|exfalso].
  destruct (insert_split _ _ _ H1) as (rest & Hp & Hi).
  pose proof (inv_tokens _ _ HI) as Hnd. unfold live in Hnd. rewrite Hp in Hnd. simpl in Hnd.
  unfold live_entry in Hnd at 1. replace (rd_token r1 =? 0) with false in Hnd by lia.
  apply NoDup_cons in Hnd as [Hnin _]. apply Hnin.
  assert (r2 ∈ rest) as Hin.
  { assert (r2 ∈ zeroReader :: rest) as Hz.
    { rewrite <- (Hi zeroReader). eapply list_elem_of_lookup_2 with (i := j2).
      by rewrite list_lookup_insert_ne. }
    apply elem_of_cons in Hz as [->|]; [|done]. simpl in Heq. lia. }
  apply list_elem_of_fmap. eexists (rd_token r2, (_, _)). split; [done|].
  apply list_elem_of_omap. exists r2. split; [done|]. unfold live_entry.
  by replace (rd_token r2 =? 0) with false by lia.
Qed.

Lemma find_Some L t p j :
  find L t p = Some j ->
  t <> 0 /\ exists r, readers_ L !! j = Some r /\ rd_token r = t /\ rd_pending r = p.
Proof.
  unfold find. destruct (t =? 0) eqn:Et; [done|]. intros H.
  apply find_index_Some in H as (r & Hr & Hb & _). apply andb_true_iff in Hb as [Hb1 Hb2].
  apply eqb_prop in Hb2. split; [lia|]. exists r. split_and!; [done|lia|done].
Qed.

Lemma find_None L t p nextToken :
  ledger_inv L nextToken -> find L t p = None ->
  forall v, Spec.readers (abs L) !! t <> Some (v, p).
Proof.
  intros HI H v Hl. apply (live_lookup _ _ _ _ _ HI) in Hl as (Ht & j & r & Hj & Hrt & _ & Hp).
  unfold find in H. replace (t =? 0) with false in H by lia.
  apply find_index_None with (i := j) (x := r) in H; [|done].
  rewrite Hrt, Z.eqb_refl, Hp, eqb_reflx in H. done.
Qed.

(** A lookup by token, in the two worlds. *)
Lemma find_spec L t p nextToken :
  ledger_inv L nextToken ->
  match find L t p with
  | Some j => exists r, readers_ L !! j = Some r /\ rd_token r = t /\ t <> 0 /\ rd_pending r = p
      /\ Spec.readers (abs L) !! t = Some (readyAt L (rd_frame r), p)
  | None => forall v, Spec.readers (abs L) !! t <> Some (v, p)
  end.
Proof.
  intros HI. destruct (find L t p) as [j|] eqn:E; [|by eapply find_None].
  apply find_Some in E as (Ht & r & Hj & Hrt & Hp). exists r. split_and!; try done.
  apply (live_lookup _ _ _ _ _ HI). eauto 10.
Qed.
End Invariant.

Section Steps.
Implicit Types (L : ReadLedger) (nextToken : Z).

(** [L'] has the same frames as [L] up to reader counts. *)
Definition same_data L L' : Prop :=
  head_ L' = head_ L /\ count_ L' = count_ L /\ generation_ L' = generation_ L
  /\ lastValue_ L' = lastValue_ L /\ length (frames_ L') = length (frames_ L)
  /\ forall k, lf_frame (frameAt L' k) = lf_frame (frameAt L k)
     /\ lf_generation (frameAt L' k) = lf_generation (frameAt L k).

Lemma same_data_entry L L' i :
  same_data L L' -> lf_frame (entryAt L' i) = lf_frame (entryAt L i)
    /\ lf_generation (entryAt L' i) = lf_generation (entryAt L i).
Proof. intros (Hh & _ & _ & _ & _ & Hd). unfold entryAt, position. rewrite Hh. apply Hd. Qed.

Lemma same_data_queue L L' : same_data L L' -> lf_frame <$> view L' = lf_frame <$> view L.
Proof.
  intros HS. pose proof HS as (_ & Hc & _). apply list_eq. intros i. rewrite !list_lookup_fmap.
  destruct (decide (i < count_ L)%nat) as [Hi|Hi].
  - rewrite !view_lookup by lia. simpl. f_equal. by apply same_data_entry.
  - rewrite !lookup_ge_None_2 by (rewrite length_view; lia). done.
Qed.

Lemma same_data_inv L L' nextToken nextToken' :
  same_data L L' -> ledger_inv L nextToken ->
  length (readers_ L') = MaxReaders -> 1 <= nextToken' <= UINT64_MAX ->
  NoDup (live L').*1 ->
  Forall (fun r => rd_token r <> 0 -> 0 < rd_token r < nextToken') (readers_ L') ->
  Forall (fun r => rd_token r <> 0 ->
    exists i, (i < count_ L)%nat /\ rd_frame r = position L i) (readers_ L') ->
  (forall k, (k < FL_MAX_POOL_SIZE)%nat ->
    lf_readers (frameAt L' k) = Z.of_nat (length (filter (pins k) (readers_ L')))) ->
  ledger_inv L' nextToken'.
Proof.
  intros HS HI Hr Hn Hnd Hlt Hact Hcnt.
  pose proof HS as (Hh & Hc & Hg & Hl & Hf & _). destruct HI.
  split; rewrite ?Hf, ?Hh, ?Hc, ?Hg, ?Hl; try done.
  - intros i j. destruct (same_data_entry L L' i HS) as [-> _].
    destruct (same_data_entry L L' j HS) as [-> _]. auto.
  - intros i. destruct (same_data_entry L L' i HS) as [-> _]. auto.
  - intros i j. destruct (same_data_entry L L' i HS) as [-> _].
    destruct (same_data_entry L L' j HS) as [-> _]. auto.
  - intros i. destruct (same_data_entry L L' i HS) as [_ ->]. auto.
  - eapply Forall_impl; [exact Hact|]. unfold position. by rewrite Hh.
Qed.

Lemma live_ext L L' :
  readers_ L' = readers_ L ->
  Forall (fun r => rd_token r <> 0 -> readyAt L' (rd_frame r) = readyAt L (rd_frame r)) (readers_ L) ->
  live L' = live L.
Proof.
  intros Hr Hf. unfold live. rewrite Hr. clear Hr.
  induction Hf as [|r rs Hx _ IH]; [done|]. rewrite !omap_cons, IH. unfold live_entry.
  destruct (rd_token r =? 0) eqn:E; [done|]. by rewrite Hx by lia.
Qed.

Lemma same_data_ready L L' k : same_data L L' -> readyAt L' k = readyAt L k.
Proof. intros (_ & _ & _ & _ & _ & Hd). unfold readyAt. by destruct (Hd k) as [-> _]. Qed.

Lemma same_data_entry_live L L' r : same_data L L' -> live_entry L' r = live_entry L r.
Proof. intros HS. unfold live_entry. by rewrite (same_data_ready L L'). Qed.

Lemma same_data_omap L L' (rs : list Reader) : same_data L L' -> omap (live_entry L') rs = omap (live_entry L) rs.
Proof.
  intros HS. induction rs as [|r rs IH]; [done|].
  rewrite !omap_cons, (same_data_entry_live L L') by done. by rewrite IH.
Qed.

(** Changing reader counts and the table only. *)
Definition update_counts L k n rs : ReadLedger :=
  with_readers (with_frames L (<[k := set_reader_count (frameAt L k) n]> (frames_ L))) rs.

Lemma frameAt_update L k n rs k' :
  frameAt (update_counts L k n rs) k' =
  if decide (k' = k /\ (k < length (frames_ L))%nat) then set_reader_count (frameAt L k) n
  else frameAt L k'.
Proof.
  unfold update_counts, frameAt. simpl. case_decide as Hd.
  - destruct Hd as [-> Hk]. by rewrite list_lookup_insert_eq.
  - destruct (decide (k' = k)) as [->|].
    + rewrite list_insert_ge by (destruct (decide (k < length (frames_ L))%nat); [naive_solver|lia]).
      done.
    + by rewrite list_lookup_insert_ne.
Qed.

Lemma update_counts_same L k n rs : same_data L (update_counts L k n rs).
Proof.
  split_and!; try done; [simpl; by rewrite length_insert|].
  intros k'. rewrite frameAt_update. case_decide as Hd; [destruct Hd as [-> _]|]; done.
Qed.

(** *** Issuing a token *)

Lemma length_omap_full L (rs : list Reader) :
  Forall (fun r => rd_token r <> 0) rs -> length (omap (live_entry L) rs) = length rs.
Proof.
  induction 1 as [|r rs Hr _ IH]; [done|]. rewrite omap_cons. unfold live_entry at 1.
  replace (rd_token r =? 0) with false by lia. simpl. by f_equal.
Qed.

Lemma live_entry_free L r : rd_token r = 0 -> live_entry L r = None.
Proof. intros Hr. unfold live_entry. by rewrite Hr. Qed.

Lemma live_entry_used L r :
  rd_token r <> 0 -> live_entry L r = Some (rd_token r, (readyAt L (rd_frame r), rd_pending r)).
Proof. intros Hr. unfold live_entry. by replace (rd_token r =? 0) with false by lia. Qed.

Lemma live_size L nextToken :
  ledger_inv L nextToken -> base.size (Spec.readers (abs L)) = length (live L).
Proof. intros HI. simpl. apply map_size_list_to_map, HI. Qed.

Lemma filter_pins_le k rs : (length (filter (pins k) rs) <= length rs)%nat.
Proof. apply length_filter. Qed.

Lemma filter_pins_cons k r rs :
  length (filter (pins k) (r :: rs)) =
  ((if decide (pins k r) then 1 else 0) + length (filter (pins k) rs))%nat.
Proof. rewrite filter_cons. by case_decide. Qed.

(** Filling a free entry with a fresh token for an active frame. *)
Lemma issue_entry L nextToken j r0 i :
  ledger_inv L nextToken -> (i < count_ L)%nat -> nextToken < UINT64_MAX ->
  readers_ L !! j = Some r0 -> rd_token r0 = 0 ->
  let k := position L i in
  let L' := update_counts L k (wrap64 (lf_readers (frameAt L k) + 1))
              (<[j := mkReader nextToken k false]> (readers_ L)) in
  ledger_inv L' (nextToken + 1)
  /\ abs L' = Spec.mk (Spec.queue (abs L)) (<[nextToken := (readyAt L k, false)]> (Spec.readers (abs L)))
                (Spec.generation (abs L)) (Spec.lastValue (abs L)).
Proof.
  intros HI Hi Hn Hj Hz k L'.
  destruct (insert_split _ _ _ Hj) as (rest & Hp & Hins).
  assert (same_data L L') as HS by apply update_counts_same.
  pose proof HI as []. pose proof (position_lt L i) as Hk. fold k in Hk.
  assert (live L' ≡ₚ (nextToken, (readyAt L k, false)) :: live L) as Hlive.
  { unfold live. rewrite (same_data_omap L L') by done. simpl readers_.
    rewrite Hins, Hp, !omap_cons, (live_entry_free L r0) by done.
    unfold live_entry at 1. simpl. by replace (nextToken =? 0) with false by lia. }
  assert (nextToken ∉ (live L).*1) as Hfresh.
  { intros ([t [v b]] & Heq & Hin)%list_elem_of_fmap. simpl in Heq. subst t.
    apply list_elem_of_omap in Hin as (r & Hr & He). unfold live_entry in He.
    destruct (rd_token r =? 0) eqn:E; [done|]. injection He as <- _ _.
    rewrite Forall_forall in inv_token_lt0. specialize (inv_token_lt0 r Hr). lia. }
  assert (NoDup (live L').*1) as Hnd.
  { rewrite Hlive. simpl. by constructor. }
  split.
  - apply (same_data_inv L L' nextToken); try done.
    + simpl. by rewrite length_insert.
    + lia.
    + simpl. apply Forall_insert; [|simpl; lia].
      eapply Forall_impl; [exact inv_token_lt0|]. intros r Hr Hr0. specialize (Hr Hr0). lia.
    + simpl. apply Forall_insert; [done|]. simpl. eauto.
    + intros k' Hk'. unfold L' at 1. rewrite frameAt_update. simpl. rewrite Hins, filter_pins_cons.
      specialize (inv_counts0 k' Hk'). rewrite Hp, filter_pins_cons in inv_counts0.
      rewrite (decide_False (P := pins k' r0)) in inv_counts0 by (unfold pins; lia).
      pose proof (filter_pins_le k' rest) as Hle.
      assert (length rest < MaxReaders)%nat as Hlr.
      { rewrite Hp in inv_readers0. simpl in inv_readers0. lia. }
      unfold MaxReaders in *. case_decide as Hd.
      * destruct Hd as [-> _]. rewrite decide_True by (split; simpl; lia). simpl.
        rewrite wrap64_small by ulia. lia.
      * rewrite decide_False; [lia|]. intros [_ Heq]. simpl in Heq. apply Hd. split; [done|]. lia.
  - unfold abs. rewrite (same_data_queue L L') by done. f_equal.
    rewrite (list_to_map_proper _ _ Hnd Hlive). done.
Qed.

Lemma addReader_refines L nextToken i out :
  ledger_inv L nextToken -> (i < count_ L)%nat ->
  let '(res, out', L', nextToken') := addReader L (position L i) nextToken out in
  ledger_inv L' nextToken'
  /\ (res, out', abs L', nextToken')
     = Spec.issue (abs L) (readyAt L (position L i)) nextToken out
  /\ (res <> FL_OK -> L' = L).
Proof.
  intros HI Hi. unfold addReader, Spec.issue. rewrite (live_size L nextToken) by done.
  destruct (find_index _ (readers_ L)) as [j|] eqn:Ef.
  - apply find_index_Some in Ef as (r0 & Hj & Hz & _).
    assert (length (live L) < MaxReaders)%nat as Hlt.
    { destruct (insert_split _ _ _ Hj) as (rest & Hp & _).
      pose proof (inv_readers _ _ HI) as Hl. unfold live. rewrite Hp in Hl |- *. simpl in Hl.
      rewrite omap_cons, live_entry_free by lia.
      pose proof (length_omap_le (live_entry L) rest). lia. }
    replace (Nat.eqb (length (live L)) MaxReaders) with false by lia.
    unfold token. destruct (nextToken =? UINT64_MAX) eqn:Em; [done|]. cbn iota beta.
    pose proof (inv_next _ _ HI).
    replace (nextToken =? 0) with false by lia.
    destruct (issue_entry L nextToken j r0 i HI Hi ltac:(lia) Hj ltac:(lia)) as [HI' Habs].
    split_and!; [exact HI'| |done]. f_equal. f_equal. exact Habs.
  - assert (length (live L) = MaxReaders) as ->.
    { rewrite <- (inv_readers _ _ HI). apply length_omap_full. apply Forall_lookup_2.
      intros j r Hj. pose proof (proj1 (find_index_None _ _) Ef j r Hj) as Hb. simpl in Hb. lia. }
    rewrite Nat.eqb_refl. done.
Qed.

(** *** Accepting a frame *)

Lemma position_inactive L nextToken i :
  ledger_inv L nextToken -> (count_ L < FL_MAX_POOL_SIZE)%nat -> (i < count_ L)%nat ->
  position L i <> position L (count_ L).
Proof.
  unfold FL_MAX_POOL_SIZE. intros HI Hc Hi Heq. pose proof (inv_head _ _ HI) as Hh.
  unfold FL_MAX_POOL_SIZE in Hh. apply position_inj in Heq; lia.
Qed.

(** No reader is left on the record behind the queue. *)
Lemma inactive_unpinned L nextToken :
  ledger_inv L nextToken -> (count_ L < FL_MAX_POOL_SIZE)%nat ->
  Forall (fun r => rd_token r <> 0 -> rd_frame r <> position L (count_ L)) (readers_ L).
Proof.
  intros HI Hc. eapply Forall_impl; [exact (inv_active _ _ HI)|]. intros r Hr Hr0.
  destruct (Hr Hr0) as (i & Hi & ->). by apply (position_inactive L nextToken).
Qed.

Lemma inactive_count L nextToken :
  ledger_inv L nextToken -> (count_ L < FL_MAX_POOL_SIZE)%nat ->
  length (filter (pins (position L (count_ L))) (readers_ L)) = 0%nat.
Proof.
  intros HI Hc. apply length_zero_iff_nil, elem_of_nil_inv. intros r.
  rewrite list_elem_of_filter.
  intros [[Hr0 Hrk] Hin].
  pose proof (inactive_unpinned L nextToken HI Hc) as HF. rewrite Forall_forall in HF.
  by apply (HF r Hin).
Qed.

(** The class with one record stored behind the queue. *)
Definition store L (f : LFrame) : ReadLedger :=
  with_frames L (<[position L (count_ L) := f]> (frames_ L)).

Lemma store_entry L nextToken f i :
  ledger_inv L nextToken -> (count_ L < FL_MAX_POOL_SIZE)%nat -> (i < count_ L)%nat ->
  entryAt (store L f) i = entryAt L i.
Proof.
  intros HI Hc Hi. unfold entryAt, store. rewrite frameAt_insert_ne; [done|].
  by apply not_eq_sym, (position_inactive L nextToken).
Qed.

Lemma store_last L nextToken f :
  ledger_inv L nextToken -> frameAt (store L f) (position L (count_ L)) = f.
Proof. intros HI. apply frameAt_insert. rewrite (inv_frames _ _ HI). apply position_lt. Qed.

Lemma store_live L nextToken f :
  ledger_inv L nextToken -> (count_ L < FL_MAX_POOL_SIZE)%nat -> live (store L f) = live L.
Proof.
  intros HI Hc. apply live_ext; [done|].
  eapply Forall_impl; [by eapply inactive_unpinned|]. intros r Hr Hr0.
  unfold readyAt, store. by rewrite frameAt_insert_ne by (symmetry; auto).
Qed.

Lemma store_counts L nextToken f k :
  ledger_inv L nextToken -> (count_ L < FL_MAX_POOL_SIZE)%nat -> lf_readers f = 0 ->
  (k < FL_MAX_POOL_SIZE)%nat ->
  lf_readers (frameAt (store L f) k) = Z.of_nat (length (filter (pins k) (readers_ L))).
Proof.
  intros HI Hc Hf Hk. destruct (decide (k = position L (count_ L))) as [->|Hne].
  - rewrite (store_last L nextToken) by done. rewrite (inactive_count L nextToken) by done. lia.
  - unfold store. rewrite frameAt_insert_ne by done. by apply HI.
Qed.

Lemma store_inactive L nextToken f :
  ledger_inv L nextToken -> (count_ L < FL_MAX_POOL_SIZE)%nat -> lf_readers f = 0 ->
  ledger_inv (store L f) nextToken /\ abs (store L f) = abs L.
Proof.
  intros HI Hc Hf. split.
  - pose proof HI as []. split; try done.
    + simpl. by rewrite length_insert.
    + intros i j Hij. simpl in Hij. rewrite !(store_entry L nextToken) by (done || lia). auto.
    + intros i Hi. simpl in Hi. rewrite !(store_entry L nextToken) by (done || lia). auto.
    + intros i j Hij. simpl in Hij. rewrite !(store_entry L nextToken) by (done || lia). auto.
    + intros i Hi. simpl in Hi. rewrite !(store_entry L nextToken) by (done || lia). simpl. auto.
    + by rewrite (store_live L nextToken).
    + intros k Hk. by apply (store_counts L nextToken).
  - unfold abs. rewrite (store_live L nextToken) by done. f_equal.
    apply list_eq. intros i. rewrite !list_lookup_fmap.
    destruct (decide (i < count_ L)%nat) as [Hi|Hi].
    + rewrite !view_lookup by done. simpl. by rewrite (store_entry L nextToken).
    + rewrite !lookup_ge_None_2 by (rewrite length_view; simpl; lia). done.
Qed.

(** The class with the frame pushed, before its first reader. *)
Definition push L (gen : Z) (frame : flFrame) : ReadLedger :=
  mkLedger (frames_ (store L (mkLFrame frame gen 0))) (readers_ L) (head_ L) (count_ L + 1)
    gen (fr_readyValue frame).

Lemma push_queue L nextToken gen frame :
  ledger_inv L nextToken -> (count_ L < FL_MAX_POOL_SIZE)%nat ->
  lf_frame <$> view (push L gen frame) = (lf_frame <$> view L) ++ [frame].
Proof.
  intros HI Hc. unfold view. simpl count_. rewrite seq_app, map_app. rewrite fmap_app. f_equal.
  - apply list_eq. intros i. rewrite !list_lookup_fmap.
    destruct (decide (i < count_ L)%nat) as [Hi|Hi].
    + rewrite lookup_seq_lt by done. simpl. f_equal. f_equal.
      apply (store_entry L nextToken (mkLFrame frame gen 0) i HI Hc Hi).
    + by rewrite lookup_seq_ge by lia.
  - simpl. f_equal.
    change (frameAt (push L gen frame)) with (frameAt (store L (mkLFrame frame gen 0))).
    change (position (push L gen frame)) with (position L).
    by rewrite (store_last L nextToken).
Qed.

Lemma push_entry L nextToken gen frame i :
  ledger_inv L nextToken -> (count_ L < FL_MAX_POOL_SIZE)%nat -> (i <= count_ L)%nat ->
  entryAt (push L gen frame) i =
  if decide (i = count_ L) then mkLFrame frame gen 0 else entryAt L i.
Proof.
  intros HI Hc Hi.
  change (entryAt (push L gen frame) i) with (entryAt (store L (mkLFrame frame gen 0)) i).
  case_decide as Hd; [subst i; by apply (store_last L nextToken)|].
  apply (store_entry L nextToken); [done|done|lia].
Qed.

Lemma push_inv L nextToken gen frame :
  ledger_inv L nextToken -> (count_ L < FL_MAX_POOL_SIZE)%nat ->
  (count_ L <> 0%nat -> generation_ L = gen) ->
  (generation_ L = gen -> lastValue_ L < fr_readyValue frame) -> fr_readyValue frame <> 0 ->
  (forall i, (i < count_ L)%nat -> fr_slot (lf_frame (entryAt L i)) <> fr_slot frame) ->
  ledger_inv (push L gen frame) nextToken.
Proof.
  intros HI Hc Hg Hv Hv0 Hslot.
  assert (forall i, (i < count_ L)%nat ->
    fr_readyValue (lf_frame (entryAt L i)) < fr_readyValue frame) as Hlt.
  { intros i Hi. pose proof (proj2 (inv_ready _ _ HI i Hi)). specialize (Hg ltac:(lia)).
    specialize (Hv Hg). lia. }
  pose proof HI as []. split; try done; try (simpl; rewrite ?length_insert; done || lia).
  - intros i j Hij. simpl in Hij. rewrite !(push_entry L nextToken) by (done || lia).
    repeat case_decide; [lia|lia|simpl; apply Hlt; lia|auto with lia].
  - intros i Hi. simpl in Hi. rewrite (push_entry L nextToken) by (done || lia).
    case_decide; [by simpl|]. destruct (inv_ready0 i ltac:(lia)).
    split; [done|]. simpl. pose proof (Hlt i ltac:(lia)). lia.
  - intros i j Hij. simpl in Hij. rewrite !(push_entry L nextToken) by (done || lia).
    repeat case_decide; [lia|lia|simpl; apply Hslot; lia|auto with lia].
  - intros i Hi. simpl in Hi. rewrite (push_entry L nextToken) by (done || lia).
    case_decide; [done|]. rewrite inv_generation0 by lia. apply Hg. lia.
  - change (live (push L gen frame)) with (live (store L (mkLFrame frame gen 0))).
    by rewrite (store_live L nextToken).
  - eapply Forall_impl; [exact inv_active0|]. intros r Hr Hr0. destruct (Hr Hr0) as (i & Hi & ->).
    exists i. split; [simpl; lia|done].
  - intros k Hk. by apply (store_counts L nextToken (mkLFrame frame gen 0)).
Qed.

Lemma push_abs L nextToken gen frame :
  ledger_inv L nextToken -> (count_ L < FL_MAX_POOL_SIZE)%nat ->
  abs (push L gen frame) =
  Spec.mk (Spec.queue (abs L) ++ [frame]) (Spec.readers (abs L)) gen (fr_readyValue frame).
Proof.
  intros HI Hc. unfold abs. rewrite (push_queue L nextToken) by done.
  change (live (push L gen frame)) with (live (store L (mkLFrame frame gen 0))).
  by rewrite (store_live L nextToken).
Qed.

(** [addReader] neither reads nor writes the count, the generation and the
    last value, so raising them before or after it is the same. *)
Definition with_meta L (c : nat) (g v : Z) : ReadLedger :=
  mkLedger (frames_ L) (readers_ L) (head_ L) c g v.

Lemma addReader_meta L f nextToken out c g v :
  let '(r, out', L', n') := addReader L f nextToken out in
  addReader (with_meta L c g v) f nextToken out = (r, out', with_meta L' c g v, n').
Proof.
  unfold addReader, token, frameAt. cbn [readers_ frames_ with_meta].
  destruct (find_index _ _); [|done]. destruct (nextToken =? UINT64_MAX); [done|].
  destruct (nextToken =? 0); done.
Qed.

Lemma addReader_frame L f nextToken out :
  let '(res, _, L', _) := addReader L f nextToken out in
  count_ L' = count_ L /\ (res <> FL_OK -> L' = L).
Proof.
  unfold addReader, token. destruct (find_index _ _); [|done].
  destruct (nextToken =? UINT64_MAX); [done|]. destruct (nextToken =? 0); done.
Qed.

Lemma store_store L f g : store (store L f) g = store L g.
Proof.
  unfold store, with_frames. simpl. f_equal. apply list_insert_insert_eq.
Qed.

(** What [acquire] does once its checks are passed. *)
Lemma acquire_push L nextToken out gen frame :
  ledger_inv L nextToken -> (count_ L < FL_MAX_POOL_SIZE)%nat ->
  ledger_inv (push L gen frame) nextToken ->
  let f := position L (count_ L) in
  let '(res, out', L', n') :=
    match addReader (store L (mkLFrame frame gen 0)) f nextToken out with
    | (FL_OK, out', L2, n') =>
      (FL_OK, out', with_meta L2 (count_ L2 + 1) gen (fr_readyValue frame), n')
    | (res, out', L2, n') => (res, out', with_frames L2 (<[f := zeroLFrame]> (frames_ L2)), n')
    end in
  ledger_inv L' n'
  /\ (res, out', abs L', n') =
     match Spec.issue (abs L) (fr_readyValue frame) nextToken out with
     | (FL_OK, t, A', n') =>
       (FL_OK, t, Spec.mk (Spec.queue (abs L) ++ [frame]) (Spec.readers A') gen
                    (fr_readyValue frame), n')
     | r => r
     end.
Proof.
  intros HI Hc HP f.
  pose proof (addReader_refines (push L gen frame) nextToken (count_ L) out HP
                ltac:(simpl; lia)) as HR.
  change (position (push L gen frame) (count_ L)) with f in HR.
  replace (readyAt (push L gen frame) f) with (fr_readyValue frame) in HR.
  2:{ unfold readyAt. change (frameAt (push L gen frame) f)
        with (frameAt (store L (mkLFrame frame gen 0)) f).
      unfold f. by rewrite (store_last L nextToken). }
  pose proof (addReader_meta (store L (mkLFrame frame gen 0)) f nextToken out
                (count_ L + 1) gen (fr_readyValue frame)) as HM.
  change (with_meta (store L (mkLFrame frame gen 0)) (count_ L + 1) gen (fr_readyValue frame))
    with (push L gen frame) in HM.
  pose proof (addReader_frame (store L (mkLFrame frame gen 0)) f nextToken out) as HC.
  destruct (addReader (store L _) f nextToken out) as [[[res out'] L2] n'] eqn:HA.
  rewrite HM in HR. destruct HR as (HI' & HE & _). destruct HC as [HC HF].
  rewrite (push_abs L nextToken) in HE by done.
  unfold Spec.issue in HE |- *. cbn [Spec.readers Spec.queue Spec.generation Spec.lastValue] in HE.
  destruct (Nat.eqb _ _) in HE |- *; [|destruct (nextToken =? UINT64_MAX) in HE |- *].
  1,2: injection HE as -> -> _ _ ->; rewrite (HF ltac:(done));
    destruct (store_inactive L nextToken zeroLFrame HI Hc eq_refl) as [HIs Has];
    change (with_frames (store L (mkLFrame frame gen 0)) _)
      with (store (store L (mkLFrame frame gen 0)) zeroLFrame);
    rewrite store_store, Has; done.
  pose proof (f_equal (fun x => x.1.2) HE) as Habs. simpl in Habs.
  injection HE as -> -> _ _ ->. rewrite HC.
  split; [exact HI'|]. exact (f_equal (fun a => (FL_OK, nextToken, a, nextToken + 1)) Habs).
Qed.

Lemma existsb_queue L s :
  existsb (fun f => fr_slot f =? s) (Spec.queue (abs L)) =
  existsb (fun f => fr_slot (lf_frame f) =? s) (view L).
Proof. simpl. induction (view L) as [|x r IH]; simpl; [done|by f_equal]. Qed.

Lemma existsb_view_false L s :
  existsb (fun f => fr_slot (lf_frame f) =? s) (view L) = false ->
  forall i, (i < count_ L)%nat -> fr_slot (lf_frame (entryAt L i)) <> s.
Proof.
  intros H i Hi Heq. apply not_true_iff_false in H. apply H, existsb_exists.
  exists (entryAt L i). split; [|lia]. apply list_elem_of_In, elem_of_view. eauto.
Qed.

Lemma length_queue L : length (Spec.queue (abs L)) = count_ L.
Proof. simpl. by rewrite length_fmap, length_view. Qed.

Lemma acquire_refines L nextToken gen frame out :
  ledger_inv L nextToken ->
  let '(res, out', L', nextToken') := acquire L gen frame nextToken out in
  ledger_inv L' nextToken'
  /\ (res, out', abs L', nextToken') = Spec.acquire (abs L) gen frame nextToken out.
Proof.
  intros HI. unfold acquire, Spec.acquire, truthy. rewrite !negb_involutive.
  rewrite length_queue, existsb_queue.
  change (Spec.generation (abs L)) with (generation_ L).
  change (Spec.lastValue (abs L)) with (lastValue_ L).
  change (Z.of_nat FL_MAX_POOL_SIZE) with 16. change FL_MAX_POOL_SIZE with 16%nat.
  destruct (_ || _) eqn:E1; [done|].
  destruct (Nat.eqb (count_ L) 16) eqn:E2; [done|].
  destruct (_ && _) eqn:E3; [done|].
  destruct (_ && _) eqn:E4 in |- *; [done|].
  destruct (existsb _ _) eqn:E5; [done|]. bools.
  pose proof (inv_count _ _ HI) as Hc. unfold FL_MAX_POOL_SIZE in Hc.
  assert (count_ L < FL_MAX_POOL_SIZE)%nat as Hlt by (unfold FL_MAX_POOL_SIZE; lia).
  apply acquire_push; [done|done|]. apply push_inv; try done; [lia|lia|lia|].
  by apply existsb_view_false.
Qed.

Lemma retain_refines L nextToken source out :
  ledger_inv L nextToken ->
  let '(res, out', L', nextToken') := retain L source nextToken out in
  ledger_inv L' nextToken'
  /\ (res, out', abs L', nextToken') = Spec.retain (abs L) source nextToken out.
Proof.
  intros HI. unfold retain, Spec.retain. pose proof (find_spec L source false nextToken HI) as HF.
  destruct (find L source false) as [j|].
  - destruct HF as (r & Hj & Hr & Hr0 & Hp & ->).
    pose proof (inv_active _ _ HI) as Ha. rewrite Forall_lookup in Ha.
    destruct (Ha j r Hj ltac:(lia)) as (i & Hi & Hk).
    unfold readerFrame. rewrite Hj. simpl default. rewrite Hk.
    pose proof (addReader_refines L nextToken i out HI Hi) as HR.
    destruct (addReader _ _ _ _) as [[[? ?] ?] ?]. by destruct HR as (? & ? & _).
  - destruct (Spec.readers (abs L) !! source) as [[v [|]]|] eqn:E; [done| |done].
    by destruct (HF v).
Qed.

(** *** Looking a token up *)

Lemma find_ready L nextToken i :
  ledger_inv L nextToken -> (i < count_ L)%nat ->
  List.find (fun f => fr_readyValue f =? readyAt L (position L i)) (Spec.queue (abs L))
  = Some (lf_frame (entryAt L i)).
Proof.
  intros HI Hi. destruct (List.find _ _) as [f|] eqn:E.
  - apply find_some in E as [Hin Heq]. apply list_elem_of_In in Hin.
    apply list_elem_of_fmap in Hin as (e & -> & Hin). apply elem_of_view in Hin as (j & Hj & ->).
    unfold readyAt in Heq. fold (entryAt L i) in Heq. f_equal. f_equal.
    destruct (Nat.lt_trichotomy i j) as [H|[->|H]]; [|done|].
    + pose proof (inv_order _ _ HI i j ltac:(lia)). lia.
    + pose proof (inv_order _ _ HI j i ltac:(lia)). lia.
  - exfalso. eapply find_none in E; [|apply list_elem_of_In, list_elem_of_fmap;
      exists (entryAt L i); split; [done|]; apply elem_of_view; by exists i].
    unfold readyAt, entryAt in E. simpl in E. lia.
Qed.

Lemma get_refines L nextToken t out gen :
  ledger_inv L nextToken -> get L t out gen = Spec.get (abs L) t out gen.
Proof.
  intros HI. unfold get, Spec.get. pose proof (find_spec L t false nextToken HI) as HF.
  destruct (find L t false) as [j|].
  - destruct HF as (r & Hj & Hr & Hr0 & Hp & ->).
    pose proof (inv_active _ _ HI) as Ha. rewrite Forall_lookup in Ha.
    destruct (Ha j r Hj ltac:(lia)) as (i & Hi & Hk).
    unfold readerFrame. rewrite Hj. simpl default. rewrite Hk.
    rewrite (find_ready L nextToken) by done. fold (entryAt L i).
    by rewrite (inv_generation _ _ HI).
  - destruct (Spec.readers (abs L) !! t) as [[v [|]]|] eqn:E; [done| |done].
    by destruct (HF v).
Qed.

(** *** Completing a reader *)

Lemma dropReader_spec L nextToken j r :
  ledger_inv L nextToken -> readers_ L !! j = Some r -> rd_token r <> 0 ->
  ledger_inv (dropReader L j) nextToken
  /\ abs (dropReader L j) = Spec.mk (Spec.queue (abs L)) (delete (rd_token r) (Spec.readers (abs L)))
                              (Spec.generation (abs L)) (Spec.lastValue (abs L)).
Proof.
  intros HI Hj Hr0. set (k := rd_frame r).
  assert (dropReader L j = update_counts L k (wrap64 (lf_readers (frameAt L k) - 1))
                             (<[j := zeroReader]> (readers_ L))) as ->.
  { unfold dropReader, update_counts, readerFrame. by rewrite Hj. }
  set (L' := update_counts _ _ _ _).
  destruct (insert_split _ _ _ Hj) as (rest & Hp & Hins).
  assert (same_data L L') as HS by apply update_counts_same.
  pose proof HI as [].
  assert (live L ≡ₚ (rd_token r, (readyAt L k, rd_pending r)) :: live L') as Hlive.
  { unfold live. rewrite (same_data_omap L L') by done. simpl readers_.
    rewrite Hins, Hp, !omap_cons, (live_entry_free L zeroReader) by done.
    unfold live_entry at 1. by replace (rd_token r =? 0) with false by lia. }
  pose proof inv_tokens0 as Hnd. rewrite Hlive in Hnd. simpl in Hnd.
  apply NoDup_cons in Hnd as [Hnin Hnd].
  split.
  - apply (same_data_inv L L' nextToken); try done.
    + simpl. by rewrite length_insert.
    + simpl. apply Forall_insert; [done|by simpl].
    + simpl. apply Forall_insert; [done|by simpl].
    + intros k' Hk'. unfold L' at 1. rewrite frameAt_update. simpl. rewrite Hins, filter_pins_cons.
      rewrite (decide_False (P := pins k' zeroReader)) by (unfold pins; simpl; lia).
      pose proof (inv_counts0 k' Hk') as HC. rewrite Hp, filter_pins_cons in HC.
      assert (length rest < MaxReaders)%nat as Hlr.
      { rewrite Hp in inv_readers0. simpl in inv_readers0. lia. }
      pose proof (filter_pins_le k' rest) as Hle. unfold MaxReaders in *.
      destruct (decide (k' = k /\ _)) as [Hd|Hd].
      * destruct Hd as [-> _]. rewrite decide_True in HC by done. simpl.
        rewrite wrap64_small by ulia. lia.
      * rewrite decide_False in HC; [lia|]. intros [_ Heq]. apply Hd. split; [done|].
        fold k in Heq. lia.
  - unfold abs. rewrite (same_data_queue L L') by done. f_equal. cbn [Spec.readers abs].
    rewrite (list_to_map_proper _ _ inv_tokens0 Hlive). simpl.
    rewrite delete_insert_id; [done|]. by apply not_elem_of_list_to_map.
Qed.

Lemma drop_refines L nextToken t p :
  ledger_inv L nextToken ->
  let '(res, L') := match find L t p with
                    | Some j => (FL_OK, dropReader L j) | None => (FL_INVALID, L) end in
  ledger_inv L' nextToken /\ (res, abs L') = Spec.drop (abs L) t p.
Proof.
  intros HI. unfold Spec.drop. pose proof (find_spec L t p nextToken HI) as HF.
  destruct (find L t p) as [j|].
  - destruct HF as (r & Hj & Hr & Hr0 & Hp & ->). rewrite eqb_reflx.
    destruct (dropReader_spec L nextToken j r HI Hj ltac:(lia)) as [H1 H2].
    split; [done|]. by rewrite H2, Hr.
  - split; [done|]. destruct (Spec.readers (abs L) !! t) as [[v b]|] eqn:E; [|done].
    destruct (Bool.eqb b p) eqn:Eb; [|done]. apply eqb_prop in Eb. subst b. by destruct (HF v).
Qed.

Lemma defer_refines L nextToken t :
  ledger_inv L nextToken ->
  let '(res, L') := defer L t in
  ledger_inv L' nextToken /\ (res, abs L') = Spec.defer (abs L) t.
Proof.
  intros HI. unfold defer, Spec.defer. pose proof (find_spec L t false nextToken HI) as HF.
  destruct (find L t false) as [j|].
  2:{ split; [done|]. destruct (Spec.readers (abs L) !! t) as [[v [|]]|] eqn:E; [done| |done].
      by destruct (HF v). }
  destruct HF as (r & Hj & Hr & Hr0 & Hp & ->). rewrite Hj. simpl default.
  set (r' := mkReader _ _ true). set (L' := with_readers L _).
  destruct (insert_split _ _ _ Hj) as (rest & Hpm & Hins).
  assert (same_data L L') as HS by done. pose proof HI as [].
  assert (live L ≡ₚ (t, (readyAt L (rd_frame r), false)) :: omap (live_entry L) rest) as Hl.
  { unfold live. rewrite Hpm, omap_cons, live_entry_used by lia. by rewrite Hr, Hp. }
  assert (live L' ≡ₚ (t, (readyAt L (rd_frame r), true)) :: omap (live_entry L) rest) as Hl'.
  { unfold live. rewrite (same_data_omap L L') by done. simpl readers_.
    rewrite Hins, omap_cons, live_entry_used by (simpl; lia). simpl. by rewrite Hr. }
  pose proof inv_tokens0 as Hnd. rewrite Hl in Hnd. simpl in Hnd.
  assert (NoDup (live L').*1) as Hnd' by (rewrite Hl'; done).
  rewrite Forall_lookup in inv_active0. rewrite Forall_lookup in inv_token_lt0.
  split.
  - apply (same_data_inv L L' nextToken); try done.
    + simpl. by rewrite length_insert.
    + simpl. apply Forall_insert; [by apply Forall_lookup|].
      simpl. apply (inv_token_lt0 j r Hj).
    + simpl. apply Forall_insert; [by apply Forall_lookup|].
      simpl. apply (inv_active0 j r Hj).
    + intros k' Hk'. change (frameAt L' k') with (frameAt L k'). rewrite (inv_counts0 k' Hk').
      simpl. rewrite Hins, Hpm, !filter_pins_cons. done.
  - f_equal. unfold abs. rewrite (same_data_queue L L') by done. f_equal. cbn [Spec.readers abs].
    rewrite (list_to_map_proper _ _ inv_tokens0 Hl), (list_to_map_proper _ _ Hnd' Hl'). simpl.
    by rewrite insert_insert_eq.
Qed.

(** *** Retirement *)

Lemma filter_pins_0 k (rs : list Reader) :
  length (filter (pins k) rs) = 0%nat <-> Forall (fun r => ~ pins k r) rs.
Proof.
  rewrite Forall_forall. split.
  - intros H%length_zero_iff_nil r Hr Hp.
    assert (r ∈ filter (pins k) rs) as Hin by (by apply list_elem_of_filter).
    rewrite H in Hin. by apply elem_of_nil in Hin.
  - intros H. apply length_zero_iff_nil, elem_of_nil_inv. intros r.
    rewrite list_elem_of_filter. intros [Hp Hr]. by apply (H r).
Qed.

(** The reader count of an active frame says whether it is completed. *)
Lemma completed_count L nextToken i :
  ledger_inv L nextToken -> (i < count_ L)%nat ->
  Spec.completed (abs L) (lf_frame (entryAt L i)) <-> lf_readers (entryAt L i) = 0.
Proof.
  intros HI Hi. unfold entryAt at 2. rewrite (inv_counts _ _ HI) by apply position_lt.
  assert (forall n, Z.of_nat n = 0 <-> n = 0%nat) as -> by lia.
  rewrite filter_pins_0, Forall_lookup. unfold Spec.completed. split.
  - intros HC j r Hj [Hr0 Hrk]. apply (map_Forall_lookup_1 _ _ (rd_token r) (readyAt L (rd_frame r), rd_pending r)) in HC.
    + simpl in HC. unfold readyAt in HC. by rewrite Hrk in HC.
    + apply (live_lookup _ _ _ _ _ HI). eauto 10.
  - intros HF t [v b] Hl Heq. simpl in Heq. apply (live_lookup _ _ _ _ _ HI) in Hl.
    destruct Hl as (Ht & j & r & Hj & Hr & Hv & _). apply (HF j r Hj). split; [lia|].
    pose proof (inv_active _ _ HI) as Ha. rewrite Forall_lookup in Ha.
    destruct (Ha j r Hj ltac:(lia)) as (i' & Hi' & Hk). rewrite Hk. f_equal.
    rewrite Hk in Hv. subst v. unfold readyAt in Heq. fold (entryAt L i') in Heq.
    destruct (Nat.lt_trichotomy i i') as [H|[->|H]]; [|done|].
    + pose proof (inv_order _ _ HI i i' ltac:(lia)). lia.
    + pose proof (inv_order _ _ HI i' i ltac:(lia)). lia.
Qed.

(** The scan over the class's frames is the scan over the abstract queue. *)
Lemma retireScan_spec L nextToken l acc :
  ledger_inv L nextToken -> (forall e, e ∈ l -> e ∈ view L) ->
  retireScan l acc =
  match last (Spec.completed_prefix (abs L) (lf_frame <$> l)) with
  | None => acc
  | Some f => mkRetirement (generation_ L) (fr_readyValue f)
  end.
Proof.
  intros HI. revert acc. induction l as [|e l IH]; intros acc Hl; [done|].
  destruct (proj1 (elem_of_view L e) (Hl e ltac:(left))) as (i & Hi & ->).
  cbn [retireScan fmap list_fmap Spec.completed_prefix].
  pose proof (completed_count L nextToken i HI Hi) as HC. unfold truthy.
  case_decide as Hd.
  - replace (lf_readers (entryAt L i) =? 0) with true by (symmetry; apply Z.eqb_eq; tauto).
    simpl negb. cbn iota. rewrite IH by (intros e' He'; apply Hl; by right).
    rewrite (inv_generation _ _ HI) by done. rewrite last_cons. by destruct (last _).
  - replace (lf_readers (entryAt L i) =? 0) with false; [done|].
    symmetry. apply Z.eqb_neq. tauto.
Qed.

Lemma retirement_refines L nextToken :
  ledger_inv L nextToken -> retirement L = Spec.retirement (abs L).
Proof. intros HI. unfold retirement. by rewrite (retireScan_spec L nextToken). Qed.

(** One round of the loop in [retired]. *)
Definition pop L : ReadLedger :=
  mkLedger (<[head_ L := zeroLFrame]> (frames_ L)) (readers_ L)
    ((head_ L + 1) mod FL_MAX_POOL_SIZE) (count_ L - 1) (generation_ L) (lastValue_ L).

Lemma position_0 L : (head_ L < FL_MAX_POOL_SIZE)%nat -> position L 0 = head_ L.
Proof. intros Hh. unfold position. rewrite Nat.add_0_r. by apply Nat.mod_small. Qed.

Lemma pop_position L i : position (pop L) i = position L (S i).
Proof.
  unfold position. change (head_ (pop L)) with ((head_ L + 1) mod FL_MAX_POOL_SIZE)%nat.
  rewrite Nat.Div0.add_mod_idemp_l. f_equal. lia.
Qed.

Lemma pop_frame L k : k <> head_ L -> frameAt (pop L) k = frameAt L k.
Proof. intros Hk. unfold frameAt, pop. simpl. by rewrite list_lookup_insert_ne. Qed.

Lemma position_S_head L i :
  (head_ L < FL_MAX_POOL_SIZE)%nat -> (S i < FL_MAX_POOL_SIZE)%nat -> position L (S i) <> head_ L.
Proof.
  unfold FL_MAX_POOL_SIZE. intros Hh Hi Heq. rewrite <- (position_0 L) in Heq by done.
  apply position_inj in Heq; lia.
Qed.

Lemma pop_entry L nextToken i :
  ledger_inv L nextToken -> (S i < count_ L)%nat -> entryAt (pop L) i = entryAt L (S i).
Proof.
  intros HI Hi. unfold entryAt. rewrite pop_position. apply pop_frame.
  pose proof (inv_count _ _ HI). apply position_S_head; [apply HI|lia].
Qed.

Lemma pop_active L nextToken :
  ledger_inv L nextToken -> (0 < count_ L)%nat -> lf_readers (entryAt L 0) = 0 ->
  Forall (fun r => rd_token r <> 0 ->
    exists i, (S i < count_ L)%nat /\ rd_frame r = position L (S i)) (readers_ L).
Proof.
  intros HI Hc H0.
  assert (Forall (fun r => ~ pins (position L 0) r) (readers_ L)) as HF.
  { apply filter_pins_0. unfold entryAt in H0. rewrite (inv_counts _ _ HI) in H0 by apply position_lt.
    lia. }
  apply (Forall_impl2 _ _ _ _ (inv_active _ _ HI) HF). intros r Hr Hp Hr0.
  destruct (Hr Hr0) as ([|i] & Hi & Hk); [|eauto]. by destruct Hp.
Qed.

Lemma pop_inv L nextToken :
  ledger_inv L nextToken -> (0 < count_ L)%nat -> lf_readers (entryAt L 0) = 0 ->
  ledger_inv (pop L) nextToken.
Proof.
  intros HI Hc H0. pose proof (pop_active L nextToken HI Hc H0) as Ha.
  assert (live (pop L) = live L) as Hl.
  { apply live_ext; [done|]. eapply Forall_impl; [exact Ha|]. intros r Hr Hr0.
    destruct (Hr Hr0) as (i & Hi & ->). unfold readyAt. rewrite pop_frame; [done|].
    pose proof (inv_count _ _ HI). apply position_S_head; [apply HI|lia]. }
  pose proof HI as []. split; try done.
  - simpl. by rewrite length_insert.
  - by apply Nat.mod_upper_bound.
  - simpl. lia.
  - intros i j Hij. simpl in Hij. rewrite !(pop_entry L nextToken) by (done || lia).
    apply inv_order0. lia.
  - intros i Hi. simpl in Hi. rewrite !(pop_entry L nextToken) by (done || lia).
    apply inv_ready0. lia.
  - intros i j Hij. simpl in Hij. rewrite !(pop_entry L nextToken) by (done || lia).
    apply inv_slots0. lia.
  - intros i Hi. simpl in Hi. rewrite !(pop_entry L nextToken) by (done || lia).
    apply inv_generation0. lia.
  - by rewrite Hl.
  - eapply Forall_impl; [exact Ha|]. intros r Hr Hr0. destruct (Hr Hr0) as (i & Hi & ->).
    exists i. split; [simpl; lia|]. by rewrite pop_position.
  - intros k Hk. simpl readers_. destruct (decide (k = head_ L)) as [->|Hne].
    + unfold frameAt. simpl. rewrite list_lookup_insert_eq by lia. simpl.
      rewrite <- (position_0 L) by done. unfold entryAt in H0.
      rewrite inv_counts0 in H0 by apply position_lt. lia.
    + rewrite pop_frame by done. auto.
Qed.

Lemma pop_abs L nextToken :
  ledger_inv L nextToken -> (0 < count_ L)%nat -> lf_readers (entryAt L 0) = 0 ->
  abs (pop L) = Spec.mk (tail (Spec.queue (abs L))) (Spec.readers (abs L))
                  (generation_ L) (lastValue_ L)
  /\ Spec.queue (abs L) = lf_frame (entryAt L 0) :: Spec.queue (abs (pop L)).
Proof.
  intros HI Hc H0. pose proof (pop_active L nextToken HI Hc H0) as Ha.
  assert (Spec.queue (abs L) = lf_frame (entryAt L 0) :: Spec.queue (abs (pop L))) as Hq.
  { simpl. unfold view. simpl count_. destruct (count_ L) as [|c] eqn:Ec; [lia|].
    replace (S c - 1)%nat with c by lia. cbn [seq map fmap list_fmap]. f_equal.
    rewrite <- seq_shift, map_map. apply list_eq. intros i.
    rewrite !list_lookup_fmap. destruct (decide (i < c)%nat) as [Hi|Hi].
    - rewrite lookup_seq_lt by done. simpl. f_equal. f_equal. symmetry.
      apply (pop_entry L nextToken); [done|lia].
    - by rewrite lookup_seq_ge by lia. }
  split; [|done]. unfold abs at 1. f_equal; [by rewrite Hq|].
  simpl. f_equal. apply live_ext; [done|]. eapply Forall_impl; [exact Ha|]. intros r Hr Hr0.
  destruct (Hr Hr0) as (i & Hi & ->). unfold readyAt. rewrite pop_frame; [done|].
  pose proof (inv_count _ _ HI). apply position_S_head; [apply HI|lia].
Qed.

Lemma completed_prefix_ext A A' q :
  Spec.readers A = Spec.readers A' -> Spec.completed_prefix A q = Spec.completed_prefix A' q.
Proof.
  intros Hr. induction q as [|f q IH]; [done|]. cbn [Spec.completed_prefix]. rewrite IH.
  assert (Spec.completed A f <-> Spec.completed A' f) as Hc by (unfold Spec.completed; by rewrite Hr).
  repeat case_decide; tauto || done.
Qed.

Lemma abs_eta L q :
  Spec.queue (abs L) = q ->
  abs L = Spec.mk q (Spec.readers (abs L)) (Spec.generation (abs L)) (Spec.lastValue (abs L)).
Proof. by intros <-. Qed.

Lemma retireLoop_spec fuel L nextToken v :
  ledger_inv L nextToken -> (count_ L <= fuel)%nat ->
  Forall (fun f => fr_readyValue f <= v) (Spec.completed_prefix (abs L) (Spec.queue (abs L))) ->
  ledger_inv (retireLoop fuel L v) nextToken
  /\ abs (retireLoop fuel L v) =
     Spec.mk (list.drop (length (Spec.completed_prefix (abs L) (Spec.queue (abs L))))
                (Spec.queue (abs L)))
       (Spec.readers (abs L)) (Spec.generation (abs L)) (Spec.lastValue (abs L)).
Proof.
  revert L. induction fuel as [|fuel IH]; intros L HI Hf HP.
  { assert (Spec.queue (abs L) = []) as Hq by (apply length_zero_iff_nil; rewrite length_queue; lia).
    rewrite Hq. split; [done|]. by apply abs_eta. }
  cbn [retireLoop]. destruct (Nat.eqb (count_ L) 0) eqn:E0.
  { assert (Spec.queue (abs L) = []) as Hq by (apply length_zero_iff_nil; rewrite length_queue; lia).
    rewrite Hq. split; [done|]. by apply abs_eta. }
  assert (frameAt L (head_ L) = entryAt L 0) as He.
  { unfold entryAt. rewrite position_0; [done|apply HI]. }
  pose proof (completed_count L nextToken 0 HI ltac:(lia)) as HC.
  assert (exists rest, Spec.queue (abs L) = lf_frame (entryAt L 0) :: rest) as [rest Hq].
  { pose proof (length_queue L) as Hlen. simpl. unfold view. destruct (count_ L); [done|].
    cbn. eauto. }
  rewrite He. fold (pop L). unfold truthy. rewrite Hq in HP |- *. cbn [Spec.completed_prefix] in HP |- *.
  case_decide as Hd.
  2:{ replace (lf_readers (entryAt L 0) =? 0) with false by (symmetry; apply Z.eqb_neq; tauto).
      split; [done|]. by apply abs_eta. }
  apply HC in Hd. apply Forall_cons in HP as [Hv HP]. rewrite Hd.
  replace (v <? _) with false by lia. simpl negb. cbn [orb].
  destruct (pop_abs L nextToken HI ltac:(lia) Hd) as [Ha Hq'].
  rewrite Hq in Hq'. injection Hq' as ->.
  assert (forall q, Spec.completed_prefix (abs (pop L)) q = Spec.completed_prefix (abs L) q) as Hext.
  { intros q. apply completed_prefix_ext. by rewrite Ha. }
  destruct (IH (pop L)) as [HI' Habs].
  - apply pop_inv; done || lia.
  - simpl. lia.
  - by rewrite Hext.
  - split; [done|]. rewrite Habs, Hext. f_equal. by rewrite Ha.
Qed.

Lemma completed_prefix_take A q :
  Spec.completed_prefix A q = take (length (Spec.completed_prefix A q)) q.
Proof.
  induction q as [|f q IH]; [done|]. cbn [Spec.completed_prefix]. case_decide; [|done].
  simpl. by f_equal.
Qed.

(** The last frame of the completed prefix carries its greatest value. *)
Lemma completed_prefix_bound L nextToken f :
  ledger_inv L nextToken ->
  last (Spec.completed_prefix (abs L) (Spec.queue (abs L))) = Some f ->
  Forall (fun e => fr_readyValue e <= fr_readyValue f)
    (Spec.completed_prefix (abs L) (Spec.queue (abs L))).
Proof.
  intros HI Hl. set (q := Spec.completed_prefix _ _) in *.
  assert (q = take (length q) (Spec.queue (abs L))) as Hq by apply completed_prefix_take.
  assert (forall i e, q !! i = Some e -> (i < count_ L)%nat /\ e = lf_frame (entryAt L i)) as Hlk.
  { intros i e He. rewrite Hq in He. apply lookup_take_Some in He as [He _].
    simpl in He. rewrite list_lookup_fmap in He.
    destruct (view L !! i) as [x|] eqn:Ev; [|done]. injection He as <-.
    by apply view_lookup_inv in Ev as [? ->]. }
  rewrite last_lookup in Hl. apply Hlk in Hl as [Hlt ->]. apply Forall_lookup.
  intros i e He. pose proof (lookup_lt_Some _ _ _ He). apply Hlk in He as [Hi ->].
  destruct (decide (i = pred (length q))) as [->|]; [lia|].
  pose proof (inv_order _ _ HI i (pred (length q)) ltac:(lia)). lia.
Qed.

Lemma retired_refines L nextToken value :
  ledger_inv L nextToken ->
  let '(res, L') := retired L value in
  ledger_inv L' nextToken /\ (res, abs L') = Spec.retired (abs L) value.
Proof.
  intros HI. unfold retired, Spec.retired. rewrite (retirement_refines L nextToken) by done.
  destruct value as [g v]. cbn [rt_value rt_generation]. unfold truthy. rewrite negb_involutive.
  assert (negb (v =? rt_value (Spec.retirement (abs L)))
    || negb (g =? rt_generation (Spec.retirement (abs L)))
    = negb (bool_decide (mkRetirement g v = Spec.retirement (abs L)))) as HB.
  { destruct (Spec.retirement (abs L)) as [g' v']. cbn.
    case_bool_decide as Hd; [injection Hd as -> ->; lia|].
    destruct (v =? v') eqn:Ev, (g =? g') eqn:Eg; try done.
    exfalso. apply Hd. f_equal; lia. }
  rewrite <- orb_assoc, HB. clear HB.
  destruct (_ || _) eqn:E; [done|]. bools.
  apply bool_decide_eq_true in H0. unfold Spec.retirement in H0.
  destruct (last _) as [f|] eqn:El; injection H0 as -> ->; [|done].
  destruct (retireLoop_spec (count_ L) L nextToken (fr_readyValue f) HI ltac:(lia)) as [H1 H2].
  - by apply (completed_prefix_bound L nextToken).
  - split; [done|]. by rewrite H2.
Qed.

Lemma resetEpoch_refines L nextToken :
  ledger_inv L nextToken ->
  ledger_inv (resetEpoch L) nextToken /\ abs (resetEpoch L) = Spec.resetEpoch (abs L).
Proof.
  intros HI. unfold resetEpoch, Spec.resetEpoch, empty.
  pose proof (length_queue L) as Hq.
  destruct (Nat.eqb (count_ L) 0) eqn:E.
  - assert (count_ L = 0%nat) as Hc by lia. rewrite Hc in Hq.
    apply length_zero_iff_nil in Hq as Hq'. rewrite Hq'. split.
    + pose proof HI as []. split; try done; simpl; intros; lia.
    + unfold abs in *. simpl in Hq'. f_equal. exact Hq'.
  - split; [done|]. destruct (Spec.queue (abs L)) eqn:Eq; [simpl in Hq; lia|done].
Qed.
End Steps.

(** * Runs *)

(** A call on the ledger; [OpForeign n] is another ledger of the process taking
    [n] tokens from the shared counter. *)
Inductive ledger_op :=
| OpAcquire (generation : Z) (frame : flFrame)
| OpRetain (source : Z)
| OpGet (t : Z)
| OpComplete (t : Z)
| OpDefer (t : Z)
| OpFinishDeferred (t : Z)
| OpRetirement
| OpRetired (value : Retirement)
| OpResetEpoch
| OpForeign (n : nat).

(** What the caller sees: the result, the output parameters. *)
Inductive outcome :=
| OutToken (result : flResult) (t : Z)
| OutFrame (result : flResult) (frame : flFrame) (generation : Z)
| OutResult (result : flResult)
| OutRetirement (value : Retirement)
| OutNothing.

Definition bump (nextToken : Z) (n : nat) : Z := Z.min UINT64_MAX (nextToken + Z.of_nat n).

Definition ledger_step (op : ledger_op) (s : ReadLedger * Z) : outcome * (ReadLedger * Z) :=
  let '(L, n) := s in
  match op with
  | OpAcquire g f => let '(r, t, L', n') := acquire L g f n 0 in (OutToken r t, (L', n'))
  | OpRetain src => let '(r, t, L', n') := retain L src n 0 in (OutToken r t, (L', n'))
  | OpGet t => let '(r, f, g) := get L t zeroFrame 0 in (OutFrame r f g, (L, n))
  | OpComplete t => let '(r, L') := complete L t in (OutResult r, (L', n))
  | OpDefer t => let '(r, L') := defer L t in (OutResult r, (L', n))
  | OpFinishDeferred t => let '(r, L') := finishDeferred L t in (OutResult r, (L', n))
  | OpRetirement => (OutRetirement (retirement L), (L, n))
  | OpRetired v => let '(r, L') := retired L v in (OutResult r, (L', n))
  | OpResetEpoch => (OutNothing, (resetEpoch L, n))
  | OpForeign k => (OutNothing, (L, bump n k))
  end.

Definition spec_step (op : ledger_op) (s : Spec.ledger * Z) : outcome * (Spec.ledger * Z) :=
  let '(A, n) := s in
  match op with
  | OpAcquire g f => let '(r, t, A', n') := Spec.acquire A g f n 0 in (OutToken r t, (A', n'))
  | OpRetain src => let '(r, t, A', n') := Spec.retain A src n 0 in (OutToken r t, (A', n'))
  | OpGet t => let '(r, f, g) := Spec.get A t zeroFrame 0 in (OutFrame r f g, (A, n))
  | OpComplete t => let '(r, A') := Spec.drop A t false in (OutResult r, (A', n))
  | OpDefer t => let '(r, A') := Spec.defer A t in (OutResult r, (A', n))
  | OpFinishDeferred t => let '(r, A') := Spec.drop A t true in (OutResult r, (A', n))
  | OpRetirement => (OutRetirement (Spec.retirement A), (A, n))
  | OpRetired v => let '(r, A') := Spec.retired A v in (OutResult r, (A', n))
  | OpResetEpoch => (OutNothing, (Spec.resetEpoch A, n))
  | OpForeign k => (OutNothing, (A, bump n k))
  end.

Fixpoint run {S} (step : ledger_op -> S -> outcome * S) (ops : list ledger_op) (s : S)
  : list outcome * S :=
  match ops with
  | [] => ([], s)
  | op :: rest =>
    let '(o, s') := step op s in
    let '(os, s'') := run step rest s' in
    (o :: os, s'')
  end.

Definition ledger_start : ReadLedger * Z := (emptyLedger, 1).
Definition spec_start : Spec.ledger * Z := (Spec.mk [] ∅ 0 0, 1).
Definition abs_state (s : ReadLedger * Z) : Spec.ledger * Z := (abs s.1, s.2).

(** The tokens a run handed out, in order. *)
Definition issued (os : list outcome) : list Z :=
  omap (fun o => match o with OutToken FL_OK t => Some t | _ => None end) os.

Section Runs.
Implicit Types (s : ReadLedger * Z).

Lemma ledger_start_inv : ledger_inv (fst ledger_start) (snd ledger_start).
Proof.
  split; try done; try (simpl; intros; lia).
  - unfold FL_MAX_POOL_SIZE. simpl. lia.
  - apply (bool_decide_unpack _). vm_compute. done.
  - apply Forall_replicate. done.
  - apply Forall_replicate. done.
  - intros k Hk. unfold FL_MAX_POOL_SIZE in Hk. cbn [fst ledger_start].
    assert (length (filter (pins k) (readers_ emptyLedger)) = 0%nat) as ->.
    { apply filter_pins_0. apply Forall_replicate. by intros [? _]. }
    unfold frameAt. simpl. do 16 (destruct k as [|k]; [done|]). lia.
Qed.

Lemma abs_start : abs_state ledger_start = spec_start.
Proof. done. Qed.

Lemma inv_next_mono L n n' :
  ledger_inv L n -> n <= n' <= UINT64_MAX -> ledger_inv L n'.
Proof.
  intros HI Hn. pose proof HI as []. split; try done; [lia|].
  eapply Forall_impl; [exact inv_token_lt0|]. intros r Hr Hr0. specialize (Hr Hr0). lia.
Qed.

(** One step: the same outcome, the abstract step, and the invariant. *)
Lemma step_refines op s :
  ledger_inv s.1 s.2 ->
  let '(o, s') := ledger_step op s in
  ledger_inv s'.1 s'.2 /\ spec_step op (abs_state s) = (o, abs_state s').
Proof.
  destruct s as [L n]. simpl fst. simpl snd. intros HI.
  destruct op; unfold ledger_step, spec_step, abs_state; simpl fst; simpl snd.
  - pose proof (acquire_refines L n generation frame 0 HI) as H.
    destruct (acquire _ _ _ _ _) as [[[? ?] ?] ?]. destruct H as [? <-]. done.
  - pose proof (retain_refines L n source 0 HI) as H.
    destruct (retain _ _ _ _) as [[[? ?] ?] ?]. destruct H as [? <-]. done.
  - rewrite (get_refines L n) by done. by destruct (Spec.get _ _ _ _) as [[? ?] ?].
  - pose proof (drop_refines L n t false HI) as H. unfold complete.
    destruct (match find L t false with Some _ => _ | None => _ end). by destruct H as [? <-].
  - pose proof (defer_refines L n t HI) as H. destruct (defer L t). by destruct H as [? <-].
  - pose proof (drop_refines L n t true HI) as H. unfold finishDeferred.
    destruct (match find L t true with Some _ => _ | None => _ end). by destruct H as [? <-].
  - by rewrite (retirement_refines L n).
  - pose proof (retired_refines L n value HI) as H. destruct (retired L value).
    by destruct H as [? <-].
  - destruct (resetEpoch_refines L n HI) as [? ->]. done.
  - split; [|done]. unfold bump. simpl. pose proof (inv_next _ _ HI).
    apply (inv_next_mono L n); [done|lia].
Qed.

Lemma run_refines ops s :
  ledger_inv s.1 s.2 ->
  let '(os, s') := run ledger_step ops s in
  ledger_inv s'.1 s'.2 /\ run spec_step ops (abs_state s) = (os, abs_state s').
Proof.
  revert s. induction ops as [|op ops IH]; intros s HI; [done|]. cbn [run].
  pose proof (step_refines op s HI) as H. destruct (ledger_step op s) as [o s'].
  destruct H as [HI' ->]. specialize (IH s' HI'). destruct (run ledger_step ops s') as [os s''].
  by destruct IH as [? ->].
Qed.

Lemma run_inv ops : let s := (run ledger_step ops ledger_start).2 in ledger_inv s.1 s.2.
Proof.
  pose proof (run_refines ops ledger_start ledger_start_inv) as H.
  destruct (run ledger_step ops ledger_start). apply H.
Qed.

(** C8: Whatever calls are made, a read ledger that started empty behaves as
    its specification - a FIFO of frames with a map from outstanding tokens
    to the ready value each pins: every call returns the result and the
    outputs the specification returns, errors included, and the ring, the
    256-entry table, the reader counts and the scans compute exactly the
    specification's state. *)
Theorem ledger_refines_fifo ops :
  let '(os, s) := run ledger_step ops ledger_start in
  run spec_step ops spec_start = (os, abs_state s) /\ ledger_inv s.1 s.2.
Proof.
  pose proof (run_refines ops ledger_start ledger_start_inv) as H.
  destruct (run ledger_step ops ledger_start). rewrite <- abs_start. by destruct H.
Qed.

(** *** Retirement never reaches a frame that is still read *)

Lemma completed_prefix_Forall A q : Forall (Spec.completed A) (Spec.completed_prefix A q).
Proof.
  induction q as [|f q IH]; simpl; [constructor|]. case_decide; by repeat constructor.
Qed.

Lemma find_drop_completed A q v t b :
  Spec.readers A !! t = Some (v, b) ->
  List.find (fun f => fr_readyValue f =? v) (list.drop (length (Spec.completed_prefix A q)) q)
  = List.find (fun f => fr_readyValue f =? v) q.
Proof.
  intros Hl. induction q as [|f q IH]; [done|]. cbn [Spec.completed_prefix].
  case_decide as Hd; [|done]. simpl. rewrite IH.
  apply (map_Forall_lookup_1 _ _ _ _ Hd) in Hl. simpl in Hl.
  by replace (fr_readyValue f =? v) with false by lia.
Qed.

Lemma spec_retired_get A value A' t out g :
  Spec.retired A value = (FL_OK, A') -> Spec.get A' t out g = Spec.get A t out g.
Proof.
  unfold Spec.retired. case_match; [done|]. intros [= <-]. unfold Spec.get. simpl.
  destruct (Spec.readers A !! t) as [[v [|]]|] eqn:E; [done| |done].
  by rewrite (find_drop_completed A (Spec.queue A) v t false).
Qed.

Lemma retirement_below L n j r :
  ledger_inv L n -> readers_ L !! j = Some r -> rd_token r <> 0 ->
  retirement L = mkRetirement 0 0 \/ rt_value (retirement L) < readyAt L (rd_frame r).
Proof.
  intros HI Hj Hr0. rewrite (retirement_refines L n) by done. unfold Spec.retirement.
  destruct (last _) as [f|] eqn:El; [right|by left]. simpl rt_value.
  pose proof (inv_active _ _ HI) as Ha. rewrite Forall_lookup in Ha.
  destruct (Ha j r Hj Hr0) as (i & Hi & Hk). rewrite Hk. unfold readyAt. fold (entryAt L i).
  set (q := Spec.completed_prefix _ _) in *.
  assert (forall k e, q !! k = Some e -> (k < count_ L)%nat /\ e = lf_frame (entryAt L k)
    /\ k <> i) as Hlk.
  { intros k e He. pose proof He as He'. unfold q in He. rewrite completed_prefix_take in He.
    apply lookup_take_Some in He as [He _]. simpl in He. rewrite list_lookup_fmap in He.
    destruct (view L !! k) as [x|] eqn:Ev; [|done]. injection He as <-.
    apply view_lookup_inv in Ev as [? ->]. split_and!; [done|done|]. intros ->.
    pose proof (completed_prefix_Forall (abs L) (Spec.queue (abs L))) as HF.
    rewrite Forall_lookup in HF. apply HF in He'.
    assert (Spec.readers (abs L) !! rd_token r = Some (readyAt L (rd_frame r), rd_pending r)) as Hl.
    { apply (live_lookup _ _ _ _ _ HI). eauto 10. }
    apply (map_Forall_lookup_1 _ _ _ _ He') in Hl. simpl in Hl. by rewrite Hk in Hl. }
  rewrite last_lookup in El. pose proof (lookup_lt_Some _ _ _ El) as Hlen.
  assert (pred (length q) < i)%nat.
  { destruct (decide (i < length q)%nat) as [Hlt|]; [|lia].
    apply lookup_lt_is_Some in Hlt as [e He]. by destruct (Hlk _ _ He) as (_ & _ & ?). }
  apply Hlk in El as (? & -> & _). apply (inv_order _ _ HI). lia.
Qed.

(** C9: After any calls, [retirement()] stays strictly below the ready value
    of every frame an outstanding token reads (or reports nothing), and
    committing it with [retired()] leaves what [get()] returns for every
    token unchanged: no frame is retired while one of its readers is live or
    deferred to a fence. *)
Theorem ledger_retires_only_completed ops :
  let L := (run ledger_step ops ledger_start).2.1 in
  (forall j r, readers_ L !! j = Some r -> rd_token r <> 0 ->
     retirement L = mkRetirement 0 0 \/ rt_value (retirement L) < readyAt L (rd_frame r))
  /\ (forall value t out g, get (retired L value).2 t out g = get L t out g).
Proof.
  pose proof (run_inv ops) as HI. destruct (run ledger_step ops ledger_start).2 as [L n].
  simpl in *. split; [intros j r; by apply (retirement_below L n)|].
  intros value t out g. pose proof (retired_refines L n value HI) as HR.
  destruct (retired L value) as [res L'] eqn:E. destruct HR as [HI' HE]. simpl.
  rewrite (get_refines L' n), (get_refines L n) by done.
  destruct (decide (res = FL_OK)) as [->|Hne].
  - by apply (spec_retired_get _ value).
  - unfold retired in E. case_match; injection E as <- <-; done.
Qed.

(** *** Tokens *)

Lemma spec_step_issued op A n o A' n' :
  1 <= n <= UINT64_MAX -> spec_step op (A, n) = (o, (A', n')) ->
  n <= n' <= UINT64_MAX /\
  (issued [o] = [] \/ exists t, issued [o] = [t] /\ n <= t < n').
Proof.
  intros Hn. destruct op; unfold spec_step, Spec.acquire, Spec.retain, Spec.issue; intros H.
  - repeat case_match; simplify_eq; simpl; split; try ulia; try (by left). all: right; eexists; (split; [done|]; lia).
  - repeat case_match; simplify_eq; simpl; split; try ulia; try (by left). all: right; eexists; (split; [done|]; lia).
  - destruct (Spec.get _ _ _ _) as [[? ?] ?]. simplify_eq. split; [lia|by left].
  - destruct (Spec.drop _ _ _). simplify_eq. split; [lia|by left].
  - destruct (Spec.defer _ _). simplify_eq. split; [lia|by left].
  - destruct (Spec.drop _ _ _). simplify_eq. split; [lia|by left].
  - simplify_eq. split; [lia|by left].
  - destruct (Spec.retired _ _). simplify_eq. split; [lia|by left].
  - simplify_eq. split; [lia|by left].
  - simplify_eq. split; [unfold bump; lia|by left].
Qed.

Lemma issued_cons o os : issued (o :: os) = issued [o] ++ issued os.
Proof. unfold issued. rewrite !omap_cons. by destruct o as [[]| | | |]. Qed.

Lemma spec_run_issued ops A n :
  1 <= n <= UINT64_MAX ->
  let '(os, _) := run spec_step ops (A, n) in
  StronglySorted Z.lt (issued os) /\ Forall (fun t => n <= t < UINT64_MAX) (issued os).
Proof.
  revert A n. induction ops as [|op ops IH]; intros A n Hn; [simpl; split; constructor|].
  cbn [run]. destruct (spec_step op (A, n)) as [o [A' n']] eqn:E.
  apply spec_step_issued in E as [Hn' Ho]; [|done]. specialize (IH A' n' ltac:(lia)).
  destruct (run spec_step ops (A', n')) as [os s]. destruct IH as [IH1 IH2].
  rewrite issued_cons. destruct Ho as [->|(t & -> & Ht)]; simpl.
  - split; [done|]. eapply Forall_impl; [exact IH2|]. simpl. lia.
  - split; constructor; try done; try lia; (eapply Forall_impl; [exact IH2|]); simpl; lia.
Qed.

(** The tokens a ledger hands out over any run strictly increase and are
    never zero, whatever other ledgers take from the shared counter meanwhile:
    a token that was completed is never handed out again, so a stale one can
    never name a newer reader. *)
Theorem ledger_tokens_never_reissued ops :
  let os := (run ledger_step ops ledger_start).1 in
  StronglySorted Z.lt (issued os) /\ Forall (fun t => 1 <= t < UINT64_MAX) (issued os).
Proof.
  pose proof (run_refines ops ledger_start ledger_start_inv) as H.
  pose proof (spec_run_issued ops (Spec.mk [] ∅ 0 0) 1 ltac:(ulia)) as HT.
  destruct (run ledger_step ops ledger_start) as [os s]. destruct H as [_ H].
  rewrite abs_start in H. unfold spec_start in H. rewrite H in HT. done.
Qed.

(** *** Draining *)

Lemma completed_prefix_all A q : Spec.readers A = ∅ -> Spec.completed_prefix A q = q.
Proof.
  intros Hr. induction q as [|f q IH]; [done|]. cbn [Spec.completed_prefix]. rewrite IH.
  rewrite decide_True; [done|]. unfold Spec.completed. rewrite Hr. apply map_Forall_empty.
Qed.

Lemma live_nil L : Forall (fun r => rd_token r = 0) (readers_ L) -> live L = [].
Proof.
  unfold live. induction 1 as [|r rs Hr _ IH]; [done|]. by rewrite omap_cons, live_entry_free.
Qed.

(** Once every token of a non-empty ledger is completed, whatever the order
    of the completions was, committing the reported retirement is accepted and
    empties the ledger: no frame is kept back for good. *)
Theorem ledger_drains ops :
  let L := (run ledger_step ops ledger_start).2.1 in
  Forall (fun r => rd_token r = 0) (readers_ L) -> count_ L <> 0%nat ->
  (retired L (retirement L)).1 = FL_OK /\ empty (retired L (retirement L)).2 = true.
Proof.
  pose proof (run_inv ops) as HI. destruct (run ledger_step ops ledger_start).2 as [L n].
  simpl in *. intros Hall Hc. pose proof (retired_refines L n (retirement L) HI) as HR.
  destruct (retired L (retirement L)) as [res L']. destruct HR as [HI' HE]. simpl.
  assert (Spec.readers (abs L) = ∅) as Hr by (simpl; by rewrite live_nil).
  pose proof (length_queue L) as Hlen.
  unfold Spec.retired in HE. rewrite (retirement_refines L n) in HE by done.
  rewrite bool_decide_eq_true_2 in HE by done. rewrite orb_false_r in HE.
  rewrite completed_prefix_all, drop_all in HE by done.
  assert (rt_value (Spec.retirement (abs L)) <> 0) as Hv.
  { unfold Spec.retirement. rewrite completed_prefix_all by done.
    destruct (last (Spec.queue (abs L))) as [f|] eqn:El.
    - simpl. rewrite last_lookup in El. simpl in El. rewrite list_lookup_fmap in El.
      destruct (view L !! _) as [e|] eqn:Ev; [|done]. injection El as <-.
      apply view_lookup_inv in Ev as [Hi ->]. by destruct (inv_ready _ _ HI _ Hi).
    - apply last_None in El. rewrite El in Hlen. simpl in Hlen. lia. }
  replace (rt_value _ =? 0) with false in HE by lia.
  pose proof (f_equal snd HE) as Habs. simpl in Habs. injection HE as -> _ _ _ _. split; [done|]. unfold empty.
  pose proof (length_queue L') as Hl'. rewrite Habs in Hl'. simpl in Hl'. by rewrite <- Hl'.
Qed.
End Runs.

(** * Witness

    Two frames, three readers; the newer frame completes first and a deferred
    reader holds the older one until its fence signals. *)
Definition ledger_example : list ledger_op :=
  [ OpAcquire 7 (mkFrame 3 100 0 0 5);
    OpAcquire 7 (mkFrame 4 104 0 1 6);
    OpRetain 1; OpComplete 2; OpRetirement; OpComplete 1; OpDefer 3;
    OpRetirement; OpFinishDeferred 3; OpRetirement ].

Lemma ledger_drains_witness :
  let L := (run ledger_step ledger_example ledger_start).2.1 in
  (Forall (fun r => rd_token r = 0) (readers_ L) /\ count_ L <> 0%nat)
  /\ (retired L (retirement L)).1 = FL_OK /\ empty (retired L (retirement L)).2 = true.
Proof.
  assert (Forall (fun r => rd_token r = 0)
            (readers_ (run ledger_step ledger_example ledger_start).2.1)) as H1.
  { apply (bool_decide_unpack _). vm_compute. exact I. }
  assert (count_ (run ledger_step ledger_example ledger_start).2.1 <> 0%nat) as H2.
  { vm_compute. discriminate. }
  split; [split; [exact H1|exact H2]|].
  exact (ledger_drains ledger_example H1 H2).
Defined.
