(* ===== verification/BufferRefs.v ===== *)
(** * Producer-local buffer references (src/fl_buffer_refs.hpp)

    [fl::BufferReferences] keeps 256 (token, slot) entries with an atomic count
    per slot and a total.  [busy] and [empty] read only the atomics; the file
    proves that they answer exactly what the entries say, for every sequence of
    calls, and that the whole class is the finite map from outstanding tokens to
    slots.

    [retain] and [release] run under the mutex, so each is one step.  [next_] is
    shared by the process and passed in and out. *)
From stdpp Require Import gmap.
From S2P Require Import Prelude Api.

Definition kEntries : nat := 256.

Record Entry := mkEntry { en_token : Z; en_slot : Z }.

Record BufferReferences := mkRefs {
  entries_ : list Entry;    (* 256 *)
  counts_ : list Z;         (* FL_MAX_POOL_SIZE atomics *)
  total_ : Z;
}.

Definition zeroEntry : Entry := mkEntry 0 0.

Definition emptyRefs : BufferReferences :=
  mkRefs (replicate kEntries zeroEntry) (replicate FL_MAX_POOL_SIZE 0) 0.

Section Methods.
Implicit Types (R : BufferReferences).

(** [counts_[slot].load()] *)
Definition countAt R (slot : Z) : Z := default 0 (counts_ R !! Z.to_nat slot).

(** [counts_[slot].fetch_add/fetch_sub], on a [uint32_t]. *)
Definition addCount R (slot d : Z) : list Z :=
  <[Z.to_nat slot := wrap32 (countAt R slot + d)]> (counts_ R).

Definition busy R (slot : Z) : bool :=
  (slot <? Z.of_nat FL_MAX_POOL_SIZE) && truthy (countAt R slot).

Definition empty R : bool := total_ R =? 0.

Definition retain R (slot next out : Z) : flResult * Z * BufferReferences * Z :=
  return_if Z.of_nat FL_MAX_POOL_SIZE <=? slot with (FL_INVALID, out, R, next) ;;
  match find_index (fun e => en_token e =? 0) (entries_ R) with
  | None => (FL_BUSY, out, R, next)
  | Some i =>
    let token := next in
    return_if token =? UINT64_MAX with (FL_INTERNAL, out, R, next) ;;
    (FL_OK, token,
     mkRefs (<[i := mkEntry token slot]> (entries_ R)) (addCount R slot 1)
       (wrap32 (total_ R + 1)),
     token + 1)
  end.

Definition release R (token : Z) : flResult * BufferReferences :=
  return_if token =? 0 with (FL_INVALID, R) ;;
  match find_index (fun e => en_token e =? token) (entries_ R) with
  | Some i =>
    let slot := en_slot (default zeroEntry (entries_ R !! i)) in
    (FL_OK, mkRefs (<[i := zeroEntry]> (entries_ R)) (addCount R slot (-1))
              (wrap32 (total_ R - 1)))
  | None => (FL_INVALID, R)
  end.
End Methods.

(** ** The specification: outstanding tokens and their slots *)

Notation refs := (gmap Z Z).

Definition spec_busy (m : refs) (slot : Z) : bool :=
  negb (bool_decide (map_Forall (fun _ s => s <> slot) m)).

Definition spec_empty (m : refs) : bool := bool_decide (m = ∅).

Definition spec_retain (m : refs) (slot next out : Z) : flResult * Z * refs * Z :=
  if 16 <=? slot then (FL_INVALID, out, m, next)
  else if Nat.eqb (size m) kEntries then (FL_BUSY, out, m, next)
  else if next =? UINT64_MAX then (FL_INTERNAL, out, m, next)
  else (FL_OK, next, <[next := slot]> m, next + 1).

Definition spec_release (m : refs) (token : Z) : flResult * refs :=
  match m !! token with Some _ => (FL_OK, delete token m) | None => (FL_INVALID, m) end.

(** ** Invariant and refinement *)

Section Invariant.
Implicit Types (R : BufferReferences) (next : Z).

Definition entry_of (e : Entry) : option (Z * Z) :=
  if en_token e =? 0 then None else Some (en_token e, en_slot e).

Definition live R : list (Z * Z) := omap entry_of (entries_ R).
Definition abs R : refs := list_to_map (live R).

Definition on_slot (s : Z) (x : Z * Z) : Prop := x.2 = s.
#[local] Instance on_slot_dec s x : Decision (on_slot s x).
Proof. unfold on_slot. apply _. Defined.

Definition slot_count (s : Z) (l : list (Z * Z)) : Z := Z.of_nat (length (filter (on_slot s) l)).

Record refs_inv R next : Prop := {
  inv_entries : length (entries_ R) = kEntries;
  inv_counts : length (counts_ R) = FL_MAX_POOL_SIZE;
  inv_next : 1 <= next <= UINT64_MAX;
  inv_nodup : NoDup (live R).*1;
  inv_fresh : Forall (fun x => 0 < x.1 < next /\ 0 <= x.2 < 16) (live R);
  inv_count : forall s, 0 <= s < 16 -> countAt R s = slot_count s (live R);
  inv_total : total_ R = Z.of_nat (length (live R));
}.

Lemma slot_count_cons s x l :
  slot_count s (x :: l) = (if decide (x.2 = s) then 1 else 0) + slot_count s l.
Proof.
  unfold slot_count. rewrite filter_cons. unfold on_slot at 1.
  repeat case_decide; simpl; done || lia.
Qed.

Lemma slot_count_bound s l : 0 <= slot_count s l <= Z.of_nat (length l).
Proof. unfold slot_count. pose proof (length_filter (on_slot s) l). lia. Qed.

Lemma slot_count_perm s l l' : l ≡ₚ l' -> slot_count s l = slot_count s l'.
Proof. intros Hp. unfold slot_count. by rewrite Hp. Qed.

Lemma countAt_add R s d s' :
  length (counts_ R) = FL_MAX_POOL_SIZE -> 0 <= s < 16 -> 0 <= s' < 16 ->
  default 0 (addCount R s d !! Z.to_nat s') =
  if decide (s = s') then wrap32 (countAt R s + d) else countAt R s'.
Proof.
  intros Hl Hs Hs'. unfold addCount, FL_MAX_POOL_SIZE in *. case_decide as Hd.
  - subst. by rewrite list_lookup_insert_eq by lia.
  - by rewrite list_lookup_insert_ne by lia.
Qed.

Lemma live_length R next : refs_inv R next -> (length (live R) <= kEntries)%nat.
Proof. intros HI. rewrite <- (inv_entries _ _ HI). apply length_omap_le. Qed.

Lemma abs_size R next : refs_inv R next -> size (abs R) = length (live R).
Proof. intros HI. apply map_size_list_to_map, HI. Qed.

Lemma abs_lookup R next t s :
  refs_inv R next -> abs R !! t = Some s <-> (t, s) ∈ live R.
Proof. intros HI. symmetry. apply elem_of_list_to_map, HI. Qed.

Lemma busy_exact R next slot :
  refs_inv R next -> 0 <= slot -> busy R slot = spec_busy (abs R) slot.
Proof.
  intros HI Hs. unfold busy, spec_busy. change (Z.of_nat FL_MAX_POOL_SIZE) with 16.
  assert (map_Forall (fun _ s => s <> slot) (abs R) <-> slot_count slot (live R) = 0) as HE.
  { unfold slot_count. rewrite map_Forall_lookup. split.
    - intros HF. enough (filter (on_slot slot) (live R) = []) as -> by done.
      apply elem_of_nil_inv. intros [t s]. rewrite list_elem_of_filter. intros [Ho Hin].
      apply (HF t s); [|done]. by apply (abs_lookup _ _ _ _ HI).
    - intros H0 t s Hl ->. apply (abs_lookup _ _ _ _ HI) in Hl.
      assert ((t, slot) ∈ filter (on_slot slot) (live R)) as Hf by (by apply list_elem_of_filter).
      destruct (filter _ _); [by apply elem_of_nil in Hf|simpl in H0; lia]. }
  destruct (slot <? 16) eqn:E; simpl.
  - rewrite (inv_count _ _ HI) by lia. case_bool_decide as Hb; unfold truthy; rewrite HE in Hb; lia.
  - rewrite bool_decide_eq_true_2; [done|]. apply map_Forall_lookup. intros t s Hl ->.
    apply (abs_lookup _ _ _ _ HI) in Hl. pose proof (inv_fresh _ _ HI) as HF.
    rewrite Forall_forall in HF. specialize (HF _ Hl). simpl in HF. lia.
Qed.

Lemma empty_exact R next : refs_inv R next -> empty R = spec_empty (abs R).
Proof.
  intros HI. unfold empty, spec_empty. rewrite (inv_total _ _ HI), <- (abs_size R next) by done.
  case_bool_decide as Hb; [by rewrite Hb, map_size_empty|].
  apply map_size_non_empty_iff in Hb. lia.
Qed.
End Invariant.

Section Steps.
Implicit Types (R : BufferReferences) (next : Z).

Lemma entry_of_used e : en_token e <> 0 -> entry_of e = Some (en_token e, en_slot e).
Proof. intros. unfold entry_of. by replace (en_token e =? 0) with false by lia. Qed.

Lemma entry_of_free e : en_token e = 0 -> entry_of e = None.
Proof. intros He. unfold entry_of. by rewrite He. Qed.

(** Replacing one table entry, with the counters moved accordingly. *)
Lemma refs_retain_refines R next slot out :
  refs_inv R next -> 0 <= slot ->
  let '(res, out', R', next') := retain R slot next out in
  refs_inv R' next' /\ (res, out', abs R', next') = spec_retain (abs R) slot next out.
Proof.
  intros HI Hs. unfold retain, spec_retain. change (Z.of_nat FL_MAX_POOL_SIZE) with 16.
  destruct (16 <=? slot) eqn:E16; [done|]. rewrite (abs_size R next) by done.
  destruct (find_index _ _) as [i|] eqn:Ef.
  2:{ assert (length (live R) = kEntries) as ->; [|done].
      rewrite <- (inv_entries _ _ HI). unfold live.
      pose proof (proj1 (find_index_None _ _) Ef) as HF. clear Ef HI.
      induction (entries_ R) as [|e l IH]; [done|]. rewrite omap_cons, entry_of_used.
      - simpl. f_equal. apply IH. intros j x Hj. by apply (HF (S j)).
      - specialize (HF 0%nat e eq_refl). lia. }
  apply find_index_Some in Ef as (e & Hi & He & _). apply Z.eqb_eq in He.
  destruct (insert_split _ _ _ Hi) as (rest & Hp & Hins).
  assert (live R ≡ₚ omap entry_of rest) as Hlive.
  { unfold live. by rewrite Hp, omap_cons, entry_of_free. }
  assert (length (live R) < kEntries)%nat as Hlt.
  { rewrite Hlive. pose proof (inv_entries _ _ HI) as Hl. rewrite Hp in Hl. simpl in Hl.
    pose proof (length_omap_le entry_of rest). lia. }
  replace (Nat.eqb (length (live R)) kEntries) with false by lia.
  destruct (next =? UINT64_MAX) eqn:Em; [done|]. simpl.
  pose proof HI as [? Hc Hn Hnd Hfr Hcnt Htot].
  set (R' := mkRefs _ _ _).
  assert (live R' ≡ₚ (next, slot) :: live R) as Hlive'.
  { unfold live at 1. simpl. rewrite Hins, omap_cons, entry_of_used by (simpl; lia).
    by rewrite Hlive. }
  assert (NoDup (live R').*1) as Hnd'.
  { rewrite Hlive'. simpl. constructor; [|done].
    intros (x & Hx & Hin)%list_elem_of_fmap. rewrite Forall_forall in Hfr.
    specialize (Hfr x Hin). lia. }
  unfold kEntries in *. split.
  - split; try done; try (simpl; rewrite ?length_insert; done || lia).
    + simpl. unfold addCount. by rewrite length_insert.
    + rewrite Hlive'. constructor; [simpl; lia|]. eapply Forall_impl; [exact Hfr|]. simpl. lia.
    + intros s Hs'. unfold countAt. simpl. rewrite countAt_add by (done || lia).
      rewrite (slot_count_perm _ _ _ Hlive'), slot_count_cons. simpl.
      rewrite !Hcnt by lia. pose proof (slot_count_bound slot (live R)).
      repeat case_decide; subst; try lia. rewrite wrap32_small by ulia. lia.
    + simpl. rewrite Htot, (Permutation_length Hlive'). simpl. rewrite wrap32_small by ulia. lia.
  - unfold abs at 1. by rewrite (list_to_map_proper _ _ Hnd' Hlive').
Qed.

Lemma refs_release_refines R next token :
  refs_inv R next ->
  let '(res, R') := release R token in
  refs_inv R' next /\ (res, abs R') = spec_release (abs R) token.
Proof.
  intros HI. unfold release, spec_release.
  destruct (token =? 0) eqn:E0.
  { split; [done|]. destruct (abs R !! token) as [s|] eqn:El; [|done].
    apply (abs_lookup _ _ _ _ HI) in El. pose proof (inv_fresh _ _ HI) as HF.
    rewrite Forall_forall in HF. specialize (HF _ El). simpl in HF. lia. }
  destruct (find_index _ _) as [i|] eqn:Ef.
  2:{ split; [done|]. destruct (abs R !! token) as [s|] eqn:El; [|done].
      apply (abs_lookup _ _ _ _ HI) in El. apply list_elem_of_omap in El as (e & Hin & He).
      apply list_elem_of_lookup in Hin as [j Hj].
      pose proof (proj1 (find_index_None _ _) Ef j e Hj). unfold entry_of in He.
      case_match; [done|]. simplify_eq. lia. }
  apply find_index_Some in Ef as (e & Hi & He & _). apply Z.eqb_eq in He.
  rewrite Hi. simpl default.
  destruct (insert_split _ _ _ Hi) as (rest & Hp & Hins).
  assert (live R ≡ₚ (token, en_slot e) :: omap entry_of rest) as Hlive.
  { unfold live. rewrite Hp, omap_cons, entry_of_used by lia. by rewrite He. }
  pose proof HI as [? Hc Hn Hnd Hfr Hcnt Htot].
  set (R' := mkRefs _ _ _).
  assert (live R' ≡ₚ omap entry_of rest) as Hlive'.
  { unfold live. simpl. by rewrite Hins, omap_cons, entry_of_free. }
  rewrite <- Hlive' in Hlive.
  pose proof Hnd as Hnd'. rewrite Hlive in Hnd'. simpl in Hnd'. apply NoDup_cons in Hnd' as [Hni Hnd'].
  pose proof (live_length R next HI) as Hlen.
  pose proof Hfr as Hfr'. rewrite Hlive in Hfr'. apply Forall_cons in Hfr' as [Hs Hfr']. simpl in Hs.
  rewrite (Permutation_length Hlive) in Htot, Hlen. simpl in Htot, Hlen. unfold kEntries in *.
  assert ((token, en_slot e) ∈ live R) as Hin by (rewrite Hlive; left).
  rewrite (proj2 (abs_lookup _ _ _ _ HI) Hin).
  split.
  - split; try done; try (simpl; rewrite ?length_insert; done || lia).
    + simpl. unfold addCount. by rewrite length_insert.
    + intros s Hs'. unfold countAt. simpl. rewrite countAt_add by (done || lia).
      pose proof (slot_count_bound s (live R')).
      rewrite !Hcnt by lia. rewrite !(slot_count_perm _ _ _ Hlive), !slot_count_cons. simpl.
      repeat case_decide; subst; try lia. rewrite wrap32_small by ulia. lia.
    + simpl. rewrite Htot. rewrite wrap32_small by ulia. lia.
  - f_equal. unfold abs. rewrite (list_to_map_proper _ _ Hnd Hlive). simpl.
    rewrite delete_insert_id; [done|]. by apply not_elem_of_list_to_map.
Qed.
End Steps.

(** ** Runs *)

Inductive refs_op :=
| OpRetain (slot : N)
| OpRelease (token : Z)
| OpBusy (slot : N)
| OpEmpty
| OpForeign (n : nat).

Inductive refs_outcome :=
| OutToken (result : flResult) (token : Z)
| OutResult (result : flResult)
| OutBool (b : bool)
| OutNothing.

Definition refs_step (op : refs_op) (st : BufferReferences * Z)
  : refs_outcome * (BufferReferences * Z) :=
  let '(R, n) := st in
  match op with
  | OpRetain s => let '(r, t, R', n') := retain R (Z.of_N s) n 0 in (OutToken r t, (R', n'))
  | OpRelease t => let '(r, R') := release R t in (OutResult r, (R', n))
  | OpBusy s => (OutBool (busy R (Z.of_N s)), st)
  | OpEmpty => (OutBool (empty R), st)
  | OpForeign k => (OutNothing, (R, Z.min UINT64_MAX (n + Z.of_nat k)))
  end.

Definition refs_spec_step (op : refs_op) (st : refs * Z) : refs_outcome * (refs * Z) :=
  let '(m, n) := st in
  match op with
  | OpRetain s => let '(r, t, m', n') := spec_retain m (Z.of_N s) n 0 in (OutToken r t, (m', n'))
  | OpRelease t => let '(r, m') := spec_release m t in (OutResult r, (m', n))
  | OpBusy s => (OutBool (spec_busy m (Z.of_N s)), st)
  | OpEmpty => (OutBool (spec_empty m), st)
  | OpForeign k => (OutNothing, (m, Z.min UINT64_MAX (n + Z.of_nat k)))
  end.

Fixpoint refs_run {S} (step : refs_op -> S -> refs_outcome * S) (ops : list refs_op) (st : S)
  : list refs_outcome * S :=
  match ops with
  | [] => ([], st)
  | op :: rest =>
    let '(o, st') := step op st in
    let '(os, st'') := refs_run step rest st' in
    (o :: os, st'')
  end.

Lemma emptyRefs_inv : refs_inv emptyRefs 1.
Proof.
  split; try done; try (simpl; constructor).
  intros s Hs. unfold countAt. simpl.
  assert (Z.to_nat s < 16)%nat as Hlt by lia. revert Hlt. generalize (Z.to_nat s). intros k Hk.
  do 16 (destruct k as [|k]; [done|]). lia.
Qed.

Lemma refs_step_refines op R n :
  refs_inv R n ->
  let '(o, (R', n')) := refs_step op (R, n) in
  refs_inv R' n' /\ refs_spec_step op (abs R, n) = (o, (abs R', n')).
Proof.
  intros HI. destruct op as [s|t|s| |k]; simpl.
  - pose proof (refs_retain_refines R n (Z.of_N s) 0 HI ltac:(lia)) as H.
    destruct (retain _ _ _ _) as [[[? ?] ?] ?]. by destruct H as [? <-].
  - pose proof (refs_release_refines R n t HI) as H. destruct (release R t). by destruct H as [? <-].
  - by rewrite (busy_exact R n) by (done || lia).
  - by rewrite (empty_exact R n).
  - split; [|done]. pose proof HI as []. split; try done; [lia|].
    eapply Forall_impl; [exact inv_fresh0|]. simpl. lia.
Qed.

(** C35: For every sequence of retains, releases and queries, whatever other
    producers take from the shared token counter, the table, the per-slot
    atomics and the total together behave as the finite map from outstanding
    tokens to slots: same results, same tokens, and [busy] / [empty] - which
    read only the atomics - answer whether that map holds the slot / anything. *)
Theorem buffer_refs_exact ops :
  let '(os, (R, n)) := refs_run refs_step ops (emptyRefs, 1) in
  refs_run refs_spec_step ops (∅, 1) = (os, (abs R, n)) /\ refs_inv R n.
Proof.
  assert (forall ops R n, refs_inv R n ->
    let '(os, (R', n')) := refs_run refs_step ops (R, n) in
    refs_run refs_spec_step ops (abs R, n) = (os, (abs R', n')) /\ refs_inv R' n') as HG.
  { clear ops. induction ops as [|op ops IH]; intros R n HI; [done|]. cbn [refs_run].
    pose proof (refs_step_refines op R n HI) as H. destruct (refs_step op (R, n)) as [o [R' n']].
    destruct H as [HI' ->]. specialize (IH R' n' HI').
    destruct (refs_run refs_step ops (R', n')) as [os [R'' n'']]. by destruct IH as [-> ?]. }
  apply (HG ops emptyRefs 1), emptyRefs_inv.
Qed.
