(* ===== verification/Kernel.v ===== *)
(** * The operating system, as the backends see it

    The code under src/ makes system calls; what they answer is not in the
    source.  [Kernel] is the interface: one operation per call the code makes,
    each a function of the time of the call, so that a theorem proved for every
    [Kernel] covers every behaviour of descriptors, fences, peers and buffer
    managers.  Calls that change the outside world (closing a descriptor, sending
    a datagram, destroying a buffer) are recorded in the world's log, and so is
    every resource a call brings into being - descriptors, buffer objects, devices
    and, for the other backends, handles, mappings and AHardwareBuffers; that log is what the
    ownership theorems speak about.

    [M] is the state monad over that world. *)
From S2P Require Import Prelude.

(** [struct stat], as far as the code reads it. *)
Record Stat := mkStat {
  st_size : Z;
  st_dev : Z;
  st_ino : Z;
  st_chr : bool;      (* S_ISCHR(st_mode) *)
  st_major : Z;       (* major(st_rdev) *)
  st_minor : Z;
}.

(** A control message returned by [recvmsg]. *)
Record Cmsg := mkCmsg {
  cm_level : Z;
  cm_type : Z;
  cm_len : Z;
  cm_data : list Z;   (* the ints at CMSG_DATA *)
}.

(** What [recvmsg] reports. *)
Record Received := mkReceived {
  rv_n : Z;
  rv_buf : list Z;    (* the bytes in the buffer *)
  rv_cmsgs : list Cmsg;
  rv_flags : Z;
}.

(** Constants of the platform headers. *)
Definition POLLIN : Z := 1.
Definition POLLERR : Z := 8.
Definition POLLHUP : Z := 16.
Definition POLLNVAL : Z := 32.
Definition EINTR : Z := 4.
Definition SOL_SOCKET : Z := 1.
Definition SCM_RIGHTS : Z := 1.
Definition MSG_TRUNC : Z := 0x20.
Definition MSG_CTRUNC : Z := 0x8.
Definition SOCK_SEQPACKET : Z := 5.
Definition AF_UNIX : Z := 1.
Definition O_NONBLOCK : Z := 0x800.
Definition FD_CLOEXEC : Z := 1.

(** Calls with an outside effect. *)
Inductive Effect :=
| EClose (fd : Z)
| ESend (sock : Z) (bytes fds : list Z) (n : Z)
| ESleep (usec : Z)
| EOpen (fd : Z)                 (* a descriptor came into being *)
| EBoCreate (bo : Z)
| EBoDestroy (bo : Z)
| EGbmCreate (gbm : Z)
| EGbmDestroy (gbm : Z)
| EMmap (base len : Z)
| EMunmap (base len : Z)
| EDmaSync (fd flags : Z)
| EFree (addr : Z)
| EBind (sock : Z) (addr : list Z)
| EListen (sock backlog : Z)
| ESetFd (fd flags : Z)
| ESetStatus (fd flags : Z)
| ETimeout (fd ms : Z)
(* Windows *)
| EHandle (h : Z)                (* a HANDLE came into being *)
| EHandleClose (h : Z)
| EPeerHandle (process h : Z)    (* duplicated into another process *)
| EWritePipe (pipe : Z) (bytes : list Z)
| ESignal (fence value : Z)      (* queued on the GPU *)
| ECopy (dst src : Z)            (* CopyResource *)
| EMapTexture (tex : Z)
| EUnmapTexture (tex : Z)
| EWaitFence (value ms : Z)
| EFlush
(* Android *)
| EAhb (b : Z)                   (* a reference to an AHardwareBuffer came into being *)
| EAhbRelease (b : Z)
| EAhbUnlock (b : Z)
| EAhbSend (b sock : Z)
| EShutdown (fd : Z).

#[export] Instance Effect_eq_dec : EqDecision Effect.
Proof. solve_decision. Defined.

Record World := mkWorld { w_tick : nat; w_log : list Effect }.

(** The answers, by the time of the call. *)
Class Kernel := {
  k_poll : nat -> Z -> Z * Z;               (* result, revents, for events POLLIN *)
  k_poll2 : nat -> Z -> Z -> Z * Z * Z;     (* two descriptors *)
  k_errno : nat -> Z;
  k_dup : nat -> Z -> Z;                    (* dup, fcntl(F_DUPFD_CLOEXEC) *)
  k_fstat : nat -> Z -> option Stat;
  k_sendmsg : nat -> Z -> Z;
  k_recvmsg : nat -> Z -> Received;
  k_socket : nat -> Z;
  k_bind : nat -> Z -> Z;
  k_listen : nat -> Z -> Z;
  k_accept : nat -> Z -> Z;
  k_connect : nat -> Z -> list Z -> Z;
  k_peercred : nat -> Z -> option Z;        (* getsockopt(SO_PEERCRED): the pid *)
  k_socktype : nat -> Z -> option Z;        (* getsockopt(SO_TYPE) *)
  k_peerfamily : nat -> Z -> option Z;      (* getpeername: ss_family *)
  k_getfd : nat -> Z -> Z;                  (* fcntl(F_GETFD) *)
  k_getfl : nat -> Z -> Z;
  k_setfd : nat -> Z -> Z;
  k_setfl : nat -> Z -> Z;
  k_settimeout : nat -> Z -> Z;             (* setsockopt(SO_RCVTIMEO / SO_SNDTIMEO) *)
  k_clock : nat -> Z;                       (* steady_clock::now, nanoseconds *)
  k_getpid : Z;
  k_new : nat -> Z;                         (* operator new: a non-null address *)
  k_open_render : nat -> Z -> Z;            (* open("/dev/dri/renderD<i>") *)
  k_gbm_device : nat -> Z -> Z;             (* gbm_create_device *)
  k_bo_create : nat -> Z -> Z -> Z -> Z -> Z;   (* width height fourcc usage *)
  k_bo_import : nat -> Z;
  k_bo_width : Z -> Z;
  k_bo_height : Z -> Z;
  k_bo_format : Z -> Z;
  k_bo_modifier : Z -> Z;
  k_bo_planes : Z -> Z;
  k_bo_fd : nat -> Z -> Z -> Z;             (* gbm_bo_get_fd_for_plane *)
  k_bo_stride : Z -> Z -> Z;
  k_bo_offset : Z -> Z -> Z;
  k_mmap : nat -> Z -> Z;                   (* MAP_FAILED is -1 *)
  k_ioctl_sync : nat -> Z -> Z -> Z;
}.

(** ** The monad *)

Definition M (A : Type) : Type := World -> A * World.

Definition ret {A} (x : A) : M A := fun w => (x, w).
Definition bind {A B} (m : M A) (k : A -> M B) : M B := fun w => let '(x, w') := m w in k x w'.

Notation "'let!' x := m 'in' k" := (bind m (fun x => k))
  (at level 200, x pattern, m at level 100, k at level 200,
   format "'[v' 'let!'  x  :=  m  'in' '/' k ']'") : fl_scope.
Notation "m ;; k" := (bind m (fun _ => k))
  (at level 100, k at level 200, right associativity, format "'[v' m  ;; '/' k ']'") : fl_scope.
(** [if (c) return e;] in a monadic body. *)
Notation "'return_if!' c 'with' e ;; k" := (if (c : bool) then e else k)
  (at level 200, c at level 99, e at level 99, k at level 200) : fl_scope.

(** A call whose answer is [f time]. *)
Definition ask {A} (f : nat -> A) : M A :=
  fun w => (f (w_tick w), mkWorld (S (w_tick w)) (w_log w)).

Definition effect (e : Effect) : M unit :=
  fun w => (tt, mkWorld (S (w_tick w)) (e :: w_log w)).

Fixpoint mfor {A} (l : list A) (f : A -> M unit) : M unit :=
  match l with
  | [] => ret tt
  | x :: r => f x ;; mfor r f
  end.

(** A [for] loop over [l] with a state. *)
Fixpoint mfold {A S} (l : list A) (f : A -> S -> M S) (s : S) : M S :=
  match l with
  | [] => ret s
  | x :: r => let! s' := f x s in mfold r f s'
  end.

(** A [for] loop whose body may leave the function: [inr] is the early return. *)
Fixpoint mloop {A S R} (l : list A) (f : A -> S -> M (S + R)) (s : S) : M (S + R) :=
  match l with
  | [] => ret (inl s)
  | x :: r =>
    let! o := f x s in
    match o with
    | inl s' => mloop r f s'
    | inr e => ret (inr e)
    end
  end.

(** [::close(fd)] *)
Definition close (fd : Z) : M unit := effect (EClose fd).

(** [if (fd >= 0) close(fd);] *)
Definition close_valid (fd : Z) : M unit := if 0 <=? fd then close fd else ret tt.

(** Record what a call brought into being. *)
Definition opened (m : M Z) : M Z :=
  let! fd := m in (if 0 <=? fd then effect (EOpen fd) else ret tt) ;; ret fd.
Definition bo_created (m : M Z) : M Z :=
  let! bo := m in (if truthy bo then effect (EBoCreate bo) else ret tt) ;; ret bo.
Definition gbm_created (m : M Z) : M Z :=
  let! g := m in (if truthy g then effect (EGbmCreate g) else ret tt) ;; ret g.

Definition handle_created (m : M Z) : M Z :=
  let! h := m in (if truthy h then effect (EHandle h) else ret tt) ;; ret h.

(** [CloseHandle(h)], and [if (h) CloseHandle(h);] *)
Definition closeHandle (h : Z) : M unit := effect (EHandleClose h).
Definition closeHandle_valid (h : Z) : M unit := if truthy h then closeHandle h else ret tt.

Definition usleep (us : Z) : M unit := effect (ESleep us).

Section Calls.
Context `{K : Kernel}.

(** [pollfd p{fd,POLLIN,0}; poll(&p,1,0)] *)
Definition poll (fd : Z) : M (Z * Z) := ask (fun t => k_poll t fd).
Definition errno : M Z := ask k_errno.
Definition dup (fd : Z) : M Z := ask (fun t => k_dup t fd).
Definition fstat (fd : Z) : M (option Stat) := ask (fun t => k_fstat t fd).
Definition new_object : M Z := ask k_new.

(** [inline bool fenceReady(int fd)] *)
Definition fenceReady (fd : Z) : M bool :=
  if fd <? 0 then ret true
  else let! (result, revents) := poll fd in
       ret ((0 <? result) && truthy (Z.land revents POLLIN)).
End Calls.

(** ** What a computation closes and sends *)

Definition closed_of (l : list Effect) : list Z :=
  omap (fun e => match e with EClose fd => Some fd | _ => None end) l.

(** [w'] continues [w]. *)
Definition extends (w w' : World) : Prop :=
  (w_tick w <= w_tick w')%nat /\ exists es, w_log w' = es ++ w_log w.

(** The effects [m] performed, newest first, when run from [w]. *)
Definition effects_of (w w' : World) : list Effect :=
  take (length (w_log w') - length (w_log w)) (w_log w').

Lemma extends_refl w : extends w w.
Proof. split; [lia|]. by exists []. Qed.

Lemma extends_trans w1 w2 w3 : extends w1 w2 -> extends w2 w3 -> extends w1 w3.
Proof.
  intros [H1 [e1 E1]] [H2 [e2 E2]]. split; [lia|]. exists (e2 ++ e1). by rewrite E2, E1, app_assoc.
Qed.

#[export] Instance extends_preorder : PreOrder extends.
Proof. split; [intros w; apply extends_refl|intros a b c; apply extends_trans]. Qed.

Lemma bind_run {A B} (m : M A) (k : A -> M B) w :
  bind m k w = k (m w).1 (m w).2.
Proof. unfold bind. by destruct (m w). Qed.

Lemma ret_run {A} (x : A) w : ret x w = (x, w).
Proof. done. Qed.

(** The descriptors a computation closes, oldest first. *)
Definition closes {A} (m : M A) (w : World) : list Z :=
  rev (closed_of (effects_of w (m w).2)).

(** ** A concrete system, for examples

    Calls succeed; polls, sends and receives answer as scripted; objects are
    numbered by the time of the call. *)
Definition scripted (poll : nat -> Z -> Z * Z) (sendmsg : nat -> Z -> Z)
  (recvmsg : nat -> Z -> Received) : Kernel := {|
  k_poll := poll;
  k_poll2 _ _ _ := (1, POLLIN, 0);
  k_errno _ := 0;
  k_dup t fd := 1000 + Z.of_nat t;
  k_fstat t fd := Some (mkStat 33177600 1 (Z.of_nat t) true 226 128);
  k_sendmsg := sendmsg;
  k_recvmsg := recvmsg;
  k_socket t := 2000 + Z.of_nat t;
  k_bind _ _ := 0;
  k_listen _ _ := 0;
  k_accept t _ := 2000 + Z.of_nat t;
  k_connect _ _ _ := 0;
  k_peercred _ _ := Some 42;
  k_socktype _ _ := Some SOCK_SEQPACKET;
  k_peerfamily _ _ := Some AF_UNIX;
  k_getfd _ _ := 0;
  k_getfl _ _ := 2;
  k_setfd _ _ := 0;
  k_setfl _ _ := 0;
  k_settimeout _ _ := 0;
  k_clock t := 1000000 * Z.of_nat t;
  k_getpid := 42;
  k_new t := 4096 * (1 + Z.of_nat t);
  k_open_render _ i := i;
  k_gbm_device _ fd := 8192 + fd;
  k_bo_create t _ _ _ _ := 65536 + Z.of_nat t;
  k_bo_import t := 65536 + Z.of_nat t;
  k_bo_width _ := 1920;
  k_bo_height _ := 1080;
  k_bo_format _ := 0x34325241;
  k_bo_modifier _ := 0;
  k_bo_planes _ := 1;
  k_bo_fd t _ _ := 3000 + Z.of_nat t;
  k_bo_stride _ _ := 7680;
  k_bo_offset _ _ := 0;
  k_mmap t _ := 16777216 * (1 + Z.of_nat t);
  k_ioctl_sync _ _ _ := 0;
|}.

Definition start : World := mkWorld 0 [].

(** ** The log *)

Lemma mfor_close_log l w :
  (mfor l close w).1 = tt /\ w_log (mfor l close w).2 = rev (map EClose l) ++ w_log w.
Proof.
  revert w. induction l as [|fd l IH]; intros w; [done|].
  cbn [mfor]. rewrite bind_run. destruct (IH (close fd w).2) as [H1 H2].
  split; [done|]. rewrite H2. simpl. by rewrite <- app_assoc.
Qed.

Lemma effects_of_log w w' es : w_log w' = es ++ w_log w -> effects_of w w' = es.
Proof.
  intros H. unfold effects_of. rewrite H, length_app.
  replace (length es + length (w_log w) - length (w_log w))%nat with (length es) by lia.
  by rewrite take_app_length.
Qed.

Lemma closes_log {A} (m : M A) w es :
  w_log (m w).2 = es ++ w_log w -> closes m w = rev (closed_of es).
Proof.
  intros H. unfold closes. by rewrite (effects_of_log _ _ es).
Qed.

Lemma closed_of_app l1 l2 : closed_of (l1 ++ l2) = closed_of l1 ++ closed_of l2.
Proof. unfold closed_of. by rewrite omap_app. Qed.

Lemma closed_of_closes l : closed_of (map EClose l) = l.
Proof. unfold closed_of. induction l as [|x l IH]; [done|]. simpl map. rewrite omap_cons. by f_equal. Qed.

(** ** Reasoning about effects

    [emits m P]: whenever [m] is run, its result [x] and the effects [es] it
    performs, newest first, satisfy [P x es].  One rule per construct. *)
Definition emits {A} (m : M A) (P : A -> list Effect -> Prop) : Prop :=
  forall w, exists es, w_log (m w).2 = es ++ w_log w /\ P (m w).1 es.

Section Emits.
Context {A B : Type}.

Lemma emits_ret (x : A) (P : A -> list Effect -> Prop) : P x [] -> emits (ret x) P.
Proof. intros H w. by exists []. Qed.

Lemma emits_bind (m : M A) (k : A -> M B) P :
  emits m (fun x es => emits (k x) (fun y es' => P y (es' ++ es))) -> emits (bind m k) P.
Proof.
  intros H w. rewrite bind_run. destruct (H w) as (es & Hl & H2).
  destruct (H2 (m w).2) as (es' & Hl' & HP). exists (es' ++ es).
  split; [by rewrite Hl', Hl, app_assoc|done].
Qed.

Lemma emits_ask (f : nat -> A) (P : A -> list Effect -> Prop) :
  (forall x, P x []) -> emits (ask f) P.
Proof. intros H w. by exists []. Qed.

(** The same, keeping what was asked. *)
Lemma emits_ask_at (f : nat -> A) (P : A -> list Effect -> Prop) :
  (forall t, P (f t) []) -> emits (ask f) P.
Proof. intros H w. exists []. split; [done|apply H]. Qed.

Lemma emits_effect e (P : unit -> list Effect -> Prop) : P tt [e] -> emits (effect e) P.
Proof. intros H w. by exists [e]. Qed.

Lemma emits_mono (m : M A) (P Q : A -> list Effect -> Prop) :
  emits m P -> (forall x es, P x es -> Q x es) -> emits m Q.
Proof. intros H HPQ w. destruct (H w) as (es & ? & ?). eauto. Qed.

Lemma emits_run (m : M A) P w : emits m P -> P (m w).1 (effects_of w (m w).2).
Proof.
  intros H. destruct (H w) as (es & Hl & HP). by rewrite (effects_of_log _ _ es).
Qed.
End Emits.

Lemma emits_close_valid fd (P : unit -> list Effect -> Prop) :
  P tt (if 0 <=? fd then [EClose fd] else []) -> emits (close_valid fd) P.
Proof.
  unfold close_valid. destruct (0 <=? fd); intros H; [by apply emits_effect|by apply emits_ret].
Qed.

Lemma emits_mfor_close l (P : unit -> list Effect -> Prop) :
  P tt (rev (map EClose l)) -> emits (mfor l close) P.
Proof.
  intros H w. destruct (mfor_close_log l w) as [H1 H2]. exists (rev (map EClose l)).
  split; [done|]. by destruct (mfor l close w).1.
Qed.

(** Loops, by an invariant on the state and the effects so far. *)
Lemma emits_mfold {A S} (I : S -> list Effect -> Prop) (l : list A) (f : A -> S -> M S) s es
  (P : S -> list Effect -> Prop) :
  I s es ->
  (forall x s es, x ∈ l -> I s es -> emits (f x s) (fun s' es' => I s' (es' ++ es))) ->
  (forall s' es', I s' (es' ++ es) -> P s' es') -> emits (mfold l f s) P.
Proof.
  intros Hs Hf HP.
  assert (emits (mfold l f s) (fun s' es' => I s' (es' ++ es))) as HE;
    [|eapply emits_mono; [exact HE|exact HP]].
  clear HP P. revert s es Hs. induction l as [|x l IH]; intros s es Hs; cbn [mfold].
  { by apply emits_ret. }
  apply emits_bind. eapply emits_mono; [apply (Hf x s es); [by left|done]|].
  intros s' es' Hs'. eapply emits_mono; [apply (IH ltac:(intros; apply Hf; [by right|done]) s' _ Hs')|].
  intros s'' es''. cbv beta. by rewrite app_assoc.
Qed.

Lemma emits_mloop {A S R} (I : S -> list Effect -> Prop) (Q : R -> list Effect -> Prop)
  (l : list A) (f : A -> S -> M (S + R)) s es (P : S + R -> list Effect -> Prop) :
  I s es ->
  (forall x s es, x ∈ l -> I s es -> emits (f x s) (fun o es' =>
     match o with inl s' => I s' (es' ++ es) | inr r => Q r (es' ++ es) end)) ->
  (forall o es', match o with inl s' => I s' (es' ++ es) | inr r => Q r (es' ++ es) end -> P o es') ->
  emits (mloop l f s) P.
Proof.
  intros Hs Hf HP.
  assert (emits (mloop l f s) (fun o es' =>
    match o with inl s' => I s' (es' ++ es) | inr r => Q r (es' ++ es) end)) as HE;
    [|eapply emits_mono; [exact HE|exact HP]].
  clear HP P. revert s es Hs. induction l as [|x l IH]; intros s es Hs; cbn [mloop].
  { by apply emits_ret. }
  apply emits_bind. eapply emits_mono; [apply (Hf x s es); [by left|done]|].
  intros [s'|r] es' Hs'; [|by apply emits_ret].
  eapply emits_mono; [apply (IH ltac:(intros; apply Hf; [by right|done]) s' _ Hs')|].
  intros o es''. cbv beta. rewrite app_assoc. by destruct o.
Qed.

Lemma emits_mfor {A} (I : list Effect -> Prop) (l : list A) (f : A -> M unit) es
  (P : unit -> list Effect -> Prop) :
  I es -> (forall x es, x ∈ l -> I es -> emits (f x) (fun _ es' => I (es' ++ es))) ->
  (forall es', I (es' ++ es) -> P tt es') -> emits (mfor l f) P.
Proof.
  intros Hs Hf HP. assert (emits (mfor l f) (fun _ es' => I (es' ++ es))) as HE;
    [|eapply emits_mono; [exact HE|intros [] ?; apply HP]].
  clear HP P. revert es Hs. induction l as [|x l IH]; intros es Hs; cbn [mfor].
  { by apply emits_ret. }
  apply emits_bind. eapply emits_mono; [apply (Hf x es); [by left|done]|].
  intros u es' Hs'. eapply emits_mono; [apply (IH ltac:(intros; apply Hf; [by right|done]) _ Hs')|].
  intros u' es''. cbv beta. by rewrite app_assoc.
Qed.

(** Symbolic execution up to the next test, loop or user function. *)
Ltac emits_step :=
  match goal with
  | |- emits (bind _ _) _ => apply emits_bind
  | |- emits (ret _) _ => apply emits_ret
  | |- emits (ask _) _ => apply emits_ask; intros
  | |- emits (poll _) _ => apply emits_ask; intros
  | |- emits errno _ => apply emits_ask; intros
  | |- emits (dup _) _ => apply emits_ask; intros
  | |- emits (fstat _) _ => apply emits_ask; intros
  | |- emits new_object _ => apply emits_ask; intros
  | |- emits (effect _) _ => apply emits_effect
  | |- emits (close _) _ => apply emits_effect
  | |- emits (usleep _) _ => apply emits_effect
  | |- emits (close_valid _) _ => apply emits_close_valid
  | |- emits (mfor _ close) _ => apply emits_mfor_close
  | |- emits (if ?c then _ else _) _ => let E := fresh "Hif" in destruct c eqn:E
  | |- emits (match ?c with Some _ => _ | None => _ end) _ =>
    let E := fresh "Hcase" in destruct c eqn:E
  | |- emits (let '(_, _) := ?c in _) _ => let E := fresh "Hpair" in destruct c eqn:E
  end.
Ltac emits_auto := repeat (emits_step; cbn beta iota delta [negb]).
