(* ===== verification/Resources.v ===== *)
(** * Accounting for resources

    File descriptors, buffer objects, devices, Windows handles and AHardwareBuffers, as the log of
    the world counts them: [account a es b] says that the effects [es] lead from
    owning [a] to owning [b], and [moves] is the program logic for it - one rule
    per construct, so that a leak or a double close shows up as an account that
    does not balance. *)
From stdpp Require Import sorting.
From S2P Require Import Prelude Kernel.

Inductive Res := RFd (fd : Z) | RBo (bo : Z) | RGbm (g : Z) | RHandle (h : Z) | RAhb (b : Z).

Definition gained (es : list Effect) : list Res :=
  omap (fun e => match e with
                 | EOpen fd => Some (RFd fd) | EBoCreate b => Some (RBo b)
                 | EGbmCreate g => Some (RGbm g) | EHandle h => Some (RHandle h)
                 | EAhb b => Some (RAhb b) | _ => None end) es.
Definition lost (es : list Effect) : list Res :=
  omap (fun e => match e with
                 | EClose fd => Some (RFd fd) | EBoDestroy b => Some (RBo b)
                 | EGbmDestroy g => Some (RGbm g) | EHandleClose h => Some (RHandle h)
                 | EAhbRelease b => Some (RAhb b) | _ => None end) es.

(** Values that stand for no resource: a negative descriptor, a null object. *)
Definition fd_res (l : list Z) : list Res := map RFd (filter (fun fd => 0 <= fd) l).
Definition bo_res (bo : Z) : list Res := if truthy bo then [RBo bo] else [].
Definition gbm_res (g : Z) : list Res := if truthy g then [RGbm g] else [].
Definition handle_res (h : Z) : list Res := if truthy h then [RHandle h] else [].

(** ** Accounts *)

(** From holding [a], the effects [es] lead to holding [b]. *)
Definition account (a : list Res) (es : list Effect) (b : list Res) : Prop :=
  a ++ gained es ≡ₚ lost es ++ b.

Lemma gained_app l l' : gained (l ++ l') = gained l ++ gained l'.
Proof. apply omap_app. Qed.
Lemma lost_app l l' : lost (l ++ l') = lost l ++ lost l'.
Proof. apply omap_app. Qed.

Lemma account_nil a : account a [] a.
Proof. unfold account. by rewrite app_nil_r. Qed.

Lemma account_trans a b c es es' : account a es b -> account b es' c -> account a (es' ++ es) c.
Proof.
  unfold account. intros H1 H2. rewrite gained_app, lost_app.
  rewrite (Permutation_app_comm (gained es')), app_assoc, H1.
  rewrite <- app_assoc, H2, !app_assoc. apply Permutation_app_tail, Permutation_app_comm.
Qed.

Lemma account_frame f a b es : account a es b -> account (a ++ f) es (b ++ f).
Proof.
  unfold account. intros H. rewrite <- app_assoc, (Permutation_app_comm f), app_assoc, H.
  by rewrite app_assoc.
Qed.

Lemma account_frame_l f a b es : account a es b -> account (f ++ a) es (f ++ b).
Proof.
  intros H. unfold account. rewrite (Permutation_app_comm f a), (Permutation_app_comm f b).
  by apply account_frame.
Qed.

#[export] Instance account_proper : Proper ((≡ₚ) ==> eq ==> (≡ₚ) ==> iff) account.
Proof. intros a a' Ha es ? <- b b' Hb. unfold account. by rewrite Ha, Hb. Qed.

Lemma account_quiet a es : gained es = [] -> lost es = [] -> account a es a.
Proof. intros H1 H2. unfold account. by rewrite H1, H2, app_nil_r. Qed.

Lemma fd_res_cons fd l : fd_res (fd :: l) = fd_res [fd] ++ fd_res l.
Proof. unfold fd_res. rewrite !filter_cons. by destruct (decide (0 <= fd)). Qed.

Lemma fd_res_app l l' : fd_res (l ++ l') = fd_res l ++ fd_res l'.
Proof. unfold fd_res. by rewrite filter_app, map_app. Qed.

Lemma fd_res_1 fd : 0 <= fd -> fd_res [fd] = [RFd fd].
Proof. intros. unfold fd_res. by rewrite filter_cons, filter_nil, decide_True by lia. Qed.

Lemma fd_res_0 fd : fd < 0 -> fd_res [fd] = [].
Proof. intros. unfold fd_res. by rewrite filter_cons, filter_nil, decide_False by lia. Qed.

(** [emits] with an account as its postcondition. *)
Definition moves {A} (a : list Res) (m : M A) (b : A -> list Res) (Q : A -> Prop) : Prop :=
  emits m (fun x es => account a es (b x) /\ Q x).

Section Rules.

Lemma moves_bind {A B} a (m : M A) (k : A -> M B) b c Q R :
  moves a m b Q -> (forall x, Q x -> moves (b x) (k x) c R) -> moves a (bind m k) c R.
Proof.
  intros H1 H2. apply emits_bind. eapply emits_mono; [exact H1|]. intros x es [Ha HQ].
  eapply emits_mono; [by apply H2|]. intros y es' [Hb HR]. split; [by eapply account_trans|done].
Qed.

Lemma moves_ret {A} a (x : A) b (Q : A -> Prop) : a ≡ₚ b x -> Q x -> moves a (ret x) b Q.
Proof. intros Hp HQ. apply emits_ret. split; [|done]. rewrite Hp. apply account_nil. Qed.

Lemma moves_ask {A} a (f : nat -> A) (Q : A -> Prop) :
  (forall x, Q x) -> moves a (ask f) (fun _ => a) Q.
Proof. intros HQ. apply emits_ask. intros x. split; [apply account_nil|done]. Qed.

Lemma moves_frame {A} f a (m : M A) b Q :
  moves a m b Q -> moves (a ++ f) m (fun x => b x ++ f) Q.
Proof.
  intros H. eapply emits_mono; [exact H|]. intros x es [Ha HQ]. split; [by apply account_frame|done].
Qed.

Lemma moves_mono {A} a a' (m : M A) b b' (Q Q' : A -> Prop) :
  moves a m b Q -> a ≡ₚ a' -> (forall x, Q x -> b x ≡ₚ b' x /\ Q' x) -> moves a' m b' Q'.
Proof.
  intros H Ha Hb. eapply emits_mono; [exact H|]. intros x es [Hacc HQ].
  destruct (Hb x HQ) as [Hbx HQ']. split; [|done]. by rewrite <- Ha, <- Hbx.
Qed.

Lemma moves_perm {A} a a' (m : M A) b Q : a ≡ₚ a' -> moves a m b Q -> moves a' m b Q.
Proof. intros Ha H. eapply moves_mono; [exact H|exact Ha|done]. Qed.

Lemma moves_close fd a Q : Q tt -> moves (RFd fd :: a) (close fd) (fun _ => a) Q.
Proof. intros HQ. apply emits_effect. split; [|done]. unfold account. simpl. by rewrite app_nil_r. Qed.

Lemma moves_close_valid fd a (Q : unit -> Prop) :
  Q tt -> moves (fd_res [fd] ++ a) (close_valid fd) (fun _ => a) Q.
Proof.
  intros HQ. unfold close_valid. destruct (0 <=? fd) eqn:E.
  - rewrite fd_res_1 by lia. by apply moves_close.
  - rewrite fd_res_0 by lia. by apply moves_ret.
Qed.

Lemma moves_closes l a (Q : unit -> Prop) :
  Q tt -> moves (fd_res l ++ a) (mfor l close_valid) (fun _ => a) Q.
Proof.
  intros HQ. induction l as [|fd l IH]; cbn [mfor]; [by apply moves_ret|].
  rewrite fd_res_cons, <- app_assoc.
  eapply moves_bind; [by apply (moves_close_valid _ _ (fun _ => True))|]. intros [] _. exact IH.
Qed.

(** An effect that is not about resources. *)
Lemma moves_effect e a (Q : unit -> Prop) :
  gained [e] = [] -> lost [e] = [] -> Q tt -> moves a (effect e) (fun _ => a) Q.
Proof. intros H1 H2 HQ. apply emits_effect. split; [by apply account_quiet|done]. Qed.

Lemma moves_opened f a (Q : Z -> Prop) :
  (forall fd, Q fd) -> moves a (opened (ask f)) (fun fd => fd_res [fd] ++ a) Q.
Proof.
  intros HQ. unfold opened. eapply moves_bind; [by apply (moves_ask _ _ (fun _ => True))|].
  intros fd _. destruct (0 <=? fd) eqn:E.
  - apply emits_bind, emits_effect, emits_ret. split; [|done]. rewrite fd_res_1 by lia.
    unfold account. simpl. apply Permutation_app_comm.
  - apply emits_bind, emits_ret, emits_ret. split; [|done]. rewrite fd_res_0 by lia. apply account_nil.
Qed.

Lemma moves_bo_created f a (Q : Z -> Prop) :
  (forall bo, Q bo) -> moves a (bo_created (ask f)) (fun bo => bo_res bo ++ a) Q.
Proof.
  intros HQ. unfold bo_created, bo_res. eapply moves_bind; [by apply (moves_ask _ _ (fun _ => True))|].
  intros bo _. destruct (truthy bo) eqn:E.
  - apply emits_bind, emits_effect, emits_ret. rewrite E. split; [|done].
    unfold account. simpl. apply Permutation_app_comm.
  - apply emits_bind, emits_ret, emits_ret. rewrite E. split; [|done]. apply account_nil.
Qed.

Lemma moves_gbm_created f a (Q : Z -> Prop) :
  (forall g, Q g) -> moves a (gbm_created (ask f)) (fun g => gbm_res g ++ a) Q.
Proof.
  intros HQ. unfold gbm_created, gbm_res. eapply moves_bind; [by apply (moves_ask _ _ (fun _ => True))|].
  intros g _. destruct (truthy g) eqn:E.
  - apply emits_bind, emits_effect, emits_ret. rewrite E. split; [|done].
    unfold account. simpl. apply Permutation_app_comm.
  - apply emits_bind, emits_ret, emits_ret. rewrite E. split; [|done]. apply account_nil.
Qed.

(** A loop that disposes of what each element owns. *)
Lemma moves_mfor {A} (l : list A) (f : A -> M unit) (own : A -> list Res) a (Q : unit -> Prop) :
  Q tt -> (forall x a, x ∈ l -> moves (own x ++ a) (f x) (fun _ => a) (fun _ => True)) ->
  moves (concat (map own l) ++ a) (mfor l f) (fun _ => a) Q.
Proof.
  intros HQ. induction l as [|x l IH]; intros Hf; cbn [mfor]; [by apply moves_ret|].
  cbn [map concat]. rewrite <- app_assoc.
  eapply moves_bind; [apply Hf; by left|]. intros [] _. apply IH. intros y a' Hy. apply Hf. by right.
Qed.

Lemma handle_res_cons h l : concat (map handle_res (h :: l)) = handle_res h ++ concat (map handle_res l).
Proof. done. Qed.

Lemma moves_handle h a (Q : unit -> Prop) :
  Q tt -> moves (handle_res h ++ a) (closeHandle_valid h) (fun _ => a) Q.
Proof.
  intros HQ. unfold closeHandle_valid, handle_res. destruct (truthy h); [|by apply moves_ret].
  apply emits_effect. split; [|done]. unfold account. simpl. by rewrite app_nil_r.
Qed.

Lemma moves_handle_created f a (Q : Z -> Prop) :
  (forall h, Q h) -> moves a (handle_created (ask f)) (fun h => handle_res h ++ a) Q.
Proof.
  intros HQ. unfold handle_created, handle_res. eapply moves_bind; [by apply (moves_ask _ _ (fun _ => True))|].
  intros h _. destruct (truthy h) eqn:E.
  - apply emits_bind, emits_effect, emits_ret. rewrite E. split; [|done].
    unfold account. simpl. apply Permutation_app_comm.
  - apply emits_bind, emits_ret, emits_ret. rewrite E. split; [|done]. apply account_nil.
Qed.

(** A loop with early return whose state owns resources. *)
Lemma moves_mloop {A S R} (own : S -> list Res) (ownR : R -> list Res) (I : S -> Prop) (J : R -> Prop)
  (l : list A) (f : A -> S -> M (S + R)) s a :
  I s ->
  (forall x s, x ∈ l -> I s -> moves (own s ++ a) (f x s)
     (fun r => match r with inl s' => own s' | inr e => ownR e end ++ a)
     (fun r => match r with inl s' => I s' | inr e => J e end)) ->
  moves (own s ++ a) (mloop l f s)
    (fun r => match r with inl s' => own s' | inr e => ownR e end ++ a)
    (fun r => match r with inl s' => I s' | inr e => J e end).
Proof.
  intros Hs Hf. revert s Hs. induction l as [|x l IH]; intros s Hs; cbn [mloop]; [by apply moves_ret|].
  eapply moves_bind; [apply Hf; [by left|done]|]. intros [s'|e] HI; [|by apply moves_ret].
  apply IH; [|done]. intros y s'' Hy. apply Hf. by right.
Qed.
End Rules.
