(* ===== verification/Wire.v ===== *)
(** * The control protocol: structures, codecs, metadata, layout

    src/fl_protocol.h (packed little-endian structures), src/fl_metadata.hpp
    (frame metadata and the feature word) and src/fl_layout.h (geometry and
    plane bounds).

    A structure is an instance of [Struct]: the widths of its fields, its fields
    as numbers and back.  [as_] is [Message::as<T>()]: the payload reinterpreted
    when it is long enough. *)
From S2P Require Import Prelude Api.

(** ** Packed structures *)

Definition put_fields (ws : list nat) (vs : list Z) : list Z := concat (zip_with put_le ws vs).

Fixpoint get_fields (ws : list nat) (p : list Z) : list Z :=
  match ws with
  | [] => []
  | w :: ws' => let '(v, p') := get_le w p in v :: get_fields ws' p'
  end.

Definition fits (w : nat) (v : Z) : Prop := 0 <= v < 256 ^ Z.of_nat w.

(** The conversions between [int64_t] and the eight bytes. *)
Definition to_u64 (v : Z) : Z := v mod 18446744073709551616.
Definition of_u64 (v : Z) : Z := if v <=? INT64_MAX then v else v - 18446744073709551616.

Class Struct (T : Type) := {
  st_widths : list nat;
  st_values : T -> list Z;
  st_build : list Z -> T;
}.

Definition sizeof (T : Type) `{Struct T} : nat := sum_list st_widths.
Definition encode {T} `{Struct T} (x : T) : list Z := put_fields st_widths (st_values x).
Definition decode {T} `{Struct T} (p : list Z) : T := st_build (get_fields st_widths p).

(** [message.as<T>()] *)
Definition as_ (T : Type) `{Struct T} (payload : list Z) : option T :=
  if (sizeof T <=? length payload)%nat then Some (decode payload) else None.

(** A value whose every field is in its type's range. *)
Definition struct_valid {T} `{Struct T} (x : T) : Prop :=
  Forall2 fits st_widths (st_values x) /\ st_build (st_values x) = x.

Lemma get_put_fields ws vs r :
  Forall2 fits ws vs -> get_fields ws (put_fields ws vs ++ r) = vs.
Proof.
  intros H. revert r. induction H as [|w v ws vs Hv _ IH]; intros r; [done|].
  unfold put_fields in *. simpl. rewrite <- app_assoc, get_put_le by done. by rewrite IH.
Qed.

Lemma get_put_fields_mod ws vs r :
  length ws = length vs ->
  get_fields ws (put_fields ws vs ++ r) = zip_with (fun w v => v mod 256 ^ Z.of_nat w) ws vs.
Proof.
  revert vs r. induction ws as [|w ws IH]; intros [|v vs] r; simpl; try done.
  intros [= Hl]. unfold put_fields in *. simpl. rewrite <- app_assoc, get_put_le_mod.
  by rewrite IH.
Qed.

Lemma length_put_fields ws vs :
  length ws = length vs -> length (put_fields ws vs) = sum_list ws.
Proof.
  revert vs. induction ws as [|w ws IH]; intros [|v vs]; simpl; try done.
  intros [= Hl]. unfold put_fields in *. simpl. rewrite length_app, length_put_le, IH by done. done.
Qed.

Section StructLemmas.
Context {T : Type} `{Struct T}.

Lemma length_encode (x : T) : struct_valid x -> length (encode x) = sizeof T.
Proof. intros [Hf _]. apply length_put_fields. by eapply Forall2_length. Qed.

Lemma decode_encode (x : T) r : struct_valid x -> decode (encode x ++ r) = x.
Proof. intros [Hf Hb]. unfold decode, encode. by rewrite get_put_fields. Qed.

Lemma as_encode (x : T) : struct_valid x -> as_ T (encode x) = Some x.
Proof.
  intros Hx. unfold as_. rewrite length_encode, Nat.leb_refl by done.
  rewrite <- (app_nil_r (encode x)). by rewrite decode_encode.
Qed.
End StructLemmas.

Lemma to_u64_fits v : fits 8 (to_u64 v).
Proof. unfold fits, to_u64. change (256 ^ Z.of_nat 8) with 18446744073709551616. apply Z.mod_pos_bound. lia. Qed.

Lemma of_to_u64 v : i64 v -> of_u64 (to_u64 v) = v.
Proof.
  unfold of_u64, to_u64. intros Hv. destruct (decide (0 <= v)).
  - rewrite Z.mod_small by ulia. destruct (v <=? INT64_MAX) eqn:E; ulia.
  - assert (v mod 18446744073709551616 = v + 18446744073709551616) as ->.
    { symmetry. apply Z.mod_unique with (-1); [left|]; ulia. }
    destruct (_ <=? INT64_MAX) eqn:E; ulia.
Qed.

(** ** fl_protocol.h *)

Definition kMagic : Z := 0x314B4C46.
Definition kMaxPool : nat := FL_MAX_POOL_SIZE.

(** [enum class MsgType : uint32_t]; any 32-bit number can arrive. *)
Module MsgType.
Definition Hello : Z := 1.
Definition RingDesc : Z := 2.
Definition FrameReady : Z := 3.
Definition FrameReleased : Z := 4.
Definition RequestGeometry : Z := 5.
Definition Busy : Z := 6.
Definition FrameReadyMetadata : Z := 8.
Definition Bye : Z := 7.
End MsgType.

Record MsgHeader := mkHeader { hd_magic : Z; hd_type : Z; hd_payloadSize : Z }.

#[export] Instance MsgHeader_struct : Struct MsgHeader := {|
  st_widths := [4; 4; 4]%nat;
  st_values x := [hd_magic x; hd_type x; hd_payloadSize x];
  st_build l := match l with [a; b; c] => mkHeader a b c | _ => mkHeader 0 0 0 end;
|}.

Record HelloMsg := mkHello {
  he_version : Z; he_pid : Z; he_luidValid : Z; he_pad : Z;
  he_luid : list Z;   (* 8 bytes *)
}.

#[export] Instance HelloMsg_struct : Struct HelloMsg := {|
  st_widths := [4; 4; 4; 4]%nat ++ replicate 8 1%nat;
  st_values x := [he_version x; he_pid x; he_luidValid x; he_pad x] ++ he_luid x;
  st_build l := match l with
                | a :: b :: c :: d :: r => mkHello a b c d r
                | _ => mkHello 0 0 0 0 []
                end;
|}.

Record RingDescMsg := mkRingDesc {
  rd_width : Z; rd_height : Z;
  rd_format : Z;
  rd_poolSize : Z;
  rd_generation : Z;
  rd_texture : list Z;         (* kMaxPool *)
  rd_readyFence : Z;
  rd_consumedFence : Z;
  rd_stride : list Z;          (* kMaxPool *)
  rd_offset : list Z;          (* kMaxPool *)
  rd_modifier : Z;
  rd_fourcc : Z;
  rd_pad : Z;
  rd_planeCount : list Z;      (* kMaxPool *)
  rd_planeStride : list Z;     (* kMaxPool x 4, row by row *)
  rd_planeOffset : list Z;
}.

Definition zeroRingDesc : RingDescMsg :=
  mkRingDesc 0 0 0 0 0 (replicate 16 0) 0 0 (replicate 16 0) (replicate 16 0) 0 0 0
    (replicate 16 0) (replicate 64 0) (replicate 64 0).

#[export] Instance RingDescMsg_struct : Struct RingDescMsg := {|
  st_widths := [4; 4; 4; 4; 8]%nat ++ replicate 16 8%nat ++ [8; 8]%nat ++ replicate 16 8%nat
    ++ replicate 16 8%nat ++ [8; 4; 4]%nat ++ replicate 16 4%nat ++ replicate 64 8%nat
    ++ replicate 64 8%nat;
  st_values x :=
    [rd_width x; rd_height x; rd_format x; rd_poolSize x; rd_generation x]
    ++ rd_texture x ++ [rd_readyFence x; rd_consumedFence x] ++ rd_stride x ++ rd_offset x
    ++ [rd_modifier x; rd_fourcc x; rd_pad x] ++ rd_planeCount x ++ rd_planeStride x
    ++ rd_planeOffset x;
  st_build l :=
    let at_ i := nth i l 0 in
    let arr i n := take n (drop i l) in
    mkRingDesc (at_ 0%nat) (at_ 1%nat) (at_ 2%nat) (at_ 3%nat) (at_ 4%nat)
      (arr 5%nat 16%nat) (at_ 21%nat) (at_ 22%nat) (arr 23%nat 16%nat) (arr 39%nat 16%nat)
      (at_ 55%nat) (at_ 56%nat) (at_ 57%nat) (arr 58%nat 16%nat) (arr 74%nat 64%nat)
      (arr 138%nat 64%nat);
|}.

(** [rd.planeStride[i][p]] *)
Definition plane_at (l : list Z) (i p : nat) : Z := nth (4 * i + p) l 0.

Record GeometryMsg := mkGeometry { ge_width : Z; ge_height : Z; ge_format : Z; ge_pad : Z }.

#[export] Instance GeometryMsg_struct : Struct GeometryMsg := {|
  st_widths := [4; 4; 4; 4]%nat;
  st_values x := [ge_width x; ge_height x; ge_format x; ge_pad x];
  st_build l := match l with [a; b; c; d] => mkGeometry a b c d | _ => mkGeometry 0 0 0 0 end;
|}.

Record FrameReadyMsg := mkFrameReady {
  fm_slot : Z; fm_pad : Z; fm_readyValue : Z; fm_ptsNs : Z }.

Definition frame_values (x : FrameReadyMsg) : list Z :=
  [fm_slot x; fm_pad x; fm_readyValue x; to_u64 (fm_ptsNs x)].

#[export] Instance FrameReadyMsg_struct : Struct FrameReadyMsg := {|
  st_widths := [4; 4; 8; 8]%nat;
  st_values := frame_values;
  st_build l := match l with
                | [a; b; c; d] => mkFrameReady a b c (of_u64 d)
                | _ => mkFrameReady 0 0 0 0
                end;
|}.

Record FrameReadyMetadataMsg := mkFrameMetadata {
  fx_frame : FrameReadyMsg; fx_metadata : flFrameMetadata }.

#[export] Instance FrameReadyMetadataMsg_struct : Struct FrameReadyMetadataMsg := {|
  st_widths := [4; 4; 8; 8]%nat ++ [4; 4; 8; 8; 8; 4; 4]%nat;
  st_values x :=
    let m := fx_metadata x in
    frame_values (fx_frame x)
    ++ [md_version m; md_flags m; to_u64 (md_dtsNs m); md_durationNs m; md_streamGeneration m;
        md_reserved0 m; md_reserved1 m];
  st_build l := match l with
                | [a; b; c; d; e; f; g; h; i; j; k] =>
                  mkFrameMetadata (mkFrameReady a b c (of_u64 d))
                    (mkMetadata e f (of_u64 g) h i j k)
                | _ => mkFrameMetadata (mkFrameReady 0 0 0 0) zeroMetadata
                end;
|}.

(** [static_assert(sizeof(FrameReadyMetadataMsg)==64)] and its companions. *)
Example sizeof_header : sizeof MsgHeader = 12%nat. Proof. reflexivity. Qed.
Example sizeof_hello : sizeof HelloMsg = 24%nat. Proof. reflexivity. Qed.
Example sizeof_ring : sizeof RingDescMsg = 1528%nat. Proof. reflexivity. Qed.
Example sizeof_metadata : sizeof FrameReadyMetadataMsg = 64%nat. Proof. reflexivity. Qed.

(** [struct Message] *)
Record Message := mkMessage { mg_type : Z; mg_payload : list Z; mg_fds : list Z }.

(** ** fl_metadata.hpp *)

Definition FrameMetadataFeature : Z := 1.

Definition localFeatures (flags : Z) : Z :=
  Z.lor FrameMetadataFeature
    (if has_flag flags FL_REQUIRE_FRAME_METADATA then Z.shiftl FrameMetadataFeature 16 else 0).

Definition compatibleFeatures (local peer : Z) : bool :=
  negb (truthy (Z.land (Z.shiftr local 16) (not32 (Z.land peer 0xffff))))
  && negb (truthy (Z.land (Z.shiftr peer 16) (not32 (Z.land local 0xffff)))).

Definition validateMetadata (m : flFrameMetadata) : flResult :=
  return_if negb (md_version m =? FL_FRAME_METADATA_VERSION) with FL_VERSION_MISMATCH ;;
  return_if truthy (Z.land (md_flags m)
              (not32 (Z.lor (Z.lor FL_FRAME_HAS_DTS FL_FRAME_HAS_DURATION) FL_FRAME_DISCONT)))
         || truthy (md_reserved0 m) || truthy (md_reserved1 m)
         || negb (truthy (md_streamGeneration m))
    with FL_INVALID ;;
  return_if (if has_flag (md_flags m) FL_FRAME_HAS_DTS then md_dtsNs m <? 0
             else negb (md_dtsNs m =? 0)) with FL_INVALID ;;
  return_if (if has_flag (md_flags m) FL_FRAME_HAS_DURATION then INT64_MAX <? md_durationNs m
             else negb (md_durationNs m =? 0)) with FL_INVALID ;;
  FL_OK.

(** The frame (or null) and the metadata out-parameter. *)
Definition decodeFrame (message : Message) (required : bool)
  : option FrameReadyMsg * flFrameMetadata :=
  return_if mg_type message =? MsgType.FrameReady
    with (if negb required && Nat.eqb (length (mg_payload message)) (sizeof FrameReadyMsg)
          then as_ FrameReadyMsg (mg_payload message) else None, zeroMetadata) ;;
  return_if negb (mg_type message =? MsgType.FrameReadyMetadata)
         || negb (Nat.eqb (length (mg_payload message)) (sizeof FrameReadyMetadataMsg))
    with (None, zeroMetadata) ;;
  match as_ FrameReadyMetadataMsg (mg_payload message) with
  | None => (None, zeroMetadata)
  | Some extended =>
    return_if negb (bool_decide (validateMetadata (fx_metadata extended) = FL_OK))
      with (None, zeroMetadata) ;;
    (Some (fx_frame extended), fx_metadata extended)
  end.

(** The type and the bytes [sendFrame] hands to [sendWithFds]. *)
Definition frameMessage (frame : FrameReadyMsg) (metadata : flFrameMetadata) : Z * list Z :=
  if truthy (md_version metadata)
  then (MsgType.FrameReadyMetadata, encode (mkFrameMetadata frame metadata))
  else (MsgType.FrameReady, encode frame).

(** ** fl_layout.h *)

Definition validGeometry (w h f : Z) : bool :=
  truthy w && truthy h && (w <=? 8192) && (h <=? 8192)
  && (negb (f =? FL_FORMAT_NV12) || (negb (truthy (Z.land w 1)) && negb (truthy (Z.land h 1)))).

Definition planeFits (size offset stride rows rowBytes : Z) : bool :=
  return_if negb (truthy rows) || negb (truthy rowBytes) || (stride <? rowBytes) || (size <? offset)
    with false ;;
  return_if truthy (rows - 1) && (((UINT64_MAX - rowBytes) / (rows - 1)) <? stride) with false ;;
  wrap64 (wrap64 ((rows - 1) * stride) + rowBytes) <=? wrap64 (size - offset).

(** * Properties *)

Definition frame_ok (f : FrameReadyMsg) : Prop :=
  u32 (fm_slot f) /\ u32 (fm_pad f) /\ u64 (fm_readyValue f) /\ i64 (fm_ptsNs f).

Definition metadata_ok (m : flFrameMetadata) : Prop :=
  u32 (md_version m) /\ u32 (md_flags m) /\ i64 (md_dtsNs m) /\ u64 (md_durationNs m)
  /\ u64 (md_streamGeneration m) /\ u32 (md_reserved0 m) /\ u32 (md_reserved1 m).

Lemma fits4 v : u32 v -> fits 4 v.
Proof. unfold fits. change (256 ^ Z.of_nat 4) with 4294967296. ulia. Qed.

Lemma fits8 v : u64 v -> fits 8 v.
Proof. unfold fits. change (256 ^ Z.of_nat 8) with 18446744073709551616. ulia. Qed.

#[export] Hint Resolve fits4 fits8 to_u64_fits : fl.

Lemma frame_valid f : frame_ok f -> struct_valid f.
Proof.
  intros (H1 & H2 & H3 & H4). split.
  - simpl. repeat (constructor; [auto with fl|]). constructor.
  - destruct f. simpl in *. by rewrite of_to_u64.
Qed.

Lemma extended_valid f m : frame_ok f -> metadata_ok m -> struct_valid (mkFrameMetadata f m).
Proof.
  intros (H1 & H2 & H3 & H4) (M1 & M2 & M3 & M4 & M5 & M6 & M7). split.
  - simpl. repeat (constructor; [auto with fl|]). constructor.
  - destruct f, m. simpl in *. by rewrite !of_to_u64.
Qed.

#[export] Hint Resolve frame_valid extended_valid : fl.

(** A frame announcement survives the wire exactly: decoding what
    [sendFrame] emits yields the frame and its metadata when the metadata is
    valid, the frame with empty metadata when there is none, and nothing at all
    - with the metadata output cleared - when the receiver requires metadata
    that is absent or when the metadata is invalid. *)
Theorem frame_announcement_roundtrip frame md fds required :
  frame_ok frame -> metadata_ok md ->
  let '(type, payload) := frameMessage frame md in
  decodeFrame (mkMessage type payload fds) required =
  if md_version md =? 0
  then (if required then None else Some frame, zeroMetadata)
  else if bool_decide (validateMetadata md = FL_OK) then (Some frame, md)
  else (None, zeroMetadata).
Proof.
  intros Hf Hm. unfold frameMessage, truthy.
  destruct (md_version md =? 0); simpl negb; cbn iota.
  - unfold decodeFrame. cbn [mg_type mg_payload].
    rewrite length_encode, Nat.eqb_refl, as_encode by auto with fl.
    by destruct required.
  - unfold decodeFrame. cbn [mg_type mg_payload].
    rewrite length_encode, Nat.eqb_refl, as_encode by auto with fl.
    cbn [fx_metadata fx_frame]. by case_bool_decide.
Qed.

Lemma frame_announcement_roundtrip_witness :
  let f := mkFrameReady 3 0 17 (-1) in
  let m := mkMetadata 1 5 40 0 2 0 0 in
  frame_ok f /\ metadata_ok m
  /\ let '(type, payload) := frameMessage f m in
     decodeFrame (mkMessage type payload []) true =
     if md_version m =? 0
     then (if true then None else Some f, zeroMetadata)
     else if bool_decide (validateMetadata m = FL_OK) then (Some f, m)
     else (None, zeroMetadata).
Proof.
  assert (frame_ok (mkFrameReady 3 0 17 (-1))) as H1 by (unfold frame_ok; simpl; ulia).
  assert (metadata_ok (mkMetadata 1 5 40 0 2 0 0)) as H2 by (unfold metadata_ok; simpl; ulia).
  split; [exact H1|]. split; [exact H2|].
  exact (frame_announcement_roundtrip _ _ [] true H1 H2).
Defined.

(** The test is exact, without overflow: the last byte of the last row lies inside
    the allocation. *)
Lemma planeFits_spec size offset stride rows rowBytes :
  u64 size -> u64 offset -> u64 stride -> u64 rows -> u64 rowBytes ->
  planeFits size offset stride rows rowBytes = true <->
  0 < rows /\ 0 < rowBytes <= stride /\ offset + (rows - 1) * stride + rowBytes <= size.
Proof.
  intros Hs Ho Ht Hr Hb. unfold planeFits.
  destruct (_ || _) eqn:E1.
  { split; [done|]. intros (? & ? & ?).
    assert (0 <= (rows - 1) * stride) by (apply Z.mul_nonneg_nonneg; ulia). ulia. }
  assert (0 < rows /\ 0 < rowBytes <= stride /\ offset <= size) as (Hr0 & Hb0 & Hos) by ulia. clear E1.
  destruct (truthy (rows - 1)) eqn:Er.
  - assert (0 < rows - 1) as Hr1 by ulia. cbn [andb].
    pose proof (Z.div_mod (UINT64_MAX - rowBytes) (rows - 1) ltac:(lia)) as Hdm.
    pose proof (Z.mod_pos_bound (UINT64_MAX - rowBytes) (rows - 1) ltac:(lia)) as Hmb.
    set (q := (UINT64_MAX - rowBytes) / (rows - 1)) in *.
    destruct (q <? stride) eqn:E2.
    + split; [done|]. intros (_ & _ & Hle). exfalso.
      assert ((rows - 1) * (q + 1) <= (rows - 1) * stride) by nia. ulia.
    + assert ((rows - 1) * stride <= (rows - 1) * q) by nia.
      assert (0 <= (rows - 1) * stride) by (apply Z.mul_nonneg_nonneg; ulia).
      rewrite (wrap64_small ((rows - 1) * stride)) by ulia.
      rewrite !wrap64_small by ulia. rewrite Z.leb_le. intuition lia.
  - assert (rows = 1) as -> by ulia. cbn [andb Z.sub Z.add Z.opp Z.pos_sub].
    replace ((1 - 1) * stride) with 0 by lia. rewrite (wrap64_small 0) by ulia.
    rewrite !wrap64_small by ulia. rewrite Z.leb_le. intuition lia.
Qed.

(** A peer is accepted exactly when each side supports what the other requires. *)
Lemma compatible_spec a b :
  u32 a -> u32 b ->
  compatibleFeatures a b = true <->
  mask_incl (Z.shiftr a 16) (Z.land b 0xffff) /\ mask_incl (Z.shiftr b 16) (Z.land a 0xffff).
Proof.
  intros Ha Hb. assert (forall x, u32 x -> u32 (Z.shiftr x 16)) as Hs.
  { intros x Hx. rewrite Z.shiftr_div_pow2 by lia. unfold u32 in *. split.
    - apply Z.div_pos; ulia.
    - apply Z.div_le_upper_bound; ulia. }
  unfold compatibleFeatures, truthy.
  rewrite !negb_involutive, andb_true_iff, !Z.eqb_eq. by rewrite !land_not32_0 by auto.
Qed.

(** Two peers running this code always accept each other; a peer without the
    feature word is accepted unless metadata is required. *)
Lemma features_of_peers f g :
  compatibleFeatures (localFeatures f) (localFeatures g) = true
  /\ compatibleFeatures (localFeatures f) 0 = negb (has_flag f FL_REQUIRE_FRAME_METADATA).
Proof.
  unfold localFeatures. by destruct (has_flag f _), (has_flag g _).
Qed.
