(* ===== verification/SyncFd.v ===== *)
(** * Completion descriptors (src/fl_sync_fd.hpp)

    [fl::SyncFds]: the ready fences of the pending and the held frame and the
    queue of releases waiting for a consumer-side fence.  [fenceReady] is in
    Kernel.v. *)
From S2P Require Import Prelude Kernel.

Record SyncFds := mkSync {
  sy_pending : Z;
  sy_held : Z;
  sy_releases : list (Z * Z);      (* value, fence *)
}.

Definition noSync : SyncFds := mkSync (-1) (-1) [].

Definition set_pending (s : SyncFds) (fd : Z) : SyncFds := mkSync fd (sy_held s) (sy_releases s).
Definition set_held (s : SyncFds) (fd : Z) : SyncFds := mkSync (sy_pending s) fd (sy_releases s).
Definition set_releases (s : SyncFds) (l : list (Z * Z)) : SyncFds :=
  mkSync (sy_pending s) (sy_held s) l.

(** [releases.push_back({value,fd})] *)
Definition push_release (s : SyncFds) (value fd : Z) : SyncFds :=
  set_releases s (sy_releases s ++ [(value, fd)]).

Definition sync_clear (s : SyncFds) : M SyncFds :=
  close_valid (sy_pending s) ;;
  close_valid (sy_held s) ;;
  mfor (map snd (sy_releases s)) close_valid ;;
  ret noSync.

Section Advance.
Context `{K : Kernel}.

Fixpoint advanceLoop (releases : list (Z * Z)) (consumed : Z) : M (list (Z * Z) * Z) :=
  match releases with
  | [] => ret ([], consumed)
  | (value, fd) :: rest =>
    let! ready := fenceReady fd in
    if (ready : bool)
    then close_valid fd ;; advanceLoop rest (if consumed <? value then value else consumed)
    else ret (releases, consumed)
  end.

(** [void advance(uint64_t& consumed)] *)
Definition advance (s : SyncFds) (consumed : Z) : M (SyncFds * Z) :=
  let! (releases, consumed') := advanceLoop (sy_releases s) consumed in
  ret (set_releases s releases, consumed').
End Advance.

(** * Properties *)

(** The greatest of [c] and the release values. *)
Definition max_value (c : Z) (l : list (Z * Z)) : Z := fold_left (fun m r => Z.max m r.1) l c.

Definition valid_fds (l : list (Z * Z)) : list Z := filter (fun fd => 0 <= fd) (map snd l).

Lemma max_value_ge c l : c <= max_value c l.
Proof.
  unfold max_value. revert c. induction l as [|[v fd] l IH]; intros c; simpl; [lia|].
  specialize (IH (Z.max c v)). lia.
Qed.

Lemma max_value_bound c l b :
  c <= b -> Forall (fun r => r.1 <= b) l -> max_value c l <= b.
Proof.
  unfold max_value. intros Hc H. revert c Hc. induction H as [|[v fd] l Hv _ IH]; intros c Hc; simpl; [done|].
  apply IH. simpl in Hv. lia.
Qed.

Section Properties.
Context `{K : Kernel}.

Lemma emits_fenceReady fd (P : bool -> list Effect -> Prop) :
  (forall b, (fd < 0 -> b = true) -> P b []) -> emits (fenceReady fd) P.
Proof.
  intros H. unfold fenceReady. destruct (fd <? 0) eqn:E; emits_auto; apply H; [done|].
  intros. lia.
Qed.

Lemma advanceLoop_emits l c :
  emits (advanceLoop l c) (fun r es =>
    exists popped, l = popped ++ r.1 /\ r.2 = max_value c popped
      /\ closed_of es = rev (valid_fds popped)
      /\ match r.1 with [] => True | (_, fd) :: _ => 0 <= fd end).
Proof.
  revert c. induction l as [|[v fd] l IH]; intros c; cbn [advanceLoop].
  { emits_auto. by exists []. }
  apply emits_bind, emits_fenceReady. intros b Hb. destruct b.
  - apply emits_bind, emits_close_valid. eapply emits_mono; [apply IH|].
    intros r es (popped & -> & Hr & Hc & Hh). exists ((v, fd) :: popped).
    split_and!; [done| | |done].
    + rewrite Hr. unfold max_value. simpl. f_equal. destruct (c <? v) eqn:E; lia.
    + rewrite app_nil_r, closed_of_app, Hc. unfold valid_fds. simpl map.
      rewrite filter_cons. destruct (0 <=? fd) eqn:E.
      * rewrite decide_True by lia. done.
      * rewrite decide_False by lia. by rewrite app_nil_r.
  - apply emits_ret. exists []. split_and!; try done. simpl.
    destruct (decide (fd < 0)); [by specialize (Hb ltac:(lia))|lia].
Qed.

(** [advance] consumes releases strictly in order: it takes a prefix of the
    queue, raises the consumed value to the greatest value taken (never lowering
    it), closes exactly the fences of the releases taken, and stops only at a
    release whose fence is a live descriptor. *)
Theorem sync_advance_prefix s consumed w :
  let '(s', consumed') := (advance s consumed w).1 in
  exists popped,
    sy_releases s = popped ++ sy_releases s'
    /\ consumed' = max_value consumed popped
    /\ closes (advance s consumed) w = valid_fds popped
    /\ sy_pending s' = sy_pending s /\ sy_held s' = sy_held s
    /\ match sy_releases s' with [] => True | (_, fd) :: _ => 0 <= fd end.
Proof.
  assert (emits (advance s consumed) (fun r es =>
    exists popped, sy_releases s = popped ++ sy_releases r.1 /\ r.2 = max_value consumed popped
      /\ closed_of es = rev (valid_fds popped)
      /\ sy_pending r.1 = sy_pending s /\ sy_held r.1 = sy_held s
      /\ match sy_releases r.1 with [] => True | (_, fd) :: _ => 0 <= fd end)) as HE.
  { unfold advance. apply emits_bind. eapply emits_mono; [apply advanceLoop_emits|].
    intros [rel c] es (popped & H1 & H2 & H3 & H4). apply emits_ret. exists popped.
    by split_and!. }
  apply (emits_run _ _ w) in HE. destruct (advance s consumed w).1 as [s' c'] eqn:E.
  destruct HE as (popped & H1 & H2 & H3 & H4 & H5 & H6). exists popped. split_and!; try done.
  unfold closes. by rewrite H3, rev_involutive.
Qed.
End Properties.
