(* ===== verification/Ipc.v ===== *)
(** * The POSIX control channel (src/fl_ipc.h, src/fl_ipc_posix.cpp)

    [Channel] and [Listener] with every method.  A null pointer with a zero size
    is the empty list here, so the null checks of [sendWithFds] are about lists
    and always pass; the optional [busy] output of [connect], which this backend
    always sets to false, is left out.  A moved-from channel is the empty one. *)
From S2P Require Import Prelude Kernel Wire.

Definition kBufferSize : Z := 65536.
Definition kMaxFds : Z := Z.of_nat kMaxPool * 4.
Definition headerSize : Z := 12.
Definition CMSG_LEN0 : Z := 16.       (* CMSG_LEN(0) *)

(** [class Channel]: [handle_] is the descriptor plus one, zero when null. *)
Record Channel := mkChan { handle_ : Z; connected_ : bool; peerPid_ : Z }.

Definition noChannel : Channel := mkChan 0 false 0.

#[export] Instance Channel_eq_dec : EqDecision Channel.
Proof. solve_decision. Defined.

Definition set_connected (ch : Channel) (b : bool) : Channel := mkChan (handle_ ch) b (peerPid_ ch).

Definition connected (ch : Channel) : bool := connected_ ch.

(** [(int)(intptr_t)handle_ - 1] *)
Definition pollFd (ch : Channel) : Z := handle_ ch - 1.

(** [class Listener] *)
Record Listener := mkListener { fd_ : Z }.
Definition noListener : Listener := mkListener (-1).
Definition valid (l : Listener) : bool := 0 <=? fd_ l.

(** [sockaddr_un]: [sun_path] is 108 bytes and follows a 2-byte family. *)
Definition sun_path_size : nat := 108.
Definition sun_path_offset : Z := 2.

(** "framelink." *)
Definition prefixBytes : list Z := [102; 114; 97; 109; 101; 108; 105; 110; 107; 46].

(** The bytes of [addr.sun_path] and the address length. *)
Definition fillAddr (name : list Z) : list Z * Z :=
  let path := prefixBytes ++ name in
  let n := if (length path <? sun_path_size - 1)%nat then length path else (sun_path_size - 2)%nat in
  let sun_path := 0 :: take n path ++ replicate (sun_path_size - 1 - n) 0 in
  (sun_path, sun_path_offset + 1 + Z.of_nat n).

(** The name the kernel sees: the first [len] bytes of the address. *)
Definition socketName (name : list Z) : list Z :=
  let '(sun_path, len) := fillAddr name in take (Z.to_nat (len - sun_path_offset)) sun_path.

Section Methods.
Context `{K : Kernel}.

(** [void Channel::close()], also the destructor *)
Definition chan_close (ch : Channel) : M Channel :=
  (if truthy (handle_ ch) then close (handle_ ch - 1) else ret tt) ;;
  ret (mkChan 0 false (peerPid_ ch)).

(** [ch = std::move(o)]: the new [ch]; [o] becomes empty. *)
Definition chan_move (ch o : Channel) : M Channel :=
  let! _ := chan_close ch in ret o.

Definition lst_close (l : Listener) : M Listener :=
  close_valid (fd_ l) ;; ret (mkListener (-1)).

Definition lst_create (name : list Z) : M Listener :=
  let! srv := opened (ask k_socket) in
  return_if! srv <? 0 with ret noListener ;;
  let '(addr, len) := fillAddr name in
  effect (EBind srv (take (Z.to_nat (len - sun_path_offset)) addr)) ;;
  let! bound := ask (fun t => k_bind t srv) in
  return_if! bound <? 0 with (close srv ;; ret noListener) ;;
  effect (EListen srv 4) ;;
  let! listening := ask (fun t => k_listen t srv) in
  return_if! listening <? 0 with (close srv ;; ret noListener) ;;
  ret (mkListener srv).

Definition lst_accept (l : Listener) : M Channel :=
  return_if! fd_ l <? 0 with ret noChannel ;;
  let! fd := opened (ask (fun t => k_accept t (fd_ l))) in
  return_if! fd <? 0 with ret noChannel ;;
  let! pid := ask (fun t => k_peercred t fd) in
  ret (mkChan (fd + 1) true (default 0 pid)).

Definition chan_listen (name : list Z) : M Channel :=
  let! lst := lst_create name in
  return_if! negb (valid lst) with ret noChannel ;;
  let! ch := lst_accept lst in
  let! _ := lst_close lst in
  ret ch.

(** The [for] loop of [connect]; [None] is running out of fuel. *)
Fixpoint connectLoop (fuel : nat) (addr : list Z) (timeoutMs waited : Z) : M (option Channel) :=
  match fuel with
  | O => ret None
  | S fuel' =>
    let! fd := opened (ask k_socket) in
    return_if! fd <? 0 with ret (Some noChannel) ;;
    let! result := ask (fun t => k_connect t fd addr) in
    return_if! result =? 0 with ret (Some (mkChan (fd + 1) true 0)) ;;
    close fd ;;
    return_if! timeoutMs <=? waited with ret (Some noChannel) ;;
    usleep (25 * 1000) ;;
    connectLoop fuel' addr timeoutMs (wrap32 (waited + 25))
  end.

Definition connectFuel (timeoutMs : Z) : nat := S (S (Z.to_nat (timeoutMs / 25))).

Definition connect (name : list Z) (timeoutMs : Z) : M Channel :=
  let! r := connectLoop (connectFuel timeoutMs) (socketName name) timeoutMs 0 in
  ret (default noChannel r).

(** The checks and setup of [adoptConnectedFd], without the ownership guard. *)
Definition adoptSetup (fd timeoutMs : Z) : M (option Channel) :=
  return_if! (fd <? 0) || negb (truthy timeoutMs) || (60000 <? timeoutMs) with ret None ;;
  let! type := ask (fun t => k_socktype t fd) in
  return_if! negb (bool_decide (type = Some SOCK_SEQPACKET)) with ret None ;;
  let! family := ask (fun t => k_peerfamily t fd) in
  return_if! negb (bool_decide (family = Some AF_UNIX)) with ret None ;;
  let! flags := ask (fun t => k_getfd t fd) in
  let! status := ask (fun t => k_getfl t fd) in
  return_if! (flags <? 0) || (status <? 0) with ret None ;;
  effect (ESetFd fd (Z.lor flags FD_CLOEXEC)) ;;
  let! r1 := ask (fun t => k_setfd t fd) in
  return_if! r1 <? 0 with ret None ;;
  effect (ESetStatus fd (Z.land status (Z.lnot O_NONBLOCK))) ;;
  let! r2 := ask (fun t => k_setfl t fd) in
  return_if! r2 <? 0 with ret None ;;
  effect (ETimeout fd timeoutMs) ;;
  let! r3 := ask (fun t => k_settimeout t fd) in
  return_if! truthy r3 with ret None ;;
  effect (ETimeout fd timeoutMs) ;;
  let! r4 := ask (fun t => k_settimeout t fd) in
  return_if! truthy r4 with ret None ;;
  let! pid := ask (fun t => k_peercred t fd) in
  ret (Some (mkChan (fd + 1) true (default 0 pid))).

(** [Channel::adoptConnectedFd]; [Owned] closes the descriptor on the way out
    unless it was disarmed. *)
Definition adoptConnectedFd (fd timeoutMs : Z) : M Channel :=
  let! r := adoptSetup fd timeoutMs in
  match r with
  | Some ch => ret ch
  | None => close_valid fd ;; ret noChannel
  end.

Definition sendWithFds (ch : Channel) (type : Z) (payload fds : list Z) : M (bool * Channel) :=
  return_if! negb (connected_ ch) || (kMaxFds <? Z.of_nat (length fds)) with ret (false, ch) ;;
  return_if! kBufferSize - headerSize <? Z.of_nat (length payload) with ret (false, ch) ;;
  let buf := encode (mkHeader kMagic type (wrap32 (Z.of_nat (length payload)))) ++ payload in
  let! n := ask (fun t => k_sendmsg t (pollFd ch)) in
  effect (ESend (pollFd ch) buf fds n) ;;
  return_if! n <? 0 with ret (false, set_connected ch false) ;;
  ret (n =? headerSize + Z.of_nat (length payload), ch).

Definition send (ch : Channel) (type : Z) (payload : list Z) : M (bool * Channel) :=
  sendWithFds ch type payload [].

(** The SCM_RIGHTS descriptors among the control messages. *)
Definition rightsOf (c : Cmsg) : list Z :=
  if negb (cm_level c =? SOL_SOCKET) || negb (cm_type c =? SCM_RIGHTS) || (cm_len c <? CMSG_LEN0)
  then []
  else take (Z.to_nat ((cm_len c - CMSG_LEN0) / 4)) (cm_data c).

Definition collectFds (r : Received) : list Z :=
  if rv_n r <? 0 then [] else concat (map rightsOf (rv_cmsgs r)).

(** The validation and parsing of [recv], once the descriptors are collected. *)
Definition parseDatagram (r : Received) (fds : list Z) : option Message :=
  return_if (rv_n r <=? 0) || (rv_n r <? headerSize)
         || truthy (Z.land (rv_flags r) (Z.lor MSG_TRUNC MSG_CTRUNC))
         || (kMaxFds <? Z.of_nat (length fds)) with None ;;
  let hdr := decode (T := MsgHeader) (rv_buf r) in
  return_if negb (hd_magic hdr =? kMagic) || (rv_n r - headerSize <? hd_payloadSize hdr) with None ;;
  Some (mkMessage (hd_type hdr)
          (take (Z.to_nat (hd_payloadSize hdr)) (drop (Z.to_nat headerSize) (rv_buf r))) fds).

Definition recv (ch : Channel) : M (option Message * Channel) :=
  return_if! negb (connected_ ch) with ret (None, ch) ;;
  let! r := ask (fun t => k_recvmsg t (pollFd ch)) in
  let fds := collectFds r in
  match parseDatagram r fds with
  | Some out => ret (Some out, ch)
  | None => mfor fds close ;; ret (None, set_connected ch false)
  end.

(** [inline bool sendFrame(...)] of fl_metadata.hpp *)
Definition sendFrame (link : Channel) (frame : FrameReadyMsg) (metadata : Api.flFrameMetadata)
  (fence : Z) : M (bool * Channel) :=
  let '(type, data) := frameMessage frame metadata in
  sendWithFds link type data (if 0 <=? fence then [fence] else []).
End Methods.

(** * Properties *)

Lemma map_rev_closes l : closed_of (rev (map EClose l)) = rev l.
Proof. by rewrite <- map_rev, closed_of_closes. Qed.

Section Properties.
Context `{K : Kernel}.

Lemma header_valid type n :
  u32 type -> u32 n -> struct_valid (mkHeader kMagic type n).
Proof.
  intros Ht Hn. split; [|done]. simpl.
  repeat (constructor; [apply fits4; done || (unfold kMagic; ulia)|]). constructor.
Qed.

(** The bytes on the wire. *)
Definition datagram (type : Z) (payload : list Z) : list Z :=
  encode (mkHeader kMagic type (wrap32 (Z.of_nat (length payload)))) ++ payload.

Lemma length_datagram type payload :
  u32 type -> Z.of_nat (length (datagram type payload)) = headerSize + Z.of_nat (length payload).
Proof.
  intros Ht. unfold datagram. rewrite length_app, length_encode.
  - change (sizeof MsgHeader) with 12%nat. unfold headerSize. lia.
  - apply header_valid; [done|apply wrap32_u32].
Qed.

(** Parsing what was sent. *)
Lemma parse_datagram type payload fds tail r :
  u32 type -> Z.of_nat (length payload) <= kBufferSize - headerSize ->
  Z.of_nat (length fds) <= kMaxFds ->
  rv_buf r = datagram type payload ++ tail -> rv_n r = Z.of_nat (length (datagram type payload)) ->
  Z.land (rv_flags r) (Z.lor MSG_TRUNC MSG_CTRUNC) = 0 ->
  parseDatagram r fds = Some (mkMessage type payload fds).
Proof.
  intros Ht Hp Hf Hbuf Hrn Hfl. rewrite length_datagram in Hrn by done.
  unfold kBufferSize, headerSize in *.
  set (hdr := mkHeader kMagic type (wrap32 (Z.of_nat (length payload)))).
  assert (struct_valid hdr) as Hv by (apply header_valid; [done|apply wrap32_u32]).
  assert (length (encode hdr) = 12%nat) as Hl by (by rewrite length_encode).
  unfold parseDatagram, headerSize, datagram in *. fold hdr in Hbuf.
  rewrite Hrn, Hfl, Hbuf, <- app_assoc, (decode_encode hdr) by done.
  cbn [hd_magic hd_payloadSize hd_type hdr]. rewrite wrap32_small by ulia. rewrite Z.eqb_refl.
  replace (12 + Z.of_nat (length payload) <=? 0) with false by lia.
  replace (12 + Z.of_nat (length payload) <? 12) with false by lia.
  replace (kMaxFds <? Z.of_nat (length fds)) with false by lia.
  replace (12 + Z.of_nat (length payload) - 12 <? Z.of_nat (length payload)) with false by lia.
  change (truthy 0) with false. cbn [orb negb]. cbn iota. f_equal. f_equal.
  change (Z.to_nat 12) with 12%nat. rewrite <- Hl, drop_app_length, Nat2Z.id.
  apply take_app_length.
Qed.

(** C38: A datagram [sendWithFds] sends in full is the message the receiver
    parses from it: same type, same payload, with the descriptors the kernel
    installed - whatever follows it in the receiver's buffer. *)
Theorem ipc_message_roundtrip ch type payload fds w :
  connected_ ch = true -> u32 type ->
  Z.of_nat (length payload) <= kBufferSize - headerSize ->
  Z.of_nat (length fds) <= kMaxFds ->
  k_sendmsg (w_tick w) (pollFd ch) = headerSize + Z.of_nat (length payload) ->
  exists bytes,
    (sendWithFds ch type payload fds w).1 = (true, ch)
    /\ w_log (sendWithFds ch type payload fds w).2
       = ESend (pollFd ch) bytes fds (Z.of_nat (length bytes)) :: w_log w
    /\ forall r fds' tail,
         rv_buf r = bytes ++ tail -> rv_n r = Z.of_nat (length bytes) ->
         Z.land (rv_flags r) (Z.lor MSG_TRUNC MSG_CTRUNC) = 0 ->
         Z.of_nat (length fds') <= kMaxFds ->
         parseDatagram r fds' = Some (mkMessage type payload fds').
Proof.
  intros Hc Ht Hp Hf Hn. exists (datagram type payload).
  pose proof (length_datagram type payload Ht) as Hlen.
  split_and!; [| |intros r fds' tail; intros; by apply (parse_datagram _ _ _ tail)].
  all: unfold sendWithFds; rewrite Hc; cbn [negb orb]; unfold kBufferSize, headerSize in *;
    replace (kMaxFds <? Z.of_nat (length fds)) with false by lia;
    replace (65536 - 12 <? Z.of_nat (length payload)) with false by lia;
    rewrite !bind_run; cbn [ask fst snd effect w_tick w_log]; rewrite Hn;
    replace (12 + Z.of_nat (length payload) <? 0) with false by lia.
  - by rewrite Z.eqb_refl.
  - rewrite Hlen. done.
Qed.

(** [recv] never leaks a descriptor: on a connected channel, whatever the
    kernel delivers, either the message is returned and carries every
    descriptor installed with it while nothing was closed, or every one of them
    is closed exactly once, in order, and the channel is disconnected. *)
Theorem ipc_recv_no_leak ch w :
  connected_ ch = true ->
  let installed := collectFds (k_recvmsg (w_tick w) (pollFd ch)) in
  match (recv ch w).1 with
  | (Some m, ch') => mg_fds m = installed /\ closes (recv ch) w = [] /\ ch' = ch
  | (None, ch') => closes (recv ch) w = installed /\ connected_ ch' = false
  end.
Proof.
  intros Hc installed.
  assert (exists r ch' es, (recv ch w).1 = (r, ch') /\ w_log (recv ch w).2 = es ++ w_log w
    /\ match r with
       | Some m => mg_fds m = installed /\ es = [] /\ ch' = ch
       | None => es = rev (map EClose installed) /\ connected_ ch' = false
       end) as (r & ch' & es & H1 & H2 & H3).
  { unfold recv. rewrite Hc. cbn [negb]. rewrite bind_run. cbn [ask fst snd]. fold installed.
    destruct (parseDatagram _ installed) as [m|] eqn:Ep.
    - exists (Some m), ch, []. split_and!; try done. unfold parseDatagram in Ep.
      repeat case_match; simplify_eq; done.
    - exists None, (set_connected ch false), (rev (map EClose installed)).
      rewrite bind_run. destruct (mfor_close_log installed (mkWorld (S (w_tick w)) (w_log w))) as [_ Hl].
      split_and!; try done. }
  rewrite H1. pose proof (closes_log (recv ch) w es H2) as Hcl.
  destruct r as [m|].
  - destruct H3 as (? & -> & ->). by rewrite Hcl.
  - destruct H3 as [-> ?]. rewrite Hcl. split; [|done].
    rewrite map_rev_closes. by rewrite rev_involutive.
Qed.

Lemma adoptSetup_emits fd t :
  emits (adoptSetup fd t) (fun r es => closed_of es = []
    /\ forall ch, r = Some ch -> connected_ ch = true /\ handle_ ch = fd + 1).
Proof.
  unfold adoptSetup. emits_auto; (split; [reflexivity|]); intros ch [= <-]; done.
Qed.

(** [adoptConnectedFd] owns its descriptor on every path: it either
    returns a connected channel that holds it, having closed nothing, or
    returns an empty channel having closed it exactly once. *)
Theorem ipc_adopt_owns fd timeoutMs w :
  0 <= fd ->
  let ch := (adoptConnectedFd fd timeoutMs w).1 in
  (connected_ ch = true /\ pollFd ch = fd /\ closes (adoptConnectedFd fd timeoutMs) w = [])
  \/ (ch = noChannel /\ closes (adoptConnectedFd fd timeoutMs) w = [fd]).
Proof.
  intros Hfd. assert (emits (adoptConnectedFd fd timeoutMs) (fun ch es =>
    (connected_ ch = true /\ pollFd ch = fd /\ closed_of es = [])
    \/ (ch = noChannel /\ closed_of es = [fd]))) as HE.
  { unfold adoptConnectedFd. apply emits_bind.
    apply (emits_mono _ _ _ (adoptSetup_emits fd timeoutMs)). intros r es [Hc Hr].
    destruct r as [ch|].
    - apply emits_ret. left. destruct (Hr ch eq_refl) as [? Hh]. unfold pollFd. rewrite Hh.
      simpl. split_and!; [done|lia|done].
    - emits_auto. right. split; [done|]. replace (0 <=? fd) with true by lia.
      by rewrite !closed_of_app, Hc. }
  simpl. apply (emits_run _ _ w) in HE as [(? & ? & HE)|(? & HE)]; [left|right];
    unfold closes; by rewrite HE.
Qed.

(** [connect] always comes back: within [timeoutMs / 25 + 2] attempts the
    loop has returned, for every timeout a caller can pass short of the last 25
    values, where the 32-bit wait counter would wrap. *)
Theorem ipc_connect_terminates addr timeoutMs w :
  0 <= timeoutMs <= UINT32_MAX - 25 ->
  exists ch, (connectLoop (connectFuel timeoutMs) addr timeoutMs 0 w).1 = Some ch.
Proof.
  intros Ht.
  assert (forall fuel waited w, 0 <= waited -> (waited <= timeoutMs + 25) ->
    timeoutMs < waited + 25 * (Z.of_nat fuel - 1) ->
    exists ch, (connectLoop fuel addr timeoutMs waited w).1 = Some ch) as HL.
  { clear w. induction fuel as [|fuel IH]; intros waited w H0 H1 H2; [lia|].
    cbn [connectLoop]. rewrite bind_run. cbn [ask fst snd].
    destruct (_ <? 0); [eexists; reflexivity|]. rewrite bind_run. cbn [ask fst snd].
    destruct (_ =? 0); [eexists; reflexivity|]. rewrite bind_run.
    destruct (timeoutMs <=? waited) eqn:E; [eexists; reflexivity|]. rewrite bind_run.
    apply IH; rewrite wrap32_small by ulia; lia. }
  apply HL; [lia|lia|]. unfold connectFuel.
  pose proof (Z.div_mod timeoutMs 25 ltac:(lia)). pose proof (Z.mod_pos_bound timeoutMs 25).
  pose proof (Z.div_pos timeoutMs 25). lia.
Qed.
End Properties.

(** ** Witnesses *)

Definition exampleKernel : Kernel :=
  scripted (fun _ _ => (1, POLLIN)) (fun _ _ => 15) (fun _ _ => mkReceived 0 [] [] 0).

Definition exampleChannel : Channel := mkChan 8 true 42.

Lemma ipc_message_roundtrip_witness :
  let K := exampleKernel in
  (connected_ exampleChannel = true /\ u32 3 /\ Z.of_nat (length [7; 8; 9]) <= kBufferSize - headerSize
   /\ Z.of_nat (length [11]) <= kMaxFds
   /\ k_sendmsg (w_tick start) (pollFd exampleChannel) = headerSize + Z.of_nat (length [7; 8; 9]))
  /\ exists bytes,
      (sendWithFds exampleChannel 3 [7; 8; 9] [11] start).1 = (true, exampleChannel)
      /\ w_log (sendWithFds exampleChannel 3 [7; 8; 9] [11] start).2
         = ESend (pollFd exampleChannel) bytes [11] (Z.of_nat (length bytes)) :: w_log start
      /\ forall r fds' tail,
           rv_buf r = bytes ++ tail -> rv_n r = Z.of_nat (length bytes) ->
           Z.land (rv_flags r) (Z.lor MSG_TRUNC MSG_CTRUNC) = 0 ->
           Z.of_nat (length fds') <= kMaxFds ->
           parseDatagram r fds' = Some (mkMessage 3 [7; 8; 9] fds').
Proof.
  intros K.
  assert (u32 3) as H1 by ulia.
  assert (Z.of_nat (length [7; 8; 9]) <= kBufferSize - headerSize) as H2 by (vm_compute; discriminate).
  assert (Z.of_nat (length [11]) <= kMaxFds) as H3 by (vm_compute; discriminate).
  split; [split_and!; done|].
  exact (ipc_message_roundtrip exampleChannel 3 [7; 8; 9] [11] start eq_refl H1 H2 H3 eq_refl).
Defined.

Lemma ipc_recv_no_leak_witness :
  let K := exampleKernel in
  connected_ exampleChannel = true /\
  let installed := collectFds (k_recvmsg (w_tick start) (pollFd exampleChannel)) in
  match (recv exampleChannel start).1 with
  | (Some m, ch') => mg_fds m = installed /\ closes (recv exampleChannel) start = [] /\ ch' = exampleChannel
  | (None, ch') => closes (recv exampleChannel) start = installed /\ connected_ ch' = false
  end.
Proof. intros K. split; [reflexivity|]. exact (ipc_recv_no_leak exampleChannel start eq_refl). Defined.

Lemma ipc_adopt_owns_witness :
  let K := exampleKernel in
  0 <= 5 /\
  let ch := (adoptConnectedFd 5 1000 start).1 in
  (connected_ ch = true /\ pollFd ch = 5 /\ closes (adoptConnectedFd 5 1000) start = [])
  \/ (ch = noChannel /\ closes (adoptConnectedFd 5 1000) start = [5]).
Proof. intros K. split; [lia|]. apply (ipc_adopt_owns 5 1000 start). lia. Defined.

Lemma ipc_connect_terminates_witness :
  let K := exampleKernel in
  0 <= 300 <= UINT32_MAX - 25 /\
  exists ch, (connectLoop (connectFuel 300) [0; 97] 300 0 start).1 = Some ch.
Proof. intros K. split; [ulia|]. apply (ipc_connect_terminates [0; 97] 300 start). ulia. Defined.
