(* ===== verification/IpcResources.v ===== *)
(** * Who owns the descriptors of the control channel

    What a [Channel], a [Listener] and a queue of fences own, and what the
    operations of fl_ipc_posix.cpp and fl_sync_fd.hpp do to it - shared by the two
    backends that speak over sockets. *)
From stdpp Require Import sorting.
From S2P Require Import Prelude Api Kernel Resources Wire SyncFd Ipc.

Definition owned_link (ch : Channel) : list Res :=
  if truthy (handle_ ch) then [RFd (handle_ ch - 1)] else [].
Definition owned_sync (s : SyncFds) : list Res :=
  fd_res [sy_pending s] ++ fd_res [sy_held s] ++ fd_res (map snd (sy_releases s)).

Section Rules.
Context `{K : Kernel}.

Lemma chan_close_moves ch a :
  moves (owned_link ch ++ a) (chan_close ch) (fun _ => a) (fun _ => True).
Proof.
  unfold chan_close, owned_link. eapply moves_bind with (b := fun _ => a) (Q := fun _ => True).
  - destruct (truthy _); [by apply moves_close|by apply moves_ret].
  - intros [] _. by apply moves_ret.
Qed.

Lemma sync_clear_moves s a :
  moves (owned_sync s ++ a) (sync_clear s) (fun _ => a) (fun x => x = noSync).
Proof.
  unfold sync_clear, owned_sync. rewrite <- !app_assoc.
  eapply moves_bind; [by apply (moves_close_valid _ _ (fun _ => True))|]. intros [] _.
  eapply moves_bind; [by apply (moves_close_valid _ _ (fun _ => True))|]. intros [] _.
  eapply moves_bind; [by apply (moves_closes _ _ (fun _ => True))|]. intros [] _. by apply moves_ret.
Qed.

Lemma fd_res_rev l : fd_res (rev l) ≡ₚ fd_res l.
Proof. unfold fd_res. apply Permutation_map. by rewrite <- Permutation_rev. Qed.

(** ** The poke and the farewell *)

Lemma connect_moves name timeoutMs a :
  moves a (connect name timeoutMs) (fun ch => owned_link ch ++ a) (fun _ => True).
Proof.
  unfold connect. generalize (connectFuel timeoutMs), (socketName name), 0. intros fuel addr waited.
  eapply moves_bind with (b := fun r => owned_link (default noChannel r) ++ a) (Q := fun _ => True);
    [|by intros r _; apply moves_ret].
  revert waited. induction fuel as [|fuel IH]; intros waited; cbn [connectLoop]; [by apply moves_ret|].
  eapply moves_bind; [by apply (moves_opened _ _ (fun _ => True))|]. intros fd _. cbv beta.
  destruct (fd <? 0) eqn:E; [rewrite fd_res_0 by lia; by apply moves_ret|]. rewrite fd_res_1 by lia.
  eapply moves_bind; [by apply (moves_ask _ _ (fun _ => True))|]. intros r _.
  destruct (r =? 0).
  { apply moves_ret; [|done]. unfold owned_link. simpl. replace (truthy (fd + 1)) with true by
      (symmetry; apply truthy_true; lia). by replace (fd + 1 - 1) with fd by lia. }
  eapply moves_bind; [by apply (moves_close _ _ (fun _ => True))|]. intros [] _.
  destruct (timeoutMs <=? waited); [by apply moves_ret|].
  eapply moves_bind; [by apply (moves_effect _ _ (fun _ => True))|]. intros [] _. apply IH.
Qed.

Lemma send_moves ch type payload a :
  moves a (send ch type payload) (fun _ => a) (fun _ => True).
Proof.
  unfold send, sendWithFds. destruct (_ || _); [by apply moves_ret|]. destruct (_ <? _); [by apply moves_ret|].
  eapply moves_bind; [by apply (moves_ask _ _ (fun _ => True))|]. intros n _.
  eapply moves_bind; [by apply (moves_effect _ _ (fun _ => True))|]. intros [] _.
  destruct (n <? 0); by apply moves_ret.
Qed.

Lemma owned_noChannel : owned_link noChannel = [].
Proof. done. Qed.

(** A delegated descriptor is in the channel or closed. *)
Lemma adoptConnectedFd_moves fd timeoutMs a :
  moves (fd_res [fd] ++ a) (adoptConnectedFd fd timeoutMs) (fun ch => owned_link ch ++ a)
    (fun ch => connected ch = false -> ch = noChannel).
Proof.
  unfold adoptConnectedFd. eapply moves_bind with (b := fun _ => fd_res [fd] ++ a)
    (Q := fun r => match r with Some ch => 0 <= fd /\ handle_ ch = fd + 1 /\ connected ch = true | None => True end).
  - unfold adoptSetup. destruct (_ || _) eqn:E; [by apply moves_ret|]. bools.
    do 2 (eapply moves_bind; [by apply (moves_ask _ _ (fun _ => True))|]; intros ? _;
          destruct (negb _); [by apply moves_ret|]).
    do 2 (eapply moves_bind; [by apply (moves_ask _ _ (fun _ => True))|]; intros ? _).
    destruct (_ || _); [by apply moves_ret|].
    do 4 (eapply moves_bind; [by apply (moves_effect _ _ (fun _ => True))|]; intros [] _;
          eapply moves_bind; [by apply (moves_ask _ _ (fun _ => True))|]; intros ? _;
          match goal with |- context [if ?b then ret None else _] => destruct b end; [by apply moves_ret|]).
    eapply moves_bind; [by apply (moves_ask _ _ (fun _ => True))|]. intros pid _. apply moves_ret; [done|].
    cbn. split_and!; (done || lia).
  - intros [ch|] H; [|eapply moves_bind; [by apply (moves_close_valid _ _ (fun _ => True))|];
      intros [] _; by apply moves_ret].
    destruct H as (Hfd & Hh & Hc). apply moves_ret; [|congruence]. unfold owned_link. rewrite Hh, fd_res_1 by lia.
    replace (truthy (fd + 1)) with true by (symmetry; apply truthy_true; lia).
    by replace (fd + 1 - 1) with fd by lia.
Qed.
End Rules.
