(* ===== verification/LinuxImage.v ===== *)
(** * Images of the Linux backend (src/framelink_linux.cpp)

    [flImage]: a DMA-BUF with up to four planes, its CPU mapping, and the
    operations on it - mapping with the bounds check, unmapping, freeing.

    [DMA_BUF_IOCTL_SYNC] is retried while it is interrupted; the model allows
    [eintrBound] interruptions in a row. *)
From S2P Require Import Prelude Api Kernel Wire.

Definition DRM_FORMAT_ARGB8888 : Z := 0x34325241.
Definition DRM_FORMAT_NV12 : Z := 0x3231564e.
Definition DRM_FORMAT_ABGR8888 : Z := 0x34324241.
Definition DRM_FORMAT_ABGR2101010 : Z := 0x30334241.
Definition DRM_FORMAT_MOD_LINEAR : Z := 0.
Definition DRM_FORMAT_MOD_INVALID : Z := 0x00ffffffffffffff.
Definition GBM_BO_USE_RENDERING : Z := 4.
Definition GBM_BO_USE_LINEAR : Z := 16.
Definition DMA_BUF_SYNC_RW : Z := 3.
Definition DMA_BUF_SYNC_START : Z := 0.
Definition DMA_BUF_SYNC_END : Z := 4.

(** [struct flDmabuf] of framelink_dmabuf.h *)
Record flDmabuf := mkDmabuf {
  db_fd : list Z;          (* 4 *)
  db_offset : list Z;
  db_stride : list Z;
  db_planes : Z;
  db_fourcc : Z;
  db_modifier : Z;
}.

Definition zeroDmabuf : flDmabuf := mkDmabuf [0;0;0;0] [0;0;0;0] [0;0;0;0] 0 0 0.

(** [struct flImage] *)
Record flImage := mkImage {
  im_bo : Z;
  im_desc : flDmabuf;
  im_width : Z;
  im_height : Z;
  im_allocationUsageKnown : bool;
  im_allocationUsage : Z;
  im_planeMaps : list Z;       (* 4; 0 is null *)
  im_planeLengths : list Z;    (* 4 *)
  im_planeView : flMappedImage;
}.

Definition newImage : flImage :=
  mkImage 0 zeroDmabuf 0 0 false 0 [0;0;0;0] [0;0;0;0] zeroMapped.

Definition at_ (l : list Z) (p : nat) : Z := nth p l 0.

Definition fdAt (i : flImage) (p : nat) : Z := at_ (db_fd (im_desc i)) p.

Definition set_maps (i : flImage) (maps lens : list Z) (view : flMappedImage) : flImage :=
  mkImage (im_bo i) (im_desc i) (im_width i) (im_height i) (im_allocationUsageKnown i)
    (im_allocationUsage i) maps lens view.

Definition set_desc (i : flImage) (d : flDmabuf) : flImage :=
  mkImage (im_bo i) d (im_width i) (im_height i) (im_allocationUsageKnown i)
    (im_allocationUsage i) (im_planeMaps i) (im_planeLengths i) (im_planeView i).

Definition set_bo (i : flImage) (bo : Z) : flImage :=
  mkImage bo (im_desc i) (im_width i) (im_height i) (im_allocationUsageKnown i)
    (im_allocationUsage i) (im_planeMaps i) (im_planeLengths i) (im_planeView i).

Definition fourccFor (f : Z) : Z :=
  if f =? FL_FORMAT_BGRA8 then DRM_FORMAT_ARGB8888
  else if f =? FL_FORMAT_NV12 then DRM_FORMAT_NV12
  else if f =? FL_FORMAT_RGBA8 then DRM_FORMAT_ABGR8888
  else if f =? FL_FORMAT_RGB10A2 then DRM_FORMAT_ABGR2101010
  else 0.

Definition eintrBound : nat := 64.

Section Mapping.
Context `{K : Kernel}.

(** [do { result = ioctl(...); } while (result < 0 && errno == EINTR);] *)
Fixpoint dmaSync (fuel : nat) (fd flags : Z) : M Z :=
  match fuel with
  | O => ret (-1)
  | S fuel' =>
    effect (EDmaSync fd flags) ;;
    let! result := ask (fun t => k_ioctl_sync t fd flags) in
    let! e := errno in
    if (result <? 0) && (e =? EINTR) then dmaSync fuel' fd flags else ret result
  end.

(** One plane of [flImageUnmap]. *)
Definition unmapPlane (p : nat) (img : flImage) : M flImage :=
  if truthy (at_ (im_planeMaps img) p)
  then
    let! _ := dmaSync eintrBound (fdAt img p) (Z.lor DMA_BUF_SYNC_END DMA_BUF_SYNC_RW) in
    effect (EMunmap (at_ (im_planeMaps img) p) (at_ (im_planeLengths img) p)) ;;
    ret (set_maps img (<[p := 0]> (im_planeMaps img)) (<[p := 0]> (im_planeLengths img))
           (im_planeView img))
  else ret img.

Definition flImageUnmap (img : flImage) : M flImage :=
  let! img' := mfold (seq 0 4) unmapPlane img in
  ret (set_maps img' (im_planeMaps img') (im_planeLengths img') zeroMapped).

(** [freeImage(img)]; [addr] is the object's address. *)
Definition freeImage (addr : Z) (img : flImage) : M unit :=
  let! img := flImageUnmap img in
  mfor (take (Z.to_nat (db_planes (im_desc img))) (db_fd (im_desc img))) close_valid ;;
  (if truthy (im_bo img) then effect (EBoDestroy (im_bo img)) else ret tt) ;;
  effect (EFree addr).

(** One plane of [flImageMapPlanes]; [inr] is its failing return. *)
Definition mapPlane (planes : Z) (p : nat) (img : flImage) : M (flImage + (flResult * flImage)) :=
  let rows := if Nat.eqb p 0 then im_height img else im_height img / 2 in
  let bytes := if planes =? 2 then im_width img else wrap32 (im_width img * 4) in
  let! st := fstat (fdAt img p) in
  let bad := match st with
             | None => true
             | Some st =>
               (st_size st <=? 0)
               || negb (planeFits (st_size st) (at_ (db_offset (im_desc img)) p)
                          (at_ (db_stride (im_desc img)) p) rows bytes)
             end in
  return_if! bad with (let! img := flImageUnmap img in ret (inr (FL_INVALID, img))) ;;
  let len := match st with Some st => st_size st | None => 0 end in
  let! base := ask (fun t => k_mmap t (fdAt img p)) in
  return_if! base =? -1 with
    (let! img := flImageUnmap img in ret (inr (FL_FORMAT_UNSUPPORTED, img))) ;;
  effect (EMmap base len) ;;
  let! result := dmaSync eintrBound (fdAt img p) (Z.lor DMA_BUF_SYNC_START DMA_BUF_SYNC_RW) in
  return_if! result <? 0 with
    (effect (EMunmap base len) ;;
     let! img := flImageUnmap img in ret (inr (FL_INTERNAL, img))) ;;
  let view := im_planeView img in
  ret (inl (set_maps img (<[p := base]> (im_planeMaps img)) (<[p := len]> (im_planeLengths img))
    (mkMapped (mi_planes view)
       (<[p := mkPlane (base + at_ (db_offset (im_desc img)) p) (at_ (db_stride (im_desc img)) p)
                 bytes rows]> (mi_plane view))))).

(** [flImageMapPlanes(img, out)]: the result, the output, the image. *)
Definition flImageMapPlanes (img : flImage) : M (flResult * flMappedImage * flImage) :=
  return_if! negb (db_modifier (im_desc img) =? DRM_FORMAT_MOD_LINEAR)
    with ret (FL_FORMAT_UNSUPPORTED, zeroMapped, img) ;;
  return_if! truthy (mi_planes (im_planeView img)) with ret (FL_OK, im_planeView img, img) ;;
  let planes := if db_fourcc (im_desc img) =? DRM_FORMAT_NV12 then 2 else 1 in
  let! r := mloop (seq 0 (Z.to_nat planes)) (mapPlane planes) img in
  match r with
  | inr (result, img) => ret (result, zeroMapped, img)
  | inl img =>
    let view := mkMapped planes (mi_plane (im_planeView img)) in
    ret (FL_OK, view, set_maps img (im_planeMaps img) (im_planeLengths img) view)
  end.

(** [flImageMap(img, pixels, stride)]: the result, the two outputs, the image. *)
Definition flImageMap (img : flImage) (stride : Z) : M (flResult * Z * Z * flImage) :=
  return_if! db_fourcc (im_desc img) =? DRM_FORMAT_NV12
    with ret (FL_FORMAT_UNSUPPORTED, 0, stride, img) ;;
  let! (r, view, img) := flImageMapPlanes img in
  let plane := nth 0 (mi_plane view) zeroPlane in
  if bool_decide (r = FL_OK) then ret (r, mp_pixels plane, mp_stride plane, img)
  else ret (r, 0, stride, img).
End Mapping.
