(* ===== verification/LinuxMapping.v ===== *)
(** * CPU mappings of an image

    What [flImageMapPlanes] promises its caller and what it leaves behind when it
    refuses: every row of the view it returns lies inside a mapping the image
    owns, and no mapping outlives a failure. *)
From stdpp Require Import sorting.
From S2P Require Import Prelude Api Kernel Wire LinuxImage.

(** The mappings made and removed, as (address, length). *)
Definition mapped_of (es : list Effect) : list (Z * Z) :=
  omap (fun e => match e with EMmap b l => Some (b, l) | _ => None end) es.
Definition unmapped_of (es : list Effect) : list (Z * Z) :=
  omap (fun e => match e with EMunmap b l => Some (b, l) | _ => None end) es.

Lemma mapped_app l l' : mapped_of (l ++ l') = mapped_of l ++ mapped_of l'.
Proof. apply omap_app. Qed.
Lemma unmapped_app l l' : unmapped_of (l ++ l') = unmapped_of l ++ unmapped_of l'.
Proof. apply omap_app. Qed.

(** The mappings [img] holds. *)
Definition live_maps (img : flImage) : list (Z * Z) :=
  filter (fun m => m.1 <> 0) (zip (im_planeMaps img) (im_planeLengths img)).

Definition image_wf (img : flImage) : Prop :=
  length (im_planeMaps img) = 4%nat /\ length (im_planeLengths img) = 4%nat
  /\ length (mi_plane (im_planeView img)) = 4%nat.

Definition unmapped (img : flImage) : Prop :=
  im_planeMaps img = [0;0;0;0] /\ im_planeView img = zeroMapped.

(** What was mapped is what was unmapped and what is still held. *)
Definition accounted (img : flImage) (img' : flImage) (es : list Effect) : Prop :=
  mapped_of es ++ live_maps img ≡ₚ unmapped_of es ++ live_maps img'.

(** Same object, another mapping. *)
Definition same_image (img img' : flImage) : Prop :=
  im_desc img' = im_desc img /\ im_width img' = im_width img /\ im_height img' = im_height img.

(** Neither mapping nor unmapping happens while a sync ioctl is retried. *)
Definition quiet (es : list Effect) : Prop := mapped_of es = [] /\ unmapped_of es = [].

Lemma quiet_app es es' : quiet es -> quiet es' -> quiet (es' ++ es).
Proof. intros [H1 H2] [H3 H4]. unfold quiet. by rewrite mapped_app, unmapped_app, H1, H2, H3, H4. Qed.

Section Unmapping.
Context `{K : Kernel}.

Lemma dmaSync_quiet fuel fd flags : emits (dmaSync fuel fd flags) (fun _ es => quiet es).
Proof.
  induction fuel as [|fuel IH]; cbn [dmaSync]; [by apply emits_ret|].
  emits_auto; [|done]. eapply emits_mono; [apply IH|]. intros r es [H1 H2]. unfold quiet.
  by rewrite !mapped_app, !unmapped_app, H1, H2.
Qed.

Lemma accounted_quiet img es : quiet es -> accounted img img es.
Proof. intros [H1 H2]. unfold accounted. by rewrite H1, H2. Qed.

Lemma accounted_trans img1 img2 img3 es es' :
  accounted img1 img2 es -> accounted img2 img3 es' -> accounted img1 img3 (es' ++ es).
Proof.
  unfold accounted. intros H1 H2. rewrite mapped_app, unmapped_app, <- app_assoc, H1.
  rewrite (app_assoc (mapped_of es')), (Permutation_app_comm (mapped_of es')), <- app_assoc, H2.
  rewrite !app_assoc. apply Permutation_app_tail, Permutation_app_comm.
Qed.

(** Storing a mapping in a free entry, and clearing an entry. *)
Lemma live_insert p b l maps lens :
  length maps = 4%nat -> length lens = 4%nat -> (p < 4)%nat -> nth p maps 0 = 0 -> b <> 0 ->
  filter (fun m : Z * Z => m.1 <> 0) (zip (<[p := b]> maps) (<[p := l]> lens))
  ≡ₚ (b, l) :: filter (fun m : Z * Z => m.1 <> 0) (zip maps lens).
Proof.
  intros H1 H2 Hp H0 Hb.
  destruct maps as [|m0 [|m1 [|m2 [|m3 [|]]]]]; try done.
  destruct lens as [|l0 [|l1 [|l2 [|l3 [|]]]]]; try done.
  do 4 (destruct p as [|p]; [simpl in H0; subst; simpl; rewrite !filter_cons; simpl;
    repeat (rewrite decide_False by lia); repeat (case_decide; try lia); solve_Permutation|]).
  lia.
Qed.

Lemma live_clear p maps lens :
  length maps = 4%nat -> length lens = 4%nat -> (p < 4)%nat -> nth p maps 0 <> 0 ->
  filter (fun m : Z * Z => m.1 <> 0) (zip maps lens)
  ≡ₚ (nth p maps 0, nth p lens 0)
     :: filter (fun m : Z * Z => m.1 <> 0) (zip (<[p := 0]> maps) (<[p := 0]> lens)).
Proof.
  intros H1 H2 Hp H0.
  destruct maps as [|m0 [|m1 [|m2 [|m3 [|]]]]]; try done.
  destruct lens as [|l0 [|l1 [|l2 [|l3 [|]]]]]; try done.
  do 4 (destruct p as [|p]; [simpl in H0 |- *; rewrite !filter_cons; simpl;
    repeat (case_decide; try lia); solve_Permutation|]).
  lia.
Qed.

Definition cleared (p : nat) (img img' : flImage) (es : list Effect) : Prop :=
  accounted img img' es /\ same_image img img' /\ image_wf img'
  /\ im_planeMaps img' = <[p := 0]> (im_planeMaps img) /\ im_planeView img' = im_planeView img.

Lemma unmapPlane_spec p img :
  image_wf img -> (p < 4)%nat -> emits (unmapPlane p img) (cleared p img).
Proof.
  intros (H1 & H2 & H3) Hp. unfold unmapPlane, at_. destruct (truthy _) eqn:E; bools.
  - apply emits_bind. eapply emits_mono; [apply dmaSync_quiet|]. intros r es Hq. emits_auto.
    split; [|split; [done|split; [|done]]].
    + rewrite app_nil_l. eapply (accounted_trans _ img); [by apply accounted_quiet|].
      apply (live_clear p (im_planeMaps img) (im_planeLengths img)); try done. by apply truthy_true.
    + split_and!; simpl; by rewrite ?length_insert.
  - apply emits_ret. split; [by apply accounted_quiet|]. do 2 (split; [done|]). split; [|done].
    symmetry. apply list_insert_id. destruct (lookup_lt_is_Some_2 (im_planeMaps img) p) as [x Hx]; [lia|].
    apply truthy_false in E. rewrite nth_lookup, Hx in E. by rewrite Hx, <- E.
Qed.

Lemma unmap_spec img :
  image_wf img ->
  emits (flImageUnmap img) (fun img' es =>
    accounted img img' es /\ same_image img img' /\ image_wf img' /\ unmapped img').
Proof.
  intros Hwf. unfold flImageUnmap. apply emits_bind.
  assert (forall n p i es, image_wf i -> same_image img i -> accounted img i es -> (p + n = 4)%nat ->
    (forall q, (q < p)%nat -> nth q (im_planeMaps i) 0 = 0) ->
    emits (mfold (seq p n) unmapPlane i) (fun i' es' => accounted img i' (es' ++ es)
      /\ same_image img i' /\ image_wf i' /\ forall q, (q < 4)%nat -> nth q (im_planeMaps i') 0 = 0)) as HL.
  { induction n as [|n IH]; intros p i es Hi Hs Ha Hp Hz; cbn [seq mfold].
    { apply emits_ret. split_and!; try done. intros q Hq. apply Hz. lia. }
    apply emits_bind. eapply emits_mono; [by apply unmapPlane_spec; [|lia]|].
    intros i' es' (Ha' & Hs' & Hi' & Hm & _). destruct Hi as (Hlen & _).
    eapply emits_mono; [apply (IH (S p) i' (es' ++ es)); try done|].
    - destruct Hs as (? & ? & ?), Hs' as (? & ? & ?). split_and!; congruence.
    - by eapply accounted_trans.
    - lia.
    - intros q Hq. rewrite Hm. destruct (decide (q = p)) as [->|].
      + rewrite nth_lookup, list_lookup_insert_eq; [done|lia].
      + rewrite nth_lookup, list_lookup_insert_ne by done. rewrite <- nth_lookup. apply Hz. lia.
    - intros i'' es''. cbv beta. by rewrite <- app_assoc. }
  eapply emits_mono; [apply (HL 4%nat 0%nat img []); try done; [by apply accounted_quiet|lia]|].
  intros i' es. cbv beta. rewrite app_nil_r. intros (Ha & Hs & (H1 & H2 & H3) & Hz). apply emits_ret.
  split_and!; try done. simpl.
  destruct (im_planeMaps i') as [|m0 [|m1 [|m2 [|m3 [|]]]]]; try done.
  pose proof (Hz 0%nat ltac:(lia)). pose proof (Hz 1%nat ltac:(lia)).
  pose proof (Hz 2%nat ltac:(lia)). pose proof (Hz 3%nat ltac:(lia)). simpl in *. by subst.
Qed.
End Unmapping.

Ltac refuse H :=
  eapply emits_mono; [by apply H|intros ? ?; cbv beta; by rewrite ?app_nil_r].

(** ** Mapping *)

(** Offsets and strides are 64-bit, the size 32-bit. *)
Definition image_typed (img : flImage) : Prop :=
  u32 (im_width img) /\ u32 (im_height img)
  /\ Forall u64 (db_offset (im_desc img)) /\ Forall u64 (db_stride (im_desc img)).

(** Mapping [p] of the image is a mapping of the descriptor of plane [p], as long as
    [fstat] said that descriptor is. *)
Definition mapping_sized `{K : Kernel} (img : flImage) (p : nat) : Prop :=
  exists t t' st, k_fstat t (fdAt img p) = Some st /\ 0 < st_size st
  /\ at_ (im_planeLengths img) p = st_size st /\ at_ (im_planeMaps img) p = k_mmap t' (fdAt img p).

(** Plane [p] of the view lies inside mapping [p] of the image, to the last byte. *)
Definition plane_mapped `{K : Kernel} (img : flImage) (p : nat) : Prop :=
  let pl := nth p (mi_plane (im_planeView img)) zeroPlane in
  let offset := at_ (db_offset (im_desc img)) p in
  mapping_sized img p /\ at_ (im_planeMaps img) p <> 0 /\ 0 <= offset
  /\ mp_pixels pl = at_ (im_planeMaps img) p + offset
  /\ mp_stride pl = at_ (db_stride (im_desc img)) p
  /\ mp_rows pl = (if Nat.eqb p 0 then im_height img else im_height img / 2)
  /\ 0 < mp_rows pl /\ 0 < mp_rowBytes pl <= mp_stride pl
  /\ offset + (mp_rows pl - 1) * mp_stride pl + mp_rowBytes pl <= at_ (im_planeLengths img) p.

Definition planes_of (img : flImage) : Z :=
  if db_fourcc (im_desc img) =? DRM_FORMAT_NV12 then 2 else 1.

Lemma typed_nth l p : Forall u64 l -> u64 (at_ l p).
Proof.
  intros H. unfold at_. rewrite nth_lookup. destruct (l !! p) as [x|] eqn:E; simpl; [|ulia].
  by eapply Forall_lookup_1.
Qed.

Lemma nth_insert_eq {A} (l : list A) p x d : (p < length l)%nat -> nth p (<[p := x]> l) d = x.
Proof. intros. by rewrite nth_lookup, list_lookup_insert_eq. Qed.

Lemma nth_insert_ne {A} (l : list A) p q x d : p <> q -> nth q (<[p := x]> l) d = nth q l d.
Proof. intros. by rewrite nth_lookup, list_lookup_insert_ne, <- nth_lookup. Qed.

Lemma same_image_trans i1 i2 i3 : same_image i1 i2 -> same_image i2 i3 -> same_image i1 i3.
Proof. unfold same_image. intros (? & ? & ?) (? & ? & ?). split_and!; congruence. Qed.

Section Mapping.
Context `{K : Kernel}.
Hypothesis mmap_nonnull : forall t fd, k_mmap t fd <> 0.
Hypothesis size_typed : forall t fd st, k_fstat t fd = Some st -> st_size st <= INT64_MAX.

(** The failing returns of [mapPlane], once the image's own planes are unmapped. *)
Definition refused (img : flImage) (r : flResult * flImage) (es : list Effect) : Prop :=
  r.1 <> FL_OK /\ accounted img r.2 es /\ unmapped r.2.

Lemma refuse_spec img i0 es r :
  image_wf img -> r <> FL_OK -> accounted i0 img es ->
  emits (let! img := flImageUnmap img in ret (inr (r, img) : flImage + flResult * flImage))
    (fun o es' => exists e, o = inr e /\ refused i0 e (es' ++ es)).
Proof.
  intros Hwf Hr Ha. apply emits_bind. eapply emits_mono; [by apply unmap_spec|].
  intros i es' (Ha' & _ & _ & Hu). apply emits_ret. eexists. split; [done|]. split_and!; try done.
  by eapply accounted_trans.
Qed.

(** One plane mapped, the others as they were. *)
Definition plane_added (p : nat) (img img' : flImage) (es : list Effect) : Prop :=
  accounted img img' es /\ same_image img img' /\ image_wf img' /\ plane_mapped img' p
  /\ (forall q, q <> p -> at_ (im_planeMaps img') q = at_ (im_planeMaps img) q)
  /\ (forall q, q <> p -> plane_mapped img q -> plane_mapped img' q).

Lemma accounted_sync img img' es :
  quiet es -> forall e, accounted img img' [e] -> accounted img img' (es ++ [e]).
Proof.
  intros [Hm Hu] e. unfold accounted. by rewrite mapped_app, unmapped_app, Hm, Hu.
Qed.

Definition map_post (p : nat) (img : flImage) (o : flImage + flResult * flImage) (es : list Effect)
  : Prop :=
  match o with inl img' => plane_added p img img' es | inr e => refused img e es end.

Lemma mapPlane_spec p planes img :
  image_wf img -> image_typed img -> (p < 4)%nat -> at_ (im_planeMaps img) p = 0 ->
  emits (mapPlane planes p img) (map_post p img).
Proof.
  intros Hwf (Hw & Hh & Ho & Hs) Hp H0. destruct Hwf as (H1 & H2 & H3).
  assert (forall r es, r <> FL_OK -> accounted img img es ->
    emits (let! img := flImageUnmap img in ret (inr (r, img) : flImage + flResult * flImage))
      (fun o es' => map_post p img o (es' ++ es))) as HR.
  { intros r es Hr Ha. eapply emits_mono; [by apply (refuse_spec img img es)|].
    by intros o es' (e & -> & He). }
  assert (forall r, r <> FL_OK -> emits (let! img := flImageUnmap img in
    ret (inr (r, img) : flImage + flResult * flImage)) (map_post p img)) as HR0.
  { intros r Hr. eapply emits_mono; [apply (HR r []); [done|by apply accounted_quiet]|].
    intros o es. cbv beta. by rewrite app_nil_r. }
  unfold mapPlane. set (rows := if Nat.eqb p 0 then _ else _). set (bytes := if planes =? 2 then _ else _).
  assert (u64 rows /\ u64 bytes) as [Hr Hb].
  { unfold rows, bytes. split.
    - destruct (p =? 0)%nat; [ulia|]. pose proof (Z.div_pos (im_height img) 2).
      pose proof (Z.div_le_upper_bound (im_height img) 2 UINT32_MAX). ulia.
    - destruct (planes =? 2); [ulia|]. pose proof (wrap32_u32 (im_width img * 4)). ulia. }
  apply emits_bind, emits_ask_at. intros t. cbn beta.
  destruct (k_fstat t (fdAt img p)) as [st|] eqn:Est; cbn iota; [|refuse HR0].
  destruct (_ || negb _) eqn:Ebad; [refuse HR0|].
  apply orb_false_iff in Ebad as [Hsz Ebad]. apply negb_false_iff in Ebad.
  apply planeFits_spec in Ebad as (Hrow & Hbyte & Hfit); [|pose proof (size_typed _ _ _ Est); unfold INT64_MAX in *; ulia
    |by apply typed_nth|by apply typed_nth|done|done].
  apply emits_bind, emits_ask_at. intros t'. cbn beta. set (base := k_mmap t' _).
  pose proof (mmap_nonnull t' (fdAt img p) : base <> 0) as Hbase.
  destruct (base =? -1) eqn:E1; [refuse HR0|].
  apply emits_bind, emits_effect, emits_bind. eapply emits_mono; [apply dmaSync_quiet|].
  intros result es Hq. cbn beta. destruct (result <? 0) eqn:E2.
  - apply emits_bind, emits_effect. eapply emits_mono; [apply (HR FL_INTERNAL
      (EMunmap base (st_size st) :: es ++ [EMmap base (st_size st)])); [done|]|].
    + destruct Hq as [Hqm Hqu]. unfold accounted. cbn [mapped_of unmapped_of omap list_omap].
      fold mapped_of. fold unmapped_of. rewrite mapped_app, unmapped_app, Hqm, Hqu. simpl. done.
    + intros o es'. cbv beta. rewrite ?app_nil_r, <- !app_assoc. done.
  - apply emits_ret. split_and!.
    + destruct Hq as [Hqm Hqu]. unfold accounted. rewrite ?app_nil_r, !mapped_app, !unmapped_app, Hqm, Hqu.
      unfold live_maps. cbn [set_maps im_planeMaps im_planeLengths].
      rewrite live_insert by done. done.
    + done.
    + unfold image_wf. cbn [set_maps im_planeMaps im_planeLengths im_planeView mi_plane].
      rewrite !length_insert. done.
    + unfold plane_mapped, mapping_sized, fdAt, at_.
      cbn [set_maps im_planeMaps im_planeLengths im_planeView mi_plane im_desc im_width im_height].
      rewrite !nth_insert_eq by lia. cbn [mp_pixels mp_stride mp_rows mp_rowBytes].
      pose proof (typed_nth _ p Ho). split_and!; try done; unfold at_ in *; try ulia.
      exists t, t', st. apply Z.leb_gt in Hsz. by split_and!.
    + intros q Hq'. unfold at_. simpl. by rewrite nth_insert_ne.
    + intros q Hq'. unfold plane_mapped, mapping_sized, fdAt, at_.
      cbn [set_maps im_planeMaps im_planeLengths im_planeView mi_plane im_desc im_width im_height].
      by rewrite !nth_insert_ne by done.
Qed.

(** What a mapping call leaves: the view is inside mappings the image owns, or
    nothing is mapped. *)
Definition map_result (img : flImage) (r : flResult * flMappedImage * flImage) (es : list Effect)
  : Prop :=
  let '(result, view, img') := r in
  accounted img img' es
  /\ (result = FL_OK ->
      view = im_planeView img' /\ mi_planes view = planes_of img
      /\ same_image img img' /\ forall p, Z.of_nat p < planes_of img -> plane_mapped img' p)
  /\ (result <> FL_OK -> view = zeroMapped /\ live_maps img' = []).

Lemma set_planes_mapped img n p :
  plane_mapped img p ->
  plane_mapped (set_maps img (im_planeMaps img) (im_planeLengths img)
                  (mkMapped n (mi_plane (im_planeView img)))) p.
Proof. done. Qed.

Lemma unmapped_wf img : unmapped img -> length (im_planeLengths img) = 4%nat -> image_wf img.
Proof. intros [H1 H2] H. unfold image_wf. by rewrite H1, H2. Qed.

Lemma unmapped_live img : unmapped img -> live_maps img = [].
Proof.
  intros [H _]. unfold live_maps. rewrite H.
  by destruct (im_planeLengths img) as [|? [|? [|? [|? [|]]]]].
Qed.

Lemma map_loop_spec img :
  unmapped img -> length (im_planeLengths img) = 4%nat -> image_typed img ->
  emits (mloop (seq 0 (Z.to_nat (planes_of img))) (mapPlane (planes_of img)) img) (fun o es =>
    match o with
    | inl img' => accounted img img' es /\ same_image img img'
                  /\ forall p, Z.of_nat p < planes_of img -> plane_mapped img' p
    | inr e => refused img e es
    end).
Proof.
  intros Hu Hl Ht. pose proof (unmapped_wf img Hu Hl) as Hwf.
  assert (forall q, at_ (im_planeMaps img) q = 0) as Hz.
  { intros q. unfold at_. rewrite (proj1 Hu). by do 5 (destruct q as [|q]; [done|]). }
  unfold planes_of. destruct (_ =? DRM_FORMAT_NV12).
  - change (seq 0 (Z.to_nat 2)) with [0; 1]%nat. cbn [mloop]. apply emits_bind.
    eapply emits_mono; [by apply mapPlane_spec; [| |lia|]|].
    intros [i|e] es He; [|by apply emits_ret]. cbv beta iota.
    destruct He as (Ha & Hs & Hw & Hp & Hm & _). apply emits_bind.
    assert (image_typed i) as Hti.
    { unfold image_typed. destruct Hs as (-> & -> & ->). exact Ht. }
    eapply emits_mono; [apply (mapPlane_spec 1 2 i); [done|done|lia|by rewrite Hm]|].
    intros [i'|e] es' He; apply emits_ret; cbn [app].
    + destruct He as (Ha' & Hs' & _ & Hp' & _ & Hq).
      split; [by eapply accounted_trans|]. split; [by eapply same_image_trans|].
      intros p Hlt. destruct p as [|[|p]]; [by apply Hq| done |lia].
    + destruct He as (Hr & Ha' & Hu').
      split_and!; [done|by eapply accounted_trans|done].
  - change (seq 0 (Z.to_nat 1)) with [0%nat]. cbn [mloop]. apply emits_bind.
    eapply emits_mono; [by apply mapPlane_spec; [| |lia|]|].
    intros [i|e] es He; apply emits_ret; cbn [app]; [|done].
    destruct He as (Ha & Hs & Hw & Hp & Hm & _).
    split_and!; try done. intros p Hlt. by destruct p as [|p]; [|lia].
Qed.

Lemma map_planes_emits img :
  unmapped img -> length (im_planeLengths img) = 4%nat -> image_typed img ->
  emits (flImageMapPlanes img) (map_result img).
Proof.
  intros Hu Hl Ht. unfold flImageMapPlanes. destruct (negb _).
  { apply emits_ret. split; [by apply accounted_quiet|]. split; [done|].
    intros _. split; [done|by apply unmapped_live]. }
  rewrite (proj2 Hu) at 1. cbn [zeroMapped mi_planes truthy]. cbn [Z.eqb negb].
  fold (planes_of img). apply emits_bind. eapply emits_mono; [by apply map_loop_spec|].
  intros [i|[r i]] es He; apply emits_ret; rewrite app_nil_l.
  - destruct He as (Ha & Hs & Hp). split; [exact Ha|]. split; [|done].
    intros _. split; [done|]. split; [done|]. split; [exact Hs|].
    intros p Hlt. by apply set_planes_mapped, Hp.
  - destruct He as (Hr & Ha & Hu'). split; [exact Ha|]. split; [done|].
    intros _. split; [done|]. by apply unmapped_live.
Qed.

(** C7: CPU access stays inside the buffer: when [flImageMapPlanes] succeeds on an
    unmapped image, every plane of the view it returns lies, first byte to last
    byte of the last row, inside a mapping the image owns; that mapping is one of the
    descriptor of the plane, and its length is the size [fstat] answered for that
    descriptor, so the view ends inside the buffer; when the call fails no mapping
    remains.  In both cases everything the call mapped is either still owned by the
    image or was unmapped. *)
Theorem linux_map_in_bounds img w :
  unmapped img -> length (im_planeLengths img) = 4%nat -> image_typed img ->
  map_result img (flImageMapPlanes img w).1 (effects_of w (flImageMapPlanes img w).2).
Proof. intros Hu Hl Ht. by apply (emits_run _ _ w), map_planes_emits. Qed.
End Mapping.

(** A 1920x1080 BGRA image mapped by the example system. *)
Definition exImage : flImage :=
  mkImage 7 (mkDmabuf [5;0;0;0] [0;0;0;0] [7680;0;0;0] 1 DRM_FORMAT_ARGB8888 DRM_FORMAT_MOD_LINEAR)
    1920 1080 false 0 [0;0;0;0] [0;0;0;0] zeroMapped.

Definition exMapKernel : Kernel :=
  scripted (fun _ _ => (1, POLLIN)) (fun _ _ => 0) (fun _ _ => mkReceived 0 [] [] 0).

Lemma linux_map_in_bounds_witness :
  let K := exMapKernel in
  ((forall t fd, k_mmap t fd <> 0)
   /\ (forall t fd st, k_fstat t fd = Some st -> st_size st <= INT64_MAX)
   /\ unmapped exImage /\ length (im_planeLengths exImage) = 4%nat /\ image_typed exImage)
  /\ (flImageMapPlanes exImage start).1.1.1 = FL_OK
  /\ map_result exImage (flImageMapPlanes exImage start).1
       (effects_of start (flImageMapPlanes exImage start).2).
Proof.
  intros K.
  assert (forall t fd, k_mmap t fd <> 0) as H1 by (intros t fd; simpl; lia).
  assert (forall t fd st, k_fstat t fd = Some st -> st_size st <= INT64_MAX) as H2
    by (intros t fd st [= <-]; unfold INT64_MAX; simpl; lia).
  assert (unmapped exImage) as H3 by done.
  assert (image_typed exImage) as H4.
  { unfold image_typed, exImage. cbn [im_width im_height im_desc db_offset db_stride].
    split_and!; repeat constructor; ulia. }
  split; [done|]. split; [vm_compute; reflexivity|].
  exact (linux_map_in_bounds H1 H2 exImage start H3 eq_refl H4).
Defined.
