(* ===== verification/LinuxState.v ===== *)
(** * The channel object of the Linux backend (src/framelink_linux.cpp)

    [struct flChannel] and one assignment per field.  An image is the address of
    its object with the object.  Trace scopes record events and do not take part:
    [trace.result(r)] is [r]. *)
From S2P Require Import Prelude Api Kernel Wire SyncFd Ipc LinuxImage.
From S2P Require Ledger BufferRefs.

Definition zeroInfo : flChannelInfo := mkChannelInfo 0 0 0 0 0 0.

(** [struct flChannel] *)
Record flChannel := mkChannel {
  ch_isConsumer : bool;
  ch_externalPool : bool;
  ch_name : list Z;
  ch_info : flChannelInfo;
  ch_flags : Z;
  ch_peerFeatures : Z;
  ch_bufferReferences : BufferRefs.BufferReferences;
  ch_slotMetadata : list flFrameMetadata;
  ch_pendingMetadata : flFrameMetadata;
  ch_heldMetadata : flFrameMetadata;
  ch_drmFd : Z;
  ch_gbm : Z;
  ch_images : list (Z * flImage);
  ch_sync : SyncFds;
  ch_submittingSlot : Z;
  ch_submittingValue : Z;
  ch_readyValue : Z;
  ch_peer : Channel;
  ch_stop : bool;
  ch_peerGone : bool;
  ch_hasPending : bool;
  ch_readers : Ledger.ReadLedger;
  ch_leaseCompletions : list (Z * Z);
  ch_frameHeld : bool;
  ch_heldReady : Z;
  ch_retiredValue : Z;
  ch_heldSlot : Z;
  ch_pendingSlot : Z;
  ch_pendingReady : Z;
  ch_pendingPts : Z;
  ch_pendingArrival : Z;
  ch_heldArrival : Z;
  ch_sequence : Z;
  ch_link : Channel;
  ch_slotSubmitValue : list Z;
  ch_consumedValue : Z;
}.

(** [new flChannel()] *)
Definition newChannel : flChannel :=
  mkChannel false false [] zeroInfo 0 0 BufferRefs.emptyRefs (replicate FL_MAX_POOL_SIZE
    zeroMetadata) zeroMetadata zeroMetadata (-1) 0 [] noSync UINT32_MAX 0 0 noChannel false false
    false Ledger.emptyLedger (replicate Ledger.MaxReaders (0, -1)) false 0 0 0 0 0 (-1) 0 0 0
    noChannel [] 0.

(** One assignment per field. *)
Definition set_isConsumer (c : flChannel) (v : bool) : flChannel :=
  mkChannel v (ch_externalPool c) (ch_name c) (ch_info c) (ch_flags c) (ch_peerFeatures c)
    (ch_bufferReferences c) (ch_slotMetadata c) (ch_pendingMetadata c) (ch_heldMetadata c)
    (ch_drmFd c) (ch_gbm c) (ch_images c) (ch_sync c) (ch_submittingSlot c) (ch_submittingValue c)
    (ch_readyValue c) (ch_peer c) (ch_stop c) (ch_peerGone c) (ch_hasPending c) (ch_readers c)
    (ch_leaseCompletions c) (ch_frameHeld c) (ch_heldReady c) (ch_retiredValue c) (ch_heldSlot c)
    (ch_pendingSlot c) (ch_pendingReady c) (ch_pendingPts c) (ch_pendingArrival c) (ch_heldArrival
    c) (ch_sequence c) (ch_link c) (ch_slotSubmitValue c) (ch_consumedValue c).
Definition set_externalPool (c : flChannel) (v : bool) : flChannel :=
  mkChannel (ch_isConsumer c) v (ch_name c) (ch_info c) (ch_flags c) (ch_peerFeatures c)
    (ch_bufferReferences c) (ch_slotMetadata c) (ch_pendingMetadata c) (ch_heldMetadata c)
    (ch_drmFd c) (ch_gbm c) (ch_images c) (ch_sync c) (ch_submittingSlot c) (ch_submittingValue c)
    (ch_readyValue c) (ch_peer c) (ch_stop c) (ch_peerGone c) (ch_hasPending c) (ch_readers c)
    (ch_leaseCompletions c) (ch_frameHeld c) (ch_heldReady c) (ch_retiredValue c) (ch_heldSlot c)
    (ch_pendingSlot c) (ch_pendingReady c) (ch_pendingPts c) (ch_pendingArrival c) (ch_heldArrival
    c) (ch_sequence c) (ch_link c) (ch_slotSubmitValue c) (ch_consumedValue c).
Definition set_name (c : flChannel) (v : list Z) : flChannel :=
  mkChannel (ch_isConsumer c) (ch_externalPool c) v (ch_info c) (ch_flags c) (ch_peerFeatures c)
    (ch_bufferReferences c) (ch_slotMetadata c) (ch_pendingMetadata c) (ch_heldMetadata c)
    (ch_drmFd c) (ch_gbm c) (ch_images c) (ch_sync c) (ch_submittingSlot c) (ch_submittingValue c)
    (ch_readyValue c) (ch_peer c) (ch_stop c) (ch_peerGone c) (ch_hasPending c) (ch_readers c)
    (ch_leaseCompletions c) (ch_frameHeld c) (ch_heldReady c) (ch_retiredValue c) (ch_heldSlot c)
    (ch_pendingSlot c) (ch_pendingReady c) (ch_pendingPts c) (ch_pendingArrival c) (ch_heldArrival
    c) (ch_sequence c) (ch_link c) (ch_slotSubmitValue c) (ch_consumedValue c).
Definition set_info (c : flChannel) (v : flChannelInfo) : flChannel :=
  mkChannel (ch_isConsumer c) (ch_externalPool c) (ch_name c) v (ch_flags c) (ch_peerFeatures c)
    (ch_bufferReferences c) (ch_slotMetadata c) (ch_pendingMetadata c) (ch_heldMetadata c)
    (ch_drmFd c) (ch_gbm c) (ch_images c) (ch_sync c) (ch_submittingSlot c) (ch_submittingValue c)
    (ch_readyValue c) (ch_peer c) (ch_stop c) (ch_peerGone c) (ch_hasPending c) (ch_readers c)
    (ch_leaseCompletions c) (ch_frameHeld c) (ch_heldReady c) (ch_retiredValue c) (ch_heldSlot c)
    (ch_pendingSlot c) (ch_pendingReady c) (ch_pendingPts c) (ch_pendingArrival c) (ch_heldArrival
    c) (ch_sequence c) (ch_link c) (ch_slotSubmitValue c) (ch_consumedValue c).
Definition set_flags (c : flChannel) (v : Z) : flChannel :=
  mkChannel (ch_isConsumer c) (ch_externalPool c) (ch_name c) (ch_info c) v (ch_peerFeatures c)
    (ch_bufferReferences c) (ch_slotMetadata c) (ch_pendingMetadata c) (ch_heldMetadata c)
    (ch_drmFd c) (ch_gbm c) (ch_images c) (ch_sync c) (ch_submittingSlot c) (ch_submittingValue c)
    (ch_readyValue c) (ch_peer c) (ch_stop c) (ch_peerGone c) (ch_hasPending c) (ch_readers c)
    (ch_leaseCompletions c) (ch_frameHeld c) (ch_heldReady c) (ch_retiredValue c) (ch_heldSlot c)
    (ch_pendingSlot c) (ch_pendingReady c) (ch_pendingPts c) (ch_pendingArrival c) (ch_heldArrival
    c) (ch_sequence c) (ch_link c) (ch_slotSubmitValue c) (ch_consumedValue c).
Definition set_peerFeatures (c : flChannel) (v : Z) : flChannel :=
  mkChannel (ch_isConsumer c) (ch_externalPool c) (ch_name c) (ch_info c) (ch_flags c) v
    (ch_bufferReferences c) (ch_slotMetadata c) (ch_pendingMetadata c) (ch_heldMetadata c)
    (ch_drmFd c) (ch_gbm c) (ch_images c) (ch_sync c) (ch_submittingSlot c) (ch_submittingValue c)
    (ch_readyValue c) (ch_peer c) (ch_stop c) (ch_peerGone c) (ch_hasPending c) (ch_readers c)
    (ch_leaseCompletions c) (ch_frameHeld c) (ch_heldReady c) (ch_retiredValue c) (ch_heldSlot c)
    (ch_pendingSlot c) (ch_pendingReady c) (ch_pendingPts c) (ch_pendingArrival c) (ch_heldArrival
    c) (ch_sequence c) (ch_link c) (ch_slotSubmitValue c) (ch_consumedValue c).
Definition set_bufferReferences (c : flChannel) (v : BufferRefs.BufferReferences) : flChannel :=
  mkChannel (ch_isConsumer c) (ch_externalPool c) (ch_name c) (ch_info c) (ch_flags c)
    (ch_peerFeatures c) v (ch_slotMetadata c) (ch_pendingMetadata c) (ch_heldMetadata c) (ch_drmFd
    c) (ch_gbm c) (ch_images c) (ch_sync c) (ch_submittingSlot c) (ch_submittingValue c)
    (ch_readyValue c) (ch_peer c) (ch_stop c) (ch_peerGone c) (ch_hasPending c) (ch_readers c)
    (ch_leaseCompletions c) (ch_frameHeld c) (ch_heldReady c) (ch_retiredValue c) (ch_heldSlot c)
    (ch_pendingSlot c) (ch_pendingReady c) (ch_pendingPts c) (ch_pendingArrival c) (ch_heldArrival
    c) (ch_sequence c) (ch_link c) (ch_slotSubmitValue c) (ch_consumedValue c).
Definition set_slotMetadata (c : flChannel) (v : list flFrameMetadata) : flChannel :=
  mkChannel (ch_isConsumer c) (ch_externalPool c) (ch_name c) (ch_info c) (ch_flags c)
    (ch_peerFeatures c) (ch_bufferReferences c) v (ch_pendingMetadata c) (ch_heldMetadata c)
    (ch_drmFd c) (ch_gbm c) (ch_images c) (ch_sync c) (ch_submittingSlot c) (ch_submittingValue c)
    (ch_readyValue c) (ch_peer c) (ch_stop c) (ch_peerGone c) (ch_hasPending c) (ch_readers c)
    (ch_leaseCompletions c) (ch_frameHeld c) (ch_heldReady c) (ch_retiredValue c) (ch_heldSlot c)
    (ch_pendingSlot c) (ch_pendingReady c) (ch_pendingPts c) (ch_pendingArrival c) (ch_heldArrival
    c) (ch_sequence c) (ch_link c) (ch_slotSubmitValue c) (ch_consumedValue c).
Definition set_pendingMetadata (c : flChannel) (v : flFrameMetadata) : flChannel :=
  mkChannel (ch_isConsumer c) (ch_externalPool c) (ch_name c) (ch_info c) (ch_flags c)
    (ch_peerFeatures c) (ch_bufferReferences c) (ch_slotMetadata c) v (ch_heldMetadata c)
    (ch_drmFd c) (ch_gbm c) (ch_images c) (ch_sync c) (ch_submittingSlot c) (ch_submittingValue c)
    (ch_readyValue c) (ch_peer c) (ch_stop c) (ch_peerGone c) (ch_hasPending c) (ch_readers c)
    (ch_leaseCompletions c) (ch_frameHeld c) (ch_heldReady c) (ch_retiredValue c) (ch_heldSlot c)
    (ch_pendingSlot c) (ch_pendingReady c) (ch_pendingPts c) (ch_pendingArrival c) (ch_heldArrival
    c) (ch_sequence c) (ch_link c) (ch_slotSubmitValue c) (ch_consumedValue c).
Definition set_heldMetadata (c : flChannel) (v : flFrameMetadata) : flChannel :=
  mkChannel (ch_isConsumer c) (ch_externalPool c) (ch_name c) (ch_info c) (ch_flags c)
    (ch_peerFeatures c) (ch_bufferReferences c) (ch_slotMetadata c) (ch_pendingMetadata c) v
    (ch_drmFd c) (ch_gbm c) (ch_images c) (ch_sync c) (ch_submittingSlot c) (ch_submittingValue c)
    (ch_readyValue c) (ch_peer c) (ch_stop c) (ch_peerGone c) (ch_hasPending c) (ch_readers c)
    (ch_leaseCompletions c) (ch_frameHeld c) (ch_heldReady c) (ch_retiredValue c) (ch_heldSlot c)
    (ch_pendingSlot c) (ch_pendingReady c) (ch_pendingPts c) (ch_pendingArrival c) (ch_heldArrival
    c) (ch_sequence c) (ch_link c) (ch_slotSubmitValue c) (ch_consumedValue c).
Definition set_drmFd (c : flChannel) (v : Z) : flChannel :=
  mkChannel (ch_isConsumer c) (ch_externalPool c) (ch_name c) (ch_info c) (ch_flags c)
    (ch_peerFeatures c) (ch_bufferReferences c) (ch_slotMetadata c) (ch_pendingMetadata c)
    (ch_heldMetadata c) v (ch_gbm c) (ch_images c) (ch_sync c) (ch_submittingSlot c)
    (ch_submittingValue c) (ch_readyValue c) (ch_peer c) (ch_stop c) (ch_peerGone c)
    (ch_hasPending c) (ch_readers c) (ch_leaseCompletions c) (ch_frameHeld c) (ch_heldReady c)
    (ch_retiredValue c) (ch_heldSlot c) (ch_pendingSlot c) (ch_pendingReady c) (ch_pendingPts c)
    (ch_pendingArrival c) (ch_heldArrival c) (ch_sequence c) (ch_link c) (ch_slotSubmitValue c)
    (ch_consumedValue c).
Definition set_gbm (c : flChannel) (v : Z) : flChannel :=
  mkChannel (ch_isConsumer c) (ch_externalPool c) (ch_name c) (ch_info c) (ch_flags c)
    (ch_peerFeatures c) (ch_bufferReferences c) (ch_slotMetadata c) (ch_pendingMetadata c)
    (ch_heldMetadata c) (ch_drmFd c) v (ch_images c) (ch_sync c) (ch_submittingSlot c)
    (ch_submittingValue c) (ch_readyValue c) (ch_peer c) (ch_stop c) (ch_peerGone c)
    (ch_hasPending c) (ch_readers c) (ch_leaseCompletions c) (ch_frameHeld c) (ch_heldReady c)
    (ch_retiredValue c) (ch_heldSlot c) (ch_pendingSlot c) (ch_pendingReady c) (ch_pendingPts c)
    (ch_pendingArrival c) (ch_heldArrival c) (ch_sequence c) (ch_link c) (ch_slotSubmitValue c)
    (ch_consumedValue c).
Definition set_images (c : flChannel) (v : list (Z * flImage)) : flChannel :=
  mkChannel (ch_isConsumer c) (ch_externalPool c) (ch_name c) (ch_info c) (ch_flags c)
    (ch_peerFeatures c) (ch_bufferReferences c) (ch_slotMetadata c) (ch_pendingMetadata c)
    (ch_heldMetadata c) (ch_drmFd c) (ch_gbm c) v (ch_sync c) (ch_submittingSlot c)
    (ch_submittingValue c) (ch_readyValue c) (ch_peer c) (ch_stop c) (ch_peerGone c)
    (ch_hasPending c) (ch_readers c) (ch_leaseCompletions c) (ch_frameHeld c) (ch_heldReady c)
    (ch_retiredValue c) (ch_heldSlot c) (ch_pendingSlot c) (ch_pendingReady c) (ch_pendingPts c)
    (ch_pendingArrival c) (ch_heldArrival c) (ch_sequence c) (ch_link c) (ch_slotSubmitValue c)
    (ch_consumedValue c).
Definition set_sync (c : flChannel) (v : SyncFds) : flChannel :=
  mkChannel (ch_isConsumer c) (ch_externalPool c) (ch_name c) (ch_info c) (ch_flags c)
    (ch_peerFeatures c) (ch_bufferReferences c) (ch_slotMetadata c) (ch_pendingMetadata c)
    (ch_heldMetadata c) (ch_drmFd c) (ch_gbm c) (ch_images c) v (ch_submittingSlot c)
    (ch_submittingValue c) (ch_readyValue c) (ch_peer c) (ch_stop c) (ch_peerGone c)
    (ch_hasPending c) (ch_readers c) (ch_leaseCompletions c) (ch_frameHeld c) (ch_heldReady c)
    (ch_retiredValue c) (ch_heldSlot c) (ch_pendingSlot c) (ch_pendingReady c) (ch_pendingPts c)
    (ch_pendingArrival c) (ch_heldArrival c) (ch_sequence c) (ch_link c) (ch_slotSubmitValue c)
    (ch_consumedValue c).
Definition set_submittingSlot (c : flChannel) (v : Z) : flChannel :=
  mkChannel (ch_isConsumer c) (ch_externalPool c) (ch_name c) (ch_info c) (ch_flags c)
    (ch_peerFeatures c) (ch_bufferReferences c) (ch_slotMetadata c) (ch_pendingMetadata c)
    (ch_heldMetadata c) (ch_drmFd c) (ch_gbm c) (ch_images c) (ch_sync c) v (ch_submittingValue c)
    (ch_readyValue c) (ch_peer c) (ch_stop c) (ch_peerGone c) (ch_hasPending c) (ch_readers c)
    (ch_leaseCompletions c) (ch_frameHeld c) (ch_heldReady c) (ch_retiredValue c) (ch_heldSlot c)
    (ch_pendingSlot c) (ch_pendingReady c) (ch_pendingPts c) (ch_pendingArrival c) (ch_heldArrival
    c) (ch_sequence c) (ch_link c) (ch_slotSubmitValue c) (ch_consumedValue c).
Definition set_submittingValue (c : flChannel) (v : Z) : flChannel :=
  mkChannel (ch_isConsumer c) (ch_externalPool c) (ch_name c) (ch_info c) (ch_flags c)
    (ch_peerFeatures c) (ch_bufferReferences c) (ch_slotMetadata c) (ch_pendingMetadata c)
    (ch_heldMetadata c) (ch_drmFd c) (ch_gbm c) (ch_images c) (ch_sync c) (ch_submittingSlot c) v
    (ch_readyValue c) (ch_peer c) (ch_stop c) (ch_peerGone c) (ch_hasPending c) (ch_readers c)
    (ch_leaseCompletions c) (ch_frameHeld c) (ch_heldReady c) (ch_retiredValue c) (ch_heldSlot c)
    (ch_pendingSlot c) (ch_pendingReady c) (ch_pendingPts c) (ch_pendingArrival c) (ch_heldArrival
    c) (ch_sequence c) (ch_link c) (ch_slotSubmitValue c) (ch_consumedValue c).
Definition set_readyValue (c : flChannel) (v : Z) : flChannel :=
  mkChannel (ch_isConsumer c) (ch_externalPool c) (ch_name c) (ch_info c) (ch_flags c)
    (ch_peerFeatures c) (ch_bufferReferences c) (ch_slotMetadata c) (ch_pendingMetadata c)
    (ch_heldMetadata c) (ch_drmFd c) (ch_gbm c) (ch_images c) (ch_sync c) (ch_submittingSlot c)
    (ch_submittingValue c) v (ch_peer c) (ch_stop c) (ch_peerGone c) (ch_hasPending c) (ch_readers
    c) (ch_leaseCompletions c) (ch_frameHeld c) (ch_heldReady c) (ch_retiredValue c) (ch_heldSlot
    c) (ch_pendingSlot c) (ch_pendingReady c) (ch_pendingPts c) (ch_pendingArrival c)
    (ch_heldArrival c) (ch_sequence c) (ch_link c) (ch_slotSubmitValue c) (ch_consumedValue c).
Definition set_peer (c : flChannel) (v : Channel) : flChannel :=
  mkChannel (ch_isConsumer c) (ch_externalPool c) (ch_name c) (ch_info c) (ch_flags c)
    (ch_peerFeatures c) (ch_bufferReferences c) (ch_slotMetadata c) (ch_pendingMetadata c)
    (ch_heldMetadata c) (ch_drmFd c) (ch_gbm c) (ch_images c) (ch_sync c) (ch_submittingSlot c)
    (ch_submittingValue c) (ch_readyValue c) v (ch_stop c) (ch_peerGone c) (ch_hasPending c)
    (ch_readers c) (ch_leaseCompletions c) (ch_frameHeld c) (ch_heldReady c) (ch_retiredValue c)
    (ch_heldSlot c) (ch_pendingSlot c) (ch_pendingReady c) (ch_pendingPts c) (ch_pendingArrival c)
    (ch_heldArrival c) (ch_sequence c) (ch_link c) (ch_slotSubmitValue c) (ch_consumedValue c).
Definition set_stop (c : flChannel) (v : bool) : flChannel :=
  mkChannel (ch_isConsumer c) (ch_externalPool c) (ch_name c) (ch_info c) (ch_flags c)
    (ch_peerFeatures c) (ch_bufferReferences c) (ch_slotMetadata c) (ch_pendingMetadata c)
    (ch_heldMetadata c) (ch_drmFd c) (ch_gbm c) (ch_images c) (ch_sync c) (ch_submittingSlot c)
    (ch_submittingValue c) (ch_readyValue c) (ch_peer c) v (ch_peerGone c) (ch_hasPending c)
    (ch_readers c) (ch_leaseCompletions c) (ch_frameHeld c) (ch_heldReady c) (ch_retiredValue c)
    (ch_heldSlot c) (ch_pendingSlot c) (ch_pendingReady c) (ch_pendingPts c) (ch_pendingArrival c)
    (ch_heldArrival c) (ch_sequence c) (ch_link c) (ch_slotSubmitValue c) (ch_consumedValue c).
Definition set_peerGone (c : flChannel) (v : bool) : flChannel :=
  mkChannel (ch_isConsumer c) (ch_externalPool c) (ch_name c) (ch_info c) (ch_flags c)
    (ch_peerFeatures c) (ch_bufferReferences c) (ch_slotMetadata c) (ch_pendingMetadata c)
    (ch_heldMetadata c) (ch_drmFd c) (ch_gbm c) (ch_images c) (ch_sync c) (ch_submittingSlot c)
    (ch_submittingValue c) (ch_readyValue c) (ch_peer c) (ch_stop c) v (ch_hasPending c)
    (ch_readers c) (ch_leaseCompletions c) (ch_frameHeld c) (ch_heldReady c) (ch_retiredValue c)
    (ch_heldSlot c) (ch_pendingSlot c) (ch_pendingReady c) (ch_pendingPts c) (ch_pendingArrival c)
    (ch_heldArrival c) (ch_sequence c) (ch_link c) (ch_slotSubmitValue c) (ch_consumedValue c).
Definition set_hasPending (c : flChannel) (v : bool) : flChannel :=
  mkChannel (ch_isConsumer c) (ch_externalPool c) (ch_name c) (ch_info c) (ch_flags c)
    (ch_peerFeatures c) (ch_bufferReferences c) (ch_slotMetadata c) (ch_pendingMetadata c)
    (ch_heldMetadata c) (ch_drmFd c) (ch_gbm c) (ch_images c) (ch_sync c) (ch_submittingSlot c)
    (ch_submittingValue c) (ch_readyValue c) (ch_peer c) (ch_stop c) (ch_peerGone c) v (ch_readers
    c) (ch_leaseCompletions c) (ch_frameHeld c) (ch_heldReady c) (ch_retiredValue c) (ch_heldSlot
    c) (ch_pendingSlot c) (ch_pendingReady c) (ch_pendingPts c) (ch_pendingArrival c)
    (ch_heldArrival c) (ch_sequence c) (ch_link c) (ch_slotSubmitValue c) (ch_consumedValue c).
Definition set_readers (c : flChannel) (v : Ledger.ReadLedger) : flChannel :=
  mkChannel (ch_isConsumer c) (ch_externalPool c) (ch_name c) (ch_info c) (ch_flags c)
    (ch_peerFeatures c) (ch_bufferReferences c) (ch_slotMetadata c) (ch_pendingMetadata c)
    (ch_heldMetadata c) (ch_drmFd c) (ch_gbm c) (ch_images c) (ch_sync c) (ch_submittingSlot c)
    (ch_submittingValue c) (ch_readyValue c) (ch_peer c) (ch_stop c) (ch_peerGone c)
    (ch_hasPending c) v (ch_leaseCompletions c) (ch_frameHeld c) (ch_heldReady c) (ch_retiredValue
    c) (ch_heldSlot c) (ch_pendingSlot c) (ch_pendingReady c) (ch_pendingPts c) (ch_pendingArrival
    c) (ch_heldArrival c) (ch_sequence c) (ch_link c) (ch_slotSubmitValue c) (ch_consumedValue c).
Definition set_leaseCompletions (c : flChannel) (v : list (Z * Z)) : flChannel :=
  mkChannel (ch_isConsumer c) (ch_externalPool c) (ch_name c) (ch_info c) (ch_flags c)
    (ch_peerFeatures c) (ch_bufferReferences c) (ch_slotMetadata c) (ch_pendingMetadata c)
    (ch_heldMetadata c) (ch_drmFd c) (ch_gbm c) (ch_images c) (ch_sync c) (ch_submittingSlot c)
    (ch_submittingValue c) (ch_readyValue c) (ch_peer c) (ch_stop c) (ch_peerGone c)
    (ch_hasPending c) (ch_readers c) v (ch_frameHeld c) (ch_heldReady c) (ch_retiredValue c)
    (ch_heldSlot c) (ch_pendingSlot c) (ch_pendingReady c) (ch_pendingPts c) (ch_pendingArrival c)
    (ch_heldArrival c) (ch_sequence c) (ch_link c) (ch_slotSubmitValue c) (ch_consumedValue c).
Definition set_frameHeld (c : flChannel) (v : bool) : flChannel :=
  mkChannel (ch_isConsumer c) (ch_externalPool c) (ch_name c) (ch_info c) (ch_flags c)
    (ch_peerFeatures c) (ch_bufferReferences c) (ch_slotMetadata c) (ch_pendingMetadata c)
    (ch_heldMetadata c) (ch_drmFd c) (ch_gbm c) (ch_images c) (ch_sync c) (ch_submittingSlot c)
    (ch_submittingValue c) (ch_readyValue c) (ch_peer c) (ch_stop c) (ch_peerGone c)
    (ch_hasPending c) (ch_readers c) (ch_leaseCompletions c) v (ch_heldReady c) (ch_retiredValue
    c) (ch_heldSlot c) (ch_pendingSlot c) (ch_pendingReady c) (ch_pendingPts c) (ch_pendingArrival
    c) (ch_heldArrival c) (ch_sequence c) (ch_link c) (ch_slotSubmitValue c) (ch_consumedValue c).
Definition set_heldReady (c : flChannel) (v : Z) : flChannel :=
  mkChannel (ch_isConsumer c) (ch_externalPool c) (ch_name c) (ch_info c) (ch_flags c)
    (ch_peerFeatures c) (ch_bufferReferences c) (ch_slotMetadata c) (ch_pendingMetadata c)
    (ch_heldMetadata c) (ch_drmFd c) (ch_gbm c) (ch_images c) (ch_sync c) (ch_submittingSlot c)
    (ch_submittingValue c) (ch_readyValue c) (ch_peer c) (ch_stop c) (ch_peerGone c)
    (ch_hasPending c) (ch_readers c) (ch_leaseCompletions c) (ch_frameHeld c) v (ch_retiredValue
    c) (ch_heldSlot c) (ch_pendingSlot c) (ch_pendingReady c) (ch_pendingPts c) (ch_pendingArrival
    c) (ch_heldArrival c) (ch_sequence c) (ch_link c) (ch_slotSubmitValue c) (ch_consumedValue c).
Definition set_retiredValue (c : flChannel) (v : Z) : flChannel :=
  mkChannel (ch_isConsumer c) (ch_externalPool c) (ch_name c) (ch_info c) (ch_flags c)
    (ch_peerFeatures c) (ch_bufferReferences c) (ch_slotMetadata c) (ch_pendingMetadata c)
    (ch_heldMetadata c) (ch_drmFd c) (ch_gbm c) (ch_images c) (ch_sync c) (ch_submittingSlot c)
    (ch_submittingValue c) (ch_readyValue c) (ch_peer c) (ch_stop c) (ch_peerGone c)
    (ch_hasPending c) (ch_readers c) (ch_leaseCompletions c) (ch_frameHeld c) (ch_heldReady c) v
    (ch_heldSlot c) (ch_pendingSlot c) (ch_pendingReady c) (ch_pendingPts c) (ch_pendingArrival c)
    (ch_heldArrival c) (ch_sequence c) (ch_link c) (ch_slotSubmitValue c) (ch_consumedValue c).
Definition set_heldSlot (c : flChannel) (v : Z) : flChannel :=
  mkChannel (ch_isConsumer c) (ch_externalPool c) (ch_name c) (ch_info c) (ch_flags c)
    (ch_peerFeatures c) (ch_bufferReferences c) (ch_slotMetadata c) (ch_pendingMetadata c)
    (ch_heldMetadata c) (ch_drmFd c) (ch_gbm c) (ch_images c) (ch_sync c) (ch_submittingSlot c)
    (ch_submittingValue c) (ch_readyValue c) (ch_peer c) (ch_stop c) (ch_peerGone c)
    (ch_hasPending c) (ch_readers c) (ch_leaseCompletions c) (ch_frameHeld c) (ch_heldReady c)
    (ch_retiredValue c) v (ch_pendingSlot c) (ch_pendingReady c) (ch_pendingPts c)
    (ch_pendingArrival c) (ch_heldArrival c) (ch_sequence c) (ch_link c) (ch_slotSubmitValue c)
    (ch_consumedValue c).
Definition set_pendingSlot (c : flChannel) (v : Z) : flChannel :=
  mkChannel (ch_isConsumer c) (ch_externalPool c) (ch_name c) (ch_info c) (ch_flags c)
    (ch_peerFeatures c) (ch_bufferReferences c) (ch_slotMetadata c) (ch_pendingMetadata c)
    (ch_heldMetadata c) (ch_drmFd c) (ch_gbm c) (ch_images c) (ch_sync c) (ch_submittingSlot c)
    (ch_submittingValue c) (ch_readyValue c) (ch_peer c) (ch_stop c) (ch_peerGone c)
    (ch_hasPending c) (ch_readers c) (ch_leaseCompletions c) (ch_frameHeld c) (ch_heldReady c)
    (ch_retiredValue c) (ch_heldSlot c) v (ch_pendingReady c) (ch_pendingPts c) (ch_pendingArrival
    c) (ch_heldArrival c) (ch_sequence c) (ch_link c) (ch_slotSubmitValue c) (ch_consumedValue c).
Definition set_pendingReady (c : flChannel) (v : Z) : flChannel :=
  mkChannel (ch_isConsumer c) (ch_externalPool c) (ch_name c) (ch_info c) (ch_flags c)
    (ch_peerFeatures c) (ch_bufferReferences c) (ch_slotMetadata c) (ch_pendingMetadata c)
    (ch_heldMetadata c) (ch_drmFd c) (ch_gbm c) (ch_images c) (ch_sync c) (ch_submittingSlot c)
    (ch_submittingValue c) (ch_readyValue c) (ch_peer c) (ch_stop c) (ch_peerGone c)
    (ch_hasPending c) (ch_readers c) (ch_leaseCompletions c) (ch_frameHeld c) (ch_heldReady c)
    (ch_retiredValue c) (ch_heldSlot c) (ch_pendingSlot c) v (ch_pendingPts c) (ch_pendingArrival
    c) (ch_heldArrival c) (ch_sequence c) (ch_link c) (ch_slotSubmitValue c) (ch_consumedValue c).
Definition set_pendingPts (c : flChannel) (v : Z) : flChannel :=
  mkChannel (ch_isConsumer c) (ch_externalPool c) (ch_name c) (ch_info c) (ch_flags c)
    (ch_peerFeatures c) (ch_bufferReferences c) (ch_slotMetadata c) (ch_pendingMetadata c)
    (ch_heldMetadata c) (ch_drmFd c) (ch_gbm c) (ch_images c) (ch_sync c) (ch_submittingSlot c)
    (ch_submittingValue c) (ch_readyValue c) (ch_peer c) (ch_stop c) (ch_peerGone c)
    (ch_hasPending c) (ch_readers c) (ch_leaseCompletions c) (ch_frameHeld c) (ch_heldReady c)
    (ch_retiredValue c) (ch_heldSlot c) (ch_pendingSlot c) (ch_pendingReady c) v
    (ch_pendingArrival c) (ch_heldArrival c) (ch_sequence c) (ch_link c) (ch_slotSubmitValue c)
    (ch_consumedValue c).
Definition set_pendingArrival (c : flChannel) (v : Z) : flChannel :=
  mkChannel (ch_isConsumer c) (ch_externalPool c) (ch_name c) (ch_info c) (ch_flags c)
    (ch_peerFeatures c) (ch_bufferReferences c) (ch_slotMetadata c) (ch_pendingMetadata c)
    (ch_heldMetadata c) (ch_drmFd c) (ch_gbm c) (ch_images c) (ch_sync c) (ch_submittingSlot c)
    (ch_submittingValue c) (ch_readyValue c) (ch_peer c) (ch_stop c) (ch_peerGone c)
    (ch_hasPending c) (ch_readers c) (ch_leaseCompletions c) (ch_frameHeld c) (ch_heldReady c)
    (ch_retiredValue c) (ch_heldSlot c) (ch_pendingSlot c) (ch_pendingReady c) (ch_pendingPts c) v
    (ch_heldArrival c) (ch_sequence c) (ch_link c) (ch_slotSubmitValue c) (ch_consumedValue c).
Definition set_heldArrival (c : flChannel) (v : Z) : flChannel :=
  mkChannel (ch_isConsumer c) (ch_externalPool c) (ch_name c) (ch_info c) (ch_flags c)
    (ch_peerFeatures c) (ch_bufferReferences c) (ch_slotMetadata c) (ch_pendingMetadata c)
    (ch_heldMetadata c) (ch_drmFd c) (ch_gbm c) (ch_images c) (ch_sync c) (ch_submittingSlot c)
    (ch_submittingValue c) (ch_readyValue c) (ch_peer c) (ch_stop c) (ch_peerGone c)
    (ch_hasPending c) (ch_readers c) (ch_leaseCompletions c) (ch_frameHeld c) (ch_heldReady c)
    (ch_retiredValue c) (ch_heldSlot c) (ch_pendingSlot c) (ch_pendingReady c) (ch_pendingPts c)
    (ch_pendingArrival c) v (ch_sequence c) (ch_link c) (ch_slotSubmitValue c) (ch_consumedValue
    c).
Definition set_sequence (c : flChannel) (v : Z) : flChannel :=
  mkChannel (ch_isConsumer c) (ch_externalPool c) (ch_name c) (ch_info c) (ch_flags c)
    (ch_peerFeatures c) (ch_bufferReferences c) (ch_slotMetadata c) (ch_pendingMetadata c)
    (ch_heldMetadata c) (ch_drmFd c) (ch_gbm c) (ch_images c) (ch_sync c) (ch_submittingSlot c)
    (ch_submittingValue c) (ch_readyValue c) (ch_peer c) (ch_stop c) (ch_peerGone c)
    (ch_hasPending c) (ch_readers c) (ch_leaseCompletions c) (ch_frameHeld c) (ch_heldReady c)
    (ch_retiredValue c) (ch_heldSlot c) (ch_pendingSlot c) (ch_pendingReady c) (ch_pendingPts c)
    (ch_pendingArrival c) (ch_heldArrival c) v (ch_link c) (ch_slotSubmitValue c)
    (ch_consumedValue c).
Definition set_link (c : flChannel) (v : Channel) : flChannel :=
  mkChannel (ch_isConsumer c) (ch_externalPool c) (ch_name c) (ch_info c) (ch_flags c)
    (ch_peerFeatures c) (ch_bufferReferences c) (ch_slotMetadata c) (ch_pendingMetadata c)
    (ch_heldMetadata c) (ch_drmFd c) (ch_gbm c) (ch_images c) (ch_sync c) (ch_submittingSlot c)
    (ch_submittingValue c) (ch_readyValue c) (ch_peer c) (ch_stop c) (ch_peerGone c)
    (ch_hasPending c) (ch_readers c) (ch_leaseCompletions c) (ch_frameHeld c) (ch_heldReady c)
    (ch_retiredValue c) (ch_heldSlot c) (ch_pendingSlot c) (ch_pendingReady c) (ch_pendingPts c)
    (ch_pendingArrival c) (ch_heldArrival c) (ch_sequence c) v (ch_slotSubmitValue c)
    (ch_consumedValue c).
Definition set_slotSubmitValue (c : flChannel) (v : list Z) : flChannel :=
  mkChannel (ch_isConsumer c) (ch_externalPool c) (ch_name c) (ch_info c) (ch_flags c)
    (ch_peerFeatures c) (ch_bufferReferences c) (ch_slotMetadata c) (ch_pendingMetadata c)
    (ch_heldMetadata c) (ch_drmFd c) (ch_gbm c) (ch_images c) (ch_sync c) (ch_submittingSlot c)
    (ch_submittingValue c) (ch_readyValue c) (ch_peer c) (ch_stop c) (ch_peerGone c)
    (ch_hasPending c) (ch_readers c) (ch_leaseCompletions c) (ch_frameHeld c) (ch_heldReady c)
    (ch_retiredValue c) (ch_heldSlot c) (ch_pendingSlot c) (ch_pendingReady c) (ch_pendingPts c)
    (ch_pendingArrival c) (ch_heldArrival c) (ch_sequence c) (ch_link c) v (ch_consumedValue c).
Definition set_consumedValue (c : flChannel) (v : Z) : flChannel :=
  mkChannel (ch_isConsumer c) (ch_externalPool c) (ch_name c) (ch_info c) (ch_flags c)
    (ch_peerFeatures c) (ch_bufferReferences c) (ch_slotMetadata c) (ch_pendingMetadata c)
    (ch_heldMetadata c) (ch_drmFd c) (ch_gbm c) (ch_images c) (ch_sync c) (ch_submittingSlot c)
    (ch_submittingValue c) (ch_readyValue c) (ch_peer c) (ch_stop c) (ch_peerGone c)
    (ch_hasPending c) (ch_readers c) (ch_leaseCompletions c) (ch_frameHeld c) (ch_heldReady c)
    (ch_retiredValue c) (ch_heldSlot c) (ch_pendingSlot c) (ch_pendingReady c) (ch_pendingPts c)
    (ch_pendingArrival c) (ch_heldArrival c) (ch_sequence c) (ch_link c) (ch_slotSubmitValue c) v.


Definition set_generation (i : flChannelInfo) (g : Z) : flChannelInfo :=
  mkChannelInfo (info_version i) (info_width i) (info_height i) (info_format i) (info_poolSize i) g.

(** [++ch->info.generation] *)
Definition bump_generation (c : flChannel) : flChannel :=
  set_info c (set_generation (ch_info c) (wrap64 (info_generation (ch_info c) + 1))).

Definition set_size (i : flChannelInfo) (w h : Z) : flChannelInfo :=
  mkChannelInfo (info_version i) w h (info_format i) (info_poolSize i) (info_generation i).

(** [ch->images.size()] *)
Definition imageCount (c : flChannel) : Z := Z.of_nat (length (ch_images c)).

(** [ch->images[slot]], the pointer; null out of range *)
Definition imageAddr (c : flChannel) (slot : Z) : Z :=
  match ch_images c !! Z.to_nat slot with Some (a, _) => a | None => 0 end.

(** [ch->slotSubmitValue[slot]] *)
Definition submitAt (c : flChannel) (slot : Z) : Z := nth (Z.to_nat slot) (ch_slotSubmitValue c) 0.

Definition set_submitAt (c : flChannel) (slot v : Z) : flChannel :=
  set_slotSubmitValue c (<[Z.to_nat slot := v]> (ch_slotSubmitValue c)).

(** [ch->slotMetadata[slot]] *)
Definition metadataAt (c : flChannel) (slot : Z) : flFrameMetadata :=
  nth (Z.to_nat slot) (ch_slotMetadata c) zeroMetadata.

Definition set_metadataAt (c : flChannel) (slot : Z) (m : flFrameMetadata) : flChannel :=
  set_slotMetadata c (<[Z.to_nat slot := m]> (ch_slotMetadata c)).

Section Shared.
Context `{K : Kernel}.

(** [ch->sync.advance(ch->retiredValue)] and its producer-side twin. *)
Definition advanceRetired (c : flChannel) : M flChannel :=
  let! (s, v) := advance (ch_sync c) (ch_retiredValue c) in
  ret (set_retiredValue (set_sync c s) v).

Definition advanceConsumed (c : flChannel) : M flChannel :=
  let! (s, v) := advance (ch_sync c) (ch_consumedValue c) in
  ret (set_consumedValue (set_sync c s) v).

(** [ch->sync.clear()] *)
Definition clearSync (c : flChannel) : M flChannel :=
  let! s := sync_clear (ch_sync c) in ret (set_sync c s).

Definition freeImages (l : list (Z * flImage)) : M unit :=
  mfor l (fun '(a, img) => freeImage a img).

(** Send on [ch->link] / [ch->peer], keeping its new connection state. *)
Definition sendLink (c : flChannel) (type : Z) (payload fds : list Z) : M (bool * flChannel) :=
  let! (ok, l) := sendWithFds (ch_link c) type payload fds in ret (ok, set_link c l).

Definition sendPeer (c : flChannel) (type : Z) (payload fds : list Z) : M (bool * flChannel) :=
  let! (ok, l) := sendWithFds (ch_peer c) type payload fds in ret (ok, set_peer c l).

Definition recvLink (c : flChannel) : M (option Message * flChannel) :=
  let! (m, l) := recv (ch_link c) in ret (m, set_link c l).

Definition recvPeer (c : flChannel) : M (option Message * flChannel) :=
  let! (m, l) := recv (ch_peer c) in ret (m, set_peer c l).
End Shared.
