(* ===== verification/LinuxProducer.v ===== *)
(** * The producer side of the Linux backend (src/framelink_linux.cpp)

    Attaching to a channel, acquiring a slot, publishing it, the release messages
    that free slots again, and the geometry request.  [ch] and the output
    pointers are taken to be non-null (a null one only makes the first guard
    answer FL_INVALID); a pointer the caller fills in, [flBuffer*] or
    [flFrameMetadata*], is an option.

    The loops that wait for a peer are bounded by fuel: [drainProducerMessages]
    and the reply loop of [flRequestGeometry] handle one message per unit, the
    acquisition loop one 2 ms round.  When it is used up the answer is [None]. *)
From S2P Require Import Prelude Api Kernel Wire SyncFd Ipc LinuxImage LinuxState.
From S2P Require BufferRefs.

Section Producer.
Context `{K : Kernel}.
Implicit Types (c : flChannel).

(** ** Release messages *)

Definition applyRelease c (msg : Message) : M flChannel :=
  return_if! negb (mg_type msg =? MsgType.FrameReleased) with ret c ;;
  match as_ FrameReadyMsg (mg_payload msg) with
  | None => ret c
  | Some fr =>
    let fd := match mg_fds msg with [] => -1 | fd :: _ => fd end in
    let c := set_sync c (push_release (ch_sync c) (fm_readyValue fr) fd) in
    mfor (tail (mg_fds msg)) close ;;
    advanceConsumed c
  end.

(** [for (;;)]: [None] is still draining after [fuel] messages. *)
Fixpoint drainProducerMessages (fuel : nat) c : M (option flChannel) :=
  match fuel with
  | O => ret None
  | S fuel' =>
    let! (result, revents) := poll (pollFd (ch_link c)) in
    return_if! (result <=? 0)
            || negb (truthy (Z.land revents (Z.lor POLLIN (Z.lor POLLHUP POLLERR)))) with ret (Some c) ;;
    let! (msg, c) := recvLink c in
    match msg with
    | None => ret (Some c)
    | Some msg => let! c := applyRelease c msg in drainProducerMessages fuel' c
    end
  end.

(** ** Acquiring *)

(** [ch->slotSubmitValue[i] <= ch->consumedValue && !ch->bufferReferences.busy(i)] *)
Definition slotFree c (i : nat) : bool :=
  (submitAt c (Z.of_nat i) <=? ch_consumedValue c)
  && negb (BufferRefs.busy (ch_bufferReferences c) (Z.of_nat i)).

(** Reserve slot [i]. *)
Definition reserve c (i : nat) : flBuffer * flChannel :=
  (mkBuffer (Z.of_nat i) (imageAddr c (Z.of_nat i)),
   set_metadataAt (set_submitAt c (Z.of_nat i) UINT64_MAX) (Z.of_nat i) zeroMetadata).

(** One round of the acquisition loop after the drain: the scan over the slots. *)
Definition acquireScan c : option (flBuffer * flChannel) :=
  match find_index (slotFree c) (seq 0 (length (ch_images c))) with
  | Some i => Some (reserve c i)
  | None => None
  end.

(** The outer [None]: the drain did not come to an end. *)
Definition acquireRound (drain : nat) c : M (option (option flResult * option flBuffer * flChannel)) :=
  let! drained := drainProducerMessages drain c in
  match drained with
  | None => ret None
  | Some c =>
    return_if! negb (connected (ch_link c)) with ret (Some (Some FL_DISCONNECTED, None, c)) ;;
    let! c := advanceConsumed c in
    match acquireScan c with
    | Some (buf, c) => ret (Some (Some FL_OK, Some buf, c))
    | None => ret (Some (None, None, c))
    end
  end.

Fixpoint acquireLoop (fuel drain : nat) (timeoutMs waited : Z) c
  : M (option (flResult * option flBuffer * flChannel)) :=
  match fuel with
  | O => ret None
  | S fuel' =>
    let! round := acquireRound drain c in
    match round with
    | None => ret None
    | Some (Some r, buf, c) => ret (Some (r, buf, c))
    | Some (None, buf, c) =>
      return_if! timeoutMs <=? waited with ret (Some (FL_TIMEOUT, None, c)) ;;
      usleep 2000 ;;
      acquireLoop fuel' drain timeoutMs (wrap32 (waited + 2)) c
    end
  end.

Definition acquireFuel (timeoutMs : Z) : nat := S (S (Z.to_nat (timeoutMs / 2))).

(** [None]: it has not come back, because a drain has not; see
    [linux_acquire_exact]. *)
Definition flAcquireBuffer (drain : nat) c (timeoutMs : Z)
  : M (option (flResult * option flBuffer * flChannel)) :=
  return_if! ch_isConsumer c with ret (Some (FL_INVALID, None, c)) ;;
  return_if! negb (connected (ch_link c)) with ret (Some (FL_DISCONNECTED, None, c)) ;;
  acquireLoop (acquireFuel timeoutMs) drain timeoutMs 0 c.

(** [buf->slot < ch->images.size() && buf->image == ch->images[buf->slot]] *)
Definition ownBuffer c (buf : flBuffer) : bool :=
  (buf_slot buf <? imageCount c) && (buf_image buf =? imageAddr c (buf_slot buf)).

(** [flImageUnmap(buf->image)] *)
Definition unmapSlot c (slot : Z) : M flChannel :=
  match ch_images c !! Z.to_nat slot with
  | None => ret c
  | Some (a, img) =>
    let! img := flImageUnmap img in
    ret (set_images c (<[Z.to_nat slot := (a, img)]> (ch_images c)))
  end.

Definition flCancelBuffer c (buf : option flBuffer) : M (flResult * flChannel) :=
  match buf with
  | None => ret (FL_INVALID, c)
  | Some buf =>
    return_if! ch_isConsumer c || negb (ownBuffer c buf)
            || negb (submitAt c (buf_slot buf) =? UINT64_MAX) with ret (FL_INVALID, c) ;;
    return_if! truthy (ch_submittingValue c) && (ch_submittingSlot c =? buf_slot buf)
      with ret (FL_BUSY, c) ;;
    let! c := unmapSlot c (buf_slot buf) in
    ret (FL_OK, set_submitAt c (buf_slot buf) 0)
  end.

(** ** Publishing *)

(** The result and [*signalValue]. *)
Definition flBeginSubmit c (buf : option flBuffer) (signalValue : Z) : flResult * Z * flChannel :=
  match buf with
  | None => (FL_INVALID, signalValue, c)
  | Some buf =>
    return_if ch_isConsumer c || negb (ownBuffer c buf)
           || negb (submitAt c (buf_slot buf) =? UINT64_MAX)
      with (FL_INVALID, signalValue, c) ;;
    return_if negb (connected (ch_link c)) with (FL_DISCONNECTED, signalValue, c) ;;
    return_if truthy (ch_submittingValue c) with (FL_BUSY, signalValue, c) ;;
    return_if truthy (Z.land (ch_peerFeatures c) (Z.shiftl FrameMetadataFeature 16))
           && negb (truthy (md_version (metadataAt c (buf_slot buf))))
      with (FL_FORMAT_UNSUPPORTED, signalValue, c) ;;
    return_if UINT64_MAX - 1 <=? ch_readyValue c with (FL_INVALID, signalValue, c) ;;
    let v := ch_readyValue c + 1 in
    (FL_OK, v,
     set_submittingValue (set_readyValue (set_submittingSlot c (buf_slot buf)) v) v)
  end.

(** Record the submission and announce the frame. *)
Definition publish c (slot value pts fence : Z) : M (flResult * flChannel) :=
  let c := set_submitAt c slot value in
  let c := set_submittingSlot (set_submittingValue c 0) UINT32_MAX in
  let fr := mkFrameReady slot 0 value pts in
  let! (ok, l) := sendFrame (ch_link c) fr (metadataAt c slot) fence in
  ret (if (ok : bool) then FL_OK else FL_DISCONNECTED, set_link c l).

Definition flEndSubmit c (buf : option flBuffer) (signalValue ptsNs : Z) : M (flResult * flChannel) :=
  match buf with
  | None => ret (FL_INVALID, c)
  | Some buf =>
    return_if! ch_isConsumer c || negb (ownBuffer c buf)
            || negb (submitAt c (buf_slot buf) =? UINT64_MAX)
            || negb (truthy signalValue) || negb (signalValue =? ch_submittingValue c)
            || negb (buf_slot buf =? ch_submittingSlot c) with ret (FL_INVALID, c) ;;
    return_if! negb (connected (ch_link c)) with ret (FL_DISCONNECTED, c) ;;
    publish c (buf_slot buf) signalValue ptsNs (-1)
  end.

Definition flSubmit c (buf : option flBuffer) (ptsNs : Z) : M (flResult * flChannel) :=
  let '(r, v, c) := flBeginSubmit c buf 0 in
  if bool_decide (r = FL_OK) then flEndSubmit c buf v ptsNs else ret (r, c).

Definition flSubmitSyncFd c (buffer : option flBuffer) (fd pts : Z) : M (flResult * flChannel) :=
  match buffer with
  | None => ret (FL_INVALID, c)
  | Some buf =>
    return_if! ch_isConsumer c || negb (ownBuffer c buf) with ret (FL_INVALID, c) ;;
    return_if! negb (connected (ch_link c)) with ret (FL_DISCONNECTED, c) ;;
    let '(begun, value, c) := flBeginSubmit c (Some buf) 0 in
    return_if! negb (bool_decide (begun = FL_OK)) with ret (begun, c) ;;
    let! c := unmapSlot c (buf_slot buf) in
    publish c (buf_slot buf) value pts fd
  end.

(** ** Metadata and references of a reserved buffer *)

Definition metadataReservation c (buffer : flBuffer) : bool :=
  ownBuffer c buffer && (submitAt c (buf_slot buffer) =? UINT64_MAX).

Definition flSetFrameMetadata c (buffer : option flBuffer) (metadata : option flFrameMetadata)
  : flResult * flChannel :=
  match buffer, metadata with
  | Some buffer, Some metadata =>
    return_if ch_isConsumer c || negb (metadataReservation c buffer) with (FL_INVALID, c) ;;
    return_if truthy (ch_submittingValue c) with (FL_BUSY, c) ;;
    return_if negb (truthy (Z.land (ch_peerFeatures c) FrameMetadataFeature))
      with (FL_FORMAT_UNSUPPORTED, c) ;;
    let result := validateMetadata metadata in
    return_if negb (bool_decide (result = FL_OK)) with (result, c) ;;
    (FL_OK, set_metadataAt c (buf_slot buffer) metadata)
  | _, _ => (FL_INVALID, c)
  end.

(** [next] is the process-wide reference counter. *)
Definition flRetainBufferReference c (buffer : option flBuffer) (next reference : Z)
  : flResult * Z * flChannel * Z :=
  match buffer with
  | Some buffer =>
    return_if ch_isConsumer c || negb (metadataReservation c buffer)
      with (FL_INVALID, reference, c, next) ;;
    let '(r, t, refs, next) :=
      BufferRefs.retain (ch_bufferReferences c) (buf_slot buffer) next reference in
    (r, t, set_bufferReferences c refs, next)
  | None => (FL_INVALID, reference, c, next)
  end.

Definition flReleaseBufferReference c (reference : Z) : flResult * flChannel :=
  return_if ch_isConsumer c with (FL_INVALID, c) ;;
  let '(r, refs) := BufferRefs.release (ch_bufferReferences c) reference in
  (r, set_bufferReferences c refs).

(** ** Attaching *)

(** The per-slot plane checks of [importRing]. *)
Definition ringPlanesOk (rd : RingDescMsg) (expected : nat) : bool :=
  forallb (fun i =>
    (nth i (rd_planeCount rd) 0 =? Z.of_nat expected)
    && forallb (fun p =>
         (if Nat.eqb expected 2 then rd_width rd else rd_width rd * 4)
         <=? plane_at (rd_planeStride rd) i p) (seq 0 expected))
    (seq 0 (Z.to_nat (rd_poolSize rd))).

(** [auto* img = new flImage(); ...] for slot [i]. *)
Definition importImage (rd : RingDescMsg) (expected : nat) (fds : list Z) (i : nat) : flImage :=
  let row l := map (fun p => if (p <? expected)%nat then plane_at l i p else 0) (seq 0 4) in
  let fd p := if (p <? expected)%nat then nth (i * expected + p) fds 0 else 0 in
  mkImage 0
    (mkDmabuf (map fd (seq 0 4)) (row (rd_planeOffset rd)) (row (rd_planeStride rd))
       (Z.of_nat expected) (rd_fourcc rd) (rd_modifier rd))
    (rd_width rd) (rd_height rd) false 0 [0;0;0;0] [0;0;0;0] zeroMapped.

Definition importRing c (rd : RingDescMsg) (fds : list Z) : M (flResult * flChannel) :=
  return_if! negb (truthy (rd_poolSize rd)) || (Z.of_nat kMaxPool <? rd_poolSize rd)
          || negb (validGeometry (rd_width rd) (rd_height rd) (rd_format rd))
          || negb (rd_fourcc rd =? fourccFor (rd_format rd)) || negb (truthy (rd_fourcc rd))
    with ret (FL_DISCONNECTED, c) ;;
  let expected := if rd_format rd =? FL_FORMAT_NV12 then 2%nat else 1%nat in
  return_if! negb (ringPlanesOk rd expected) with ret (FL_DISCONNECTED, c) ;;
  let count := rd_poolSize rd * Z.of_nat expected in
  return_if! negb (Z.of_nat (length fds) =? count) with ret (FL_DISCONNECTED, c) ;;
  freeImages (ch_images c) ;;
  let! images := mfold (seq 0 (Z.to_nat (rd_poolSize rd))) (fun i l =>
    let! a := new_object in ret (l ++ [(a, importImage rd expected fds i)])) [] in
  let c := set_images c images in
  let c := set_slotSubmitValue c (replicate (Z.to_nat (rd_poolSize rd)) 0) in
  let c := set_readyValue (set_consumedValue c 0) 0 in
  ret (FL_OK,
       set_info c (mkChannelInfo (info_version (ch_info c)) (rd_width rd) (rd_height rd)
                     (rd_format rd) (rd_poolSize rd) (rd_generation rd))).

(** [delete ch]: the members that own descriptors. *)
Definition deleteChannel c : M unit :=
  let! _ := chan_close (ch_link c) in
  mfor (rev (map snd (ch_leaseCompletions c))) close_valid ;;
  let! _ := chan_close (ch_peer c) in
  let! _ := sync_clear (ch_sync c) in
  ret tt.

(** The hello exchange of [flOpenProducer], up to the ring description. *)
Definition producerHello c : M (option flResult * flChannel) :=
  let! (helloMsg, c) := recvLink c in
  let fds := match helloMsg with Some m => mg_fds m | None => [] end in
  return_if! negb (Nat.eqb (length fds) 0) with (mfor fds close ;; ret (Some FL_INVALID, c)) ;;
  let isType t := match helloMsg with Some m => mg_type m =? t | None => false end in
  return_if! isType MsgType.Busy with ret (Some FL_BUSY, c) ;;
  let srv := match helloMsg with
             | Some m => if isType MsgType.Hello
                            && Nat.eqb (length (mg_payload m)) (sizeof HelloMsg)
                         then as_ HelloMsg (mg_payload m) else None
             | None => None
             end in
  match srv with
  | None => ret (Some FL_DISCONNECTED, c)
  | Some srv =>
    return_if! negb (he_version srv =? FL_VERSION) with ret (Some FL_VERSION_MISMATCH, c) ;;
    return_if! negb (compatibleFeatures (localFeatures 0) (he_pad srv))
      with ret (Some FL_VERSION_MISMATCH, c) ;;
    let c := set_peerFeatures c (he_pad srv) in
    let mine := mkHello FL_VERSION k_getpid 0 (localFeatures 0) (replicate 8 0) in
    let! (ok, c) := sendLink c MsgType.Hello (encode mine) [] in
    return_if! negb ok with ret (Some FL_INTERNAL, c) ;;
    ret (None, c)
  end.

(** The ring description: the second half of [flOpenProducer]. *)
Definition producerRing c : M (flResult * flChannel) :=
  let! (ring, c) := recvLink c in
  match ring with
  | None => ret (FL_DISCONNECTED, c)
  | Some ring =>
    return_if! mg_type ring =? MsgType.Busy with ret (FL_BUSY, c) ;;
    match (if mg_type ring =? MsgType.RingDesc then as_ RingDescMsg (mg_payload ring) else None) with
    | None => ret (FL_DISCONNECTED, c)
    | Some rd =>
      let! (imported, c) := importRing c rd (mg_fds ring) in
      return_if! negb (bool_decide (imported = FL_OK))
        with (mfor (mg_fds ring) close ;; ret (imported, c)) ;;
      ret (FL_OK, set_info c (mkChannelInfo FL_VERSION (info_width (ch_info c))
        (info_height (ch_info c)) (info_format (ch_info c)) (info_poolSize (ch_info c))
        (info_generation (ch_info c))))
    end
  end.

Definition flOpenProducer (name : list Z) : M (flResult * option flChannel) :=
  let! link := connect name 300 in
  let c := set_link (set_name newChannel name) link in
  return_if! negb (connected link) with (deleteChannel c ;; ret (FL_NOT_FOUND, None)) ;;
  let! (refused, c) := producerHello c in
  match refused with
  | Some r => deleteChannel c ;; ret (r, None)
  | None =>
    let! (r, c) := producerRing c in
    return_if! negb (bool_decide (r = FL_OK)) with (deleteChannel c ;; ret (r, None)) ;;
    ret (FL_OK, Some c)
  end.

(** ** Asking for another geometry *)

(** The reply loop; [None] is still waiting. *)
Fixpoint geometryLoop (fuel : nat) c : M (option flResult * flChannel) :=
  match fuel with
  | O => ret (None, c)
  | S fuel' =>
    let! (reply, c) := recvLink c in
    match reply with
    | None => ret (Some FL_DISCONNECTED, c)
    | Some reply =>
      return_if! mg_type reply =? MsgType.FrameReleased
        with (let! c := applyRelease c reply in geometryLoop fuel' c) ;;
      match (if mg_type reply =? MsgType.RingDesc then as_ RingDescMsg (mg_payload reply) else None) with
      | None => ret (Some FL_DISCONNECTED, c)
      | Some rd =>
        return_if! rd_generation rd =? info_generation (ch_info c)
          with (mfor (mg_fds reply) close ;; ret (Some FL_OK, c)) ;;
        let! c := clearSync c in
        let c := set_readyValue c 0 in
        let! (result, c) := importRing c rd (mg_fds reply) in
        (if bool_decide (result = FL_OK) then ret tt else mfor (mg_fds reply) close) ;;
        ret (Some result, c)
      end
    end
  end.

Definition flRequestGeometry (fuel : nat) c (width height format : Z)
  : M (option flResult * flChannel) :=
  return_if! ch_isConsumer c || negb (validGeometry width height format)
    with ret (Some FL_INVALID, c) ;;
  return_if! negb (truthy (fourccFor format)) with ret (Some FL_FORMAT_UNSUPPORTED, c) ;;
  return_if! negb (connected (ch_link c)) with ret (Some FL_DISCONNECTED, c) ;;
  return_if! negb (BufferRefs.empty (ch_bufferReferences c)) with ret (Some FL_BUSY, c) ;;
  return_if! existsb (fun value => value =? UINT64_MAX) (ch_slotSubmitValue c)
    with ret (Some FL_BUSY, c) ;;
  let! (ok, c) := sendLink c MsgType.RequestGeometry (encode (mkGeometry width height format 0)) [] in
  return_if! negb ok with ret (Some FL_DISCONNECTED, c) ;;
  geometryLoop fuel c.
End Producer.
