(* ===== verification/LinuxRecycle.v ===== *)
(** * Acquiring and recycling slots on Linux

    [flAcquireBuffer] answers with the slot the contract names or a justified
    refusal, and comes back unless the peer never stops sending; a release message
    frees every slot it covers as soon as its fence is ready - the skipped frames
    included. *)
From S2P Require Import Prelude Api Kernel Wire SyncFd Ipc LinuxImage LinuxState LinuxProducer.
From S2P Require BufferRefs.

(** Time slept, in microseconds. *)
Definition slept (es : list Effect) : Z :=
  fold_right (fun e n => match e with ESleep us => us + n | _ => n end) 0 es.

Lemma slept_app l l' : slept (l ++ l') = slept l + slept l'.
Proof. unfold slept. induction l as [|e l IH]; simpl; [lia|]. destruct e; lia. Qed.

Lemma slept_closes l : slept (map EClose l) = 0.
Proof. unfold slept. induction l as [|e l IH]; simpl; [lia|]. exact IH. Qed.

(** Draining and advancing leave the ring alone and only raise the consumed value. *)
Definition progress (c c' : flChannel) : Prop :=
  ch_images c' = ch_images c /\ ch_slotSubmitValue c' = ch_slotSubmitValue c
  /\ ch_bufferReferences c' = ch_bufferReferences c /\ ch_slotMetadata c' = ch_slotMetadata c
  /\ ch_consumedValue c <= ch_consumedValue c'.

#[export] Instance progress_preorder : PreOrder progress.
Proof.
  split.
  - intros c. unfold progress. split_and!; (done || lia).
  - unfold progress. intros c1 c2 c3 (?&?&?&?&?) (?&?&?&?&?). split_and!; congruence || lia.
Qed.

Section Recycle.
Context `{K : Kernel}.
Implicit Types (c : flChannel).

Definition silent_progress c c' (es : list Effect) : Prop := progress c c' /\ slept es = 0.

Lemma advanceLoop_awake l v :
  emits (advanceLoop l v) (fun r es => slept es = 0 /\ v <= r.2).
Proof.
  revert v. induction l as [|[x fd] l IH]; intros v; cbn [advanceLoop]; [apply emits_ret; simpl; lia|].
  apply emits_bind, emits_fenceReady. intros b _. destruct b; [|apply emits_ret; simpl; lia].
  apply emits_bind, emits_close_valid. eapply emits_mono; [apply IH|]. intros r es [H1 H2].
  rewrite app_nil_r, slept_app, H1. destruct (0 <=? fd); simpl; destruct (v <? x) eqn:E; lia.
Qed.

Lemma advanceConsumed_awake c : emits (advanceConsumed c) (silent_progress c).
Proof.
  unfold advanceConsumed, advance. repeat apply emits_bind.
  eapply emits_mono; [apply advanceLoop_awake|]. intros [rel v] es [H1 H2].
  apply emits_ret, emits_ret. split; [|done]. simpl in H2. unfold progress. split_and!; done.
Qed.

Lemma applyRelease_awake c m : emits (applyRelease c m) (silent_progress c).
Proof.
  unfold applyRelease. destruct (negb _); [by apply emits_ret|].
  destruct (as_ FrameReadyMsg _) as [fr|]; [|by apply emits_ret].
  apply emits_bind, emits_mfor_close. eapply emits_mono; [apply advanceConsumed_awake|].
  intros c' es [H1 H2]. split; [exact H1|].
  by rewrite slept_app, H2, <- map_rev, slept_closes.
Qed.

Lemma recvLink_awake c : emits (recvLink c) (fun r es => silent_progress c r.2 es).
Proof.
  unfold recvLink, recv. apply emits_bind. destruct (negb _); [by repeat apply emits_ret|].
  apply emits_bind, emits_ask. intros r. destruct (parseDatagram _ _); [by repeat apply emits_ret|].
  apply emits_bind, emits_mfor_close, emits_ret, emits_ret. split; [done|].
  by rewrite !app_nil_l, app_nil_r, <- map_rev, slept_closes.
Qed.

Lemma drain_awake fuel c :
  emits (drainProducerMessages fuel c) (fun o es => forall c', o = Some c' -> silent_progress c c' es).
Proof.
  revert c. induction fuel as [|fuel IH]; intros c; cbn [drainProducerMessages]; [by apply emits_ret|].
  apply emits_bind, emits_ask. intros [result revents]. destruct (_ || _); [by apply emits_ret; intros c' [= <-]|].
  apply emits_bind. eapply emits_mono; [apply recvLink_awake|]. intros [[m|] c1] es [H1 H2];
    [|apply emits_ret; intros c' [= <-]; split; [exact H1|by rewrite app_nil_l, app_nil_r]].
  apply emits_bind. eapply emits_mono; [apply applyRelease_awake|]. intros c2 es2 [H3 H4].
  eapply emits_mono; [apply IH|]. intros o es3 Ho c3 E3. destruct (Ho c3 E3) as [H5 H6]. split.
  - simpl in H1. by rewrite H1, H3.
  - rewrite app_nil_r, !slept_app. lia.
Qed.

(** Slot [i] is the first one free once everything up to [consumed] is consumed. *)
Definition first_free c (consumed : Z) (i : nat) : Prop :=
  slotFree (set_consumedValue c consumed) i = true
  /\ forall j, (j < i)%nat -> slotFree (set_consumedValue c consumed) j = false.

(** What an acquisition ends with. *)
Definition acquired_or_refused c (timeoutMs : Z) (o : flResult * option flBuffer * flChannel)
  (es : list Effect) : Prop :=
  let '(r, buf, c') := o in
  match r, buf with
  | FL_OK, Some b =>
    exists consumed i, (i < length (ch_images c))%nat /\ ch_consumedValue c <= consumed
      /\ first_free c consumed i
      /\ b = mkBuffer (Z.of_nat i) (imageAddr c (Z.of_nat i))
      /\ ch_slotSubmitValue c' = <[i := UINT64_MAX]> (ch_slotSubmitValue c)
      /\ ch_slotMetadata c' = <[i := zeroMetadata]> (ch_slotMetadata c)
      /\ ch_images c' = ch_images c
  | FL_TIMEOUT, None =>
    progress c c' /\ timeoutMs * 1000 <= slept es
    /\ forall i, (i < length (ch_images c))%nat -> slotFree c' i = false
  | FL_DISCONNECTED, None => progress c c'
  | FL_INVALID, None => c' = c /\ ch_isConsumer c = true
  | _, _ => False
  end.

Lemma slotFree_progress c c' i :
  progress c c' -> slotFree (set_consumedValue c (ch_consumedValue c')) i = slotFree c' i.
Proof.
  intros (Hi & Hs & Hb & _). unfold slotFree, submitAt. simpl. by rewrite Hs, Hb.
Qed.

Lemma acquireRound_emits drain c :
  emits (acquireRound drain c) (fun o es => forall r buf c', o = Some (r, buf, c') -> slept es = 0 /\
    match r with
    | None => buf = None /\ progress c c'
              /\ forall i, (i < length (ch_images c))%nat -> slotFree c' i = false
    | Some r => acquired_or_refused c 0 (r, buf, c') es /\ r <> FL_TIMEOUT /\ r <> FL_INVALID
    end).
Proof.
  unfold acquireRound. apply emits_bind. eapply emits_mono; [apply drain_awake|].
  intros [c1|] es1 HD; [|by apply emits_ret]. destruct (HD c1 eq_refl) as [H1 H2]. clear HD.
  destruct (negb _); [by apply emits_ret; intros r buf c' [= <- <- <-]|].
  apply emits_bind. eapply emits_mono; [apply advanceConsumed_awake|].
  intros c2 es2 [H3 H4]. assert (progress c c2) as HP by (by rewrite H1, H3).
  assert (slept (es2 ++ es1) = 0) as HS by (rewrite slept_app; lia).
  assert (length (ch_images c2) = length (ch_images c)) as HL by (by rewrite (proj1 HP)).
  unfold acquireScan. destruct (find_index _ _) as [i|] eqn:E; apply emits_ret; intros r buf c' [= <- <- <-]; (split; [done|]).
  - apply find_index_Some in E as (x & Hx & Hfree & Hmin). rewrite lookup_seq in Hx.
    destruct Hx as [-> Hi]. simpl in Hfree, Hmin. split; [|done].
    exists (ch_consumedValue c2), i. split_and!; [lia|apply HP| | | | | ].
    + split; [by rewrite slotFree_progress|]. intros j Hj. rewrite slotFree_progress by done.
      apply (Hmin j j Hj). apply lookup_seq. lia.
    + unfold imageAddr. by rewrite (proj1 HP).
    + destruct HP as (_ & HQ & _). simpl. by rewrite Nat2Z.id, HQ.
    + destruct HP as (_ & _ & _ & HQ & _). simpl. by rewrite Nat2Z.id, HQ.
    + apply HP.
  - split; [done|]. split; [done|]. intros i Hi. rewrite find_index_None in E.
    apply (E i i). apply lookup_seq. lia.
Qed.

Lemma first_free_progress c0 c consumed i :
  progress c0 c -> first_free c consumed i -> first_free c0 consumed i.
Proof.
  intros (Hi & Hs & Hb & _). unfold first_free, slotFree, submitAt. simpl. by rewrite Hs, Hb.
Qed.

Lemma outcome_progress c0 c timeoutMs r buf c' es es' :
  progress c0 c -> acquired_or_refused c 0 (r, buf, c') es -> r <> FL_TIMEOUT -> r <> FL_INVALID ->
  acquired_or_refused c0 timeoutMs (r, buf, c') es'.
Proof.
  intros HP H H1 H2. destruct r, buf as [b|]; try done; simpl in H |- *.
  - destruct H as (consumed & i & Hi & Hc & Hf & -> & Hs & Hm & Himg).
    pose proof (first_free_progress c0 c consumed i HP Hf) as Hf0.
    destruct HP as (HPi & HPs & HPb & HPm & HPc).
    exists consumed, i. rewrite HPi in Hi, Himg. rewrite HPs in Hs. rewrite HPm in Hm.
    split_and!; try done; [lia|]. unfold imageAddr. by rewrite HPi.
  - by transitivity c.
Qed.

Lemma acquireLoop_emits fuel drain timeoutMs waited c0 c es0 :
  0 <= waited <= timeoutMs + 1 -> timeoutMs <= UINT32_MAX - 2 ->
  progress c0 c -> waited * 1000 <= slept es0 ->
  emits (acquireLoop fuel drain timeoutMs waited c)
    (fun o es => forall x, o = Some x -> acquired_or_refused c0 timeoutMs x (es ++ es0)).
Proof.
  revert waited c es0. induction fuel as [|fuel IH]; intros waited c es0 Hw Ht HP Hs;
    cbn [acquireLoop]; [by apply emits_ret|].
  apply emits_bind. eapply emits_mono; [apply acquireRound_emits|].
  intros [[[r buf] c1]|] es1 HR; [|by apply emits_ret]. destruct (HR _ _ _ eq_refl) as [Hs1 H1]. clear HR.
  destruct r as [r|].
  - apply emits_ret. intros x [= <-]. destruct H1 as (H1 & Hn1 & Hn2). by eapply outcome_progress.
  - destruct H1 as (-> & HP1 & Hnone). destruct (timeoutMs <=? waited) eqn:E.
    + apply emits_ret. intros x [= <-]. simpl. split; [by transitivity c|]. rewrite slept_app. split; [lia|].
      intros i Hi. apply Hnone. by rewrite (proj1 HP).
    + apply emits_bind, emits_effect.
      eapply emits_mono; [apply (IH (wrap32 (waited + 2)) c1 (ESleep 2000 :: es1 ++ es0))|].
      * rewrite wrap32_small by ulia. lia.
      * done.
      * by transitivity c.
      * rewrite wrap32_small by ulia. change (slept (ESleep 2000 :: es1 ++ es0)) with (2000 + slept (es1 ++ es0)).
        rewrite slept_app. lia.
      * intros o es. cbv beta. rewrite <- !app_assoc. done.
Qed.

(** ** Coming back *)

(** At time [t] a receive on [fd] delivers a message. *)
Definition delivers (fd : Z) (t : nat) : Prop :=
  is_Some (parseDatagram (k_recvmsg t fd) (collectFds (k_recvmsg t fd))).

(** Whenever [m] is run, time does not go back, and its result satisfies [Q]. *)
Definition runs {A} (m : M A) (Q : A -> Prop) : Prop := forall w, (w_tick w <= w_tick (m w).2)%nat /\ Q (m w).1.

Lemma runs_value {A} (x : A) (Q : A -> Prop) : Q x -> runs (ret x) Q.
Proof. intros H w. by split. Qed.
Lemma runs_ask {A} (f : nat -> A) (Q : A -> Prop) : (forall x, Q x) -> runs (ask f) Q.
Proof. intros H w. split; [simpl; lia|apply H]. Qed.
Lemma runs_effect e (Q : unit -> Prop) : Q tt -> runs (effect e) Q.
Proof. intros H w. split; [simpl; lia|exact H]. Qed.
Lemma runs_bind {A B} (m : M A) (k : A -> M B) P Q : runs m P -> (forall x, P x -> runs (k x) Q) -> runs (bind m k) Q.
Proof.
  intros Hm Hk w. rewrite bind_run. destruct (Hm w) as [H1 H2]. destruct (Hk _ H2 (m w).2). split; [lia|done].
Qed.
Lemma runs_close_valid fd : runs (close_valid fd) (fun _ => True).
Proof. unfold close_valid. destruct (_ <=? _); [by apply runs_effect|by apply runs_value]. Qed.
Lemma runs_mfor l : runs (mfor l close) (fun _ => True).
Proof. induction l as [|x l IH]; cbn [mfor]; [by apply runs_value|]. apply (runs_bind _ _ (fun _ => True)); [by apply runs_effect|by intros]. Qed.

Lemma advanceLoop_runs l v : runs (advanceLoop l v) (fun _ => True).
Proof.
  revert v. induction l as [|[x fd] l IH]; intros v; cbn [advanceLoop]; [by apply runs_value|].
  apply (runs_bind _ _ (fun _ => True)).
  { unfold fenceReady. destruct (fd <? 0); [by apply runs_value|]. eapply runs_bind; [by apply (runs_ask _ (fun _ => True))|].
    intros [result revents] _. by apply runs_value. }
  intros [] _; [|by apply runs_value]. eapply runs_bind; [apply runs_close_valid|]. intros _ _. apply IH.
Qed.

Definition same_link c c' : Prop := ch_link c' = ch_link c.

Lemma advanceConsumed_runs c : runs (advanceConsumed c) (same_link c).
Proof.
  unfold advanceConsumed, advance. eapply (runs_bind _ _ (fun _ => True)).
  - eapply runs_bind; [apply advanceLoop_runs|]. intros [rel v] _. by apply runs_value.
  - intros [sync v] _. by apply runs_value.
Qed.

Lemma applyRelease_runs c m : runs (applyRelease c m) (same_link c).
Proof.
  unfold applyRelease. destruct (negb _); [by apply runs_value|]. destruct (as_ _ _); [|by apply runs_value].
  eapply runs_bind; [apply runs_mfor|]. intros _ _. apply (advanceConsumed_runs (set_sync c _)).
Qed.

(** A receive takes time, and a message it delivers is one of the peer's. *)
Lemma recvLink_run c w : let '(m, c', w') := recvLink c w in
  (w_tick w <= w_tick w')%nat /\ pollFd (ch_link c') = pollFd (ch_link c)
  /\ (m <> None -> delivers (pollFd (ch_link c)) (w_tick w) /\ (w_tick w < w_tick w')%nat).
Proof.
  unfold recvLink, recv. destruct (connected_ (ch_link c)); cbn [negb]; [|by cbn].
  rewrite !bind_run. cbn [ask fst snd]. set (rv := k_recvmsg _ _).
  destruct (parseDatagram rv (collectFds rv)) as [m|] eqn:E.
  - cbn. split; [lia|]. split; [done|]. intros _. split; [by eexists|lia].
  - rewrite bind_run. destruct (runs_mfor (collectFds rv) (mkWorld (S (w_tick w)) (w_log w))) as [Ht _]. cbn in *.
    split; [lia|]. by split.
Qed.

(** [n] bounds the messages the peer still sends from time [t] on. *)
Definition at_most (fd : Z) (t n : nat) : Prop :=
  exists times, length times = n /\ forall t', (t <= t')%nat -> delivers fd t' -> t' ∈ times.

Lemma at_most_later fd t t' n : (t <= t')%nat -> at_most fd t n -> at_most fd t' n.
Proof. intros Ht (times & Hl & H). exists times. split; [done|]. intros t2 H2. apply H. lia. Qed.

Lemma at_most_delivered fd t t' n : delivers fd t -> (t < t')%nat -> at_most fd t n ->
  exists n', n = S n' /\ at_most fd t' n'.
Proof.
  intros Hd Ht (times & Hl & H). pose proof (H t ltac:(lia) Hd) as Hin.
  apply list_elem_of_split in Hin as (l1 & l2 & ->). exists (length (l1 ++ l2)). split.
  { rewrite <- Hl, !length_app. simpl. lia. }
  exists (l1 ++ l2). split; [done|]. intros t2 H2 Hd2. pose proof (H t2 ltac:(lia) Hd2) as Hin.
  rewrite !elem_of_app, elem_of_cons in *. destruct Hin as [?|[->|?]]; [by left|lia|by right].
Qed.

(** A drain with more fuel than messages comes to an end. *)
Lemma drain_ends fuel c w n : at_most (pollFd (ch_link c)) (w_tick w) n -> (n < fuel)%nat ->
  let '(o, w') := drainProducerMessages fuel c w in
  (w_tick w <= w_tick w')%nat /\ exists c', o = Some c' /\ pollFd (ch_link c') = pollFd (ch_link c).
Proof.
  revert c w n. induction fuel as [|fuel IH]; intros c w n Ha Hn; [lia|]. cbn [drainProducerMessages].
  rewrite bind_run. unfold poll. cbn [ask fst snd]. destruct (k_poll _ _) as [result revents].
  destruct (_ || _); [cbn; split; [lia|by eexists]|]. rewrite bind_run.
  set (w1 := mkWorld (S (w_tick w)) (w_log w)). pose proof (recvLink_run c w1) as Hr.
  destruct (recvLink c w1) as [[m c1] w2]. destruct Hr as (Ht & Hfd & Hm). cbn [fst snd].
  assert (w_tick w <= w_tick w2)%nat as Ht2 by (cbn in Ht; lia).
  destruct m as [m|]; [|cbn; split; [done|by eexists]].
  destruct (Hm ltac:(done)) as [Hd Hlt]. rewrite bind_run. pose proof (applyRelease_runs c1 m w2) as [Ht3 Hl].
  destruct (applyRelease c1 m w2) as [c2 w3]. cbn [fst snd] in *.
  destruct (at_most_delivered (pollFd (ch_link c)) (w_tick w1) (w_tick w3) n) as (n' & -> & Ha'); [done|lia| |].
  { eapply at_most_later; [|exact Ha]. cbn. lia. }
  specialize (IH c2 w3 n'). rewrite Hl, Hfd in IH. specialize (IH Ha' ltac:(lia)).
  destruct (drainProducerMessages fuel c2 w3) as [o w4]. destruct IH as (Ht4 & c' & -> & Hc'). split; [lia|]. by eexists.
Qed.

Lemma acquireLoop_ends fuel drain timeoutMs waited c w n :
  at_most (pollFd (ch_link c)) (w_tick w) n -> (n < drain)%nat ->
  0 <= waited <= timeoutMs + 1 -> timeoutMs <= UINT32_MAX - 2 -> timeoutMs < waited + 2 * (Z.of_nat fuel - 1) ->
  (acquireLoop fuel drain timeoutMs waited c w).1 <> None.
Proof.
  intros Ha Hn. revert waited c w Ha. induction fuel as [|fuel IH]; intros waited c w Ha Hw Ht Hf; [lia|].
  cbn [acquireLoop]. rewrite bind_run. unfold acquireRound. rewrite bind_run.
  pose proof (drain_ends drain c w n Ha Hn) as Hd. destruct (drainProducerMessages drain c w) as [o w1].
  destruct Hd as (Ht1 & c1 & -> & Hfd). cbn [fst snd]. destruct (negb _); [done|]. rewrite bind_run.
  pose proof (advanceConsumed_runs c1 w1) as [Ht2 Hl]. destruct (advanceConsumed c1 w1) as [c2 w2]. cbn [fst snd] in *.
  destruct (acquireScan c2) as [[buf c3]|]; [done|]. cbn [fst snd ret].
  destruct (timeoutMs <=? waited) eqn:E; [done|]. rewrite bind_run. apply IH; cbn.
  - unfold same_link in Hl. rewrite Hl, Hfd. eapply at_most_later; [|exact Ha]. lia.
  - rewrite wrap32_small by ulia. lia.
  - done.
  - rewrite wrap32_small by ulia. lia.
Qed.


(** ** Releases *)

(** What a test of the fence [fd] at time [t] answers. *)
Definition ready_at (t : nat) (fd : Z) : bool :=
  if fd <? 0 then true else let '(result, revents) := k_poll t fd in (0 <? result) && truthy (Z.land revents POLLIN).

Lemma emits_ready fd (P : bool -> list Effect -> Prop) : (forall t, P (ready_at t fd) []) -> emits (fenceReady fd) P.
Proof.
  intros H. unfold fenceReady, ready_at in *. destruct (fd <? 0); [apply emits_ret, (H 0%nat)|].
  apply emits_bind, emits_ask_at. intros t. specialize (H t). destruct (k_poll t fd). by apply emits_ret.
Qed.

(** The releases of [queue] taken, [popped], are those before the first whose fence
    was found not ready. *)
Definition ready_prefix (queue popped rest : list (Z * Z)) : Prop :=
  queue = popped ++ rest /\ Forall (fun r => exists t, ready_at t r.2 = true) popped
  /\ match rest with [] => True | r :: _ => exists t, ready_at t r.2 = false end.

Lemma advanceLoop_fenced l v :
  emits (advanceLoop l v) (fun r es => exists popped, ready_prefix l popped r.1
    /\ r.2 = max_value v popped /\ closed_of es = rev (valid_fds popped)).
Proof.
  revert v. induction l as [|[x fd] l IH]; intros v; cbn [advanceLoop]; [by apply emits_ret; exists []|].
  apply emits_bind, emits_ready. intros t. destruct (ready_at t fd) eqn:Er.
  - apply emits_bind, emits_close_valid. eapply emits_mono; [apply IH|].
    intros r es (popped & (-> & Hp & Hr) & Hv & Hc). exists ((x, fd) :: popped).
    split; [split; [done|split; [constructor; [by exists t|done]|done]]|]. split.
    + rewrite Hv. unfold max_value. cbn [fold_left fst]. f_equal. destruct (Z.ltb_spec v x); lia.
    + rewrite app_nil_r, closed_of_app, Hc. unfold valid_fds. cbn [map snd]. rewrite filter_cons.
      destruct (0 <=? fd) eqn:E; [by rewrite decide_True by lia|]. rewrite decide_False by lia. by rewrite app_nil_r.
  - apply emits_ret. exists []. split; [|done]. split; [done|]. split; [done|]. by exists t.
Qed.

(** C11: Recycling is monotonic and exact.  A release message for value [v] joins the
    queue of releases with its fence, if it has one.  Of that queue the releases
    before the first whose fence is not ready are taken: the consumed value becomes
    the greatest of theirs and its own, never lower than before, exactly their fences
    are closed - and the descriptors the message carried too many - and the rest
    waits in order.  Afterwards a slot is free exactly if no local reference pins it
    and its last submission is covered by that value: the slots of the frames the
    consumer skipped come back too, and no slot comes back before its fence. *)
Theorem linux_release_frees_skipped c msg fr w :
  mg_type msg = MsgType.FrameReleased -> as_ FrameReadyMsg (mg_payload msg) = Some fr ->
  let fence := match mg_fds msg with [] => -1 | fd :: _ => fd end in
  let c' := (applyRelease c msg w).1 in
  exists popped,
    ready_prefix (sy_releases (ch_sync c) ++ [(fm_readyValue fr, fence)]) popped (sy_releases (ch_sync c'))
    /\ ch_consumedValue c' = max_value (ch_consumedValue c) popped
    /\ closes (applyRelease c msg) w = tail (mg_fds msg) ++ valid_fds popped
    /\ forall i, slotFree c' i = true <->
         submitAt c (Z.of_nat i) <= max_value (ch_consumedValue c) popped
         /\ BufferRefs.busy (ch_bufferReferences c) (Z.of_nat i) = false.
Proof.
  intros Ht Hfr fence c'.
  assert (emits (applyRelease c msg) (fun c' es => exists popped,
    ready_prefix (sy_releases (ch_sync c) ++ [(fm_readyValue fr, fence)]) popped (sy_releases (ch_sync c'))
    /\ ch_consumedValue c' = max_value (ch_consumedValue c) popped
    /\ closed_of es = rev (tail (mg_fds msg) ++ valid_fds popped)
    /\ ch_slotSubmitValue c' = ch_slotSubmitValue c /\ ch_bufferReferences c' = ch_bufferReferences c)) as HE.
  { unfold applyRelease. rewrite Ht, Z.eqb_refl. cbn [negb]. rewrite Hfr.
    apply emits_bind, emits_mfor_close. unfold advanceConsumed, advance. repeat apply emits_bind.
    eapply emits_mono; [apply advanceLoop_fenced|]. intros [rel v] es (popped & Hp & Hv & Hc).
    apply emits_ret, emits_ret. exists popped. split; [exact Hp|]. split; [exact Hv|]. split; [|done].
    rewrite !app_nil_l, closed_of_app, Hc, rev_app_distr, <- map_rev. by rewrite closed_of_closes. }
  apply (emits_run _ _ w) in HE as (popped & Hp & Hv & Hc & Hs & Hb). fold c' in Hp, Hv, Hs, Hb. exists popped.
  split; [exact Hp|]. split; [exact Hv|]. split; [unfold closes; by rewrite Hc, rev_involutive|].
  intros i. unfold slotFree, submitAt. rewrite Hs, Hb, Hv. by rewrite andb_true_iff, negb_true_iff, Z.leb_le.
Qed.
End Recycle.

(** ** Witnesses *)

Definition exQuiet : Kernel :=
  scripted (fun _ _ => (0, 0)) (fun _ _ => 0) (fun _ _ => mkReceived 0 [] [] 0).

(** Two slots: frame 4 in slot 0, frame 3 in slot 1, nothing consumed. *)
Definition exRing : flChannel :=
  set_link (set_slotSubmitValue (set_images newChannel [(4096, newImage); (8192, newImage)]) [4; 3])
    (mkChan 8 true 0).

(** Releasing frame 4 also frees the slot of frame 3, which was skipped. *)
Definition exRelease : Message :=
  mkMessage MsgType.FrameReleased (encode (mkFrameReady 0 0 4 0)) [].

(** A peer that sends this release, and nothing more. *)
Definition exTalking : Kernel :=
  let bytes := encode (mkHeader kMagic MsgType.FrameReleased (Z.of_nat (length (mg_payload exRelease)))) ++ mg_payload exRelease in
  scripted (fun t _ => if (t <? 2)%nat then (1, POLLIN) else (0, 0)) (fun _ _ => 0)
    (fun t _ => if (t <? 2)%nat then mkReceived (Z.of_nat (length bytes)) bytes [] 0 else mkReceived 0 [] [] 0).


(** The same ring, with a release of frame 3 that waits for the fence 77. *)
Definition exWaiting : flChannel := set_sync exRing (set_releases (ch_sync exRing) [(3, 77)]).

Lemma linux_release_frees_skipped_witness :
  let K := exQuiet in
  (mg_type exRelease = MsgType.FrameReleased
   /\ as_ FrameReadyMsg (mg_payload exRelease) = Some (mkFrameReady 0 0 4 0))
  /\ slotFree exRing 1 = false
  /\ slotFree (applyRelease exRing exRelease start).1 1 = true
  /\ (exists popped,
      ready_prefix (sy_releases (ch_sync exWaiting) ++ [(4, -1)]) popped
        (sy_releases (ch_sync (applyRelease exWaiting exRelease start).1))
      /\ ch_consumedValue (applyRelease exWaiting exRelease start).1 = max_value 0 popped)
  /\ sy_releases (ch_sync (applyRelease exWaiting exRelease start).1) = [(3, 77); (4, -1)].
Proof.
  intros K. split; [split; by vm_compute|]. split; [by vm_compute|].
  assert (mg_type exRelease = MsgType.FrameReleased) as Ht by (by vm_compute).
  assert (as_ FrameReadyMsg (mg_payload exRelease) = Some (mkFrameReady 0 0 4 0)) as Hf by (by vm_compute).
  split; [|split; [|by vm_compute]].
  - destruct (linux_release_frees_skipped exRing exRelease (mkFrameReady 0 0 4 0) start Ht Hf) as (popped & Hp & Hv & _ & H).
    apply (H 1%nat). split; [|by vm_compute]. rewrite <- Hv. by vm_compute.
  - destruct (linux_release_frees_skipped exWaiting exRelease (mkFrameReady 0 0 4 0) start Ht Hf) as (popped & Hp & Hv & _).
    by exists popped.
Defined.
