(* ===== verification/LinuxRing.v ===== *)
(** * The consumer's ring on Linux (src/framelink_linux.cpp)

    Allocating the ring with GBM, adopting external DMA-BUFs, describing it to a
    producer, creating and closing a channel, and the memory information query.
    The render node, GBM and the descriptors are the [Kernel]'s. *)
From S2P Require Import Prelude Api Kernel Wire SyncFd Ipc ResourceInfo LinuxImage LinuxState LinuxProducer.
From S2P Require Ledger.

Section Ring.
Context `{K : Kernel}.
Implicit Types (c : flChannel).

(** [for (int i = 128; i < 136; ++i) ...]: the device and its descriptor. *)
Definition openRenderNode : M (Z * Z) :=
  let! r := mloop (map (fun i => 128 + Z.of_nat i) (seq 0 8)) (fun i (_ : unit) =>
    let! fd := opened (ask (fun t => k_open_render t i)) in
    return_if! fd <? 0 with ret (inl tt) ;;
    let! g := gbm_created (ask (fun t => k_gbm_device t fd)) in
    return_if! truthy g with ret (inr (g, fd)) ;;
    close fd ;; ret (inl tt)) tt in
  ret (match r with inr gf => gf | inl _ => (0, -1) end).

(** The payload of [handOverRing]. *)
Definition describeRing c : RingDescMsg * list Z :=
  let first := match ch_images c with (_, img) :: _ => im_desc img | [] => zeroDmabuf end in
  let descs := map (fun '(_, img) => im_desc img) (ch_images c) in
  let pad l := l ++ replicate (16 - length l) 0 in
  let planes d := Z.to_nat (db_planes d) in
  let row (f : flDmabuf -> list Z) d :=
    map (fun p => if (p <? planes d)%nat then at_ (f d) p else 0) (seq 0 4) in
  let rows f := concat (map (row f) descs) ++ replicate (64 - 4 * length descs) 0 in
  let i := ch_info c in
  (mkRingDesc (info_width i) (info_height i) (info_format i) (imageCount c) (info_generation i)
     (replicate 16 0) 0 0
     (pad (map (fun d => at_ (db_stride d) 0) descs)) (pad (map (fun d => at_ (db_offset d) 0) descs))
     (db_modifier first) (db_fourcc first) 0
     (pad (map db_planes descs)) (rows db_stride) (rows db_offset),
   concat (map (fun d => take (planes d) (db_fd d)) descs)).

(** [handOverRing(ch, link)]: whether it was sent, and the link. *)
Definition handOverRing c (l : Channel) : M (bool * Channel) :=
  let '(rd, fds) := describeRing c in
  sendWithFds l MsgType.RingDesc (encode rd) fds.

(** ** Adopting external images *)

(** The per-plane checks of [adoptRing]; [inr] is the refusal. *)
Definition adoptPlane c (d : flDmabuf) (prior : list Stat) (p : nat) (current : list Stat)
  : M (list Stat + flResult) :=
  let i := ch_info c in
  let rowBytes := if info_format i =? FL_FORMAT_NV12 then info_width i else info_width i * 4 in
  let fd := at_ (db_fd d) p in
  let stride := at_ (db_stride d) p in
  let offset := at_ (db_offset d) p in
  return_if! (fd <? 0) || (stride <? rowBytes) || (UINT32_MAX <? stride) || (UINT32_MAX <? offset)
    with ret (inr FL_INVALID) ;;
  let! st := fstat fd in
  match st with
  | None => ret (inr FL_INVALID)
  | Some st =>
    let rows := if Nat.eqb p 0 then info_height i else info_height i / 2 in
    let end_ := wrap64 (offset + stride * (rows - 1) + rowBytes) in
    return_if! (0 <? st_size st) && (st_size st <? end_) with ret (inr FL_INVALID) ;;
    return_if! existsb (fun old => (st_dev old =? st_dev st) && (st_ino old =? st_ino st)) prior
      with ret (inr FL_INVALID) ;;
    ret (inl (current ++ [st]))
  end.

(** [image->desc.fd[p]=fcntl(d.fd[p],F_DUPFD_CLOEXEC,0)] for the planes. *)
Definition dupPlanes (d : flDmabuf) (planes : nat) (img : flImage) : M (flImage + flImage) :=
  mloop (seq 0 planes) (fun p img =>
    let! fd := opened (dup (at_ (db_fd d) p)) in
    let e := im_desc img in
    let img := set_desc img (mkDmabuf (<[p := fd]> (db_fd e)) (db_offset e) (db_stride e)
                               (db_planes e) (db_fourcc e) (db_modifier e)) in
    if fd <? 0 then ret (inr img) else ret (inl img)) img.

(** Replace the last image of the ring. *)
Definition set_last c (a : Z) (img : flImage) : flChannel :=
  set_images c (take (length (ch_images c) - 1) (ch_images c) ++ [(a, img)]).

(** One iteration of [adoptRing]: the channel with the image pushed. *)
Definition adoptOne (first : flDmabuf) (planes : nat) (id : nat * flDmabuf)
  (st : flChannel * list Stat) : M (flChannel * list Stat + flResult * flChannel) :=
  let '(i, d) := id in
  let '(c, prior) := st in
  return_if! negb (db_planes d =? Z.of_nat planes)
          || negb (db_fourcc d =? fourccFor (info_format (ch_info c)))
          || (negb (Nat.eqb i 0) && negb (db_modifier d =? db_modifier first))
    with ret (inr (FL_FORMAT_UNSUPPORTED, c)) ;;
  return_if! has_flag (ch_flags c) FL_MAP_CPU && negb (db_modifier d =? DRM_FORMAT_MOD_LINEAR)
    with ret (inr (FL_FORMAT_UNSUPPORTED, c)) ;;
  let! checked := mloop (seq 0 planes) (adoptPlane c d prior) [] in
  match checked with
  | inr r => ret (inr (r, c))
  | inl current =>
    let! a := new_object in
    let img := mkImage 0 (mkDmabuf [-1; -1; -1; -1] (db_offset d) (db_stride d) (db_planes d)
                            (db_fourcc d) (db_modifier d))
                 (info_width (ch_info c)) (info_height (ch_info c)) false 0
                 [0;0;0;0] [0;0;0;0] zeroMapped in
    let c := set_images c (ch_images c ++ [(a, img)]) in
    let! dups := dupPlanes d planes img in
    match dups with
    | inr img => ret (inr (FL_INVALID, set_last c a img))
    | inl img =>
      let! bo := bo_created (ask k_bo_import) in
      let img := set_bo img bo in
      let c := set_last c a img in
      return_if! negb (truthy bo) with ret (inr (FL_FORMAT_UNSUPPORTED, c)) ;;
      return_if! negb (k_bo_width bo =? info_width (ch_info c))
              || negb (k_bo_height bo =? info_height (ch_info c))
              || negb (k_bo_format bo =? db_fourcc d) with ret (inr (FL_FORMAT_UNSUPPORTED, c)) ;;
      return_if! negb (k_bo_planes bo =? Z.of_nat planes) with ret (inr (FL_FORMAT_UNSUPPORTED, c)) ;;
      return_if! existsb (fun p => negb (k_bo_stride bo (Z.of_nat p) =? at_ (db_stride d) p)
                                || negb (k_bo_offset bo (Z.of_nat p) =? at_ (db_offset d) p))
                   (seq 0 planes) with ret (inr (FL_FORMAT_UNSUPPORTED, c)) ;;
      ret (inl (c, prior ++ current))
    end
  end.

Definition adoptRing c (input : list flDmabuf) (count : nat) : M (flResult * flChannel) :=
  let planes := if info_format (ch_info c) =? FL_FORMAT_NV12 then 2%nat else 1%nat in
  let first := nth 0 input zeroDmabuf in
  let items := map (fun i => (i, nth i input zeroDmabuf)) (seq 0 count) in
  let! r := mloop items (adoptOne first planes) (c, []) in
  match r with
  | inr (r, c) => ret (r, c)
  | inl (c, _) => ret (FL_OK, bump_generation c)
  end.

(** ** Allocating *)

(** The planes of a freshly allocated image; [inr]: a descriptor failed. *)
Definition exportPlanes (bo : Z) (planes : nat) (img : flImage) : M (flImage + flImage) :=
  mloop (seq 0 planes) (fun p img =>
    let! fd := opened (ask (fun t => k_bo_fd t bo (Z.of_nat p))) in
    let e := im_desc img in
    let img := set_desc img
      (mkDmabuf (<[p := fd]> (db_fd e)) (<[p := k_bo_offset bo (Z.of_nat p)]> (db_offset e))
         (<[p := k_bo_stride bo (Z.of_nat p)]> (db_stride e)) (db_planes e) (db_fourcc e)
         (db_modifier e)) in
    if fd <? 0 then ret (inr img) else ret (inl img)) img.

(** One slot of [reallocRing]: the image, or [None] after cleaning it up. *)
Definition allocImage c (w h : Z) : M (option (Z * flImage)) :=
  let mapCpu := has_flag (ch_flags c) FL_MAP_CPU in
  let preferred := if mapCpu then Z.lor GBM_BO_USE_RENDERING GBM_BO_USE_LINEAR
                   else GBM_BO_USE_RENDERING in
  let fallback := if mapCpu then GBM_BO_USE_LINEAR else GBM_BO_USE_RENDERING in
  let fourcc := fourccFor (info_format (ch_info c)) in
  let! a := new_object in
  let! bo1 := bo_created (ask (fun t => k_bo_create t w h fourcc preferred)) in
  let! (bo, usage) :=
    (if negb (truthy bo1) && negb (fallback =? preferred)
     then let! bo2 := bo_created (ask (fun t => k_bo_create t w h fourcc fallback)) in ret (bo2, fallback)
     else ret (bo1, preferred)) in
  return_if! negb (truthy bo) with (effect (EFree a) ;; ret None) ;;
  let expected := if info_format (ch_info c) =? FL_FORMAT_NV12 then 2 else 1 in
  let img := mkImage bo (mkDmabuf [-1; -1; -1; -1] [0;0;0;0] [0;0;0;0] (k_bo_planes bo)
                           (k_bo_format bo) (k_bo_modifier bo))
               w h true usage [0;0;0;0] [0;0;0;0] zeroMapped in
  return_if! negb (k_bo_planes bo =? expected)
          || (mapCpu && negb (k_bo_modifier bo =? DRM_FORMAT_MOD_LINEAR)) with
    (let d := im_desc img in
     freeImage a (set_desc img (mkDmabuf (db_fd d) (db_offset d) (db_stride d) expected
                                  (db_fourcc d) (db_modifier d))) ;;
     ret None) ;;
  let! planes := exportPlanes bo (Z.to_nat (k_bo_planes bo)) img in
  match planes with
  | inr img => freeImage a img ;; ret None
  | inl img => ret (Some (a, img))
  end.

Definition reallocRing c (w h : Z) (poolSize : nat) : M (bool * flChannel) :=
  let! r := mloop (seq 0 poolSize) (fun _ images =>
    let! img := allocImage c w h in
    match img with
    | None => freeImages images ;; ret (inr tt)
    | Some img => ret (inl (images ++ [img]))
    end) [] in
  match r with
  | inr _ => ret (false, c)
  | inl images =>
    freeImages (ch_images c) ;;
    let c := set_images c images in
    let c := bump_generation (set_info c (set_size (ch_info c) w h)) in
    let c := set_readers c (Ledger.resetEpoch (ch_readers c)) in
    let c := set_retiredValue (set_heldReady c 0) 0 in
    let! c := clearSync c in
    ret (true, c)
  end.

(** ** Creating, querying and closing *)

(** [flClose(ch)]; joining the accept thread is a step of that thread. *)
Definition flClose c : M unit :=
  (if ch_isConsumer c
   then let! poke := connect (ch_name c) 100 in let! _ := chan_close poke in ret tt
   else if connected (ch_link c)
        then let! _ := send (ch_link c) MsgType.Bye [] in ret tt else ret tt) ;;
  freeImages (ch_images c) ;;
  (if truthy (ch_gbm c) then effect (EGbmDestroy (ch_gbm c)) else ret tt) ;;
  close_valid (ch_drmFd c) ;;
  deleteChannel c.

Definition createChannel (name : list Z) (width height format poolSize flags : Z)
  (externalImages : option (list flDmabuf)) : M (flResult * option flChannel) :=
  return_if! negb (validGeometry width height format) with ret (FL_INVALID, None) ;;
  return_if! negb (truthy (fourccFor format)) with ret (FL_FORMAT_UNSUPPORTED, None) ;;
  return_if! negb (truthy poolSize) || (Z.of_nat kMaxPool <? poolSize) with ret (FL_INVALID, None) ;;
  let c := set_flags (set_name (set_isConsumer newChannel true) name) flags in
  let c := set_info c (mkChannelInfo FL_VERSION width height format poolSize 0) in
  let! (g, fd) := openRenderNode in
  let c := set_drmFd (set_gbm c g) fd in
  return_if! negb (truthy g) with (deleteChannel c ;; ret (FL_INTERNAL, None)) ;;
  let c := set_externalPool c (bool_decide (is_Some externalImages)) in
  let! (allocation, c) :=
    (match externalImages with
     | Some images => adoptRing c images (Z.to_nat poolSize)
     | None => let! (ok, c) := reallocRing c width height (Z.to_nat poolSize) in
               ret (if (ok : bool) then FL_OK else FL_OOM, c)
     end) in
  return_if! negb (bool_decide (allocation = FL_OK)) with (flClose c ;; ret (allocation, None)) ;;
  ret (FL_OK, Some c).

Definition flCreateChannelEx (name : list Z) (width height format poolSize flags : Z)
  : M (flResult * option flChannel) := createChannel name width height format poolSize flags None.

Definition flCreateChannelOnAdapter (name : list Z) (width height format poolSize flags : Z)
  : M (flResult * option flChannel) := flCreateChannelEx name width height format poolSize flags.

Definition flCreateChannel (name : list Z) (width height format poolSize : Z)
  : M (flResult * option flChannel) := flCreateChannelEx name width height format poolSize 0.

Definition flCreateChannelFromDmabufs (name : list Z) (width height format poolSize flags : Z)
  (images : option (list flDmabuf)) : M (flResult * option flChannel) :=
  let known := Z.lor FL_MAP_CPU (Z.lor FL_GPU_SYNC (Z.lor FL_DEFER_RELEASE (Z.lor FL_GPU_RENDER
                 (Z.lor FL_TRACK_ARRIVAL FL_REQUIRE_FRAME_METADATA)))) in
  match images with
  | None => ret (FL_INVALID, None)
  | Some images =>
    return_if! truthy (Z.land flags (not32 known)) with ret (FL_INVALID, None) ;;
    createChannel name width height format poolSize flags (Some images)
  end.

Definition flQuery c : flResult * flChannelInfo := (FL_OK, ch_info c).

(** ** Memory information *)

Definition bytes4 (v : Z) : list Z := put_le 4 v.

Definition deviceInfo c : M (option (list Z)) :=
  if 0 <=? ch_drmFd c
  then let! st := fstat (ch_drmFd c) in
       match st with
       | Some st => ret (if st_chr st
                         then Some (bytes4 (st_major st) ++ bytes4 (st_minor st) ++ replicate 8 0)
                         else None)
       | None => ret None
       end
  else ret None.

(** [img] is the pointer; the object is looked up in the ring. *)
Definition flImageMemoryInfo c (img version size : Z) : M (flResult * option flMemoryResourceInfo) :=
  return_if! negb (size =? 168) with ret (FL_INVALID, None) ;;
  return_if! negb (version =? FL_MEMORY_INFO_VERSION) with ret (FL_VERSION_MISMATCH, None) ;;
  match List.find (fun '(a, _) => a =? img) (ch_images c) with
  | None => ret (FL_INVALID, None)
  | Some (_, im) =>
    let d := im_desc im in
    let n := db_planes d in
    return_if! negb (truthy n) || (4 <? n) with ret (FL_INVALID, None) ;;
    let planes f := map (fun p => if Z.of_nat p <? n then at_ f p else 0) (seq 0 4) in
    let usageKnown := im_allocationUsageKnown im in
    let rendering := truthy (Z.land (im_allocationUsage im) GBM_BO_USE_RENDERING) in
    let mapped := truthy (mi_planes (im_planeView im)) in
    let! device := deviceInfo c in
    let known := Z.lor (Z.lor FL_MEMORY_INFO_PLANE_LAYOUT FL_MEMORY_INFO_MAP_OPERATIONS)
      (Z.lor (if db_modifier d =? DRM_FORMAT_MOD_INVALID then 0 else FL_MEMORY_INFO_MODIFIER)
      (Z.lor (if usageKnown then Z.lor FL_MEMORY_INFO_NATIVE_USAGE FL_MEMORY_INFO_DIRECT_USAGE else 0)
      (Z.lor (if mapped then FL_MEMORY_INFO_MAPPED_USAGE else 0)
             (if bool_decide (is_Some device) then FL_MEMORY_INFO_DEVICE else 0)))) in
    ret (FL_OK, Some (mkInfo FL_MEMORY_INFO_VERSION FL_MEMORY_DMABUF (info_format (ch_info c))
      (im_width im) (im_height im) (db_fourcc d) known n
      (if usageKnown then im_allocationUsage im else 0) (db_modifier d)
      (planes (db_offset d)) (planes (db_stride d))
      (if usageKnown && rendering then FL_MEMORY_GPU_RENDER else 0)
      (if mapped then Z.lor FL_MEMORY_CPU_READ FL_MEMORY_CPU_WRITE else 0) 0
      (if bool_decide (is_Some device) then FL_MEMORY_DEVICE_DRM_NODE else 0)
      (default (replicate 16 0) device)
      (Z.lor FL_MEMORY_SYNC_CPU_WAIT FL_MEMORY_SYNC_FD) FL_MEMORY_HANDLE_DMABUF
      (Z.lor (Z.lor FL_MEMORY_INTEROP_RING_IMPORT FL_MEMORY_INTEROP_BORROW_NATIVE)
         (if ch_externalPool c then FL_MEMORY_INTEROP_EXTERNAL_POOL else 0))
      (info_generation (ch_info c))))
  end.

Definition flImageDmabuf (img : flImage) : flResult * flDmabuf := (FL_OK, im_desc img).
End Ring.
