(* ===== verification/LinuxLifetime.v ===== *)
(** * Who owns descriptors and buffer objects (Linux)

    Resources - file descriptors, GBM buffer objects and the GBM device - are
    counted: what a call brought into being is what it disposed of and what the
    channel still holds.  So [flClose] releases exactly what the channel owns, a
    creation that fails leaks nothing, and a reallocation is all or nothing. *)
From stdpp Require Import sorting.
From S2P Require Import Prelude Api Kernel Resources Wire SyncFd Ipc IpcResources LinuxImage LinuxState LinuxProducer LinuxRing.
From S2P Require Ledger.

(** ** What an object owns *)

Definition owned_image (img : flImage) : list Res :=
  fd_res (take (Z.to_nat (db_planes (im_desc img))) (db_fd (im_desc img))) ++ bo_res (im_bo img).
Definition owned_images (l : list (Z * flImage)) : list Res := concat (map (fun x => owned_image x.2) l).
(** The members of [flChannel] with a destructor. *)
Definition owned_members (c : flChannel) : list Res :=
  owned_link (ch_link c) ++ fd_res (map snd (ch_leaseCompletions c)) ++ owned_link (ch_peer c)
  ++ owned_sync (ch_sync c).
Definition owned (c : flChannel) : list Res :=
  owned_images (ch_images c) ++ gbm_res (ch_gbm c) ++ fd_res [ch_drmFd c] ++ owned_members c.

Section Rules.
Context `{K : Kernel}.

(** ** Disposing of an object *)

Lemma dmaSync_moves fuel fd flags a :
  moves a (dmaSync fuel fd flags) (fun _ => a) (fun _ => True).
Proof.
  induction fuel as [|fuel IH]; cbn [dmaSync]; [by apply moves_ret|].
  eapply moves_bind; [by apply (moves_effect _ _ (fun _ => True))|]. intros [] _.
  eapply moves_bind; [by apply (moves_ask _ _ (fun _ => True))|]. intros r _.
  eapply moves_bind; [by apply (moves_ask _ _ (fun _ => True))|]. intros e _.
  destruct (_ && _); [exact IH|by apply moves_ret].
Qed.

Lemma unmap_moves img a :
  moves a (flImageUnmap img) (fun _ => a) (fun i => im_desc i = im_desc img /\ im_bo i = im_bo img).
Proof.
  unfold flImageUnmap. eapply moves_bind with (b := fun _ => a)
    (Q := fun i => im_desc i = im_desc img /\ im_bo i = im_bo img).
  - apply (emits_mfold (fun i es => account a es a /\ im_desc i = im_desc img /\ im_bo i = im_bo img)
      _ _ _ []); [by split; [apply account_nil|]| |intros s' es; cbv beta; by rewrite app_nil_r].
    intros p i es _ (Ha & Hd & Hb). unfold unmapPlane.
    destruct (truthy _); [|by apply emits_ret].
    apply emits_bind. eapply emits_mono; [apply (dmaSync_moves _ _ _ a)|]. intros r es' [Ha' _].
    apply emits_bind, emits_effect, emits_ret. split; [|done].
    eapply account_trans; [exact Ha|]. eapply account_trans; [exact Ha'|]. by apply account_quiet.
  - intros i [Hd Hb]. by apply moves_ret.
Qed.

Lemma freeImage_moves addr img a :
  moves (owned_image img ++ a) (freeImage addr img) (fun _ => a) (fun _ => True).
Proof.
  unfold freeImage, owned_image. rewrite <- app_assoc.
  eapply moves_bind; [apply unmap_moves|]. intros i [-> ->].
  eapply moves_bind; [by apply (moves_closes _ _ (fun _ => True))|]. intros [] _.
  eapply moves_bind with (b := fun _ => a) (Q := fun _ => True); [|intros [] _; by apply moves_effect].
  unfold bo_res. destruct (truthy (im_bo img)); [|by apply moves_ret].
  apply emits_effect. split; [|done]. unfold account. simpl. by rewrite app_nil_r.
Qed.

Lemma freeImages_moves l a :
  moves (owned_images l ++ a) (freeImages l) (fun _ => a) (fun _ => True).
Proof.
  unfold freeImages, owned_images. apply moves_mfor; [done|].
  intros [addr img] b _. apply freeImage_moves.
Qed.

Lemma deleteChannel_moves c a :
  moves (owned_members c ++ a) (deleteChannel c) (fun _ => a) (fun _ => True).
Proof.
  unfold deleteChannel, owned_members. rewrite <- !app_assoc.
  eapply moves_bind; [apply chan_close_moves|]. intros ? _.
  eapply moves_bind with (b := fun _ => owned_link (ch_peer c) ++ owned_sync (ch_sync c) ++ a) (Q := fun _ => True).
  { eapply moves_mono; [apply (moves_closes (rev (map snd (ch_leaseCompletions c)))
      (owned_link (ch_peer c) ++ owned_sync (ch_sync c) ++ a) (fun _ => True)); done| |by intros ? _].
    by rewrite fd_res_rev. }
  intros [] _. eapply moves_bind; [apply chan_close_moves|]. intros ? _.
  eapply moves_bind; [apply sync_clear_moves|]. intros ? _. by apply moves_ret.
Qed.

Lemma close_moves c a : moves (owned c ++ a) (flClose c) (fun _ => a) (fun _ => True).
Proof.
  unfold flClose, owned. rewrite <- !app_assoc.
  eapply moves_bind with (b := fun _ => owned_images (ch_images c) ++ gbm_res (ch_gbm c)
    ++ fd_res [ch_drmFd c] ++ owned_members c ++ a) (Q := fun _ => True).
  { destruct (ch_isConsumer c).
    - eapply moves_bind; [apply connect_moves|]. intros ch _.
      eapply moves_bind; [apply chan_close_moves|]. intros ? _. by apply moves_ret.
    - destruct (connected _); [|by apply moves_ret].
      eapply moves_bind; [apply send_moves|]. intros ? _. by apply moves_ret. }
  intros [] _. eapply moves_bind; [apply freeImages_moves|]. intros [] _.
  eapply moves_bind with (b := fun _ => fd_res [ch_drmFd c] ++ owned_members c ++ a) (Q := fun _ => True).
  { unfold gbm_res. destruct (truthy (ch_gbm c)); [|by apply moves_ret].
    apply emits_effect. split; [|done]. unfold account. simpl. by rewrite app_nil_r. }
  intros [] _. eapply moves_bind; [by apply (moves_close_valid _ _ (fun _ => True))|]. intros [] _.
  apply deleteChannel_moves.
Qed.

(** ** Filling in the descriptors of an image *)

Definition fds_of (img : flImage) : list Z := db_fd (im_desc img).
Definition planes_n (img : flImage) : nat := Z.to_nat (db_planes (im_desc img)).

Lemma owned_image_fd img i p fd :
  (p < planes_n img)%nat -> fds_of img !! p = Some (-1) ->
  fds_of i = <[p := fd]> (fds_of img) -> planes_n i = planes_n img -> im_bo i = im_bo img ->
  owned_image i ≡ₚ fd_res [fd] ++ owned_image img.
Proof.
  intros Hp Hl Hi Hn Hb. unfold owned_image. fold (fds_of i) (fds_of img) (planes_n i) (planes_n img).
  rewrite Hi, Hn, Hb, app_assoc. apply Permutation_app_tail.
  rewrite take_insert_lt by done.
  destruct (insert_split (take (planes_n img) (fds_of img)) p (-1)) as (rest & H1 & H2).
  { by rewrite lookup_take_lt. }
  assert (forall l l', l ≡ₚ l' -> fd_res l ≡ₚ fd_res l') as HP.
  { intros l l' HQ. unfold fd_res. apply Permutation_map. by rewrite HQ. }
  rewrite (HP _ _ (H2 fd)), (HP _ _ H1), (fd_res_cons fd), (fd_res_cons (-1)).
  by rewrite (fd_res_0 (-1)) by lia.
Qed.

(** One descriptor obtained for plane [p]. *)
Definition fd_step (p : nat) (img i : flImage) : Prop :=
  planes_n i = planes_n img /\ im_bo i = im_bo img /\ exists fd, fds_of i = <[p := fd]> (fds_of img).

Definition side {A} (o : A + A) : A := match o with inl x => x | inr x => x end.

Lemma fd_loop_moves (body : nat -> flImage -> M (flImage + flImage)) n p img a :
  (p + n)%nat = planes_n img ->
  (forall q, (p <= q < p + n)%nat -> fds_of img !! q = Some (-1)) ->
  (forall q i, (q < planes_n i)%nat -> fds_of i !! q = Some (-1) ->
     moves (owned_image i ++ a) (body q i) (fun o => owned_image (side o) ++ a)
       (fun o => fd_step q i (side o))) ->
  moves (owned_image img ++ a) (mloop (seq p n) body img) (fun o => owned_image (side o) ++ a)
    (fun o => planes_n (side o) = planes_n img /\ im_bo (side o) = im_bo img).
Proof.
  revert p img. induction n as [|n IH]; intros p img Hn Hfd Hbody; cbn [seq mloop]; [by apply moves_ret|].
  eapply moves_bind; [apply Hbody; [lia|apply Hfd; lia]|].
  intros [i|i] (Hp & Hb & fd & Hi); simpl in Hp, Hb, Hi |- *; [|by apply moves_ret].
  eapply moves_mono; [apply (IH (S p) i)| |].
  - lia.
  - intros q Hq. rewrite Hi, list_lookup_insert_ne by lia. apply Hfd. lia.
  - exact Hbody.
  - done.
  - intros o [-> ->]. done.
Qed.

Lemma set_fd_moves (f : nat -> Z) (mk : Z -> flImage -> flImage) q i a :
  (q < planes_n i)%nat -> fds_of i !! q = Some (-1) ->
  (forall fd, fd_step q i (mk fd i) /\ fds_of (mk fd i) = <[q := fd]> (fds_of i)) ->
  moves (owned_image i ++ a)
    (let! fd := opened (ask f) in
     if fd <? 0 then ret (inr (mk fd i) : flImage + flImage) else ret (inl (mk fd i)))
    (fun o => owned_image (side o) ++ a) (fun o => fd_step q i (side o)).
Proof.
  intros Hq Hl Hmk. eapply moves_bind; [by apply (moves_opened _ _ (fun _ => True))|].
  intros fd _. destruct (Hmk fd) as [Hs Hf]. assert (owned_image (mk fd i) ≡ₚ fd_res [fd] ++ owned_image i) as HP.
  { apply (owned_image_fd _ _ q); try done; apply Hs. }
  destruct (fd <? 0); (apply moves_ret; [|done]); simpl; by rewrite HP, app_assoc.
Qed.

Lemma owned_fresh img :
  fds_of img = [-1; -1; -1; -1] -> owned_image img = bo_res (im_bo img).
Proof.
  intros H. unfold owned_image. fold (fds_of img) (planes_n img). rewrite H.
  assert (forall n, fd_res (take n [-1; -1; -1; -1]) = []) as ->; [|done].
  intros n. by do 5 (destruct n as [|n]; [done|]).
Qed.

Lemma fresh_lookup img q :
  fds_of img = [-1; -1; -1; -1] -> (q < 4)%nat -> fds_of img !! q = Some (-1).
Proof. intros -> Hq. do 4 (destruct q as [|q]; [done|]). lia. Qed.

(** ** Allocating the ring *)

Lemma exportPlanes_moves bo planes img a :
  planes = planes_n img -> (planes <= 4)%nat -> fds_of img = [-1; -1; -1; -1] ->
  moves (owned_image img ++ a) (exportPlanes bo planes img) (fun o => owned_image (side o) ++ a) (fun _ => True).
Proof.
  intros -> Hp Hf. unfold exportPlanes.
  eapply moves_mono; [apply (fd_loop_moves _ (planes_n img) 0 img a)|done|by intros].
  - lia.
  - intros q Hq. apply fresh_lookup; [done|lia].
  - intros q i Hq Hl.
    apply (set_fd_moves _ (fun fd i => set_desc i (mkDmabuf (<[q := fd]> (db_fd (im_desc i)))
      (<[q := k_bo_offset bo (Z.of_nat q)]> (db_offset (im_desc i)))
      (<[q := k_bo_stride bo (Z.of_nat q)]> (db_stride (im_desc i))) (db_planes (im_desc i))
      (db_fourcc (im_desc i)) (db_modifier (im_desc i))))); [done|done|].
    intros fd. split; [|done]. split; [done|]. split; [done|]. by exists fd.
Qed.

Lemma alloc_bo_moves {B} (k : Z * Z -> M B) preferred fallback (f g : nat -> Z) a b Q :
  (forall bo usage, moves (bo_res bo ++ a) (k (bo, usage)) b Q) ->
  moves a
    (let! bo1 := bo_created (ask f) in
     bind (if negb (truthy bo1) && negb (fallback =? preferred)
           then let! bo2 := bo_created (ask g) in ret (bo2, fallback) else ret (bo1, preferred)) k) b Q.
Proof.
  intros Hk. eapply moves_bind; [by apply (moves_bo_created _ _ (fun _ => True))|]. intros bo1 _.
  eapply moves_bind with (b := fun r => bo_res r.1 ++ a) (Q := fun _ => True);
    [|intros [bo u] _; apply Hk].
  destruct (truthy bo1) eqn:E; cbn [negb andb]; [by apply moves_ret|].
  assert (bo_res bo1 = []) as -> by (unfold bo_res; by rewrite E).
  destruct (negb _); [|apply moves_ret; [|done]; unfold bo_res; cbn [fst]; by rewrite E].
  eapply moves_bind; [by apply (moves_bo_created _ _ (fun _ => True))|]. intros bo2 _. by apply moves_ret.
Qed.

(** What [allocImage] hands over. *)
Definition owned_option (o : option (Z * flImage)) : list Res :=
  match o with Some (_, img) => owned_image img | None => [] end.

Lemma allocImage_moves c w h a :
  moves a (allocImage c w h) (fun o => owned_option o ++ a) (fun _ => True).
Proof.
  unfold allocImage. eapply moves_bind; [by apply (moves_ask _ _ (fun _ => True))|]. intros addr _.
  apply alloc_bo_moves. intros bo usage. destruct (truthy bo) eqn:Ebo; cbn [negb].
  2:{ assert (bo_res bo = []) as -> by (unfold bo_res; by rewrite Ebo).
      eapply moves_bind; [by apply (moves_effect _ _ (fun _ => True))|]. intros [] _. by apply moves_ret. }
  set (expected := if _ =? FL_FORMAT_NV12 then 2 else 1).
  destruct (k_bo_planes bo =? expected) eqn:Ep; cbn [negb orb].
  2:{ eapply moves_bind with (b := fun _ => a) (Q := fun _ => True); [|intros [] _; by apply moves_ret].
      eapply moves_mono; [apply freeImage_moves| |by intros]. by rewrite owned_fresh by done. }
  destruct (_ && _).
  { eapply moves_bind with (b := fun _ => a) (Q := fun _ => True); [|intros [] _; by apply moves_ret].
    eapply moves_mono; [apply freeImage_moves| |by intros]. by rewrite owned_fresh by done. }
  eapply moves_bind with (b := fun o => owned_image (side o) ++ a) (Q := fun _ => True).
  { eapply moves_mono; [apply exportPlanes_moves; [done| |done]| |by intros].
    - assert (expected <= 2) by (unfold expected; by destruct (_ =? _)). lia.
    - by rewrite owned_fresh by done. }
  intros [i|i] _; [by apply moves_ret|].
  eapply moves_bind; [apply freeImage_moves|]. intros [] _. by apply moves_ret.
Qed.

Lemma owned_images_snoc l addr img :
  owned_images (l ++ [(addr, img)]) ≡ₚ owned_image img ++ owned_images l.
Proof.
  unfold owned_images. rewrite map_app, concat_app. simpl. rewrite app_nil_r. apply Permutation_app_comm.
Qed.

(** A loop that builds the ring, giving it back on failure. *)
Definition built {R} (a : list Res) (o : list (Z * flImage) + R) : list Res :=
  match o with inl l => owned_images l ++ a | inr _ => a end.

Lemma realloc_loop_moves c w h poolSize a :
  moves a
    (mloop (seq 0 poolSize) (fun _ images =>
       let! img := allocImage c w h in
       match img with
       | None => freeImages images ;; ret (inr tt)
       | Some img => ret (inl (images ++ [img]))
       end) [])
    (built a) (fun o => match o with inl l => length l = poolSize | inr _ => True end).
Proof.
  assert (forall n p (l : list (Z * flImage)),
    moves (owned_images l ++ a)
    (mloop (seq p n) (fun (_ : nat) images =>
       let! img := allocImage c w h in
       match img with
       | None => freeImages images ;; ret (inr tt)
       | Some img => ret (inl (images ++ [img]))
       end) l) (built a)
    (fun o => match o with inl l' => length l' = (length l + n)%nat | inr _ => True end)) as HL;
    [|exact (HL poolSize 0%nat [])].
  induction n as [|n IH]; intros p l; cbn [seq mloop]; [apply moves_ret; [done|lia]|].
  eapply moves_bind with (b := fun o => match o with inl l' => owned_images l' ++ a | inr _ => a end)
    (Q := fun o => match o with inl l' => length l' = S (length l) | inr _ => True end).
  - eapply moves_bind; [apply allocImage_moves|]. intros [[addr img]|] _; simpl owned_option.
    + apply moves_ret; [by rewrite owned_images_snoc, app_assoc|]. rewrite length_app. simpl. lia.
    + eapply moves_bind; [apply freeImages_moves|]. intros [] _. by apply moves_ret.
  - intros [l'|u] Hl; [|by apply moves_ret]. eapply moves_mono; [apply IH|done|].
    intros [l''|u] Hl'; (split; [done|]); [lia|done].
Qed.

(** Same channel, another ring. *)
Definition reallocated c (w h : Z) (poolSize : nat) (r : bool * flChannel) : Prop :=
  if r.1
  then length (ch_images r.2) = poolSize /\ ch_info r.2 = ch_info (bump_generation
         (set_info c (set_size (ch_info c) w h)))
       /\ ch_readers r.2 = Ledger.resetEpoch (ch_readers c) /\ ch_heldReady r.2 = 0
       /\ ch_retiredValue r.2 = 0 /\ ch_sync r.2 = noSync
  else r.2 = c.

Lemma reallocRing_moves c w h poolSize a :
  moves (owned c ++ a) (reallocRing c w h poolSize) (fun r => owned r.2 ++ a) (reallocated c w h poolSize).
Proof.
  unfold reallocRing. eapply moves_bind; [apply (realloc_loop_moves c w h poolSize (owned c ++ a))|].
  intros [l|u] Hl; simpl built; [|by apply moves_ret].
  set (rest := gbm_res (ch_gbm c) ++ fd_res [ch_drmFd c] ++ owned_link (ch_link c)
    ++ fd_res (map snd (ch_leaseCompletions c)) ++ owned_link (ch_peer c)).
  eapply moves_bind with (b := fun _ => owned_sync (ch_sync c) ++ owned_images l ++ rest ++ a) (Q := fun _ => True).
  { eapply moves_mono; [apply (freeImages_moves (ch_images c)
      (owned_sync (ch_sync c) ++ owned_images l ++ rest ++ a))| |by intros].
    unfold owned, owned_members, rest. rewrite <- !app_assoc. solve_Permutation. }
  intros [] _. unfold clearSync. eapply moves_bind with (b := fun r => owned r ++ a)
    (Q := fun r => r = set_sync (set_retiredValue (set_heldReady (set_readers (bump_generation (set_info
      (set_images c l) (set_size (ch_info c) w h))) (Ledger.resetEpoch (ch_readers c))) 0) 0) noSync).
  - eapply moves_bind; [apply (sync_clear_moves (ch_sync c))|]. intros s ->. apply moves_ret; [|done].
    unfold owned, owned_members, rest. simpl. rewrite <- !app_assoc. solve_Permutation.
  - intros r ->. by apply moves_ret.
Qed.

(** ** Adopting external images *)

Lemma adoptPlane_moves c d prior p current a :
  moves a (adoptPlane c d prior p current) (fun _ => a) (fun _ => True).
Proof.
  unfold adoptPlane. destruct (_ || _); [by apply moves_ret|].
  eapply moves_bind; [by apply (moves_ask _ _ (fun _ => True))|]. intros [st|] _; [|by apply moves_ret].
  destruct (_ && _); [by apply moves_ret|]. destruct (existsb _ _); by apply moves_ret.
Qed.

Lemma mloop_neutral {A S R} (l : list A) (f : A -> S -> M (S + R)) s a :
  (forall x s, moves a (f x s) (fun _ => a) (fun _ => True)) ->
  moves a (mloop l f s) (fun _ => a) (fun _ => True).
Proof.
  intros Hf. revert s. induction l as [|x l IH]; intros s; cbn [mloop]; [by apply moves_ret|].
  eapply moves_bind; [apply Hf|]. intros [s'|r] _; [apply IH|by apply moves_ret].
Qed.

Lemma dupPlanes_moves d planes img a :
  planes = planes_n img -> (planes <= 4)%nat -> fds_of img = [-1; -1; -1; -1] ->
  moves (owned_image img ++ a) (dupPlanes d planes img) (fun o => owned_image (side o) ++ a)
    (fun o => planes_n (side o) = planes_n img /\ im_bo (side o) = im_bo img).
Proof.
  intros -> Hp Hf. unfold dupPlanes. apply fd_loop_moves.
  - lia.
  - intros q Hq. apply fresh_lookup; [done|lia].
  - intros q i Hq Hl.
    apply (set_fd_moves _ (fun fd i => set_desc i (mkDmabuf (<[q := fd]> (db_fd (im_desc i)))
      (db_offset (im_desc i)) (db_stride (im_desc i)) (db_planes (im_desc i))
      (db_fourcc (im_desc i)) (db_modifier (im_desc i))))); [done|done|].
    intros fd. split; [|done]. split; [done|]. split; [done|]. by exists fd.
Qed.

Lemma owned_snoc c addr img :
  owned (set_images c (ch_images c ++ [(addr, img)])) ≡ₚ owned_image img ++ owned c.
Proof.
  unfold owned, owned_members. simpl. rewrite owned_images_snoc. by rewrite <- !app_assoc.
Qed.

Lemma owned_set_last c l x addr img :
  owned (set_last (set_images c (l ++ [x])) addr img) ≡ₚ owned_image img ++ owned (set_images c l).
Proof.
  unfold set_last. cbn [set_images ch_images]. rewrite length_app, Nat.add_sub, take_app_length.
  exact (owned_snoc (set_images c l) addr img).
Qed.

Lemma set_images_same c : owned (set_images c (ch_images c)) = owned c.
Proof. done. Qed.

Lemma owned_image_bo img bo : im_bo img = 0 -> owned_image (set_bo img bo) ≡ₚ bo_res bo ++ owned_image img.
Proof.
  intros H. unfold owned_image. rewrite H. simpl. rewrite app_nil_r. apply Permutation_app_comm.
Qed.

(** The channel an iteration of [adoptRing] leaves, whatever its outcome. *)
Definition adopted (o : flChannel * list Stat + flResult * flChannel) : flChannel :=
  match o with inl (c, _) => c | inr (_, c) => c end.

Definition still_failing (o : flChannel * list Stat + flResult * flChannel) : Prop :=
  match o with inl _ => True | inr (r, _) => r <> FL_OK end.

(** A refusal of a channel that holds the image just pushed. *)
Lemma adopt_refuse r c a : r <> FL_OK ->
  moves (owned c ++ a) (ret (inr (r, c)) : M (flChannel * list Stat + flResult * flChannel))
    (fun o => owned (adopted o) ++ a) still_failing.
Proof. intros. by apply moves_ret. Qed.

Lemma adoptPlanes_refusal c d prior l current :
  emits (mloop l (adoptPlane c d prior) current) (fun o _ => match o with inr r => r <> FL_OK | inl _ => True end).
Proof.
  apply (emits_mloop (fun _ _ => True) (fun r _ => r <> FL_OK) _ _ _ []); [done| |by intros [?|?] ?].
  intros p cur es _ _. unfold adoptPlane. destruct (_ || _); [by apply emits_ret|].
  apply emits_bind, emits_ask. intros [st|]; [|by apply emits_ret].
  destruct (_ && _); [by apply emits_ret|]. destruct (existsb _ _); by apply emits_ret.
Qed.

Lemma adoptOne_moves first planes id st a :
  (planes <= 4)%nat ->
  moves (owned st.1 ++ a) (adoptOne first planes id st) (fun o => owned (adopted o) ++ a) still_failing.
Proof.
  intros Hp. unfold adoptOne. destruct id as [i d], st as [c prior]. cbn [fst].
  destruct (negb (db_planes d =? Z.of_nat planes)) eqn:En; [by apply adopt_refuse|]. apply negb_false_iff in En.
  destruct (_ || _); [by apply adopt_refuse|]. destruct (_ && _); [by apply adopt_refuse|].
  eapply moves_bind with (b := fun _ => owned c ++ a)
    (Q := fun o => match o with inr r => r <> FL_OK | inl _ => True end).
  { intros w. destruct (mloop_neutral (seq 0 planes) (adoptPlane c d prior) [] (owned c ++ a)
      (fun p s => adoptPlane_moves c d prior p s _) w) as (es & Hl & Ha & _).
    destruct (adoptPlanes_refusal c d prior (seq 0 planes) [] w) as (es' & Hl' & HQ).
    exists es. done. }
  intros [current|r] Hr; [|by apply adopt_refuse].
  eapply moves_bind; [by apply (moves_ask _ _ (fun _ => True))|]. intros addr _.
  set (img := mkImage 0 _ _ _ _ _ _ _ _).
  eapply moves_bind with (b := fun o => owned_image (side o) ++ owned c ++ a)
    (Q := fun o => im_bo (side o) = 0).
  { eapply moves_mono; [apply (dupPlanes_moves d planes img (owned c ++ a)); [|done|done]| |].
    - unfold planes_n, img. simpl. lia.
    - by rewrite (owned_fresh img) by done.
    - intros o [_ Hb]. by rewrite Hb. }
  intros [i'|i'] Hbo; simpl side in Hbo |- *.
  2:{ apply moves_ret; [|done]. cbn [adopted]. by rewrite owned_set_last, set_images_same, app_assoc. }
  eapply moves_bind; [by apply (moves_bo_created _ _ (fun _ => True))|]. intros bo _. cbv beta.
  apply (moves_perm (owned (set_last (set_images c (ch_images c ++ [(addr, img)])) addr (set_bo i' bo)) ++ a)).
  { by rewrite owned_set_last, (owned_image_bo i' bo Hbo), set_images_same, <- !app_assoc. }
  destruct (negb _); [by apply adopt_refuse|]. destruct (_ || _); [by apply adopt_refuse|].
  destruct (negb _); [by apply adopt_refuse|]. destruct (existsb _ _); [by apply adopt_refuse|].
  by apply moves_ret.
Qed.

Lemma adoptRing_moves c input count a :
  moves (owned c ++ a) (adoptRing c input count) (fun r => owned r.2 ++ a) (fun _ => True).
Proof.
  unfold adoptRing. set (planes := if _ =? FL_FORMAT_NV12 then 2%nat else 1%nat).
  eapply moves_bind with (b := fun o => owned (adopted o) ++ a) (Q := fun _ => True).
  - apply (emits_mloop (fun st es => account (owned c ++ a) es (owned st.1 ++ a))
      (fun r es => account (owned c ++ a) es (owned r.2 ++ a)) _ _ _ []).
    + apply account_nil.
    + intros id st es _ Ha. eapply emits_mono; [apply (adoptOne_moves _ _ _ _ a)|].
      { unfold planes. destruct (_ =? _); lia. }
      intros [[c' prior]|[r c']] es' [Ha' _]; by eapply account_trans.
    + intros [[c' prior]|[r c']] es; cbv beta; by rewrite app_nil_r.
  - intros [[c' prior]|[r c']] _; by apply moves_ret.
Qed.

(** ** Creating *)

Lemma openRenderNode_moves a :
  moves a openRenderNode (fun r => gbm_res r.1 ++ fd_res [r.2] ++ a) (fun r => truthy r.1 = false -> r.2 = -1).
Proof.
  unfold openRenderNode.
  eapply moves_bind with (b := fun o => match o with inl _ => a | inr r => gbm_res r.1 ++ fd_res [r.2] ++ a end)
    (Q := fun o => match o with inl _ => True | inr r => truthy r.1 = true end).
  - generalize (map (fun i => 128 + Z.of_nat i) (seq 0 8)).
    induction l as [|i l IH]; cbn [mloop]; [by apply moves_ret|].
    eapply moves_bind with (b := fun o => match o with inl _ => a | inr r => gbm_res r.1 ++ fd_res [r.2] ++ a end)
      (Q := fun o => match o with inl _ => True | inr r => truthy r.1 = true end).
    + eapply moves_bind; [by apply (moves_opened _ _ (fun _ => True))|]. intros fd _. cbv beta.
      destruct (fd <? 0) eqn:E; [rewrite fd_res_0 by lia; by apply moves_ret|].
      eapply moves_bind; [by apply (moves_gbm_created _ _ (fun _ => True))|]. intros g _. cbv beta.
      unfold gbm_res. destruct (truthy g) eqn:Eg; [apply moves_ret; [|done]; cbn [fst snd]; by rewrite Eg|].
      rewrite fd_res_1 by lia. eapply moves_bind; [by apply (moves_close _ _ (fun _ => True))|].
      intros [] _. by apply moves_ret.
    + intros [[]|r] Hr; [apply IH|by apply moves_ret].
  - intros [u|[g fd]] Hr; apply moves_ret; try done. simpl in *. congruence.
Qed.

Lemma createChannel_moves name width height format poolSize flags images a :
  moves a (createChannel name width height format poolSize flags images)
    (fun r => match r.2 with Some c => owned c | None => [] end ++ a)
    (fun r => r.1 = FL_OK <-> is_Some r.2).
Proof.
  assert (forall r, r <> FL_OK -> forall b, moves b (ret (r, None) : M (flResult * option flChannel))
    (fun r => match r.2 with Some c => owned c | None => [] end ++ b)
    (fun r => r.1 = FL_OK <-> is_Some r.2)) as Hno.
  { intros r Hr b. apply moves_ret; [done|]. simpl. split; [done|by intros [? ?]]. }
  unfold createChannel. do 3 (match goal with |- moves _ (if ?t then _ else _) _ _ =>
    destruct t; [by apply Hno|] end).
  set (c := set_info (set_flags (set_name (set_isConsumer newChannel true) name) flags) _).
  eapply moves_bind; [apply openRenderNode_moves|]. intros [g fd] Hg. cbn [fst snd] in Hg |- *.
  set (c1 := set_drmFd (set_gbm c g) fd).
  assert (gbm_res g ++ fd_res [fd] ++ a ≡ₚ owned c1 ++ a) as Hown.
  { assert (owned_members c1 = []) as Hm by (vm_compute; reflexivity).
    assert (owned c1 = gbm_res g ++ fd_res [fd]) as ->; [|by rewrite <- app_assoc].
    unfold owned. by rewrite Hm, app_nil_r. }
  destruct (truthy g) eqn:Eg; cbn [negb].
  2:{ eapply moves_bind with (b := fun _ => a) (Q := fun _ => True); [|intros [] _; by apply Hno].
      apply (moves_perm (owned_members c1 ++ a)); [|apply deleteChannel_moves].
      unfold owned in Hown. unfold gbm_res in *. simpl ch_gbm in Hown. rewrite Eg in *.
      simpl ch_drmFd in Hown. rewrite (Hg eq_refl), (fd_res_0 (-1)) in * by lia. done. }
  eapply moves_bind with (b := fun r => owned r.2 ++ a) (Q := fun _ => True).
  { apply (moves_perm (owned c1 ++ a)); [by rewrite Hown|].
    set (c2 := set_externalPool c1 _). change (owned c1) with (owned c2). destruct images as [l|].
    - apply adoptRing_moves.
    - eapply moves_bind; [apply reallocRing_moves|]. intros [ok c3] _. cbn [snd]. by apply moves_ret. }
  intros [r c3] _. cbn [snd]. case_bool_decide as Er; cbn [negb].
  - apply moves_ret; [done|]. simpl. split; [by eexists|done].
  - eapply moves_bind; [apply close_moves|]. intros [] _. by apply Hno.
Qed.

(** Creating a channel leaks nothing: every descriptor, buffer object and GBM
    device the call brought into being, it disposed of - except those the channel
    it returns owns.  A creation that fails at any point, on the render node, an
    allocation, an adopted image, leaves nothing behind. *)
Theorem linux_create_no_leak name width height format poolSize flags images w :
  let '((r, ch), w') := createChannel name width height format poolSize flags images w in
  let es := effects_of w w' in
  (r = FL_OK <-> is_Some ch)
  /\ gained es ≡ₚ lost es ++ match ch with Some c => owned c | None => [] end.
Proof.
  pose proof (emits_run _ _ w (createChannel_moves name width height format poolSize flags images [])) as HE.
  destruct (createChannel _ _ _ _ _ _ _ w) as [[r ch] w']. cbn [fst snd] in HE |- *.
  destruct HE as [HE HQ]. split; [done|]. unfold account in HE. by rewrite app_nil_r in HE.
Qed.

(** C4: [flClose] releases exactly what the channel owns: every descriptor of every
    image, completion, lease and link, every buffer object, the render node - each
    once - and nothing else; the poke of a consumer's own listener is closed too. *)
Theorem linux_close_releases_all c w :
  let es := effects_of w (flClose c w).2 in owned c ++ gained es ≡ₚ lost es.
Proof.
  pose proof (emits_run _ _ w (close_moves c [])) as [HE _]. unfold account in HE.
  by rewrite !app_nil_r in HE.
Qed.

(** C10: Reallocating the ring is all or nothing: on failure the channel is
    untouched and everything allocated on the way was destroyed; on success the
    new ring has the same number of images and the new geometry, the generation
    went up by one, the old images and every pending fence were released, and the
    lease ledger starts a new epoch with nothing held. *)
Theorem linux_realloc_all_or_nothing c width height poolSize w :
  let '(r, w') := reallocRing c width height poolSize w in
  let es := effects_of w w' in
  reallocated c width height poolSize r /\ owned c ++ gained es ≡ₚ lost es ++ owned r.2.
Proof.
  pose proof (emits_run _ _ w (reallocRing_moves c width height poolSize [])) as HE.
  destruct (reallocRing _ _ _ _ w) as [r w']. cbn [fst snd] in HE |- *.
  destruct HE as [HE HQ]. split; [done|]. unfold account in HE. by rewrite !app_nil_r in HE.
Qed.
End Rules.
