(* ===== verification/LinuxHandover.v ===== *)
(** * Handing the ring over

    What [handOverRing] describes is what [importRing] adopts: after the round
    trip over the wire the producer's images are the consumer's - the same
    layout plane by plane, the descriptor of every plane in its place - and every
    slot is free. *)
From S2P Require Import BufferRefs Resources LinuxLifetime.
From S2P Require Import Prelude Api Kernel Wire SyncFd Ipc LinuxImage LinuxState LinuxProducer LinuxRing LinuxMapping.

(** ** The message as bytes *)

Lemma Forall2_fits_replicate n w l :
  length l = n -> Forall (fits w) l -> Forall2 fits (replicate n w) l.
Proof. intros <- H. induction H; simpl; by constructor. Qed.

Lemma nth_skip {A} (l1 l2 : list A) n k d : length l1 = n -> nth (n + k) (l1 ++ l2) d = nth k l2 d.
Proof. intros <-. rewrite app_nth2 by lia. f_equal. lia. Qed.

Lemma drop_skip {A} (l1 l2 : list A) n k : length l1 = n -> drop (n + k) (l1 ++ l2) = drop k l2.
Proof. intros <-. by rewrite drop_app_ge, Nat.add_comm, Nat.add_sub by lia. Qed.

Lemma take_exact {A} (l1 l2 : list A) n : length l1 = n -> take n (l1 ++ l2) = l1.
Proof. intros <-. apply take_app_length. Qed.

Definition rd_shape (r : RingDescMsg) : Prop :=
  length (rd_texture r) = 16%nat /\ length (rd_stride r) = 16%nat /\ length (rd_offset r) = 16%nat
  /\ length (rd_planeCount r) = 16%nat /\ length (rd_planeStride r) = 64%nat
  /\ length (rd_planeOffset r) = 64%nat.

Definition rd_typed (r : RingDescMsg) : Prop :=
  Forall u32 [rd_width r; rd_height r; rd_format r; rd_poolSize r] /\ u64 (rd_generation r)
  /\ Forall u64 (rd_texture r) /\ Forall u64 [rd_readyFence r; rd_consumedFence r]
  /\ Forall u64 (rd_stride r) /\ Forall u64 (rd_offset r) /\ u64 (rd_modifier r)
  /\ Forall u32 [rd_fourcc r; rd_pad r] /\ Forall u32 (rd_planeCount r)
  /\ Forall u64 (rd_planeStride r) /\ Forall u64 (rd_planeOffset r).

Lemma rd_valid r : rd_shape r -> rd_typed r -> struct_valid r.
Proof.
  intros (L1 & L2 & L3 & L4 & L5 & L6) (T1 & T2 & T3 & T4 & T5 & T6 & T7 & T8 & T9 & T10 & T11).
  assert (forall l, Forall u64 l -> Forall (fits 8) l) as F8
    by (intros l H; eapply Forall_impl; [exact H|auto with fl]).
  assert (forall l, Forall u32 l -> Forall (fits 4) l) as F4
    by (intros l H; eapply Forall_impl; [exact H|auto with fl]).
  split.
  - cbn [st_values st_widths RingDescMsg_struct].
    change [4; 4; 4; 4; 8]%nat with (replicate 4 4%nat ++ [8]%nat).
    change [rd_width r; rd_height r; rd_format r; rd_poolSize r; rd_generation r]
      with ([rd_width r; rd_height r; rd_format r; rd_poolSize r] ++ [rd_generation r]).
    change [8; 8]%nat with (replicate 2 8%nat). change [8; 4; 4]%nat with ([8] ++ replicate 2 4)%nat.
    change [rd_modifier r; rd_fourcc r; rd_pad r] with ([rd_modifier r] ++ [rd_fourcc r; rd_pad r]).
    assert (forall v, u64 v -> Forall2 fits [8]%nat [v]) as F1
      by (intros v Hv; repeat constructor; by apply fits8).
    repeat (apply Forall2_app; [first [by apply F1|by apply Forall2_fits_replicate; auto
      |apply Forall2_app; first [by apply F1|by apply Forall2_fits_replicate; auto]]|]).
    by apply Forall2_fits_replicate; auto.
  - destruct r as [w h f p g tx rf cf st off md fc pd pc ps po]. cbn [rd_texture rd_stride rd_offset
      rd_planeCount rd_planeStride rd_planeOffset] in *.
    cbv beta iota zeta delta [st_build st_values RingDescMsg_struct rd_width rd_height rd_format rd_poolSize rd_generation
      rd_texture rd_readyFence rd_consumedFence rd_stride rd_offset rd_modifier rd_fourcc rd_pad
      rd_planeCount rd_planeStride rd_planeOffset].
    f_equal; [
      change (drop 5) with (@drop Z (5 + 0)%nat) | change 21%nat with (5 + (16 + 0))%nat
      | change 22%nat with (5 + (16 + 1))%nat | change 23%nat with (5 + (16 + (2 + 0)))%nat
      | change 39%nat with (5 + (16 + (2 + (16 + 0))))%nat
      | change 55%nat with (5 + (16 + (2 + (16 + (16 + 0)))))%nat
      | change 56%nat with (5 + (16 + (2 + (16 + (16 + 1)))))%nat
      | change 57%nat with (5 + (16 + (2 + (16 + (16 + 2)))))%nat
      | change 58%nat with (5 + (16 + (2 + (16 + (16 + (3 + 0))))))%nat
      | change 74%nat with (5 + (16 + (2 + (16 + (16 + (3 + (16 + 0)))))))%nat
      | change 138%nat with (5 + (16 + (2 + (16 + (16 + (3 + (16 + (64 + 0))))))))%nat ];
    rewrite ?(drop_skip [w; h; f; p; g]), ?(nth_skip [w; h; f; p; g]) by done;
    rewrite ?drop_skip, ?nth_skip by done; rewrite ?drop_0, ?take_exact by done; try done.
    rewrite <- L6. apply firstn_all.
Qed.

(** ** The ring of a consumer *)

Definition expected_planes (format : Z) : nat := if format =? FL_FORMAT_NV12 then 2 else 1.

Definition row_bytes (format width : Z) : Z := if format =? FL_FORMAT_NV12 then width else width * 4.

(** An image whose layout fits the format: what allocation and adoption leave. *)
Definition layout_ok (i : flChannelInfo) (modifier : Z) (img : flImage) : Prop :=
  let d := im_desc img in
  db_planes d = Z.of_nat (expected_planes (info_format i)) /\ db_fourcc d = fourccFor (info_format i)
  /\ db_modifier d = modifier
  /\ length (db_fd d) = 4%nat /\ length (db_offset d) = 4%nat /\ length (db_stride d) = 4%nat
  /\ Forall u64 (db_offset d) /\ Forall u64 (db_stride d)
  /\ forall p, (p < expected_planes (info_format i))%nat ->
       row_bytes (info_format i) (info_width i) <= at_ (db_stride d) p.

Definition ring_ok (c : flChannel) (modifier : Z) : Prop :=
  let i := ch_info c in
  validGeometry (info_width i) (info_height i) (info_format i) = true
  /\ Forall u32 [info_width i; info_height i; info_format i] /\ u64 (info_generation i)
  /\ fourccFor (info_format i) <> 0 /\ u64 modifier
  /\ (1 <= length (ch_images c) <= kMaxPool)%nat
  /\ Forall (fun x => layout_ok i modifier x.2) (ch_images c).

(** ** Tables of rows *)

Lemma length_concat_rows {A} (k : nat) (rows : list (list A)) :
  Forall (fun r => length r = k) rows -> length (concat rows) = (length rows * k)%nat.
Proof. induction 1 as [|r rows Hr _ IH]; simpl; [done|]. by rewrite length_app, IH, Hr. Qed.

Lemma nth_concat_rows {A} (k : nat) (rows : list (list A)) i p d :
  Forall (fun r => length r = k) rows -> (i < length rows)%nat -> (p < k)%nat ->
  nth (i * k + p) (concat rows) d = nth p (nth i rows []) d.
Proof.
  intros H. revert i. induction H as [|r rows Hr _ IH]; intros i Hi Hp; simpl in Hi; [lia|].
  destruct i as [|i]; simpl.
  - rewrite app_nth1 by lia. done.
  - rewrite app_nth2 by lia. rewrite Hr. replace (k + i * k + p - k)%nat with (i * k + p)%nat by lia.
    apply IH; lia.
Qed.

Section Describe.
Context (c : flChannel) (modifier : Z).
Hypothesis Hring : ring_ok c modifier.

Notation e := (expected_planes (info_format (ch_info c))).
Notation n := (length (ch_images c)).
Let rd := (describeRing c).1.
Let fds := (describeRing c).2.

Lemma expected_bound : (1 <= e <= 2)%nat.
Proof. unfold expected_planes. destruct (_ =? _); lia. Qed.

Lemma ring_image i addr img :
  ch_images c !! i = Some (addr, img) -> layout_ok (ch_info c) modifier img /\ (i < n)%nat.
Proof.
  intros H. destruct Hring as (_ & _ & _ & _ & _ & _ & HF). split.
  - exact (Forall_lookup_1 _ _ _ _ HF H).
  - by eapply lookup_lt_Some.
Qed.

Lemma descs_lookup (f : flDmabuf -> Z) i addr img :
  ch_images c !! i = Some (addr, img) ->
  nth i (map f (map (fun '(_, img) => im_desc img) (ch_images c)) ++ replicate (16 - n) 0) 0
  = f (im_desc img).
Proof.
  intros H. pose proof (lookup_lt_Some _ _ _ H). rewrite app_nth1 by (by rewrite !length_map).
  rewrite nth_lookup, !list_lookup_fmap, H. done.
Qed.

Definition row_of (f : flDmabuf -> list Z) (d : flDmabuf) : list Z :=
  map (fun p => if (p <? Z.to_nat (db_planes d))%nat then at_ (f d) p else 0) (seq 0 4).

Definition rows_of (f : flDmabuf -> list Z) : list (list Z) :=
  map (fun x => row_of f (im_desc x.2)) (ch_images c).

Lemma rows_shape f : Forall (fun r => length r = 4%nat) (rows_of f).
Proof. apply Forall_map, Forall_true. done. Qed.

Lemma planes_eq : rd_planeStride rd = concat (rows_of db_stride) ++ replicate (64 - 4 * n) 0
  /\ rd_planeOffset rd = concat (rows_of db_offset) ++ replicate (64 - 4 * n) 0.
Proof.
  unfold rd, describeRing, rows_of. cbn [fst rd_planeStride rd_planeOffset].
  rewrite !map_map, !length_map. split; do 2 f_equal; apply map_ext; by intros [a img].
Qed.

Lemma plane_at_rows f i p addr img :
  ch_images c !! i = Some (addr, img) -> (p < e)%nat ->
  plane_at (concat (rows_of f) ++ replicate (64 - 4 * n) 0) i p = at_ (f (im_desc img)) p.
Proof.
  intros H Hp. destruct (ring_image i addr img H) as [Hl Hi]. pose proof expected_bound.
  unfold plane_at. rewrite Nat.mul_comm.
  rewrite app_nth1; [|rewrite (length_concat_rows 4) by apply rows_shape; unfold rows_of; rewrite length_map; lia].
  rewrite (nth_concat_rows 4) by (apply rows_shape || unfold rows_of; rewrite ?length_map; lia).
  unfold rows_of. rewrite (nth_lookup (map _ _)), list_lookup_fmap, H. simpl default.
  destruct Hl as (Hpl & _). unfold row_of. rewrite nth_lookup, list_lookup_fmap, lookup_seq_lt by lia. simpl.
  rewrite Hpl, Nat2Z.id. by replace (p <? e)%nat with true by (symmetry; apply Nat.ltb_lt; lia).
Qed.

Definition fd_rows : list (list Z) :=
  map (fun x => take (Z.to_nat (db_planes (im_desc x.2))) (db_fd (im_desc x.2))) (ch_images c).

Lemma fds_eq : fds = concat fd_rows.
Proof.
  unfold fds, describeRing, fd_rows. cbn [snd]. rewrite map_map. f_equal. apply map_ext. by intros [a img].
Qed.

Lemma fd_rows_shape : Forall (fun r => length r = e) fd_rows.
Proof.
  unfold fd_rows. apply Forall_map. destruct Hring as (_ & _ & _ & _ & _ & _ & HF).
  eapply Forall_impl; [exact HF|]. intros [addr img] (Hp & _ & _ & Hl & _). cbn [snd] in *. pose proof expected_bound.
  rewrite Hp, Nat2Z.id, length_take. lia.
Qed.

Lemma length_fds : length fds = (n * e)%nat.
Proof. rewrite fds_eq, (length_concat_rows e) by exact fd_rows_shape. unfold fd_rows. by rewrite length_map. Qed.

Lemma fds_lookup i p addr img :
  ch_images c !! i = Some (addr, img) -> (p < e)%nat ->
  nth (i * e + p) fds 0 = at_ (db_fd (im_desc img)) p.
Proof.
  intros H Hp. destruct (ring_image i addr img H) as [Hl Hi].
  rewrite fds_eq, (nth_concat_rows e) by (apply fd_rows_shape || unfold fd_rows; rewrite ?length_map; done).
  unfold fd_rows. rewrite (nth_lookup (map _ _)), list_lookup_fmap, H. simpl default.
  destruct Hl as (Hpl & _). rewrite Hpl, Nat2Z.id. unfold at_. by rewrite !nth_lookup, lookup_take_lt.
Qed.

Lemma padded (f : flDmabuf -> Z) (Q : Z -> Prop) :
  (forall img, layout_ok (ch_info c) modifier img -> Q (f (im_desc img))) -> Q 0 ->
  let l := map f (map (fun '(_, img) => im_desc img) (ch_images c)) in
  Forall Q (l ++ replicate (16 - length l) 0) /\ length (l ++ replicate (16 - length l) 0) = 16%nat.
Proof.
  intros Hf H0 l. destruct Hring as (_ & _ & _ & _ & _ & Hn & HF). unfold kMaxPool, FL_MAX_POOL_SIZE in Hn.
  assert (length l = n) as Hl by (unfold l; by rewrite !length_map). split.
  - apply Forall_app. split.
    + unfold l. apply Forall_map, Forall_map. eapply Forall_impl; [exact HF|]. intros [a img]. apply Hf.
    + by apply Forall_replicate.
  - rewrite length_app, length_replicate. lia.
Qed.

Lemma rows_padded (f : flDmabuf -> list Z) :
  (forall img, layout_ok (ch_info c) modifier img -> Forall u64 (f (im_desc img))) ->
  Forall u64 (concat (rows_of f) ++ replicate (64 - 4 * n) 0)
  /\ length (concat (rows_of f) ++ replicate (64 - 4 * n) 0) = 64%nat.
Proof.
  intros Hf. destruct Hring as (_ & _ & _ & _ & _ & Hn & HF). unfold kMaxPool, FL_MAX_POOL_SIZE in Hn. split.
  - apply Forall_app. split; [|by apply Forall_replicate; ulia].
    apply Forall_concat, Forall_map. eapply Forall_impl; [exact HF|]. intros [a img] Hl. cbn [snd] in *.
    unfold row_of. apply Forall_map, Forall_true. intros p. destruct (_ <? _)%nat; [|ulia].
    by apply typed_nth, Hf.
  - rewrite length_app, length_replicate, (length_concat_rows 4) by apply rows_shape.
    unfold rows_of. rewrite length_map. lia.
Qed.

Lemma first_desc : exists addr img, ch_images c !! 0%nat = Some (addr, img)
  /\ rd_fourcc rd = db_fourcc (im_desc img) /\ rd_modifier rd = db_modifier (im_desc img).
Proof.
  destruct Hring as (_ & _ & _ & _ & _ & Hn & _). unfold rd, describeRing. cbn [fst rd_fourcc rd_modifier].
  destruct (ch_images c) as [|[a img] l]; simpl in Hn; [lia|]. by exists a, img.
Qed.

Lemma rd_head : rd_fourcc rd = fourccFor (info_format (ch_info c)) /\ rd_modifier rd = modifier.
Proof.
  destruct first_desc as (addr & img & H & -> & ->). destruct (ring_image 0 addr img H) as [Hl _].
  split; apply Hl.
Qed.

Lemma rd_encodes : struct_valid rd.
Proof.
  destruct Hring as (_ & Hinfo & Hg & _ & Hm & Hn & _). unfold kMaxPool, FL_MAX_POOL_SIZE in Hn.
  rewrite !Forall_cons in Hinfo. destruct Hinfo as (Hw & Hh & Hfmt & _).
  pose proof expected_bound. destruct rd_head as [Hfc Hmd]. destruct planes_eq as [Eps Epo].
  assert (u32 (fourccFor (info_format (ch_info c)))) as Hf4.
  { unfold fourccFor, DRM_FORMAT_ARGB8888, DRM_FORMAT_NV12, DRM_FORMAT_ABGR8888, DRM_FORMAT_ABGR2101010.
    repeat case_match; ulia. }
  destruct (padded (fun d => at_ (db_stride d) 0) u64) as [S1 S2]; [intros img Hl; apply typed_nth, Hl|ulia|].
  destruct (padded (fun d => at_ (db_offset d) 0) u64) as [O1 O2]; [intros img Hl; apply typed_nth, Hl|ulia|].
  destruct (padded db_planes u32) as [C1 C2].
  { intros img (Hp & _). rewrite Hp. pose proof expected_bound. ulia. } { ulia. }
  destruct (rows_padded db_stride) as [PS1 PS2]; [intros img Hl; apply Hl|].
  destruct (rows_padded db_offset) as [PO1 PO2]; [intros img Hl; apply Hl|].
  apply rd_valid.
  - split; [done|]. split; [exact S2|]. split; [exact O2|]. split; [exact C2|]. by rewrite Eps, Epo.
  - unfold rd_typed. rewrite Hfc, Hmd, Eps, Epo. split_and!; try done.
    + change (Forall u32 [info_width (ch_info c); info_height (ch_info c); info_format (ch_info c); imageCount c]).
      repeat (constructor; [done|]). constructor; [|constructor]. unfold imageCount. ulia.
    + change (Forall u64 (replicate 16 0)). apply Forall_replicate. ulia.
    + change (Forall u64 [0; 0]). repeat constructor; ulia.
    + change (Forall u32 [fourccFor (info_format (ch_info c)); 0]). constructor; [done|]. repeat constructor; ulia.
Qed.
End Describe.

(** ** The import *)

(** The producer's image [img'] is the consumer's [img], its descriptors [fds']. *)
Definition same_layout (e : nat) (img img' : flImage) : Prop :=
  db_planes (im_desc img') = db_planes (im_desc img) /\ db_fourcc (im_desc img') = db_fourcc (im_desc img)
  /\ db_modifier (im_desc img') = db_modifier (im_desc img)
  /\ forall p, (p < e)%nat ->
       at_ (db_stride (im_desc img')) p = at_ (db_stride (im_desc img)) p
       /\ at_ (db_offset (im_desc img')) p = at_ (db_offset (im_desc img)) p.

Section Imported.
Context `{K : Kernel}.

Lemma import_images (rd : RingDescMsg) e fds m :
  emits (mfold (seq 0 m) (fun i l => let! a := new_object in ret (l ++ [(a, importImage rd e fds i)])) [])
    (fun l _ => map snd l = map (importImage rd e fds) (seq 0 m)).
Proof.
  assert (forall k p (l : list (Z * flImage)), emits (mfold (seq p k)
    (fun i l => let! a := new_object in ret (l ++ [(a, importImage rd e fds i)])) l)
    (fun l' _ => map snd l' = map snd l ++ map (importImage rd e fds) (seq p k))) as HL;
    [|exact (HL m 0%nat [])].
  induction k as [|k IH]; intros p l; cbn [seq mfold]; [apply emits_ret; by rewrite app_nil_r|].
  apply emits_bind, emits_bind, emits_ask. intros a. apply emits_ret.
  eapply emits_mono; [apply IH|]. intros l' es H. cbv beta in *. rewrite H, map_app, <- app_assoc. done.
Qed.

(** The description passes every check of [importRing]. *)
Lemma import_accepts c modifier P fds' :
  ring_ok c modifier -> let '(rd, fds) := describeRing c in length fds' = length fds ->
  emits (importRing P rd fds') (fun r _ => r.1 = FL_OK
    /\ map snd (ch_images r.2) = map (importImage rd (expected_planes (info_format (ch_info c))) fds')
         (seq 0 (length (ch_images c)))
    /\ ch_slotSubmitValue r.2 = replicate (length (ch_images c)) 0
    /\ ch_consumedValue r.2 = 0 /\ ch_readyValue r.2 = 0
    /\ ch_info r.2 = mkChannelInfo (info_version (ch_info P)) (info_width (ch_info c))
         (info_height (ch_info c)) (info_format (ch_info c)) (imageCount c) (info_generation (ch_info c))
    /\ ch_bufferReferences r.2 = ch_bufferReferences P).
Proof.
  intros Hring. destruct (describeRing c) as [rd fds] eqn:Ed. intros Hlen.
  pose proof (rd_head c modifier Hring) as [Hfc _]. pose proof (length_fds c modifier Hring) as Hlf.
  pose proof (plane_at_rows c modifier Hring) as Hpl. pose proof (planes_eq c) as [Hps _].
  pose proof (descs_lookup c) as Hd. pose proof expected_bound c as Hexp.
  rewrite Ed in *. cbn [fst snd] in *.
  assert (rd_width rd = info_width (ch_info c) /\ rd_height rd = info_height (ch_info c)
    /\ rd_format rd = info_format (ch_info c) /\ rd_poolSize rd = imageCount c
    /\ rd_generation rd = info_generation (ch_info c)
    /\ rd_planeCount rd = map db_planes (map (fun '(_, img) => im_desc img) (ch_images c))
         ++ replicate (16 - length (ch_images c)) 0) as (Ew & Eh & Ef & Epool & Eg & Epc).
  { assert (rd = (describeRing c).1) as -> by (by rewrite Ed). unfold describeRing.
    cbn [fst rd_width rd_height rd_format rd_poolSize rd_generation rd_planeCount].
    rewrite !length_map. done. }
  destruct Hring as (Hgeo & Hinfo & Hg & Hf0 & Hm & Hn & HF).
  unfold kMaxPool, FL_MAX_POOL_SIZE in Hn. unfold importRing. rewrite Ew, Eh, Ef, Epool, Eg, Hfc, Hgeo, Z.eqb_refl.
  assert (truthy (imageCount c) = true) as -> by (apply truthy_true; unfold imageCount; lia).
  assert (truthy (fourccFor (info_format (ch_info c))) = true) as -> by (by apply truthy_true).
  replace (Z.of_nat kMaxPool <? imageCount c) with false
    by (unfold imageCount, kMaxPool, FL_MAX_POOL_SIZE; lia).
  cbn [negb orb]. fold (expected_planes (info_format (ch_info c))).
  assert (ringPlanesOk rd (expected_planes (info_format (ch_info c))) = true) as ->.
  { unfold ringPlanesOk. rewrite Epool. unfold imageCount. rewrite Nat2Z.id. apply forallb_forall.
    intros i Hi%in_seq. destruct (lookup_lt_is_Some_2 (ch_images c) i) as [[addr img] Hl]; [lia|].
    pose proof (Forall_lookup_1 _ _ _ _ HF Hl) as (Hp1 & _ & _ & _ & _ & _ & _ & _ & Hrow). cbn [snd] in *.
    apply andb_true_iff. split.
    - rewrite Epc, (Hd db_planes i addr img Hl), Hp1. apply Z.eqb_refl.
    - apply forallb_forall. intros p Hp%in_seq. rewrite Hps, (Hpl db_stride i p addr img Hl) by lia.
      specialize (Hrow p ltac:(lia)). rewrite Ew. unfold row_bytes, expected_planes in *.
      destruct (info_format (ch_info c) =? FL_FORMAT_NV12); cbn [Nat.eqb]; lia. }
  cbn [negb]. replace (Z.of_nat (length fds') =? _) with true; [|symmetry; apply Z.eqb_eq;
    rewrite Hlen, Hlf; unfold imageCount; lia]. cbn [negb].
  apply emits_bind. eapply emits_mono; [apply (LinuxLifetime.freeImages_moves (ch_images P) [])|].
  intros [] es _. apply emits_bind. unfold imageCount. rewrite Nat2Z.id.
  eapply emits_mono; [apply import_images|]. intros images es' Himg. apply emits_ret.
  split_and!; done.
Qed.

Lemma slot_reset P i n :
  ch_slotSubmitValue P = replicate n 0 -> ch_consumedValue P = 0 ->
  slotFree P i = negb (BufferRefs.busy (ch_bufferReferences P) (Z.of_nat i)).
Proof.
  intros Hs Hc. unfold slotFree, submitAt. rewrite Hs, Hc. assert (forall j, nth j (replicate n 0) 0 = 0) as ->; [|done].
  intros j. rewrite nth_lookup. destruct (replicate n 0 !! j) as [x|] eqn:E; [|done].
  by apply lookup_replicate_1 in E as [-> _].
Qed.

(** C5: The ring survives the hand-over: the description of any well-formed ring
    fits one datagram with all its descriptors, decodes to itself, and is accepted
    by the producer, whose ring is then the consumer's - same geometry, generation
    and size, every image with the same layout plane by plane, the descriptor of
    plane [p] of slot [i] being the one received for the consumer's plane [p] of
    slot [i] - with every slot free but for local references. *)
Theorem linux_handover_roundtrip c modifier P fds' w :
  ring_ok c modifier ->
  let e := expected_planes (info_format (ch_info c)) in
  let '(rd, fds) := describeRing c in
  length fds' = length fds ->
  Z.of_nat (length (encode rd)) <= kBufferSize - headerSize /\ Z.of_nat (length fds) <= kMaxFds
  /\ as_ RingDescMsg (encode rd) = Some rd
  /\ let '(r, P') := (importRing P rd fds' w).1 in
     r = FL_OK
     /\ ch_info P' = mkChannelInfo (info_version (ch_info P)) (info_width (ch_info c))
          (info_height (ch_info c)) (info_format (ch_info c)) (imageCount c) (info_generation (ch_info c))
     /\ length (ch_images P') = length (ch_images c)
     /\ forall i addr img, ch_images c !! i = Some (addr, img) ->
          slotFree P' i = negb (BufferRefs.busy (ch_bufferReferences P) (Z.of_nat i))
          /\ exists addr' img', ch_images P' !! i = Some (addr', img') /\ same_layout e img img'
             /\ forall p, (p < e)%nat ->
                  at_ (db_fd (im_desc img)) p = nth (i * e + p) fds 0
                  /\ at_ (db_fd (im_desc img')) p = nth (i * e + p) fds' 0.
Proof.
  intros Hring e. pose proof (import_accepts c modifier P fds' Hring) as HE.
  pose proof (rd_encodes c modifier Hring) as Hv. pose proof (length_fds c modifier Hring) as Hlf.
  pose proof (fds_lookup c modifier Hring) as Hfd. pose proof (rd_head c modifier Hring) as [Hfc Hmd].
  pose proof (plane_at_rows c modifier Hring) as Hpl. pose proof (planes_eq c) as [Hps Hpo].
  pose proof (expected_bound c) as Hexp. fold e in Hexp, Hlf, Hfd, Hpl, HE.
  destruct (describeRing c) as [rd fds]. cbn [fst snd] in *. intros Hlen. specialize (HE Hlen).
  apply (emits_run _ _ w) in HE. destruct (importRing P rd fds' w).1 as [r P']. cbn [fst snd] in HE.
  destruct HE as (-> & Himg & Hsub & Hcon & _ & Hinfo & Hrefs).
  assert (length (ch_images P') = length (ch_images c)) as HL.
  { rewrite <- (length_map snd), Himg, length_map, length_seq. done. }
  destruct Hring as (_ & _ & _ & _ & _ & Hn & HF). unfold kMaxPool, FL_MAX_POOL_SIZE in Hn.
  split; [rewrite length_encode by done; vm_compute; discriminate|].
  split; [unfold kMaxFds, kMaxPool, FL_MAX_POOL_SIZE; nia|]. split; [by apply as_encode|]. split; [done|]. split; [done|].
  split; [done|]. intros i addr img Hi. rewrite (slot_reset _ _ _ Hsub Hcon), Hrefs. split; [done|].
  pose proof (lookup_lt_Some _ _ _ Hi) as Hlt.
  assert (snd <$> ch_images P' !! i = Some (importImage rd e fds' i)) as Hi'.
  { rewrite <- list_lookup_fmap. change (snd <$> ch_images P') with (map snd (ch_images P')). rewrite Himg.
    rewrite list_lookup_fmap, lookup_seq_lt by done. done. }
  destruct (ch_images P' !! i) as [[addr' img']|] eqn:HiP; [|done]. simpl in Hi'. injection Hi' as ->.
  exists addr', (importImage rd e fds' i). split; [done|].
  pose proof (Forall_lookup_1 _ _ _ _ HF Hi) as (Hp1 & Hp2 & Hp3 & _). cbn [snd] in *. fold e in Hp1.
  assert (forall (f : nat -> Z) p, (p < 4)%nat -> at_ (map f (seq 0 4)) p = f p) as Hat.
  { intros f p Hp. unfold at_. do 4 (destruct p as [|p]; [done|]). lia. }
  assert (forall p, (p < e)%nat -> (p <? e)%nat = true) as Hltb by (intros; by apply Nat.ltb_lt).
  split.
  - unfold same_layout, importImage. cbn [im_desc db_planes db_fourcc db_modifier db_stride db_offset].
    rewrite Hp1, Hp2, Hp3. split; [done|]. split; [done|]. split; [done|]. intros p Hp.
    rewrite !Hat by lia. cbv beta. rewrite Hltb, Hps, Hpo by done.
    by rewrite (Hpl db_stride i p addr img Hi Hp), (Hpl db_offset i p addr img Hi Hp).
  - intros p Hp. split; [by rewrite (Hfd i p addr img Hi Hp)|].
    unfold importImage. cbn [im_desc db_fd]. rewrite Hat by lia. cbv beta. by rewrite Hltb by done.
Qed.
End Imported.

(** ** Witness: an NV12 ring of two images *)

Definition exPlane (fd : Z) : flImage :=
  mkImage 7 (mkDmabuf [fd; fd + 1; -1; -1] [0; 2097152; 0; 0] [2048; 2048; 0; 0] 2 DRM_FORMAT_NV12 0)
    1920 1080 true 20 [0;0;0;0] [0;0;0;0] zeroMapped.

Definition exConsumer : flChannel :=
  set_images (set_info newChannel (mkChannelInfo FL_VERSION 1920 1080 FL_FORMAT_NV12 2 5))
    [(4096, exPlane 11); (8192, exPlane 13)].

Definition exHandover : Kernel :=
  scripted (fun _ _ => (0, 0)) (fun _ _ => 0) (fun _ _ => mkReceived 0 [] [] 0).

Lemma exConsumer_ok : ring_ok exConsumer 0.
Proof.
  assert (forall fd, layout_ok (ch_info exConsumer) 0 (exPlane fd)) as HL.
  { intros fd. unfold layout_ok. do 6 (split; [reflexivity|]).
    split; [repeat constructor; ulia|]. split; [repeat constructor; ulia|].
    intros [|[|p]] Hp; [vm_compute; discriminate..|]. unfold expected_planes in Hp. simpl in Hp. lia. }
  unfold ring_ok. split; [reflexivity|]. split; [rewrite !Forall_cons; split_and!; [by vm_compute..|constructor]|].
  split; [by vm_compute|]. split; [discriminate|]. split; [ulia|]. split; [unfold kMaxPool, FL_MAX_POOL_SIZE; simpl; lia|].
  constructor; [apply HL|]. constructor; [apply HL|constructor].
Qed.

Lemma linux_handover_roundtrip_witness :
  let K := exHandover in
  let e := expected_planes (info_format (ch_info exConsumer)) in
  ring_ok exConsumer 0
  /\ let '(rd, fds) := describeRing exConsumer in
     length [21; 22; 23; 24] = length fds
     /\ let '(r, P') := (importRing newChannel rd [21; 22; 23; 24] start).1 in
        r = FL_OK /\ length (ch_images P') = 2%nat.
Proof.
  intros K e. split; [exact exConsumer_ok|].
  pose proof (linux_handover_roundtrip exConsumer 0 newChannel [21; 22; 23; 24] start exConsumer_ok) as H.
  cbv zeta in H. revert H. destruct (describeRing exConsumer) as [rd fds] eqn:E. intros H.
  assert (length fds = 4%nat) as Hl
    by (change fds with (rd, fds).2; rewrite <- E; vm_compute; reflexivity).
  split; [by rewrite Hl|]. specialize (H (eq_sym Hl)). destruct H as (_ & _ & _ & H).
  destruct (importRing newChannel rd [21; 22; 23; 24] start).1 as [r P'].
  destruct H as (Hr & _ & HL & _). split; [exact Hr|exact HL].
Defined.
