(* ===== verification/System.v ===== *)
(** * Producer and consumer together

    The two ends of one attachment run as a system: the producer's and the
    consumer's calls of LinuxProducer.v and LinuxConsumer.v in any order, the two
    directions of the socket as FIFO queues of datagrams, every kernel.  The
    file proves what the whole design is for: a slot the producer acquires is
    never one the consumer can still see. *)
From stdpp Require Import gmap sorting.
From S2P Require Import Prelude Api Kernel Wire SyncFd Ipc LinuxImage LinuxState LinuxProducer LinuxRing LinuxConsumer.
From S2P Require Ledger BufferRefs.

(** ** Datagrams that reached the socket *)

Definition delivered_one (e : Effect) : option Message :=
  match e with
  | ESend _ bytes fds n =>
    if n =? Z.of_nat (length bytes) then parseDatagram (mkReceived n bytes [] 0) fds else None
  | _ => None
  end.

(** Oldest first, from the effects newest first. *)
Definition delivered (es : list Effect) : list Message := rev (omap delivered_one es).

Lemma delivered_app es es' : delivered (es' ++ es) = delivered es ++ delivered es'.
Proof. unfold delivered. by rewrite omap_app, rev_app_distr. Qed.

Lemma delivered_closes l : delivered (map EClose l) = [].
Proof. unfold delivered. by induction l. Qed.

Section Delivery.
Context `{K : Kernel}.

Lemma sendWithFds_emits ch type payload fds :
  u32 type -> Z.of_nat (length payload) <= kBufferSize - headerSize ->
  emits (sendWithFds ch type payload fds) (fun r es =>
    delivered es = [] \/ (r.1 = true /\ delivered es = [mkMessage type payload fds])).
Proof.
  intros Ht Hp. unfold sendWithFds. change (encode _ ++ payload) with (datagram type payload).
  pose proof (length_datagram type payload Ht) as Hl.
  assert (forall n, Z.of_nat (length fds) <= kMaxFds ->
    delivered [ESend (pollFd ch) (datagram type payload) fds n] = []
    \/ n = headerSize + Z.of_nat (length payload)
       /\ delivered [ESend (pollFd ch) (datagram type payload) fds n] = [mkMessage type payload fds]) as HD.
  { intros n Hf. unfold delivered, delivered_one. rewrite omap_cons.
    destruct (n =? _) eqn:E; [|by left]. right. apply Z.eqb_eq in E. subst n.
    split; [done|]. rewrite (parse_datagram type payload fds []); try done. by rewrite app_nil_r. }
  emits_auto; try (by left). all: bools; destruct (HD x ltac:(lia)) as [?|[? ?]]; [by left|].
  - exfalso. unfold headerSize in *. lia.
  - right. split; [simpl; lia|done].
Qed.

Lemma close_valid_delivers fd (P : unit -> list Effect -> Prop) :
  (forall es, delivered es = [] -> P tt es) -> emits (close_valid fd) P.
Proof. intros H. apply emits_close_valid. apply H. by destruct (0 <=? fd). Qed.

(** Loops of silent steps are silent. *)
Lemma mfor_silent {A} (l : list A) (f : A -> M unit) (P : unit -> list Effect -> Prop) :
  (forall x, emits (f x) (fun _ es => delivered es = [])) ->
  (forall es, delivered es = [] -> P tt es) -> emits (mfor l f) P.
Proof.
  intros Hf HP. eapply emits_mono with (P := fun _ es => delivered es = []).
  - clear HP. induction l as [|x l IH]; cbn [mfor]; [by apply emits_ret|].
    apply emits_bind. eapply emits_mono; [apply Hf|]. intros u es He. simpl.
    eapply emits_mono; [apply IH|]. simpl. intros u' es' He'. by rewrite delivered_app, He, He'.
  - intros [] es He. by apply HP.
Qed.

Lemma mfold_silent {A S} (l : list A) (f : A -> S -> M S) (R : S -> S -> Prop) s
  (P : S -> list Effect -> Prop) :
  (forall x, R x x) -> (forall x y z, R x y -> R y z -> R x z) ->
  (forall x s, emits (f x s) (fun s' es => R s s' /\ delivered es = [])) ->
  (forall s' es, R s s' -> delivered es = [] -> P s' es) -> emits (mfold l f s) P.
Proof.
  intros Hrefl Htrans Hf HP. eapply emits_mono with (P := fun s' es => R s s' /\ delivered es = []).
  - clear HP. revert s. induction l as [|x l IH]; intros s; cbn [mfold]; [by apply emits_ret|].
    apply emits_bind. eapply emits_mono; [apply Hf|]. intros s' es [Hr He]. simpl.
    eapply emits_mono; [apply IH|]. simpl. intros s'' es' [Hr' He'].
    rewrite delivered_app, He, He'. eauto.
  - intros s' es [? ?]. by apply HP.
Qed.

Lemma dmaSync_silent fuel fd flags (P : Z -> list Effect -> Prop) :
  (forall r es, delivered es = [] -> P r es) -> emits (dmaSync fuel fd flags) P.
Proof.
  intros HP. eapply emits_mono with (P := fun _ es => delivered es = []); [|intros; by apply HP].
  clear HP. induction fuel as [|fuel IH]; cbn [dmaSync]; [by apply emits_ret|].
  emits_auto; [|done]. eapply emits_mono; [apply IH|]. simpl. intros r es He.
  by rewrite !app_nil_r, delivered_app, He.
Qed.

Lemma unmap_silent img (P : flImage -> list Effect -> Prop) :
  (forall i es, delivered es = [] -> P i es) -> emits (flImageUnmap img) P.
Proof.
  intros HP. unfold flImageUnmap. apply emits_bind.
  apply (mfold_silent _ _ (fun _ _ => True)); try done.
  - intros p s. unfold unmapPlane. emits_auto; [|done].
    apply dmaSync_silent. intros r es He. emits_auto. split; [done|].
    by rewrite app_nil_l, delivered_app, He.
  - intros i es _ He. emits_auto. by apply HP.
Qed.
End Delivery.

(** ** What an announcement and a release carry *)

(** Whatever the receiver decodes from [m] is frame [v] on slot [s]. *)
Definition carries (m : Message) (s v : Z) : Prop :=
  forall required fr md, decodeFrame m required = (Some fr, md) -> fm_slot fr = s /\ fm_readyValue fr = v.

(** The value a release message carries, if it is one. *)
Definition release_value (m : Message) : option Z :=
  if mg_type m =? MsgType.FrameReleased then fm_readyValue <$> as_ FrameReadyMsg (mg_payload m)
  else None.

Definition with_fds (m : Message) (fds : list Z) : Message :=
  mkMessage (mg_type m) (mg_payload m) fds.

Lemma u32_mod v : u32 v -> v mod 256 ^ Z.of_nat 4 = v.
Proof. intros. apply Z.mod_small. change (256 ^ Z.of_nat 4) with 4294967296. ulia. Qed.

Lemma u64_mod v : u64 v -> v mod 256 ^ Z.of_nat 8 = v.
Proof. intros. apply Z.mod_small. change (256 ^ Z.of_nat 8) with 18446744073709551616. ulia. Qed.

Lemma decode_frame_fields f :
  u32 (fm_slot f) -> u64 (fm_readyValue f) ->
  let f' := decode (T := FrameReadyMsg) (encode f) in
  fm_slot f' = fm_slot f /\ fm_readyValue f' = fm_readyValue f.
Proof.
  intros Hs Hv. unfold decode, encode. rewrite <- (app_nil_r (put_fields _ _)).
  rewrite get_put_fields_mod by done. cbn [st_widths st_values FrameReadyMsg_struct frame_values zip_with].
  cbn [st_build FrameReadyMsg_struct fm_slot fm_readyValue]. by rewrite u32_mod, u64_mod.
Qed.

Lemma decode_frame_value f :
  u64 (fm_readyValue f) -> fm_readyValue (decode (T := FrameReadyMsg) (encode f)) = fm_readyValue f.
Proof.
  intros Hv. unfold decode, encode. rewrite <- (app_nil_r (put_fields _ _)).
  rewrite get_put_fields_mod by done. cbn [st_widths st_values FrameReadyMsg_struct frame_values zip_with].
  cbn [st_build FrameReadyMsg_struct fm_slot fm_readyValue]. by rewrite u64_mod.
Qed.

Lemma decode_extended_fields f md :
  u32 (fm_slot f) -> u64 (fm_readyValue f) ->
  let f' := fx_frame (decode (T := FrameReadyMetadataMsg) (encode (mkFrameMetadata f md))) in
  fm_slot f' = fm_slot f /\ fm_readyValue f' = fm_readyValue f.
Proof.
  intros Hs Hv. unfold decode, encode. rewrite <- (app_nil_r (put_fields _ _)).
  rewrite get_put_fields_mod by done.
  cbn [st_widths st_values FrameReadyMetadataMsg_struct frame_values zip_with app fx_frame fx_metadata].
  cbn [st_build FrameReadyMetadataMsg_struct fx_frame fm_slot fm_readyValue]. by rewrite u32_mod, u64_mod.
Qed.

Lemma as_Some {T} `{Struct T} p x : as_ T p = Some x -> x = decode p.
Proof. unfold as_. destruct (_ <=? _)%nat; congruence. Qed.

Lemma frameMessage_carries f md fds :
  u32 (fm_slot f) -> u64 (fm_readyValue f) ->
  let '(type, payload) := frameMessage f md in
  u32 type /\ Z.of_nat (length payload) <= kBufferSize - headerSize
  /\ carries (mkMessage type payload fds) (fm_slot f) (fm_readyValue f).
Proof.
  intros Hs Hv. unfold frameMessage. destruct (truthy (md_version md)).
  - split_and!; [done| |].
    + unfold encode. rewrite length_put_fields by done. vm_compute. discriminate.
    + intros req fr m. unfold decodeFrame. cbn [mg_type mg_payload].
      change (MsgType.FrameReadyMetadata =? MsgType.FrameReady) with false. cbn iota.
      repeat case_match; intros [= <- <-].
      match goal with H : as_ _ _ = Some _ |- _ => apply as_Some in H; subst end.
      by apply decode_extended_fields.
  - split_and!; [done| |].
    + unfold encode. rewrite length_put_fields by done. vm_compute. discriminate.
    + intros req fr m. unfold decodeFrame. cbn [mg_type mg_payload].
      rewrite Z.eqb_refl. intros Heq. injection Heq as Heq _.
      destruct (negb req && _); [|done]. apply as_Some in Heq. subst.
      by apply decode_frame_fields.
Qed.

Lemma release_carries slot value pts fds :
  u64 value ->
  u32 MsgType.FrameReleased
  /\ Z.of_nat (length (encode (mkFrameReady slot 0 value pts))) <= kBufferSize - headerSize
  /\ release_value (mkMessage MsgType.FrameReleased (encode (mkFrameReady slot 0 value pts)) fds)
     = Some value.
Proof.
  intros Hv.
  assert (length (encode (mkFrameReady slot 0 value pts)) = 24%nat) as Hl
    by (unfold encode; by rewrite length_put_fields).
  split_and!; [unfold MsgType.FrameReleased; ulia|rewrite Hl; unfold kBufferSize, headerSize; lia|].
  unfold release_value, as_. cbn [mg_type mg_payload]. rewrite Hl.
  change ((sizeof FrameReadyMsg <=? 24)%nat) with true. cbn iota. rewrite Z.eqb_refl. simpl fmap.
  f_equal. by apply (decode_frame_value (mkFrameReady slot 0 value pts)).
Qed.

(** ** The producer's calls *)

(** The part of the producer's state the protocol is about. *)
Definition pview (c : flChannel) :=
  (length (ch_images c), ch_slotSubmitValue c, ch_readyValue c, ch_submittingSlot c,
   ch_submittingValue c, sy_releases (ch_sync c), ch_consumedValue c).

Section ProducerCalls.
Context `{K : Kernel}.
Implicit Types (c : flChannel).

Lemma unmapSlot_view c slot (P : flChannel -> list Effect -> Prop) :
  (forall c' es, pview c' = pview c -> ch_link c' = ch_link c -> ch_slotMetadata c' = ch_slotMetadata c ->
     delivered es = [] -> P c' es) ->
  emits (unmapSlot c slot) P.
Proof.
  intros HP. unfold unmapSlot. destruct (ch_images c !! Z.to_nat slot) as [[a img]|] eqn:E.
  - apply emits_bind, unmap_silent. intros i es He. apply emits_ret. apply HP; try done.
    unfold pview. simpl. by rewrite length_insert.
  - apply emits_ret. by apply HP.
Qed.

(** The effect of a publication on the view. *)
Definition published c (slot value : Z) c' : Prop :=
  pview c' = (length (ch_images c), <[Z.to_nat slot := value]> (ch_slotSubmitValue c),
              ch_readyValue c, UINT32_MAX, 0, sy_releases (ch_sync c), ch_consumedValue c).

Lemma publish_view c slot value pts fence :
  u32 slot -> u64 value ->
  emits (publish c slot value pts fence) (fun r es => published c slot value r.2
    /\ (delivered es = [] \/ exists m, delivered es = [m] /\ carries m slot value)).
Proof.
  intros Hs Hv. unfold publish, sendFrame.
  set (fr := mkFrameReady slot 0 value pts).
  pose proof (frameMessage_carries fr
    (metadataAt (set_submittingSlot (set_submittingValue (set_submitAt c slot value) 0) UINT32_MAX) slot)
    (if 0 <=? fence then [fence] else []) Hs Hv) as Hm.
  destruct (frameMessage fr _) as [type payload]. destruct Hm as (Ht & Hp & Hc).
  apply emits_bind. eapply emits_mono; [by apply sendWithFds_emits|].
  intros [ok l] es Hd. apply emits_ret. split; [done|]. simpl.
  destruct Hd as [->|[_ ->]]; [by left|right]. eexists. split; [done|]. exact Hc.
Qed.

(** Releases only ever raise the consumed value, to values that were released. *)
Definition released_up_to c (b : Z) : Prop :=
  Forall (fun r => r.1 <= b) (sy_releases (ch_sync c)) /\ ch_consumedValue c <= b.

Definition same_slots c c' : Prop :=
  length (ch_images c') = length (ch_images c) /\ ch_slotSubmitValue c' = ch_slotSubmitValue c
  /\ ch_readyValue c' = ch_readyValue c /\ ch_submittingSlot c' = ch_submittingSlot c
  /\ ch_submittingValue c' = ch_submittingValue c.

Lemma advanceLoop_delivers l v :
  emits (advanceLoop l v) (fun r es =>
    (exists popped, l = popped ++ r.1 /\ r.2 = max_value v popped) /\ delivered es = []).
Proof.
  revert v. induction l as [|[x fd] l IH]; intros v; cbn [advanceLoop].
  { emits_auto. split; [by exists []|done]. }
  apply emits_bind, emits_fenceReady. intros b Hb. destruct b.
  - apply emits_bind, close_valid_delivers. intros es He. eapply emits_mono; [apply IH|].
    intros r es' [(popped & -> & Hr) He']. split.
    + exists ((x, fd) :: popped). split; [done|]. rewrite Hr. unfold max_value. simpl. f_equal.
      destruct (v <? x) eqn:E; lia.
    + by rewrite app_nil_r, delivered_app, He, He'.
  - apply emits_ret. split; [|done]. by exists [].
Qed.

Lemma advanceConsumed_view c b (P : flChannel -> list Effect -> Prop) :
  released_up_to c b ->
  (forall c' es, same_slots c c' -> released_up_to c' b -> delivered es = [] -> P c' es) ->
  emits (advanceConsumed c) P.
Proof.
  intros [Hr Hc] HP. unfold advanceConsumed, advance. repeat apply emits_bind.
  eapply emits_mono; [apply advanceLoop_delivers|].
  intros [rel v] es [(popped & Heq & Hv) He]. apply emits_ret, emits_ret.
  simpl in Heq, Hv. rewrite Heq in Hr. apply Forall_app in Hr as [Hr1 Hr2].
  apply HP; [done| |done]. split; [done|]. simpl. rewrite Hv. by apply max_value_bound.
Qed.

Lemma applyRelease_view c msg b (P : flChannel -> list Effect -> Prop) :
  released_up_to c b -> (forall v, release_value msg = Some v -> v <= b) ->
  (forall c' es, same_slots c c' -> released_up_to c' b -> delivered es = [] -> P c' es) ->
  emits (applyRelease c msg) P.
Proof.
  intros [Hr Hc] Hm HP. unfold applyRelease.
  destruct (negb _) eqn:Et; [by apply emits_ret, HP|]. unfold release_value in Hm. bools.
  rewrite Et in Hm. destruct (as_ FrameReadyMsg (mg_payload msg)) as [fr|] eqn:Ea;
    [|by apply emits_ret, HP].
  apply emits_bind. apply emits_mfor_close. apply (advanceConsumed_view _ b).
  - split; [|done]. simpl. apply Forall_app. split; [done|]. constructor; [|done].
    by apply Hm.
  - intros c' es Hs Hu He. apply HP; [done|done|].
    rewrite delivered_app, He. rewrite <- map_rev. by rewrite delivered_closes.
Qed.
End ProducerCalls.

(** ** The consumer's calls *)

(** The part of the consumer's state the protocol is about. *)
Definition cview (c : flChannel) :=
  (ch_hasPending c, ch_pendingSlot c, ch_pendingReady c, ch_frameHeld c, ch_heldSlot c,
   ch_heldReady c, ch_readers c).

(** The frames the ledger retains, oldest first. *)
Definition lease_queue (L : Ledger.ReadLedger) : list flFrame := Ledger.Spec.queue (Ledger.abs L).

(** A ledger call that retains and retires nothing. *)
Definition lease_quiet (L : Ledger.ReadLedger) (n : Z) (L' : Ledger.ReadLedger) (n' : Z) : Prop :=
  Ledger.ledger_inv L' n' /\ lease_queue L' = lease_queue L.

Section LedgerCalls.
Implicit Types (L : Ledger.ReadLedger) (n : Z).

Lemma lease_retain L n source out :
  Ledger.ledger_inv L n ->
  let '(_, _, L', n') := Ledger.retain L source n out in lease_quiet L n L' n'.
Proof.
  intros HI. pose proof (Ledger.retain_refines L n source out HI) as H.
  destruct (Ledger.retain _ _ _ _) as [[[r t] L'] n']. destruct H as [HI' H]. split; [done|].
  unfold Ledger.Spec.retain, Ledger.Spec.issue in H. unfold lease_queue.
  pose proof (f_equal (fun x => Ledger.Spec.queue x.1.2) H) as Hq. cbn [fst snd] in Hq.
  rewrite Hq. by repeat case_match.
Qed.

Lemma lease_drop L n t (p : bool) :
  Ledger.ledger_inv L n ->
  let '(_, L') := match Ledger.find L t p with
                  | Some j => (FL_OK, Ledger.dropReader L j) | None => (FL_INVALID, L) end in
  lease_quiet L n L' n.
Proof.
  intros HI. pose proof (Ledger.drop_refines L n t p HI) as H.
  destruct (match Ledger.find L t p with Some _ => _ | None => _ end) as [r L'].
  destruct H as [HI' H]. split; [done|]. pose proof (f_equal (fun x => Ledger.Spec.queue x.2) H) as Hq.
  cbn [fst snd] in Hq. unfold lease_queue. rewrite Hq. unfold Ledger.Spec.drop. by repeat case_match.
Qed.

Lemma lease_complete L n t :
  Ledger.ledger_inv L n -> lease_quiet L n (Ledger.complete L t).2 n.
Proof.
  intros HI. pose proof (lease_drop L n t false HI) as H. unfold Ledger.complete.
  by destruct (Ledger.find L t false).
Qed.

Lemma lease_finish L n t :
  Ledger.ledger_inv L n -> lease_quiet L n (Ledger.finishDeferred L t).2 n.
Proof.
  intros HI. pose proof (lease_drop L n t true HI) as H. unfold Ledger.finishDeferred.
  by destruct (Ledger.find L t true).
Qed.

Lemma lease_defer L n t :
  Ledger.ledger_inv L n -> lease_quiet L n (Ledger.defer L t).2 n.
Proof.
  intros HI. pose proof (Ledger.defer_refines L n t HI) as H.
  destruct (Ledger.defer L t) as [r L']. destruct H as [HI' H]. split; [done|].
  pose proof (f_equal (fun x => Ledger.Spec.queue x.2) H) as Hq. cbn [fst snd] in *.
  unfold lease_queue. rewrite Hq. unfold Ledger.Spec.defer. by repeat case_match.
Qed.

Lemma lease_acquire L n g frame out :
  Ledger.ledger_inv L n ->
  let '(r, _, L', n') := Ledger.acquire L g frame n out in
  Ledger.ledger_inv L' n'
  /\ lease_queue L' = lease_queue L ++ (if bool_decide (r = FL_OK) then [frame] else []).
Proof.
  intros HI. pose proof (Ledger.acquire_refines L n g frame out HI) as H.
  destruct (Ledger.acquire _ _ _ _ _) as [[[r t] L'] n']. destruct H as [HI' H]. split; [done|].
  pose proof (f_equal (fun x => Ledger.Spec.queue x.1.2) H) as Hq.
  pose proof (f_equal (fun x => x.1.1.1) H) as Hr.
  cbn [fst snd] in Hq, Hr. unfold lease_queue. rewrite Hq, Hr. clear Hq Hr H.
  unfold Ledger.Spec.acquire, Ledger.Spec.issue. repeat case_match; simplify_eq; simpl;
    by rewrite ?app_nil_r.
Qed.

(** Retiring drops a prefix of the queue, up to the retired value. *)
Lemma lease_retired L n :
  Ledger.ledger_inv L n -> Ledger.rt_value (Ledger.retirement L) <> 0 ->
  let v := Ledger.rt_value (Ledger.retirement L) in
  let L' := (Ledger.retired L (Ledger.retirement L)).2 in
  Ledger.ledger_inv L' n /\ (exists f, f ∈ lease_queue L /\ fr_readyValue f = v)
  /\ forall f, f ∈ lease_queue L' -> f ∈ lease_queue L /\ v < fr_readyValue f.
Proof.
  intros HI Hv v L'. pose proof (Ledger.retired_refines L n (Ledger.retirement L) HI) as H.
  subst L'. destruct (Ledger.retired L _) as [res L'] eqn:ER. destruct H as [HI' HE]. simpl snd.
  split; [done|]. pose proof (Ledger.retirement_refines L n HI) as Hret.
  unfold Ledger.Spec.retired in HE. rewrite <- Hret in HE.
  rewrite bool_decide_eq_true_2, orb_false_r in HE by done.
  replace (Ledger.rt_value (Ledger.retirement L) =? 0) with false in HE by lia.
  pose proof (f_equal (fun x => Ledger.Spec.queue x.2) HE) as Hq. cbn [snd Ledger.Spec.queue] in Hq.
  fold (lease_queue L') in Hq. change (Ledger.Spec.queue (Ledger.abs L)) with (lease_queue L) in Hq.
  set (pre := Ledger.Spec.completed_prefix _ _) in *.
  unfold v in *. rewrite Hret in Hv |- *. unfold Ledger.Spec.retirement in Hv |- *. fold pre in Hv |- *.
  destruct (last pre) as [f|] eqn:El; [|done]. cbn [Ledger.rt_value] in Hv |- *.
  assert (pre = take (length pre) (lease_queue L)) as Hpre by apply Ledger.completed_prefix_take.
  assert (forall i e, lease_queue L !! i = Some e ->
    (i < Ledger.count_ L)%nat /\ e = Ledger.lf_frame (Ledger.entryAt L i)) as Hlk.
  { intros i e He. unfold lease_queue in He. simpl in He. rewrite list_lookup_fmap in He.
    destruct (Ledger.view L !! i) as [x|] eqn:Ev; [|done]. injection He as <-.
    by apply Ledger.view_lookup_inv in Ev as [? ->]. }
  rewrite last_lookup in El. pose proof (lookup_lt_Some _ _ _ El) as Hlt.
  rewrite Hpre in El. apply lookup_take_Some in El as [El _].
  rewrite <- Hpre in El.
  split; [exists f; split; [by eapply list_elem_of_lookup_2|done]|].
  intros e He. rewrite Hq in He. apply list_elem_of_lookup in He as [i Hi].
  rewrite lookup_drop in Hi. split; [by eapply list_elem_of_lookup_2|].
  apply Hlk in El as [Hi1 ->]. apply Hlk in Hi as [Hi2 ->].
  apply (Ledger.inv_order _ _ HI). lia.
Qed.

Lemma lease_empty L : Ledger.empty L = true -> lease_queue L = [].
Proof.
  unfold Ledger.empty. intros H. apply length_zero_iff_nil. unfold lease_queue.
  rewrite Ledger.length_queue. lia.
Qed.
End LedgerCalls.

Section ConsumerCalls.
Context `{K : Kernel}.
Implicit Types (c : flChannel).

Lemma advanceRetired_view c (P : flChannel -> list Effect -> Prop) :
  (forall c' es, cview c' = cview c -> ch_peer c' = ch_peer c -> delivered es = [] -> P c' es) ->
  emits (advanceRetired c) P.
Proof.
  intros HP. unfold advanceRetired, advance. repeat apply emits_bind.
  eapply emits_mono; [apply advanceLoop_delivers|]. intros [rel v] es [_ He].
  apply emits_ret, emits_ret. by apply HP.
Qed.

Lemma releaseFence_view c (P : flChannel -> list Effect -> Prop) :
  (forall c' es, cview c' = cview c -> ch_peer c' = ch_peer c -> delivered es = [] -> P c' es) ->
  emits (releaseLeaseReadyFence c) P.
Proof.
  intros HP. unfold releaseLeaseReadyFence. apply emits_bind, close_valid_delivers. intros es He.
  apply emits_ret. by apply HP.
Qed.

Lemma fenceReady_silent fd (P : bool -> list Effect -> Prop) :
  (forall b, P b []) -> emits (fenceReady fd) P.
Proof. intros H. apply emits_fenceReady. auto. Qed.

Lemma sendRelease_view c slot value fds (P : bool * flChannel -> list Effect -> Prop) :
  u64 value ->
  (forall r es, cview r.2 = cview c ->
     (delivered es = [] \/ r.1 = true /\ exists m, delivered es = [m] /\ release_value m = Some value) ->
     P r es) ->
  emits (sendPeer c MsgType.FrameReleased (encode (mkFrameReady slot 0 value 0)) fds) P.
Proof.
  intros Hv HP. unfold sendPeer. apply emits_bind.
  destruct (release_carries slot value 0 fds Hv) as (Ht & Hl & Hr).
  eapply emits_mono; [by apply sendWithFds_emits|]. intros [ok l] es Hd. apply emits_ret.
  apply HP; [done|]. simpl. destruct Hd as [->|[? ->]]; [by left|right]. split; [done|]. by eexists.
Qed.

(** *** Announcements and acquisition *)

Lemma handleFrame_view c msg :
  emits (handleFrame c msg) (fun r es => delivered es = [] /\
    (r.1 = true -> exists fr md req, decodeFrame msg req = (Some fr, md)
       /\ cview r.2 = (true, fm_slot fr, fm_readyValue fr, ch_frameHeld c, ch_heldSlot c,
                       ch_heldReady c, ch_readers c))).
Proof.
  unfold handleFrame.
  destruct (decodeFrame msg (has_flag (ch_flags c) FL_REQUIRE_FRAME_METADATA)) as [[fr|] md] eqn:Ed.
  - destruct (imageCount c <=? fm_slot fr) eqn:Es.
    + emits_auto. split; [|done]. simpl. rewrite <- map_rev. by apply delivered_closes.
    + apply emits_bind. unfold storePending. apply emits_bind, close_valid_delivers. intros es He.
      apply emits_bind, emits_mfor_close. apply emits_bind.
      destruct (has_flag _ FL_TRACK_ARRIVAL); emits_auto.
      all: split; [|intros _; exists fr, md, (has_flag (ch_flags c) FL_REQUIRE_FRAME_METADATA); done].
      all: rewrite ?app_nil_l, delivered_app, He, <- map_rev, delivered_closes; done.
  - emits_auto. split; [|done]. simpl. rewrite <- map_rev. by apply delivered_closes.
Qed.

Lemma tryAcquire_view c :
  emits (tryAcquireFrame c) (fun r es => delivered es = [] /\
    match r.1 with
    | None => cview r.2 = cview c
    | Some f => ch_hasPending c = true /\ fr_slot f = ch_pendingSlot c
      /\ fr_readyValue f = ch_pendingReady c
      /\ cview r.2 = (false, ch_pendingSlot c, ch_pendingReady c, true, ch_pendingSlot c,
                      ch_pendingReady c, ch_readers c)
    end).
Proof.
  unfold tryAcquireFrame. destruct (negb (ch_hasPending c) || ch_frameHeld c) eqn:E; [by emits_auto|].
  bools. apply emits_bind.
  destruct (has_flag (ch_flags c) FL_GPU_SYNC); [apply emits_ret|apply fenceReady_silent; intros [|]];
    by emits_auto.
Qed.

(** *** Releasing the held frame *)

Definition unheld c := (ch_hasPending c, ch_pendingSlot c, ch_pendingReady c, false, ch_heldSlot c,
                        ch_heldReady c, ch_readers c).

Definition may_release (es : list Effect) (value : Z) : Prop :=
  delivered es = [] \/ exists m, delivered es = [m] /\ release_value m = Some value.

(** A call that either changes nothing of the view and sends nothing, or ends
    the hold on the current frame, possibly announcing its value. *)
Definition releases_held c c' es : Prop :=
  (cview c' = cview c /\ delivered es = [])
  \/ (ch_frameHeld c = true /\ lease_queue (ch_readers c) = [] /\ cview c' = unheld c
      /\ may_release es (ch_heldReady c)).

Lemma dupFence_silent fd (P : option Z -> list Effect -> Prop) :
  (forall r, P r []) -> emits (dupFence fd) P.
Proof. intros H. unfold dupFence. emits_auto; apply H. Qed.

Lemma releaseSyncFd_view c frame fd :
  u64 (ch_heldReady c) ->
  emits (flReleaseSyncFd c frame fd) (fun r es => releases_held c r.2 es).
Proof.
  intros Hv. unfold flReleaseSyncFd. destruct frame as [frame|]; [|emits_auto; by left].
  destruct (_ || _); [emits_auto; by left|].
  destruct (negb (Ledger.empty (ch_readers c))) eqn:El; [emits_auto; by left|].
  destruct (negb (isHeld c frame)) eqn:Eh; [emits_auto; by left|]. bools.
  unfold isHeld in Eh. bools. apply lease_empty in El.
  assert (fr_readyValue frame = ch_heldReady c) as Hval by lia.
  apply emits_bind, dupFence_silent. intros [localFd|]; [|emits_auto; by left].
  apply emits_bind, advanceRetired_view. intros c1 es1 Hc1 Hp1 He1.
  apply emits_bind, releaseFence_view. intros c2 es2 Hc2 Hp2 He2.
  assert (cview c2 = unheld c) as Hview.
  { rewrite Hc2. unfold unheld, cview in *. simpl in *. congruence. }
  destruct (negb (connected (ch_peer c2))) eqn:Ec.
  - emits_auto. right. split_and!; try done. left.
    by rewrite app_nil_r, !delivered_app, He1, He2.
  - rewrite Hval. apply emits_bind, sendRelease_view; [done|]. intros [ok c3] es3 Hc3 Hd.
    apply emits_ret. right. simpl in Hc3 |- *. split_and!; try done; [by rewrite Hc3|].
    unfold may_release. rewrite app_nil_r, !delivered_app, He1, He2. simpl.
    by destruct Hd as [->|(_ & m & -> & ?)]; [left|right; eexists].
Qed.

Lemma release_view c frame :
  u64 (ch_heldReady c) ->
  emits (flRelease c frame) (fun r es => releases_held c r.2 es).
Proof.
  intros Hv. unfold flRelease. destruct (has_flag _ _); [|by apply releaseSyncFd_view].
  destruct frame as [frame|]; [|emits_auto; by left].
  destruct (negb (ch_isConsumer c)); [emits_auto; by left|].
  destruct (negb (Ledger.empty (ch_readers c))) eqn:El; [emits_auto; by left|].
  destruct (negb (isHeld c frame)) eqn:Eh; [emits_auto; by left|]. bools.
  unfold isHeld in Eh. bools. apply lease_empty in El.
  apply emits_bind, releaseFence_view. intros c1 es1 Hc1 Hp1 He1. apply emits_ret. right.
  split_and!; try done. left. by rewrite app_nil_l.
Qed.

Lemma signal_view c value fd :
  u64 value ->
  emits (flSignalConsumedSyncFd c value fd) (fun r es =>
    cview r.2 = cview c /\ (delivered es = [] \/ (value <= ch_heldReady c
      /\ lease_queue (ch_readers c) = [] /\ may_release es value))).
Proof.
  intros Hv. unfold flSignalConsumedSyncFd.
  destruct (_ || _); [emits_auto; by auto|].
  destruct (negb (Ledger.empty (ch_readers c))) eqn:El; [emits_auto; by auto|].
  destruct (ch_heldReady c <? value) eqn:Eh; [emits_auto; by auto|]. bools. apply lease_empty in El.
  apply emits_bind, dupFence_silent. intros [localFd|]; [|emits_auto; by auto].
  apply emits_bind, advanceRetired_view. intros c1 es1 Hc1 Hp1 He1.
  apply emits_bind, sendRelease_view; [done|]. intros [ok c2] es2 Hc2 Hd. apply emits_ret.
  simpl in Hc2 |- *. split; [by rewrite Hc2, Hc1|]. right. split_and!; [lia|done|].
  unfold may_release. rewrite app_nil_r, delivered_app, He1. simpl.
  by destruct Hd as [->|(_ & m & -> & ?)]; [left|right; eexists].
Qed.

(** *** Leases *)

Lemma lease_view c frame n out :
  Ledger.ledger_inv (ch_readers c) n ->
  emits (flLeaseFrame c frame n out) (fun r es =>
    let '(res, _, c', n') := r in
    delivered es = [] /\ Ledger.ledger_inv (ch_readers c') n'
    /\ ((exists L', cview c' = (ch_hasPending c, ch_pendingSlot c, ch_pendingReady c, ch_frameHeld c,
           ch_heldSlot c, ch_heldReady c, L') /\ lease_queue L' = lease_queue (ch_readers c))
        \/ (exists L' f, ch_frameHeld c = true
            /\ cview c' = (ch_hasPending c, ch_pendingSlot c, ch_pendingReady c, false,
                 ch_heldSlot c, ch_heldReady c, L')
            /\ lease_queue L' = lease_queue (ch_readers c) ++ [f]
            /\ fr_slot f = ch_heldSlot c /\ fr_readyValue f = ch_heldReady c))).
Proof.
  intros HI. unfold flLeaseFrame.
  destruct frame as [frame|]; [|emits_auto; split_and!; try done; left; by eexists].
  destruct (_ || _); [emits_auto; split_and!; try done; left; by eexists|].
  destruct (negb (isHeldImage c frame)) eqn:Eh; [emits_auto; split_and!; try done; left; by eexists|].
  bools. unfold isHeldImage, isHeld in Eh. bools.
  pose proof (lease_acquire (ch_readers c) n (info_generation (ch_info c)) frame out HI) as HL.
  destruct (Ledger.acquire _ _ _ _ _) as [[[r t] L'] n']. destruct HL as [HI' Hq].
  apply emits_bind. case_bool_decide as Hr.
  - apply releaseFence_view. intros c1 es1 Hc1 Hp1 He1. apply emits_ret.
    assert (ch_readers c1 = L') as HL1.
    { unfold cview in Hc1. by simplify_eq/=. }
    split_and!; [by rewrite app_nil_l|by rewrite HL1|]. right. exists L', frame.
    split_and!; try done; lia.
  - emits_auto. split_and!; try done. left. eexists. split; [done|]. by rewrite app_nil_r in Hq.
Qed.

Definition cquiet (n : Z) c c' : Prop :=
  exists L', cview c' = (ch_hasPending c, ch_pendingSlot c, ch_pendingReady c, ch_frameHeld c,
               ch_heldSlot c, ch_heldReady c, L')
  /\ lease_quiet (ch_readers c) n L' n.

Lemma cquiet_refl n c : Ledger.ledger_inv (ch_readers c) n -> cquiet n c c.
Proof. intros HI. by exists (ch_readers c). Qed.

Lemma pollCompletion_view n j c :
  Ledger.ledger_inv (ch_readers c) n ->
  emits (pollCompletion j c) (fun r es => delivered es = [] /\
    cquiet n c (match r with inl c' => c' | inr e => e.2 end)).
Proof.
  intros HI. unfold pollCompletion. destruct (nth j _ _) as [token fd].
  pose proof (lease_finish (ch_readers c) n token HI) as HL.
  destruct (token =? 0); [emits_auto; split; [done|by apply cquiet_refl]|].
  apply emits_bind, emits_ask. intros [result revents].
  destruct (result <? 0); [emits_auto; (split; [done|by apply cquiet_refl])|].
  destruct (result =? 0); [emits_auto; (split; [done|by apply cquiet_refl])|].
  destruct (truthy _); [emits_auto; (split; [done|by apply cquiet_refl])|].
  destruct (negb _); [emits_auto; (split; [done|by apply cquiet_refl])|].
  destruct (Ledger.finishDeferred _ _) as [r L']. emits_auto; (split; [done|]); by exists L'.
Qed.

Lemma cquiet_trans n c1 c2 c3 : cquiet n c1 c2 -> cquiet n c2 c3 -> cquiet n c1 c3.
Proof.
  intros (L2 & H2 & I2 & Q2) (L3 & H3 & I3 & Q3). exists L3. unfold cview in *. simplify_eq.
  split; [|split; [done|]]; [congruence|]. congruence.
Qed.

Lemma pollCompletions_view n c :
  Ledger.ledger_inv (ch_readers c) n ->
  emits (pollLeaseCompletions c) (fun r es => delivered es = [] /\ cquiet n c r.2).
Proof.
  intros HI. unfold pollLeaseCompletions. apply emits_bind.
  eapply emits_mono with (P := fun r es => delivered es = []
    /\ cquiet n c (match r with inl c' => c' | inr e => e.2 end)).
  - generalize (seq 0 Ledger.MaxReaders). intros l. revert c HI.
    induction l as [|j l IH]; intros c HI; cbn [mloop].
    { apply emits_ret. split; [done|by apply cquiet_refl]. }
    apply emits_bind. eapply emits_mono; [by apply pollCompletion_view|].
    intros [c'|e] es [He Hq]; [|by apply emits_ret].
    assert (Ledger.ledger_inv (ch_readers c') n) as HI'.
    { destruct Hq as (L' & Hv & HL & _). unfold cview in Hv. by simplify_eq. }
    eapply emits_mono; [by apply IH|]. simpl. intros r es' [He' Hq'].
    split; [by rewrite delivered_app, He, He'|by eapply cquiet_trans].
  - intros r es [He Hq]. apply emits_ret. rewrite app_nil_l. by destruct r.
Qed.

Lemma completeSyncFd_view n c token fd :
  Ledger.ledger_inv (ch_readers c) n ->
  emits (flCompleteReadLeaseSyncFd c token fd) (fun r es => delivered es = [] /\ cquiet n c r.2).
Proof.
  intros HI. unfold flCompleteReadLeaseSyncFd.
  destruct (_ || _); [emits_auto; split; [done|by apply cquiet_refl]|].
  destruct (Ledger.get _ _ _ _) as [[got f] g].
  destruct (negb _); [emits_auto; split; [done|by apply cquiet_refl]|].
  destruct (find_index _ _) as [j|]; [|emits_auto; split; [done|by apply cquiet_refl]].
  apply emits_bind, emits_ask. intros owned.
  destruct (owned <? 0); [emits_auto; split; [done|by apply cquiet_refl]|].
  pose proof (lease_defer (ch_readers c) n token HI) as HL.
  destruct (Ledger.defer _ _) as [r L']. emits_auto; (split; [done|]); by exists L'.
Qed.

Lemma retire_view c v :
  u64 v ->
  emits (retireReadLeases c v) (fun r es => cview r.2 = cview c /\ may_release es v
    /\ (r.1 <> FL_OK -> delivered es = [])).
Proof.
  intros Hv. unfold retireReadLeases. apply emits_bind.
  destruct (connected (ch_peer c)).
  - apply sendRelease_view; [done|]. intros [ok c'] es Hc Hd. simpl in Hc, Hd.
    destruct ok; cbn [negb]; cbn iota; emits_auto; (split; [done|]); unfold may_release; rewrite app_nil_l.
    + split; [|done]. destruct Hd as [->|(_ & m & -> & ?)]; [by left|right; by eexists].
    + destruct Hd as [->|(Hf & _)]; [by split; [left|]|discriminate Hf].
  - emits_auto. split; [done|]. split; [by left|done].
Qed.

Lemma collect_view n c :
  Ledger.ledger_inv (ch_readers c) n ->
  (forall f, f ∈ lease_queue (ch_readers c) -> u64 (fr_readyValue f)) ->
  emits (flCollectReadLeases c) (fun r es =>
    exists L', cview r.2 = (ch_hasPending c, ch_pendingSlot c, ch_pendingReady c, ch_frameHeld c,
                 ch_heldSlot c, ch_heldReady c, L')
    /\ Ledger.ledger_inv L' n
    /\ ((lease_queue L' = lease_queue (ch_readers c) /\ delivered es = [])
        \/ exists v f, f ∈ lease_queue (ch_readers c) /\ fr_readyValue f = v
           /\ may_release es v
           /\ forall f, f ∈ lease_queue L' -> f ∈ lease_queue (ch_readers c) /\ v < fr_readyValue f)).
Proof.
  intros HI Hu. unfold flCollectReadLeases.
  destruct (negb (ch_isConsumer c)); [emits_auto; exists (ch_readers c); by auto|].
  apply emits_bind. eapply emits_mono; [by apply pollCompletions_view|].
  intros [polled c1] es1 [He1 (L1 & Hv1 & HI1 & Hq1)]. simpl in Hv1.
  assert (ch_readers c1 = L1) as HL1 by (unfold cview in Hv1; by simplify_eq).
  destruct (negb _).
  { emits_auto. exists L1. split_and!; try done. left. by rewrite app_nil_l. }
  rewrite HL1. destruct (negb (truthy (Ledger.rt_value (Ledger.retirement L1)))) eqn:Er.
  { emits_auto. exists L1. split_and!; try done. left. by rewrite app_nil_l. }
  assert (Ledger.rt_value (Ledger.retirement L1) <> 0) as Hnz by (unfold truthy in Er; lia).
  destruct (lease_retired L1 n HI1 Hnz) as (HI2 & (f & Hf & Hfv) & Hrest).
  rewrite Hq1 in Hf. assert (u64 (Ledger.rt_value (Ledger.retirement L1))) as Huv
    by (rewrite <- Hfv; by apply Hu).
  apply emits_bind. eapply emits_mono; [by apply retire_view|].
  set (v := Ledger.rt_value (Ledger.retirement L1)) in *.
  intros [result c2] es2 (Hc2 & Hmay & Hfail). simpl in Hc2, Hfail. rewrite Hv1 in Hc2.
  assert (ch_readers c2 = L1) as HL2 by (unfold cview in Hc2; by simplify_eq).
  destruct (negb (bool_decide (result = FL_OK))) eqn:Eok.
  - apply emits_ret. exists L1. split_and!; try done. left. split; [done|].
    apply negb_true_iff, bool_decide_eq_false in Eok.
    by rewrite app_nil_l, delivered_app, He1, Hfail.
  - rewrite HL2. destruct (Ledger.retired L1 _) as [res L2] eqn:ER. simpl snd in *.
    apply emits_ret. exists L2. split_and!; try done.
    + simpl. unfold cview in Hc2 |- *. simpl. congruence.
    + right. exists v, f. split_and!; try done.
      * unfold may_release in *. rewrite app_nil_l, delivered_app, He1. done.
      * intros e He. destruct (Hrest e He). by rewrite <- Hq1.
Qed.
End ConsumerCalls.

(** ** The system *)

(** The two ends, the two directions of the socket, and what the consumer has
    done so far: the frames its application acquired and the greatest value it
    announced as released.  [s_next] is the process-wide lease counter. *)
Record Sys := mkSys {
  s_prod : flChannel;
  s_cons : flChannel;
  s_p2c : list Message;
  s_c2p : list Message;
  s_acquired : list (Z * Z);       (* slot, ready value *)
  s_rel : Z;
  s_next : Z;
}.

Definition released_values (ms : list Message) : list Z := omap release_value ms.
Definition raise (rel : Z) (ms : list Message) : Z := fold_left Z.max (released_values ms) rel.

(** A call of one end, run in some world of some kernel: its result and the
    datagrams it put on the socket. *)
Definition runs {K : Kernel} {A} (m : M A) (x : A) (ms : list Message) : Prop :=
  exists w, (m w).1 = x /\ delivered (effects_of w (m w).2) = ms.

Definition with_prod (S : Sys) (P : flChannel) : Sys :=
  mkSys P (s_cons S) (s_p2c S) (s_c2p S) (s_acquired S) (s_rel S) (s_next S).

(** The producer published [ms]. *)
Definition announce (S : Sys) (P : flChannel) (ms : list Message) : Sys :=
  mkSys P (s_cons S) (s_p2c S ++ ms) (s_c2p S) (s_acquired S) (s_rel S) (s_next S).

(** The consumer moved to [C], releasing [ms]. *)
Definition consume (S : Sys) (C : flChannel) (ms : list Message) (next : Z) : Sys :=
  mkSys (s_prod S) C (s_p2c S) (s_c2p S ++ ms) (s_acquired S) (raise (s_rel S) ms) next.

Definition typed_buffer (buf : option flBuffer) : Prop :=
  match buf with Some b => 0 <= buf_slot b | None => True end.

Inductive step (S : Sys) : Sys -> Prop :=
(* producer: [flAcquireBuffer] is PRelease and PAdvance steps ending in PAcquire *)
| PRelease (K : Kernel) m fds rest P' ms :
    s_c2p S = m :: rest -> runs (applyRelease (s_prod S) (with_fds m fds)) P' ms ->
    step S (mkSys P' (s_cons S) (s_p2c S) rest (s_acquired S) (s_rel S) (s_next S))
| PAdvance (K : Kernel) P' ms :
    runs (advanceConsumed (s_prod S)) P' ms -> step S (with_prod S P')
| PAcquire buf P' :
    acquireScan (s_prod S) = Some (buf, P') -> step S (with_prod S P')
| PCancel (K : Kernel) buf r P' ms :
    typed_buffer buf -> runs (flCancelBuffer (s_prod S) buf) (r, P') ms -> step S (with_prod S P')
| PBegin buf sv r v P' :
    typed_buffer buf -> flBeginSubmit (s_prod S) buf sv = (r, v, P') -> step S (with_prod S P')
| PEnd (K : Kernel) buf v pts r P' ms :
    typed_buffer buf -> runs (flEndSubmit (s_prod S) buf v pts) (r, P') ms ->
    step S (announce S P' ms)
| PSubmitFd (K : Kernel) buf fd pts r P' ms :
    typed_buffer buf -> runs (flSubmitSyncFd (s_prod S) buf fd pts) (r, P') ms ->
    step S (announce S P' ms)
| PMetadata buf md r P' :
    flSetFrameMetadata (s_prod S) buf md = (r, P') -> step S (with_prod S P')
| PRetain buf next ref r t P' next' :
    flRetainBufferReference (s_prod S) buf next ref = (r, t, P', next') -> step S (with_prod S P')
| PUnretain ref r P' :
    flReleaseBufferReference (s_prod S) ref = (r, P') -> step S (with_prod S P')
(* consumer *)
| CFrame (K : Kernel) m fds rest C' ms :
    s_p2c S = m :: rest -> runs (handleFrame (s_cons S) (with_fds m fds)) (true, C') ms ->
    step S (mkSys (s_prod S) C' rest (s_c2p S) (s_acquired S) (s_rel S) (s_next S))
| CTry (K : Kernel) f C' ms :
    runs (tryAcquireFrame (s_cons S)) (f, C') ms ->
    step S (mkSys (s_prod S) C' (s_p2c S) (s_c2p S)
              (s_acquired S ++ match f with Some f => [(fr_slot f, fr_readyValue f)] | None => [] end)
              (s_rel S) (s_next S))
| CRelease (K : Kernel) frame r C' ms :
    runs (flRelease (s_cons S) frame) (r, C') ms -> step S (consume S C' ms (s_next S))
| CReleaseFd (K : Kernel) frame fd r C' ms :
    runs (flReleaseSyncFd (s_cons S) frame fd) (r, C') ms -> step S (consume S C' ms (s_next S))
| CSignal (K : Kernel) value fd r C' ms :
    u64 value -> runs (flSignalConsumedSyncFd (s_cons S) value fd) (r, C') ms ->
    step S (consume S C' ms (s_next S))
(* framelink.h: "Do not mix manual consumed-fence signalling with leases." *)
| CLease (K : Kernel) frame lease r l C' next' ms :
    s_rel S < ch_heldReady (s_cons S) ->
    runs (flLeaseFrame (s_cons S) frame (s_next S) lease) (r, l, C', next') ms ->
    step S (consume S C' ms next')
| CRetain lease retained r t C' next' :
    flRetainReadLease (s_cons S) lease (s_next S) retained = (r, t, C', next') ->
    step S (consume S C' [] next')
| CComplete lease r C' :
    flCompleteReadLease (s_cons S) lease = (r, C') -> step S (consume S C' [] (s_next S))
| CCompleteFd (K : Kernel) token fd r C' ms :
    runs (flCompleteReadLeaseSyncFd (s_cons S) token fd) (r, C') ms ->
    step S (consume S C' ms (s_next S))
| CCollect (K : Kernel) r C' ms :
    runs (flCollectReadLeases (s_cons S)) (r, C') ms -> step S (consume S C' ms (s_next S)).

(** Just attached: [admitProducer] on one side, [importRing] on the other. *)
Definition attached (S : Sys) : Prop :=
  let P := s_prod S in
  let C := s_cons S in
  (length (ch_images P) <= FL_MAX_POOL_SIZE)%nat
  /\ ch_slotSubmitValue P = replicate (length (ch_images P)) 0
  /\ ch_readyValue P = 0 /\ ch_consumedValue P = 0 /\ ch_submittingValue P = 0
  /\ sy_releases (ch_sync P) = []
  /\ ch_hasPending C = false /\ ch_frameHeld C = false /\ ch_heldReady C = 0
  /\ Ledger.ledger_inv (ch_readers C) (s_next S) /\ Ledger.empty (ch_readers C) = true
  /\ s_p2c S = [] /\ s_c2p S = [] /\ s_acquired S = [] /\ s_rel S = 0.

Inductive reachable : Sys -> Prop :=
| reach_start S : attached S -> reachable S
| reach_step S S' : reachable S -> step S S' -> reachable S'.

(** ** The invariant *)

(** The frame waiting in the consumer. *)
Definition pending_frame (C : flChannel) : list (Z * Z) :=
  if ch_hasPending C then [(ch_pendingSlot C, ch_pendingReady C)] else [].

(** The greatest value announced so far. *)
Definition announced_limit (P : flChannel) : Z :=
  if ch_submittingValue P =? 0 then ch_readyValue P else ch_readyValue P - 1.

Definition frame_key (f : flFrame) : Z * Z := (fr_slot f, fr_readyValue f).

Record safe_with (S : Sys) (F : list (Z * Z)) : Prop := {
  sf_ledger : Ledger.ledger_inv (ch_readers (s_cons S)) (s_next S);
  sf_len : length (ch_slotSubmitValue (s_prod S)) = length (ch_images (s_prod S))
    /\ (length (ch_images (s_prod S)) <= FL_MAX_POOL_SIZE)%nat;
  sf_rel : 0 <= s_rel S <= ch_heldReady (s_cons S);
  sf_flight : Forall2 (fun m x => forall fds, carries (with_fds m fds) x.1 x.2) (s_p2c S) F;
  sf_sorted : StronglySorted Z.lt (map snd (pending_frame (s_cons S) ++ F));
  sf_bounds : Forall (fun x => ch_heldReady (s_cons S) < x.2 <= announced_limit (s_prod S))
    (pending_frame (s_cons S) ++ F);
  sf_held : ch_heldReady (s_cons S) <= announced_limit (s_prod S);
  sf_acquired : Forall (fun x => x.2 <= ch_heldReady (s_cons S)) (s_acquired S);
  sf_once : StronglySorted Z.lt (map snd (s_acquired S));
  sf_leases : Forall (fun f => s_rel S < fr_readyValue f /\ frame_key f ∈ s_acquired S)
    (lease_queue (ch_readers (s_cons S)));
  sf_frame : ch_frameHeld (s_cons S) = true ->
    (ch_heldSlot (s_cons S), ch_heldReady (s_cons S)) ∈ s_acquired S;
  sf_slots : forall s v, (s, v) ∈ s_acquired S ++ pending_frame (s_cons S) ++ F -> s_rel S < v ->
    0 <= s < Z.of_nat (length (ch_images (s_prod S))) /\ submitAt (s_prod S) s = v;
  sf_releases : Forall (fun m => forall v, release_value m = Some v -> v <= s_rel S) (s_c2p S);
  sf_consumed : released_up_to (s_prod S) (s_rel S);
  sf_ready : 0 <= ch_readyValue (s_prod S) < UINT64_MAX;
  sf_submitting : ch_submittingValue (s_prod S) <> 0 ->
    ch_submittingValue (s_prod S) = ch_readyValue (s_prod S);
}.

Definition safe (S : Sys) : Prop := exists F, safe_with S F.

(** The invariant sees the two ends through their views. *)
Definition pview_all (P : flChannel) := pview P.

Lemma released_up_to_view P P' b :
  sy_releases (ch_sync P') = sy_releases (ch_sync P) -> ch_consumedValue P' = ch_consumedValue P ->
  released_up_to P b -> released_up_to P' b.
Proof. intros H1 H2 [H3 H4]. split; [by rewrite H1|by rewrite H2]. Qed.

(** Replacing the producer by one with the same slots. *)
Lemma safe_prod S F P' :
  safe_with S F -> same_slots (s_prod S) P' -> released_up_to P' (s_rel S) ->
  safe_with (with_prod S P') F.
Proof.
  intros [] (Hi & Hs & Hr & Hss & Hsv) Hu.
  assert (announced_limit P' = announced_limit (s_prod S)) as Hl by (unfold announced_limit; by rewrite Hsv, Hr).
  split; simpl; try done.
  - by rewrite Hs, Hi.
  - by rewrite Hl.
  - by rewrite Hl.
  - unfold submitAt. rewrite Hs, Hi. done.
  - by rewrite Hr.
  - by rewrite Hsv, Hr.
Qed.

(** A slot about to be reused or freed has no frame left. *)
Lemma safe_slot_free S F s :
  safe_with S F -> submitAt (s_prod S) s <= s_rel S \/ submitAt (s_prod S) s = UINT64_MAX ->
  forall v, (s, v) ∈ s_acquired S ++ pending_frame (s_cons S) ++ F -> v <= s_rel S.
Proof.
  intros HS Hs v Hin. destruct (decide (s_rel S < v)) as [Hlt|]; [exfalso|lia].
  destruct (sf_slots _ _ HS s v Hin Hlt) as [_ Hv]. destruct Hs as [?|Hmax]; [lia|].
  assert (v <= announced_limit (s_prod S)) as Hle.
  { apply elem_of_app in Hin as [Hin|Hin].
    - pose proof (sf_acquired _ _ HS) as HF. rewrite Forall_forall in HF. specialize (HF _ Hin).
      simpl in HF. pose proof (sf_held _ _ HS). lia.
    - pose proof (sf_bounds _ _ HS) as HF. rewrite Forall_forall in HF. specialize (HF _ Hin).
      simpl in HF. lia. }
  pose proof (sf_ready _ _ HS). unfold announced_limit in Hle. destruct (_ =? 0); ulia.
Qed.

(** Giving slot [s] another submit value when it has no frame left. *)
Lemma safe_slot S F P' s x :
  safe_with S F ->
  submitAt (s_prod S) s <= s_rel S \/ submitAt (s_prod S) s = UINT64_MAX -> 0 <= s ->
  pview P' = (length (ch_images (s_prod S)), <[Z.to_nat s := x]> (ch_slotSubmitValue (s_prod S)),
              ch_readyValue (s_prod S), ch_submittingSlot (s_prod S), ch_submittingValue (s_prod S),
              sy_releases (ch_sync (s_prod S)), ch_consumedValue (s_prod S)) ->
  safe_with (with_prod S P') F.
Proof.
  intros HS Hs Hs0 HP. unfold pview in HP. injection HP as Hi Hsub Hr Hss Hsv Hrel Hc.
  pose proof (safe_slot_free S F s HS Hs) as Hfree. pose proof HS as [].
  assert (announced_limit P' = announced_limit (s_prod S)) as Hl by (unfold announced_limit; by rewrite Hsv, Hr).
  split; simpl; try done.
  - by rewrite Hsub, length_insert, Hi.
  - by rewrite Hl.
  - by rewrite Hl.
  - intros s' v Hin Hlt. destruct (sf_slots0 s' v Hin Hlt) as [Hr' Hv]. rewrite Hi. split; [done|].
    unfold submitAt in *. rewrite Hsub. destruct (decide (s' = s)) as [->|Hne].
    + specialize (Hfree v Hin). lia.
    + rewrite <- Hv. rewrite !nth_lookup, list_lookup_insert_ne by lia. done.
  - by eapply released_up_to_view.
  - by rewrite Hr.
  - by rewrite Hsv, Hr.
Qed.

(** Publishing the value being submitted on a reserved slot. *)
Lemma safe_publish S F P1 P' slot value ms :
  safe_with (with_prod S P1) F -> submitAt P1 slot = UINT64_MAX -> 0 <= slot < imageCount P1 ->
  value = ch_submittingValue P1 -> value <> 0 -> published P1 slot value P' ->
  (ms = [] \/ exists m, ms = [m] /\ forall fds, carries (with_fds m fds) slot value) ->
  safe (announce S P' ms).
Proof.
  intros HS Hmax Hslot Hval Hnz Hpub Hms. unfold published, pview in Hpub.
  injection Hpub as Hi Hsub Hr Hss Hsv Hrel Hc.
  pose proof (safe_slot_free (with_prod S P1) F slot HS (or_intror Hmax)) as Hfree. simpl in Hfree.
  pose proof HS as []. simpl in *.
  assert (ch_submittingValue P1 = ch_readyValue P1) as Heq by (apply sf_submitting0; lia).
  assert (announced_limit P1 = value - 1) as Hl1.
  { unfold announced_limit. rewrite Heq. replace (ch_readyValue P1 =? 0) with false by lia. lia. }
  assert (announced_limit P' = value) as Hl' by (unfold announced_limit; rewrite Hsv, Hr; simpl; lia).
  set (new := match ms with [] => [] | _ => [(slot, value)] end).
  assert (Forall (fun x => x = (slot, value)) new) as Hnew.
  { unfold new. destruct Hms as [->|(m & -> & _)]; repeat constructor. }
  exists (F ++ new). rewrite Hl1 in *.
  assert (Forall (fun x => x.2 <= value - 1) (pending_frame (s_cons S) ++ F)) as HFle.
  { eapply Forall_impl; [exact sf_bounds0|]. simpl. lia. }
  split; simpl; try done.
  - by rewrite Hsub, length_insert, Hi.
  - unfold new. destruct Hms as [->|(m & -> & Hm)].
    + by rewrite !app_nil_r.
    + apply Forall2_app; [done|]. constructor; [|constructor]. done.
  - rewrite app_assoc, map_app. destruct Hms as [->|(m & -> & Hm)]; [by rewrite app_nil_r|].
    apply StronglySorted_app_2; [|done|repeat constructor].
    intros x y Hx Hy. simpl in Hy. apply list_elem_of_singleton in Hy as ->.
    apply list_elem_of_fmap in Hx as (z & -> & Hz). rewrite Forall_forall in HFle.
    specialize (HFle z Hz). lia.
  - rewrite Hl', app_assoc. apply Forall_app. split.
    + eapply Forall_impl; [exact sf_bounds0|]. simpl. lia.
    + eapply Forall_impl; [exact Hnew|]. simpl. intros x ->. simpl. lia.
  - rewrite Hl'. lia.
  - intros s v Hin Hlt. rewrite Hi. rewrite !app_assoc in Hin.
    apply elem_of_app in Hin as [Hin|Hin].
    + rewrite <- app_assoc in Hin. destruct (sf_slots0 s v Hin Hlt) as [Hrange Hv]. split; [done|].
      unfold submitAt in *. rewrite Hsub. destruct (decide (s = slot)) as [->|Hne].
      * specialize (Hfree v Hin). lia.
      * rewrite <- Hv, !nth_lookup, list_lookup_insert_ne by lia. done.
    + rewrite Forall_forall in Hnew. specialize (Hnew _ Hin). injection Hnew as -> ->.
      unfold imageCount in Hslot. split; [done|]. unfold submitAt. rewrite Hsub, nth_lookup.
      rewrite list_lookup_insert_eq; [done|]. rewrite (proj1 sf_len0). lia.
  - by eapply released_up_to_view.
  - by rewrite Hr.
Qed.

(** *** The consumer's side *)

Lemma raise_nil rel : raise rel [] = rel.
Proof. done. Qed.

Lemma raise_may rel es v :
  may_release es v -> rel <= raise rel (delivered es) <= Z.max rel v.
Proof.
  intros [->|(m & -> & Hm)]; [rewrite raise_nil; lia|].
  unfold raise, released_values. rewrite omap_cons, Hm. simpl. lia.
Qed.

Lemma released_older rel rel' ms :
  rel <= rel' -> Forall (fun m => forall v, release_value m = Some v -> v <= rel) ms ->
  Forall (fun m => forall v, release_value m = Some v -> v <= rel') ms.
Proof. intros Hle H. eapply Forall_impl; [exact H|]. simpl. intros m Hm v Hv. specialize (Hm v Hv). lia. Qed.

Lemma released_new rel es v :
  may_release es v ->
  Forall (fun m => forall x, release_value m = Some x -> x <= raise rel (delivered es)) (delivered es).
Proof.
  intros [->|(m & -> & Hm)]; [constructor|]. constructor; [|constructor]. intros x Hx.
  rewrite Hm in Hx. injection Hx as <-. unfold raise, released_values. rewrite omap_cons, Hm. simpl. lia.
Qed.

(** The consumer's part of the invariant, for a call that announces at most
    releases up to [v] and does not touch the pending frame. *)
Lemma safe_consume S F C' es v next' L' held :
  safe_with S F ->
  cview C' = (ch_hasPending (s_cons S), ch_pendingSlot (s_cons S), ch_pendingReady (s_cons S), held,
              ch_heldSlot (s_cons S), ch_heldReady (s_cons S), L') ->
  Ledger.ledger_inv L' next' ->
  (held = true -> ch_frameHeld (s_cons S) = true) ->
  may_release es v -> v <= ch_heldReady (s_cons S) ->
  (delivered es <> [] -> Forall (fun f => v < fr_readyValue f) (lease_queue L')) ->
  Forall (fun f => s_rel S < fr_readyValue f /\ frame_key f ∈ s_acquired S) (lease_queue L') ->
  safe (consume S C' (delivered es) next').
Proof.
  intros HS Hview HI Hheld Hmay Hv Hlq Hold. exists F. unfold cview in Hview.
  injection Hview as Hp1 Hp2 Hp3 Hh1 Hh2 Hh3 HL.
  pose proof (raise_may (s_rel S) es v Hmay) as Hraise.
  assert (pending_frame C' = pending_frame (s_cons S)) as Hpend
    by (unfold pending_frame; by rewrite Hp1, Hp2, Hp3).
  pose proof HS as []. split; simpl; rewrite ?Hpend, ?Hh3, ?HL; try done.
  - lia.
  - destruct (decide (delivered es = [])) as [Hd|Hd].
    + by rewrite Hd, raise_nil.
    + specialize (Hlq Hd). apply Forall_forall. intros f Hf.
      rewrite Forall_forall in Hlq, Hold. specialize (Hlq f Hf). destruct (Hold f Hf). split; [lia|done].
  - intros Hx. rewrite Hh2. apply sf_frame0, Hheld. congruence.
  - intros s x Hin Hlt. apply sf_slots0; [done|lia].
  - apply Forall_app. split; [|by apply (released_new _ _ v)].
    apply (released_older (s_rel S)); [lia|done].
  - destruct sf_consumed0 as [Hr Hc]. split; [|lia]. eapply Forall_impl; [exact Hr|]. simpl. lia.
Qed.

Lemma safe_frame S F m fds rest C' slot value :
  safe_with S F -> s_p2c S = m :: rest ->
  (exists required md fr, decodeFrame (with_fds m fds) required = (Some fr, md)
     /\ fm_slot fr = slot /\ fm_readyValue fr = value) ->
  cview C' = (true, slot, value, ch_frameHeld (s_cons S), ch_heldSlot (s_cons S),
              ch_heldReady (s_cons S), ch_readers (s_cons S)) ->
  safe (mkSys (s_prod S) C' rest (s_c2p S) (s_acquired S) (s_rel S) (s_next S)).
Proof.
  intros HS Hm (req & md & fr & Hdec & Hs & Hv) Hview. unfold cview in Hview.
  injection Hview as Hp1 Hp2 Hp3 Hh1 Hh2 Hh3 HL. pose proof HS as [].
  rewrite Hm in sf_flight0. apply Forall2_cons_inv_l in sf_flight0 as ([s v] & F' & Hc & Hrest & ->).
  destruct (Hc fds req fr md Hdec) as [Hs' Hv']. simpl in Hs', Hv'.
  assert (pending_frame C' ++ F' = (s, v) :: F') as Hpend.
  { unfold pending_frame. rewrite Hp1, Hp2, Hp3. simpl. congruence. }
  exists F'. split; simpl; rewrite ?Hpend, ?Hh3, ?HL; try done.
  - rewrite map_app in sf_sorted0. by apply StronglySorted_app_1_r in sf_sorted0.
  - by apply Forall_app in sf_bounds0 as [_ ?].
  - rewrite Hh1, Hh2. done.
  - intros s0 v0 Hin Hlt. apply sf_slots0; [|done]. apply elem_of_app in Hin as [Hin|Hin];
      apply elem_of_app; [by left|right]. apply elem_of_app. by right.
Qed.

Lemma safe_try S F C' :
  safe_with S F -> ch_hasPending (s_cons S) = true ->
  let C := s_cons S in
  cview C' = (false, ch_pendingSlot C, ch_pendingReady C, true, ch_pendingSlot C, ch_pendingReady C,
              ch_readers C) ->
  safe (mkSys (s_prod S) C' (s_p2c S) (s_c2p S)
          (s_acquired S ++ [(ch_pendingSlot C, ch_pendingReady C)]) (s_rel S) (s_next S)).
Proof.
  intros HS Hp C Hview. subst C. unfold cview in Hview.
  injection Hview as Hp1 Hp2 Hp3 Hh1 Hh2 Hh3 HL. pose proof HS as [].
  unfold pending_frame in sf_sorted0, sf_bounds0, sf_slots0. rewrite Hp in sf_sorted0, sf_bounds0, sf_slots0.
  simpl in sf_sorted0. cbn [app] in sf_bounds0. apply Forall_cons in sf_bounds0 as [Hb HF]. simpl in Hb.
  inversion sf_sorted0 as [|? ? Hsort Hmin]; subst.
  exists F. split; simpl; unfold pending_frame; rewrite ?Hp1, ?Hh3, ?HL; try done.
  - lia.
  - cbn [app]. apply Forall_forall. intros x Hx. rewrite Forall_forall in Hmin. rewrite Forall_forall in HF.
    specialize (HF x Hx). specialize (Hmin x.2 ltac:(apply list_elem_of_fmap; eauto)). simpl in *. lia.
  - lia.
  - apply Forall_app. split; [|repeat constructor; simpl; lia].
    eapply Forall_impl; [exact sf_acquired0|]. simpl. lia.
  - rewrite map_app. apply StronglySorted_app_2; [|done|repeat constructor].
    intros x y Hx Hy. simpl in Hy. apply list_elem_of_singleton in Hy as ->.
    apply list_elem_of_fmap in Hx as (z & -> & Hz). rewrite Forall_forall in sf_acquired0.
    specialize (sf_acquired0 z Hz). simpl in *. lia.
  - eapply Forall_impl; [exact sf_leases0|]. simpl. intros f [? ?]. split; [done|].
    apply elem_of_app. by left.
  - intros _. rewrite Hh2. apply elem_of_app. right. by left.
  - intros s v Hin Hlt. apply sf_slots0; [|done]. rewrite <- app_assoc in Hin. done.
Qed.

(** *** Every step preserves the invariant *)

Lemma runs_emits {K : Kernel} {A} (m : M A) x ms (P : A -> list Effect -> Prop) :
  runs m x ms -> emits m P -> exists es, delivered es = ms /\ P x es.
Proof. intros (w & <- & <-) HE. exists (effects_of w (m w).2). split; [done|]. by apply emits_run. Qed.

(** Going past a silent first part. *)
Lemma runs_bind_silent {K : Kernel} {A B} (m : M A) (k : A -> M B) x ms (P : A -> Prop) :
  emits m (fun y es => P y /\ delivered es = []) ->
  (forall y, P y -> emits (k y) (fun _ _ => True)) ->
  runs (bind m k) x ms -> exists y, P y /\ runs (k y) x ms.
Proof.
  intros Hm Hk (w & Hx & Hms). destruct (Hm w) as (es & Hl & HP & Hd).
  destruct (Hk (m w).1 HP (m w).2) as (es' & Hl' & _).
  exists (m w).1. split; [done|]. exists (m w).2. rewrite bind_run in Hx, Hms. split; [done|].
  rewrite <- Hms. rewrite (effects_of_log _ _ es') by done.
  rewrite (effects_of_log w _ (es' ++ es)) by (by rewrite Hl', Hl, app_assoc).
  by rewrite delivered_app, Hd.
Qed.

Lemma same_slots_refl P : same_slots P P.
Proof. done. Qed.

Lemma own_slot P b : ownBuffer P b = true -> 0 <= buf_slot b -> 0 <= buf_slot b < imageCount P.
Proof. unfold ownBuffer. intros. bools. lia. Qed.

Lemma begin_safe S F buf sv r v P' :
  safe_with S F -> flBeginSubmit (s_prod S) buf sv = (r, v, P') ->
  safe_with (with_prod S P') F /\ pview P' = (let P := s_prod S in
    if bool_decide (r = FL_OK)
    then (length (ch_images P), ch_slotSubmitValue P, ch_readyValue P + 1,
          match buf with Some b => buf_slot b | None => 0 end, v,
          sy_releases (ch_sync P), ch_consumedValue P)
    else pview P) /\ (r = FL_OK -> v = ch_readyValue (s_prod S) + 1 /\ v <> 0
      /\ exists b, buf = Some b /\ submitAt (s_prod S) (buf_slot b) = UINT64_MAX
         /\ ownBuffer (s_prod S) b = true).
Proof.
  intros HS H. pose proof HS as []. assert (safe_with (with_prod S (s_prod S)) F) as Hsame by (by destruct S).
  unfold flBeginSubmit in H. destruct buf as [b|]; [|by simplify_eq].
  repeat (match type of H with (if ?c then _ else _) = _ => destruct c eqn:? end; [by simplify_eq|]).
  simplify_eq. bools. split; [|split; [done|]].
  2:{ intros _. split; [done|]. split; [lia|]. exists b. split_and!; [done|lia|done]. }
  split; simpl; try done; try (unfold announced_limit in *; simpl).
  - replace (ch_readyValue (s_prod S) + 1 =? 0) with false by lia.
    replace (ch_readyValue (s_prod S) + 1 - 1) with (ch_readyValue (s_prod S)) by lia.
    eapply Forall_impl; [exact sf_bounds0|]. simpl. intros x. unfold truthy in *.
    destruct (_ =? 0) eqn:?; [lia|]. lia.
  - replace (ch_readyValue (s_prod S) + 1 =? 0) with false by lia. unfold truthy in *.
    destruct (ch_submittingValue (s_prod S) =? 0) eqn:?; lia.
  - ulia.
Qed.

Lemma finish_publish {K : Kernel} S F P1 slot pts fence r P' ms :
  safe_with (with_prod S P1) F -> submitAt P1 slot = UINT64_MAX -> 0 <= slot < imageCount P1 ->
  ch_submittingValue P1 <> 0 ->
  runs (publish P1 slot (ch_submittingValue P1) pts fence) (r, P') ms ->
  safe (announce S P' ms).
Proof.
  intros HS Hmax Hslot Hnz Hrun. pose proof HS as []. simpl in *.
  assert (ch_submittingValue P1 = ch_readyValue P1) as Heq by auto.
  assert (u64 (ch_submittingValue P1)) as Hu by ulia.
  assert (u32 slot) as Hu32 by (unfold imageCount, FL_MAX_POOL_SIZE in *; ulia).
  destruct (runs_emits _ _ _ _ Hrun (publish_view P1 slot _ pts fence Hu32 Hu)) as (es & <- & Hpub & Hd).
  apply (safe_publish S F P1 P' slot (ch_submittingValue P1)); try done.
  destruct Hd as [->|(m & -> & Hm)]; [by left|right]. exists m. split; [done|].
  intros fds req fr md Hdec. apply (Hm req fr md). rewrite <- Hdec.
  destruct m. done.
Qed.

Lemma release_step_safe {K : Kernel} S m fds rest P' ms :
  safe S -> s_c2p S = m :: rest -> runs (applyRelease (s_prod S) (with_fds m fds)) P' ms ->
  safe (mkSys P' (s_cons S) (s_p2c S) rest (s_acquired S) (s_rel S) (s_next S)).
Proof.
  intros [F HS] Hm Hrun. pose proof (sf_releases _ _ HS) as HR. rewrite Hm in HR.
  apply Forall_cons in HR as [Hv Hrest].
  assert (emits (applyRelease (s_prod S) (with_fds m fds)) (fun c' es =>
    same_slots (s_prod S) c' /\ released_up_to c' (s_rel S))) as HE.
  { apply (applyRelease_view _ _ (s_rel S)); [by apply (sf_consumed _ _ HS)| |done]. done. }
  destruct (runs_emits _ _ _ _ Hrun HE) as (es & _ & Hss & Hu).
  exists F. destruct (safe_prod S F P' HS Hss Hu). by split.
Qed.

Lemma advance_step_safe {K : Kernel} S P' ms :
  safe S -> runs (advanceConsumed (s_prod S)) P' ms -> safe (with_prod S P').
Proof.
  intros [F HS] Hrun.
  assert (emits (advanceConsumed (s_prod S)) (fun c' es =>
    same_slots (s_prod S) c' /\ released_up_to c' (s_rel S))) as HE.
  { apply (advanceConsumed_view _ (s_rel S)); [by apply (sf_consumed _ _ HS)|done]. }
  destruct (runs_emits _ _ _ _ Hrun HE) as (es & _ & Hss & Hu). exists F. by apply safe_prod.
Qed.

(** What the scan finds, and what reserving changes. *)
Lemma acquireScan_spec P buf P' :
  acquireScan P = Some (buf, P') ->
  exists i, (i < length (ch_images P))%nat /\ buf_slot buf = Z.of_nat i
    /\ submitAt P (Z.of_nat i) <= ch_consumedValue P
    /\ BufferRefs.busy (ch_bufferReferences P) (Z.of_nat i) = false
    /\ buf_image buf = imageAddr P (Z.of_nat i)
    /\ P' = set_metadataAt (set_submitAt P (Z.of_nat i) UINT64_MAX) (Z.of_nat i) zeroMetadata.
Proof.
  unfold acquireScan. destruct (find_index _ _) as [i|] eqn:Ef; [|done]. unfold reserve.
  intros [= <- <-]. apply find_index_Some in Ef as (x & Hx & Hfree & _).
  apply lookup_seq in Hx as [-> Hlt]. unfold slotFree in Hfree. bools. simpl in *.
  exists i. split_and!; try done. lia.
Qed.

Lemma acquire_step_safe S buf P' :
  safe S -> acquireScan (s_prod S) = Some (buf, P') -> safe (with_prod S P').
Proof.
  intros [F HS] Hscan. apply acquireScan_spec in Hscan as (i & Hi & _ & Hfree & _ & _ & ->).
  pose proof (proj2 (sf_consumed _ _ HS)) as Hc. exists F.
  apply (safe_slot S F _ (Z.of_nat i) UINT64_MAX); [done|left; lia|lia|done].
Qed.

Lemma cancel_step_safe {K : Kernel} S buf r P' ms :
  safe S -> typed_buffer buf -> runs (flCancelBuffer (s_prod S) buf) (r, P') ms -> safe (with_prod S P').
Proof.
  intros [F HS] Hb Hrun.
  assert (emits (flCancelBuffer (s_prod S) buf) (fun x es => safe (with_prod S x.2))) as HE.
  { assert (safe (with_prod S (s_prod S))) as Hsame by (exists F; by destruct S).
    unfold flCancelBuffer. destruct buf as [b|]; [|by emits_auto].
    destruct (_ || _) eqn:E1; [by emits_auto|]. destruct (_ && _); [by emits_auto|]. bools.
    pose proof (own_slot _ _ H1 Hb) as Hslot.
    apply emits_bind, unmapSlot_view. intros c' es Hv Hl Hmd He. apply emits_ret. exists F.
    apply (safe_slot S F _ (buf_slot b) 0); [done|right; lia|lia|].
    unfold pview in *. simpl. injection Hv as -> -> -> -> -> -> ->. done. }
  destruct (runs_emits _ _ _ _ Hrun HE) as (es & _ & H). done.
Qed.

Lemma end_step_safe {K : Kernel} S buf v pts r P' ms :
  safe S -> typed_buffer buf -> runs (flEndSubmit (s_prod S) buf v pts) (r, P') ms ->
  safe (announce S P' ms).
Proof.
  intros [F HS] Hb Hrun.
  assert (forall x, runs (ret (x, s_prod S)) (r, P') ms -> safe (announce S P' ms)) as Hsame.
  { intros x (w & Heq & Hd). rewrite ret_run in Heq, Hd. injection Heq as <- <-. unfold effects_of in Hd.
    rewrite Nat.sub_diag in Hd. simpl in Hd. subst ms. unfold announce. rewrite app_nil_r.
    exists F. by destruct S. }
  unfold flEndSubmit in Hrun. destruct buf as [b|]; [|by eapply Hsame].
  destruct (_ || _) eqn:E; [by eapply Hsame|].
  destruct (negb (connected _)); [by eapply Hsame|]. bools. unfold truthy in *. bools.
  assert (v = ch_submittingValue (s_prod S)) as -> by lia.
  apply (finish_publish S F (s_prod S) (buf_slot b) pts (-1) r); [by destruct S|lia| |lia|done].
  apply own_slot; [|done]. by match goal with H : ownBuffer _ _ = true |- _ => apply H end.
Qed.

Lemma unmap_begin_safe S F P1 P2 :
  safe_with (with_prod S P1) F -> pview P2 = pview P1 -> safe_with (with_prod S P2) F.
Proof.
  intros HS Hv. unfold pview in Hv. injection Hv as Hi Hs Hr Hss Hsv Hrel Hc.
  change (with_prod S P2) with (with_prod (with_prod S P1) P2).
  apply safe_prod; [done|done|]. eapply released_up_to_view; [exact Hrel|exact Hc|apply (sf_consumed _ _ HS)].
Qed.

Lemma submitfd_step_safe {K : Kernel} S buf fd pts r P' ms :
  safe S -> typed_buffer buf -> runs (flSubmitSyncFd (s_prod S) buf fd pts) (r, P') ms ->
  safe (announce S P' ms).
Proof.
  intros [F HS] Hb Hrun.
  assert (forall x P1, safe_with (with_prod S P1) F -> runs (ret (x, P1)) (r, P') ms ->
    safe (announce S P' ms)) as Hsame.
  { intros x P1 HS1 (w & Heq & Hd). rewrite ret_run in Heq, Hd. injection Heq as <- <-.
    unfold effects_of in Hd. rewrite Nat.sub_diag in Hd. simpl in Hd. subst ms.
    unfold announce. rewrite app_nil_r. by exists F. }
  assert (safe_with (with_prod S (s_prod S)) F) as HS0 by (by destruct S).
  unfold flSubmitSyncFd in Hrun. destruct buf as [b|]; [|exact (Hsame _ _ HS0 Hrun)].
  destruct (_ || _) eqn:E; [exact (Hsame _ _ HS0 Hrun)|].
  destruct (negb (connected _)); [exact (Hsame _ _ HS0 Hrun)|].
  destruct (flBeginSubmit (s_prod S) (Some b) 0) as [[begun v] P1] eqn:EB.
  destruct (begin_safe S F _ _ _ _ _ HS EB) as (HS1 & Hv1 & Hok).
  case_bool_decide as Hbegun; [|exact (Hsame _ _ HS1 Hrun)]. simpl negb in Hrun. cbn iota in Hrun.
  destruct (Hok Hbegun) as (Hv & Hnz & b' & [= <-] & Hmax & Hown).
  pose proof (own_slot _ _ Hown Hb) as Hslot.
  assert (u32 (buf_slot b)) as Hu32.
  { pose proof (proj2 (sf_len _ _ HS)). unfold imageCount, FL_MAX_POOL_SIZE in *. ulia. }
  pose proof (sf_ready _ _ HS1) as Hrd. simpl in Hrd. unfold pview in Hv1.
  injection Hv1 as Hi1 Hs1 Hr1 Hss1 Hsv1 Hrel1 Hc1.
  assert (u64 v) as Hu64 by ulia.
  apply (runs_bind_silent _ _ _ _ (fun P2 => pview P2 = pview P1)) in Hrun as (P2 & Hv2 & Hrun).
  - pose proof (unmap_begin_safe S F P1 P2 HS1 Hv2) as HS2. unfold pview in Hv2.
    injection Hv2 as Hi Hsub Hr Hss Hsv Hrel Hc.
    assert (ch_submittingValue P2 = v) as Hsv2 by congruence. rewrite <- Hsv2 in Hrun.
    apply (finish_publish S F P2 (buf_slot b) pts fd r); [done| | |lia|done].
    + unfold submitAt in *. by rewrite Hsub, Hs1.
    + unfold imageCount in *. by rewrite Hi, Hi1.
  - by apply unmapSlot_view.
  - intros P2 _. by eapply emits_mono; [apply publish_view|].
Qed.

Lemma frame_step_safe {K : Kernel} S m fds rest C' ms :
  safe S -> s_p2c S = m :: rest -> runs (handleFrame (s_cons S) (with_fds m fds)) (true, C') ms ->
  safe (mkSys (s_prod S) C' rest (s_c2p S) (s_acquired S) (s_rel S) (s_next S)).
Proof.
  intros [F HS] Hm Hrun.
  destruct (runs_emits _ _ _ _ Hrun (handleFrame_view (s_cons S) (with_fds m fds))) as (es & _ & _ & H).
  destruct (H eq_refl) as (fr & md & req & Hdec & Hview).
  eapply (safe_frame S F m fds rest C'); [done|done| |exact Hview]. eauto 10.
Qed.

Lemma try_step_safe {K : Kernel} S f C' ms :
  safe S -> runs (tryAcquireFrame (s_cons S)) (f, C') ms ->
  safe (mkSys (s_prod S) C' (s_p2c S) (s_c2p S)
          (s_acquired S ++ match f with Some f => [(fr_slot f, fr_readyValue f)] | None => [] end)
          (s_rel S) (s_next S)).
Proof.
  intros [F HS] Hrun.
  destruct (runs_emits _ _ _ _ Hrun (tryAcquire_view (s_cons S))) as (es & _ & _ & H). simpl in H.
  destruct f as [f|].
  - destruct H as (Hp & -> & -> & Hview). by apply (safe_try S F).
  - rewrite app_nil_r. exists F. unfold cview in H. injection H as Hp1 Hp2 Hp3 Hh1 Hh2 Hh3 HL.
    assert (pending_frame C' = pending_frame (s_cons S)) as Hpend
      by (unfold pending_frame; by rewrite Hp1, Hp2, Hp3).
    pose proof HS as []. split; simpl; rewrite ?Hpend, ?Hh3, ?HL; try done. by rewrite Hh1, Hh2.
Qed.

(** A consumer call that leaves the frames alone and releases nothing. *)
Lemma quiet_step_safe S F C' next' L' :
  safe_with S F ->
  cview C' = (ch_hasPending (s_cons S), ch_pendingSlot (s_cons S), ch_pendingReady (s_cons S),
              ch_frameHeld (s_cons S), ch_heldSlot (s_cons S), ch_heldReady (s_cons S), L') ->
  Ledger.ledger_inv L' next' -> lease_queue L' = lease_queue (ch_readers (s_cons S)) ->
  safe (consume S C' [] next').
Proof.
  intros HS Hv HI Hq. change [] with (delivered []).
  apply (safe_consume S F C' [] (ch_heldReady (s_cons S)) next' L' (ch_frameHeld (s_cons S))); try done.
  - by left.
  - rewrite Hq. apply HS.
Qed.

Lemma u64_held S F : safe_with S F -> u64 (ch_heldReady (s_cons S)).
Proof.
  intros HS. pose proof (sf_held _ _ HS). pose proof (sf_rel _ _ HS). pose proof (sf_ready _ _ HS).
  unfold announced_limit in *. destruct (_ =? 0); ulia.
Qed.

Lemma releases_held_safe S C' es :
  safe S -> releases_held (s_cons S) C' es -> safe (consume S C' (delivered es) (s_next S)).
Proof.
  intros [F HS] [[Hv ->]|(Hheld & Hq & Hv & Hmay)].
  - by apply (quiet_step_safe S F _ _ (ch_readers (s_cons S))); [|rewrite Hv| |]; try apply HS.
  - apply (safe_consume S F C' es (ch_heldReady (s_cons S)) (s_next S) (ch_readers (s_cons S)) false);
      try done; [apply HS| |]; rewrite Hq; constructor.
Qed.

Lemma signal_step_safe {K : Kernel} S value fd r C' ms :
  safe S -> u64 value -> runs (flSignalConsumedSyncFd (s_cons S) value fd) (r, C') ms ->
  safe (consume S C' ms (s_next S)).
Proof.
  intros [F HS] Hu Hrun.
  destruct (runs_emits _ _ _ _ Hrun (signal_view (s_cons S) value fd Hu)) as (es & <- & Hv & Hd).
  simpl in Hv. destruct Hd as [->|(Hle & Hq & Hmay)].
  - by apply (quiet_step_safe S F _ _ (ch_readers (s_cons S))); [|rewrite Hv| |]; try apply HS.
  - apply (safe_consume S F C' es value (s_next S) (ch_readers (s_cons S)) (ch_frameHeld (s_cons S)));
      try done; [apply HS| |]; rewrite Hq; constructor.
Qed.

Lemma lease_step_safe {K : Kernel} S frame lease r l C' next' ms :
  safe S -> s_rel S < ch_heldReady (s_cons S) ->
  runs (flLeaseFrame (s_cons S) frame (s_next S) lease) (r, l, C', next') ms ->
  safe (consume S C' ms next').
Proof.
  intros [F HS] Hrel Hrun.
  destruct (runs_emits _ _ _ _ Hrun (lease_view (s_cons S) frame (s_next S) lease (sf_ledger _ _ HS)))
    as (es & <- & Hd & HI & Hcase).
  destruct Hcase as [(L' & Hv & Hq)|(L' & f & Hheld & Hv & Hq & Hf1 & Hf2)].
  - rewrite Hd. apply (quiet_step_safe S F _ _ L'); try done. unfold cview in Hv. by simplify_eq.
  - assert (ch_readers C' = L') as HL by (unfold cview in Hv; congruence). rewrite HL in HI.
    rewrite Hd. change [] with (delivered []).
    apply (safe_consume S F C' [] (ch_heldReady (s_cons S)) next' L' false); try done; [by left|].
    rewrite Hq. apply Forall_app. split; [apply HS|]. repeat constructor; [lia|].
    unfold frame_key. rewrite Hf1, Hf2. by apply (sf_frame _ _ HS).
Qed.

Lemma cquiet_safe S F C' :
  safe_with S F -> cquiet (s_next S) (s_cons S) C' -> safe (consume S C' [] (s_next S)).
Proof. intros HS (L' & Hv & HI & Hq). by apply (quiet_step_safe S F _ _ L'). Qed.

Lemma collect_step_safe {K : Kernel} S r C' ms :
  safe S -> runs (flCollectReadLeases (s_cons S)) (r, C') ms -> safe (consume S C' ms (s_next S)).
Proof.
  intros [F HS] Hrun. pose proof (sf_leases _ _ HS) as HQ. rewrite Forall_forall in HQ.
  pose proof (sf_acquired _ _ HS) as HA. rewrite Forall_forall in HA.
  pose proof (u64_held S F HS) as Hu64. pose proof (sf_rel _ _ HS) as Hrel.
  assert (forall f, f ∈ lease_queue (ch_readers (s_cons S)) ->
    fr_readyValue f <= ch_heldReady (s_cons S)) as Hle.
  { intros f Hf. destruct (HQ f Hf) as [_ Hin]. specialize (HA _ Hin). done. }
  assert (forall f, f ∈ lease_queue (ch_readers (s_cons S)) -> u64 (fr_readyValue f)) as Hu.
  { intros f Hf. destruct (HQ f Hf). specialize (Hle f Hf). ulia. }
  destruct (runs_emits _ _ _ _ Hrun (collect_view (s_next S) (s_cons S) (sf_ledger _ _ HS) Hu))
    as (es & <- & L' & Hv & HI & Hcase). simpl in Hv.
  destruct Hcase as [[Hq Hd]|(v & f & Hf & Hfv & Hmay & Hrest)].
  - rewrite Hd. by apply (quiet_step_safe S F _ _ L').
  - apply (safe_consume S F C' es v (s_next S) L' (ch_frameHeld (s_cons S))); try done.
    + rewrite <- Hfv. by apply Hle.
    + intros _. apply Forall_forall. intros e He. by apply Hrest.
    + apply Forall_forall. intros e He. destruct (Hrest e He) as [He' _]. by apply HQ.
Qed.

Lemma attached_safe S : attached S -> safe S.
Proof.
  intros (H1 & H2 & H3 & H4 & H5 & H6 & H7 & H8 & H9 & H10 & H11 & H12 & H13 & H14 & H15).
  exists []. unfold pending_frame, announced_limit.
  split; unfold pending_frame, announced_limit; rewrite ?H7, ?H9, ?H5, ?H3, ?H12, ?H13, ?H14, ?H15; try done;
    try constructor; try lia; try ulia.
  - by rewrite H2, length_replicate.
  - rewrite lease_empty by done. constructor.
  - by match goal with H : _ ∈ _ |- _ => apply elem_of_nil in H end.
  - by match goal with H : _ ∈ _ |- _ => apply elem_of_nil in H end.
  - by rewrite H6.
Qed.

Lemma step_safe S S' : safe S -> step S S' -> safe S'.
Proof.
  intros Hsafe Hstep. destruct Hstep.
  - by eapply release_step_safe.
  - by eapply advance_step_safe.
  - by eapply acquire_step_safe.
  - by eapply cancel_step_safe.
  - destruct Hsafe as [F HS]. exists F. by eapply begin_safe.
  - by eapply end_step_safe.
  - by eapply submitfd_step_safe.
  - destruct Hsafe as [F HS]. exists F. apply safe_prod; [done| |].
    + unfold flSetFrameMetadata in *. repeat case_match; by simplify_eq.
    + eapply released_up_to_view; [| |apply (sf_consumed _ _ HS)];
        unfold flSetFrameMetadata in *; repeat case_match; by simplify_eq.
  - destruct Hsafe as [F HS]. exists F. apply safe_prod; [done| |].
    + unfold flRetainBufferReference in *. repeat case_match; by simplify_eq.
    + eapply released_up_to_view; [| |apply (sf_consumed _ _ HS)];
        unfold flRetainBufferReference in *; repeat case_match; by simplify_eq.
  - destruct Hsafe as [F HS]. exists F. apply safe_prod; [done| |].
    + unfold flReleaseBufferReference in *. repeat case_match; by simplify_eq.
    + eapply released_up_to_view; [| |apply (sf_consumed _ _ HS)];
        unfold flReleaseBufferReference in *; repeat case_match; by simplify_eq.
  - by eapply frame_step_safe.
  - by eapply try_step_safe.
  - destruct Hsafe as [F HS].
    destruct (runs_emits _ _ _ _ H (release_view (s_cons S) frame (u64_held S F HS))) as (es & <- & Hr).
    apply releases_held_safe; [by exists F|done].
  - destruct Hsafe as [F HS].
    destruct (runs_emits _ _ _ _ H (releaseSyncFd_view (s_cons S) frame fd (u64_held S F HS)))
      as (es & <- & Hr).
    apply releases_held_safe; [by exists F|done].
  - by eapply signal_step_safe.
  - by eapply lease_step_safe.
  - destruct Hsafe as [F HS]. unfold flRetainReadLease in H.
    destruct (negb _); [simplify_eq; by eapply (quiet_step_safe S F); [done|done|apply HS|done]|].
    pose proof (lease_retain (ch_readers (s_cons S)) (s_next S) lease retained (sf_ledger _ _ HS)) as HL.
    destruct (Ledger.retain _ _ _ _) as [[[r' t'] L'] n']. simplify_eq. destruct HL as [HI Hq].
    by apply (quiet_step_safe S F _ _ L').
  - destruct Hsafe as [F HS]. unfold flCompleteReadLease in H.
    destruct (negb _); [simplify_eq; by eapply (quiet_step_safe S F); [done|done|apply HS|done]|].
    pose proof (lease_complete (ch_readers (s_cons S)) (s_next S) lease (sf_ledger _ _ HS)) as HL.
    destruct (Ledger.complete _ _) as [r' L']. simplify_eq. destruct HL as [HI Hq].
    by apply (quiet_step_safe S F _ _ L').
  - destruct Hsafe as [F HS].
    destruct (runs_emits _ _ _ _ H (completeSyncFd_view (s_next S) (s_cons S) token fd (sf_ledger _ _ HS)))
      as (es & <- & Hd & Hq).
    rewrite Hd. by apply (cquiet_safe S F).
  - by eapply collect_step_safe.
Qed.

Lemma reachable_safe S : reachable S -> safe S.
Proof. induction 1; [by apply attached_safe|by eapply step_safe]. Qed.

(** * Theorems *)

(** What the invariant says of a slot the scan hands out. *)
Lemma scan_overwrites_nothing S buf P' :
  safe S -> acquireScan (s_prod S) = Some (buf, P') ->
  (forall m required fr md, m ∈ s_p2c S -> decodeFrame m required = (Some fr, md) ->
     fm_slot fr <> buf_slot buf)
  /\ (ch_hasPending (s_cons S) = true -> ch_pendingSlot (s_cons S) <> buf_slot buf)
  /\ (forall f, f ∈ lease_queue (ch_readers (s_cons S)) -> fr_slot f <> buf_slot buf)
  /\ (forall v, (buf_slot buf, v) ∈ s_acquired S -> v <= s_rel S).
Proof.
  intros [F HS] Hscan.
  apply acquireScan_spec in Hscan as (i & Hi & -> & Hfree & _).
  pose proof (proj2 (sf_consumed _ _ HS)) as Hc.
  pose proof (safe_slot_free S F (Z.of_nat i) HS ltac:(left; lia)) as Hgone.
  pose proof (sf_bounds _ _ HS) as HB. rewrite Forall_forall in HB.
  pose proof (sf_rel _ _ HS) as Hrel. split_and!.
  - intros m req fr md Hm Hdec Heq. apply list_elem_of_lookup in Hm as [k Hk].
    destruct (Forall2_lookup_l _ _ _ _ _ (sf_flight _ _ HS) Hk) as ([s v] & Hx & Hcar).
    destruct (Hcar (mg_fds m) req fr md) as [Hs _]; [by destruct m|]. simpl in Hs.
    assert ((s, v) ∈ pending_frame (s_cons S) ++ F) as Hin.
    { apply elem_of_app. right. by eapply list_elem_of_lookup_2. }
    specialize (Hgone v). specialize (HB _ Hin). simpl in HB.
    assert (v <= s_rel S); [|lia]. apply Hgone. apply elem_of_app. right. congruence.
  - intros Hp Heq. unfold pending_frame in *. rewrite Hp in *.
    specialize (HB (ch_pendingSlot (s_cons S), ch_pendingReady (s_cons S)) ltac:(left)). simpl in HB.
    specialize (Hgone (ch_pendingReady (s_cons S))).
    assert (ch_pendingReady (s_cons S) <= s_rel S); [|lia]. apply Hgone. rewrite <- Heq.
    apply elem_of_app. right. left.
  - intros f Hf Heq. pose proof (sf_leases _ _ HS) as HQ. rewrite Forall_forall in HQ.
    destruct (HQ f Hf) as [Hlt Hin]. unfold frame_key in Hin. rewrite Heq in Hin.
    assert (fr_readyValue f <= s_rel S); [|lia]. apply Hgone. apply elem_of_app. by left.
  - intros v Hin. apply Hgone. apply elem_of_app. by left.
Qed.

(** C1: Zero-copy without tearing: in every state the two ends can reach, when
    the producer's scan hands out a slot, no datagram still in the socket
    announces a frame in that slot, the consumer's pending frame is not in it, no
    frame its read leases retain is in it, and every frame its application ever
    acquired from it was announced as released.  So nothing the consumer can
    still read is overwritten - whatever the interleaving, the latest-frame-wins
    skips, the fences and the order in which read leases complete. *)
Theorem linux_no_overwrite S buf P' :
  reachable S -> acquireScan (s_prod S) = Some (buf, P') ->
  (forall m required fr md, m ∈ s_p2c S -> decodeFrame m required = (Some fr, md) ->
     fm_slot fr <> buf_slot buf)
  /\ (ch_hasPending (s_cons S) = true -> ch_pendingSlot (s_cons S) <> buf_slot buf)
  /\ (forall f, f ∈ lease_queue (ch_readers (s_cons S)) -> fr_slot f <> buf_slot buf)
  /\ (forall v, (buf_slot buf, v) ∈ s_acquired S -> v <= s_rel S).
Proof. intros Hreach. by apply scan_overwrites_nothing, reachable_safe. Qed.

(** C2: The reserved-slot sentinel is never reached: in every reachable state in
    which the producer's scan hands out a slot, the value the producer believes
    consumed is one it announced and stays below UINT64_MAX, the slot handed out
    was not reserved before - no two buffers of the application share it - and
    afterwards it is. *)
Theorem linux_reserved_exclusive S buf P' :
  reachable S -> acquireScan (s_prod S) = Some (buf, P') ->
  ch_consumedValue (s_prod S) <= ch_readyValue (s_prod S) < UINT64_MAX
  /\ submitAt (s_prod S) (buf_slot buf) <> UINT64_MAX
  /\ submitAt P' (buf_slot buf) = UINT64_MAX.
Proof.
  intros Hreach Hscan. destruct (reachable_safe S Hreach) as [F HS].
  apply acquireScan_spec in Hscan as (i & Hi & -> & Hfree & _ & _ & ->).
  pose proof (proj2 (sf_consumed _ _ HS)) as Hc. pose proof (sf_rel _ _ HS). pose proof (sf_held _ _ HS) as Hh.
  pose proof (sf_ready _ _ HS). assert (announced_limit (s_prod S) <= ch_readyValue (s_prod S)).
  { unfold announced_limit. destruct (_ =? 0); lia. }
  split_and!; [lia|lia|lia|].
  unfold submitAt. simpl. rewrite nth_lookup, list_lookup_insert_eq; [done|].
  rewrite (proj1 (sf_len _ _ HS)). lia.
Qed.

(** C3: The application acquires frames in strictly increasing order of their
    ready values: no frame is delivered twice and none arrives after a newer one,
    although pending frames are skipped. *)
Theorem linux_frames_in_order S :
  reachable S -> StronglySorted Z.lt (map snd (s_acquired S)).
Proof. intros Hreach. destruct (reachable_safe S Hreach) as [F HS]. apply HS. Qed.

(** ** An example run: two slots, one frame acquired and released, one pending *)

Definition exKernel : Kernel :=
  scripted (fun _ _ => (1, POLLIN)) (fun _ _ => 36) (fun _ _ => mkReceived 0 [] [] 0).

Definition exImages : list (Z * flImage) := [(4096, newImage); (8192, newImage)].

Definition exProducer : flChannel :=
  set_link (set_slotSubmitValue (set_images newChannel exImages) [0; 0]) (mkChan 8 true 0).

Definition exConsumer : flChannel :=
  set_peer (set_images (set_isConsumer newChannel true) exImages) (mkChan 9 true 0).

Definition exStart : Sys := mkSys exProducer exConsumer [] [] [] 0 1.

(** The state after a step whose outcome is [f]. *)
Definition acquired (S : Sys) : Sys :=
  match acquireScan (s_prod S) with Some (_, P) => with_prod S P | None => S end.
Definition begun (S : Sys) (b : flBuffer) : Sys :=
  with_prod S (flBeginSubmit (s_prod S) (Some b) 0).2.
Definition run_of {A} (m : M A) : A * list Message :=
  ((m start).1, delivered (effects_of start (m start).2)).
Definition ended (S : Sys) (b : flBuffer) (v pts : Z) : Sys :=
  let r := run_of (flEndSubmit (K := exKernel) (s_prod S) (Some b) v pts) in announce S r.1.2 r.2.
Definition receive (S : Sys) (m : Message) : (bool * flChannel) * list Message :=
  run_of (handleFrame (K := exKernel) (s_cons S) (with_fds m [])).
Definition received (S : Sys) : Sys :=
  match s_p2c S with
  | m :: rest =>
    if (receive S m).1.1
    then mkSys (s_prod S) (receive S m).1.2 rest (s_c2p S) (s_acquired S) (s_rel S) (s_next S)
    else S
  | [] => S
  end.
Definition taken (S : Sys) : Sys :=
  let r := run_of (tryAcquireFrame (K := exKernel) (s_cons S)) in
  mkSys (s_prod S) r.1.2 (s_p2c S) (s_c2p S)
    (s_acquired S ++ match r.1.1 with Some f => [(fr_slot f, fr_readyValue f)] | None => [] end)
    (s_rel S) (s_next S).
Definition released (S : Sys) (f : flFrame) : Sys :=
  let r := run_of (flRelease (K := exKernel) (s_cons S) (Some f)) in consume S r.1.2 r.2 (s_next S).
Definition drained (S : Sys) : Sys :=
  match s_c2p S with
  | m :: rest =>
    mkSys (run_of (applyRelease (K := exKernel) (s_prod S) (with_fds m []))).1 (s_cons S)
      (s_p2c S) rest (s_acquired S) (s_rel S) (s_next S)
  | [] => S
  end.

Lemma run_of_runs {A} (m : M A) : runs (K := exKernel) m (run_of m).1 (run_of m).2.
Proof. exists start. done. Qed.

Section ExampleSteps.
Context (S : Sys) (HS : reachable S).

Lemma acquired_reach : reachable (acquired S).
Proof.
  unfold acquired. destruct (acquireScan (s_prod S)) as [[b P]|] eqn:E; [|done].
  eapply reach_step; [exact HS|]. by apply (PAcquire S b P).
Qed.

Lemma begun_reach b : 0 <= buf_slot b -> reachable (begun S b).
Proof.
  intros Hb. unfold begun. destruct (flBeginSubmit (s_prod S) (Some b) 0) as [[r v] P] eqn:E.
  eapply reach_step; [exact HS|]. by apply (PBegin S (Some b) 0 r v P).
Qed.

Lemma ended_reach b v pts : 0 <= buf_slot b -> reachable (ended S b v pts).
Proof.
  intros Hb. unfold ended.
  pose proof (run_of_runs (flEndSubmit (K := exKernel) (s_prod S) (Some b) v pts)) as HR.
  destruct (run_of _) as [[r P] ms]. eapply reach_step; [exact HS|].
  by apply (PEnd S exKernel (Some b) v pts r P ms).
Qed.

Lemma received_reach : reachable (received S).
Proof.
  unfold received, receive. destruct (s_p2c S) as [|m rest] eqn:E; [done|].
  pose proof (run_of_runs (handleFrame (K := exKernel) (s_cons S) (with_fds m []))) as HR.
  destruct (run_of _) as [[[|] C] ms]; [|done]. eapply reach_step; [exact HS|].
  by apply (CFrame S exKernel m [] rest C ms).
Qed.

Lemma taken_reach : reachable (taken S).
Proof.
  unfold taken. pose proof (run_of_runs (tryAcquireFrame (K := exKernel) (s_cons S))) as HR.
  destruct (run_of _) as [[f C] ms]. eapply reach_step; [exact HS|].
  by apply (CTry S exKernel f C ms).
Qed.

Lemma released_reach f : reachable (released S f).
Proof.
  unfold released. pose proof (run_of_runs (flRelease (K := exKernel) (s_cons S) (Some f))) as HR.
  destruct (run_of _) as [[r C] ms]. eapply reach_step; [exact HS|].
  by apply (CRelease S exKernel (Some f) r C ms).
Qed.

Lemma drained_reach : reachable (drained S).
Proof.
  unfold drained. destruct (s_c2p S) as [|m rest] eqn:E; [done|].
  pose proof (run_of_runs (applyRelease (K := exKernel) (s_prod S) (with_fds m []))) as HR.
  destruct (run_of _) as [P ms]. eapply reach_step; [exact HS|].
  by apply (PRelease S exKernel m [] rest P ms).
Qed.
End ExampleSteps.

Definition slot0 : flBuffer := mkBuffer 0 4096.
Definition exFrame : flFrame := mkFrame 0 4096 40 1 1.

(** Frame 1 in slot 0 is published, received, acquired and released; slot 0 is
    acquired again for frame 2, which is published and waits in the consumer. *)
Definition exSystem : Sys :=
  received (ended (begun (acquired (drained (released (taken (received
    (ended (begun (acquired exStart) slot0) slot0 1 40))) exFrame))) slot0) slot0 2 73).

Lemma exSystem_reachable : reachable exSystem.
Proof.
  assert (reachable exStart) as H0.
  { apply reach_start. unfold attached. split_and!; try (vm_compute; reflexivity).
    - unfold FL_MAX_POOL_SIZE. simpl. lia.
    - exact Ledger.ledger_start_inv. }
  assert (0 <= buf_slot slot0) as Hb by (unfold slot0; simpl; lia).
  pose proof (received_reach _ (ended_reach _ (begun_reach _ (acquired_reach _ H0) _ Hb) _ 1 40 Hb)) as H1.
  pose proof (drained_reach _ (released_reach _ (taken_reach _ H1) exFrame)) as H2.
  exact (received_reach _ (ended_reach _ (begun_reach _ (acquired_reach _ H2) _ Hb) _ 2 73 Hb)).
Qed.

(** Slot 0 holds the frame still pending; the scan hands out slot 1. *)
Definition exBuffer : flBuffer := mkBuffer 1 8192.
Definition exReserved : flChannel := (reserve (s_prod exSystem) 1).2.

Lemma exSystem_scan : acquireScan (s_prod exSystem) = Some (exBuffer, exReserved).
Proof. vm_compute. reflexivity. Qed.

Lemma linux_no_overwrite_witness :
  (reachable exSystem /\ acquireScan (s_prod exSystem) = Some (exBuffer, exReserved))
  /\ (forall m required fr md, m ∈ s_p2c exSystem -> decodeFrame m required = (Some fr, md) ->
        fm_slot fr <> buf_slot exBuffer)
  /\ (ch_hasPending (s_cons exSystem) = true -> ch_pendingSlot (s_cons exSystem) <> buf_slot exBuffer)
  /\ (forall f, f ∈ lease_queue (ch_readers (s_cons exSystem)) -> fr_slot f <> buf_slot exBuffer)
  /\ (forall v, (buf_slot exBuffer, v) ∈ s_acquired exSystem -> v <= s_rel exSystem).
Proof.
  split; [split; [exact exSystem_reachable|exact exSystem_scan]|].
  exact (linux_no_overwrite exSystem exBuffer exReserved exSystem_reachable exSystem_scan).
Defined.

Lemma linux_reserved_exclusive_witness :
  (reachable exSystem /\ acquireScan (s_prod exSystem) = Some (exBuffer, exReserved))
  /\ ch_consumedValue (s_prod exSystem) <= ch_readyValue (s_prod exSystem) < UINT64_MAX
  /\ submitAt (s_prod exSystem) (buf_slot exBuffer) <> UINT64_MAX
  /\ submitAt exReserved (buf_slot exBuffer) = UINT64_MAX.
Proof.
  split; [split; [exact exSystem_reachable|exact exSystem_scan]|].
  exact (linux_reserved_exclusive exSystem exBuffer exReserved exSystem_reachable exSystem_scan).
Defined.

Lemma linux_frames_in_order_witness :
  reachable exSystem /\ StronglySorted Z.lt (map snd (s_acquired exSystem)).
Proof. split; [exact exSystem_reachable|]. exact (linux_frames_in_order exSystem exSystem_reachable). Defined.
