(* ===== verification/Windows.v ===== *)
(** * Windows and Direct3D 11, as the Windows backend sees them

    [Windows] is the interface of the calls src/framelink_win.cpp and
    src/fl_ipc_win32.cpp make; like [Kernel] every operation is a function of the
    time of the call, and a theorem for every [Windows] covers every answer.

    A HANDLE and a COM object are numbers; zero is the null pointer and the
    answer of a call that failed, also where the call reports failure with an
    HRESULT, with FALSE or with INVALID_HANDLE_VALUE.  A ComPtr releases its
    object by itself, so COM references are not counted; HANDLEs are. *)
From S2P Require Import Prelude Kernel.

(** [D3D11_TEXTURE2D_DESC], the fields the code reads or sets. *)
Record TextureDesc := mkDesc {
  td_Width : Z;
  td_Height : Z;
  td_MipLevels : Z;
  td_ArraySize : Z;
  td_Format : Z;
  td_SampleCount : Z;
  td_Usage : Z;
  td_BindFlags : Z;
  td_CPUAccessFlags : Z;
  td_MiscFlags : Z;
}.

(** Constants of the platform headers. *)
Definition DXGI_FORMAT_R10G10B10A2_UNORM : Z := 24.
Definition DXGI_FORMAT_R8G8B8A8_UNORM : Z := 28.
Definition DXGI_FORMAT_B8G8R8A8_UNORM : Z := 87.
Definition DXGI_FORMAT_NV12 : Z := 103.
Definition D3D11_USAGE_DEFAULT : Z := 0.
Definition D3D11_USAGE_STAGING : Z := 3.
Definition D3D11_BIND_SHADER_RESOURCE : Z := 0x8.
Definition D3D11_BIND_RENDER_TARGET : Z := 0x20.
Definition D3D11_BIND_DECODER : Z := 0x200.
Definition D3D11_CPU_ACCESS_WRITE : Z := 0x10000.
Definition D3D11_CPU_ACCESS_READ : Z := 0x20000.
Definition D3D11_RESOURCE_MISC_SHARED : Z := 0x2.
Definition D3D11_RESOURCE_MISC_SHARED_NTHANDLE : Z := 0x800.
Definition INVALID_HANDLE_VALUE : Z := -1.
Definition ERROR_PIPE_BUSY : Z := 231.

Class Windows := {
  w_pid : Z;                                   (* GetCurrentProcessId *)
  w_tickCount : nat -> Z;                      (* GetTickCount, milliseconds *)
  w_clock : nat -> Z;                          (* steady_clock::now *)
  w_new : nat -> Z;                            (* operator new *)
  w_lastError : nat -> Z;
  w_createPipe : nat -> Z;                     (* CreateNamedPipeW *)
  w_connectPipe : nat -> Z -> bool;            (* ConnectNamedPipe, or already connected *)
  w_clientPid : nat -> Z -> option Z;
  w_createFile : nat -> list Z -> Z;           (* CreateFileW on a pipe path *)
  w_peekPipe : nat -> Z -> bool;
  w_writeFile : nat -> Z -> option Z;          (* the bytes written *)
  w_readFile : nat -> Z -> option (list Z);    (* the bytes read *)
  w_openProcess : nat -> Z -> Z;
  w_duplicate : nat -> Z -> Z;                 (* DuplicateHandle into this process *)
  w_duplicateInto : nat -> Z -> Z -> Z;        (* DuplicateHandle into another process *)
  w_compareHandles : option (Z -> Z -> bool);  (* CompareObjectHandles, if present *)
  w_adapters : nat -> option (list (Z * list Z));   (* the factory's adapters with their LUIDs *)
  w_createDevice : nat -> Z -> Z;              (* on an adapter, 0 the default hardware one *)
  w_deviceLuid : nat -> Z -> option (list Z);  (* device to adapter description *)
  w_context4 : nat -> Z -> Z;
  w_immediateContext : nat -> Z -> Z;          (* of the device of a texture *)
  w_device1 : nat -> Z -> bool;                (* device.As(&ID3D11Device1) *)
  w_device5 : nat -> Z -> bool;
  w_createEvent : nat -> Z;
  w_createTexture : nat -> TextureDesc -> Z;
  w_shareTexture : nat -> Z -> Z;              (* CreateSharedHandle of a texture *)
  w_openTexture : nat -> Z -> Z;               (* OpenSharedResource1 *)
  w_desc : Z -> TextureDesc;                   (* GetDesc *)
  w_createFence : nat -> Z;
  w_shareFence : nat -> Z -> Z;
  w_openFence : nat -> Z -> Z;
  w_fenceValue : nat -> Z -> Z;                (* GetCompletedValue *)
  w_signal : nat -> Z -> bool;                 (* Signal accepted *)
  w_map : nat -> Z -> option (Z * Z);          (* pData, RowPitch *)
}.

(** ** A concrete system, for examples

    Every call succeeds; objects are numbered by the time of the call. *)
Definition scriptedWindows (tick : nat -> Z) (fence : nat -> Z -> Z)
  (read : nat -> Z -> option (list Z)) : Windows := {|
  w_pid := 42;
  w_tickCount := tick;
  w_clock t := 1000000 * Z.of_nat t;
  w_new t := 4096 * (1 + Z.of_nat t);
  w_lastError _ := 0;
  w_createPipe t := 500 + Z.of_nat t;
  w_connectPipe _ _ := true;
  w_clientPid _ _ := Some 7;
  w_createFile t _ := 500 + Z.of_nat t;
  w_peekPipe _ _ := true;
  w_writeFile _ _ := Some 0;
  w_readFile := read;
  w_openProcess t _ := 500 + Z.of_nat t;
  w_duplicate t _ := 500 + Z.of_nat t;
  w_duplicateInto t _ _ := 9000 + Z.of_nat t;
  w_compareHandles := Some Z.eqb;
  w_adapters _ := Some [(3, replicate 8 1)];
  w_createDevice _ _ := 70;
  w_deviceLuid _ _ := Some (replicate 8 1);
  w_context4 _ _ := 71;
  w_immediateContext _ _ := 71;
  w_device1 _ _ := true;
  w_device5 _ _ := true;
  w_createEvent t := 500 + Z.of_nat t;
  w_createTexture t _ := 20000 + Z.of_nat t;
  w_shareTexture t _ := 500 + Z.of_nat t;
  w_openTexture t _ := 20000 + Z.of_nat t;
  w_desc _ := mkDesc 1920 1080 1 1 DXGI_FORMAT_B8G8R8A8_UNORM 1 D3D11_USAGE_DEFAULT
                (D3D11_BIND_RENDER_TARGET + D3D11_BIND_SHADER_RESOURCE) 0
                (D3D11_RESOURCE_MISC_SHARED + D3D11_RESOURCE_MISC_SHARED_NTHANDLE);
  w_createFence t := 30000 + Z.of_nat t;
  w_shareFence t _ := 500 + Z.of_nat t;
  w_openFence t _ := 30000 + Z.of_nat t;
  w_fenceValue := fence;
  w_signal _ _ := true;
  w_map t _ := Some (16777216 * (1 + Z.of_nat t), 7680);
|}.
