(* ===== verification/WinIpc.v ===== *)
(** * The Windows control channel (src/fl_ipc_win32.cpp)

    [Channel] over a message-mode named pipe: [handle_] is the pipe itself, zero
    when null.  The class is the one of [Ipc] (src/fl_ipc.h); only the methods
    differ.  The retry loop of [connect] runs against the clock and is bounded by
    fuel. *)
From S2P Require Import Prelude Api Kernel Windows Wire Ipc.

(** "\\.\pipe\" *)
Definition pipePrefix : list Z := [92; 92; 46; 92; 112; 105; 112; 101; 92].
Definition pipePath (name : list Z) : list Z := pipePrefix ++ name.

Section Methods.
Context `{W : Windows}.

(** [void Channel::close()], also the destructor *)
Definition win_close (ch : Channel) : M Channel :=
  closeHandle_valid (handle_ ch) ;; ret (mkChan 0 false (peerPid_ ch)).

(** The creation of the pipe in [Channel::listen], which reports readiness. *)
Definition listenPipe : M Z := handle_created (ask w_createPipe).

(** The rest of [Channel::listen]: wait for a client of [pipe]. *)
Definition listenConnect (pipe : Z) : M Channel :=
  let! ok := ask (fun t => w_connectPipe t pipe) in
  return_if! negb ok with (closeHandle pipe ;; ret noChannel) ;;
  let! pid := ask (fun t => w_clientPid t pipe) in
  ret (mkChan pipe true (default 0 pid)).

(** The [for] loop of [Channel::connect], with [*busy]; [None]: out of fuel. *)
Fixpoint connectPipeLoop (fuel : nat) (path : list Z) (deadline : Z) (busy : bool)
  : M (option (Channel * bool)) :=
  match fuel with
  | O => ret None
  | S fuel' =>
    let! pipe := handle_created (ask (fun t => w_createFile t path)) in
    return_if! truthy pipe with ret (Some (mkChan pipe true 0, busy)) ;;
    let! e := ask w_lastError in
    return_if! negb (e =? ERROR_PIPE_BUSY) with ret (Some (noChannel, busy)) ;;
    let! now := ask w_tickCount in
    return_if! deadline <=? now with ret (Some (noChannel, true)) ;;
    connectPipeLoop fuel' path deadline true
  end.

Definition connectPipe (fuel : nat) (name : list Z) (timeoutMs : Z) : M (option (Channel * bool)) :=
  let! now := ask w_tickCount in
  connectPipeLoop fuel (pipePath name) (wrap32 (now + timeoutMs)) false.

Definition peerAlive (ch : Channel) : M (bool * Channel) :=
  return_if! negb (connected_ ch) with ret (false, ch) ;;
  let! alive := ask (fun t => w_peekPipe t (handle_ ch)) in
  ret (if (alive : bool) then (true, ch) else (false, set_connected ch false)).

Definition win_send (ch : Channel) (type : Z) (payload : list Z) : M (bool * Channel) :=
  return_if! negb (connected_ ch) with ret (false, ch) ;;
  return_if! kBufferSize - headerSize <? Z.of_nat (length payload) with ret (false, ch) ;;
  let buf := encode (mkHeader kMagic type (wrap32 (Z.of_nat (length payload)))) ++ payload in
  let! written := ask (fun t => w_writeFile t (handle_ ch)) in
  effect (EWritePipe (handle_ ch) buf) ;;
  match written with
  | None => ret (false, set_connected ch false)
  | Some written => ret (written =? headerSize + Z.of_nat (length payload), ch)
  end.

(** No descriptors travel over a pipe. *)
Definition win_sendWithFds (ch : Channel) (type : Z) (payload : list Z) (fdCount : nat)
  : M (bool * Channel) :=
  if Nat.eqb fdCount 0 then win_send ch type payload else ret (false, ch).

(** The parsing of [recv]: the bytes [ReadFile] returned. *)
Definition parsePipe (buf : list Z) : option Message :=
  let read := Z.of_nat (length buf) in
  return_if read <? headerSize with None ;;
  let hdr := decode (T := MsgHeader) buf in
  return_if negb (hd_magic hdr =? kMagic) || (read <? headerSize + hd_payloadSize hdr) with None ;;
  Some (mkMessage (hd_type hdr)
          (take (Z.to_nat (hd_payloadSize hdr)) (drop (Z.to_nat headerSize) buf)) []).

Definition win_recv (ch : Channel) : M (option Message * Channel) :=
  return_if! negb (connected_ ch) with ret (None, ch) ;;
  let! buf := ask (fun t => w_readFile t (handle_ ch)) in
  match buf with
  | None => ret (None, set_connected ch false)
  | Some buf =>
    match parsePipe buf with
    | Some msg => ret (Some msg, ch)
    | None => ret (None, set_connected ch false)
    end
  end.

(** [sendFrame] of fl_metadata.hpp, the _WIN32 branch *)
Definition win_sendFrame (link : Channel) (frame : FrameReadyMsg) (metadata : flFrameMetadata)
  : M (bool * Channel) :=
  let '(type, data) := frameMessage frame metadata in win_send link type data.
End Methods.
