(* ===== verification/WinState.v ===== *)
(** * The channel object of the Windows backend (src/framelink_win.cpp)

    [struct flImage], [struct LeaseCompletion] and [struct flChannel], with one
    assignment per field; [info.adapterLUID] is a field of its own.  The member
    [peer] is never assigned by this backend - the accept thread keeps its link in
    a local - and [accept], [listenerReady] are the thread itself. *)
From S2P Require Import Prelude Api Kernel Wire Ipc.
From S2P Require Ledger BufferRefs.

(** [struct flImage]; [mapped] is [pData] and [RowPitch]. *)
Record flImage := mkImage {
  im_tex : Z;
  im_staging : Z;
  im_mapContext : Z;
  im_mapped : Z * Z;
  im_producer : bool;
  im_shared : Z;
}.

Definition newImage : flImage := mkImage 0 0 0 (0, 0) false 0.
Definition set_tex (i : flImage) (v : Z) : flImage :=
  mkImage v (im_staging i) (im_mapContext i) (im_mapped i) (im_producer i) (im_shared i).
Definition set_staging (i : flImage) (ctx v : Z) : flImage :=
  mkImage (im_tex i) v ctx (im_mapped i) (im_producer i) (im_shared i).
Definition set_mapped (i : flImage) (v : Z * Z) : flImage :=
  mkImage (im_tex i) (im_staging i) (im_mapContext i) v (im_producer i) (im_shared i).
Definition set_shared (i : flImage) (v : Z) : flImage :=
  mkImage (im_tex i) (im_staging i) (im_mapContext i) (im_mapped i) (im_producer i) v.

(** [struct LeaseCompletion] *)
Record LeaseCompletion := mkCompletion { lc_token : Z; lc_value : Z; lc_fence : Z }.
Definition noCompletion : LeaseCompletion := mkCompletion 0 0 0.

Definition zeroInfo : flChannelInfo := mkChannelInfo 0 0 0 0 0 0.

(** [struct flChannel] *)
Record flChannel := mkChannel {
  ch_isConsumer : bool;
  ch_externalPool : bool;
  ch_flags : Z;
  ch_peerFeatures : Z;
  ch_bufferReferences : BufferRefs.BufferReferences;
  ch_slotMetadata : list flFrameMetadata;
  ch_pendingMetadata : flFrameMetadata;
  ch_heldMetadata : flFrameMetadata;
  ch_name : list Z;
  ch_device : Z;
  ch_ctx : Z;
  ch_readyFence : Z;
  ch_consumedFence : Z;
  ch_readyShared : Z;
  ch_consumedShared : Z;
  ch_waitEvent : Z;
  ch_images : list (Z * flImage);
  ch_slotReadyValue : list Z;
  ch_submittingSlot : Z;
  ch_submittingValue : Z;
  ch_readyValue : Z;
  ch_consumedValue : Z;
  ch_info : flChannelInfo;
  ch_adapterLUID : list Z;
  ch_stop : bool;
  ch_peerGone : bool;
  ch_hasPending : bool;
  ch_readers : Ledger.ReadLedger;
  ch_leaseCompletions : list LeaseCompletion;
  ch_frameHeld : bool;
  ch_heldReady : Z;
  ch_heldSlot : Z;
  ch_pendingSlot : Z;
  ch_pendingReady : Z;
  ch_pendingPts : Z;
  ch_pendingArrival : Z;
  ch_heldArrival : Z;
  ch_sequence : Z;
  ch_link : Channel;
}.

(** [new flChannel()] *)
Definition newChannel : flChannel :=
  mkChannel false false 0 0 BufferRefs.emptyRefs (replicate FL_MAX_POOL_SIZE zeroMetadata)
    zeroMetadata zeroMetadata [] 0 0 0 0 0 0 0 [] [] UINT32_MAX 0 0 0 zeroInfo (replicate 8 0)
    false false false Ledger.emptyLedger (replicate Ledger.MaxReaders noCompletion) false 0 0 0 0
    (-1) 0 0 0 noChannel.

(** One assignment per field. *)
Definition set_isConsumer (c : flChannel) (v : bool) : flChannel :=
  mkChannel v (ch_externalPool c) (ch_flags c) (ch_peerFeatures c) (ch_bufferReferences c)
    (ch_slotMetadata c) (ch_pendingMetadata c) (ch_heldMetadata c) (ch_name c) (ch_device c)
    (ch_ctx c) (ch_readyFence c) (ch_consumedFence c) (ch_readyShared c) (ch_consumedShared c)
    (ch_waitEvent c) (ch_images c) (ch_slotReadyValue c) (ch_submittingSlot c) (ch_submittingValue
    c) (ch_readyValue c) (ch_consumedValue c) (ch_info c) (ch_adapterLUID c) (ch_stop c)
    (ch_peerGone c) (ch_hasPending c) (ch_readers c) (ch_leaseCompletions c) (ch_frameHeld c)
    (ch_heldReady c) (ch_heldSlot c) (ch_pendingSlot c) (ch_pendingReady c) (ch_pendingPts c)
    (ch_pendingArrival c) (ch_heldArrival c) (ch_sequence c) (ch_link c).
Definition set_externalPool (c : flChannel) (v : bool) : flChannel :=
  mkChannel (ch_isConsumer c) v (ch_flags c) (ch_peerFeatures c) (ch_bufferReferences c)
    (ch_slotMetadata c) (ch_pendingMetadata c) (ch_heldMetadata c) (ch_name c) (ch_device c)
    (ch_ctx c) (ch_readyFence c) (ch_consumedFence c) (ch_readyShared c) (ch_consumedShared c)
    (ch_waitEvent c) (ch_images c) (ch_slotReadyValue c) (ch_submittingSlot c) (ch_submittingValue
    c) (ch_readyValue c) (ch_consumedValue c) (ch_info c) (ch_adapterLUID c) (ch_stop c)
    (ch_peerGone c) (ch_hasPending c) (ch_readers c) (ch_leaseCompletions c) (ch_frameHeld c)
    (ch_heldReady c) (ch_heldSlot c) (ch_pendingSlot c) (ch_pendingReady c) (ch_pendingPts c)
    (ch_pendingArrival c) (ch_heldArrival c) (ch_sequence c) (ch_link c).
Definition set_flags (c : flChannel) (v : Z) : flChannel :=
  mkChannel (ch_isConsumer c) (ch_externalPool c) v (ch_peerFeatures c) (ch_bufferReferences c)
    (ch_slotMetadata c) (ch_pendingMetadata c) (ch_heldMetadata c) (ch_name c) (ch_device c)
    (ch_ctx c) (ch_readyFence c) (ch_consumedFence c) (ch_readyShared c) (ch_consumedShared c)
    (ch_waitEvent c) (ch_images c) (ch_slotReadyValue c) (ch_submittingSlot c) (ch_submittingValue
    c) (ch_readyValue c) (ch_consumedValue c) (ch_info c) (ch_adapterLUID c) (ch_stop c)
    (ch_peerGone c) (ch_hasPending c) (ch_readers c) (ch_leaseCompletions c) (ch_frameHeld c)
    (ch_heldReady c) (ch_heldSlot c) (ch_pendingSlot c) (ch_pendingReady c) (ch_pendingPts c)
    (ch_pendingArrival c) (ch_heldArrival c) (ch_sequence c) (ch_link c).
Definition set_peerFeatures (c : flChannel) (v : Z) : flChannel :=
  mkChannel (ch_isConsumer c) (ch_externalPool c) (ch_flags c) v (ch_bufferReferences c)
    (ch_slotMetadata c) (ch_pendingMetadata c) (ch_heldMetadata c) (ch_name c) (ch_device c)
    (ch_ctx c) (ch_readyFence c) (ch_consumedFence c) (ch_readyShared c) (ch_consumedShared c)
    (ch_waitEvent c) (ch_images c) (ch_slotReadyValue c) (ch_submittingSlot c) (ch_submittingValue
    c) (ch_readyValue c) (ch_consumedValue c) (ch_info c) (ch_adapterLUID c) (ch_stop c)
    (ch_peerGone c) (ch_hasPending c) (ch_readers c) (ch_leaseCompletions c) (ch_frameHeld c)
    (ch_heldReady c) (ch_heldSlot c) (ch_pendingSlot c) (ch_pendingReady c) (ch_pendingPts c)
    (ch_pendingArrival c) (ch_heldArrival c) (ch_sequence c) (ch_link c).
Definition set_bufferReferences (c : flChannel) (v : BufferRefs.BufferReferences) : flChannel :=
  mkChannel (ch_isConsumer c) (ch_externalPool c) (ch_flags c) (ch_peerFeatures c) v
    (ch_slotMetadata c) (ch_pendingMetadata c) (ch_heldMetadata c) (ch_name c) (ch_device c)
    (ch_ctx c) (ch_readyFence c) (ch_consumedFence c) (ch_readyShared c) (ch_consumedShared c)
    (ch_waitEvent c) (ch_images c) (ch_slotReadyValue c) (ch_submittingSlot c) (ch_submittingValue
    c) (ch_readyValue c) (ch_consumedValue c) (ch_info c) (ch_adapterLUID c) (ch_stop c)
    (ch_peerGone c) (ch_hasPending c) (ch_readers c) (ch_leaseCompletions c) (ch_frameHeld c)
    (ch_heldReady c) (ch_heldSlot c) (ch_pendingSlot c) (ch_pendingReady c) (ch_pendingPts c)
    (ch_pendingArrival c) (ch_heldArrival c) (ch_sequence c) (ch_link c).
Definition set_slotMetadata (c : flChannel) (v : list flFrameMetadata) : flChannel :=
  mkChannel (ch_isConsumer c) (ch_externalPool c) (ch_flags c) (ch_peerFeatures c)
    (ch_bufferReferences c) v (ch_pendingMetadata c) (ch_heldMetadata c) (ch_name c) (ch_device c)
    (ch_ctx c) (ch_readyFence c) (ch_consumedFence c) (ch_readyShared c) (ch_consumedShared c)
    (ch_waitEvent c) (ch_images c) (ch_slotReadyValue c) (ch_submittingSlot c) (ch_submittingValue
    c) (ch_readyValue c) (ch_consumedValue c) (ch_info c) (ch_adapterLUID c) (ch_stop c)
    (ch_peerGone c) (ch_hasPending c) (ch_readers c) (ch_leaseCompletions c) (ch_frameHeld c)
    (ch_heldReady c) (ch_heldSlot c) (ch_pendingSlot c) (ch_pendingReady c) (ch_pendingPts c)
    (ch_pendingArrival c) (ch_heldArrival c) (ch_sequence c) (ch_link c).
Definition set_pendingMetadata (c : flChannel) (v : flFrameMetadata) : flChannel :=
  mkChannel (ch_isConsumer c) (ch_externalPool c) (ch_flags c) (ch_peerFeatures c)
    (ch_bufferReferences c) (ch_slotMetadata c) v (ch_heldMetadata c) (ch_name c) (ch_device c)
    (ch_ctx c) (ch_readyFence c) (ch_consumedFence c) (ch_readyShared c) (ch_consumedShared c)
    (ch_waitEvent c) (ch_images c) (ch_slotReadyValue c) (ch_submittingSlot c) (ch_submittingValue
    c) (ch_readyValue c) (ch_consumedValue c) (ch_info c) (ch_adapterLUID c) (ch_stop c)
    (ch_peerGone c) (ch_hasPending c) (ch_readers c) (ch_leaseCompletions c) (ch_frameHeld c)
    (ch_heldReady c) (ch_heldSlot c) (ch_pendingSlot c) (ch_pendingReady c) (ch_pendingPts c)
    (ch_pendingArrival c) (ch_heldArrival c) (ch_sequence c) (ch_link c).
Definition set_heldMetadata (c : flChannel) (v : flFrameMetadata) : flChannel :=
  mkChannel (ch_isConsumer c) (ch_externalPool c) (ch_flags c) (ch_peerFeatures c)
    (ch_bufferReferences c) (ch_slotMetadata c) (ch_pendingMetadata c) v (ch_name c) (ch_device c)
    (ch_ctx c) (ch_readyFence c) (ch_consumedFence c) (ch_readyShared c) (ch_consumedShared c)
    (ch_waitEvent c) (ch_images c) (ch_slotReadyValue c) (ch_submittingSlot c) (ch_submittingValue
    c) (ch_readyValue c) (ch_consumedValue c) (ch_info c) (ch_adapterLUID c) (ch_stop c)
    (ch_peerGone c) (ch_hasPending c) (ch_readers c) (ch_leaseCompletions c) (ch_frameHeld c)
    (ch_heldReady c) (ch_heldSlot c) (ch_pendingSlot c) (ch_pendingReady c) (ch_pendingPts c)
    (ch_pendingArrival c) (ch_heldArrival c) (ch_sequence c) (ch_link c).
Definition set_name (c : flChannel) (v : list Z) : flChannel :=
  mkChannel (ch_isConsumer c) (ch_externalPool c) (ch_flags c) (ch_peerFeatures c)
    (ch_bufferReferences c) (ch_slotMetadata c) (ch_pendingMetadata c) (ch_heldMetadata c) v
    (ch_device c) (ch_ctx c) (ch_readyFence c) (ch_consumedFence c) (ch_readyShared c)
    (ch_consumedShared c) (ch_waitEvent c) (ch_images c) (ch_slotReadyValue c) (ch_submittingSlot
    c) (ch_submittingValue c) (ch_readyValue c) (ch_consumedValue c) (ch_info c) (ch_adapterLUID
    c) (ch_stop c) (ch_peerGone c) (ch_hasPending c) (ch_readers c) (ch_leaseCompletions c)
    (ch_frameHeld c) (ch_heldReady c) (ch_heldSlot c) (ch_pendingSlot c) (ch_pendingReady c)
    (ch_pendingPts c) (ch_pendingArrival c) (ch_heldArrival c) (ch_sequence c) (ch_link c).
Definition set_device (c : flChannel) (v : Z) : flChannel :=
  mkChannel (ch_isConsumer c) (ch_externalPool c) (ch_flags c) (ch_peerFeatures c)
    (ch_bufferReferences c) (ch_slotMetadata c) (ch_pendingMetadata c) (ch_heldMetadata c)
    (ch_name c) v (ch_ctx c) (ch_readyFence c) (ch_consumedFence c) (ch_readyShared c)
    (ch_consumedShared c) (ch_waitEvent c) (ch_images c) (ch_slotReadyValue c) (ch_submittingSlot
    c) (ch_submittingValue c) (ch_readyValue c) (ch_consumedValue c) (ch_info c) (ch_adapterLUID
    c) (ch_stop c) (ch_peerGone c) (ch_hasPending c) (ch_readers c) (ch_leaseCompletions c)
    (ch_frameHeld c) (ch_heldReady c) (ch_heldSlot c) (ch_pendingSlot c) (ch_pendingReady c)
    (ch_pendingPts c) (ch_pendingArrival c) (ch_heldArrival c) (ch_sequence c) (ch_link c).
Definition set_ctx (c : flChannel) (v : Z) : flChannel :=
  mkChannel (ch_isConsumer c) (ch_externalPool c) (ch_flags c) (ch_peerFeatures c)
    (ch_bufferReferences c) (ch_slotMetadata c) (ch_pendingMetadata c) (ch_heldMetadata c)
    (ch_name c) (ch_device c) v (ch_readyFence c) (ch_consumedFence c) (ch_readyShared c)
    (ch_consumedShared c) (ch_waitEvent c) (ch_images c) (ch_slotReadyValue c) (ch_submittingSlot
    c) (ch_submittingValue c) (ch_readyValue c) (ch_consumedValue c) (ch_info c) (ch_adapterLUID
    c) (ch_stop c) (ch_peerGone c) (ch_hasPending c) (ch_readers c) (ch_leaseCompletions c)
    (ch_frameHeld c) (ch_heldReady c) (ch_heldSlot c) (ch_pendingSlot c) (ch_pendingReady c)
    (ch_pendingPts c) (ch_pendingArrival c) (ch_heldArrival c) (ch_sequence c) (ch_link c).
Definition set_readyFence (c : flChannel) (v : Z) : flChannel :=
  mkChannel (ch_isConsumer c) (ch_externalPool c) (ch_flags c) (ch_peerFeatures c)
    (ch_bufferReferences c) (ch_slotMetadata c) (ch_pendingMetadata c) (ch_heldMetadata c)
    (ch_name c) (ch_device c) (ch_ctx c) v (ch_consumedFence c) (ch_readyShared c)
    (ch_consumedShared c) (ch_waitEvent c) (ch_images c) (ch_slotReadyValue c) (ch_submittingSlot
    c) (ch_submittingValue c) (ch_readyValue c) (ch_consumedValue c) (ch_info c) (ch_adapterLUID
    c) (ch_stop c) (ch_peerGone c) (ch_hasPending c) (ch_readers c) (ch_leaseCompletions c)
    (ch_frameHeld c) (ch_heldReady c) (ch_heldSlot c) (ch_pendingSlot c) (ch_pendingReady c)
    (ch_pendingPts c) (ch_pendingArrival c) (ch_heldArrival c) (ch_sequence c) (ch_link c).
Definition set_consumedFence (c : flChannel) (v : Z) : flChannel :=
  mkChannel (ch_isConsumer c) (ch_externalPool c) (ch_flags c) (ch_peerFeatures c)
    (ch_bufferReferences c) (ch_slotMetadata c) (ch_pendingMetadata c) (ch_heldMetadata c)
    (ch_name c) (ch_device c) (ch_ctx c) (ch_readyFence c) v (ch_readyShared c) (ch_consumedShared
    c) (ch_waitEvent c) (ch_images c) (ch_slotReadyValue c) (ch_submittingSlot c)
    (ch_submittingValue c) (ch_readyValue c) (ch_consumedValue c) (ch_info c) (ch_adapterLUID c)
    (ch_stop c) (ch_peerGone c) (ch_hasPending c) (ch_readers c) (ch_leaseCompletions c)
    (ch_frameHeld c) (ch_heldReady c) (ch_heldSlot c) (ch_pendingSlot c) (ch_pendingReady c)
    (ch_pendingPts c) (ch_pendingArrival c) (ch_heldArrival c) (ch_sequence c) (ch_link c).
Definition set_readyShared (c : flChannel) (v : Z) : flChannel :=
  mkChannel (ch_isConsumer c) (ch_externalPool c) (ch_flags c) (ch_peerFeatures c)
    (ch_bufferReferences c) (ch_slotMetadata c) (ch_pendingMetadata c) (ch_heldMetadata c)
    (ch_name c) (ch_device c) (ch_ctx c) (ch_readyFence c) (ch_consumedFence c) v
    (ch_consumedShared c) (ch_waitEvent c) (ch_images c) (ch_slotReadyValue c) (ch_submittingSlot
    c) (ch_submittingValue c) (ch_readyValue c) (ch_consumedValue c) (ch_info c) (ch_adapterLUID
    c) (ch_stop c) (ch_peerGone c) (ch_hasPending c) (ch_readers c) (ch_leaseCompletions c)
    (ch_frameHeld c) (ch_heldReady c) (ch_heldSlot c) (ch_pendingSlot c) (ch_pendingReady c)
    (ch_pendingPts c) (ch_pendingArrival c) (ch_heldArrival c) (ch_sequence c) (ch_link c).
Definition set_consumedShared (c : flChannel) (v : Z) : flChannel :=
  mkChannel (ch_isConsumer c) (ch_externalPool c) (ch_flags c) (ch_peerFeatures c)
    (ch_bufferReferences c) (ch_slotMetadata c) (ch_pendingMetadata c) (ch_heldMetadata c)
    (ch_name c) (ch_device c) (ch_ctx c) (ch_readyFence c) (ch_consumedFence c) (ch_readyShared c)
    v (ch_waitEvent c) (ch_images c) (ch_slotReadyValue c) (ch_submittingSlot c)
    (ch_submittingValue c) (ch_readyValue c) (ch_consumedValue c) (ch_info c) (ch_adapterLUID c)
    (ch_stop c) (ch_peerGone c) (ch_hasPending c) (ch_readers c) (ch_leaseCompletions c)
    (ch_frameHeld c) (ch_heldReady c) (ch_heldSlot c) (ch_pendingSlot c) (ch_pendingReady c)
    (ch_pendingPts c) (ch_pendingArrival c) (ch_heldArrival c) (ch_sequence c) (ch_link c).
Definition set_waitEvent (c : flChannel) (v : Z) : flChannel :=
  mkChannel (ch_isConsumer c) (ch_externalPool c) (ch_flags c) (ch_peerFeatures c)
    (ch_bufferReferences c) (ch_slotMetadata c) (ch_pendingMetadata c) (ch_heldMetadata c)
    (ch_name c) (ch_device c) (ch_ctx c) (ch_readyFence c) (ch_consumedFence c) (ch_readyShared c)
    (ch_consumedShared c) v (ch_images c) (ch_slotReadyValue c) (ch_submittingSlot c)
    (ch_submittingValue c) (ch_readyValue c) (ch_consumedValue c) (ch_info c) (ch_adapterLUID c)
    (ch_stop c) (ch_peerGone c) (ch_hasPending c) (ch_readers c) (ch_leaseCompletions c)
    (ch_frameHeld c) (ch_heldReady c) (ch_heldSlot c) (ch_pendingSlot c) (ch_pendingReady c)
    (ch_pendingPts c) (ch_pendingArrival c) (ch_heldArrival c) (ch_sequence c) (ch_link c).
Definition set_images (c : flChannel) (v : list (Z * flImage)) : flChannel :=
  mkChannel (ch_isConsumer c) (ch_externalPool c) (ch_flags c) (ch_peerFeatures c)
    (ch_bufferReferences c) (ch_slotMetadata c) (ch_pendingMetadata c) (ch_heldMetadata c)
    (ch_name c) (ch_device c) (ch_ctx c) (ch_readyFence c) (ch_consumedFence c) (ch_readyShared c)
    (ch_consumedShared c) (ch_waitEvent c) v (ch_slotReadyValue c) (ch_submittingSlot c)
    (ch_submittingValue c) (ch_readyValue c) (ch_consumedValue c) (ch_info c) (ch_adapterLUID c)
    (ch_stop c) (ch_peerGone c) (ch_hasPending c) (ch_readers c) (ch_leaseCompletions c)
    (ch_frameHeld c) (ch_heldReady c) (ch_heldSlot c) (ch_pendingSlot c) (ch_pendingReady c)
    (ch_pendingPts c) (ch_pendingArrival c) (ch_heldArrival c) (ch_sequence c) (ch_link c).
Definition set_slotReadyValue (c : flChannel) (v : list Z) : flChannel :=
  mkChannel (ch_isConsumer c) (ch_externalPool c) (ch_flags c) (ch_peerFeatures c)
    (ch_bufferReferences c) (ch_slotMetadata c) (ch_pendingMetadata c) (ch_heldMetadata c)
    (ch_name c) (ch_device c) (ch_ctx c) (ch_readyFence c) (ch_consumedFence c) (ch_readyShared c)
    (ch_consumedShared c) (ch_waitEvent c) (ch_images c) v (ch_submittingSlot c)
    (ch_submittingValue c) (ch_readyValue c) (ch_consumedValue c) (ch_info c) (ch_adapterLUID c)
    (ch_stop c) (ch_peerGone c) (ch_hasPending c) (ch_readers c) (ch_leaseCompletions c)
    (ch_frameHeld c) (ch_heldReady c) (ch_heldSlot c) (ch_pendingSlot c) (ch_pendingReady c)
    (ch_pendingPts c) (ch_pendingArrival c) (ch_heldArrival c) (ch_sequence c) (ch_link c).
Definition set_submittingSlot (c : flChannel) (v : Z) : flChannel :=
  mkChannel (ch_isConsumer c) (ch_externalPool c) (ch_flags c) (ch_peerFeatures c)
    (ch_bufferReferences c) (ch_slotMetadata c) (ch_pendingMetadata c) (ch_heldMetadata c)
    (ch_name c) (ch_device c) (ch_ctx c) (ch_readyFence c) (ch_consumedFence c) (ch_readyShared c)
    (ch_consumedShared c) (ch_waitEvent c) (ch_images c) (ch_slotReadyValue c) v
    (ch_submittingValue c) (ch_readyValue c) (ch_consumedValue c) (ch_info c) (ch_adapterLUID c)
    (ch_stop c) (ch_peerGone c) (ch_hasPending c) (ch_readers c) (ch_leaseCompletions c)
    (ch_frameHeld c) (ch_heldReady c) (ch_heldSlot c) (ch_pendingSlot c) (ch_pendingReady c)
    (ch_pendingPts c) (ch_pendingArrival c) (ch_heldArrival c) (ch_sequence c) (ch_link c).
Definition set_submittingValue (c : flChannel) (v : Z) : flChannel :=
  mkChannel (ch_isConsumer c) (ch_externalPool c) (ch_flags c) (ch_peerFeatures c)
    (ch_bufferReferences c) (ch_slotMetadata c) (ch_pendingMetadata c) (ch_heldMetadata c)
    (ch_name c) (ch_device c) (ch_ctx c) (ch_readyFence c) (ch_consumedFence c) (ch_readyShared c)
    (ch_consumedShared c) (ch_waitEvent c) (ch_images c) (ch_slotReadyValue c) (ch_submittingSlot
    c) v (ch_readyValue c) (ch_consumedValue c) (ch_info c) (ch_adapterLUID c) (ch_stop c)
    (ch_peerGone c) (ch_hasPending c) (ch_readers c) (ch_leaseCompletions c) (ch_frameHeld c)
    (ch_heldReady c) (ch_heldSlot c) (ch_pendingSlot c) (ch_pendingReady c) (ch_pendingPts c)
    (ch_pendingArrival c) (ch_heldArrival c) (ch_sequence c) (ch_link c).
Definition set_readyValue (c : flChannel) (v : Z) : flChannel :=
  mkChannel (ch_isConsumer c) (ch_externalPool c) (ch_flags c) (ch_peerFeatures c)
    (ch_bufferReferences c) (ch_slotMetadata c) (ch_pendingMetadata c) (ch_heldMetadata c)
    (ch_name c) (ch_device c) (ch_ctx c) (ch_readyFence c) (ch_consumedFence c) (ch_readyShared c)
    (ch_consumedShared c) (ch_waitEvent c) (ch_images c) (ch_slotReadyValue c) (ch_submittingSlot
    c) (ch_submittingValue c) v (ch_consumedValue c) (ch_info c) (ch_adapterLUID c) (ch_stop c)
    (ch_peerGone c) (ch_hasPending c) (ch_readers c) (ch_leaseCompletions c) (ch_frameHeld c)
    (ch_heldReady c) (ch_heldSlot c) (ch_pendingSlot c) (ch_pendingReady c) (ch_pendingPts c)
    (ch_pendingArrival c) (ch_heldArrival c) (ch_sequence c) (ch_link c).
Definition set_consumedValue (c : flChannel) (v : Z) : flChannel :=
  mkChannel (ch_isConsumer c) (ch_externalPool c) (ch_flags c) (ch_peerFeatures c)
    (ch_bufferReferences c) (ch_slotMetadata c) (ch_pendingMetadata c) (ch_heldMetadata c)
    (ch_name c) (ch_device c) (ch_ctx c) (ch_readyFence c) (ch_consumedFence c) (ch_readyShared c)
    (ch_consumedShared c) (ch_waitEvent c) (ch_images c) (ch_slotReadyValue c) (ch_submittingSlot
    c) (ch_submittingValue c) (ch_readyValue c) v (ch_info c) (ch_adapterLUID c) (ch_stop c)
    (ch_peerGone c) (ch_hasPending c) (ch_readers c) (ch_leaseCompletions c) (ch_frameHeld c)
    (ch_heldReady c) (ch_heldSlot c) (ch_pendingSlot c) (ch_pendingReady c) (ch_pendingPts c)
    (ch_pendingArrival c) (ch_heldArrival c) (ch_sequence c) (ch_link c).
Definition set_info (c : flChannel) (v : flChannelInfo) : flChannel :=
  mkChannel (ch_isConsumer c) (ch_externalPool c) (ch_flags c) (ch_peerFeatures c)
    (ch_bufferReferences c) (ch_slotMetadata c) (ch_pendingMetadata c) (ch_heldMetadata c)
    (ch_name c) (ch_device c) (ch_ctx c) (ch_readyFence c) (ch_consumedFence c) (ch_readyShared c)
    (ch_consumedShared c) (ch_waitEvent c) (ch_images c) (ch_slotReadyValue c) (ch_submittingSlot
    c) (ch_submittingValue c) (ch_readyValue c) (ch_consumedValue c) v (ch_adapterLUID c) (ch_stop
    c) (ch_peerGone c) (ch_hasPending c) (ch_readers c) (ch_leaseCompletions c) (ch_frameHeld c)
    (ch_heldReady c) (ch_heldSlot c) (ch_pendingSlot c) (ch_pendingReady c) (ch_pendingPts c)
    (ch_pendingArrival c) (ch_heldArrival c) (ch_sequence c) (ch_link c).
Definition set_adapterLUID (c : flChannel) (v : list Z) : flChannel :=
  mkChannel (ch_isConsumer c) (ch_externalPool c) (ch_flags c) (ch_peerFeatures c)
    (ch_bufferReferences c) (ch_slotMetadata c) (ch_pendingMetadata c) (ch_heldMetadata c)
    (ch_name c) (ch_device c) (ch_ctx c) (ch_readyFence c) (ch_consumedFence c) (ch_readyShared c)
    (ch_consumedShared c) (ch_waitEvent c) (ch_images c) (ch_slotReadyValue c) (ch_submittingSlot
    c) (ch_submittingValue c) (ch_readyValue c) (ch_consumedValue c) (ch_info c) v (ch_stop c)
    (ch_peerGone c) (ch_hasPending c) (ch_readers c) (ch_leaseCompletions c) (ch_frameHeld c)
    (ch_heldReady c) (ch_heldSlot c) (ch_pendingSlot c) (ch_pendingReady c) (ch_pendingPts c)
    (ch_pendingArrival c) (ch_heldArrival c) (ch_sequence c) (ch_link c).
Definition set_stop (c : flChannel) (v : bool) : flChannel :=
  mkChannel (ch_isConsumer c) (ch_externalPool c) (ch_flags c) (ch_peerFeatures c)
    (ch_bufferReferences c) (ch_slotMetadata c) (ch_pendingMetadata c) (ch_heldMetadata c)
    (ch_name c) (ch_device c) (ch_ctx c) (ch_readyFence c) (ch_consumedFence c) (ch_readyShared c)
    (ch_consumedShared c) (ch_waitEvent c) (ch_images c) (ch_slotReadyValue c) (ch_submittingSlot
    c) (ch_submittingValue c) (ch_readyValue c) (ch_consumedValue c) (ch_info c) (ch_adapterLUID
    c) v (ch_peerGone c) (ch_hasPending c) (ch_readers c) (ch_leaseCompletions c) (ch_frameHeld c)
    (ch_heldReady c) (ch_heldSlot c) (ch_pendingSlot c) (ch_pendingReady c) (ch_pendingPts c)
    (ch_pendingArrival c) (ch_heldArrival c) (ch_sequence c) (ch_link c).
Definition set_peerGone (c : flChannel) (v : bool) : flChannel :=
  mkChannel (ch_isConsumer c) (ch_externalPool c) (ch_flags c) (ch_peerFeatures c)
    (ch_bufferReferences c) (ch_slotMetadata c) (ch_pendingMetadata c) (ch_heldMetadata c)
    (ch_name c) (ch_device c) (ch_ctx c) (ch_readyFence c) (ch_consumedFence c) (ch_readyShared c)
    (ch_consumedShared c) (ch_waitEvent c) (ch_images c) (ch_slotReadyValue c) (ch_submittingSlot
    c) (ch_submittingValue c) (ch_readyValue c) (ch_consumedValue c) (ch_info c) (ch_adapterLUID
    c) (ch_stop c) v (ch_hasPending c) (ch_readers c) (ch_leaseCompletions c) (ch_frameHeld c)
    (ch_heldReady c) (ch_heldSlot c) (ch_pendingSlot c) (ch_pendingReady c) (ch_pendingPts c)
    (ch_pendingArrival c) (ch_heldArrival c) (ch_sequence c) (ch_link c).
Definition set_hasPending (c : flChannel) (v : bool) : flChannel :=
  mkChannel (ch_isConsumer c) (ch_externalPool c) (ch_flags c) (ch_peerFeatures c)
    (ch_bufferReferences c) (ch_slotMetadata c) (ch_pendingMetadata c) (ch_heldMetadata c)
    (ch_name c) (ch_device c) (ch_ctx c) (ch_readyFence c) (ch_consumedFence c) (ch_readyShared c)
    (ch_consumedShared c) (ch_waitEvent c) (ch_images c) (ch_slotReadyValue c) (ch_submittingSlot
    c) (ch_submittingValue c) (ch_readyValue c) (ch_consumedValue c) (ch_info c) (ch_adapterLUID
    c) (ch_stop c) (ch_peerGone c) v (ch_readers c) (ch_leaseCompletions c) (ch_frameHeld c)
    (ch_heldReady c) (ch_heldSlot c) (ch_pendingSlot c) (ch_pendingReady c) (ch_pendingPts c)
    (ch_pendingArrival c) (ch_heldArrival c) (ch_sequence c) (ch_link c).
Definition set_readers (c : flChannel) (v : Ledger.ReadLedger) : flChannel :=
  mkChannel (ch_isConsumer c) (ch_externalPool c) (ch_flags c) (ch_peerFeatures c)
    (ch_bufferReferences c) (ch_slotMetadata c) (ch_pendingMetadata c) (ch_heldMetadata c)
    (ch_name c) (ch_device c) (ch_ctx c) (ch_readyFence c) (ch_consumedFence c) (ch_readyShared c)
    (ch_consumedShared c) (ch_waitEvent c) (ch_images c) (ch_slotReadyValue c) (ch_submittingSlot
    c) (ch_submittingValue c) (ch_readyValue c) (ch_consumedValue c) (ch_info c) (ch_adapterLUID
    c) (ch_stop c) (ch_peerGone c) (ch_hasPending c) v (ch_leaseCompletions c) (ch_frameHeld c)
    (ch_heldReady c) (ch_heldSlot c) (ch_pendingSlot c) (ch_pendingReady c) (ch_pendingPts c)
    (ch_pendingArrival c) (ch_heldArrival c) (ch_sequence c) (ch_link c).
Definition set_leaseCompletions (c : flChannel) (v : list LeaseCompletion) : flChannel :=
  mkChannel (ch_isConsumer c) (ch_externalPool c) (ch_flags c) (ch_peerFeatures c)
    (ch_bufferReferences c) (ch_slotMetadata c) (ch_pendingMetadata c) (ch_heldMetadata c)
    (ch_name c) (ch_device c) (ch_ctx c) (ch_readyFence c) (ch_consumedFence c) (ch_readyShared c)
    (ch_consumedShared c) (ch_waitEvent c) (ch_images c) (ch_slotReadyValue c) (ch_submittingSlot
    c) (ch_submittingValue c) (ch_readyValue c) (ch_consumedValue c) (ch_info c) (ch_adapterLUID
    c) (ch_stop c) (ch_peerGone c) (ch_hasPending c) (ch_readers c) v (ch_frameHeld c)
    (ch_heldReady c) (ch_heldSlot c) (ch_pendingSlot c) (ch_pendingReady c) (ch_pendingPts c)
    (ch_pendingArrival c) (ch_heldArrival c) (ch_sequence c) (ch_link c).
Definition set_frameHeld (c : flChannel) (v : bool) : flChannel :=
  mkChannel (ch_isConsumer c) (ch_externalPool c) (ch_flags c) (ch_peerFeatures c)
    (ch_bufferReferences c) (ch_slotMetadata c) (ch_pendingMetadata c) (ch_heldMetadata c)
    (ch_name c) (ch_device c) (ch_ctx c) (ch_readyFence c) (ch_consumedFence c) (ch_readyShared c)
    (ch_consumedShared c) (ch_waitEvent c) (ch_images c) (ch_slotReadyValue c) (ch_submittingSlot
    c) (ch_submittingValue c) (ch_readyValue c) (ch_consumedValue c) (ch_info c) (ch_adapterLUID
    c) (ch_stop c) (ch_peerGone c) (ch_hasPending c) (ch_readers c) (ch_leaseCompletions c) v
    (ch_heldReady c) (ch_heldSlot c) (ch_pendingSlot c) (ch_pendingReady c) (ch_pendingPts c)
    (ch_pendingArrival c) (ch_heldArrival c) (ch_sequence c) (ch_link c).
Definition set_heldReady (c : flChannel) (v : Z) : flChannel :=
  mkChannel (ch_isConsumer c) (ch_externalPool c) (ch_flags c) (ch_peerFeatures c)
    (ch_bufferReferences c) (ch_slotMetadata c) (ch_pendingMetadata c) (ch_heldMetadata c)
    (ch_name c) (ch_device c) (ch_ctx c) (ch_readyFence c) (ch_consumedFence c) (ch_readyShared c)
    (ch_consumedShared c) (ch_waitEvent c) (ch_images c) (ch_slotReadyValue c) (ch_submittingSlot
    c) (ch_submittingValue c) (ch_readyValue c) (ch_consumedValue c) (ch_info c) (ch_adapterLUID
    c) (ch_stop c) (ch_peerGone c) (ch_hasPending c) (ch_readers c) (ch_leaseCompletions c)
    (ch_frameHeld c) v (ch_heldSlot c) (ch_pendingSlot c) (ch_pendingReady c) (ch_pendingPts c)
    (ch_pendingArrival c) (ch_heldArrival c) (ch_sequence c) (ch_link c).
Definition set_heldSlot (c : flChannel) (v : Z) : flChannel :=
  mkChannel (ch_isConsumer c) (ch_externalPool c) (ch_flags c) (ch_peerFeatures c)
    (ch_bufferReferences c) (ch_slotMetadata c) (ch_pendingMetadata c) (ch_heldMetadata c)
    (ch_name c) (ch_device c) (ch_ctx c) (ch_readyFence c) (ch_consumedFence c) (ch_readyShared c)
    (ch_consumedShared c) (ch_waitEvent c) (ch_images c) (ch_slotReadyValue c) (ch_submittingSlot
    c) (ch_submittingValue c) (ch_readyValue c) (ch_consumedValue c) (ch_info c) (ch_adapterLUID
    c) (ch_stop c) (ch_peerGone c) (ch_hasPending c) (ch_readers c) (ch_leaseCompletions c)
    (ch_frameHeld c) (ch_heldReady c) v (ch_pendingSlot c) (ch_pendingReady c) (ch_pendingPts c)
    (ch_pendingArrival c) (ch_heldArrival c) (ch_sequence c) (ch_link c).
Definition set_pendingSlot (c : flChannel) (v : Z) : flChannel :=
  mkChannel (ch_isConsumer c) (ch_externalPool c) (ch_flags c) (ch_peerFeatures c)
    (ch_bufferReferences c) (ch_slotMetadata c) (ch_pendingMetadata c) (ch_heldMetadata c)
    (ch_name c) (ch_device c) (ch_ctx c) (ch_readyFence c) (ch_consumedFence c) (ch_readyShared c)
    (ch_consumedShared c) (ch_waitEvent c) (ch_images c) (ch_slotReadyValue c) (ch_submittingSlot
    c) (ch_submittingValue c) (ch_readyValue c) (ch_consumedValue c) (ch_info c) (ch_adapterLUID
    c) (ch_stop c) (ch_peerGone c) (ch_hasPending c) (ch_readers c) (ch_leaseCompletions c)
    (ch_frameHeld c) (ch_heldReady c) (ch_heldSlot c) v (ch_pendingReady c) (ch_pendingPts c)
    (ch_pendingArrival c) (ch_heldArrival c) (ch_sequence c) (ch_link c).
Definition set_pendingReady (c : flChannel) (v : Z) : flChannel :=
  mkChannel (ch_isConsumer c) (ch_externalPool c) (ch_flags c) (ch_peerFeatures c)
    (ch_bufferReferences c) (ch_slotMetadata c) (ch_pendingMetadata c) (ch_heldMetadata c)
    (ch_name c) (ch_device c) (ch_ctx c) (ch_readyFence c) (ch_consumedFence c) (ch_readyShared c)
    (ch_consumedShared c) (ch_waitEvent c) (ch_images c) (ch_slotReadyValue c) (ch_submittingSlot
    c) (ch_submittingValue c) (ch_readyValue c) (ch_consumedValue c) (ch_info c) (ch_adapterLUID
    c) (ch_stop c) (ch_peerGone c) (ch_hasPending c) (ch_readers c) (ch_leaseCompletions c)
    (ch_frameHeld c) (ch_heldReady c) (ch_heldSlot c) (ch_pendingSlot c) v (ch_pendingPts c)
    (ch_pendingArrival c) (ch_heldArrival c) (ch_sequence c) (ch_link c).
Definition set_pendingPts (c : flChannel) (v : Z) : flChannel :=
  mkChannel (ch_isConsumer c) (ch_externalPool c) (ch_flags c) (ch_peerFeatures c)
    (ch_bufferReferences c) (ch_slotMetadata c) (ch_pendingMetadata c) (ch_heldMetadata c)
    (ch_name c) (ch_device c) (ch_ctx c) (ch_readyFence c) (ch_consumedFence c) (ch_readyShared c)
    (ch_consumedShared c) (ch_waitEvent c) (ch_images c) (ch_slotReadyValue c) (ch_submittingSlot
    c) (ch_submittingValue c) (ch_readyValue c) (ch_consumedValue c) (ch_info c) (ch_adapterLUID
    c) (ch_stop c) (ch_peerGone c) (ch_hasPending c) (ch_readers c) (ch_leaseCompletions c)
    (ch_frameHeld c) (ch_heldReady c) (ch_heldSlot c) (ch_pendingSlot c) (ch_pendingReady c) v
    (ch_pendingArrival c) (ch_heldArrival c) (ch_sequence c) (ch_link c).
Definition set_pendingArrival (c : flChannel) (v : Z) : flChannel :=
  mkChannel (ch_isConsumer c) (ch_externalPool c) (ch_flags c) (ch_peerFeatures c)
    (ch_bufferReferences c) (ch_slotMetadata c) (ch_pendingMetadata c) (ch_heldMetadata c)
    (ch_name c) (ch_device c) (ch_ctx c) (ch_readyFence c) (ch_consumedFence c) (ch_readyShared c)
    (ch_consumedShared c) (ch_waitEvent c) (ch_images c) (ch_slotReadyValue c) (ch_submittingSlot
    c) (ch_submittingValue c) (ch_readyValue c) (ch_consumedValue c) (ch_info c) (ch_adapterLUID
    c) (ch_stop c) (ch_peerGone c) (ch_hasPending c) (ch_readers c) (ch_leaseCompletions c)
    (ch_frameHeld c) (ch_heldReady c) (ch_heldSlot c) (ch_pendingSlot c) (ch_pendingReady c)
    (ch_pendingPts c) v (ch_heldArrival c) (ch_sequence c) (ch_link c).
Definition set_heldArrival (c : flChannel) (v : Z) : flChannel :=
  mkChannel (ch_isConsumer c) (ch_externalPool c) (ch_flags c) (ch_peerFeatures c)
    (ch_bufferReferences c) (ch_slotMetadata c) (ch_pendingMetadata c) (ch_heldMetadata c)
    (ch_name c) (ch_device c) (ch_ctx c) (ch_readyFence c) (ch_consumedFence c) (ch_readyShared c)
    (ch_consumedShared c) (ch_waitEvent c) (ch_images c) (ch_slotReadyValue c) (ch_submittingSlot
    c) (ch_submittingValue c) (ch_readyValue c) (ch_consumedValue c) (ch_info c) (ch_adapterLUID
    c) (ch_stop c) (ch_peerGone c) (ch_hasPending c) (ch_readers c) (ch_leaseCompletions c)
    (ch_frameHeld c) (ch_heldReady c) (ch_heldSlot c) (ch_pendingSlot c) (ch_pendingReady c)
    (ch_pendingPts c) (ch_pendingArrival c) v (ch_sequence c) (ch_link c).
Definition set_sequence (c : flChannel) (v : Z) : flChannel :=
  mkChannel (ch_isConsumer c) (ch_externalPool c) (ch_flags c) (ch_peerFeatures c)
    (ch_bufferReferences c) (ch_slotMetadata c) (ch_pendingMetadata c) (ch_heldMetadata c)
    (ch_name c) (ch_device c) (ch_ctx c) (ch_readyFence c) (ch_consumedFence c) (ch_readyShared c)
    (ch_consumedShared c) (ch_waitEvent c) (ch_images c) (ch_slotReadyValue c) (ch_submittingSlot
    c) (ch_submittingValue c) (ch_readyValue c) (ch_consumedValue c) (ch_info c) (ch_adapterLUID
    c) (ch_stop c) (ch_peerGone c) (ch_hasPending c) (ch_readers c) (ch_leaseCompletions c)
    (ch_frameHeld c) (ch_heldReady c) (ch_heldSlot c) (ch_pendingSlot c) (ch_pendingReady c)
    (ch_pendingPts c) (ch_pendingArrival c) (ch_heldArrival c) v (ch_link c).
Definition set_link (c : flChannel) (v : Channel) : flChannel :=
  mkChannel (ch_isConsumer c) (ch_externalPool c) (ch_flags c) (ch_peerFeatures c)
    (ch_bufferReferences c) (ch_slotMetadata c) (ch_pendingMetadata c) (ch_heldMetadata c)
    (ch_name c) (ch_device c) (ch_ctx c) (ch_readyFence c) (ch_consumedFence c) (ch_readyShared c)
    (ch_consumedShared c) (ch_waitEvent c) (ch_images c) (ch_slotReadyValue c) (ch_submittingSlot
    c) (ch_submittingValue c) (ch_readyValue c) (ch_consumedValue c) (ch_info c) (ch_adapterLUID
    c) (ch_stop c) (ch_peerGone c) (ch_hasPending c) (ch_readers c) (ch_leaseCompletions c)
    (ch_frameHeld c) (ch_heldReady c) (ch_heldSlot c) (ch_pendingSlot c) (ch_pendingReady c)
    (ch_pendingPts c) (ch_pendingArrival c) (ch_heldArrival c) (ch_sequence c) v.

(** [++ch->info.generation] and the size assignments *)
Definition bump_generation (c : flChannel) : flChannel :=
  let i := ch_info c in
  set_info c (mkChannelInfo (info_version i) (info_width i) (info_height i) (info_format i)
    (info_poolSize i) (wrap64 (info_generation i + 1))).
Definition set_size (c : flChannel) (w h : Z) : flChannel :=
  let i := ch_info c in
  set_info c (mkChannelInfo (info_version i) w h (info_format i) (info_poolSize i)
    (info_generation i)).

(** Indexing by slot. *)
Definition imageCount (c : flChannel) : Z := Z.of_nat (length (ch_images c)).
Definition imageAddr (c : flChannel) (slot : Z) : Z := (nth (Z.to_nat slot) (ch_images c) (0,
    newImage)).1.
Definition readyAt (c : flChannel) (slot : Z) : Z := nth (Z.to_nat slot) (ch_slotReadyValue c) 0.
Definition set_readyAt (c : flChannel) (slot v : Z) : flChannel :=
  set_slotReadyValue c (<[Z.to_nat slot := v]> (ch_slotReadyValue c)).
Definition metadataAt (c : flChannel) (slot : Z) : flFrameMetadata :=
  nth (Z.to_nat slot) (ch_slotMetadata c) zeroMetadata.
Definition set_metadataAt (c : flChannel) (slot : Z) (v : flFrameMetadata) : flChannel :=
  set_slotMetadata c (<[Z.to_nat slot := v]> (ch_slotMetadata c)).

