(* ===== verification/WinImage.v ===== *)
(** * Images of the Windows backend (src/framelink_win.cpp)

    CPU access goes through a staging texture: mapping copies the image into it
    and maps it, unmapping copies a producer's writes back.  The COM calls that
    only fetch an interface of a live object are taken to succeed where the code
    does not test them. *)
From S2P Require Import Prelude Api Kernel Windows Wire WinState.

(** [D3D11_TEXTURE2D_DESC td] of [allocateRing], and its format. *)
Definition dxgiFormat (format : Z) : Z :=
  if format =? FL_FORMAT_NV12 then DXGI_FORMAT_NV12
  else if format =? FL_FORMAT_RGBA8 then DXGI_FORMAT_R8G8B8A8_UNORM
  else if format =? FL_FORMAT_RGB10A2 then DXGI_FORMAT_R10G10B10A2_UNORM
  else DXGI_FORMAT_B8G8R8A8_UNORM.

Definition ringDesc (w h format : Z) : TextureDesc :=
  mkDesc w h 1 1 (dxgiFormat format) 1 D3D11_USAGE_DEFAULT
    (Z.lor D3D11_BIND_RENDER_TARGET D3D11_BIND_SHADER_RESOURCE) 0
    (Z.lor D3D11_RESOURCE_MISC_SHARED D3D11_RESOURCE_MISC_SHARED_NTHANDLE).

Section Images.
Context `{W : Windows}.

(** [~flImage()] *)
Definition destroyImage (img : flImage) : M unit :=
  if truthy (im_mapped img).1 && truthy (im_mapContext img) && truthy (im_staging img)
  then effect (EUnmapTexture (im_staging img)) else ret tt.

(** [if (img->shared) CloseHandle(img->shared); delete img;] *)
Definition closeImage (img : Z * flImage) : M unit :=
  closeHandle_valid (im_shared img.2) ;; destroyImage img.2 ;; effect (EFree img.1).

(** The staging texture, created on first use. *)
Definition ensureStaging (img : flImage) : M (bool * flImage) :=
  if truthy (im_staging img) then ret (true, img)
  else
    let d := w_desc (im_tex img) in
    let staging := mkDesc (td_Width d) (td_Height d) (td_MipLevels d) (td_ArraySize d) (td_Format d)
      (td_SampleCount d) D3D11_USAGE_STAGING 0 (Z.lor D3D11_CPU_ACCESS_READ D3D11_CPU_ACCESS_WRITE) 0 in
    let! ctx := ask (fun t => w_immediateContext t (im_tex img)) in
    let! tex := ask (fun t => w_createTexture t staging) in
    ret (truthy tex, set_staging img ctx tex).

(** The view of a mapped image. *)
Definition mappedView (img : flImage) : flMappedImage :=
  let d := w_desc (im_tex img) in
  let nv12 := td_Format d =? DXGI_FORMAT_NV12 in
  let '(pData, pitch) := im_mapped img in
  let luma := mkPlane pData pitch (wrap32 (td_Width d * (if nv12 then 1 else 4))) (td_Height d) in
  if nv12
  then mkMapped 2 [luma; mkPlane (pData + pitch * td_Height d) pitch (td_Width d) (td_Height d / 2);
                   zeroPlane; zeroPlane]
  else mkMapped 1 [luma; zeroPlane; zeroPlane; zeroPlane].

Definition flImageMapPlanes (img : flImage) : M (flResult * flMappedImage * flImage) :=
  return_if! truthy (im_mapped img).1 with ret (FL_OK, mappedView img, img) ;;
  let! (staged, img) := ensureStaging img in
  return_if! negb staged with ret (FL_FORMAT_UNSUPPORTED, zeroMapped, img) ;;
  effect (ECopy (im_staging img) (im_tex img)) ;;
  let! mapped := ask (fun t => w_map t (im_staging img)) in
  match mapped with
  | None => ret (FL_INTERNAL, zeroMapped, img)
  | Some mapped =>
    effect (EMapTexture (im_staging img)) ;;
    let img := set_mapped img mapped in ret (FL_OK, mappedView img, img)
  end.

(** The result, [*pixels], [*stride], the image. *)
Definition flImageMap (img : flImage) (pixels stride : Z) : M (flResult * Z * Z * flImage) :=
  return_if! td_Format (w_desc (im_tex img)) =? DXGI_FORMAT_NV12
    with ret (FL_FORMAT_UNSUPPORTED, pixels, stride, img) ;;
  let! (r, view, img) := flImageMapPlanes img in
  let plane := nth 0 (mi_plane view) zeroPlane in
  ret (if bool_decide (r = FL_OK) then (r, mp_pixels plane, mp_stride plane, img)
       else (r, pixels, stride, img)).

Definition flImageUnmap (img : flImage) : M flImage :=
  return_if! negb (truthy (im_mapped img).1) with ret img ;;
  effect (EUnmapTexture (im_staging img)) ;;
  let img := set_mapped img (0, 0) in
  (if im_producer img then effect (ECopy (im_tex img) (im_staging img)) else ret tt) ;;
  ret img.

(** Accessors *)
Definition flImageD3D11 (img : flImage) : Z := im_tex img.
Definition flImageSharedHandle (img : flImage) : Z := im_shared img.
Definition flChannelD3D11Device (c : flChannel) : Z := ch_device c.
End Images.
