(* ===== verification/WinRing.v ===== *)
(** * Devices, rings and fences of the Windows backend (src/framelink_win.cpp)

    The device, the allocation of the ring, the adoption of external textures,
    the fence pair and the hand-over to a producer process. *)
From S2P Require Import Prelude Api Kernel Windows Wire Ipc WinIpc WinState WinImage.
From S2P Require Ledger.

Section Ring.
Context `{W : Windows}.
Implicit Types (c : flChannel).

Definition new_image : M Z := ask w_new.

(** [createDevice(luid, luidValid)]; 0 is null. *)
Definition createDevice (luid : list Z) (luidValid : bool) : M Z :=
  let! factory := ask w_adapters in
  match factory with
  | None => ret 0
  | Some adapters =>
    let pick := List.find (fun a => negb luidValid || bool_decide (a.2 = luid)) adapters in
    ask (fun t => w_createDevice t (match pick with Some a => a.1 | None => 0 end))
  end.

Definition finishDeviceSetup c : M (bool * flChannel) :=
  let! ctx := ask (fun t => w_context4 t (ch_device c)) in
  let c := set_ctx c ctx in
  return_if! negb (truthy ctx) with ret (false, c) ;;
  let! e := handle_created (ask w_createEvent) in
  ret (truthy e, set_waitEvent c e).

(** One slot of [allocateRing]; [inr] is [return false]. *)
Definition allocateOne (w h : Z) (_ : nat) c : M (flChannel + flChannel) :=
  let! a := new_image in
  let! tex := ask (fun t => w_createTexture t (ringDesc w h (info_format (ch_info c)))) in
  return_if! negb (truthy tex) with (effect (EFree a) ;; ret (inr c)) ;;
  let! shared := handle_created (ask (fun t => w_shareTexture t tex)) in
  return_if! negb (truthy shared) with (effect (EFree a) ;; ret (inr c)) ;;
  let img := set_shared (set_tex newImage tex) shared in
  ret (inl (set_slotReadyValue (set_images c (ch_images c ++ [(a, img)])) (ch_slotReadyValue c ++ [0]))).

Definition allocateRing c (w h : Z) (poolSize : nat) : M (bool * flChannel) :=
  let! dev5 := ask (fun t => w_device5 t (ch_device c)) in
  return_if! negb dev5 with ret (false, c) ;;
  let! r := mloop (seq 0 poolSize) (allocateOne w h) c in
  ret (match r with inl c => (true, c) | inr c => (false, c) end).

(** The format and size test of [adoptRing]. *)
Definition adoptable c (d : TextureDesc) : bool :=
  (td_Width d =? info_width (ch_info c)) && (td_Height d =? info_height (ch_info c))
  && (td_Format d =? dxgiFormat (info_format (ch_info c)))
  && (td_ArraySize d =? 1) && (td_MipLevels d =? 1) && (td_SampleCount d =? 1)
  && has_flag (td_MiscFlags d) D3D11_RESOURCE_MISC_SHARED_NTHANDLE
  && (negb (has_flag (ch_flags c) FL_GPU_RENDER) || has_flag (td_BindFlags d) D3D11_BIND_RENDER_TARGET).

(** One slot of [adoptRing]; [inr] is its failing return. *)
Definition adoptOne (compare : Z -> Z -> bool) (handles : list Z) (i : nat) c
  : M (flChannel + flResult * flChannel) :=
  let h := nth i handles 0 in
  return_if! negb (truthy h) || (h =? INVALID_HANDLE_VALUE) with ret (inr (FL_INVALID, c)) ;;
  return_if! existsb (fun j => compare h (nth j handles 0)) (seq 0 i) with ret (inr (FL_INVALID, c)) ;;
  let! a := new_image in
  let push img c := set_images c (ch_images c ++ [(a, img)]) in
  let! shared := handle_created (ask (fun t => w_duplicate t h)) in
  return_if! negb (truthy shared) with ret (inr (FL_INVALID, push newImage c)) ;;
  let img := set_shared newImage shared in
  let! tex := ask (fun t => w_openTexture t shared) in
  return_if! negb (truthy tex) with ret (inr (FL_ADAPTER_MISMATCH, push img c)) ;;
  let c := push (set_tex img tex) c in
  return_if! negb (adoptable c (w_desc tex)) with ret (inr (FL_FORMAT_UNSUPPORTED, c)) ;;
  ret (inl (set_slotReadyValue c (ch_slotReadyValue c ++ [0]))).

Definition adoptRing c (handles : list Z) (count : nat) : M (flResult * flChannel) :=
  match w_compareHandles with
  | None => ret (FL_FORMAT_UNSUPPORTED, c)
  | Some compare =>
    let! dev1 := ask (fun t => w_device1 t (ch_device c)) in
    return_if! negb dev1 with ret (FL_INTERNAL, c) ;;
    let! r := mloop (seq 0 count) (adoptOne compare handles) c in
    ret (match r with inl c => (FL_OK, c) | inr e => e end)
  end.

(** [resetSync]: the fences are replaced ... *)
Definition createFences c : M (bool * flChannel) :=
  closeHandle_valid (ch_readyShared c) ;;
  closeHandle_valid (ch_consumedShared c) ;;
  let c := set_consumedFence (set_readyFence (set_consumedShared (set_readyShared c 0) 0) 0) 0 in
  let! ready := ask w_createFence in
  let c := set_readyFence c ready in
  return_if! negb (truthy ready) with ret (false, c) ;;
  let! consumed := ask w_createFence in
  let c := set_consumedFence c consumed in
  return_if! negb (truthy consumed) with ret (false, c) ;;
  let! readyShared := handle_created (ask (fun t => w_shareFence t ready)) in
  let c := set_readyShared c readyShared in
  return_if! negb (truthy readyShared) with ret (false, c) ;;
  let! consumedShared := handle_created (ask (fun t => w_shareFence t consumed)) in
  ret (truthy consumedShared, set_consumedShared c consumedShared).

(** ... and the counters start over. *)
Definition resetCounters c : flChannel :=
  let c := set_slotReadyValue c (map (fun _ => 0) (ch_slotReadyValue c)) in
  let c := set_readyValue (set_consumedValue c 0) 0 in
  let c := set_hasPending c false in
  let c := set_heldReady (set_readers c (Ledger.resetEpoch (ch_readers c))) 0 in
  bump_generation c.

Definition resetSync c : M (bool * flChannel) :=
  let! dev5 := ask (fun t => w_device5 t (ch_device c)) in
  return_if! negb dev5 with ret (false, c) ;;
  let! (ok, c) := createFences c in
  return_if! negb ok with ret (false, c) ;;
  effect EFlush ;;
  ret (true, resetCounters c).

(** Duplicate [h] into the producer; 0 when it failed. *)
Definition duplicateInto (proc h : Z) : M Z :=
  let! dup := ask (fun t => w_duplicateInto t proc h) in
  (if truthy dup then effect (EPeerHandle proc dup) else ret tt) ;; ret dup.

(** The loop over the images: [ok] and the texture handles so far. *)
Definition duplicateTextures c (proc : Z) : M (bool * list Z) :=
  mfold (ch_images c) (fun '(_, img) '(ok, textures) =>
    if (ok : bool) then let! dup := duplicateInto proc (im_shared img) in
                        ret (truthy dup, textures ++ [dup])
    else ret (ok, textures)) (true, []).

(** [ok && DuplicateHandle(..., &dup, ...)] *)
Definition duplicateIf (ok : bool) (proc h : Z) : M (bool * Z) :=
  if ok then let! dup := duplicateInto proc h in ret (truthy dup, dup) else ret (false, 0).

Definition handOverRing c (link : Channel) (peerPid : Z) : M (bool * Channel) :=
  let! proc := handle_created (ask (fun t => w_openProcess t peerPid)) in
  return_if! negb (truthy proc) with ret (false, link) ;;
  let! (ok, textures) := duplicateTextures c proc in
  let! (ok, ready) := duplicateIf ok proc (ch_readyShared c) in
  let! (ok, consumed) := duplicateIf ok proc (ch_consumedShared c) in
  closeHandle proc ;;
  return_if! negb ok with ret (false, link) ;;
  let i := ch_info c in
  let z n := replicate n 0 in
  win_send link MsgType.RingDesc
    (encode (mkRingDesc (info_width i) (info_height i) (info_format i) (imageCount c)
       (info_generation i) (textures ++ z (16 - length textures)%nat) ready consumed
       (z 16%nat) (z 16%nat) 0 0 0 (z 16%nat) (z 64%nat) (z 64%nat))).
End Ring.
