(* ===== verification/WinProducer.v ===== *)
(** * The producer side of the Windows backend (src/framelink_win.cpp)

    Opening a channel, importing its ring, acquiring and publishing buffers.  A
    slot is free once the shared consumed fence has reached the value of its last
    submission; [UINT64_MAX] in [slotReadyValue] reserves it, and a fence that
    reads [UINT64_MAX] belongs to a removed device.

    The acquisition loop runs against the clock; it is bounded by fuel, and what
    other threads do to the channel while it sleeps or waits is its argument
    [others]. *)
From S2P Require Import Prelude Api Kernel Windows Wire Ipc WinIpc WinState WinImage WinRing.
From S2P Require BufferRefs.

Section Producer.
Context `{W : Windows}.
Implicit Types (c : flChannel).

Definition sendLink c (type : Z) (payload : list Z) : M (bool * flChannel) :=
  let! (ok, l) := win_send (ch_link c) type payload in ret (ok, set_link c l).
Definition recvLink c : M (option Message * flChannel) :=
  let! (m, l) := win_recv (ch_link c) in ret (m, set_link c l).

(** ** Importing the ring *)

(** The handles [~Incoming] looks at: every slot of the array, both fences. *)
Definition incomingHandles (pd : RingDescMsg) : list Z :=
  map (fun i => if Z.of_nat i <? rd_poolSize pd then nth i (rd_texture pd) 0 else 0) (seq 0 FL_MAX_POOL_SIZE)
  ++ [rd_readyFence pd; rd_consumedFence pd].

(** Those it closes: the first occurrence of every non-null one. *)
Definition closedHandles (l : list Z) : list Z :=
  omap (fun i => let h := nth i l 0 in
                 if truthy h && negb (existsb (Z.eqb h) (take i l)) then Some h else None)
    (seq 0 (length l)).

(** [~Incoming()] *)
Definition closeIncoming (pd : RingDescMsg) : M unit :=
  mfor (closedHandles (incomingHandles pd)) closeHandle.

(** The test of an imported texture. *)
Definition importable (pd : RingDescMsg) (d : TextureDesc) : bool :=
  (td_Format d =? dxgiFormat (rd_format pd)) && (td_Width d =? rd_width pd)
  && (td_Height d =? rd_height pd) && (td_ArraySize d =? 1) && (td_MipLevels d =? 1)
  && (td_SampleCount d =? 1).

(** One staged image; [inr] is the failing return. *)
Definition stageImage (pd : RingDescMsg) (i : nat) (staged : list (Z * flImage))
  : M (list (Z * flImage) + flResult) :=
  let! a := new_image in
  let shared := nth i (rd_texture pd) 0 in
  let! tex := ask (fun t => w_openTexture t shared) in
  return_if! negb (truthy tex) with ret (inr FL_ADAPTER_MISMATCH) ;;
  return_if! negb (importable pd (w_desc tex)) with ret (inr FL_INVALID) ;;
  ret (inl (staged ++ [(a, mkImage tex 0 0 (0, 0) true shared)])).

(** Everything [importRing] opens before it commits: the images and the fences. *)
Definition stageRing c (pd : RingDescMsg) : M (list (Z * flImage) * Z * Z + flResult) :=
  return_if! negb (truthy (rd_poolSize pd)) || (Z.of_nat FL_MAX_POOL_SIZE <? rd_poolSize pd)
          || negb (validGeometry (rd_width pd) (rd_height pd) (rd_format pd))
    with ret (inr FL_INVALID) ;;
  let! dev1 := ask (fun t => w_device1 t (ch_device c)) in
  let! dev5 := ask (fun t => w_device5 t (ch_device c)) in
  return_if! negb dev1 || negb dev5 with ret (inr FL_INTERNAL) ;;
  let! r := mloop (seq 0 (Z.to_nat (rd_poolSize pd))) (stageImage pd) [] in
  match r with
  | inr e => ret (inr e)
  | inl staged =>
    let! ready := ask (fun t => w_openFence t (rd_readyFence pd)) in
    return_if! negb (truthy ready) with ret (inr FL_INTERNAL) ;;
    let! consumed := ask (fun t => w_openFence t (rd_consumedFence pd)) in
    return_if! negb (truthy consumed) with ret (inr FL_INTERNAL) ;;
    ret (inl (staged, ready, consumed))
  end.

(** The commit: the old ring goes, the staged one takes its place. *)
Definition commitRing c (pd : RingDescMsg) (images : list (Z * flImage)) (ready consumed : Z)
  : M flChannel :=
  mfor (ch_images c) closeImage ;;
  closeHandle_valid (ch_readyShared c) ;;
  closeHandle_valid (ch_consumedShared c) ;;
  let c := set_slotReadyValue (set_images c images) (replicate (length images) 0) in
  let c := set_consumedShared (set_readyShared c (rd_readyFence pd)) (rd_consumedFence pd) in
  let c := set_consumedFence (set_readyFence c ready) consumed in
  effect EFlush ;;
  ret (set_info c (mkChannelInfo (info_version (ch_info c)) (rd_width pd) (rd_height pd) (rd_format pd)
                     (rd_poolSize pd) (rd_generation pd))).

Definition importRing c (pd : RingDescMsg) : M (flResult * flChannel) :=
  let! staged := stageRing c pd in
  match staged with
  | inr e => closeIncoming pd ;; ret (e, c)
  | inl (images, ready, consumed) =>
    let! c := commitRing c pd images ready consumed in ret (FL_OK, c)
  end.

(** ** Acquiring *)

(** [slotReadyValue[i] <= consumed] and no local reference *)
Definition slotFree c (consumed : Z) (i : nat) : bool :=
  (readyAt c (Z.of_nat i) <=? consumed) && negb (BufferRefs.busy (ch_bufferReferences c) (Z.of_nat i)).

(** [localBlocked] after a scan that found nothing. *)
Definition localBlocked c (consumed : Z) : bool :=
  existsb (fun i => (readyAt c (Z.of_nat i) <=? consumed)
                    && BufferRefs.busy (ch_bufferReferences c) (Z.of_nat i))
    (seq 0 (length (ch_images c))).

Definition reserve c (i : nat) : flBuffer * flChannel :=
  (mkBuffer (Z.of_nat i) (imageAddr c (Z.of_nat i)),
   set_metadataAt (set_readyAt c (Z.of_nat i) UINT64_MAX) (Z.of_nat i) zeroMetadata).

Definition acquireScan c (consumed : Z) : option nat :=
  find_index (slotFree c consumed) (seq 0 (length (ch_images c))).

(** The least value above [consumed] that a slot waits for; [UINT64_MAX]: none. *)
Definition oldestPending (consumed : Z) (values : list Z) : Z :=
  foldl (fun oldest v => if (consumed <? v) && (v <? oldest) then v else oldest) UINT64_MAX values.

(** [Sleep(1)], or the wait for the oldest outstanding value. *)
Definition waitTurn c (consumed remaining : Z) : M unit :=
  if localBlocked c consumed then usleep 1000
  else
    let oldest := oldestPending consumed (ch_slotReadyValue c) in
    if oldest =? UINT64_MAX then usleep 1000 else effect (EWaitFence oldest remaining).

Fixpoint acquireLoop (fuel : nat) (others : flChannel -> M flChannel) (deadline : Z) c
  : M (option flResult * option flBuffer * flChannel) :=
  match fuel with
  | O => ret (None, None, c)
  | S fuel' =>
    let! consumed := ask (fun t => w_fenceValue t (ch_consumedFence c)) in
    return_if! consumed =? UINT64_MAX with ret (Some FL_DISCONNECTED, None, c) ;;
    match acquireScan c consumed with
    | Some i => let '(buf, c) := reserve c i in ret (Some FL_OK, Some buf, c)
    | None =>
      let! (alive, l) := peerAlive (ch_link c) in
      let c := set_link c l in
      return_if! negb alive with ret (Some FL_DISCONNECTED, None, c) ;;
      let! now := ask w_tickCount in
      return_if! deadline <=? now with ret (Some FL_TIMEOUT, None, c) ;;
      waitTurn c consumed (deadline - now) ;;
      let! c := others c in
      acquireLoop fuel' others deadline c
    end
  end.

Definition flAcquireBuffer (fuel : nat) (others : flChannel -> M flChannel) c (timeoutMs : Z)
  : M (option flResult * option flBuffer * flChannel) :=
  return_if! ch_isConsumer c with ret (Some FL_INVALID, None, c) ;;
  return_if! negb (connected (ch_link c)) with ret (Some FL_DISCONNECTED, None, c) ;;
  let! now := ask w_tickCount in
  acquireLoop fuel others (wrap32 (now + timeoutMs)) c.

(** ** Publishing *)

Definition ownBuffer c (buf : flBuffer) : bool :=
  (buf_slot buf <? imageCount c) && (buf_image buf =? imageAddr c (buf_slot buf)).

(** [flImageUnmap(buf->image)] *)
Definition unmapSlot c (slot : Z) : M flChannel :=
  match ch_images c !! Z.to_nat slot with
  | None => ret c
  | Some (a, img) =>
    let! img := flImageUnmap img in ret (set_images c (<[Z.to_nat slot := (a, img)]> (ch_images c)))
  end.

Definition flCancelBuffer c (buf : option flBuffer) : M (flResult * flChannel) :=
  match buf with
  | None => ret (FL_INVALID, c)
  | Some buf =>
    return_if! ch_isConsumer c || negb (ownBuffer c buf) || negb (readyAt c (buf_slot buf) =? UINT64_MAX)
      with ret (FL_INVALID, c) ;;
    return_if! truthy (ch_submittingValue c) && (ch_submittingSlot c =? buf_slot buf)
      with ret (FL_BUSY, c) ;;
    let! c := unmapSlot c (buf_slot buf) in
    ret (FL_OK, set_readyAt c (buf_slot buf) 0)
  end.

(** The result and [*signalValue]. *)
Definition flBeginSubmit c (buf : option flBuffer) (signalValue : Z) : flResult * Z * flChannel :=
  match buf with
  | None => (FL_INVALID, signalValue, c)
  | Some buf =>
    return_if ch_isConsumer c || negb (ownBuffer c buf) || negb (readyAt c (buf_slot buf) =? UINT64_MAX)
      with (FL_INVALID, signalValue, c) ;;
    return_if negb (connected (ch_link c)) with (FL_DISCONNECTED, signalValue, c) ;;
    return_if truthy (ch_submittingValue c) with (FL_BUSY, signalValue, c) ;;
    return_if truthy (Z.land (ch_peerFeatures c) (Z.shiftl FrameMetadataFeature 16))
           && negb (truthy (md_version (metadataAt c (buf_slot buf))))
      with (FL_FORMAT_UNSUPPORTED, signalValue, c) ;;
    return_if UINT64_MAX - 1 <=? ch_readyValue c with (FL_INVALID, signalValue, c) ;;
    let v := ch_readyValue c + 1 in
    (FL_OK, v, set_submittingValue (set_readyValue (set_submittingSlot c (buf_slot buf)) v) v)
  end.

Definition flEndSubmit c (buf : option flBuffer) (signalValue ptsNs : Z) : M (flResult * flChannel) :=
  match buf with
  | None => ret (FL_INVALID, c)
  | Some buf =>
    return_if! ch_isConsumer c || negb (ownBuffer c buf) || negb (readyAt c (buf_slot buf) =? UINT64_MAX)
            || negb (truthy signalValue) || negb (signalValue =? ch_submittingValue c)
            || negb (buf_slot buf =? ch_submittingSlot c) with ret (FL_INVALID, c) ;;
    return_if! negb (connected (ch_link c)) with ret (FL_DISCONNECTED, c) ;;
    let c := set_readyAt c (buf_slot buf) signalValue in
    let c := set_submittingSlot (set_submittingValue c 0) UINT32_MAX in
    let! (ok, l) := win_sendFrame (ch_link c) (mkFrameReady (buf_slot buf) 0 signalValue ptsNs)
                      (metadataAt c (buf_slot buf)) in
    ret (if (ok : bool) then FL_OK else FL_DISCONNECTED, set_link c l)
  end.

(** The GPU signal is queued behind the caller's drawing, then flushed. *)
Definition flSubmit c (buf : option flBuffer) (ptsNs : Z) : M (flResult * flChannel) :=
  let '(r, value, c) := flBeginSubmit c buf 0 in
  return_if! negb (bool_decide (r = FL_OK)) with ret (r, c) ;;
  let! c := unmapSlot c (match buf with Some b => buf_slot b | None => 0 end) in
  effect (ESignal (ch_readyFence c) value) ;;
  effect EFlush ;;
  flEndSubmit c buf value ptsNs.

(** The result and [*handle]. *)
Definition flSharedReadyFence c : flResult * Z :=
  (if truthy (ch_readyShared c) then FL_OK else FL_INTERNAL, ch_readyShared c).
Definition flSharedConsumedFence c : flResult * Z :=
  (if truthy (ch_consumedShared c) then FL_OK else FL_INTERNAL, ch_consumedShared c).

(** ** Metadata and references of a reserved buffer (src/fl_read_api.inc) *)

Definition metadataReservation c (buffer : flBuffer) : bool :=
  ownBuffer c buffer && (readyAt c (buf_slot buffer) =? UINT64_MAX).

Definition flSetFrameMetadata c (buffer : option flBuffer) (metadata : option flFrameMetadata)
  : flResult * flChannel :=
  match buffer, metadata with
  | Some buffer, Some metadata =>
    return_if ch_isConsumer c || negb (metadataReservation c buffer) with (FL_INVALID, c) ;;
    return_if truthy (ch_submittingValue c) with (FL_BUSY, c) ;;
    return_if negb (truthy (Z.land (ch_peerFeatures c) FrameMetadataFeature))
      with (FL_FORMAT_UNSUPPORTED, c) ;;
    let result := validateMetadata metadata in
    return_if negb (bool_decide (result = FL_OK)) with (result, c) ;;
    (FL_OK, set_metadataAt c (buf_slot buffer) metadata)
  | _, _ => (FL_INVALID, c)
  end.

Definition flRetainBufferReference c (buffer : option flBuffer) (next reference : Z)
  : flResult * Z * flChannel * Z :=
  match buffer with
  | Some buffer =>
    return_if ch_isConsumer c || negb (metadataReservation c buffer)
      with (FL_INVALID, reference, c, next) ;;
    let '(r, t, refs, next) :=
      BufferRefs.retain (ch_bufferReferences c) (buf_slot buffer) next reference in
    (r, t, set_bufferReferences c refs, next)
  | None => (FL_INVALID, reference, c, next)
  end.

Definition flReleaseBufferReference c (reference : Z) : flResult * flChannel :=
  return_if ch_isConsumer c with (FL_INVALID, c) ;;
  let '(r, refs) := BufferRefs.release (ch_bufferReferences c) reference in
  (r, set_bufferReferences c refs).

(** ** Asking for another geometry *)

(** The handles a refusal leaves to close, in order. *)
Definition refusalHandles (pd : RingDescMsg) : list Z :=
  filter (fun h => h <> 0)
    (take (Z.to_nat (rd_poolSize pd)) (rd_texture pd) ++ [rd_readyFence pd; rd_consumedFence pd]).

Definition flRequestGeometry c (width height format : Z) : M (flResult * flChannel) :=
  return_if! ch_isConsumer c || negb (validGeometry width height format) with ret (FL_INVALID, c) ;;
  return_if! negb (format =? info_format (ch_info c)) with ret (FL_FORMAT_UNSUPPORTED, c) ;;
  return_if! negb (connected (ch_link c)) with ret (FL_DISCONNECTED, c) ;;
  return_if! negb (BufferRefs.empty (ch_bufferReferences c)) with ret (FL_BUSY, c) ;;
  return_if! existsb (fun value => value =? UINT64_MAX) (ch_slotReadyValue c) with ret (FL_BUSY, c) ;;
  let! (ok, c) := sendLink c MsgType.RequestGeometry (encode (mkGeometry width height format 0)) in
  return_if! negb ok with ret (FL_DISCONNECTED, c) ;;
  let! (reply, c) := recvLink c in
  let pd := match reply with
            | Some m => if mg_type m =? MsgType.RingDesc then as_ RingDescMsg (mg_payload m) else None
            | None => None
            end in
  match pd with
  | None => ret (FL_DISCONNECTED, c)
  | Some pd =>
    return_if! (rd_poolSize pd =? 0) || (Z.of_nat kMaxPool <? rd_poolSize pd) with ret (FL_DISCONNECTED, c) ;;
    return_if! rd_generation pd =? info_generation (ch_info c)
      with (mfor (refusalHandles pd) closeHandle ;; ret (FL_OK, c)) ;;
    importRing (set_readyValue c 0) pd
  end.
End Producer.
