(* ===== verification/WinConsumer.v ===== *)
(** * The consumer side of the Windows backend (src/framelink_win.cpp, src/fl_read_api.inc)

    The accept thread as a state machine, frame acquisition and release, and read
    leases.  A function that holds [pendingMutex] is one atomic step; what the
    accept thread does while [flAcquireFrame] sleeps is its argument [others].  A
    frame is released by signalling its ready value on the consumed fence. *)
From S2P Require Import Prelude Api Kernel Windows Wire Ipc WinIpc WinState WinImage WinRing WinProducer.
From S2P Require Ledger.

Section Consumer.
Context `{W : Windows}.
Implicit Types (c : flChannel).

Definition fenceValue (fence : Z) : M Z := ask (fun t => w_fenceValue t fence).

(** ** The accept thread *)

(** Where [acceptLoop] is: about to listen, waiting on a pipe, serving a link. *)
Inductive AcceptState :=
| Listening
| Waiting (pipe : Z)
| Serving (link : Channel)
| Finished.

(** The hello exchange: the peer's hello if it is acceptable. *)
Definition exchangeHello c (link : Channel) : M (option HelloMsg * Channel) :=
  let features := localFeatures (ch_flags c) in
  let! (ok, link) := win_send link MsgType.Hello
    (encode (mkHello FL_VERSION w_pid 1 features (ch_adapterLUID c))) in
  return_if! negb ok with ret (None, link) ;;
  let! (peerHello, link) := win_recv link in
  let ph := match peerHello with
            | Some m => if (mg_type m =? MsgType.Hello) && Nat.eqb (length (mg_payload m)) (sizeof HelloMsg)
                        then as_ HelloMsg (mg_payload m) else None
            | None => None
            end in
  match ph with
  | None => ret (None, link)
  | Some ph =>
    ret (if negb (he_version ph =? FL_VERSION) || negb (compatibleFeatures features (he_pad ph))
         then None else Some ph, link)
  end.

(** The guard under [pendingMutex]: something of the previous producer is still in use. *)
Definition ringBusy c : M bool :=
  if negb (Ledger.empty (ch_readers c)) || ch_frameHeld c then ret true
  else
    let! consumed := fenceValue (ch_consumedFence c) in
    return_if! consumed <? ch_heldReady c with ret true ;;
    if ch_hasPending c then let! ready := fenceValue (ch_readyFence c) in ret (ready <? ch_pendingReady c)
    else ret false.

(** One accepted connection, up to the attachment; [None]: the link is refused. *)
Definition attachProducer c (link : Channel) : M (option Channel * flChannel) :=
  let refuse c link := (let! _ := win_close link in ret (None, c)) in
  let! proc := handle_created (ask (fun t => w_openProcess t (peerPid_ link))) in
  return_if! negb (truthy proc) with refuse c link ;;
  let! (ph, link) := exchangeHello c link in
  closeHandle proc ;;
  match ph with
  | None => refuse c link
  | Some ph =>
    let c := set_peerFeatures c (he_pad ph) in
    let! busy := ringBusy c in
    return_if! busy with
      (let! (_, link) := win_send link MsgType.Busy [] in refuse c link) ;;
    let! (ok, c) := resetSync c in
    return_if! negb ok with refuse c link ;;
    let! (ok, link) := handOverRing c link (peerPid_ link) in
    return_if! negb ok with refuse c link ;;
    ret (Some link, set_peerGone c false)
  end.

(** [handOverRing(...)]: false is [break]. *)
Definition answerRing c (link : Channel) : M (bool * flChannel * Channel) :=
  let! (ok, link) := handOverRing c link (peerPid_ link) in ret (ok, c, link).

(** The readers block a reallocation. *)
Definition geometryBlocked c : M bool :=
  if negb (Ledger.empty (ch_readers c)) || ch_frameHeld c then ret true
  else if has_flag (ch_flags c) (Z.lor FL_GPU_SYNC FL_DEFER_RELEASE)
       then let! consumed := fenceValue (ch_consumedFence c) in ret (consumed <? ch_heldReady c)
       else ret false.

Definition rebuildRing c (w h : Z) : M (bool * flChannel) :=
  let pool := length (ch_images c) in
  mfor (ch_images c) closeImage ;;
  let c := set_size (set_slotReadyValue (set_images c []) []) w h in
  let! (ok, c) := allocateRing c w h pool in
  return_if! negb ok with ret (false, c) ;;
  resetSync c.

Definition handleGeometry c (link : Channel) (payload : list Z) : M (bool * flChannel * Channel) :=
  let i := ch_info c in
  match as_ GeometryMsg payload with
  | None => answerRing c link
  | Some g =>
    if negb (ch_externalPool c) && (ge_format g =? info_format i)
       && validGeometry (ge_width g) (ge_height g) (info_format i)
       && (negb (ge_width g =? info_width i) || negb (ge_height g =? info_height i))
    then
      let! blocked := geometryBlocked c in
      return_if! blocked with answerRing c link ;;
      let! (ok, c) := rebuildRing (set_hasPending c false) (ge_width g) (ge_height g) in
      return_if! negb ok with ret (false, c, link) ;;
      answerRing c link
    else answerRing c link
  end.

(** A decoded announcement: latest frame wins. *)
Definition storePending c (fr : FrameReadyMsg) (metadata : flFrameMetadata) : M flChannel :=
  let c := set_pendingSlot (set_hasPending c true) (fm_slot fr) in
  let c := set_pendingPts (set_pendingReady c (fm_readyValue fr)) (fm_ptsNs fr) in
  let c := set_pendingMetadata c metadata in
  let! c := (if has_flag (ch_flags c) FL_TRACK_ARRIVAL
             then let! now := ask w_clock in ret (set_pendingArrival c now) else ret c) in
  ret (set_sequence c (wrap64 (ch_sequence c + 1))).

(** The dispatch of the inner loop: false is [break]. *)
Definition handleMessage c (link : Channel) (msg : Message) : M (bool * flChannel * Channel) :=
  return_if! mg_type msg =? MsgType.RequestGeometry with handleGeometry c link (mg_payload msg) ;;
  return_if! negb (mg_type msg =? MsgType.FrameReady) && negb (mg_type msg =? MsgType.FrameReadyMetadata)
    with ret (true, c, link) ;;
  let '(fr, metadata) := decodeFrame msg (has_flag (ch_flags c) FL_REQUIRE_FRAME_METADATA) in
  match fr with
  | None => ret (false, c, link)
  | Some fr =>
    return_if! imageCount c <=? fm_slot fr with ret (false, c, link) ;;
    let! c := storePending c fr metadata in ret (true, c, link)
  end.

(** Leaving the inner loop; the link's destructor runs. *)
Definition producerGone c (link : Channel) : M (AcceptState * flChannel) :=
  let! _ := win_close link in
  let c := set_peerGone c true in
  ret (if ch_stop c then Finished else Listening, c).

(** One message of the inner loop. *)
Definition serveStep c (link : Channel) : M (AcceptState * flChannel) :=
  let! (msg, link) := win_recv link in
  match msg with
  | None => producerGone c link
  | Some msg =>
    return_if! mg_type msg =? MsgType.Bye with producerGone c link ;;
    return_if! ch_stop c with (let! _ := win_close link in ret (Finished, c)) ;;
    let! (go_on, c, link) := handleMessage c link msg in
    if (go_on : bool) then ret (Serving link, c) else producerGone c link
  end.

(** A client arrived on [pipe], or the wait failed. *)
Definition waitStep c (pipe : Z) : M (AcceptState * flChannel) :=
  let! link := listenConnect pipe in
  return_if! negb (connected link) with ret (Finished, c) ;;
  return_if! ch_stop c with (let! _ := win_close link in ret (Finished, c)) ;;
  let! (attached, c) := attachProducer c link in
  ret (match attached with Some link => Serving link | None => Listening end, c).

Definition acceptStep c (st : AcceptState) : M (AcceptState * flChannel) :=
  match st with
  | Finished => ret (Finished, c)
  | Listening =>
    return_if! ch_stop c with ret (Finished, c) ;;
    let! pipe := listenPipe in
    ret (if truthy pipe then Waiting pipe else Finished, c)
  | Waiting pipe => waitStep c pipe
  | Serving link => serveStep c link
  end.

(** ** Acquiring and releasing *)

(** The block under [pendingMutex] of one round of [flAcquireFrame]. *)
Definition tryAcquireFrame c : M (option flFrame * flChannel) :=
  return_if! negb (ch_hasPending c) || ch_frameHeld c with ret (None, c) ;;
  let! ready := (if has_flag (ch_flags c) FL_GPU_SYNC then ret true
                 else let! v := fenceValue (ch_readyFence c) in ret (ch_pendingReady c <=? v)) in
  return_if! negb ready with ret (None, c) ;;
  let c := set_heldArrival (set_frameHeld c true) (ch_pendingArrival c) in
  let c := set_heldSlot (set_heldReady c (ch_pendingReady c)) (ch_pendingSlot c) in
  let c := set_hasPending (set_heldMetadata c (ch_pendingMetadata c)) false in
  ret (Some (mkFrame (ch_pendingSlot c) (imageAddr c (ch_pendingSlot c)) (ch_pendingPts c)
               (ch_sequence c) (ch_pendingReady c)), c).

Fixpoint acquireFrameLoop (fuel : nat) (others : flChannel -> M flChannel) (deadline : Z) c
  : M (option flResult * option flFrame * flChannel) :=
  match fuel with
  | O => ret (None, None, c)
  | S fuel' =>
    let! (frame, c) := tryAcquireFrame c in
    match frame with
    | Some f => ret (Some FL_OK, Some f, c)
    | None =>
      return_if! ch_peerGone c with ret (Some FL_DISCONNECTED, None, c) ;;
      let! now := ask w_tickCount in
      return_if! deadline <=? now with ret (Some FL_TIMEOUT, None, c) ;;
      usleep 1000 ;;
      let! c := others c in
      acquireFrameLoop fuel' others deadline c
    end
  end.

Definition flAcquireFrame (fuel : nat) (others : flChannel -> M flChannel) c (timeoutMs : Z)
  : M (option flResult * option flFrame * flChannel) :=
  return_if! negb (ch_isConsumer c) with ret (Some FL_INVALID, None, c) ;;
  let! now := ask w_tickCount in
  acquireFrameLoop fuel others (wrap32 (now + timeoutMs)) c.

Definition isHeld c (frame : flFrame) : bool :=
  ch_frameHeld c && (fr_readyValue frame =? ch_heldReady c) && (fr_slot frame =? ch_heldSlot c).

Definition flRelease c (frame : option flFrame) : M (flResult * flChannel) :=
  match frame with
  | None => ret (FL_INVALID, c)
  | Some frame =>
    return_if! negb (ch_isConsumer c) || (imageCount c <=? fr_slot frame) with ret (FL_INVALID, c) ;;
    return_if! negb (Ledger.empty (ch_readers c)) with ret (FL_BUSY, c) ;;
    return_if! negb (isHeld c frame) with ret (FL_INVALID, c) ;;
    let c := set_frameHeld c false in
    let value := fr_readyValue frame in
    return_if! has_flag (ch_flags c) (Z.lor FL_GPU_SYNC FL_DEFER_RELEASE)
      with ret (FL_OK, if ch_consumedValue c <? value then set_consumedValue c value else c) ;;
    return_if! value <=? ch_consumedValue c with ret (FL_OK, c) ;;
    let c := set_consumedValue c value in
    effect (ESignal (ch_consumedFence c) value) ;;
    effect EFlush ;;
    ret (FL_OK, c)
  end.

(** ** Read leases *)

Definition isHeldImage c (frame : flFrame) : bool :=
  isHeld c frame && (fr_slot frame <? imageCount c) && (fr_image frame =? imageAddr c (fr_slot frame)).

Definition flLeaseFrame c (frame : option flFrame) (nextToken lease : Z)
  : flResult * Z * flChannel * Z :=
  match frame with
  | None => (FL_INVALID, lease, c, nextToken)
  | Some frame =>
    return_if negb (ch_isConsumer c) || negb (has_flag (ch_flags c) FL_DEFER_RELEASE)
            || has_flag (ch_flags c) FL_GPU_SYNC with (FL_INVALID, lease, c, nextToken) ;;
    return_if negb (isHeldImage c frame) with (FL_INVALID, lease, c, nextToken) ;;
    let '(r, lease, readers, nextToken) :=
      Ledger.acquire (ch_readers c) (info_generation (ch_info c)) frame nextToken lease in
    let c := set_readers c readers in
    (r, lease, if bool_decide (r = FL_OK) then set_frameHeld c false else c, nextToken)
  end.

Definition retireReadLeases c (value : Z) : M (flResult * flChannel) :=
  let! ok := ask (fun t => w_signal t (ch_consumedFence c)) in
  return_if! negb ok with ret (FL_INTERNAL, c) ;;
  effect (ESignal (ch_consumedFence c) value) ;;
  effect EFlush ;;
  ret (FL_OK, set_consumedValue c value).

(** One entry of [pollLeaseCompletions]; [inr] is its failing return. *)
Definition pollCompletion (j : nat) c : M (flChannel + flResult * flChannel) :=
  let pending := nth j (ch_leaseCompletions c) noCompletion in
  return_if! lc_token pending =? 0 with ret (inl c) ;;
  let! value := fenceValue (lc_fence pending) in
  return_if! value =? UINT64_MAX with ret (inr (FL_DISCONNECTED, c)) ;;
  return_if! value <? lc_value pending with ret (inl c) ;;
  let '(r, readers) := Ledger.finishDeferred (ch_readers c) (lc_token pending) in
  let c := set_readers c readers in
  return_if! negb (bool_decide (r = FL_OK)) with ret (inr (r, c)) ;;
  ret (inl (set_leaseCompletions c (<[j := noCompletion]> (ch_leaseCompletions c)))).

Definition pollLeaseCompletions c : M (flResult * flChannel) :=
  let! r := mloop (seq 0 Ledger.MaxReaders) pollCompletion c in
  ret (match r with inl c => (FL_OK, c) | inr e => e end).

Definition flCompleteReadLeaseD3D11Fence c (token handle value : Z) : M (flResult * flChannel) :=
  return_if! negb (ch_isConsumer c) || negb (truthy handle) || (value =? UINT64_MAX)
    with ret (FL_INVALID, c) ;;
  let '(got, _, _) := Ledger.get (ch_readers c) token zeroFrame 0 in
  return_if! negb (bool_decide (got = FL_OK)) with ret (FL_INVALID, c) ;;
  match find_index (fun e => lc_token e =? 0) (ch_leaseCompletions c) with
  | None => ret (FL_BUSY, c)
  | Some j =>
    let! dev5 := ask (fun t => w_device5 t (ch_device c)) in
    return_if! negb dev5 with ret (FL_FORMAT_UNSUPPORTED, c) ;;
    let! fence := ask (fun t => w_openFence t handle) in
    return_if! negb (truthy fence) with ret (FL_INVALID, c) ;;
    let '(r, readers) := Ledger.defer (ch_readers c) token in
    let c := set_readers c readers in
    return_if! negb (bool_decide (r = FL_OK)) with ret (r, c) ;;
    ret (FL_OK, set_leaseCompletions c (<[j := mkCompletion token value fence]> (ch_leaseCompletions c)))
  end.

Definition flCompleteReadLease c (lease : Z) : flResult * flChannel :=
  return_if negb (ch_isConsumer c) with (FL_INVALID, c) ;;
  let '(r, readers) := Ledger.complete (ch_readers c) lease in (r, set_readers c readers).

Definition flRetainReadLease c (lease nextToken retained : Z) : flResult * Z * flChannel * Z :=
  return_if negb (ch_isConsumer c) with (FL_INVALID, retained, c, nextToken) ;;
  let '(r, t, readers, nextToken) := Ledger.retain (ch_readers c) lease nextToken retained in
  (r, t, set_readers c readers, nextToken).

Definition flCollectReadLeases c : M (flResult * flChannel) :=
  return_if! negb (ch_isConsumer c) with ret (FL_INVALID, c) ;;
  let! (polled, c) := pollLeaseCompletions c in
  return_if! negb (bool_decide (polled = FL_OK)) with ret (polled, c) ;;
  let r := Ledger.retirement (ch_readers c) in
  return_if! negb (truthy (Ledger.rt_value r))
    with ret (if Ledger.empty (ch_readers c) then FL_OK else FL_BUSY, c) ;;
  let! (result, c) := retireReadLeases c (Ledger.rt_value r) in
  return_if! negb (bool_decide (result = FL_OK)) with ret (result, c) ;;
  let '(retired, readers) := Ledger.retired (ch_readers c) r in
  ret (retired, set_readers c readers).
End Consumer.
