(* ===== verification/WinChannel.v ===== *)
(** * Channels of the Windows backend (src/framelink_win.cpp)

    Creation, opening, closing and the queries.  The accept thread is started by
    the creation, which returns its state with the channel, and ended by
    [flClose], which is given it. *)
From S2P Require Import Prelude Api Kernel Windows Wire Ipc WinIpc ResourceInfo WinState WinImage WinRing.
From S2P Require Import WinProducer WinConsumer.

Section Lifetime.
Context `{W : Windows}.
Implicit Types (c : flChannel).

(** The join of the accept thread: what it still holds is destroyed. *)
Definition stopThread (st : AcceptState) : M unit :=
  match st with
  | Waiting pipe => closeHandle pipe
  | Serving link => let! _ := win_close link in ret tt
  | Listening | Finished => ret tt
  end.

(** How long [connect] may retry inside [flClose] and [flOpenProducer]. *)
Definition connectRounds : nat := 64.

(** The part of [flClose] that depends on the role. *)
Definition detach c (st : AcceptState) : M unit :=
  if ch_isConsumer c
  then let! poke := connectPipe connectRounds (ch_name c) 200 in
       let! _ := win_close (match poke with Some (ch, _) => ch | None => noChannel end) in
       stopThread st
  else if connected (ch_link c)
       then let! _ := win_send (ch_link c) MsgType.Bye [] in ret tt else ret tt.

(** [delete ch] *)
Definition deleteChannel c : M unit := let! _ := win_close (ch_link c) in ret tt.

Definition flClose c (st : AcceptState) : M unit :=
  detach c st ;;
  mfor (ch_images c) closeImage ;;
  closeHandle_valid (ch_readyShared c) ;;
  closeHandle_valid (ch_consumedShared c) ;;
  closeHandle_valid (ch_waitEvent c) ;;
  deleteChannel c.

(** ** Creating *)

(** The channel before it has a device. *)
Definition consumerChannel (name : list Z) (flags : Z) : flChannel :=
  set_name (set_flags (set_isConsumer newChannel true) flags) name.

(** The device, its context and event, and the adapter's LUID. *)
Definition setupDevice c (luid : option (list Z)) : M (bool * flChannel) :=
  let! dev := createDevice (default [] luid) (bool_decide (is_Some luid)) in
  let c := set_device c dev in
  return_if! negb (truthy dev) with ret (false, c) ;;
  let! (ok, c) := finishDeviceSetup c in
  return_if! negb ok with ret (false, c) ;;
  let! id := ask (fun t => w_deviceLuid t dev) in
  ret (true, match id with Some id => set_adapterLUID c id | None => c end).

(** The ring: adopted or allocated, with its fences. *)
Definition setupRing c (width height : Z) (poolSize : nat) (external : option (list Z))
  : M (flResult * flChannel) :=
  let c := set_externalPool c (bool_decide (is_Some external)) in
  let! (allocation, c) :=
    (match external with
     | Some handles => adoptRing c handles poolSize
     | None => let! (ok, c) := allocateRing c width height poolSize in
               ret (if (ok : bool) then FL_OK else FL_INTERNAL, c)
     end) in
  return_if! negb (bool_decide (allocation = FL_OK)) with ret (allocation, c) ;;
  let! (ok, c) := resetSync c in
  ret (if (ok : bool) then FL_OK else FL_INTERNAL, c).

Definition createChannel (name : list Z) (width height format poolSize flags : Z)
  (adapterLUID : option (list Z)) (external : option (list Z))
  : M (flResult * option (flChannel * AcceptState)) :=
  return_if! negb (validGeometry width height format) with ret (FL_INVALID, None) ;;
  return_if! negb (format =? FL_FORMAT_BGRA8) && negb (format =? FL_FORMAT_RGBA8)
          && negb (format =? FL_FORMAT_RGB10A2) && negb (format =? FL_FORMAT_NV12)
    with ret (FL_FORMAT_UNSUPPORTED, None) ;;
  return_if! (poolSize =? 0) || (Z.of_nat kMaxPool <? poolSize) with ret (FL_INVALID, None) ;;
  let! (ok, c) := setupDevice (consumerChannel name flags) adapterLUID in
  return_if! negb ok with (flClose c Finished ;; ret (FL_INTERNAL, None)) ;;
  let c := set_info c (mkChannelInfo FL_VERSION width height format poolSize
                         (info_generation (ch_info c))) in
  let! (r, c) := setupRing c width height (Z.to_nat poolSize) external in
  return_if! negb (bool_decide (r = FL_OK)) with (flClose c Finished ;; ret (r, None)) ;;
  let! pipe := listenPipe in
  return_if! negb (truthy pipe) with (flClose c Finished ;; ret (FL_INTERNAL, None)) ;;
  ret (FL_OK, Some (c, Waiting pipe)).

Definition flCreateChannelOnAdapter (name : list Z) (width height format poolSize flags : Z)
  (adapterLUID : option (list Z)) := createChannel name width height format poolSize flags adapterLUID None.

Definition flCreateChannelFromD3D11Handles (name : list Z) (width height format poolSize flags : Z)
  (adapterLUID : option (list Z)) (handles : option (list Z))
  : M (flResult * option (flChannel * AcceptState)) :=
  let known := Z.lor FL_MAP_CPU (Z.lor FL_GPU_SYNC (Z.lor FL_DEFER_RELEASE (Z.lor FL_GPU_RENDER
                 (Z.lor FL_TRACK_ARRIVAL FL_REQUIRE_FRAME_METADATA)))) in
  match handles with
  | None => ret (FL_INVALID, None)
  | Some handles =>
    return_if! truthy (Z.land flags (not32 known)) with ret (FL_INVALID, None) ;;
    createChannel name width height format poolSize flags adapterLUID (Some handles)
  end.

Definition flCreateChannelEx (name : list Z) (width height format poolSize flags : Z) :=
  flCreateChannelOnAdapter name width height format poolSize flags None.

Definition flCreateChannel (name : list Z) (width height format poolSize : Z) :=
  flCreateChannelEx name width height format poolSize 0.

(** ** Opening *)

(** The hello exchange of [flOpenProducer]; [inl] is its failing return. *)
Definition producerHello c : M (flResult + HelloMsg * flChannel) :=
  let! (helloMsg, c) := recvLink c in
  let srv := match helloMsg with
             | Some m => if (mg_type m =? MsgType.Hello) && Nat.eqb (length (mg_payload m)) (sizeof HelloMsg)
                         then as_ HelloMsg (mg_payload m) else None
             | None => None
             end in
  match srv with
  | None => deleteChannel c ;; ret (inl FL_DISCONNECTED)
  | Some srv =>
    return_if! negb (he_version srv =? FL_VERSION) with (deleteChannel c ;; ret (inl FL_VERSION_MISMATCH)) ;;
    return_if! negb (compatibleFeatures (localFeatures 0) (he_pad srv))
      with (deleteChannel c ;; ret (inl FL_VERSION_MISMATCH)) ;;
    let c := set_peerFeatures c (he_pad srv) in
    let! (ok, c) := sendLink c MsgType.Hello
      (encode (mkHello FL_VERSION w_pid 0 (localFeatures 0) (replicate 8 0))) in
    return_if! negb ok with (deleteChannel c ;; ret (inl FL_INTERNAL)) ;;
    ret (inr (srv, c))
  end.

(** The ring of [flOpenProducer]. *)
Definition producerRing c : M (flResult * flChannel) :=
  let! (poolMsg, c) := recvLink c in
  match poolMsg with
  | None => ret (FL_DISCONNECTED, c)
  | Some m =>
    return_if! mg_type m =? MsgType.Busy with ret (FL_BUSY, c) ;;
    return_if! negb (mg_type m =? MsgType.RingDesc) with ret (FL_DISCONNECTED, c) ;;
    match as_ RingDescMsg (mg_payload m) with
    | None => ret (FL_INTERNAL, c)
    | Some pd =>
      return_if! (rd_poolSize pd =? 0) || (Z.of_nat kMaxPool <? rd_poolSize pd) with ret (FL_INTERNAL, c) ;;
      importRing c pd
    end
  end.

Definition flOpenProducer (name : list Z) : M (flResult * option flChannel) :=
  let! linked := connectPipe connectRounds name 250 in
  let '(link, busy) := match linked with Some x => x | None => (noChannel, true) end in
  let c := set_link (set_name newChannel name) link in
  return_if! negb (connected link) with
    (deleteChannel c ;; ret (if (busy : bool) then FL_BUSY else FL_NOT_FOUND, None)) ;;
  let! hello := producerHello c in
  match hello with
  | inl r => ret (r, None)
  | inr (srv, c) =>
    let! dev := createDevice (he_luid srv) (truthy (he_luidValid srv)) in
    let! (ok, c) := (if truthy dev then finishDeviceSetup (set_device c dev) else ret (false, c)) in
    return_if! negb ok with (flClose c Finished ;; ret (FL_INTERNAL, None)) ;;
    let! (r, c) := producerRing (set_adapterLUID c (he_luid srv)) in
    return_if! negb (bool_decide (r = FL_OK)) with (flClose c Finished ;; ret (r, None)) ;;
    let i := ch_info c in
    ret (FL_OK, Some (set_info c (mkChannelInfo FL_VERSION (info_width i) (info_height i)
      (info_format i) (info_poolSize i) (info_generation i))))
  end.

(** ** Queries *)

Definition flQuery c : flResult * flChannelInfo := (FL_OK, ch_info c).

(** [img] is the pointer; the object is looked up in the ring. *)
Definition flImageMemoryInfo c (img version size : Z) : M (flResult * option flMemoryResourceInfo) :=
  return_if! negb (size =? 168) with ret (FL_INVALID, None) ;;
  return_if! negb (version =? FL_MEMORY_INFO_VERSION) with ret (FL_VERSION_MISMATCH, None) ;;
  match List.find (fun '(a, im) => (a =? img)) (ch_images c) with
  | None => ret (FL_INVALID, None)
  | Some (_, im) =>
    return_if! negb (truthy (im_tex im)) with ret (FL_INVALID, None) ;;
    let d := w_desc (im_tex im) in
    let bit flag usage := if has_flag (td_BindFlags d) flag then usage else 0 in
    let mapped := truthy (im_mapped im).1 in
    let! luid := ask (fun t => w_deviceLuid t (im_tex im)) in
    let known := Z.lor (Z.lor FL_MEMORY_INFO_NATIVE_USAGE (Z.lor FL_MEMORY_INFO_DIRECT_USAGE
                   FL_MEMORY_INFO_MAP_OPERATIONS))
                   (Z.lor (if mapped then FL_MEMORY_INFO_MAPPED_USAGE else 0)
                          (if bool_decide (is_Some luid) then FL_MEMORY_INFO_DEVICE else 0)) in
    ret (FL_OK, Some (mkInfo FL_MEMORY_INFO_VERSION FL_MEMORY_D3D11 (info_format (ch_info c))
      (td_Width d) (td_Height d) (td_Format d) known 0 (td_BindFlags d) 0 (replicate 4 0) (replicate 4 0)
      (Z.lor (bit D3D11_BIND_SHADER_RESOURCE FL_MEMORY_GPU_SAMPLE)
         (Z.lor (bit D3D11_BIND_RENDER_TARGET FL_MEMORY_GPU_RENDER)
                (bit D3D11_BIND_DECODER FL_MEMORY_DECODER_OUTPUT)))
      (if mapped then Z.lor FL_MEMORY_CPU_READ (if im_producer im then FL_MEMORY_CPU_WRITE else 0) else 0)
      (Z.lor (Z.lor FL_MEMORY_COPY FL_MEMORY_READBACK) (if im_producer im then FL_MEMORY_UPLOAD else 0))
      (if bool_decide (is_Some luid) then FL_MEMORY_DEVICE_DXGI_LUID else 0)
      (match luid with Some l => l ++ replicate 8 0 | None => replicate 16 0 end)
      (Z.lor FL_MEMORY_SYNC_CPU_WAIT FL_MEMORY_SYNC_TIMELINE) FL_MEMORY_HANDLE_NT
      (Z.lor (Z.lor FL_MEMORY_INTEROP_RING_IMPORT FL_MEMORY_INTEROP_BORROW_NATIVE)
         (if ch_externalPool c then FL_MEMORY_INTEROP_EXTERNAL_POOL else 0))
      (info_generation (ch_info c))))
  end.
End Lifetime.
