(* ===== verification/WinLifetime.v ===== *)
(** * Who owns handles (Windows)

    Every HANDLE a call brings into being is closed by it or owned by the channel
    it leaves: [flClose] closes exactly what the channel and its accept thread
    own, a creation that fails leaks nothing, and an import either takes over the
    handles it was given or closes each of them once. *)
From stdpp Require Import sorting.
From S2P Require Import Prelude Api Kernel Resources Windows Wire Ipc WinIpc WinState WinImage WinRing.
From S2P Require Import WinProducer WinConsumer WinChannel.
From S2P Require Ledger.

(** ** What an object owns *)

Definition handles_res (l : list Z) : list Res := concat (map handle_res l).

Definition owned_images (l : list (Z * flImage)) : list Res :=
  concat (map (fun x => handle_res (im_shared x.2)) l).
Definition owned_fences (c : flChannel) : list Res :=
  handle_res (ch_readyShared c) ++ handle_res (ch_consumedShared c).
Definition owned_rest (c : flChannel) : list Res :=
  handle_res (ch_waitEvent c) ++ handle_res (handle_ (ch_link c)).
Definition owned (c : flChannel) : list Res :=
  owned_images (ch_images c) ++ owned_fences c ++ owned_rest c.

(** What the accept thread holds. *)
Definition owned_thread (st : AcceptState) : list Res :=
  match st with
  | Waiting pipe => [RHandle pipe]
  | Serving link => handle_res (handle_ link)
  | Listening | Finished => []
  end.

Lemma win_owned_images_snoc l x : owned_images (l ++ [x]) = owned_images l ++ handle_res (im_shared x.2).
Proof. unfold owned_images. rewrite map_app, concat_app. simpl. by rewrite app_nil_r. Qed.

Section Rules.
Context `{W : Windows}.
Implicit Types (c : flChannel).

(** ** Disposing *)

Lemma destroyImage_moves img a : moves a (destroyImage img) (fun _ => a) (fun _ => True).
Proof. unfold destroyImage. destruct (_ && _); [by apply moves_effect|by apply moves_ret]. Qed.

Lemma closeImage_moves x a :
  moves (handle_res (im_shared x.2) ++ a) (closeImage x) (fun _ => a) (fun _ => True).
Proof.
  unfold closeImage. eapply moves_bind; [by apply (moves_handle _ _ (fun _ => True))|]. intros [] _.
  eapply moves_bind; [apply destroyImage_moves|]. intros [] _. by apply moves_effect.
Qed.

Lemma closeImages_moves l a :
  moves (owned_images l ++ a) (mfor l closeImage) (fun _ => a) (fun _ => True).
Proof.
  apply (moves_mfor l closeImage (fun x => handle_res (im_shared x.2))); [done|].
  intros x b _. apply closeImage_moves.
Qed.

Lemma win_close_moves ch a :
  moves (handle_res (handle_ ch) ++ a) (win_close ch) (fun _ => a) (fun _ => True).
Proof.
  unfold win_close. eapply moves_bind; [by apply (moves_handle _ _ (fun _ => True))|].
  intros [] _. by apply moves_ret.
Qed.

Lemma fences_moves c a :
  moves (owned_fences c ++ a)
    (closeHandle_valid (ch_readyShared c) ;; closeHandle_valid (ch_consumedShared c))
    (fun _ => a) (fun _ => True).
Proof.
  unfold owned_fences. rewrite <- app_assoc.
  eapply moves_bind; [by apply (moves_handle _ _ (fun _ => True))|]. intros [] _.
  by apply moves_handle.
Qed.

(** ** Control messages *)

Lemma win_send_moves ch type payload a :
  moves a (win_send ch type payload) (fun _ => a) (fun r => handle_ r.2 = handle_ ch).
Proof.
  unfold win_send. destruct (negb _); [by apply moves_ret|]. destruct (_ <? _); [by apply moves_ret|].
  eapply moves_bind; [by apply (moves_ask _ _ (fun _ => True))|]. intros written _.
  eapply moves_bind; [by apply (moves_effect _ _ (fun _ => True))|]. intros [] _.
  destruct written; by apply moves_ret.
Qed.

Lemma win_recv_moves ch a :
  moves a (win_recv ch) (fun _ => a) (fun r => handle_ r.2 = handle_ ch).
Proof.
  unfold win_recv. destruct (negb _); [by apply moves_ret|].
  eapply moves_bind; [by apply (moves_ask _ _ (fun _ => True))|]. intros buf _.
  destruct buf as [buf|]; [|by apply moves_ret]. destruct (parsePipe buf); by apply moves_ret.
Qed.

Lemma connectPipe_moves fuel name timeoutMs a :
  moves a (connectPipe fuel name timeoutMs)
    (fun r => match r with Some (ch, _) => handle_res (handle_ ch) | None => [] end ++ a)
    (fun _ => True).
Proof.
  unfold connectPipe. eapply moves_bind; [by apply (moves_ask _ _ (fun _ => True))|]. intros now _.
  generalize (pipePath name), (wrap32 (now + timeoutMs)), false.
  induction fuel as [|fuel IH]; intros path deadline busy; cbn [connectPipeLoop]; [by apply moves_ret|].
  eapply moves_bind; [by apply (moves_handle_created _ _ (fun _ => True))|]. intros pipe _.
  destruct (truthy pipe) eqn:E; [by apply moves_ret|].
  eapply moves_perm; [unfold handle_res; by rewrite E|]. cbn [app].
  eapply moves_bind; [by apply (moves_ask _ _ (fun _ => True))|]. intros e _.
  destruct (negb _); [by apply moves_ret|].
  eapply moves_bind; [by apply (moves_ask _ _ (fun _ => True))|]. intros now' _.
  destruct (_ <=? _); [by apply moves_ret|]. apply IH.
Qed.

(** ** Closing *)

Lemma stopThread_moves st a :
  moves (owned_thread st ++ a) (stopThread st) (fun _ => a) (fun _ => True).
Proof.
  destruct st as [|pipe|link|]; cbn [owned_thread stopThread]; [by apply moves_ret| | |by apply moves_ret].
  - apply emits_effect. split; [|done]. unfold account. simpl. by rewrite app_nil_r.
  - eapply moves_bind; [apply win_close_moves|]. intros [] _. by apply moves_ret.
Qed.

(** Only a consumer has an accept thread. *)
Definition thread_of c (st : AcceptState) : list Res := if ch_isConsumer c then owned_thread st else [].

Lemma detach_moves c st a :
  moves (thread_of c st ++ a) (detach c st) (fun _ => a) (fun _ => True).
Proof.
  unfold detach, thread_of. destruct (ch_isConsumer c).
  - eapply moves_bind; [apply connectPipe_moves|]. intros poke _.
    eapply moves_bind with (b := fun _ => owned_thread st ++ a) (Q := fun _ => True).
    + destruct poke as [[ch busy]|]; [apply win_close_moves|apply (win_close_moves noChannel)].
    + intros _ _. apply stopThread_moves.
  - destruct (connected _); [|by apply moves_ret].
    eapply moves_bind; [apply win_send_moves|]. intros r _. by apply moves_ret.
Qed.

Lemma flClose_moves c st a :
  moves (thread_of c st ++ owned c ++ a) (flClose c st) (fun _ => a) (fun _ => True).
Proof.
  unfold flClose, owned, owned_fences, owned_rest. rewrite <- !app_assoc.
  eapply moves_bind; [apply detach_moves|]. intros [] _.
  eapply moves_bind; [apply closeImages_moves|]. intros [] _.
  eapply moves_bind; [by apply (moves_handle _ _ (fun _ => True))|]. intros [] _.
  eapply moves_bind; [by apply (moves_handle _ _ (fun _ => True))|]. intros [] _.
  eapply moves_bind; [by apply (moves_handle _ _ (fun _ => True))|]. intros [] _.
  unfold deleteChannel. eapply moves_bind; [apply win_close_moves|]. intros x _. by apply moves_ret.
Qed.

(** ** Building the ring *)

Lemma allocateOne_moves w h i c a :
  moves (owned c ++ a) (allocateOne w h i c)
    (fun r => match r with inl c' | inr c' => owned c' end ++ a)
    (fun r => ch_isConsumer match r with inl c' | inr c' => c' end = ch_isConsumer c).
Proof.
  unfold allocateOne, new_image. eapply moves_bind; [by apply (moves_ask _ _ (fun _ => True))|]. intros addr _.
  eapply moves_bind; [by apply (moves_ask _ _ (fun _ => True))|]. intros tex _.
  destruct (truthy tex); cbn [negb].
  2:{ eapply moves_bind; [by apply (moves_effect _ _ (fun _ => True))|]. intros [] _. by apply moves_ret. }
  eapply moves_bind; [by apply (moves_handle_created _ _ (fun _ => True))|]. intros shared _.
  destruct (truthy shared) eqn:E; cbn [negb].
  - apply moves_ret; [|done]. unfold owned. cbn [ch_images set_images set_slotReadyValue].
    rewrite win_owned_images_snoc. cbn [snd im_shared set_shared]. rewrite <- !app_assoc.
    change (owned_fences (set_slotReadyValue _ _)) with (owned_fences c).
    change (owned_rest (set_slotReadyValue _ _)) with (owned_rest c).
    rewrite Permutation_app_swap_app. done.
  - eapply moves_bind; [by apply (moves_effect _ _ (fun _ => True))|]. intros [] _.
    unfold handle_res. rewrite E. by apply moves_ret.
Qed.

Lemma allocateRing_moves c w h n a :
  moves (owned c ++ a) (allocateRing c w h n) (fun r => owned r.2 ++ a)
    (fun r => ch_isConsumer r.2 = ch_isConsumer c).
Proof.
  unfold allocateRing. eapply moves_bind; [by apply (moves_ask _ _ (fun _ => True))|]. intros dev5 _.
  destruct dev5; cbn [negb]; [|by apply moves_ret].
  eapply moves_bind.
  - apply (moves_mloop owned owned (fun c' => ch_isConsumer c' = ch_isConsumer c)
      (fun c' => ch_isConsumer c' = ch_isConsumer c)); [done|].
    intros i s _ Hs. eapply moves_mono; [apply allocateOne_moves|done|].
    intros [c'|c'] Hc; split; congruence || done.
  - intros [c'|c'] Hc; by apply moves_ret.
Qed.

Lemma owned_push c a img :
  owned (set_images c (ch_images c ++ [(a, img)])) ≡ₚ handle_res (im_shared img) ++ owned c.
Proof.
  unfold owned. cbn [ch_images set_images]. rewrite win_owned_images_snoc. cbn [snd].
  rewrite <- !app_assoc. by rewrite Permutation_app_swap_app.
Qed.

Lemma win_adoptOne_moves compare handles i c a :
  moves (owned c ++ a) (adoptOne compare handles i c)
    (fun r => match r with inl c' => owned c' | inr e => owned e.2 end ++ a)
    (fun r => match r with inl c' => ch_isConsumer c' = ch_isConsumer c
                         | inr e => ch_isConsumer e.2 = ch_isConsumer c /\ e.1 <> FL_OK end).
Proof.
  unfold adoptOne, new_image. destruct (_ || _); [by apply moves_ret|].
  destruct (existsb _ _); [by apply moves_ret|].
  eapply moves_bind; [by apply (moves_ask _ _ (fun _ => True))|]. intros addr _.
  eapply moves_bind; [by apply (moves_handle_created _ _ (fun _ => True))|]. intros shared _.
  destruct (truthy shared) eqn:E; cbn [negb].
  2:{ apply moves_ret; [|done]. cbn [snd]. rewrite owned_push. unfold handle_res. by rewrite E. }
  eapply moves_bind; [by apply (moves_ask _ _ (fun _ => True))|]. intros tex _.
  destruct (truthy tex); cbn [negb].
  2:{ apply moves_ret; [|done]. cbn [snd]. by rewrite owned_push, app_assoc. }
  destruct (adoptable _ _); cbn [negb]; (apply moves_ret; [|done]).
  - change (owned (set_slotReadyValue ?x _)) with (owned x). by rewrite owned_push, app_assoc.
  - cbn [snd]. by rewrite owned_push, app_assoc.
Qed.

Lemma win_adoptRing_moves c handles n a :
  moves (owned c ++ a) (adoptRing c handles n) (fun r => owned r.2 ++ a)
    (fun r => ch_isConsumer r.2 = ch_isConsumer c).
Proof.
  unfold adoptRing. destruct w_compareHandles as [compare|]; [|by apply moves_ret].
  eapply moves_bind; [by apply (moves_ask _ _ (fun _ => True))|]. intros dev1 _.
  destruct dev1; cbn [negb]; [|by apply moves_ret].
  eapply moves_bind.
  - apply (moves_mloop owned (fun e => owned e.2) (fun c' => ch_isConsumer c' = ch_isConsumer c)
      (fun e => ch_isConsumer e.2 = ch_isConsumer c)); [done|].
    intros i s _ Hs. eapply moves_mono; [apply win_adoptOne_moves|done|].
    intros [c'|e] Hc; (split; [done|]); destruct_and?; congruence.
  - intros [c'|e] Hc; by apply moves_ret.
Qed.

(** [resetSync] closes the old fences' handles and leaves the new ones. *)
Lemma createFences_moves c a :
  moves (owned c ++ a) (createFences c) (fun r => owned r.2 ++ a)
    (fun r => ch_isConsumer r.2 = ch_isConsumer c).
Proof.
  unfold createFences.
  eapply moves_perm with (a := handle_res (ch_readyShared c) ++ handle_res (ch_consumedShared c)
    ++ owned_images (ch_images c) ++ owned_rest c ++ a).
  { unfold owned, owned_fences. solve_Permutation. }
  eapply moves_bind; [by apply (moves_handle _ _ (fun _ => True))|]. intros [] _.
  eapply moves_bind; [by apply (moves_handle _ _ (fun _ => True))|]. intros [] _.
  assert (forall r, owned r = owned_images (ch_images r) ++ handle_res (ch_readyShared r)
    ++ handle_res (ch_consumedShared r) ++ owned_rest r) as Ho.
  { intros r. unfold owned, owned_fences. by rewrite <- app_assoc. }
  eapply moves_bind; [by apply (moves_ask _ _ (fun _ => True))|]. intros ready _.
  destruct (truthy ready); cbn [negb]; [|apply moves_ret; [rewrite Ho; by rewrite <- app_assoc|done]].
  eapply moves_bind; [by apply (moves_ask _ _ (fun _ => True))|]. intros consumed _.
  destruct (truthy consumed); cbn [negb]; [|apply moves_ret; [rewrite Ho; by rewrite <- app_assoc|done]].
  eapply moves_bind; [by apply (moves_handle_created _ _ (fun _ => True))|]. intros rs _.
  destruct (truthy rs) eqn:E; cbn [negb].
  2:{ unfold handle_res at 1. rewrite E. apply moves_ret; [rewrite Ho|done].
      cbn [snd ch_images ch_readyShared ch_consumedShared set_readyShared set_consumedFence set_readyFence
           set_consumedShared]. unfold handle_res at 1. rewrite E. by rewrite <- app_assoc. }
  eapply moves_bind; [by apply (moves_handle_created _ _ (fun _ => True))|]. intros cs _.
  apply moves_ret; [rewrite Ho|done].
  cbn [snd ch_images ch_readyShared ch_consumedShared set_readyShared set_consumedFence set_readyFence
       set_consumedShared]. unfold owned_rest. cbn. solve_Permutation.
Qed.

Lemma resetSync_moves c a :
  moves (owned c ++ a) (resetSync c) (fun r => owned r.2 ++ a) (fun r => ch_isConsumer r.2 = ch_isConsumer c).
Proof.
  unfold resetSync. eapply moves_bind; [by apply (moves_ask _ _ (fun _ => True))|]. intros dev5 _.
  destruct dev5; cbn [negb]; [|by apply moves_ret].
  eapply moves_bind; [apply createFences_moves|]. intros [ok c'] Hc. cbn [snd] in Hc |- *.
  destruct ok; cbn [negb]; [|by apply moves_ret].
  eapply moves_bind; [by apply (moves_effect _ _ (fun _ => True))|]. intros [] _. by apply moves_ret.
Qed.

(** ** Creating *)

Lemma createDevice_moves luid valid a : moves a (createDevice luid valid) (fun _ => a) (fun _ => True).
Proof.
  unfold createDevice. eapply moves_bind; [by apply (moves_ask _ _ (fun _ => True))|]. intros f _.
  destruct f as [l|]; [by apply moves_ask|by apply moves_ret].
Qed.

(** A channel that owns no handle yet. *)
Definition fresh c : Prop :=
  ch_images c = [] /\ ch_readyShared c = 0 /\ ch_consumedShared c = 0 /\ ch_waitEvent c = 0.

Lemma finishDeviceSetup_moves c a :
  ch_waitEvent c = 0 ->
  moves (owned c ++ a) (finishDeviceSetup c) (fun r => owned r.2 ++ a)
    (fun r => ch_isConsumer r.2 = ch_isConsumer c).
Proof.
  intros Hw. unfold finishDeviceSetup. eapply moves_bind; [by apply (moves_ask _ _ (fun _ => True))|].
  intros ctx _. destruct (truthy ctx); cbn [negb]; [|by apply moves_ret].
  eapply moves_bind; [by apply (moves_handle_created _ _ (fun _ => True))|]. intros e _.
  apply moves_ret; [|done]. unfold owned, owned_fences, owned_rest. cbn. rewrite Hw. simpl.
  solve_Permutation.
Qed.

Lemma setupDevice_moves c luid a :
  fresh c ->
  moves (owned c ++ a) (setupDevice c luid) (fun r => owned r.2 ++ a)
    (fun r => ch_isConsumer r.2 = ch_isConsumer c).
Proof.
  intros (_ & _ & _ & Hw). unfold setupDevice. eapply moves_bind; [apply createDevice_moves|].
  intros dev _. destruct (truthy dev); cbn [negb]; [|by apply moves_ret].
  eapply moves_bind; [by apply (finishDeviceSetup_moves (set_device c dev))|].
  intros [ok c'] Hc. cbn [snd] in Hc |- *. destruct ok; cbn [negb]; [|by apply moves_ret].
  eapply moves_bind; [by apply (moves_ask _ _ (fun _ => True))|]. intros [id|] _; by apply moves_ret.
Qed.

Lemma setupRing_moves c w h n external a :
  moves (owned c ++ a) (setupRing c w h n external) (fun r => owned r.2 ++ a)
    (fun r => ch_isConsumer r.2 = ch_isConsumer c).
Proof.
  unfold setupRing. set (c1 := set_externalPool c _).
  eapply moves_bind with (b := fun r => owned r.2 ++ a) (Q := fun r => ch_isConsumer r.2 = ch_isConsumer c).
  - change (owned c) with (owned c1). change (ch_isConsumer c) with (ch_isConsumer c1).
    destruct external as [handles|]; [apply win_adoptRing_moves|].
    eapply moves_bind; [apply allocateRing_moves|]. intros [ok c2] Hc. by apply moves_ret.
  - intros [r c2] Hc. cbn [snd] in Hc |- *.
    destruct (bool_decide (r = FL_OK)); cbn [negb]; [|by apply moves_ret].
    eapply moves_bind; [apply resetSync_moves|]. intros [ok c3] Hc'.
    apply moves_ret; [done|]. cbn [snd] in *. congruence.
Qed.

(** What a successful creation leaves. *)
Definition created_res (r : flResult * option (flChannel * AcceptState)) : list Res :=
  match r.2 with Some (c, st) => owned_thread st ++ owned c | None => [] end.

Lemma close_fresh_moves c r :
  ch_isConsumer c = true -> r <> FL_OK ->
  moves (owned c ++ []) (flClose c Finished ;; ret (r, None)) created_res
    (fun x => x.1 = FL_OK <-> is_Some x.2).
Proof.
  intros Hc Hr. eapply moves_bind.
  - eapply moves_perm; [|apply (flClose_moves c Finished [])]. unfold thread_of. by rewrite Hc.
  - intros [] _. apply moves_ret; [done|]. cbn. split; [done|by intros []].
Qed.

Lemma win_createChannel_moves name width height format poolSize flags luid external :
  moves [] (createChannel name width height format poolSize flags luid external) created_res
    (fun x => x.1 = FL_OK <-> is_Some x.2).
Proof.
  assert (forall r, r <> FL_OK -> moves [] (ret (r, None)) created_res
    (fun x => x.1 = FL_OK <-> is_Some x.2)) as Hno.
  { intros r Hr. apply moves_ret; [done|]. cbn. split; [done|by intros []]. }
  unfold createChannel. destruct (negb (validGeometry _ _ _)); [by apply Hno|].
  destruct (_ && _ && _ && _); [by apply Hno|]. destruct (_ || _); [by apply Hno|].
  eapply moves_bind with (a := owned (consumerChannel name flags) ++ []).
  { by apply (setupDevice_moves (consumerChannel name flags)). }
  intros [ok c] Hc. cbn [snd] in Hc |- *. destruct ok; cbn [negb]; [|by apply close_fresh_moves].
  set (c1 := set_info c _). change (owned c) with (owned c1).
  assert (ch_isConsumer c1 = true) as Hc1 by exact Hc.
  eapply moves_bind; [apply setupRing_moves|]. intros [r c2] Hc2. cbn [snd] in Hc2 |- *.
  case_bool_decide as Hr; cbn [negb]; [|apply close_fresh_moves; congruence].
  eapply moves_bind; [by apply (moves_handle_created _ _ (fun _ => True))|]. intros pipe _.
  unfold handle_res at 1. destruct (truthy pipe) eqn:E; cbn [negb].
  - apply moves_ret; [|cbn; split; [by eexists|done]]. cbn. by rewrite app_nil_r.
  - apply close_fresh_moves; [congruence|done].
Qed.

(** Creating a Windows channel leaks no handle: every handle the call brought
    into being - events, shared textures and fences, duplicates of adopted
    textures, the pipe - it closed, except those the channel it returns and its
    accept thread own; it returns a channel exactly when it answers FL_OK. *)
Theorem win_create_no_leak name width height format poolSize flags luid external w :
  let '(r, w') := createChannel name width height format poolSize flags luid external w in
  let es := effects_of w w' in
  (r.1 = FL_OK <-> is_Some r.2) /\ gained es ≡ₚ lost es ++ created_res r.
Proof.
  pose proof (emits_run _ _ w (win_createChannel_moves name width height format poolSize flags luid external)) as HE.
  destruct (createChannel _ _ _ _ _ _ _ _ w) as [r w']. cbn [fst snd] in HE |- *.
  destruct HE as [HE HQ]. by split.
Qed.

(** Closing a Windows channel releases exactly what it and its accept thread
    own: the handle of every image, both shared fences, the wait event, the pipes -
    each once - and nothing else. *)
Theorem win_close_releases_all c st w :
  let es := effects_of w (flClose c st w).2 in thread_of c st ++ owned c ++ gained es ≡ₚ lost es.
Proof.
  pose proof (emits_run _ _ w (flClose_moves c st [])) as [HE _]. unfold account in HE.
  by rewrite !app_nil_r, <- app_assoc in HE.
Qed.
End Rules.
