(* ===== verification/WinImport.v ===== *)
(** * Importing a ring on Windows

    [importRing] owns the handles of the message it is given, whatever happens:
    a failed import changes nothing and closes each of them exactly once, a
    successful one closes the old ring's and installs the new ring. *)
From stdpp Require Import sorting.
From S2P Require Import Prelude Api Kernel Resources Windows Wire Ipc WinIpc WinState WinImage WinRing.
From S2P Require Import WinProducer WinConsumer WinChannel WinLifetime.

(** ** The handles [~Incoming] closes *)

Section Handles.
Variable l : list Z.

Let pick (i : nat) : option Z :=
  let h := nth i l 0 in if truthy h && negb (existsb (Z.eqb h) (take i l)) then Some h else None.

Lemma pick_Some i h : pick i = Some h -> h = nth i l 0 /\ h <> 0 /\ h ∉ take i l.
Proof.
  unfold pick. destruct (truthy _) eqn:E1; [|done]. destruct (existsb _ _) eqn:E2; [done|].
  simpl. intros [= <-]. split; [done|]. split; [apply truthy_true in E1; done|].
  intros Hin. apply not_true_iff_false in E2. apply E2, existsb_exists.
  exists (nth i l 0). split; [by apply list_elem_of_In|apply Z.eqb_refl].
Qed.

Lemma picked_prefix n : (n <= length l)%nat ->
  NoDup (omap pick (seq 0 n)) /\ forall h, h ∈ omap pick (seq 0 n) <-> h <> 0 /\ h ∈ take n l.
Proof.
  induction n as [|n IH]; intros Hn.
  { split; [constructor|]. intros h. cbn. rewrite !elem_of_nil. naive_solver. }
  destruct IH as [HN HM]; [lia|]. rewrite seq_S, omap_app. simpl.
  assert (exists x, l !! n = Some x) as [x Hx] by (apply lookup_lt_is_Some; lia).
  assert (take (S n) l = take n l ++ [x]) as -> by by apply take_S_r.
  assert (nth n l 0 = x) as Hnth by (rewrite nth_lookup, Hx; done).
  destruct (pick n) as [h|] eqn:E.
  - apply pick_Some in E as (-> & H0 & Hnot). rewrite Hnth in *. split.
    + apply NoDup_app. split; [done|]. split; [|apply NoDup_singleton].
      intros y Hy ->%list_elem_of_singleton. by apply HM in Hy as [_ Hy].
    + intros h. rewrite !elem_of_app, HM, !list_elem_of_singleton. naive_solver.
  - rewrite app_nil_r. split; [done|]. intros h.
    rewrite HM, elem_of_app, list_elem_of_singleton. split; [naive_solver|].
    intros [H0 [Hin| ->]]; [done|]. split; [done|].
    destruct (decide (x ∈ take n l)) as [|Hnot]; [done|]. exfalso.
    unfold pick in E. rewrite Hnth in E.
    assert (truthy x = true) as Ht by by apply truthy_true. rewrite Ht in E. simpl in E.
    destruct (existsb _ _) eqn:Ex; [|done]. apply existsb_exists in Ex as (y & Hy & He).
    apply Z.eqb_eq in He as <-. by apply Hnot, list_elem_of_In.
Qed.

Lemma closedHandles_spec :
  NoDup (closedHandles l) /\ forall h, h ∈ closedHandles l <-> h <> 0 /\ h ∈ l.
Proof.
  destruct (picked_prefix (length l)) as [HN HM]; [done|]. split; [exact HN|].
  intros h. rewrite <- (firstn_all l) at 2. apply HM.
Qed.
End Handles.

Section Imported.
Context `{W : Windows}.
Implicit Types (c : flChannel) (pd : RingDescMsg).

(** ** Staging *)

Definition sharedHandles (images : list (Z * flImage)) : list Z := map (fun x => im_shared x.2) images.

Lemma stage_loop_moves pd n k staged a :
  moves a (mloop (seq k n) (stageImage pd) staged) (fun _ => a)
    (fun r => match r with
              | inl s => sharedHandles s = sharedHandles staged ++ map (fun i => nth i (rd_texture pd) 0) (seq k n)
              | inr e => e <> FL_OK
              end).
Proof.
  revert k staged. induction n as [|n IH]; intros k staged; cbn [seq mloop].
  { apply moves_ret; [done|]. by rewrite app_nil_r. }
  eapply moves_bind with (b := fun _ => a) (Q := fun r => match r with
    | inl s => sharedHandles s = sharedHandles staged ++ [nth k (rd_texture pd) 0]
    | inr e => e <> FL_OK end).
  - unfold stageImage, new_image. eapply moves_bind; [by apply (moves_ask _ _ (fun _ => True))|]. intros addr _.
    eapply moves_bind; [by apply (moves_ask _ _ (fun _ => True))|]. intros tex _.
    destruct (truthy tex); cbn [negb]; [|by apply moves_ret].
    destruct (importable _ _); cbn [negb]; (apply moves_ret; [done|]); [|done].
    unfold sharedHandles. by rewrite map_app.
  - intros [s|e] Hs; [|by apply moves_ret]. eapply moves_mono; [apply IH|done|].
    intros [s'|e] Hs'; (split; [done|]); [|done]. rewrite Hs', Hs. cbn [map]. by rewrite <- app_assoc.
Qed.

Definition ringHandles pd : list Z := map (fun i => nth i (rd_texture pd) 0) (seq 0 (Z.to_nat (rd_poolSize pd))).

Lemma stageRing_moves c pd a :
  moves a (stageRing c pd) (fun _ => a)
    (fun r => match r with
              | inl (images, ready, consumed) => sharedHandles images = ringHandles pd
              | inr e => e <> FL_OK
              end).
Proof.
  unfold stageRing. destruct (_ || _); [by apply moves_ret|].
  eapply moves_bind; [by apply (moves_ask _ _ (fun _ => True))|]. intros dev1 _.
  eapply moves_bind; [by apply (moves_ask _ _ (fun _ => True))|]. intros dev5 _.
  destruct (_ || _); [by apply moves_ret|].
  eapply moves_bind; [apply stage_loop_moves|]. intros [staged|e] Hs; [|by apply moves_ret].
  eapply moves_bind; [by apply (moves_ask _ _ (fun _ => True))|]. intros ready _.
  destruct (negb _); [by apply moves_ret|].
  eapply moves_bind; [by apply (moves_ask _ _ (fun _ => True))|]. intros consumed _.
  destruct (negb _); by apply moves_ret.
Qed.

(** ** The commit *)

(** [c'] has the ring of [pd] installed; everything the ring does not touch is [c]'s. *)
Definition ring_installed c pd c' : Prop :=
  sharedHandles (ch_images c') = ringHandles pd
  /\ ch_slotReadyValue c' = replicate (length (ch_images c')) 0
  /\ ch_readyShared c' = rd_readyFence pd /\ ch_consumedShared c' = rd_consumedFence pd
  /\ ch_info c' = mkChannelInfo (info_version (ch_info c)) (rd_width pd) (rd_height pd) (rd_format pd)
       (rd_poolSize pd) (rd_generation pd)
  /\ ch_link c' = ch_link c /\ ch_waitEvent c' = ch_waitEvent c
  /\ ch_readyValue c' = ch_readyValue c /\ ch_bufferReferences c' = ch_bufferReferences c.

(** The handles of the ring a channel has. *)
Definition owned_ring c : list Res := owned_images (ch_images c) ++ owned_fences c.

Lemma commitRing_moves c pd images ready consumed a :
  sharedHandles images = ringHandles pd ->
  moves (owned_ring c ++ a) (commitRing c pd images ready consumed) (fun _ => a) (ring_installed c pd).
Proof.
  intros Hs. unfold commitRing, owned_ring, owned_fences. rewrite <- !app_assoc.
  eapply moves_bind; [apply closeImages_moves|]. intros [] _.
  eapply moves_bind; [by apply (moves_handle _ _ (fun _ => True))|]. intros [] _.
  eapply moves_bind; [by apply (moves_handle _ _ (fun _ => True))|]. intros [] _.
  eapply moves_bind; [by apply (moves_effect _ _ (fun _ => True))|]. intros [] _.
  apply moves_ret; [done|]. by split_and!.
Qed.

Lemma closeHandles_moves l a :
  moves (map RHandle l ++ a) (mfor l closeHandle) (fun _ => a) (fun _ => True).
Proof.
  induction l as [|h l IH]; cbn [mfor map app]; [by apply moves_ret|].
  eapply moves_bind with (b := fun _ => map RHandle l ++ a) (Q := fun _ => True); [|intros [] _; exact IH].
  apply emits_effect. split; [|done]. unfold account. simpl. by rewrite app_nil_r.
Qed.

(** The handles the message brought. *)
Definition incoming pd : list Z := closedHandles (incomingHandles pd).

(** What [importRing] disposes of. *)
Definition replaced c pd (r : flResult) : list Res :=
  if bool_decide (r = FL_OK) then owned_ring c else map RHandle (incoming pd).

Lemma importRing_moves c pd :
  emits (importRing c pd) (fun x es =>
    account (replaced c pd x.1) es []
    /\ (x.1 = FL_OK -> ring_installed c pd x.2) /\ (x.1 <> FL_OK -> x.2 = c)).
Proof.
  unfold importRing. apply emits_bind. eapply emits_mono; [apply (stageRing_moves c pd [])|].
  intros [[[images ready] consumed]|e] es0 [H0 Hs].
  - apply emits_bind. eapply emits_mono; [apply (commitRing_moves c pd images ready consumed []), Hs|].
    intros c' es1 [H1 Hc]. apply emits_ret. cbn [fst snd]. split; [|by split].
    unfold replaced. rewrite bool_decide_eq_true_2 by done. cbn [app].
    rewrite app_nil_r in H1. eapply account_trans; [|exact H1].
    eapply (account_frame_l (owned_ring c)) in H0. by rewrite app_nil_r in H0.
  - unfold closeIncoming, replaced, incoming. generalize (closedHandles (incomingHandles pd)). intros l.
    apply emits_bind. eapply emits_mono; [apply (closeHandles_moves l [])|].
    intros [] es1 [H1 _]. apply emits_ret. cbn [fst snd]. split; [|by split].
    rewrite bool_decide_eq_false_2 by done. cbn [app].
    rewrite app_nil_r in H1. eapply account_trans; [|exact H1].
    eapply (account_frame_l (map RHandle l)) in H0. by rewrite app_nil_r in H0.
Qed.

(** [importRing] owns the handles the ring description brought, on every path.
    When it fails the channel is untouched and each distinct non-null incoming
    handle is closed exactly once; when it succeeds the channel has the described
    ring - slot [i]'s handle is texture [i], the two fences are the message's,
    every slot is free - and exactly the old ring's handles were closed. *)
Theorem win_import_owns c pd w :
  let '((r, c'), w') := importRing c pd w in
  let es := effects_of w w' in
  (r = FL_OK -> ring_installed c pd c' /\ owned_ring c ++ gained es ≡ₚ lost es)
  /\ (r <> FL_OK -> c' = c /\ map RHandle (incoming pd) ++ gained es ≡ₚ lost es)
  /\ NoDup (incoming pd)
  /\ (forall h, h ∈ incoming pd <-> h <> 0 /\ h ∈ incomingHandles pd).
Proof.
  pose proof (emits_run _ _ w (importRing_moves c pd)) as HE.
  destruct (importRing c pd w) as [[r c'] w']. cbn [fst snd] in HE. destruct HE as (Ha & H1 & H2).
  unfold account, replaced in Ha. rewrite app_nil_r in Ha.
  split; [|split; [|apply closedHandles_spec]].
  - intros Hr. split; [by apply H1|]. by rewrite bool_decide_eq_true_2 in Ha.
  - intros Hr. split; [by apply H2|]. by rewrite bool_decide_eq_false_2 in Ha.
Qed.
End Imported.
