(* ===== verification/WinRecycle.v ===== *)
(** * Acquiring a buffer on Windows

    [flAcquireBuffer] returns once the clock has passed the deadline at the
    latest, and its answer is exact.  Time is the time of the calls; other
    threads may release buffer references while the loop sleeps. *)
From S2P Require Import Prelude Api Kernel Windows Wire Ipc WinIpc WinState WinImage WinRing WinProducer.
From S2P Require BufferRefs.

Section Recycle.
Context `{W : Windows}.
Implicit Types (c : flChannel).

(** [c'] is [c] after other threads changed its references and the link was probed. *)
Definition waited c c' : Prop := exists refs l, c' = set_link (set_bufferReferences c refs) l.

Lemma waited_refl c : waited c c.
Proof. exists (ch_bufferReferences c), (ch_link c). by destruct c. Qed.

Lemma waited_trans c1 c2 c3 : waited c1 c2 -> waited c2 c3 -> waited c1 c3.
Proof. intros (r1 & l1 & ->) (r2 & l2 & ->). by exists r2, l2. Qed.

#[export] Instance waited_preorder : PreOrder waited.
Proof. split; [intros c; apply waited_refl|intros c1 c2 c3; apply waited_trans]. Qed.

(** What the other threads may do while this one waits. *)
Definition only_references (others : flChannel -> M flChannel) : Prop :=
  forall c w, (exists refs, (others c w).1 = set_bufferReferences c refs)
              /\ (w_tick w <= w_tick (others c w).2)%nat.

(** The first slot that is free when the consumed fence reads [consumed]. *)
Definition first_free c (consumed : Z) (i : nat) : Prop :=
  (i < length (ch_images c))%nat /\ slotFree c consumed i = true
  /\ forall j, (j < i)%nat -> slotFree c consumed j = false.

Definition none_free c (consumed : Z) : Prop :=
  forall i, (i < length (ch_images c))%nat -> slotFree c consumed i = false.

Lemma scan_some c consumed i : acquireScan c consumed = Some i -> first_free c consumed i.
Proof.
  intros H. apply find_index_Some in H as (x & Hx & Hp & Hmin).
  apply lookup_seq in Hx as [-> Hi]. split; [exact Hi|]. split; [exact Hp|].
  intros j Hj. apply (Hmin j); [exact Hj|]. apply lookup_seq. lia.
Qed.

Lemma scan_none c consumed : acquireScan c consumed = None -> none_free c consumed.
Proof.
  intros H i Hi. apply (proj1 (find_index_None _ _) H i). apply lookup_seq. lia.
Qed.

(** The answers the loop may give, with what each promises. *)
Inductive answered (deadline : Z) c : option flResult * option flBuffer * flChannel -> Prop :=
| answered_free c1 consumed i t :
    waited c c1 -> consumed = w_fenceValue t (ch_consumedFence c) -> consumed <> UINT64_MAX ->
    first_free c1 consumed i ->
    answered deadline c (Some FL_OK, Some (reserve c1 i).1, (reserve c1 i).2)
| answered_timeout c1 consumed t t' :
    waited c c1 -> consumed = w_fenceValue t (ch_consumedFence c) ->
    none_free c1 consumed -> deadline <= w_tickCount t' ->
    answered deadline c (Some FL_TIMEOUT, None, c1)
| answered_lost c1 t :
    waited c c1 -> w_fenceValue t (ch_consumedFence c) = UINT64_MAX ->
    answered deadline c (Some FL_DISCONNECTED, None, c1)
| answered_dead c1 :
    waited c c1 -> connected (ch_link c1) = false ->
    answered deadline c (Some FL_DISCONNECTED, None, c1).

Lemma answered_waited deadline c c1 o : waited c c1 -> answered deadline c1 o -> answered deadline c o.
Proof.
  intros Hw Ha. assert (ch_consumedFence c1 = ch_consumedFence c) as Hf by by destruct Hw as (? & ? & ->).
  inversion Ha; subst; rewrite ?Hf in *.
  - eapply answered_free; try done. by etrans.
  - eapply answered_timeout; try done. by etrans.
  - eapply answered_lost; try done. by etrans.
  - eapply answered_dead; try done. by etrans.
Qed.

Lemma peerAlive_link ch w :
  let '((alive, ch'), w') := peerAlive ch w in
  (w_tick w <= w_tick w')%nat /\ (alive = false -> connected ch' = false).
Proof.
  unfold peerAlive, connected. destruct (connected_ ch) eqn:E; cbn [negb].
  - cbn. destruct (w_peekPipe _ _); cbn; (split; [lia|done]).
  - cbn. split; [lia|done].
Qed.

Lemma waitTurn_tick c consumed remaining w : w_tick (waitTurn c consumed remaining w).2 = S (w_tick w).
Proof. unfold waitTurn. destruct (localBlocked _ _); [done|]. by destruct (_ =? _). Qed.

(** One round: an answer, or another round later with no slot free. *)
Lemma acquireRound_answers fuel others deadline c w :
  only_references others ->
  answered deadline c (acquireLoop (S fuel) others deadline c w).1
  \/ exists c1 w1 t, (w_tick w < w_tick w1)%nat /\ (w_tick w < t)%nat /\ w_tickCount t < deadline
       /\ waited c c1
       /\ acquireLoop (S fuel) others deadline c w = acquireLoop fuel others deadline c1 w1.
Proof.
  intros Ho. cbn [acquireLoop]. rewrite bind_run. cbn [fst snd].
  set (consumed := w_fenceValue (w_tick w) (ch_consumedFence c)).
  set (w1 := mkWorld (S (w_tick w)) (w_log w)).
  change (ask _ w) with (consumed, w1). cbn [fst snd].
  destruct (consumed =? UINT64_MAX) eqn:E; [left; eapply answered_lost; [done|by apply Z.eqb_eq in E]|].
  destruct (acquireScan c consumed) as [i|] eqn:Escan.
  { left. apply scan_some in Escan. pose proof (answered_free deadline c c consumed i (w_tick w)) as H.
    destruct (reserve c i) as [buf c']. apply H; try done. by apply Z.eqb_neq in E. }
  apply scan_none in Escan. rewrite bind_run. pose proof (peerAlive_link (ch_link c) w1) as Hp.
  destruct (peerAlive (ch_link c) w1) as [[alive l] w2]. cbn [fst snd]. destruct Hp as [Ht Hl].
  set (c1 := set_link c l). assert (waited c c1) as Hw1 by (exists (ch_bufferReferences c), l; by destruct c).
  destruct alive; cbn [negb]; [|left; eapply answered_dead; [exact Hw1|by apply Hl]].
  rewrite bind_run. change (ask w_tickCount w2) with (w_tickCount (w_tick w2), mkWorld (S (w_tick w2)) (w_log w2)).
  cbn [fst snd]. destruct (deadline <=? _) eqn:Ed.
  { left. eapply (answered_timeout deadline c c1 consumed (w_tick w)); [done..| |apply Z.leb_le, Ed].
    intros j Hj. by apply Escan. }
  right. rewrite !bind_run. set (w3 := (waitTurn _ _ _ _).2).
  assert (w_tick w3 = S (S (w_tick w2))) as Hw3 by apply waitTurn_tick.
  destruct (Ho c1 w3) as [(refs & Hrefs) Htick].
  exists (others c1 w3).1, (others c1 w3).2, (w_tick w2). simpl in Ht.
  split; [lia|]. split; [lia|]. split; [lia|]. split; [|done].
  etrans; [exact Hw1|]. rewrite Hrefs. exists refs, (ch_link c1). by destruct c.
Qed.

Lemma acquireLoop_answers fuel others deadline T c w :
  only_references others -> (forall t, (T <= t)%nat -> deadline <= w_tickCount t) ->
  (T <= w_tick w + fuel)%nat ->
  answered deadline c (acquireLoop (S fuel) others deadline c w).1.
Proof.
  intros Ho Hclock. revert c w. induction fuel as [|fuel IH]; intros c w Hfuel.
  - destruct (acquireRound_answers 0 others deadline c w Ho) as [H|(c1 & w1 & t & H1 & H2 & H3 & H4 & H5)];
      [exact H|].
    specialize (Hclock t ltac:(lia)). lia.
  - destruct (acquireRound_answers (S fuel) others deadline c w Ho)
      as [H|(c1 & w1 & t & H1 & H2 & H3 & H4 & H5)]; [exact H|].
    rewrite H5. eapply answered_waited; [exact H4|]. apply IH. lia.
Qed.

End Recycle.

(** Slot 0 is reserved, slot 1 waits for value 3, the consumed fence reads 2. *)
Definition exClock : Windows :=
  scriptedWindows (fun t => 10 * Z.of_nat t) (fun _ _ => 2) (fun _ _ => None).

Definition exFull : flChannel :=
  set_link (set_slotReadyValue (set_images newChannel [(4096, newImage); (8192, newImage)]) [UINT64_MAX; 3])
    (mkChan 500 true 0).

