(* ===== verification/EventChannel.v ===== *)
(** * The video event stream (gst/fl_gst_event_channel.hpp)

    One ordered, bounded control stream of 64-byte big-endian records.  The
    producer's side writes records with a serial number; the consumer's side runs
    a reader thread, one iteration of which is [readStep], and hands the events to
    the application in order.  The socket is a parameter: a write succeeds or not,
    and the reader is told what arrived. *)
From S2P Require Import Prelude.

(** [FlGstSessionResult] of gst/framelink_session_context.h *)
Inductive FlGstSessionResult :=
| FL_GST_SESSION_READY | FL_GST_SESSION_TIMEOUT | FL_GST_SESSION_CANCELLED
| FL_GST_SESSION_INVALID | FL_GST_SESSION_STALE.

#[export] Instance FlGstSessionResult_eq_dec : EqDecision FlGstSessionResult.
Proof. solve_decision. Defined.

Definition FL_GST_VIDEO_GAP : Z := 1.
Definition FL_GST_VIDEO_BARRIER : Z := 2.
Definition FL_GST_VIDEO_FLUSH : Z := 3.
Definition FL_GST_VIDEO_END : Z := 4.

Record FlGstVideoEvent := mkEvent { ev_kind : Z; ev_afterFrames : Z; ev_ptsNs : Z; ev_durationNs : Z }.

#[export] Instance FlGstVideoEvent_eq_dec : EqDecision FlGstVideoEvent.
Proof. solve_decision. Defined.

(** [static bool valid(const FlGstVideoEvent&)] *)
Definition event_valid (e : FlGstVideoEvent) : bool :=
  (FL_GST_VIDEO_GAP <=? ev_kind e) && (ev_kind e <=? FL_GST_VIDEO_END)
  && (ev_ptsNs e <=? INT64_MAX) && (ev_durationNs e <=? INT64_MAX - ev_ptsNs e)
  && (if ev_kind e =? FL_GST_VIDEO_GAP then 0 <? ev_durationNs e else ev_durationNs e =? 0).

(** [class FlGstEventChannel]; the reader thread's serial is its own local. *)
Record FlGstEventChannel := mkEvents {
  ec_producer : bool;
  ec_generation : Z;
  ec_events : list FlGstVideoEvent;
  ec_failed : bool;
  ec_cancelled : bool;      (* of the GCancellable *)
  ec_sent : Z;
}.

(** The constructor. *)
Definition newEvents (producer : bool) (generation : Z) : FlGstEventChannel :=
  mkEvents producer generation [] false false 0.

Definition set_events (c : FlGstEventChannel) (l : list FlGstVideoEvent) : FlGstEventChannel :=
  mkEvents (ec_producer c) (ec_generation c) l (ec_failed c) (ec_cancelled c) (ec_sent c).
Definition set_sent (c : FlGstEventChannel) (v : Z) : FlGstEventChannel :=
  mkEvents (ec_producer c) (ec_generation c) (ec_events c) (ec_failed c) (ec_cancelled c) v.
Definition events_cancel (c : FlGstEventChannel) : FlGstEventChannel :=
  mkEvents (ec_producer c) (ec_generation c) (ec_events c) (ec_failed c) true (ec_sent c).
Definition events_fail (c : FlGstEventChannel) : FlGstEventChannel :=
  mkEvents (ec_producer c) (ec_generation c) (ec_events c) true true (ec_sent c).

(** ** Records *)

(** GST_WRITE_UINT*_BE and GST_READ_UINT*_BE *)
Definition put_be (n : nat) (v : Z) : list Z := rev (put_le n v).
Definition read_be (n off : nat) (wire : list Z) : Z := le_value (rev (take n (drop off wire))).

(** "FLEVT001" *)
Definition eventMagic : list Z := [70; 76; 69; 86; 84; 48; 48; 49].

(** The record [send] writes. *)
Definition eventRecord (generation serial : Z) (e : FlGstVideoEvent) : list Z :=
  eventMagic ++ put_be 8 generation ++ put_be 4 (ev_kind e) ++ put_be 4 0
  ++ put_be 8 (ev_afterFrames e) ++ put_be 8 (ev_ptsNs e) ++ put_be 8 (ev_durationNs e)
  ++ put_be 8 serial ++ put_be 8 0.

(** [event] as the reader takes it from the record. *)
Definition readEvent (wire : list Z) : FlGstVideoEvent :=
  mkEvent (read_be 4 16 wire) (read_be 8 24 wire) (read_be 8 32 wire) (read_be 8 40 wire).

(** The test of the reader; the serial it expects is [serial + 1]. *)
Definition recordRejected (generation serial : Z) (wire : list Z) : bool :=
  negb (bool_decide (take 8 wire = eventMagic)) || negb (read_be 8 8 wire =? generation)
  || truthy (read_be 4 20 wire) || truthy (read_be 8 56 wire)
  || (serial =? UINT64_MAX) || negb (read_be 8 48 wire =? serial + 1)
  || negb (event_valid (readEvent wire)).

(** What an iteration of the reader finds on the socket. *)
Inductive Arrival :=
| Idle                       (* the timed wait timed out *)
| Broken                     (* the wait or the read failed *)
| Bytes (wire : list Z).     (* what [read_all] delivered *)

Definition kMaxEvents : nat := 32.

(** One iteration of [readLoop]: the channel and the serial, [None] when the
    thread returned. *)
Definition readStep (c : FlGstEventChannel) (serial : Z) (a : Arrival) : FlGstEventChannel * option Z :=
  return_if ec_cancelled c with (c, None) ;;
  match a with
  | Idle => (c, Some serial)
  | Broken => (events_fail c, None)
  | Bytes wire =>
    return_if negb (Nat.eqb (length wire) 64) with (events_fail c, None) ;;
    return_if recordRejected (ec_generation c) serial wire with (events_fail c, None) ;;
    let event := readEvent wire in
    return_if ev_kind event =? FL_GST_VIDEO_FLUSH with (events_fail c, None) ;;
    return_if (kMaxEvents <=? length (ec_events c))%nat with (events_fail c, None) ;;
    (set_events c (ec_events c ++ [event]), Some (serial + 1))
  end.

(** [send]: the result, the channel, and the record if it was handed to the
    socket; [written] is whether the socket took all of it. *)
Definition send_event (c : FlGstEventChannel) (e : FlGstVideoEvent) (written : bool)
  : FlGstSessionResult * FlGstEventChannel * option (list Z) :=
  return_if negb (ec_producer c) || negb (event_valid e) with (FL_GST_SESSION_INVALID, c, None) ;;
  return_if ec_failed c || ec_cancelled c with (FL_GST_SESSION_CANCELLED, c, None) ;;
  return_if ec_sent c =? UINT64_MAX with (FL_GST_SESSION_INVALID, c, None) ;;
  let c := set_sent c (ec_sent c + 1) in
  let wire := eventRecord (ec_generation c) (ec_sent c) e in
  if written then (FL_GST_SESSION_READY, c, Some wire)
  else (FL_GST_SESSION_CANCELLED, events_fail c, Some wire).

(** [peekEnd(out)]; [out] is whether the pointer is there. *)
Definition peekEnd (c : FlGstEventChannel) (out : bool) : option FlGstVideoEvent :=
  if ec_producer c || negb out then None else List.find (fun e => ev_kind e =? FL_GST_VIDEO_END) (ec_events c).

(** [receive]: after the wait, which the caller's schedule contains. *)
Definition receive_event (c : FlGstEventChannel) (timeout : Z) (out : bool)
  : FlGstSessionResult * option FlGstVideoEvent * FlGstEventChannel :=
  return_if ec_producer c || negb out || (60000 <? timeout) with (FL_GST_SESSION_INVALID, None, c) ;;
  match ec_events c with
  | e :: r => (FL_GST_SESSION_READY, Some e, set_events c r)
  | [] => (if ec_failed c || ec_cancelled c then FL_GST_SESSION_CANCELLED else FL_GST_SESSION_TIMEOUT, None, c)
  end.

(** * Properties *)

(** ** Records round-trip *)

Lemma length_put_be n v : length (put_be n v) = n.
Proof. unfold put_be. by rewrite length_rev, length_put_le. Qed.

Lemma read_put_be n off pre v post :
  length pre = off -> 0 <= v < 256 ^ Z.of_nat n -> read_be n off (pre ++ put_be n v ++ post) = v.
Proof.
  intros <- Hv. unfold read_be. rewrite drop_app_length.
  rewrite take_app_le, firstn_all2 by (rewrite length_put_be; lia).
  unfold put_be. rewrite rev_involutive. by apply le_value_put_le.
Qed.

(** An event the sender accepts, with the C type's ranges. *)
Definition event_ok (e : FlGstVideoEvent) : Prop :=
  event_valid e = true /\ u64 (ev_afterFrames e) /\ 0 <= ev_ptsNs e /\ 0 <= ev_durationNs e.

Lemma event_ranges e : event_ok e ->
  0 <= ev_kind e < 256 ^ 4 /\ 0 <= ev_afterFrames e < 256 ^ 8 /\ 0 <= ev_ptsNs e < 256 ^ 8
  /\ 0 <= ev_durationNs e < 256 ^ 8.
Proof.
  intros (Hv & Ha & Hp & Hd). unfold event_valid, FL_GST_VIDEO_GAP, FL_GST_VIDEO_END in Hv.
  change (256 ^ 4) with 4294967296. change (256 ^ 8) with 18446744073709551616.
  unfold u64, UINT64_MAX, INT64_MAX in *. lia.
Qed.

Lemma length_eventRecord g s e : length (eventRecord g s e) = 64%nat.
Proof. unfold eventRecord. rewrite !length_app, !length_put_be. reflexivity. Qed.

(** Read the field behind [pre]. *)
Ltac read_field pre :=
  match goal with
  | |- read_be ?n ?off ?l = ?v =>
    let H := fresh in
    eassert (l = pre ++ put_be n v ++ _) as H by (unfold eventRecord; rewrite <- ?app_assoc; reflexivity);
    rewrite H; apply read_put_be; [by rewrite ?length_app, ?length_put_be|]
  end.

Section Fields.
Variables (g s : Z) (e : FlGstVideoEvent).
Hypotheses (Hg : u64 g) (Hs : u64 s) (He : event_ok e).

Lemma field64 v : u64 v -> 0 <= v < 256 ^ Z.of_nat 8.
Proof. change (256 ^ Z.of_nat 8) with 18446744073709551616. unfold u64, UINT64_MAX. lia. Qed.

Lemma read_generation : read_be 8 8 (eventRecord g s e) = g.
Proof. read_field eventMagic. by apply field64. Qed.

Lemma read_kind : read_be 4 16 (eventRecord g s e) = ev_kind e.
Proof. read_field (eventMagic ++ put_be 8 g). by apply event_ranges. Qed.

Lemma read_pad : read_be 4 20 (eventRecord g s e) = 0.
Proof. read_field (eventMagic ++ put_be 8 g ++ put_be 4 (ev_kind e)). done. Qed.

Lemma read_frames : read_be 8 24 (eventRecord g s e) = ev_afterFrames e.
Proof. read_field (eventMagic ++ put_be 8 g ++ put_be 4 (ev_kind e) ++ put_be 4 0). by apply event_ranges. Qed.

Lemma read_pts : read_be 8 32 (eventRecord g s e) = ev_ptsNs e.
Proof.
  read_field (eventMagic ++ put_be 8 g ++ put_be 4 (ev_kind e) ++ put_be 4 0 ++ put_be 8 (ev_afterFrames e)).
  by apply event_ranges.
Qed.

Lemma read_duration : read_be 8 40 (eventRecord g s e) = ev_durationNs e.
Proof.
  read_field (eventMagic ++ put_be 8 g ++ put_be 4 (ev_kind e) ++ put_be 4 0 ++ put_be 8 (ev_afterFrames e)
    ++ put_be 8 (ev_ptsNs e)).
  by apply event_ranges.
Qed.

Lemma read_serial : read_be 8 48 (eventRecord g s e) = s.
Proof.
  read_field (eventMagic ++ put_be 8 g ++ put_be 4 (ev_kind e) ++ put_be 4 0 ++ put_be 8 (ev_afterFrames e)
    ++ put_be 8 (ev_ptsNs e) ++ put_be 8 (ev_durationNs e)).
  by apply field64.
Qed.

Lemma read_tail : read_be 8 56 (eventRecord g s e) = 0.
Proof.
  assert (eventRecord g s e = (eventMagic ++ put_be 8 g ++ put_be 4 (ev_kind e) ++ put_be 4 0
    ++ put_be 8 (ev_afterFrames e) ++ put_be 8 (ev_ptsNs e) ++ put_be 8 (ev_durationNs e) ++ put_be 8 s)
    ++ put_be 8 0 ++ []) as -> by (unfold eventRecord; rewrite app_nil_r, <- ?app_assoc; reflexivity).
  apply read_put_be; [by rewrite ?length_app, ?length_put_be|done].
Qed.

Lemma readEvent_record : readEvent (eventRecord g s e) = e.
Proof. unfold readEvent. rewrite read_kind, read_frames, read_pts, read_duration. by destruct e. Qed.

(** The reader accepts exactly the next serial of its own generation. *)
Lemma record_accepted g' serial :
  recordRejected g' serial (eventRecord g s e) = false <->
  g = g' /\ s = serial + 1 /\ serial <> UINT64_MAX.
Proof.
  unfold recordRejected. rewrite read_generation, read_pad, read_tail, read_serial, readEvent_record.
  destruct He as (-> & _). rewrite bool_decide_eq_true_2 by done. unfold truthy.
  rewrite !orb_false_iff, !negb_false_iff, !Z.eqb_eq, Z.eqb_neq. naive_solver.
Qed.
End Fields.

(** ** The stream delivers what was sent, in order *)

(** Both ends and the bytes in between; [sys_sent] and [sys_received] are what the
    two applications have seen. *)
Record Stream := mkStream {
  sys_sender : FlGstEventChannel;
  sys_wire : list (list Z);           (* records written, not yet read *)
  sys_reader : FlGstEventChannel;
  sys_serial : option Z;              (* of the reader thread *)
  sys_sent : list FlGstVideoEvent;
  sys_received : list FlGstVideoEvent;
}.

Definition newStream (generation : Z) : Stream :=
  mkStream (newEvents true generation) [] (newEvents false generation) (Some 0) [] [].

(** The steps: the sender's calls, the reader thread, the receiver's calls, and a
    cancellation of either end.  A write that fails may have written nothing of
    the record or part of it: the reader then sees a broken socket. *)
Inductive stream_step : Stream -> Stream -> Prop :=
| step_send s e c wire :
    event_ok e -> send_event (sys_sender s) e true = (FL_GST_SESSION_READY, c, Some wire) ->
    stream_step s (mkStream c (sys_wire s ++ [wire]) (sys_reader s) (sys_serial s)
                     (sys_sent s ++ [e]) (sys_received s))
| step_send_refused s e c wire r written :
    send_event (sys_sender s) e written = (r, c, wire) -> r <> FL_GST_SESSION_READY ->
    stream_step s (mkStream c (sys_wire s) (sys_reader s) (sys_serial s) (sys_sent s) (sys_received s))
| step_read s serial wire rest c serial' :
    sys_serial s = Some serial -> sys_wire s = wire :: rest ->
    readStep (sys_reader s) serial (Bytes wire) = (c, serial') ->
    stream_step s (mkStream (sys_sender s) rest c serial' (sys_sent s) (sys_received s))
| step_read_nothing s serial a c serial' :
    sys_serial s = Some serial -> a = Idle \/ a = Broken ->
    readStep (sys_reader s) serial a = (c, serial') ->
    stream_step s (mkStream (sys_sender s) (sys_wire s) c serial' (sys_sent s) (sys_received s))
| step_receive s timeout out r e c :
    receive_event (sys_reader s) timeout out = (r, Some e, c) ->
    stream_step s (mkStream (sys_sender s) (sys_wire s) c (sys_serial s) (sys_sent s) (sys_received s ++ [e]))
| step_cancel_sender s :
    stream_step s (mkStream (events_cancel (sys_sender s)) (sys_wire s) (sys_reader s)
                     (sys_serial s) (sys_sent s) (sys_received s))
| step_cancel_reader s :
    stream_step s (mkStream (sys_sender s) (sys_wire s) (events_cancel (sys_reader s))
                     (sys_serial s) (sys_sent s) (sys_received s)).

(** The records on the wire are those of the events not yet read. *)
Definition records (generation : Z) (serial : Z) (es : list FlGstVideoEvent) : list (list Z) :=
  imap (fun i e => eventRecord generation (serial + 1 + Z.of_nat i) e) es.

Definition received_or_queued (s : Stream) : list FlGstVideoEvent :=
  sys_received s ++ ec_events (sys_reader s).

(** The reader's position: what it has handed over is a prefix of what was sent,
    and the wire holds the rest. *)
Definition in_order (g : Z) (s : Stream) : Prop :=
  exists rest, sys_sent s = received_or_queued s ++ rest
  /\ forall n, sys_serial s = Some n ->
       n = Z.of_nat (length (received_or_queued s)) /\ sys_wire s = records g n rest.

Record stream_inv (g : Z) (s : Stream) : Prop := mkInv {
  inv_gen : ec_generation (sys_sender s) = g /\ ec_generation (sys_reader s) = g;
  inv_ok : Forall event_ok (sys_sent s);
  inv_bound : (length (ec_events (sys_reader s)) <= kMaxEvents)%nat;
  inv_count : Z.of_nat (length (sys_sent s)) <= UINT64_MAX;
  inv_sent : ec_failed (sys_sender s) = false -> ec_sent (sys_sender s) = Z.of_nat (length (sys_sent s));
  inv_order : in_order g s;
}.

Lemma records_cons g n e es : records g n (e :: es) = eventRecord g (n + 1) e :: records g (n + 1) es.
Proof.
  unfold records. cbn [imap]. f_equal; [f_equal; lia|]. apply imap_ext. intros i x _. simpl. f_equal. lia.
Qed.

Lemma records_snoc g n es e :
  records g n (es ++ [e]) = records g n es ++ [eventRecord g (n + 1 + Z.of_nat (length es)) e].
Proof. unfold records. rewrite imap_app. simpl. do 3 f_equal. lia. Qed.

(** What the reader does with the next record, for every record that was sent. *)
Lemma read_next g s n wire rest :
  u64 g -> stream_inv g s -> sys_serial s = Some n -> sys_wire s = wire :: rest ->
  exists e es, sys_sent s = received_or_queued s ++ e :: es /\ wire = eventRecord g (n + 1) e
    /\ rest = records g (n + 1) es /\ event_ok e /\ readEvent wire = e
    /\ recordRejected g n wire = false.
Proof.
  intros Hg [_ Hok _ Hcount _ (rest' & Hsent & Hpos)] Hn Hw. destruct (Hpos n Hn) as [Hlen Hwire].
  rewrite Hw in Hwire. destruct rest' as [|e es]; [done|]. rewrite records_cons in Hwire.
  injection Hwire as -> ->. rewrite Hsent in Hok, Hcount. apply Forall_app in Hok as [_ Hok].
  apply Forall_cons in Hok as [He _]. rewrite length_app in Hcount. simpl in Hcount.
  assert (u64 (n + 1)) as Hn1 by (unfold u64; lia).
  exists e, es. split; [done|]. split; [done|]. split; [done|]. split; [done|].
  split; [by apply readEvent_record|]. apply record_accepted; [done..|]. unfold UINT64_MAX in *. lia.
Qed.

Lemma read_step_inv g s n wire rest c serial' :
  u64 g -> stream_inv g s -> sys_serial s = Some n -> sys_wire s = wire :: rest ->
  readStep (sys_reader s) n (Bytes wire) = (c, serial') ->
  stream_inv g (mkStream (sys_sender s) rest c serial' (sys_sent s) (sys_received s)).
Proof.
  intros Hg Hinv Hn Hw Hr. destruct (read_next g s n wire rest Hg Hinv Hn Hw)
    as (e & es & Hsent & Hwire & Hrest & He & Hev & Hacc).
  destruct Hinv as [[G1 G2] Hok Hb Hc Hs (rest' & Hsent' & Hpos)].
  assert (forall c', ec_generation c' = g -> ec_events c' = ec_events (sys_reader s) ->
    stream_inv g (mkStream (sys_sender s) rest c' None (sys_sent s) (sys_received s))) as Hstop.
  { intros c' Hg' He'. constructor; cbn; rewrite ?He'; try done.
    exists rest'. unfold received_or_queued. cbn. rewrite He'. by split. }
  unfold readStep in Hr. destruct (ec_cancelled _); [injection Hr as <- <-; by apply Hstop|].
  destruct (negb _); [injection Hr as <- <-; by apply Hstop|].
  rewrite G2, Hacc, Hev in Hr. destruct (_ =? _); [injection Hr as <- <-; by apply Hstop|].
  destruct (_ <=? _)%nat eqn:Efull; injection Hr as <- <-; [by apply Hstop|].
  apply Nat.leb_gt in Efull. destruct (Hpos n Hn) as [Hlen _].
  constructor; cbn; try done.
  - rewrite length_app. simpl. lia.
  - exists es. unfold received_or_queued in *. cbn. rewrite Hsent. split.
    + by rewrite !app_assoc, <- (app_assoc _ [e]).
    + intros m [= <-]. split; [|by rewrite Hrest]. rewrite app_assoc, (length_app _ [e]). simpl. lia.
Qed.

Lemma send_ready c e c' wire :
  send_event c e true = (FL_GST_SESSION_READY, c', Some wire) ->
  ec_failed c = false /\ ec_sent c <> UINT64_MAX /\ c' = set_sent c (ec_sent c + 1)
  /\ wire = eventRecord (ec_generation c) (ec_sent c + 1) e.
Proof.
  unfold send_event. destruct (_ || _); [done|]. destruct (ec_failed c || _) eqn:E; [done|].
  apply orb_false_iff in E as [Ef _]. destruct (_ =? _) eqn:Em; [done|]. intros [= <- <-].
  split; [done|]. by apply Z.eqb_neq in Em.
Qed.

Lemma send_refused c e written r c' wire :
  send_event c e written = (r, c', wire) -> r <> FL_GST_SESSION_READY ->
  ec_generation c' = ec_generation c /\ (ec_failed c' = false -> ec_failed c = false /\ ec_sent c' = ec_sent c).
Proof.
  unfold send_event. intros H Hr.
  destruct (_ || _); [by injection H as <- <- <-|].
  destruct (_ || _); [by injection H as <- <- <-|].
  destruct (_ =? _); [by injection H as <- <- <-|]. destruct written; by injection H as <- <- <-.
Qed.

Lemma send_step_inv g s e c wire :
  stream_inv g s -> event_ok e ->
  send_event (sys_sender s) e true = (FL_GST_SESSION_READY, c, Some wire) ->
  stream_inv g (mkStream c (sys_wire s ++ [wire]) (sys_reader s) (sys_serial s)
                  (sys_sent s ++ [e]) (sys_received s)).
Proof.
  intros [[G1 G2] Hok Hb Hc Hs (rest & Hsent & Hpos)] He H.
  apply send_ready in H as (Hf & Hmax & -> & ->). specialize (Hs Hf). rewrite Hs in Hmax.
  constructor; cbn; try done.
  - apply Forall_app. split; [done|]. by constructor.
  - rewrite length_app. simpl. lia.
  - intros _. rewrite Hs, length_app. simpl. lia.
  - exists (rest ++ [e]). unfold received_or_queued in *. cbn. rewrite Hsent. split; [by rewrite <- !app_assoc|].
    intros n Hn. destruct (Hpos n Hn) as [Hlen Hw]. split; [done|].
    rewrite Hw, records_snoc, G1, Hs. apply (f_equal length) in Hsent. rewrite !length_app in *.
    assert (n + 1 + Z.of_nat (length rest) = Z.of_nat (length (sys_sent s)) + 1) as -> by lia. reflexivity.
Qed.

Lemma received_cons c timeout out r e c' :
  receive_event c timeout out = (r, Some e, c') -> exists l, ec_events c = e :: l /\ c' = set_events c l.
Proof.
  unfold receive_event. destruct (_ || _); [done|]. destruct (ec_events c) as [|x l]; [done|].
  intros [= _ <- <-]. by exists l.
Qed.

Lemma step_inv g s s' : u64 g -> stream_inv g s -> stream_step s s' -> stream_inv g s'.
Proof.
  intros Hg Hinv Hstep. inversion Hstep; subst; clear Hstep.
  - by apply send_step_inv.
  - destruct Hinv as [[G1 G2] Hok Hb Hc Hs Ho].
    destruct (send_refused _ _ _ _ _ _ H H0) as [Hg' Hf']. constructor; cbn; try done.
    + by rewrite Hg'.
    + intros Hf. destruct (Hf' Hf) as [Hf0 ->]. by apply Hs.
  - by eapply read_step_inv.
  - destruct Hinv as [[G1 G2] Hok Hb Hc Hs (rest & Hsent & Hpos)].
    unfold readStep in *. destruct (ec_cancelled _).
    { injection H1 as <- <-. constructor; cbn; try done. by exists rest. }
    destruct H0 as [-> | ->]; injection H1 as <- <-; constructor; cbn; try done.
    + exists rest. split; [done|]. intros n [= <-]. by apply Hpos.
    + by exists rest.
  - destruct Hinv as [[G1 G2] Hok Hb Hc Hs (rest & Hsent & Hpos)].
    apply received_cons in H as (l & E & ->).
    unfold received_or_queued in *. rewrite E in *.
    constructor; cbn; try done; [simpl in Hb; lia|].
    exists rest. unfold received_or_queued. cbn. by rewrite <- (app_assoc _ [e] l).
  - destruct Hinv as [[G1 G2] Hok Hb Hc Hs Ho]. by constructor.
  - destruct Hinv as [[G1 G2] Hok Hb Hc Hs Ho]. by constructor.
Qed.

Lemma start_inv g : stream_inv g (newStream g).
Proof.
  constructor; cbn; try done; [lia|]. exists []. split; [done|]. by intros n [= <-].
Qed.

Lemma stream_reachable g s : u64 g -> rtc stream_step (newStream g) s -> stream_inv g s.
Proof.
  intros Hg Hr. remember (newStream g) as s0 eqn:E. assert (stream_inv g s0) as H0 by (subst; apply start_inv).
  clear E. induction Hr as [|s1 s2 s3 Hs _ IH]; [done|]. apply IH. by eapply step_inv.
Qed.

(** C20: The event stream is ordered, bounded and lossless.  However sends, reads,
    receives, failures and cancellations interleave, the events the receiver has
    taken followed by those in its queue are a prefix of the events the sender was
    told were sent; the queue never exceeds 32; and while the reader runs, the
    next record on the wire is the next unread event, which it enqueues unless it
    is a FLUSH, the queue is full or the channel was cancelled.  So when the wire
    is empty and the reader still runs, nothing is missing. *)
Theorem event_stream_in_order g s :
  u64 g -> rtc stream_step (newStream g) s ->
  sys_received s ++ ec_events (sys_reader s) `prefix_of` sys_sent s
  /\ (length (ec_events (sys_reader s)) <= kMaxEvents)%nat
  /\ (forall n, sys_serial s = Some n ->
       match sys_wire s with
       | [] => sys_received s ++ ec_events (sys_reader s) = sys_sent s
       | wire :: _ => exists e, sys_sent s !! Z.to_nat n = Some e
           /\ (ec_cancelled (sys_reader s) = false -> ev_kind e <> FL_GST_VIDEO_FLUSH ->
               (length (ec_events (sys_reader s)) < kMaxEvents)%nat ->
               readStep (sys_reader s) n (Bytes wire)
               = (set_events (sys_reader s) (ec_events (sys_reader s) ++ [e]), Some (n + 1)))
       end).
Proof.
  intros Hg Hr. pose proof (stream_reachable g s Hg Hr) as Hinv.
  pose proof Hinv as [[G1 G2] Hok Hb Hc Hs (rest & Hsent & Hpos)].
  split; [by exists rest|]. split; [done|]. intros n Hn. destruct (Hpos n Hn) as [Hlen Hwire].
  destruct (sys_wire s) as [|wire ws] eqn:Ew.
  { destruct rest as [|e es]; [|by rewrite records_cons in Hwire]. by rewrite Hsent, app_nil_r. }
  destruct (read_next g s n wire ws Hg Hinv Hn Ew) as (e & es & Hse & Hw & _ & He & Hev & Hacc).
  exists e. split.
  { rewrite Hse, Hlen, Nat2Z.id, lookup_app_r by done. by rewrite Nat.sub_diag. }
  intros Hcan Hk Hroom. unfold readStep. rewrite Hcan, Hw at 1.
  rewrite length_eventRecord, G2, Hacc, Hev. cbn [negb Nat.eqb].
  assert (ev_kind e =? FL_GST_VIDEO_FLUSH = false) as -> by lia.
  by assert ((kMaxEvents <=? length (ec_events (sys_reader s)))%nat = false) as -> by (apply Nat.leb_gt; lia).
Qed.

(** A gap, a barrier and the end, the first already taken. *)
Definition exGap : FlGstVideoEvent := mkEvent FL_GST_VIDEO_GAP 3 100 50.
Definition exEnd : FlGstVideoEvent := mkEvent FL_GST_VIDEO_END 5 200 0.

Definition exStream : Stream :=
  mkStream (set_sent (newEvents true 7) 2) [eventRecord 7 2 exEnd] (newEvents false 7) (Some 1)
    [exGap; exEnd] [exGap].

Lemma event_ok_gap : event_ok exGap.
Proof. split; [reflexivity|]. unfold exGap, u64, UINT64_MAX. simpl. lia. Qed.
Lemma event_ok_end : event_ok exEnd.
Proof. split; [reflexivity|]. unfold exEnd, u64, UINT64_MAX. simpl. lia. Qed.

Lemma exStream_reachable : rtc stream_step (newStream 7) exStream.
Proof.
  eapply rtc_l; [eapply step_send; [exact event_ok_gap|vm_compute; reflexivity]|].
  eapply rtc_l; [eapply step_read; [reflexivity|reflexivity|vm_compute; reflexivity]|].
  eapply rtc_l; [eapply step_send; [exact event_ok_end|vm_compute; reflexivity]|].
  eapply rtc_l; [eapply (step_receive _ 5 true); vm_compute; reflexivity|].
  vm_compute. apply rtc_refl.
Qed.

Lemma event_stream_in_order_witness :
  u64 7 /\ rtc stream_step (newStream 7) exStream
  /\ sys_received exStream ++ ec_events (sys_reader exStream) `prefix_of` sys_sent exStream.
Proof.
  assert (u64 7) as Hg by (unfold u64, UINT64_MAX; lia).
  split; [exact Hg|]. split; [exact exStream_reachable|].
  exact (proj1 (event_stream_in_order 7 exStream Hg exStream_reachable)).
Defined.
