(* ===== verification/SessionContext.v ===== *)
(** * The session coordinator (gst/framelink_session_context.cpp)

    One [FlGstSession] object, whose operations run under its mutex and so are
    functions on the world they share: the session, the event channels (which
    [std::shared_ptr]s alias, hence a store), and the effects on the GIO socket
    and the condition variable, in order.  A wait gives the mutex up: what the
    other threads do while it sleeps is its argument. *)
From Stdlib Require Import QArith.
From stdpp Require Import sorting.
From S2P Require Import Prelude Session EventChannel.
#[global] Open Scope Z_scope.

(** An [FlGstSession*] argument: null, an instance of another type, or the session. *)
Inductive GInstance := GNull | GOther | GSession.

(** What the operations do to a [GSocketConnection] and to [changed]. *)
Inductive ContextEffect :=
| Shutdown (stream : Z)
| Ref (stream : Z)
| Unref (stream : Z)
| Broadcast.

(** [struct _FlGstSession]; [events] points into the store of channels. *)
Record FlGstSession := mkSession {
  s_events : option nat;
  s_required : Z; s_registered : Z; s_ready : Z;
  s_configured : bool; s_cancelled : bool; s_mapped : bool; s_videoEnded : bool;
  s_videoFrames : Z; s_videoLastPts : Z;
  s_mapping : flClockMapping;
  s_maxUncertainty : Z;
  s_audioConnection : option Z;
  s_audioProducer : bool; s_audioClaimed : bool;
  s_config : flSessionConfig;
}.

(** The session, every event channel with the serial of its reader thread
    ([None]: no thread), and the effects so far. *)
Record World := mkWorld {
  w_session : FlGstSession;
  w_channels : list (FlGstEventChannel * option Z);
  w_effects : list ContextEffect;
}.

Definition set_session (w : World) (s : FlGstSession) : World := mkWorld s (w_channels w) (w_effects w).
Definition set_channels (w : World) (l : list (FlGstEventChannel * option Z)) : World :=
  mkWorld (w_session w) l (w_effects w).
Definition effect (w : World) (e : ContextEffect) : World :=
  mkWorld (w_session w) (w_channels w) (w_effects w ++ [e]).

Definition set_registered (s : FlGstSession) (v : Z) : FlGstSession :=
  mkSession (s_events s) (s_required s) v (s_ready s) (s_configured s) (s_cancelled s) (s_mapped s)
    (s_videoEnded s) (s_videoFrames s) (s_videoLastPts s) (s_mapping s) (s_maxUncertainty s)
    (s_audioConnection s) (s_audioProducer s) (s_audioClaimed s) (s_config s).
Definition set_ready (s : FlGstSession) (v : Z) : FlGstSession :=
  mkSession (s_events s) (s_required s) (s_registered s) v (s_configured s) (s_cancelled s) (s_mapped s)
    (s_videoEnded s) (s_videoFrames s) (s_videoLastPts s) (s_mapping s) (s_maxUncertainty s)
    (s_audioConnection s) (s_audioProducer s) (s_audioClaimed s) (s_config s).
(** [s->cancelled=TRUE;s->ready=0;] *)
Definition set_cancelled (s : FlGstSession) : FlGstSession :=
  mkSession (s_events s) (s_required s) (s_registered s) 0 (s_configured s) true (s_mapped s)
    (s_videoEnded s) (s_videoFrames s) (s_videoLastPts s) (s_mapping s) (s_maxUncertainty s)
    (s_audioConnection s) (s_audioProducer s) (s_audioClaimed s) (s_config s).
Definition set_map (s : FlGstSession) (m : flClockMapping) (maxError : Z) : FlGstSession :=
  mkSession (s_events s) (s_required s) (s_registered s) (s_ready s) (s_configured s) (s_cancelled s) true
    (s_videoEnded s) (s_videoFrames s) (s_videoLastPts s) m maxError
    (s_audioConnection s) (s_audioProducer s) (s_audioClaimed s) (s_config s).
Definition set_audio (s : FlGstSession) (stream : option Z) (producer claimed : bool) : FlGstSession :=
  mkSession (s_events s) (s_required s) (s_registered s) (s_ready s) (s_configured s) (s_cancelled s)
    (s_mapped s) (s_videoEnded s) (s_videoFrames s) (s_videoLastPts s) (s_mapping s) (s_maxUncertainty s)
    stream producer claimed (s_config s).
Definition set_video_end (s : FlGstSession) (frames pts : Z) : FlGstSession :=
  mkSession (s_events s) (s_required s) (s_registered s) (s_ready s) (s_configured s) (s_cancelled s)
    (s_mapped s) true frames pts (s_mapping s) (s_maxUncertainty s)
    (s_audioConnection s) (s_audioProducer s) (s_audioClaimed s) (s_config s).
Definition set_events_id (s : FlGstSession) (i : option nat) : FlGstSession :=
  mkSession i (s_required s) (s_registered s) (s_ready s) (s_configured s) (s_cancelled s)
    (s_mapped s) (s_videoEnded s) (s_videoFrames s) (s_videoLastPts s) (s_mapping s) (s_maxUncertainty s)
    (s_audioConnection s) (s_audioProducer s) (s_audioClaimed s) (s_config s).

Definition valid (s : GInstance) : bool := match s with GSession => true | _ => false end.

(** A GObject's fields start as zero bytes. *)
Definition zeroId : flSessionId := replicate 16 0.
Definition zeroConfig : flSessionConfig := mkConfig 0 zeroId zeroId 0 0 0 zeroVideo zeroAudio 0 0 0 0 0.
Definition zeroMapping : flClockMapping := mkMapping zeroId zeroId 0 0 0.

Definition newSession (required : Z) : World :=
  mkWorld (mkSession None required 0 0 false false false false 0 0 zeroMapping 0 None false false zeroConfig)
    [] [].

Definition fl_gst_session_new (required : Z) : option World :=
  return_if negb (truthy required) || truthy (Z.land required (not32 3)) with None ;;
  Some (newSession required).

(** Through a channel pointer. *)
Definition on_channel (w : World) (i : nat) (f : FlGstEventChannel -> FlGstEventChannel) : World :=
  set_channels w (alter (fun c => (f c.1, c.2)) i (w_channels w)).

(** [if(s->audioConnection)g_socket_shutdown(...)] *)
Definition shutdownAudio (w : World) : World :=
  match s_audioConnection (w_session w) with
  | Some c => effect w (Shutdown c)
  | None => w
  end.

(** [if( *s->events)( *s->events)->cancel();] *)
Definition cancelEvents (w : World) : World :=
  match s_events (w_session w) with
  | Some i => on_channel w i events_cancel
  | None => w
  end.

Definition tracksOf (c : flSessionConfig) : Z :=
  Z.lor (if truthy (c_videoTrackId c) then 1 else 0) (if truthy (c_audioTrackId c) then 2 else 0).

(** The audio connection goes, and the last line of [configure]. *)
Definition configured (w : World) (c : flSessionConfig) : World :=
  let w := match s_audioConnection (w_session w) with
           | Some a => effect (effect w (Shutdown a)) (Unref a)
           | None => w
           end in
  let w := cancelEvents w in
  let s := w_session w in
  effect (set_session w
    (mkSession None (s_required s) (s_registered s) 0 true false false false 0 (-1)
       (s_mapping s) (s_maxUncertainty s) None (s_audioProducer s) false c)) Broadcast.

Definition fl_gst_session_configure (s : GInstance) (c : option flSessionConfig)
    (p q : option flSessionCapabilities) (w : World) : FlGstSessionResult * World :=
  return_if negb (valid s) || negb (bool_decide (flSessionValidateSelection c p q = FL_SESSION_OK))
    with (FL_GST_SESSION_INVALID, w) ;;
  match c with
  | None => (FL_GST_SESSION_INVALID, w)    (* the selection was validated *)
  | Some c =>
    let self := w_session w in
    return_if negb (tracksOf c =? s_required self) with (FL_GST_SESSION_INVALID, w) ;;
    let r := if s_configured self then flSessionValidateReplacement (Some (s_config self)) (Some c)
             else FL_SESSION_OK in
    return_if negb (bool_decide (r = FL_SESSION_OK))
      with ((if bool_decide (r = FL_SESSION_STALE) then FL_GST_SESSION_STALE else FL_GST_SESSION_INVALID), w) ;;
    (FL_GST_SESSION_READY, configured w c)
  end.

Definition fl_gst_session_register_track (s : GInstance) (track : Z) (w : World) : FlGstSessionResult * World :=
  return_if negb (valid s) || (negb (track =? 1) && negb (track =? 2)) with (FL_GST_SESSION_INVALID, w) ;;
  let self := w_session w in
  return_if negb (truthy (Z.land (s_required self) track)) || truthy (Z.land (s_registered self) track)
    with (FL_GST_SESSION_INVALID, w) ;;
  (FL_GST_SESSION_READY, set_session w (set_registered self (Z.lor (s_registered self) track))).

(** The guards most operations on a generation share. *)
Definition refusedFor (self : FlGstSession) (generation : Z) : option FlGstSessionResult :=
  return_if s_cancelled self with Some FL_GST_SESSION_CANCELLED ;;
  return_if negb (s_configured self) || negb (c_generation (s_config self) =? generation)
    with Some FL_GST_SESSION_STALE ;;
  None.

Definition fl_gst_session_track_ready (s : GInstance) (track generation : Z) (w : World)
  : FlGstSessionResult * World :=
  return_if negb (valid s) || (negb (track =? 1) && negb (track =? 2)) with (FL_GST_SESSION_INVALID, w) ;;
  let self := w_session w in
  match refusedFor self generation with
  | Some r => (r, w)
  | None =>
    return_if negb (truthy (Z.land (s_registered self) track)) with (FL_GST_SESSION_INVALID, w) ;;
    (FL_GST_SESSION_READY, effect (set_session w (set_ready self (Z.lor (s_ready self) track))) Broadcast)
  end.

Definition fl_gst_session_cancel (s : GInstance) (w : World) : World :=
  return_if negb (valid s) with w ;;
  let w := set_session w (set_cancelled (w_session w)) in
  effect (shutdownAudio (cancelEvents w)) Broadcast.

Definition fl_gst_session_set_mapping (s : GInstance) (generation : Z) (m : option flClockMapping)
    (maxError : Z) (w : World) : FlGstSessionResult * World :=
  match m with
  | Some m =>
    return_if negb (valid s) with (FL_GST_SESSION_INVALID, w) ;;
    let self := w_session w in
    match refusedFor self generation with
    | Some r => (r, w)
    | None =>
      return_if negb (bool_decide ((flSessionMapPts (Some (s_config self)) (Some m) maxError 0 (Some 0)).1
                                   = FL_SESSION_OK)) with (FL_GST_SESSION_INVALID, w) ;;
      return_if s_mapped self
        && (negb (same (m_sourceClockId m) (m_sourceClockId (s_mapping self)))
            || negb (same (m_targetClockId m) (m_targetClockId (s_mapping self)))
            || negb (m_sourceAnchorNs m =? m_sourceAnchorNs (s_mapping self))
            || negb (m_targetAnchorNs m =? m_targetAnchorNs (s_mapping self))
            || negb (m_uncertaintyNs m =? m_uncertaintyNs (s_mapping self))
            || negb (maxError =? s_maxUncertainty self)) with (FL_GST_SESSION_INVALID, w) ;;
      (FL_GST_SESSION_READY, set_session w (set_map self m maxError))
    end
  | None => (FL_GST_SESSION_INVALID, w)
  end.

(** [flSessionMapPts(...)==FL_SESSION_OK?READY:INVALID] *)
Definition mapped_pts (self : FlGstSession) (pts : Z) (out : option Z) : FlGstSessionResult * option Z :=
  let '(r, out) := flSessionMapPts (Some (s_config self)) (Some (s_mapping self)) (s_maxUncertainty self) pts out in
  ((if bool_decide (r = FL_SESSION_OK) then FL_GST_SESSION_READY else FL_GST_SESSION_INVALID), out).

Definition fl_gst_session_map_pts (s : GInstance) (generation pts : Z) (out : option Z) (w : World)
  : FlGstSessionResult * option Z :=
  match out with
  | None => (FL_GST_SESSION_INVALID, out)
  | Some _ =>
    return_if negb (valid s) with (FL_GST_SESSION_INVALID, out) ;;
    let self := w_session w in
    match refusedFor self generation with
    | Some r => (r, out)
    | None =>
      return_if negb (s_mapped self) with (FL_GST_SESSION_INVALID, out) ;;
      mapped_pts self pts out
    end
  end.

Definition fl_gst_session_map_running_time (s : GInstance) (generation pts : Z) (required : bool)
    (out : option Z) (w : World) : FlGstSessionResult * option Z :=
  match out with
  | None => (FL_GST_SESSION_INVALID, out)
  | Some _ =>
    return_if negb (valid s) || (pts <? 0) with (FL_GST_SESSION_INVALID, out) ;;
    let self := w_session w in
    match refusedFor self generation with
    | Some r => (r, out)
    | None =>
      return_if negb (s_mapped self) with
        (if required then (FL_GST_SESSION_INVALID, out) else (FL_GST_SESSION_READY, Some pts)) ;;
      mapped_pts self pts out
    end
  end.

(** [if( *s->events&&( *s->events)->failed()){...}] of [get_config] *)
Definition noticeFailure (w : World) : World :=
  match s_events (w_session w) with
  | Some i =>
    match w_channels w !! i with
    | Some (c, _) =>
      if ec_failed c
      then effect (shutdownAudio (set_session w (set_cancelled (w_session w)))) Broadcast
      else w
    | None => w      (* a shared_ptr points at a channel *)
    end
  | None => w
  end.

Definition fl_gst_session_get_config (s : GInstance) (out : option flSessionConfig) (w : World)
  : FlGstSessionResult * option flSessionConfig * World :=
  match out with
  | None => (FL_GST_SESSION_INVALID, out, w)
  | Some _ =>
    return_if negb (valid s) with (FL_GST_SESSION_INVALID, out, w) ;;
    let w := noticeFailure w in
    let self := w_session w in
    return_if s_cancelled self with (FL_GST_SESSION_CANCELLED, out, w) ;;
    return_if negb (s_configured self) with (FL_GST_SESSION_STALE, out, w) ;;
    (FL_GST_SESSION_READY, Some (s_config self), w)
  end.

(** The two configurations have the same wire form. *)
Definition sameWire (a b : flSessionConfig) : bool :=
  let buffer := replicate FL_SESSION_WIRE_SIZE 0 in
  match flSessionEncode (Some a) (Some buffer), flSessionEncode (Some b) (Some buffer) with
  | (FL_SESSION_OK, Some x), (FL_SESSION_OK, Some y) => bool_decide (x = y)
  | _, _ => false
  end.

Definition fl_gst_session_publish_audio (s : GInstance) (config : option flSessionConfig)
    (stream : option Z) (producer : bool) (w : World) : bool * World :=
  match config, stream with
  | Some config, Some stream =>
    return_if negb (valid s) with (false, w) ;;
    let self := w_session w in
    return_if s_cancelled self || negb (s_configured self)
           || negb (bool_decide (s_audioConnection self = None)) || negb (sameWire config (s_config self))
      with (false, w) ;;
    (true, set_session (effect w (Ref stream)) (set_audio self (Some stream) producer false))
  | _, _ => (false, w)
  end.

Definition fl_gst_session_claim_audio_stream (s : GInstance) (producer : bool) (generation : Z) (w : World)
  : option Z * World :=
  return_if negb (valid s) with (None, w) ;;
  let self := w_session w in
  return_if s_cancelled self || negb (s_configured self) || negb (c_generation (s_config self) =? generation)
    with (None, w) ;;
  match s_audioConnection self with
  | None => (None, w)
  | Some stream =>
    return_if negb (Bool.eqb (s_audioProducer self) producer) || s_audioClaimed self with (None, w) ;;
    (Some stream, effect (set_session w (set_audio self (Some stream) (s_audioProducer self) true)) (Ref stream))
  end.

Definition fl_gst_session_video_eos (s : GInstance) (generation frames pts : Z) (w : World)
  : FlGstSessionResult * World :=
  return_if negb (valid s) || (if truthy frames then pts <? 0 else negb (pts =? -1))
    with (FL_GST_SESSION_INVALID, w) ;;
  let self := w_session w in
  match refusedFor self generation with
  | Some r => (r, w)
  | None =>
    return_if negb (truthy (c_videoTrackId (s_config self))) with (FL_GST_SESSION_INVALID, w) ;;
    return_if s_videoEnded self && (negb (s_videoFrames self =? frames) || negb (s_videoLastPts self =? pts))
      with (FL_GST_SESSION_INVALID, w) ;;
    (FL_GST_SESSION_READY, effect (set_session w (set_video_end self frames pts)) Broadcast)
  end.

Definition fl_gst_session_publish_events (s : GInstance) (c : option flSessionConfig)
    (stream : option Z) (producer : bool) (w : World) : bool * World :=
  match c, stream with
  | Some c, Some stream =>
    return_if negb (valid s) with (false, w) ;;
    let self := w_session w in
    return_if s_cancelled self || negb (s_configured self)
           || negb (bool_decide (s_events self = None)) || negb (sameWire c (s_config self)) with (false, w) ;;
    let channel := (newEvents producer (c_generation c), if producer then None else Some 0) in
    (true, set_channels (set_session (effect w (Ref stream)) (set_events_id self (Some (length (w_channels w)))))
             (w_channels w ++ [channel]))
  | _, _ => (false, w)
  end.

(** [eventChannel]: the pointer the caller then uses without the mutex. *)
Definition eventChannel (s : GInstance) (generation : Z) (w : World) : option nat :=
  return_if negb (valid s) with None ;;
  let self := w_session w in
  return_if s_cancelled self || negb (s_configured self) || negb (c_generation (s_config self) =? generation)
    with None ;;
  s_events self.

Definition fl_gst_session_has_event_stream (s : GInstance) (generation : Z) (w : World) : bool :=
  bool_decide (is_Some (eventChannel s generation w)).

(** [channel->send], [receive] and the reader thread, through a pointer. *)
Definition sendOn (i : nat) (e : FlGstVideoEvent) (written : bool) (w : World) : FlGstSessionResult * World :=
  match w_channels w !! i with
  | Some (c, _) => let '(r, c', _) := send_event c e written in (r, on_channel w i (fun _ => c'))
  | None => (FL_GST_SESSION_INVALID, w)
  end.

Definition receiveOn (i : nat) (timeout : Z) (out : bool) (w : World) : FlGstSessionResult * option FlGstVideoEvent * World :=
  match w_channels w !! i with
  | Some (c, _) => let '(r, e, c') := receive_event c timeout out in (r, e, on_channel w i (fun _ => c'))
  | None => (FL_GST_SESSION_INVALID, None, w)
  end.

Definition readerOn (i : nat) (a : Arrival) (w : World) : World :=
  match w_channels w !! i with
  | Some (c, Some serial) => set_channels w (<[i := readStep c serial a]> (w_channels w))
  | _ => w
  end.

(** The three calls: the pointer is taken in one world, used in a later one. *)
Definition fl_gst_session_send_video_event (s : GInstance) (generation : Z) (event : option FlGstVideoEvent)
    (written : bool) (w w' : World) : FlGstSessionResult * World :=
  match eventChannel s generation w, event with
  | Some i, Some e => sendOn i e written w'
  | _, _ => (FL_GST_SESSION_INVALID, w')
  end.

Definition fl_gst_session_peek_video_end (s : GInstance) (generation : Z) (event : option FlGstVideoEvent)
    (w w' : World) : FlGstSessionResult * option FlGstVideoEvent :=
  match eventChannel s generation w, event with
  | Some i, Some _ =>
    match w_channels w' !! i with
    | Some (c, _) => match peekEnd c true with
                     | Some e => (FL_GST_SESSION_READY, Some e)
                     | None => (FL_GST_SESSION_TIMEOUT, event)
                     end
    | None => (FL_GST_SESSION_INVALID, event)
    end
  | _, _ => (FL_GST_SESSION_INVALID, event)
  end.

Definition fl_gst_session_receive_video_event (s : GInstance) (generation timeout : Z) (out : bool) (w w' : World)
  : FlGstSessionResult * option FlGstVideoEvent * World :=
  match eventChannel s generation w with
  | Some i => receiveOn i timeout out w'
  | None => (FL_GST_SESSION_INVALID, None, w')
  end.

(** ** Running time of a segment *)

Definition GST_CLOCK_TIME_NONE : Z := UINT64_MAX.
Definition GST_FORMAT_TIME : Z := 3.

(** The fields read; a [double] is a rational, [None] a NaN or an infinity. *)
Record GstSegment := mkSegment {
  seg_format : Z; seg_rate : option Q; seg_applied_rate : option Q;
  seg_base : Z; seg_offset : Z; seg_start : Z; seg_stop : Z;
}.

Definition isOne (d : option Q) : bool := match d with Some q => Qeq_bool q 1 | None => false end.

Section Segment.
Context (gst_segment_to_running_time : GstSegment -> Z -> Z -> Z).

Definition fl_gst_segment_running_time (segment : option GstSegment) (pts : Z) (out : option Z)
  : bool * option Z :=
  match segment, out with
  | Some sg, Some _ =>
    return_if negb (seg_format sg =? GST_FORMAT_TIME) || negb (isOne (seg_rate sg))
           || negb (isOne (seg_applied_rate sg)) || (pts =? GST_CLOCK_TIME_NONE) with (false, out) ;;
    let running := gst_segment_to_running_time sg GST_FORMAT_TIME pts in
    return_if (running =? GST_CLOCK_TIME_NONE) || (INT64_MAX <? running) with (false, out) ;;
    (true, Some running)
  | _, _ => (false, out)
  end.
End Segment.

(** ** Calls and histories *)

(** The calls that can change the world, from any thread, and what the event
    channels' other threads do. *)
Inductive Call :=
| Configure (c : option flSessionConfig) (p q : option flSessionCapabilities)
| RegisterTrack (track : Z)
| TrackReady (track generation : Z)
| Cancel
| SetMapping (generation : Z) (m : option flClockMapping) (maxError : Z)
| GetConfig (out : option flSessionConfig)
| PublishAudio (config : option flSessionConfig) (stream : option Z) (producer : bool)
| ClaimAudio (producer : bool) (generation : Z)
| VideoEos (generation frames pts : Z)
| PublishEvents (config : option flSessionConfig) (stream : option Z) (producer : bool)
| SendOn (channel : nat) (event : FlGstVideoEvent) (written : bool)
| ReceiveOn (channel : nat) (timeout : Z) (out : bool)
| ReaderOn (channel : nat) (arrival : Arrival).

Inductive Answer :=
| Void
| Result (r : FlGstSessionResult)
| Flag (b : bool)
| Stream (stream : option Z)
| Config (r : FlGstSessionResult) (out : option flSessionConfig).

Definition perform (c : Call) (w : World) : Answer * World :=
  match c with
  | Configure c p q => let '(r, w) := fl_gst_session_configure GSession c p q w in (Result r, w)
  | RegisterTrack t => let '(r, w) := fl_gst_session_register_track GSession t w in (Result r, w)
  | TrackReady t g => let '(r, w) := fl_gst_session_track_ready GSession t g w in (Result r, w)
  | Cancel => (Void, fl_gst_session_cancel GSession w)
  | SetMapping g m e => let '(r, w) := fl_gst_session_set_mapping GSession g m e w in (Result r, w)
  | GetConfig out => let '(r, out, w) := fl_gst_session_get_config GSession out w in (Config r out, w)
  | PublishAudio c st p => let '(b, w) := fl_gst_session_publish_audio GSession c st p w in (Flag b, w)
  | ClaimAudio p g => let '(st, w) := fl_gst_session_claim_audio_stream GSession p g w in (Stream st, w)
  | VideoEos g f p => let '(r, w) := fl_gst_session_video_eos GSession g f p w in (Result r, w)
  | PublishEvents c st p => let '(b, w) := fl_gst_session_publish_events GSession c st p w in (Flag b, w)
  | SendOn i e b => let '(r, w) := sendOn i e b w in (Result r, w)
  | ReceiveOn i t o => let '(r, _, w) := receiveOn i t o w in (Result r, w)
  | ReaderOn i a => (Void, readerOn i a w)
  end.

(** A history: the calls made and their answers, the latest first. *)
Definition History : Type := list (Call * Answer).

Definition run_call (s : History * World) (c : Call) : History * World :=
  let '(a, w) := perform c s.2 in ((c, a) :: s.1, w).

Definition run (calls : list Call) (s : History * World) : History * World := foldl run_call s calls.

(** ** Waits *)

(** What [fl_gst_session_wait] decides each time it holds the mutex. *)
Definition waitCheck (self : FlGstSession) (generation : Z) : option FlGstSessionResult :=
  return_if s_cancelled self with Some FL_GST_SESSION_CANCELLED ;;
  return_if s_configured self && negb (c_generation (s_config self) =? generation)
    with Some FL_GST_SESSION_STALE ;;
  return_if s_configured self && (s_ready self =? s_required self) with Some FL_GST_SESSION_READY ;;
  None.

(** One [g_cond_wait_until]: the calls the others make while the mutex is free,
    and whether the deadline passed. *)
Definition Sleep : Type := list Call * bool.

(** The loop; [None] when it is still asleep after the given sleeps. *)
Fixpoint waitLoop (generation : Z) (out : flSessionConfig) (st : History * World) (sleeps : list Sleep)
  : option (FlGstSessionResult * flSessionConfig * (History * World)) :=
  match waitCheck (w_session st.2) generation with
  | Some FL_GST_SESSION_READY => Some (FL_GST_SESSION_READY, s_config (w_session st.2), st)
  | Some r => Some (r, out, st)
  | None =>
    match sleeps with
    | [] => None
    | (others, timedOut) :: sleeps =>
      let st := run others st in
      if timedOut then Some (FL_GST_SESSION_TIMEOUT, out, st) else waitLoop generation out st sleeps
    end
  end.

Definition fl_gst_session_wait (s : GInstance) (generation timeout : Z) (out : option flSessionConfig)
    (st : History * World) (sleeps : list Sleep)
  : option (FlGstSessionResult * option flSessionConfig * (History * World)) :=
  match out with
  | None => Some (FL_GST_SESSION_INVALID, out, st)
  | Some o =>
    return_if negb (valid s) || negb (truthy generation) || negb (truthy timeout) || (60000 <? timeout)
      with Some (FL_GST_SESSION_INVALID, out, st) ;;
    '(r, o, st) ← waitLoop generation o st sleeps; Some (r, Some o, st)
  end.

(** [fl_gst_session_wait_video_eos]: frames and pts instead of a configuration. *)
Definition eosCheck (self : FlGstSession) (generation : Z) : option FlGstSessionResult :=
  match refusedFor self generation with
  | Some r => Some r
  | None =>
    return_if negb (truthy (c_videoTrackId (s_config self))) with Some FL_GST_SESSION_INVALID ;;
    return_if s_videoEnded self with Some FL_GST_SESSION_READY ;;
    None
  end.

Fixpoint eosLoop (generation timeout : Z) (out : Z * Z) (st : History * World) (sleeps : list Sleep)
  : option (FlGstSessionResult * (Z * Z) * (History * World)) :=
  match eosCheck (w_session st.2) generation with
  | Some FL_GST_SESSION_READY =>
    Some (FL_GST_SESSION_READY, (s_videoFrames (w_session st.2), s_videoLastPts (w_session st.2)), st)
  | Some r => Some (r, out, st)
  | None =>
    return_if negb (truthy timeout) with Some (FL_GST_SESSION_TIMEOUT, out, st) ;;
    match sleeps with
    | [] => None
    | (others, timedOut) :: sleeps =>
      let st := run others st in
      if timedOut then Some (FL_GST_SESSION_TIMEOUT, out, st) else eosLoop generation timeout out st sleeps
    end
  end.

Definition fl_gst_session_wait_video_eos (s : GInstance) (generation timeout : Z)
    (frames pts : option Z) (st : History * World) (sleeps : list Sleep)
  : option (FlGstSessionResult * (option Z * option Z) * (History * World)) :=
  match frames, pts with
  | Some f, Some p =>
    return_if negb (valid s) || (60000 <? timeout) with Some (FL_GST_SESSION_INVALID, (frames, pts), st) ;;
    '(r, (f, p), st) ← eosLoop generation timeout (f, p) st sleeps; Some (r, (Some f, Some p), st)
  | _, _ => Some (FL_GST_SESSION_INVALID, (frames, pts), st)
  end.

(** * Properties *)

(** The configuration in force and what happened since it was accepted. *)
Fixpoint since (h : History) : option (flSessionConfig * History) :=
  match h with
  | [] => None
  | (Configure (Some c) _ _, Result FL_GST_SESSION_READY) :: _ => Some (c, [])
  | e :: h => '(c, after) ← since h; Some (c, e :: after)
  end.

(** The configurations accepted, the latest first. *)
Definition configs (h : History) : list flSessionConfig :=
  omap (fun e => match e with
                 | (Configure (Some c) _ _, Result FL_GST_SESSION_READY) => Some c
                 | _ => None
                 end) h.

(** How often the audio stream was handed out. *)
Definition claims (h : History) : nat :=
  length (List.filter (fun e => match e with (ClaimAudio _ _, Stream (Some _)) => true | _ => false end) h).

Definition track (t : Z) : Prop := t = 1 \/ t = 2.

Notation ready := (Result FL_GST_SESSION_READY).

(** The session explained by the history since its configuration. *)
Record about (c : flSessionConfig) (after : History) (s : FlGstSession) : Prop := mkAbout {
  ab_config : s_configured s = true /\ s_config s = c;
  ab_selection : tracksOf c = s_required s /\ exists p q, flSessionValidateSelection (Some c) p q = FL_SESSION_OK;
  ab_ready : forall t, track t -> Z.land (s_ready s) t <> 0 -> (TrackReady t (c_generation c), ready) ∈ after;
  ab_cancelled : if s_cancelled s then s_ready s = 0 else (Cancel, Void) ∉ after;
  ab_mapping : forall g m e, (SetMapping g (Some m) e, ready) ∈ after ->
    g = c_generation c /\ s_mapped s = true /\ s_mapping s = m /\ s_maxUncertainty s = e;
  ab_eos : forall g f p, (VideoEos g f p, ready) ∈ after ->
    g = c_generation c /\ s_videoEnded s = true /\ s_videoFrames s = f /\ s_videoLastPts s = p;
  ab_claims : claims after = if s_audioClaimed s then 1%nat else 0%nat;
}.

(** Nothing before the first configuration. *)
Definition fresh (s : FlGstSession) : Prop :=
  s_configured s = false /\ s_ready s = 0 /\ s_audioConnection s = None.

Record explained (required : Z) (h : History) (s : FlGstSession) : Prop := mkExplained {
  ex_required : s_required s = required;
  ex_registered : mask_incl (s_registered s) required;
  ex_ready : mask_incl (s_ready s) (s_registered s);
  ex_audio : s_audioConnection s = None -> s_audioClaimed s = false;
  ex_since : match since h with Some (c, after) => about c after s | None => fresh s end;
  ex_chain : StronglySorted (fun n o => c_generation o < c_generation n) (configs h);
  ex_last : head (configs h) = if s_configured s then Some (s_config s) else None;
}.

(** *** The history as it grows *)

Definition accepts (e : Call * Answer) : bool :=
  match e with (Configure (Some _) _ _, ready) => true | _ => false end.

Lemma since_cons e h : accepts e = false -> since (e :: h) = ('(c, after) ← since h; Some (c, e :: after)).
Proof. destruct e as [[[]| | | | | | | | | | | |] [|[]| | |]]; done. Qed.

Lemma configs_cons e h : accepts e = false -> configs (e :: h) = configs h.
Proof. destruct e as [[[]| | | | | | | | | | | |] [|[]| | |]]; done. Qed.

(** Entries the invariant counts. *)
Definition counted (e : Call * Answer) : bool :=
  match e with
  | (Cancel, _) | (SetMapping _ (Some _) _, ready) | (VideoEos _ _ _, ready) | (ClaimAudio _ _, Stream (Some _)) => true
  | _ => false
  end.

Lemma about_quiet c after s e : counted e = false -> about c after s -> about c (e :: after) s.
Proof.
  intros He [H1 H2 H3 H4 H5 H6 H7]. constructor; try done.
  - intros t Ht Hl. right. by apply H3.
  - destruct (s_cancelled s); [done|]. intros [<-|?]%elem_of_cons; done.
  - intros g m x [<-|?]%elem_of_cons; [done|]. by apply H5.
  - intros g f p [<-|?]%elem_of_cons; [done|]. by apply H6.
  - rewrite <- H7. unfold claims. simpl. destruct e as [[] [| | |[]|]]; done.
Qed.

(** A call that is not an accepted configuration keeps the invariant when it keeps
    what is explained. *)
Lemma explained_cons required h s s' e :
  accepts e = false -> explained required h s ->
  s_required s' = s_required s -> s_configured s' = s_configured s -> s_config s' = s_config s ->
  mask_incl (s_registered s') required -> mask_incl (s_ready s') (s_registered s') ->
  (s_audioConnection s' = None -> s_audioClaimed s' = false) ->
  (s_configured s = false -> s_ready s' = 0 /\ s_audioConnection s' = None) ->
  (forall c after, about c after s -> about c (e :: after) s') ->
  explained required (e :: h) s'.
Proof.
  intros He [H1 H2 H3 H4 H5 H6 H7] R1 R2 R3 R4 R5 R6 R7 R8. constructor; try done.
  - by rewrite R1.
  - rewrite since_cons by done. destruct (since h) as [[c after]|]; simpl; [by apply R8|].
    destruct H5 as (Hc & _). split; [by rewrite R2|]. by apply R7.
  - by rewrite configs_cons.
  - by rewrite configs_cons, R2, R3.
Qed.

Lemma explained_fresh required h s :
  explained required h s -> s_configured s = false -> s_ready s = 0 /\ s_audioConnection s = None.
Proof.
  intros [_ _ _ _ Hs _ _] Hf. destruct (since h) as [[c after]|]; [|by destruct Hs as (_ & ? & ?)].
  destruct Hs as [[? _] _ _ _ _ _ _]. congruence.
Qed.

(** The session stays as it is. *)
Lemma explained_same required h s e :
  accepts e = false -> counted e = false -> explained required h s -> explained required (e :: h) s.
Proof.
  intros Ha Hc H. pose proof H as [? ? ? ? Hs ? Hl]. apply explained_cons with s; try done.
  - by apply (explained_fresh required h).
  - intros c after. by apply about_quiet.
Qed.

(** *** The operations *)

(** The session a channel operation leaves. *)
Lemma on_channel_session w i f : w_session (on_channel w i f) = w_session w.
Proof. done. Qed.
Lemma shutdownAudio_session w : w_session (shutdownAudio w) = w_session w.
Proof. unfold shutdownAudio. by destruct (s_audioConnection _). Qed.
Lemma cancelEvents_session w : w_session (cancelEvents w) = w_session w.
Proof. unfold cancelEvents. by destruct (s_events _). Qed.

Lemma configured_session w c :
  w_session (configured w c) =
  mkSession None (s_required (w_session w)) (s_registered (w_session w)) 0 true false false false 0 (-1)
    (s_mapping (w_session w)) (s_maxUncertainty (w_session w)) None (s_audioProducer (w_session w)) false c.
Proof.
  unfold configured. destruct (s_audioConnection _); unfold effect; cbn [w_session set_session];
    by rewrite cancelEvents_session.
Qed.

Lemma refusedFor_none self g :
  refusedFor self g = None <-> s_cancelled self = false /\ s_configured self = true /\ c_generation (s_config self) = g.
Proof.
  unfold refusedFor. destruct (s_cancelled self); [naive_solver|].
  destruct (s_configured self); [|naive_solver]. simpl.
  destruct (c_generation (s_config self) =? g) eqn:E; naive_solver lia.
Qed.

Lemma land_track s t : truthy (Z.land s t) = true -> track t -> mask_incl t s.
Proof.
  rewrite truthy_true. intros Hl Ht i Hi Hb. destruct (Z.testbit s i) eqn:Es; [done|]. exfalso. apply Hl.
  apply Z.bits_inj'. intros j Hj. rewrite Z.land_spec, Z.bits_0.
  destruct (Z.testbit t j) eqn:Ej; [|by rewrite andb_false_r].
  assert (i = j) as -> by (destruct Ht as [-> | ->];
    [change 1 with (2 ^ 0) in * | change 2 with (2 ^ 1) in *]; rewrite Z.pow2_bits_eqb in Hb, Ej by lia; lia).
  by rewrite Es.
Qed.

Lemma is_track t : (negb (t =? 1) && negb (t =? 2)) = false -> track t.
Proof. unfold track. lia. Qed.

(** Accepting a configuration. *)
Lemma configure_accepts s c p q w r w' :
  fl_gst_session_configure s c p q w = (r, w') ->
  (exists x, c = Some x /\ r = FL_GST_SESSION_READY /\ w' = configured w x
     /\ flSessionValidateSelection c p q = FL_SESSION_OK /\ tracksOf x = s_required (w_session w)
     /\ (s_configured (w_session w) = true -> replaces (s_config (w_session w)) x))
  \/ (r <> FL_GST_SESSION_READY /\ w' = w).
Proof.
  unfold fl_gst_session_configure.
  destruct (negb _ || _) eqn:E1; [by intros [= <- <-]; right|].
  apply orb_false_iff in E1 as [_ E1]. apply negb_false_iff, bool_decide_eq_true in E1.
  destruct c as [x|]; [|by intros [= <- <-]; right].
  destruct (negb (tracksOf x =? _)) eqn:E2; [by intros [= <- <-]; right|].
  destruct (negb (bool_decide _)) eqn:E3; intros [= <- <-].
  - right. by destruct (bool_decide (_ = FL_SESSION_STALE)).
  - left. exists x. apply negb_false_iff, bool_decide_eq_true in E3.
    split_and!; try done; [lia|]. intros Hc. by rewrite Hc in E3.
Qed.

Lemma configure_explained required h w p q x :
  explained required h (w_session w) -> flSessionValidateSelection (Some x) p q = FL_SESSION_OK ->
  tracksOf x = s_required (w_session w) ->
  (s_configured (w_session w) = true -> replaces (s_config (w_session w)) x) ->
  explained required ((Configure (Some x) p q, ready) :: h) (w_session (configured w x)).
Proof.
  intros [H1 H2 H3 H4 H5 H6 H7] Hv Ht Hr. rewrite configured_session. constructor; cbn; try done.
  - intros i _. by rewrite Z.bits_0.
  - constructor; cbn; try done; try (by intros; exfalso; eapply not_elem_of_nil; eauto); [by eauto|].
    by apply not_elem_of_nil.
  - change (StronglySorted (fun n o => c_generation o < c_generation n) (x :: configs h)). constructor; [done|].
    destruct (configs h) as [|y l] eqn:E; [done|].
    destruct (s_configured _) eqn:Ec; [|done]. injection H7 as ->. specialize (Hr eq_refl).
    apply replaces_inv in Hr as (Hg & _). inversion H6; subst. constructor; [done|].
    eapply Forall_impl; [done|]. simpl. intros; lia.
Qed.

Lemma set_ready_about c after s t :
  about c after s -> s_cancelled s = false ->
  track t -> about c ((TrackReady t (c_generation c), ready) :: after) (set_ready s (Z.lor (s_ready s) t)).
Proof.
  intros [H1 H2 H3 H4 H5 H6 H7] Hc Ht. constructor; cbn; try done.
  - intros u Hu Hl. destruct (decide (t = u)) as [->|Hn]; [by left|]. right. apply H3; [done|].
    rewrite Z.land_lor_distr_l in Hl. intros H0. apply Hl. rewrite H0, Z.lor_0_l.
    by destruct Ht as [-> | ->], Hu as [-> | ->].
  - rewrite Hc in *. intros [?|?]%elem_of_cons; done.
  - intros g m x [?|?]%elem_of_cons; [done|]. by apply H5.
  - intros g f p [?|?]%elem_of_cons; [done|]. by apply H6.
Qed.

Lemma set_cancelled_about c after s e :
  accepts e = false -> e = (Cancel, Void) \/ counted e = false ->
  about c after s -> about c (e :: after) (set_cancelled s).
Proof.
  intros Ha He [H1 H2 H3 H4 H5 H6 H7]. constructor; cbn; try done.
  - intros g m x [<-|?]%elem_of_cons; [by destruct He|]. by apply H5.
  - intros g f p [<-|?]%elem_of_cons; [by destruct He|]. by apply H6.
  - rewrite <- H7. unfold claims. simpl. destruct He as [->|He]; [done|].
    destruct e as [[] [| | |[]|]]; done.
Qed.

(** One step, for one call. *)
Definition keeps (c : Call) : Prop := forall required h w,
  explained required h (w_session w) ->
  explained required ((c, (perform c w).1) :: h) (w_session (perform c w).2).

Lemma configure_keeps c p q : keeps (Configure c p q).
Proof.
  intros required h w He. simpl. destruct (fl_gst_session_configure _ c p q w) as [r w'] eqn:E.
  apply configure_accepts in E as [(x & -> & -> & -> & Hv & Ht & Hr)|[Hr ->]]; simpl.
  - by apply configure_explained.
  - apply explained_same; [|done..]. by destruct c, r.
Qed.

Lemma register_keeps t : keeps (RegisterTrack t).
Proof.
  intros required h w He. simpl. unfold fl_gst_session_register_track. cbn [valid negb orb].
  destruct (negb (t =? 1) && _) eqn:Ht; [by apply explained_same|]. apply is_track in Ht.
  destruct (_ || _) eqn:E; [by apply explained_same|]. simpl.
  apply orb_false_iff in E as [Er _]. apply negb_false_iff in Er. apply land_track in Er; [|done].
  pose proof He as [H1 H2 H3 H4 H5 H6 H7]. apply explained_cons with (w_session w); try done; cbn.
  - apply mask_incl_lor_l. split; [done|]. by rewrite <- H1.
  - etrans; [exact H3|]. apply (proj1 (mask_incl_lor_l (s_registered (w_session w)) t _)). done.
  - by apply (explained_fresh required h).
  - intros c after Ha. apply (about_quiet c after (w_session w) (RegisterTrack t, ready) eq_refl) in Ha. by destruct Ha.
Qed.

Lemma ready_keeps t g : keeps (TrackReady t g).
Proof.
  intros required h w He. simpl. unfold fl_gst_session_track_ready. cbn [valid negb orb].
  destruct (negb (t =? 1) && _) eqn:Ht; [by apply explained_same|]. apply is_track in Ht.
  destruct (refusedFor _ g) as [r|] eqn:Eg; [by apply explained_same|].
  apply refusedFor_none in Eg as (Hc & Hconf & <-).
  destruct (negb (truthy _)) eqn:Er; [by apply explained_same|]. simpl.
  apply negb_false_iff in Er. apply land_track in Er; [|done].
  pose proof He as [H1 H2 H3 H4 H5 H6 H7]. apply explained_cons with (w_session w); try done; cbn.
  - by apply mask_incl_lor_l.
  - by rewrite Hconf.
  - intros c after Ha. pose proof Ha as [[_ Hcfg] _ _ _ _ _ _]. rewrite Hcfg. by apply set_ready_about.
Qed.

(** Setting [cancelled], with whatever effects. *)
Lemma cancelled_explained required h s e :
  accepts e = false -> e = (Cancel, Void) \/ counted e = false ->
  explained required h s -> explained required (e :: h) (set_cancelled s).
Proof.
  intros Ha He H. pose proof H as [H1 H2 H3 H4 H5 H6 H7]. apply explained_cons with s; try done; cbn.
  - by intros i _; rewrite Z.bits_0.
  - intros Hf. split; [done|]. by apply (explained_fresh required h).
  - intros c after. by apply set_cancelled_about.
Qed.

Lemma cancel_keeps : keeps Cancel.
Proof.
  intros required h w He. simpl. rewrite shutdownAudio_session, cancelEvents_session. cbn [w_session set_session].
  apply cancelled_explained; [done|by left|done].
Qed.

Lemma get_config_keeps out : keeps (GetConfig out).
Proof.
  intros required h w He. simpl. destruct out as [o|]; [|by apply explained_same]. simpl.
  assert (forall r out, explained required ((GetConfig (Some o), Config r out) :: h) (w_session (noticeFailure w))) as H.
  { intros r out. unfold noticeFailure. destruct (s_events _); [|by apply explained_same].
    destruct (w_channels w !! _) as [[c ?]|]; [|by apply explained_same].
    destruct (ec_failed c); [|by apply explained_same].
    cbn [effect w_session]. rewrite shutdownAudio_session. cbn [w_session set_session].
    apply cancelled_explained; [done|by right|done]. }
  destruct (s_cancelled _); [apply H|]. destruct (negb _); apply H.
Qed.

Lemma mapping_keeps g m e : keeps (SetMapping g m e).
Proof.
  intros required h w He. simpl. unfold fl_gst_session_set_mapping. cbn [valid negb].
  destruct m as [m|]; [|by apply explained_same].
  destruct (refusedFor _ g) as [r|] eqn:Eg; [apply explained_same; [done| |done]; by destruct r; unfold refusedFor in Eg; repeat case_match|].
  apply refusedFor_none in Eg as (Hc & Hconf & <-).
  destruct (negb (bool_decide _)) eqn:E1; [by apply explained_same|].
  destruct (s_mapped (w_session w) && _) eqn:E2; [by apply explained_same|]. simpl.
  pose proof He as [H1 H2 H3 H4 H5 H6 H7]. apply explained_cons with (w_session w); try done; cbn.
  - by rewrite Hconf.
  - intros c after [[A1 A2] A3 A4 A5 A6 A7 A8]. constructor; cbn; try done.
    + intros t Ht Hl. right. by apply A4.
    + rewrite Hc in *. intros [?|?]%elem_of_cons; done.
    + rewrite A2. intros g' m' e' [Heq|Hin]%elem_of_cons; [by simplify_eq|].
      destruct (A6 g' m' e' Hin) as (-> & Hm & <- & <-). rewrite Hm in E2. simpl in E2.
      rewrite !orb_false_iff, !negb_false_iff, !same_spec, !Z.eqb_eq in E2.
      destruct E2 as (((((? & ?) & ?) & ?) & ?) & ?). split_and!; [done..| |done].
      destruct m, (s_mapping (w_session w)); simpl in *; congruence.
    + intros g' f p [?|?]%elem_of_cons; [done|]. by apply A7.
Qed.

Lemma eos_keeps g f p : keeps (VideoEos g f p).
Proof.
  intros required h w He. simpl. unfold fl_gst_session_video_eos. cbn [valid negb orb].
  destruct (if truthy f then _ else _); [by apply explained_same|].
  destruct (refusedFor _ g) as [r|] eqn:Eg; [apply explained_same; [done| |done]; by destruct r; unfold refusedFor in Eg; repeat case_match|].
  apply refusedFor_none in Eg as (Hc & Hconf & <-).
  destruct (negb (truthy _)); [by apply explained_same|].
  destruct (s_videoEnded (w_session w) && _) eqn:E2; [by apply explained_same|]. simpl.
  pose proof He as [H1 H2 H3 H4 H5 H6 H7]. apply explained_cons with (w_session w); try done; cbn.
  - by rewrite Hconf.
  - intros c after [[A1 A2] A3 A4 A5 A6 A7 A8]. constructor; cbn; try done.
    + intros t Ht Hl. right. by apply A4.
    + rewrite Hc in *. intros [?|?]%elem_of_cons; done.
    + intros g' m' e' [?|?]%elem_of_cons; [done|]. by apply A6.
    + rewrite A2. intros g' f' p' [Heq|Hin]%elem_of_cons; [by simplify_eq|].
      destruct (A7 g' f' p' Hin) as (-> & Hm & <- & <-). rewrite Hm in E2. simpl in E2.
      split_and!; try done; lia.
Qed.

Lemma publish_audio_keeps c st b : keeps (PublishAudio c st b).
Proof.
  intros required h w He. simpl. unfold fl_gst_session_publish_audio. cbn [valid negb].
  destruct c as [c|]; [|by apply explained_same]. destruct st as [st|]; [|by apply explained_same].
  destruct (_ || negb (sameWire _ _)) eqn:E; [by apply explained_same|]. simpl.
  rewrite !orb_false_iff, !negb_false_iff, bool_decide_eq_true in E. destruct E as (((_ & Hconf) & Hn) & _).
  pose proof He as [H1 H2 H3 H4 H5 H6 H7]. specialize (H4 Hn).
  apply explained_cons with (w_session w); try done; cbn; [by rewrite Hconf|].
  intros x after Ha. apply (about_quiet x after (w_session w) (PublishAudio (Some c) (Some st) b, Flag true) eq_refl) in Ha
    as [? ? ? ? ? ? A]. constructor; try done. by rewrite A, H4.
Qed.

Lemma claim_keeps b g : keeps (ClaimAudio b g).
Proof.
  intros required h w He. simpl. unfold fl_gst_session_claim_audio_stream. cbn [valid negb].
  destruct (_ || _) eqn:E; [by apply explained_same|].
  rewrite !orb_false_iff, !negb_false_iff in E. destruct E as ((Hc & Hconf) & _).
  destruct (s_audioConnection _) as [st|]; [|by apply explained_same].
  destruct (_ || _) eqn:E2; [by apply explained_same|]. apply orb_false_iff in E2 as [_ Hcl]. simpl.
  pose proof He as [H1 H2 H3 H4 H5 H6 H7].
  apply explained_cons with (w_session w); try done; cbn; [by rewrite Hconf|].
  intros c after [A1 A2 A3 A4 A5 A6 A7]. constructor; cbn; try done.
  - intros t Ht Hl. right. by apply A3.
  - rewrite Hc in *. intros [?|?]%elem_of_cons; done.
  - intros g' m' e' [?|?]%elem_of_cons; [done|]. by apply A5.
  - intros g' f p [?|?]%elem_of_cons; [done|]. by apply A6.
  - rewrite Hcl in A7. unfold claims in *. simpl. by rewrite A7.
Qed.

Lemma publish_events_keeps c st b : keeps (PublishEvents c st b).
Proof.
  intros required h w He. simpl. unfold fl_gst_session_publish_events. cbn [valid negb].
  destruct c as [c|]; [|by apply explained_same]. destruct st as [st|]; [|by apply explained_same].
  destruct (_ || negb (sameWire _ _)) eqn:E; [by apply explained_same|]. simpl.
  rewrite !orb_false_iff, !negb_false_iff in E. destruct E as (((_ & Hconf) & _) & _).
  pose proof He as [H1 H2 H3 H4 H5 H6 H7]. apply explained_cons with (w_session w); try done; cbn; [by rewrite Hconf|].
  intros x after Ha. by apply (about_quiet x after (w_session w) (PublishEvents (Some c) (Some st) b, Flag true) eq_refl) in Ha as [].
Qed.

Lemma channel_keeps i e b t o a : keeps (SendOn i e b) /\ keeps (ReceiveOn i t o) /\ keeps (ReaderOn i a).
Proof.
  split_and!; intros required h w He; simpl.
  - unfold sendOn. destruct (w_channels w !! i) as [[c ?]|]; [|by apply explained_same].
    destruct (send_event c e b) as [[r c'] ?]. by apply explained_same.
  - unfold receiveOn. destruct (w_channels w !! i) as [[c ?]|]; [|by apply explained_same].
    destruct (receive_event c t o) as [[r e'] c']. by apply explained_same.
  - unfold readerOn. destruct (w_channels w !! i) as [[c [s|]]|]; by apply explained_same.
Qed.

Lemma perform_keeps c : keeps c.
Proof.
  destruct c; auto using configure_keeps, register_keeps, ready_keeps, cancel_keeps, mapping_keeps,
    get_config_keeps, publish_audio_keeps, claim_keeps, eos_keeps, publish_events_keeps.
  - by apply (channel_keeps channel event written 0 true Idle).
  - by apply (channel_keeps channel (mkEvent 0 0 0 0) true timeout out Idle).
  - by apply (channel_keeps channel (mkEvent 0 0 0 0) true 0 true arrival).
Qed.

Lemma run_explained required calls st :
  explained required st.1 (w_session st.2) -> explained required (run calls st).1 (w_session (run calls st).2).
Proof.
  revert st. induction calls as [|c l IH]; intros st H; [done|]. apply IH. unfold run_call.
  pose proof (perform_keeps c required st.1 st.2 H) as Hk. by destruct (perform c st.2).
Qed.


(** ** Theorems *)

Lemma new_world required w : fl_gst_session_new required = Some w -> w = newSession required.
Proof. unfold fl_gst_session_new. destruct (_ || _); [done|]. by intros [= <-]. Qed.

Lemma new_run_explained required w calls :
  fl_gst_session_new required = Some w ->
  explained required (run calls ([], w)).1 (w_session (run calls ([], w)).2).
Proof.
  intros Hn. apply run_explained. rewrite (new_world _ _ Hn).
  constructor; try done; simpl; auto with fl. constructor.
Qed.

Lemma run_app a b st : run (a ++ b) st = run b (run a st).
Proof. apply foldl_app. Qed.

(** The loop leaves at a moment its sleeps reached, where its check answered. *)
Lemma waitLoop_answers g o st sleeps r o' st' :
  waitLoop g o st sleeps = Some (r, o', st') ->
  exists slept, slept `prefix_of` concat sleeps.*1 /\ st' = run slept st
  /\ (r = FL_GST_SESSION_READY -> waitCheck (w_session st'.2) g = Some FL_GST_SESSION_READY
      /\ o' = s_config (w_session st'.2))
  /\ (r <> FL_GST_SESSION_READY -> o' = o).
Proof.
  revert st. induction sleeps as [|[others late] sleeps IH]; intros st; simpl;
    destruct (waitCheck (w_session st.2) g) as [x|] eqn:Ec.
  1, 3: intros H; exists []; split; [apply prefix_nil|]; destruct x; by simplify_eq.
  1: done.
  destruct late.
  - intros [= <- <- <-]. exists others. split; [by apply prefix_app_r|]. done.
  - intros (slept & Hp & -> & H)%IH. exists (others ++ slept). split; [by apply prefix_app|].
    by rewrite run_app.
Qed.

Lemma waitLoop_returns g o st sleeps :
  Exists (fun s => s.2 = true) sleeps -> is_Some (waitLoop g o st sleeps).
Proof.
  intros H. revert st. induction H as [[others late] l Hl|[others late] l _ IH]; intros st; simpl in *;
    destruct (waitCheck (w_session st.2) g) as [[]|]; eauto; subst; eauto. destruct late; eauto.
Qed.

Lemma waitCheck_ready self g :
  waitCheck self g = Some FL_GST_SESSION_READY ->
  s_cancelled self = false /\ s_configured self = true /\ c_generation (s_config self) = g
  /\ s_ready self = s_required self.
Proof.
  unfold waitCheck. destruct (s_cancelled self); [done|].
  destruct (s_configured self) eqn:E1; simpl; [|done].
  destruct (c_generation _ =? g) eqn:E2; [|done]. destruct (s_ready self =? s_required self) eqn:E3; [|done].
  intros _. split_and!; [done..|lia|lia].
Qed.

(** C19: READY means ready, now.  However the other threads' calls fall before and
    during a wait, when [fl_gst_session_wait] answers READY for a generation the
    configuration it hands out is the one in force, it was accepted for that
    generation against both offers and covers exactly the required tracks, every
    required track was reported ready for this very generation after that
    acceptance, and the session was not cancelled since.  Every other answer leaves
    the output alone, and the wait returns as soon as one of its sleeps reaches
    the deadline. *)
Theorem context_ready_sound required w calls g timeout out sleeps :
  fl_gst_session_new required = Some w ->
  (forall r o h' w',
     fl_gst_session_wait GSession g timeout (Some out) (run calls ([], w)) sleeps = Some (r, o, (h', w')) ->
     if bool_decide (r = FL_GST_SESSION_READY)
     then exists slept cfg after,
       slept `prefix_of` concat sleeps.*1 /\ (h', w') = run (calls ++ slept) ([], w)
       /\ o = Some cfg /\ since h' = Some (cfg, after)
       /\ c_generation cfg = g /\ tracksOf cfg = required
       /\ (exists p q, flSessionValidateSelection (Some cfg) p q = FL_SESSION_OK)
       /\ (forall t, track t -> Z.land required t <> 0 -> (TrackReady t g, ready) ∈ after)
       /\ (Cancel, Void) ∉ after
     else o = Some out)
  /\ (Exists (fun s => s.2 = true) sleeps ->
      is_Some (fl_gst_session_wait GSession g timeout (Some out) (run calls ([], w)) sleeps)).
Proof.
  intros Hn. unfold fl_gst_session_wait. cbn [valid negb orb].
  destruct (_ || _); [split; [by intros r o h' w' [= <- <- _]|by eauto]|].
  split.
  - intros r o h' w' Hw. destruct (waitLoop g out _ sleeps) as [[[r' o'] st']|] eqn:El; [|done].
    injection Hw as -> <- ->. apply waitLoop_answers in El as (slept & Hp & Hst & Hr & Hother).
    case_bool_decide as Hd; [|by rewrite Hother].
    destruct (Hr Hd) as [Hc ->]. apply waitCheck_ready in Hc as (Hc & Hconf & Hg & Heq). simpl in *.
    rewrite <- run_app in Hst. pose proof (new_run_explained required w (calls ++ slept) Hn) as He.
    rewrite <- Hst in He. destruct He as [H1 _ _ _ H5 _ _]. simpl in *.
    destruct (since h') as [[c after]|]; [|by destruct H5 as (? & _); congruence].
    destruct H5 as [[_ A2] [A3 A3'] A4 A5 _ _ _]. rewrite Hc in A5. subst g.
    exists slept, c, after. rewrite A2 in *. split_and!; try done; [congruence|].
    intros t Ht Hl. apply A4; [done|]. by rewrite Heq, H1.
  - intros Hs. destruct (waitLoop_returns g out (run calls ([], w)) sleeps Hs) as [[[r o] st'] E].
    rewrite E. simpl. by eauto.
Qed.

(** A session's history at any moment: what it was created with, then calls. *)
Definition reached (required : Z) (h : History) (w : World) : Prop :=
  exists calls w0, fl_gst_session_new required = Some w0 /\ run calls ([], w0) = (h, w).

Lemma reached_explained required h w : reached required h w -> explained required h (w_session w).
Proof. intros (calls & w0 & Hn & Hr). pose proof (new_run_explained required w0 calls Hn) as He. by rewrite Hr in He. Qed.

(** C33: One story per generation.  Accepted configurations have strictly
    increasing generations.  Since the last one, all accepted clock mappings are
    the same mapping and error bound, for its generation, and that mapping is the
    one timestamps are converted with; all accepted video ends agree on the frame
    count and the last timestamp; and the audio stream was handed out at most
    once. *)
Theorem context_generation_consistent required h w :
  reached required h w ->
  StronglySorted (fun n o => c_generation o < c_generation n) (configs h)
  /\ forall c after, since h = Some (c, after) ->
     head (configs h) = Some c
     /\ (forall g m e, (SetMapping g (Some m) e, ready) ∈ after ->
           g = c_generation c
           /\ (forall g' m' e', (SetMapping g' (Some m') e', ready) ∈ after -> (g', m', e') = (g, m, e))
           /\ (s_cancelled (w_session w) = false -> forall pts out,
                 fl_gst_session_map_pts GSession g pts (Some out) w =
                 match flSessionMapPts (Some c) (Some m) e pts (Some out) with
                 | (FL_SESSION_OK, t) => (FL_GST_SESSION_READY, t)
                 | (_, t) => (FL_GST_SESSION_INVALID, t)
                 end))
     /\ (forall g f p g' f' p', (VideoEos g f p, ready) ∈ after -> (VideoEos g' f' p', ready) ∈ after ->
           g = c_generation c /\ (g, f, p) = (g', f', p'))
     /\ (claims after <= 1)%nat.
Proof.
  intros Hr. apply reached_explained in Hr as [_ _ _ _ H5 H6 H7]. split; [done|].
  intros c after Hs. rewrite Hs in H5. destruct H5 as [[A1 A2] _ _ _ A5 A6 A7]. rewrite A1, A2 in H7.
  split; [done|]. split; [|split].
  - intros g m e Hm. destruct (A5 _ _ _ Hm) as (-> & Hmap & B1 & B2). split; [done|]. split.
    + intros g' m' e' Hm'. destruct (A5 _ _ _ Hm') as (-> & _ & <- & <-). by subst.
    + intros Hc pts out. unfold fl_gst_session_map_pts, refusedFor, mapped_pts. cbn [valid negb].
      rewrite Hc, A1, A2, Z.eqb_refl, Hmap, B1, B2. simpl.
      by destruct (flSessionMapPts _ _ _ _ _) as [[] ?].
  - intros g f p g' f' p' E1 E2. destruct (A6 _ _ _ E1) as (-> & _ & <- & <-).
    destruct (A6 _ _ _ E2) as (-> & _ & <- & <-). done.
  - rewrite A7. destruct (s_audioClaimed _); lia.
Qed.

(** Two tracks; the second becomes ready while the application waits. *)
Definition exCalls : list Call :=
  [RegisterTrack 1; RegisterTrack 2; Configure (Some (exCfg 3)) (Some exCapsP) (Some exCapsC); TrackReady 1 3].
Definition exSleeps : list Sleep := [([TrackReady 2 3], false); ([], true)].

Lemma context_ready_sound_witness :
  fl_gst_session_new 3 = Some (newSession 3)
  /\ exists h' w',
     fl_gst_session_wait GSession 3 1000 (Some (exCfg 1)) (run exCalls ([], newSession 3)) exSleeps
     = Some (FL_GST_SESSION_READY, Some (exCfg 3), (h', w'))
     /\ exists after, since h' = Some (exCfg 3, after) /\ (TrackReady 2 3, ready) ∈ after.
Proof.
  split; [reflexivity|].
  pose proof (context_ready_sound 3 (newSession 3) exCalls 3 1000 (exCfg 1) exSleeps eq_refl) as [Hs _].
  destruct (fl_gst_session_wait GSession 3 1000 (Some (exCfg 1)) (run exCalls ([], newSession 3)) exSleeps)
    as [[[r o] [h' w']]|] eqn:E; [|vm_compute in E; discriminate].
  specialize (Hs r o h' w' eq_refl).
  assert (r = FL_GST_SESSION_READY) as -> by (vm_compute in E; congruence).
  rewrite bool_decide_eq_true_2 in Hs by reflexivity.
  destruct Hs as (slept & cfg & after & _ & _ & -> & Hsince & _ & _ & _ & Hready & _).
  assert (cfg = exCfg 3) as -> by (vm_compute in E; vm_compute; congruence).
  exists h', w'. split; [reflexivity|]. exists after. split; [exact Hsince|].
  apply Hready; [by right|discriminate].
Defined.

(** Two generations: a mapping, an end and a claim in the second. *)
Definition exMapping : flClockMapping := mkMapping (c_clockId (exCfg 4)) (exId 11) 500 2000 10.
Definition exStory : list Call :=
  exCalls ++ [Configure (Some (exCfg 4)) (Some exCapsP) (Some exCapsC);
              Configure (Some (exCfg 3)) (Some exCapsP) (Some exCapsC);
              SetMapping 4 (Some exMapping) 50; SetMapping 4 (Some exMapping) 60;
              PublishAudio (Some (exCfg 4)) (Some 77) true; ClaimAudio true 4; ClaimAudio true 4;
              VideoEos 4 10 99].

Lemma context_generation_consistent_witness :
  reached 3 (run exStory ([], newSession 3)).1 (run exStory ([], newSession 3)).2
  /\ exists after, since (run exStory ([], newSession 3)).1 = Some (exCfg 4, after)
     /\ fl_gst_session_map_pts GSession 4 7 (Some 0) (run exStory ([], newSession 3)).2 = (FL_GST_SESSION_READY, Some 2507)
     /\ (claims after <= 1)%nat.
Proof.
  assert (reached 3 (run exStory ([], newSession 3)).1 (run exStory ([], newSession 3)).2) as Hr.
  { exists exStory, (newSession 3). split; [reflexivity|]. by destruct (run exStory _). }
  split; [exact Hr|].
  pose proof (context_generation_consistent 3 _ _ Hr) as [_ H].
  destruct (since (run exStory ([], newSession 3)).1) as [[c after]|] eqn:E; [|vm_compute in E; discriminate].
  destruct (H c after eq_refl) as (_ & _ & _ & Hc).
  assert (c = exCfg 4) as -> by (vm_compute in E; vm_compute; congruence).
  exists after. split; [reflexivity|]. split; [vm_compute; reflexivity|exact Hc].
Defined.
