(* ===== verification/Process.v ===== *)
(** * Interactive code over GIO streams

    The setup code of a session reads and writes whole messages on connected
    streams, draws random bytes, looks at its deadline and calls the session
    coordinator.  A [Proc] is such a piece of code: what it asks the world, and
    how it goes on with each answer.  [exec] runs one process against any
    environment, with other threads calling the same session in between; [duo]
    runs two processes against each other, in any order, over one connection. *)
From S2P Require Import Prelude Api Session SessionContext.

(** ** What the code asks of the world *)

(** [av::Endpoint] *)
Record Endpoint := mkEndpoint { ep_port : Z; ep_token : list Z }.

(** GIO, GStreamer and FrameLink calls, with their answers.  A [conn] is a
    [GSocketConnection*]. *)
Inductive IO : Type -> Type :=
| Read (conn : Z) (n : nat) : IO (option (list Z))      (* exactly [n] bytes, or a failure *)
| Write (conn : Z) (bytes : list Z) : IO bool            (* all of them, or a failure *)
| StreamReady (conn : Z) : IO bool                       (* a connected STREAM socket *)
| CloseStream (conn : Z) : IO unit
| Random (n : nat) : IO (option (list Z))                (* [av::secureRandom] *)
| DeadlineCancelled : IO bool
| GetTime : IO Z                                         (* [gst_clock_get_time] *)
| Sleep (us : Z) : IO unit
| Listen : IO (option Z)                                 (* loopback listener: its port *)
| Publish (path : list Z) (e : Endpoint) : IO bool       (* [RendezvousOwner::publish] *)
| ReadEndpoint (path : list Z) : IO (option Endpoint)
| Accept : IO (option Z)
| ConnectTo (port : Z) : IO (option Z)
| UnrefStream (conn : Z) : IO unit
| CreateChannel (name : list Z) (width height format pool flags : Z) : IO (flResult * option Z)
| OpenProducer (name : list Z) : IO (flResult * option Z)
| CloseChannel (channel : Z) : IO unit
| SetControl (conn : Z) : IO unit                        (* g_object_set_data_full *)
| GetControl : IO (option Z)
| StealControl : IO (option Z).

Inductive Proc (A : Type) : Type :=
| Ret (a : A)
| Ask {X : Type} (e : IO X) (k : X -> Proc A)
| Do (c : Call) (k : Answer -> Proc A).
Arguments Ret {A} a.
Arguments Ask {A X} e k.
Arguments Do {A} c k.

Fixpoint bind {A B} (p : Proc A) (f : A -> Proc B) : Proc B :=
  match p with
  | Ret a => f a
  | Ask e k => Ask e (fun x => bind (k x) f)
  | Do c k => Do c (fun x => bind (k x) f)
  end.

Definition ask {X} (e : IO X) : Proc X := Ask e Ret.
Definition call (c : Call) : Proc Answer := Do c Ret.

(** [if (!(x = p)) return false; q] and [if (!p) return false; q] in a function
    that returns [bool]. *)
Definition try {A} (p : Proc (option A)) (f : A -> Proc bool) : Proc bool :=
  bind p (fun x => match x with Some a => f a | None => Ret false end).
Definition check (p : Proc bool) (q : Proc bool) : Proc bool :=
  bind p (fun ok => if (ok : bool) then q else Ret false).

Declare Scope proc_scope.
Delimit Scope proc_scope with proc.
Notation "'let*' x := p 'in' q" := (bind p (fun x => q))
  (at level 200, x pattern, p at level 100, q at level 200,
   format "'[v' 'let*'  x  :=  p  'in' '/' q ']'") : proc_scope.
Notation "'let?' x := p 'in' q" := (try p (fun x => q))
  (at level 200, x pattern, p at level 100, q at level 200,
   format "'[v' 'let?'  x  :=  p  'in' '/' q ']'") : proc_scope.
Notation "'need' p 'then' q" := (check p q)
  (at level 200, p at level 100, q at level 200, format "'[v' 'need'  p  'then' '/' q ']'") : proc_scope.
#[global] Open Scope proc_scope.

(** ** Running a process in an environment *)

(** What a process did that its peer can see, and what it received. *)
Inductive Action :=
| Wrote (conn : Z) (bytes : list Z)
| Got (conn : Z) (bytes : list Z)
| Closed (conn : Z)
| ChannelMade (channel : Z)
| ChannelClosed (channel : Z).

Definition action {X} (e : IO X) : X -> list Action :=
  match e with
  | Read c _ => fun x => match x with Some bs => [Got c bs] | None => [] end
  | Write c bs => fun ok => if ok then [Wrote c bs] else []
  | CloseStream c => fun _ => [Closed c]
  | CreateChannel _ _ _ _ _ _ => fun x => match x.2 with Some ch => [ChannelMade ch] | None => [] end
  | OpenProducer _ => fun x => match x.2 with Some ch => [ChannelMade ch] | None => [] end
  | CloseChannel ch => fun _ => [ChannelClosed ch]
  | _ => fun _ => []
  end.

(** The answers, by time; and what other threads call between two steps. *)
Record Env := mkEnv {
  env_answer : nat -> forall X, IO X -> X;
  env_others : nat -> list Call;
}.

Definition State : Type := History * World.

Fixpoint exec {A} (env : Env) (p : Proc A) (t : nat) (s : State) : A * list Action * nat * State :=
  match p with
  | Ret a => (a, [], t, s)
  | Ask e k =>
    let s := run (env_others env t) s in
    let x := env_answer env t _ e in
    let '(a, log, t', s') := exec env (k x) (S t) s in (a, action e x ++ log, t', s')
  | Do c k =>
    let s := run (env_others env t) s in
    let '(x, w) := perform c s.2 in
    exec env (k x) (S t) ((c, x) :: s.1, w)
  end.

Lemma exec_bind {A B} env (p : Proc A) (f : A -> Proc B) t s :
  exec env (bind p f) t s =
  let '(a, log, t', s') := exec env p t s in
  let '(b, log', t'', s'') := exec env (f a) t' s' in (b, log ++ log', t'', s'').
Proof.
  revert t s. induction p as [a|X e k IH|c k IH]; intros t s; cbn [bind exec].
  - by destruct (exec env (f a) t s) as [[[b l] t'] s'].
  - rewrite IH. destruct (exec env (k _) (S t) _) as [[[a l] t'] s'].
    destruct (exec env (f a) t' s') as [[[b l'] t''] s'']. by rewrite app_assoc.
  - destruct (perform c _) as [x w]. by rewrite IH.
Qed.

(** A process only adds to the history of the session. *)
Definition grows (s s' : State) : Prop := exists h, s'.1 = h ++ s.1.

#[export] Instance grows_preorder : PreOrder grows.
Proof.
  split; [by intros s; exists []|]. intros s1 s2 s3 [h1 E1] [h2 E2]. exists (h2 ++ h1).
  by rewrite E2, E1, app_assoc.
Qed.

Lemma run_grows calls s : grows s (run calls s).
Proof.
  revert s. induction calls as [|c l IH]; intros s; simpl; [done|].
  etrans; [|apply IH]. unfold run_call. destruct (perform c s.2). by exists [(c, a)].
Qed.

Lemma exec_grows {A} env (p : Proc A) t s a l t' s' : exec env p t s = (a, l, t', s') -> grows s s'.
Proof.
  revert t s l. induction p as [a'|X e k IH|c k IH]; intros t s l; cbn [exec].
  - by intros [= <- <- <- <-].
  - destruct (exec env (k _) (S t) _) as [[[b l'] t''] s''] eqn:E. intros [= <- <- <- <-].
    etrans; [apply (run_grows (env_others env t))|]. by eapply IH.
  - destruct (perform c _) as [x w]. intros E%IH. etrans; [apply (run_grows (env_others env t))|].
    etrans; [|done]. by exists [(c, x)].
Qed.

(** *** What a process that returned TRUE has done *)

Lemma exec_need_true env p q t s log t' s' :
  exec env (check p q) t s = (true, log, t', s') ->
  exists l1 t1 s1 l2, exec env p t s = (true, l1, t1, s1) /\ exec env q t1 s1 = (true, l2, t', s')
    /\ log = l1 ++ l2.
Proof.
  unfold check. rewrite exec_bind. destruct (exec env p t s) as [[[[] l1] t1] s1]; [|done].
  destruct (exec env q t1 s1) as [[[b l2] t2] s2] eqn:E. intros [= -> <- <- <-]. by exists l1, t1, s1, l2.
Qed.

Lemma exec_write_true env c bs q t s log t' s' :
  exec env (check (ask (Write c bs)) q) t s = (true, log, t', s') ->
  exists s1 l, grows s s1 /\ log = Wrote c bs :: l /\ exec env q (S t) s1 = (true, l, t', s').
Proof.
  intros (l1 & t1 & s1 & l2 & E1 & E2 & ->)%exec_need_true. cbn in E1. injection E1 as Eok <- <- <-.
  rewrite Eok. exists (run (env_others env t) s), l2. split; [apply run_grows|by split].
Qed.

Lemma exec_try_true {X} env (e : IO (option X)) f t s log t' s' :
  exec env (try (ask e) f) t s = (true, log, t', s') ->
  exists x s1 l, env_answer env t _ e = Some x /\ grows s s1 /\ log = action e (Some x) ++ l
    /\ exec env (f x) (S t) s1 = (true, l, t', s').
Proof.
  unfold try, ask. cbn [bind exec].
  destruct (env_answer env t _ e) as [x|] eqn:E; [|done].
  destruct (exec env (f x) (S t) _) as [[[a l] t''] s''] eqn:E2. intros [= -> <- <- <-].
  exists x, (run (env_others env t) s), l. split; [done|]. split; [apply run_grows|by split].
Qed.

(** ** Two processes, one connection *)

(** One end: its code, its clock, its session, what has arrived and was not read. *)
Record Side (A : Type) := mkSide { sd_proc : Proc A; sd_time : nat; sd_state : State; sd_in : list Z }.
Arguments mkSide {A} _ _ _ _.
Arguments sd_proc {A} _.
Arguments sd_time {A} _.
Arguments sd_state {A} _.
Arguments sd_in {A} _.

(** The environment of one end, and its name for the connection. *)
Record End := mkEnd { end_conn : Z; end_answer : nat -> forall X, IO X -> X }.

(** A step of one end: the end and what it sent.  A read waits for its bytes. *)
Definition ask_step {A X} (E : End) (t : nat) (s : State) (inq : list Z) (e : IO X)
  : (X -> Proc A) -> option (Side A * list Z) :=
  match e in IO X return (X -> Proc A) -> option (Side A * list Z) with
  | Read c n => fun k =>
      if (c =? end_conn E) && (n <=? length inq)%nat
      then Some (mkSide (k (Some (take n inq))) (S t) s (drop n inq), []) else None
  | Write c bs => fun k =>
      if c =? end_conn E then Some (mkSide (k true) (S t) s inq, bs) else None
  | e => fun k => Some (mkSide (k (end_answer E t _ e)) (S t) s inq, [])
  end.

Definition side_step {A} (E : End) (d : Side A) : option (Side A * list Z) :=
  match sd_proc d with
  | Ret _ => None
  | Ask e k => ask_step E (sd_time d) (sd_state d) (sd_in d) e k
  | Do c k =>
    let '(x, w) := perform c (sd_state d).2 in
    Some (mkSide (k x) (S (sd_time d)) ((c, x) :: (sd_state d).1, w) (sd_in d), [])
  end.

Definition deliver {A} (bytes : list Z) (d : Side A) : Side A :=
  mkSide (sd_proc d) (sd_time d) (sd_state d) (sd_in d ++ bytes).

Section Duo.
Context {A B : Type} (EA EB : End).

Inductive duo_step : Side A * Side B -> Side A * Side B -> Prop :=
| left_step a b a' out : side_step EA a = Some (a', out) -> duo_step (a, b) (a', deliver out b)
| right_step a b b' out : side_step EB b = Some (b', out) -> duo_step (a, b) (deliver out a, b').
End Duo.

(** What arrives later does not change a step. *)
Lemma side_step_deliver {A} E (d d' : Side A) out bytes :
  side_step E d = Some (d', out) -> side_step E (deliver bytes d) = Some (deliver bytes d', out).
Proof.
  destruct d as [[a|X e k|c k] t s inq]; unfold side_step, deliver; cbn; [done| |].
  - destruct e; cbn; try (by intros [= <- <-]).
    + destruct (_ =? _); [|done]. cbn. destruct (Nat.leb_spec n (length inq)); [|done].
      intros [= <- <-]. cbn. rewrite length_app, take_app_le, drop_app_le by done.
      by rewrite leb_correct by lia.
    + destruct (_ =? _); [|done]. by intros [= <- <-].
  - destruct (perform c s.2). by intros [= <- <-].
Qed.

Lemma deliver_nil {A} (d : Side A) : deliver [] d = d.
Proof. destruct d. unfold deliver. cbn. by rewrite app_nil_r. Qed.

(** The two ends' steps commute. *)
Lemma duo_diamond {A B} EA EB (x y z : Side A * Side B) :
  duo_step EA EB x y -> duo_step EA EB x z -> y = z \/ exists w, duo_step EA EB y w /\ duo_step EA EB z w.
Proof.
  intros [a b a' out Ha|a b b' out Hb] Hz; inversion Hz as [? ? a2 out2 H2|? ? b2 out2 H2]; subst.
  - left. congruence.
  - right. exists (deliver out2 a', deliver out b2). split; [apply right_step|apply left_step];
      by apply side_step_deliver.
  - right. exists (deliver out a2, deliver out2 b'). split; [apply left_step|apply right_step];
      by apply side_step_deliver.
  - left. congruence.
Qed.

(** Every schedule of [R] from [x] reaches [f], and there is a last step. *)
Definition ends_in {X} (R : relation X) (x f : X) : Prop :=
  exists n, forall m y, nsteps R m x y -> (m <= n)%nat /\ nsteps R (n - m) y f.

Lemma diamond_ends {X} (R : relation X) x f n :
  (forall x y z, R x y -> R x z -> y = z \/ exists w, R y w /\ R z w) ->
  nsteps R n x f -> (forall y, ~ R f y) ->
  forall m y, nsteps R m x y -> (m <= n)%nat /\ nsteps R (n - m) y f.
Proof.
  intros Hd. revert x. induction n as [|n IH]; intros x Hx Hf m y Hm.
  - inversion Hx; subst. inversion Hm; subst; [by split|]. exfalso. by eapply Hf.
  - inversion Hm as [|m' ? y1 ? Hxy Hrest]; subst; [by rewrite Nat.sub_0_r; split; [lia|]|].
    inversion Hx as [|? ? x1 ? Hxx Hx1]; subst.
    assert (nsteps R n y1 f) as Hy1.
    { destruct (Hd x x1 y1 Hxx Hxy) as [<-|(w & Hw1 & Hw2)]; [done|].
      destruct (IH x1 Hx1 Hf 1%nat w) as [Hle Hw]; [by econstructor; [|constructor]|].
      replace n with (S (n - 1)) by lia. by econstructor. }
    destruct (IH y1 Hy1 Hf m' y Hrest). split; [lia|]. by replace (S n - S m')%nat with (n - m')%nat by lia.
Qed.

Lemma rtc_ends {X} (R : relation X) x f :
  (forall x y z, R x y -> R x z -> y = z \/ exists w, R y w /\ R z w) ->
  rtc R x f -> (forall y, ~ R f y) -> ends_in R x f.
Proof. intros Hd (n & Hn)%rtc_nsteps Hf. exists n. by apply diamond_ends. Qed.

Lemma done_stuck {A B} EA EB (a : A) (b : B) ta sa ia tb sb ib d :
  ~ duo_step EA EB (mkSide (Ret a) ta sa ia, mkSide (Ret b) tb sb ib) d.
Proof. intros H. inversion H; subst; done. Qed.

(** *** The moves of a protocol *)

(** No byte crosses the connection. *)
Definition is_local {X} (e : IO X) : Prop :=
  match e with Read _ _ | Write _ _ => False | _ => True end.

Section Moves.
Context {A B : Type} (EA EB : End).
Notation duo := (rtc (@duo_step A B EA EB)).
Implicit Types (sa sb : State).

(** The left end sends what the right end reads next. *)
Lemma duo_send bs (ka : bool -> Proc A) ta sa n (kb : option (list Z) -> Proc B) tb sb :
  length bs = n ->
  duo (mkSide (Ask (Write (end_conn EA) bs) ka) ta sa [], mkSide (Ask (Read (end_conn EB) n) kb) tb sb [])
      (mkSide (ka true) (S ta) sa [], mkSide (kb (Some bs)) (S tb) sb []).
Proof.
  intros Hn. eapply rtc_l; [apply left_step; cbn; by rewrite Z.eqb_refl|]. unfold deliver. cbn.
  eapply rtc_l; [apply right_step; cbn; rewrite Z.eqb_refl, leb_correct by lia; done|]. cbn.
  rewrite firstn_all2, skipn_all2, deliver_nil by lia. apply rtc_refl.
Qed.

Lemma duo_receive bs (kb : bool -> Proc B) tb sb n (ka : option (list Z) -> Proc A) ta sa :
  length bs = n ->
  duo (mkSide (Ask (Read (end_conn EA) n) ka) ta sa [], mkSide (Ask (Write (end_conn EB) bs) kb) tb sb [])
      (mkSide (ka (Some bs)) (S ta) sa [], mkSide (kb true) (S tb) sb []).
Proof.
  intros Hn. eapply rtc_l; [apply right_step; cbn; by rewrite Z.eqb_refl|]. unfold deliver. cbn.
  eapply rtc_l; [apply left_step; cbn; rewrite Z.eqb_refl, leb_correct by lia; done|]. cbn.
  rewrite firstn_all2, skipn_all2, deliver_nil by lia. apply rtc_refl.
Qed.

(** A step of one end alone. *)
Lemma duo_left {X} (e : IO X) k t s inq b :
  is_local e ->
  duo (mkSide (Ask e k) t s inq, b) (mkSide (k (end_answer EA t _ e)) (S t) s inq, b).
Proof.
  intros H. destruct e; try done;
    (eapply rtc_l; [apply left_step; reflexivity|]; rewrite deliver_nil; apply rtc_refl).
Qed.

Lemma duo_right {X} (e : IO X) k t s inq a :
  is_local e ->
  duo (a, mkSide (Ask e k) t s inq) (a, mkSide (k (end_answer EB t _ e)) (S t) s inq).
Proof.
  intros H. destruct e; try done;
    (eapply rtc_l; [apply right_step; reflexivity|]; rewrite deliver_nil; apply rtc_refl).
Qed.

Lemma duo_do_left c k t s inq b :
  duo (mkSide (Do c k) t s inq, b)
      (mkSide (k (perform c s.2).1) (S t) ((c, (perform c s.2).1) :: s.1, (perform c s.2).2) inq, b).
Proof.
  eapply rtc_l; [apply left_step; cbn; rewrite (surjective_pairing (perform c s.2)); reflexivity|]. rewrite deliver_nil.
  apply rtc_refl.
Qed.

Lemma duo_do_right c k t s inq a :
  duo (a, mkSide (Do c k) t s inq)
      (a, mkSide (k (perform c s.2).1) (S t) ((c, (perform c s.2).1) :: s.1, (perform c s.2).2) inq).
Proof.
  eapply rtc_l; [apply right_step; cbn; rewrite (surjective_pairing (perform c s.2)); reflexivity|]. rewrite deliver_nil.
  apply rtc_refl.
Qed.
End Moves.

(** Running the first parts of two processes. *)
Definition side_bind {A A'} (f : A -> Proc A') (d : Side A) : Side A' :=
  mkSide (bind (sd_proc d) f) (sd_time d) (sd_state d) (sd_in d).

Lemma side_step_bind {A A'} E (f : A -> Proc A') d d' out :
  side_step E d = Some (d', out) -> side_step E (side_bind f d) = Some (side_bind f d', out).
Proof.
  destruct d as [[a|X e k|c k] t s inq]; unfold side_step, side_bind; cbn; [done| |].
  - destruct e; cbn; try (by intros [= <- <-]).
    + destruct (_ && _); [|done]. by intros [= <- <-].
    + destruct (_ =? _); [|done]. by intros [= <- <-].
  - destruct (perform c s.2). by intros [= <- <-].
Qed.

Lemma duo_bind {A A' B B'} EA EB (f : A -> Proc A') (g : B -> Proc B') (x y : Side A * Side B) :
  rtc (duo_step EA EB) x y ->
  rtc (duo_step EA EB) (side_bind f x.1, side_bind g x.2) (side_bind f y.1, side_bind g y.2).
Proof.
  induction 1 as [|x y z Hs _ IH]; [apply rtc_refl|]. eapply rtc_l; [|exact IH].
  destruct Hs as [a b a' out H|a b b' out H]; cbn; apply (side_step_bind _ f) in H || apply (side_step_bind _ g) in H.
  - apply (left_step EA EB _ (side_bind g b)) in H. exact H.
  - apply (right_step EA EB (side_bind f a)) in H. exact H.
Qed.
