(* ===== verification/Auth.v ===== *)
(** * Mutual authentication of a stream (runtime/av_auth.cpp)

    A challenge and response in both directions over the private token of the
    rendezvous: no secret crosses the stream.  The MAC is GLib's; a nonce is what
    the random source answers. *)
From S2P Require Import Prelude Session SessionContext Process.

Definition authMagic : list Z := [70; 76; 65; 86; 65; 85; 84; 1].   (* "FLAVAUT" 1 *)

(** The roles and the directions, as characters. *)
Definition char_A : Z := 65.
Definition char_C : Z := 67.
Definition char_E : Z := 69.
Definition char_S : Z := 83.

Definition roleValid (role : Z) : bool := (role =? char_C) || (role =? char_A) || (role =? char_E).

(** [diff|=a[i]^b[i]] over two digests, and [diff==0]. *)
Definition digestEqual (a b : list Z) : bool :=
  foldl (fun diff xy => Z.lor diff (Z.lxor xy.1 xy.2)) 0 (zip a b) =? 0.

Section Auth.
(** [g_hmac_*] with SHA-256: key and message. *)
Context (hmac : list Z -> list Z -> list Z).

Definition authProof (e : Endpoint) (direction role : Z) (client server : list Z) : list Z :=
  hmac (ep_token e) (authMagic ++ [direction] ++ [role] ++ client ++ server).

Definition authenticateClientCancellable (c : option Z) (e : Endpoint) (role : Z) : Proc bool :=
  match c with
  | None => Ret false
  | Some c =>
    if negb (roleValid role) then Ret false else
    let? client := ask (Random 32) in
    need ask (Write c authMagic) then
    need ask (Write c [role]) then
    need ask (Write c client) then
    let? server := ask (Read c 32) in
    let? received := ask (Read c 32) in
    if negb (digestEqual received (authProof e char_S role client server)) then Ret false else
    need ask (Write c (authProof e char_C role client server)) then
    let? ok := ask (Read c 1) in
    Ret (bool_decide (ok = [1]))
  end.

Definition authenticateServerCancellable (c : option Z) (e : Endpoint) (expectedRole : Z) : Proc bool :=
  match c with
  | None => Ret false
  | Some c =>
    if negb (roleValid expectedRole) then Ret false else
    let? receivedMagic := ask (Read c 8) in
    if negb (bool_decide (receivedMagic = authMagic)) then Ret false else
    let? role := ask (Read c 1) in
    if negb (bool_decide (role = [expectedRole])) then Ret false else
    let? client := ask (Read c 32) in
    let? server := ask (Random 32) in
    need ask (Write c server) then
    need ask (Write c (authProof e char_S expectedRole client server)) then
    let? received := ask (Read c 32) in
    if negb (digestEqual received (authProof e char_C expectedRole client server)) then Ret false else
    ask (Write c [1])
  end.

Definition authenticateClient (c : option Z) (e : Endpoint) (role : Z) : Proc bool :=
  authenticateClientCancellable c e role.
Definition authenticateServer (c : option Z) (e : Endpoint) (expectedRole : Z) : Proc bool :=
  authenticateServerCancellable c e expectedRole.
End Auth.

(** * Properties *)

Lemma lor_lxor_fold l d :
  foldl (fun diff xy => Z.lor diff (Z.lxor xy.1 xy.2)) d l = 0 <-> d = 0 /\ Forall (fun xy => xy.1 = xy.2) l.
Proof.
  revert d. induction l as [|[x y] l IH]; intros d; simpl.
  - split; [by intros ->|by intros [-> _]].
  - rewrite IH, Z.lor_eq_0_iff, Z.lxor_eq_0_iff, Forall_cons. simpl. naive_solver.
Qed.

(** The comparison looks at every byte and decides equality. *)
Lemma digestEqual_spec a b : length a = length b -> digestEqual a b = true <-> a = b.
Proof.
  intros Hl. unfold digestEqual. rewrite Z.eqb_eq, lor_lxor_fold.
  split; [intros [_ H]|intros ->; split; [done|]].
  - revert b Hl H. induction a as [|x a IH]; intros [|y b]; simpl; try done.
    intros [= Hl] H. apply Forall_cons in H as [Hxy H]. simpl in Hxy. f_equal; [done|by apply IH].
  - clear Hl. induction b as [|y b IH]; simpl; by constructor.
Qed.

Lemma digestEqual_refl a : digestEqual a a = true.
Proof. by apply digestEqual_spec. Qed.

(** What an honest end answers: random bytes of the right number, its stream
    connected, its deadline not reached. *)
Record honest (answer : nat -> forall X, IO X -> X) : Prop := mkHonest {
  hn_random : forall t n, exists bs, answer t _ (Random n) = Some bs /\ length bs = n;
  hn_ready : forall t c, answer t _ (StreamReady c) = true;
  hn_deadline : forall t, answer t _ DeadlineCancelled = false;
}.

Section Exchange.
Context (hmac : list Z -> list Z -> list Z) (hmac_length : forall k m, length (hmac k m) = 32%nat).
Context (EA EB : End) (HA : honest (end_answer EA)) (HB : honest (end_answer EB)).

(** A client and a server with the same token and role accept each other. *)
Lemma auth_exchange e e' role ta sa tb sb :
  ep_token e = ep_token e' -> roleValid role = true ->
  exists ta' tb',
  rtc (duo_step EA EB)
    (mkSide (authenticateClientCancellable hmac (Some (end_conn EA)) e role) ta sa [],
     mkSide (authenticateServerCancellable hmac (Some (end_conn EB)) e' role) tb sb [])
    (mkSide (Ret true) ta' sa [], mkSide (Ret true) tb' sb []).
Proof.
  intros He Hr. unfold authenticateClientCancellable, authenticateServerCancellable. rewrite Hr. cbn [negb].
  unfold try, check, ask. cbn [bind].
  destruct (hn_random _ HA ta 32) as (client & Ec & Lc).
  eexists _, _. etrans; [by apply duo_left|]. rewrite Ec. cbn [bind].
  etrans; [apply duo_send; reflexivity|]. cbn [bind]. rewrite bool_decide_eq_true_2 by done. cbn [negb bind].
  etrans; [apply duo_send; reflexivity|]. cbn [bind]. rewrite bool_decide_eq_true_2 by done. cbn [negb bind].
  etrans; [apply duo_send; exact Lc|]. cbn [bind].
  match goal with |- context [mkSide (Ask (Random 32) _) ?t _ _] => destruct (hn_random _ HB t 32) as (server & Es & Ls) end.
  etrans; [by apply duo_right|]. rewrite Es. cbn [bind].
  etrans; [apply duo_receive; exact Ls|]. cbn [bind].
  etrans; [apply duo_receive; apply hmac_length|]. cbn [bind].
  unfold authProof. rewrite He, digestEqual_refl. cbn [negb bind].
  etrans; [apply duo_send; apply hmac_length|]. cbn [bind].
  rewrite digestEqual_refl. cbn [negb bind].
  etrans; [apply duo_receive; reflexivity|]. cbn [bind]. rewrite bool_decide_eq_true_2 by done. apply rtc_refl.
Qed.
End Exchange.
