(* ===== verification/Transport.v ===== *)
(** * Negotiating and binding the streams of a session
    (gst/framelink_session_transport.cpp)

    Each function is the process its thread runs: the offers and the
    configuration cross the authenticated control stream under directional MACs,
    and the audio and event streams are bound to the configuration by a derived
    key.  The error texts and the GError plumbing are left out; the deadline is
    what [DeadlineCancelled], the reads and the writes answer. *)
From S2P Require Import Prelude Api Session EventChannel SessionContext Process Auth.

(** ** Capability offers *)

Definition kOffer : nat := 268.

Definition videoBytes (v : flVideoFormat) : list Z :=
  put 4 (v_format v) ++ put 4 (v_width v) ++ put 4 (v_height v) ++ put 4 (v_fpsNum v) ++ put 4 (v_fpsDen v).
Definition audioBytes (a : flAudioFormat) : list Z :=
  put 4 (a_pcm a) ++ put 4 (a_rate a) ++ put 4 (a_layout a).

(** [b.fill(0)] and the writes at their offsets. *)
Definition offerBytes (c : flSessionCapabilities) : list Z :=
  let videos := concat (map videoBytes (entries (cap_videoCount c) (cap_video c))) in
  let audios := concat (map audioBytes (entries (cap_audioCount c) (cap_audio c))) in
  put 4 (cap_version c) ++ put 4 (cap_videoCount c) ++ put 4 (cap_audioCount c)
  ++ videos ++ replicate (160 - length videos) 0 ++ audios ++ replicate (96 - length audios) 0.

(** [encode(c,b)]: the offer, when the capabilities are usable. *)
Definition encodeOffer (c : flSessionCapabilities) : option (list Z) :=
  let '(r, _, _) := flSessionNegotiate (Some c) (Some c) (Some zeroVideo) (Some zeroAudio) in
  if negb (cap_version c =? FL_SESSION_OPTIONAL_TRACKS_VERSION) || negb (bool_decide (r = FL_SESSION_OK))
  then None else Some (offerBytes c).

(** GST_READ_UINT32_LE *)
Definition read32 (off : nat) (b : list Z) : Z := (get 4 (drop off b)).1.

Definition readVideo (b : list Z) (i : nat) : flVideoFormat :=
  let p := drop (12 + 20 * i) b in
  mkVideo (read32 0 p) (read32 4 p) (read32 8 p) (read32 12 p) (read32 16 p).
Definition readAudio (b : list Z) (i : nat) : flAudioFormat :=
  let p := drop (172 + 12 * i) b in mkAudio (read32 0 p) (read32 4 p) (read32 8 p).

(** [decode(b,c)]: accepted only when it is the canonical encoding. *)
Definition decodeOffer (b : list Z) : option flSessionCapabilities :=
  let videoCount := read32 4 b in
  let audioCount := read32 8 b in
  if (FL_SESSION_MAX_FORMATS <? videoCount) || (FL_SESSION_MAX_FORMATS <? audioCount) then None else
  let n := Z.to_nat videoCount in
  let m := Z.to_nat audioCount in
  let c := mkCaps (read32 0 b) videoCount audioCount
             (map (readVideo b) (seq 0 n) ++ replicate (8 - n) zeroVideo)
             (map (readAudio b) (seq 0 m) ++ replicate (8 - m) zeroAudio) in
  match encodeOffer c with
  | Some canonical => if bool_decide (canonical = b) then Some c else None
  | None => None
  end.

(** ** Failing *)

(** [return fail(...)]: cancel the session, close the stream. *)
Definition failed (s : GInstance) (stream : option Z) : Proc bool :=
  let* _ := (if valid s then call Cancel else Ret Void) in
  let* _ := (match stream with Some c => ask (CloseStream c) | None => Ret tt end) in
  Ret false.

Definition orFail (s : GInstance) (stream : option Z) (p : Proc bool) : Proc bool :=
  let* ok := p in if ok then Ret true else failed s stream.

(** A 32-byte credential that is not all zero, and the other arguments every
    entry point checks. *)
Definition keyUsable (key : list Z) : bool := negb (foldl Z.lor 0 key =? 0).
Definition badArguments (s : GInstance) (key : list Z) (timeout : Z) : bool :=
  negb (valid s) || negb (Nat.eqb (length key) 32) || negb (truthy timeout) || (60000 <? timeout).

(** [fl_gst_session_get_config(s,&cfg)==READY] and its encoding. *)
Definition currentConfig (s : GInstance) (k : flSessionConfig -> list Z -> Proc bool) : Proc bool :=
  if negb (valid s) then Ret false else
  let* a := call (GetConfig (Some zeroConfig)) in
  match a with
  | Config FL_GST_SESSION_READY (Some cfg) =>
    match flSessionEncode (Some cfg) (Some (replicate FL_SESSION_WIRE_SIZE 0)) with
    | (FL_SESSION_OK, Some wire) => k cfg wire
    | _ => Ret false
    end
  | _ => Ret false
  end.

(** "FLGSTAV" 2 *)
Definition avMagic : list Z := [70; 76; 71; 83; 84; 65; 86; 2].
Definition char_P : Z := 80.

Section Transport.
Context (hmac : list Z -> list Z -> list Z).

Definition proof (ep : Endpoint) (direction : Z) (client server cn sn wire : list Z) : list Z :=
  hmac (ep_token ep) (avMagic ++ [direction] ++ cn ++ sn ++ client ++ server ++ wire).

(** ** Negotiation *)

Definition set_formats (c : flSessionConfig) (v : flVideoFormat) (a : flAudioFormat) : flSessionConfig :=
  mkConfig (c_version c) (c_sessionId c) (c_clockId c) (c_generation c) (c_videoTrackId c) (c_audioTrackId c)
    v a (c_epochNs c) (c_videoQueueFrames c) (c_audioQueueMs c) (c_connectTimeoutMs c) (c_idleTimeoutMs c).

(** The producer's choice of a configuration for the consumer's offer. *)
Definition choose (proposal : flSessionConfig) (own peer : flSessionCapabilities)
  : option (flSessionConfig * list Z) :=
  if negb (c_version proposal =? FL_SESSION_OPTIONAL_TRACKS_VERSION) then None else
  match flSessionNegotiate (Some own) (Some peer) (Some (c_video proposal)) (Some (c_audio proposal)) with
  | (FL_SESSION_OK, Some v, Some a) =>
    let chosen := set_formats proposal v a in
    match flSessionValidateSelection (Some chosen) (Some own) (Some peer) with
    | FL_SESSION_OK =>
      match flSessionEncode (Some chosen) (Some (replicate FL_SESSION_WIRE_SIZE 0)) with
      | (FL_SESSION_OK, Some wire) => Some (chosen, wire)
      | _ => None
      end
    | _ => None
    end
  | _ => None
  end.

(** The deadline, and the coordinator's verdict. *)
Definition configureSession (chosen : flSessionConfig) (producerCaps consumerCaps : flSessionCapabilities)
  : Proc bool :=
  let* late := ask DeadlineCancelled in
  if (late : bool) then Ret false else
  let* a := call (Configure (Some chosen) (Some producerCaps) (Some consumerCaps)) in
  Ret (match a with Result FL_GST_SESSION_READY => true | _ => false end).

Definition negotiateProducer (c : Z) (ep : Endpoint) (own ownNonce : list Z)
    (local : flSessionCapabilities) (proposal : flSessionConfig) : Proc bool :=
  let? header := ask (Read c 8) in
  if negb (bool_decide (header = avMagic)) then Ret false else
  let? peerNonce := ask (Read c 32) in
  let? remote := ask (Read c kOffer) in
  match decodeOffer remote with
  | None => Ret false
  | Some peer =>
    match choose proposal local peer with
    | None => Ret false
    | Some (chosen, wire) =>
      need ask (Write c avMagic) then
      need ask (Write c ownNonce) then
      need ask (Write c own) then
      need ask (Write c wire) then
      need ask (Write c (proof ep char_P remote own peerNonce ownNonce wire)) then
      let? received := ask (Read c 32) in
      if negb (digestEqual received (proof ep char_C remote own peerNonce ownNonce wire)) then Ret false else
      configureSession chosen local peer
    end
  end.

(** The consumer's checks of what the producer selected. *)
Definition acceptChoice (ep : Endpoint) (own remote ownNonce peerNonce wire received : list Z)
    (local : flSessionCapabilities) : option (flSessionConfig * flSessionCapabilities) :=
  match decodeOffer remote with
  | None => None
  | Some peer =>
    if negb (digestEqual received (proof ep char_P own remote ownNonce peerNonce wire)) then None else
    match flSessionDecode (Some wire) (Some zeroConfig) with
    | (FL_SESSION_OK, Some chosen) =>
      if negb (c_version chosen =? FL_SESSION_OPTIONAL_TRACKS_VERSION)
         || negb (bool_decide (flSessionValidateSelection (Some chosen) (Some peer) (Some local) = FL_SESSION_OK))
      then None else Some (chosen, peer)
    | _ => None
    end
  end.

Definition negotiateConsumer (c : Z) (ep : Endpoint) (own ownNonce : list Z)
    (local : flSessionCapabilities) : Proc bool :=
  need ask (Write c avMagic) then
  need ask (Write c ownNonce) then
  need ask (Write c own) then
  let? header := ask (Read c 8) in
  if negb (bool_decide (header = avMagic)) then Ret false else
  let? peerNonce := ask (Read c 32) in
  let? remote := ask (Read c kOffer) in
  let? wire := ask (Read c FL_SESSION_WIRE_SIZE) in
  let? received := ask (Read c 32) in
  match acceptChoice ep own remote ownNonce peerNonce wire received local with
  | None => Ret false
  | Some (chosen, peer) =>
    need ask (Write c (proof ep char_C own remote ownNonce peerNonce wire)) then
    configureSession chosen peer local
  end.

Definition authenticate (producer : bool) (c : Z) (ep : Endpoint) (role : Z) : Proc bool :=
  if producer then authenticateServerCancellable hmac (Some c) ep role
  else authenticateClientCancellable hmac (Some c) ep role.

Definition fl_gst_session_negotiate_stream (s : GInstance) (stream : option Z) (producer : bool)
    (secret : option (list Z)) (local : option flSessionCapabilities) (proposal : option flSessionConfig)
    (timeout : Z) : Proc bool :=
  orFail s stream
    (match stream, secret, local with
     | Some c, Some key, Some local =>
       if badArguments s key timeout || (producer && bool_decide (proposal = None)) then Ret false else
       match encodeOffer local with
       | None => Ret false
       | Some own =>
         need ask (StreamReady c) then
         if negb (keyUsable key) then Ret false else
         let ep := mkEndpoint 0 key in
         need authenticate producer c ep char_C then
         let? ownNonce := ask (Random 32) in
         match producer, proposal with
         | true, Some proposal => negotiateProducer c ep own ownNonce local proposal
         | true, None => Ret false        (* refused above *)
         | false, _ => negotiateConsumer c ep own ownNonce local
         end
       end
     | _, _, _ => Ret false
     end).

(** ** Binding the audio and event streams *)

(** The two functions but for the track, the label, the role and the publication. *)
Definition bindStream (track : flSessionConfig -> Z) (label : list Z) (role : Z)
    (publish : flSessionConfig -> Z -> Call)
    (s : GInstance) (stream : option Z) (producer : bool) (secret : option (list Z)) (timeout : Z) : Proc bool :=
  orFail s stream
    (match stream, secret with
     | Some c, Some key =>
       if badArguments s key timeout then Ret false else
       currentConfig s (fun cfg wire =>
         if negb (truthy (track cfg)) || negb (c_version cfg =? FL_SESSION_OPTIONAL_TRACKS_VERSION)
         then Ret false else
         need ask (StreamReady c) then
         if negb (keyUsable key) then Ret false else
         let ep := mkEndpoint 0 (hmac key (label ++ wire)) in
         need authenticate producer c ep role then
         let* late := ask DeadlineCancelled in
         if (late : bool) then Ret false else
         currentConfig s (fun _ currentWire =>
           if negb (bool_decide (currentWire = wire)) then Ret false else
           let* a := call (publish cfg c) in
           Ret (match a with Flag b => b | _ => false end)))
     | _, _ => Ret false
     end).

(** "FrameLink public audio session v2" and "FrameLink public event session v2" *)
Definition audioLabel : list Z := [70; 114; 97; 109; 101; 76; 105; 110; 107; 32; 112; 117; 98; 108; 105; 99; 32; 97; 117; 100; 105; 111; 32; 115; 101; 115; 115; 105; 111; 110; 32; 118; 50; 0].
Definition eventLabel : list Z := [70; 114; 97; 109; 101; 76; 105; 110; 107; 32; 112; 117; 98; 108; 105; 99; 32; 101; 118; 101; 110; 116; 32; 115; 101; 115; 115; 105; 111; 110; 32; 118; 50; 0].

Definition fl_gst_session_authenticate_audio_stream (s : GInstance) (stream : option Z) (producer : bool)
    (secret : option (list Z)) (timeout : Z) : Proc bool :=
  bindStream c_audioTrackId audioLabel char_A (fun cfg c => PublishAudio (Some cfg) (Some c) producer)
    s stream producer secret timeout.

Definition fl_gst_session_authenticate_event_stream (s : GInstance) (stream : option Z) (producer : bool)
    (secret : option (list Z)) (timeout : Z) : Proc bool :=
  bindStream c_videoTrackId eventLabel char_E (fun cfg c => PublishEvents (Some cfg) (Some c) producer)
    s stream producer secret timeout.
End Transport.

(** * Properties *)

(** ** Offers round-trip *)

(** Capabilities as the C structure holds them, with nothing behind the counts. *)
Definition wf_caps (c : flSessionCapabilities) : Prop :=
  u32 (cap_version c) /\ u32 (cap_videoCount c) /\ u32 (cap_audioCount c)
  /\ (exists vs, cap_video c = vs ++ replicate (8 - Z.to_nat (cap_videoCount c)) zeroVideo
      /\ length vs = Z.to_nat (cap_videoCount c) /\ Forall wf_video vs)
  /\ (exists xs, cap_audio c = xs ++ replicate (8 - Z.to_nat (cap_audioCount c)) zeroAudio
      /\ length xs = Z.to_nat (cap_audioCount c) /\ Forall wf_audio xs).

Lemma length_videoBytes v : length (videoBytes v) = 20%nat.
Proof. unfold videoBytes, put. by rewrite !length_app, !length_put_le. Qed.
Lemma length_audioBytes a : length (audioBytes a) = 12%nat.
Proof. unfold audioBytes, put. by rewrite !length_app, !length_put_le. Qed.

Lemma length_chunks {A} (f : A -> list Z) k l :
  (forall x, length (f x) = k) -> length (concat (map f l)) = (k * length l)%nat.
Proof. intros Hk. induction l as [|x l IH]; simpl; [lia|]. rewrite length_app, Hk, IH. lia. Qed.

(** The [i]-th of equal chunks starts at [k * i]. *)
Lemma drop_chunks {A} (f : A -> list Z) k l i x r :
  (forall x, length (f x) = k) -> l !! i = Some x ->
  exists rest, drop (k * i) (concat (map f l) ++ r) = f x ++ rest.
Proof.
  intros Hk. revert i. induction l as [|y l IH]; intros [|i]; simpl; try done.
  - intros [= ->]. rewrite Nat.mul_0_r, <- app_assoc. by eexists.
  - intros Hi. destruct (IH i Hi) as [rest Hr]. exists rest. rewrite <- app_assoc.
    replace (k * S i)%nat with (k + k * i)%nat by lia.
    rewrite drop_app_ge by (rewrite Hk; lia). rewrite Hk. by replace (k + k * i - k)%nat with (k * i)%nat by lia.
Qed.

Lemma read32_put off pre v r : length pre = off -> u32 v -> read32 off (pre ++ put 4 v ++ r) = v.
Proof.
  intros <- Hv. unfold read32. rewrite drop_app_length. unfold get, put. by rewrite get_put_le4.
Qed.

(** Read a 32-bit field behind the fields before it. *)
Ltac read32_at pre :=
  match goal with
  | |- read32 ?off ?l = ?v =>
    let H := fresh in
    eassert (l = pre ++ put 4 v ++ _) as H by (rewrite <- ?app_assoc; reflexivity);
    refine (eq_trans (f_equal (read32 off) H) _);
    apply read32_put; [unfold put; by rewrite ?length_app, ?length_put_le|done]
  end.

Lemma read_video_fields v rest : wf_video v ->
  mkVideo (read32 0 (videoBytes v ++ rest)) (read32 4 (videoBytes v ++ rest)) (read32 8 (videoBytes v ++ rest))
    (read32 12 (videoBytes v ++ rest)) (read32 16 (videoBytes v ++ rest)) = v.
Proof.
  intros (? & ? & ? & ? & ?). destruct v as [a b c d e]. unfold videoBytes.
  cbn [v_format v_width v_height v_fpsNum v_fpsDen] in *. f_equal.
  - read32_at (@nil Z).
  - read32_at (put 4 a).
  - read32_at (put 4 a ++ put 4 b).
  - read32_at (put 4 a ++ put 4 b ++ put 4 c).
  - read32_at (put 4 a ++ put 4 b ++ put 4 c ++ put 4 d).
Qed.

Lemma read_audio_fields a rest : wf_audio a ->
  mkAudio (read32 0 (audioBytes a ++ rest)) (read32 4 (audioBytes a ++ rest)) (read32 8 (audioBytes a ++ rest)) = a.
Proof.
  intros (? & ? & ?). destruct a as [a b c]. unfold audioBytes. cbn [a_pcm a_rate a_layout] in *. f_equal.
  - read32_at (@nil Z).
  - read32_at (put 4 a).
  - read32_at (put 4 a ++ put 4 b).
Qed.

(** Reading back a whole table. *)
Lemma read_table {A} (f : A -> list Z) (rd : nat -> A) (l : list A) :
  (forall i x, l !! i = Some x -> rd i = x) -> map rd (seq 0 (length l)) = l.
Proof.
  intros H. apply list_eq. intros i. rewrite list_lookup_fmap.
  destruct (decide (i < length l)%nat) as [Hi|Hi].
  - rewrite lookup_seq_lt by done. simpl. destruct (l !! i) as [x|] eqn:E; [by rewrite (H i x E)|].
    apply lookup_ge_None in E. lia.
  - rewrite lookup_seq_ge by lia. by rewrite lookup_ge_None_2 by lia.
Qed.

(** The layout of an offer. *)
Lemma offer_layout c vs xs :
  entries (cap_videoCount c) (cap_video c) = vs -> entries (cap_audioCount c) (cap_audio c) = xs ->
  (length vs <= 8)%nat -> (length xs <= 8)%nat ->
  length (offerBytes c) = kOffer
  /\ (exists r, drop 12 (offerBytes c) = concat (map videoBytes vs) ++ r)
  /\ (exists r, drop 172 (offerBytes c) = concat (map audioBytes xs) ++ r).
Proof.
  intros Hv Hx Lv Lx. unfold offerBytes. rewrite Hv, Hx.
  pose proof (length_chunks videoBytes 20 vs length_videoBytes) as Cv.
  pose proof (length_chunks audioBytes 12 xs length_audioBytes) as Cx.
  set (V := concat (map videoBytes vs)) in *. set (X := concat (map audioBytes xs)) in *.
  split; [|split].
  - unfold put. rewrite !length_app, !length_put_le, !length_replicate. unfold kOffer. lia.
  - eexists. rewrite (app_assoc (put 4 _)), (app_assoc (_ ++ _)). apply drop_app_length'.
    unfold put. by rewrite !length_app, !length_put_le.
  - eexists. rewrite !(app_assoc _ _ (_ ++ replicate (96 - _) 0)). apply drop_app_length'.
    unfold put. rewrite !length_app, !length_put_le, length_replicate. lia.
Qed.

Lemma entries_app {A} n (l r : list A) : length l = Z.to_nat n -> entries n (l ++ r) = l.
Proof. intros Hl. unfold entries. rewrite <- Hl. by rewrite take_app_length. Qed.

Lemma encodeOffer_counts c b : encodeOffer c = Some b ->
  b = offerBytes c /\ caps (Some c) = FL_SESSION_OK.
Proof.
  unfold encodeOffer. destruct (flSessionNegotiate _ _ _ _) as [[r v] a] eqn:E.
  destruct (_ || _) eqn:E2; [done|]. intros [= <-]. split; [done|].
  apply orb_false_iff in E2 as [_ E2]. apply negb_false_iff, bool_decide_eq_true in E2. subst.
  unfold flSessionNegotiate in E. by destruct (caps (Some c)).
Qed.

(** Encoding and decoding an offer gives it back. *)
Lemma offer_roundtrip c b : wf_caps c -> encodeOffer c = Some b -> decodeOffer b = Some c /\ length b = kOffer.
Proof.
  intros (W1 & W2 & W3 & (vs & Hvs & Lvs & Wvs) & (xs & Hxs & Lxs & Wxs)) Henc.
  pose proof (encodeOffer_counts c b Henc) as [-> Hok]. apply caps_ok in Hok as (_ & Bv & Ba & _).
  assert (entries (cap_videoCount c) (cap_video c) = vs) as Ev by (rewrite Hvs; by apply entries_app).
  assert (entries (cap_audioCount c) (cap_audio c) = xs) as Ex by (rewrite Hxs; by apply entries_app).
  destruct (offer_layout c vs xs Ev Ex ltac:(lia) ltac:(lia)) as (Hlen & [rv Hdv] & [rx Hdx]).
  split; [|done].
  assert (read32 0 (offerBytes c) = cap_version c) as R0 by (unfold offerBytes; read32_at (@nil Z)).
  assert (read32 4 (offerBytes c) = cap_videoCount c) as R1 by (unfold offerBytes; read32_at (put 4 (cap_version c))).
  assert (read32 8 (offerBytes c) = cap_audioCount c) as R2
    by (unfold offerBytes; read32_at (put 4 (cap_version c) ++ put 4 (cap_videoCount c))).
  unfold decodeOffer. rewrite R0, R1, R2.
  replace (FL_SESSION_MAX_FORMATS <? cap_videoCount c) with false by (unfold FL_SESSION_MAX_FORMATS; lia).
  replace (FL_SESSION_MAX_FORMATS <? cap_audioCount c) with false by (unfold FL_SESSION_MAX_FORMATS; lia).
  cbn [orb].
  assert (map (readVideo (offerBytes c)) (seq 0 (Z.to_nat (cap_videoCount c))) = vs) as ->.
  { rewrite <- Lvs. apply (read_table videoBytes). intros i v Hi. unfold readVideo.
    rewrite <- drop_drop, Hdv.
    destruct (drop_chunks videoBytes 20 vs i v rv length_videoBytes Hi) as [rest ->].
    apply read_video_fields. by eapply Forall_lookup_1. }
  assert (map (readAudio (offerBytes c)) (seq 0 (Z.to_nat (cap_audioCount c))) = xs) as ->.
  { rewrite <- Lxs. apply (read_table audioBytes). intros i a Hi. unfold readAudio.
    rewrite <- drop_drop, Hdx.
    destruct (drop_chunks audioBytes 12 xs i a rx length_audioBytes Hi) as [rest ->].
    apply read_audio_fields. by eapply Forall_lookup_1. }
  rewrite <- Hvs, <- Hxs. destruct c as [a1 a2 a3 a4 a5]. cbn in *. rewrite Henc.
  by rewrite bool_decide_eq_true_2.
Qed.

(** What decodes is its own canonical encoding. *)
Lemma decodeOffer_canonical b c : decodeOffer b = Some c -> encodeOffer c = Some b.
Proof.
  unfold decodeOffer. destruct (_ || _); [done|]. destruct (encodeOffer _) as [b'|] eqn:E; [|done].
  case_bool_decide; [|done]. intros [= <-]. by subst.
Qed.

(** ** Two honest ends agree *)

Lemma configure_ready c p q (s : State) :
  flSessionValidateSelection (Some c) (Some p) (Some q) = FL_SESSION_OK ->
  tracksOf c = s_required (w_session s.2) ->
  (s_configured (w_session s.2) = true -> replaces (s_config (w_session s.2)) c) ->
  perform (Configure (Some c) (Some p) (Some q)) s.2 = (ready, configured s.2 c).
Proof.
  intros Hv Ht Hr. cbn. unfold fl_gst_session_configure. cbn [valid negb orb].
  rewrite bool_decide_eq_true_2 by done. cbn [negb].
  replace (negb (tracksOf c =? _)) with false by (rewrite Ht, Z.eqb_refl; done).
  destruct (s_configured (w_session s.2)); [|done].
  specialize (Hr eq_refl). unfold replaces in Hr. by rewrite Hr.
Qed.

(** What [choose] guarantees. *)
Lemma choose_spec proposal own peer chosen wire :
  choose proposal own peer = Some (chosen, wire) ->
  c_version chosen = FL_SESSION_OPTIONAL_TRACKS_VERSION
  /\ flSessionValidateSelection (Some chosen) (Some own) (Some peer) = FL_SESSION_OK
  /\ flSessionEncode (Some chosen) (Some (replicate FL_SESSION_WIRE_SIZE 0)) = (FL_SESSION_OK, Some wire)
  /\ exists v a, flSessionNegotiate (Some own) (Some peer) (Some (c_video proposal)) (Some (c_audio proposal))
                 = (FL_SESSION_OK, Some v, Some a) /\ chosen = set_formats proposal v a.
Proof.
  unfold choose. destruct (negb _) eqn:Ever; [done|]. apply negb_false_iff, Z.eqb_eq in Ever.
  destruct (flSessionNegotiate _ _ _ _) as [[[] [v|]] [a|]] eqn:En; try done.
  destruct (flSessionValidateSelection _ _ _) eqn:Ev; try done.
  destruct (flSessionEncode _ _) as [[] [w|]] eqn:Ee; try done. intros [= <- <-].
  split_and!; try done. by exists v, a.
Qed.

Section Agreement.
Context (hmac : list Z -> list Z -> list Z) (hmac_length : forall k m, length (hmac k m) = 32%nat).
Context (EC EP : End) (HC : honest (end_answer EC)) (HP : honest (end_answer EP)).
Context (key : list Z) (consumerCaps producerCaps : flSessionCapabilities) (offerC offerP : list Z).
Context (proposal chosen : flSessionConfig) (wire : list Z).
Context (WC : wf_caps consumerCaps) (WP : wf_caps producerCaps) (Wcfg : wf_config chosen).
Context (OC : encodeOffer consumerCaps = Some offerC) (OP : encodeOffer producerCaps = Some offerP).
Context (Hchoose : choose proposal producerCaps consumerCaps = Some (chosen, wire)).

(** A session that will take the chosen configuration. *)
Definition takes (s : State) : Prop :=
  tracksOf chosen = s_required (w_session s.2)
  /\ (s_configured (w_session s.2) = true -> replaces (s_config (w_session s.2)) chosen).

Definition taken (s : State) : State :=
  ((Configure (Some chosen) (Some producerCaps) (Some consumerCaps), ready) :: s.1, configured s.2 chosen).

Lemma configure_left (sa : State) ta (b : Side bool) :
  takes sa ->
  rtc (duo_step EC EP)
    (mkSide (configureSession chosen producerCaps consumerCaps) ta sa [], b)
    (mkSide (Ret true) (S (S ta)) (taken sa) [], b).
Proof.
  intros [Ht Hr]. destruct (choose_spec _ _ _ _ _ Hchoose) as (_ & Hsel & _).
  unfold configureSession, ask, call. cbn [bind].
  etrans; [by apply duo_left|]. rewrite (hn_deadline _ HC). cbn [bind].
  etrans; [apply duo_do_left|]. rewrite (configure_ready _ _ _ sa Hsel Ht Hr). apply rtc_refl.
Qed.

Lemma configure_right (sb : State) tb (a : Side bool) :
  takes sb ->
  rtc (duo_step EC EP)
    (a, mkSide (configureSession chosen producerCaps consumerCaps) tb sb [])
    (a, mkSide (Ret true) (S (S tb)) (taken sb) []).
Proof.
  intros [Ht Hr]. destruct (choose_spec _ _ _ _ _ Hchoose) as (_ & Hsel & _).
  unfold configureSession, ask, call. cbn [bind].
  etrans; [by apply duo_right|]. rewrite (hn_deadline _ HP). cbn [bind].
  etrans; [apply duo_do_right|]. rewrite (configure_ready _ _ _ sb Hsel Ht Hr). apply rtc_refl.
Qed.

(** The consumer accepts what the producer chose and proved. *)
Lemma acceptChoice_chosen ep nc np :
  acceptChoice hmac ep offerC offerP nc np wire (proof hmac ep char_P offerC offerP nc np wire) consumerCaps
  = Some (chosen, producerCaps).
Proof.
  destruct (choose_spec _ _ _ _ _ Hchoose) as (Hver & Hsel & Henc & _).
  unfold acceptChoice. destruct (offer_roundtrip _ _ WP OP) as [-> _].
  rewrite digestEqual_refl. cbn [negb].
  destruct (session_encode_decode chosen zeroConfig _ wire Wcfg Henc) as [_ ->].
  rewrite Hver, Z.eqb_refl, Hsel. by rewrite bool_decide_eq_true_2.
Qed.

(** The exchange after authentication. *)
Lemma offers_exchange ep nc np ta sa tb sb :
  length nc = 32%nat -> length np = 32%nat -> takes sa -> takes sb ->
  exists ta' tb', rtc (duo_step EC EP)
    (mkSide (negotiateConsumer hmac (end_conn EC) ep offerC nc consumerCaps) ta sa [],
     mkSide (negotiateProducer hmac (end_conn EP) ep offerP np producerCaps proposal) tb sb [])
    (mkSide (Ret true) ta' (taken sa) [], mkSide (Ret true) tb' (taken sb) []).
Proof.
  intros Lc Lp Ha Hb. destruct (offer_roundtrip _ _ WC OC) as [Dc Lo]. destruct (offer_roundtrip _ _ WP OP) as [_ Lo'].
  destruct (choose_spec _ _ _ _ _ Hchoose) as (_ & _ & Henc & _).
  destruct (session_encode_decode chosen zeroConfig _ wire Wcfg Henc) as [Lw _].
  unfold negotiateConsumer, negotiateProducer, try, check, ask. cbn [bind].
  eexists _, _.
  etrans; [apply duo_send; reflexivity|]. cbn [bind]. rewrite bool_decide_eq_true_2 by done. cbn [negb bind].
  etrans; [apply duo_send; exact Lc|]. cbn [bind].
  etrans; [apply duo_send; exact Lo|]. cbn [bind]. rewrite Dc, Hchoose. cbn [bind].
  etrans; [apply duo_receive; reflexivity|]. cbn [bind]. rewrite bool_decide_eq_true_2 by done. cbn [negb bind].
  etrans; [apply duo_receive; exact Lp|]. cbn [bind].
  etrans; [apply duo_receive; exact Lo'|]. cbn [bind].
  etrans; [apply duo_receive; exact Lw|]. cbn [bind].
  etrans; [apply duo_receive; apply hmac_length|]. cbn [bind].
  rewrite acceptChoice_chosen. cbn [bind].
  etrans; [apply duo_send; apply hmac_length|]. cbn [bind]. rewrite digestEqual_refl. cbn [negb].
  etrans; [by apply configure_left|]. by apply configure_right.
Qed.

(** The start of a negotiation: the consumer and the producer. *)
Definition consumerSide (ta : nat) (sa : State) (timeout : Z) : Side bool :=
  mkSide (fl_gst_session_negotiate_stream hmac GSession (Some (end_conn EC)) false (Some key)
            (Some consumerCaps) None timeout) ta sa [].
Definition producerSide (tb : nat) (sb : State) (timeout : Z) : Side bool :=
  mkSide (fl_gst_session_negotiate_stream hmac GSession (Some (end_conn EP)) true (Some key)
            (Some producerCaps) (Some proposal) timeout) tb sb [].

Lemma negotiation_runs ta sa tb sb timeout timeout' :
  length key = 32%nat -> keyUsable key = true ->
  0 < timeout <= 60000 -> 0 < timeout' <= 60000 -> takes sa -> takes sb ->
  exists ta' tb', rtc (duo_step EC EP) (consumerSide ta sa timeout, producerSide tb sb timeout')
    (mkSide (Ret true) ta' (taken sa) [], mkSide (Ret true) tb' (taken sb) []).
Proof.
  intros Hk Hu Ht Ht' Ha Hb. unfold consumerSide, producerSide, fl_gst_session_negotiate_stream.
  assert (forall t, 0 < t <= 60000 -> badArguments GSession key t = false) as Hargs.
  { intros t Hr. unfold badArguments, truthy. rewrite Hk. cbn. lia. }
  rewrite (Hargs _ Ht), (Hargs _ Ht'), OC, OP, Hu. cbn [andb orb negb]. rewrite bool_decide_eq_false_2 by done.
  destruct (auth_exchange hmac hmac_length EC EP HC HP (mkEndpoint 0 key) (mkEndpoint 0 key) char_C
    (S ta) sa (S tb) sb eq_refl eq_refl) as (tc & tp & Hauth).
  unfold orFail, check, try, ask, authenticate. cbn [bind].
  destruct (hn_random _ HC tc 32) as (nc & Rc & Lc). destruct (hn_random _ HP tp 32) as (np & Rp & Lp).
  destruct (offers_exchange (mkEndpoint 0 key) nc np (S tc) sa (S tp) sb Lc Lp Ha Hb) as (ta' & tb' & Hex).
  exists ta', tb'.
  etrans; [by apply duo_left|]. rewrite (hn_ready _ HC). cbn [bind].
  etrans; [by apply duo_right|]. rewrite (hn_ready _ HP). cbn [bind].
  apply (duo_bind EC EP
    (fun ok : bool => if ok then Ask (Random 32) (fun o => match o with Some a => negotiateConsumer hmac (end_conn EC) (mkEndpoint 0 key) offerC a consumerCaps | None => Ret false end) else Ret false)
    (fun ok : bool => if ok then Ask (Random 32) (fun o => match o with Some a => negotiateProducer hmac (end_conn EP) (mkEndpoint 0 key) offerP a producerCaps proposal | None => Ret false end) else Ret false)) in Hauth.
  apply (duo_bind EC EP (fun ok : bool => if ok then Ret true else failed GSession (Some (end_conn EC)))
    (fun ok : bool => if ok then Ret true else failed GSession (Some (end_conn EP)))) in Hauth.
  etrans; [exact Hauth|]. clear Hauth. unfold side_bind. cbn [fst snd sd_proc sd_time sd_state sd_in bind].
  etrans; [by apply duo_left|]. rewrite Rc. etrans; [by apply duo_right|]. rewrite Rp.
  apply (duo_bind EC EP (fun ok : bool => if ok then Ret true else failed GSession (Some (end_conn EC)))
    (fun ok : bool => if ok then Ret true else failed GSession (Some (end_conn EP)))) in Hex.
  exact Hex.
Qed.

(** C15: two honest ends agree, in whatever order they run.  A consumer and a
    producer that hold the same 32-byte key, over one connection that carries their
    bytes, whose random source and deadline do not fail: every schedule of the two
    negotiations comes to the same end after a bounded number of steps, where both
    have returned TRUE and both sessions were configured, as their last step, with
    the same configuration - the producer's proposal with the formats negotiation
    picks from the two offers. *)
Theorem session_negotiation_agrees ta sa tb sb timeout timeout' :
  length key = 32%nat -> keyUsable key = true ->
  0 < timeout <= 60000 -> 0 < timeout' <= 60000 -> takes sa -> takes sb ->
  (exists ta' tb', ends_in (duo_step EC EP) (consumerSide ta sa timeout, producerSide tb sb timeout')
     (mkSide (Ret true) ta' (taken sa) [], mkSide (Ret true) tb' (taken sb) []))
  /\ s_config (w_session (taken sa).2) = chosen /\ s_config (w_session (taken sb).2) = chosen
  /\ since (taken sa).1 = Some (chosen, []) /\ since (taken sb).1 = Some (chosen, [])
  /\ exists v a, flSessionNegotiate (Some producerCaps) (Some consumerCaps) (Some (c_video proposal))
       (Some (c_audio proposal)) = (FL_SESSION_OK, Some v, Some a) /\ chosen = set_formats proposal v a.
Proof.
  intros Hk Hu Ht Ht' Ha Hb. split.
  - destruct (negotiation_runs ta sa tb sb timeout timeout' Hk Hu Ht Ht' Ha Hb) as (ta' & tb' & Hrun).
    exists ta', tb'. apply rtc_ends; [apply duo_diamond|exact Hrun|]. intros y. apply done_stuck.
  - unfold taken. cbn [snd fst]. rewrite !configured_session. split_and!; try done.
    by destruct (choose_spec _ _ _ _ _ Hchoose) as (_ & _ & _ & ?).
Qed.
End Agreement.

(** ** Whatever the peer and the network do *)

Section Soundness.
Context (hmac : list Z -> list Z -> list Z) (hmac_length : forall k m, length (hmac k m) = 32%nat).
Context (env : Env) (reads_exact : forall t c n bs, env_answer env t _ (Read c n) = Some bs -> length bs = n).

(** A process that ended with the configuration of the session. *)
Lemma configureSession_true chosen p q t s log t' s' :
  exec env (configureSession chosen p q) t s = (true, log, t', s') ->
  exists s1, grows s s1 /\ s'.1 = (Configure (Some chosen) (Some p) (Some q), ready) :: s1.1.
Proof.
  unfold configureSession, ask, call. cbn [bind exec].
  destruct (env_answer env t _ DeadlineCancelled); [done|]. cbn [exec].
  destruct (perform _ _) as [x w] eqn:E.
  destruct x as [|[]| | |]; cbn [exec app]; intros H; try discriminate H.
  injection H as _ _ <-. eexists. split; [|reflexivity]. etrans; apply run_grows.
Qed.

(** The transcript both MACs cover, and what the log of a successful end shows:
    the peer's MAC arrived, this end's MAC was sent. *)
Definition exchanged (c : Z) (ep : Endpoint) (producer : bool) (log : list Action)
    (clientOffer serverOffer cn sn wire : list Z) : Prop :=
  Got c (if producer then clientOffer else serverOffer) ∈ log
  /\ Got c (proof hmac ep (if producer then char_C else char_P) clientOffer serverOffer cn sn wire) ∈ log
  /\ Wrote c (proof hmac ep (if producer then char_P else char_C) clientOffer serverOffer cn sn wire) ∈ log.

Definition agreed (c : Z) (ep : Endpoint) (producer : bool) (local : flSessionCapabilities) (s s' : State)
    (log : list Action) : Prop :=
  exists peer chosen own remote cn sn wire s1,
    let '(P, C) := if producer then (local, peer) else (peer, local) in
    encodeOffer local = Some own /\ decodeOffer remote = Some peer
    /\ c_version chosen = FL_SESSION_OPTIONAL_TRACKS_VERSION
    /\ flSessionValidateSelection (Some chosen) (Some P) (Some C) = FL_SESSION_OK
    /\ (if producer
        then flSessionEncode (Some chosen) (Some (replicate FL_SESSION_WIRE_SIZE 0)) = (FL_SESSION_OK, Some wire)
        else flSessionDecode (Some wire) (Some zeroConfig) = (FL_SESSION_OK, Some chosen))
    /\ (if producer then exchanged c ep producer log remote own cn sn wire
        else exchanged c ep producer log own remote cn sn wire)
    /\ grows s s1 /\ s'.1 = (Configure (Some chosen) (Some P) (Some C), ready) :: s1.1.

(** Peel the next read, random draw or write off a successful run. *)
Ltac peel :=
  match goal with
  | H : exec _ (try (ask (Read ?c ?n)) _) _ _ = (true, _, _, _) |- _ =>
    let bs := fresh "bs" in let s := fresh "s" in let l := fresh "l" in let E := fresh "E" in let G := fresh "G" in
    apply exec_try_true in H as (bs & s & l & E & G & -> & H); apply reads_exact in E; cbn [action] in *
  | H : exec _ (check (ask (Write _ _)) _) _ _ = (true, _, _, _) |- _ =>
    let s := fresh "s" in let l := fresh "l" in let G := fresh "G" in
    apply exec_write_true in H as (s & l & G & -> & H)
  | H : exec _ (if negb (bool_decide (?a = ?b)) then Ret false else _) _ _ = (true, _, _, _) |- _ =>
    let E := fresh "E" in destruct (bool_decide (a = b)) eqn:E; cbn [negb] in H; [apply bool_decide_eq_true in E|done]
  | H : exec _ (if negb (digestEqual ?a ?b) then Ret false else _) _ _ = (true, _, _, _) |- _ =>
    let E := fresh "E" in destruct (digestEqual a b) eqn:E; cbn [negb] in H;
      [apply digestEqual_spec in E; [subst|unfold proof; by rewrite hmac_length]|done]
  end.

Ltac in_log := rewrite ?elem_of_app, ?elem_of_cons; tauto.

Lemma producer_true c ep own nonce local proposal t s log t' s' :
  encodeOffer local = Some own ->
  exec env (negotiateProducer hmac c ep own nonce local proposal) t s = (true, log, t', s') ->
  agreed c ep true local s s' log.
Proof.
  intros Hown H. unfold negotiateProducer in H. do 4 peel.
  destruct (decodeOffer _) as [peer|] eqn:Ed; [|done].
  destruct (choose proposal local peer) as [[chosen wire]|] eqn:Ec; [|done].
  destruct (choose_spec _ _ _ _ _ Ec) as (Hver & Hsel & Henc & _).
  do 7 peel. apply configureSession_true in H as (sx & Hg & Hs).
  eexists peer, chosen, own, _, _, _, wire, sx. split_and!; try done; [|by repeat (etrans; [eassumption|])].
  unfold exchanged. cbn [app]. split_and!; in_log.
Qed.

Lemma consumer_true c ep own nonce local t s log t' s' :
  encodeOffer local = Some own ->
  exec env (negotiateConsumer hmac c ep own nonce local) t s = (true, log, t', s') ->
  agreed c ep false local s s' log.
Proof.
  intros Hown H. unfold negotiateConsumer in H. do 9 peel.
  destruct (acceptChoice _ _ _ _ _ _ _ _ _) as [[chosen peer]|] eqn:Ea; [|done].
  unfold acceptChoice in Ea. destruct (decodeOffer _) as [peer'|] eqn:Ed; [|done].
  destruct (digestEqual _ _) eqn:Eq; [cbn [negb] in Ea|done].
  apply digestEqual_spec in Eq; [subst|unfold proof; by rewrite hmac_length].
  destruct (flSessionDecode _ _) as [[] [ch|]] eqn:Edec; try done.
  destruct (_ || _) eqn:Eor; [done|]. injection Ea as -> ->.
  rewrite orb_false_iff, !negb_false_iff, Z.eqb_eq, bool_decide_eq_true in Eor. destruct Eor as [Hver Hsel].
  peel. apply configureSession_true in H as (sx & Hg & Hs).
  eexists peer, chosen, own, _, _, _, _, sx. split_and!; try done; [|by repeat (etrans; [eassumption|])].
  unfold exchanged. cbn [app]. split_and!; in_log.
Qed.

(** The cleanup of a failed call. *)
Lemma orFail_result c p t s r log t' s' :
  exec env (orFail GSession (Some c) p) t s = (r, log, t', s') ->
  if r then exec env p t s = (true, log, t', s')
  else exists h, s'.1 = h ++ s.1 /\ (Cancel, Void) ∈ h /\ Closed c ∈ log.
Proof.
  unfold orFail. rewrite exec_bind. destruct (exec env p t s) as [[[ok l1] t1] s1] eqn:E. destruct ok.
  - cbn. intros [= <- <- <- <-]. by rewrite app_nil_r.
  - unfold failed, call, ask. cbn -[fl_gst_session_cancel run]. intros [= <- <- _ <-].
    apply exec_grows in E as [h0 E0].
    destruct (run_grows (env_others env t1) s1) as [h1 E1].
    match goal with |- context [(run (env_others env (S t1)) ?x)] =>
      destruct (run_grows (env_others env (S t1)) x) as [h2 E2] end.
    rewrite E2. cbn [fst]. rewrite E1, E0. exists (h2 ++ (Cancel, Void) :: h1 ++ h0).
    rewrite <- !app_assoc. split; [|split].
    + cbn [app]. by rewrite <- !app_assoc.
    + apply elem_of_app. right. by left.
    + apply elem_of_app. right. by left.
Qed.

(** C14: a negotiation never succeeds unauthenticated, and never fails half open.
    Whatever the peer sends, the network loses and other threads call in between:
    when it returns TRUE, the peer's MAC over this very transcript - both offers,
    both nonces and the configuration - arrived and this end's was sent, the
    configuration decodes from or encodes to the bytes the MACs cover, it is a
    valid selection of the two offers, and configuring the session with it was the
    last thing done; when it returns FALSE, the session was cancelled and the
    stream closed. *)
Theorem session_negotiation_sound c producer key local proposal timeout t s r log t' s' :
  exec env (fl_gst_session_negotiate_stream hmac GSession (Some c) producer (Some key) (Some local) proposal timeout)
    t s = (r, log, t', s') ->
  if r then exists l1 l2 s0, log = l1 ++ l2 /\ grows s s0 /\ length key = 32%nat /\ keyUsable key = true
         /\ agreed c (mkEndpoint 0 key) producer local s0 s' l2
  else exists h, s'.1 = h ++ s.1 /\ (Cancel, Void) ∈ h /\ Closed c ∈ log.
Proof.
  intros H%orFail_result. destruct r; [|exact H].
  destruct (_ || _) eqn:Eb; [done|]. apply orb_false_iff in Eb as [Eb _].
  unfold badArguments in Eb. rewrite !orb_false_iff, !negb_false_iff, Nat.eqb_eq in Eb.
  destruct Eb as (((_ & Hk) & _) & _).
  destruct (encodeOffer local) as [own|] eqn:Eo; [|done].
  apply exec_need_true in H as (l1 & t1 & s1 & l2 & E1 & H & ->).
  destruct (keyUsable key) eqn:Eu; [cbn [negb] in H|done].
  apply exec_need_true in H as (l3 & t3 & s3 & l4 & E3 & H & ->).
  apply exec_try_true in H as (nonce & s4 & l5 & _ & G4 & -> & H).
  exists (l1 ++ l3), l5, s4. cbn [action app]. split; [by rewrite app_assoc|].
  apply exec_grows in E1. apply exec_grows in E3. split; [by repeat (etrans; [eassumption|])|].
  split; [done|]. split; [done|].
  destruct producer.
  - destruct proposal as [pr|]; [|done]. by eapply producer_true.
  - by eapply consumer_true.
Qed.
End Soundness.

(** *** A concrete negotiation *)

Definition exCapsProducer : flSessionCapabilities :=
  mkCaps 2 1 2 (exVideo :: replicate 7 zeroVideo) (exAudio 44100 :: exAudio 48000 :: replicate 6 zeroAudio).
Definition exCapsConsumer : flSessionCapabilities :=
  mkCaps 2 1 1 (exVideo' :: replicate 7 zeroVideo) (exAudio 48000 :: replicate 7 zeroAudio).
Definition exProposal : flSessionConfig :=
  mkConfig 2 (exId 7) (exId 9) 1 1 2 zeroVideo zeroAudio 1000 4 100 5000 2000.
Definition exChosen : flSessionConfig := set_formats exProposal exVideo (exAudio 48000).
Definition exHmac (k m : list Z) : list Z := replicate 32 (foldl Z.add 0 m mod 256).
Definition exOffer (c : flSessionCapabilities) : list Z := offerBytes c.
Definition exChosenWire : list Z := encodeFields exChosen ++ replicate 48 0.

Definition exAnswer (t : nat) (X : Type) (e : IO X) : X :=
  match e in IO X return X with
  | Random n => Some (replicate n (Z.of_nat t))
  | Read _ _ => None
  | Write _ _ => true
  | StreamReady _ => true
  | CloseStream _ => tt
  | DeadlineCancelled => false
  | GetTime => 0
  | Sleep _ => tt
  | Listen => None
  | Publish _ _ => false
  | ReadEndpoint _ => None
  | Accept => None
  | ConnectTo _ => None
  | UnrefStream _ => tt
  | CreateChannel _ _ _ _ _ _ => (FL_INTERNAL, None)
  | OpenProducer _ => (FL_INTERNAL, None)
  | CloseChannel _ => tt
  | SetControl _ => tt
  | GetControl => None
  | StealControl => None
  end.

Lemma exAnswer_honest : honest exAnswer.
Proof. constructor; try done. intros t n. eexists. split; [done|]. by rewrite length_replicate. Qed.

Lemma exCaps_wf : wf_caps exCapsProducer /\ wf_caps exCapsConsumer.
Proof.
  split; (split_and!; [cbn; ulia..| |]).
  - exists [exVideo]. split_and!; [done..|]. repeat constructor; cbn; ulia.
  - exists [exAudio 44100; exAudio 48000]. split_and!; [done..|]. repeat constructor; cbn; ulia.
  - exists [exVideo']. split_and!; [done..|]. repeat constructor; cbn; ulia.
  - exists [exAudio 48000]. split_and!; [done..|]. repeat constructor; cbn; ulia.
Qed.

Lemma exChosen_wf : wf_config exChosen.
Proof.
  destruct (exCfg_wf 1) as (_ & ? & ? & ? & ? & ? & ? & ? & ? & ? & ? & ? & ?); [ulia|].
  by split_and!; try done; cbn; ulia.
Qed.

Lemma session_negotiation_agrees_witness :
  takes exChosen ([], newSession 3)
  /\ exists ta' tb',
     ends_in (duo_step (mkEnd 5 exAnswer) (mkEnd 6 exAnswer))
       (consumerSide exHmac (mkEnd 5 exAnswer) (replicate 32 3) exCapsConsumer 0 ([], newSession 3) 1000,
        producerSide exHmac (mkEnd 6 exAnswer) (replicate 32 3) exCapsProducer exProposal 0 ([], newSession 3) 2000)
       (mkSide (Ret true) ta' (taken exCapsConsumer exCapsProducer exChosen ([], newSession 3)) [],
        mkSide (Ret true) tb' (taken exCapsConsumer exCapsProducer exChosen ([], newSession 3)) []).
Proof.
  assert (takes exChosen ([], newSession 3)) as Ht by (split; [reflexivity|discriminate]).
  split; [exact Ht|].
  refine (proj1 (session_negotiation_agrees exHmac _ (mkEnd 5 exAnswer) (mkEnd 6 exAnswer) exAnswer_honest exAnswer_honest
    (replicate 32 3) exCapsConsumer exCapsProducer (exOffer exCapsConsumer) (exOffer exCapsProducer)
    exProposal exChosen exChosenWire (proj2 exCaps_wf) (proj1 exCaps_wf) exChosen_wf _ _ _
    0 ([], newSession 3) 0 ([], newSession 3) 1000 2000 _ _ _ _ Ht Ht)).
  - intros k m. apply length_replicate.
  - vm_compute. reflexivity.
  - vm_compute. reflexivity.
  - vm_compute. reflexivity.
  - reflexivity.
  - reflexivity.
  - lia.
  - lia.
Defined.

(** A producer whose peer sends the right bytes at the right times. *)
Definition exNonce : list Z := replicate 32 8.
Definition exKey : list Z := replicate 32 3.
Definition exScript : list (nat * list Z) :=
  [(1%nat, authMagic); (2%nat, [char_C]); (3%nat, exNonce);
   (7%nat, authProof exHmac (mkEndpoint 0 exKey) char_C char_C exNonce (replicate 32 4));
   (10%nat, avMagic); (11%nat, exNonce); (12%nat, exOffer exCapsConsumer);
   (18%nat, proof exHmac (mkEndpoint 0 exKey) char_C (exOffer exCapsConsumer) (exOffer exCapsProducer) exNonce
              (replicate 32 9) exChosenWire)].

Definition exScripted (t : nat) (X : Type) (e : IO X) : X :=
  match e in IO X return X -> X with
  | Read _ n => fun _ =>
      match List.find (fun m => Nat.eqb m.1 t && Nat.eqb (length m.2) n) exScript with
      | Some m => Some m.2
      | None => None
      end
  | _ => fun x => x
  end (exAnswer t X e).

Lemma session_negotiation_sound_witness :
  (exec (mkEnv exScripted (fun _ => []))
     (fl_gst_session_negotiate_stream exHmac GSession (Some 5) true (Some exKey) (Some exCapsProducer)
        (Some exProposal) 1000) 0 ([], newSession 3)).1.1.1 = true
  /\ exists log l1 l2 s0 s',
     log = l1 ++ l2 /\ agreed exHmac 5 (mkEndpoint 0 exKey) true exCapsProducer s0 s' l2.
Proof.
  assert (forall t c n bs, env_answer (mkEnv exScripted (fun _ => [])) t _ (Read c n) = Some bs -> length bs = n) as Hexact.
  { intros t c n bs. unfold env_answer, exScripted.
    destruct (List.find _ exScript) as [m|] eqn:E; [|intros H; discriminate H].
    intros H. injection H as <-. apply List.find_some in E as [_ E].
    apply andb_true_iff in E as [_ E]. apply Nat.eqb_eq in E. exact E. }
  split; [vm_compute; reflexivity|].
  destruct (exec (mkEnv exScripted (fun _ => []))
     (fl_gst_session_negotiate_stream exHmac GSession (Some 5) true (Some exKey) (Some exCapsProducer)
        (Some exProposal) 1000) 0 ([], newSession 3)) as [[[r log] t'] s'] eqn:E.
  assert (r = true) as -> by (vm_compute in E; congruence).
  pose proof (session_negotiation_sound exHmac (fun _ _ => length_replicate _ _)
    (mkEnv exScripted (fun _ => [])) Hexact 5 true exKey exCapsProducer (Some exProposal) 1000 0 ([], newSession 3)
    true log t' s' E) as (l1 & l2 & s0 & Hlog & _ & _ & _ & Hag).
  exists log, l1, l2, s0, s'. split; [exact Hlog|exact Hag].
Defined.
