(* ===== verification/LocalSession.v ===== *)
(** * Setting up a local session (gst/framelink_session_transport.cpp)

    The two convenience entry points, audio only and audio with video, and the
    ready and drain handshakes, as processes over the control, audio and event
    streams.  A [StreamOwner] is a stream in the list a body returns: the scope's
    end closes and drops those still in it.  The GObject owners of the listener,
    the client and the clock, and the rendezvous record, are left out, as are the
    error texts.  [None] as the answer means the given number of polling rounds was
    used up. *)
From S2P Require Import Prelude Api Session EventChannel SessionContext Process Auth Transport.

(** The bodies' answer: the result, the streams still owned, [*channel]. *)
Record Opened := mkOpened { o_result : option bool; o_owned : list Z; o_channel : option Z }.

(** [exact(c,write,data,n)] *)
Definition exactWrite (c : Z) (bytes : list Z) : Proc bool := ask (Write c bytes).
Definition exactRead (c : Z) (n : nat) : Proc (option (list Z)) := ask (Read c n).

(** [return fail(...)] with streams in scope. *)
Definition giveUp (s : GInstance) (owned : list Z) : Proc Opened :=
  let* _ := (if valid s then call Cancel else Ret Void) in Ret (mkOpened (Some false) owned None).

(** The destructors at the end of the scope. *)
Fixpoint closeOwned (owned : list Z) : Proc unit :=
  match owned with
  | [] => Ret tt
  | c :: r => let* _ := ask (CloseStream c) in let* _ := ask (UnrefStream c) in closeOwned r
  end.

Definition scope (body : Proc Opened) : Proc (option bool * option Z) :=
  let* o := body in let* _ := closeOwned (o_owned o) in Ret (o_result o, o_channel o).

(** [while(!cancelled){if(readEndpoint(...))break;g_usleep(5000);}] and the test
    behind it; [k] goes on with the endpoint. *)
Fixpoint discover (rounds : nat) (s : GInstance) (path : list Z) (k : Endpoint -> Proc Opened) : Proc Opened :=
  match rounds with
  | O => Ret (mkOpened None [] None)
  | S rounds =>
    let* late := ask DeadlineCancelled in
    if (late : bool) then giveUp s [] else
    let* e := ask (ReadEndpoint path) in
    match e with
    | Some e =>
      let* late := ask DeadlineCancelled in
      if (late : bool) then giveUp s [] else k e
    | None => let* _ := ask (Sleep 5000) in discover rounds s path k
    end
  end.

(** The producer's listener, its published endpoint and the accepted control
    stream; or the consumer's discovery and connection. *)
Definition openControl (rounds : nat) (s : GInstance) (producer : bool) (path : list Z)
    (k : Endpoint -> Z -> Proc Opened) : Proc Opened :=
  if producer then
    let* token := ask (Random 32) in
    match token with
    | None => giveUp s []
    | Some token =>
      let* port := ask Listen in
      match port with
      | None => giveUp s []
      | Some port =>
        let e := mkEndpoint port token in
        let* published := ask (Publish path e) in
        if negb (published : bool) then giveUp s [] else
        let* c := ask Accept in
        match c with Some c => k e c | None => giveUp s [] end
      end
    end
  else discover rounds s path (fun e =>
    let* c := ask (ConnectTo (ep_port e)) in
    match c with Some c => k e c | None => giveUp s [] end).

(** [next(out)]: a further stream of the same pair. *)
Definition nextStream (producer : bool) (e : Endpoint) : Proc (option Z) :=
  if producer then ask Accept else ask (ConnectTo (ep_port e)).

(** [secureRandom] into the session and clock identities. *)
Definition withIdentities (s : GInstance) (producer : bool) (owned : list Z) (proposal : flSessionConfig)
    (k : flSessionConfig -> Proc Opened) : Proc Opened :=
  if negb producer then k proposal else
  let* sid := ask (Random 16) in
  match sid with
  | None => giveUp s owned
  | Some sid =>
    let* clock := ask (Random 16) in
    match clock with
    | None => giveUp s owned
    | Some clock =>
      k (mkConfig (c_version proposal) sid clock (c_generation proposal) (c_videoTrackId proposal)
           (c_audioTrackId proposal) (c_video proposal) (c_audio proposal) (c_epochNs proposal)
           (c_videoQueueFrames proposal) (c_audioQueueMs proposal) (c_connectTimeoutMs proposal)
           (c_idleTimeoutMs proposal))
    end
  end.

(** [fl_gst_session_get_config(session,&selected)==READY] *)
Definition selectedConfig (s : GInstance) (owned : list Z) (k : flSessionConfig -> Proc Opened) : Proc Opened :=
  if negb (valid s) then giveUp s owned else
  let* a := call (GetConfig (Some zeroConfig)) in
  match a with
  | Config FL_GST_SESSION_READY (Some cfg) => k cfg
  | _ => giveUp s owned
  end.

Section LocalSession.
Context (hmac : list Z -> list Z -> list Z).

Definition nullOrEmpty (path : option (list Z)) : bool :=
  match path with None | Some [] => true | _ => false end.

(** ** Audio only *)

Definition audioBody (rounds : nat) (s : GInstance) (producer : bool) (path : option (list Z))
    (format : option flAudioFormat) (queueMs timeout idle : Z) : Proc Opened :=
  match s, path, format with
  | GNull, _, _ | _, None, _ | _, _, None => giveUp s []
  | _, Some path, Some format =>
    if nullOrEmpty (Some path) || negb (truthy queueMs) || (2000 <? queueMs)
       || negb (truthy timeout) || (60000 <? timeout) || negb (truthy idle) || (60000 <? idle)
    then giveUp s [] else
    let caps := mkCaps FL_SESSION_OPTIONAL_TRACKS_VERSION 0 1 (replicate 8 zeroVideo)
                  (format :: replicate 7 zeroAudio) in
    match encodeOffer caps with
    | None => giveUp s []
    | Some _ =>
      openControl rounds s producer path (fun e control =>
        let proposal := mkConfig FL_SESSION_OPTIONAL_TRACKS_VERSION zeroId zeroId 1 0 2 zeroVideo format 0
                          0 queueMs timeout idle in
        withIdentities s producer [control] proposal (fun proposal =>
          let* ok := fl_gst_session_negotiate_stream hmac s (Some control) producer (Some (ep_token e)) (Some caps)
                       (if producer then Some proposal else None) timeout in
          if negb (ok : bool) then Ret (mkOpened (Some false) [control] None) else
          selectedConfig s [control] (fun selected =>
            if queueMs <? c_audioQueueMs selected then giveUp s [control] else
            let* audio := nextStream producer e in
            match audio with
            | None => giveUp s [control]
            | Some audio =>
              let* ok := fl_gst_session_authenticate_audio_stream hmac s (Some audio) producer
                           (Some (ep_token e)) timeout in
              if negb (ok : bool) then Ret (mkOpened (Some false) [audio; control] None) else
              let* _ := ask (UnrefStream audio) in
              Ret (mkOpened (Some true) [control] None)
            end)))
    end
  end.

Definition fl_gst_session_open_local_audio (rounds : nat) (s : GInstance) (producer : bool)
    (path : option (list Z)) (format : option flAudioFormat) (queueMs timeout idle : Z) : Proc (option bool) :=
  let* r := scope (audioBody rounds s producer path format queueMs timeout idle) in Ret (fst r).

(** ** The clock exchange *)

(** [labelled(ep,label,a,b)] *)
Definition labelled (e : Endpoint) (label a b : list Z) : list Z := hmac (ep_token e) (label ++ a ++ b).

Definition clockLabel : list Z := [70; 114; 97; 109; 101; 76; 105; 110; 107; 32; 112; 117; 98; 108; 105; 99; 32; 99; 108; 111; 99; 107; 32; 118; 49; 0].
Definition channelLabel : list Z := [70; 114; 97; 109; 101; 76; 105; 110; 107; 32; 112; 117; 98; 108; 105; 99; 32; 118; 105; 100; 101; 111; 32; 99; 104; 97; 110; 110; 101; 108; 32; 118; 49; 0].

Definition GST_MSECOND : Z := 1000000.

(** The consumer's mapping from its two readings and the producer's. *)
Definition clockMapping (sourceClock targetClock : flSessionId) (source t0 t1 : Z) : flClockMapping :=
  mkMapping sourceClock targetClock source (t0 + (t1 - t0) / 2) ((t1 - t0 + 1) / 2).

Definition exchangeClock (producer : bool) (e : Endpoint) (c : Z) (selected : flSessionConfig) : Proc bool :=
  if producer then
    let? nonce := exactRead c 16 in
    let* now := ask GetTime in
    let reply := put_le 8 (wrap64 now) in
    exactWrite c (reply ++ labelled e clockLabel nonce reply)
  else
    let? nonce := ask (Random 16) in
    let* t0 := ask GetTime in
    need exactWrite c nonce then
    let? reply := exactRead c 40 in
    let* t1 := ask GetTime in
    if negb (digestEqual (labelled e clockLabel nonce (take 8 reply)) (drop 8 reply)) then Ret false else
    let source := le_value (take 8 reply) in
    let? target := ask (Random 16) in
    if (t1 <? t0) || (INT64_MAX <? source) || (INT64_MAX <? t1) then Ret false else
    let* a := call (SetMapping (c_generation selected)
                      (Some (clockMapping (c_clockId selected) target source t0 t1)) (50 * GST_MSECOND)) in
    Ret (match a with Result FL_GST_SESSION_READY => true | _ => false end).

(** ** The video channel *)

(** [g_snprintf(...,"%02x",...)] of the first 12 bytes, behind "flav-". *)
Definition hexDigit (v : Z) : Z := if v <? 10 then 48 + v else 87 + v.
Definition channelName (id : list Z) : list Z :=
  [102; 108; 97; 118; 45] ++ concat (map (fun b => [hexDigit (b / 16); hexDigit (b mod 16)]) (take 12 id)).

Definition char_V : Z := 86.

(** [while(!cancelled&&(r=flOpenProducer(name,&ch))==FL_NOT_FOUND)g_usleep(5000);]
    [None]: still polling; the loop leaves with its last [r] and [ch]. *)
Fixpoint attachLoop (rounds : nat) (name : list Z) : Proc (option (flResult * option Z)) :=
  match rounds with
  | O => Ret None
  | S rounds =>
    let* late := ask DeadlineCancelled in
    if (late : bool) then Ret (Some (FL_NOT_FOUND, None)) else
    let* r := ask (OpenProducer name) in
    if bool_decide (fst r = FL_NOT_FOUND)
    then let* _ := ask (Sleep 5000) in attachLoop rounds name
    else Ret (Some r)
  end.

(** [flClose(ch);return fail(...);] *)
Definition closeAndGiveUp (s : GInstance) (owned : list Z) (ch : Z) : Proc Opened :=
  let* _ := ask (CloseChannel ch) in giveUp s owned.

(** The lease of the video channel; [k] goes on with it. *)
Definition openVideo (rounds : nat) (s : GInstance) (producer : bool) (c : Z) (name : list Z)
    (selected : flSessionConfig) (pool flags : Z) (k : Z -> Proc Opened) : Proc Opened :=
  if producer then
    let* marker := exactRead c 1 in
    if negb (bool_decide (marker = Some [char_V])) then giveUp s [c] else
    let* r := attachLoop rounds name in
    match r with
    | None => Ret (mkOpened None [c] None)
    | Some (FL_OK, Some ch) =>
      let* ok := exactWrite c [char_P] in
      if negb (ok : bool) then closeAndGiveUp s [c] ch else k ch
    | Some _ => giveUp s [c]
    end
  else
    let v := c_video selected in
    let* r := ask (CreateChannel name (v_width v) (v_height v) (v_format v)
                     (if truthy pool then pool else 4)
                     (if truthy flags then flags else Z.lor FL_MAP_CPU FL_REQUIRE_FRAME_METADATA)) in
    match r with
    | (FL_OK, Some ch) =>
      let* ok := exactWrite c [char_V] in
      if negb (ok : bool) then closeAndGiveUp s [c] ch else
      let* marker := exactRead c 1 in
      if negb (bool_decide (marker = Some [char_P])) then closeAndGiveUp s [c] ch else k ch
    | _ => giveUp s [c]
    end.

(** ** Audio and video *)

Definition avArgumentsBad (local : flSessionCapabilities) (videoQueue pool queueMs timeout idle : Z) : bool :=
  negb (cap_version local =? FL_SESSION_OPTIONAL_TRACKS_VERSION)
  || (negb (truthy (cap_videoCount local)) && negb (truthy (cap_audioCount local)))
  || (truthy (cap_videoCount local)
      && (negb (truthy videoQueue) || (16 <? videoQueue) || (pool =? 1) || (Z.of_nat FL_MAX_POOL_SIZE <? pool)))
  || (truthy (cap_audioCount local) && (negb (truthy queueMs) || (2000 <? queueMs)))
  || negb (truthy timeout) || (60000 <? timeout) || negb (truthy idle) || (60000 <? idle).

(** The audio stream, when there is an audio track. *)
Definition openAudio (s : GInstance) (producer : bool) (e : Endpoint) (control timeout : Z)
    (selected : flSessionConfig) (k : Proc Opened) : Proc Opened :=
  if negb (truthy (c_audioTrackId selected)) then k else
  let* audio := nextStream producer e in
  match audio with
  | None => giveUp s [control]
  | Some audio =>
    let* ok := fl_gst_session_authenticate_audio_stream hmac s (Some audio) producer (Some (ep_token e)) timeout in
    if negb (ok : bool) then Ret (mkOpened (Some false) [audio; control] None) else
    let* _ := ask (UnrefStream audio) in k
  end.

Definition openEvents (s : GInstance) (producer : bool) (e : Endpoint) (control timeout : Z)
    (k : Proc Opened) : Proc Opened :=
  let* events := nextStream producer e in
  match events with
  | None => giveUp s [control]
  | Some events =>
    let* ok := fl_gst_session_authenticate_event_stream hmac s (Some events) producer (Some (ep_token e)) timeout in
    if negb (ok : bool) then Ret (mkOpened (Some false) [events; control] None) else
    let* _ := ask (UnrefStream events) in k
  end.

(** The control stream stays with the session. *)
Definition retain (control : Z) (channel : option Z) : Proc Opened :=
  let* _ := ask (SetControl control) in Ret (mkOpened (Some true) [] channel).

(** [GST_CLOCK_TIME] as [gint64] *)
Definition to_i64 (v : Z) : Z := let w := wrap64 v in if INT64_MAX <? w then w - 18446744073709551616 else w.

Definition avProposal (local : flSessionCapabilities) (videoQueue queueMs timeout idle epoch : Z) : flSessionConfig :=
  let v := truthy (cap_videoCount local) in
  let a := truthy (cap_audioCount local) in
  mkConfig FL_SESSION_OPTIONAL_TRACKS_VERSION zeroId zeroId 1 (if v then 1 else 0) (if a then 2 else 0)
    zeroVideo zeroAudio epoch (if v then videoQueue else 0) (if a then queueMs else 0) timeout idle.

(** The checks of what was negotiated. *)
Definition selectionBad (local : flSessionCapabilities) (videoQueue queueMs : Z) (selected : flSessionConfig) : bool :=
  negb (Bool.eqb (truthy (c_videoTrackId selected)) (truthy (cap_videoCount local)))
  || negb (Bool.eqb (truthy (c_audioTrackId selected)) (truthy (cap_audioCount local)))
  || (truthy (c_audioTrackId selected) && (queueMs <? c_audioQueueMs selected))
  || (truthy (c_videoTrackId selected) && (videoQueue <? c_videoQueueFrames selected)).

Definition avBody (rounds : nat) (s : GInstance) (producer : bool) (path : option (list Z))
    (local : option flSessionCapabilities) (videoQueue pool queueMs timeout idle flags : Z)
    (channel : bool) (epochFunc : option (Z -> Z)) : Proc Opened :=
  match s, path, local with
  | GNull, _, _ | _, None, _ | _, _, None => giveUp s []
  | _, Some path, Some local =>
    if nullOrEmpty (Some path) || negb channel || avArgumentsBad local videoQueue pool queueMs timeout idle
    then giveUp s [] else
    match encodeOffer local with
    | None => giveUp s []
    | Some _ =>
      openControl rounds s producer path (fun e control =>
        let* now := ask GetTime in
        let epoch := match epochFunc with Some f => f now | None => to_i64 (now + 200 * GST_MSECOND) end in
        if producer && (epoch <? 0) then giveUp s [control] else
        withIdentities s producer [control] (avProposal local videoQueue queueMs timeout idle epoch) (fun proposal =>
          let* ok := fl_gst_session_negotiate_stream hmac s (Some control) producer (Some (ep_token e)) (Some local)
                       (if producer then Some proposal else None) timeout in
          if negb (ok : bool) then Ret (mkOpened (Some false) [control] None) else
          selectedConfig s [control] (fun selected =>
            match flSessionEncode (Some selected) (Some (replicate FL_SESSION_WIRE_SIZE 0)) with
            | (FL_SESSION_OK, Some wire) =>
              if selectionBad local videoQueue queueMs selected then giveUp s [control] else
              let* ok := exchangeClock producer e control selected in
              if negb (ok : bool) then giveUp s [control] else
              openAudio s producer e control timeout selected
                (if negb (truthy (c_videoTrackId selected)) then retain control None else
                 openEvents s producer e control timeout
                   (openVideo rounds s producer control (channelName (labelled e channelLabel wire []))
                      selected pool flags (fun ch => retain control (Some ch))))
            | _ => giveUp s [control]
            end)))
    end
  end.

Definition fl_gst_session_open_local_av_epoch (rounds : nat) (s : GInstance) (producer : bool)
    (path : option (list Z)) (local : option flSessionCapabilities)
    (videoQueue pool queueMs timeout idle flags : Z) (channel : bool) (epochFunc : option (Z -> Z))
  : Proc (option bool * option Z) :=
  scope (avBody rounds s producer path local videoQueue pool queueMs timeout idle flags channel epochFunc).

Definition fl_gst_session_open_local_av (rounds : nat) (s : GInstance) (producer : bool)
    (path : option (list Z)) (local : option flSessionCapabilities)
    (videoQueue pool queueMs timeout idle flags : Z) (channel : bool) : Proc (option bool * option Z) :=
  fl_gst_session_open_local_av_epoch rounds s producer path local videoQueue pool queueMs timeout idle flags
    channel None.
End LocalSession.

(** ** Ready and drain *)

Definition char_R : Z := 82.
Definition char_D : Z := 68.

Definition fl_gst_session_local_ready_cancellable (s : GInstance) (producer : bool) (timeout : Z) : Proc bool :=
  match s with
  | GNull => Ret false
  | _ =>
    if negb (truthy timeout) || (60000 <? timeout) then Ret false else
    let* control := ask GetControl in
    match control with
    | None => Ret false
    | Some c =>
      let* ok := (if producer then let? m := exactRead c 1 in Ret (bool_decide (m = [char_R]))
                  else exactWrite c [char_R]) in
      if negb (ok : bool) then
        let* _ := (if valid s then call Cancel else Ret Void) in Ret false
      else Ret true
    end
  end.

Definition fl_gst_session_local_ready (s : GInstance) (producer : bool) (timeout : Z) : Proc bool :=
  fl_gst_session_local_ready_cancellable s producer timeout.

Definition fl_gst_session_finish_local_cancellable (s : GInstance) (producer : bool) (timeout : Z) : Proc bool :=
  match s with
  | GNull => Ret false
  | _ =>
    if negb (truthy timeout) || (60000 <? timeout) then Ret false else
    let* control := ask StealControl in
    match control with
    | None => Ret false
    | Some c =>
      let* ok := (if producer then let? m := exactRead c 1 in Ret (bool_decide (m = [char_D]))
                  else exactWrite c [char_D]) in
      let* _ := ask (CloseStream c) in
      let* _ := ask (UnrefStream c) in
      Ret ok
    end
  end.

Definition fl_gst_session_finish_local (s : GInstance) (producer : bool) (timeout : Z) : Proc bool :=
  fl_gst_session_finish_local_cancellable s producer timeout.

(** * Properties *)

(** ** What a process leaves behind *)

(** The channels a log leaves open, the latest first. *)
Definition channelEffect (held : list Z) (a : Action) : list Z :=
  match a with
  | ChannelMade ch => ch :: held
  | ChannelClosed ch => List.remove Z.eq_dec ch held
  | _ => held
  end.
Definition openChannels (log : list Action) : list Z := foldl channelEffect [] log.

(** A partial-correctness triple over the environment: from channels [held], the
    process ends with [Q] of its answer and the channels then held. *)
Section Triples.
Context (env : Env).
(** [flCreateChannelEx] and [flOpenProducer] set the out pointer only with FL_OK. *)
Context (made_only_ok : forall t ch,
  (forall n w h f p g r, env_answer env t _ (CreateChannel n w h f p g) = (r, Some ch) -> r = FL_OK)
  /\ (forall n r, env_answer env t _ (OpenProducer n) = (r, Some ch) -> r = FL_OK)).

Definition leaves {A} (held : list Z) (p : Proc A) (Q : A -> list Z -> Prop) : Prop :=
  forall t s a log t' s', exec env p t s = (a, log, t', s') -> Q a (foldl channelEffect held log).

Lemma process_leaves_ret {A} held (a : A) (Q : A -> list Z -> Prop) : Q a held -> leaves held (Ret a) Q.
Proof. intros H t s b log t' s' [= <- <- _ _]. exact H. Qed.

Lemma process_leaves_bind {A B} held (p : Proc A) (f : A -> Proc B) (Q : A -> list Z -> Prop) R :
  leaves held p Q -> (forall a held', Q a held' -> leaves held' (f a) R) -> leaves held (bind p f) R.
Proof.
  intros Hp Hf t s b log t' s'. rewrite exec_bind.
  destruct (exec env p t s) as [[[a l] t1] s1] eqn:E1. destruct (exec env (f a) t1 s1) as [[[b' l'] t2] s2] eqn:E2.
  intros [= <- <- _ _]. rewrite foldl_app. eapply Hf; [|exact E2]. by eapply Hp.
Qed.

Lemma process_leaves_mono {A} held (p : Proc A) (Q R : A -> list Z -> Prop) :
  leaves held p Q -> (forall a h, Q a h -> R a h) -> leaves held p R.
Proof. intros Hp HQ t s a log t' s' E. apply HQ. by eapply Hp. Qed.

(** A request that touches no channel. *)
Definition quietIO {X} (e : IO X) : Prop :=
  match e with CreateChannel _ _ _ _ _ _ | OpenProducer _ | CloseChannel _ => False | _ => True end.

Lemma leaves_ask {X} held (e : IO X) : quietIO e -> leaves held (ask e) (fun _ h => h = held).
Proof.
  intros Hq t s a log t' s'. cbn. intros [= <- <- _ _]. rewrite app_nil_r.
  destruct e; try done; cbn; by destruct (env_answer env t _ _).
Qed.

Lemma leaves_call held c : leaves held (call c) (fun _ h => h = held).
Proof. intros t s a log t' s'. cbn. destruct (perform c _). by intros [= _ <- _ _]. Qed.

(** A process that touches no channel. *)
Inductive quiet {A} : Proc A -> Prop :=
| quiet_ret a : quiet (Ret a)
| quiet_ask X (e : IO X) k : quietIO e -> (forall x, quiet (k x)) -> quiet (Ask e k)
| quiet_do c k : (forall x, quiet (k x)) -> quiet (Do c k).

Lemma leaves_quiet {A} held (p : Proc A) : quiet p -> leaves held p (fun _ h => h = held).
Proof.
  induction 1 as [a|X e k Hq _ IH|c k _ IH].
  - by apply process_leaves_ret.
  - change (leaves held (bind (ask e) k) (fun _ h => h = held)).
    eapply process_leaves_bind; [by apply leaves_ask|]. intros x h ->. apply IH.
  - change (leaves held (bind (call c) k) (fun _ h => h = held)).
    eapply process_leaves_bind; [by apply leaves_call|]. intros x h ->. apply IH.
Qed.

Lemma quiet_bind {A B} (p : Proc A) (f : A -> Proc B) : quiet p -> (forall a, quiet (f a)) -> quiet (bind p f).
Proof. induction 1; cbn; [done|by constructor; eauto|by constructor; eauto]. Qed.
End Triples.

#[export] Hint Constructors quiet : quiet.
#[export] Hint Extern 1 (quietIO _) => exact I : quiet.

(** Decide that straight-line code is quiet. *)
Ltac quiet_tac :=
  repeat first
    [ assumption
    | match goal with
      | |- forall _, _ => intros
      | |- quiet (Ret _) => apply quiet_ret
      | |- quiet (bind _ _) => apply quiet_bind
      | |- quiet (try _ _) => apply quiet_bind
      | |- quiet (check _ _) => apply quiet_bind
      | |- quiet (ask _) => apply quiet_ask; [exact I|]
      | |- quiet (call _) => apply quiet_do
      | |- quiet (match ?x with _ => _ end) => destruct x
      | |- quiet (if ?x then _ else _) => destruct x
      | |- quiet (let '(_, _) := ?x in _) => destruct x
      end ].

Section Quiet.
Context (hmac : list Z -> list Z -> list Z).

Lemma authenticate_quiet producer c e role : quiet (authenticate hmac producer c e role).
Proof.
  unfold authenticate, authenticateServerCancellable, authenticateClientCancellable. quiet_tac.
Qed.

Lemma configureSession_quiet c p q : quiet (configureSession c p q).
Proof. unfold configureSession. quiet_tac. Qed.

Lemma orFail_quiet s st p : quiet p -> quiet (orFail s st p).
Proof. intros H. unfold orFail, failed. quiet_tac. Qed.

Lemma negotiate_quiet s st producer key local proposal timeout :
  quiet (fl_gst_session_negotiate_stream hmac s st producer key local proposal timeout).
Proof.
  apply orFail_quiet. destruct st as [c|], key as [key|], local as [local|]; try apply quiet_ret.
  pose proof (authenticate_quiet producer c (mkEndpoint 0 key) char_C).
  pose proof configureSession_quiet.
  unfold negotiateProducer, negotiateConsumer. quiet_tac; eauto.
Qed.

Lemma currentConfig_quiet s k : (forall c w, quiet (k c w)) -> quiet (currentConfig s k).
Proof. intros H. unfold currentConfig. quiet_tac; eauto. Qed.

Lemma bind_quiet track label role publish s st producer key timeout :
  quiet (bindStream hmac track label role publish s st producer key timeout).
Proof.
  apply orFail_quiet. destruct st as [c|], key as [key|]; try apply quiet_ret.
  destruct (badArguments s key timeout); [apply quiet_ret|].
  apply currentConfig_quiet. intros cfg wire.
  pose proof (authenticate_quiet producer c (mkEndpoint 0 (hmac key (label ++ wire))) role).
  cbv zeta. quiet_tac. apply currentConfig_quiet. quiet_tac.
Qed.

Lemma audio_quiet s st producer key timeout :
  quiet (fl_gst_session_authenticate_audio_stream hmac s st producer key timeout).
Proof. unfold fl_gst_session_authenticate_audio_stream. apply bind_quiet. Qed.

Lemma events_quiet s st producer key timeout :
  quiet (fl_gst_session_authenticate_event_stream hmac s st producer key timeout).
Proof. unfold fl_gst_session_authenticate_event_stream. apply bind_quiet. Qed.

Lemma giveUp_quiet s owned : quiet (giveUp s owned).
Proof. unfold giveUp. quiet_tac. Qed.

Lemma exchangeClock_quiet producer e c selected : quiet (exchangeClock hmac producer e c selected).
Proof. unfold exchangeClock, exactRead, exactWrite. quiet_tac. Qed.

Lemma closeOwned_quiet owned : quiet (closeOwned owned).
Proof. induction owned; cbn [closeOwned]; [apply quiet_ret|]. quiet_tac. Qed.
End Quiet.

(** ** Nothing half open *)

(** The bodies' contract: exactly the channel handed out stays open. *)
Definition balanced (o : Opened) (held : list Z) : Prop :=
  held = match o_channel o with Some ch => [ch] | None => [] end
  /\ (o_result o <> Some true -> o_channel o = None)
  /\ (o_result o = Some true -> o_owned o = [] \/ o_channel o = None).

Section Balance.
Context (hmac : list Z -> list Z -> list Z) (env : Env).
Context (made_only_ok : forall t ch,
  (forall n w h f p g r, env_answer env t _ (CreateChannel n w h f p g) = (r, Some ch) -> r = FL_OK)
  /\ (forall n r, env_answer env t _ (OpenProducer n) = (r, Some ch) -> r = FL_OK)).
Notation leaves := (leaves env).

(** A quiet first part. *)
Lemma after_quiet {A B} held (p : Proc A) (f : A -> Proc B) R :
  quiet p -> (forall a, leaves held (f a) R) -> leaves held (bind p f) R.
Proof. intros Hp Hf. eapply process_leaves_bind; [by apply leaves_quiet|]. intros a h ->. apply Hf. Qed.

Lemma after_ask {X B} held (e : IO X) (f : X -> Proc B) R :
  quietIO e -> (forall a, leaves held (f a) R) -> leaves held (bind (ask e) f) R.
Proof. intros He Hf. apply after_quiet; [|done]. by apply quiet_ask; [|intros; apply quiet_ret]. Qed.

Lemma giveUp_balanced s owned : leaves [] (giveUp s owned) balanced.
Proof.
  unfold giveUp. apply after_quiet; [quiet_tac|]. intros _. apply process_leaves_ret. split_and!; [done..|]. intros H; discriminate H.
Qed.

Lemma closeAndGiveUp_balanced s owned ch : leaves [ch] (closeAndGiveUp s owned ch) balanced.
Proof.
  unfold closeAndGiveUp. eapply process_leaves_bind with (Q := fun _ h => h = []).
  - intros t x a log t' s'. cbn. intros [= _ <- _ _]. cbn. by destruct (Z.eq_dec ch ch).
  - intros a h ->. apply giveUp_balanced.
Qed.

Lemma retain_balanced control channel :
  leaves (match channel with Some ch => [ch] | None => [] end) (retain control channel) balanced.
Proof.
  unfold retain. apply after_ask; [exact I|]. intros _. apply process_leaves_ret. split; [done|]. split; [done|]. by left.
Qed.

(** A call that makes a channel, and what it leaves. *)
Definition made (r : flResult * option Z) (held : list Z) : Prop :=
  held = match snd r with Some ch => [ch] | None => [] end /\ (is_Some (snd r) -> fst r = FL_OK).

Lemma made_answer (x : flResult * option Z) :
  (forall ch, snd x = Some ch -> fst x = FL_OK) ->
  made x (foldl channelEffect [] (match snd x with Some ch => [ChannelMade ch] | None => [] end ++ [])).
Proof.
  intros H. destruct x as [r [ch|]]; cbn in *; split; try done; [intros _; by eapply H|by intros [? ?]].
Qed.

Lemma made_open name : leaves [] (ask (OpenProducer name)) made.
Proof.
  intros t x a log t' s'. cbn [exec ask]. intros [= <- <- _ _]. apply made_answer. intros ch Hch.
  destruct (made_only_ok t ch) as [_ H]. eapply H. rewrite <- Hch. apply surjective_pairing.
Qed.

Lemma made_create n w h f p g : leaves [] (ask (CreateChannel n w h f p g)) made.
Proof.
  intros t x a log t' s'. cbn [exec ask]. intros [= <- <- _ _]. apply made_answer. intros ch Hch.
  destruct (made_only_ok t ch) as [H _]. eapply H. rewrite <- Hch. apply surjective_pairing.
Qed.

Lemma attachLoop_leaves rounds name :
  leaves [] (attachLoop rounds name) (fun r h =>
    h = match r with Some (FL_OK, Some ch) => [ch] | _ => [] end).
Proof.
  induction rounds as [|n IH]; cbn [attachLoop]; [by apply process_leaves_ret|].
  apply after_ask; [exact I|]. intros late. destruct late; [by apply process_leaves_ret|].
  eapply process_leaves_bind; [apply made_open|]. intros [r ch] h [-> Hok]. cbn [fst snd] in *. case_bool_decide as Hr.
  - destruct ch as [ch|]; [exfalso; specialize (Hok ltac:(eauto)); congruence|].
    apply after_ask; [exact I|]. intros _. exact IH.
  - apply process_leaves_ret. destruct ch as [ch|]; [|by destruct r]. by rewrite (Hok ltac:(eauto)).
Qed.

Lemma openVideo_balanced rounds s producer c name selected pool flags k :
  (forall ch, leaves [ch] (k ch) balanced) ->
  leaves [] (openVideo rounds s producer c name selected pool flags k) balanced.
Proof.
  intros Hk. unfold openVideo, exactRead, exactWrite. destruct producer.
  - apply after_ask; [exact I|]. intros marker. destruct (negb _); [apply giveUp_balanced|].
    eapply process_leaves_bind; [apply attachLoop_leaves|]. intros [[[] [ch|]]|] h ->; try apply giveUp_balanced.
    + apply after_ask; [exact I|]. intros ok. destruct ok; cbn [negb]; [apply Hk|apply closeAndGiveUp_balanced].
    + by apply process_leaves_ret.
  - eapply process_leaves_bind; [apply made_create|].
    intros [r ch] h [-> Hok]. cbn [fst snd] in *. destruct ch as [ch|].
    + rewrite (Hok ltac:(eauto)). apply after_ask; [exact I|]. intros ok.
        destruct ok; cbn [negb]; [|apply closeAndGiveUp_balanced].
        apply after_ask; [exact I|]. intros marker. destruct (negb _); [apply closeAndGiveUp_balanced|apply Hk].
    + destruct r; apply giveUp_balanced.
Qed.

(** The parts in front of the channel. *)
Lemma discover_balanced rounds s path k :
  (forall e, leaves [] (k e) balanced) -> leaves [] (discover rounds s path k) balanced.
Proof.
  intros Hk. induction rounds as [|n IH]; cbn [discover]; [by apply process_leaves_ret|].
  apply after_ask; [exact I|]. intros late. destruct late; [apply giveUp_balanced|].
  apply after_ask; [exact I|]. intros [e|].
  - apply after_ask; [exact I|]. intros late. destruct late; [apply giveUp_balanced|apply Hk].
  - apply after_ask; [exact I|]. intros _. exact IH.
Qed.

Lemma openControl_balanced rounds s producer path k :
  (forall e c, leaves [] (k e c) balanced) -> leaves [] (openControl rounds s producer path k) balanced.
Proof.
  intros Hk. unfold openControl. destruct producer.
  - apply after_ask; [exact I|]. intros [token|]; [|apply giveUp_balanced].
    apply after_ask; [exact I|]. intros [port|]; [|apply giveUp_balanced].
    apply after_ask; [exact I|]. intros ok. destruct ok; cbn [negb]; [|apply giveUp_balanced].
    apply after_ask; [exact I|]. intros [c|]; [apply Hk|apply giveUp_balanced].
  - apply discover_balanced. intros e. apply after_ask; [exact I|]. intros [c|]; [apply Hk|apply giveUp_balanced].
Qed.

Lemma withIdentities_balanced s producer owned proposal k :
  (forall c, leaves [] (k c) balanced) -> leaves [] (withIdentities s producer owned proposal k) balanced.
Proof.
  intros Hk. unfold withIdentities. destruct producer; cbn [negb]; [|apply Hk].
  apply after_ask; [exact I|]. intros [sid|]; [|apply giveUp_balanced].
  apply after_ask; [exact I|]. intros [clock|]; [apply Hk|apply giveUp_balanced].
Qed.

Lemma selectedConfig_balanced s owned k :
  (forall c, leaves [] (k c) balanced) -> leaves [] (selectedConfig s owned k) balanced.
Proof.
  intros Hk. unfold selectedConfig. destruct (negb (valid s)); [apply giveUp_balanced|].
  apply after_quiet; [quiet_tac|]. intros [| | | |[] [cfg|]]; try apply giveUp_balanced. apply Hk.
Qed.

Lemma nextStream_quiet producer e : quiet (nextStream producer e).
Proof. unfold nextStream. quiet_tac. Qed.

(** A stream that failed to authenticate ends the body. *)
Lemma stop_balanced owned : leaves [] (Ret (mkOpened (Some false) owned None)) balanced.
Proof. apply process_leaves_ret. split_and!; [done..|]. intros H; discriminate H. Qed.

Lemma openAudio_balanced s producer e control timeout selected k :
  leaves [] k balanced -> leaves [] (openAudio hmac s producer e control timeout selected k) balanced.
Proof.
  intros Hk. unfold openAudio. destruct (negb _); [exact Hk|].
  apply after_quiet; [apply nextStream_quiet|]. intros [c|]; [|apply giveUp_balanced].
  apply after_quiet; [apply audio_quiet|]. intros ok. destruct ok; cbn [negb]; [|apply stop_balanced].
  apply after_ask; [exact I|]. intros _. exact Hk.
Qed.

Lemma openEvents_balanced s producer e control timeout k :
  leaves [] k balanced -> leaves [] (openEvents hmac s producer e control timeout k) balanced.
Proof.
  intros Hk. unfold openEvents.
  apply after_quiet; [apply nextStream_quiet|]. intros [c|]; [|apply giveUp_balanced].
  apply after_quiet; [apply events_quiet|]. intros ok. destruct ok; cbn [negb]; [|apply stop_balanced].
  apply after_ask; [exact I|]. intros _. exact Hk.
Qed.

Lemma avBody_balanced rounds s producer path local videoQueue pool queueMs timeout idle flags channel f :
  leaves [] (avBody hmac rounds s producer path local videoQueue pool queueMs timeout idle flags channel f) balanced.
Proof.
  unfold avBody. destruct s; [apply giveUp_balanced|..];
    (destruct path as [path|]; [|apply giveUp_balanced]; destruct local as [local|]; [|apply giveUp_balanced];
     destruct (_ || _); [apply giveUp_balanced|]; destruct (encodeOffer local); [|apply giveUp_balanced];
     apply openControl_balanced; intros e c; apply after_ask; [exact I|]; intros now; cbv zeta;
     destruct (producer && _); [apply giveUp_balanced|]; apply withIdentities_balanced; intros proposal;
     apply after_quiet; [apply negotiate_quiet|]; intros ok; destruct ok; cbn [negb]; [|apply stop_balanced];
     apply selectedConfig_balanced; intros selected;
     destruct (flSessionEncode _ _) as [[] [wire|]]; try apply giveUp_balanced;
     destruct (selectionBad _ _ _ _); [apply giveUp_balanced|];
     apply after_quiet; [apply exchangeClock_quiet|]; intros ok; destruct ok; cbn [negb]; [|apply giveUp_balanced];
     apply openAudio_balanced; destruct (negb _); [apply (retain_balanced c None)|];
     apply openEvents_balanced, openVideo_balanced; intros ch; apply (retain_balanced c (Some ch))).
Qed.
End Balance.

(** ** A failure cancels the session *)

Section Cancelling.
Context (hmac : list Z -> list Z -> list Z) (env : Env).

(** [Cancel] was called since. *)
Definition cancelledSince (s s' : State) : Prop := exists h, s'.1 = h ++ s.1 /\ (Cancel, Void) ∈ h.

Lemma cancelled_grows s1 s2 s3 s4 :
  grows s1 s2 -> cancelledSince s2 s3 -> grows s3 s4 -> cancelledSince s1 s4.
Proof.
  intros [h1 E1] (h2 & E2 & Hin) [h3 E3]. exists (h3 ++ h2 ++ h1). rewrite E3, E2, E1, <- !app_assoc.
  split; [done|]. apply elem_of_app. right. apply elem_of_app. by left.
Qed.

(** Whenever the answer is bad, the session was cancelled on the way. *)
Definition cancels {A} (bad : A -> bool) (p : Proc A) : Prop :=
  forall t s a log t' s', exec env p t s = (a, log, t', s') -> bad a = true -> cancelledSince s s'.

Lemma cancels_ret {A} (bad : A -> bool) a : bad a = false -> cancels bad (Ret a).
Proof. intros H t s b log t' s' [= <- _ _ _]. congruence. Qed.

Lemma cancels_bind {A B} (bad : B -> bool) (p : Proc A) (f : A -> Proc B) :
  (forall a, cancels bad (f a)) -> cancels bad (bind p f).
Proof.
  intros Hf t s b log t' s'. rewrite exec_bind.
  destruct (exec env p t s) as [[[a l] t1] s1] eqn:E1. destruct (exec env (f a) t1 s1) as [[[b' l'] t2] s2] eqn:E2.
  intros [= <- _ _ <-] Hb. eapply cancelled_grows; [by eapply exec_grows|by eapply Hf|done].
Qed.

(** A part that cancels when it answers FALSE, which the whole then only reports. *)
Lemma cancels_guard {B} (bad : B -> bool) (p : Proc bool) b (q : Proc B) :
  cancels negb p -> cancels bad q -> cancels bad (bind p (fun ok => if negb ok then Ret b else q)).
Proof.
  intros Hp Hq t s x log t' s'. rewrite exec_bind.
  destruct (exec env p t s) as [[[ok l] t1] s1] eqn:E1. destruct ok; cbn [negb].
  - destruct (exec env q t1 s1) as [[[b' l'] t2] s2] eqn:E2. intros [= <- _ _ <-] Hb.
    eapply cancelled_grows; [by eapply exec_grows|by eapply Hq|done].
  - cbn. intros [= _ _ _ <-] _. by eapply Hp.
Qed.

Lemma cancels_cancel {A} (bad : A -> bool) (p : Proc A) : cancels bad (let* _ := call Cancel in p).
Proof.
  intros t s a log t' s' H _. unfold call in H. cbn [bind exec] in H.
  destruct (perform Cancel _) as [x w] eqn:E. cbn in E. injection E as <- <-.
  apply exec_grows in H. eapply cancelled_grows; [apply (run_grows (env_others env t))| |exact H].
  eexists [_]. split; [reflexivity|]. by left.
Qed.

Lemma cancels_giveUp bad owned : cancels bad (giveUp GSession owned).
Proof. apply cancels_cancel. Qed.

Lemma cancels_orFail c p : cancels negb (orFail GSession (Some c) p).
Proof.
  intros t s a log t' s' E Ha. apply orFail_result in E. destruct a; [done|].
  destruct E as (h & E & Hin & _). by exists h.
Qed.

Definition badAnswer (o : Opened) : bool := bool_decide (o_result o = Some false).

Lemma discover_cancels rounds path k :
  (forall e, cancels badAnswer (k e)) -> cancels badAnswer (discover rounds GSession path k).
Proof.
  intros Hk. induction rounds as [|n IH]; cbn [discover]; [by apply cancels_ret|].
  apply cancels_bind. intros late. destruct late; [apply cancels_giveUp|].
  apply cancels_bind. intros [e|]; apply cancels_bind; intros x; [|exact IH].
  destruct x; [apply cancels_giveUp|apply Hk].
Qed.

Lemma openControl_cancels rounds producer path k :
  (forall e c, cancels badAnswer (k e c)) -> cancels badAnswer (openControl rounds GSession producer path k).
Proof.
  intros Hk. unfold openControl. destruct producer.
  - apply cancels_bind. intros [token|]; [|apply cancels_giveUp].
    apply cancels_bind. intros [port|]; [|apply cancels_giveUp].
    apply cancels_bind. intros ok. destruct ok; cbn [negb]; [|apply cancels_giveUp].
    apply cancels_bind. intros [c|]; [apply Hk|apply cancels_giveUp].
  - apply discover_cancels. intros e. apply cancels_bind. intros [c|]; [apply Hk|apply cancels_giveUp].
Qed.

Lemma withIdentities_cancels producer owned proposal k :
  (forall c, cancels badAnswer (k c)) -> cancels badAnswer (withIdentities GSession producer owned proposal k).
Proof.
  intros Hk. unfold withIdentities. destruct producer; cbn [negb]; [|apply Hk].
  apply cancels_bind. intros [sid|]; [|apply cancels_giveUp].
  apply cancels_bind. intros [clock|]; [apply Hk|apply cancels_giveUp].
Qed.

Lemma selectedConfig_cancels owned k :
  (forall c, cancels badAnswer (k c)) -> cancels badAnswer (selectedConfig GSession owned k).
Proof.
  intros Hk. unfold selectedConfig. cbn [valid negb]. apply cancels_bind.
  intros [| | | |[] [cfg|]]; try apply cancels_giveUp. apply Hk.
Qed.

Lemma audio_cancels c producer key timeout :
  cancels negb (fl_gst_session_authenticate_audio_stream hmac GSession (Some c) producer key timeout).
Proof. apply cancels_orFail. Qed.

Lemma events_cancels c producer key timeout :
  cancels negb (fl_gst_session_authenticate_event_stream hmac GSession (Some c) producer key timeout).
Proof. apply cancels_orFail. Qed.

Lemma negotiate_cancels c producer key local proposal timeout :
  cancels negb (fl_gst_session_negotiate_stream hmac GSession (Some c) producer key local proposal timeout).
Proof. apply cancels_orFail. Qed.

Lemma openAudio_cancels producer e control timeout selected k :
  cancels badAnswer k -> cancels badAnswer (openAudio hmac GSession producer e control timeout selected k).
Proof.
  intros Hk. unfold openAudio. destruct (negb _); [exact Hk|].
  apply cancels_bind. intros [c|]; [|apply cancels_giveUp].
  apply cancels_guard; [apply audio_cancels|]. apply cancels_bind. intros _. exact Hk.
Qed.

Lemma openEvents_cancels producer e control timeout k :
  cancels badAnswer k -> cancels badAnswer (openEvents hmac GSession producer e control timeout k).
Proof.
  intros Hk. unfold openEvents. apply cancels_bind. intros [c|]; [|apply cancels_giveUp].
  apply cancels_guard; [apply events_cancels|]. apply cancels_bind. intros _. exact Hk.
Qed.

Lemma closeAndGiveUp_cancels owned ch : cancels badAnswer (closeAndGiveUp GSession owned ch).
Proof. apply cancels_bind. intros _. apply cancels_giveUp. Qed.

Lemma openVideo_cancels rounds producer c name selected pool flags k :
  (forall ch, cancels badAnswer (k ch)) ->
  cancels badAnswer (openVideo rounds GSession producer c name selected pool flags k).
Proof.
  intros Hk. unfold openVideo. destruct producer; apply cancels_bind.
  - intros marker. destruct (negb _); [apply cancels_giveUp|].
    apply cancels_bind. intros [[[] [ch|]]|]; try apply cancels_giveUp; [|by apply cancels_ret].
    apply cancels_bind. intros ok. destruct ok; cbn [negb]; [apply Hk|apply closeAndGiveUp_cancels].
  - intros [[] [ch|]]; try apply cancels_giveUp.
    apply cancels_bind. intros ok. destruct ok; cbn [negb]; [|apply closeAndGiveUp_cancels].
    apply cancels_bind. intros marker. destruct (negb _); [apply closeAndGiveUp_cancels|apply Hk].
Qed.

Lemma retain_cancels control channel : cancels badAnswer (retain control channel).
Proof. apply cancels_bind. intros _. by apply cancels_ret. Qed.

Lemma avBody_cancels rounds producer path local videoQueue pool queueMs timeout idle flags channel f :
  cancels badAnswer
    (avBody hmac rounds GSession producer path local videoQueue pool queueMs timeout idle flags channel f).
Proof.
  unfold avBody. destruct path as [path|]; [|apply cancels_giveUp].
  destruct local as [local|]; [|apply cancels_giveUp]. destruct (_ || _); [apply cancels_giveUp|].
  destruct (encodeOffer local); [|apply cancels_giveUp].
  apply openControl_cancels. intros e c. apply cancels_bind. intros now. cbv zeta.
  destruct (producer && _); [apply cancels_giveUp|]. apply withIdentities_cancels. intros proposal.
  apply cancels_guard; [apply negotiate_cancels|]. apply selectedConfig_cancels. intros selected.
  destruct (flSessionEncode _ _) as [[] [wire|]]; try apply cancels_giveUp.
  destruct (selectionBad _ _ _ _); [apply cancels_giveUp|]. apply cancels_bind. intros ok.
  destruct ok; cbn [negb]; [|apply cancels_giveUp]. apply openAudio_cancels.
  destruct (negb _); [apply retain_cancels|]. apply openEvents_cancels, openVideo_cancels. intros ch.
  apply retain_cancels.
Qed.
End Cancelling.

(** C16: opening a local session is all or nothing.  Whatever the peer, the sockets,
    the deadline and other threads do: of all video channels the call created or
    attached to, exactly the one it hands out is still open when it returns; it
    hands one out only when it returns TRUE; and when it returns FALSE the session
    was cancelled. *)
Theorem local_av_all_or_nothing hmac env rounds producer path local videoQueue pool queueMs timeout idle
    flags channel epochFunc t s r ch log t' s' :
  (forall t ch,
    (forall n w h f p g r, env_answer env t _ (CreateChannel n w h f p g) = (r, Some ch) -> r = FL_OK)
    /\ (forall n r, env_answer env t _ (OpenProducer n) = (r, Some ch) -> r = FL_OK)) ->
  exec env (fl_gst_session_open_local_av_epoch hmac rounds GSession producer path local videoQueue pool queueMs
              timeout idle flags channel epochFunc) t s = ((r, ch), log, t', s') ->
  openChannels log = match ch with Some c => [c] | None => [] end
  /\ (is_Some ch -> r = Some true)
  /\ (r = Some false -> exists h, s'.1 = h ++ s.1 /\ (Cancel, Void) ∈ h).
Proof.
  intros Hmade. unfold fl_gst_session_open_local_av_epoch, scope. rewrite exec_bind.
  destruct (exec env (avBody _ _ _ _ _ _ _ _ _ _ _ _ _ _) t s) as [[[o l1] t1] s1] eqn:E1.
  rewrite exec_bind. destruct (exec env (closeOwned (o_owned o)) t1 s1) as [[[u l2] t2] s2] eqn:E2.
  cbn [exec]. intros [= <- <- <- _ <-].
  pose proof (avBody_balanced hmac env Hmade _ _ _ _ _ _ _ _ _ _ _ _ _ _ _ _ _ _ _ E1) as (Hheld & Hnone & _).
  split; [|split].
  - unfold openChannels. rewrite app_nil_r, foldl_app, Hheld.
    exact (leaves_quiet env _ _ (closeOwned_quiet _) _ _ _ _ _ _ E2).
  - intros [c Hc]. destruct (decide (o_result o = Some true)) as [|Hn]; [done|]. rewrite (Hnone Hn) in Hc. done.
  - intros Hr. pose proof (avBody_cancels hmac env _ _ _ _ _ _ _ _ _ _ _ _ _ _ _ _ _ _ E1) as Hc.
    destruct (cancelled_grows s s s1 s2) as (h & Eh & Hin); [done| |by eapply exec_grows|by exists h].
    apply Hc. unfold badAnswer. by rewrite bool_decide_eq_true_2.
Qed.

(** *** A producer that attaches *)

Definition exLocal : flSessionCapabilities :=
  mkCaps 2 1 0 (exVideo :: replicate 7 zeroVideo) (replicate 8 zeroAudio).
Definition exToken : list Z := replicate 32 1.
Definition exLocalProposal : flSessionConfig :=
  let p := avProposal exLocal 4 0 5000 2000 (200 * GST_MSECOND) in
  mkConfig (c_version p) (replicate 16 6) (replicate 16 7) (c_generation p) (c_videoTrackId p) (c_audioTrackId p)
    (c_video p) (c_audio p) (c_epochNs p) (c_videoQueueFrames p) (c_audioQueueMs p) (c_connectTimeoutMs p)
    (c_idleTimeoutMs p).
Definition exLocalWire : list Z :=
  match choose exLocalProposal exLocal exLocal with Some (_, wire) => wire | None => [] end.
Definition exEventKey : list Z := exHmac exToken (eventLabel ++ exLocalWire).

(** What the consumer sends, by the producer's clock. *)
Definition exArrivals : list (nat * list Z) :=
  [(8%nat, authMagic); (9%nat, [char_C]); (10%nat, exNonce);
   (14%nat, authProof exHmac (mkEndpoint 0 exToken) char_C char_C exNonce (replicate 32 12));
   (17%nat, avMagic); (18%nat, exNonce); (19%nat, offerBytes exLocal);
   (25%nat, proof exHmac (mkEndpoint 0 exToken) char_C (offerBytes exLocal) (offerBytes exLocal) exNonce
              (replicate 32 17) exLocalWire);
   (29%nat, replicate 16 9);
   (35%nat, authMagic); (36%nat, [char_E]); (37%nat, exNonce);
   (41%nat, authProof exHmac (mkEndpoint 0 exEventKey) char_C char_E exNonce (replicate 32 39));
   (47%nat, [char_V])].

Definition exProducerAnswer (t : nat) (X : Type) (e : IO X) : X :=
  match e in IO X return X -> X with
  | Read _ n => fun _ =>
      match List.find (fun m => Nat.eqb m.1 t && Nat.eqb (length m.2) n) exArrivals with
      | Some m => Some m.2
      | None => None
      end
  | Random n => fun _ => Some (replicate n (Z.of_nat t + 1))
  | Listen => fun _ => Some 4000
  | Publish _ _ => fun _ => true
  | Accept => fun _ => Some (Z.of_nat t)
  | OpenProducer _ => fun _ => (FL_OK, Some 77)
  | _ => fun x => x
  end (exAnswer t X e).

Definition exProducerEnv : Env := mkEnv exProducerAnswer (fun _ => []).

Definition exOpen : Proc (option bool * option Z) :=
  fl_gst_session_open_local_av_epoch exHmac 10 GSession true (Some [47]) (Some exLocal) 4 0 0 5000 2000 0 true None.

Lemma local_av_all_or_nothing_witness :
  exists log t' s',
    exec exProducerEnv exOpen 0 ([], newSession 1) = ((Some true, Some 77), log, t', s')
    /\ openChannels log = [77].
Proof.
  destruct (exec exProducerEnv exOpen 0 ([], newSession 1)) as [[[[r ch] log] t'] s'] eqn:E.
  assert (r = Some true /\ ch = Some 77) as [-> ->] by (vm_compute in E; split; congruence).
  exists log, t', s'. split; [reflexivity|].
  refine (proj1 (local_av_all_or_nothing exHmac exProducerEnv 10 true (Some [47]) (Some exLocal) 4 0 0 5000 2000 0 true None
    0 ([], newSession 1) (Some true) (Some 77) log t' s' _ E)).
  intros t ch. split; [intros n w h f p g r' H; discriminate H|intros n r' H]. injection H as <- _. reflexivity.
Defined.
