(* ===== verification/Bytes.v ===== *)
(** * Memory, byte by byte

    The pixel loops of the program read and write through pointers.  A memory is a
    finite map from addresses to bytes; [memcpy] reads its source before it writes,
    since its arguments may not overlap. *)
From stdpp Require Import gmap.
From S2P Require Import Prelude.

(** One byte per address; what was never written reads as zero. *)
Notation Mem := (gmap Z Z) (only parsing).
Definition load (m : Mem) (a : Z) : Z := default 0 (m !! a).
Definition store (a v : Z) (m : Mem) : Mem := <[a := v]> m.

Fixpoint peek (m : Mem) (a : Z) (n : nat) : list Z :=
  match n with O => [] | S n => load m a :: peek m (a + 1) n end.
Fixpoint poke (a : Z) (l : list Z) (m : Mem) : Mem :=
  match l with [] => m | v :: l => poke (a + 1) l (store a v m) end.

Definition memcpy (d s n : Z) (m : Mem) : Mem := poke d (peek m s (Z.to_nat n)) m.

(** [for(i=0;i<n;++i)] over the memory, and [for(y<h)for(x<w)]. *)
Definition forRange (n : Z) (body : Z -> Mem -> Mem) (m : Mem) : Mem :=
  foldl (fun m i => body (Z.of_nat i) m) m (seq 0 (Z.to_nat n)).
Definition memset (d n : Z) (m : Mem) : Mem := forRange n (fun i => store (d + i) 0) m.
Definition grid (w h : Z) : list (Z * Z) :=
  concat (map (fun y => map (fun x => (Z.of_nat y, Z.of_nat x)) (seq 0 (Z.to_nat w))) (seq 0 (Z.to_nat h))).

(** [n] bytes from [a] on. *)
Definition within (a n b : Z) : Prop := a <= b < a + n.
Definition apart (a n b k : Z) : Prop := a + n <= b \/ b + k <= a.

(** * Properties *)

Lemma length_peek m a n : length (peek m a n) = n.
Proof. revert a. induction n as [|n IH]; intros a; simpl; [done|]. by rewrite IH. Qed.

Lemma nth_peek m a n i : (i < n)%nat -> nth i (peek m a n) 0 = load m (a + Z.of_nat i).
Proof.
  revert a i. induction n as [|n IH]; intros a [|i] Hi; simpl; [lia|lia|by rewrite Z.add_0_r|].
  rewrite IH by lia. f_equal. lia.
Qed.

Lemma load_store a v m b : load (store a v m) b = if b =? a then v else load m b.
Proof.
  unfold load, store. destruct (Z.eqb_spec b a) as [->|Hb]; [by rewrite lookup_insert_eq|].
  by rewrite lookup_insert_ne.
Qed.

Lemma load_poke a l m b :
  load (poke a l m) b
  = if (a <=? b) && (b <? a + Z.of_nat (length l)) then nth (Z.to_nat (b - a)) l 0 else load m b.
Proof.
  revert a m. induction l as [|v l IH]; intros a m; cbn [poke length].
  - destruct (_ && _) eqn:E; [lia|done].
  - rewrite IH, load_store. destruct (Z.eqb_spec b a) as [->|Hb].
    + rewrite Z.sub_diag. destruct (_ && _) eqn:E1; destruct ((a <=? a) && _) eqn:E2; try lia. done.
    + destruct ((a + 1 <=? b) && _) eqn:E1; destruct ((a <=? b) && _) eqn:E2; try lia.
      replace (Z.to_nat (b - a)) with (S (Z.to_nat (b - (a + 1)))) by lia. done.
Qed.

(** What [memcpy] leaves at an address. *)
Lemma load_memcpy d s n m b :
  load (memcpy d s n m) b = if (d <=? b) && (b <? d + n) then load m (s + (b - d)) else load m b.
Proof.
  unfold memcpy. rewrite load_poke, length_peek.
  destruct (_ && (_ <? d + Z.of_nat _)) eqn:E1; destruct (_ && (_ <? d + n)) eqn:E2; try lia.
  rewrite nth_peek by lia. f_equal. lia.
Qed.

Lemma poke_app a l1 l2 m : poke a (l1 ++ l2) m = poke (a + Z.of_nat (length l1)) l2 (poke a l1 m).
Proof.
  revert a m. induction l1 as [|v l1 IH]; intros a m; cbn [app poke length]; [by rewrite Z.add_0_r|].
  rewrite IH. f_equal. lia.
Qed.

Lemma peek_app m a n k : peek m a (n + k) = peek m a n ++ peek m (a + Z.of_nat n) k.
Proof.
  revert a. induction n as [|n IH]; intros a; cbn [Nat.add peek app]; [by rewrite Z.add_0_r|].
  rewrite IH. do 3 f_equal. lia.
Qed.

Lemma peek_poke m d l s n : apart d (Z.of_nat (length l)) s (Z.of_nat n) -> peek (poke d l m) s n = peek m s n.
Proof.
  unfold apart. revert s. induction n as [|n IH]; intros s Ha; cbn [peek]; [done|]. rewrite IH by lia. f_equal.
  rewrite load_poke. destruct (_ && _) eqn:E; [lia|done].
Qed.

(** A copy in two parts. *)
Lemma memcpy_app d s n k m : 0 <= n -> 0 <= k -> apart d (n + k) s (n + k) ->
  memcpy (d + n) (s + n) k (memcpy d s n m) = memcpy d s (n + k) m.
Proof.
  unfold apart. intros Hn Hk Ha. unfold memcpy at 1 3. rewrite Z2Nat.inj_add, peek_app, poke_app, length_peek by lia.
  rewrite Z2Nat.id by lia. unfold memcpy. rewrite peek_poke; [done|]. unfold apart. rewrite length_peek. lia.
Qed.

Lemma forRange_succ n body m : 0 <= n -> forRange (n + 1) body m = body n (forRange n body m).
Proof.
  intros Hn. unfold forRange. rewrite Z2Nat.inj_add by lia. rewrite Nat.add_1_r, seq_S, foldl_app. cbn [foldl].
  by rewrite Nat.add_0_l, Z2Nat.id by lia.
Qed.

(** Induction on the number of iterations. *)
Lemma forRange_ind (P : Z -> Mem -> Prop) body m n :
  P 0 m -> (forall i m, 0 <= i < n -> P i m -> P (i + 1) (body i m)) -> 0 <= n -> P n (forRange n body m).
Proof.
  intros H0 Hs Hn. assert (forall k, (k <= Z.to_nat n)%nat -> P (Z.of_nat k) (forRange (Z.of_nat k) body m)) as H.
  { induction k as [|k IH]; intros Hk; [exact H0|].
    replace (Z.of_nat (S k)) with (Z.of_nat k + 1) by lia. rewrite forRange_succ by lia.
    apply Hs; [lia|]. apply IH. lia. }
  specialize (H (Z.to_nat n) ltac:(lia)). by rewrite Z2Nat.id in H by lia.
Qed.
