(* ===== verification/AndroidImage.v ===== *)
(** * Images of the Android backend (src/framelink_android.cpp)

    The CPU view of an AHardwareBuffer.  The public formats are not the native
    ones: a BGRA image is an RGBA buffer read through a swizzle, and an NV12 image
    is whatever YUV420 layout the device chose, gathered into a vector and
    scattered back when it is unmapped.  The buffer's bytes are a memory; what
    locking answers is a parameter, and locks are logged. *)
From stdpp Require Import gmap.
From S2P Require Import Prelude Api Bytes.

(** [AHardwareBuffer_Plane] *)
Record AhbPlane := mkAhbPlane { ap_data : Z; ap_pixelStride : Z; ap_rowStride : Z }.

(** A pixel pointer: into the locked buffer, or into the [nv12] vector. *)
Inductive Pixels := NativeAt (address : Z) | ViewAt (offset : Z).

#[export] Instance Pixels_eq_dec : EqDecision Pixels.
Proof. solve_decision. Defined.

(** [struct flImage] *)
Record AhbImage := mkAhbImage {
  ai_ahb : Z;
  ai_mapped : option Pixels;
  ai_nativeMapped : Z;
  ai_strideBytes : Z;
  ai_format : Z;
  ai_lockedPlanes : list AhbPlane;
  ai_nv12 : list Z;
  ai_nativeNv12 : bool;
  ai_width : Z; ai_height : Z;
}.

Inductive LockEffect := Locked | Unlocked.

Definition set_view (img : AhbImage) (v : list Z) : AhbImage :=
  mkAhbImage (ai_ahb img) (ai_mapped img) (ai_nativeMapped img) (ai_strideBytes img) (ai_format img)
    (ai_lockedPlanes img) v (ai_nativeNv12 img) (ai_width img) (ai_height img).
Definition set_mapping (img : AhbImage) (mapped : option Pixels) (native : Z) : AhbImage :=
  mkAhbImage (ai_ahb img) mapped native (ai_strideBytes img) (ai_format img)
    (ai_lockedPlanes img) (ai_nv12 img) (ai_nativeNv12 img) (ai_width img) (ai_height img).
Definition set_planes (img : AhbImage) (l : list AhbPlane) (nativeNv12 : bool) : AhbImage :=
  mkAhbImage (ai_ahb img) (ai_mapped img) (ai_nativeMapped img) (ai_strideBytes img) (ai_format img)
    l (ai_nv12 img) nativeNv12 (ai_width img) (ai_height img).

(** [std::vector::resize] *)
Definition resize (n : Z) (l : list Z) : list Z := take (Z.to_nat n) l ++ replicate (Z.to_nat n - length l) 0.

(** ** The copy loops

    A loop body [dst[i]=src[a]] is a pair of a view index and an address, in the
    order the loop visits them. *)
Definition gather (l : list (Z * Z)) (m : Mem) (v : list Z) : list Z :=
  foldl (fun v ia => <[Z.to_nat ia.1 := load m ia.2]> v) v l.
Definition scatter (l : list (Z * Z)) (v : list Z) (m : Mem) : Mem :=
  foldl (fun m ia => <[ia.2 := nth (Z.to_nat ia.1) v 0]> m) m l.

(** The BGRA loop of mapping, and of unmapping. *)
Definition swizzleIn (img : AhbImage) (p : Z) : list (Z * Z) :=
  concat (map (fun yx => let i := yx.1 * ai_strideBytes img + yx.2 * 4 in
    [(i, p + (i + 2)); (i + 1, p + (i + 1)); (i + 2, p + i); (i + 3, p + (i + 3))])
    (grid (ai_width img) (ai_height img))).
Definition swizzleOut (img : AhbImage) (p : Z) : list (Z * Z) :=
  concat (map (fun yx => let i := yx.1 * ai_strideBytes img + yx.2 * 4 in
    [(i + 2, p + i); (i + 1, p + (i + 1)); (i, p + (i + 2)); (i + 3, p + (i + 3))])
    (grid (ai_width img) (ai_height img))).

(** The YUV loops of both: plane 0 is full size, 1 and 2 are half size and
    interleave behind it. *)
Definition planeSamples (img : AhbImage) (p : nat) (plane : AhbPlane) : list (Z * Z) :=
  let w := ai_width img in
  let h := ai_height img in
  let base := match p with O => 0 | S q => w * h + Z.of_nat q end in
  map (fun yx => (base + (yx.1 * w + yx.2 * (match p with O => 1 | S _ => 2 end)),
                  ap_data plane + (yx.1 * ap_rowStride plane + yx.2 * ap_pixelStride plane)))
    (match p with O => grid w h | S _ => grid (w / 2) (h / 2) end).
Definition yuvSamples (img : AhbImage) : list (Z * Z) :=
  concat (imap (planeSamples img) (ai_lockedPlanes img)).

(** ** Mapping and unmapping *)

(** What the allocator and [AHardwareBuffer_lock], [_lockPlanes] answer. *)
Record LockAnswer := mkLock { lk_oom : bool; lk_pixels : option Z; lk_planes : option (list AhbPlane) }.

Definition flImageAHardwareBuffer (img : AhbImage) : Z := ai_ahb img.

Definition flImageMap (img : AhbImage) (a : LockAnswer) (m : Mem)
  : flResult * option Pixels * AhbImage * list LockEffect :=
  return_if ai_format img =? FL_FORMAT_NV12 with (FL_FORMAT_UNSUPPORTED, None, img, []) ;;
  match ai_mapped img with
  | Some p => (FL_OK, Some p, img, [])
  | None =>
    match lk_pixels a with
    | None => (FL_FORMAT_UNSUPPORTED, None, img, [])
    | Some p =>
      return_if p =? 0 with (FL_FORMAT_UNSUPPORTED, None, img, [Locked]) ;;
      if ai_format img =? FL_FORMAT_BGRA8 then
        return_if lk_oom a with (FL_OOM, None, img, [Locked; Unlocked]) ;;
        let img := set_view img (resize (ai_strideBytes img * ai_height img) (ai_nv12 img)) in
        let img := set_view img (gather (swizzleIn img p) m (ai_nv12 img)) in
        (FL_OK, Some (ViewAt 0), set_mapping img (Some (ViewAt 0)) p, [Locked])
      else (FL_OK, Some (NativeAt p), set_mapping img (Some (NativeAt p)) (ai_nativeMapped img), [Locked])
    end
  end.

(** The device's layout is NV12 already. *)
Definition isNv12 (y u v : AhbPlane) : bool :=
  (ap_pixelStride y =? 1) && (ap_pixelStride u =? 2) && (ap_pixelStride v =? 2)
  && (ap_rowStride u =? ap_rowStride v) && (ap_data v =? ap_data u + 1).

(** A plane of a view: pixels, stride, bytes and rows. *)
Record ViewPlane := mkViewPlane { vp_pixels : Pixels; vp_stride : Z; vp_rowBytes : Z; vp_rows : Z }.

Definition nv12View (img : AhbImage) : list ViewPlane :=
  let w := ai_width img in
  let h := ai_height img in
  match ai_nativeNv12 img, ai_lockedPlanes img with
  | true, y :: u :: _ =>
    [mkViewPlane (NativeAt (ap_data y)) (ap_rowStride y) w h;
     mkViewPlane (NativeAt (ap_data u)) (ap_rowStride u) w (h / 2)]
  | _, _ =>
    [mkViewPlane (default (ViewAt 0) (ai_mapped img)) w w h; mkViewPlane (ViewAt (w * h)) w w (h / 2)]
  end.

(** Locking the three planes of an NV12 image and gathering them. *)
Definition mapYuv (img : AhbImage) (a : LockAnswer) (m : Mem)
  : flResult * AhbImage * list LockEffect :=
  return_if lk_oom a with (FL_OOM, img, []) ;;
  let img := set_view img (resize (ai_width img * ai_height img * 3 / 2) (ai_nv12 img)) in
  match lk_planes a with
  | None => (FL_FORMAT_UNSUPPORTED, img, [])
  | Some [y; u; v] =>
    let native := isNv12 y u v in
    let img := set_planes img [y; u; v] native in
    let img := set_mapping img (Some (if native then NativeAt (ap_data y) else ViewAt 0)) (ai_nativeMapped img) in
    (FL_OK, (if native then img else set_view img (gather (yuvSamples img) m (ai_nv12 img))), [Locked])
  | Some planes => (FL_FORMAT_UNSUPPORTED, set_planes img planes (ai_nativeNv12 img), [Locked; Unlocked])
  end.

Definition flImageMapPlanes (img : AhbImage) (a : LockAnswer) (m : Mem)
  : flResult * list ViewPlane * AhbImage * list LockEffect :=
  if ai_format img =? FL_FORMAT_NV12 then
    let '(r, img, fx) := match ai_mapped img with
                         | Some _ => (FL_OK, img, [])
                         | None => mapYuv img a m
                         end in
    match r with
    | FL_OK => (FL_OK, nv12View img, img, fx)
    | r => (r, [], img, fx)
    end
  else
    match flImageMap img a m with
    | (FL_OK, Some p, img, fx) =>
      (FL_OK, [mkViewPlane p (ai_strideBytes img) (ai_width img * 4) (ai_height img)], img, fx)
    | (r, _, img, fx) => (r, [], img, fx)
    end.

Definition flImageUnmap (img : AhbImage) (m : Mem) : AhbImage * Mem * list LockEffect :=
  match ai_mapped img with
  | None => (img, m, [])
  | Some _ =>
    let m := if ai_format img =? FL_FORMAT_BGRA8
             then scatter (swizzleOut img (ai_nativeMapped img)) (ai_nv12 img) m else m in
    let m := if (ai_format img =? FL_FORMAT_NV12) && negb (ai_nativeNv12 img)
             then scatter (yuvSamples img) (ai_nv12 img) m else m in
    (set_mapping img None (if ai_format img =? FL_FORMAT_BGRA8 then 0 else ai_nativeMapped img), m, [Unlocked])
  end.

(** * Properties *)

(** ** The copy loops *)

Lemma load_insert m a b x : load (<[a := x]> m) b = if decide (a = b) then x else load m b.
Proof.
  unfold load. case_decide; [subst; by rewrite lookup_insert_eq|by rewrite lookup_insert_ne].
Qed.

Lemma gather_cons ia l m v : gather (ia :: l) m v = gather l m (<[Z.to_nat ia.1 := load m ia.2]> v).
Proof. done. Qed.
Lemma scatter_cons ia l v m : scatter (ia :: l) v m = scatter l v (<[ia.2 := nth (Z.to_nat ia.1) v 0]> m).
Proof. done. Qed.

Lemma length_gather l m v : length (gather l m v) = length v.
Proof. revert v. induction l as [|ia l IH]; intros v; [done|]. rewrite gather_cons, IH. apply length_insert. Qed.

Lemma gather_other l m v i : (forall ia, ia ∈ l -> Z.to_nat ia.1 <> i) -> gather l m v !! i = v !! i.
Proof.
  revert v. induction l as [|ia l IH]; intros v H; [done|]. rewrite gather_cons, IH by (intros; apply H; by right).
  apply list_lookup_insert_ne. apply H. by left.
Qed.

(** Distinct view indices in range receive their bytes. *)
Lemma gather_lookup l m v i a :
  NoDup l.*1 -> Forall (fun ia => 0 <= ia.1 < Z.of_nat (length v)) l ->
  (i, a) ∈ l -> gather l m v !! Z.to_nat i = Some (load m a).
Proof.
  revert v. induction l as [|[j b] l IH]; intros v Hnd Hr Hin; [by apply elem_of_nil in Hin|].
  apply NoDup_cons in Hnd as [Hn Hnd]. apply Forall_cons in Hr as [Hj Hr]. rewrite gather_cons. cbn [fst snd] in *.
  apply elem_of_cons in Hin as [[= -> ->]|Hin].
  - rewrite gather_other; [apply list_lookup_insert_eq; lia|].
    intros [k c] Hk Heq. cbn in Heq. rewrite Forall_forall in Hr. pose proof (Hr _ Hk) as Hk'. cbn in Hk'.
    assert (k = j) as -> by lia. apply Hn. apply (list_elem_of_fmap_2 fst _ (j, c) Hk).
  - apply IH; [done| |done]. eapply Forall_impl; [exact Hr|]. intros ia. by rewrite length_insert.
Qed.

Lemma scatter_other l v m a : a ∉ l.*2 -> load (scatter l v m) a = load m a.
Proof.
  revert m. induction l as [|ia l IH]; intros m H; [done|]. rewrite scatter_cons, IH by (intros ?; apply H; by right).
  rewrite load_insert, decide_False; [done|]. intros E. apply H. rewrite <- E. by left.
Qed.

(** An address only one sample names receives its byte. *)
Lemma scatter_load l v m i a :
  (i, a) ∈ l -> (forall j, (j, a) ∈ l -> j = i) -> load (scatter l v m) a = nth (Z.to_nat i) v 0.
Proof.
  revert m. induction l as [|[j b] l IH]; intros m Hin Hu; [by apply elem_of_nil in Hin|]. rewrite scatter_cons.
  destruct (decide ((i, a) ∈ l)) as [Hl|Hl]; [by apply IH; [|intros k Hk; apply Hu; right]|].
  apply elem_of_cons in Hin as [[= <- <-]|?]; [|done]. rewrite scatter_other; [by rewrite load_insert, decide_True|].
  intros ([k c] & -> & Hk)%list_elem_of_fmap. apply Hl. cbn in *. by rewrite <- (Hu k) by (by right).
Qed.

(** Writing back what is there changes nothing, whatever overlaps. *)
Lemma scatter_same l v m :
  (forall ia, ia ∈ l -> nth (Z.to_nat ia.1) v 0 = load m ia.2) -> forall a, load (scatter l v m) a = load m a.
Proof.
  revert m. induction l as [|ia l IH]; intros m H a; [done|]. rewrite scatter_cons.
  assert (forall b, load (<[ia.2 := nth (Z.to_nat ia.1) v 0]> m) b = load m b) as Hm.
  { intros b. rewrite load_insert. case_decide as E; [|done]. rewrite <- E. apply H. by left. }
  rewrite IH; [apply Hm|]. intros ja Hj. rewrite Hm. apply H. by right.
Qed.

Lemma elem_of_grid w h y x : (y, x) ∈ grid w h <-> 0 <= y < h /\ 0 <= x < w.
Proof.
  unfold grid. rewrite list_elem_of_In, in_concat. split.
  - intros (l & (n & <- & Hn)%in_map_iff & (k & [= <- <-] & Hk)%in_map_iff).
    apply in_seq in Hn, Hk. lia.
  - intros [Hy Hx]. eexists. split; [apply in_map_iff; exists (Z.to_nat y); split; [done|apply in_seq; lia]|].
    apply in_map_iff. exists (Z.to_nat x). split; [f_equal; lia|apply in_seq; lia].
Qed.

Lemma NoDup_grid w h : NoDup (grid w h).
Proof.
  unfold grid. generalize 0%nat at 2. induction (Z.to_nat h) as [|n IH]; intros s; [constructor|]. cbn.
  apply NoDup_app. split; [|split; [|apply IH]].
  - apply (NoDup_fmap_2_strong (fun x : nat => (Z.of_nat s, Z.of_nat x))); [|apply NoDup_seq].
    intros a b _ _ [= Hab]. lia.
  - intros [y x] H1 H2. apply list_elem_of_In, in_map_iff in H1 as (k & [= <- <-] & _).
    apply list_elem_of_In, in_concat in H2 as (l & (n' & <- & Hn)%in_map_iff & (k' & [= E _] & _)%in_map_iff).
    apply in_seq in Hn. lia.
Qed.

(** A list of distinct pixels, each spread into pairs. *)
Lemma NoDup_spread {A} (f : A -> list (Z * Z)) l :
  NoDup l -> (forall x, NoDup (f x).*1) ->
  (forall x y i, x ∈ l -> y ∈ l -> i ∈ (f x).*1 -> i ∈ (f y).*1 -> x = y) ->
  NoDup (concat (map f l)).*1.
Proof.
  intros Hl Hf Hd. induction Hl as [|x l Hx Hl IH]; [constructor|]. cbn. rewrite fmap_app.
  apply NoDup_app. split; [done|]. split.
  - intros i Hi Hr. apply list_elem_of_fmap in Hr as (ia & -> & Hr).
    apply list_elem_of_In, in_concat in Hr as (k & (y & <- & Hy)%in_map_iff & Hin).
    apply list_elem_of_In in Hin, Hy. assert (x = y) as <-; [|done].
    apply (Hd x y ia.1); [by left|by right|done|]. by apply list_elem_of_fmap_2.
  - apply IH. intros y z i Hy Hz. apply Hd; by right.
Qed.

(** ** The samples of a view *)

Section View.
Context (img : AhbImage).
Notation w := (ai_width img).
Notation h := (ai_height img).
Notation stride := (ai_strideBytes img).

(** The four bytes of a pixel, exchanged blue for red. *)
Definition swizzled (p i a : Z) : Prop :=
  exists y x, 0 <= y < h /\ 0 <= x < w /\ let o := y * stride + x * 4 in
    (i = o /\ a = p + (o + 2)) \/ (i = o + 1 /\ a = p + (o + 1))
    \/ (i = o + 2 /\ a = p + o) \/ (i = o + 3 /\ a = p + (o + 3)).

Lemma elem_of_spread {A} (f : A -> list (Z * Z)) l ia :
  ia ∈ concat (map f l) <-> exists x, x ∈ l /\ ia ∈ f x.
Proof.
  rewrite list_elem_of_In, in_concat. split.
  - intros (k & (x & <- & Hx)%in_map_iff & Hi). exists x. split; by apply list_elem_of_In.
  - intros (x & Hx & Hi). exists (f x). split; [|by apply list_elem_of_In].
    apply in_map_iff. exists x. split; [done|by apply list_elem_of_In].
Qed.

Lemma elem_of_swizzleIn p i a : (i, a) ∈ swizzleIn img p <-> swizzled p i a.
Proof.
  unfold swizzleIn, swizzled. rewrite elem_of_spread. split.
  - intros ([y x] & Hg%elem_of_grid & Hi). exists y, x. destruct Hg. split; [done|]. split; [done|].
    cbn in Hi. set_unfold in Hi. naive_solver.
  - intros (y & x & Hy & Hx & Hi). exists (y, x). split; [by apply elem_of_grid|]. cbn in *.
    rewrite !elem_of_cons, !pair_equal_spec. tauto.
Qed.

Lemma elem_of_swizzleOut p i a : (i, a) ∈ swizzleOut img p <-> swizzled p i a.
Proof.
  unfold swizzleOut, swizzled. rewrite elem_of_spread. split.
  - intros ([y x] & Hg%elem_of_grid & Hi). exists y, x. destruct Hg. split; [done|]. split; [done|].
    cbn in Hi. set_unfold in Hi. naive_solver.
  - intros (y & x & Hy & Hx & Hi). exists (y, x). split; [by apply elem_of_grid|]. cbn in *.
    rewrite !elem_of_cons, !pair_equal_spec. tauto.
Qed.

(** Rows do not overlap. *)
Lemma row_unique n y y' k k' : 0 <= k < n -> 0 <= k' < n -> y * n + k = y' * n + k' -> y = y' /\ k = k'.
Proof.
  intros Hk Hk' E. assert (y = y') as -> by (destruct (Z.lt_trichotomy y y') as [?|[?|?]]; [nia|done|nia]). lia.
Qed.

Lemma pixel_unique y x y' x' k k' :
  4 * w <= stride -> 0 <= x < w -> 0 <= x' < w -> 0 <= k < 4 -> 0 <= k' < 4 ->
  y * stride + x * 4 + k = y' * stride + x' * 4 + k' -> (y, x) = (y', x').
Proof.
  intros Hs Hx Hx' Hk Hk' E.
  destruct (row_unique stride y y' (x * 4 + k) (x' * 4 + k')) as [-> Hr]; [lia..|]. f_equal. lia.
Qed.

Lemma NoDup_swizzleIn p : 4 * w <= stride -> NoDup (swizzleIn img p).*1.
Proof.
  intros Hs. apply NoDup_spread; [apply NoDup_grid|..].
  - intros [y x]. cbn. repeat (constructor; [set_unfold; lia|]). constructor.
  - intros [y x] [y' x'] i [_ Hx]%elem_of_grid [_ Hx']%elem_of_grid Hi Hi'. cbn in Hi, Hi'. set_unfold in Hi.
    set_unfold in Hi'.
    apply (pixel_unique y x y' x' (i - (y * stride + x * 4)) (i - (y' * stride + x' * 4))); try done; lia.
Qed.

Lemma swizzled_inj p i j a : 4 * w <= stride -> swizzled p i a -> swizzled p j a -> i = j.
Proof.
  intros Hs (y & x & _ & Hx & Hi) (y' & x' & _ & Hx' & Hj). cbn in *.
  assert ((y, x) = (y', x')) as [= -> ->]; [|lia].
  apply (pixel_unique y x y' x' (a - p - (y * stride + x * 4)) (a - p - (y' * stride + x' * 4))); lia.
Qed.

Lemma swizzled_range p i a : 4 * w <= stride -> swizzled p i a -> 0 <= i < stride * h.
Proof. intros Hs (y & x & Hy & Hx & Hi). cbn in Hi. nia. Qed.

(** *** YUV *)

(** A sample of plane [p]: its pixel, and where the view keeps it. *)
Definition yuvIndex (p : nat) (y x : Z) : Z :=
  match p with O => y * w + x | S q => w * h + Z.of_nat q + (y * w + x * 2) end.

Definition yuvPixel (p : nat) (y x : Z) : Prop :=
  match p with O => 0 <= y < h /\ 0 <= x < w | S _ => 0 <= y < h / 2 /\ 0 <= x < w / 2 end.

Lemma elem_of_planeSamples p plane ia : ia ∈ planeSamples img p plane <->
  exists y x, yuvPixel p y x /\ ia = (yuvIndex p y x,
    ap_data plane + (y * ap_rowStride plane + x * ap_pixelStride plane)).
Proof.
  unfold planeSamples, yuvPixel, yuvIndex. rewrite list_elem_of_In, in_map_iff. split.
  - intros ([y x] & <- & Hg%list_elem_of_In). exists y, x. destruct p; apply elem_of_grid in Hg; (split; [done|]);
      f_equal; cbn; lia.
  - intros (y & x & Hp & ->). exists (y, x). rewrite <- list_elem_of_In.
    destruct p; rewrite elem_of_grid; (split; [f_equal; cbn; lia|done]).
Qed.

Lemma yuvPixel_row p y x : 0 <= w -> (p < 3)%nat -> yuvPixel p y x ->
  exists k, 0 <= k < w /\ match p with
  | O => 0 <= y < h /\ k = x /\ yuvIndex p y x = y * w + k
  | S q => 0 <= y < h / 2 /\ k = x * 2 + Z.of_nat q /\ yuvIndex p y x = w * h + (y * w + k)
  end.
Proof.
  intros Hw Hp Hx. pose proof (Z.mul_div_le w 2 ltac:(lia)) as Hd. unfold yuvPixel, yuvIndex in *.
  destruct p as [|q]; [exists x|exists (x * 2 + Z.of_nat q)]; lia.
Qed.

Lemma yuvIndex_range p y x : 0 <= w -> 0 <= h -> (p < 3)%nat -> yuvPixel p y x ->
  0 <= yuvIndex p y x < w * h * 3 / 2.
Proof.
  intros Hw Hh Hp Hx. pose proof (Z.mul_div_le h 2 ltac:(lia)) as Hd.
  assert (w * h + w * (h / 2) <= w * h * 3 / 2) by (apply Z.div_le_lower_bound; nia).
  assert (0 <= h / 2) by (apply Z.div_pos; lia).
  destruct (yuvPixel_row p y x Hw Hp Hx) as (k & Hk & Hr). destruct p; destruct Hr as (Hy & _ & ->); nia.
Qed.

Lemma yuvIndex_inj p p' y x y' x' : 0 <= w -> (p < 3)%nat -> (p' < 3)%nat ->
  yuvPixel p y x -> yuvPixel p' y' x' -> yuvIndex p y x = yuvIndex p' y' x' -> p = p' /\ (y, x) = (y', x').
Proof.
  intros Hw Hp Hp' Hx Hx' E.
  destruct (yuvPixel_row p y x Hw Hp Hx) as (k & Hk & Hr), (yuvPixel_row p' y' x' Hw Hp' Hx') as (k' & Hk' & Hr').
  destruct p, p'; destruct Hr as (Hy & Ek & Er), Hr' as (Hy' & Ek' & Er'); rewrite Er, Er' in E; [|nia|nia|];
    destruct (row_unique w y y' k k') as [-> ?]; try done; try lia; split; f_equal; lia.
Qed.

Lemma elem_of_yuvSamples ia : ia ∈ yuvSamples img <->
  exists p plane, ai_lockedPlanes img !! p = Some plane /\ ia ∈ planeSamples img p plane.
Proof.
  unfold yuvSamples. rewrite list_elem_of_In, in_concat. split.
  - intros (l & Hl%list_elem_of_In%elem_of_lookup_imap & Hia). destruct Hl as (p & plane & -> & Hp).
    exists p, plane. split; [done|by apply list_elem_of_In].
  - intros (p & plane & Hp & Hia). eexists. split; [|by apply list_elem_of_In].
    apply list_elem_of_In, elem_of_lookup_imap. by exists p, plane.
Qed.

Lemma NoDup_planeSamples p plane : 0 <= w -> (p < 3)%nat -> NoDup (planeSamples img p plane).*1.
Proof.
  intros Hw Hp. unfold planeSamples. rewrite <- list_fmap_compose.
  apply NoDup_fmap_2_strong; [|destruct p; apply NoDup_grid].
  intros [y x] [y' x'] Hy Hy' E. apply (yuvIndex_inj p p y x y' x'); try done.
  1,2: destruct p; by apply elem_of_grid.
  unfold yuvIndex. destruct p; cbn in *; lia.
Qed.

Lemma NoDup_yuvSamples : 0 <= w -> length (ai_lockedPlanes img) = 3%nat -> NoDup (yuvSamples img).*1.
Proof.
  intros Hw Hl. unfold yuvSamples. destruct (ai_lockedPlanes img) as [|a [|b [|c [|? ?]]]]; try done.
  change (concat _) with (planeSamples img 0 a ++ planeSamples img 1 b ++ planeSamples img 2 c ++ []).
  rewrite app_nil_r, !fmap_app.
  assert (forall p q pa qa i, (p < 3)%nat -> (q < 3)%nat -> p <> q ->
    i ∈ (planeSamples img p pa).*1 -> i ∈ (planeSamples img q qa).*1 -> False) as Hd.
  { intros p q pa qa i Hp Hq Hne Hi Hi'.
    apply list_elem_of_fmap in Hi as (ia & -> & (y & x & Hx & ->)%elem_of_planeSamples).
    apply list_elem_of_fmap in Hi' as (ja & E & (y' & x' & Hx' & ->)%elem_of_planeSamples).
    by destruct (yuvIndex_inj p q y x y' x') as [? _]. }
  apply NoDup_app; split; [|split; [|apply NoDup_app; split; [|split]]];
    try (apply NoDup_planeSamples; [done|lia]).
  - intros i Hi Hj. apply elem_of_app in Hj as [Hj|Hj]; (eapply Hd; [..|exact Hi|exact Hj]); lia.
  - intros i Hi Hj. eapply Hd; [..|exact Hi|exact Hj]; lia.
Qed.
End View.

(** ** Views through a copy *)

(** Where the bytes of a converted view come from, and where unmapping puts them. *)
Definition samples (img : AhbImage) : list (Z * Z) :=
  if ai_format img =? FL_FORMAT_BGRA8 then swizzleIn img (ai_nativeMapped img) else yuvSamples img.
Definition written (img : AhbImage) : list (Z * Z) :=
  if ai_format img =? FL_FORMAT_BGRA8 then swizzleOut img (ai_nativeMapped img) else yuvSamples img.

(** The view is a copy, not the buffer itself. *)
Definition converted (img : AhbImage) : bool :=
  (ai_format img =? FL_FORMAT_BGRA8) || ((ai_format img =? FL_FORMAT_NV12) && negb (ai_nativeNv12 img)).

Definition viewBytes (img : AhbImage) : Z :=
  if ai_format img =? FL_FORMAT_BGRA8 then ai_strideBytes img * ai_height img
  else ai_width img * ai_height img * 3 / 2.

(** The geometry of the images the program makes: a row holds its pixels.  The
    stride of an NV12 image is its width, that of the others four bytes for each
    pixel of the native stride. *)
Definition geometry (img : AhbImage) : Prop :=
  0 <= ai_width img /\ 0 <= ai_height img
  /\ (if ai_format img =? FL_FORMAT_NV12 then ai_width img else 4 * ai_width img) <= ai_strideBytes img.

Lemma length_resize n l : length (resize n l) = Z.to_nat n.
Proof. unfold resize. rewrite length_app, length_take, length_replicate. lia. Qed.

(** Byte [i] of the view shows the byte at [b] of the buffer: a pixel's bytes with
    red and blue exchanged, or a luma or chroma sample of the device's planes. *)
Definition viewSample (img : AhbImage) (i b : Z) : Prop :=
  if ai_format img =? FL_FORMAT_BGRA8 then swizzled img (ai_nativeMapped img) i b
  else exists p plane y x, ai_lockedPlanes img !! p = Some plane /\ yuvPixel img p y x
    /\ i = yuvIndex img p y x /\ b = ap_data plane + (y * ap_rowStride plane + x * ap_pixelStride plane).

Lemma elem_of_samples img i b : (i, b) ∈ samples img <-> viewSample img i b.
Proof.
  unfold samples, viewSample. case_match; [apply elem_of_swizzleIn|]. rewrite elem_of_yuvSamples. split.
  - intros (p & plane & Hp & (y & x & Hx & [= -> ->])%elem_of_planeSamples). by exists p, plane, y, x.
  - intros (p & plane & y & x & Hp & Hx & -> & ->). exists p, plane. split; [done|].
    apply elem_of_planeSamples. by exists y, x.
Qed.

Lemma elem_of_written img ia : ia ∈ written img <-> ia ∈ samples img.
Proof.
  unfold written, samples. case_match; [|done]. destruct ia as [i a].
  by rewrite elem_of_swizzleIn, elem_of_swizzleOut.
Qed.

(** The bytes of the view, for the image a successful map leaves. *)
Definition holds_view (img : AhbImage) (m : Mem) : Prop :=
  ai_mapped img = Some (ViewAt 0) /\ Z.of_nat (length (ai_nv12 img)) = viewBytes img
  /\ NoDup (samples img).*1
  /\ (exists v, ai_nv12 img = gather (samples img) m v)
  /\ (forall ia, ia ∈ samples img -> 0 <= ia.1 < viewBytes img).

Lemma map_bgra img a m p img' fx :
  geometry img -> ai_format img = FL_FORMAT_BGRA8 -> ai_mapped img = None ->
  flImageMap img a m = (FL_OK, p, img', fx) -> fx = [Locked] /\ holds_view img' m /\ geometry img'.
Proof.
  intros Hg Hf Hm. pose proof Hg as (Hw & Hh & Hs). rewrite Hf in Hs. cbn [Z.eqb Pos.eqb FL_FORMAT_BGRA8 FL_FORMAT_NV12] in Hs.
  unfold flImageMap. rewrite Hf, Hm. cbn [Z.eqb Pos.eqb FL_FORMAT_BGRA8 FL_FORMAT_NV12].
  destruct (lk_pixels a) as [n|]; [|done]. destruct (n =? 0); [done|]. destruct (lk_oom a); [done|].
  intros [= <- <- <-]. split; [done|]. split; [|done].
  unfold holds_view, samples, viewBytes. cbn. rewrite Hf. cbn [Z.eqb Pos.eqb FL_FORMAT_BGRA8].
  split; [done|]. split; [rewrite length_gather, length_resize; apply Z2Nat.id; nia|]. split; [by apply NoDup_swizzleIn|].
  split; [by eexists|]. intros [i b] Hi%elem_of_swizzleIn. by apply swizzled_range in Hi; cbn in *.
Qed.

Lemma map_yuv img a m img' fx :
  geometry img -> ai_format img = FL_FORMAT_NV12 ->
  mapYuv img a m = (FL_OK, img', fx) ->
  fx = [Locked] /\ geometry img' /\ ai_format img' = FL_FORMAT_NV12
  /\ (ai_nativeNv12 img' = false -> holds_view img' m).
Proof.
  intros (Hw & Hh & Hs) Hf. unfold mapYuv. destruct (lk_oom a); [done|].
  destruct (lk_planes a) as [[|y [|u [|v [|? ?]]]]|]; try done.
  destruct (isNv12 y u v); intros [= <- <-]; (split; [done|]); (split; [done|]); (split; [done|]); [done|]. intros _.
  unfold holds_view, samples, viewBytes. cbn [ai_format ai_nv12 ai_mapped ai_lockedPlanes set_view set_mapping set_planes].
  rewrite Hf. cbn [Z.eqb Pos.eqb FL_FORMAT_BGRA8 FL_FORMAT_NV12].
  split; [done|]. split; [rewrite length_gather, length_resize; cbn; apply Z2Nat.id, Z.div_pos; nia|].
  split; [by apply NoDup_yuvSamples|]. split; [by eexists|].
  intros ia (p & plane & Hp & (yy & x & Hx & ->)%elem_of_planeSamples)%elem_of_yuvSamples. cbn [fst].
  apply lookup_lt_Some in Hp. by apply yuvIndex_range.
Qed.

Lemma map_pixels img a m img' fx : flImageMap img a m <> (FL_OK, None, img', fx).
Proof. unfold flImageMap. by repeat case_match. Qed.

Lemma map_converted img a m l img' fx :
  geometry img -> ai_mapped img = None -> flImageMapPlanes img a m = (FL_OK, l, img', fx) ->
  converted img' = true -> fx = [Locked] /\ holds_view img' m /\ geometry img'.
Proof.
  intros Hg Hm. unfold flImageMapPlanes. destruct (Z.eqb_spec (ai_format img) FL_FORMAT_NV12) as [Hf|Hf].
  - rewrite Hm. destruct (mapYuv img a m) as [[r i] e] eqn:E. destruct r; try done. intros [= _ <- <-] Hc.
    destruct (map_yuv _ _ _ _ _ Hg Hf E) as (-> & Hg' & Hf' & Hv). split; [done|]. split; [|done].
    apply Hv. unfold converted in Hc. rewrite Hf' in Hc. by destruct (ai_nativeNv12 i).
  - destruct (flImageMap img a m) as [[[r p] i] e] eqn:E. destruct r; try done.
    destruct p as [p|]; [|by apply map_pixels in E].
    intros [= _ <- <-] Hc. destruct (Z.eqb_spec (ai_format img) FL_FORMAT_BGRA8) as [Hb|Hb]; [by eapply map_bgra|].
    exfalso. revert Hc. unfold flImageMap in E. apply Z.eqb_neq in Hf as Hf', Hb as Hb'. rewrite Hf', Hb', Hm in E.
    destruct (lk_pixels a) as [n|]; [|done]. cbn in E. destruct (n =? 0); [done|]. injection E as <- <- <-.
    unfold converted. cbn. by rewrite Hf', Hb'.
Qed.

Lemma unmap_converted img m :
  converted img = true -> ai_mapped img <> None ->
  exists img', flImageUnmap img m = (img', scatter (written img) (ai_nv12 img) m, [Unlocked])
  /\ ai_mapped img' = None.
Proof.
  intros Hc Hm. unfold flImageUnmap, written, converted in *. destruct (ai_mapped img); [|done].
  destruct (Z.eqb_spec (ai_format img) FL_FORMAT_BGRA8) as [E|E].
  - rewrite E. eexists. by split.
  - cbn in Hc. rewrite Hc. eexists. by split.
Qed.

(** No byte of the buffer is shown twice. *)
Lemma view_unique img i j b :
  geometry img -> converted img = true ->
  (ai_format img = FL_FORMAT_NV12 -> forall i j b, viewSample img i b -> viewSample img j b -> i = j) ->
  viewSample img i b -> viewSample img j b -> i = j.
Proof.
  intros (_ & _ & Hs) Hc Hu Hi Hj.
  destruct (Z.eqb_spec (ai_format img) FL_FORMAT_NV12) as [Hf|Hf]; [by eapply Hu|].
  unfold viewSample, converted in *. apply Z.eqb_neq in Hf. rewrite Hf, orb_false_r in Hc. rewrite Hc in Hi, Hj.
  by eapply swizzled_inj.
Qed.

Lemma view_byte img m i b :
  holds_view img m -> (i, b) ∈ samples img -> nth (Z.to_nat i) (ai_nv12 img) 0 = load m b.
Proof.
  intros (_ & Hl & Hnd & (v & Hv) & Hr) Hi. rewrite Hv in *. rewrite length_gather in Hl.
  apply nth_lookup_Some. apply gather_lookup; [done| |done]. apply Forall_forall. rewrite Hl. apply Hr.
Qed.


(** A 2x2 planar image whose chroma planes are swapped, gathered and edited; and a
    2x1 BGRA image on a buffer whose native stride is 3 pixels. *)
Definition exYuv : AhbImage := mkAhbImage 1 None 0 2 FL_FORMAT_NV12 [] [] false 2 2.
Definition exLock : LockAnswer :=
  mkLock false None (Some [mkAhbPlane 100 1 16; mkAhbPlane 201 2 16; mkAhbPlane 200 2 16]).
Definition exMem : Mem := list_to_map [(100, 10); (101, 11); (116, 12); (117, 13); (201, 14); (200, 15)].
Definition exMapped : flResult * list ViewPlane * AhbImage * list LockEffect := flImageMapPlanes exYuv exLock exMem.

Example exMapped_view : ai_nv12 exMapped.1.2 = [10; 11; 12; 13; 14; 15].
Proof. reflexivity. Qed.

Definition exBgra : AhbImage := mkAhbImage 1 None 0 12 FL_FORMAT_BGRA8 [] [] false 2 1.
Definition exPixels : LockAnswer := mkLock false (Some 300) None.
Definition exBytes : Mem := list_to_map (imap (fun i v => (300 + Z.of_nat i, v)) [1; 2; 3; 4; 5; 6; 7; 8]).
Definition exSwizzled : flResult * list ViewPlane * AhbImage * list LockEffect := flImageMapPlanes exBgra exPixels exBytes.

Example exSwizzled_view : take 8 (ai_nv12 exSwizzled.1.2) = [3; 2; 1; 4; 7; 6; 5; 8].
Proof. reflexivity. Qed.

