(* ===== verification/AndroidState.v ===== *)
(** * The channel object of the Android backend (src/framelink_android.cpp)

    [Ahb] is the interface of the AHardwareBuffer calls: a buffer is a number, zero
    the null pointer and the answer of a call that failed.  References to buffers
    are counted in the log like descriptors.  Then [struct flChannel], one
    assignment per field, and the helpers on it.  The bytes of the buffers are not
    part of the world: AndroidImage.v says what mapping and unmapping do to them.
    Trace scopes record events and do not take part. *)
From stdpp Require Import gmap.
From S2P Require Import Prelude Api Kernel Wire SyncFd Ipc AndroidImage.
From S2P Require Ledger BufferRefs.

(** ** AHardwareBuffers *)

(** Constants of the platform headers. *)
Definition AHARDWAREBUFFER_FORMAT_R8G8B8A8_UNORM : Z := 1.
Definition AHARDWAREBUFFER_FORMAT_Y8Cb8Cr8_420 : Z := 0x23.
Definition AHARDWAREBUFFER_FORMAT_R10G10B10A2_UNORM : Z := 0x2b.
Definition AHARDWAREBUFFER_USAGE_CPU_READ_RARELY : Z := 0x2.
Definition AHARDWAREBUFFER_USAGE_CPU_READ_MASK : Z := 0xF.
Definition AHARDWAREBUFFER_USAGE_CPU_WRITE_OFTEN : Z := 0x30.
Definition AHARDWAREBUFFER_USAGE_CPU_WRITE_MASK : Z := 0xF0.
Definition AHARDWAREBUFFER_USAGE_GPU_SAMPLED_IMAGE : Z := 0x100.
Definition AHARDWAREBUFFER_USAGE_GPU_COLOR_OUTPUT : Z := 0x200.

(** [AHardwareBuffer_Desc] *)
Record AhbDesc := mkDesc {
  ad_width : Z; ad_height : Z; ad_layers : Z; ad_format : Z; ad_usage : Z; ad_stride : Z;
}.

(** The answers, by the time of the call where they may change. *)
Class Ahb := {
  ahb_allocate : nat -> AhbDesc -> Z;
  ahb_describe : Z -> AhbDesc;
  ahb_isSupported : AhbDesc -> bool;
  ahb_getId : option (Z -> option Z);       (* the symbol may be missing *)
  ahb_sendHandle : nat -> Z -> Z -> bool;   (* buffer, socket *)
  ahb_recvHandle : nat -> Z -> Z;
  ahb_thread : nat -> bool;                 (* std::thread could be started *)
}.

(** Record the reference a call brought into being. *)
Definition ahb_created (m : M Z) : M Z :=
  let! b := m in (if truthy b then effect (EAhb b) else ret tt) ;; ret b.

(** [AHardwareBuffer_release(b)] *)
Definition ahb_release (b : Z) : M unit := effect (EAhbRelease b).

(** ** Images *)

(** [new flImage()] *)
Definition newImage : AhbImage := mkAhbImage 0 None 0 0 FL_FORMAT_RGBA8 [] [] false 0 0.

(** [img->ahb=...] and the fields set with it. *)
Definition ahbImage (ahb format strideBytes width height : Z) : AhbImage :=
  mkAhbImage ahb None 0 strideBytes format [] [] false width height.

(** Such an image has the geometry that the views of AndroidImage.v ask for, when the
    native stride holds a row. *)
Lemma ahbImage_geometry ahb format stride width height : 0 <= width -> 0 <= height -> width <= stride ->
  geometry (ahbImage ahb format (if format =? FL_FORMAT_NV12 then width else stride * 4) width height).
Proof. intros. unfold geometry, ahbImage. cbn. destruct (format =? FL_FORMAT_NV12); lia. Qed.

Definition ahbFormatFor (f : Z) : Z :=
  if (f =? FL_FORMAT_RGBA8) || (f =? FL_FORMAT_BGRA8) then AHARDWAREBUFFER_FORMAT_R8G8B8A8_UNORM
  else if f =? FL_FORMAT_RGB10A2 then AHARDWAREBUFFER_FORMAT_R10G10B10A2_UNORM
  else if f =? FL_FORMAT_NV12 then AHARDWAREBUFFER_FORMAT_Y8Cb8Cr8_420 else 0.

(** [flImageUnmap] in the world: the buffer is unlocked if it was mapped. *)
Definition unmapImage (img : AhbImage) : M AhbImage :=
  let '(img', _, locks) := flImageUnmap img ∅ in
  mfor locks (fun _ => effect (EAhbUnlock (ai_ahb img))) ;; ret img'.

(** [freeImage(img)]; [addr] is the object's address. *)
Definition freeImage (addr : Z) (img : AhbImage) : M unit :=
  let! img := unmapImage img in
  (if truthy (ai_ahb img) then ahb_release (ai_ahb img) else ret tt) ;;
  effect (EFree addr).

Definition freeImages (l : list (Z * AhbImage)) : M unit := mfor l (fun '(a, img) => freeImage a img).

Definition zeroInfo : flChannelInfo := mkChannelInfo 0 0 0 0 0 0.

(** ** The channel *)

(** [struct flChannel] *)
Record flChannel := mkChannel {
  ch_isConsumer : bool;
  ch_externalPool : bool;
  ch_delegated : bool;
  ch_interruptFd : Z;
  ch_name : list Z;
  ch_info : flChannelInfo;
  ch_flags : Z;
  ch_peerFeatures : Z;
  ch_bufferReferences : BufferRefs.BufferReferences;
  ch_slotMetadata : list flFrameMetadata;
  ch_pendingMetadata : flFrameMetadata;
  ch_heldMetadata : flFrameMetadata;
  ch_images : list (Z * AhbImage);
  ch_sync : SyncFds;
  ch_submittingSlot : Z;
  ch_submittingValue : Z;
  ch_readyValue : Z;
  ch_peer : Channel;
  ch_stop : bool;
  ch_peerGone : bool;
  ch_hasPending : bool;
  ch_readers : Ledger.ReadLedger;
  ch_leaseCompletions : list (Z * Z);
  ch_frameHeld : bool;
  ch_heldReady : Z;
  ch_retiredValue : Z;
  ch_heldSlot : Z;
  ch_pendingSlot : Z;
  ch_pendingReady : Z;
  ch_pendingPts : Z;
  ch_pendingArrival : Z;
  ch_heldArrival : Z;
  ch_sequence : Z;
  ch_link : Channel;
  ch_slotSubmitValue : list Z;
  ch_consumedValue : Z;
}.

(** [new flChannel()] *)
Definition newChannel : flChannel :=
  mkChannel false false false (-1) [] zeroInfo 0 0 BufferRefs.emptyRefs (replicate
    FL_MAX_POOL_SIZE zeroMetadata) zeroMetadata zeroMetadata [] noSync UINT32_MAX 0 0 noChannel
    false false false Ledger.emptyLedger (replicate Ledger.MaxReaders (0, -1)) false 0 0 0 0 0
    (-1) 0 0 0 noChannel [] 0.

(** One assignment per field. *)
Definition set_isConsumer (c : flChannel) (v : bool) : flChannel :=
  mkChannel v (ch_externalPool c) (ch_delegated c) (ch_interruptFd c) (ch_name c) (ch_info c)
    (ch_flags c) (ch_peerFeatures c) (ch_bufferReferences c) (ch_slotMetadata c)
    (ch_pendingMetadata c) (ch_heldMetadata c) (ch_images c) (ch_sync c) (ch_submittingSlot c)
    (ch_submittingValue c) (ch_readyValue c) (ch_peer c) (ch_stop c) (ch_peerGone c)
    (ch_hasPending c) (ch_readers c) (ch_leaseCompletions c) (ch_frameHeld c) (ch_heldReady c)
    (ch_retiredValue c) (ch_heldSlot c) (ch_pendingSlot c) (ch_pendingReady c) (ch_pendingPts c)
    (ch_pendingArrival c) (ch_heldArrival c) (ch_sequence c) (ch_link c) (ch_slotSubmitValue c)
    (ch_consumedValue c).
Definition set_externalPool (c : flChannel) (v : bool) : flChannel :=
  mkChannel (ch_isConsumer c) v (ch_delegated c) (ch_interruptFd c) (ch_name c) (ch_info c)
    (ch_flags c) (ch_peerFeatures c) (ch_bufferReferences c) (ch_slotMetadata c)
    (ch_pendingMetadata c) (ch_heldMetadata c) (ch_images c) (ch_sync c) (ch_submittingSlot c)
    (ch_submittingValue c) (ch_readyValue c) (ch_peer c) (ch_stop c) (ch_peerGone c)
    (ch_hasPending c) (ch_readers c) (ch_leaseCompletions c) (ch_frameHeld c) (ch_heldReady c)
    (ch_retiredValue c) (ch_heldSlot c) (ch_pendingSlot c) (ch_pendingReady c) (ch_pendingPts c)
    (ch_pendingArrival c) (ch_heldArrival c) (ch_sequence c) (ch_link c) (ch_slotSubmitValue c)
    (ch_consumedValue c).
Definition set_delegated (c : flChannel) (v : bool) : flChannel :=
  mkChannel (ch_isConsumer c) (ch_externalPool c) v (ch_interruptFd c) (ch_name c) (ch_info c)
    (ch_flags c) (ch_peerFeatures c) (ch_bufferReferences c) (ch_slotMetadata c)
    (ch_pendingMetadata c) (ch_heldMetadata c) (ch_images c) (ch_sync c) (ch_submittingSlot c)
    (ch_submittingValue c) (ch_readyValue c) (ch_peer c) (ch_stop c) (ch_peerGone c)
    (ch_hasPending c) (ch_readers c) (ch_leaseCompletions c) (ch_frameHeld c) (ch_heldReady c)
    (ch_retiredValue c) (ch_heldSlot c) (ch_pendingSlot c) (ch_pendingReady c) (ch_pendingPts c)
    (ch_pendingArrival c) (ch_heldArrival c) (ch_sequence c) (ch_link c) (ch_slotSubmitValue c)
    (ch_consumedValue c).
Definition set_interruptFd (c : flChannel) (v : Z) : flChannel :=
  mkChannel (ch_isConsumer c) (ch_externalPool c) (ch_delegated c) v (ch_name c) (ch_info c)
    (ch_flags c) (ch_peerFeatures c) (ch_bufferReferences c) (ch_slotMetadata c)
    (ch_pendingMetadata c) (ch_heldMetadata c) (ch_images c) (ch_sync c) (ch_submittingSlot c)
    (ch_submittingValue c) (ch_readyValue c) (ch_peer c) (ch_stop c) (ch_peerGone c)
    (ch_hasPending c) (ch_readers c) (ch_leaseCompletions c) (ch_frameHeld c) (ch_heldReady c)
    (ch_retiredValue c) (ch_heldSlot c) (ch_pendingSlot c) (ch_pendingReady c) (ch_pendingPts c)
    (ch_pendingArrival c) (ch_heldArrival c) (ch_sequence c) (ch_link c) (ch_slotSubmitValue c)
    (ch_consumedValue c).
Definition set_name (c : flChannel) (v : list Z) : flChannel :=
  mkChannel (ch_isConsumer c) (ch_externalPool c) (ch_delegated c) (ch_interruptFd c) v (ch_info
    c) (ch_flags c) (ch_peerFeatures c) (ch_bufferReferences c) (ch_slotMetadata c)
    (ch_pendingMetadata c) (ch_heldMetadata c) (ch_images c) (ch_sync c) (ch_submittingSlot c)
    (ch_submittingValue c) (ch_readyValue c) (ch_peer c) (ch_stop c) (ch_peerGone c)
    (ch_hasPending c) (ch_readers c) (ch_leaseCompletions c) (ch_frameHeld c) (ch_heldReady c)
    (ch_retiredValue c) (ch_heldSlot c) (ch_pendingSlot c) (ch_pendingReady c) (ch_pendingPts c)
    (ch_pendingArrival c) (ch_heldArrival c) (ch_sequence c) (ch_link c) (ch_slotSubmitValue c)
    (ch_consumedValue c).
Definition set_info (c : flChannel) (v : flChannelInfo) : flChannel :=
  mkChannel (ch_isConsumer c) (ch_externalPool c) (ch_delegated c) (ch_interruptFd c) (ch_name c)
    v (ch_flags c) (ch_peerFeatures c) (ch_bufferReferences c) (ch_slotMetadata c)
    (ch_pendingMetadata c) (ch_heldMetadata c) (ch_images c) (ch_sync c) (ch_submittingSlot c)
    (ch_submittingValue c) (ch_readyValue c) (ch_peer c) (ch_stop c) (ch_peerGone c)
    (ch_hasPending c) (ch_readers c) (ch_leaseCompletions c) (ch_frameHeld c) (ch_heldReady c)
    (ch_retiredValue c) (ch_heldSlot c) (ch_pendingSlot c) (ch_pendingReady c) (ch_pendingPts c)
    (ch_pendingArrival c) (ch_heldArrival c) (ch_sequence c) (ch_link c) (ch_slotSubmitValue c)
    (ch_consumedValue c).
Definition set_flags (c : flChannel) (v : Z) : flChannel :=
  mkChannel (ch_isConsumer c) (ch_externalPool c) (ch_delegated c) (ch_interruptFd c) (ch_name c)
    (ch_info c) v (ch_peerFeatures c) (ch_bufferReferences c) (ch_slotMetadata c)
    (ch_pendingMetadata c) (ch_heldMetadata c) (ch_images c) (ch_sync c) (ch_submittingSlot c)
    (ch_submittingValue c) (ch_readyValue c) (ch_peer c) (ch_stop c) (ch_peerGone c)
    (ch_hasPending c) (ch_readers c) (ch_leaseCompletions c) (ch_frameHeld c) (ch_heldReady c)
    (ch_retiredValue c) (ch_heldSlot c) (ch_pendingSlot c) (ch_pendingReady c) (ch_pendingPts c)
    (ch_pendingArrival c) (ch_heldArrival c) (ch_sequence c) (ch_link c) (ch_slotSubmitValue c)
    (ch_consumedValue c).
Definition set_peerFeatures (c : flChannel) (v : Z) : flChannel :=
  mkChannel (ch_isConsumer c) (ch_externalPool c) (ch_delegated c) (ch_interruptFd c) (ch_name c)
    (ch_info c) (ch_flags c) v (ch_bufferReferences c) (ch_slotMetadata c) (ch_pendingMetadata c)
    (ch_heldMetadata c) (ch_images c) (ch_sync c) (ch_submittingSlot c) (ch_submittingValue c)
    (ch_readyValue c) (ch_peer c) (ch_stop c) (ch_peerGone c) (ch_hasPending c) (ch_readers c)
    (ch_leaseCompletions c) (ch_frameHeld c) (ch_heldReady c) (ch_retiredValue c) (ch_heldSlot c)
    (ch_pendingSlot c) (ch_pendingReady c) (ch_pendingPts c) (ch_pendingArrival c) (ch_heldArrival
    c) (ch_sequence c) (ch_link c) (ch_slotSubmitValue c) (ch_consumedValue c).
Definition set_bufferReferences (c : flChannel) (v : BufferRefs.BufferReferences) : flChannel :=
  mkChannel (ch_isConsumer c) (ch_externalPool c) (ch_delegated c) (ch_interruptFd c) (ch_name c)
    (ch_info c) (ch_flags c) (ch_peerFeatures c) v (ch_slotMetadata c) (ch_pendingMetadata c)
    (ch_heldMetadata c) (ch_images c) (ch_sync c) (ch_submittingSlot c) (ch_submittingValue c)
    (ch_readyValue c) (ch_peer c) (ch_stop c) (ch_peerGone c) (ch_hasPending c) (ch_readers c)
    (ch_leaseCompletions c) (ch_frameHeld c) (ch_heldReady c) (ch_retiredValue c) (ch_heldSlot c)
    (ch_pendingSlot c) (ch_pendingReady c) (ch_pendingPts c) (ch_pendingArrival c) (ch_heldArrival
    c) (ch_sequence c) (ch_link c) (ch_slotSubmitValue c) (ch_consumedValue c).
Definition set_slotMetadata (c : flChannel) (v : list flFrameMetadata) : flChannel :=
  mkChannel (ch_isConsumer c) (ch_externalPool c) (ch_delegated c) (ch_interruptFd c) (ch_name c)
    (ch_info c) (ch_flags c) (ch_peerFeatures c) (ch_bufferReferences c) v (ch_pendingMetadata c)
    (ch_heldMetadata c) (ch_images c) (ch_sync c) (ch_submittingSlot c) (ch_submittingValue c)
    (ch_readyValue c) (ch_peer c) (ch_stop c) (ch_peerGone c) (ch_hasPending c) (ch_readers c)
    (ch_leaseCompletions c) (ch_frameHeld c) (ch_heldReady c) (ch_retiredValue c) (ch_heldSlot c)
    (ch_pendingSlot c) (ch_pendingReady c) (ch_pendingPts c) (ch_pendingArrival c) (ch_heldArrival
    c) (ch_sequence c) (ch_link c) (ch_slotSubmitValue c) (ch_consumedValue c).
Definition set_pendingMetadata (c : flChannel) (v : flFrameMetadata) : flChannel :=
  mkChannel (ch_isConsumer c) (ch_externalPool c) (ch_delegated c) (ch_interruptFd c) (ch_name c)
    (ch_info c) (ch_flags c) (ch_peerFeatures c) (ch_bufferReferences c) (ch_slotMetadata c) v
    (ch_heldMetadata c) (ch_images c) (ch_sync c) (ch_submittingSlot c) (ch_submittingValue c)
    (ch_readyValue c) (ch_peer c) (ch_stop c) (ch_peerGone c) (ch_hasPending c) (ch_readers c)
    (ch_leaseCompletions c) (ch_frameHeld c) (ch_heldReady c) (ch_retiredValue c) (ch_heldSlot c)
    (ch_pendingSlot c) (ch_pendingReady c) (ch_pendingPts c) (ch_pendingArrival c) (ch_heldArrival
    c) (ch_sequence c) (ch_link c) (ch_slotSubmitValue c) (ch_consumedValue c).
Definition set_heldMetadata (c : flChannel) (v : flFrameMetadata) : flChannel :=
  mkChannel (ch_isConsumer c) (ch_externalPool c) (ch_delegated c) (ch_interruptFd c) (ch_name c)
    (ch_info c) (ch_flags c) (ch_peerFeatures c) (ch_bufferReferences c) (ch_slotMetadata c)
    (ch_pendingMetadata c) v (ch_images c) (ch_sync c) (ch_submittingSlot c) (ch_submittingValue
    c) (ch_readyValue c) (ch_peer c) (ch_stop c) (ch_peerGone c) (ch_hasPending c) (ch_readers c)
    (ch_leaseCompletions c) (ch_frameHeld c) (ch_heldReady c) (ch_retiredValue c) (ch_heldSlot c)
    (ch_pendingSlot c) (ch_pendingReady c) (ch_pendingPts c) (ch_pendingArrival c) (ch_heldArrival
    c) (ch_sequence c) (ch_link c) (ch_slotSubmitValue c) (ch_consumedValue c).
Definition set_images (c : flChannel) (v : list (Z * AhbImage)) : flChannel :=
  mkChannel (ch_isConsumer c) (ch_externalPool c) (ch_delegated c) (ch_interruptFd c) (ch_name c)
    (ch_info c) (ch_flags c) (ch_peerFeatures c) (ch_bufferReferences c) (ch_slotMetadata c)
    (ch_pendingMetadata c) (ch_heldMetadata c) v (ch_sync c) (ch_submittingSlot c)
    (ch_submittingValue c) (ch_readyValue c) (ch_peer c) (ch_stop c) (ch_peerGone c)
    (ch_hasPending c) (ch_readers c) (ch_leaseCompletions c) (ch_frameHeld c) (ch_heldReady c)
    (ch_retiredValue c) (ch_heldSlot c) (ch_pendingSlot c) (ch_pendingReady c) (ch_pendingPts c)
    (ch_pendingArrival c) (ch_heldArrival c) (ch_sequence c) (ch_link c) (ch_slotSubmitValue c)
    (ch_consumedValue c).
Definition set_sync (c : flChannel) (v : SyncFds) : flChannel :=
  mkChannel (ch_isConsumer c) (ch_externalPool c) (ch_delegated c) (ch_interruptFd c) (ch_name c)
    (ch_info c) (ch_flags c) (ch_peerFeatures c) (ch_bufferReferences c) (ch_slotMetadata c)
    (ch_pendingMetadata c) (ch_heldMetadata c) (ch_images c) v (ch_submittingSlot c)
    (ch_submittingValue c) (ch_readyValue c) (ch_peer c) (ch_stop c) (ch_peerGone c)
    (ch_hasPending c) (ch_readers c) (ch_leaseCompletions c) (ch_frameHeld c) (ch_heldReady c)
    (ch_retiredValue c) (ch_heldSlot c) (ch_pendingSlot c) (ch_pendingReady c) (ch_pendingPts c)
    (ch_pendingArrival c) (ch_heldArrival c) (ch_sequence c) (ch_link c) (ch_slotSubmitValue c)
    (ch_consumedValue c).
Definition set_submittingSlot (c : flChannel) (v : Z) : flChannel :=
  mkChannel (ch_isConsumer c) (ch_externalPool c) (ch_delegated c) (ch_interruptFd c) (ch_name c)
    (ch_info c) (ch_flags c) (ch_peerFeatures c) (ch_bufferReferences c) (ch_slotMetadata c)
    (ch_pendingMetadata c) (ch_heldMetadata c) (ch_images c) (ch_sync c) v (ch_submittingValue c)
    (ch_readyValue c) (ch_peer c) (ch_stop c) (ch_peerGone c) (ch_hasPending c) (ch_readers c)
    (ch_leaseCompletions c) (ch_frameHeld c) (ch_heldReady c) (ch_retiredValue c) (ch_heldSlot c)
    (ch_pendingSlot c) (ch_pendingReady c) (ch_pendingPts c) (ch_pendingArrival c) (ch_heldArrival
    c) (ch_sequence c) (ch_link c) (ch_slotSubmitValue c) (ch_consumedValue c).
Definition set_submittingValue (c : flChannel) (v : Z) : flChannel :=
  mkChannel (ch_isConsumer c) (ch_externalPool c) (ch_delegated c) (ch_interruptFd c) (ch_name c)
    (ch_info c) (ch_flags c) (ch_peerFeatures c) (ch_bufferReferences c) (ch_slotMetadata c)
    (ch_pendingMetadata c) (ch_heldMetadata c) (ch_images c) (ch_sync c) (ch_submittingSlot c) v
    (ch_readyValue c) (ch_peer c) (ch_stop c) (ch_peerGone c) (ch_hasPending c) (ch_readers c)
    (ch_leaseCompletions c) (ch_frameHeld c) (ch_heldReady c) (ch_retiredValue c) (ch_heldSlot c)
    (ch_pendingSlot c) (ch_pendingReady c) (ch_pendingPts c) (ch_pendingArrival c) (ch_heldArrival
    c) (ch_sequence c) (ch_link c) (ch_slotSubmitValue c) (ch_consumedValue c).
Definition set_readyValue (c : flChannel) (v : Z) : flChannel :=
  mkChannel (ch_isConsumer c) (ch_externalPool c) (ch_delegated c) (ch_interruptFd c) (ch_name c)
    (ch_info c) (ch_flags c) (ch_peerFeatures c) (ch_bufferReferences c) (ch_slotMetadata c)
    (ch_pendingMetadata c) (ch_heldMetadata c) (ch_images c) (ch_sync c) (ch_submittingSlot c)
    (ch_submittingValue c) v (ch_peer c) (ch_stop c) (ch_peerGone c) (ch_hasPending c) (ch_readers
    c) (ch_leaseCompletions c) (ch_frameHeld c) (ch_heldReady c) (ch_retiredValue c) (ch_heldSlot
    c) (ch_pendingSlot c) (ch_pendingReady c) (ch_pendingPts c) (ch_pendingArrival c)
    (ch_heldArrival c) (ch_sequence c) (ch_link c) (ch_slotSubmitValue c) (ch_consumedValue c).
Definition set_peer (c : flChannel) (v : Channel) : flChannel :=
  mkChannel (ch_isConsumer c) (ch_externalPool c) (ch_delegated c) (ch_interruptFd c) (ch_name c)
    (ch_info c) (ch_flags c) (ch_peerFeatures c) (ch_bufferReferences c) (ch_slotMetadata c)
    (ch_pendingMetadata c) (ch_heldMetadata c) (ch_images c) (ch_sync c) (ch_submittingSlot c)
    (ch_submittingValue c) (ch_readyValue c) v (ch_stop c) (ch_peerGone c) (ch_hasPending c)
    (ch_readers c) (ch_leaseCompletions c) (ch_frameHeld c) (ch_heldReady c) (ch_retiredValue c)
    (ch_heldSlot c) (ch_pendingSlot c) (ch_pendingReady c) (ch_pendingPts c) (ch_pendingArrival c)
    (ch_heldArrival c) (ch_sequence c) (ch_link c) (ch_slotSubmitValue c) (ch_consumedValue c).
Definition set_stop (c : flChannel) (v : bool) : flChannel :=
  mkChannel (ch_isConsumer c) (ch_externalPool c) (ch_delegated c) (ch_interruptFd c) (ch_name c)
    (ch_info c) (ch_flags c) (ch_peerFeatures c) (ch_bufferReferences c) (ch_slotMetadata c)
    (ch_pendingMetadata c) (ch_heldMetadata c) (ch_images c) (ch_sync c) (ch_submittingSlot c)
    (ch_submittingValue c) (ch_readyValue c) (ch_peer c) v (ch_peerGone c) (ch_hasPending c)
    (ch_readers c) (ch_leaseCompletions c) (ch_frameHeld c) (ch_heldReady c) (ch_retiredValue c)
    (ch_heldSlot c) (ch_pendingSlot c) (ch_pendingReady c) (ch_pendingPts c) (ch_pendingArrival c)
    (ch_heldArrival c) (ch_sequence c) (ch_link c) (ch_slotSubmitValue c) (ch_consumedValue c).
Definition set_peerGone (c : flChannel) (v : bool) : flChannel :=
  mkChannel (ch_isConsumer c) (ch_externalPool c) (ch_delegated c) (ch_interruptFd c) (ch_name c)
    (ch_info c) (ch_flags c) (ch_peerFeatures c) (ch_bufferReferences c) (ch_slotMetadata c)
    (ch_pendingMetadata c) (ch_heldMetadata c) (ch_images c) (ch_sync c) (ch_submittingSlot c)
    (ch_submittingValue c) (ch_readyValue c) (ch_peer c) (ch_stop c) v (ch_hasPending c)
    (ch_readers c) (ch_leaseCompletions c) (ch_frameHeld c) (ch_heldReady c) (ch_retiredValue c)
    (ch_heldSlot c) (ch_pendingSlot c) (ch_pendingReady c) (ch_pendingPts c) (ch_pendingArrival c)
    (ch_heldArrival c) (ch_sequence c) (ch_link c) (ch_slotSubmitValue c) (ch_consumedValue c).
Definition set_hasPending (c : flChannel) (v : bool) : flChannel :=
  mkChannel (ch_isConsumer c) (ch_externalPool c) (ch_delegated c) (ch_interruptFd c) (ch_name c)
    (ch_info c) (ch_flags c) (ch_peerFeatures c) (ch_bufferReferences c) (ch_slotMetadata c)
    (ch_pendingMetadata c) (ch_heldMetadata c) (ch_images c) (ch_sync c) (ch_submittingSlot c)
    (ch_submittingValue c) (ch_readyValue c) (ch_peer c) (ch_stop c) (ch_peerGone c) v (ch_readers
    c) (ch_leaseCompletions c) (ch_frameHeld c) (ch_heldReady c) (ch_retiredValue c) (ch_heldSlot
    c) (ch_pendingSlot c) (ch_pendingReady c) (ch_pendingPts c) (ch_pendingArrival c)
    (ch_heldArrival c) (ch_sequence c) (ch_link c) (ch_slotSubmitValue c) (ch_consumedValue c).
Definition set_readers (c : flChannel) (v : Ledger.ReadLedger) : flChannel :=
  mkChannel (ch_isConsumer c) (ch_externalPool c) (ch_delegated c) (ch_interruptFd c) (ch_name c)
    (ch_info c) (ch_flags c) (ch_peerFeatures c) (ch_bufferReferences c) (ch_slotMetadata c)
    (ch_pendingMetadata c) (ch_heldMetadata c) (ch_images c) (ch_sync c) (ch_submittingSlot c)
    (ch_submittingValue c) (ch_readyValue c) (ch_peer c) (ch_stop c) (ch_peerGone c)
    (ch_hasPending c) v (ch_leaseCompletions c) (ch_frameHeld c) (ch_heldReady c) (ch_retiredValue
    c) (ch_heldSlot c) (ch_pendingSlot c) (ch_pendingReady c) (ch_pendingPts c) (ch_pendingArrival
    c) (ch_heldArrival c) (ch_sequence c) (ch_link c) (ch_slotSubmitValue c) (ch_consumedValue c).
Definition set_leaseCompletions (c : flChannel) (v : list (Z * Z)) : flChannel :=
  mkChannel (ch_isConsumer c) (ch_externalPool c) (ch_delegated c) (ch_interruptFd c) (ch_name c)
    (ch_info c) (ch_flags c) (ch_peerFeatures c) (ch_bufferReferences c) (ch_slotMetadata c)
    (ch_pendingMetadata c) (ch_heldMetadata c) (ch_images c) (ch_sync c) (ch_submittingSlot c)
    (ch_submittingValue c) (ch_readyValue c) (ch_peer c) (ch_stop c) (ch_peerGone c)
    (ch_hasPending c) (ch_readers c) v (ch_frameHeld c) (ch_heldReady c) (ch_retiredValue c)
    (ch_heldSlot c) (ch_pendingSlot c) (ch_pendingReady c) (ch_pendingPts c) (ch_pendingArrival c)
    (ch_heldArrival c) (ch_sequence c) (ch_link c) (ch_slotSubmitValue c) (ch_consumedValue c).
Definition set_frameHeld (c : flChannel) (v : bool) : flChannel :=
  mkChannel (ch_isConsumer c) (ch_externalPool c) (ch_delegated c) (ch_interruptFd c) (ch_name c)
    (ch_info c) (ch_flags c) (ch_peerFeatures c) (ch_bufferReferences c) (ch_slotMetadata c)
    (ch_pendingMetadata c) (ch_heldMetadata c) (ch_images c) (ch_sync c) (ch_submittingSlot c)
    (ch_submittingValue c) (ch_readyValue c) (ch_peer c) (ch_stop c) (ch_peerGone c)
    (ch_hasPending c) (ch_readers c) (ch_leaseCompletions c) v (ch_heldReady c) (ch_retiredValue
    c) (ch_heldSlot c) (ch_pendingSlot c) (ch_pendingReady c) (ch_pendingPts c) (ch_pendingArrival
    c) (ch_heldArrival c) (ch_sequence c) (ch_link c) (ch_slotSubmitValue c) (ch_consumedValue c).
Definition set_heldReady (c : flChannel) (v : Z) : flChannel :=
  mkChannel (ch_isConsumer c) (ch_externalPool c) (ch_delegated c) (ch_interruptFd c) (ch_name c)
    (ch_info c) (ch_flags c) (ch_peerFeatures c) (ch_bufferReferences c) (ch_slotMetadata c)
    (ch_pendingMetadata c) (ch_heldMetadata c) (ch_images c) (ch_sync c) (ch_submittingSlot c)
    (ch_submittingValue c) (ch_readyValue c) (ch_peer c) (ch_stop c) (ch_peerGone c)
    (ch_hasPending c) (ch_readers c) (ch_leaseCompletions c) (ch_frameHeld c) v (ch_retiredValue
    c) (ch_heldSlot c) (ch_pendingSlot c) (ch_pendingReady c) (ch_pendingPts c) (ch_pendingArrival
    c) (ch_heldArrival c) (ch_sequence c) (ch_link c) (ch_slotSubmitValue c) (ch_consumedValue c).
Definition set_retiredValue (c : flChannel) (v : Z) : flChannel :=
  mkChannel (ch_isConsumer c) (ch_externalPool c) (ch_delegated c) (ch_interruptFd c) (ch_name c)
    (ch_info c) (ch_flags c) (ch_peerFeatures c) (ch_bufferReferences c) (ch_slotMetadata c)
    (ch_pendingMetadata c) (ch_heldMetadata c) (ch_images c) (ch_sync c) (ch_submittingSlot c)
    (ch_submittingValue c) (ch_readyValue c) (ch_peer c) (ch_stop c) (ch_peerGone c)
    (ch_hasPending c) (ch_readers c) (ch_leaseCompletions c) (ch_frameHeld c) (ch_heldReady c) v
    (ch_heldSlot c) (ch_pendingSlot c) (ch_pendingReady c) (ch_pendingPts c) (ch_pendingArrival c)
    (ch_heldArrival c) (ch_sequence c) (ch_link c) (ch_slotSubmitValue c) (ch_consumedValue c).
Definition set_heldSlot (c : flChannel) (v : Z) : flChannel :=
  mkChannel (ch_isConsumer c) (ch_externalPool c) (ch_delegated c) (ch_interruptFd c) (ch_name c)
    (ch_info c) (ch_flags c) (ch_peerFeatures c) (ch_bufferReferences c) (ch_slotMetadata c)
    (ch_pendingMetadata c) (ch_heldMetadata c) (ch_images c) (ch_sync c) (ch_submittingSlot c)
    (ch_submittingValue c) (ch_readyValue c) (ch_peer c) (ch_stop c) (ch_peerGone c)
    (ch_hasPending c) (ch_readers c) (ch_leaseCompletions c) (ch_frameHeld c) (ch_heldReady c)
    (ch_retiredValue c) v (ch_pendingSlot c) (ch_pendingReady c) (ch_pendingPts c)
    (ch_pendingArrival c) (ch_heldArrival c) (ch_sequence c) (ch_link c) (ch_slotSubmitValue c)
    (ch_consumedValue c).
Definition set_pendingSlot (c : flChannel) (v : Z) : flChannel :=
  mkChannel (ch_isConsumer c) (ch_externalPool c) (ch_delegated c) (ch_interruptFd c) (ch_name c)
    (ch_info c) (ch_flags c) (ch_peerFeatures c) (ch_bufferReferences c) (ch_slotMetadata c)
    (ch_pendingMetadata c) (ch_heldMetadata c) (ch_images c) (ch_sync c) (ch_submittingSlot c)
    (ch_submittingValue c) (ch_readyValue c) (ch_peer c) (ch_stop c) (ch_peerGone c)
    (ch_hasPending c) (ch_readers c) (ch_leaseCompletions c) (ch_frameHeld c) (ch_heldReady c)
    (ch_retiredValue c) (ch_heldSlot c) v (ch_pendingReady c) (ch_pendingPts c) (ch_pendingArrival
    c) (ch_heldArrival c) (ch_sequence c) (ch_link c) (ch_slotSubmitValue c) (ch_consumedValue c).
Definition set_pendingReady (c : flChannel) (v : Z) : flChannel :=
  mkChannel (ch_isConsumer c) (ch_externalPool c) (ch_delegated c) (ch_interruptFd c) (ch_name c)
    (ch_info c) (ch_flags c) (ch_peerFeatures c) (ch_bufferReferences c) (ch_slotMetadata c)
    (ch_pendingMetadata c) (ch_heldMetadata c) (ch_images c) (ch_sync c) (ch_submittingSlot c)
    (ch_submittingValue c) (ch_readyValue c) (ch_peer c) (ch_stop c) (ch_peerGone c)
    (ch_hasPending c) (ch_readers c) (ch_leaseCompletions c) (ch_frameHeld c) (ch_heldReady c)
    (ch_retiredValue c) (ch_heldSlot c) (ch_pendingSlot c) v (ch_pendingPts c) (ch_pendingArrival
    c) (ch_heldArrival c) (ch_sequence c) (ch_link c) (ch_slotSubmitValue c) (ch_consumedValue c).
Definition set_pendingPts (c : flChannel) (v : Z) : flChannel :=
  mkChannel (ch_isConsumer c) (ch_externalPool c) (ch_delegated c) (ch_interruptFd c) (ch_name c)
    (ch_info c) (ch_flags c) (ch_peerFeatures c) (ch_bufferReferences c) (ch_slotMetadata c)
    (ch_pendingMetadata c) (ch_heldMetadata c) (ch_images c) (ch_sync c) (ch_submittingSlot c)
    (ch_submittingValue c) (ch_readyValue c) (ch_peer c) (ch_stop c) (ch_peerGone c)
    (ch_hasPending c) (ch_readers c) (ch_leaseCompletions c) (ch_frameHeld c) (ch_heldReady c)
    (ch_retiredValue c) (ch_heldSlot c) (ch_pendingSlot c) (ch_pendingReady c) v
    (ch_pendingArrival c) (ch_heldArrival c) (ch_sequence c) (ch_link c) (ch_slotSubmitValue c)
    (ch_consumedValue c).
Definition set_pendingArrival (c : flChannel) (v : Z) : flChannel :=
  mkChannel (ch_isConsumer c) (ch_externalPool c) (ch_delegated c) (ch_interruptFd c) (ch_name c)
    (ch_info c) (ch_flags c) (ch_peerFeatures c) (ch_bufferReferences c) (ch_slotMetadata c)
    (ch_pendingMetadata c) (ch_heldMetadata c) (ch_images c) (ch_sync c) (ch_submittingSlot c)
    (ch_submittingValue c) (ch_readyValue c) (ch_peer c) (ch_stop c) (ch_peerGone c)
    (ch_hasPending c) (ch_readers c) (ch_leaseCompletions c) (ch_frameHeld c) (ch_heldReady c)
    (ch_retiredValue c) (ch_heldSlot c) (ch_pendingSlot c) (ch_pendingReady c) (ch_pendingPts c) v
    (ch_heldArrival c) (ch_sequence c) (ch_link c) (ch_slotSubmitValue c) (ch_consumedValue c).
Definition set_heldArrival (c : flChannel) (v : Z) : flChannel :=
  mkChannel (ch_isConsumer c) (ch_externalPool c) (ch_delegated c) (ch_interruptFd c) (ch_name c)
    (ch_info c) (ch_flags c) (ch_peerFeatures c) (ch_bufferReferences c) (ch_slotMetadata c)
    (ch_pendingMetadata c) (ch_heldMetadata c) (ch_images c) (ch_sync c) (ch_submittingSlot c)
    (ch_submittingValue c) (ch_readyValue c) (ch_peer c) (ch_stop c) (ch_peerGone c)
    (ch_hasPending c) (ch_readers c) (ch_leaseCompletions c) (ch_frameHeld c) (ch_heldReady c)
    (ch_retiredValue c) (ch_heldSlot c) (ch_pendingSlot c) (ch_pendingReady c) (ch_pendingPts c)
    (ch_pendingArrival c) v (ch_sequence c) (ch_link c) (ch_slotSubmitValue c) (ch_consumedValue
    c).
Definition set_sequence (c : flChannel) (v : Z) : flChannel :=
  mkChannel (ch_isConsumer c) (ch_externalPool c) (ch_delegated c) (ch_interruptFd c) (ch_name c)
    (ch_info c) (ch_flags c) (ch_peerFeatures c) (ch_bufferReferences c) (ch_slotMetadata c)
    (ch_pendingMetadata c) (ch_heldMetadata c) (ch_images c) (ch_sync c) (ch_submittingSlot c)
    (ch_submittingValue c) (ch_readyValue c) (ch_peer c) (ch_stop c) (ch_peerGone c)
    (ch_hasPending c) (ch_readers c) (ch_leaseCompletions c) (ch_frameHeld c) (ch_heldReady c)
    (ch_retiredValue c) (ch_heldSlot c) (ch_pendingSlot c) (ch_pendingReady c) (ch_pendingPts c)
    (ch_pendingArrival c) (ch_heldArrival c) v (ch_link c) (ch_slotSubmitValue c)
    (ch_consumedValue c).
Definition set_link (c : flChannel) (v : Channel) : flChannel :=
  mkChannel (ch_isConsumer c) (ch_externalPool c) (ch_delegated c) (ch_interruptFd c) (ch_name c)
    (ch_info c) (ch_flags c) (ch_peerFeatures c) (ch_bufferReferences c) (ch_slotMetadata c)
    (ch_pendingMetadata c) (ch_heldMetadata c) (ch_images c) (ch_sync c) (ch_submittingSlot c)
    (ch_submittingValue c) (ch_readyValue c) (ch_peer c) (ch_stop c) (ch_peerGone c)
    (ch_hasPending c) (ch_readers c) (ch_leaseCompletions c) (ch_frameHeld c) (ch_heldReady c)
    (ch_retiredValue c) (ch_heldSlot c) (ch_pendingSlot c) (ch_pendingReady c) (ch_pendingPts c)
    (ch_pendingArrival c) (ch_heldArrival c) (ch_sequence c) v (ch_slotSubmitValue c)
    (ch_consumedValue c).
Definition set_slotSubmitValue (c : flChannel) (v : list Z) : flChannel :=
  mkChannel (ch_isConsumer c) (ch_externalPool c) (ch_delegated c) (ch_interruptFd c) (ch_name c)
    (ch_info c) (ch_flags c) (ch_peerFeatures c) (ch_bufferReferences c) (ch_slotMetadata c)
    (ch_pendingMetadata c) (ch_heldMetadata c) (ch_images c) (ch_sync c) (ch_submittingSlot c)
    (ch_submittingValue c) (ch_readyValue c) (ch_peer c) (ch_stop c) (ch_peerGone c)
    (ch_hasPending c) (ch_readers c) (ch_leaseCompletions c) (ch_frameHeld c) (ch_heldReady c)
    (ch_retiredValue c) (ch_heldSlot c) (ch_pendingSlot c) (ch_pendingReady c) (ch_pendingPts c)
    (ch_pendingArrival c) (ch_heldArrival c) (ch_sequence c) (ch_link c) v (ch_consumedValue c).
Definition set_consumedValue (c : flChannel) (v : Z) : flChannel :=
  mkChannel (ch_isConsumer c) (ch_externalPool c) (ch_delegated c) (ch_interruptFd c) (ch_name c)
    (ch_info c) (ch_flags c) (ch_peerFeatures c) (ch_bufferReferences c) (ch_slotMetadata c)
    (ch_pendingMetadata c) (ch_heldMetadata c) (ch_images c) (ch_sync c) (ch_submittingSlot c)
    (ch_submittingValue c) (ch_readyValue c) (ch_peer c) (ch_stop c) (ch_peerGone c)
    (ch_hasPending c) (ch_readers c) (ch_leaseCompletions c) (ch_frameHeld c) (ch_heldReady c)
    (ch_retiredValue c) (ch_heldSlot c) (ch_pendingSlot c) (ch_pendingReady c) (ch_pendingPts c)
    (ch_pendingArrival c) (ch_heldArrival c) (ch_sequence c) (ch_link c) (ch_slotSubmitValue c) v.

Definition set_generation (i : flChannelInfo) (g : Z) : flChannelInfo :=
  mkChannelInfo (info_version i) (info_width i) (info_height i) (info_format i) (info_poolSize i) g.

(** [++ch->info.generation] *)
Definition bump_generation (c : flChannel) : flChannel :=
  set_info c (set_generation (ch_info c) (wrap64 (info_generation (ch_info c) + 1))).

Definition set_size (i : flChannelInfo) (w h : Z) : flChannelInfo :=
  mkChannelInfo (info_version i) w h (info_format i) (info_poolSize i) (info_generation i).

(** [ch->images.size()], and [ch->images[slot]], the pointer; null out of range *)
Definition imageCount (c : flChannel) : Z := Z.of_nat (length (ch_images c)).
Definition imageAddr (c : flChannel) (slot : Z) : Z :=
  match ch_images c !! Z.to_nat slot with Some (a, _) => a | None => 0 end.

(** [ch->slotSubmitValue[slot]]; zero out of range *)
Definition submitAt (c : flChannel) (slot : Z) : Z := nth (Z.to_nat slot) (ch_slotSubmitValue c) 0.
Definition set_submitAt (c : flChannel) (slot v : Z) : flChannel :=
  set_slotSubmitValue c (<[Z.to_nat slot := v]> (ch_slotSubmitValue c)).

(** [ch->slotMetadata[slot]] *)
Definition metadataAt (c : flChannel) (slot : Z) : flFrameMetadata :=
  nth (Z.to_nat slot) (ch_slotMetadata c) zeroMetadata.
Definition set_metadataAt (c : flChannel) (slot : Z) (m : flFrameMetadata) : flChannel :=
  set_slotMetadata c (<[Z.to_nat slot := m]> (ch_slotMetadata c)).

Section Shared.
Context `{K : Kernel}.

(** [ch->sync.advance(ch->retiredValue)] and its producer-side twin. *)
Definition advanceRetired (c : flChannel) : M flChannel :=
  let! (s, v) := advance (ch_sync c) (ch_retiredValue c) in
  ret (set_retiredValue (set_sync c s) v).
Definition advanceConsumed (c : flChannel) : M flChannel :=
  let! (s, v) := advance (ch_sync c) (ch_consumedValue c) in
  ret (set_consumedValue (set_sync c s) v).

(** [ch->sync.clear()] *)
Definition clearSync (c : flChannel) : M flChannel :=
  let! s := sync_clear (ch_sync c) in ret (set_sync c s).

(** Send and receive on [ch->link] / [ch->peer], keeping its new connection state. *)
Definition sendLink (c : flChannel) (type : Z) (payload fds : list Z) : M (bool * flChannel) :=
  let! (ok, l) := sendWithFds (ch_link c) type payload fds in ret (ok, set_link c l).
Definition sendPeer (c : flChannel) (type : Z) (payload fds : list Z) : M (bool * flChannel) :=
  let! (ok, l) := sendWithFds (ch_peer c) type payload fds in ret (ok, set_peer c l).
Definition recvLink (c : flChannel) : M (option Message * flChannel) :=
  let! (m, l) := recv (ch_link c) in ret (m, set_link c l).
Definition recvPeer (c : flChannel) : M (option Message * flChannel) :=
  let! (m, l) := recv (ch_peer c) in ret (m, set_peer c l).

(** [delete ch]: the members that own descriptors. *)
Definition deleteChannel (c : flChannel) : M unit :=
  let! _ := chan_close (ch_link c) in
  mfor (rev (map snd (ch_leaseCompletions c))) close_valid ;;
  let! _ := chan_close (ch_peer c) in
  let! _ := sync_clear (ch_sync c) in
  ret tt.
End Shared.
