(* ===== verification/AndroidProducer.v ===== *)
(** * The producer side of the Android backend (src/framelink_android.cpp)

    Release messages, acquiring and publishing buffers, metadata and references
    of reserved buffers, importing the consumer's ring handle by handle, attaching,
    and asking for another geometry.  One thread reads the socket: handles that
    follow a ring description arrive on it too.

    Fuel: the drain of [drainProducerMessages] and the reply loop of
    [flRequestGeometry] handle one message per unit, the acquisition loop one 2 ms
    round.  When it is used up the answer is [None]. *)
From S2P Require Import Prelude Api Kernel Wire SyncFd Ipc AndroidImage AndroidState.
From S2P Require BufferRefs.

Section Producer.
Context `{K : Kernel, A : Ahb}.
Implicit Types (c : flChannel).

(** ** Release messages *)

Definition applyRelease c (msg : Message) : M flChannel :=
  return_if! negb (mg_type msg =? MsgType.FrameReleased) with ret c ;;
  match as_ FrameReadyMsg (mg_payload msg) with
  | None => ret c
  | Some fr =>
    let fd := match mg_fds msg with [] => -1 | fd :: _ => fd end in
    let c := set_sync c (push_release (ch_sync c) (fm_readyValue fr) fd) in
    mfor (tail (mg_fds msg)) close ;;
    advanceConsumed c
  end.

(** [for (;;)]: [None] is still draining after [fuel] messages. *)
Fixpoint drainProducerMessages (fuel : nat) c : M (option flChannel) :=
  match fuel with
  | O => ret None
  | S fuel' =>
    let! (result, revents) := poll (pollFd (ch_link c)) in
    return_if! (result <=? 0)
            || negb (truthy (Z.land revents (Z.lor POLLIN (Z.lor POLLHUP POLLERR)))) with ret (Some c) ;;
    let! (msg, c) := recvLink c in
    match msg with
    | None => ret (Some c)
    | Some msg => let! c := applyRelease c msg in drainProducerMessages fuel' c
    end
  end.

(** ** Acquiring *)

(** [ch->slotSubmitValue[i] <= ch->consumedValue && !ch->bufferReferences.busy(i)] *)
Definition slotFree c (i : nat) : bool :=
  (submitAt c (Z.of_nat i) <=? ch_consumedValue c)
  && negb (BufferRefs.busy (ch_bufferReferences c) (Z.of_nat i)).

(** Reserve slot [i]. *)
Definition reserve c (i : nat) : flBuffer * flChannel :=
  (mkBuffer (Z.of_nat i) (imageAddr c (Z.of_nat i)),
   set_metadataAt (set_submitAt c (Z.of_nat i) UINT64_MAX) (Z.of_nat i) zeroMetadata).

(** One round of the acquisition loop after the drain: the scan over the slots. *)
Definition acquireScan c : option (flBuffer * flChannel) :=
  match find_index (slotFree c) (seq 0 (length (ch_images c))) with
  | Some i => Some (reserve c i)
  | None => None
  end.

(** The outer [None]: the drain did not come to an end. *)
Definition acquireRound (drain : nat) c : M (option (option flResult * option flBuffer * flChannel)) :=
  let! drained := drainProducerMessages drain c in
  match drained with
  | None => ret None
  | Some c =>
    return_if! negb (connected (ch_link c)) with ret (Some (Some FL_DISCONNECTED, None, c)) ;;
    let! c := advanceConsumed c in
    match acquireScan c with
    | Some (buf, c) => ret (Some (Some FL_OK, Some buf, c))
    | None => ret (Some (None, None, c))
    end
  end.

Fixpoint acquireLoop (fuel drain : nat) (timeoutMs waited : Z) c
  : M (option (flResult * option flBuffer * flChannel)) :=
  match fuel with
  | O => ret None
  | S fuel' =>
    let! round := acquireRound drain c in
    match round with
    | None => ret None
    | Some (Some r, buf, c) => ret (Some (r, buf, c))
    | Some (None, buf, c) =>
      return_if! timeoutMs <=? waited with ret (Some (FL_TIMEOUT, None, c)) ;;
      usleep 2000 ;;
      acquireLoop fuel' drain timeoutMs (wrap32 (waited + 2)) c
    end
  end.

Definition acquireFuel (timeoutMs : Z) : nat := S (S (Z.to_nat (timeoutMs / 2))).

(** [None]: it has not come back, because a drain has not. *)
Definition flAcquireBuffer (drain : nat) c (timeoutMs : Z)
  : M (option (flResult * option flBuffer * flChannel)) :=
  return_if! ch_isConsumer c with ret (Some (FL_INVALID, None, c)) ;;
  return_if! negb (connected (ch_link c)) with ret (Some (FL_DISCONNECTED, None, c)) ;;
  acquireLoop (acquireFuel timeoutMs) drain timeoutMs 0 c.

(** [buf->slot < ch->images.size() && buf->image == ch->images[buf->slot]] *)
Definition ownBuffer c (buf : flBuffer) : bool :=
  (buf_slot buf <? imageCount c) && (buf_image buf =? imageAddr c (buf_slot buf)).

(** [flImageUnmap(buf->image)] *)
Definition unmapSlot c (slot : Z) : M flChannel :=
  match ch_images c !! Z.to_nat slot with
  | None => ret c
  | Some (a, img) =>
    let! img := unmapImage img in
    ret (set_images c (<[Z.to_nat slot := (a, img)]> (ch_images c)))
  end.

Definition flCancelBuffer c (buf : option flBuffer) : M (flResult * flChannel) :=
  match buf with
  | None => ret (FL_INVALID, c)
  | Some buf =>
    return_if! ch_isConsumer c || negb (ownBuffer c buf)
            || negb (submitAt c (buf_slot buf) =? UINT64_MAX) with ret (FL_INVALID, c) ;;
    return_if! truthy (ch_submittingValue c) && (ch_submittingSlot c =? buf_slot buf)
      with ret (FL_BUSY, c) ;;
    let! c := unmapSlot c (buf_slot buf) in
    ret (FL_OK, set_submitAt c (buf_slot buf) 0)
  end.

(** ** Publishing *)

(** The result and [*signalValue]. *)
Definition flBeginSubmit c (buf : option flBuffer) (signalValue : Z) : flResult * Z * flChannel :=
  match buf with
  | None => (FL_INVALID, signalValue, c)
  | Some buf =>
    return_if ch_isConsumer c || negb (ownBuffer c buf)
           || negb (submitAt c (buf_slot buf) =? UINT64_MAX)
      with (FL_INVALID, signalValue, c) ;;
    return_if negb (connected (ch_link c)) with (FL_DISCONNECTED, signalValue, c) ;;
    return_if truthy (ch_submittingValue c) with (FL_BUSY, signalValue, c) ;;
    return_if truthy (Z.land (ch_peerFeatures c) (Z.shiftl FrameMetadataFeature 16))
           && negb (truthy (md_version (metadataAt c (buf_slot buf))))
      with (FL_FORMAT_UNSUPPORTED, signalValue, c) ;;
    return_if UINT64_MAX - 1 <=? ch_readyValue c with (FL_INVALID, signalValue, c) ;;
    let v := ch_readyValue c + 1 in
    (FL_OK, v,
     set_submittingValue (set_readyValue (set_submittingSlot c (buf_slot buf)) v) v)
  end.

(** Record the submission and announce the frame. *)
Definition publish c (slot value pts fence : Z) : M (flResult * flChannel) :=
  let c := set_submitAt c slot value in
  let c := set_submittingSlot (set_submittingValue c 0) UINT32_MAX in
  let fr := mkFrameReady slot 0 value pts in
  let! (ok, l) := sendFrame (ch_link c) fr (metadataAt c slot) fence in
  ret (if (ok : bool) then FL_OK else FL_DISCONNECTED, set_link c l).

Definition flEndSubmit c (buf : option flBuffer) (signalValue ptsNs : Z) : M (flResult * flChannel) :=
  match buf with
  | None => ret (FL_INVALID, c)
  | Some buf =>
    return_if! ch_isConsumer c || negb (ownBuffer c buf)
            || negb (submitAt c (buf_slot buf) =? UINT64_MAX)
            || negb (truthy signalValue) || negb (signalValue =? ch_submittingValue c)
            || negb (buf_slot buf =? ch_submittingSlot c) with ret (FL_INVALID, c) ;;
    return_if! negb (connected (ch_link c)) with ret (FL_DISCONNECTED, c) ;;
    let! c := unmapSlot c (buf_slot buf) in
    publish c (buf_slot buf) signalValue ptsNs (-1)
  end.

Definition flSubmit c (buf : option flBuffer) (ptsNs : Z) : M (flResult * flChannel) :=
  let '(r, v, c) := flBeginSubmit c buf 0 in
  if bool_decide (r = FL_OK) then flEndSubmit c buf v ptsNs else ret (r, c).

Definition flSubmitSyncFd c (buffer : option flBuffer) (fd pts : Z) : M (flResult * flChannel) :=
  match buffer with
  | None => ret (FL_INVALID, c)
  | Some buf =>
    return_if! ch_isConsumer c || negb (ownBuffer c buf) with ret (FL_INVALID, c) ;;
    return_if! negb (connected (ch_link c)) with ret (FL_DISCONNECTED, c) ;;
    let '(begun, value, c) := flBeginSubmit c (Some buf) 0 in
    return_if! negb (bool_decide (begun = FL_OK)) with ret (begun, c) ;;
    let! c := unmapSlot c (buf_slot buf) in
    publish c (buf_slot buf) value pts fd
  end.

(** ** Metadata and references of a reserved buffer *)

Definition metadataReservation c (buffer : flBuffer) : bool :=
  ownBuffer c buffer && (submitAt c (buf_slot buffer) =? UINT64_MAX).

Definition flSetFrameMetadata c (buffer : option flBuffer) (metadata : option flFrameMetadata)
  : flResult * flChannel :=
  match buffer, metadata with
  | Some buffer, Some metadata =>
    return_if ch_isConsumer c || negb (metadataReservation c buffer) with (FL_INVALID, c) ;;
    return_if truthy (ch_submittingValue c) with (FL_BUSY, c) ;;
    return_if negb (truthy (Z.land (ch_peerFeatures c) FrameMetadataFeature))
      with (FL_FORMAT_UNSUPPORTED, c) ;;
    let result := validateMetadata metadata in
    return_if negb (bool_decide (result = FL_OK)) with (result, c) ;;
    (FL_OK, set_metadataAt c (buf_slot buffer) metadata)
  | _, _ => (FL_INVALID, c)
  end.

(** [next] is the process-wide reference counter. *)
Definition flRetainBufferReference c (buffer : option flBuffer) (next reference : Z)
  : flResult * Z * flChannel * Z :=
  match buffer with
  | Some buffer =>
    return_if ch_isConsumer c || negb (metadataReservation c buffer)
      with (FL_INVALID, reference, c, next) ;;
    let '(r, t, refs, next) :=
      BufferRefs.retain (ch_bufferReferences c) (buf_slot buffer) next reference in
    (r, t, set_bufferReferences c refs, next)
  | None => (FL_INVALID, reference, c, next)
  end.

Definition flReleaseBufferReference c (reference : Z) : flResult * flChannel :=
  return_if ch_isConsumer c with (FL_INVALID, c) ;;
  let '(r, refs) := BufferRefs.release (ch_bufferReferences c) reference in
  (r, set_bufferReferences c refs).

(** ** Importing a ring *)

(** [AHardwareBuffer_recvHandleFromUnixSocket]; null if it failed. *)
Definition recvHandle (sock : Z) : M Z := ahb_created (ask (fun t => ahb_recvHandle t sock)).

(** A refused resize: the duplicated handles of the current ring are drained. *)
Definition drainDuplicates c (rd : RingDescMsg) : M flResult :=
  let! r := mloop (seq 0 (Z.to_nat (rd_poolSize rd))) (fun _ (_ : unit) =>
    let! duplicate := recvHandle (pollFd (ch_link c)) in
    return_if! negb (truthy duplicate) with ret (inr FL_DISCONNECTED) ;;
    ahb_release duplicate ;; ret (inl tt)) tt in
  ret (match r with inl _ => FL_OK | inr r => r end).

(** The buffer is the one slot [i] of the description promises. *)
Definition nativeMatches (rd : RingDescMsg) (i : nat) (native : AhbDesc) : bool :=
  (ad_width native =? rd_width rd) && (ad_height native =? rd_height rd) && (ad_layers native =? 1)
  && (ad_format native =? ahbFormatFor (rd_format rd))
  && (nth i (rd_stride rd) 0
      =? (if rd_format rd =? FL_FORMAT_NV12 then rd_width rd else ad_stride native * 4)).

(** One iteration of [importRing]; [inr] is its failing return. *)
Definition importOne (rd : RingDescMsg) (i : nat) c : M (flChannel + flResult * flChannel) :=
  let! a := new_object in
  let! ahb := recvHandle (pollFd (ch_link c)) in
  return_if! negb (truthy ahb) with (effect (EFree a) ;; ret (inr (FL_DISCONNECTED, c))) ;;
  let img := ahbImage ahb (rd_format rd) (nth i (rd_stride rd) 0) (rd_width rd) (rd_height rd) in
  return_if! negb (nativeMatches rd i (ahb_describe ahb))
    with (freeImage a (ahbImage ahb FL_FORMAT_RGBA8 0 0 0) ;; ret (inr (FL_INVALID, c))) ;;
  ret (inl (set_images c (ch_images c ++ [(a, img)]))).

(** [ch->slotSubmitValue.assign(...)] and what follows it. *)
Definition adoptDescription c (rd : RingDescMsg) : flChannel :=
  let c := set_slotSubmitValue c (replicate (Z.to_nat (rd_poolSize rd)) 0) in
  let c := set_readyValue (set_consumedValue c 0) 0 in
  set_info c (mkChannelInfo (info_version (ch_info c)) (rd_width rd) (rd_height rd)
                (rd_format rd) (rd_poolSize rd) (rd_generation rd)).

Definition importRing c (rd : option RingDescMsg) : M (flResult * flChannel) :=
  match rd with
  | None => ret (FL_INVALID, c)
  | Some rd =>
    return_if! negb (truthy (rd_generation rd)) || negb (truthy (rd_poolSize rd))
            || (Z.of_nat kMaxPool <? rd_poolSize rd)
            || negb (truthy (rd_width rd)) || negb (truthy (rd_height rd))
            || (8192 <? rd_width rd) || (8192 <? rd_height rd)
            || negb (truthy (ahbFormatFor (rd_format rd)))
            || ((rd_format rd =? FL_FORMAT_NV12) && truthy (Z.land (Z.lor (rd_width rd) (rd_height rd)) 1))
      with ret (FL_INVALID, c) ;;
    return_if! (rd_generation rd =? info_generation (ch_info c)) && negb (Nat.eqb (length (ch_images c)) 0)
      with (let! r := drainDuplicates c rd in ret (r, c)) ;;
    let! c := clearSync c in
    freeImages (ch_images c) ;;
    let! r := mloop (seq 0 (Z.to_nat (rd_poolSize rd))) (importOne rd) (set_images c []) in
    match r with
    | inr e => ret e
    | inl c => ret (FL_OK, adoptDescription c rd)
    end
  end.

(** [rd] when the message is a ring description with a pool this side can hold. *)
Definition ringOf (msg : option Message) : option RingDescMsg :=
  match msg with
  | None => None
  | Some m =>
    match (if mg_type m =? MsgType.RingDesc then as_ RingDescMsg (mg_payload m) else None) with
    | None => None
    | Some rd => if (rd_poolSize rd =? 0) || (Z.of_nat kMaxPool <? rd_poolSize rd) then None else Some rd
    end
  end.

(** ** Asking for another geometry *)

(** The reply loop; [None] is still waiting. *)
Fixpoint geometryLoop (fuel : nat) c : M (option flResult * flChannel) :=
  match fuel with
  | O => ret (None, c)
  | S fuel' =>
    let! (reply, c) := recvLink c in
    match reply with
    | None => ret (Some FL_DISCONNECTED, c)
    | Some m =>
      return_if! mg_type m =? MsgType.FrameReleased
        with (let! c := applyRelease c m in geometryLoop fuel' c) ;;
      match ringOf reply with
      | None => ret (Some FL_DISCONNECTED, c)
      | Some rd => let! (r, c) := importRing c (Some rd) in ret (Some r, c)
      end
    end
  end.

Definition flRequestGeometry (fuel : nat) c (width height format : Z)
  : M (option flResult * flChannel) :=
  return_if! ch_isConsumer c || negb (truthy width) || negb (truthy height)
    with ret (Some FL_INVALID, c) ;;
  return_if! negb (connected (ch_link c)) with ret (Some FL_DISCONNECTED, c) ;;
  return_if! negb (BufferRefs.empty (ch_bufferReferences c)) with ret (Some FL_BUSY, c) ;;
  return_if! existsb (fun value => value =? UINT64_MAX) (ch_slotSubmitValue c)
    with ret (Some FL_BUSY, c) ;;
  let! (ok, c) := sendLink c MsgType.RequestGeometry (encode (mkGeometry width height format 0)) [] in
  return_if! negb ok with ret (Some FL_DISCONNECTED, c) ;;
  geometryLoop fuel c.
End Producer.
