(* ===== verification/AndroidRing.v ===== *)
(** * The consumer's ring on Android (src/framelink_android.cpp)

    Allocating the ring, adopting buffers the application allocated, handing the
    ring to a producer buffer by buffer, creating and closing a channel - over a
    listening socket or one the caller delegated - and the memory information
    query. *)
From S2P Require Import Prelude Api Kernel Wire SyncFd Ipc ResourceInfo AndroidImage AndroidState AndroidProducer.
From S2P Require Ledger.

Section Ring.
Context `{K : Kernel, A : Ahb}.
Implicit Types (c : flChannel).

(** ** Adopting external buffers *)

(** The checks of [adoptRing] on a described buffer. *)
Definition adoptable c (d : AhbDesc) : bool :=
  let i := ch_info c in
  (ad_width d =? info_width i) && (ad_height d =? info_height i) && (ad_layers d =? 1)
  && (ad_format d =? ahbFormatFor (info_format i))
  && (negb (has_flag (ch_flags c) FL_GPU_RENDER)
      || has_flag (ad_usage d) AHARDWAREBUFFER_USAGE_GPU_COLOR_OUTPUT)
  && (negb (has_flag (ch_flags c) FL_MAP_CPU)
      || (has_flag (ad_usage d) AHARDWAREBUFFER_USAGE_CPU_READ_MASK
          && has_flag (ad_usage d) AHARDWAREBUFFER_USAGE_CPU_WRITE_MASK)).

Definition strideOf (format : Z) (width : Z) (d : AhbDesc) : Z :=
  if format =? FL_FORMAT_NV12 then width else ad_stride d * 4.

(** One iteration: the channel with the image pushed, and the ids so far. *)
Definition adoptOne (getId : Z -> option Z) (image : Z) (st : flChannel * list Z)
  : M (flChannel * list Z + flResult * flChannel) :=
  let '(c, ids) := st in
  return_if! negb (truthy image) with ret (inr (FL_INVALID, c)) ;;
  match getId image with
  | None => ret (inr (FL_INVALID, c))
  | Some id =>
    return_if! existsb (fun previous => previous =? id) ids with ret (inr (FL_INVALID, c)) ;;
    let d := ahb_describe image in
    return_if! negb (adoptable c d) with ret (inr (FL_FORMAT_UNSUPPORTED, c)) ;;
    let! a := new_object in
    effect (EAhb image) ;;
    let format := info_format (ch_info c) in
    let img := ahbImage image format (strideOf format (ad_width d) d) (ad_width d) (ad_height d) in
    ret (inl (set_images c (ch_images c ++ [(a, img)]), ids ++ [id]))
  end.

Definition adoptRing c (images : list Z) (count : nat) : M (flResult * flChannel) :=
  match ahb_getId with
  | None => ret (FL_FORMAT_UNSUPPORTED, c)
  | Some getId =>
    let! r := mloop (map (fun i => nth i images 0) (seq 0 count)) (adoptOne getId) (c, []) in
    match r with
    | inr e => ret e
    | inl (c, _) => ret (FL_OK, bump_generation c)
    end
  end.

(** ** Allocating *)

Definition ringUsage (flags : Z) : Z :=
  let usage := AHARDWAREBUFFER_USAGE_GPU_SAMPLED_IMAGE in
  let usage := if has_flag flags FL_GPU_RENDER
               then Z.lor usage AHARDWAREBUFFER_USAGE_GPU_COLOR_OUTPUT else usage in
  if has_flag flags FL_MAP_CPU
  then Z.lor usage (Z.lor AHARDWAREBUFFER_USAGE_CPU_WRITE_OFTEN AHARDWAREBUFFER_USAGE_CPU_READ_RARELY)
  else usage.

Definition ringDesc (w h format flags : Z) : AhbDesc :=
  mkDesc w h 1 (ahbFormatFor format) (ringUsage flags) 0.

(** One slot of [reallocRing]: the image, or [None] after [delete img]. *)
Definition allocImage c (w h : Z) : M (option (Z * AhbImage)) :=
  let format := info_format (ch_info c) in
  let! a := new_object in
  let! ahb := ahb_created (ask (fun t => ahb_allocate t (ringDesc w h format (ch_flags c)))) in
  return_if! negb (truthy ahb) with (effect (EFree a) ;; ret None) ;;
  ret (Some (a, ahbImage ahb format (strideOf format w (ahb_describe ahb)) w h)).

Definition reallocRing c (w h : Z) (poolSize : nat) : M (bool * flChannel) :=
  let! r := mloop (seq 0 poolSize) (fun _ fresh =>
    let! img := allocImage c w h in
    match img with
    | None => freeImages fresh ;; ret (inr tt)
    | Some img => ret (inl (fresh ++ [img]))
    end) [] in
  match r with
  | inr _ => ret (false, c)
  | inl fresh =>
    freeImages (ch_images c) ;;
    let c := set_images c fresh in
    let c := bump_generation (set_info c (set_size (ch_info c) w h)) in
    let c := set_readers c (Ledger.resetEpoch (ch_readers c)) in
    let c := set_retiredValue (set_heldReady c 0) 0 in
    let! c := clearSync c in
    ret (true, c)
  end.

(** ** Handing over *)

Definition describeRing c : RingDescMsg :=
  let i := ch_info c in
  let strides := map (fun '(_, img) => ai_strideBytes img) (ch_images c) in
  mkRingDesc (info_width i) (info_height i) (info_format i) (imageCount c) (info_generation i)
    (replicate 16 0) 0 0 (strides ++ replicate (16 - length strides) 0) (replicate 16 0) 0 0 0
    (replicate 16 0) (replicate 64 0) (replicate 64 0).

(** [AHardwareBuffer_sendHandleToUnixSocket]; [inr] ends the loop. *)
Definition sendHandle (sock : Z) (img : Z * AhbImage) (_ : unit) : M (unit + unit) :=
  effect (EAhbSend (ai_ahb img.2) sock) ;;
  let! ok := ask (fun t => ahb_sendHandle t (ai_ahb img.2) sock) in
  ret (if (ok : bool) then inl tt else inr tt).

(** [handOverRing(ch, link)]: whether it was sent, and the link. *)
Definition handOverRing c (l : Channel) : M (bool * Channel) :=
  let! (ok, l) := send l MsgType.RingDesc (encode (describeRing c)) in
  return_if! negb ok with ret (false, l) ;;
  let! r := mloop (ch_images c) (sendHandle (pollFd l)) tt in
  ret (match r with inl _ => true | inr _ => false end, l).

(** ** Closing *)

(** [flClose(ch)]; joining the accept thread is a step of that thread. *)
Definition flClose c : M unit :=
  (if ch_isConsumer c
   then if ch_delegated c
        then if 0 <=? ch_interruptFd c then effect (EShutdown (ch_interruptFd c)) else ret tt
        else let! poke := connect (ch_name c) 100 in let! _ := chan_close poke in ret tt
   else if connected (ch_link c)
        then let! _ := send (ch_link c) MsgType.Bye [] in ret tt else ret tt) ;;
  close_valid (ch_interruptFd c) ;;
  freeImages (ch_images c) ;;
  deleteChannel c.
End Ring.
