(* ===== verification/AndroidConsumer.v ===== *)
(** * The consumer side of the Android backend (src/framelink_android.cpp, src/fl_read_api.inc)

    The accept thread - over a listener, or over the one socket the application
    delegated - and the calls of the application: acquiring and releasing frames,
    completion descriptors, read leases, metadata and age queries.  As on Linux a
    function that holds [pendingMutex] is one atomic step, [flAcquireFrame] sleeps
    between its rounds while the accept thread does [others], and [nextToken] is
    the process-wide lease counter. *)
From S2P Require Import Prelude Api Kernel Wire SyncFd Ipc AndroidImage AndroidState AndroidProducer AndroidRing.
From S2P Require Ledger.

Section Consumer.
Context `{K : Kernel, A : Ahb}.
Implicit Types (c : flChannel).

(** ** Attaching a producer *)

(** The peer's hello, or null. *)
Definition peerHello (peer : option Message) : option HelloMsg :=
  match peer with
  | Some m => if (mg_type m =? MsgType.Hello) && Nat.eqb (length (mg_payload m)) (sizeof HelloMsg)
              then as_ HelloMsg (mg_payload m) else None
  | None => None
  end.

(** The block under [pendingMutex] that gives the ring to a new producer. *)
Definition admitProducer c (l : Channel) (features : Z) : M (bool * flChannel * Channel) :=
  let! c := advanceRetired c in
  let! ready :=
    (if negb (Ledger.empty (ch_readers c)) || ch_frameHeld c || (ch_retiredValue c <? ch_heldReady c)
     then ret false else fenceReady (sy_pending (ch_sync c))) in
  return_if! negb ready with
    (let! (_, l) := send l MsgType.Busy [] in ret (false, c, l)) ;;
  let c := set_hasPending c false in
  let! c := clearSync c in
  let c := set_readers c (Ledger.resetEpoch (ch_readers c)) in
  let c := set_retiredValue (set_heldReady c 0) 0 in
  let c := bump_generation (set_peerFeatures c features) in
  let! (ok, l) := handOverRing c l in
  ret (ok, c, l).

(** One accepted connection of [acceptLoop]; the link that is not adopted is
    closed by its destructor.  True: the producer is attached. *)
Definition attachProducer c (l : Channel) : M (bool * flChannel) :=
  let refuse c l := (let! _ := chan_close l in ret (false, c)) in
  let features := localFeatures (ch_flags c) in
  let hello := mkHello FL_VERSION k_getpid 0 features (replicate 8 0) in
  let! (ok, l) := send l MsgType.Hello (encode hello) in
  return_if! negb ok with refuse c l ;;
  let! (peer, l) := recv l in
  let fds := match peer with Some m => mg_fds m | None => [] end in
  return_if! negb (Nat.eqb (length fds) 0) with (mfor fds close ;; refuse c l) ;;
  match peerHello peer with
  | None => refuse c l
  | Some ph =>
    return_if! negb (he_version ph =? FL_VERSION) || negb (compatibleFeatures features (he_pad ph))
      with refuse c l ;;
    let! (admitted, c, l) := admitProducer c l (he_pad ph) in
    return_if! negb admitted with refuse c l ;;
    let c := set_peerGone c false in
    let! l := chan_move (ch_peer c) l in
    ret (true, set_peer c l)
  end.

(** ** Messages of the attached producer *)

(** [handOverRing(ch, ch->peer)]: false is [break]. *)
Definition answerRing c : M (bool * flChannel) :=
  let! (ok, l) := handOverRing c (ch_peer c) in ret (ok, set_peer c l).

(** A resize the consumer grants: another size of the same format. *)
Definition resizes c (g : GeometryMsg) : bool :=
  let i := ch_info c in
  negb (ch_externalPool c) && truthy (ge_width g) && truthy (ge_height g)
  && (ge_width g <=? 8192) && (ge_height g <=? 8192) && (ge_format g =? info_format i)
  && (negb (info_format i =? FL_FORMAT_NV12) || negb (truthy (Z.land (Z.lor (ge_width g) (ge_height g)) 1)))
  && (negb (ge_width g =? info_width i) || negb (ge_height g =? info_height i)).

Definition handleGeometry c (payload : list Z) : M (bool * flChannel) :=
  let g := as_ GeometryMsg payload in
  let! c := advanceRetired c in
  return_if! ch_frameHeld c || (ch_retiredValue c <? ch_heldReady c) with answerRing c ;;
  match g with
  | None => answerRing c
  | Some g =>
    return_if! negb (resizes c g) with answerRing c ;;
    let c := set_hasPending c false in
    close_valid (sy_pending (ch_sync c)) ;;
    let c := set_sync c (set_pending (ch_sync c) (-1)) in
    let! (_, c) := reallocRing c (ge_width g) (ge_height g) (length (ch_images c)) in
    answerRing c
  end.

(** A decoded announcement: latest frame wins. *)
Definition storePending c (fr : FrameReadyMsg) (metadata : flFrameMetadata) (fds : list Z)
  : M flChannel :=
  close_valid (sy_pending (ch_sync c)) ;;
  let c := set_sync c (set_pending (ch_sync c) (match fds with [] => -1 | fd :: _ => fd end)) in
  mfor (tail fds) close ;;
  let c := set_pendingSlot (set_hasPending c true) (fm_slot fr) in
  let c := set_pendingReady c (fm_readyValue fr) in
  let c := set_pendingMetadata (set_pendingPts c (fm_ptsNs fr)) metadata in
  let! c := (if has_flag (ch_flags c) FL_TRACK_ARRIVAL
             then let! now := ask k_clock in ret (set_pendingArrival c now) else ret c) in
  ret (set_sequence c (wrap64 (ch_sequence c + 1))).

Definition handleFrame c (msg : Message) : M (bool * flChannel) :=
  let '(fr, metadata) := decodeFrame msg (has_flag (ch_flags c) FL_REQUIRE_FRAME_METADATA) in
  match fr with
  | None => mfor (mg_fds msg) close ;; ret (false, c)
  | Some fr =>
    return_if! imageCount c <=? fm_slot fr with (mfor (mg_fds msg) close ;; ret (false, c)) ;;
    let! c := storePending c fr metadata (mg_fds msg) in ret (true, c)
  end.

(** The dispatch of the inner loop: false is [break]. *)
Definition handleMessage c (msg : Message) : M (bool * flChannel) :=
  return_if! mg_type msg =? MsgType.Bye with ret (false, c) ;;
  return_if! mg_type msg =? MsgType.RequestGeometry with handleGeometry c (mg_payload msg) ;;
  return_if! negb (mg_type msg =? MsgType.FrameReady)
          && negb (mg_type msg =? MsgType.FrameReadyMetadata) with ret (true, c) ;;
  handleFrame c msg.

(** Where [acceptLoop] is.  [delegated] is its parameter, moved from when it is
    first used. *)
Inductive AcceptState :=
| Accepting (lst : Listener) (delegated : Channel)
| Serving (lst : Listener)
| Finished.

(** Leaving the thread: [Gone], then the listener and the parameter. *)
Definition finish c (lst : Listener) (delegated : Channel) : M (AcceptState * flChannel) :=
  let! _ := lst_close lst in
  let! _ := chan_close delegated in
  ret (Finished, set_peerGone c true).

(** Leaving the inner loop. *)
Definition producerGone c (lst : Listener) : M (AcceptState * flChannel) :=
  let c := set_peerGone c true in
  if ch_stop c || ch_delegated c then finish c lst noChannel else ret (Accepting lst noChannel, c).

(** [fl::Channel extra = lst.accept(); if (extra.connected()) extra.send(Busy);] *)
Definition refuseExtra (lst : Listener) : M unit :=
  let! extra := lst_accept lst in
  if connected extra
  then let! (_, extra) := send extra MsgType.Busy [] in let! _ := chan_close extra in ret tt
  else ret tt.

(** One iteration of [for (;;)] while a producer is attached. *)
Definition serveStep c (lst : Listener) : M (AcceptState * flChannel) :=
  let! (result, rev0, rev1) := ask (fun t => k_poll2 t (pollFd (ch_peer c)) (fd_ lst)) in
  return_if! result <? 0 with
    (let! e := errno in
     if e =? EINTR then ret (Serving lst, c) else producerGone c lst) ;;
  return_if! ch_stop c with finish c lst noChannel ;;
  (if truthy (Z.land rev1 POLLIN) then refuseExtra lst else ret tt) ;;
  return_if! negb (truthy (Z.land rev0 (Z.lor POLLIN (Z.lor POLLHUP POLLERR))))
    with ret (Serving lst, c) ;;
  let! (msg, c) := recvPeer c in
  match msg with
  | None => producerGone c lst
  | Some msg =>
    let! (go_on, c) := handleMessage c msg in
    if (go_on : bool) then ret (Serving lst, c) else producerGone c lst
  end.

Definition acceptStep c (st : AcceptState) : M (AcceptState * flChannel) :=
  match st with
  | Finished => ret (Finished, c)
  | Accepting lst delegated =>
    return_if! ch_stop c with finish c lst delegated ;;
    let! l := (if ch_delegated c then ret delegated else lst_accept lst) in
    let delegated := if ch_delegated c then noChannel else delegated in
    return_if! ch_stop c with (let! _ := chan_close l in finish c lst delegated) ;;
    return_if! negb (connected l) with
      (let! _ := chan_close l in
       if ch_delegated c then finish c lst delegated else ret (Accepting lst delegated, c)) ;;
    let! (attached, c) := attachProducer c l in
    ret (if (attached : bool) then Serving lst else Accepting lst delegated, c)
  | Serving lst => serveStep c lst
  end.

(** Entering the thread. *)
Definition acceptStart c (delegated : Channel) : M (AcceptState * flChannel) :=
  if ch_delegated c then ret (Accepting noListener delegated, c)
  else let! lst := lst_create (ch_name c) in
       if valid lst then ret (Accepting lst delegated, c) else finish c lst delegated.

(** ** Acquiring and releasing *)

(** The block under [pendingMutex] of one round of [flAcquireFrame]. *)
Definition tryAcquireFrame c : M (option flFrame * flChannel) :=
  return_if! negb (ch_hasPending c) || ch_frameHeld c with ret (None, c) ;;
  let! ready := (if has_flag (ch_flags c) FL_GPU_SYNC then ret true
                 else fenceReady (sy_pending (ch_sync c))) in
  return_if! negb ready with ret (None, c) ;;
  let c := set_sync c (set_pending (set_held (ch_sync c) (sy_pending (ch_sync c))) (-1)) in
  let c := set_heldArrival (set_frameHeld c true) (ch_pendingArrival c) in
  let c := set_heldSlot (set_heldReady c (ch_pendingReady c)) (ch_pendingSlot c) in
  let c := set_hasPending (set_heldMetadata c (ch_pendingMetadata c)) false in
  ret (Some (mkFrame (ch_pendingSlot c) (imageAddr c (ch_pendingSlot c)) (ch_pendingPts c)
               (ch_sequence c) (ch_pendingReady c)), c).

Fixpoint acquireFrameLoop (fuel : nat) (others : flChannel -> M flChannel) (timeoutMs waited : Z) c
  : M (option flResult * option flFrame * flChannel) :=
  match fuel with
  | O => ret (None, None, c)
  | S fuel' =>
    let! (frame, c) := tryAcquireFrame c in
    match frame with
    | Some f => ret (Some FL_OK, Some f, c)
    | None =>
      return_if! ch_peerGone c with ret (Some FL_DISCONNECTED, None, c) ;;
      return_if! timeoutMs <=? waited with ret (Some FL_TIMEOUT, None, c) ;;
      usleep 2000 ;;
      let! c := others c in
      acquireFrameLoop fuel' others timeoutMs (wrap32 (waited + 2)) c
    end
  end.

Definition flAcquireFrame (others : flChannel -> M flChannel) c (timeoutMs : Z)
  : M (option flResult * option flFrame * flChannel) :=
  return_if! negb (ch_isConsumer c) with ret (Some FL_INVALID, None, c) ;;
  acquireFrameLoop (acquireFuel timeoutMs) others timeoutMs 0 c.

(** [ch->frameHeld && frame is the held one] *)
Definition isHeld c (frame : flFrame) : bool :=
  ch_frameHeld c && (fr_readyValue frame =? ch_heldReady c) && (fr_slot frame =? ch_heldSlot c).

(** [if(ch->sync.held>=0)close(ch->sync.held);ch->sync.held=-1;] *)
Definition releaseLeaseReadyFence c : M flChannel :=
  close_valid (sy_held (ch_sync c)) ;; ret (set_sync c (set_held (ch_sync c) (-1))).

(** [int localFd=fd>=0?dup(fd):-1]: [None] when the duplication failed. *)
Definition dupFence (fd : Z) : M (option Z) :=
  if 0 <=? fd then let! l := dup fd in ret (if l <? 0 then None else Some l) else ret (Some (-1)).

Definition fence_fds (fd : Z) : list Z := if 0 <=? fd then [fd] else [].

Definition flReleaseSyncFd c (frame : option flFrame) (consumedFd : Z) : M (flResult * flChannel) :=
  match frame with
  | None => ret (FL_INVALID, c)
  | Some frame =>
    return_if! negb (ch_isConsumer c) || (imageCount c <=? fr_slot frame) with ret (FL_INVALID, c) ;;
    let fr := mkFrameReady (fr_slot frame) 0 (fr_readyValue frame) 0 in
    return_if! negb (Ledger.empty (ch_readers c)) with ret (FL_BUSY, c) ;;
    return_if! negb (isHeld c frame) with ret (FL_INVALID, c) ;;
    let! localFd := dupFence consumedFd in
    match localFd with
    | None => ret (FL_INTERNAL, c)
    | Some localFd =>
      let c := set_sync c (push_release (ch_sync c) (fr_readyValue frame) localFd) in
      let! c := advanceRetired c in
      let! c := releaseLeaseReadyFence (set_frameHeld c false) in
      return_if! negb (connected (ch_peer c)) with ret (FL_OK, c) ;;
      let! (ok, c) := sendPeer c MsgType.FrameReleased (encode fr) (fence_fds consumedFd) in
      ret (if (ok : bool) then FL_OK else FL_DISCONNECTED, c)
    end
  end.

Definition flRelease c (frame : option flFrame) : M (flResult * flChannel) :=
  if has_flag (ch_flags c) (Z.lor FL_GPU_SYNC FL_DEFER_RELEASE)
  then
    match frame with
    | None => ret (FL_INVALID, c)
    | Some frame =>
      return_if! negb (ch_isConsumer c) with ret (FL_INVALID, c) ;;
      return_if! negb (Ledger.empty (ch_readers c)) with ret (FL_BUSY, c) ;;
      return_if! negb (isHeld c frame) with ret (FL_INVALID, c) ;;
      let! c := releaseLeaseReadyFence (set_frameHeld c false) in
      ret (FL_OK, c)
    end
  else flReleaseSyncFd c frame (-1).

Definition flSignalConsumedSyncFd c (value fd : Z) : M (flResult * flChannel) :=
  return_if! negb (ch_isConsumer c)
          || negb (has_flag (ch_flags c) (Z.lor FL_GPU_SYNC FL_DEFER_RELEASE))
    with ret (FL_INVALID, c) ;;
  return_if! negb (Ledger.empty (ch_readers c)) with ret (FL_BUSY, c) ;;
  return_if! ch_heldReady c <? value with ret (FL_INVALID, c) ;;
  let! localFd := dupFence fd in
  match localFd with
  | None => ret (FL_INTERNAL, c)
  | Some localFd =>
    let c := set_sync c (push_release (ch_sync c) value localFd) in
    let! c := advanceRetired c in
    let! (ok, c) := sendPeer c MsgType.FrameReleased (encode (mkFrameReady 0 0 value 0)) (fence_fds fd) in
    ret (if (ok : bool) then FL_OK else FL_DISCONNECTED, c)
  end.

(** The result and [*fd]. *)
Definition flFrameReadySyncFd c (frame : option flFrame) (fd : Z) : flResult * Z :=
  match frame with
  | None => (FL_INVALID, fd)
  | Some frame =>
    return_if negb (ch_isConsumer c) with (FL_INVALID, fd) ;;
    return_if negb (isHeld c frame) with (FL_INVALID, fd) ;;
    (FL_OK, sy_held (ch_sync c))
  end.

(** Interop of other platforms, answered with a constant here. *)
Definition flSharedConsumedFence : flResult := FL_FORMAT_UNSUPPORTED.
Definition flSharedReadyFence : flResult := FL_FORMAT_UNSUPPORTED.

(** ** Read leases *)

(** The held frame, with its image: the guard the lease calls share. *)
Definition isHeldImage c (frame : flFrame) : bool :=
  isHeld c frame && (fr_slot frame <? imageCount c)
  && (fr_image frame =? imageAddr c (fr_slot frame)).

Definition flLeaseFrame c (frame : option flFrame) (nextToken lease : Z)
  : M (flResult * Z * flChannel * Z) :=
  match frame with
  | None => ret (FL_INVALID, lease, c, nextToken)
  | Some frame =>
    return_if! negb (ch_isConsumer c) || negb (has_flag (ch_flags c) FL_DEFER_RELEASE)
            || has_flag (ch_flags c) FL_GPU_SYNC with ret (FL_INVALID, lease, c, nextToken) ;;
    return_if! negb (isHeldImage c frame) with ret (FL_INVALID, lease, c, nextToken) ;;
    let '(r, lease, readers, nextToken) :=
      Ledger.acquire (ch_readers c) (info_generation (ch_info c)) frame nextToken lease in
    let c := set_readers c readers in
    let! c := (if bool_decide (r = FL_OK) then releaseLeaseReadyFence (set_frameHeld c false)
               else ret c) in
    ret (r, lease, c, nextToken)
  end.

Definition flRetainReadLease c (lease nextToken retained : Z) : flResult * Z * flChannel * Z :=
  return_if negb (ch_isConsumer c) with (FL_INVALID, retained, c, nextToken) ;;
  let '(r, t, readers, nextToken) := Ledger.retain (ch_readers c) lease nextToken retained in
  (r, t, set_readers c readers, nextToken).

Definition flReadLeaseFrame c (lease : Z) (frame : flFrame) (generation : Z)
  : flResult * flFrame * Z :=
  return_if negb (ch_isConsumer c) with (FL_INVALID, frame, generation) ;;
  Ledger.get (ch_readers c) lease frame generation.

Definition flCompleteReadLease c (lease : Z) : flResult * flChannel :=
  return_if negb (ch_isConsumer c) with (FL_INVALID, c) ;;
  let '(r, readers) := Ledger.complete (ch_readers c) lease in (r, set_readers c readers).

Definition retireReadLeases c (value : Z) : M (flResult * flChannel) :=
  let! (ok, c) := (if connected (ch_peer c)
                   then sendPeer c MsgType.FrameReleased (encode (mkFrameReady 0 0 value 0)) []
                   else ret (true, c)) in
  return_if! negb ok with ret (FL_DISCONNECTED, c) ;;
  ret (FL_OK, set_retiredValue c value).

(** One entry of [pollLeaseCompletions]; [inr] is its failing return. *)
Definition pollCompletion (j : nat) c : M (flChannel + flResult * flChannel) :=
  let '(token, fd) := nth j (ch_leaseCompletions c) (0, -1) in
  return_if! token =? 0 with ret (inl c) ;;
  let! (result, revents) := poll fd in
  return_if! result <? 0 with
    (let! e := errno in
     if e =? EINTR then ret (inl c) else ret (inr (FL_INTERNAL, c))) ;;
  return_if! result =? 0 with ret (inl c) ;;
  return_if! truthy (Z.land revents (Z.lor POLLERR (Z.lor POLLHUP POLLNVAL)))
    with ret (inr (FL_INTERNAL, c)) ;;
  return_if! negb (truthy (Z.land revents POLLIN)) with ret (inl c) ;;
  let '(r, readers) := Ledger.finishDeferred (ch_readers c) token in
  let c := set_readers c readers in
  return_if! negb (bool_decide (r = FL_OK)) with ret (inr (r, c)) ;;
  close fd ;;
  ret (inl (set_leaseCompletions c (<[j := (0, -1)]> (ch_leaseCompletions c)))).

Definition pollLeaseCompletions c : M (flResult * flChannel) :=
  let! r := mloop (seq 0 Ledger.MaxReaders) pollCompletion c in
  ret (match r with inl c => (FL_OK, c) | inr e => e end).

Definition flCompleteReadLeaseSyncFd c (token fd : Z) : M (flResult * flChannel) :=
  return_if! negb (ch_isConsumer c) || (fd <? 0) with ret (FL_INVALID, c) ;;
  let '(got, _, _) := Ledger.get (ch_readers c) token zeroFrame 0 in
  return_if! negb (bool_decide (got = FL_OK)) with ret (FL_INVALID, c) ;;
  match find_index (fun e => e.1 =? 0) (ch_leaseCompletions c) with
  | None => ret (FL_BUSY, c)
  | Some j =>
    let! owned := dup fd in
    return_if! owned <? 0 with ret (FL_INVALID, c) ;;
    let '(r, readers) := Ledger.defer (ch_readers c) token in
    let c := set_readers c readers in
    return_if! negb (bool_decide (r = FL_OK)) with (close owned ;; ret (r, c)) ;;
    ret (FL_OK, set_leaseCompletions c (<[j := (token, owned)]> (ch_leaseCompletions c)))
  end.

Definition flCollectReadLeases c : M (flResult * flChannel) :=
  return_if! negb (ch_isConsumer c) with ret (FL_INVALID, c) ;;
  let! (polled, c) := pollLeaseCompletions c in
  return_if! negb (bool_decide (polled = FL_OK)) with ret (polled, c) ;;
  let r := Ledger.retirement (ch_readers c) in
  return_if! negb (truthy (Ledger.rt_value r))
    with ret (if Ledger.empty (ch_readers c) then FL_OK else FL_BUSY, c) ;;
  let! (result, c) := retireReadLeases c (Ledger.rt_value r) in
  return_if! negb (bool_decide (result = FL_OK)) with ret (result, c) ;;
  let '(retired, readers) := Ledger.retired (ch_readers c) r in
  ret (retired, set_readers c readers).

(** ** Queries about the held frame *)

(** The result and [*ageNs]. *)
Definition flFrameAgeNs c (frame : option flFrame) (ageNs : Z) : M (flResult * Z) :=
  match frame with
  | None => ret (FL_INVALID, ageNs)
  | Some frame =>
    return_if! negb (ch_isConsumer c) with ret (FL_INVALID, ageNs) ;;
    return_if! negb (has_flag (ch_flags c) FL_TRACK_ARRIVAL) with ret (FL_FORMAT_UNSUPPORTED, ageNs) ;;
    return_if! negb (isHeldImage c frame) with ret (FL_INVALID, ageNs) ;;
    let! now := ask k_clock in
    ret (FL_OK, if ch_heldArrival c <=? now then now - ch_heldArrival c else 0)
  end.

Definition flQueryConsumerFlags c (flags : Z) : flResult * Z :=
  return_if negb (ch_isConsumer c) with (FL_INVALID, flags) ;;
  (FL_OK, ch_flags c).

Definition flGetFrameMetadata c (frame : option flFrame) (metadata : flFrameMetadata)
  : flResult * flFrameMetadata :=
  match frame with
  | None => (FL_INVALID, metadata)
  | Some frame =>
    return_if negb (ch_isConsumer c) with (FL_INVALID, metadata) ;;
    return_if negb (isHeldImage c frame) with (FL_INVALID, metadata) ;;
    return_if negb (truthy (md_version (ch_heldMetadata c))) with (FL_NOT_FOUND, metadata) ;;
    (FL_OK, ch_heldMetadata c)
  end.
End Consumer.
