(* ===== verification/AndroidChannel.v ===== *)
(** * Channels of the Android backend (src/framelink_android.cpp)

    Creating a channel - listening under a name or over a delegated socket, with a
    ring of its own or the application's - attaching a producer, and the queries.
    A creation hands the accept thread its link: the channel is returned together
    with it. *)
From S2P Require Import Prelude Api Kernel Wire SyncFd Ipc ResourceInfo AndroidImage AndroidState AndroidProducer AndroidRing.

Section Channels.
Context `{K : Kernel, A : Ahb}.
Implicit Types (c : flChannel).

(** ** The consumer's end *)

(** What a creation leaves: the channel, and the link of its accept thread. *)
Definition Created : Type := flResult * option (flChannel * Channel).

(** The guards of [createChannel]. *)
Definition createRefusal (width height format poolSize flags : Z) (external : bool) : option flResult :=
  return_if negb (truthy width) || negb (truthy height) || (8192 <? width) || (8192 <? height)
    with Some FL_INVALID ;;
  return_if negb (truthy (ahbFormatFor format)) with Some FL_FORMAT_UNSUPPORTED ;;
  return_if (format =? FL_FORMAT_NV12) && truthy (Z.land (Z.lor width height) 1) with Some FL_INVALID ;;
  return_if negb (truthy poolSize) || (Z.of_nat kMaxPool <? poolSize) with Some FL_INVALID ;;
  return_if negb external && has_flag flags FL_GPU_RENDER
         && negb (ahb_isSupported (ringDesc width height format flags)) with Some FL_FORMAT_UNSUPPORTED ;;
  None.

(** [new flChannel()] with the fields set before the ring is. *)
Definition consumerChannel (name : list Z) (width height format poolSize flags : Z)
  (fromFd external : bool) : flChannel :=
  let c := set_delegated (set_isConsumer newChannel true) fromFd in
  let c := set_flags (set_name c name) flags in
  let c := set_info c (mkChannelInfo FL_VERSION width height format poolSize 0) in
  set_externalPool c external.

(** [flClose(ch); return r;], with the destructor of the parameter. *)
Definition abandon c (delegated : Channel) (r : flResult) : M Created :=
  flClose c ;;
  let! _ := chan_close delegated in
  ret (r, None).

(** From the channel with its ring to the running thread. *)
Definition startConsumer c (delegated : Channel) : M Created :=
  let! started := ask ahb_thread in
  return_if! negb started with abandon c delegated FL_INTERNAL ;;
  ret (FL_OK, Some (c, delegated)).

Definition createChannel (name : option (list Z)) (width height format poolSize flags : Z)
  (delegated : Channel) (fromFd : bool) (externalImages : option (list Z)) : M Created :=
  let leave r := (let! _ := chan_close delegated in ret (r, None)) in
  match name with
  | None => leave FL_INVALID
  | Some name =>
    let external := bool_decide (is_Some externalImages) in
    match createRefusal width height format poolSize flags external with
    | Some r => leave r
    | None =>
      let c := consumerChannel name width height format poolSize flags fromFd external in
      let! (allocation, c) :=
        (match externalImages with
         | Some images => adoptRing c images (Z.to_nat poolSize)
         | None => let! (ok, c) := reallocRing c width height (Z.to_nat poolSize) in
                   ret (if (ok : bool) then FL_OK else FL_OOM, c)
         end) in
      return_if! negb (bool_decide (allocation = FL_OK)) with abandon c delegated allocation ;;
      return_if! negb fromFd with startConsumer c delegated ;;
      let! interruptFd := opened (dup (pollFd delegated)) in
      let c := set_interruptFd c interruptFd in
      return_if! interruptFd <? 0 with abandon c delegated FL_INTERNAL ;;
      startConsumer c delegated
    end
  end.

Definition flCreateChannelEx (name : option (list Z)) (width height format poolSize flags : Z) : M Created :=
  createChannel name width height format poolSize flags noChannel false None.

Definition flCreateChannelOnAdapter (name : option (list Z)) (width height format poolSize flags : Z)
  : M Created := flCreateChannelEx name width height format poolSize flags.

Definition flCreateChannel (name : option (list Z)) (width height format poolSize : Z) : M Created :=
  flCreateChannelEx name width height format poolSize 0.

(** "broker-video" and "broker-external-video" *)
Definition brokerVideo : list Z := [98; 114; 111; 107; 101; 114; 45; 118; 105; 100; 101; 111].
Definition brokerExternalVideo : list Z :=
  [98; 114; 111; 107; 101; 114; 45; 101; 120; 116; 101; 114; 110; 97; 108; 45; 118; 105; 100; 101; 111].

Definition flCreateChannelFromSocketFd (fd width height format poolSize flags timeout : Z) : M Created :=
  let! link := adoptConnectedFd fd timeout in
  return_if! negb (connected link) with (let! _ := chan_close link in ret (FL_INVALID, None)) ;;
  createChannel (Some brokerVideo) width height format poolSize flags link true None.

(** [flags & ~(FL_MAP_CPU|...)] *)
Definition unknownFlags (flags : Z) : bool :=
  truthy (Z.land flags (not32 (Z.lor FL_MAP_CPU (Z.lor FL_GPU_SYNC (Z.lor FL_DEFER_RELEASE
    (Z.lor FL_GPU_RENDER (Z.lor FL_TRACK_ARRIVAL FL_REQUIRE_FRAME_METADATA))))))).

Definition flCreateChannelFromHardwareBuffers (name : option (list Z))
  (width height format poolSize flags : Z) (images : option (list Z)) : M Created :=
  return_if! negb (bool_decide (is_Some images)) || unknownFlags flags with ret (FL_INVALID, None) ;;
  createChannel name width height format poolSize flags noChannel false images.

Definition flCreateChannelFromSocketFdWithHardwareBuffers
  (fd width height format poolSize flags timeout : Z) (images : option (list Z)) : M Created :=
  let! link := adoptConnectedFd fd timeout in
  return_if! negb (connected link) || negb (bool_decide (is_Some images)) || unknownFlags flags
    with (let! _ := chan_close link in ret (FL_INVALID, None)) ;;
  createChannel (Some brokerExternalVideo) width height format poolSize flags link true images.

(** ** The producer's end *)

(** The hello exchange of [openProducer]; [Some] is its failing return. *)
Definition producerHello c : M (option flResult * flChannel) :=
  let! (helloMsg, c) := recvLink c in
  let fds := match helloMsg with Some m => mg_fds m | None => [] end in
  return_if! negb (Nat.eqb (length fds) 0) with (mfor fds close ;; ret (Some FL_INVALID, c)) ;;
  let isType t := match helloMsg with Some m => mg_type m =? t | None => false end in
  return_if! isType MsgType.Busy with ret (Some FL_BUSY, c) ;;
  let srv := match helloMsg with
             | Some m => if isType MsgType.Hello && Nat.eqb (length (mg_payload m)) (sizeof HelloMsg)
                         then as_ HelloMsg (mg_payload m) else None
             | None => None
             end in
  match srv with
  | None => ret (Some FL_DISCONNECTED, c)
  | Some srv =>
    return_if! negb (he_version srv =? FL_VERSION) with ret (Some FL_VERSION_MISMATCH, c) ;;
    return_if! negb (compatibleFeatures (localFeatures 0) (he_pad srv))
      with ret (Some FL_VERSION_MISMATCH, c) ;;
    let c := set_peerFeatures c (he_pad srv) in
    let mine := mkHello FL_VERSION k_getpid 0 (localFeatures 0) (replicate 8 0) in
    let! (ok, c) := sendLink c MsgType.Hello (encode mine) [] in
    return_if! negb ok with ret (Some FL_INTERNAL, c) ;;
    ret (None, c)
  end.

Definition set_version c : flChannel :=
  let i := ch_info c in
  set_info c (mkChannelInfo FL_VERSION (info_width i) (info_height i) (info_format i)
                (info_poolSize i) (info_generation i)).

(** The ring description: the second half of [openProducer]. *)
Definition producerRing c : M (flResult * option flChannel) :=
  let! (ring, c) := recvLink c in
  let fds := match ring with Some m => mg_fds m | None => [] end in
  return_if! negb (Nat.eqb (length fds) 0)
    with (mfor fds close ;; deleteChannel c ;; ret (FL_INVALID, None)) ;;
  return_if! (match ring with Some m => mg_type m =? MsgType.Busy | None => false end)
    with (deleteChannel c ;; ret (FL_BUSY, None)) ;;
  match ringOf ring with
  | None => deleteChannel c ;; ret (FL_DISCONNECTED, None)
  | Some rd =>
    let! (r, c) := importRing (set_version c) (Some rd) in
    return_if! negb (bool_decide (r = FL_OK)) with (flClose c ;; ret (FL_DISCONNECTED, None)) ;;
    ret (FL_OK, Some c)
  end.

Definition openProducer (name : list Z) (link : Channel) : M (flResult * option flChannel) :=
  let c := set_link (set_name newChannel name) link in
  return_if! negb (connected link) with (deleteChannel c ;; ret (FL_NOT_FOUND, None)) ;;
  let! (refused, c) := producerHello c in
  match refused with
  | Some r => deleteChannel c ;; ret (r, None)
  | None => producerRing c
  end.

Definition flOpenProducer (name : option (list Z)) : M (flResult * option flChannel) :=
  match name with
  | None => ret (FL_INVALID, None)
  | Some name => let! link := connect name 300 in openProducer name link
  end.

Definition flOpenProducerFromSocketFd (fd timeout : Z) : M (flResult * option flChannel) :=
  let! link := adoptConnectedFd fd timeout in
  return_if! negb (connected link) with (let! _ := chan_close link in ret (FL_INVALID, None)) ;;
  openProducer brokerVideo link.

(** ** Queries *)

Definition flQuery c : flResult * flChannelInfo := (FL_OK, ch_info c).

(** [img] is the pointer; the object is looked up in the ring. *)
Definition flImageMemoryInfo c (img version size : Z) : flResult * option flMemoryResourceInfo :=
  return_if negb (size =? 168) with (FL_INVALID, None) ;;
  return_if negb (version =? FL_MEMORY_INFO_VERSION) with (FL_VERSION_MISMATCH, None) ;;
  match List.find (fun '(a, _) => a =? img) (ch_images c) with
  | None => (FL_INVALID, None)
  | Some (_, im) =>
    return_if negb (truthy (ai_ahb im)) with (FL_INVALID, None) ;;
    let d := ahb_describe (ai_ahb im) in
    let mapped := bool_decide (is_Some (ai_mapped im)) in
    let nv12 := ai_format im =? FL_FORMAT_NV12 in
    let operations := negb nv12 || mapped in
    let converts := (ai_format im =? FL_FORMAT_BGRA8) || (nv12 && negb (ai_nativeNv12 im)) in
    let known := Z.lor (Z.lor FL_MEMORY_INFO_NATIVE_USAGE FL_MEMORY_INFO_DIRECT_USAGE)
      (Z.lor (if operations then FL_MEMORY_INFO_MAP_OPERATIONS else 0)
             (if mapped then FL_MEMORY_INFO_MAPPED_USAGE else 0)) in
    (FL_OK, Some (mkInfo FL_MEMORY_INFO_VERSION FL_MEMORY_AHB (ai_format im)
      (ad_width d) (ad_height d) (ad_format d) known 0 (ad_usage d) 0 (replicate 4 0) (replicate 4 0)
      (Z.lor (if has_flag (ad_usage d) AHARDWAREBUFFER_USAGE_GPU_SAMPLED_IMAGE then FL_MEMORY_GPU_SAMPLE else 0)
             (if has_flag (ad_usage d) AHARDWAREBUFFER_USAGE_GPU_COLOR_OUTPUT then FL_MEMORY_GPU_RENDER else 0))
      (if mapped then Z.lor FL_MEMORY_CPU_READ FL_MEMORY_CPU_WRITE else 0)
      (if operations && converts then Z.lor FL_MEMORY_COPY FL_MEMORY_CONVERT else 0)
      0 (replicate 16 0)
      (Z.lor FL_MEMORY_SYNC_CPU_WAIT FL_MEMORY_SYNC_FD) FL_MEMORY_HANDLE_AHB
      (Z.lor (Z.lor FL_MEMORY_INTEROP_RING_IMPORT FL_MEMORY_INTEROP_BORROW_NATIVE)
         (if ch_externalPool c then FL_MEMORY_INTEROP_EXTERNAL_POOL else 0))
      (info_generation (ch_info c))))
  end.
End Channels.
