(* ===== verification/AndroidRefines.v ===== *)
(** * The Android backend refines the Linux one

    Rings, handles and mappings differ, the slot protocol does not: [toLinux]
    forgets what is Android's - the buffers behind the images - and every call of
    the protocol does to the projected channel what the Linux call does, with the
    same answers, effects and datagrams.  So the Android system of producer and
    consumer takes only steps the Linux system takes, and the safety of System.v
    carries over. *)
From stdpp Require Import gmap sorting.
From S2P Require Import Prelude Api Kernel Wire SyncFd Ipc AndroidImage AndroidState AndroidProducer AndroidRing AndroidConsumer.
From S2P Require Ledger BufferRefs LinuxImage LinuxState LinuxProducer LinuxConsumer System.

(** ** The projection *)

Definition toImage (x : Z * AhbImage) : Z * LinuxImage.flImage := (x.1, LinuxImage.newImage).

Definition toLinux (c : flChannel) : LinuxState.flChannel :=
  LinuxState.mkChannel (ch_isConsumer c) (ch_externalPool c) (ch_name c) (ch_info c) (ch_flags c)
    (ch_peerFeatures c) (ch_bufferReferences c) (ch_slotMetadata c) (ch_pendingMetadata c)
    (ch_heldMetadata c) (-1) 0 (map toImage (ch_images c)) (ch_sync c) (ch_submittingSlot c)
    (ch_submittingValue c) (ch_readyValue c) (ch_peer c) (ch_stop c) (ch_peerGone c)
    (ch_hasPending c) (ch_readers c) (ch_leaseCompletions c) (ch_frameHeld c) (ch_heldReady c)
    (ch_retiredValue c) (ch_heldSlot c) (ch_pendingSlot c) (ch_pendingReady c) (ch_pendingPts c)
    (ch_pendingArrival c) (ch_heldArrival c) (ch_sequence c) (ch_link c) (ch_slotSubmitValue c)
    (ch_consumedValue c).

Lemma imageCount_to c : LinuxState.imageCount (toLinux c) = imageCount c.
Proof. unfold LinuxState.imageCount, imageCount. simpl. by rewrite length_map. Qed.

Lemma imageAddr_to c slot : LinuxState.imageAddr (toLinux c) slot = imageAddr c slot.
Proof.
  unfold LinuxState.imageAddr, imageAddr. simpl. rewrite list_lookup_fmap.
  by destruct (ch_images c !! _) as [[a i]|].
Qed.

(** ** Simulation

    [simulates f m n]: run from any world, [n] ends in the world [m] ends in, with
    the projected result. *)
Definition simulates {A B} (f : A -> B) (m : M A) (n : M B) : Prop :=
  forall w, n w = (f (m w).1, (m w).2).

Lemma sim_ret {A B} (f : A -> B) x y : f x = y -> simulates f (ret x) (ret y).
Proof. by intros <- w. Qed.

Lemma sim_refl {A} (m : M A) : simulates id m m.
Proof. intros w. by destruct (m w). Qed.

Lemma sim_bind {A A' B B'} (f : A -> A') (g : B -> B') m n k k' :
  simulates f m n -> (forall x, simulates g (k x) (k' (f x))) -> simulates g (bind m k) (bind n k').
Proof. intros H1 H2 w. rewrite !bind_run, H1. apply H2. Qed.

(** The same call on both sides. *)
Lemma sim_step {A B B'} (g : B -> B') (m : M A) k k' :
  (forall x, simulates g (k x) (k' x)) -> simulates g (bind m k) (bind m k').
Proof. intros H. apply (sim_bind id); [apply sim_refl|done]. Qed.

Lemma sim_if {A B} (f : A -> B) (b b' : bool) m n m' n' :
  b' = b -> simulates f m m' -> simulates f n n' ->
  simulates f (if b then m else n) (if b' then m' else n').
Proof. intros ->. by destruct b. Qed.

Lemma sim_mloop {A S T R R'} (f : S -> T) (g : R -> R') (l : list A) body body' s :
  (forall x s, simulates (sum_map f g) (body x s) (body' x (f s))) ->
  simulates (sum_map f g) (mloop l body s) (mloop l body' (f s)).
Proof.
  intros H. revert s. induction l as [|x l IH]; intros s; cbn [mloop]; [by apply sim_ret|].
  apply (sim_bind (sum_map f g)); [apply H|]. intros [s'|r]; [apply IH|by apply sim_ret].
Qed.

Lemma sim_run {A B} (f : A -> B) m n w : simulates f m n -> (n w).1 = f (m w).1 /\ (n w).2 = (m w).2.
Proof. intros H. by rewrite H. Qed.

(** Results that carry the channel. *)
Definition second {X} (x : X * flChannel) : X * LinuxState.flChannel := (x.1, toLinux x.2).

(** Stepping two texts that differ only in the channel type. *)
Ltac sim_pairs :=
  repeat match goal with
  | x : (_ * _)%type |- simulates _ _ _ => destruct x
  end.
Ltac sim :=
  repeat first
  [ progress sim_pairs; cbn beta iota; cbn [second fst snd]
  | match goal with
    | |- forall _, _ => intros ?
    | |- simulates _ (bind _ _) (bind _ _) => apply sim_step; intros ?
    | |- simulates _ (if _ then _ else _) (if _ then _ else _) => apply sim_if; [done| |]
    | |- simulates _ (ret _) (ret _) => by apply sim_ret
    | |- simulates _ (match ?x with Some _ => _ | None => _ end) _ => destruct x
    end ].

(** The same for functions without effects. *)
Ltac pure_sim :=
  unfold LinuxState.submitAt, submitAt, LinuxState.metadataAt, metadataAt; simpl;
  repeat case_match; simplify_eq; done.

Section Calls.
Context `{K : Kernel, A : Ahb}.
Implicit Types (c : flChannel).

(** ** The producer's calls *)

Lemma advanceConsumed_sim c :
  simulates toLinux (advanceConsumed c) (LinuxState.advanceConsumed (toLinux c)).
Proof. unfold advanceConsumed, LinuxState.advanceConsumed. by sim. Qed.

Lemma advanceRetired_sim c :
  simulates toLinux (advanceRetired c) (LinuxState.advanceRetired (toLinux c)).
Proof. unfold advanceRetired, LinuxState.advanceRetired. by sim. Qed.

Lemma applyRelease_sim c m : simulates toLinux (applyRelease c m) (LinuxProducer.applyRelease (toLinux c) m).
Proof.
  unfold applyRelease, LinuxProducer.applyRelease. apply sim_if; [done|by apply sim_ret|].
  destruct (as_ FrameReadyMsg _) as [fr|]; [|by apply sim_ret]. apply sim_step. intros _.
  apply (advanceConsumed_sim (set_sync c _)).
Qed.

Lemma slotFree_to c i : LinuxProducer.slotFree (toLinux c) i = slotFree c i.
Proof. done. Qed.

Lemma acquireScan_to c :
  LinuxProducer.acquireScan (toLinux c) = (fun x => (x.1, toLinux x.2)) <$> acquireScan c.
Proof.
  unfold LinuxProducer.acquireScan, acquireScan. simpl. rewrite length_map.
  change (LinuxProducer.slotFree (toLinux c)) with (slotFree c).
  destruct (find_index _ _) as [i|]; [|done]. simpl. unfold LinuxProducer.reserve. by rewrite imageAddr_to.
Qed.

Lemma ownBuffer_to c b : LinuxProducer.ownBuffer (toLinux c) b = ownBuffer c b.
Proof. unfold LinuxProducer.ownBuffer, ownBuffer. by rewrite imageCount_to, imageAddr_to. Qed.

Lemma begin_to c buf v :
  LinuxProducer.flBeginSubmit (toLinux c) buf v
  = let '(r, v, c') := flBeginSubmit c buf v in (r, v, toLinux c').
Proof.
  destruct buf as [b|]; [|done]. unfold LinuxProducer.flBeginSubmit, flBeginSubmit. rewrite ownBuffer_to.
  pure_sim.
Qed.

Lemma publish_sim c slot value pts fence :
  simulates second (publish c slot value pts fence) (LinuxProducer.publish (toLinux c) slot value pts fence).
Proof. unfold publish, LinuxProducer.publish. by sim. Qed.

Lemma setMetadata_to c b md :
  LinuxProducer.flSetFrameMetadata (toLinux c) b md = second (flSetFrameMetadata c b md).
Proof.
  destruct b as [b|], md as [md|]; [|done..].
  unfold LinuxProducer.flSetFrameMetadata, flSetFrameMetadata, LinuxProducer.metadataReservation, metadataReservation.
  rewrite ownBuffer_to. pure_sim.
Qed.

Lemma retainReference_to c b next ref :
  LinuxProducer.flRetainBufferReference (toLinux c) b next ref
  = let '(r, t, c', next') := flRetainBufferReference c b next ref in (r, t, toLinux c', next').
Proof.
  destruct b as [b|]; [|done].
  unfold LinuxProducer.flRetainBufferReference, flRetainBufferReference, LinuxProducer.metadataReservation,
    metadataReservation.
  rewrite ownBuffer_to. pure_sim.
Qed.

Lemma releaseReference_to c ref :
  LinuxProducer.flReleaseBufferReference (toLinux c) ref = second (flReleaseBufferReference c ref).
Proof.
  unfold LinuxProducer.flReleaseBufferReference, flReleaseBufferReference. pure_sim.
Qed.

(** *** Unmapping, which only Android's images need *)

Lemma unmapSlot_to c slot :
  emits (unmapSlot c slot) (fun c' es => toLinux c' = toLinux c /\ System.delivered es = []).
Proof.
  unfold unmapSlot. destruct (ch_images c !! Z.to_nat slot) as [[a img]|] eqn:E; [|by apply emits_ret].
  apply emits_bind. unfold unmapImage. destruct (flImageUnmap img ∅) as [[img' m'] locks].
  apply emits_bind, (System.mfor_silent locks); [intros l; by apply emits_effect|].
  intros es He. apply emits_ret, emits_ret. rewrite !app_nil_l. split; [|done].
  unfold toLinux. simpl. f_equal.
  assert (map toImage (<[Z.to_nat slot := (a, img')]> (ch_images c))
          = <[Z.to_nat slot := (a, LinuxImage.newImage)]> (map toImage (ch_images c))) as ->
    by apply (list_fmap_insert toImage).
  apply list_insert_id. by rewrite list_lookup_fmap, E.
Qed.

Lemma linux_unmapSlot_to c slot w : LinuxProducer.unmapSlot (toLinux c) slot w = (toLinux c, w).
Proof.
  unfold LinuxProducer.unmapSlot. simpl. rewrite list_lookup_fmap.
  destruct (ch_images c !! Z.to_nat slot) as [[a img]|] eqn:E; [|done]. cbn [fmap option_fmap option_map toImage fst].
  rewrite bind_run. change (LinuxImage.flImageUnmap LinuxImage.newImage w) with (LinuxImage.newImage, w).
  cbn [fst snd]. rewrite ret_run. f_equal.
  replace (<[_ := _]> _) with (map toImage (ch_images c)); [done|]. symmetry.
  apply list_insert_id. by rewrite list_lookup_fmap, E.
Qed.

Lemma cancel_to c buf w :
  (LinuxProducer.flCancelBuffer (toLinux c) buf w).1 = second (flCancelBuffer c buf w).1.
Proof.
  destruct buf as [b|]; [|done]. unfold LinuxProducer.flCancelBuffer, flCancelBuffer. rewrite ownBuffer_to.
  change (LinuxState.submitAt (toLinux c) (buf_slot b)) with (submitAt c (buf_slot b)). simpl.
  destruct (_ || _); [done|]. destruct (_ && _); [done|]. rewrite !bind_run, linux_unmapSlot_to.
  destruct (unmapSlot_to c (buf_slot b) w) as (es & _ & Hto & _). simpl.
  unfold second. simpl. f_equal. unfold LinuxState.set_submitAt. rewrite <- Hto. done.
Qed.

(** ** Runs *)

Lemma runs_sim {X Y} (f : X -> Y) (m : M X) (n : M Y) x ms :
  simulates f m n -> System.runs m x ms -> System.runs n (f x) ms.
Proof.
  intros Hs (w & <- & <-). exists w. destruct (sim_run f m n w Hs) as [-> ->]. by split.
Qed.

Lemma publish_emits c slot value pts fence : emits (publish c slot value pts fence) (fun _ _ => True).
Proof.
  unfold publish, sendFrame. destruct (frameMessage _ _) as [type payload]. unfold sendWithFds. by emits_auto.
Qed.

(** Unmapping first and publishing then is publishing on Linux. *)
Lemma unmap_publish_runs c slot value pts fence r c' ms :
  System.runs (let! c := unmapSlot c slot in publish c slot value pts fence) (r, c') ms ->
  System.runs (LinuxProducer.publish (toLinux c) slot value pts fence) (r, toLinux c') ms.
Proof.
  intros Hrun. apply (System.runs_bind_silent _ _ _ _ (fun c1 => toLinux c1 = toLinux c)) in Hrun
    as (c1 & <- & Hrun); [|apply unmapSlot_to|intros; apply publish_emits].
  apply (runs_sim second _ _ _ _ (publish_sim c1 slot value pts fence) Hrun).
Qed.

Lemma ret_runs {X} (x y : X) ms : System.runs (ret x) y ms -> x = y /\ ms = [].
Proof.
  intros (w & Hx & Hms). rewrite ret_run in Hx, Hms. split; [done|]. unfold effects_of in Hms.
  by rewrite Nat.sub_diag in Hms.
Qed.

Lemma runs_ret {X} (x : X) : System.runs (ret x) x [].
Proof. exists start. split; [done|]. unfold effects_of. by rewrite Nat.sub_diag. Qed.

(** A call refused by a guard. *)
Lemma refused_runs {X} (x : X) c r c' ms :
  System.runs (ret (x, c)) (r, c') ms -> System.runs (ret (x, toLinux c)) (r, toLinux c') ms.
Proof. intros [[= -> ->] ->]%ret_runs. apply runs_ret. Qed.

Lemma end_runs c buf v pts r c' ms :
  System.runs (flEndSubmit c buf v pts) (r, c') ms ->
  System.runs (LinuxProducer.flEndSubmit (toLinux c) buf v pts) (r, toLinux c') ms.
Proof.
  intros Hrun. destruct buf as [b|]; [|by apply (refused_runs _ _ _ _ _ Hrun)].
  unfold LinuxProducer.flEndSubmit. unfold flEndSubmit in Hrun. rewrite ownBuffer_to.
  change (LinuxState.submitAt (toLinux c) (buf_slot b)) with (submitAt c (buf_slot b)). simpl.
  destruct (_ || _); [by apply (refused_runs _ _ _ _ _ Hrun)|].
  destruct (negb _); [by apply (refused_runs _ _ _ _ _ Hrun)|].
  by apply unmap_publish_runs.
Qed.

(** [linux_unmapSlot_to] for a run that goes on. *)
Lemma linux_unmap_runs {X} c slot (k : LinuxState.flChannel -> M X) x ms :
  System.runs (k (toLinux c)) x ms -> System.runs (bind (LinuxProducer.unmapSlot (toLinux c) slot) k) x ms.
Proof. intros (w & Hx & Hms). exists w. by rewrite !bind_run, !linux_unmapSlot_to. Qed.

Lemma submitfd_runs c buf fd pts r c' ms :
  System.runs (flSubmitSyncFd c buf fd pts) (r, c') ms ->
  System.runs (LinuxProducer.flSubmitSyncFd (toLinux c) buf fd pts) (r, toLinux c') ms.
Proof.
  intros Hrun. destruct buf as [b|]; [|by apply (refused_runs _ _ _ _ _ Hrun)].
  unfold LinuxProducer.flSubmitSyncFd. unfold flSubmitSyncFd in Hrun. rewrite ownBuffer_to, begin_to.
  destruct (flBeginSubmit c (Some b) 0) as [[begun value] c1]. simpl.
  destruct (_ || _); [by apply (refused_runs _ _ _ _ _ Hrun)|].
  destruct (negb _); [by apply (refused_runs _ _ _ _ _ Hrun)|].
  destruct (negb _); [by apply (refused_runs _ _ _ _ _ Hrun)|].
  apply linux_unmap_runs. by apply unmap_publish_runs.
Qed.
End Calls.

(** ** The consumer's calls *)

Section ConsumerCalls.
Context `{K : Kernel, A : Ahb}.
Implicit Types (c : flChannel).

Lemma storePending_sim c fr md fds :
  simulates toLinux (storePending c fr md fds) (LinuxConsumer.storePending (toLinux c) fr md fds).
Proof.
  unfold storePending, LinuxConsumer.storePending. sim.
  apply (sim_bind toLinux); [|by sim]. by sim.
Qed.

Lemma handleFrame_sim c msg :
  simulates second (handleFrame c msg) (LinuxConsumer.handleFrame (toLinux c) msg).
Proof.
  unfold handleFrame, LinuxConsumer.handleFrame. rewrite imageCount_to.
  change (LinuxState.ch_flags (toLinux c)) with (ch_flags c).
  destruct (decodeFrame msg _) as [[fr|] md]; [|by sim].
  apply sim_if; [done|by sim|]. apply (sim_bind toLinux); [apply storePending_sim|]. by sim.
Qed.

Lemma tryAcquire_sim c :
  simulates second (tryAcquireFrame c) (LinuxConsumer.tryAcquireFrame (toLinux c)).
Proof.
  unfold tryAcquireFrame, LinuxConsumer.tryAcquireFrame. sim. unfold second. simpl. do 2 f_equal.
  by rewrite <- imageAddr_to.
Qed.

Lemma releaseFence_sim c :
  simulates toLinux (releaseLeaseReadyFence c) (LinuxConsumer.releaseLeaseReadyFence (toLinux c)).
Proof. unfold releaseLeaseReadyFence, LinuxConsumer.releaseLeaseReadyFence. by sim. Qed.

Lemma sendPeer_sim c type payload fds :
  simulates second (sendPeer c type payload fds) (LinuxState.sendPeer (toLinux c) type payload fds).
Proof. unfold sendPeer, LinuxState.sendPeer. by sim. Qed.

Lemma releaseSyncFd_sim c frame fd :
  simulates second (flReleaseSyncFd c frame fd) (LinuxConsumer.flReleaseSyncFd (toLinux c) frame fd).
Proof.
  unfold flReleaseSyncFd, LinuxConsumer.flReleaseSyncFd. destruct frame as [frame|]; [|by sim].
  rewrite imageCount_to. do 3 (apply sim_if; [done|by sim|]). apply sim_step. intros [localFd|]; [|by sim].
  apply (sim_bind toLinux); [apply (advanceRetired_sim (set_sync c _))|]. intros c1.
  apply (sim_bind toLinux); [apply (releaseFence_sim (set_frameHeld c1 false))|]. intros c2.
  apply sim_if; [done|by sim|]. apply (sim_bind second); [apply sendPeer_sim|]. by sim.
Qed.

Lemma release_sim c frame :
  simulates second (flRelease c frame) (LinuxConsumer.flRelease (toLinux c) frame).
Proof.
  unfold flRelease, LinuxConsumer.flRelease. apply sim_if; [done| |apply releaseSyncFd_sim].
  destruct frame as [frame|]; [|by sim]. do 3 (apply sim_if; [done|by sim|]).
  apply (sim_bind toLinux); [apply (releaseFence_sim (set_frameHeld c false))|]. by sim.
Qed.

Lemma signal_sim c value fd :
  simulates second (flSignalConsumedSyncFd c value fd)
    (LinuxConsumer.flSignalConsumedSyncFd (toLinux c) value fd).
Proof.
  unfold flSignalConsumedSyncFd, LinuxConsumer.flSignalConsumedSyncFd. do 3 (apply sim_if; [done|by sim|]).
  apply sim_step. intros [localFd|]; [|by sim].
  apply (sim_bind toLinux); [apply (advanceRetired_sim (set_sync c _))|]. intros c1.
  apply (sim_bind second); [apply sendPeer_sim|]. by sim.
Qed.

Lemma isHeldImage_to c frame : LinuxConsumer.isHeldImage (toLinux c) frame = isHeldImage c frame.
Proof. unfold LinuxConsumer.isHeldImage, isHeldImage. by rewrite imageCount_to, imageAddr_to. Qed.

(** Results of the lease calls. *)
Definition leased (x : flResult * Z * flChannel * Z) : flResult * Z * LinuxState.flChannel * Z :=
  let '(r, l, c, n) := x in (r, l, toLinux c, n).

Lemma lease_sim c frame next lease :
  simulates leased (flLeaseFrame c frame next lease) (LinuxConsumer.flLeaseFrame (toLinux c) frame next lease).
Proof.
  unfold flLeaseFrame, LinuxConsumer.flLeaseFrame. destruct frame as [frame|]; [|by sim].
  rewrite isHeldImage_to. do 2 (apply sim_if; [done|by sim|]).
  change (LinuxState.ch_readers (toLinux c)) with (ch_readers c).
  change (LinuxState.ch_info (toLinux c)) with (ch_info c).
  destruct (Ledger.acquire _ _ _ _ _) as [[[r t] L] n].
  apply (sim_bind toLinux); [|by sim].
  apply sim_if; [done| |by sim]. apply (releaseFence_sim (set_frameHeld (set_readers c L) false)).
Qed.

Lemma retainLease_to c lease next retained :
  LinuxConsumer.flRetainReadLease (toLinux c) lease next retained = leased (flRetainReadLease c lease next retained).
Proof. unfold LinuxConsumer.flRetainReadLease, flRetainReadLease. pure_sim. Qed.

Lemma completeLease_to c lease :
  LinuxConsumer.flCompleteReadLease (toLinux c) lease = second (flCompleteReadLease c lease).
Proof. unfold LinuxConsumer.flCompleteReadLease, flCompleteReadLease. pure_sim. Qed.

Lemma completeSyncFd_sim c token fd :
  simulates second (flCompleteReadLeaseSyncFd c token fd)
    (LinuxConsumer.flCompleteReadLeaseSyncFd (toLinux c) token fd).
Proof.
  unfold flCompleteReadLeaseSyncFd, LinuxConsumer.flCompleteReadLeaseSyncFd. apply sim_if; [done|by sim|].
  change (LinuxState.ch_readers (toLinux c)) with (ch_readers c).
  destruct (Ledger.get _ _ _ _) as [[got f] g]. apply sim_if; [done|by sim|].
  change (LinuxState.ch_leaseCompletions (toLinux c)) with (ch_leaseCompletions c).
  destruct (find_index _ _) as [j|]; [|by sim]. apply sim_step. intros owned. apply sim_if; [done|by sim|].
  destruct (Ledger.defer _ _) as [r L]. by sim.
Qed.

Lemma pollCompletion_sim j c :
  simulates (sum_map toLinux second) (pollCompletion j c) (LinuxConsumer.pollCompletion j (toLinux c)).
Proof.
  unfold pollCompletion, LinuxConsumer.pollCompletion.
  change (LinuxState.ch_leaseCompletions (toLinux c)) with (ch_leaseCompletions c).
  change (LinuxState.ch_readers (toLinux c)) with (ch_readers c).
  destruct (nth j _ _) as [token fd]. apply sim_if; [done|by sim|]. apply sim_step. intros [result revents].
  apply sim_if; [done|by sim|]. do 3 (apply sim_if; [done|by sim|]).
  destruct (Ledger.finishDeferred _ _) as [r L]. by sim.
Qed.

Lemma pollCompletions_sim c :
  simulates second (pollLeaseCompletions c) (LinuxConsumer.pollLeaseCompletions (toLinux c)).
Proof.
  unfold pollLeaseCompletions, LinuxConsumer.pollLeaseCompletions.
  apply (sim_bind (sum_map toLinux second)); [apply sim_mloop, pollCompletion_sim|].
  intros [c'|e]; by sim.
Qed.

Lemma retire_sim c v :
  simulates second (retireReadLeases c v) (LinuxConsumer.retireReadLeases (toLinux c) v).
Proof.
  unfold retireReadLeases, LinuxConsumer.retireReadLeases. apply (sim_bind second); [|by sim].
  apply sim_if; [done|apply sendPeer_sim|by sim].
Qed.

Lemma collect_sim c :
  simulates second (flCollectReadLeases c) (LinuxConsumer.flCollectReadLeases (toLinux c)).
Proof.
  unfold flCollectReadLeases, LinuxConsumer.flCollectReadLeases. apply sim_if; [done|by sim|].
  apply (sim_bind second); [apply pollCompletions_sim|]. intros [polled c1]. cbn [second fst snd].
  apply sim_if; [done|by sim|]. apply sim_if; [done|by sim|].
  apply (sim_bind second); [apply retire_sim|]. intros [result c2]. cbn [second fst snd].
  apply sim_if; [done|by sim|]. change (LinuxState.ch_readers (toLinux c2)) with (ch_readers c2).
  change (LinuxState.ch_readers (toLinux c1)) with (ch_readers c1).
  destruct (Ledger.retired _ _) as [res L]. by sim.
Qed.
End ConsumerCalls.
