(* ===== verification/AndroidSystem.v ===== *)
(** * Producer and consumer on Android

    The system of System.v with the calls of the Android backend at both ends.
    Every step of it projects to a step of the Linux system (AndroidRefines.v), so
    what is proved there of every interleaving holds here: no slot is handed out
    that the consumer can still see, and frames arrive in order. *)
From stdpp Require Import gmap sorting.
From S2P Require Import Prelude Api Kernel Wire SyncFd Ipc AndroidImage AndroidState AndroidProducer AndroidRing AndroidConsumer AndroidRefines.
From S2P Require Ledger BufferRefs System.

Record Sys := mkSys {
  s_prod : flChannel;
  s_cons : flChannel;
  s_p2c : list Message;
  s_c2p : list Message;
  s_acquired : list (Z * Z);
  s_rel : Z;
  s_next : Z;
}.

(** The Linux system it stands for. *)
Definition toSys (S : Sys) : System.Sys :=
  System.mkSys (toLinux (s_prod S)) (toLinux (s_cons S)) (s_p2c S) (s_c2p S) (s_acquired S) (s_rel S) (s_next S).

Definition with_prod (S : Sys) (P : flChannel) : Sys :=
  mkSys P (s_cons S) (s_p2c S) (s_c2p S) (s_acquired S) (s_rel S) (s_next S).

(** The producer published [ms]. *)
Definition announce (S : Sys) (P : flChannel) (ms : list Message) : Sys :=
  mkSys P (s_cons S) (s_p2c S ++ ms) (s_c2p S) (s_acquired S) (s_rel S) (s_next S).

(** The consumer moved to [C], releasing [ms]. *)
Definition consume (S : Sys) (C : flChannel) (ms : list Message) (next : Z) : Sys :=
  mkSys (s_prod S) C (s_p2c S) (s_c2p S ++ ms) (s_acquired S) (System.raise (s_rel S) ms) next.

Notation runs := System.runs.
Notation with_fds := System.with_fds.

Inductive step (S : Sys) : Sys -> Prop :=
(* producer: [flAcquireBuffer] is PRelease and PAdvance steps ending in PAcquire *)
| PRelease (K : Kernel) m fds rest P' ms :
    s_c2p S = m :: rest -> runs (applyRelease (s_prod S) (with_fds m fds)) P' ms ->
    step S (mkSys P' (s_cons S) (s_p2c S) rest (s_acquired S) (s_rel S) (s_next S))
| PAdvance (K : Kernel) P' ms :
    runs (advanceConsumed (s_prod S)) P' ms -> step S (with_prod S P')
| PAcquire buf P' :
    acquireScan (s_prod S) = Some (buf, P') -> step S (with_prod S P')
| PCancel (K : Kernel) buf r P' ms :
    System.typed_buffer buf -> runs (flCancelBuffer (s_prod S) buf) (r, P') ms -> step S (with_prod S P')
| PBegin buf sv r v P' :
    System.typed_buffer buf -> flBeginSubmit (s_prod S) buf sv = (r, v, P') -> step S (with_prod S P')
| PEnd (K : Kernel) buf v pts r P' ms :
    System.typed_buffer buf -> runs (flEndSubmit (s_prod S) buf v pts) (r, P') ms ->
    step S (announce S P' ms)
| PSubmitFd (K : Kernel) buf fd pts r P' ms :
    System.typed_buffer buf -> runs (flSubmitSyncFd (s_prod S) buf fd pts) (r, P') ms ->
    step S (announce S P' ms)
| PMetadata buf md r P' :
    flSetFrameMetadata (s_prod S) buf md = (r, P') -> step S (with_prod S P')
| PRetain buf next ref r t P' next' :
    flRetainBufferReference (s_prod S) buf next ref = (r, t, P', next') -> step S (with_prod S P')
| PUnretain ref r P' :
    flReleaseBufferReference (s_prod S) ref = (r, P') -> step S (with_prod S P')
(* consumer *)
| CFrame (K : Kernel) m fds rest C' ms :
    s_p2c S = m :: rest -> runs (handleFrame (s_cons S) (with_fds m fds)) (true, C') ms ->
    step S (mkSys (s_prod S) C' rest (s_c2p S) (s_acquired S) (s_rel S) (s_next S))
| CTry (K : Kernel) f C' ms :
    runs (tryAcquireFrame (s_cons S)) (f, C') ms ->
    step S (mkSys (s_prod S) C' (s_p2c S) (s_c2p S)
              (s_acquired S ++ match f with Some f => [(fr_slot f, fr_readyValue f)] | None => [] end)
              (s_rel S) (s_next S))
| CRelease (K : Kernel) frame r C' ms :
    runs (flRelease (s_cons S) frame) (r, C') ms -> step S (consume S C' ms (s_next S))
| CReleaseFd (K : Kernel) frame fd r C' ms :
    runs (flReleaseSyncFd (s_cons S) frame fd) (r, C') ms -> step S (consume S C' ms (s_next S))
| CSignal (K : Kernel) value fd r C' ms :
    u64 value -> runs (flSignalConsumedSyncFd (s_cons S) value fd) (r, C') ms ->
    step S (consume S C' ms (s_next S))
(* framelink.h: "Do not mix manual consumed-fence signalling with leases." *)
| CLease (K : Kernel) frame lease r l C' next' ms :
    s_rel S < ch_heldReady (s_cons S) ->
    runs (flLeaseFrame (s_cons S) frame (s_next S) lease) (r, l, C', next') ms ->
    step S (consume S C' ms next')
| CRetain lease retained r t C' next' :
    flRetainReadLease (s_cons S) lease (s_next S) retained = (r, t, C', next') ->
    step S (consume S C' [] next')
| CComplete lease r C' :
    flCompleteReadLease (s_cons S) lease = (r, C') -> step S (consume S C' [] (s_next S))
| CCompleteFd (K : Kernel) token fd r C' ms :
    runs (flCompleteReadLeaseSyncFd (s_cons S) token fd) (r, C') ms ->
    step S (consume S C' ms (s_next S))
| CCollect (K : Kernel) r C' ms :
    runs (flCollectReadLeases (s_cons S)) (r, C') ms -> step S (consume S C' ms (s_next S)).

(** Just attached: [admitProducer] on one side, [importRing] on the other. *)
Definition attached (S : Sys) : Prop :=
  let P := s_prod S in
  let C := s_cons S in
  (length (ch_images P) <= FL_MAX_POOL_SIZE)%nat
  /\ ch_slotSubmitValue P = replicate (length (ch_images P)) 0
  /\ ch_readyValue P = 0 /\ ch_consumedValue P = 0 /\ ch_submittingValue P = 0
  /\ sy_releases (ch_sync P) = []
  /\ ch_hasPending C = false /\ ch_frameHeld C = false /\ ch_heldReady C = 0
  /\ Ledger.ledger_inv (ch_readers C) (s_next S) /\ Ledger.empty (ch_readers C) = true
  /\ s_p2c S = [] /\ s_c2p S = [] /\ s_acquired S = [] /\ s_rel S = 0.

Inductive reachable : Sys -> Prop :=
| reach_start S : attached S -> reachable S
| reach_step S S' : reachable S -> step S S' -> reachable S'.

(** ** The simulation *)

Lemma attached_to S : attached S -> System.attached (toSys S).
Proof.
  unfold attached, System.attached. destruct S as [P C p2c c2p acq rel next]. simpl. by rewrite length_map.
Qed.

Lemma step_to S S' : step S S' -> System.step (toSys S) (toSys S').
Proof.
  intros []; unfold toSys, with_prod, announce, consume; cbn [s_prod s_cons s_p2c s_c2p s_acquired s_rel s_next].
  - apply (System.PRelease (toSys S) K m fds rest (toLinux P') ms); [done|].
    by apply (runs_sim _ _ _ _ _ (applyRelease_sim (s_prod S) (with_fds m fds))).
  - apply (System.PAdvance (toSys S) K (toLinux P') ms).
    by apply (runs_sim _ _ _ _ _ (advanceConsumed_sim (s_prod S))).
  - apply (System.PAcquire (toSys S) buf (toLinux P')). simpl. by rewrite acquireScan_to, H.
  - destruct H0 as (w & Hr & _).
    apply (System.PCancel (toSys S) K buf r (toLinux P')
      (System.delivered (effects_of w (LinuxProducer.flCancelBuffer (toLinux (s_prod S)) buf w).2))); [done|].
    exists w. split; [|done]. simpl. by rewrite cancel_to, Hr.
  - apply (System.PBegin (toSys S) buf sv r v (toLinux P')); [done|]. simpl. by rewrite begin_to, H0.
  - apply (System.PEnd (toSys S) K buf v pts r (toLinux P') ms); [done|]. by apply end_runs.
  - apply (System.PSubmitFd (toSys S) K buf fd pts r (toLinux P') ms); [done|]. by apply submitfd_runs.
  - apply (System.PMetadata (toSys S) buf md r (toLinux P')). simpl. by rewrite setMetadata_to, H.
  - apply (System.PRetain (toSys S) buf next ref r t (toLinux P') next'). simpl. by rewrite retainReference_to, H.
  - apply (System.PUnretain (toSys S) ref r (toLinux P')). simpl. by rewrite releaseReference_to, H.
  - apply (System.CFrame (toSys S) K m fds rest (toLinux C') ms); [done|].
    by apply (runs_sim second _ _ (true, C') ms (handleFrame_sim (s_cons S) (with_fds m fds))).
  - apply (System.CTry (toSys S) K f (toLinux C') ms).
    by apply (runs_sim second _ _ (f, C') ms (tryAcquire_sim (s_cons S))).
  - apply (System.CRelease (toSys S) K frame r (toLinux C') ms).
    by apply (runs_sim second _ _ (r, C') ms (release_sim (s_cons S) frame)).
  - apply (System.CReleaseFd (toSys S) K frame fd r (toLinux C') ms).
    by apply (runs_sim second _ _ (r, C') ms (releaseSyncFd_sim (s_cons S) frame fd)).
  - apply (System.CSignal (toSys S) K value fd r (toLinux C') ms); [done|].
    by apply (runs_sim second _ _ (r, C') ms (signal_sim (s_cons S) value fd)).
  - apply (System.CLease (toSys S) K frame lease r l (toLinux C') next' ms); [done|].
    by apply (runs_sim leased _ _ (r, l, C', next') ms (lease_sim (s_cons S) frame (s_next S) lease)).
  - apply (System.CRetain (toSys S) lease retained r t (toLinux C') next'). simpl. by rewrite retainLease_to, H.
  - apply (System.CComplete (toSys S) lease r (toLinux C')). simpl. by rewrite completeLease_to, H.
  - apply (System.CCompleteFd (toSys S) K token fd r (toLinux C') ms).
    by apply (runs_sim second _ _ (r, C') ms (completeSyncFd_sim (s_cons S) token fd)).
  - apply (System.CCollect (toSys S) K r (toLinux C') ms).
    by apply (runs_sim second _ _ (r, C') ms (collect_sim (s_cons S))).
Qed.

Lemma reachable_to S : reachable S -> System.reachable (toSys S).
Proof.
  induction 1 as [S H|S S' _ IH Hs]; [by apply System.reach_start, attached_to|].
  eapply System.reach_step; [exact IH|by apply step_to].
Qed.

(** * Theorems *)

(** C13: The Android backend implements the slot protocol of the Linux backend:
    every state two Android ends can reach - whatever the calls, their
    interleaving, the kernel's answers, and the buffers left mapped - projects to
    one two Linux ends can reach, through the same datagrams and answers. *)
Theorem android_refines_linux S : reachable S -> System.reachable (toSys S).
Proof. apply reachable_to. Qed.

(** C12: Zero-copy without tearing on Android: in every reachable state, the slot
    the producer's scan hands out is not named by an announcement in the socket,
    not the consumer's pending frame, not retained by a read lease, and every
    frame ever acquired from it was announced as released; and the application
    acquires frames in strictly increasing order of their ready values. *)
Theorem android_no_overwrite S buf P' :
  reachable S -> acquireScan (s_prod S) = Some (buf, P') ->
  (forall m required fr md, m ∈ s_p2c S -> decodeFrame m required = (Some fr, md) ->
     fm_slot fr <> buf_slot buf)
  /\ (ch_hasPending (s_cons S) = true -> ch_pendingSlot (s_cons S) <> buf_slot buf)
  /\ (forall f, f ∈ System.lease_queue (ch_readers (s_cons S)) -> fr_slot f <> buf_slot buf)
  /\ (forall v, (buf_slot buf, v) ∈ s_acquired S -> v <= s_rel S)
  /\ StronglySorted Z.lt (map snd (s_acquired S)).
Proof.
  intros Hreach Hscan. pose proof (System.reachable_safe _ (reachable_to _ Hreach)) as Hsafe.
  destruct (System.scan_overwrites_nothing (toSys S) buf (toLinux P') Hsafe) as (H1 & H2 & H3 & H4).
  { simpl. by rewrite acquireScan_to, Hscan. }
  split_and!; try done. destruct Hsafe as [F HS]. apply HS.
Qed.

(** ** An example run: a frame published in a mapped buffer, received and taken *)

Definition exImages : list (Z * AhbImage) :=
  [(4096, mkAhbImage 1 (Some (NativeAt 7)) 0 8 FL_FORMAT_RGBA8 [] [] false 2 2);
   (8192, mkAhbImage 2 None 0 8 FL_FORMAT_RGBA8 [] [] false 2 2)].

Definition exProducer : flChannel :=
  set_link (set_slotSubmitValue (set_images newChannel exImages) [0; 0]) (mkChan 8 true 0).
Definition exConsumer : flChannel :=
  set_peer (set_images (set_isConsumer newChannel true) exImages) (mkChan 9 true 0).
Definition exStart : Sys := mkSys exProducer exConsumer [] [] [] 0 1.

Definition acquired (S : Sys) : Sys :=
  match acquireScan (s_prod S) with Some (_, P) => with_prod S P | None => S end.
Definition begun (S : Sys) (b : flBuffer) : Sys :=
  with_prod S (flBeginSubmit (s_prod S) (Some b) 0).2.
Definition ended (S : Sys) (b : flBuffer) (v pts : Z) : Sys :=
  let r := System.run_of (flEndSubmit (K := System.exKernel) (s_prod S) (Some b) v pts) in
  announce S r.1.2 r.2.
Definition received (S : Sys) : Sys :=
  match s_p2c S with
  | m :: rest =>
    let r := System.run_of (handleFrame (K := System.exKernel) (s_cons S) (with_fds m [])) in
    if r.1.1 then mkSys (s_prod S) r.1.2 rest (s_c2p S) (s_acquired S) (s_rel S) (s_next S) else S
  | [] => S
  end.
Definition taken (S : Sys) : Sys :=
  let r := System.run_of (tryAcquireFrame (K := System.exKernel) (s_cons S)) in
  mkSys (s_prod S) r.1.2 (s_p2c S) (s_c2p S)
    (s_acquired S ++ match r.1.1 with Some f => [(fr_slot f, fr_readyValue f)] | None => [] end)
    (s_rel S) (s_next S).

Section ExampleSteps.
Context (S : Sys) (HS : reachable S).

Lemma android_acquired_reach : reachable (acquired S).
Proof.
  unfold acquired. destruct (acquireScan (s_prod S)) as [[b P]|] eqn:E; [|done].
  eapply reach_step; [exact HS|]. by apply (PAcquire S b P).
Qed.

Lemma android_begun_reach b : 0 <= buf_slot b -> reachable (begun S b).
Proof.
  intros Hb. unfold begun. destruct (flBeginSubmit (s_prod S) (Some b) 0) as [[r v] P] eqn:E.
  eapply reach_step; [exact HS|]. by apply (PBegin S (Some b) 0 r v P).
Qed.

Lemma android_ended_reach b v pts : 0 <= buf_slot b -> reachable (ended S b v pts).
Proof.
  intros Hb. unfold ended.
  pose proof (System.run_of_runs (flEndSubmit (K := System.exKernel) (s_prod S) (Some b) v pts)) as HR.
  destruct (System.run_of _) as [[r P] ms]. eapply reach_step; [exact HS|].
  by apply (PEnd S System.exKernel (Some b) v pts r P ms).
Qed.

Lemma android_received_reach : reachable (received S).
Proof.
  unfold received. destruct (s_p2c S) as [|m rest] eqn:E; [done|].
  pose proof (System.run_of_runs (handleFrame (K := System.exKernel) (s_cons S) (with_fds m []))) as HR.
  destruct (System.run_of _) as [[[|] C] ms]; [|done]. eapply reach_step; [exact HS|].
  by apply (CFrame S System.exKernel m [] rest C ms).
Qed.

Lemma android_taken_reach : reachable (taken S).
Proof.
  unfold taken. pose proof (System.run_of_runs (tryAcquireFrame (K := System.exKernel) (s_cons S))) as HR.
  destruct (System.run_of _) as [[f C] ms]. eapply reach_step; [exact HS|].
  by apply (CTry S System.exKernel f C ms).
Qed.
End ExampleSteps.

Definition slot0 : flBuffer := mkBuffer 0 4096.

(** Frame 1 in slot 0 is taken by the application; slot 1 is handed out next. *)
Definition exSystem : Sys := taken (received (ended (begun (acquired exStart) slot0) slot0 1 40)).
Definition exBuffer : flBuffer := mkBuffer 1 8192.
Definition exReserved : flChannel := (reserve (s_prod exSystem) 1).2.

Lemma android_exSystem_reachable : reachable exSystem.
Proof.
  assert (reachable exStart) as H0.
  { apply reach_start. unfold attached. split_and!; try (vm_compute; reflexivity).
    - unfold FL_MAX_POOL_SIZE. simpl. lia.
    - exact Ledger.ledger_start_inv. }
  assert (0 <= buf_slot slot0) as Hb by (unfold slot0; simpl; lia).
  exact (android_taken_reach _ (android_received_reach _ (android_ended_reach _
    (android_begun_reach _ (android_acquired_reach _ H0) _ Hb) _ 1 40 Hb))).
Qed.

Lemma android_refines_linux_witness : reachable exSystem /\ System.reachable (toSys exSystem).
Proof.
  split; [exact android_exSystem_reachable|].
  exact (android_refines_linux exSystem android_exSystem_reachable).
Defined.

Lemma android_no_overwrite_witness :
  reachable exSystem /\ acquireScan (s_prod exSystem) = Some (exBuffer, exReserved)
  /\ s_acquired exSystem = [(0, 1)]
  /\ forall v, (buf_slot exBuffer, v) ∈ s_acquired exSystem -> v <= s_rel exSystem.
Proof.
  split; [exact android_exSystem_reachable|]. split; [vm_compute; reflexivity|]. split; [vm_compute; reflexivity|].
  apply (android_no_overwrite exSystem exBuffer exReserved android_exSystem_reachable).
  vm_compute. reflexivity.
Defined.
