(* ===== verification/AndroidLifetime.v ===== *)
(** * Who owns descriptors and AHardwareBuffers (Android)

    References to buffers are counted with the descriptors.  Closing a channel
    releases exactly what it owns; a creation leaks nothing and consumes a
    delegated socket on every path.  AndroidImport.v does the same for importing a
    ring. *)
From stdpp Require Import gmap sorting.
From S2P Require Import Prelude Api Kernel Resources Wire SyncFd Ipc IpcResources AndroidImage AndroidState AndroidProducer.
From S2P Require Import AndroidRing AndroidChannel.
From S2P Require Ledger.

(** ** What an object owns *)

Definition ahb_res (b : Z) : list Res := if truthy b then [RAhb b] else [].
Definition owned_images (l : list (Z * AhbImage)) : list Res := concat (map (fun x => ahb_res (ai_ahb x.2)) l).

(** The members of [flChannel] with a destructor. *)
Definition owned_members (c : flChannel) : list Res :=
  owned_link (ch_link c) ++ fd_res (map snd (ch_leaseCompletions c)) ++ owned_link (ch_peer c)
  ++ owned_sync (ch_sync c).
Definition owned (c : flChannel) : list Res :=
  fd_res [ch_interruptFd c] ++ owned_images (ch_images c) ++ owned_members c.

(** Everything but the images. *)
Definition owned_rest (c : flChannel) : list Res := fd_res [ch_interruptFd c] ++ owned_members c.

Lemma owned_split c : owned c ≡ₚ owned_images (ch_images c) ++ owned_rest c.
Proof. unfold owned, owned_rest. solve_Permutation. Qed.

Lemma android_owned_push c x : owned (set_images c (ch_images c ++ [x])) ≡ₚ ahb_res (ai_ahb x.2) ++ owned c.
Proof.
  rewrite !owned_split. unfold owned_images. simpl. rewrite map_app, concat_app. simpl. rewrite app_nil_r.
  change (owned_rest (set_images c _)) with (owned_rest c). solve_Permutation.
Qed.

Section Rules.
Context `{K : Kernel, A : Ahb}.
Implicit Types (c : flChannel).

(** ** Disposing *)

Lemma moves_ahb_created f a (Q : Z -> Prop) :
  (forall b, Q b) -> moves a (ahb_created (ask f)) (fun b => ahb_res b ++ a) Q.
Proof.
  intros HQ. unfold ahb_created, ahb_res. eapply moves_bind; [by apply (moves_ask _ _ (fun _ => True))|].
  intros b _. destruct (truthy b) eqn:E.
  - apply emits_bind, emits_effect, emits_ret. rewrite E. split; [|done].
    unfold account. simpl. apply Permutation_app_comm.
  - apply emits_bind, emits_ret, emits_ret. rewrite E. split; [|done]. apply account_nil.
Qed.

Lemma moves_ahb_release b a (Q : unit -> Prop) : Q tt -> moves (RAhb b :: a) (ahb_release b) (fun _ => a) Q.
Proof. intros HQ. apply emits_effect. split; [|done]. unfold account. simpl. by rewrite app_nil_r. Qed.

Lemma unmapImage_moves img a :
  moves a (unmapImage img) (fun _ => a) (fun i => ai_ahb i = ai_ahb img).
Proof.
  unfold unmapImage. assert (ai_ahb (flImageUnmap img ∅).1.1 = ai_ahb img) as H.
  { unfold flImageUnmap. by destruct (ai_mapped img). }
  destruct (flImageUnmap img ∅) as [[img' m] locks]. cbn [fst] in H.
  eapply moves_bind with (b := fun _ => a) (Q := fun _ => True); [|intros [] _; by apply moves_ret].
  induction locks as [|x locks IH]; cbn [mfor]; [by apply moves_ret|].
  eapply moves_bind; [by apply (moves_effect _ _ (fun _ => True))|]. intros [] _. exact IH.
Qed.

Lemma android_freeImage_moves x img a :
  moves (ahb_res (ai_ahb img) ++ a) (freeImage x img) (fun _ => a) (fun _ => True).
Proof.
  unfold freeImage. eapply moves_bind; [apply unmapImage_moves|]. intros i ->.
  eapply moves_bind with (b := fun _ => a) (Q := fun _ => True); [|intros [] _; by apply moves_effect].
  unfold ahb_res. destruct (truthy _); [by apply moves_ahb_release|by apply moves_ret].
Qed.

Lemma android_freeImages_moves l a : moves (owned_images l ++ a) (freeImages l) (fun _ => a) (fun _ => True).
Proof.
  unfold freeImages, owned_images. apply moves_mfor; [done|]. intros [x img] b _. apply android_freeImage_moves.
Qed.

Lemma android_deleteChannel_moves c a :
  moves (owned_members c ++ a) (deleteChannel c) (fun _ => a) (fun _ => True).
Proof.
  unfold deleteChannel, owned_members. rewrite <- !app_assoc.
  eapply moves_bind; [apply chan_close_moves|]. intros ? _.
  eapply moves_bind with (b := fun _ => owned_link (ch_peer c) ++ owned_sync (ch_sync c) ++ a) (Q := fun _ => True).
  { eapply moves_perm; [|by apply (moves_closes (rev (map snd (ch_leaseCompletions c))) _ (fun _ => True))].
    by rewrite fd_res_rev. }
  intros [] _. eapply moves_bind; [apply chan_close_moves|]. intros ? _.
  eapply moves_bind; [apply sync_clear_moves|]. intros ? _. by apply moves_ret.
Qed.

Lemma android_flClose_moves c a : moves (owned c ++ a) (flClose c) (fun _ => a) (fun _ => True).
Proof.
  unfold flClose, owned. rewrite <- !app_assoc.
  eapply moves_bind with (b := fun _ => fd_res [ch_interruptFd c] ++ owned_images (ch_images c)
    ++ owned_members c ++ a) (Q := fun _ => True).
  { destruct (ch_isConsumer c); [destruct (ch_delegated c)|].
    - destruct (0 <=? _); [by apply moves_effect|by apply moves_ret].
    - eapply moves_bind; [apply connect_moves|]. intros ch _.
      eapply moves_bind; [apply chan_close_moves|]. intros ? _. by apply moves_ret.
    - destruct (connected _); [|by apply moves_ret].
      eapply moves_bind; [apply send_moves|]. intros ? _. by apply moves_ret. }
  intros [] _. eapply moves_bind; [by apply (moves_close_valid _ _ (fun _ => True))|]. intros [] _.
  eapply moves_bind; [apply android_freeImages_moves|]. intros [] _. apply android_deleteChannel_moves.
Qed.

(** ** The ring *)

Lemma clearSync_moves c a :
  moves (owned_sync (ch_sync c) ++ a) (clearSync c) (fun _ => a) (fun r => r = set_sync c noSync).
Proof.
  unfold clearSync. eapply moves_bind; [apply sync_clear_moves|]. intros s ->. by apply moves_ret.
Qed.

Lemma android_allocImage_moves c w h a :
  moves a (allocImage c w h)
    (fun o => match o with Some (_, img) => ahb_res (ai_ahb img) | None => [] end ++ a) (fun _ => True).
Proof.
  unfold allocImage. eapply moves_bind; [by apply (moves_ask _ _ (fun _ => True))|]. intros x _.
  eapply moves_bind; [by apply (moves_ahb_created _ _ (fun _ => True))|]. intros b _.
  unfold ahb_res at 1. destruct (truthy b) eqn:E; cbn [negb].
  - apply moves_ret; [|done]. cbn. unfold ahb_res. by rewrite E.
  - eapply moves_bind; [by apply (moves_effect _ _ (fun _ => True))|]. intros [] _. by apply moves_ret.
Qed.

(** What the loop of [reallocRing] holds. *)
Definition fresh_res (o : list (Z * AhbImage) + unit) : list Res :=
  match o with inl l => owned_images l | inr _ => [] end.

Lemma owned_images_app l l' : owned_images (l ++ l') = owned_images l ++ owned_images l'.
Proof. unfold owned_images. by rewrite map_app, concat_app. Qed.

Lemma reallocLoop_moves c w h n a :
  moves a (mloop (seq 0 n) (fun _ fresh =>
    let! img := allocImage c w h in
    match img with
    | None => freeImages fresh ;; ret (inr tt)
    | Some img => ret (inl (fresh ++ [img]))
    end) []) (fun o => fresh_res o ++ a) (fun _ => True).
Proof.
  eapply moves_mono; [apply (moves_mloop owned_images (fun _ : unit => []) (fun _ => True) (fun _ => True)
    (seq 0 n) _ [] a)| |]; [done| |done|by intros [|]].
  intros i l _ _. eapply moves_bind; [apply android_allocImage_moves|]. intros [[x img]|] _.
  - apply moves_ret; [|done]. rewrite owned_images_app. unfold owned_images. simpl. solve_Permutation.
  - eapply moves_bind; [apply android_freeImages_moves|]. intros [] _. by apply moves_ret.
Qed.

Lemma android_reallocRing_moves c w h n a :
  moves (owned c ++ a) (reallocRing c w h n) (fun r => owned r.2 ++ a)
    (fun r => ch_interruptFd r.2 = ch_interruptFd c).
Proof.
  unfold reallocRing. eapply moves_bind; [apply (reallocLoop_moves c w h n (owned c ++ a))|].
  intros [l|u] _; cbn [fresh_res]; [|by apply moves_ret].
  set (rest := fd_res [ch_interruptFd c] ++ owned_link (ch_link c)
    ++ fd_res (map snd (ch_leaseCompletions c)) ++ owned_link (ch_peer c)).
  eapply moves_bind with (b := fun _ => owned_sync (ch_sync c) ++ owned_images l ++ rest ++ a) (Q := fun _ => True).
  { eapply moves_perm; [|apply android_freeImages_moves]. unfold owned, owned_members, rest.
    rewrite <- !app_assoc. solve_Permutation. }
  intros [] _. match goal with |- moves _ (bind (clearSync ?x) _) _ _ => change (ch_sync c) with (ch_sync x) end.
  eapply moves_bind; [apply clearSync_moves|]. intros r ->.
  apply moves_ret; [|done].
  unfold owned, owned_members, rest. simpl. rewrite <- !app_assoc. solve_Permutation.
Qed.

(** Where [adoptRing] and [importRing] are. *)
Definition side {S} (o : flChannel * S + flResult * flChannel) : flChannel :=
  match o with inl s => s.1 | inr e => e.2 end.

Lemma android_adoptOne_moves getId image st a :
  moves (owned st.1 ++ a) (adoptOne getId image st) (fun o => owned (side o) ++ a)
    (fun o => ch_interruptFd (side o) = ch_interruptFd st.1).
Proof.
  destruct st as [c ids]. unfold adoptOne. cbn [fst].
  destruct (truthy image) eqn:E; cbn [negb]; [|by apply moves_ret].
  destruct (getId image) as [id|]; [|by apply moves_ret].
  destruct (existsb _ _); [by apply moves_ret|]. destruct (negb _); [by apply moves_ret|].
  eapply moves_bind; [by apply (moves_ask _ _ (fun _ => True))|]. intros x _.
  eapply moves_bind with (b := fun _ => [RAhb image] ++ owned c ++ a) (Q := fun _ => True).
  { apply emits_effect. split; [|done]. unfold account. simpl. apply Permutation_app_comm. }
  intros [] _. apply moves_ret; [|done]. cbn [side fst]. rewrite android_owned_push. cbn. unfold ahb_res. by rewrite E.
Qed.

Lemma android_adoptRing_moves c images count a :
  moves (owned c ++ a) (adoptRing c images count) (fun r => owned r.2 ++ a)
    (fun r => ch_interruptFd r.2 = ch_interruptFd c).
Proof.
  unfold adoptRing. destruct ahb_getId as [getId|]; [|by apply moves_ret].
  eapply moves_bind with (b := fun o => owned (side o) ++ a) (Q := fun o => ch_interruptFd (side o) = ch_interruptFd c).
  - eapply moves_mono; [apply (moves_mloop (fun st : flChannel * list Z => owned st.1)
      (fun e : flResult * flChannel => owned e.2) (fun st => ch_interruptFd st.1 = ch_interruptFd c)
      (fun e => ch_interruptFd e.2 = ch_interruptFd c) _ (adoptOne getId) (c, []) a)| |]; [done| |done|].
    + intros image st _ Hst. eapply moves_mono; [apply android_adoptOne_moves|done|].
      intros [s|e] H; (split; [done|]); simpl in *; congruence.
    + by intros [s|e].
  - intros [[c' ids]|[r c']] H; by apply moves_ret.
Qed.

(** ** Creating *)

(** What a creation leaves: the channel, and the socket of its accept thread. *)
Definition created_res (r : Created) : list Res :=
  match r.2 with Some (c, link) => owned_link link ++ owned c | None => [] end.

Definition answered (r : Created) : Prop := r.1 = FL_OK <-> is_Some r.2.

Lemma refuse_moves delegated r :
  r <> FL_OK -> moves (owned_link delegated ++ []) (let! _ := chan_close delegated in ret (r, None)) created_res answered.
Proof.
  intros Hr. eapply moves_bind; [apply chan_close_moves|]. intros ? _. apply moves_ret; [done|].
  unfold answered. cbn. split; [done|by intros []].
Qed.

Lemma abandon_moves c delegated r :
  r <> FL_OK -> moves (owned c ++ owned_link delegated ++ []) (abandon c delegated r) created_res answered.
Proof.
  intros Hr. unfold abandon. eapply moves_bind; [apply android_flClose_moves|]. intros [] _. by apply refuse_moves.
Qed.

Lemma startConsumer_moves c delegated :
  moves (owned c ++ owned_link delegated ++ []) (startConsumer c delegated) created_res answered.
Proof.
  unfold startConsumer. eapply moves_bind; [by apply (moves_ask _ _ (fun _ => True))|]. intros [|] _; cbn [negb].
  - apply moves_ret; [|unfold answered; cbn; split; [by eexists|done]]. unfold created_res. cbn.
    rewrite app_nil_r. apply Permutation_app_comm.
  - by apply abandon_moves.
Qed.

Lemma createRefusal_not_ok w h f n flags e r : createRefusal w h f n flags e = Some r -> r <> FL_OK.
Proof. unfold createRefusal. repeat case_match; congruence. Qed.

(** The ring of [createChannel]: allocated or adopted. *)
Lemma ring_moves c w h n external a :
  moves (owned c ++ a)
    (match external with
     | Some images => adoptRing c images n
     | None => let! (ok, c) := reallocRing c w h n in ret (if (ok : bool) then FL_OK else FL_OOM, c)
     end) (fun r => owned r.2 ++ a) (fun r => ch_interruptFd r.2 = ch_interruptFd c).
Proof.
  destruct external as [images|].
  - apply android_adoptRing_moves.
  - eapply moves_bind; [apply android_reallocRing_moves|]. intros [ok c'] H. by apply moves_ret.
Qed.

Lemma interruptFd_moves c link a :
  ch_interruptFd c = -1 ->
  moves (owned c ++ a) (opened (dup (pollFd link)))
    (fun fd => owned (set_interruptFd c fd) ++ a) (fun _ => True).
Proof.
  intros Hc. eapply moves_mono; [by apply (moves_opened _ (owned c ++ a) (fun _ => True))|done|].
  intros fd _. split; [|done]. unfold owned. rewrite Hc, (fd_res_0 (-1)) by lia. simpl. by rewrite app_assoc.
Qed.

Lemma android_createChannel_moves name w h f n flags delegated fromFd external :
  moves (owned_link delegated ++ []) (createChannel name w h f n flags delegated fromFd external)
    created_res answered.
Proof.
  unfold createChannel. destruct name as [name|]; [|by apply refuse_moves].
  destruct (createRefusal _ _ _ _ _ _) as [r|] eqn:E; [by apply refuse_moves, (createRefusal_not_ok _ _ _ _ _ _ _ E)|].
  set (c0 := consumerChannel _ _ _ _ _ _ _ _).
  eapply moves_bind.
  { eapply moves_perm; [|apply (ring_moves c0 w h (Z.to_nat n) external (owned_link delegated ++ []))]. done. }
  intros [r c] Hc. cbn [snd] in *. destruct (bool_decide (r = FL_OK)) eqn:Er; cbn [negb];
    [|by apply abandon_moves; apply bool_decide_eq_false in Er].
  destruct fromFd; cbn [negb]; [|apply startConsumer_moves].
  eapply moves_bind; [by apply interruptFd_moves; rewrite Hc|]. intros fd _.
  destruct (fd <? 0); [by apply abandon_moves|apply startConsumer_moves].
Qed.

(** The two ways in over a socket the caller gives away. *)
Lemma android_adopted_moves fd timeout k :
  (forall link, connected link = true -> moves (owned_link link ++ []) (k link) created_res answered) ->
  moves (fd_res [fd] ++ [])
    (let! link := adoptConnectedFd fd timeout in
     if negb (connected link) then (let! _ := chan_close link in ret (FL_INVALID, None)) else k link)
    created_res answered.
Proof.
  intros Hk. eapply moves_bind; [apply adoptConnectedFd_moves|]. intros link _.
  destruct (connected link) eqn:E; cbn [negb]; [by apply Hk|by apply refuse_moves].
Qed.

Lemma android_createFd_moves fd w h f n flags timeout :
  moves (fd_res [fd] ++ []) (flCreateChannelFromSocketFd fd w h f n flags timeout) created_res answered.
Proof. apply android_adopted_moves. intros link _. apply android_createChannel_moves. Qed.

Lemma android_createFdBuffers_moves fd w h f n flags timeout images :
  moves (fd_res [fd] ++ []) (flCreateChannelFromSocketFdWithHardwareBuffers fd w h f n flags timeout images)
    created_res answered.
Proof.
  unfold flCreateChannelFromSocketFdWithHardwareBuffers.
  eapply moves_bind; [apply adoptConnectedFd_moves|]. intros link _.
  destruct (_ || _); [by apply refuse_moves|apply android_createChannel_moves].
Qed.

Lemma android_createBuffers_moves name w h f n flags images :
  moves [] (flCreateChannelFromHardwareBuffers name w h f n flags images) created_res answered.
Proof.
  unfold flCreateChannelFromHardwareBuffers. destruct (_ || _); [apply moves_ret; [done|]|].
  - unfold answered. cbn. split; [done|by intros []].
  - apply (android_createChannel_moves _ _ _ _ _ _ noChannel).
Qed.

(** From holding [a], the creation [m] answers and accounts for everything. *)
Definition creates (a : list Res) (m : M Created) (w : World) : Prop :=
  let '(r, w') := m w in
  answered r /\ a ++ gained (effects_of w w') ≡ₚ lost (effects_of w w') ++ created_res r.

Lemma moves_creates a m w : moves (a ++ []) m created_res answered -> creates a m w.
Proof.
  intros H. pose proof (emits_run _ _ w H) as HE. unfold creates. destruct (m w) as [r w'].
  destruct HE as [HE HQ]. split; [done|]. unfold account in HE. by rewrite app_nil_r in HE.
Qed.

(** Creating an Android channel leaks nothing, whichever of the four ways: a
    name or a delegated socket, buffers of its own or the application's.  A channel
    comes back exactly with FL_OK; every descriptor and buffer reference the call
    gained it gave back, except those of that channel and of the link its accept
    thread starts with; and a delegated descriptor belongs to the callee on every
    path - a refused argument, a failed allocation, a thread that does not start -
    so the caller never closes it. *)
Theorem android_create_no_leak name fd width height format poolSize flags timeout images w :
  creates [] (flCreateChannelEx name width height format poolSize flags) w
  /\ creates [] (flCreateChannelFromHardwareBuffers name width height format poolSize flags images) w
  /\ creates (fd_res [fd]) (flCreateChannelFromSocketFd fd width height format poolSize flags timeout) w
  /\ creates (fd_res [fd])
       (flCreateChannelFromSocketFdWithHardwareBuffers fd width height format poolSize flags timeout images) w.
Proof.
  split_and!; apply moves_creates.
  - apply (android_createChannel_moves _ _ _ _ _ _ noChannel).
  - apply android_createBuffers_moves.
  - apply android_createFd_moves.
  - apply android_createFdBuffers_moves.
Qed.

(** [flClose] releases exactly what an Android channel owns - a reference on
    each buffer of the ring, mapped or not, its descriptors, the fences queued for
    either side, the lease completions - each once and nothing else. *)
Theorem android_close_releases_all c w :
  let es := effects_of w (flClose c w).2 in owned c ++ gained es ≡ₚ lost es.
Proof.
  pose proof (emits_run _ _ w (android_flClose_moves c [])) as [HE _]. unfold account in HE.
  by rewrite !app_nil_r in HE.
Qed.
End Rules.
