(* ===== verification/AndroidImport.v ===== *)
(** * Importing a ring on Android

    [importRing] takes its buffers off the socket one by one.  Every handle it
    receives is in the ring or released, whatever happens, and a ring it accepts is
    the described one; but an import that stops half way leaves half a ring behind,
    under the slot table of the ring before it. *)
From stdpp Require Import gmap sorting.
From S2P Require Import Prelude Api Kernel Resources Wire SyncFd Ipc IpcResources AndroidImage AndroidState AndroidProducer.
From S2P Require Import AndroidLifetime.
From S2P Require System AndroidSystem.

Section Importing.
Context `{K : Kernel, A : Ahb}.
Implicit Types (c : flChannel) (rd : RingDescMsg).

(** ** The ring a description promises *)

(** [x] is the image of slot [i]: on a live buffer that has the described geometry. *)
Definition promised rd (i : nat) (x : Z * AhbImage) : Prop :=
  ai_ahb x.2 <> 0
  /\ x.2 = ahbImage (ai_ahb x.2) (rd_format rd) (nth i (rd_stride rd) 0) (rd_width rd) (rd_height rd)
  /\ nativeMatches rd i (ahb_describe (ai_ahb x.2)) = true.

Definition promisedRing rd (l : list (Z * AhbImage)) : Prop :=
  forall i x, l !! i = Some x -> promised rd i x.

Lemma promisedRing_push rd l x :
  promisedRing rd l -> promised rd (length l) x -> promisedRing rd (l ++ [x]).
Proof.
  intros Hl Hx i y. rewrite lookup_app_Some. intros [Hy|[Hi Hy]]; [by apply Hl|].
  apply list_lookup_singleton_Some in Hy as [H0 <-]. by replace i with (length l) by lia.
Qed.

(** [c] is [c0] with the first [k] buffers in place. *)
Definition built c0 rd (k : nat) c : Prop :=
  exists l, c = set_images c0 l /\ length l = k /\ promisedRing rd l.

(** A failed import: fewer than [n] of them. *)
Definition halfBuilt c0 rd (n : nat) (r : flResult) c : Prop :=
  r <> FL_OK /\ exists k, (k < n)%nat /\ built c0 rd k c.

Definition importState (o : flChannel + flResult * flChannel) : flChannel :=
  match o with inl c => c | inr e => e.2 end.

Lemma importOne_moves c0 rd i c a :
  built c0 rd i c ->
  moves (owned c ++ a) (importOne rd i c) (fun o => owned (importState o) ++ a)
    (fun o => match o with
              | inl c' => built c0 rd (S i) c'
              | inr e => halfBuilt c0 rd (S i) e.1 e.2
              end).
Proof.
  intros Hb. unfold importOne. eapply moves_bind; [by apply (moves_ask _ _ (fun _ => True))|]. intros addr _.
  eapply moves_bind; [by apply (moves_ahb_created _ _ (fun _ => True))|]. intros ahb _.
  assert (forall r, r <> FL_OK -> halfBuilt c0 rd (S i) r c) as Hh.
  { intros r Hr. split; [done|]. exists i. split; [lia|done]. }
  unfold ahb_res. destruct (truthy ahb) eqn:E; cbn [negb].
  - destruct (nativeMatches _ _ _) eqn:EN; cbn [negb].
    + apply moves_ret; [|].
      * cbn [importState]. rewrite android_owned_push. cbn. unfold ahb_res. by rewrite E.
      * destruct Hb as (l & -> & Hl & Hp). exists (l ++ [(addr, ahbImage ahb (rd_format rd)
          (nth i (rd_stride rd) 0) (rd_width rd) (rd_height rd))]).
        split; [done|]. rewrite length_app, Hl. split; [cbn; lia|].
        apply promisedRing_push; [done|]. rewrite Hl. split_and!; [by apply truthy_true|done|done].
    + eapply moves_bind with (b := fun _ => owned c ++ a) (Q := fun _ => True).
      * pose proof (android_freeImage_moves addr (ahbImage ahb FL_FORMAT_RGBA8 0 0 0) (owned c ++ a)) as H.
        unfold ahb_res in H. cbn in H. rewrite E in H. exact H.
      * intros [] _. apply moves_ret; [done|]. by apply Hh.
  - eapply moves_bind; [by apply (moves_effect _ _ (fun _ => True))|]. intros [] _.
    apply moves_ret; [done|]. by apply Hh.
Qed.

Lemma importLoop_moves c0 rd n k c a :
  built c0 rd k c ->
  moves (owned c ++ a) (mloop (seq k n) (importOne rd) c) (fun o => owned (importState o) ++ a)
    (fun o => match o with
              | inl c' => built c0 rd (k + n) c'
              | inr e => halfBuilt c0 rd (k + n) e.1 e.2
              end).
Proof.
  revert k c. induction n as [|n IH]; intros k c Hb; cbn [seq mloop].
  { apply moves_ret; [done|]. by rewrite Nat.add_0_r. }
  eapply moves_bind; [by apply (importOne_moves c0)|]. intros [c'|[r c']] H.
  - rewrite <- Nat.add_succ_comm. by apply IH.
  - apply moves_ret; [done|]. destruct H as (Hr & j & Hj & Hb'). split; [done|]. exists j. split; [lia|done].
Qed.

Lemma drain_moves c rd a : moves a (drainDuplicates c rd) (fun _ => a) (fun _ => True).
Proof.
  unfold drainDuplicates. eapply moves_bind with (b := fun _ => a) (Q := fun _ => True);
    [|intros [] _; by apply moves_ret].
  eapply moves_mono; [apply (moves_mloop (fun _ : unit => []) (fun _ : flResult => []) (fun _ => True)
    (fun _ => True) _ _ tt a)| |]; [done| |done|by intros [|]].
  intros i s _ _. eapply moves_bind; [by apply (moves_ahb_created _ _ (fun _ => True))|]. intros d _.
  unfold ahb_res. destruct (truthy d); cbn [negb]; [|by apply moves_ret].
  eapply moves_bind; [by apply (moves_ahb_release _ _ (fun _ => True))|]. intros [] _. by apply moves_ret.
Qed.

(** ** What an import leaves *)

(** The description installed over the channel [c]. *)
Definition installed c rd c' : Prop :=
  length (ch_images c') = Z.to_nat (rd_poolSize rd) /\ promisedRing rd (ch_images c')
  /\ c' = adoptDescription (set_images (set_sync c noSync) (ch_images c')) rd.

(** The producer holds the ring of [rd] already: the resize was refused. *)
Definition held c rd : Prop :=
  rd_generation rd = info_generation (ch_info c) /\ ch_images c <> [].

Definition imported c (ring : option RingDescMsg) (r : flResult) c' : Prop :=
  (c' = c /\ r = FL_INVALID)
  \/ exists d, ring = Some d
     /\ ((c' = c /\ held c d)
         \/ (r = FL_OK /\ installed c d c')
         \/ halfBuilt (set_sync c noSync) d (Z.to_nat (rd_poolSize d)) r c').

Lemma android_importRing_moves c ring a :
  moves (owned c ++ a) (importRing c ring) (fun r => owned r.2 ++ a) (fun r => imported c ring r.1 r.2).
Proof.
  unfold importRing. destruct ring as [d|]; [|apply moves_ret; [done|by left]].
  destruct (_ || _); [apply moves_ret; [done|]; by left|].
  destruct (_ && negb _) eqn:EG.
  { apply andb_true_iff in EG as [EG EI%negb_true_iff]. eapply moves_bind; [apply drain_moves|]. intros r _.
    apply moves_ret; [done|]. right. exists d. split; [done|]. left. split; [done|].
    split; [by apply Z.eqb_eq|]. intros E. by rewrite E in EI. }
  set (rest := fd_res [ch_interruptFd c] ++ owned_link (ch_link c)
    ++ fd_res (map snd (ch_leaseCompletions c)) ++ owned_link (ch_peer c)).
  eapply moves_bind with (b := fun c' => owned c' ++ a) (Q := fun c' => c' = set_sync c noSync).
  { eapply moves_mono; [apply (clearSync_moves c (owned_images (ch_images c) ++ rest ++ a))| |].
    - unfold owned, owned_members, rest. solve_Permutation.
    - intros c' ->. split; [|done]. unfold owned, owned_members, rest. simpl. solve_Permutation. }
  intros ? ->. eapply moves_bind with (b := fun _ => owned (set_images (set_sync c noSync) []) ++ a)
    (Q := fun _ => True).
  { eapply moves_perm; [|apply (android_freeImages_moves (ch_images c))].
    rewrite (owned_split (set_sync _ _)), (owned_split (set_images _ _)). simpl. rewrite <- app_assoc. done. }
  intros [] _. eapply moves_bind; [apply (importLoop_moves (set_sync c noSync) d _ 0)|].
  { by exists []. }
  intros [c'|[r c']] H; (apply moves_ret; [done|]); right; exists d; (split; [done|]).
  - right. left. destruct H as (l & -> & Hl & Hp). split; [done|]. by split_and!.
  - by right; right.
Qed.

(** Importing a ring accounts for every buffer reference: one per handle taken
    off the socket, in the ring or released.  A description out of bounds, or the
    generation the producer already has, changes nothing; a success installs
    exactly the described ring - each image on a live buffer whose native geometry
    matches, every slot free, the values at zero, no fence pending - and any other
    failure happens before the last buffer. *)
Theorem android_import_accounted c ring w :
  let '((r, c'), w') := importRing c ring w in
  let es := effects_of w w' in
  imported c ring r c' /\ owned c ++ gained es ≡ₚ lost es ++ owned c'.
Proof.
  pose proof (emits_run _ _ w (android_importRing_moves c ring [])) as HE.
  destruct (importRing c ring w) as [[r c'] w']. cbn [fst snd] in HE |- *.
  destruct HE as [HE HQ]. split; [done|]. unfold account in HE. by rewrite !app_nil_r in HE.
Qed.
End Importing.

(** ** Half a ring *)

(** Three handles arrive, the fourth does not. *)
Definition exShort : Ahb :=
  {| ahb_allocate := fun _ _ => 0;
     ahb_describe := fun _ => mkDesc 4 2 1 (ahbFormatFor FL_FORMAT_RGBA8) 0 4;
     ahb_isSupported := fun _ => true;
     ahb_getId := None;
     ahb_sendHandle := fun _ _ _ => true;
     ahb_recvHandle := fun t _ => if (t <? 13)%nat then Z.of_nat t + 100 else 0;
     ahb_thread := fun _ => true |}.

(** A pool of four, for a producer that has two slots. *)
Definition exFour : RingDescMsg :=
  mkRingDesc 4 2 FL_FORMAT_RGBA8 4 9 (replicate 16 0) 0 0 (replicate 16 16) (replicate 16 0) 0 0 0
    (replicate 16 0) (replicate 64 0) (replicate 64 0).

Definition exHalf : flResult * flChannel :=
  (importRing (K := System.exKernel) (A := exShort) AndroidSystem.exProducer (Some exFour) (mkWorld 0 [])).1.

(** After an import that failed on its fourth buffer the producer has three images
    and the slot table of the two it had, on a link that is still connected. *)
Lemma android_half_ring :
  exHalf.1 = FL_DISCONNECTED /\ length (ch_images exHalf.2) = 3%nat
  /\ length (ch_slotSubmitValue exHalf.2) = 2%nat /\ connected (ch_link exHalf.2) = true.
Proof. vm_compute. done. Qed.
