(* ===== verification/Slots.v ===== *)
(** * Taking a slot of a set (src/framelink_slots.cpp)

    [flOpenProducerSlot] walks the channels [prefix.0] .. [prefix.N-1] and attaches
    to the first free one.  The walk is written against the public API, so it is
    modelled against an interface that each backend implements.

    Fuel: one unit per sweep. *)
From S2P Require Import Prelude Api Kernel.

(** What the walk needs of a backend: attaching, and asking for a geometry.  Calls
    take time. *)
Class Backend := {
  be_clock : nat -> Z;              (* steady_clock::now, nanoseconds *)
  be_channel : Type;
  be_open : list Z -> M (flResult * option be_channel);            (* flOpenProducer *)
  be_request : be_channel -> Z -> Z -> Z -> M (option flResult * be_channel);  (* flRequestGeometry *)
}.

(** ** Names *)

(** [std::to_string(i)], most significant digit first. *)
Fixpoint digits (fuel n : nat) : list Z :=
  match fuel with
  | O => []
  | S fuel' =>
    let d := 48 + Z.of_nat (n mod 10) in
    if (n <? 10)%nat then [d] else digits fuel' (n / 10) ++ [d]
  end.
Definition to_string (n : nat) : list Z := digits (S n) n.

(** [std::string(prefix) + "." + std::to_string(i)] *)
Definition slotName (prefix : list Z) (i : nat) : list Z := prefix ++ 46 :: to_string i.

Section Walk.
Context `{B : Backend}.

(** What comes back: the result, and the channel with its slot. *)
Definition SlotAnswer : Type := flResult * option (be_channel * nat).

(** The body of the sweep for slot [i]; [inl] is [continue]. *)
Definition trySlot (prefix : list Z) (width height format : Z) (i : nat) (anyExisted : bool)
  : M (bool + SlotAnswer) :=
  let! (r, ch) := be_open (slotName prefix i) in
  return_if! bool_decide (r = FL_BUSY) with ret (inl true) ;;
  return_if! bool_decide (r = FL_NOT_FOUND) with ret (inl anyExisted) ;;
  return_if! negb (bool_decide (r = FL_OK)) with ret (inr (r, None)) ;;
  match ch with
  | None => ret (inr (FL_OK, None))
  | Some ch =>
    let! ch := (if truthy width && truthy height
                then let! (_, ch) := be_request ch width height format in ret ch else ret ch) in
    ret (inr (FL_OK, Some (ch, i)))
  end.

Definition sweep (prefix : list Z) (slots width height format : Z) : M (bool + SlotAnswer) :=
  mloop (seq 0 (Z.to_nat slots)) (trySlot prefix width height format) false.

(** 200 ms *)
Definition sleepSlot : M unit := usleep 200000.

Fixpoint sweeps (fuel : nat) (prefix : list Z) (slots width height format deadline : Z)
  : M (option SlotAnswer) :=
  match fuel with
  | O => ret None
  | S fuel' =>
    let! r := sweep prefix slots width height format in
    match r with
    | inr answer => ret (Some answer)
    | inl anyExisted =>
      let! now := ask be_clock in
      return_if! deadline <=? now
        with ret (Some (if (anyExisted : bool) then FL_BUSY else FL_NOT_FOUND, None)) ;;
      sleepSlot ;;
      sweeps fuel' prefix slots width height format deadline
    end
  end.

(** [None] for [prefix] is the null pointer. *)
Definition flOpenProducerSlot (fuel : nat) (prefix : option (list Z))
  (slots width height format timeoutMs : Z) : M (option SlotAnswer) :=
  match prefix with
  | None => ret (Some (FL_INVALID, None))
  | Some prefix =>
    return_if! negb (truthy slots) with ret (Some (FL_INVALID, None)) ;;
    let! start := ask be_clock in
    sweeps fuel prefix slots width height format (start + timeoutMs * 1000000)
  end.
End Walk.

(** * Properties *)

(** ** Names of different slots differ *)

Fixpoint number (acc : nat) (l : list Z) : nat :=
  match l with
  | [] => acc
  | d :: l => number (acc * 10 + Z.to_nat (d - 48)) l
  end.

Lemma number_snoc l d acc : number acc (l ++ [d]) = (number acc l * 10 + Z.to_nat (d - 48))%nat.
Proof. revert acc. induction l as [|x l IH]; intros acc; [done|]. apply IH. Qed.

Lemma number_digits fuel n : (n < fuel)%nat -> number 0 (digits fuel n) = n.
Proof.
  revert n. induction fuel as [|fuel IH]; intros n Hn; [lia|]. cbn [digits].
  pose proof (Nat.div_mod_eq n 10). pose proof (Nat.mod_upper_bound n 10 ltac:(lia)).
  destruct (n <? 10)%nat eqn:E.
  - apply Nat.ltb_lt in E. cbn [number]. rewrite Nat.mod_small by done. lia.
  - apply Nat.ltb_ge in E. rewrite number_snoc, IH; [lia|]. apply (Nat.lt_le_trans _ n); [|lia].
    apply Nat.div_lt; lia.
Qed.

Lemma to_string_number n : number 0 (to_string n) = n.
Proof. apply number_digits. lia. Qed.

Lemma slotName_inj prefix i j : slotName prefix i = slotName prefix j -> i = j.
Proof.
  unfold slotName. intros [= H]%app_inv_head. by rewrite <- (to_string_number i), H, to_string_number.
Qed.

(** ** What the walk did *)

Section Answers.
Context `{B : Backend}.
Implicit Types (prefix : list Z).

(** The law of the interface: a call takes time, and a channel comes with FL_OK. *)
Class BackendLaws := {
  be_open_time name w : (w_tick w <= w_tick (be_open name w).2)%nat;
  be_open_ok name w : (be_open name w).1.1 = FL_OK <-> is_Some (be_open name w).1.2;
}.
Context {L : BackendLaws}.

(** From [w] the slots [i], [i+1], ... answered [l], each refusing. *)
Inductive refused prefix : nat -> World -> list flResult -> World -> Prop :=
| refused_nil i w : refused prefix i w [] w
| refused_cons i w r w1 l w2 :
    be_open (slotName prefix i) w = ((r, None), w1) -> r = FL_BUSY \/ r = FL_NOT_FOUND ->
    refused prefix (S i) w1 l w2 -> refused prefix i w (r :: l) w2.

(** Slot [k], asked at [w], ends the walk with [answer]. *)
Definition ends prefix width height format (k : nat) (w : World) (answer : SlotAnswer) : Prop :=
  match be_open (slotName prefix k) w with
  | ((r, Some ch), w') =>
    r = FL_OK /\ answer = (FL_OK, Some (if truthy width && truthy height
                                       then (be_request ch width height format w').1.2 else ch, k))
  | ((r, None), _) => r <> FL_BUSY /\ r <> FL_NOT_FOUND /\ answer = (r, None)
  end.

(** A sweep from [w0] that ends the walk with [answer]: the slots before refused
    with [l], and then the next one decided - or there was none and time was up. *)
Definition decided prefix slots width height format deadline (w0 : World) (answer : SlotAnswer) : Prop :=
  exists l w1, refused prefix 0 w0 l w1 /\
  (((length l < slots)%nat /\ ends prefix width height format (length l) w1 answer)
   \/ (length l = slots /\ deadline <= be_clock (w_tick w1)
      /\ answer = (if bool_decide (FL_BUSY ∈ l) then FL_BUSY else FL_NOT_FOUND, None))).

Lemma refused_time prefix i w l w' : refused prefix i w l w' -> (w_tick w <= w_tick w')%nat.
Proof.
  induction 1 as [|i w r w1 l w2 H _ _ IH]; [done|].
  pose proof (be_open_time (slotName prefix i) w) as Ht. rewrite H in Ht. simpl in Ht. lia.
Qed.

(** One slot: it refuses, or it ends the walk. *)
Lemma trySlot_spec prefix width height format i any w :
  let '(o, w') := trySlot prefix width height format i any w in
  match o with
  | inl any' => exists r, be_open (slotName prefix i) w = ((r, None), w')
      /\ (r = FL_BUSY \/ r = FL_NOT_FOUND) /\ any' = any || bool_decide (r = FL_BUSY)
  | inr answer => ends prefix width height format i w answer
  end.
Proof.
  unfold trySlot, ends. rewrite bind_run. pose proof (be_open_ok (slotName prefix i) w) as Hok.
  destruct (be_open (slotName prefix i) w) as [[r [ch|]] w1]; cbn [fst snd] in *.
  - assert (r = FL_OK) as -> by (apply Hok; by eexists).
    change (bool_decide (FL_OK = FL_BUSY)) with false. change (bool_decide (FL_OK = FL_NOT_FOUND)) with false.
    change (bool_decide (FL_OK = FL_OK)) with true. cbn [negb].
    rewrite bind_run. destruct (truthy width && truthy height); [|done].
    rewrite bind_run. by destruct (be_request _ _ _ _ w1) as [[? ?] ?].
  - destruct r; cbn; try (by split_and!); try (exists FL_BUSY + exists FL_NOT_FOUND; rewrite ?orb_true_r, ?orb_false_r; naive_solver).
Qed.

Lemma sweep_spec prefix width height format n i any w :
  let '(o, w') := mloop (seq i n) (trySlot prefix width height format) any w in
  match o with
  | inl any' => exists l, refused prefix i w l w' /\ length l = n
      /\ any' = any || bool_decide (FL_BUSY ∈ l)
  | inr answer => exists l w1, refused prefix i w l w1 /\ (length l < n)%nat
      /\ ends prefix width height format (i + length l) w1 answer
  end.
Proof.
  revert i any w. induction n as [|n IH]; intros i any w; cbn [seq mloop].
  { exists []. split_and!; [constructor|done|]. by rewrite bool_decide_eq_false_2, orb_false_r by apply not_elem_of_nil. }
  rewrite bind_run. pose proof (trySlot_spec prefix width height format i any w) as H1.
  destruct (trySlot _ _ _ _ i any w) as [[any'|answer] w1]; cbn [fst snd].
  - destruct H1 as (r & Ho & Hr & ->). specialize (IH (S i) (any || bool_decide (r = FL_BUSY)) w1).
    destruct (mloop _ _ _ w1) as [[any''|answer] w2].
    + destruct IH as (l & Hl & Hn & ->). exists (r :: l). split; [by eapply refused_cons|]. split; [cbn; lia|].
      rewrite <- orb_assoc. f_equal. rewrite <- bool_decide_or. apply bool_decide_ext.
      rewrite elem_of_cons. naive_solver.
    + destruct IH as (l & w1' & Hl & Hn & He). exists (r :: l), w1'. split; [by eapply refused_cons|].
      split; [cbn; lia|]. by replace (i + length (r :: l))%nat with (S i + length l)%nat by (cbn; lia).
  - exists [], w. split; [constructor|]. split; [cbn; lia|]. by rewrite Nat.add_0_r.
Qed.

Lemma sweeps_answer prefix slots width height format deadline T fuel w :
  (forall t, (T <= t)%nat -> deadline <= be_clock t) -> (T <= w_tick w + fuel)%nat ->
  exists answer w0, (sweeps (S fuel) prefix slots width height format deadline w).1 = Some answer
    /\ (w_tick w <= w_tick w0)%nat
    /\ decided prefix (Z.to_nat slots) width height format deadline w0 answer.
Proof.
  intros Hclock. revert w. induction fuel as [|fuel IH]; intros w Hfuel.
  all: cbn [sweeps]; rewrite bind_run; unfold sweep.
  all: pose proof (sweep_spec prefix width height format (Z.to_nat slots) 0 false w) as H.
  all: destruct (mloop _ _ _ w) as [[any|answer] w1]; cbn [fst snd];
    [|destruct H as (l & w' & H1 & H2 & H3); exists answer, w; split; [done|]; split; [done|];
      exists l, w'; split; [exact H1|]; by left].
  all: destruct H as (l & H1 & H2 & ->); pose proof (refused_time _ _ _ _ _ H1) as Ht.
  all: rewrite bind_run; change (ask be_clock w1) with (be_clock (w_tick w1), mkWorld (S (w_tick w1)) (w_log w1));
    cbn [fst snd].
  all: destruct (deadline <=? be_clock (w_tick w1)) eqn:E;
    [eexists _, w; split; [done|]; split; [done|]; exists l, w1; split; [exact H1|]; right;
     split; [done|]; split; [lia|]; cbn [orb]; by case_bool_decide|].
  - specialize (Hclock (w_tick w1) ltac:(lia)). lia.
  - rewrite bind_run. set (w2 := (sleepSlot _).2). assert (w_tick w2 = S (S (w_tick w1))) as Hw2 by done.
    destruct (IH w2) as (answer & w0 & E1 & E2 & E3); [lia|]. exists answer, w0. split; [exact E1|]. split; [lia|done].
Qed.

(** C36: The slot walk always answers, once the clock reaches the deadline and stays
    past it, and the answer is exact.  It is decided by one sweep: FL_OK with the
    first slot, in order, that does not answer FL_BUSY or FL_NOT_FOUND - the channel
    the backend opened, with the geometry asked for; any other error of that slot
    unchanged; or, when every slot refused and the time is over, FL_BUSY if one of
    them was occupied and FL_NOT_FOUND if none existed.  An answer of another kind
    or a slot out of order is impossible, and no channel is dropped on the way. *)
Theorem slots_walk_exact prefix slots width height format timeoutMs T fuel w :
  0 < slots -> let deadline := be_clock (w_tick w) + timeoutMs * 1000000 in
  (forall t, (T <= t)%nat -> deadline <= be_clock t) -> (T <= w_tick w + fuel)%nat ->
  exists answer w0,
    (flOpenProducerSlot (S fuel) (Some prefix) slots width height format timeoutMs w).1 = Some answer
    /\ decided prefix (Z.to_nat slots) width height format deadline w0 answer.
Proof.
  intros Hs deadline Hclock Hfuel. unfold flOpenProducerSlot.
  assert (truthy slots = true) as -> by (apply truthy_true; lia). cbn [negb]. rewrite bind_run.
  destruct (sweeps_answer prefix slots width height format deadline T fuel
    (mkWorld (S (w_tick w)) (w_log w)) Hclock) as (answer & w0 & E1 & _ & E3); [simpl; lia|].
  exists answer, w0. split; [exact E1|done].
Qed.
End Answers.

(** ** An example: slot 0 is occupied, slot 1 free *)

Definition exAnswer (name : list Z) : flResult * option Z :=
  if bool_decide (name = slotName [97] 1) then (FL_OK, Some 7) else (FL_BUSY, None).

Definition exBackend : Backend := {|
  be_clock t := 1000000 * Z.of_nat t;
  be_channel := Z;
  be_open name := ask (fun _ => exAnswer name);
  be_request ch _ _ _ := ret (Some FL_OK, ch);
|}.

Lemma exBackend_laws : BackendLaws (B := exBackend).
Proof.
  split; [intros name w; simpl; lia|]. intros name w. cbn. unfold exAnswer. case_bool_decide; cbn.
  - split; [by eexists|done].
  - split; [done|by intros []].
Qed.

Lemma slots_walk_exact_witness :
  let B := exBackend in
  (0 < 3 /\ forall t, (2 <= t)%nat -> 2000000 <= be_clock t)
  /\ (flOpenProducerSlot (B := exBackend) 3 (Some [97]) 3 4 2 FL_FORMAT_RGBA8 2 start).1
     = Some (FL_OK, Some (7, 1%nat))
  /\ exists answer w0,
       (flOpenProducerSlot (B := exBackend) 3 (Some [97]) 3 4 2 FL_FORMAT_RGBA8 2 start).1 = Some answer
       /\ decided [97] 3 4 2 FL_FORMAT_RGBA8 2000000 w0 answer.
Proof.
  intros B. assert (forall t, (2 <= t)%nat -> 2000000 <= be_clock (Backend := exBackend) t) as Hc
    by (intros t Ht; change (2000000 <= 1000000 * Z.of_nat t); lia).
  split; [split; [lia|exact Hc]|]. split; [vm_compute; reflexivity|].
  apply (slots_walk_exact (L := exBackend_laws) [97] 3 4 2 FL_FORMAT_RGBA8 2 2 2 start); [lia|exact Hc|simpl; lia].
Defined.
