(* ===== verification/SlotBackends.v ===== *)
(** * The backends as providers of slots

    Each backend attaches producers by name, so [flOpenProducerSlot] works over any
    of them: the instances of the interface of Slots.v, with its laws. *)
From S2P Require Import Prelude Api Kernel Slots.
From S2P Require Ipc SyncFd LinuxImage LinuxState LinuxProducer AndroidImage AndroidState AndroidProducer AndroidRing AndroidChannel.
From S2P Require Windows WinIpc WinState WinImage WinRing WinProducer WinConsumer WinChannel.

(** ** Calls take time *)

Definition timely {A} (m : M A) : Prop := forall w, (w_tick w <= w_tick (m w).2)%nat.

Lemma timely_ret {A} (x : A) : timely (ret x).
Proof. intros w. simpl. lia. Qed.
Lemma timely_ask {A} (f : nat -> A) : timely (ask f).
Proof. intros w. simpl. lia. Qed.
Lemma timely_effect e : timely (effect e).
Proof. intros w. simpl. lia. Qed.
Lemma timely_bind {A B} (m : M A) (k : A -> M B) : timely m -> (forall x, timely (k x)) -> timely (bind m k).
Proof. intros Hm Hk w. rewrite bind_run. specialize (Hm w). specialize (Hk (m w).1 (m w).2). lia. Qed.
Lemma timely_mfor {A} (l : list A) f : (forall x, timely (f x)) -> timely (mfor l f).
Proof.
  intros Hf. induction l as [|x l IH]; cbn [mfor]; [apply timely_ret|].
  apply timely_bind; [apply Hf|intros ?; exact IH].
Qed.
Lemma timely_mfold {A S} (l : list A) (f : A -> S -> M S) s : (forall x s, timely (f x s)) -> timely (mfold l f s).
Proof.
  intros Hf. revert s. induction l as [|x l IH]; intros s; cbn [mfold]; [apply timely_ret|].
  apply timely_bind; [apply Hf|intros ?; apply IH].
Qed.
Lemma timely_mloop {A S R} (l : list A) (f : A -> S -> M (S + R)) s :
  (forall x s, timely (f x s)) -> timely (mloop l f s).
Proof.
  intros Hf. revert s. induction l as [|x l IH]; intros s; cbn [mloop]; [apply timely_ret|].
  apply timely_bind; [apply Hf|intros [s'|e]; [apply IH|apply timely_ret]].
Qed.

Create HintDb timely.
#[export] Hint Resolve timely_ret timely_ask timely_effect : timely.

Ltac head_of t := match t with ?f _ => head_of f | _ => t end.

(** Decompose a program down to its calls. *)
Ltac timely_step :=
  match goal with
  | |- timely (bind _ _) => apply timely_bind; [|intros]
  | |- timely (mfor _ _) => apply timely_mfor; intros
  | |- timely (mfold _ _ _) => apply timely_mfold; intros
  | |- timely (mloop _ _ _) => apply timely_mloop; intros
  | |- timely (match ?x with _ => _ end) => destruct x
  | |- timely (let '(_, _) := ?x in _) => destruct x
  | |- timely ?m =>
    first [ assumption | solve [eauto with timely nocore]
          | let h := head_of m in unfold h; cbv zeta ]
  end.
Ltac timely := repeat timely_step.

(** ** What calls answer *)

Definition gives {A} (m : M A) (Q : A -> Prop) : Prop := forall w, Q (m w).1.

Lemma gives_ret {A} (x : A) (Q : A -> Prop) : Q x -> gives (ret x) Q.
Proof. intros H w. exact H. Qed.
Lemma gives_bind {A B} (m : M A) (k : A -> M B) P Q :
  gives m P -> (forall x, P x -> gives (k x) Q) -> gives (bind m k) Q.
Proof. intros Hm Hk w. rewrite bind_run. apply Hk, Hm. Qed.
Lemma gives_any {A B} (m : M A) (k : A -> M B) Q : (forall x, gives (k x) Q) -> gives (bind m k) Q.
Proof. intros Hk w. rewrite bind_run. apply Hk. Qed.

(** Case analysis and [ret]; binds whose answer does not matter. *)
Ltac gives_step :=
  match goal with
  | |- gives (ret _) _ => apply gives_ret
  | |- gives (bind _ _) _ => apply gives_any; intros
  | |- gives (match ?x with _ => _ end) _ => let E := fresh "E" in destruct x eqn:E
  end.

(** A channel comes exactly with FL_OK. *)
Definition attached {C} (r : flResult * option C) : Prop := r.1 = FL_OK <-> is_Some r.2.

Lemma attached_some {C} (c : C) : attached (FL_OK, Some c).
Proof. unfold attached. cbn. split; [by eexists|done]. Qed.
Lemma attached_none {C} r : r <> FL_OK -> attached (C := C) (r, None).
Proof. intros H. unfold attached. cbn. split; [done|by intros []]. Qed.

Lemma not_ok r : negb (bool_decide (r = FL_OK)) = true -> r <> FL_OK.
Proof. by case_bool_decide. Qed.

Ltac attached := first [apply attached_some | apply attached_none; first [done | by apply not_ok]].

(** ** Linux *)

Section Linux.
Context `{K : Kernel}.

Lemma timely_connectLoop fuel addr timeout waited : timely (Ipc.connectLoop fuel addr timeout waited).
Proof. revert waited. induction fuel as [|fuel IH]; intros waited; cbn [Ipc.connectLoop]; timely. Qed.
Lemma timely_dmaSync fuel fd flags : timely (LinuxImage.dmaSync fuel fd flags).
Proof. induction fuel as [|fuel IH]; cbn [LinuxImage.dmaSync]; timely. Qed.
Lemma timely_advanceLoop l consumed : timely (SyncFd.advanceLoop l consumed).
Proof. revert consumed. induction l as [|x l IH]; intros consumed; cbn [SyncFd.advanceLoop]; timely. Qed.
Hint Resolve timely_connectLoop timely_dmaSync timely_advanceLoop : timely.

Lemma linux_open_timely name : timely (LinuxProducer.flOpenProducer name).
Proof. timely. Qed.

Lemma linux_hello_refuses c :
  gives (LinuxProducer.producerHello c) (fun r => r.1 <> Some FL_OK).
Proof. unfold LinuxProducer.producerHello. repeat gives_step; done. Qed.

Lemma linux_open_attached name : gives (LinuxProducer.flOpenProducer name) attached.
Proof.
  unfold LinuxProducer.flOpenProducer. apply gives_any. intros link. cbv zeta.
  destruct (negb _); [repeat gives_step; attached|].
  eapply gives_bind; [apply linux_hello_refuses|]. intros [[r|] c] Hr; [|repeat gives_step; attached].
  repeat gives_step. apply attached_none. simpl in Hr. congruence.
Qed.

#[export] Instance linuxBackend (fuel : nat) : Backend := {
  be_clock := k_clock;
  be_open := LinuxProducer.flOpenProducer;
  be_request := LinuxProducer.flRequestGeometry fuel;
}.

#[export] Instance linuxLaws fuel : BackendLaws (B := linuxBackend fuel).
Proof. split; [intros name; apply linux_open_timely|intros name; apply linux_open_attached]. Qed.
End Linux.

(** ** Android *)

Section Android.
Context `{K : Kernel, A : AndroidState.Ahb}.
Hint Resolve timely_connectLoop timely_advanceLoop : timely.

Lemma android_open_timely name : timely (AndroidChannel.flOpenProducer (Some name)).
Proof. timely. Qed.

Lemma android_hello_refuses c :
  gives (AndroidChannel.producerHello c) (fun r => r.1 <> Some FL_OK).
Proof. unfold AndroidChannel.producerHello. repeat gives_step; done. Qed.

Lemma android_open_attached name : gives (AndroidChannel.flOpenProducer (Some name)) attached.
Proof.
  unfold AndroidChannel.flOpenProducer, AndroidChannel.openProducer. apply gives_any. intros link. cbv zeta.
  destruct (negb _); [repeat gives_step; attached|].
  eapply gives_bind; [apply android_hello_refuses|]. intros [[r|] c] Hr.
  - repeat gives_step. apply attached_none. simpl in Hr. congruence.
  - unfold AndroidChannel.producerRing. repeat gives_step; attached.
Qed.

Definition androidBackend (fuel : nat) : Backend := {|
  be_clock := k_clock;
  be_open name := AndroidChannel.flOpenProducer (Some name);
  be_request := AndroidProducer.flRequestGeometry fuel;
|}.

Lemma androidLaws fuel : BackendLaws (B := androidBackend fuel).
Proof. split; [intros name; apply android_open_timely|intros name; apply android_open_attached]. Qed.
End Android.

(** ** Windows *)

Section Windows.
Context `{W : Windows.Windows} (clock : nat -> Z).

Lemma timely_connectPipeLoop fuel path deadline busy : timely (WinIpc.connectPipeLoop fuel path deadline busy).
Proof. revert busy. induction fuel as [|fuel IH]; intros busy; cbn [WinIpc.connectPipeLoop]; timely. Qed.
Hint Resolve timely_connectPipeLoop : timely.

Lemma windows_open_timely name : timely (WinChannel.flOpenProducer name).
Proof. timely. Qed.

Lemma windows_hello_refuses c :
  gives (WinChannel.producerHello c) (fun r => r <> inl FL_OK).
Proof. unfold WinChannel.producerHello. repeat gives_step; done. Qed.

Lemma windows_open_attached name : gives (WinChannel.flOpenProducer name) attached.
Proof.
  unfold WinChannel.flOpenProducer. apply gives_any. intros linked. cbv zeta.
  destruct (match linked with Some _ => _ | None => _ end) as [link busy].
  destruct (negb _); [apply gives_any; intros; apply gives_ret; destruct busy; attached|].
  eapply gives_bind; [apply windows_hello_refuses|]. intros [r|[srv c]] Hr.
  - repeat gives_step. apply attached_none. congruence.
  - repeat gives_step; attached.
Qed.

Definition windowsBackend : Backend := {|
  be_clock := clock;
  be_open := WinChannel.flOpenProducer;
  be_request c w h f := let! (r, c) := WinProducer.flRequestGeometry c w h f in ret (Some r, c);
|}.

Lemma windowsLaws : BackendLaws (B := windowsBackend).
Proof. split; [intros name; apply windows_open_timely|intros name; apply windows_open_attached]. Qed.
End Windows.
