(* ===== verification/AudioWire.v ===== *)
(** * PCM on the wire

    The sizes both audio elements compute, and [boundedWire] of
    gst/gstframelinkaudiosrc.cpp: the reader looks at the GDP packets in the chunks
    a socket gives it, however they are cut, before the depayloader stores them. *)
From S2P Require Import Prelude Session.

(** ** Sizes *)

(** [guint bpf=(pcm==FL_PCM_S16?2u:4u)*layout] *)
Definition bytesPerFrame (a : flAudioFormat) : Z := wrap32 ((if a_pcm a =? FL_PCM_S16 then 2 else 4) * a_layout a).

(** [((guint64(rate)*audioQueueMs+999)/1000)*bpf] *)
Definition queueBudget (c : flSessionConfig) : Z :=
  let a := c_audio c in
  wrap64 (wrap64 (wrap64 (a_rate a * c_audioQueueMs c) + 999) / 1000 * bytesPerFrame a).

(** ** The reader's view of the wire *)

Definition GDP_HEADER : nat := 62.

Definition GST_READ_UINT16_BE (l : list Z) (i : nat) : Z := nth i l 0 * 256 + nth (i + 1) l 0.
Definition GST_READ_UINT32_BE (l : list Z) (i : nat) : Z :=
  GST_READ_UINT16_BE l i * 65536 + GST_READ_UINT16_BE l (i + 2).

(** The fields of [FlAudioReader] that follow the packets. *)
Record Wire := mkWire { wr_header : list Z; wr_headerUsed : nat; wr_payloadRemaining : Z }.

(** [memcpy(header+used,data,n)] *)
Definition overlay (l : list Z) (used : nat) (data : list Z) : list Z :=
  take used l ++ data ++ drop (used + length data) l.

(** The test a complete header has to pass: a buffer (type 1) of whole frames
    within the budget, or caps or an event (other types) of bounded size. *)
Definition lawfulHeader (bpf budget : Z) (h : list Z) : bool :=
  let type := GST_READ_UINT16_BE h 4 in
  let length := GST_READ_UINT32_BE h 6 in
  negb (negb (nth 0 h 0 =? 1) || negb (nth 1 h 0 =? 0)
        || (if type =? 1 then negb (truthy length) || truthy (length mod bpf) || (budget <? length)
            else (65536 <? length) || (type <? 2))).

(** The loop [while(size)]: each round consumes a byte at least. *)
Fixpoint boundedLoop (n : nat) (bpf budget : Z) (data : list Z) (s : Wire) : option (bool * Wire) :=
  match data, n with
  | [], _ => Some (true, s)
  | _, O => None
  | _, S n =>
    return_if truthy (wr_payloadRemaining s) with
      (let k := Nat.min (length data) (Z.to_nat (wr_payloadRemaining s)) in
       boundedLoop n bpf budget (drop k data)
         (mkWire (wr_header s) (wr_headerUsed s) (wr_payloadRemaining s - Z.of_nat k))) ;;
    let k := Nat.min (length data) (GDP_HEADER - wr_headerUsed s) in
    let s := mkWire (overlay (wr_header s) (wr_headerUsed s) (take k data)) (wr_headerUsed s + k) (wr_payloadRemaining s) in
    return_if (wr_headerUsed s =? GDP_HEADER)%nat with
      (return_if negb (lawfulHeader bpf budget (wr_header s)) with Some (false, s) ;;
       boundedLoop n bpf budget (drop k data) (mkWire (wr_header s) 0 (GST_READ_UINT32_BE (wr_header s) 6))) ;;
    boundedLoop n bpf budget (drop k data) s
  end.

Definition boundedWire (c : flSessionConfig) (data : list Z) (s : Wire) : option (bool * Wire) :=
  boundedLoop (length data) (bytesPerFrame (c_audio c)) (queueBudget c) data s.

(** [startReader] *)
Definition wireStart (header : list Z) : Wire := mkWire header 0 0.

(** The chunks of a connection, one after another, up to the first bad one. *)
Fixpoint boundedChunks (c : flSessionConfig) (chunks : list (list Z)) (s : Wire) : option (bool * Wire) :=
  match chunks with
  | [] => Some (true, s)
  | data :: chunks =>
    '(ok, s) ← boundedWire c data s;
    return_if negb ok with Some (false, s) ;;
    boundedChunks c chunks s
  end.

(** ** What the wire may carry *)

(** Lawful packets, the last one perhaps cut short. *)
Inductive packets (bpf budget : Z) : list Z -> Prop :=
| packets_header l : (length l < GDP_HEADER)%nat -> packets bpf budget l
| packets_cut h p : length h = GDP_HEADER -> lawfulHeader bpf budget h = true ->
    Z.of_nat (length p) < GST_READ_UINT32_BE h 6 -> packets bpf budget (h ++ p)
| packets_next h p l : length h = GDP_HEADER -> lawfulHeader bpf budget h = true ->
    Z.of_nat (length p) = GST_READ_UINT32_BE h 6 -> packets bpf budget l -> packets bpf budget (h ++ p ++ l).

(** ** The loop follows the packets, however they are cut *)

Section Loop.
Context (bpf budget : Z).
Implicit Types (s : Wire) (l data more : list Z).
Notation lawful := (lawfulHeader bpf budget).
Notation packets := (packets bpf budget).

Lemma nth_u8 l i : Forall u8 l -> u8 (nth i l 0).
Proof.
  intros Hl. revert i. induction Hl as [|x l Hx Hl IH]; intros [|i]; cbn; try apply IH; try done; ulia.
Qed.

Lemma be32_bounds l i : Forall u8 l -> 0 <= GST_READ_UINT32_BE l i <= UINT32_MAX.
Proof.
  intros Hl. unfold GST_READ_UINT32_BE, GST_READ_UINT16_BE.
  pose proof (nth_u8 l i Hl). pose proof (nth_u8 l (i + 1) Hl).
  pose proof (nth_u8 l (i + 2) Hl). pose proof (nth_u8 l (i + 2 + 1) Hl). ulia.
Qed.

(** What [l] is after a complete header [h]. *)
Lemma packets_after h l : length h = GDP_HEADER -> Forall u8 h ->
  packets (h ++ l) <->
  lawful h = true /\ (GST_READ_UINT32_BE h 6 <= Z.of_nat (length l) -> packets (drop (Z.to_nat (GST_READ_UINT32_BE h 6)) l)).
Proof.
  intros Hh Hu. pose proof (be32_bounds h 6 Hu) as HL. split.
  - intros H. inversion H as [l0 Hlt El|h0 p H0 Hok Hlt El|h0 p l' H0 Hok Hlen Hl El].
    + subst l0. rewrite length_app, Hh in Hlt. lia.
    + apply app_inj_1 in El as [-> ->]; [|congruence]. split; [done|]. lia.
    + apply app_inj_1 in El as [-> <-]; [|congruence]. split; [done|]. intros _.
      rewrite drop_app_length'; [done|lia].
  - intros [Hok Hl]. destruct (Z.le_gt_cases (GST_READ_UINT32_BE h 6) (Z.of_nat (length l))) as [Hle|Hgt].
    + rewrite <- (take_drop (Z.to_nat (GST_READ_UINT32_BE h 6)) l). apply packets_next; [done|done| |by apply Hl].
      rewrite length_take. lia.
    + by apply packets_cut.
Qed.

(** A state between chunks, and what it takes of what is to come. *)
Definition wire_ok s : Prop :=
  length (wr_header s) = GDP_HEADER /\ Forall u8 (take (wr_headerUsed s) (wr_header s))
  /\ 0 <= wr_payloadRemaining s /\ (wr_headerUsed s < GDP_HEADER)%nat
  /\ (0 < wr_payloadRemaining s -> wr_headerUsed s = 0%nat).

Definition accepts s l : Prop :=
  if 0 <? wr_payloadRemaining s
  then wr_payloadRemaining s <= Z.of_nat (length l) -> packets (drop (Z.to_nat (wr_payloadRemaining s)) l)
  else packets (take (wr_headerUsed s) (wr_header s) ++ l).

Lemma accepts_nil s : wire_ok s -> accepts s [].
Proof.
  intros (Hh & _ & Hp & Hu & _). unfold accepts. case_match; [cbn; lia|].
  apply packets_header. rewrite app_nil_r, length_take. lia.
Qed.

(** Of a list that fits. *)
Lemma overlay_take (h : list Z) used data : (used + length data <= length h)%nat ->
  take (used + length data) (overlay h used data) = take used h ++ data /\ length (overlay h used data) = length h.
Proof.
  intros Hlen. unfold overlay. split.
  - rewrite app_assoc, take_app_length'; [done|]. rewrite length_app, length_take. lia.
  - rewrite !length_app, length_take, length_drop. lia.
Qed.

(** The states a round goes to. *)
Definition paid s (k : nat) : Wire := mkWire (wr_header s) (wr_headerUsed s) (wr_payloadRemaining s - Z.of_nat k).
Definition filled s (k : nat) data : Wire :=
  mkWire (overlay (wr_header s) (wr_headerUsed s) (take k data)) (wr_headerUsed s + k) (wr_payloadRemaining s).
Definition packetOf (h : list Z) : Wire := mkWire h 0 (GST_READ_UINT32_BE h 6).

Lemma accepts_paid s data more : wire_ok s -> 0 < wr_payloadRemaining s ->
  let k := Nat.min (length data) (Z.to_nat (wr_payloadRemaining s)) in
  accepts s (data ++ more) <-> accepts (paid s k) (drop k data ++ more).
Proof.
  intros (_ & _ & Hp & _ & Hzero) Hr k. unfold accepts. cbn. replace (0 <? wr_payloadRemaining s) with true by lia.
  rewrite (Hzero Hr). cbn [take app]. destruct (0 <? wr_payloadRemaining s - Z.of_nat k) eqn:El.
  - assert (k = length data) as Ek by (unfold k in *; lia). rewrite Ek, drop_all, length_app. cbn [app].
    replace (Z.to_nat (wr_payloadRemaining s)) with
      (length data + Z.to_nat (wr_payloadRemaining s - Z.of_nat (length data)))%nat by lia.
    rewrite drop_app_add. split; intros H1 H2; apply H1; lia.
  - assert (k = Z.to_nat (wr_payloadRemaining s)) as Ek by (unfold k in *; lia).
    rewrite <- Ek, drop_app_le by lia. rewrite length_app. split; [intros H1; apply H1; lia|by intros H1 _].
Qed.

Lemma paid_ok s k : wire_ok s -> Z.of_nat k <= wr_payloadRemaining s -> wire_ok (paid s k).
Proof. intros (Hh & Hu & Hp & Hlt & Hzero) Hk. repeat split; cbn; try done; [lia|]. intros. apply Hzero. lia. Qed.

(** Bytes of a header; it may be complete then. *)
Lemma filled_bytes s k data : wire_ok s -> Forall u8 data -> (k <= length data)%nat -> (wr_headerUsed s + k <= GDP_HEADER)%nat ->
  take (wr_headerUsed s + k) (wr_header (filled s k data)) = take (wr_headerUsed s) (wr_header s) ++ take k data
  /\ length (wr_header (filled s k data)) = GDP_HEADER
  /\ Forall u8 (take (wr_headerUsed s + k) (wr_header (filled s k data))).
Proof.
  intros (Hh & Hu & Hp & Hlt & Hzero) Hd Hk Hle. cbn.
  destruct (overlay_take (wr_header s) (wr_headerUsed s) (take k data)) as [Ht Hl]; [rewrite length_take; lia|].
  rewrite length_take, Nat.min_l in Ht by lia. rewrite Ht. split; [done|]. split; [congruence|].
  apply Forall_app. split; [done|]. by apply Forall_take.
Qed.

Lemma accepts_filled s k data more : wire_ok s -> wr_payloadRemaining s = 0 -> Forall u8 data ->
  (k <= length data)%nat -> (wr_headerUsed s + k <= GDP_HEADER)%nat ->
  accepts s (data ++ more) <-> packets (take (wr_headerUsed s + k) (wr_header (filled s k data)) ++ (drop k data ++ more)).
Proof.
  intros Hs Hr Hd Hk Hle. destruct (filled_bytes s k data Hs Hd Hk Hle) as (-> & _ & _).
  unfold accepts. rewrite Hr. cbn. by rewrite <- app_assoc, (app_assoc (take k data)), take_drop.
Qed.

Lemma accepts_packet h l : length h = GDP_HEADER -> Forall u8 h ->
  packets (h ++ l) <-> lawful h = true /\ accepts (packetOf h) l.
Proof.
  intros Hh Hu. rewrite packets_after by done. pose proof (be32_bounds h 6 Hu) as HL. unfold accepts. cbn.
  destruct (0 <? GST_READ_UINT32_BE h 6) eqn:Ez; [done|].
  replace (GST_READ_UINT32_BE h 6) with 0 by lia. cbn [Z.to_nat drop].
  split; intros [? H]; (split; [done|]); [apply H; lia|done].
Qed.

Lemma packetOf_ok h : length h = GDP_HEADER -> Forall u8 h -> wire_ok (packetOf h).
Proof. intros Hh Hu. pose proof (be32_bounds h 6 Hu). repeat split; cbn; try done; unfold GDP_HEADER; lia. Qed.

(** A loop from [s] on [data]: it ends, and answers for every continuation. *)
Definition answers (o : option (bool * Wire)) s data : Prop :=
  exists ok s', o = Some (ok, s')
    /\ (if ok then wire_ok s' /\ (forall more, accepts s (data ++ more) <-> accepts s' more)
        else forall more, ~ accepts s (data ++ more)).

Lemma answers_step o s data s1 data1 :
  (forall more, accepts s (data ++ more) <-> accepts s1 (data1 ++ more)) -> answers o s1 data1 -> answers o s data.
Proof.
  intros Hstep (ok & s' & E & H). exists ok, s'. split; [done|].
  destruct ok; [destruct H as [H1 H2]; split; [done|]|]; intros more; rewrite Hstep; [apply H2|apply H].
Qed.

Lemma boundedLoop_step n data s : (0 < length data)%nat ->
  boundedLoop (S n) bpf budget data s =
    (return_if truthy (wr_payloadRemaining s) with
      (let k := Nat.min (length data) (Z.to_nat (wr_payloadRemaining s)) in
       boundedLoop n bpf budget (drop k data) (paid s k)) ;;
    let k := Nat.min (length data) (GDP_HEADER - wr_headerUsed s) in
    let s := filled s k data in
    return_if (wr_headerUsed s =? GDP_HEADER)%nat with
      (return_if negb (lawful (wr_header s)) with Some (false, s) ;;
       boundedLoop n bpf budget (drop k data) (packetOf (wr_header s))) ;;
    boundedLoop n bpf budget (drop k data) s).
Proof. by destruct data; [cbn; lia|]. Qed.

Lemma boundedLoop_exact n data s : (length data <= n)%nat -> wire_ok s -> Forall u8 data ->
  answers (boundedLoop n bpf budget data s) s data.
Proof.
  revert data s. induction n as [|n IH]; intros data s Hn Hs Hd.
  { destruct data; [|cbn in Hn; lia]. exists true, s. split; [done|]. by split. }
  destruct (Nat.eq_dec (length data) 0) as [El|El].
  { apply length_zero_iff_nil in El as ->. by exists true, s. }
  rewrite boundedLoop_step by lia. cbv zeta. destruct (truthy (wr_payloadRemaining s)) eqn:Er.
  - assert (0 < wr_payloadRemaining s) as Hr by (destruct Hs; ulia).
    eapply answers_step; [intros more; by apply accepts_paid|].
    apply IH; [rewrite length_drop; lia|apply paid_ok; [done|lia]|by apply Forall_drop].
  - assert (wr_payloadRemaining s = 0) as Hr by ulia. pose proof Hs as (Hh & Hu & _ & Hlt & _).
    set (k := Nat.min (length data) (GDP_HEADER - wr_headerUsed s)).
    assert (0 < k <= length data /\ wr_headerUsed s + k <= GDP_HEADER)%nat as [Hk Hle] by (unfold k; lia).
    destruct (filled_bytes s k data Hs Hd ltac:(lia) Hle) as (_ & Hl & Hb).
    assert (Forall u8 (drop k data)) as Hd' by by apply Forall_drop.
    assert (length (drop k data) <= n)%nat as Hn' by (rewrite length_drop; lia).
    pose proof (fun more => accepts_filled s k data more Hs Hr Hd ltac:(lia) Hle) as Hstep.
    change (wr_headerUsed (filled s k data)) with (wr_headerUsed s + k)%nat.
    destruct (wr_headerUsed s + k =? GDP_HEADER)%nat eqn:Ef.
    + apply Nat.eqb_eq in Ef. rewrite Ef, (take_ge (wr_header _)) in Hstep, Hb by lia.
      destruct (lawful (wr_header (filled s k data))) eqn:Elaw; cbn [negb].
      * eapply answers_step; [|apply IH; [done|by apply packetOf_ok|done]].
        intros more. rewrite Hstep, accepts_packet by done. tauto.
      * exists false, (filled s k data). split; [done|]. intros more.
        rewrite Hstep, accepts_packet by done. by rewrite Elaw; intros [].
    + apply Nat.eqb_neq in Ef. eapply answers_step; [|apply IH; [done| |done]].
      * intros more. rewrite Hstep. unfold accepts. cbn. by rewrite Hr.
      * repeat split; cbn in *; try done; lia.
Qed.
End Loop.

Lemma boundedWire_exact c data s : wire_ok s -> Forall u8 data ->
  answers (bytesPerFrame (c_audio c)) (queueBudget c) (boundedWire c data s) s data.
Proof. intros. by apply boundedLoop_exact. Qed.

(** C26: The bound on the wire does not depend on how the socket cuts it.  Whatever
    chunks a connection comes in, the loop ends on each, and all of them pass if and
    only if the bytes together are GDP packets - the last perhaps incomplete - whose
    headers are of this version and announce whole PCM frames within the negotiated
    budget, or an event or caps of at most 64 KiB. *)
Theorem audio_wire_exact c header chunks :
  length header = GDP_HEADER -> Forall u8 (concat chunks) ->
  exists ok s, boundedChunks c chunks (wireStart header) = Some (ok, s)
    /\ (ok = true <-> packets (bytesPerFrame (c_audio c)) (queueBudget c) (concat chunks)).
Proof.
  intros Hh Hu.
  assert (wire_ok (wireStart header)) as Hs by (repeat split; cbn; try done; unfold GDP_HEADER; lia).
  assert (forall l, packets (bytesPerFrame (c_audio c)) (queueBudget c) l <->
    accepts (bytesPerFrame (c_audio c)) (queueBudget c) (wireStart header) l) as Hstart by done.
  setoid_rewrite Hstart. clear Hh Hstart. revert Hs Hu. generalize (wireStart header).
  induction chunks as [|data chunks IH]; intros s Hs Hu; cbn [boundedChunks concat].
  { exists true, s. split; [done|]. split; [|done]. intros _. by apply accepts_nil. }
  cbn in Hu. apply Forall_app in Hu as [Hd Hu].
  destruct (boundedWire_exact c data s Hs Hd) as (ok & s1 & -> & H). cbn. destruct ok; cbn [negb].
  - destruct H as [Hs1 H]. destruct (IH s1 Hs1 Hu) as (ok & s2 & -> & H2). exists ok, s2. split; [done|].
    by rewrite H2, <- H.
  - exists false, s1. split; [done|]. split; [done|]. intros H1. by destruct (H (concat chunks)).
Qed.

(** ** An example: a PCM packet and an event, cut in the middle of a header *)

Definition wireConfig : flSessionConfig :=
  mkConfig 1 (replicate 16 0) (replicate 16 0) 1 0 2 zeroVideo (mkAudio FL_PCM_S16 48000 2) 0 0 80 0 0.
Definition gdpHeader (type size : Z) : list Z := [1; 0; 0; 0; 0; type; 0; 0; 0; size] ++ replicate 52 7.
Definition wireBytes : list Z := gdpHeader 1 8 ++ replicate 8 255 ++ gdpHeader 69 3 ++ [1; 2; 3].
Definition wireChunks : list (list Z) := [take 40 wireBytes; [40; 1]; drop 40 wireBytes].
Definition goodChunks : list (list Z) := [take 40 wireBytes; take 50 (drop 40 wireBytes); drop 90 wireBytes].

Lemma audio_wire_exact_witness :
  (exists s, boundedChunks wireConfig goodChunks (wireStart (replicate 62 0)) = Some (true, s))
  /\ packets 4 15360 (concat goodChunks)
  /\ ~ packets 4 15360 (concat wireChunks).
Proof.
  destruct (audio_wire_exact wireConfig (replicate 62 0) goodChunks) as (ok & s & E & H);
    [reflexivity|by apply (bool_decide_unpack (Forall (fun x => 0 <= x < 256) _))|].
  destruct (audio_wire_exact wireConfig (replicate 62 0) wireChunks) as (ok' & s' & E' & H');
    [reflexivity|by apply (bool_decide_unpack (Forall (fun x => 0 <= x < 256) _))|].
  assert (ok = true) as -> by (vm_compute in E; congruence).
  assert (ok' = false) as -> by (vm_compute in E'; congruence).
  split; [by exists s|]. split; [by apply H|]. intros Hp. by apply H' in Hp.
Defined.
