(* ===== verification/GstVideo.v ===== *)
(** * What the GStreamer elements share (gst/gstframelink.cpp, fl_gst_metadata.hpp,
    framelink_memory_policy.h)

    Pixel formats, the copy loops between strided surfaces, the metadata that a
    buffer's times turn into, and the memory policy an element is bound to.  The
    running time of a segment is GStreamer's and a parameter. *)
From stdpp Require Import gmap.
From Stdlib Require Import QArith.
From S2P Require Import Prelude Api Memory Session SessionContext Bytes.

(** The builds of the elements. *)
Inductive Platform := Linux | Win32 | Android.

#[export] Instance Platform_eq_dec : EqDecision Platform.
Proof. solve_decision. Defined.

Definition is_win (p : Platform) : bool := bool_decide (p = Win32).

(** ** Formats *)

(** [GstVideoFormat]: the values the elements name, and the others. *)
Inductive GstVideoFormat :=
| GST_VIDEO_FORMAT_UNKNOWN | GST_VIDEO_FORMAT_RGB10A2_LE | GST_VIDEO_FORMAT_NV12
| GST_VIDEO_FORMAT_RGBA | GST_VIDEO_FORMAT_BGRA | GST_VIDEO_FORMAT_OTHER (value : Z).

#[export] Instance GstVideoFormat_eq_dec : EqDecision GstVideoFormat.
Proof. solve_decision. Defined.

Definition toFlFormat (f : GstVideoFormat) : Z :=
  match f with
  | GST_VIDEO_FORMAT_RGB10A2_LE => FL_FORMAT_RGB10A2
  | GST_VIDEO_FORMAT_NV12 => FL_FORMAT_NV12
  | GST_VIDEO_FORMAT_RGBA => FL_FORMAT_RGBA8
  | GST_VIDEO_FORMAT_BGRA => FL_FORMAT_BGRA8
  | _ => 0
  end.

Definition toGstFormat (f : Z) : GstVideoFormat :=
  if f =? FL_FORMAT_RGB10A2 then GST_VIDEO_FORMAT_RGB10A2_LE
  else if f =? FL_FORMAT_NV12 then GST_VIDEO_FORMAT_NV12
  else if f =? FL_FORMAT_RGBA8 then GST_VIDEO_FORMAT_RGBA
  else if f =? FL_FORMAT_BGRA8 then GST_VIDEO_FORMAT_BGRA
  else GST_VIDEO_FORMAT_UNKNOWN.

(** [GstVideoInfo], as far as it is read. *)
Record GstVideoInfo := mkVideoInfo { vi_format : GstVideoFormat; vi_width : Z; vi_height : Z }.

(** [gst_video_info_init] *)
Definition initVideoInfo : GstVideoInfo := mkVideoInfo GST_VIDEO_FORMAT_UNKNOWN 0 0.

(** A plane of a surface in memory. *)
Record Plane := mkPlaneAt { pl_data : Z; pl_stride : Z }.

(** ** Copying pixels *)

(** The body of the swapping loop. *)
Definition swapPixel (d s x : Z) (m : Mem) : Mem :=
  let m := store (d + (x * 4 + 0)) (load m (s + (x * 4 + 2))) m in
  let m := store (d + (x * 4 + 1)) (load m (s + (x * 4 + 1))) m in
  let m := store (d + (x * 4 + 2)) (load m (s + (x * 4 + 0))) m in
  store (d + (x * 4 + 3)) (load m (s + (x * 4 + 3))) m.

Definition copyPixels (dst dstStride src srcStride width height : Z) (swapRB : bool) (m : Mem) : Mem :=
  let rowBytes := width * 4 in
  forRange height (fun y m =>
    let d := dst + y * dstStride in
    let s := src + y * srcStride in
    if swapRB then forRange width (swapPixel d s) m else memcpy d s rowBytes m) m.

(** [_mm_stream_load_si128] reads 16 bytes at an address that is a multiple of 16;
    at any other it faults. *)
Definition stream_load (m : Mem) (a : Z) : option (list Z) :=
  if Z.land a 15 =? 0 then Some (peek m a 16) else None.

(** A loop whose body may fault. *)
Definition forEach (n : Z) (body : Z -> Mem -> option Mem) (m : Mem) : option Mem :=
  foldl (fun o i => m ← o; body (Z.of_nat i) m) (Some m) (seq 0 (Z.to_nat n)).

(** Four 16-byte loads, then four stores. *)
Definition copy64 (d s : Z) (m : Mem) : option Mem :=
  a ← stream_load m s;
  b ← stream_load m (s + 16);
  c ← stream_load m (s + 32);
  e ← stream_load m (s + 48);
  Some (poke (d + 48) e (poke (d + 32) c (poke (d + 16) b (poke d a m)))).

Definition copy16 (d s : Z) (m : Mem) : option Mem :=
  a ← stream_load m s;
  Some (poke d a m).

(** The loops [for(;i+64<=bytes;i+=64)] and [for(;i+16<=bytes;i+=16)], and the rest. *)
Definition wcRowCopySse41 (dst src bytes : Z) (m : Mem) : option Mem :=
  let n := bytes / 64 in
  m ← forEach n (fun k m => copy64 (dst + 64 * k) (src + 64 * k) m) m;
  let i := 64 * n in
  let k := (bytes - i) / 16 in
  m ← forEach k (fun j m => copy16 (dst + (i + 16 * j)) (src + (i + 16 * j)) m) m;
  let i := i + 16 * k in
  Some (if i <? bytes then memcpy (dst + i) (src + i) (bytes - i) m else m).

(** [sse41] is [__builtin_cpu_supports("sse4.1")]. *)
Definition wcCopy (sse41 : bool) (dst dstStride src srcStride width height : Z) (m : Mem) : option Mem :=
  let rowBytes := width * 4 in
  forEach height (fun y m =>
    let s := src + y * srcStride in
    let d := dst + y * dstStride in
    if sse41 && (Z.land s 15 =? 0) then wcRowCopySse41 d s rowBytes m else Some (memcpy d s rowBytes m)) m.

(** The row loops of an NV12 plane. *)
Definition copyPlane (dst dstStride src srcStride bytes rows : Z) (m : Mem) : Mem :=
  forRange rows (fun y m => memcpy (dst + y * dstStride) (src + y * srcStride) bytes m) m.

(** ** Frame metadata *)

(** [GstBuffer]: times, the DISCONT flag, the FrameLink meta, and the reservation
    behind its memory, if one is. *)
Record GstBuffer := mkGstBuffer {
  gb_pts : Z; gb_dts : Z; gb_duration : Z;
  gb_discont : bool;
  gb_meta : option flFrameMetadata;
  gb_reservation : option nat;
}.

Definition clockValid (t : Z) : bool := negb (t =? GST_CLOCK_TIME_NONE).

Section Times.
Context (gst_segment_to_running_time : GstSegment -> Z -> Z -> Z).

Definition frameRunningTime (segment : GstSegment) (time : Z) : option Z :=
  return_if negb (clockValid time) with None ;;
  let out := gst_segment_to_running_time segment GST_FORMAT_TIME time in
  if clockValid out && (out <=? INT64_MAX) then Some out else None.

Definition positiveRate (d : option Q) : bool :=
  match d with Some q => negb (Qle_bool q 0) | None => false end.

(** The result is the running time of the buffer and its metadata. *)
Definition frameMetadataFromBuffer (buffer : GstBuffer) (segment : GstSegment) (generation : Z)
  : option (Z * flFrameMetadata) :=
  return_if negb (seg_format segment =? GST_FORMAT_TIME) || negb (positiveRate (seg_rate segment)) with None ;;
  pts ← frameRunningTime segment (gb_pts buffer);
  streamGeneration ←
    match gb_meta buffer with
    | Some meta =>
      if negb (md_version meta =? FL_FRAME_METADATA_VERSION) || negb (truthy (md_streamGeneration meta))
      then None else Some (md_streamGeneration meta)
    | None => Some generation
    end;
  return_if negb (truthy streamGeneration) with None ;;
  '(flags, dtsNs) ←
    (if clockValid (gb_dts buffer)
     then dts ← frameRunningTime segment (gb_dts buffer); Some (FL_FRAME_HAS_DTS, dts)
     else Some (0, 0));
  '(flags, durationNs) ←
    (if clockValid (gb_duration buffer)
     then
       let duration := gb_duration buffer in
       let start := gb_pts buffer in
       return_if UINT64_MAX - start <? duration with None ;;
       end' ← frameRunningTime segment (start + duration);
       return_if end' <? pts with None ;;
       Some (Z.lor flags FL_FRAME_HAS_DURATION, end' - pts)
     else Some (flags, 0));
  let flags := if gb_discont buffer then Z.lor flags FL_FRAME_DISCONT else flags in
  Some (pts, mkMetadata FL_FRAME_METADATA_VERSION flags dtsNs durationNs streamGeneration 0 0).
End Times.

Definition set_flags (md : flFrameMetadata) (flags : Z) : flFrameMetadata :=
  mkMetadata (md_version md) flags (md_dtsNs md) (md_durationNs md) (md_streamGeneration md)
    (md_reserved0 md) (md_reserved1 md).

(** ** Memory policy *)

Definition FL_MEMORY_SHARED_CPU : Z := 0x01.
Definition FL_MEMORY_D3D11 : Z := 0x02.
Definition FL_MEMORY_DMABUF : Z := 0x04.
Definition FL_MEMORY_AHB : Z := 0x08.
Definition FL_MEMORY_COPY : Z := 0x01.
Definition FL_MEMORY_READBACK : Z := 0x02.
Definition FL_MEMORY_UPLOAD : Z := 0x04.
Definition FL_MEMORY_CONVERT : Z := 0x08.

Record GstFrameLinkMemoryPolicy := mkPolicy {
  mp_version : Z; mp_reserved : Z; mp_sessionGeneration : Z;
  mp_requirements : list flMemoryRequirements;   (* 2 *)
  mp_paths : list flMemoryPath;                  (* 2 *)
}.

Definition noPath : flMemoryPath := mkPath 0 0 0 0 [0; 0; 0; 0].
Definition path0 (p : GstFrameLinkMemoryPolicy) : flMemoryPath := default noPath (mp_paths p !! 0%nat).

Definition nativeResource (platform : Platform) : Z :=
  match platform with Win32 => FL_MEMORY_D3D11 | Android => FL_MEMORY_AHB | Linux => FL_MEMORY_DMABUF end.

Definition validMemoryPolicy (platform : Platform) (policy : option GstFrameLinkMemoryPolicy)
    (native producer : bool) : bool :=
  match policy with
  | None => false
  | Some policy =>
    return_if negb (mp_version policy =? 1) || truthy (mp_reserved policy)
           || negb (truthy (mp_sessionGeneration policy)) with false ;;
    let '(evaluated, _) :=
      flMemoryEvaluateBoundary (Some (mp_requirements policy)) (Some (mp_paths policy)) 2
        (Some (replicate 2 zeroDecision)) in
    return_if negb (bool_decide (evaluated = FL_MEMORY_OK)) with false ;;
    return_if negb (pa_resourceType (path0 policy) =? nativeResource platform) with false ;;
    let mandatory := if native then 0 else FL_MEMORY_COPY in
    let mandatory :=
      if is_win platform && negb native
      then Z.lor mandatory (if producer then FL_MEMORY_UPLOAD else FL_MEMORY_READBACK) else mandatory in
    Z.land (pa_operations (path0 policy)) mandatory =? mandatory
  end.

(** [bytes] is the "framelink-memory-requirements" field of the query, if it is
    there and holds bytes. *)
Definition allocationMemoryPolicy (bytes : option (list Z)) (policy : GstFrameLinkMemoryPolicy) : bool :=
  match bytes with
  | None => false
  | Some data =>
    match flMemoryRequirementsDecode (Some data) (Some (mkRequirements 0 0 0 0 0 [0; 0; 0])) with
    | (FL_MEMORY_OK, Some third) =>
      let requirements := mp_requirements policy ++ [third] in
      let paths := mp_paths policy ++ [path0 policy] in
      bool_decide ((flMemoryEvaluateBoundary (Some requirements) (Some paths) 3
                      (Some (replicate 3 zeroDecision))).1 = FL_MEMORY_OK)
    | _ => false
    end
  end.

(** * Properties *)

Lemma format_roundtrip f : toFlFormat f <> 0 -> toGstFormat (toFlFormat f) = f.
Proof. by destruct f. Qed.

Lemma format_unknown f : 0 <> f -> toGstFormat f <> GST_VIDEO_FORMAT_UNKNOWN -> toFlFormat (toGstFormat f) = f.
Proof.
  intros Hf. unfold toGstFormat.
  destruct (Z.eqb_spec f FL_FORMAT_RGB10A2) as [->|]; [done|]. destruct (Z.eqb_spec f FL_FORMAT_NV12) as [->|]; [done|].
  destruct (Z.eqb_spec f FL_FORMAT_RGBA8) as [->|]; [done|]. by destruct (Z.eqb_spec f FL_FORMAT_BGRA8) as [->|].
Qed.

(** ** Copies between surfaces *)

(** The bytes of a surface: [h] rows of [n] bytes. *)
Definition in_row (base stride n y a : Z) : Prop := base + y * stride <= a < base + y * stride + n.
Definition in_surface (base stride n h a : Z) : Prop := exists y, 0 <= y < h /\ in_row base stride n y a.

(** Rows that do not run into each other, and no byte of one surface in the other. *)
Record disjoint_surfaces (dst dstStride src srcStride n h : Z) : Prop := mkDisjoint {
  ds_pitch : n <= dstStride;
  ds_apart : forall a, in_surface dst dstStride n h a -> ~ in_surface src srcStride n h a;
}.

(** After [k] rows: each byte of the rows done is the byte of the source that
    [perm] names, and nothing else changed. *)
Definition copied (perm : Z -> Z) (dst dstStride src srcStride n k : Z) (m m' : Mem) : Prop :=
  (forall y i, 0 <= y < k -> 0 <= i < n ->
     load m' (dst + y * dstStride + i) = load m (src + y * srcStride + perm i))
  /\ (forall a, ~ in_surface dst dstStride n k a -> load m' a = load m a).

Lemma rows_copied perm body dst dstStride src srcStride n h m :
  0 <= h -> disjoint_surfaces dst dstStride src srcStride n h -> (forall i, 0 <= i < n -> 0 <= perm i < n) ->
  (forall y m, 0 <= y < h ->
     (forall i, 0 <= i < n -> load (body y m) (dst + y * dstStride + i)
        = load m (src + y * srcStride + perm i))
     /\ (forall a, ~ in_row dst dstStride n y a -> load (body y m) a = load m a)) ->
  copied perm dst dstStride src srcStride n h m (forRange h body m).
Proof.
  intros Hh [Hpitch Hap] Hperm Hbody.
  apply (forRange_ind (fun k m' => copied perm dst dstStride src srcStride n k m m')); [|intros k m' Hk [IH1 IH2]|done].
  - split; [lia|done].
  - destruct (Hbody k m' Hk) as [B1 B2]. split.
    + intros y i Hy Hi. destruct (decide (y = k)) as [->|Hyk].
      * rewrite B1 by done. apply IH2. intros (y & Hy' & Hr). apply (Hap (src + k * srcStride + perm i)).
        -- exists y. split; [lia|done].
        -- exists k. split; [lia|]. unfold in_row. specialize (Hperm i Hi). lia.
      * rewrite B2; [apply IH1; [lia|done]|]. unfold in_row. intros Hr. nia.
    + intros a Ha. rewrite B2; [apply IH2|]; intros H; apply Ha.
      * destruct H as (y & ? & ?). exists y. split; [lia|done].
      * exists k. split; [lia|done].
Qed.

(** One swapped row. *)
Definition swapChannel (c : Z) : Z := if c =? 0 then 2 else if c =? 2 then 0 else c.
Definition swapIndex (i : Z) : Z := 4 * (i / 4) + swapChannel (i mod 4).

Lemma swapIndex_range i : swapIndex i / 4 = i / 4.
Proof.
  unfold swapIndex, swapChannel. pose proof (Z.mod_pos_bound i 4 ltac:(lia)).
  rewrite Z.add_comm, Z.mul_comm, Z.div_add by lia. rewrite Z.div_small; [lia|].
  destruct (_ =? 0) eqn:E1; [lia|]. destruct (_ =? 2) eqn:E2; lia.
Qed.

Lemma load_swapPixel d s x m a :
  (forall i j, 0 <= i < 4 -> 0 <= j < 4 -> d + (x * 4 + i) <> s + (x * 4 + j)) ->
  load (swapPixel d s x m) a
  = if decide (d + x * 4 <= a < d + x * 4 + 4) then load m (s + swapIndex (a - d)) else load m a.
Proof.
  intros Hap. unfold swapPixel. rewrite !load_store.
  pose proof (Hap 0 1 ltac:(lia) ltac:(lia)). pose proof (Hap 0 0 ltac:(lia) ltac:(lia)).
  pose proof (Hap 0 3 ltac:(lia) ltac:(lia)). pose proof (Hap 1 0 ltac:(lia) ltac:(lia)).
  pose proof (Hap 1 3 ltac:(lia) ltac:(lia)). pose proof (Hap 2 3 ltac:(lia) ltac:(lia)). clear Hap.
  destruct (decide _) as [Ha|Ha].
  - assert (a = d + (x * 4 + 0) \/ a = d + (x * 4 + 1) \/ a = d + (x * 4 + 2) \/ a = d + (x * 4 + 3))
      as [->|[->|[->| ->]]] by lia;
      repeat match goal with |- context [?u =? ?v] => destruct (Z.eqb_spec u v); try lia end;
      f_equal; unfold swapIndex.
    all: match goal with |- _ = _ + (4 * ((?d + (?x * 4 + ?c) - ?d) / 4) + _) =>
           replace (d + (x * 4 + c) - d) with (c + x * 4) by lia end;
         rewrite Z.div_add, Z.mod_add, Z.div_small, Z.mod_small by lia; cbn; lia.
  - repeat match goal with |- context [?u =? ?v] => destruct (Z.eqb_spec u v); [lia|] end. done.
Qed.

Lemma swapRow d s w m :
  (forall i j, 0 <= i < w * 4 -> 0 <= j < w * 4 -> d + i <> s + j) -> 0 <= w ->
  (forall i, 0 <= i < w * 4 -> load (forRange w (swapPixel d s) m) (d + i) = load m (s + swapIndex i))
  /\ (forall a, ~ (d <= a < d + w * 4) -> load (forRange w (swapPixel d s) m) a = load m a).
Proof.
  intros Hap Hw.
  apply (forRange_ind (fun k m' =>
    (forall i, 0 <= i < k * 4 -> load m' (d + i) = load m (s + swapIndex i))
    /\ (forall a, ~ (d <= a < d + k * 4) -> load m' a = load m a)) (swapPixel d s) m w); [|intros k m' Hk [IH1 IH2]|done].
  - split; [lia|done].
  - assert (forall a, load (swapPixel d s k m') a
      = if decide (d + k * 4 <= a < d + k * 4 + 4) then load m' (s + swapIndex (a - d)) else load m' a) as E.
    { intros a. apply load_swapPixel. intros i j Hi Hj. apply Hap; lia. }
    split.
    + intros i Hi. rewrite E. destruct (decide _) as [Hd|Hd]; [|apply IH1; lia].
      replace (d + i - d) with i by lia. apply IH2. pose proof (swapIndex_range i).
      assert (k * 4 <= swapIndex i < k * 4 + 4) by (pose proof (Z.div_mod i 4); pose proof (Z.mod_pos_bound i 4);
        pose proof (Z.div_mod (swapIndex i) 4); pose proof (Z.mod_pos_bound (swapIndex i) 4); lia).
      intros Ha. apply (Hap (s + swapIndex i - d) (swapIndex i)); lia.
    + intros a Ha. rewrite E. destruct (decide _) as [Hd|Hd]; [lia|]. apply IH2. lia.
Qed.

(** Byte [i] of a row comes from byte [pixelSource swap i] of the other. *)
Definition pixelSource (swapRB : bool) (i : Z) : Z := if swapRB then swapIndex i else i.

Lemma pixelSource_range swapRB w i : 0 <= i < w * 4 -> 0 <= pixelSource swapRB i < w * 4.
Proof.
  intros Hi. destruct swapRB; simpl; [|done]. pose proof (swapIndex_range i).
  pose proof (Z.div_mod i 4). pose proof (Z.mod_pos_bound i 4).
  pose proof (Z.div_mod (swapIndex i) 4). pose proof (Z.mod_pos_bound (swapIndex i) 4). lia.
Qed.

(** The copy is exact: every pixel, with red and blue exchanged if asked, and no
    byte outside the rows - padding included - changes. *)
Lemma copyPixels_exact dst dstStride src srcStride w h swapRB m :
  0 <= w -> 0 <= h -> disjoint_surfaces dst dstStride src srcStride (w * 4) h ->
  copied (pixelSource swapRB) dst dstStride src srcStride (w * 4) h m
    (copyPixels dst dstStride src srcStride w h swapRB m).
Proof.
  intros Hw Hh Hd. apply rows_copied; [done|done|intros i; by apply pixelSource_range|]. intros y m' Hy.
  assert (forall i j, 0 <= i < w * 4 -> 0 <= j < w * 4 -> dst + y * dstStride + i <> src + y * srcStride + j) as Hap.
  { intros i j Hi Hj E. apply (ds_apart _ _ _ _ _ _ Hd (dst + y * dstStride + i)); exists y; unfold in_row; lia. }
  destruct swapRB; simpl.
  - apply swapRow; [exact Hap|done].
  - split; intros.
    + rewrite load_memcpy. destruct (_ && _) eqn:E; [f_equal; lia|lia].
    + rewrite load_memcpy. unfold in_row in *. destruct (_ && _) eqn:E; [lia|done].
Qed.

Lemma copyPlane_exact dst dstStride src srcStride n h m :
  0 <= n -> 0 <= h -> disjoint_surfaces dst dstStride src srcStride n h ->
  copied (fun i => i) dst dstStride src srcStride n h m (copyPlane dst dstStride src srcStride n h m).
Proof.
  intros Hn Hh Hd. apply rows_copied; [done|done|done|]. intros y m' Hy. split; intros.
  - rewrite load_memcpy. destruct (_ && _) eqn:E; [f_equal; lia|lia].
  - rewrite load_memcpy. unfold in_row in *. destruct (_ && _) eqn:E; [lia|done].
Qed.

(** ** The streaming copy is the plain one *)

Lemma stream_load_aligned m a j : Z.land a 15 = 0 -> stream_load m (a + 16 * j) = Some (peek m (a + 16 * j) 16).
Proof.
  intros Ha. unfold stream_load. replace (Z.land (a + 16 * j) 15) with 0; [done|].
  change 15 with (Z.ones 4) in *. rewrite Z.land_ones in * by lia. change (2 ^ 4) with 16 in *.
  by rewrite (Z.mul_comm 16), Z_mod_plus_full.
Qed.

Lemma copy16_memcpy d s j m : Z.land s 15 = 0 -> copy16 d (s + 16 * j) m = Some (memcpy d (s + 16 * j) 16 m).
Proof. intros Hs. unfold copy16. by rewrite stream_load_aligned. Qed.

Lemma copy64_memcpy d s j m : Z.land s 15 = 0 -> copy64 d (s + 64 * j) m = Some (memcpy d (s + 64 * j) 64 m).
Proof.
  intros Hs. unfold copy64. replace (s + 64 * j) with (s + 16 * (4 * j)) by lia.
  replace (s + 16 * (4 * j) + 16) with (s + 16 * (4 * j + 1)) by lia.
  replace (s + 16 * (4 * j) + 32) with (s + 16 * (4 * j + 2)) by lia.
  replace (s + 16 * (4 * j) + 48) with (s + 16 * (4 * j + 3)) by lia.
  rewrite !stream_load_aligned by done. cbn [mbind option_bind]. f_equal. unfold memcpy.
  change (Z.to_nat 64) with (16 + (16 + (16 + 16)))%nat. rewrite !peek_app, !poke_app, !length_peek.
  repeat match goal with |- context [s + 16 * (4 * j + ?k)] =>
    replace (s + 16 * (4 * j + k)) with (s + 16 * (4 * j) + 16 * k) by lia end.
  rewrite <- !Z.add_assoc. done.
Qed.

(** A loop that does not fault. *)
Lemma forEach_total n f g m : (forall i m, 0 <= i < n -> f i m = Some (g i m)) -> forEach n f m = Some (forRange n g m).
Proof.
  intros H. unfold forEach, forRange. assert (Forall (fun i => 0 <= Z.of_nat i < n) (seq 0 (Z.to_nat n))) as Hall.
  { apply Forall_forall. intros i Hi. apply elem_of_seq in Hi. lia. }
  revert m. induction Hall as [|i l Hi Hl IH]; intros m; [done|]. cbn [foldl mbind option_bind]. rewrite H by done. apply IH.
Qed.

Lemma memcpy_blocks d s b n m : 0 <= b -> 0 <= n -> apart d (b * n) s (b * n) ->
  forRange n (fun k m => memcpy (d + b * k) (s + b * k) b m) m = memcpy d s (b * n) m.
Proof.
  intros Hb Hn Hap.
  apply (forRange_ind (fun k m' => m' = memcpy d s (b * k) m)); [by rewrite Z.mul_0_r|intros k m' Hk ->|done].
  rewrite Z.mul_add_distr_l, Z.mul_1_r. apply memcpy_app; [nia|done|]. unfold apart in *. nia.
Qed.

Lemma forRange_ext n f g m : (forall i m, 0 <= i < n -> f i m = g i m) -> forRange n f m = forRange n g m.
Proof.
  intros H. destruct (decide (0 <= n)) as [Hn|Hn]; [|unfold forRange; by replace (Z.to_nat n) with O by lia].
  apply (forRange_ind (fun k m' => k <= n -> m' = forRange k g m) f m n); [done| |done|done].
  intros i m' Hi IH _. rewrite forRange_succ by lia. rewrite (IH ltac:(lia)). by apply H.
Qed.

Lemma wcRowCopySse41_memcpy d s n m : Z.land s 15 = 0 -> 0 <= n -> apart d n s n ->
  wcRowCopySse41 d s n m = Some (memcpy d s n m).
Proof.
  intros Hs Hn Hap. unfold wcRowCopySse41.
  pose proof (Z.div_mod n 64 ltac:(lia)). pose proof (Z.mod_pos_bound n 64 ltac:(lia)).
  assert (0 <= n / 64) by (apply Z.div_pos; lia). set (b := n / 64) in *. clearbody b.
  pose proof (Z.div_mod (n - 64 * b) 16 ltac:(lia)). pose proof (Z.mod_pos_bound (n - 64 * b) 16 ltac:(lia)).
  assert (0 <= (n - 64 * b) / 16) by (apply Z.div_pos; lia). set (k := (n - 64 * b) / 16) in *. clearbody k.
  unfold apart in Hap.
  rewrite (forEach_total b _ (fun k m => memcpy (d + 64 * k) (s + 64 * k) 64 m)) by (intros; by apply copy64_memcpy).
  cbn [mbind option_bind]. rewrite memcpy_blocks by (unfold apart; lia).
  rewrite (forEach_total k _ (fun j m => memcpy (d + 64 * b + 16 * j) (s + 64 * b + 16 * j) 16 m)).
  2: { intros j m' _. replace (s + (64 * b + 16 * j)) with (s + 16 * (4 * b + j)) by lia.
       rewrite copy16_memcpy by done. do 2 f_equal; lia. }
  cbn [mbind option_bind]. rewrite memcpy_blocks by (unfold apart; lia).
  rewrite memcpy_app by (unfold apart; lia). f_equal.
  destruct (Z.ltb_spec (64 * b + 16 * k) n).
  - rewrite memcpy_app by (unfold apart; lia). f_equal. lia.
  - f_equal. lia.
Qed.

(** C37: The streaming copy out of write-combined memory never faults - a streaming
    load needs an address that is a multiple of 16 - and writes what the plain row
    copy writes, byte for byte, whatever the widths, strides and alignments, and
    whether or not the processor has the instruction: the 64- and 16-byte blocks
    and the tail cover each row exactly. *)
Theorem wc_copy_equivalent sse41 dst dstStride src srcStride w h m :
  0 <= w ->
  (forall y, 0 <= y < h -> apart (dst + y * dstStride) (w * 4) (src + y * srcStride) (w * 4)) ->
  wcCopy sse41 dst dstStride src srcStride w h m = Some (copyPixels dst dstStride src srcStride w h false m).
Proof.
  intros Hw Hap. unfold wcCopy, copyPixels. apply forEach_total. intros y m' Hy. specialize (Hap y Hy).
  cbn zeta. destruct sse41; cbn [andb]; [|done]. destruct (Z.eqb_spec (Z.land (src + y * srcStride) 15) 0); [|done].
  apply wcRowCopySse41_memcpy; [done|lia|done].
Qed.

(** Twenty pixels of one row: a block of 64 bytes and one of 16; and 5 of a row that
    is not aligned. *)
Lemma wc_copy_equivalent_witness :
  let m := poke 4096 (map Z.of_nat (seq 1 100)) empty in
  wcCopy true 0 100 4096 100 20 1 m = Some (copyPixels 0 100 4096 100 20 1 false m)
  /\ (fun m => peek m 0 21) <$> wcCopy true 0 100 4100 100 5 1 m = Some (map Z.of_nat (seq 5 20) ++ [0]).
Proof.
  split; [|by vm_compute]. apply wc_copy_equivalent; [lia|]. intros y Hy. unfold apart. lia.
Defined.
