(* ===== verification/Element.v ===== *)
(** * Running an element

    The callbacks of the GStreamer elements call the channel API, GLib, GStreamer
    and the session coordinator, from one thread while others use the same
    session.  A [C A] is such code: a function of the [Core] it runs in - the time,
    the sessions, the memory, the native buffers, and the log of what the element
    did.  [Element] says what the calls answer, by time; the session calls are the
    coordinator's own (SessionContext.v), with what the other threads call in
    between.  A callback that waits for ever has no result.

    [wp m Q c]: if [m] run in [c] comes back, it does so with [Q]. *)
From stdpp Require Import gmap.
From S2P Require Import Prelude Api Session EventChannel SessionContext Bytes GstVideo.

(** [GstVideoFrame], mapped. *)
Record VideoFrame := mkVideoFrame {
  vf_format : GstVideoFormat; vf_width : Z; vf_height : Z; vf_planes : list Plane;
}.

(** ** What an element does *)

Inductive NativeDid :=
| NAcquire (ch : Z) (b : flBuffer)
| NCancel (ch : Z) (b : flBuffer)
| NMetadata (ch : Z) (b : flBuffer) (md : flFrameMetadata)
| NSubmit (ch : Z) (b : flBuffer) (fd pts : Z)
| NRetain (ch reference : Z)
| NUnretain (ch reference : Z)
| NDup (fd : Z)
| NCloseFd (fd : Z)
| NClose (ch : Z).

Inductive Did :=
| DOpen (ch : Z)
| DAdopt (ch : Z)
| DClose (ch : Z)
| DHanded (ch : Z)                 (* to a native producer, which closes it *)
(* the producer's side *)
| DAcquire (ch : Z) (b : flBuffer)
| DCancel (ch : Z) (b : flBuffer)
| DMetadata (ch : Z) (b : flBuffer) (md : flFrameMetadata)
| DSubmit (ch : Z) (b : flBuffer) (pts : Z)
(* the consumer's side *)
| DRead (ch : Z) (f : flFrame)
| DRelease (ch : Z) (f : flFrame)
| DLease (ch : Z) (f : flFrame) (token : Z)
| DRefused (ch : Z) (f : flFrame)
| DComplete (ch : Z) (token : Z)
(* a native producer, on behalf of a sink *)
| DNative (d : NativeDid)
(* the session *)
| DSent (e : FlGstVideoEvent)
| DTook (e : FlGstVideoEvent)
| DEnded (frames pts : Z)
| DCancelled
(* GStreamer *)
| DGap (pts duration : Z)
| DMissing (previous sequence missing : Z)
| DStats (received submitted dropped ringFull : Z)
| DError
(* audio: a run starts, a block of PCM goes on, the terminal record, the end *)
| DStart
| DPcm (a : flAudioFormat) (budget pts duration size : Z) (discont : bool)
| DTerminal (generation blocks bytes frames last : Z)
| DEos
| DRef (stream : Z)
| DUnref (stream : Z)
| DChunk (bytes : list Z).

#[export] Instance NativeDid_eq_dec : EqDecision NativeDid.
Proof. solve_decision. Defined.
#[export] Instance Did_eq_dec : EqDecision Did.
Proof. solve_decision. Defined.

Definition SState : Type := History * World.

Record Core (N : Type) := mkCore {
  c_tick : nat;
  c_sessions : nat -> SState;
  c_mem : Mem;
  c_native : N;
  c_log : list Did;
}.
Arguments mkCore {N} _ _ _ _ _.
Arguments c_tick {N} _.
Arguments c_sessions {N} _.
Arguments c_mem {N} _.
Arguments c_native {N} _.
Arguments c_log {N} _.

(** The answers of what is not in the source, and of the channel API, whose
    implementations are the backends. *)
Class Element := {
  (* GLib, GStreamer *)
  el_now : nat -> Z;                                   (* g_get_monotonic_time *)
  el_state : nat -> Z;                                 (* GST_STATE *)
  el_running : GstSegment -> Z -> Z -> Z;              (* gst_segment_to_running_time *)
  el_delay : option Z;                                 (* FRAMELINK_TEST_PRODUCER_OPEN_DELAY_MS *)
  el_frame_map : nat -> GstBuffer -> option VideoFrame; (* gst_video_frame_map *)
  el_buffer : nat -> option Plane;                     (* a new buffer, mapped for writing *)
  el_push : nat -> bool;
  el_flushing : nat -> bool;
  el_ok : nat -> bool;                                 (* an allocation, a parent's handler *)
  el_context : nat -> option (option nat);             (* gst_element_get_context: a session, or malformed *)
  el_fd : nat -> Z;                                    (* fcntl(F_DUPFD_CLOEXEC) *)
  (* the other threads *)
  el_others : nat -> nat -> list Call;                 (* time, session *)
  el_sleeps : nat -> list Sleep;
  el_written : nat -> bool;
  (* the channel API *)
  el_open : nat -> list Z -> flResult * option Z;
  el_open_slot : nat -> list Z -> flResult * option (Z * Z);
  el_create : nat -> list Z -> flResult;
  el_query : nat -> Z -> flResult * flChannelInfo;
  el_flags : nat -> Z -> flResult * Z;
  el_acquire : nat -> Z -> flResult * flBuffer;
  el_metadata : nat -> Z -> flResult;
  el_submit : nat -> Z -> flResult;
  el_retain : nat -> Z -> flResult * Z;
  el_frame : nat -> Z -> flResult * flFrame;
  el_age : nat -> Z -> flResult * Z;
  el_get_metadata : nat -> Z -> flResult * flFrameMetadata;
  el_release : nat -> Z -> flResult;
  el_lease : nat -> Z -> flResult * Z;
  el_complete : nat -> Z -> flResult;
  el_collect : nat -> Z -> flResult;
  el_map : nat -> Z -> flResult * Plane;               (* flImageMap *)
  el_planes : nat -> Z -> flResult * flMappedImage;    (* flImageMapPlanes *)
}.

(** ** The monad *)

Definition C (N A : Type) : Type := Core N -> option (A * Core N).

Section Monad.
Context {N : Type}.

Definition ret {A} (a : A) : C N A := fun c => Some (a, c).
Definition bind {A B} (m : C N A) (k : A -> C N B) : C N B :=
  fun c => '(a, c) ← m c; k a c.

(** One step: the answer depends on the time, and is logged as [f] says. *)
Definition step {A} (answer : nat -> A) (f : A -> list Did) : C N A :=
  fun c =>
    let a := answer (c_tick c) in
    Some (a, mkCore (S (c_tick c)) (c_sessions c) (c_mem c) (c_native c) (c_log c ++ f a)).

Definition ask {A} (answer : nat -> A) : C N A := step answer (fun _ => []).
Definition act (l : list Did) : C N unit := step (fun _ => tt) (fun _ => l).

Definition memory (f : Mem -> Mem) : C N unit :=
  fun c => Some (tt, mkCore (c_tick c) (c_sessions c) (f (c_mem c)) (c_native c) (c_log c)).

(** A change that may fault: then the call does not come back. *)
Definition memory_or_fault (f : Mem -> option Mem) : C N unit :=
  fun c => m ← f (c_mem c); Some (tt, mkCore (c_tick c) (c_sessions c) m (c_native c) (c_log c)).

Definition native {A} (f : N -> A * N) : C N A :=
  fun c => let '(a, n) := f (c_native c) in
           Some (a, mkCore (c_tick c) (c_sessions c) (c_mem c) n (c_log c)).
End Monad.

Declare Scope element_scope.
Delimit Scope element_scope with element.
Notation "'let!' x := m 'in' k" := (bind m (fun x => k))
  (at level 200, x pattern, m at level 100, k at level 200,
   format "'[v' 'let!'  x  :=  m  'in' '/' k ']'") : element_scope.
Notation "m ;; k" := (bind m (fun _ => k))
  (at level 100, k at level 200, right associativity) : element_scope.
#[global] Open Scope element_scope.

Section Calls.
Context `{E : Element} {N : Type}.
Implicit Types (i : nat) (ch : Z).

(** ** The channel API *)

(** The channels the element got hold of and did not close, from its log. *)
Definition opens_step (o : list Z) (d : Did) : list Z :=
  match d with
  | DOpen ch | DAdopt ch => ch :: o
  | DClose ch => filter (fun x => x <> ch) o
  | _ => o
  end.
Definition opens (log : list Did) : list Z := foldl opens_step [] log.
Definition newChannel (log : list Did) : Z := 1 + foldr Z.max 0 (opens log).

Definition opened (r : flResult * option Z) : list Did := match r.2 with Some ch => [DOpen ch] | None => [] end.
Definition flOpenProducer (name : list Z) : C N (flResult * option Z) := step (fun t => el_open t name) opened.
Definition flOpenProducerSlot (prefix : list Z) (slots width height format : Z) : C N (flResult * option (Z * Z)) :=
  step (fun t => el_open_slot t prefix) (fun r => match r.2 with Some (ch, _) => [DOpen ch] | None => [] end).
(** A new object: its address is not one of those in use. *)
Definition flCreateChannelEx (name : list Z) (width height format pool flags : Z) : C N (flResult * option Z) :=
  let! log := (fun c => Some (c_log c, c)) in
  step (fun t => let r := el_create t name in
                 (r, if bool_decide (r = FL_OK) then Some (newChannel log) else None)) opened.
Definition flClose ch : C N unit := act [DClose ch].
Definition flRequestGeometry ch (width height format : Z) : C N unit := act [].
Definition flQuery ch : C N (flResult * flChannelInfo) := ask (fun t => el_query t ch).
Definition flQueryConsumerFlags ch : C N (flResult * Z) := ask (fun t => el_flags t ch).
Definition flAcquireBuffer ch (timeoutMs : Z) : C N (flResult * flBuffer) :=
  step (fun t => el_acquire t ch) (fun r => if bool_decide (r.1 = FL_OK) then [DAcquire ch r.2] else []).
Definition flCancelBuffer ch (b : flBuffer) : C N unit := act [DCancel ch b].
Definition flSetFrameMetadata ch (b : flBuffer) (md : flFrameMetadata) : C N flResult :=
  step (fun t => el_metadata t ch) (fun r => if bool_decide (r = FL_OK) then [DMetadata ch b md] else []).
Definition flSubmit ch (b : flBuffer) (pts : Z) : C N flResult :=
  step (fun t => el_submit t ch) (fun r => if bool_decide (r = FL_OK) then [DSubmit ch b pts] else []).
Definition flImageMap (image : Z) : C N (flResult * Plane) := ask (fun t => el_map t image).
Definition flImageMapPlanes (image : Z) : C N (flResult * flMappedImage) := ask (fun t => el_planes t image).
Definition flImageUnmap (image : Z) : C N unit := act [].

Definition flAcquireFrame ch (timeoutMs : Z) : C N (flResult * flFrame) :=
  step (fun t => el_frame t ch) (fun r => if bool_decide (r.1 = FL_OK) then [DRead ch r.2] else []).
Definition flFrameAgeNs ch (f : flFrame) : C N (flResult * Z) := ask (fun t => el_age t ch).
Definition flGetFrameMetadata ch (f : flFrame) : C N (flResult * flFrameMetadata) := ask (fun t => el_get_metadata t ch).
Definition flRelease ch (f : flFrame) : C N flResult := step (fun t => el_release t ch) (fun _ => [DRelease ch f]).
Definition flLeaseFrame ch (f : flFrame) : C N (flResult * Z) :=
  step (fun t => el_lease t ch) (fun r => if bool_decide (r.1 = FL_OK) then [DLease ch f r.2] else [DRefused ch f]).
Definition flCompleteReadLease ch (token : Z) : C N flResult :=
  step (fun t => el_complete t ch) (fun _ => [DComplete ch token]).
Definition flCollectReadLeases ch : C N flResult := ask (fun t => el_collect t ch).

(** ** GLib and GStreamer *)

Definition g_get_monotonic_time : C N Z := ask el_now.
Definition g_usleep (us : Z) : C N unit := act [].
Definition gst_state : C N Z := ask el_state.
Definition element_error : C N unit := act [DError].   (* GST_ELEMENT_ERROR *)

(** ** The session coordinator

    Each call locks the session; before it gets the lock, others may have run. *)

Definition update (f : nat -> SState) (i : nat) (s : SState) : nat -> SState :=
  fun j => if Nat.eqb j i then s else f j.

Definition locked {A} i (f : list Sleep -> SState -> option (A * SState)) (note : A -> list Did) : C N A :=
  fun c =>
    let st := run (el_others (c_tick c) i) (c_sessions c i) in
    '(a, st) ← f (el_sleeps (c_tick c)) st;
    Some (a, mkCore (S (c_tick c)) (update (c_sessions c) i st) (c_mem c) (c_native c) (c_log c ++ note a)).

Definition call i (k : Call) : C N Answer :=
  locked i (fun _ st => let '(a, w) := perform k st.2 in Some (a, ((k, a) :: st.1, w))) (fun _ => []).
Definition look {A} i (f : World -> A) : C N A := locked i (fun _ st => Some (f st.2, st)) (fun _ => []).

Definition resultOf (a : Answer) : FlGstSessionResult :=
  match a with Result r => r | Config r _ => r | _ => FL_GST_SESSION_INVALID end.

Definition fl_gst_session_get_config i (out : flSessionConfig) : C N (FlGstSessionResult * flSessionConfig) :=
  let! a := call i (GetConfig (Some out)) in
  ret (match a with Config r (Some c) => (r, c) | _ => (resultOf a, out) end).
Definition fl_gst_session_register_track i (track : Z) : C N FlGstSessionResult :=
  let! a := call i (RegisterTrack track) in ret (resultOf a).
Definition fl_gst_session_track_ready i (track generation : Z) : C N FlGstSessionResult :=
  let! a := call i (TrackReady track generation) in ret (resultOf a).
Definition fl_gst_session_cancel i : C N unit := call i Cancel ;; act [DCancelled].
Definition fl_gst_session_video_eos i (generation frames pts : Z) : C N FlGstSessionResult :=
  let! a := call i (VideoEos generation frames pts) in ret (resultOf a).
Definition fl_gst_session_wait i (generation timeout : Z) : C N FlGstSessionResult :=
  locked i (fun sleeps st =>
    '(r, _, st) ← SessionContext.fl_gst_session_wait GSession generation timeout (Some zeroConfig) st sleeps;
    Some (r, st)) (fun _ => []).
Definition fl_gst_session_wait_video_eos i (generation timeout : Z) : C N (FlGstSessionResult * Z * Z) :=
  locked i (fun sleeps st =>
    '(r, (f, p), st) ←
      SessionContext.fl_gst_session_wait_video_eos GSession generation timeout (Some 0) (Some (-1)) st sleeps;
    Some (r, default 0 f, default (-1) p, st))
    (fun '(r, f, p) => if bool_decide (r = FL_GST_SESSION_READY) then [DEnded f p] else []).
Definition fl_gst_session_map_running_time i (generation pts : Z) (required : bool)
  : C N (FlGstSessionResult * Z) :=
  look i (fun w =>
    let '(r, out) := SessionContext.fl_gst_session_map_running_time GSession generation pts required (Some 0) w in
    (r, default 0 out)).
Definition fl_gst_session_has_event_stream i (generation : Z) : C N bool :=
  look i (SessionContext.fl_gst_session_has_event_stream GSession generation).

(** The pointer to the channel is taken under the session's lock and used without. *)
Definition fl_gst_session_send_video_event i (generation : Z) (e : FlGstVideoEvent) : C N FlGstSessionResult :=
  let! k := look i (eventChannel GSession generation) in
  match k with
  | None => ret FL_GST_SESSION_INVALID
  | Some k =>
    let! written := ask el_written in
    let! a := call i (SendOn k e written) in
    act (if bool_decide (resultOf a = FL_GST_SESSION_READY) then [DSent e] else []) ;;
    ret (resultOf a)
  end.
Definition fl_gst_session_receive_video_event i (generation timeout : Z)
  : C N (FlGstSessionResult * FlGstVideoEvent) :=
  let none := mkEvent 0 0 0 0 in
  let! k := look i (eventChannel GSession generation) in
  match k with
  | None => ret (FL_GST_SESSION_INVALID, none)
  | Some k =>
    locked i (fun _ st =>
      let '(r, e, w) := receiveOn k timeout true st.2 in
      Some ((r, default none e), ((ReceiveOn k timeout true, Result r) :: st.1, w)))
      (fun x => if bool_decide (x.1 = FL_GST_SESSION_READY) then [DTook x.2] else [])
  end.
Definition fl_gst_session_peek_video_end i (generation : Z) : C N (FlGstSessionResult * FlGstVideoEvent) :=
  let none := mkEvent 0 0 0 0 in
  let! w := look i (fun w => w) in
  look i (fun w' =>
    let '(r, e) := SessionContext.fl_gst_session_peek_video_end GSession generation (Some none) w w' in
    (r, default none e)).

(** The session is there or no context was set. *)
Definition validSessionContext : C N bool :=
  let! context := ask el_context in
  match context with
  | None => ret true
  | Some (Some _) => ret true
  | Some None => element_error ;; ret false
  end.
End Calls.

(** ** Shared by the video elements *)

Record PolicyState := mkPolicyState {
  po_applied : bool; po_generation : Z; po_policy : GstFrameLinkMemoryPolicy;
}.
Definition flChannelInfo_zero : flChannelInfo := mkChannelInfo 0 0 0 0 0 0.
Definition noPolicy : GstFrameLinkMemoryPolicy := mkPolicy 0 0 0 [] [].

Definition inc64 (v : Z) : Z := wrap64 (v + 1).

Inductive GstFlowReturn :=
| GST_FLOW_OK | GST_FLOW_FLUSHING | GST_FLOW_EOS | GST_FLOW_NOT_NEGOTIATED | GST_FLOW_ERROR.

#[export] Instance GstFlowReturn_eq_dec : EqDecision GstFlowReturn.
Proof. solve_decision. Defined.

(** [GST_STATE_NULL] .. [GST_STATE_PLAYING] *)
Definition GST_STATE_NULL : Z := 1.
Definition GST_STATE_READY : Z := 2.
Definition GST_STATE_PAUSED : Z := 3.
Definition GST_STATE_PLAYING : Z := 4.

Definition is_some {A} (o : option A) : bool := match o with Some _ => true | None => false end.

(** ** What a callback that comes back has done *)

Section Logic.
Context {N : Type}.
Implicit Types (c : Core N) (l : list Did).

Definition wp {A} (m : C N A) (Q : A -> Core N -> Prop) c : Prop :=
  match m c with Some (a, c') => Q a c' | None => True end.

(** [c'] is a later moment: what was done in between is [l], and nothing touched
    the memory or the native buffers. *)
Record after l c c' : Prop := mkAfter {
  af_log : c_log c' = c_log c ++ l;
  af_mem : c_mem c' = c_mem c;
  af_native : c_native c' = c_native c;
}.

Lemma after_nil c : after [] c c.
Proof. by split; [rewrite app_nil_r|..]. Qed.

Lemma after_trans l1 l2 c c1 c2 : after l1 c c1 -> after l2 c1 c2 -> after (l1 ++ l2) c c2.
Proof.
  intros [L1 M1 N1] [L2 M2 N2]. split; [|congruence|congruence]. by rewrite L2, L1, app_assoc.
Qed.

Lemma wp_ret {A} (a : A) Q c : Q a c -> wp (ret a) Q c.
Proof. done. Qed.

Lemma wp_bind {A B} (m : C N A) (k : A -> C N B) Q c :
  wp m (fun a c => wp (k a) Q c) c -> wp (bind m k) Q c.
Proof. unfold wp, bind. by destruct (m c) as [[a c']|]. Qed.

Lemma wp_true {A} (m : C N A) (Q : A -> Core N -> Prop) c : (forall a c', Q a c') -> wp m Q c.
Proof. unfold wp. destruct (m c) as [[a c']|]; auto. Qed.

Lemma wp_mono {A} (m : C N A) (Q R : A -> Core N -> Prop) c :
  wp m Q c -> (forall a c', Q a c' -> R a c') -> wp m R c.
Proof. unfold wp. destruct (m c) as [[a c']|]; auto. Qed.

Lemma wp_step {A} (g : nat -> A) f Q c : (forall a c', after (f a) c c' -> Q a c') -> wp (step g f) Q c.
Proof. intros H. apply H. by split. Qed.

Lemma wp_step_at {A} (g : nat -> A) f Q c :
  (forall c', after (f (g (c_tick c))) c c' -> Q (g (c_tick c)) c') -> wp (step g f) Q c.
Proof. intros H. apply H. by split. Qed.

Lemma wp_ask {A} (g : nat -> A) Q c : (forall a c', after [] c c' -> Q a c') -> wp (ask g) Q c.
Proof. apply wp_step. Qed.

Lemma wp_act l Q c : (forall c', after l c c' -> Q tt c') -> wp (act l) Q c.
Proof. intros H. apply wp_step. by intros []. Qed.

Lemma wp_memory f Q c :
  (forall c', c_log c' = c_log c -> c_mem c' = f (c_mem c) -> c_native c' = c_native c -> Q tt c') -> wp (memory f) Q c.
Proof. intros H. by apply H. Qed.

Context `{E : Element}.

Lemma wp_locked {A} i (f : list Sleep -> SState -> option (A * SState)) note Q c :
  (forall a c', after (note a) c c' -> Q a c') -> wp (locked i f note) Q c.
Proof.
  intros H. unfold wp, locked. destruct (f _ _) as [[a st]|]; [|done]. apply H. by split.
Qed.

Lemma wp_call i k Q c : (forall a c', after [] c c' -> Q a c') -> wp (call i k) Q c.
Proof. apply wp_locked. Qed.

Lemma wp_cancel i Q c : (forall c', after [DCancelled] c c' -> Q tt c') -> wp (fl_gst_session_cancel i) Q c.
Proof.
  intros H. apply wp_bind, wp_call. intros _ c1 H1. apply wp_act. intros c2 H2. apply H.
  by apply (after_trans [] _ _ _ _ H1).
Qed.

(** A call whose result is all that matters. *)
Lemma wp_result {A B} (m : C N A) (f : A -> B) Q c :
  wp m (fun a c' => Q (f a) c') c -> wp (let! a := m in ret (f a)) Q c.
Proof. intros H. by apply wp_bind. Qed.

Lemma wp_send i g e Q c :
  (forall r c', after (if bool_decide (r = FL_GST_SESSION_READY) then [DSent e] else []) c c' -> Q r c') ->
  wp (fl_gst_session_send_video_event i g e) Q c.
Proof.
  intros H. apply wp_bind, wp_locked. intros [k|] c1 H1.
  - apply wp_bind, wp_ask. intros b c2 H2. apply wp_bind, wp_call. intros a c3 H3.
    apply wp_bind, wp_act. intros c4 H4. apply wp_ret, H.
    pose proof (after_trans _ _ _ _ _ (after_trans _ _ _ _ _ (after_trans _ _ _ _ _ H1 H2) H3) H4) as Ha. exact Ha.
  - apply wp_ret, H. exact H1.
Qed.
End Logic.

(** ** What is held: taking one occurrence out of a list *)

Fixpoint give {A} `{EqDecision A} (x : A) (l : list A) : option (list A) :=
  match l with
  | [] => None
  | y :: l => if bool_decide (x = y) then Some l else (y ::.) <$> give x l
  end.

Lemma give_head {A} `{EqDecision A} (x : A) l : give x (x :: l) = Some l.
Proof. cbn. by rewrite bool_decide_eq_true_2. Qed.

Lemma give_elem {A} `{EqDecision A} (x : A) l : x ∈ l -> exists l', give x l = Some l' /\ l ≡ₚ x :: l'.
Proof.
  induction l as [|y l IH]; [by intros ?%elem_of_nil|]. intros Hx. cbn. case_bool_decide as E.
  - subst y. by exists l.
  - apply elem_of_cons in Hx as [Hx|Hx]; [done|]. destruct (IH Hx) as (l' & -> & Hl).
    exists (y :: l'). split; [done|]. rewrite Hl. by constructor.
Qed.

(** ** Following the log

    A property of an element is a state that its log steps through: [next h d] is
    the state after [d], [None] if [d] may not happen in [h].  The log is followed
    from [base] on; [J] is what is known of the native store meanwhile. *)

Section Follow.
Context {N H : Type} (next : H -> Did -> option H) (base : list Did) (h0 : H) (J : N -> Prop).
Implicit Types (c : Core N) (l : list Did) (h : H).

Definition follow h l : option H := foldl (fun o d => h ← o; next h d) (Some h) l.
Definition at_ h c : Prop := J (c_native c) /\ exists l, c_log c = base ++ l /\ follow h0 l = Some h.
(** Entries that do not matter in [h]. *)
Definition quiet h l : Prop := Forall (fun d => next h d = Some h) l.

Lemma follow_app h l1 l2 : follow h (l1 ++ l2) = (h1 ← follow h l1; follow h1 l2).
Proof.
  unfold follow. rewrite foldl_app. destruct (foldl _ (Some h) l1) as [h1|]; [done|]. simpl.
  induction l2 as [|d l2 IH]; [done|]. exact IH.
Qed.

Lemma follow_cons h d l : follow h (d :: l) = (h1 ← next h d; follow h1 l).
Proof. change (d :: l) with ([d] ++ l). by rewrite follow_app. Qed.

Lemma follow_quiet h l : quiet h l -> follow h l = Some h.
Proof. intros Hl. induction Hl as [|d l Hd Hl IH]; [done|]. unfold follow in *. cbn. by rewrite Hd. Qed.

Lemma at_after h l h' c c' : at_ h c -> J (c_native c') -> c_log c' = c_log c ++ l -> follow h l = Some h' -> at_ h' c'.
Proof.
  intros (_ & l0 & El & Hl) HJ El' Hf. split; [done|]. exists (l0 ++ l). rewrite El', El, app_assoc. split; [done|].
  by rewrite follow_app, Hl.
Qed.

(** From [h], the code ends in the state [T] of its result, which satisfies [R]. *)
Definition leaves {A} h (m : C N A) (T : A -> H) (R : A -> Prop) : Prop :=
  forall c, at_ h c -> wp m (fun a c' => at_ (T a) c' /\ R a) c.

Lemma leaves_ret {A} h (a : A) (T : A -> H) (R : A -> Prop) : h = T a -> R a -> leaves h (ret a) T R.
Proof. intros -> Ha c Hc. apply wp_ret. by split. Qed.

Lemma leaves_bind {A B} h (m : C N A) (k : A -> C N B) T R T' S :
  leaves h m T R -> (forall a, R a -> leaves (T a) (k a) T' S) -> leaves h (bind m k) T' S.
Proof. intros Hm Hk c Hc. apply wp_bind. eapply wp_mono; [by apply Hm|]. intros a c' [Hc' Ha]. by apply Hk. Qed.

Lemma leaves_mono {A} h (m : C N A) T (R S : A -> Prop) :
  leaves h m T R -> (forall a, R a -> S a) -> leaves h m T S.
Proof. intros Hm HS c Hc. eapply wp_mono; [by apply Hm|]. intros a c' [? ?]. split; [done|by apply HS]. Qed.

Lemma leaves_stuck {A} h (T : A -> H) R : leaves h (fun _ => None) T R.
Proof. by intros c _. Qed.

Lemma at_later h l h' c c' : at_ h c -> after l c c' -> follow h l = Some h' -> at_ h' c'.
Proof. intros Hc [El _ En]. intros Hf. apply (at_after h l h' c c'); [exact Hc| |exact El|exact Hf]. rewrite En. apply Hc. Qed.

Lemma leaves_step {A} h (g : nat -> A) f T : (forall a, follow h (f a) = Some (T a)) ->
  leaves h (step g f) T (fun _ => True).
Proof. intros Hf c Hc. apply wp_step. intros a c' Ha. split; [|done]. exact (at_later _ _ _ _ _ Hc Ha (Hf a)). Qed.

Lemma keeps_step {A} h (g : nat -> A) f : (forall a, quiet h (f a)) -> leaves h (step g f) (fun _ => h) (fun _ => True).
Proof. intros Hf. apply leaves_step. intros a. by apply follow_quiet. Qed.

Lemma keeps_ask {A} h (g : nat -> A) : leaves h (ask g) (fun _ => h) (fun _ => True).
Proof. apply keeps_step. constructor. Qed.

Lemma keeps_act h l : quiet h l -> leaves h (act l) (fun _ => h) (fun _ => True).
Proof. intros Hl. by apply keeps_step. Qed.

Lemma keeps_memory h f : leaves h (memory f) (fun _ => h) (fun _ => True).
Proof.
  intros c Hc. apply wp_memory. intros c' El _ En. split; [|done].
  eapply (at_after _ [] _ c c'); [exact Hc|rewrite En; apply Hc|by rewrite app_nil_r|done].
Qed.

Lemma keeps_memory_or_fault h f : leaves h (memory_or_fault f) (fun _ => h) (fun _ => True).
Proof.
  intros c Hc. unfold wp, memory_or_fault. destruct (f (c_mem c)) as [m|]; [|done]. split; [|done].
  eapply (at_after _ [] _ c); [exact Hc|apply Hc|by rewrite app_nil_r|done].
Qed.

Lemma keeps_native {A} h (f : N -> A * N) : (forall n, J n -> J (f n).2) -> leaves h (native f) (fun _ => h) (fun _ => True).
Proof.
  intros HJ c Hc. unfold wp, native. specialize (HJ (c_native c) (proj1 Hc)). destruct (f (c_native c)) as [a n].
  split; [|done]. eapply (at_after _ [] _ c); [exact Hc|exact HJ|by rewrite app_nil_r|done].
Qed.

Context `{E : Element}.

Lemma leaves_locked {A} h i (f : list Sleep -> SState -> option (A * SState)) note T :
  (forall a, follow h (note a) = Some (T a)) -> leaves h (locked i f note) T (fun _ => True).
Proof. intros Hn c Hc. apply wp_locked. intros a c' Ha. split; [|done]. exact (at_later _ _ _ _ _ Hc Ha (Hn a)). Qed.

Lemma keeps_locked {A} h i (f : list Sleep -> SState -> option (A * SState)) note :
  (forall a, quiet h (note a)) -> leaves h (locked i f note) (fun _ => h) (fun _ => True).
Proof. intros Hn. apply leaves_locked. intros a. by apply follow_quiet. Qed.
End Follow.

(** The state does not change. *)
Notation keeps next base h0 J h m R := (leaves next base h0 J h m (fun _ => h) R).

(** The automation: break a callback into its calls and branches.  Each call gets
    its specification - [known] adds some - and a piece of code in between keeps
    the state and what [between] says of its result; [close] proves the results. *)
Ltac quiet := repeat match goal with
  | |- forall _, _ => intros ?
  | |- quiet _ _ [] => constructor
  | |- quiet _ _ [_] => constructor; [solve [reflexivity|cbn; done]|constructor]
  | |- quiet _ _ (opened ?r) => unfold opened; destruct r as [? []]; cbn
  | |- quiet _ _ (match ?x with _ => _ end) => destruct x
  | |- quiet _ _ (if ?x then _ else _) => destruct x
  end.
Ltac one := first
  [ apply keeps_ask | apply keeps_memory | apply keeps_memory_or_fault | apply keeps_act; solve [quiet] | apply keeps_step; solve [quiet]
  | apply keeps_locked; solve [quiet] ].
Ltac walk between known close := repeat match goal with
  | |- leaves _ _ _ _ _ (ret _) _ _ => apply leaves_ret; [first [reflexivity|solve [close]]|close]
  | |- leaves _ _ _ _ _ (match ?x with _ => _ end) _ _ => destruct x eqn:?
  | |- leaves _ _ _ _ _ (if ?x then _ else _) _ _ => destruct x eqn:?
  | |- leaves _ _ _ _ _ (bind _ _) _ _ => eapply leaves_bind; [one|cbv beta; intros ? _]
  | |- leaves _ _ _ _ _ (bind _ _) _ _ => eapply leaves_bind; [solve [known]|cbv beta; intros ? ?]
  | |- leaves _ _ _ _ ?h (@bind _ ?A _ _ _) _ _ => between h A; [|cbv beta; intros ? ?]
  | |- leaves _ _ _ _ _ _ _ _ => eapply leaves_mono; [one|intros; close]
  | |- leaves _ _ _ _ _ _ _ _ => eapply leaves_mono; [solve [known]|intros; close]
  end.

Section Calls.
Context {N H : Type} (next : H -> Did -> option H) (base : list Did) (h0 : H) (J : N -> Prop) `{E : Element}.
Notation kept h m := (keeps next base h0 J h (m : C N _) (fun _ => True)).

Ltac call_walk := walk ltac:(fun h A => fail) idtac done.

Lemma keeps_get_config h i out : kept h (fl_gst_session_get_config i out).
Proof. unfold fl_gst_session_get_config, call. call_walk. Qed.
Lemma keeps_register_track h i t : kept h (fl_gst_session_register_track i t).
Proof. unfold fl_gst_session_register_track, call. call_walk. Qed.
Lemma keeps_track_ready h i t g : kept h (fl_gst_session_track_ready i t g).
Proof. unfold fl_gst_session_track_ready, call. call_walk. Qed.
Lemma keeps_video_eos h i g f p : kept h (fl_gst_session_video_eos i g f p).
Proof. unfold fl_gst_session_video_eos, call. call_walk. Qed.
Lemma keeps_cancel h i : quiet next h [DCancelled] -> kept h (fl_gst_session_cancel i).
Proof.
  intros Hq. unfold fl_gst_session_cancel, call. eapply leaves_bind; [one|]. intros a _. by apply keeps_act.
Qed.

(** Sending: the record is sent, or nothing happens. *)
Lemma leaves_send h h' i g e : follow next h [DSent e] = Some h' ->
  leaves next base h0 J h (fl_gst_session_send_video_event i g e : C N _)
    (fun r => if bool_decide (r = FL_GST_SESSION_READY) then h' else h) (fun _ => True).
Proof.
  intros Hs. unfold fl_gst_session_send_video_event, look, call. eapply leaves_bind; [one|cbv beta; intros [k|] _].
  - eapply leaves_bind; [one|cbv beta; intros written _]. eapply leaves_bind; [one|cbv beta; intros a _].
    apply (leaves_bind _ _ _ _ _ _ _ (fun _ => if bool_decide (resultOf a = FL_GST_SESSION_READY) then h' else h) (fun _ => True)).
    + apply leaves_step. intros []. by case_bool_decide.
    + intros [] _. by apply leaves_ret.
  - by apply leaves_ret.
Qed.

Lemma keeps_send h i g e : quiet next h [DSent e] -> kept h (fl_gst_session_send_video_event i g e).
Proof.
  intros Hq. pose proof (leaves_send h h i g e (follow_quiet _ _ _ Hq)) as Hl. intros c Hc.
  eapply wp_mono; [by apply Hl|]. intros r c' [Hr _]. split; [|done]. by destruct (bool_decide _).
Qed.
End Calls.

Ltac session := first
  [ apply keeps_get_config | apply keeps_register_track | apply keeps_track_ready | apply keeps_video_eos
  | apply keeps_cancel; solve [quiet] | apply keeps_send; solve [quiet] ].
