(* ===== verification/GstSink.v ===== *)
(** * The video sink element (gst/gstframelink.cpp, framelinksink)

    A FrameLink producer as a GStreamer element: it dials into a ring, draws each
    buffer it is given into a slot and submits it, and in a coordinated session
    announces gaps and discontinuities on the event stream first.  Each callback is
    one definition; a native producer (fl_gst_*_producer.hpp) is an instance of
    [NativeSink].  Left out: log and trace calls, the property and caps tables of
    the GObject class.

    Fuel: one unit per dial while the element waits to be connected. *)
From stdpp Require Import gmap.
From Stdlib Require Import QArith.
From S2P Require Import Prelude Api Memory Session EventChannel SessionContext Bytes GstVideo Element.

(** ** The native producer, as the sink uses it *)

Class NativeSink `{E : Element} := {
  ns_store : Type;
  ns_new : Z -> C ns_store nat;                  (* make_shared<NativeSinkProducer>(ch) *)
  ns_valid : nat -> C ns_store bool;
  ns_deactivate : nat -> C ns_store unit;        (* active=false *)
  ns_drop : nat -> C ns_store unit;              (* delete the shared_ptr *)
  ns_acquire : nat -> Z -> C ns_store (option nat);
  ns_setReady : nat -> GstBuffer -> Z -> C ns_store bool;
  ns_submit : nat -> GstBuffer -> Z -> option flFrameMetadata -> C ns_store flResult;
}.

(** What it promises the sink: its own channel calls, and nothing else. *)
Definition only_native {N A} (m : C N A) : Prop := forall c a c', m c = Some (a, c') ->
  exists l, c_log c' = c_log c ++ map DNative l /\ c_mem c' = c_mem c.

Class NativeSinkLaws `{E : Element} {NS : NativeSink} := {
  ns_new_native ch : only_native (ns_new ch);
  ns_valid_native p : only_native (ns_valid p);
  ns_deactivate_native p : only_native (ns_deactivate p);
  ns_drop_native p : only_native (ns_drop p);
  ns_acquire_native p ms : only_native (ns_acquire p ms);
  ns_setReady_native p b fd : only_native (ns_setReady p b fd);
  ns_submit_native p b pts md : only_native (ns_submit p b pts md);
}.

(** ** State: the fields of [GstFrameLinkSink], in groups *)

Record SinkProps := mkProps {
  sp_channel : list Z; sp_slots : Z;
  sp_preserveTimestamps : bool; sp_preserveFrameMetadata : bool; sp_nativeMemory : bool;
  sp_connectTimeoutMs : Z; sp_bufferWaitMs : Z; sp_errorOnRingFull : bool;
}.
Record SinkSession := mkSinkSession {
  ss_session : option nat; ss_config : flSessionConfig; ss_registered : bool;
  ss_frames : Z; ss_lastPts : Z; ss_haveSegment : bool; ss_gapPending : bool; ss_markDiscont : bool;
}.
Record SinkLink := mkLink {
  sl_ch : option Z; sl_delegated : bool; sl_cinfo : flChannelInfo; sl_native : option nat;
  sl_nextConnectUs : Z; sl_busyWarned : bool; sl_testOpenDelayed : bool; sl_mapRefused : bool;
}.
Record SinkStats := mkStats { st_received : Z; st_submitted : Z; st_dropped : Z; st_ringFullDrops : Z }.

Record GstFrameLinkSink := mkSink {
  sk_props : SinkProps; sk_session : SinkSession; sk_link : SinkLink; sk_policy : PolicyState;
  sk_stats : SinkStats; sk_streamGeneration : Z; sk_vinfo : GstVideoInfo; sk_haveInfo : bool;
  sk_segment : GstSegment;      (* of the GstBaseSink *)
}.
Implicit Types (self : GstFrameLinkSink).

Definition set_props self v := mkSink v (sk_session self) (sk_link self) (sk_policy self) (sk_stats self)
  (sk_streamGeneration self) (sk_vinfo self) (sk_haveInfo self) (sk_segment self).
Definition set_session self v := mkSink (sk_props self) v (sk_link self) (sk_policy self) (sk_stats self)
  (sk_streamGeneration self) (sk_vinfo self) (sk_haveInfo self) (sk_segment self).
Definition set_link self v := mkSink (sk_props self) (sk_session self) v (sk_policy self) (sk_stats self)
  (sk_streamGeneration self) (sk_vinfo self) (sk_haveInfo self) (sk_segment self).
Definition set_policy self v := mkSink (sk_props self) (sk_session self) (sk_link self) v (sk_stats self)
  (sk_streamGeneration self) (sk_vinfo self) (sk_haveInfo self) (sk_segment self).
Definition set_stats self v := mkSink (sk_props self) (sk_session self) (sk_link self) (sk_policy self) v
  (sk_streamGeneration self) (sk_vinfo self) (sk_haveInfo self) (sk_segment self).
Definition set_streamGeneration self v := mkSink (sk_props self) (sk_session self) (sk_link self)
  (sk_policy self) (sk_stats self) v (sk_vinfo self) (sk_haveInfo self) (sk_segment self).
Definition set_caps self (info : GstVideoInfo) (have : bool) := mkSink (sk_props self) (sk_session self)
  (sk_link self) (sk_policy self) (sk_stats self) (sk_streamGeneration self) info have
  (sk_segment self).
Definition set_segment self v := mkSink (sk_props self) (sk_session self) (sk_link self) (sk_policy self)
  (sk_stats self) (sk_streamGeneration self) (sk_vinfo self) (sk_haveInfo self) v.

Definition set_ch (l : SinkLink) v := mkLink v (sl_delegated l) (sl_cinfo l) (sl_native l)
  (sl_nextConnectUs l) (sl_busyWarned l) (sl_testOpenDelayed l) (sl_mapRefused l).
Definition set_delegated (l : SinkLink) v := mkLink (sl_ch l) v (sl_cinfo l) (sl_native l)
  (sl_nextConnectUs l) (sl_busyWarned l) (sl_testOpenDelayed l) (sl_mapRefused l).
Definition set_cinfo (l : SinkLink) v := mkLink (sl_ch l) (sl_delegated l) v (sl_native l)
  (sl_nextConnectUs l) (sl_busyWarned l) (sl_testOpenDelayed l) (sl_mapRefused l).
Definition set_nativeProducer (l : SinkLink) v := mkLink (sl_ch l) (sl_delegated l) (sl_cinfo l) v
  (sl_nextConnectUs l) (sl_busyWarned l) (sl_testOpenDelayed l) (sl_mapRefused l).
Definition set_nextConnectUs (l : SinkLink) v := mkLink (sl_ch l) (sl_delegated l) (sl_cinfo l) (sl_native l)
  v (sl_busyWarned l) (sl_testOpenDelayed l) (sl_mapRefused l).
Definition set_busyWarned (l : SinkLink) v := mkLink (sl_ch l) (sl_delegated l) (sl_cinfo l) (sl_native l)
  (sl_nextConnectUs l) v (sl_testOpenDelayed l) (sl_mapRefused l).
Definition set_testOpenDelayed (l : SinkLink) v := mkLink (sl_ch l) (sl_delegated l) (sl_cinfo l)
  (sl_native l) (sl_nextConnectUs l) (sl_busyWarned l) v (sl_mapRefused l).
Definition set_mapRefused (l : SinkLink) v := mkLink (sl_ch l) (sl_delegated l) (sl_cinfo l) (sl_native l)
  (sl_nextConnectUs l) (sl_busyWarned l) (sl_testOpenDelayed l) v.
Definition on_link self (f : SinkLink -> SinkLink) := set_link self (f (sk_link self)).

Definition set_frames (s : SinkSession) frames lastPts gapPending := mkSinkSession (ss_session s) (ss_config s)
  (ss_registered s) frames lastPts (ss_haveSegment s) gapPending (ss_markDiscont s).
Definition set_haveSegment (s : SinkSession) v := mkSinkSession (ss_session s) (ss_config s)
  (ss_registered s) (ss_frames s) (ss_lastPts s) v (ss_gapPending s) (ss_markDiscont s).
Definition set_gapPending (s : SinkSession) v := mkSinkSession (ss_session s) (ss_config s)
  (ss_registered s) (ss_frames s) (ss_lastPts s) (ss_haveSegment s) v (ss_markDiscont s).
Definition set_markDiscont (s : SinkSession) v := mkSinkSession (ss_session s) (ss_config s)
  (ss_registered s) (ss_frames s) (ss_lastPts s) (ss_haveSegment s) (ss_gapPending s) v.
Definition set_ssConfig (s : SinkSession) v := mkSinkSession (ss_session s) v
  (ss_registered s) (ss_frames s) (ss_lastPts s) (ss_haveSegment s) (ss_gapPending s) (ss_markDiscont s).
Definition set_registered (s : SinkSession) v := mkSinkSession (ss_session s) (ss_config s)
  v (ss_frames s) (ss_lastPts s) (ss_haveSegment s) (ss_gapPending s) (ss_markDiscont s).
Definition on_session self (f : SinkSession -> SinkSession) := set_session self (f (sk_session self)).

(** [++self->received;], [++self->dropped;], ... *)
Definition countReceived self := let s := sk_stats self in
  set_stats self (mkStats (inc64 (st_received s)) (st_submitted s) (st_dropped s) (st_ringFullDrops s)).
Definition countDropped self := let s := sk_stats self in
  set_stats self (mkStats (st_received s) (st_submitted s) (inc64 (st_dropped s)) (st_ringFullDrops s)).
Definition countRingFull self := let s := sk_stats self in
  set_stats self (mkStats (st_received s) (st_submitted s) (st_dropped s) (inc64 (st_ringFullDrops s))).
Definition countSubmitted self := let s := sk_stats self in
  set_stats self (mkStats (st_received s) (inc64 (st_submitted s)) (st_dropped s) (st_ringFullDrops s)).

(** [gst_segment_init(GST_FORMAT_UNDEFINED)] *)
Definition noSegment : GstSegment := mkSegment 0 (Some 1%Q) (Some 1%Q) 0 0 0 UINT64_MAX.

(** [gst_framelink_sink_init]; "framelink" *)
Definition sink_init : GstFrameLinkSink :=
  mkSink (mkProps [102; 114; 97; 109; 101; 108; 105; 110; 107] 0 false false false 0 5 false)
    (mkSinkSession None zeroConfig false 0 0 false false false)
    (mkLink None false flChannelInfo_zero None 0 false false false)
    (mkPolicyState false 0 noPolicy) (mkStats 0 0 0 0) 0 initVideoInfo false noSegment.

(** The geometry and format a [GstVideoInfo] asks for. *)
Definition infoMatches (v : GstVideoInfo) (width height format : Z) : bool :=
  (vi_width v =? width) && (vi_height v =? height) && (toFlFormat (vi_format v) =? format).
Definition channelMatches (v : GstVideoInfo) (i : flChannelInfo) : bool :=
  infoMatches v (info_width i) (info_height i) (info_format i).

Section Sink.
Context `{E : Element} {NS : NativeSink}.
Context (platform : Platform) (fuel : nat).
Notation C := (C ns_store).

(** [return FALSE] after GST_ELEMENT_ERROR *)
Definition refuse self : C (bool * GstFrameLinkSink) := element_error ;; ret (false, self).

(** ** Connecting *)

Definition sinkDisconnect self : C GstFrameLinkSink :=
  let! self :=
    match sl_native (sk_link self) with
    | Some p => ns_deactivate p ;; ns_drop p ;;
                ret (on_link self (fun l => set_ch (set_nativeProducer l None) None))
    | None => ret self
    end in
  match sl_ch (sk_link self) with
  | Some ch => flClose ch ;; ret (on_link self (fun l => set_ch l None))
  | None => ret self
  end.

(** [flQuery(self->ch,&self->cinfo)]: the answer of a query that fails is not
    written. *)
Definition queryInto (ch : Z) self : C GstFrameLinkSink :=
  let! (r, info) := flQuery ch in
  if bool_decide (r = FL_OK) then ret (on_link self (fun l => set_cinfo l info)) else ret self.

Definition sinkTryConnect self : C GstFrameLinkSink :=
  return_if is_some (sl_ch (sk_link self)) || sl_delegated (sk_link self) with ret self ;;
  let! now := g_get_monotonic_time in
  return_if now <? sl_nextConnectUs (sk_link self) with ret self ;;
  let self := on_link self (fun l => set_nextConnectUs l (now + 1000000)) in
  let w := if sk_haveInfo self then vi_width (sk_vinfo self) else 0 in
  let h := if sk_haveInfo self then vi_height (sk_vinfo self) else 0 in
  let fmt := if sk_haveInfo self then toFlFormat (vi_format (sk_vinfo self)) else FL_FORMAT_BGRA8 in
  match sl_testOpenDelayed (sk_link self), el_delay with
  | false, Some delay => g_usleep (Z.min delay 5000 * 1000)
  | _, _ => ret tt
  end ;;
  let self := on_link self (fun l => set_testOpenDelayed l true) in
  let! (r, ch) :=
    (if 0 <? sp_slots (sk_props self)
     then
       let! (r, out) := flOpenProducerSlot (sp_channel (sk_props self)) (sp_slots (sk_props self)) w h fmt in
       ret (r, fst <$> out)
     else
       let! (r, ch) := flOpenProducer (sp_channel (sk_props self)) in
       match ch with
       | Some c => if bool_decide (r = FL_OK) && truthy w && truthy h then flRequestGeometry c w h fmt else ret tt
       | None => ret tt
       end ;;
       ret (r, ch)) in
  let self := on_link self (fun l => set_ch l ch) in
  return_if negb (bool_decide (r = FL_OK))
    with (if bool_decide (r = FL_BUSY) then ret (on_link self (fun l => set_busyWarned l true)) else ret self) ;;
  let self := on_link self (fun l => set_busyWarned l false) in
  match ch with Some c => queryInto c self | None => ret self end.

(** The dialling loop of [sinkStartLegacy]. *)
Fixpoint dial (n : nat) (deadline : Z) self : C (bool * GstFrameLinkSink) :=
  match n with
  | O => fun _ => None
  | S n =>
    let! self := sinkTryConnect self in
    let! now := g_get_monotonic_time in
    return_if is_some (sl_ch (sk_link self)) && (now <=? deadline) with ret (true, self) ;;
    let! now := g_get_monotonic_time in
    return_if deadline <=? now with ret (false, self) ;;
    g_usleep 1000 ;;
    dial n deadline self
  end.

Definition sinkStartLegacy self : C (bool * GstFrameLinkSink) :=
  return_if sl_delegated (sk_link self) with
    (if is_some (sl_ch (sk_link self)) then ret (true, self) else refuse self) ;;
  let self := on_link self (fun l => set_testOpenDelayed l false) in
  return_if negb (truthy (sp_connectTimeoutMs (sk_props self))) with ret (true, self) ;;
  let self := set_caps self initVideoInfo false in
  let! now := g_get_monotonic_time in
  let deadline := now + sp_connectTimeoutMs (sk_props self) * 1000 in
  let self := on_link self (fun l => set_nextConnectUs l 0) in
  let! (ok, self) := dial fuel deadline self in
  return_if ok with ret (true, self) ;;
  let! self := sinkDisconnect self in
  refuse self.

(** ** Starting *)

(** [if(self->session){...}] of [sinkStart] *)
Definition sinkStartSession self : C (bool * GstFrameLinkSink) :=
  match ss_session (sk_session self) with
  | None => ret (true, self)
  | Some i =>
    let! (r, cfg) := fl_gst_session_get_config i (ss_config (sk_session self)) in
    let self := on_session self (fun s => set_ssConfig s cfg) in
    return_if negb (bool_decide (r = FL_GST_SESSION_READY)) || negb (truthy (c_videoTrackId cfg))
           || negb (sl_delegated (sk_link self))
           || (po_applied (sk_policy self)
               && negb (mp_sessionGeneration (po_policy (sk_policy self)) =? c_generation cfg))
      with refuse self ;;
    let! (ok, self) :=
      (if ss_registered (sk_session self) then ret (true, self)
       else let! r := fl_gst_session_register_track i 1 in
            ret (if bool_decide (r = FL_GST_SESSION_READY)
                 then (true, on_session self (fun s => set_registered s true)) else (false, self))) in
    return_if negb ok with ret (false, self) ;;
    let p := sk_props self in
    let self := set_props self (mkProps (sp_channel p) (sp_slots p) true true (sp_nativeMemory p)
                  (sp_connectTimeoutMs p) (sp_bufferWaitMs p) (sp_errorOnRingFull p)) in
    let self := set_streamGeneration self (c_generation cfg) in
    let self := on_session self (fun s => set_haveSegment (set_frames s 0 (-1) false) false) in
    ret (true, self)
  end.

(** [info.generation!=self->memoryPoolGeneration], or no answer *)
Definition generationMoved self : C bool :=
  match sl_ch (sk_link self) with
  | None => ret true
  | Some ch =>
    let! (r, info) := flQuery ch in
    ret (negb (bool_decide (r = FL_OK)) || negb (info_generation info =? po_generation (sk_policy self)))
  end.

(** [if(self->nativeMemory){...}] of [sinkStart]: the channel goes to a native
    producer. *)
Definition sinkStartNative self : C (bool * GstFrameLinkSink) :=
  match sl_ch (sk_link self) with
  | None => ret (false, self)
  | Some ch =>
    let! p := ns_new ch in
    act [DHanded ch] ;;
    let self := on_link self (fun l => set_nativeProducer l (Some p)) in
    let! valid := ns_valid p in
    return_if valid with ret (true, self) ;;
    let! self := sinkDisconnect self in
    ret (false, self)
  end.

Definition sinkStart self : C (bool * GstFrameLinkSink) :=
  let! valid := validSessionContext in
  return_if negb valid with ret (false, self) ;;
  let! (ok, self) := sinkStartSession self in
  return_if negb ok with ret (false, self) ;;
  let p := sk_props self in
  let self := if sp_nativeMemory p && negb (truthy (sp_connectTimeoutMs p))
              then set_props self (mkProps (sp_channel p) (sp_slots p) (sp_preserveTimestamps p)
                     (sp_preserveFrameMetadata p) (sp_nativeMemory p) 1000 (sp_bufferWaitMs p) (sp_errorOnRingFull p))
              else self in
  let! (ok, self) := sinkStartLegacy self in
  return_if negb ok with ret (false, self) ;;
  let! moved := (if po_applied (sk_policy self) then generationMoved self else ret false) in
  return_if moved with refuse self ;;
  let! (ok, self) :=
    (if sp_nativeMemory (sk_props self) then sinkStartNative self
     else ret (true, self)) in
  return_if negb ok with ret (false, self) ;;
  match ss_session (sk_session self) with
  | Some i =>
    let! r := fl_gst_session_track_ready i 1 (c_generation (ss_config (sk_session self))) in
    ret (bool_decide (r = FL_GST_SESSION_READY), self)
  | None => ret (true, self)
  end.

(** ** Caps *)

(** [features] is whether the caps carry the native memory feature; [info] is
    [gst_video_info_from_caps]. *)
Definition sinkSetCaps (info : option GstVideoInfo) (features : bool) self : C (bool * GstFrameLinkSink) :=
  match info with
  | None => ret (false, self)
  | Some info =>
    let self := set_caps self info (sk_haveInfo self) in
    let v := c_video (ss_config (sk_session self)) in
    let cinfo := sl_cinfo (sk_link self) in
    return_if is_some (ss_session (sk_session self))
           && negb (infoMatches info (v_width v) (v_height v) (v_format v)) with ret (false, self) ;;
    return_if bool_decide (vi_format info = GST_VIDEO_FORMAT_NV12)
           && (Z.odd (vi_width info) || Z.odd (vi_height info)) with ret (false, self) ;;
    return_if po_applied (sk_policy self)
           && (negb (is_some (sl_ch (sk_link self))) || negb (channelMatches info cinfo)) with ret (false, self) ;;
    return_if sp_nativeMemory (sk_props self) with
      (if negb (is_some (sl_ch (sk_link self))) || negb features || negb (channelMatches info cinfo)
       then ret (false, self) else ret (true, set_caps self info true)) ;;
    let self := set_caps self info true in
    match sl_ch (sk_link self) with
    | Some ch =>
      flRequestGeometry ch (vi_width info) (vi_height info) (toFlFormat (vi_format info)) ;;
      let! self := queryInto ch self in
      ret (true, self)
    | None => ret (true, self)
    end
  end.

(** ** Rendering *)

Definition finish (r : GstFlowReturn) self : C (GstFlowReturn * GstFrameLinkSink) := ret (r, self).
Definition fail self : C (GstFlowReturn * GstFrameLinkSink) := element_error ;; finish GST_FLOW_ERROR self.

(** [frame], [accepted] of the session, before the frame is counted: the wait, the
    check of the metadata's generation, and the barrier.  [Some r] is an early
    return. *)
Definition sessionBefore (buffer : GstBuffer) self : C (option GstFlowReturn * GstFrameLinkSink) :=
  let s := sk_session self in
  match ss_session s with
  | None => ret (None, self)
  | Some i =>
    let generation := c_generation (ss_config s) in
    let! r := fl_gst_session_wait i generation (c_connectTimeoutMs (ss_config s)) in
    return_if negb (bool_decide (r = FL_GST_SESSION_READY))
      with (element_error ;; ret (Some GST_FLOW_ERROR, self)) ;;
    return_if match gb_meta buffer with
              | Some meta => negb (md_streamGeneration meta =? generation) | None => false end
      with (element_error ;; ret (Some GST_FLOW_ERROR, self)) ;;
    let self := on_session self (fun s =>
      set_markDiscont s (ss_gapPending s || negb (truthy (ss_frames s)) || gb_discont buffer)) in
    return_if negb (ss_markDiscont (sk_session self)) with ret (None, self) ;;
    let! events := fl_gst_session_has_event_stream i generation in
    return_if negb events with ret (None, self) ;;
    match fl_gst_segment_running_time el_running (Some (sk_segment self)) (gb_pts buffer) (Some 0) with
    | (true, Some pts) =>
      let! r := fl_gst_session_send_video_event i generation (mkEvent FL_GST_VIDEO_BARRIER (ss_frames s) pts 0) in
      return_if negb (bool_decide (r = FL_GST_SESSION_READY))
        with (element_error ;; ret (Some GST_FLOW_ERROR, self)) ;;
      ret (None, on_session self (fun s => set_gapPending s true))
    | _ => ret (Some GST_FLOW_ERROR, self)
    end
  end.

(** The running time and the metadata to send; the flag is [valid]. *)
Definition markFlags self (md : flFrameMetadata) : flFrameMetadata :=
  if is_some (ss_session (sk_session self)) && ss_markDiscont (sk_session self)
  then set_flags md (Z.lor (md_flags md) FL_FRAME_DISCONT) else md.

(** [if(self->session){++self->sessionFrames;...}] *)
Definition countFrame (pts : Z) self : GstFrameLinkSink :=
  if is_some (ss_session (sk_session self))
  then on_session self (fun s => set_frames s (inc64 (ss_frames s)) pts false) else self.

Definition renderNative (buffer : GstBuffer) self : C (GstFlowReturn * GstFrameLinkSink) :=
  let! now := g_get_monotonic_time in
  let segment := sk_segment self in
  let p := sk_props self in
  let '(valid, pts, md) :=
    if sp_preserveFrameMetadata p
    then match frameMetadataFromBuffer el_running buffer segment (sk_streamGeneration self) with
         | Some (pts, md) => (true, pts, md)
         | None => (false, now * 1000, zeroMetadata)
         end
    else if sp_preserveTimestamps p
    then match frameRunningTime el_running segment (gb_pts buffer) with
         | Some pts => (true, pts, zeroMetadata)
         | None => (false, now * 1000, zeroMetadata)
         end
    else (true, now * 1000, zeroMetadata) in
  let md := markFlags self md in
  let! ok :=
    match valid && sk_haveInfo self, sl_native (sk_link self) with
    | true, Some np =>
      let! r := ns_submit np buffer pts (if sp_preserveFrameMetadata p then Some md else None) in
      ret (bool_decide (r = FL_OK))
    | _, _ => ret false
    end in
  if (ok : bool) then finish GST_FLOW_OK (countFrame pts (countSubmitted self))
  else fail (countDropped self).

(** Drawing the pixels: drawn, not drawn, or (on Windows) given up on. *)
Inductive Drawing := Drawn | NotDrawn | BadPitch.

Definition plane (f : VideoFrame) (i : nat) : Plane := nth i (vf_planes f) (mkPlaneAt 0 0).

(** The plane loop of the NV12 path; [view] is what [flImageMapPlanes] gave. *)
Fixpoint drawPlanes (p : list nat) (f : VideoFrame) (view : flMappedImage) (w h : Z) : C bool :=
  match p with
  | [] => ret true
  | i :: p =>
    let pitch := pl_stride (plane f i) in
    let v := nth i (mi_plane view) zeroPlane in
    return_if (pitch <? w) || (mp_stride v <? w)
           || negb (mp_rows v =? (match i with O => h | S _ => h / 2 end)) with ret false ;;
    memory (copyPlane (mp_pixels v) (mp_stride v) (pl_data (plane f i)) pitch w (mp_rows v)) ;;
    drawPlanes p f view w h
  end.

Definition drawPosix (image : Z) (f : VideoFrame) (incoming w h : Z) (swap : bool) self
  : C (Drawing * GstFrameLinkSink) :=
  if incoming =? FL_FORMAT_NV12 then
    let! (r, view) := flImageMapPlanes image in
    return_if negb (bool_decide (r = FL_OK)) with ret (NotDrawn, self) ;;
    let! wrote := (if mi_planes view =? 2 then drawPlanes [0%nat; 1%nat] f view w h else ret false) in
    flImageUnmap image ;;
    ret (if wrote then Drawn else NotDrawn, self)
  else
    let! (r, dst) := flImageMap image in
    return_if bool_decide (r = FL_OK) with
      (memory (copyPixels (pl_data dst) (pl_stride dst) (pl_data (plane f 0)) (pl_stride (plane f 0)) w h swap) ;;
       flImageUnmap image ;;
       ret (Drawn, self)) ;;
    return_if bool_decide (r = FL_FORMAT_UNSUPPORTED) && negb (sl_mapRefused (sk_link self))
      with ret (NotDrawn, on_link self (fun l => set_mapRefused l true)) ;;
    ret (NotDrawn, self).

(** The repacking loop of the Windows upload. *)
Fixpoint repack (p : list nat) (f : VideoFrame) (scratch w h : Z) : C bool :=
  match p with
  | [] => ret true
  | i :: p =>
    let pitch := pl_stride (plane f i) in
    return_if pitch <? w with ret false ;;
    memory (copyPlane (scratch + match i with O => 0 | S _ => w * h end) w (pl_data (plane f i)) pitch w
              (match i with O => h | S _ => h / 2 end)) ;;
    repack p f scratch w h
  end.

(** [UpdateSubresource] hands the pixels to the GPU. *)
Definition drawWin32 (f : VideoFrame) (incoming w h : Z) (swap : bool) : C Drawing :=
  let! device := ask el_ok in
  return_if negb device with ret NotDrawn ;;
  let! scratch := ask el_buffer in
  let at_ := match scratch with Some s => pl_data s | None => 0 end in
  if incoming =? FL_FORMAT_NV12 then
    let! ok := repack [0%nat; 1%nat] f at_ w h in
    ret (if ok then Drawn else BadPitch)
  else if swap then
    memory (copyPixels at_ (w * 4) (pl_data (plane f 0)) (pl_stride (plane f 0)) w h true) ;;
    ret Drawn
  else ret Drawn.

Definition draw (image : Z) (f : VideoFrame) (incoming w h : Z) (swap : bool) self : C (Drawing * GstFrameLinkSink) :=
  if is_win platform then let! d := drawWin32 f incoming w h swap in ret (d, self)
  else drawPosix image f incoming w h swap self.

(** The submission of a drawn slot. *)
Definition submitDrawn (ch : Z) (fb : flBuffer) (buffer : GstBuffer) (metadataPts : Z) self
  : C (GstFlowReturn * GstFrameLinkSink) :=
  let p := sk_props self in
  let! now := (if sp_preserveFrameMetadata p then ret 0 else g_get_monotonic_time) in
  let pts := if sp_preserveFrameMetadata p then metadataPts else now * 1000 in
  let explicit := sp_preserveTimestamps p && negb (sp_preserveFrameMetadata p) in
  let pts := if explicit then el_running (sk_segment self) GST_FORMAT_TIME (gb_pts buffer) else pts in
  return_if explicit && (negb (clockValid pts) || (INT64_MAX <? pts)) with
    (let! self := sinkDisconnect (countDropped self) in fail self) ;;
  let! r := flSubmit ch fb pts in
  return_if negb (bool_decide (r = FL_OK)) with
    (let! self := sinkDisconnect (countDropped self) in
     if sp_preserveFrameMetadata p then fail self else finish GST_FLOW_OK self) ;;
  finish GST_FLOW_OK (countSubmitted (countFrame pts self)).

(** From an acquired slot on. *)
Definition renderSlot (ch : Z) (fb : flBuffer) (buffer : GstBuffer) self : C (GstFlowReturn * GstFrameLinkSink) :=
  let p := sk_props self in
  let! metadataPts :=
    (if sp_preserveFrameMetadata p
     then
       match frameMetadataFromBuffer el_running buffer (sk_segment self) (sk_streamGeneration self) with
       | Some (pts, md) =>
         let! r := flSetFrameMetadata ch fb (markFlags self md) in
         ret (if bool_decide (r = FL_OK) then Some pts else None)
       | None => ret None
       end
     else ret (Some 0)) in
  match metadataPts with
  | None => flCancelBuffer ch fb ;; fail (countDropped self)
  | Some metadataPts =>
    let! frame := ask (fun t => el_frame_map t buffer) in
    match frame with
    | None => let! self := sinkDisconnect (countDropped self) in finish GST_FLOW_ERROR self
    | Some f =>
      let cinfo := sl_cinfo (sk_link self) in
      let w := Z.min (vf_width f) (info_width cinfo) in
      let h := Z.min (vf_height f) (info_height cinfo) in
      let swap := negb (toFlFormat (vf_format f) =? info_format cinfo) in
      let! (d, self) := draw (buf_image fb) f (toFlFormat (vi_format (sk_vinfo self))) w h swap self in
      match d with
      | Drawn => submitDrawn ch fb buffer metadataPts self
      | NotDrawn => let! self := sinkDisconnect (countDropped self) in finish GST_FLOW_ERROR self
      | BadPitch => let! self := sinkDisconnect self in finish GST_FLOW_ERROR self
      end
    end
  end.

Definition needsExact (f : Z) : bool := (f =? FL_FORMAT_NV12) || (f =? FL_FORMAT_RGB10A2).

(** The copying path. *)
Definition renderCopy (buffer : GstBuffer) self : C (GstFlowReturn * GstFrameLinkSink) :=
  return_if negb (sk_haveInfo self) with finish GST_FLOW_OK (countDropped self) ;;
  let! self := (if is_some (sl_ch (sk_link self)) then ret self else sinkTryConnect self) in
  match sl_ch (sk_link self) with
  | None => finish GST_FLOW_OK (countDropped self)
  | Some ch =>
    let cinfo := sl_cinfo (sk_link self) in
    let incoming := toFlFormat (vi_format (sk_vinfo self)) in
    return_if negb (info_width cinfo =? vi_width (sk_vinfo self))
           || negb (info_height cinfo =? vi_height (sk_vinfo self))
           || ((needsExact incoming || needsExact (info_format cinfo)) && negb (incoming =? info_format cinfo))
      with (element_error ;; finish GST_FLOW_NOT_NEGOTIATED (countDropped self)) ;;
    let! (r, fb) := flAcquireBuffer ch (sp_bufferWaitMs (sk_props self)) in
    return_if bool_decide (r = FL_TIMEOUT) || bool_decide (r = FL_BUSY) with
      (let self := countDropped (countRingFull self) in
       if sp_errorOnRingFull (sk_props self) then fail self else finish GST_FLOW_OK self) ;;
    return_if negb (bool_decide (r = FL_OK)) with
      (let! self := sinkDisconnect (countDropped self) in
       finish (if sl_delegated (sk_link self) then GST_FLOW_ERROR else GST_FLOW_OK) self) ;;
    renderSlot ch fb buffer self
  end.

Definition sinkRenderImpl (buffer : GstBuffer) self : C (GstFlowReturn * GstFrameLinkSink) :=
  let! (stop, self) := sessionBefore buffer self in
  match stop with
  | Some r => finish r self
  | None =>
    let self := countReceived self in
    let! moved := (if po_applied (sk_policy self) then generationMoved self else ret false) in
    return_if moved with (element_error ;; finish GST_FLOW_NOT_NEGOTIATED (countDropped self)) ;;
    if sp_nativeMemory (sk_props self) then renderNative buffer self else renderCopy buffer self
  end.

Definition cancelSession self : C unit :=
  match ss_session (sk_session self) with Some i => fl_gst_session_cancel i | None => ret tt end.

Definition sinkRender (buffer : GstBuffer) self : C (GstFlowReturn * GstFrameLinkSink) :=
  let! (result, self) := sinkRenderImpl buffer self in
  (if negb (bool_decide (result = GST_FLOW_OK)) && negb (bool_decide (result = GST_FLOW_FLUSHING))
      && negb (bool_decide (result = GST_FLOW_EOS)) then cancelSession self else ret tt) ;;
  ret (result, self).

(** ** Events *)

Inductive GstEvent :=
| GST_EVENT_SEGMENT (s : GstSegment)
| GST_EVENT_GAP (pts duration : Z)
| GST_EVENT_FLUSH_START
| GST_EVENT_FLUSH_STOP
| GST_EVENT_STREAM_START
| GST_EVENT_EOS
| GST_EVENT_SEEK
| GST_EVENT_OTHER.

(** The members [a] and [b] of the two segments that are compared. *)
Definition sameSegment (a b : GstSegment) : bool :=
  (seg_start a =? seg_start b) && (seg_base a =? seg_base b) && (seg_offset a =? seg_offset b)
  && (seg_stop a =? seg_stop b).

(** [fl_gst_session_send_video_event(...)==READY] *)
Definition sendEvent i (generation : Z) (e : FlGstVideoEvent) : C bool :=
  let! r := fl_gst_session_send_video_event i generation e in ret (bool_decide (r = FL_GST_SESSION_READY)).

(** [if(coordinated->session){...}]; the flag is false for an early [return FALSE]. *)
Definition sessionEvent (event : GstEvent) self : C (bool * GstFrameLinkSink) :=
  let s := sk_session self in
  match ss_session s with
  | None => ret (true, self)
  | Some i =>
    let generation := c_generation (ss_config s) in
    match event with
    | GST_EVENT_SEGMENT segment =>
      return_if negb (seg_format segment =? GST_FORMAT_TIME) || negb (isOne (seg_rate segment))
             || negb (isOne (seg_applied_rate segment)) with refuse self ;;
      return_if ss_haveSegment s && negb (sameSegment segment (sk_segment self)) with refuse self ;;
      ret (true, on_session self (fun s => set_haveSegment s true))
    | GST_EVENT_GAP pts duration =>
      match ss_haveSegment s, fl_gst_segment_running_time el_running (Some (sk_segment self)) pts (Some 0) with
      | true, (true, Some running) =>
        return_if negb (clockValid duration) || (INT64_MAX - running <? duration) with refuse self ;;
        let! sent := sendEvent i generation (mkEvent FL_GST_VIDEO_GAP (ss_frames s) running duration) in
        return_if negb sent with refuse self ;;
        ret (true, on_session self (fun s => set_gapPending s true))
      | _, _ => refuse self
      end
    | GST_EVENT_FLUSH_START =>
      let! events := fl_gst_session_has_event_stream i generation in
      (if (events : bool)
       then let! _ := sendEvent i generation (mkEvent FL_GST_VIDEO_FLUSH (ss_frames s) 0 0) in ret tt
       else ret tt) ;;
      fl_gst_session_cancel i ;;
      ret (true, self)
    | GST_EVENT_FLUSH_STOP => fl_gst_session_cancel i ;; ret (true, self)
    | _ => ret (true, self)
    end
  end.

(** The announcement of the end: the accounting, then the record. *)
Definition sessionEos self : C (bool * GstFrameLinkSink) :=
  let s := sk_session self in
  match ss_session s with
  | None => ret (true, self)
  | Some i =>
    let generation := c_generation (ss_config s) in
    let! r := fl_gst_session_video_eos i generation (ss_frames s) (ss_lastPts s) in
    return_if negb (bool_decide (r = FL_GST_SESSION_READY)) with refuse self ;;
    let! events := fl_gst_session_has_event_stream i generation in
    return_if negb events with ret (true, self) ;;
    let! sent := sendEvent i generation
      (mkEvent FL_GST_VIDEO_END (ss_frames s) (if ss_lastPts s <? 0 then 0 else ss_lastPts s) 0) in
    ret (sent, self)
  end.

(** What GstBaseSink does with an event it accepts. *)
Definition parentEvent (accepted : bool) (event : GstEvent) self : GstFrameLinkSink :=
  match accepted, event with
  | true, GST_EVENT_SEGMENT segment => set_segment self segment
  | true, GST_EVENT_FLUSH_STOP => set_segment self noSegment
  | _, _ => self
  end.

Definition sinkEventImpl (event : GstEvent) self : C (bool * GstFrameLinkSink) :=
  let! (ok, self) := sessionEvent event self in
  return_if negb ok with ret (false, self) ;;
  let! (ok, self) :=
    match event with
    | GST_EVENT_STREAM_START =>
      return_if is_some (ss_session (sk_session self)) with ret (true, self) ;;
      return_if sk_streamGeneration self =? UINT64_MAX with ret (false, self) ;;
      ret (true, set_streamGeneration self (sk_streamGeneration self + 1))
    | GST_EVENT_EOS =>
      let! (ok, self) := sessionEos self in
      return_if negb ok with ret (false, self) ;;
      let st := sk_stats self in
      act [DStats (st_received st) (st_submitted st) (st_dropped st) (st_ringFullDrops st)] ;;
      ret (true, self)
    | _ => ret (true, self)
    end in
  return_if negb ok with ret (false, self) ;;
  let! parent := ask el_ok in
  ret (parent, parentEvent parent event self).

Definition sinkEvent (event : GstEvent) self : C (bool * GstFrameLinkSink) :=
  let! (result, self) := sinkEventImpl event self in
  (if (result : bool) then ret tt else cancelSession self) ;;
  ret (result, self).

(** A seek is refused before it travels upstream. *)
Definition sinkSendEvent (event : GstEvent) self : C bool :=
  match event, ss_session (sk_session self) with
  | GST_EVENT_SEEK, Some _ => ret false
  | _, _ => ask el_ok
  end.

(** ** Stopping *)

Definition sinkStop self : C GstFrameLinkSink := cancelSession self ;; sinkDisconnect self.

Definition sinkFinalize self : C GstFrameLinkSink := cancelSession self ;; sinkDisconnect self.

(** ** Set-up by the application *)

Definition sinkAdoptChannel (channel : option Z) self : C (bool * GstFrameLinkSink) :=
  let! state := gst_state in
  match channel with
  | None => ret (false, self)
  | Some ch =>
    return_if negb (state =? GST_STATE_NULL) || is_some (sl_ch (sk_link self)) || po_applied (sk_policy self)
      with ret (false, self) ;;
    let! (r, info) := flQuery ch in
    return_if negb (bool_decide (r = FL_OK)) with ret (false, self) ;;
    let! (r, _) := flQueryConsumerFlags ch in
    return_if bool_decide (r = FL_OK) with ret (false, self) ;;
    act [DAdopt ch] ;;
    ret (true, on_link self (fun l => set_delegated (set_cinfo (set_ch l (Some ch)) info) true))
  end.

Definition sinkApplyMemoryPolicy (policy : option GstFrameLinkMemoryPolicy) self : C (bool * GstFrameLinkSink) :=
  let! state := gst_state in
  match sl_ch (sk_link self), policy with
  | Some ch, Some p =>
    return_if negb (state =? GST_STATE_NULL) || negb (sl_delegated (sk_link self)) || po_applied (sk_policy self)
           || negb (validMemoryPolicy platform policy (sp_nativeMemory (sk_props self)) true) with ret (false, self) ;;
    let! (r, info) := flQuery ch in
    return_if negb (bool_decide (r = FL_OK)) with ret (false, self) ;;
    ret (true, set_policy self (mkPolicyState true (info_generation info) p))
  | _, _ => ret (false, self)
  end.

(** The session of the context: none of ours, malformed, or there. *)
Definition sinkSessionContext (context : option (option nat)) self : C GstFrameLinkSink :=
  match context with
  | Some (Some i) =>
    let! state := gst_state in
    return_if negb (state =? GST_STATE_NULL) with (element_error ;; ret self) ;;
    let s := sk_session self in
    ret (if bool_decide (ss_session s = Some i) then self
         else set_session self (mkSinkSession (Some i) (ss_config s) false (ss_frames s) (ss_lastPts s)
                (ss_haveSegment s) (ss_gapPending s) (ss_markDiscont s)))
  | _ => ret self
  end.

Inductive SinkProperty :=
| SINK_PROP_CHANNEL (v : list Z) | SINK_PROP_SLOTS (v : Z) | SINK_PROP_PRESERVE_TIMESTAMPS (v : bool)
| SINK_PROP_FRAME_METADATA (v : bool) | SINK_PROP_CONNECT_TIMEOUT (v : Z) | SINK_PROP_BUFFER_WAIT (v : Z)
| SINK_PROP_ERROR_ON_RING_FULL (v : bool) | SINK_PROP_NATIVE_MEMORY (v : bool).

Definition sinkSetProperty (prop : SinkProperty) self : C GstFrameLinkSink :=
  let! state := gst_state in
  return_if is_some (ss_session (sk_session self)) && negb (state =? GST_STATE_NULL) with ret self ;;
  return_if po_applied (sk_policy self) with ret self ;;
  let running := GST_STATE_READY <? state in
  let allocated := running || is_some (sl_ch (sk_link self)) in
  let p := sk_props self in
  let keep := sk_props self in
  ret (set_props self
    match prop with
    | SINK_PROP_BUFFER_WAIT v => if running then keep else
        mkProps (sp_channel p) (sp_slots p) (sp_preserveTimestamps p) (sp_preserveFrameMetadata p)
          (sp_nativeMemory p) (sp_connectTimeoutMs p) v (sp_errorOnRingFull p)
    | SINK_PROP_ERROR_ON_RING_FULL v => if running then keep else
        mkProps (sp_channel p) (sp_slots p) (sp_preserveTimestamps p) (sp_preserveFrameMetadata p)
          (sp_nativeMemory p) (sp_connectTimeoutMs p) (sp_bufferWaitMs p) v
    | SINK_PROP_CONNECT_TIMEOUT v => if running then keep else
        mkProps (sp_channel p) (sp_slots p) (sp_preserveTimestamps p) (sp_preserveFrameMetadata p)
          (sp_nativeMemory p) v (sp_bufferWaitMs p) (sp_errorOnRingFull p)
    | SINK_PROP_NATIVE_MEMORY v => if allocated then keep else
        mkProps (sp_channel p) (sp_slots p) (sp_preserveTimestamps p) (sp_preserveFrameMetadata p)
          v (sp_connectTimeoutMs p) (sp_bufferWaitMs p) (sp_errorOnRingFull p)
    | SINK_PROP_CHANNEL v =>
        mkProps v (sp_slots p) (sp_preserveTimestamps p) (sp_preserveFrameMetadata p)
          (sp_nativeMemory p) (sp_connectTimeoutMs p) (sp_bufferWaitMs p) (sp_errorOnRingFull p)
    | SINK_PROP_FRAME_METADATA v => if allocated then keep else
        mkProps (sp_channel p) (sp_slots p) (sp_preserveTimestamps p) v
          (sp_nativeMemory p) (sp_connectTimeoutMs p) (sp_bufferWaitMs p) (sp_errorOnRingFull p)
    | SINK_PROP_PRESERVE_TIMESTAMPS v => if running then keep else
        mkProps (sp_channel p) (sp_slots p) v (sp_preserveFrameMetadata p)
          (sp_nativeMemory p) (sp_connectTimeoutMs p) (sp_bufferWaitMs p) (sp_errorOnRingFull p)
    | SINK_PROP_SLOTS v =>
        mkProps (sp_channel p) v (sp_preserveTimestamps p) (sp_preserveFrameMetadata p)
          (sp_nativeMemory p) (sp_connectTimeoutMs p) (sp_bufferWaitMs p) (sp_errorOnRingFull p)
    end).

(** ** Native buffers *)

Definition sinkAcquireNative (timeoutMs : Z) self : C (option nat) :=
  let! state := gst_state in
  match sl_native (sk_link self) with
  | Some p =>
    if (timeoutMs <=? 1000) && sp_nativeMemory (sk_props self) && (GST_STATE_PAUSED <=? state)
    then ns_acquire p timeoutMs else ret None
  | None => ret None
  end.

Definition sinkSetNativeReadyFd (buffer : GstBuffer) (fd : Z) self : C bool :=
  match sl_native (sk_link self) with
  | Some p => if sp_nativeMemory (sk_props self) then ns_setReady p buffer fd else ret false
  | None => ret false
  end.

(** An ALLOCATION query: whether it names the sink's completion contract, has caps,
    asks for a pool; and its memory requirements. *)
Record AllocationQuery := mkQuery {
  aq_contract : bool; aq_caps : bool; aq_needPool : bool; aq_requirements : option (list Z);
}.

(** The pool offered, with its size, and what the query is told of the policy:
    the resource type, the operations and the generation. *)
Definition sinkProposeAllocation (query : AllocationQuery) self
  : C (bool * option (Z * option (Z * Z * Z))) :=
  return_if negb (sp_nativeMemory (sk_props self)) with (let! parent := ask el_ok in ret (parent, None)) ;;
  return_if negb (aq_contract query) || negb (is_some (sl_native (sk_link self))) with ret (false, None) ;;
  return_if negb (aq_caps query) || negb (aq_needPool query) with ret (false, None) ;;
  let policy := po_policy (sk_policy self) in
  return_if po_applied (sk_policy self) && negb (allocationMemoryPolicy (aq_requirements query) policy)
    with ret (false, None) ;;
  let! pool := ask el_ok in
  return_if negb pool with ret (false, None) ;;
  let path1 := default noPath (mp_paths policy !! 1%nat) in
  ret (true, Some (info_poolSize (sl_cinfo (sk_link self)),
    if po_applied (sk_policy self)
    then Some (pa_resourceType (path0 policy),
               Z.lor (pa_operations (path0 policy)) (pa_operations path1), mp_sessionGeneration policy)
    else None)).

(** ** A life of the element *)

Inductive Callback :=
| Start | SetCaps (info : option GstVideoInfo) (features : bool) | Render (buffer : GstBuffer)
| Event (event : GstEvent) | SendEvent (event : GstEvent) | Stop | Finalize
| AdoptChannel (channel : option Z) | ApplyMemoryPolicy (policy : option GstFrameLinkMemoryPolicy)
| SessionContext (context : option (option nat)) | SetProperty (prop : SinkProperty)
| AcquireNative (timeoutMs : Z) | SetNativeReadyFd (buffer : GstBuffer) (fd : Z)
| ProposeAllocation (query : AllocationQuery).

Definition also {A B} (m : C (A * B)) : C B := let! (_, b) := m in ret b.
Definition same {A} (m : C A) self : C GstFrameLinkSink := m ;; ret self.

Definition callback (k : Callback) self : C GstFrameLinkSink :=
  match k with
  | Start => also (sinkStart self)
  | SetCaps info features => also (sinkSetCaps info features self)
  | Render b => also (sinkRender b self)
  | Event e => also (sinkEvent e self)
  | SendEvent e => same (sinkSendEvent e self) self
  | Stop => sinkStop self
  | Finalize => sinkFinalize self
  | AdoptChannel ch => also (sinkAdoptChannel ch self)
  | ApplyMemoryPolicy p => also (sinkApplyMemoryPolicy p self)
  | SessionContext ctx => sinkSessionContext ctx self
  | SetProperty p => sinkSetProperty p self
  | AcquireNative ms => same (sinkAcquireNative ms self) self
  | SetNativeReadyFd b fd => same (sinkSetNativeReadyFd b fd self) self
  | ProposeAllocation q => same (sinkProposeAllocation q self) self
  end.

Fixpoint callbacks (l : list Callback) self : C GstFrameLinkSink :=
  match l with
  | [] => ret self
  | k :: l => let! self := callback k self in callbacks l self
  end.
End Sink.
