(* ===== verification/GstSinkSafe.v ===== *)
(** * What the video sink keeps (GstSink.v)

    Whatever GStreamer calls, the channel and the session answer: every frame is
    counted once, every slot the sink takes it gives back or publishes, and in a
    session the event stream announces the frames as they are submitted. *)
From stdpp Require Import gmap.
From S2P Require Import Prelude Api Memory Session EventChannel SessionContext Bytes GstVideo Element GstSink.

(** ** Slots in the sink's hands, and the statistics it posts *)

(** The channel the sink holds, and the slots it took from it. *)
Definition Held : Type := option Z * list flBuffer.

(** A channel is taken when none is held, used and closed only while held, and a
    native producer can take it over (a start that failed late and is tried again
    hands it over again); a slot is published, cancelled or described only while
    held; statistics add up. *)
Definition slot_step (x : Held) (d : Did) : option Held :=
  match d with
  | DOpen ch | DAdopt ch => if bool_decide (x.1 = None) then Some (Some ch, x.2) else None
  | DClose ch => if bool_decide (x.1 = Some ch) then Some (None, []) else None
  | DHanded ch => if bool_decide (x.1 = Some ch \/ x.1 = None) then Some (None, x.2) else None
  | DAcquire ch b => if bool_decide (x.1 = Some ch) then Some (x.1, b :: x.2) else None
  | DCancel ch b | DSubmit ch b _ => if bool_decide (x.1 = Some ch) then pair x.1 <$> give b x.2 else None
  | DMetadata ch b _ => if bool_decide (x.1 = Some ch) && bool_decide (b ∈ x.2) then Some x else None
  | DStats received submitted dropped _ => if received =? wrap64 (submitted + dropped) then Some x else None
  | _ => Some x
  end.

Lemma slot_step_stats l : forall h h' received submitted dropped ringFull,
  follow slot_step h l = Some h' -> DStats received submitted dropped ringFull ∈ l ->
  received = wrap64 (submitted + dropped).
Proof.
  induction l as [|d l IH]; intros h h' r s dr f Hf Hin; [by apply elem_of_nil in Hin|].
  change (d :: l) with ([d] ++ l) in Hf. rewrite follow_app in Hf. unfold follow at 1 in Hf. cbn in Hf.
  destruct (slot_step h d) as [h1|] eqn:Ed; [|done]. apply elem_of_cons in Hin as [<-|Hin]; [|by eapply IH].
  cbn in Ed. destruct (Z.eqb_spec r (wrap64 (s + dr))); [done|discriminate].
Qed.

(** ** Counters *)

Definition counts (s : SinkStats) : Prop :=
  st_received s = wrap64 (st_submitted s + st_dropped s) /\ u64 (st_submitted s) /\ u64 (st_dropped s).

Lemma counts_received_dropped s : counts s ->
  counts (mkStats (inc64 (st_received s)) (st_submitted s) (inc64 (st_dropped s)) (st_ringFullDrops s)).
Proof.
  intros (H & U1 & U2). unfold counts, inc64, wrap64 in *. cbn. rewrite H. split.
  - rewrite Z.add_mod_idemp_l, Z.add_mod_idemp_r by lia. f_equal. lia.
  - split; [done|]. pose proof (Z.mod_pos_bound (st_dropped s + 1) 18446744073709551616). ulia.
Qed.

Lemma counts_received_submitted s : counts s ->
  counts (mkStats (inc64 (st_received s)) (inc64 (st_submitted s)) (st_dropped s) (st_ringFullDrops s)).
Proof.
  intros (H & U1 & U2). unfold counts, inc64, wrap64 in *. cbn. rewrite H. split.
  - rewrite Z.add_mod_idemp_l by lia. rewrite (Z.add_comm (_ mod _)), Z.add_mod_idemp_r by lia. f_equal. lia.
  - split; [|done]. pose proof (Z.mod_pos_bound (st_submitted s + 1) 18446744073709551616). ulia.
Qed.

Section Safe.
Context `{E : Element} {NS : NativeSink} {L : NativeSinkLaws}.
Context (platform : Platform) (fuel : nat) (base : list Did).
Notation Core := (Core ns_store).
Notation C := (C ns_store).
Implicit Types (self : GstFrameLinkSink) (c : Core) (h : Held).
Notation leaves h m T R := (leaves slot_step base (None, []) (fun _ => True) h (m : C _) T R).
Notation keeps h m R := (Element.leaves slot_step base (None, []) (fun _ => True) h (m : C _) (fun _ => h) R).

Lemma keeps_native_only {A} h (m : C A) : only_native m -> keeps h m (fun _ => True).
Proof.
  intros Hm c Hc. unfold wp. destruct (m c) as [[a c']|] eqn:Em; [|done]. split; [|done].
  destruct (Hm c a c' Em) as (l & El & _). eapply at_after; [exact Hc|done|exact El|].
  apply follow_quiet, Forall_map, Forall_forall. by intros d _.
Qed.

(** What the sink says it holds: its channel, unless a native producer has it, and no
    slot. *)
Definition hold self : Held := (if is_some (sl_native (sk_link self)) then None else sl_ch (sk_link self), []).

(** A native producer comes with the channel and in native mode only. *)
Definition link_ok self : Prop :=
  sl_native (sk_link self) = None
  \/ (is_some (sl_ch (sk_link self)) = true /\ sp_nativeMemory (sk_props self) = true).

(** The counters and the mode [st], untouched, and the link as it should be. *)
Definition same (st : SinkStats * bool) self : Prop :=
  sk_stats self = st.1 /\ sp_nativeMemory (sk_props self) = st.2 /\ link_ok self.

(** Code that leaves the sink with what it says it holds. *)
Notation holds st h m := (leaves h m hold (same st)).
Notation holds2 st h m := (leaves h m (fun x => hold x.2) (fun x => same st x.2)).

Ltac natives := apply keeps_native_only; solve [auto using ns_new_native, ns_valid_native, ns_deactivate_native,
  ns_drop_native, ns_acquire_native, ns_setReady_native, ns_submit_native].

Ltac stats := cbn [fst snd] in *; try done;
  repeat match goal with |- context [if ?b then _ else _] => destruct b end;
  try match goal with H : same _ _ |- _ => exact H end;
  unfold same, link_ok, hold in *; cbn in *; bools;
  repeat match goal with
  | H : ?x = Some _ |- context [is_some ?x] => rewrite H
  | H : ?x = None |- context [is_some ?x] => rewrite H
  | H : ?x = _, H2 : context [is_some ?x] |- _ => rewrite H in H2
  end; cbn in *;
  repeat match goal with |- context [if ?b then _ else _] => destruct b end; intuition congruence.
Ltac between st h A :=
  lazymatch A with
  | GstFrameLinkSink => apply (leaves_bind _ _ _ _ h _ _ hold (same st))
  | (_ * GstFrameLinkSink)%type => apply (leaves_bind _ _ _ _ h _ _ (fun x => hold x.2) (fun x => same st x.2))
  | _ => apply (leaves_bind _ _ _ _ h _ _ (fun _ => h) (fun _ => True))
  end.
Ltac walk st known :=
  Element.walk ltac:(fun h A => between st h A) ltac:(first [natives|session|known]) ltac:(stats).

Lemma holds_queryInto st h ch self : h = hold self -> same st self -> holds st h (queryInto ch self).
Proof. intros Hh Hs. unfold queryInto. walk st idtac. Qed.

(** The two ways to open a channel: what comes back is held. *)
Lemma opens_sinkTryConnect st h self : h = hold self -> same st self -> holds st h (sinkTryConnect self).
Proof.
  intros -> Hs. unfold sinkTryConnect. destruct (is_some (sl_ch (sk_link self))) eqn:Ei; [by apply leaves_ret|]. cbn [orb].
  destruct (sl_ch (sk_link self)) as [ch0|] eqn:Ech; [done|]. clear Ei.
  assert (sl_native (sk_link self) = None) as En by (destruct Hs as (_ & _ & [?|[H _]]); [done|by rewrite Ech in H]).
  assert (hold self = (None, [])) as Eh by (unfold hold; by rewrite En, Ech). rewrite Eh.
  destruct (sl_delegated _); [by apply leaves_ret|].
  eapply leaves_bind; [one|cbv beta; intros now _]. destruct (_ <? _); [by apply leaves_ret|].
  apply (leaves_bind _ _ _ _ (None, []) _ _ (fun _ => (None, [])) (fun _ => True)); [walk st idtac|intros _ _].
  apply (leaves_bind _ _ _ _ (None, []) _ _ (fun x => (x.2, [])) (fun _ => True)).
  { destruct (0 <? _).
    - apply (leaves_bind _ _ _ _ _ _ _ (fun x => (fst <$> x.2, [])) (fun _ => True)); [|intros [r out] _; by apply leaves_ret].
      apply leaves_step. intros [r [[ch used]|]]; by cbn.
    - apply (leaves_bind _ _ _ _ _ _ _ (fun x => (x.2, [])) (fun _ => True)).
      { apply leaves_step. intros [r [ch|]]; by cbn. }
      intros [r out] _. cbn [snd]. apply (leaves_bind _ _ _ _ _ _ _ (fun _ => (out, [])) (fun _ => True)).
      + destruct out; [destruct (_ && _ && _); [one|by apply leaves_ret]|by apply leaves_ret].
      + intros _ _. by apply leaves_ret. }
  intros [r out] _. cbn [snd]. destruct (negb _).
  { destruct (bool_decide _); apply leaves_ret; (stats || by unfold hold; cbn; rewrite En). }
  destruct out as [ch|]; [apply holds_queryInto|apply leaves_ret]; (stats || by unfold hold; cbn; rewrite En).
Qed.

(** Closing the channel gives back what was taken from it. *)
Lemma closes_sinkDisconnect st ch l self : same st self -> sl_ch (sk_link self) = Some ch ->
  sl_native (sk_link self) = None -> holds st (Some ch, l) (sinkDisconnect self).
Proof.
  intros Hs Ech En. unfold sinkDisconnect. rewrite En.
  eapply leaves_bind; [by apply (leaves_ret _ _ _ _ _ self (fun _ => (Some ch, l)) (fun s => s = self))|]. intros s ->. rewrite Ech.
  apply (leaves_bind _ _ _ _ (Some ch, l) _ _ (fun _ => (None, [])) (fun _ => True)); [|intros [] _; apply leaves_ret; stats].
  apply leaves_step. intros []. cbn. by rewrite bool_decide_eq_true_2.
Qed.

Lemma holds_sinkDisconnect st h self : h = hold self -> same st self -> holds st h (sinkDisconnect self).
Proof.
  intros -> Hs. unfold sinkDisconnect.
  apply (leaves_bind _ _ _ _ (hold self) _ _ hold (fun s => same st s /\ sl_native (sk_link s) = None)).
  - walk st idtac.
  - intros s [H1 H2]. destruct (sl_ch (sk_link s)) as [ch|] eqn:Ech; [|by apply leaves_ret].
    assert (hold s = (Some ch, [])) as -> by (unfold hold; by rewrite H2, Ech).
    apply (leaves_bind _ _ _ _ (Some ch, []) _ _ (fun _ => (None, [])) (fun _ => True)); [|intros [] _; apply leaves_ret; stats].
    apply leaves_step. intros []. cbn. by rewrite bool_decide_eq_true_2.
Qed.

Lemma holds_dial st h n deadline self : h = hold self -> same st self -> holds2 st h (dial n deadline self).
Proof.
  revert h self. induction n as [|n IH]; intros h self Hh Hs; cbn [dial]; [by intros c _|].
  walk st ltac:(first [apply (opens_sinkTryConnect st); stats|apply IH; stats]).
Qed.

Lemma holds_refuse st h self : h = hold self -> same st self -> holds2 st h (refuse self).
Proof. intros Hh Hs. unfold refuse. walk st idtac. Qed.

Lemma holds_sinkStartNative st h self : h = hold self -> same st self -> sp_nativeMemory (sk_props self) = true ->
  holds2 st h (sinkStartNative self).
Proof.
  intros -> Hs Hn. unfold sinkStartNative. destruct (sl_ch (sk_link self)) as [ch|] eqn:Ech; [|by apply leaves_ret].
  eapply leaves_bind; [natives|cbv beta; intros p _].
  apply (leaves_bind _ _ _ _ _ _ _ (fun _ => (None, [])) (fun _ => True)).
  { apply leaves_step. intros []. cbn. rewrite Ech. by destruct (is_some _); rewrite bool_decide_eq_true_2; auto. }
  intros _ _. walk st ltac:(apply (holds_sinkDisconnect st); stats).
Qed.

Lemma holds_sinkStart st self : same st self -> holds2 st (hold self) (sinkStart fuel self).
Proof.
  intros Hs. unfold sinkStart, validSessionContext, sinkStartSession, sinkStartLegacy, generationMoved.
  walk st ltac:(first [session|apply (holds_sinkStartNative st); stats|apply (holds_dial st); stats|apply (holds_refuse st); stats
    |apply (holds_sinkDisconnect st); stats]).
Qed.

Lemma holds_sinkSetCaps st info features self : same st self ->
  holds2 st (hold self) (sinkSetCaps info features self).
Proof. intros Hs. unfold sinkSetCaps. walk st ltac:(apply (holds_queryInto st); stats). Qed.

Lemma holds_sessionBefore st buffer self : same st self ->
  holds2 st (hold self) (sessionBefore buffer self).
Proof. intros Hs. unfold sessionBefore. walk st session. Qed.

(** ** Rendering: one more frame submitted, or one more dropped *)

Definition settled (s s' : SinkStats) : Prop :=
  st_received s' = st_received s
  /\ ((st_submitted s' = inc64 (st_submitted s) /\ st_dropped s' = st_dropped s)
      \/ (st_submitted s' = st_submitted s /\ st_dropped s' = inc64 (st_dropped s))).

Lemma counts_settled s s' : counts s ->
  settled (mkStats (inc64 (st_received s)) (st_submitted s) (st_dropped s) (st_ringFullDrops s)) s' -> counts s'.
Proof.
  intros Hc [Hr H]. cbn in *. pose proof (counts_received_submitted s Hc) as Hs. pose proof (counts_received_dropped s Hc) as Hd.
  unfold counts in *. cbn in *. by destruct H as [[-> ->]|[-> ->]]; rewrite Hr.
Qed.

Lemma keeps_drawPlanes h l f view w k : keeps h (drawPlanes l f view w k) (fun _ => True).
Proof. revert view. induction l as [|i l IH]; intros view; cbn [drawPlanes]; [by apply leaves_ret|]. walk tt ltac:(apply IH). Qed.

Lemma keeps_draw st ch h image f incoming w k swap self : platform <> Win32 -> same st self ->
  sl_ch (sk_link self) = Some ch -> sl_native (sk_link self) = None ->
  keeps h (draw platform image f incoming w k swap self)
    (fun x => x.1 <> BadPitch /\ same st x.2 /\ sl_ch (sk_link x.2) = Some ch /\ sl_native (sk_link x.2) = None).
Proof.
  intros Hp Hs Ech En. unfold draw, is_win. rewrite bool_decide_eq_false_2 by done. unfold drawPosix.
  walk st ltac:(apply keeps_drawPlanes).
Qed.
Definition rendered (st : SinkStats * bool) self : Prop :=
  settled st.1 (sk_stats self) /\ sp_nativeMemory (sk_props self) = st.2 /\ link_ok self.
Notation render st := (fun x : GstFlowReturn * GstFrameLinkSink => rendered st x.2).

Lemma rendered_dropped st self : same st self -> rendered st (countDropped self).
Proof. intros [Es H]. split; [|exact H]. rewrite <- Es. split; [done|]. by right. Qed.

Lemma rendered_ringFull st self : same st self -> rendered st (countDropped (countRingFull self)).
Proof. intros [Es H]. split; [|exact H]. rewrite <- Es. split; [done|]. by right. Qed.

Lemma rendered_submitted st self pts : same st self -> rendered st (countSubmitted (countFrame pts self)).
Proof.
  intros [Es H]. unfold countFrame. destruct (is_some _); (split; [|exact H]); rewrite <- Es; (split; [done|by left]).
Qed.

Lemma rendered_same st self self' : rendered st self -> same (sk_stats self, st.2) self' -> rendered st self'.
Proof. intros [H _] [Hs Hl]. split; [|done]. by rewrite Hs. Qed.

(** The exits of the copying path. *)
Notation renders st h m := (leaves h m (fun x : GstFlowReturn * GstFrameLinkSink => hold x.2) (render st)).

Lemma renders_ret st r h self : h = hold self -> rendered st self -> renders st h (ret (r, self)).
Proof. intros. by apply leaves_ret. Qed.

Lemma renders_fail st h self : h = hold self -> rendered st self -> renders st h (fail self).
Proof.
  intros Hh H. unfold fail. eapply leaves_bind; [apply keeps_act; quiet|]. intros a _. by apply leaves_ret.
Qed.

Lemma renders_dropped st ch l self (k : GstFrameLinkSink -> C (GstFlowReturn * GstFrameLinkSink)) :
  same st self -> sl_ch (sk_link self) = Some ch -> sl_native (sk_link self) = None ->
  (forall self', rendered st self' -> renders st (hold self') (k self')) ->
  renders st (Some ch, l) (let! self := sinkDisconnect (countDropped self) in k self).
Proof.
  intros Hs Ech En Hk. apply (leaves_bind _ _ _ _ _ _ _ hold (same (sk_stats (countDropped self), st.2))).
  - apply closes_sinkDisconnect; [|done|done]. split; [done|apply Hs].
  - intros self' Hs'. apply Hk. eapply rendered_same; [|exact Hs']. by apply rendered_dropped.
Qed.

(** The sink's channel, with its slots given back. *)
Lemma holding self ch : sl_ch (sk_link self) = Some ch -> sl_native (sk_link self) = None -> hold self = (Some ch, []).
Proof. intros Ech En. unfold hold. by rewrite Ech, En. Qed.

Lemma hold_counted pts self : hold (countSubmitted (countFrame pts self)) = hold self.
Proof. unfold countFrame. by destruct (is_some _). Qed.

Lemma renders_submitDrawn st ch fb buffer mpts self :
  same st self -> sl_ch (sk_link self) = Some ch -> sl_native (sk_link self) = None ->
  renders st (Some ch, [fb]) (submitDrawn ch fb buffer mpts self).
Proof.
  intros Hs Ech En. unfold submitDrawn.
  apply (leaves_bind _ _ _ _ _ _ _ (fun _ => (Some ch, [fb])) (fun _ => True)); [walk st idtac|intros now _].
  destruct (_ && _).
  { apply renders_dropped; [done..|]. intros; by apply renders_fail. }
  apply (leaves_bind _ _ _ _ _ _ _ (fun r => if bool_decide (r = FL_OK) then (Some ch, []) else (Some ch, [fb])) (fun _ => True)).
  - apply leaves_step; intros r; case_bool_decide; cbn; try done. by rewrite !bool_decide_eq_true_2 by done.
  - intros r _. case_bool_decide; cbn [negb].
    + apply renders_ret; [|by apply rendered_submitted]. by rewrite hold_counted, (holding self ch).
    + apply renders_dropped; [done..|]. intros self' H'. destruct (sp_preserveFrameMetadata _); [by apply renders_fail|].
      by apply renders_ret.
Qed.

Lemma renders_renderSlot st ch fb buffer self : platform <> Win32 ->
  same st self -> sl_ch (sk_link self) = Some ch -> sl_native (sk_link self) = None ->
  renders st (Some ch, [fb]) (renderSlot platform ch fb buffer self).
Proof.
  intros Hp Hs Ech En. unfold renderSlot.
  apply (leaves_bind _ _ _ _ _ _ _ (fun _ => (Some ch, [fb])) (fun _ => True)).
  { destruct (sp_preserveFrameMetadata _); [|by apply leaves_ret]. destruct (frameMetadataFromBuffer _ _ _ _) as [[pts md]|];
      [|by apply leaves_ret].
    eapply leaves_bind; [|intros r _; by apply leaves_ret].
    apply (leaves_step _ _ _ _ _ _ _ (fun _ => (Some ch, [fb]))); intros r; case_bool_decide; cbn; try done.
    rewrite !bool_decide_eq_true_2; [done| |done]. by left. }
  intros [mpts|] _.
  - eapply leaves_bind; [apply keeps_ask|cbv beta; intros [f|] _].
    + eapply leaves_bind; [by apply keeps_draw|]. cbv beta. intros [d self'] (Hd & Hs' & Ech' & En'). cbn in *.
      destruct d; [by apply renders_submitDrawn| |done]. apply renders_dropped; [done..|]. intros; by apply renders_ret.
    + apply renders_dropped; [done..|]. intros; by apply renders_ret.
  - apply (leaves_bind _ _ _ _ _ _ _ (fun _ => (Some ch, [])) (fun _ => True)).
    + apply leaves_step. intros []. cbn. by rewrite !bool_decide_eq_true_2 by done.
    + intros [] _. apply renders_fail; [|by apply rendered_dropped]. by rewrite <- (holding self ch).
Qed.

Lemma same_native st self : same st self -> st.2 = false -> sl_native (sk_link self) = None.
Proof. intros (_ & Hm & [H|[_ H]]) Hn; congruence. Qed.

Lemma renders_renderCopy st buffer self : platform <> Win32 -> same st self -> st.2 = false ->
  renders st (hold self) (renderCopy platform buffer self).
Proof.
  intros Hp Hs Hn. unfold renderCopy. destruct (negb (sk_haveInfo self)); [by apply renders_ret, rendered_dropped|].
  apply (leaves_bind _ _ _ _ _ _ _ hold (same st)).
  { destruct (is_some _); [by apply leaves_ret|by apply opens_sinkTryConnect]. }
  clear self Hs. intros self Hs. pose proof (same_native _ _ Hs Hn) as En.
  destruct (sl_ch (sk_link self)) as [ch|] eqn:Ech; [|by apply renders_ret, rendered_dropped].
  destruct (_ || _ || _).
  { eapply leaves_bind; [apply keeps_act; quiet|]. intros a _. by apply renders_ret, rendered_dropped. }
  rewrite (holding self ch) by done.
  apply (leaves_bind _ _ _ _ _ _ _ (fun x => (Some ch, if bool_decide (x.1 = FL_OK) then [x.2] else [])) (fun _ => True)).
  { apply leaves_step; intros [r b]; cbn. case_bool_decide; [|done]. unfold follow; cbn. by rewrite bool_decide_eq_true_2. }
  intros [r fb] _. cbn. destruct (bool_decide _ || _) eqn:Er.
  { assert (bool_decide (r = FL_OK) = false) as -> by (by destruct r).
    destruct (sp_errorOnRingFull _); [apply renders_fail|apply renders_ret]; try (by apply rendered_ringFull);
      by rewrite <- (holding self ch). }
  destruct (decide (r = FL_OK)) as [->|Hr]; [by apply renders_renderSlot|].
  rewrite (bool_decide_eq_false_2 (r = FL_OK)) by done. cbn [negb]. apply renders_dropped; [done..|].
  intros self' H'. by apply renders_ret.
Qed.

Lemma count_frame_submitted pts self : countFrame pts (countSubmitted self) = countSubmitted (countFrame pts self).
Proof. unfold countFrame. cbn. by destruct (is_some _). Qed.

Lemma renders_renderNative st buffer self : same st self -> renders st (hold self) (renderNative buffer self).
Proof.
  intros Hs. unfold renderNative. eapply leaves_bind; [apply keeps_ask|cbv beta; intros now _].
  match goal with |- leaves _ (match ?x with _ => _ end) _ _ => destruct x as [[valid pts] md] end.
  apply (leaves_bind _ _ _ _ _ _ _ (fun _ => hold self) (fun _ => True)); [walk st idtac|].
  intros [] _; [|by apply renders_fail, rendered_dropped]. rewrite count_frame_submitted.
  apply renders_ret; [by rewrite hold_counted|by apply rendered_submitted].
Qed.

(** A whole render: the frame is counted and settled, or refused before it counts. *)
Lemma holds_sinkRender buffer self : platform <> Win32 -> counts (sk_stats self) -> link_ok self ->
  leaves (hold self) (sinkRender platform buffer self) (fun x => hold x.2)
    (fun x => counts (sk_stats x.2) /\ link_ok x.2).
Proof.
  intros Hp Hc Hl. unfold sinkRender, sinkRenderImpl.
  apply (leaves_bind _ _ _ _ _ _ _ (fun x => hold x.2) (fun x => counts (sk_stats x.2) /\ link_ok x.2)).
  - set (st := (sk_stats self, sp_nativeMemory (sk_props self))).
    eapply leaves_bind; [by apply (holds_sessionBefore st)|cbv beta]. intros [[r|] self'] (Hs & Hm & Hl'); cbn in *.
    + apply leaves_ret; [done|]. cbn. by rewrite Hs.
    + set (st' := (sk_stats (countReceived self'), sp_nativeMemory (sk_props self))).
      assert (same st' (countReceived self')) as Hs' by done.
      eapply leaves_mono with (R := render st').
      * apply (leaves_bind _ _ _ _ _ _ _ (fun _ => hold self') (fun _ => True)); [unfold generationMoved; walk st' idtac|].
        intros moved _. cbv beta. change (hold self') with (hold (countReceived self')). destruct (moved : bool).
        { eapply leaves_bind; [apply keeps_act; quiet|]. intros a _. by apply renders_ret, rendered_dropped. }
        match goal with |- leaves _ (if ?b then _ else _) _ _ => destruct b eqn:En end.
        -- by apply (renders_renderNative st').
        -- apply (renders_renderCopy st'); [done..|]. cbn in *. congruence.
      * intros [r s'] (H1 & _ & H3). split; [|done]. cbn in *. eapply counts_settled; [exact Hc|]. by rewrite <- Hs.
  - intros [r self'] [H1 H2].
    apply (leaves_bind _ _ _ _ _ _ _ (fun _ => hold self') (fun _ => True)); [|intros _ _; by apply leaves_ret].
    unfold cancelSession. walk (sk_stats self, true) idtac.
Qed.
(** ** The other callbacks *)

Lemma keeps_sendEvent h i g e : keeps h (sendEvent i g e : C _) (fun _ => True).
Proof. unfold sendEvent. walk tt session. Qed.

Lemma keeps_stats h st : counts st ->
  keeps h (act [DStats (st_received st) (st_submitted st) (st_dropped st) (st_ringFullDrops st)] : C _)
    (fun _ => True).
Proof. intros Hc. apply keeps_act. constructor; [|constructor]. cbn. by rewrite (proj1 Hc), Z.eqb_refl. Qed.

Lemma keeps_sessionCancel h self : keeps h (cancelSession self : C _) (fun _ => True).
Proof. unfold cancelSession. walk tt session. Qed.

Lemma holds_sessionEvent st event self : same st self -> holds2 st (hold self) (sessionEvent event self).
Proof.
  intros Hs. unfold sessionEvent, look. destruct event; walk st ltac:(first [apply keeps_sendEvent|apply (holds_refuse st); stats]).
Qed.

Lemma holds_sessionEos st self : same st self -> holds2 st (hold self) (sessionEos self).
Proof.
  intros Hs. unfold sessionEos. walk st ltac:(first [apply keeps_sendEvent|apply (holds_refuse st); stats]).
Qed.

Lemma same_parent st accepted event self : same st self -> same st (parentEvent accepted event self).
Proof. intros Hs. by destruct accepted, event. Qed.

Lemma hold_parent accepted event self : hold (parentEvent accepted event self) = hold self.
Proof. by destruct accepted, event. Qed.

Lemma holds_sinkEvent st event self : same st self -> counts st.1 ->
  holds2 st (hold self) (sinkEvent event self).
Proof.
  intros Hs Hc. unfold sinkEvent, sinkEventImpl.
  walk st ltac:(first [apply keeps_sessionCancel|apply (holds_sessionEvent st); stats|apply (holds_sessionEos st); stats
    |apply keeps_stats; cbn [snd] in *; match goal with H : same st ?x |- counts (sk_stats ?x) => by rewrite (proj1 H) end]).
  apply leaves_ret; [symmetry; apply hold_parent|]. by apply same_parent.
Qed.

Lemma holds_sinkStop st self : same st self -> holds st (hold self) (sinkStop self).
Proof.
  intros Hs. unfold sinkStop. eapply leaves_bind; [apply keeps_sessionCancel|]. intros a _. by apply holds_sinkDisconnect.
Qed.

Lemma holds_sinkAdoptChannel st channel self : same st self ->
  holds2 st (hold self) (sinkAdoptChannel channel self).
Proof.
  intros Hs. unfold sinkAdoptChannel, gst_state. eapply leaves_bind; [one|cbv beta; intros state _].
  destruct channel as [ch|]; [|by apply leaves_ret]. destruct (_ || _ || _) eqn:Eg; [by apply leaves_ret|].
  apply orb_false_elim in Eg as [Eg _]. apply orb_false_elim in Eg as [_ Ech]. destruct (sl_ch (sk_link self)) eqn:E0; [done|].
  assert (sl_native (sk_link self) = None) as En by (destruct Hs as (_ & _ & [?|[H _]]); [done|by rewrite E0 in H]).
  assert (hold self = (None, [])) as Eh by (unfold hold; by rewrite En, E0).
  eapply leaves_bind; [one|cbv beta; intros [r info] _]. destruct (negb _); [by apply leaves_ret|].
  eapply leaves_bind; [one|cbv beta; intros [r' flags] _]. destruct (bool_decide _); [by apply leaves_ret|]. rewrite Eh.
  apply (leaves_bind _ _ _ _ _ _ _ (fun _ => (Some ch, [])) (fun _ => True)); [by apply leaves_step|].
  intros _ _. apply leaves_ret; [unfold hold; cbn; by rewrite En|stats].
Qed.

Lemma holds_sinkApplyMemoryPolicy st policy self : same st self ->
  holds2 st (hold self) (sinkApplyMemoryPolicy platform policy self).
Proof. intros Hs. unfold sinkApplyMemoryPolicy, gst_state. walk st idtac. Qed.

Lemma holds_sinkSessionContext st context self : same st self ->
  holds st (hold self) (sinkSessionContext context self).
Proof. intros Hs. unfold sinkSessionContext, gst_state. walk st idtac. Qed.

(** The one property that could part a native producer from its mode needs the
    channel closed. *)
Lemma holds_sinkSetProperty prop self : link_ok self ->
  leaves (hold self) (sinkSetProperty prop self) hold (fun s => sk_stats s = sk_stats self /\ link_ok s).
Proof.
  intros Hl. unfold sinkSetProperty, gst_state.
  eapply leaves_bind; [apply keeps_ask|cbv beta; intros state _].
  destruct (_ && _); [by apply leaves_ret|]. destruct (po_applied _); [by apply leaves_ret|].
  apply leaves_ret; [done|]. split; [done|].
  destruct prop; cbn; try destruct (_ <? _) eqn:?; cbn; try exact Hl; destruct (is_some _) eqn:Ei; cbn; try exact Hl.
  - destruct Hl as [Hl|[Hl _]]; [by left|congruence].
Qed.

Lemma holds_callback k self : platform <> Win32 -> counts (sk_stats self) -> link_ok self ->
  leaves (hold self) (callback platform fuel k self) hold (fun s => counts (sk_stats s) /\ link_ok s).
Proof.
  intros Hp Hc Hl. set (st := (sk_stats self, sp_nativeMemory (sk_props self))). assert (same st self) as Hs by done.
  assert (forall s, same st s -> counts (sk_stats s) /\ link_ok s) as Hout by (by intros s (-> & _ & ?)).
  assert (forall A (m : C (A * GstFrameLinkSink)), holds2 st (hold self) m ->
    leaves (hold self) (also m) hold (fun s => counts (sk_stats s) /\ link_ok s)) as Halso.
  { intros A m Hm. unfold also. eapply leaves_bind; [exact Hm|]. intros [a s] H. apply leaves_ret; [done|by apply Hout]. }
  destruct k; cbn [callback].
  - by apply Halso, holds_sinkStart.
  - by apply Halso, holds_sinkSetCaps.
  - unfold also. eapply leaves_bind; [by apply holds_sinkRender|]. intros [r s] H. by apply leaves_ret.
  - by apply Halso, holds_sinkEvent.
  - unfold GstSink.same, sinkSendEvent. walk st idtac. 
  - eapply leaves_mono; [by apply holds_sinkStop|exact Hout].
  - eapply leaves_mono; [by apply holds_sinkStop|exact Hout].
  - by apply Halso, holds_sinkAdoptChannel.
  - by apply Halso, holds_sinkApplyMemoryPolicy.
  - eapply leaves_mono; [by apply holds_sinkSessionContext|exact Hout].
  - eapply leaves_mono; [by apply holds_sinkSetProperty|]. by intros s [-> ?].
  - unfold GstSink.same, sinkAcquireNative, gst_state. walk st idtac.
  - unfold GstSink.same, sinkSetNativeReadyFd. walk st idtac.
  - unfold GstSink.same, sinkProposeAllocation. walk st idtac.
Qed.

Lemma holds_callbacks l self : platform <> Win32 -> counts (sk_stats self) -> link_ok self ->
  leaves (hold self) (callbacks platform fuel l self) hold (fun s => counts (sk_stats s) /\ link_ok s).
Proof.
  intros Hp. revert self. induction l as [|k l IH]; intros self Hc Hl; cbn [callbacks]; [by apply leaves_ret|].
  eapply leaves_bind; [by apply holds_callback|]. cbv beta. intros s [H1 H2]. by apply IH.
Qed.

Lemma sink_run l c self c' : platform <> Win32 -> c_log c = base ->
  callbacks platform fuel l sink_init c = Some (self, c') ->
  counts (sk_stats self) /\ exists log, c_log c' = base ++ log /\ follow slot_step (None, []) log = Some (hold self).
Proof.
  intros Hp Hc Hrun. pose proof (holds_callbacks l sink_init Hp) as H.
  assert (counts (sk_stats sink_init)) as H0 by done. assert (link_ok sink_init) as Hl by by left.
  specialize (H H0 Hl c). unfold wp in H. rewrite Hrun in H. destruct H as ((_ & log & El & Hf) & Hs & _); [|by eauto].
  split; [done|]. exists []. by rewrite app_nil_r.
Qed.

(** C21: The sink keeps to the channel it holds and gives back every slot it takes.
    Whatever callbacks GStreamer makes - starting, caps, frames, events, stopping,
    in any order and with any answers of the channel, the mapping and the session -
    the sink opens or adopts a channel only when it holds none, and acquires,
    describes, cancels, submits on and closes only the channel it holds: never one
    it has closed or handed to a native producer, and none twice.  Each slot it
    acquired was published once, cancelled once, or given back by closing its
    channel, and it never described, published or cancelled a slot it did not hold.
    Between callbacks it holds no slot, and exactly the channel in its field [ch].
    Stated for the platforms other than Windows, whose early return of the NV12
    upload is a case of its own (the end of this file). *)
Theorem sink_slots_settled l c self c' :
  platform <> Win32 -> c_log c = base -> callbacks platform fuel l sink_init c = Some (self, c') ->
  exists log, c_log c' = base ++ log /\ follow slot_step (None, []) log = Some (hold self).
Proof. intros Hp Hc Hrun. by destruct (sink_run l c self c' Hp Hc Hrun). Qed.

(** C22: The sink's counters account for every frame.  After any callbacks, the frames
    received are the frames submitted plus the frames dropped, each frame once - as
    64-bit counters - and so say the statistics it posts at the end of a stream. *)
Theorem sink_accounts_frames l c self c' :
  platform <> Win32 -> c_log c = base -> callbacks platform fuel l sink_init c = Some (self, c') ->
  st_received (sk_stats self) = wrap64 (st_submitted (sk_stats self) + st_dropped (sk_stats self))
  /\ exists log, c_log c' = base ++ log
     /\ forall received submitted dropped ringFull, DStats received submitted dropped ringFull ∈ log ->
        received = wrap64 (submitted + dropped).
Proof.
  intros Hp Hc Hrun. destruct (sink_run l c self c' Hp Hc Hrun) as [[Hs _] (log & El & Hf)].
  split; [done|]. exists log. split; [done|]. intros r s d f Hin. by apply (slot_step_stats _ _ _ r s d f Hf).
Qed.
End Safe.

(** ** An example: a frame is copied and submitted, the next finds the ring full *)

Definition exInfo : flChannelInfo := mkChannelInfo 6 4 2 FL_FORMAT_BGRA8 3 1.
Definition exFrame : VideoFrame := mkVideoFrame GST_VIDEO_FORMAT_RGBA 4 2 [mkPlaneAt 1000 16].

(** [frame] is what every buffer maps to; slots are there for [ready] of the time. *)
Definition exElement (info : flChannelInfo) (frame : VideoFrame) (ready : nat -> bool) : Element := {|
  el_now t := Z.of_nat t * 1000000; el_state _ := GST_STATE_NULL; el_running _ _ t := t; el_delay := None;
  el_frame_map _ _ := Some frame; el_buffer _ := Some (mkPlaneAt 5000 0); el_push _ := true;
  el_flushing _ := false; el_ok _ := true; el_context _ := None; el_fd t := Z.of_nat t;
  el_others _ _ := []; el_sleeps _ := []; el_written _ := true;
  el_open _ _ := (FL_OK, Some 7); el_open_slot _ _ := (FL_OK, Some (7, 0)); el_create _ _ := FL_OK;
  el_query _ _ := (FL_OK, info); el_flags _ _ := (FL_INVALID, 0);
  el_acquire t _ := (if ready t then FL_OK else FL_TIMEOUT, mkBuffer 1 50);
  el_metadata _ _ := FL_OK; el_submit _ _ := FL_OK; el_retain _ _ := (FL_OK, 1);
  el_frame _ _ := (FL_TIMEOUT, zeroFrame); el_age _ _ := (FL_OK, 0); el_get_metadata _ _ := (FL_OK, zeroMetadata);
  el_release _ _ := FL_OK; el_lease _ _ := (FL_OK, 1); el_complete _ _ := FL_OK; el_collect _ _ := FL_OK;
  el_map _ _ := (FL_OK, mkPlaneAt 2000 32); el_planes _ _ := (FL_INVALID, zeroMapped);
|}.

(** A build without native memory. *)
Definition noNative `{E : Element} : NativeSink := {|
  ns_store := unit; ns_new _ := ret 0%nat; ns_valid _ := ret false; ns_deactivate _ := ret tt; ns_drop _ := ret tt;
  ns_acquire _ _ := ret None; ns_setReady _ _ _ := ret false; ns_submit _ _ _ _ := ret FL_INVALID;
|}.

#[export] Instance noNative_laws `{E : Element} : NativeSinkLaws (NS := noNative).
Proof. split; intros; intros c a c'; injection 1 as <- <-; exists []; by rewrite app_nil_r. Qed.

Definition exCore : Core unit :=
  mkCore 1 (fun _ => ([], newSession 1)) empty tt [].
Definition exBuffer (pts : Z) : GstBuffer :=
  mkGstBuffer pts GST_CLOCK_TIME_NONE GST_CLOCK_TIME_NONE false None None.
Definition exCallbacks (f : GstVideoFormat) : list Callback :=
  [Start; SetCaps (Some (mkVideoInfo f 4 2)) false; Render (exBuffer 0); Render (exBuffer 10); Event GST_EVENT_EOS; Stop].

Definition exRun (platform : Platform) (info : flChannelInfo) (frame : VideoFrame) (ready : nat -> bool)
    (f : GstVideoFormat) : option (GstFrameLinkSink * Core unit) :=
  callbacks (E := exElement info frame ready) (NS := noNative (E := exElement info frame ready)) platform 5
    (exCallbacks f) sink_init exCore.

Definition exReady (t : nat) : bool := (t <? 8)%nat.
Definition exEnd : GstFrameLinkSink * Core unit :=
  default (sink_init, exCore) (exRun Linux exInfo exFrame exReady GST_VIDEO_FORMAT_RGBA).

Lemma sink_slots_settled_witness :
  exists log, c_log exEnd.2 = [] ++ log /\ follow slot_step (None, []) log = Some (hold exEnd.1)
  /\ log = [DOpen 7; DAcquire 7 (mkBuffer 1 50); DSubmit 7 (mkBuffer 1 50) 10000000000; DStats 2 1 1 1; DClose 7].
Proof.
  destruct (sink_slots_settled (E := exElement exInfo exFrame exReady)
    (NS := noNative (E := exElement exInfo exFrame exReady)) (L := noNative_laws (E := exElement exInfo exFrame exReady))
    Linux 5 [] (exCallbacks GST_VIDEO_FORMAT_RGBA) exCore exEnd.1 exEnd.2) as (log & El & Hf);
    [done|done|by vm_compute|].
  exists log. split; [exact El|]. split; [exact Hf|]. cbn [app] in El. rewrite <- El. by vm_compute.
Defined.

(** Two frames came: one was published, one found the ring full. *)
Lemma sink_accounts_frames_witness :
  st_received (sk_stats exEnd.1) = wrap64 (st_submitted (sk_stats exEnd.1) + st_dropped (sk_stats exEnd.1))
  /\ sk_stats exEnd.1 = mkStats 2 1 1 1 /\ DStats 2 1 1 1 ∈ c_log exEnd.2.
Proof.
  destruct (sink_accounts_frames (E := exElement exInfo exFrame exReady)
    (NS := noNative (E := exElement exInfo exFrame exReady)) (L := noNative_laws (E := exElement exInfo exFrame exReady))
    Linux 5 [] (exCallbacks GST_VIDEO_FORMAT_RGBA) exCore exEnd.1 exEnd.2) as (Hc & _);
    [done|done|by vm_compute|].
  split; [exact Hc|]. split; [by vm_compute|]. apply (list_elem_of_lookup_2 _ 3). by vm_compute.
Defined.

(** On Windows a frame whose rows are shorter than its width is neither submitted nor
    counted as dropped: the early return of the NV12 upload forgets it. *)
Definition exInfoNv12 : flChannelInfo := mkChannelInfo 6 4 2 FL_FORMAT_NV12 3 1.
Definition exFrameNv12 : VideoFrame := mkVideoFrame GST_VIDEO_FORMAT_NV12 4 2 [mkPlaneAt 1000 2; mkPlaneAt 1100 2].

Lemma win32_frame_uncounted :
  (fun x => sk_stats x.1) <$> exRun Win32 exInfoNv12 exFrameNv12 (fun t => (t <? 8)%nat) GST_VIDEO_FORMAT_NV12
  = Some (mkStats 2 0 1 1).
Proof. vm_compute. reflexivity. Qed.
