(* ===== verification/GstSinkStream.v ===== *)
(** * What the video sink announces in a session (GstSink.v)

    The receiver of a coordinated session trusts the event stream: gaps and barriers
    name the frame they come before, the end names the number of frames and the last
    time, and a frame after a gap says so.  The sink keeps to it. *)
From stdpp Require Import gmap.
From Stdlib Require Import QArith.
From S2P Require Import Prelude Api Memory Session EventChannel SessionContext Bytes GstVideo Element GstSink GstSinkSafe.

(** Frames published, the time of the last one, whether a gap or a barrier was
    announced since, and the slot whose metadata was set - since it was acquired and
    since the last announcement. *)
Definition Announced : Type := Z * Z * bool * option (Z * flBuffer).

Definition announce (h : Announced) (d : Did) : option Announced :=
  let '(n, last, pending, described) := h in
  match d with
  | DSubmit ch b pts =>
    (* a frame is published with its metadata *)
    if bool_decide (described = Some (ch, b)) then Some (inc64 n, pts, false, None) else None
  | DMetadata ch b md =>
    (* the first frame, and one after a gap, is marked *)
    if (pending || (n =? 0)) && negb (has_flag (md_flags md) FL_FRAME_DISCONT) then None
    else Some (n, last, pending, Some (ch, b))
  | DAcquire _ _ | DCancel _ _ | DClose _ => Some (n, last, pending, None)
  | DSent e =>
    (* a record names the frame that comes next *)
    if negb (ev_afterFrames e =? n) then None
    else if (ev_kind e =? FL_GST_VIDEO_GAP) || (ev_kind e =? FL_GST_VIDEO_BARRIER) then Some (n, last, true, None)
    else if ev_kind e =? FL_GST_VIDEO_END
    then if ev_ptsNs e =? (if last <? 0 then 0 else last) then Some (n, last, pending, None) else None
    else Some (n, last, pending, None)
  | _ => Some h
  end.

Definition announced (self : GstFrameLinkSink) : Announced :=
  let s := sk_session self in (ss_frames s, ss_lastPts s, ss_gapPending s, None).

(** The same, with the slot described. *)
Definition described (self : GstFrameLinkSink) (slot : Z * flBuffer) : Announced :=
  let s := sk_session self in (ss_frames s, ss_lastPts s, ss_gapPending s, Some slot).

(** A started sink of a session that draws its frames itself. *)
Definition in_session (self : GstFrameLinkSink) : Prop :=
  is_some (ss_session (sk_session self)) = true /\ sp_preserveFrameMetadata (sk_props self) = true
  /\ sp_nativeMemory (sk_props self) = false /\ sl_native (sk_link self) = None.

(** The next frame is marked if it must be. *)
Definition marked (self : GstFrameLinkSink) : Prop :=
  in_session self
  /\ (ss_gapPending (sk_session self) || (ss_frames (sk_session self) =? 0) = true ->
      ss_markDiscont (sk_session self) = true).

Lemma has_flag_lor f : has_flag (Z.lor f FL_FRAME_DISCONT) FL_FRAME_DISCONT = true.
Proof.
  unfold has_flag. apply truthy_true. rewrite Z.land_comm, Z.lor_comm.
  replace (Z.land FL_FRAME_DISCONT (Z.lor FL_FRAME_DISCONT f)) with FL_FRAME_DISCONT; [done|].
  apply Z.bits_inj'. intros n _. rewrite Z.land_spec, Z.lor_spec. by destruct (Z.testbit _ n).
Qed.

Section Stream.
Context `{E : Element} {NS : NativeSink} {L : NativeSinkLaws}.
Context (platform : Platform) (fuel : nat) (base : list Did) (h0 : Announced).
Notation C := (C ns_store).
Implicit Types (self : GstFrameLinkSink).
Notation leaves h m T R := (leaves announce base h0 (fun _ => True) h (m : C _) T R).
Notation keeps h m R := (Element.leaves announce base h0 (fun _ => True) h (m : C _) (fun _ => h) R).

Lemma silent_native {A} h (m : C A) : only_native m -> keeps h m (fun _ => True).
Proof.
  intros Hm c Hc. unfold wp. destruct (m c) as [[a c']|] eqn:Em; [|done]. split; [|done].
  destruct (Hm c a c' Em) as (l & El & _). eapply at_after; [exact Hc|done|exact El|].
  apply follow_quiet, Forall_map, Forall_forall. by destruct h as [[[? ?] ?] ?].
Qed.

(** Code that ends with the sink still saying what is true. *)
Notation told m P := (leaves (announced _) m announced P).
Ltac natives := apply silent_native; solve [auto using ns_new_native, ns_valid_native, ns_deactivate_native,
  ns_drop_native, ns_acquire_native, ns_setReady_native, ns_submit_native].
Ltac facts := cbn [fst snd] in *; try done;
  repeat match goal with |- context [if ?b then _ else _] => destruct b end; try done;
  unfold marked, in_session in *; cbn in *; intuition congruence.
Ltac between P h A :=
  lazymatch A with
  | GstFrameLinkSink => apply (leaves_bind _ _ _ _ h _ _ announced P)
  | (_ * GstFrameLinkSink)%type => apply (leaves_bind _ _ _ _ h _ _ (fun x => announced x.2) (fun x => P x.2))
  | _ => apply (leaves_bind _ _ _ _ h _ _ (fun _ => h) (fun _ => True))
  end.
Ltac walk P known :=
  Element.walk ltac:(fun h A => between P h A) ltac:(first [natives|session|known]) ltac:(facts).

(** What survives a change of the link and of the counters. *)
Definition aside (P : GstFrameLinkSink -> Prop) : Prop :=
  (forall s f, (forall l, sl_native l = None -> sl_native (f l) = None) -> P s -> P (on_link s f)) /\ (forall s v, P s -> P (set_stats s v))
  /\ (forall s i h, P s -> P (set_caps s i h)).

Lemma aside_in_session : aside in_session.
Proof. split; [|done]. intros s f Hf (H1 & H2 & H3 & H4). by repeat split; [..|apply Hf]. Qed.
Lemma aside_marked : aside marked.
Proof. split; [|done]. intros s f Hf [Hs Hm]. split; [by apply (proj1 aside_in_session)|done]. Qed.

Lemma native_in_session self : in_session self -> sl_native (sk_link self) = None.
Proof. by intros (_ & _ & _ & H). Qed.
Lemma native_marked self : marked self -> sl_native (sk_link self) = None.
Proof. intros [H _]. by apply native_in_session. Qed.

Section Aside.
Context (P : GstFrameLinkSink -> Prop) (HP : aside P) (HN : forall s, P s -> sl_native (sk_link s) = None).

Ltac side := cbn [fst snd] in *; try done; repeat first [apply (proj1 HP); [by intros|]|apply (proj1 (proj2 HP))|apply (proj2 (proj2 HP))]; done.
Ltac wander known :=
  Element.walk ltac:(fun h A => between P h A) ltac:(first [natives|session|known]) ltac:(side).

Lemma told_queryInto ch self : P self -> leaves (announced self) (queryInto ch self) announced P.
Proof. intros Hs. unfold queryInto. wander idtac. Qed.

Lemma told_sinkTryConnect self : P self -> leaves (announced self) (sinkTryConnect self) announced P.
Proof.
  intros Hs. unfold sinkTryConnect. wander idtac.
  match goal with |- Element.leaves _ _ _ _ _ (queryInto _ ?s) _ _ => apply (told_queryInto _ s); side end.
Qed.

(** Closing the channel forgets the slot that was described. *)
Lemma told_close ch slot self : P self -> sl_ch (sk_link self) = Some ch ->
  leaves (described self slot) (sinkDisconnect self) announced P.
Proof.
  intros Hs Ech. unfold sinkDisconnect. rewrite (HN self Hs).
  eapply leaves_bind; [by apply (leaves_ret _ _ _ _ _ self (fun _ => described self slot) (fun s => s = self))|]. intros s ->.
  rewrite Ech. apply (leaves_bind _ _ _ _ _ _ _ (fun _ => announced self) (fun _ => True)); [by apply leaves_step|].
  intros _ _. apply leaves_ret; [done|side].
Qed.

Lemma told_sinkDisconnect self : P self -> leaves (announced self) (sinkDisconnect self) announced P.
Proof. intros Hs. unfold sinkDisconnect. wander idtac. Qed.

Lemma told_sinkSetCaps info features self : P self ->
  leaves (announced self) (sinkSetCaps info features self) (fun x => announced x.2) (fun x => P x.2).
Proof.
  intros Hs. unfold sinkSetCaps. wander ltac:(idtac; match goal with |- Element.leaves _ _ _ _ _ (queryInto _ ?s) _ _ =>
    apply (told_queryInto _ s); side end).
Qed.

Lemma told_drawPlanes h l f view w k : keeps h (drawPlanes l f view w k) (fun _ => True).
Proof. revert view. induction l as [|i l IH]; intros view; cbn [drawPlanes]; [by apply leaves_ret|]. wander ltac:(apply IH). Qed.

Lemma told_repack h l f a w k : keeps h (repack l f a w k) (fun _ => True).
Proof. induction l as [|i l IH]; cbn [repack]; [by apply leaves_ret|]. wander ltac:(apply IH). Qed.

(** Drawing changes nothing that matters here. *)
Lemma told_draw h image f incoming w k swap self : P self ->
  keeps h (draw platform image f incoming w k swap self)
    (fun x => P x.2 /\ announced x.2 = announced self /\ sl_ch (sk_link x.2) = sl_ch (sk_link self)).
Proof.
  intros Hs. unfold draw, drawWin32, drawPosix.
  Element.walk ltac:(fun h A => apply (leaves_bind _ _ _ _ h _ _ (fun _ => h) (fun _ => True)))
    ltac:(first [apply told_drawPlanes|apply told_repack])
    ltac:(cbn [fst snd] in *; try done; repeat split; side).
Qed.

Lemma told_dial n deadline self : P self ->
  leaves (announced self) (dial n deadline self) (fun x => announced x.2) (fun x => P x.2).
Proof.
  revert self. induction n as [|n IH]; intros self Hs; cbn [dial]; [apply leaves_stuck|].
  wander ltac:(apply told_sinkTryConnect; done). by apply IH.
Qed.
End Aside.

(** ** A frame *)

Lemma told_send self i g kind pts duration self' :
  kind <> FL_GST_VIDEO_END \/ pts = (if ss_lastPts (sk_session self) <? 0 then 0 else ss_lastPts (sk_session self)) ->
  announced self' = (ss_frames (sk_session self), ss_lastPts (sk_session self),
    (kind =? FL_GST_VIDEO_GAP) || (kind =? FL_GST_VIDEO_BARRIER) || ss_gapPending (sk_session self), None) ->
  leaves (announced self) (fl_gst_session_send_video_event i g (mkEvent kind (ss_frames (sk_session self)) pts duration))
    (fun r => if bool_decide (r = FL_GST_SESSION_READY) then announced self' else announced self) (fun _ => True).
Proof.
  intros Hk E'. apply leaves_send. unfold follow. cbn. rewrite Z.eqb_refl. cbn. rewrite E'.
  destruct ((kind =? FL_GST_VIDEO_GAP) || (kind =? FL_GST_VIDEO_BARRIER)); [done|]. cbn.
  destruct (Z.eqb_spec kind FL_GST_VIDEO_END) as [->|]; [|done].
  destruct Hk as [Hk| ->]; [done|]. by rewrite Z.eqb_refl.
Qed.

Lemma told_error {A} (x : A) h T (R : A -> Prop) : h = T x -> R x -> leaves h (element_error ;; ret x) T R.
Proof. intros. destruct h as [[[n last] p] w]. eapply leaves_bind; [one|]. intros a _. by apply leaves_ret. Qed.

Lemma told_sessionBefore buffer self : in_session self ->
  leaves (announced self) (sessionBefore buffer self) (fun x => announced x.2)
    (fun x => in_session x.2 /\ (x.1 = None -> marked x.2)).
Proof.
  intros Hs. unfold sessionBefore. destruct (ss_session (sk_session self)) as [i|] eqn:Ei.
  2: { destruct Hs as [Hs _]. by rewrite Ei in Hs. }
  eapply leaves_bind; [one|cbv beta; intros r _]. destruct (negb _); [by apply told_error|].
  destruct (match gb_meta buffer with Some _ => _ | None => _ end); [by apply told_error|].
  set (self1 := on_session self _).
  assert (marked self1) as Hm.
  { split; [exact Hs|]. cbn. unfold truthy. rewrite negb_involutive. intros ->. done. }
  destruct (negb (ss_markDiscont _)) eqn:Ed; [by apply leaves_ret|].
  eapply leaves_bind; [one|cbv beta; intros events _]. destruct (negb events); [by apply leaves_ret|].
  destruct (fl_gst_segment_running_time _ _ _ _) as [[] [pts|]]; try by apply leaves_ret.
  eapply leaves_bind.
  { apply (told_send self1 _ _ FL_GST_VIDEO_BARRIER pts 0 (on_session self1 (fun s => set_gapPending s true)));
      [by left|done]. }
  cbv beta. intros r' _. case_bool_decide; cbn [negb]; [|by apply told_error].
  apply leaves_ret; [done|]. split; [exact Hs|]. intros _. split; [exact Hs|]. intros _.
  by apply negb_false_iff in Ed.
Qed.

(** The frame is marked as the announcements ask. *)
Lemma told_setMetadata ch fb md self : marked self ->
  leaves (announced self) (flSetFrameMetadata ch fb (markFlags self md))
    (fun r => if bool_decide (r = FL_OK) then described self (ch, fb) else announced self) (fun _ => True).
Proof.
  intros [Hs Hm]. apply leaves_step. intros r. case_bool_decide; [|done]. unfold follow. cbn.
  destruct (_ || _) eqn:Ep; [|done]. cbn. unfold markFlags. rewrite (proj1 Hs), Hm by done. cbn.
  by rewrite has_flag_lor.
Qed.

Definition spoken (x : GstFlowReturn * GstFrameLinkSink) : Prop := in_session x.2.

Lemma told_fail h self : h = announced self -> in_session self -> leaves h (fail self) (fun x => announced x.2) spoken.
Proof. intros -> Hs. by apply told_error. Qed.

Lemma told_finish r h self : h = announced self -> in_session self ->
  leaves h (finish r self) (fun x => announced x.2) spoken.
Proof. intros -> Hs. by apply leaves_ret. Qed.

Lemma told_dropped h (k : GstFrameLinkSink -> C (GstFlowReturn * GstFrameLinkSink)) self :
  leaves h (sinkDisconnect self) announced in_session ->
  (forall self', in_session self' -> leaves (announced self') (k self') (fun x => announced x.2) spoken) ->
  leaves h (let! self := sinkDisconnect self in k self) (fun x => announced x.2) spoken.
Proof. intros Hd Hk. eapply leaves_bind; [exact Hd|exact Hk]. Qed.

Lemma told_drop ch slot (k : GstFrameLinkSink -> C (GstFlowReturn * GstFrameLinkSink)) self :
  in_session self -> sl_ch (sk_link self) = Some ch ->
  (forall self', in_session self' -> leaves (announced self') (k self') (fun x => announced x.2) spoken) ->
  leaves (described self slot) (let! self := sinkDisconnect (countDropped self) in k self) (fun x => announced x.2) spoken.
Proof.
  intros Hs Ech Hk. apply told_dropped; [|done].
  by apply (told_close in_session aside_in_session native_in_session ch slot (countDropped self)).
Qed.

Lemma told_submitDrawn ch fb buffer mpts self : in_session self -> sl_ch (sk_link self) = Some ch ->
  leaves (described self (ch, fb)) (submitDrawn ch fb buffer mpts self) (fun x => announced x.2) spoken.
Proof.
  intros Hs Ech. pose proof Hs as (Hi & Hp & _). unfold submitDrawn. rewrite Hp, andb_false_r. cbn [andb].
  eapply leaves_bind; [by apply (leaves_ret _ _ _ _ _ _ (fun _ => described self (ch, fb)) (fun _ => True))|]. cbv beta. intros _ _.
  apply (leaves_bind _ _ _ _ _ _ _ (fun r => if bool_decide (r = FL_OK)
    then (inc64 (ss_frames (sk_session self)), mpts, false, None) else described self (ch, fb)) (fun _ => True)).
  { apply leaves_step. intros r. case_bool_decide; [|done]. unfold follow. cbn. by rewrite bool_decide_eq_true_2. }
  intros r _. case_bool_decide; cbn [negb].
  - apply leaves_ret; [|unfold spoken, countFrame; by rewrite Hi]. unfold countFrame. by rewrite Hi.
  - apply (told_drop ch); [done..|]. intros self' Hs'. by apply told_fail.
Qed.

Lemma told_renderSlot ch fb buffer self : marked self -> sl_ch (sk_link self) = Some ch ->
  leaves (announced self) (renderSlot platform ch fb buffer self) (fun x => announced x.2) spoken.
Proof.
  intros Hm Ech. pose proof Hm as [Hs _]. pose proof Hs as (Hi & Hp & _). unfold renderSlot. rewrite Hp.
  apply (leaves_bind _ _ _ _ _ _ _ (fun o => if is_some o then described self (ch, fb) else announced self) (fun _ => True)).
  { destruct (frameMetadataFromBuffer _ _ _ _) as [[pts md]|]; [|by apply leaves_ret].
    eapply leaves_bind; [by apply told_setMetadata|]. intros r _. apply leaves_ret; [by case_bool_decide|done]. }
  intros [mpts|] _; cbn [is_some].
  - eapply leaves_bind; [one|cbv beta; intros [f|] _].
    + eapply leaves_bind; [by apply (told_draw in_session aside_in_session)|]. cbv beta.
      intros [d self'] (Hs' & Ea & Ec). cbn [snd] in *. rewrite Ech in Ec.
      assert (described self (ch, fb) = described self' (ch, fb)) as -> by (unfold described, announced in *; congruence).
      destruct d; [by apply told_submitDrawn| |].
      * apply (told_drop ch); [done..|]. intros. by apply told_finish.
      * apply told_dropped; [by apply (told_close in_session aside_in_session native_in_session ch)|]. intros. by apply told_finish.
    + apply (told_drop ch); [done..|]. intros. by apply told_finish.
  - eapply leaves_bind; [one|]. cbv beta. intros a _. by apply told_fail.
Qed.

Lemma told_renderCopy buffer self : marked self ->
  leaves (announced self) (renderCopy platform buffer self) (fun x => announced x.2) spoken.
Proof.
  intros Hm. unfold renderCopy. destruct (negb (sk_haveInfo self)); [by apply told_finish; [|apply Hm]|].
  eapply (leaves_bind _ _ _ _ _ _ _ announced marked).
  { destruct (is_some _); [by apply leaves_ret|]. by apply (told_sinkTryConnect marked aside_marked). }
  clear self Hm. intros self Hm. pose proof (proj1 Hm) as Hs.
  destruct (sl_ch (sk_link self)) as [ch|] eqn:Ech; [|by apply told_finish].
  destruct (_ || _ || _); [by apply told_error|].
  apply (leaves_bind _ _ _ _ _ _ _ (fun _ => announced self) (fun _ => True)).
  { apply leaves_step. intros [r b]. by case_bool_decide. }
  intros [r fb] _. destruct (_ || _).
  { destruct (sp_errorOnRingFull _); [by apply told_fail|by apply told_finish]. }
  destruct (negb _); [|by apply told_renderSlot].
  apply told_dropped; [by apply (told_sinkDisconnect in_session aside_in_session (countDropped self))|]. intros. by apply told_finish.
Qed.

Lemma told_cancelSession h self : keeps h (cancelSession self) (fun _ => True).
Proof. destruct h as [[[n last] p] w]. unfold cancelSession. destruct (ss_session _); [session|by apply leaves_ret]. Qed.

Lemma told_sinkRender buffer self : in_session self ->
  leaves (announced self) (sinkRender platform buffer self) (fun x => announced x.2) spoken.
Proof.
  intros Hs. unfold sinkRender, sinkRenderImpl.
  apply (leaves_bind _ _ _ _ _ _ _ (fun x => announced x.2) spoken).
  - eapply leaves_bind; [by apply told_sessionBefore|]. cbv beta. intros [[r|] self'] [Hs' Hm]; cbn [fst snd] in *.
    { by apply leaves_ret. }
    specialize (Hm eq_refl).
    apply (leaves_bind _ _ _ _ _ _ _ (fun _ => announced self') (fun _ => True)).
    { unfold generationMoved. walk in_session idtac. }
    intros moved _. destruct (moved : bool); [by apply told_error|].
    pose proof Hs' as (H1 & H2 & H3 & _). cbn [sk_props countReceived set_stats]. rewrite H3.
    by apply (told_renderCopy buffer (countReceived self')).
  - intros [r self'] Hs'. eapply leaves_bind; [|intros a _; by apply leaves_ret].
    destruct (_ && _); [apply told_cancelSession|]. by apply (leaves_ret _ _ _ _ _ _ (fun _ => announced self') (fun _ => True)).
Qed.

(** ** An event *)

Lemma told_sessionEvent event self : in_session self ->
  leaves (announced self) (sessionEvent event self) (fun x => announced x.2) (fun x => in_session x.2).
Proof.
  intros Hs. unfold sessionEvent. destruct (ss_session _) as [i|]; [|by apply leaves_ret].
  destruct event as [segment|pts duration| | | | | |]; try by apply leaves_ret.
  - unfold refuse. destruct (_ || _ || _); [by apply told_error|]. destruct (_ && _); [by apply told_error|by apply leaves_ret].
  - unfold refuse. destruct (ss_haveSegment _); [|by apply told_error].
    destruct (fl_gst_segment_running_time _ _ _ _) as [[] [running|]]; try by apply told_error.
    destruct (_ || _); [by apply told_error|]. unfold sendEvent.
    apply (leaves_bind _ _ _ _ _ _ _ (fun sent => if (sent : bool)
      then announced (on_session self (fun s => set_gapPending s true)) else announced self) (fun _ => True)).
    { eapply leaves_bind; [apply (told_send self _ _ FL_GST_VIDEO_GAP running duration
        (on_session self (fun s => set_gapPending s true))); [by left|done]|]. cbv beta. intros r _. by apply leaves_ret. }
    intros [] _; [by apply leaves_ret|by apply told_error].
  - eapply leaves_bind; [one|cbv beta; intros events _].
    apply (leaves_bind _ _ _ _ _ _ _ (fun _ => announced self) (fun _ => True)).
    { destruct (events : bool); [|by apply leaves_ret]. unfold sendEvent.
      apply (leaves_bind _ _ _ _ _ _ _ (fun _ => announced self) (fun _ => True)); [|intros; by apply leaves_ret].
      apply (leaves_bind _ _ _ _ _ _ _ (fun _ => announced self) (fun _ => True)); [|intros; by apply leaves_ret].
      intros c Hc. pose proof (told_send self i (c_generation (ss_config (sk_session self))) FL_GST_VIDEO_FLUSH 0 0 self) as Hl.
      eapply wp_mono; [by apply Hl; [left|..]|]. cbv beta. intros r c' [H _]. split; [|done]. by destruct (bool_decide _). }
    intros a _. eapply leaves_bind; [session|]. intros b _. by apply leaves_ret.
  - eapply leaves_bind; [session|]. intros b _. by apply leaves_ret.
Qed.

Lemma told_sessionEos self : in_session self ->
  leaves (announced self) (sessionEos self) (fun x => announced x.2) (fun x => in_session x.2).
Proof.
  intros Hs. unfold sessionEos, refuse. destruct (ss_session _) as [i|]; [|by apply leaves_ret].
  eapply leaves_bind; [session|cbv beta; intros r _]. destruct (negb _); [by apply told_error|].
  eapply leaves_bind; [one|cbv beta; intros events _]. destruct (negb events); [by apply leaves_ret|]. unfold sendEvent.
  apply (leaves_bind _ _ _ _ _ _ _ (fun _ => announced self) (fun _ => True)); [|intros; by apply leaves_ret].
  apply (leaves_bind _ _ _ _ _ _ _ (fun _ => announced self) (fun _ => True)); [|intros; by apply leaves_ret].
  intros c Hc. pose proof (told_send self i (c_generation (ss_config (sk_session self))) FL_GST_VIDEO_END
    (if ss_lastPts (sk_session self) <? 0 then 0 else ss_lastPts (sk_session self)) 0 self) as Hl.
  eapply wp_mono; [by apply Hl; [right|..]|]. cbv beta. intros r' c' [H _]. split; [|done]. by destruct (bool_decide _).
Qed.

Lemma told_sinkEvent event self : in_session self ->
  leaves (announced self) (sinkEvent event self) (fun x => announced x.2) (fun x => in_session x.2).
Proof.
  intros Hs. unfold sinkEvent.
  apply (leaves_bind _ _ _ _ _ _ _ (fun x => announced x.2) (fun x => in_session x.2)).
  2: { intros [r self'] Hs'. eapply leaves_bind; [|intros a _; by apply leaves_ret].
       destruct (r : bool); [by apply (leaves_ret _ _ _ _ _ _ (fun _ => announced self') (fun _ => True))|apply told_cancelSession]. }
  unfold sinkEventImpl. eapply leaves_bind; [by apply told_sessionEvent|]. cbv beta. intros [[] self1] H1; cbn [negb snd] in *.
  2: by apply leaves_ret.
  apply (leaves_bind _ _ _ _ _ _ _ (fun x => announced x.2) (fun x => in_session x.2)).
  { destruct event; try by apply leaves_ret.
    - destruct (is_some _); [by apply leaves_ret|]. destruct (_ =? _); by apply leaves_ret.
    - eapply leaves_bind; [by apply told_sessionEos|]. cbv beta. intros [[] self2] H2; cbn [negb snd] in *; [|by apply leaves_ret].
      eapply leaves_bind; [one|]. intros a _. by apply leaves_ret. }
  intros [[] self2] H2; cbn [negb snd] in *; [|by apply leaves_ret].
  eapply leaves_bind; [one|cbv beta; intros parent _]. apply leaves_ret; by destruct parent, event.
Qed.

(** ** A stream *)

Definition started (self : GstFrameLinkSink) : Prop := in_session self /\ announced self = (0, -1, false, None).

Lemma aside_started : aside started.
Proof. split; [|done]. intros s f Hf [Hs Ha]. split; [by apply (proj1 aside_in_session)|done]. Qed.
Lemma native_started self : started self -> sl_native (sk_link self) = None.
Proof. intros [H _]. by apply native_in_session. Qed.

Lemma told_sinkStartSession self :
  is_some (ss_session (sk_session self)) = true -> sp_nativeMemory (sk_props self) = false -> sl_native (sk_link self) = None ->
  keeps (0, -1, false, None) (sinkStartSession self) (fun x => x.1 = true -> started x.2).
Proof.
  intros Hi Hn Hv. unfold sinkStartSession, refuse. destruct (ss_session _) as [i|] eqn:Ei; [|done].
  eapply leaves_bind; [session|cbv beta; intros [r cfg] _]. destruct (_ || _ || _ || _); [by apply told_error|].
  eapply (leaves_bind _ _ _ _ _ _ _ (fun _ => (0, -1, false, None)) (fun x =>
    ss_session (sk_session x.2) = Some i /\ sp_nativeMemory (sk_props x.2) = false /\ sl_native (sk_link x.2) = None)).
  { cbn. destruct (ss_registered _); [by apply leaves_ret|]. eapply leaves_bind; [session|cbv beta; intros r' _].
    destruct (bool_decide _); by apply leaves_ret. }
  intros [[] self'] (H1 & H2 & H3); cbn [negb fst snd] in *; [|by apply leaves_ret].
  apply leaves_ret; [done|]. intros _. unfold started, in_session. cbn. by rewrite H1.
Qed.

Lemma told_sinkStart self :
  is_some (ss_session (sk_session self)) = true -> sp_nativeMemory (sk_props self) = false -> sl_native (sk_link self) = None ->
  keeps (0, -1, false, None) (sinkStart fuel self) (fun x => x.1 = true -> started x.2).
Proof.
  intros Hi Hn Hv. unfold sinkStart, validSessionContext.
  eapply (leaves_bind _ _ _ _ _ _ _ (fun _ => (0, -1, false, None)) (fun _ => True)).
  { eapply leaves_bind; [one|cbv beta; intros context _]. destruct context as [[]|]; try by apply leaves_ret. by apply told_error. }
  intros valid _. destruct (negb valid); [by apply leaves_ret|].
  eapply leaves_bind; [by apply told_sinkStartSession|]. cbv beta. intros [[] s1] H1; cbn [negb fst snd] in *; [|by apply leaves_ret].
  specialize (H1 eq_refl). pose proof H1 as [(_ & _ & Hn1 & _) Ha]. rewrite Hn1. cbn [andb].
  apply (leaves_bind _ _ _ _ _ _ _ (fun _ => (0, -1, false, None)) (fun x => started x.2)).
  { unfold sinkStartLegacy, refuse. destruct (sl_delegated _); [destruct (is_some (sl_ch _)); [by apply leaves_ret|by apply told_error]|].
    destruct (negb _); [by apply leaves_ret|]. eapply leaves_bind; [one|cbv beta; intros now _].
    eapply (leaves_bind _ _ _ _ _ _ _ (fun _ => (0, -1, false, None)) (fun x => started x.2)).
    - intros c Hc. rewrite <- Ha in Hc. eapply wp_mono; [by apply (told_dial started aside_started)|]. cbv beta.
      intros x c' [H2 H3]. split; [|done]. by rewrite (proj2 H3) in H2.
    - intros [[] s2] H2; cbn [snd] in *; [by apply leaves_ret|].
      eapply (leaves_bind _ _ _ _ _ _ _ (fun _ => (0, -1, false, None)) started).
      + intros c Hc. rewrite <- (proj2 H2) in Hc. eapply wp_mono; [by apply (told_sinkDisconnect started aside_started)|].
        cbv beta. intros x c' [H3 H4]. split; [|done]. by rewrite (proj2 H4) in H3.
      + intros s3 H3. by apply told_error. }
  intros [[] s2] H2; cbn [negb snd] in *; [|by apply leaves_ret].
  apply (leaves_bind _ _ _ _ _ _ _ (fun _ => (0, -1, false, None)) (fun _ => True)).
  { destruct (po_applied _); [|by apply leaves_ret]. unfold generationMoved.
    destruct (sl_ch _); [|by apply leaves_ret]. eapply leaves_bind; [one|cbv beta; intros [] _]. by apply leaves_ret. }
  intros [] _; [by apply told_error|]. pose proof H2 as [(Hs2 & _ & Hn2 & _) _]. rewrite Hn2.
  eapply leaves_bind; [by apply (leaves_ret _ _ _ _ _ _ (fun _ => (0, -1, false, None)) (fun x => x = (true, s2)))|].
  intros x ->. cbn [negb]. destruct (ss_session (sk_session s2)); [|by apply leaves_ret].
  eapply leaves_bind; [session|cbv beta; intros r _]. by apply leaves_ret.
Qed.

(** What GStreamer makes of a started element: caps, frames and events. *)
Inductive Streaming :=
| Caps (info : option GstVideoInfo) (features : bool) | Frame (buffer : GstBuffer) | Serialized (event : GstEvent).

Definition stream_one (x : Streaming) self : C GstFrameLinkSink :=
  match x with
  | Caps info features => also (sinkSetCaps info features self)
  | Frame b => also (sinkRender platform b self)
  | Serialized e => also (sinkEvent e self)
  end.

Fixpoint streaming (l : list Streaming) self : C GstFrameLinkSink :=
  match l with
  | [] => ret self
  | x :: l => let! self := stream_one x self in streaming l self
  end.

Lemma told_streaming l self : in_session self -> leaves (announced self) (streaming l self) announced in_session.
Proof.
  revert self. induction l as [|x l IH]; intros self Hs; cbn [streaming]; [by apply leaves_ret|].
  eapply (leaves_bind _ _ _ _ _ _ _ announced in_session); [|by apply IH]. destruct x; cbn [stream_one]; unfold also.
  all: eapply leaves_bind; [first [by apply (told_sinkSetCaps in_session aside_in_session)|by apply told_sinkRender
    |by apply told_sinkEvent]|]; intros [r s] Hs'; by apply leaves_ret.
Qed.
End Stream.

Section Whole.
Context `{E : Element} {NS : NativeSink} {L : NativeSinkLaws}.
Context (platform : Platform) (fuel : nat).

(** C23: In a session the sink's records tell the stream as it is.  From a successful
    start of a sink that copies its frames (native memory off, no native producer),
    whatever caps, frames and events come and however the channel, the session and
    the writes answer: a gap or a barrier names exactly the number of frames
    published before it, the end record exactly all of them and the time of the last
    one; no frame is published without its metadata, set for its slot since the slot
    was acquired and since the last record; and the metadata of the first frame -
    and of the first after every gap or barrier - carries the DISCONT mark.  The
    counters the sink keeps are those numbers. *)
Theorem sink_stream_announced self c self1 c1 l self2 c2 :
  is_some (ss_session (sk_session self)) = true -> sp_nativeMemory (sk_props self) = false -> sl_native (sk_link self) = None ->
  sinkStart fuel self c = Some ((true, self1), c1) -> streaming platform l self1 c1 = Some (self2, c2) ->
  exists log, c_log c2 = c_log c ++ log
    /\ follow announce (0, -1, false, None) log
       = Some (ss_frames (sk_session self2), ss_lastPts (sk_session self2), ss_gapPending (sk_session self2), None).
Proof.
  intros Hi Hn Hv Hstart Hrun.
  pose proof (told_sinkStart fuel (c_log c) (0, -1, false, None) self Hi Hn Hv c) as H1. unfold wp in H1. rewrite Hstart in H1.
  destruct H1 as [H1 H2]; [split; [done|]; by exists []; rewrite app_nil_r|]. specialize (H2 eq_refl). cbn [snd] in H2.
  pose proof (told_streaming platform (c_log c) (0, -1, false, None) l self1 (proj1 H2) c1) as H3. unfold wp in H3.
  rewrite Hrun in H3. rewrite (proj2 H2) in H3. by destruct (H3 H1) as [(_ & log & El & Hf) _]; exists log.
Qed.
End Whole.

(** ** An example: a gap, two frames and the end *)

Definition exSmall : flSessionConfig :=
  mkConfig 1 (exId 7) (exId 9) 3 1 2 (mkVideo FL_FORMAT_BGRA8 4 2 60 1) (exAudio 48000) 1000 4 100 5000 2000.
Definition exCaps1 : flSessionCapabilities :=
  mkCaps 1 1 1 (mkVideo FL_FORMAT_BGRA8 4 2 60 1 :: replicate 7 zeroVideo) (exAudio 48000 :: replicate 7 zeroAudio).

(** The other track is ready, and the event stream is published. *)
Definition exSessionCalls : list Call :=
  [RegisterTrack 2; Configure (Some exSmall) (Some exCaps1) (Some exCaps1); PublishEvents (Some exSmall) (Some 5) true;
   TrackReady 2 3].
Definition exSessionCore : Core unit :=
  mkCore 1 (fun _ => run exSessionCalls ([], newSession 3)) empty tt [].

Definition exChannel : flChannelInfo := mkChannelInfo 6 4 2 FL_FORMAT_BGRA8 3 1.
Definition exPicture : VideoFrame := mkVideoFrame GST_VIDEO_FORMAT_BGRA 4 2 [mkPlaneAt 1000 16].
Definition exWorld : Element := exElement exChannel exPicture (fun _ => true).

Section Example.
#[local] Existing Instance exWorld.
#[local] Existing Instance noNative.

(** The application adopts the channel and sets the session. *)
Definition exSink : GstFrameLinkSink * Core unit :=
  default (sink_init, exSessionCore)
    (callbacks Linux 5 [GstSink.SessionContext (Some (Some 0%nat)); AdoptChannel (Some 7)] sink_init exSessionCore).
Definition exStarted : GstFrameLinkSink * Core unit :=
  match sinkStart 5 exSink.1 exSink.2 with Some ((_, self), c) => (self, c) | None => exSink end.

Definition exTime : GstSegment := mkSegment GST_FORMAT_TIME (Some 1%Q) (Some 1%Q) 0 0 0 UINT64_MAX.
Definition exStream : list Streaming :=
  [Caps (Some (mkVideoInfo GST_VIDEO_FORMAT_BGRA 4 2)) false; Serialized (GST_EVENT_SEGMENT exTime);
   Frame (exBuffer 5); Serialized (GST_EVENT_GAP 10 7); Frame (exBuffer 17); Serialized GST_EVENT_EOS].
Definition exDone : GstFrameLinkSink * Core unit :=
  default exStarted (streaming Linux exStream exStarted.1 exStarted.2).
End Example.

Definition sent (d : Did) : option FlGstVideoEvent := match d with DSent e => Some e | _ => None end.

(** A barrier before frame 0, the gap and its barrier before frame 1, the end of both. *)
Lemma sink_stream_announced_witness :
  (exists log, c_log exDone.2 = c_log exSink.2 ++ log
     /\ follow announce (0, -1, false, None) log
        = Some (ss_frames (sk_session exDone.1), ss_lastPts (sk_session exDone.1), ss_gapPending (sk_session exDone.1), None))
  /\ omap sent (c_log exDone.2)
     = [mkEvent FL_GST_VIDEO_BARRIER 0 5 0; mkEvent FL_GST_VIDEO_GAP 1 10 7; mkEvent FL_GST_VIDEO_BARRIER 1 17 0;
        mkEvent FL_GST_VIDEO_END 2 17 0].
Proof.
  split; [|by vm_compute].
  apply (sink_stream_announced (E := exWorld) (NS := noNative (E := exWorld)) (L := noNative_laws (E := exWorld))
    Linux 5 exSink.1 exSink.2 exStarted.1 exStarted.2 exStream); by vm_compute.
Defined.
