(* ===== verification/GstSource.v ===== *)
(** * The video source element (gst/gstframelink.cpp, framelinksrc)

    A FrameLink consumer as a GStreamer element: it owns the ring, reads a frame at a
    time, and pushes it downstream either as a copy or as native memory under a read
    lease, which the last user of the memory ends.  In a coordinated session it also
    follows the event stream, the clock mapping and the announced end.  Left out: log
    and trace calls, the property and caps tables of the GObject class.

    Fuel: one unit per round of a loop that waits for the ring, the session or the
    event stream; such a loop may wait for ever. *)
From stdpp Require Import gmap.
From Stdlib Require Import QArith.
From S2P Require Import Prelude Api Memory Session EventChannel SessionContext Bytes GstVideo Element.
From S2P Require LinuxImage AndroidState.

(** ** What the platform answers about images *)

(** [GstVideoInfo] of a raw format: the size, and an offset and a stride per plane. *)
Record VideoLayout := mkLayout { vl_size : Z; vl_offset : list Z; vl_stride : list Z }.

Class SourceImages := {
  si_format : list Z -> GstVideoFormat;                 (* gst_video_format_from_string *)
  si_info : GstVideoFormat -> Z -> Z -> option VideoLayout; (* gst_video_info_set_format *)
  si_set_caps : nat -> option (GstVideoFormat * Z * Z * Z) -> bool;  (* gst_base_src_set_caps; none is empty caps *)
  si_readback : nat -> option Plane;                    (* the staging texture, mapped *)
  si_dmabuf : nat -> Z -> flResult * LinuxImage.flDmabuf; (* flImageDmabuf *)
  si_stat : nat -> Z -> option (Z * Z);                 (* fstat: device and inode *)
  si_memory : nat -> bool;                              (* an allocator wraps the image *)
  si_texture : nat -> Z -> bool;                        (* flImageD3D11, with a device *)
  si_pitch : nat -> option Z;                           (* gst_d3d11_memory_get_resource_stride *)
  si_ahb : nat -> Z -> option AndroidState.AhbDesc;     (* flImageAHardwareBuffer, described *)
}.

(** ** The heap: owners and buffers

    A [NativeSourceOwner] keeps its channel until the last [shared_ptr] to it goes:
    one is the element's, one is in each [NativeSourceReader].  A reader belongs to
    the memory of a buffer, which goes with the last reference to it. *)

Record Owner := mkOwner { ow_channel : Z; ow_refs : nat }.
Record NativeSourceReader := mkReader { rd_owner : nat; rd_token : Z }.
Record HeapBuffer := mkHeapBuffer { hb_refs : nat; hb_reader : option NativeSourceReader }.
Record Heap := mkHeap {
  hp_owners : list Owner;
  hp_buffers : gmap nat HeapBuffer;
  hp_nativeOwner : option nat;          (* self->nativeOwner *)
}.

Definition emptyHeap : Heap := mkHeap [] empty None.

(** ** State: the fields of [GstFrameLinkSrc], in groups *)

Record SrcProps := mkSrcProps {
  rp_channel : list Z; rp_format : list Z;
  rp_width : Z; rp_height : Z; rp_fps : Z; rp_poolSize : Z; rp_maxQueueAgeMs : Z;
  rp_nativeMemory : bool; rp_preserveTimestamps : bool; rp_preserveFrameMetadata : bool;
}.
Record SrcSession := mkSrcSession {
  rs_session : option nat; rs_config : flSessionConfig; rs_registered : bool;
  rs_frames : Z; rs_lastPts : Z; rs_pendingGaps : list FlGstVideoEvent; rs_endSeen : bool; rs_sequence : Z;
}.
Record SrcLink := mkSrcLink {
  rl_ch : option Z; rl_delegated : bool; rl_cinfo : flChannelInfo; rl_generation : Z; rl_staging : bool;
}.
(** What the last frame told: [streamGeneration], [lastPts], [lastSequence],
    [haveTimestamp]. *)
Record SrcClock := mkSrcClock { rt_streamGeneration : Z; rt_lastPts : Z; rt_lastSequence : Z; rt_have : bool }.

(** A buffer as it is pushed, and where it is in the heap. *)
Record SrcBuffer := mkSrcBuffer {
  sb_id : nat;
  sb_pts : Z; sb_dts : Z; sb_duration : Z; sb_discont : bool;
  sb_meta : option flFrameMetadata;
  sb_layout : option VideoLayout;       (* the GstVideoMeta of native memory *)
}.

Record GstFrameLinkSrc := mkSrc {
  sr_props : SrcProps; sr_session : SrcSession; sr_link : SrcLink; sr_policy : PolicyState;
  sr_clock : SrcClock; sr_expired : Z; sr_pending : option SrcBuffer;
}.
Implicit Types (self : GstFrameLinkSrc).

Definition put_props self v := mkSrc v (sr_session self) (sr_link self) (sr_policy self) (sr_clock self)
  (sr_expired self) (sr_pending self).
Definition put_session self v := mkSrc (sr_props self) v (sr_link self) (sr_policy self) (sr_clock self)
  (sr_expired self) (sr_pending self).
Definition put_link self v := mkSrc (sr_props self) (sr_session self) v (sr_policy self) (sr_clock self)
  (sr_expired self) (sr_pending self).
Definition put_policy self v := mkSrc (sr_props self) (sr_session self) (sr_link self) v (sr_clock self)
  (sr_expired self) (sr_pending self).
Definition put_clock self v := mkSrc (sr_props self) (sr_session self) (sr_link self) (sr_policy self) v
  (sr_expired self) (sr_pending self).
Definition put_expired self v := mkSrc (sr_props self) (sr_session self) (sr_link self) (sr_policy self)
  (sr_clock self) v (sr_pending self).
Definition put_pending self v := mkSrc (sr_props self) (sr_session self) (sr_link self) (sr_policy self)
  (sr_clock self) (sr_expired self) v.

Definition put_ch self v := let l := sr_link self in
  put_link self (mkSrcLink v (rl_delegated l) (rl_cinfo l) (rl_generation l) (rl_staging l)).
Definition put_staging self v := let l := sr_link self in
  put_link self (mkSrcLink (rl_ch l) (rl_delegated l) (rl_cinfo l) (rl_generation l) v).
Definition put_cinfo self (info : flChannelInfo) := let l := sr_link self in
  put_link self (mkSrcLink (rl_ch l) (rl_delegated l) info (rl_generation l) (rl_staging l)).
Definition put_generation self v := let l := sr_link self in
  put_link self (mkSrcLink (rl_ch l) (rl_delegated l) (rl_cinfo l) v (rl_staging l)).
Definition put_haveTimestamp self v := let t := sr_clock self in
  put_clock self (mkSrcClock (rt_streamGeneration t) (rt_lastPts t) (rt_lastSequence t) v).
Definition put_config self v := let s := sr_session self in
  put_session self (mkSrcSession (rs_session s) v (rs_registered s) (rs_frames s) (rs_lastPts s)
    (rs_pendingGaps s) (rs_endSeen s) (rs_sequence s)).
Definition put_registered self v := let s := sr_session self in
  put_session self (mkSrcSession (rs_session s) (rs_config s) v (rs_frames s) (rs_lastPts s)
    (rs_pendingGaps s) (rs_endSeen s) (rs_sequence s)).
Definition put_frames self frames pts := let s := sr_session self in
  put_session self (mkSrcSession (rs_session s) (rs_config s) (rs_registered s) frames pts
    (rs_pendingGaps s) (rs_endSeen s) (rs_sequence s)).
Definition put_pendingGaps self v := let s := sr_session self in
  put_session self (mkSrcSession (rs_session s) (rs_config s) (rs_registered s) (rs_frames s) (rs_lastPts s)
    v (rs_endSeen s) (rs_sequence s)).
Definition put_endSeen self v := let s := sr_session self in
  put_session self (mkSrcSession (rs_session s) (rs_config s) (rs_registered s) (rs_frames s) (rs_lastPts s)
    (rs_pendingGaps s) v (rs_sequence s)).
Definition put_sequence self v := let s := sr_session self in
  put_session self (mkSrcSession (rs_session s) (rs_config s) (rs_registered s) (rs_frames s) (rs_lastPts s)
    (rs_pendingGaps s) (rs_endSeen s) v).

(** [gst_framelink_src_init]: "framelink", "BGRA", 1280x720 at 30 *)
Definition src_init : GstFrameLinkSrc :=
  mkSrc (mkSrcProps [102; 114; 97; 109; 101; 108; 105; 110; 107] [66; 71; 82; 65] 1280 720 30 4 0 false false false)
    (mkSrcSession None zeroConfig false 0 0 [] false 0)
    (mkSrcLink None false flChannelInfo_zero 0 false)
    (mkPolicyState false 0 noPolicy) (mkSrcClock 0 0 0 false) 0 None.

Section Source.
Context `{E : Element} {SI : SourceImages}.
Context (platform : Platform) (sse41 : bool) (fuel : nat).
Notation C := (C Heap).

(** ** The heap *)

Definition newOwner (ch : Z) : C unit :=
  native (fun n => (tt, mkHeap (hp_owners n ++ [mkOwner ch 1]) (hp_buffers n) (Some (length (hp_owners n))))).

(** Let go of one [shared_ptr]; the last one closes the channel. *)
Definition dropOwner (o : nat) : C unit :=
  let! last := native (fun n =>
    match hp_owners n !! o with
    | Some ow => (if (ow_refs ow =? 1)%nat then Some (ow_channel ow) else None,
                  mkHeap (alter (fun ow => mkOwner (ow_channel ow) (pred (ow_refs ow))) o (hp_owners n)) (hp_buffers n) (hp_nativeOwner n))
    | None => (None, n)
    end) in
  match last with Some ch => flClose ch | None => ret tt end.

(** [delete self->nativeOwner;self->nativeOwner=nullptr] *)
Definition deleteNativeOwner (o : nat) : C unit :=
  native (fun n => (tt, mkHeap (hp_owners n) (hp_buffers n) None)) ;; dropOwner o.

Definition nativeOwner : C (option nat) := native (fun n => (hp_nativeOwner n, n)).

Definition addBuffer (reader : option NativeSourceReader) (n : Heap) : nat * Heap :=
  let b : nat := base.fresh (dom (hp_buffers n) : gset nat) in
  let owners := match reader with
                | Some r => alter (fun ow => mkOwner (ow_channel ow) (S (ow_refs ow))) (rd_owner r) (hp_owners n)
                | None => hp_owners n
                end in
  (b, mkHeap owners (<[b := mkHeapBuffer 1 reader]> (hp_buffers n)) (hp_nativeOwner n)).
Definition newBuffer (reader : option NativeSourceReader) : C nat := native (addBuffer reader).

Definition bufferRef (b : nat) : C unit :=
  native (fun n => (tt, mkHeap (hp_owners n)
    (alter (fun h => mkHeapBuffer (S (hb_refs h)) (hb_reader h)) b (hp_buffers n)) (hp_nativeOwner n))).

(** [~NativeSourceReader()] *)
Definition endReader (r : NativeSourceReader) : C unit :=
  let! channel := native (fun n => (ow_channel <$> hp_owners n !! rd_owner r, n)) in
  match channel with
  | None => ret tt
  | Some ch =>
    let! _ := flCompleteReadLease ch (rd_token r) in
    let! _ := flCollectReadLeases ch in
    dropOwner (rd_owner r)
  end.

(** [gst_buffer_unref] *)
Definition bufferUnref (b : nat) : C unit :=
  let! reader := native (fun n =>
    match hp_buffers n !! b with
    | Some h =>
      if (hb_refs h =? 1)%nat
      then (hb_reader h, mkHeap (hp_owners n) (delete b (hp_buffers n)) (hp_nativeOwner n))
      else (None, mkHeap (hp_owners n) (<[b := mkHeapBuffer (pred (hb_refs h)) (hb_reader h)]> (hp_buffers n)) (hp_nativeOwner n))
    | None => (None, n)
    end) in
  match reader with Some r => endReader r | None => ret tt end.

Definition clearPending self : C GstFrameLinkSrc :=
  match sr_pending self with
  | Some b => bufferUnref (sb_id b) ;; ret (put_pending self None)
  | None => ret self
  end.

(** ** Reading frames back to the ring *)

(** The channel API answers a null channel with FL_INVALID. *)
Definition on_channel {A} self (null : A) (k : Z -> C A) : C A :=
  match rl_ch (sr_link self) with Some ch => k ch | None => ret null end.

Definition srcReleaseFrame (frame : flFrame) self : C flResult :=
  on_channel self FL_INVALID (fun ch =>
    return_if negb (rp_nativeMemory (sr_props self)) with flRelease ch frame ;;
    let! (r, token) := flLeaseFrame ch frame in
    return_if negb (bool_decide (r = FL_OK)) with ret r ;;
    let! r := flCompleteReadLease ch token in
    if bool_decide (r = FL_OK) then flCollectReadLeases ch else ret r).

(** ** Native memory *)

(** The lease, the reader behind the memory, and the buffer around it. *)
Definition leaseBuffer (frame : flFrame) (owner : nat) (layout : VideoLayout) self : C (option SrcBuffer) :=
  on_channel self None (fun ch =>
    let! (r, token) := flLeaseFrame ch frame in
    return_if negb (bool_decide (r = FL_OK)) with ret None ;;
    let! b := newBuffer (Some (mkReader owner token)) in
    ret (Some (mkSrcBuffer b GST_CLOCK_TIME_NONE GST_CLOCK_TIME_NONE GST_CLOCK_TIME_NONE false None (Some layout)))).

Definition planesOf self : nat := if info_format (rl_cinfo (sr_link self)) =? FL_FORMAT_NV12 then 2%nat else 1%nat.
Definition G_MAXINT : Z := 2147483647.
Definition GST_VIDEO_MAX_PLANES : nat := 4.

(** The plane loop: [l] are the planes to come, [bytes] the size so far. *)
Fixpoint dmabufPlanes (l : list nat) (d : LinuxImage.flDmabuf) (first : Z * Z) (height bytes : Z)
  : C (option (Z * list Z * list Z)) :=
  match l with
  | [] => ret (Some (bytes, [], []))
  | i :: l =>
    let fd := nth i (LinuxImage.db_fd d) 0 in
    let stride := nth i (LinuxImage.db_stride d) 0 in
    let offset := nth i (LinuxImage.db_offset d) 0 in
    let! st := ask (fun t => si_stat t fd) in
    return_if negb (bool_decide (st = Some first)) with ret None ;;
    let rows := match i with O => height | S _ => height / 2 end in
    return_if (G_MAXINT <? stride) || (UINT64_MAX <? offset) || negb (truthy rows)
           || ((UINT64_MAX - offset) / rows <? stride) with ret None ;;
    let! rest := dmabufPlanes l d first height (Z.max bytes (offset + stride * rows)) in
    ret (match rest with
         | Some (bytes, offsets, strides) => Some (bytes, offset :: offsets, stride :: strides)
         | None => None
         end)
  end.

Definition padTo (n : nat) (l : list Z) : list Z := l ++ replicate (n - length l) 0.

(** Linux *)
Definition dmabufBuffer (frame : flFrame) (owner : nat) self : C (option SrcBuffer) :=
  let! (r, d) := ask (fun t => si_dmabuf t (fr_image frame)) in
  return_if negb (bool_decide (r = FL_OK)) || negb (LinuxImage.db_modifier d =? 0) with ret None ;;
  return_if negb (LinuxImage.db_planes d =? Z.of_nat (planesOf self)) with ret None ;;
  let fd0 := nth 0 (LinuxImage.db_fd d) 0 in
  let! first := ask (fun t => si_stat t fd0) in
  match first with
  | None => ret None
  | Some first =>
    let! layout := dmabufPlanes (seq 0 (planesOf self)) d first (info_height (rl_cinfo (sr_link self))) 0 in
    match layout with
    | None => ret None
    | Some (bytes, offsets, strides) =>
      let! fd := step el_fd (fun fd => if fd <? 0 then [] else [DNative (NDup fd)]) in
      return_if fd <? 0 with ret None ;;
      let! mem := ask si_memory in
      return_if negb mem with (act [DNative (NCloseFd fd)] ;; ret None) ;;
      leaseBuffer frame owner
        (mkLayout bytes (padTo GST_VIDEO_MAX_PLANES offsets) (padTo GST_VIDEO_MAX_PLANES strides)) self
    end
  end.

(** Windows *)
Definition d3d11Buffer (frame : flFrame) (owner : nat) self : C (option SrcBuffer) :=
  let! texture := ask (fun t => si_texture t (fr_image frame)) in
  return_if negb texture with ret None ;;
  let! mem := ask si_memory in
  return_if negb mem with ret None ;;
  let! pitch := ask si_pitch in
  match pitch with
  | None => ret None
  | Some pitch =>
    return_if negb (truthy pitch) || (G_MAXINT <? pitch) with ret None ;;
    let two := (planesOf self =? 2)%nat in
    leaseBuffer frame owner
      (mkLayout 0 [0; if two then pitch * info_height (rl_cinfo (sr_link self)) else 0; 0; 0]
         [pitch; if two then pitch else 0; 0; 0]) self
  end.

(** Android *)
Definition ahbBuffer (frame : flFrame) (owner : nat) self : C (option SrcBuffer) :=
  let! ahb := ask (fun t => si_ahb t (fr_image frame)) in
  match ahb with
  | None => ret None
  | Some d =>
    let cinfo := rl_cinfo (sr_link self) in
    let rgba := (info_format cinfo =? FL_FORMAT_RGBA8)
                && (AndroidState.ad_format d =? AndroidState.AHARDWAREBUFFER_FORMAT_R8G8B8A8_UNORM) in
    let rgb10 := (info_format cinfo =? FL_FORMAT_RGB10A2)
                 && (AndroidState.ad_format d =? AndroidState.AHARDWAREBUFFER_FORMAT_R10G10B10A2_UNORM) in
    return_if (negb rgba && negb rgb10) || negb (AndroidState.ad_layers d =? 1)
           || (AndroidState.ad_stride d <? AndroidState.ad_width d) || (G_MAXINT / 4 <? AndroidState.ad_stride d)
           || negb (AndroidState.ad_width d =? info_width cinfo) || negb (AndroidState.ad_height d =? info_height cinfo)
      with ret None ;;
    leaseBuffer frame owner
      (mkLayout (AndroidState.ad_stride d * AndroidState.ad_height d * 4) [0; 0; 0; 0]
         [AndroidState.ad_stride d * 4; 0; 0; 0]) self
  end.

Definition srcNativeBuffer (frame : flFrame) self : C (option SrcBuffer) :=
  let! owner := nativeOwner in
  match owner with
  | None => ret None
  | Some o =>
    match platform with
    | Linux => dmabufBuffer frame o self
    | Win32 => d3d11Buffer frame o self
    | Android => ahbBuffer frame o self
    end
  end.

(** ** The event stream *)

Definition generationOf self : Z := c_generation (rs_config (sr_session self)).

(** The loop of [srcVideoEvents]: gaps are put aside, old barriers are passed over. *)
Fixpoint eventLoop (n : nat) i (kind pts deadline : Z) self : C (bool * GstFrameLinkSrc) :=
  match n with
  | O => fun _ => None
  | S n =>
    let! now := g_get_monotonic_time in
    return_if deadline <=? now with ret (false, self) ;;
    let! now := g_get_monotonic_time in
    let wait := wrap32 (Z.max 1 (Z.quot (deadline - now + 999) 1000)) in
    let! (r, event) := fl_gst_session_receive_video_event i (generationOf self) wait in
    return_if negb (bool_decide (r = FL_GST_SESSION_READY)) with ret (false, self) ;;
    return_if ev_kind event =? FL_GST_VIDEO_GAP with
      (let gaps := rs_pendingGaps (sr_session self) in
       if 32 <=? Z.of_nat (length gaps) then ret (false, self)
       else eventLoop n i kind pts deadline (put_pendingGaps self (gaps ++ [event]))) ;;
    return_if (ev_kind event =? kind) && (ev_ptsNs event =? pts) with ret (true, self) ;;
    return_if negb (ev_kind event =? FL_GST_VIDEO_BARRIER) with ret (false, self) ;;
    eventLoop n i kind pts deadline self
  end.

Definition srcVideoEvents i (kind pts : Z) self : C (bool * GstFrameLinkSrc) :=
  let! events := fl_gst_session_has_event_stream i (generationOf self) in
  return_if negb events with ret (true, self) ;;
  let! now := g_get_monotonic_time in
  eventLoop fuel i kind pts (now + c_idleTimeoutMs (rs_config (sr_session self)) * 1000) self.

(** The gaps in [l] go downstream at their mapped time. *)
Fixpoint emitGaps (l : list FlGstVideoEvent) i self : C bool :=
  match l with
  | [] => ret true
  | event :: l =>
    let! (r, mapped) := fl_gst_session_map_running_time i (generationOf self) (ev_ptsNs event) true in
    return_if negb (bool_decide (r = FL_GST_SESSION_READY)) || (INT64_MAX - mapped <? ev_durationNs event)
      with ret false ;;
    let! pushed := step el_push (fun ok : bool => if ok then [DGap mapped (ev_durationNs event)] else []) in
    return_if negb pushed with ret false ;;
    emitGaps l i self
  end.

Definition srcEmitGaps i self : C (bool * GstFrameLinkSrc) :=
  let! ok := emitGaps (rs_pendingGaps (sr_session self)) i self in
  if (ok : bool) then ret (true, put_pendingGaps self []) else ret (false, self).

(** ** Reading a frame *)

(** The wait for the session; [Some r] is an early return. *)
Fixpoint waitSession (n : nat) i (deadline : Z) self : C (option GstFlowReturn) :=
  match n with
  | O => fun _ => None
  | S n =>
    let! flushing := ask el_flushing in
    return_if flushing with ret (Some GST_FLOW_FLUSHING) ;;
    let! now := g_get_monotonic_time in
    let remaining := deadline - now in
    return_if remaining <=? 0 with (element_error ;; ret (Some GST_FLOW_ERROR)) ;;
    let! r := fl_gst_session_wait i (generationOf self) (Z.min 50 ((remaining + 999) / 1000)) in
    return_if bool_decide (r = FL_GST_SESSION_TIMEOUT) with waitSession n i deadline self ;;
    return_if bool_decide (r = FL_GST_SESSION_READY) with ret None ;;
    element_error ;;
    ret (Some GST_FLOW_ERROR)
  end.

(** The session is still the one of this stream, and there is time left. *)
Definition sessionCurrent (idleDeadline : Z) self : C bool :=
  match rs_session (sr_session self) with
  | None => ret true
  | Some i =>
    let! (r, current) := fl_gst_session_get_config i zeroConfig in
    return_if negb (bool_decide (r = FL_GST_SESSION_READY)) || negb (c_generation current =? generationOf self)
      with ret false ;;
    let! now := g_get_monotonic_time in
    ret (now <? idleDeadline)
  end.

(** Video only: the announced end comes with the event stream. *)
Definition takeVideoEnd self : C (bool * GstFrameLinkSrc) :=
  let s := sr_session self in
  match rs_session s with
  | None => ret (true, self)
  | Some i =>
    return_if truthy (c_audioTrackId (rs_config s)) || rs_endSeen s with ret (true, self) ;;
    let! (r, e) := fl_gst_session_peek_video_end i (generationOf self) in
    return_if negb (bool_decide (r = FL_GST_SESSION_READY)) with ret (true, self) ;;
    let! r := fl_gst_session_video_eos i (generationOf self) (ev_afterFrames e)
                (if truthy (ev_afterFrames e) then ev_ptsNs e else -1) in
    return_if negb (bool_decide (r = FL_GST_SESSION_READY)) with ret (false, self) ;;
    ret (true, put_endSeen self true)
  end.

(** The end of the stream, once every announced frame was delivered. *)
Definition terminal self : C (option GstFlowReturn * GstFrameLinkSrc) :=
  let s := sr_session self in
  match rs_session s with
  | None => ret (None, self)
  | Some i =>
    let! (r, frames, pts) := fl_gst_session_wait_video_eos i (generationOf self) 0 in
    return_if negb (bool_decide (r = FL_GST_SESSION_READY)) || (rs_frames s <? frames) with ret (None, self) ;;
    return_if negb (rs_frames s =? frames) || negb (rs_lastPts s =? pts)
      with (element_error ;; ret (Some GST_FLOW_ERROR, self)) ;;
    let! (ok, self) := srcVideoEvents i FL_GST_VIDEO_END (if pts <? 0 then 0 else pts) self in
    return_if negb ok with (element_error ;; ret (Some GST_FLOW_ERROR, self)) ;;
    let! (ok, self) := srcEmitGaps i self in
    return_if negb ok with (element_error ;; ret (Some GST_FLOW_ERROR, self)) ;;
    ret (Some GST_FLOW_EOS, self)
  end.

(** One round of the reading loop, up to the ring. *)
Definition beforeRead (idleDeadline : Z) self : C (option GstFlowReturn * GstFrameLinkSrc) :=
  let! current := sessionCurrent idleDeadline self in
  return_if negb current with (element_error ;; ret (Some GST_FLOW_ERROR, self)) ;;
  let! flushing := ask el_flushing in
  return_if flushing with ret (Some GST_FLOW_FLUSHING, self) ;;
  let! collected := (if rp_nativeMemory (sr_props self)
                     then on_channel self FL_INVALID flCollectReadLeases else ret FL_OK) in
  return_if negb (bool_decide (collected = FL_OK)) && negb (bool_decide (collected = FL_BUSY))
    with (element_error ;; ret (Some GST_FLOW_ERROR, self)) ;;
  let! (ok, self) := takeVideoEnd self in
  return_if negb ok with (element_error ;; ret (Some GST_FLOW_ERROR, self)) ;;
  terminal self.

Inductive Reading := Got (frame : flFrame) | Return (r : GstFlowReturn).

(** The loop [for(;;)]. *)
Fixpoint readFrame (n : nat) (idleDeadline : Z) self : C (Reading * GstFrameLinkSrc) :=
  match n with
  | O => fun _ => None
  | S n =>
    let! (r, self) := beforeRead idleDeadline self in
    match r with
    | Some r => ret (Return r, self)
    | None =>
      let! (r, frame) := on_channel self (FL_INVALID, zeroFrame) (fun ch => flAcquireFrame ch 100) in
      return_if bool_decide (r = FL_OK) with
        (let limit := rp_maxQueueAgeMs (sr_props self) in
         return_if negb (truthy limit) with ret (Got frame, self) ;;
         let! (r, age) := on_channel self (FL_INVALID, 0) (fun ch => flFrameAgeNs ch frame) in
         return_if negb (bool_decide (r = FL_OK))
           with (srcReleaseFrame frame self ;; element_error ;; ret (Return GST_FLOW_ERROR, self)) ;;
         return_if limit * 1000000 <? age
           with (srcReleaseFrame frame self ;;
                 readFrame n idleDeadline (put_expired self (inc64 (sr_expired self)))) ;;
         ret (Got frame, self)) ;;
      return_if bool_decide (r = FL_TIMEOUT)
             || (bool_decide (r = FL_DISCONNECTED) && negb (rl_delegated (sr_link self)))
        with readFrame n idleDeadline self ;;
      element_error ;;
      ret (Return GST_FLOW_ERROR, self)
    end
  end.

(** ** Accepting it *)

(** The frame goes back, and the stream ends with an error. *)
Definition reject {A} (frame : flFrame) self : C (option A * GstFrameLinkSrc) :=
  srcReleaseFrame frame self ;; element_error ;; ret (None, self).

Definition srcMakeCaps self : option (GstVideoFormat * Z * Z * Z) :=
  let p := sr_props self in
  let l := sr_link self in
  let '(fmt, w, h) :=
    if is_some (rl_ch l) then (toGstFormat (info_format (rl_cinfo l)), info_width (rl_cinfo l), info_height (rl_cinfo l))
    else (si_format (rp_format p), rp_width p, rp_height p) in
  return_if bool_decide (fmt = GST_VIDEO_FORMAT_UNKNOWN) with None ;;
  Some (fmt, w, h, if rp_preserveFrameMetadata p then 0 else rp_fps p).

Definition srcDropStaging self : GstFrameLinkSrc := put_staging self false.

(** Timestamp, metadata, generation, order and barrier of a frame. *)
Definition acceptFrame (frame : flFrame) self : C (option flFrameMetadata * GstFrameLinkSrc) :=
  let p := sr_props self in
  return_if (rp_preserveTimestamps p || rp_preserveFrameMetadata p) && (fr_ptsNs frame <? 0) with reject frame self ;;
  let! (r, metadata) :=
    (if rp_preserveFrameMetadata p
     then on_channel self (FL_INVALID, zeroMetadata) (fun ch => flGetFrameMetadata ch frame)
     else ret (FL_OK, zeroMetadata)) in
  return_if negb (bool_decide (r = FL_OK)) with reject frame self ;;
  match rs_session (sr_session self) with
  | None => ret (Some metadata, self)
  | Some i =>
    return_if negb (md_streamGeneration metadata =? generationOf self) with reject frame self ;;
    return_if negb (fr_sequence frame =? inc64 (rs_sequence (sr_session self))) with reject frame self ;;
    let self := put_sequence self (fr_sequence frame) in
    return_if negb (has_flag (md_flags metadata) FL_FRAME_DISCONT) with ret (Some metadata, self) ;;
    let! (ok, self) := srcVideoEvents i FL_GST_VIDEO_BARRIER (fr_ptsNs frame) self in
    return_if negb ok with reject frame self ;;
    ret (Some metadata, self)
  end.

(** A ring of another generation: new caps, unless a policy or a session fixed them.
    The answer of a query that fails is all zero. *)
Definition followRing (frame : flFrame) self : C (option unit * GstFrameLinkSrc) :=
  let! (r, info) := on_channel self (FL_INVALID, flChannelInfo_zero) flQuery in
  let now := if bool_decide (r = FL_OK) then info else flChannelInfo_zero in
  return_if info_generation now =? rl_generation (sr_link self) with ret (Some tt, self) ;;
  return_if po_applied (sr_policy self) || is_some (rs_session (sr_session self)) with reject frame self ;;
  let self := put_haveTimestamp (put_generation (put_cinfo self now) (info_generation now)) false in
  let self := if is_win platform then srcDropStaging self else self in
  let! ok := ask (fun t => si_set_caps t (srcMakeCaps self)) in
  return_if negb ok with reject frame self ;;
  ret (Some tt, self).

(** ** The pixels *)

(** The plane loop of the NV12 copy out of a mapped view. *)
Fixpoint readPlanes (p : list nat) (map : Z) (layout : VideoLayout) (view : flMappedImage) (w h : Z) : C bool :=
  match p with
  | [] => ret true
  | i :: p =>
    let v := nth i (mi_plane view) zeroPlane in
    return_if (mp_stride v <? w) || negb (mp_rows v =? (match i with O => h | S _ => h / 2 end)) with ret false ;;
    memory (copyPlane (map + nth i (vl_offset layout) 0) (nth i (vl_stride layout) 0)
              (mp_pixels v) (mp_stride v) w (mp_rows v)) ;;
    readPlanes p map layout view w h
  end.

(** [sse41]: x86 with streaming loads; elsewhere [wcCopy] copies the rows. *)
Definition readPosix (image : Z) (map : Z) (layout : VideoLayout) self : C bool :=
  let cinfo := rl_cinfo (sr_link self) in
  let w := info_width cinfo in
  let h := info_height cinfo in
  if info_format cinfo =? FL_FORMAT_NV12 then
    let! (r, view) := flImageMapPlanes image in
    return_if negb (bool_decide (r = FL_OK)) with ret false ;;
    memory (memset map (vl_size layout)) ;;
    let! filled := (if mi_planes view =? 2 then readPlanes [0%nat; 1%nat] map layout view w h else ret false) in
    flImageUnmap image ;;
    ret filled
  else
    let! (r, src) := flImageMap image in
    return_if negb (bool_decide (r = FL_OK)) with ret false ;;
    memory_or_fault (wcCopy sse41 map (w * 4) (pl_data src) (pl_stride src) w h) ;;
    flImageUnmap image ;;
    ret true.

(** The staging texture is made once per ring, and read back. *)
Definition readWin32 (map : Z) (layout : VideoLayout) self : C (bool * GstFrameLinkSrc) :=
  let cinfo := rl_cinfo (sr_link self) in
  let w := info_width cinfo in
  let h := info_height cinfo in
  let! device := ask el_ok in
  return_if negb device with ret (false, self) ;;
  let! staging := (if rl_staging (sr_link self) then ret true else ask el_ok) in
  let self := put_staging self staging in
  return_if negb staging with ret (false, self) ;;
  let! ms := ask si_readback in
  match ms with
  | None => ret (false, self)
  | Some ms =>
    (if info_format cinfo =? FL_FORMAT_NV12 then
       memory (memset map (vl_size layout)) ;;
       memory (copyPlane (map + nth 0 (vl_offset layout) 0) (nth 0 (vl_stride layout) 0) (pl_data ms) (pl_stride ms) w h) ;;
       memory (copyPlane (map + nth 1 (vl_offset layout) 0) (nth 1 (vl_stride layout) 0)
                 (pl_data ms + pl_stride ms * h) (pl_stride ms) w (h / 2))
     else memory (copyPixels map (w * 4) (pl_data ms) (pl_stride ms) w h false)) ;;
    ret (true, self)
  end.

(** A buffer of its own, filled; the frame goes back either way. *)
Definition copyFrame (frame : flFrame) (layout : VideoLayout) self : C (option SrcBuffer * GstFrameLinkSrc) :=
  let! b := newBuffer None in
  let! map := ask el_buffer in
  let! (filled, self) :=
    match map with
    | None => ret (false, self)
    | Some map =>
      if is_win platform then readWin32 (pl_data map) layout self
      else let! filled := readPosix (fr_image frame) (pl_data map) layout self in ret (filled, self)
    end in
  srcReleaseFrame frame self ;;
  return_if negb filled with (bufferUnref b ;; element_error ;; ret (None, self)) ;;
  ret (Some (mkSrcBuffer b GST_CLOCK_TIME_NONE GST_CLOCK_TIME_NONE GST_CLOCK_TIME_NONE false None None), self).

(** ** Times and marks *)

Definition GST_SECOND : Z := 1000000000.

(** What a frame says that is not the next one of the last: [DISCONT]. *)
Definition discontinuous (frame : flFrame) (metadata : flFrameMetadata) self : bool :=
  let t := sr_clock self in
  negb (rt_have t) || (fr_ptsNs frame <=? rt_lastPts t) || negb (fr_sequence frame =? inc64 (rt_lastSequence t))
  || (rp_preserveFrameMetadata (sr_props self) && negb (md_streamGeneration metadata =? rt_streamGeneration t)).

(** Sequence numbers that were skipped. *)
Definition sequenceGap (frame : flFrame) (metadata : flFrameMetadata) self : bool :=
  let t := sr_clock self in
  (rt_lastSequence t <? fr_sequence frame) && (1 <? fr_sequence frame - rt_lastSequence t)
  && (negb (rt_have t) || negb (rp_preserveFrameMetadata (sr_props self))
      || (md_streamGeneration metadata =? rt_streamGeneration t)).

Definition optional (flags flag v : Z) : Z := if has_flag flags flag then v else GST_CLOCK_TIME_NONE.

(** The buffer of the frame, stamped, and the clock after it. *)
Definition stamp (frame : flFrame) (metadata : flFrameMetadata) (buf : SrcBuffer) self : SrcBuffer * GstFrameLinkSrc :=
  let p := sr_props self in
  let duration := if negb (rp_preserveFrameMetadata p) && (0 <? rp_fps p) then GST_SECOND / rp_fps p else sb_duration buf in
  let stamps := rp_preserveTimestamps p || rp_preserveFrameMetadata p in
  let discont := stamps && discontinuous frame metadata self in
  let pts := if stamps then fr_ptsNs frame else sb_pts buf in
  let t := sr_clock self in
  let self := if stamps
              then put_clock self (mkSrcClock (rt_streamGeneration t) (fr_ptsNs frame) (fr_sequence frame) true)
              else self in
  return_if negb (rp_preserveFrameMetadata p)
    with (mkSrcBuffer (sb_id buf) pts (sb_dts buf) duration discont None (sb_layout buf), self) ;;
  let discont := discont || has_flag (md_flags metadata) FL_FRAME_DISCONT in
  let metadata := if discont then set_flags metadata (Z.lor (md_flags metadata) FL_FRAME_DISCONT) else metadata in
  let flags := md_flags metadata in
  (mkSrcBuffer (sb_id buf) pts (optional flags FL_FRAME_HAS_DTS (md_dtsNs metadata))
     (optional flags FL_FRAME_HAS_DURATION (md_durationNs metadata)) discont (Some metadata) (sb_layout buf),
   put_clock self (mkSrcClock (md_streamGeneration metadata) (fr_ptsNs frame) (fr_sequence frame) true)).

Definition set_dtsNs (md : flFrameMetadata) (dts : Z) : flFrameMetadata :=
  mkMetadata (md_version md) (md_flags md) dts (md_durationNs md) (md_streamGeneration md)
    (md_reserved0 md) (md_reserved1 md).

(** The buffer is given up; [report] is whether an error is posted. *)
Definition giveBack {A} (report : bool) (buf : SrcBuffer) self : C (option A * GstFrameLinkSrc) :=
  bufferUnref (sb_id buf) ;; (if report then element_error else ret tt) ;; ret (None, self).

(** In a session: the frame is counted, and its times are mapped to this clock. *)
Definition mapTimes (frame : flFrame) (buf : SrcBuffer) self : C (option SrcBuffer * GstFrameLinkSrc) :=
  match rs_session (sr_session self) with
  | None => ret (Some buf, self)
  | Some i =>
    let self := put_frames self (inc64 (rs_frames (sr_session self))) (fr_ptsNs frame) in
    let! (r, pts) := fl_gst_session_map_running_time i (generationOf self) (sb_pts buf) true in
    return_if negb (bool_decide (r = FL_GST_SESSION_READY)) with giveBack true buf self ;;
    return_if clockValid (sb_duration buf) && (INT64_MAX - pts <? sb_duration buf) with giveBack true buf self ;;
    let buf := mkSrcBuffer (sb_id buf) pts (sb_dts buf) (sb_duration buf) (sb_discont buf) (sb_meta buf) (sb_layout buf) in
    return_if negb (clockValid (sb_dts buf)) with ret (Some buf, self) ;;
    let! (r, dts) := fl_gst_session_map_running_time i (generationOf self) (sb_dts buf) true in
    return_if negb (bool_decide (r = FL_GST_SESSION_READY)) with giveBack false buf self ;;
    ret (Some (mkSrcBuffer (sb_id buf) (sb_pts buf) dts (sb_duration buf) (sb_discont buf)
                 (flip set_dtsNs dts <$> sb_meta buf) (sb_layout buf)), self)
  end.

(** ** [create] *)

Notation Created := (GstFlowReturn * option SrcBuffer * GstFrameLinkSrc)%type.
Definition noBuffer (r : GstFlowReturn) self : C Created := ret (r, None, self).

(** The buffer of an accepted frame, native or copied. *)
Definition makeBuffer (frame : flFrame) (layout : VideoLayout) self : C (option SrcBuffer * GstFrameLinkSrc) :=
  if rp_nativeMemory (sr_props self) then
    let! buf := srcNativeBuffer frame self in
    match buf with
    | Some buf => ret (Some buf, self)
    | None => reject frame self
    end
  else copyFrame frame layout self.

(** From the buffer on. *)
Definition finishBuffer (frame : flFrame) (metadata : flFrameMetadata) (buf : SrcBuffer) self
  : C (option SrcBuffer * GstFrameLinkSrc) :=
  let p := sr_props self in
  let t := sr_clock self in
  act (if (rp_preserveTimestamps p || rp_preserveFrameMetadata p) && sequenceGap frame metadata self
       then [DMissing (rt_lastSequence t) (fr_sequence frame) (fr_sequence frame - rt_lastSequence t - 1)] else []) ;;
  let '(buf, self) := stamp frame metadata buf self in
  let! meta := (if rp_preserveFrameMetadata p then ask el_ok else ret true) in
  return_if negb meta with giveBack false buf self ;;
  mapTimes frame buf self.

Definition takeFrame (frame : flFrame) self : C Created :=
  let! (metadata, self) := acceptFrame frame self in
  match metadata with
  | None => noBuffer GST_FLOW_ERROR self
  | Some metadata =>
    let! (ok, self) := followRing frame self in
    match ok with
    | None => noBuffer GST_FLOW_ERROR self
    | Some _ =>
      let cinfo := rl_cinfo (sr_link self) in
      match si_info (toGstFormat (info_format cinfo)) (info_width cinfo) (info_height cinfo) with
      | None => srcReleaseFrame frame self ;; noBuffer GST_FLOW_NOT_NEGOTIATED self
      | Some layout =>
        let! (buf, self) := makeBuffer frame layout self in
        match buf with
        | None => noBuffer GST_FLOW_ERROR self
        | Some buf =>
          let! (buf, self) := finishBuffer frame metadata buf self in
          match buf with
          | None => noBuffer GST_FLOW_ERROR self
          | Some buf =>
            return_if negb (is_some (rs_session (sr_session self))) with ret (GST_FLOW_OK, Some buf, self) ;;
            bufferRef (sb_id buf) ;;
            ret (GST_FLOW_OK, Some buf, put_pending self (Some buf))
          end
        end
      end
    end
  end.

Definition srcCreateImpl self : C Created :=
  match sr_pending self with
  | Some b => bufferRef (sb_id b) ;; ret (GST_FLOW_OK, Some b, self)
  | None =>
    let! waited :=
      match rs_session (sr_session self) with
      | None => ret None
      | Some i =>
        let! now := g_get_monotonic_time in
        waitSession fuel i (now + c_connectTimeoutMs (rs_config (sr_session self)) * 1000) self
      end in
    match waited with
    | Some r => noBuffer r self
    | None =>
      let! now := g_get_monotonic_time in
      let! (reading, self) := readFrame fuel (now + c_idleTimeoutMs (rs_config (sr_session self)) * 1000) self in
      match reading with
      | Return r => noBuffer r self
      | Got frame => takeFrame frame self
      end
    end
  end.

Definition cancelSource self : C unit :=
  match rs_session (sr_session self) with Some i => fl_gst_session_cancel i | None => ret tt end.

Definition srcCreate self : C Created :=
  let! (result, buf, self) := srcCreateImpl self in
  (if negb (bool_decide (result = GST_FLOW_OK)) && negb (bool_decide (result = GST_FLOW_FLUSHING))
      && negb (bool_decide (result = GST_FLOW_EOS)) then cancelSource self else ret tt) ;;
  ret (result, buf, self).

(** The probe on the source pad: pending gaps first, then the buffer is delivered.
    [false] drops it. *)
Definition srcProbe self : C (bool * GstFrameLinkSrc) :=
  let! (ok, self) :=
    match rs_session (sr_session self) with
    | None => ret (true, self)
    | Some i => srcEmitGaps i self
    end in
  return_if negb ok with (element_error ;; ret (false, self)) ;;
  let! self := clearPending self in
  ret (true, self).

(** ** Starting and stopping *)

Definition refuseSrc self : C (bool * GstFrameLinkSrc) := element_error ;; ret (false, self).

(** [if(self->session){...}] of [srcStart] *)
Definition srcStartSession self : C (bool * GstFrameLinkSrc) :=
  match rs_session (sr_session self) with
  | None => ret (true, self)
  | Some i =>
    let! (r, cfg) := fl_gst_session_get_config i (rs_config (sr_session self)) in
    let self := put_config self cfg in
    let p := sr_props self in
    let v := c_video cfg in
    return_if negb (bool_decide (r = FL_GST_SESSION_READY)) || negb (truthy (c_videoTrackId cfg))
           || negb (rl_delegated (sr_link self))
           || negb (rp_width p =? v_width v) || negb (rp_height p =? v_height v)
           || negb (toFlFormat (si_format (rp_format p)) =? v_format v)
           || (po_applied (sr_policy self)
               && negb (mp_sessionGeneration (po_policy (sr_policy self)) =? c_generation cfg))
      with refuseSrc self ;;
    let! (ok, self) :=
      (if rs_registered (sr_session self) then ret (true, self)
       else let! r := fl_gst_session_register_track i 1 in
            if bool_decide (r = FL_GST_SESSION_READY) then ret (true, put_registered self true) else ret (false, self)) in
    return_if negb ok with ret (false, self) ;;
    let p := sr_props self in
    let self := put_props self (mkSrcProps (rp_channel p) (rp_format p) (rp_width p) (rp_height p) (rp_fps p)
                  (rp_poolSize p) (rp_maxQueueAgeMs p) (rp_nativeMemory p) true true) in
    let t := sr_clock self in
    let self := put_clock self (mkSrcClock (c_generation cfg) (rt_lastPts t) (rt_lastSequence t) (rt_have t)) in
    ret (true, put_sequence (put_endSeen (put_pendingGaps (put_frames self 0 (-1)) []) false) 0)
  end.

(** Native memory out of an adopted channel. *)
Definition nativeAdoption self : C bool :=
  return_if negb (rp_nativeMemory (sr_props self) && rl_delegated (sr_link self)) with ret true ;;
  let! (r, flags) := on_channel self (FL_INVALID, 0) flQueryConsumerFlags in
  ret (bool_decide (r = FL_OK) && has_flag flags FL_DEFER_RELEASE && negb (has_flag flags FL_GPU_SYNC)).

Definition RGBA : list Z := [82; 71; 66; 65].
Definition RGB10A2_LE : list Z := [82; 71; 66; 49; 48; 65; 50; 95; 76; 69].

(** The ring: adopted, or a new one. *)
Definition openRing self : C (flResult * GstFrameLinkSrc) :=
  let p := sr_props self in
  if rl_delegated (sr_link self) then
    ret (if is_some (rl_ch (sr_link self)) then FL_OK else FL_DISCONNECTED, self)
  else
    let flags := Z.lor (Z.lor (Z.lor FL_MAP_CPU (if rp_nativeMemory p then FL_DEFER_RELEASE else 0))
                          (if truthy (rp_maxQueueAgeMs p) then FL_TRACK_ARRIVAL else 0))
                   (if rp_preserveFrameMetadata p then FL_REQUIRE_FRAME_METADATA else 0) in
    let! (r, ch) := flCreateChannelEx (rp_channel p) (rp_width p) (rp_height p)
                      (toFlFormat (si_format (rp_format p))) (rp_poolSize p) flags in
    ret (r, put_ch self ch).

(** The rest of [srcStart], once the ring is there. *)
Definition useRing self : C (bool * GstFrameLinkSrc) :=
  let! (r, info) := on_channel self (FL_INVALID, flChannelInfo_zero) flQuery in
  return_if negb (bool_decide (r = FL_OK)) with ret (false, self) ;;
  let self := put_cinfo self info in
  return_if po_applied (sr_policy self) && negb (info_generation info =? po_generation (sr_policy self))
    with refuseSrc self ;;
  (if rp_nativeMemory (sr_props self) then on_channel self tt newOwner else ret tt) ;;
  let self := put_expired (put_haveTimestamp (put_generation self (info_generation info)) false) 0 in
  match rs_session (sr_session self) with
  | None => ret (true, self)
  | Some i =>
    let! r := fl_gst_session_track_ready i 1 (generationOf self) in
    ret (bool_decide (r = FL_GST_SESSION_READY), self)
  end.

Definition srcStart self : C (bool * GstFrameLinkSrc) :=
  let! valid := validSessionContext in
  return_if negb valid with ret (false, self) ;;
  let! (ok, self) := srcStartSession self in
  return_if negb ok with ret (false, self) ;;
  let! ok := nativeAdoption self in
  return_if negb ok with refuseSrc self ;;
  return_if bool_decide (platform = Android) && rp_nativeMemory (sr_props self)
         && negb (bool_decide (rp_format (sr_props self) = RGBA))
         && negb (bool_decide (rp_format (sr_props self) = RGB10A2_LE)) with refuseSrc self ;;
  let! (r, self) := openRing self in
  return_if negb (bool_decide (r = FL_OK)) with refuseSrc self ;;
  useRing self.

(** The native owner goes with its channel; a channel of its own is closed. *)
Definition closeRing self : C GstFrameLinkSrc :=
  let! owner := nativeOwner in
  let! self :=
    match owner with
    | Some o => deleteNativeOwner o ;; ret (put_ch self None)
    | None => ret self
    end in
  match rl_ch (sr_link self) with
  | Some ch => flClose ch ;; ret (put_ch self None)
  | None => ret self
  end.

Definition srcStop self : C GstFrameLinkSrc :=
  let! self := clearPending self in
  cancelSource self ;;
  closeRing (if is_win platform then srcDropStaging self else self).

Definition srcFinalize self : C GstFrameLinkSrc :=
  let! self := clearPending self in
  cancelSource self ;;
  closeRing self.

(** ** Set-up by the application *)

Definition srcAdoptChannel (channel : option Z) self : C (bool * GstFrameLinkSrc) :=
  let! state := gst_state in
  match channel with
  | None => ret (false, self)
  | Some ch =>
    let p := sr_props self in
    return_if negb (state =? GST_STATE_NULL) || is_some (rl_ch (sr_link self)) || po_applied (sr_policy self)
      with ret (false, self) ;;
    let! (r, info) := flQuery ch in
    return_if negb (bool_decide (r = FL_OK)) with ret (false, self) ;;
    return_if negb (info_width info =? rp_width p) || negb (info_height info =? rp_height p)
           || negb (info_format info =? toFlFormat (si_format (rp_format p))) with ret (false, self) ;;
    let! (r, flags) := flQueryConsumerFlags ch in
    return_if negb (bool_decide (r = FL_OK)) with ret (false, self) ;;
    return_if rp_nativeMemory p && (negb (has_flag flags FL_DEFER_RELEASE) || has_flag flags FL_GPU_SYNC)
      with ret (false, self) ;;
    return_if truthy (rp_maxQueueAgeMs p) && negb (has_flag flags FL_TRACK_ARRIVAL) with ret (false, self) ;;
    return_if rp_preserveFrameMetadata p && negb (has_flag flags FL_REQUIRE_FRAME_METADATA) with ret (false, self) ;;
    act [DAdopt ch] ;;
    let l := sr_link self in
    ret (true, put_link self (mkSrcLink (Some ch) true info (rl_generation l) (rl_staging l)))
  end.

Definition srcApplyMemoryPolicy (policy : option GstFrameLinkMemoryPolicy) self : C (bool * GstFrameLinkSrc) :=
  let! state := gst_state in
  match rl_ch (sr_link self), policy with
  | Some ch, Some p =>
    return_if negb (state =? GST_STATE_NULL) || negb (rl_delegated (sr_link self)) || po_applied (sr_policy self)
           || negb (validMemoryPolicy platform policy (rp_nativeMemory (sr_props self)) false) with ret (false, self) ;;
    let! (r, info) := flQuery ch in
    return_if negb (bool_decide (r = FL_OK)) with ret (false, self) ;;
    ret (true, put_policy self (mkPolicyState true (info_generation info) p))
  | _, _ => ret (false, self)
  end.

(** [contract] is whether the query names the reader's completion contract. *)
Definition srcDecideAllocation (contract : bool) (requirements : option (list Z)) self : C bool :=
  return_if rp_nativeMemory (sr_props self) && po_applied (sr_policy self)
         && (negb contract || negb (allocationMemoryPolicy requirements (po_policy (sr_policy self))))
    with (element_error ;; ret false) ;;
  ask el_ok.

Definition srcSessionContext (context : option (option nat)) self : C GstFrameLinkSrc :=
  match context with
  | Some (Some i) =>
    let! state := gst_state in
    return_if negb (state =? GST_STATE_NULL) with (element_error ;; ret self) ;;
    let s := sr_session self in
    ret (if bool_decide (rs_session s = Some i) then self
         else put_session self (mkSrcSession (Some i) (rs_config s) false (rs_frames s) (rs_lastPts s)
                (rs_pendingGaps s) (rs_endSeen s) (rs_sequence s)))
  | _ => ret self
  end.

Inductive SrcProperty :=
| SRC_PROP_CHANNEL (v : list Z) | SRC_PROP_WIDTH (v : Z) | SRC_PROP_HEIGHT (v : Z) | SRC_PROP_FPS (v : Z)
| SRC_PROP_FORMAT (v : option (list Z)) | SRC_PROP_PRESERVE_TIMESTAMPS (v : bool) | SRC_PROP_FRAME_METADATA (v : bool)
| SRC_PROP_POOL_SIZE (v : Z) | SRC_PROP_MAX_QUEUE_AGE (v : Z) | SRC_PROP_NATIVE_MEMORY (v : bool).

Definition with_props (p : SrcProps) (prop : SrcProperty) : SrcProps :=
  let 'mkSrcProps channel format width height fps pool age native stamps metadata := p in
  match prop with
  | SRC_PROP_CHANNEL v => mkSrcProps v format width height fps pool age native stamps metadata
  | SRC_PROP_FORMAT v => mkSrcProps channel (default [66; 71; 82; 65] v) width height fps pool age native stamps metadata
  | SRC_PROP_WIDTH v => mkSrcProps channel format v height fps pool age native stamps metadata
  | SRC_PROP_HEIGHT v => mkSrcProps channel format width v fps pool age native stamps metadata
  | SRC_PROP_FPS v => mkSrcProps channel format width height v pool age native stamps metadata
  | SRC_PROP_POOL_SIZE v => mkSrcProps channel format width height fps v age native stamps metadata
  | SRC_PROP_MAX_QUEUE_AGE v => mkSrcProps channel format width height fps pool v native stamps metadata
  | SRC_PROP_NATIVE_MEMORY v => mkSrcProps channel format width height fps pool age v stamps metadata
  | SRC_PROP_PRESERVE_TIMESTAMPS v => mkSrcProps channel format width height fps pool age native v metadata
  | SRC_PROP_FRAME_METADATA v => mkSrcProps channel format width height fps pool age native stamps v
  end.

Definition srcSetProperty (prop : SrcProperty) self : C GstFrameLinkSrc :=
  let! state := gst_state in
  return_if is_some (rs_session (sr_session self)) && negb (state =? GST_STATE_NULL) with ret self ;;
  return_if po_applied (sr_policy self) with ret self ;;
  let running := GST_STATE_READY <? state in
  let open := is_some (rl_ch (sr_link self)) in
  let refused :=
    match prop with
    | SRC_PROP_NATIVE_MEMORY _ | SRC_PROP_MAX_QUEUE_AGE _ | SRC_PROP_POOL_SIZE _ | SRC_PROP_FRAME_METADATA _ =>
      running || open
    | SRC_PROP_FORMAT _ => open
    | SRC_PROP_PRESERVE_TIMESTAMPS _ => running
    | SRC_PROP_CHANNEL _ | SRC_PROP_WIDTH _ | SRC_PROP_HEIGHT _ | SRC_PROP_FPS _ => false
    end in
  ret (if refused then self else put_props self (with_props (sr_props self) prop)).

(** ** A life of the element

    The base class starts an element that is not started, stops one that is, and asks
    it for frames in between.  [Unref] is the pipeline letting go of a buffer it got:
    it has one reference per delivery.  The application hands over channels that the
    element does not have already. *)

Inductive SrcCallback :=
| SrcStart | SrcCreate | SrcProbe | SrcStop | SrcFinalize | Unref (b : nat)
| SrcAdoptChannel (channel : option Z) | SrcApplyMemoryPolicy (policy : option GstFrameLinkMemoryPolicy)
| SrcDecideAllocation (contract : bool) (requirements : option (list Z))
| SrcSessionContext (context : option (option nat)) | SrcSetProperty (prop : SrcProperty).

Definition keepsPending (b : nat) self : bool :=
  match sr_pending self with Some p => (sb_id p =? b)%nat | None => false end.

(** A reference the element does not keep for itself. *)
Definition pipelineHolds (b : nat) self : C bool :=
  native (fun n => (match hp_buffers n !! b with
                    | Some h => ((if keepsPending b self then 1 else 0) <? hb_refs h)%nat
                    | None => false
                    end, n)).

(** Whether it is started, and what it delivered. *)
Record SrcLife := mkLife { lf_started : bool; lf_self : GstFrameLinkSrc; lf_out : list SrcBuffer }.
Definition srcLife_init : SrcLife := mkLife false src_init [].

Definition still (life : SrcLife) (m : C GstFrameLinkSrc) : C SrcLife :=
  let! self := m in ret (mkLife (lf_started life) self (lf_out life)).
Definition second {A B} (m : C (A * B)) : C B := let! (_, b) := m in ret b.

Definition srcCallback (k : SrcCallback) (life : SrcLife) : C SrcLife :=
  let self := lf_self life in
  match k, lf_started life with
  | SrcStart, false => let! (ok, self) := srcStart self in ret (mkLife ok self (lf_out life))
  | SrcCreate, true =>
    let! (_, buf, self) := srcCreate self in
    ret (mkLife true self (lf_out life ++ match buf with Some b => [b] | None => [] end))
  | SrcProbe, true => still life (second (srcProbe self))
  | SrcStop, true => let! self := srcStop self in ret (mkLife false self (lf_out life))
  | SrcFinalize, false => still life (srcFinalize self)
  | Unref b, _ =>
    let! holds := pipelineHolds b self in
    return_if negb holds with (fun _ => None) ;;
    bufferUnref b ;;
    ret life
  | SrcAdoptChannel ch, _ =>
    let! own := (fun c => Some (match ch with Some ch => bool_decide (ch ∉ opens (c_log c)) | None => true end, c)) in
    return_if negb own with (fun _ => None) ;;
    still life (second (srcAdoptChannel ch self))
  | SrcApplyMemoryPolicy p, _ => still life (second (srcApplyMemoryPolicy p self))
  | SrcDecideAllocation contract requirements, _ => srcDecideAllocation contract requirements self ;; ret life
  | SrcSessionContext ctx, _ => still life (srcSessionContext ctx self)
  | SrcSetProperty p, _ => still life (srcSetProperty p self)
  | _, _ => fun _ => None
  end.

Fixpoint srcCallbacks (l : list SrcCallback) (life : SrcLife) : C SrcLife :=
  match l with
  | [] => ret life
  | k :: l => let! life := srcCallback k life in srcCallbacks l life
  end.
End Source.
