(* ===== verification/GstSourceSafe.v ===== *)
(** * What the video source holds (GstSource.v)

    Whatever the base class, the pipeline and the application call and whatever the
    ring and the session answer: a frame that was read is given back or leased, a
    lease lasts as long as the buffer that reads through it, and a channel is closed
    when nothing reads from it. *)
From stdpp Require Import gmap.
From S2P Require Import Prelude Api Memory Session EventChannel SessionContext Bytes GstVideo Element GstSource.

(** ** What is held of the rings *)

Record Ring := mkRing {
  ri_open : list Z;                (* channels *)
  ri_reads : list (Z * flFrame);   (* frames in the element's hands *)
  ri_refused : list (Z * flFrame); (* frames the ring would not lease; they go with the channel *)
  ri_leases : list (Z * Z);        (* leases, by channel and token *)
}.
Definition ring0 : Ring := mkRing [] [] [] [].

(** A frame leaves the element's hands. *)
Definition take_frame (x : Z * flFrame) (r : Ring) : option Ring :=
  match give x (ri_reads r) with
  | Some l => Some (mkRing (ri_open r) l (ri_refused r) (ri_leases r))
  | None => l ← give x (ri_refused r); Some (mkRing (ri_open r) (ri_reads r) l (ri_leases r))
  end.

Definition apart_from {A} (ch : Z) (l : list (Z * A)) : bool := forallb (fun x => negb (x.1 =? ch)) l.

(** A channel that opens is a new one; only an open channel is read; a frame is
    released or leased once; a lease is completed once; a channel is closed once, and
    not while something holds a frame or a lease of it. *)
Definition ring_step (r : Ring) (d : Did) : option Ring :=
  match d with
  | DOpen ch | DAdopt ch =>
    if bool_decide (ch ∈ ri_open r) then None
    else Some (mkRing (ch :: ri_open r) (ri_reads r) (ri_refused r) (ri_leases r))
  | DRead ch f =>
    if bool_decide (ch ∈ ri_open r) then Some (mkRing (ri_open r) ((ch, f) :: ri_reads r) (ri_refused r) (ri_leases r))
    else None
  | DRelease ch f => take_frame (ch, f) r
  | DRefused ch f =>
    r ← take_frame (ch, f) r; Some (mkRing (ri_open r) (ri_reads r) ((ch, f) :: ri_refused r) (ri_leases r))
  | DLease ch f token =>
    r ← take_frame (ch, f) r; Some (mkRing (ri_open r) (ri_reads r) (ri_refused r) ((ch, token) :: ri_leases r))
  | DComplete ch token =>
    l ← give (ch, token) (ri_leases r); Some (mkRing (ri_open r) (ri_reads r) (ri_refused r) l)
  | DClose ch =>
    if bool_decide (ch ∈ ri_open r) && apart_from ch (ri_reads r) && apart_from ch (ri_leases r)
    then Some (mkRing (filter (fun x => x <> ch) (ri_open r)) (ri_reads r)
                (filter (fun x => x.1 <> ch) (ri_refused r)) (ri_leases r))
    else None
  | _ => Some r
  end.

Lemma take_frame_open x r r' : take_frame x r = Some r' -> ri_open r' = ri_open r /\ ri_leases r' = ri_leases r.
Proof.
  unfold take_frame. destruct (give x (ri_reads r)); [by intros [= <-]|].
  destruct (give x (ri_refused r)); [by intros [= <-]|discriminate].
Qed.

Lemma follow_ring_open l : forall r r', follow ring_step r l = Some r' -> ri_open r' = foldl opens_step (ri_open r) l.
Proof.
  induction l as [|d l IH]; intros r r' Hf; [by injection Hf as <-|].
  change (d :: l) with ([d] ++ l) in Hf. rewrite follow_app in Hf. unfold follow at 1 in Hf. cbn in Hf.
  destruct (ring_step r d) as [r1|] eqn:Ed; [|done]. rewrite (IH _ _ Hf). cbn [foldl]. f_equal. clear IH Hf.
  destruct d; cbn in Ed; try (injection Ed as <-; done);
    repeat case_match; simplify_eq/=; try done; try by destruct (take_frame_open _ _ _ Ed).
  - destruct (take_frame _ _) as [r2|] eqn:Et; [|done]. injection Ed as <-. by destruct (take_frame_open _ _ _ Et).
  - destruct (take_frame _ _) as [r2|] eqn:Et; [|done]. injection Ed as <-. by destruct (take_frame_open _ _ _ Et).
  - destruct (give _ _); [|done]. by injection Ed as <-.
Qed.

Section Safe.
Context `{E : Element} {SI : SourceImages}.
Context (platform : Platform) (sse41 : bool) (fuel : nat).
Notation Core := (Core Heap).
Notation C := (C Heap).
Implicit Types (self : GstFrameLinkSrc) (c : Core) (n : Heap) (r : Ring).
Notation At n r c := (at_ ring_step [] ring0 (eq n) r c).

(** Code that touches neither the ring nor the heap. *)
Definition quietly {A} (m : C A) (R : A -> Prop) : Prop :=
  forall n r, leaves ring_step [] ring0 (eq n) r m (fun _ => r) R.

(** Where the element is linked: the channel, the pending buffer, the mode. *)
Definition linked self : option Z * bool * option SrcBuffer * bool :=
  (rl_ch (sr_link self), rl_delegated (sr_link self), sr_pending self, rp_nativeMemory (sr_props self)).

Ltac between L h A :=
  lazymatch A with
  | GstFrameLinkSrc => apply (leaves_bind _ _ _ _ h _ _ (fun _ => h) (fun x => linked x = L))
  | (_ * GstFrameLinkSrc)%type => apply (leaves_bind _ _ _ _ h _ _ (fun _ => h) (fun x => linked x.2 = L))
  | _ => apply (leaves_bind _ _ _ _ h _ _ (fun _ => h) (fun _ => True))
  end.
Ltac side := cbn [fst snd] in *; try done; unfold linked in *; cbn in *; intuition congruence.
Ltac walk L known :=
  Element.walk ltac:(fun h A => between L h A) ltac:(first [session|known]) ltac:(side).

Lemma quietly_eventLoop k i kind pts deadline self :
  quietly (eventLoop k i kind pts deadline self) (fun x => linked x.2 = linked self).
Proof.
  intros n r. revert self. induction k as [|k IH]; intros self; cbn [eventLoop]; [by intros c _|].
  unfold fl_gst_session_receive_video_event, look.
  walk (linked self) ltac:(apply IH).
Qed.

Lemma quietly_srcVideoEvents i kind pts self :
  quietly (srcVideoEvents fuel i kind pts self) (fun x => linked x.2 = linked self).
Proof. intros n r. unfold srcVideoEvents, look. walk (linked self) ltac:(apply quietly_eventLoop). Qed.

Lemma quietly_emitGaps l i self : quietly (emitGaps l i self) (fun _ => True).
Proof.
  intros n r. induction l as [|e l IH]; cbn [emitGaps]; [by apply leaves_ret|].
  unfold fl_gst_session_map_running_time, look. walk (linked self) ltac:(apply IH).
Qed.

Lemma quietly_srcEmitGaps i self : quietly (srcEmitGaps i self) (fun x => linked x.2 = linked self).
Proof. intros n r. unfold srcEmitGaps. walk (linked self) ltac:(apply quietly_emitGaps). Qed.

Lemma quietly_waitSession k i deadline self : quietly (waitSession k i deadline self) (fun _ => True).
Proof.
  intros n r. induction k as [|k IH]; cbn [waitSession]; [by intros c _|].
  unfold fl_gst_session_wait. walk (linked self) ltac:(apply IH).
Qed.

Lemma quietly_terminal self : quietly (terminal fuel self) (fun x => linked x.2 = linked self).
Proof.
  intros n r. unfold terminal, fl_gst_session_wait_video_eos.
  walk (linked self) ltac:(first [apply quietly_srcVideoEvents|apply quietly_srcEmitGaps]).
Qed.

Lemma quietly_takeVideoEnd self : quietly (takeVideoEnd self) (fun x => linked x.2 = linked self).
Proof.
  intros n r. unfold takeVideoEnd, fl_gst_session_peek_video_end, look. walk (linked self) idtac.
Qed.

Lemma quietly_on_channel {A} self (null : A) k R : R null -> (forall ch, quietly (k ch) R) -> quietly (on_channel self null k) R.
Proof. intros H0 Hk n r. unfold on_channel. destruct (rl_ch (sr_link self)); [apply Hk|by apply leaves_ret]. Qed.

Lemma quietly_beforeRead deadline self : quietly (beforeRead fuel deadline self) (fun x => linked x.2 = linked self).
Proof.
  intros n r. unfold beforeRead, sessionCurrent, on_channel, flCollectReadLeases.
  walk (linked self) ltac:(first [apply quietly_takeVideoEnd|apply quietly_terminal]).
Qed.
(** ** With frames in hand *)

Definition Holds (Φ : Ring -> Prop) n c : Prop := exists r, Φ r /\ At n r c.

Lemma wp_quietly {A B} (m : C A) (k : A -> C B) R Φ n c Q : quietly m R -> Holds Φ n c ->
  (forall a c', R a -> Holds Φ n c' -> wp (k a) Q c') -> wp (bind m k) Q c.
Proof.
  intros Hm (r & Hr & Hc) Hk. apply wp_bind. eapply wp_mono; [by apply Hm|]. intros a c' [Hc' Ha].
  apply Hk; [done|]. by exists r.
Qed.

Lemma wp_moves {A B} (g : nat -> A) f (k : A -> C B) Φ (Ψ : A -> Ring -> Prop) n c Q : Holds Φ n c ->
  (forall a r, Φ r -> exists r', follow ring_step r (f a) = Some r' /\ Ψ a r') ->
  (forall a c', Holds (Ψ a) n c' -> wp (k a) Q c') -> wp (bind (step g f) k) Q c.
Proof.
  intros (r & Hr & Hc) Hf Hk. apply wp_bind, wp_step. intros a c' Ha. destruct (Hf a r Hr) as (r' & Ef & Hr').
  apply Hk. exists r'. split; [done|]. by apply (at_later _ _ _ _ _ _ _ _ _ Hc Ha).
Qed.

Lemma follow_one r d : follow ring_step r [d] = ring_step r d.
Proof. unfold follow. cbn. by destruct (ring_step r d). Qed.

Lemma quietly_error : quietly (element_error : C unit) (fun _ => True).
Proof. intros n r. apply keeps_act. quiet. Qed.

(** Nothing in hand; the frame [x] in hand, or refused a lease. *)
Definition idle o l r : Prop := ri_open r = o /\ ri_leases r = l /\ ri_reads r = [].
Definition has x o l r : Prop :=
  ri_open r = o /\ ri_leases r = l /\ (ri_reads r = [x] \/ ri_reads r = [] /\ x ∈ ri_refused r).

Lemma take_has x o l r : has x o l r -> exists r', take_frame x r = Some r' /\ idle o l r'.
Proof.
  intros (<- & <- & [Er|[Er Hx]]); unfold take_frame; rewrite Er.
  - rewrite give_head. eexists. by split.
  - cbn. destruct (give_elem _ _ Hx) as (l' & -> & _). eexists. split; [reflexivity|]. by split.
Qed.

(** A lease is granted, or refused. *)
Definition refused x o l r : Prop := idle o l r /\ x ∈ ri_refused r.
Definition leased ch f o l (x : flResult * Z) : Ring -> Prop :=
  if bool_decide (x.1 = FL_OK) then idle o ((ch, x.2) :: l) else refused (ch, f) o l.

Lemma holds_mono (Φ Ψ : Ring -> Prop) n c : Holds Φ n c -> (forall r, Φ r -> Ψ r) -> Holds Ψ n c.
Proof. intros (r & Hr & Hc) H. exists r. split; [by apply H|done]. Qed.

Lemma refused_has x o l r : refused x o l r -> has x o l r.
Proof. intros [(? & ? & ?) ?]. repeat split; try done. by right. Qed.

Lemma leased_step ch f o l x r : has (ch, f) o l r ->
  exists r', follow ring_step r (if bool_decide (x.1 = FL_OK) then [DLease ch f x.2] else [DRefused ch f]) = Some r'
    /\ leased ch f o l x r'.
Proof.
  intros Hr. destruct (take_has _ _ _ _ Hr) as (r1 & E1 & H1 & H2 & H3). unfold leased.
  case_bool_decide; rewrite follow_one; cbn; rewrite E1; cbn; (eexists; split; [reflexivity|]).
  - split; cbn; [done|]. by rewrite H2, H3.
  - split; [by split|]. by left.
Qed.

Lemma wp_last {A} (m : C A) Q c : wp (bind m ret) Q c -> wp m Q c.
Proof. unfold wp, bind, ret. by destruct (m c) as [[a c']|]. Qed.

Lemma wp_srcReleaseFrame {B} ch f self (k : flResult -> C B) o l n c Q :
  rl_ch (sr_link self) = Some ch -> Holds (has (ch, f) o l) n c ->
  (forall a c', Holds (idle o l) n c' -> wp (k a) Q c') -> wp (bind (srcReleaseFrame f self) k) Q c.
Proof.
  intros Ech Hc Hk. apply wp_bind. unfold srcReleaseFrame, on_channel. rewrite Ech.
  destruct (negb (rp_nativeMemory (sr_props self))).
  - apply wp_last. eapply (wp_moves _ _ _ _ (fun _ => idle o l)); [exact Hc| |intros a c'; apply Hk].
    intros a r Hr. rewrite follow_one. by apply take_has.
  - eapply wp_moves; [exact Hc|intros; by apply leased_step|]. intros [x tok] c1 H1. unfold leased in H1. cbn in *.
    case_bool_decide; cbn [negb].
    + eapply (wp_moves _ _ _ _ (fun _ => idle o l)); [exact H1| |].
      * intros a r (Ho & Hl & Hrd). rewrite follow_one. cbn. rewrite Hl, give_head. eexists. split; [reflexivity|]. by split.
      * intros a c2 H2. case_bool_decide; [|by apply wp_ret, Hk].
        apply wp_last. eapply wp_quietly; [intros ? ?; apply keeps_ask|exact H2|]. intros a' c3 _ H3. by apply Hk.
    + apply wp_ret, Hk. eapply holds_mono; [exact H1|]. by intros r [? _].
Qed.

(** The frame a round of reading ends with. *)
Definition read_in ch_ o l n (x : Reading) (c : Core) : Prop :=
  match x with
  | Got f => exists ch, ch_ = Some ch /\ Holds (has (ch, f) o l) n c
  | Return _ => Holds (idle o l) n c
  end.

Lemma wp_readFrame k deadline self o l n c :
  (forall ch, rl_ch (sr_link self) = Some ch -> ch ∈ o) -> Holds (idle o l) n c ->
  wp (readFrame fuel k deadline self)
    (fun x c' => linked x.2 = linked self /\ read_in (rl_ch (sr_link self)) o l n x.1 c') c.
Proof.
  revert self c. induction k as [|k IH]; intros self c Ho Hc; cbn [readFrame]; [done|].
  eapply wp_quietly; [apply quietly_beforeRead|exact Hc|]. intros [[r|] self'] c1 El H1; cbn in El.
  { apply wp_ret. by split. }
  assert (rl_ch (sr_link self') = rl_ch (sr_link self)) as Ech by (unfold linked in El; congruence).
  unfold on_channel at 1. rewrite Ech.
  destruct (rl_ch (sr_link self)) as [ch|] eqn:E1.
  2: { apply wp_bind, wp_ret. cbn. eapply wp_quietly; [apply quietly_error|exact H1|]. intros a c2 _ H2. by apply wp_ret. }
  eapply (wp_moves _ _ _ _ (fun x => if bool_decide (x.1 = FL_OK) then has (ch, x.2) o l else idle o l)); [exact H1| |].
  { intros [r f] rg (Hro & Hrl & Hrr). cbn. case_bool_decide; [|by exists rg].
    rewrite follow_one. cbn. rewrite bool_decide_eq_true_2 by (rewrite Hro; by apply Ho). eexists. split; [reflexivity|].
    split; [done|]. split; [done|]. left. cbn. by rewrite Hrr. }
  intros [r f] c2 H2. cbn in H2. destruct (bool_decide (r = FL_OK)) eqn:Er.
  - destruct (negb (truthy _)) eqn:Elim; [apply wp_ret; split; [done|]; by exists ch|].
    eapply wp_quietly; [|exact H2|]. { apply quietly_on_channel with (R := fun _ => True); [done|]. intros ? n' r'. apply keeps_ask. }
    intros [r2 age] c3 _ H3. destruct (negb (bool_decide (r2 = FL_OK))).
    { eapply wp_srcReleaseFrame; [exact Ech|exact H3|]. intros a c4 H4.
      eapply wp_quietly; [apply quietly_error|exact H4|]. intros b c5 _ H5. by apply wp_ret. }
    destruct (_ <? _).
    { eapply wp_srcReleaseFrame; [exact Ech|exact H3|]. intros a c4 H4.
      eapply wp_mono; [apply IH|].
      - cbn. intros ch' Ech'. apply Ho. congruence.
      - exact H4.
      - intros x c5 [El' H5]. split; [rewrite El'; done|]. rewrite <- Ech. exact H5. }
    apply wp_ret. split; [done|]. by exists ch.
  - destruct (_ || _).
    + eapply wp_mono; [apply IH; [|exact H2]|].
      * intros ch' Ech'. apply Ho. congruence.
      * intros x c5 [El' H5]. split; [by rewrite El'|]. rewrite <- Ech. exact H5.
    + eapply wp_quietly; [apply quietly_error|exact H2|]. intros b c5 _ H5. by apply wp_ret.
Qed.

(** Afterwards the frame is still in hand if there is a result, and back if not. *)
Definition kept {A} (x : Z * flFrame) o l (m : option A) : Ring -> Prop :=
  match m with Some _ => has x o l | None => idle o l end.

Lemma wp_readRefused {A} ch f self o l n c : rl_ch (sr_link self) = Some ch -> Holds (has (ch, f) o l) n c ->
  wp (reject f self : C (option A * _)) (fun x c' => x = (None, self) /\ Holds (idle o l) n c') c.
Proof.
  intros Ech Hc. unfold reject. eapply wp_srcReleaseFrame; [exact Ech|exact Hc|]. intros a c1 H1.
  eapply wp_quietly; [apply quietly_error|exact H1|]. intros b c2 _ H2. by apply wp_ret.
Qed.

Lemma wp_reject {A} ch f self o l n c : rl_ch (sr_link self) = Some ch -> Holds (has (ch, f) o l) n c ->
  wp (reject f self : C (option A * _)) (fun x c' => linked x.2 = linked self /\ Holds (kept (ch, f) o l x.1) n c') c.
Proof. intros Ech Hc. eapply wp_mono; [by eapply wp_readRefused|]. by intros x c' [-> H]. Qed.

Lemma linked_ch self self' : linked self' = linked self -> rl_ch (sr_link self') = rl_ch (sr_link self).
Proof. unfold linked. congruence. Qed.

Lemma linked_pending self self' : linked self' = linked self -> sr_pending self' = sr_pending self.
Proof. unfold linked. congruence. Qed.

Lemma wp_acceptFrame ch f self o l n c : rl_ch (sr_link self) = Some ch -> Holds (has (ch, f) o l) n c ->
  wp (acceptFrame fuel f self) (fun x c' => linked x.2 = linked self /\ Holds (kept (ch, f) o l x.1) n c') c.
Proof.
  intros Ech Hc. unfold acceptFrame.
  destruct (_ && (fr_ptsNs f <? 0)); [by apply wp_reject|].
  eapply wp_quietly; [|exact Hc|].
  { instantiate (1 := fun _ => True). intros n' r'. unfold on_channel, flGetFrameMetadata. walk (linked self) idtac. }
  intros [r md] c1 _ H1. destruct (negb (bool_decide (r = FL_OK))); [by apply wp_reject|].
  destruct (rs_session (sr_session self)) as [i|]; [|by apply wp_ret].
  destruct (negb (md_streamGeneration md =? _)); [by apply wp_reject|].
  destruct (negb (fr_sequence f =? _)); [by apply wp_reject|].
  destruct (negb (has_flag _ _)); [by apply wp_ret|].
  eapply wp_quietly; [apply quietly_srcVideoEvents|exact H1|]. intros [ok self'] c2 El H2. cbn in El.
  destruct (negb ok).
  - eapply wp_mono; [apply wp_reject; [by rewrite (linked_ch _ _ El)|exact H2]|]. intros x c3 [E3 H3]. by rewrite E3.
  - by apply wp_ret.
Qed.

Lemma wp_followRing ch f self o l n c : rl_ch (sr_link self) = Some ch -> Holds (has (ch, f) o l) n c ->
  wp (followRing platform f self) (fun x c' => linked x.2 = linked self /\ Holds (kept (ch, f) o l x.1) n c') c.
Proof.
  intros Ech Hc. unfold followRing.
  eapply wp_quietly; [|exact Hc|].
  { instantiate (1 := fun _ => True). intros n' r'. unfold on_channel, flQuery. walk (linked self) idtac. }
  intros [r info] c1 _ H1. destruct (_ =? _); [by apply wp_ret|].
  destruct (_ || _); [by apply wp_reject|].
  eapply wp_quietly; [intros n' r'; apply keeps_ask|exact H1|]. intros ok c2 _ H2.
  assert (forall b, linked (if is_win platform then srcDropStaging b else b) = linked b) as Hd by (intros b; by destruct (is_win _)).
  destruct (negb ok).
  - eapply wp_mono; [apply wp_reject; [|exact H2]|].
    + by rewrite (linked_ch _ _ (Hd _)).
    + intros x c3 [E3 H3]. by rewrite E3, Hd.
  - apply wp_ret. cbn. by rewrite Hd.
Qed.

(** ** The heap *)

Definition channelOf n (o : nat) : option Z := ow_channel <$> hp_owners n !! o.
Definition refsOf n (o : nat) : nat := match hp_owners n !! o with Some ow => ow_refs ow | None => 0 end.
Definition readersIn (m : gmap nat HeapBuffer) : list NativeSourceReader := omap (fun p => hb_reader p.2) (map_to_list m).
Definition readersOf n : list NativeSourceReader := readersIn (hp_buffers n).
Definition countOf (o : nat) (l : list NativeSourceReader) : nat := length (filter (fun x => rd_owner x = o) l).
Definition leaseOf n (x : NativeSourceReader) : option (Z * Z) := (fun ch => (ch, rd_token x)) <$> channelOf n (rd_owner x).

Lemma readersIn_insert m b h : m !! b = None -> readersIn (<[b := h]> m) ≡ₚ option_list (hb_reader h) ++ readersIn m.
Proof.
  intros Hb. unfold readersIn. rewrite (map_to_list_insert _ _ _ Hb). cbn. by destruct (hb_reader h).
Qed.

Lemma readersIn_delete m b h : m !! b = Some h -> readersIn m ≡ₚ option_list (hb_reader h) ++ readersIn (delete b m).
Proof. intros Hb. rewrite <- readersIn_insert by apply lookup_delete_eq. by rewrite insert_delete_id. Qed.

Lemma readersIn_update m b h h' : m !! b = Some h -> hb_reader h' = hb_reader h -> readersIn (<[b := h']> m) ≡ₚ readersIn m.
Proof.
  intros Hb Eh. rewrite (readersIn_delete m b h Hb), <- insert_delete_eq, readersIn_insert by apply lookup_delete_eq. by rewrite Eh.
Qed.

Lemma alter_update (m : gmap nat HeapBuffer) b f h : m !! b = Some h -> alter f b m = <[b := f h]> m.
Proof. intros Hb. rewrite <- (insert_id m b h Hb) at 1. by rewrite alter_insert_eq. Qed.

#[local] Instance countOf_proper o : Proper ((≡ₚ) ==> eq) (countOf o).
Proof. intros l1 l2 Hl. unfold countOf. by rewrite Hl. Qed.

Lemma countOf_cons o x l : countOf o (x :: l) = ((if decide (rd_owner x = o) then 1 else 0) + countOf o l)%nat.
Proof. unfold countOf. rewrite filter_cons. by destruct (decide _). Qed.

Lemma countOf_elem x l : x ∈ l -> (1 <= countOf (rd_owner x) l)%nat.
Proof.
  intros Hx. unfold countOf. assert (x ∈ filter (fun y => rd_owner y = rd_owner x) l) as Hf by by apply list_elem_of_filter.
  destruct (filter _ _); [by apply elem_of_nil in Hf|cbn; lia].
Qed.

(** What the element and the heap agree on: the open channels are [o], the leases are
    [l], one for each buffer that reads. *)
Record Inv (started : bool) self n (o : list Z) (l : list (Z * Z)) : Prop := mkInv {
  iv_leases : l ≡ₚ omap (leaseOf n) (readersOf n);
  iv_readers : forall x, x ∈ readersOf n -> exists ch, channelOf n (rd_owner x) = Some ch /\ ch ∈ o
    /\ (rl_ch (sr_link self) = Some ch -> started = true /\ hp_nativeOwner n = Some (rd_owner x));
  iv_distinct : forall x y, x ∈ readersOf n -> y ∈ readersOf n ->
    channelOf n (rd_owner x) = channelOf n (rd_owner y) -> rd_owner x = rd_owner y;
  iv_counts : forall w, is_Some (channelOf n w) ->
    (countOf w (readersOf n) + (if decide (hp_nativeOwner n = Some w) then 1 else 0) <= refsOf n w)%nat;
  iv_native : forall w, hp_nativeOwner n = Some w ->
    exists ch, channelOf n w = Some ch /\ rl_ch (sr_link self) = Some ch;
  iv_link : forall ch, rl_ch (sr_link self) = Some ch -> ch ∈ o;
  iv_delegated : started = false -> hp_nativeOwner n <> None -> rl_delegated (sr_link self) = true;
  iv_buffers : forall b h, hp_buffers n !! b = Some h -> (1 <= hb_refs h)%nat;
}.

Lemma Inv_linked st self self' n o l : linked self' = linked self -> Inv st self n o l -> Inv st self' n o l.
Proof.
  intros El [? HR ? ? HN HL HD ?]. injection El as E1 E2 _ _. split; try done.
  - by rewrite E1.
  - by rewrite E1.
  - by rewrite E1.
  - by rewrite E2.
Qed.

(** Other heaps that look the same. *)
Record alike n n' : Prop := mkAlike {
  al_channels : forall w, channelOf n' w = channelOf n w;
  al_refs : forall w, refsOf n' w = refsOf n w;
  al_native : hp_nativeOwner n' = hp_nativeOwner n;
  al_readers : readersOf n' ≡ₚ readersOf n;
}.

Lemma leaseOf_ext n n' : (forall w, channelOf n' w = channelOf n w) -> forall x, leaseOf n' x = leaseOf n x.
Proof. intros H x. unfold leaseOf. by rewrite H. Qed.

Lemma omap_lease_ext n n' (l : list NativeSourceReader) : (forall w, channelOf n' w = channelOf n w) ->
  omap (leaseOf n') l = omap (leaseOf n) l.
Proof. intros H. induction l as [|x l IH]; [done|]. cbn. by rewrite (leaseOf_ext n n'), IH. Qed.

Lemma Inv_alike st self n n' o l : alike n n' -> (forall b h, hp_buffers n' !! b = Some h -> (1 <= hb_refs h)%nat) ->
  Inv st self n o l -> Inv st self n' o l.
Proof.
  intros [Hc Hr Hn Hp] Hb [? HR HD ? ? ? ? ?]. split; try done.
  - rewrite (omap_lease_ext n n') by done. by rewrite Hp.
  - intros x. rewrite Hp, Hc, Hn. apply HR.
  - intros x y. rewrite Hp, !Hc. apply HD.
  - intros w. rewrite Hp, Hc, Hn, Hr. auto.
  - intros w. rewrite Hn, Hc. auto.
  - by rewrite Hn.
Qed.

Lemma apart_leases n l ch : (forall x, x ∈ readersOf n -> channelOf n (rd_owner x) <> Some ch) ->
  l ≡ₚ omap (leaseOf n) (readersOf n) -> apart_from ch l = true.
Proof.
  intros H Hl. apply List.forallb_forall. intros [ch' tok] Hin%list_elem_of_In. rewrite Hl in Hin.
  apply list_elem_of_omap in Hin as (x & Hx & Ex). unfold leaseOf in Ex.
  destruct (channelOf n (rd_owner x)) as [c'|] eqn:Ec; [|done]. injection Ex as <- <-. cbn.
  destruct (Z.eqb_spec c' ch) as [->|]; [by destruct (H x Hx)|done].
Qed.

(** One owner less, by one reference. *)
Definition dropped (w : nat) n (bufs : gmap nat HeapBuffer) (native : option nat) : Heap :=
  mkHeap (alter (fun ow => mkOwner (ow_channel ow) (pred (ow_refs ow))) w (hp_owners n)) bufs native.

Lemma channelOf_alter f w n bufs nat w' : (forall ow, ow_channel (f ow) = ow_channel ow) ->
  channelOf (mkHeap (alter f w (hp_owners n)) bufs nat) w' = channelOf n w'.
Proof.
  intros Hf. unfold channelOf. cbn. destruct (decide (w = w')) as [<-|Hw].
  - rewrite list_lookup_alter_eq. destruct (hp_owners n !! w); cbn; [by rewrite Hf|done].
  - by rewrite list_lookup_alter_ne.
Qed.

Lemma refsOf_dropped w n bufs nat w' :
  refsOf (dropped w n bufs nat) w' = if decide (w' = w) then pred (refsOf n w) else refsOf n w'.
Proof.
  unfold refsOf, dropped. cbn. destruct (decide (w' = w)) as [->|Hw].
  - rewrite list_lookup_alter_eq. by destruct (hp_owners n !! w).
  - by rewrite list_lookup_alter_ne.
Qed.

(** A buffer goes, with the reader [x] behind it: its lease is completed, and its
    channel closed if nothing else keeps it. *)
Lemma Inv_drop st self n o l b h x : Inv st self n o l -> hp_buffers n !! b = Some h -> hb_reader h = Some x ->
  exists ch l', channelOf n (rd_owner x) = Some ch /\ give (ch, rd_token x) l = Some l'
  /\ let n' := dropped (rd_owner x) n (delete b (hp_buffers n)) (hp_nativeOwner n) in
     if (refsOf n (rd_owner x) =? 1)%nat
     then ch ∈ o /\ apart_from ch l' = true /\ Inv st self n' (filter (fun x => x <> ch) o) l'
     else Inv st self n' o l'.
Proof.
  intros [HL HR HD HC HN Hk Hd Hb] Eb Eh.
  assert (readersOf n ≡ₚ x :: readersIn (delete b (hp_buffers n))) as Hp.
  { unfold readersOf. by rewrite (readersIn_delete _ _ _ Eb), Eh. }
  set (n' := dropped (rd_owner x) n (delete b (hp_buffers n)) (hp_nativeOwner n)).
  assert (forall w, channelOf n' w = channelOf n w) as Hch by (intros; by apply channelOf_alter).
  assert (readersOf n ≡ₚ x :: readersOf n') as Hp' by exact Hp.
  destruct (HR x) as (ch & Ec & Ho & Hx); [by rewrite Hp; left|].
  assert (l ≡ₚ (ch, rd_token x) :: omap (leaseOf n') (readersOf n')) as Hl.
  { rewrite HL, Hp'. cbn. rewrite (omap_lease_ext n n') by done. unfold leaseOf at 1. by rewrite Ec. }
  destruct (give_elem (ch, rd_token x) l) as (l' & Eg & Hg); [rewrite Hl; by left|].
  exists ch, l'. split; [done|]. split; [done|].
  assert (l' ≡ₚ omap (leaseOf n') (readersOf n')) as Hl' by (apply (Permutation_cons_inv (a := (ch, rd_token x))); by rewrite <- Hg).
  assert (forall y, y ∈ readersOf n' -> y ∈ readersOf n) as Hin by (intros y Hy; rewrite Hp'; by right).
  assert (forall w, is_Some (channelOf n' w) ->
    (countOf w (readersOf n') + (if decide (hp_nativeOwner n' = Some w) then 1 else 0) <= refsOf n' w)%nat) as Hcount.
  { intros w Hw. rewrite Hch in Hw. pose proof (HC w Hw) as H. rewrite (countOf_proper w _ _ Hp'), countOf_cons in H.
    replace (refsOf n' w) with (if decide (w = rd_owner x) then pred (refsOf n (rd_owner x)) else refsOf n w)
      by (symmetry; apply refsOf_dropped).
    change (hp_nativeOwner n') with (hp_nativeOwner n).
    destruct (decide (w = rd_owner x)) as [->|Hw']; [rewrite decide_True in H by done|rewrite decide_False in H by congruence]; lia. }
  assert (forall b' h', hp_buffers n' !! b' = Some h' -> (1 <= hb_refs h')%nat) as Hb'.
  { intros b' h' E'. cbn in E'. apply lookup_delete_Some in E' as [_ E']. by apply Hb in E'. }
  cbn zeta. destruct (Nat.eqb_spec (refsOf n (rd_owner x)) 1) as [E1|E1].
  - (* the last one *)
    assert (countOf (rd_owner x) (readersOf n') = 0%nat /\ hp_nativeOwner n <> Some (rd_owner x)) as [Hz Hno].
    { pose proof (HC (rd_owner x) (mk_is_Some _ _ Ec)) as H. rewrite (countOf_proper _ _ _ Hp'), countOf_cons, decide_True in H by done.
      destruct (decide _); [lia|]. split; [lia|done]. }
    assert (forall y, y ∈ readersOf n' -> channelOf n (rd_owner y) <> Some ch) as Hne.
    { intros y Hy Ey. assert (rd_owner y = rd_owner x) as Eo.
      { apply HD; [by apply Hin|by rewrite Hp'; left|congruence]. }
      pose proof (countOf_elem y _ Hy). rewrite Eo in *. lia. }
    assert (rl_ch (sr_link self) <> Some ch) as Hsc by (intros Es; by destruct (Hx Es)).
    split; [done|]. split; [apply (apart_leases n'); [|done]; intros y Hy; rewrite Hch; by apply Hne|].
    split; try done.
    + intros y Hy. destruct (HR y (Hin y Hy)) as (cy & Ey & Hoy & Hsy). exists cy. rewrite Hch. repeat split; try done; try tauto.
      apply list_elem_of_filter. split; [|done]. intros ->. by apply (Hne y Hy).
    + intros y z Hy Hz'. rewrite !Hch. auto.
    + intros w Hw. destruct (HN w Hw) as (cw & Ew & Es). exists cw. by rewrite Hch.
    + intros c0 Ec0. apply list_elem_of_filter. split; [congruence|by apply Hk].
  - split; try done.
    + intros y Hy. destruct (HR y (Hin y Hy)) as (cy & Ey & Hoy & Hsy). exists cy. by rewrite Hch.
    + intros y z Hy Hz'. rewrite !Hch. auto.
    + intros w Hw. destruct (HN w Hw) as (cw & Ew & Es). exists cw. by rewrite Hch.
Qed.

Lemma wp_heap {A B} (f : Heap -> A * Heap) (k : A -> C B) Φ n c Q : Holds Φ n c ->
  (forall c', Holds Φ (f n).2 c' -> wp (k (f n).1) Q c') -> wp (bind (native f) k) Q c.
Proof.
  intros (r & Hr & En & log & El & Hf) Hk. apply wp_bind. unfold wp, native. rewrite <- En. specialize (Hk (mkCore (c_tick c) (c_sessions c) (c_mem c) (f n).2 (c_log c))).
  destruct (f n) as [a n'] eqn:Ef. apply Hk. exists r. split; [done|]. split; [done|]. by exists log.
Qed.

(** Between callbacks, and between frames. *)
Definition Safe st self n c : Prop := exists o l, Inv st self n o l /\ Holds (idle o l) n c.

(** The buffers that are there, other than [b] at its last reference. *)
Definition stays b n n' : Prop := forall b' h, hp_buffers n !! b' = Some h -> b' <> b \/ (2 <= hb_refs h)%nat ->
  is_Some (hp_buffers n' !! b').

Lemma wp_closing {A} ch o l n c (m : C A) Q : ch ∈ o -> apart_from ch l = true -> Holds (idle o l) n c ->
  (forall c', Holds (idle (filter (fun x => x <> ch) o) l) n c' -> wp m Q c') -> wp (flClose ch ;; m) Q c.
Proof.
  intros Ho Ha Hc Hk. eapply (wp_moves _ _ _ _ (fun _ => idle (filter (fun x => x <> ch) o) l)); [exact Hc| |intros []; apply Hk].
  intros [] r (Hro & Hrl & Hrr). rewrite follow_one. cbn. rewrite bool_decide_eq_true_2 by (by rewrite Hro).
  rewrite Hrr, Hrl, Ha. cbn. eexists. split; [reflexivity|]. repeat split; cbn; congruence.
Qed.

Lemma wp_bufferUnref b st self n c : Safe st self n c ->
  wp (bufferUnref b) (fun _ c' => exists n', Safe st self n' c' /\ stays b n n') c.
Proof.
  intros (o & l & HI & Hc). unfold bufferUnref. eapply wp_heap; [exact Hc|]. intros c1 H1.
  destruct (hp_buffers n !! b) as [h|] eqn:Eb.
  2: { apply wp_ret. exists n. split; [by exists o, l|]. intros b' h' E' _. by eexists. }
  pose proof (iv_buffers _ _ _ _ _ HI b h Eb) as Hh.
  destruct (Nat.eqb_spec (hb_refs h) 1) as [E1|E1]; cbn [fst snd] in *.
  - assert (stays b n (mkHeap (hp_owners n) (delete b (hp_buffers n)) (hp_nativeOwner n))) as Hst.
    { intros b' h' E' [Hb'|Hb'].
      - cbn. rewrite lookup_delete_ne by done. by eexists.
      - destruct (decide (b' = b)) as [->|]; [|cbn; rewrite lookup_delete_ne by done; by eexists].
        rewrite Eb in E'. injection E' as <-. lia. }
    destruct (hb_reader h) as [x|] eqn:Ex.
    + destruct (Inv_drop _ _ _ _ _ _ _ _ HI Eb Ex) as (ch & l' & Ec & Eg & Hn'). cbn zeta in Hn'.
      unfold endReader. eapply wp_heap; [exact H1|]. intros c2 H2. cbn [fst snd] in *.
      unfold channelOf in Ec. cbn [hp_owners]. rewrite Ec.
      eapply (wp_moves _ _ _ _ (fun _ => idle o l')); [exact H2| |].
      { intros a r (Ho & Hl & Hr). rewrite follow_one. cbn. rewrite Hl, Eg. eexists. split; [reflexivity|]. by split. }
      intros a c3 H3. eapply wp_quietly; [intros ? ?; apply keeps_ask|exact H3|]. intros a' c4 _ H4.
      unfold dropOwner. eapply wp_heap; [exact H4|]. intros c5 H5. cbn [hp_owners hp_buffers hp_nativeOwner] in *.
      unfold refsOf in Hn'. destruct (hp_owners n !! rd_owner x) as [ow|] eqn:Eo; [|done]. injection Ec as Ec.
      destruct (ow_refs ow =? 1)%nat; cbn [fst snd] in *.
      * destruct Hn' as (Hch & Hap & HI'). rewrite Ec. apply wp_last. eapply wp_closing; [exact Hch|exact Hap|exact H5|].
        intros c6 H6. apply wp_ret. eexists. split; [by eexists _, _|]. exact Hst.
      * apply wp_ret. eexists. split; [by eexists _, _|]. exact Hst.
    + apply wp_ret. eexists. split; [|exact Hst]. exists o, l. split; [|done]. eapply Inv_alike; [|intros b' h' E'|exact HI].
      * split; try done. unfold readersOf. by rewrite (readersIn_delete _ _ _ Eb), Ex.
      * cbn in E'. apply lookup_delete_Some in E' as [_ E']. by eapply iv_buffers.
  - apply wp_ret. eexists. split; [exists o, l; split; [|exact H1]|].
    + eapply Inv_alike; [|intros b' h' E'|exact HI].
      * split; try done. unfold readersOf. by apply (readersIn_update _ _ _ _ Eb).
      * cbn in E'. apply lookup_insert_Some in E' as [[_ <-]|[_ E']]; [cbn; lia|by eapply iv_buffers].
    + intros b' h' E' _. cbn. destruct (decide (b' = b)) as [->|]; [by rewrite lookup_insert_eq|rewrite lookup_insert_ne by done; by eexists].
Qed.

(** ** Making a buffer *)

Lemma fresh_buffer n : hp_buffers n !! (base.fresh (dom (hp_buffers n) : gset nat)) = None.
Proof. apply not_elem_of_dom, is_fresh. Qed.

Lemma Inv_add self n o l w ch tok : Inv true self n o l -> hp_nativeOwner n = Some w -> channelOf n w = Some ch ->
  Inv true self (addBuffer (Some (mkReader w tok)) n).2 o ((ch, tok) :: l).
Proof.
  intros [HL HR HD HC HN Hk Hd Hb] Ew Ec. set (n' := (addBuffer _ n).2).
  assert (forall v, channelOf n' v = channelOf n v) as Hch by (intros; by apply channelOf_alter).
  assert (readersOf n' ≡ₚ mkReader w tok :: readersOf n) as Hp by (apply readersIn_insert, fresh_buffer).
  destruct (HN w Ew) as (ch' & Ec' & Es). rewrite Ec in Ec'. injection Ec' as <-.
  split; try done.
  - rewrite Hp. cbn. rewrite (omap_lease_ext n n') by done. unfold leaseOf at 1. cbn. by rewrite Hch, Ec, HL.
  - intros x. rewrite Hp, Hch. intros [->|Hx]%elem_of_cons; [|by apply HR]. exists ch. repeat split; [done|by apply Hk|done].
  - assert (forall x, x ∈ readersOf n -> channelOf n (rd_owner x) = Some ch -> rd_owner x = w) as Hxw.
    { intros x Hx Ex. destruct (HR x Hx) as (cx & Ecx & _ & H). rewrite Ex in Ecx. injection Ecx as <-.
      destruct (H Es) as [_ E']. congruence. }
    intros x y. rewrite !Hp, !Hch. intros [->|Hx]%elem_of_cons [->|Hy]%elem_of_cons; cbn; [done| | |by apply HD].
    + rewrite Ec. intros Ey. symmetry. by apply Hxw.
    + rewrite Ec. intros Ex. by apply Hxw.
  - intros v Hv. rewrite Hch in Hv. pose proof (HC v Hv) as H. rewrite (countOf_proper v _ _ Hp), countOf_cons. cbn [rd_owner]. change (hp_nativeOwner n') with (hp_nativeOwner n).
    assert (refsOf n' v = if decide (v = w) then S (refsOf n w) else refsOf n v) as Er.
    { unfold refsOf, n'. cbn. destruct (decide (v = w)) as [->|Hv'].
      - rewrite list_lookup_alter_eq. unfold channelOf in Ec. by destruct (hp_owners n !! w).
      - by rewrite list_lookup_alter_ne. }
    rewrite Er. destruct (decide (v = w)) as [->|Hv']; [rewrite (decide_True (P := w = w)) by done|rewrite (decide_False (P := w = v)) by congruence]; lia.
  - intros v Hv. rewrite Hch. by apply HN.
  - intros b h E'. cbn in E'. apply lookup_insert_Some in E' as [[_ <-]|[_ E']]; [done|by eapply Hb].
Qed.

Lemma Inv_copy st self n o l : Inv st self n o l -> Inv st self (addBuffer None n).2 o l.
Proof.
  intros HI. eapply Inv_alike; [|intros b h E'|exact HI].
  - split; try done. apply (readersIn_insert _ _ (mkHeapBuffer 1 None)), fresh_buffer.
  - cbn in E'. apply lookup_insert_Some in E' as [[_ <-]|[_ E']]; [done|by eapply iv_buffers].
Qed.

(** A buffer that is there, or none. *)
Definition made self (x : option SrcBuffer) (c : Core) : Prop :=
  exists n, Safe true self n c /\ match x with Some b => is_Some (hp_buffers n !! sb_id b) | None => True end.

(** Native memory, or the frame still to be given back. *)
Definition native_made ch f o l self n (x : option SrcBuffer) (c : Core) : Prop :=
  match x with Some _ => made self x c | None => Holds (has (ch, f) o l) n c end.

Lemma wp_leaseBuffer ch f w layout self o l n c : rl_ch (sr_link self) = Some ch -> Inv true self n o l ->
  hp_nativeOwner n = Some w -> Holds (has (ch, f) o l) n c ->
  wp (leaseBuffer f w layout self) (native_made ch f o l self n) c.
Proof.
  intros Es HI Ew Hc. unfold leaseBuffer, on_channel. rewrite Es.
  eapply wp_moves; [exact Hc|intros; by apply leased_step|]. intros [r tok] c1 H1. unfold leased in H1. cbn in *.
  case_bool_decide; cbn [negb].
  - destruct (iv_native _ _ _ _ _ HI w Ew) as (ch' & Ec & Es'). rewrite Es in Es'. injection Es' as <-.
    unfold newBuffer. eapply wp_heap; [exact H1|]. intros c2 H2. apply wp_ret. eexists. split.
    + exists o, ((ch, tok) :: l). split; [|exact H2]. by apply Inv_add.
    + cbn. by rewrite lookup_insert_eq.
  - apply wp_ret. cbn. eapply holds_mono; [exact H1|]. intros r'. apply refused_has.
Qed.

Lemma quietly_dmabufPlanes ps d first height bytes : quietly (dmabufPlanes ps d first height bytes) (fun _ => True).
Proof. intros n r. revert bytes. induction ps as [|i ps IH]; intros bytes; cbn [dmabufPlanes]; [by apply leaves_ret|]. walk (linked src_init) ltac:(apply IH). Qed.

Ltac asking H c' Hc' := eapply wp_quietly; [intros ? ?; solve [one|apply quietly_dmabufPlanes]|exact H|]; intros ? c' _ Hc'.

Lemma wp_srcNativeBuffer ch f self o l n c : rl_ch (sr_link self) = Some ch -> Inv true self n o l ->
  Holds (has (ch, f) o l) n c -> wp (srcNativeBuffer platform f self) (native_made ch f o l self n) c.
Proof.
  intros Es HI Hc. unfold srcNativeBuffer, nativeOwner. eapply wp_heap; [exact Hc|]. intros c1 H1. cbn [fst snd] in *.
  destruct (hp_nativeOwner n) as [w|] eqn:Ew; [|by apply wp_ret].
  assert (forall layout c', Holds (has (ch, f) o l) n c' -> wp (leaseBuffer f w layout self) (native_made ch f o l self n) c') as Hl
    by (intros; by apply wp_leaseBuffer).
  unfold dmabufBuffer, d3d11Buffer, ahbBuffer. destruct platform.
  - asking H1 c2 H2. destruct a as [rs d]. destruct (_ || _); [by apply wp_ret|]. destruct (negb _); [by apply wp_ret|].
    asking H2 c3 H3. destruct a as [first|]; [|by apply wp_ret].
    asking H3 c4 H4. destruct a as [[[bytes offs] strs]|]; [|by apply wp_ret].
    asking H4 c5 H5. destruct (a <? 0); [by apply wp_ret|]. asking H5 c6 H6. destruct (negb a0); [|by apply Hl].
    asking H6 c7 H7. by apply wp_ret.
  - asking H1 c2 H2. destruct (negb a); [by apply wp_ret|]. asking H2 c3 H3. destruct (negb a0); [by apply wp_ret|].
    asking H3 c4 H4. destruct a1 as [pitch|]; [|by apply wp_ret]. destruct (_ || _); [by apply wp_ret|by apply Hl].
  - asking H1 c2 H2. destruct a as [d|]; [|by apply wp_ret]. destruct (_ || _); [by apply wp_ret|by apply Hl].
Qed.

Lemma quietly_readPlanes ps map layout view w h : quietly (readPlanes ps map layout view w h) (fun _ => True).
Proof. intros n r. induction ps as [|i ps IH]; cbn [readPlanes]; [by apply leaves_ret|]. walk (linked src_init) ltac:(apply IH). Qed.

Lemma quietly_readPosix image map layout self : quietly (readPosix sse41 image map layout self) (fun _ => True).
Proof. intros n r. unfold readPosix. walk (linked self) ltac:(apply quietly_readPlanes). Qed.

Lemma quietly_readWin32 map layout self : quietly (readWin32 map layout self) (fun x => linked x.2 = linked self).
Proof. intros n r. unfold readWin32. walk (linked self) idtac. Qed.

Lemma Safe_linked st self self' n c : linked self' = linked self -> Safe st self n c -> Safe st self' n c.
Proof. intros El (o & l & HI & Hc). exists o, l. split; [|done]. by eapply Inv_linked. Qed.

Lemma wp_quiet {A} (m : C A) R st self n c : quietly m R -> Safe st self n c ->
  wp m (fun a c' => R a /\ Safe st self n c') c.
Proof.
  intros Hm (o & l & HI & Hc). apply wp_last. eapply wp_quietly; [exact Hm|exact Hc|]. intros a c' Ha Hc'.
  apply wp_ret. split; [done|]. by exists o, l.
Qed.

Definition made_with self (x : option SrcBuffer * GstFrameLinkSrc) (c : Core) : Prop :=
  linked x.2 = linked self /\ made x.2 x.1 c.

Lemma wp_giveBack report buf self n c : Safe true self n c ->
  wp (giveBack report buf self : C (option SrcBuffer * _)) (made_with self) c.
Proof.
  intros Hs. unfold giveBack. apply wp_bind. eapply wp_mono; [by apply wp_bufferUnref|]. intros [] c1 (n1 & (o & l & HI & H1) & _).
  eapply wp_quietly; [|exact H1|].
  { instantiate (1 := fun _ => True). intros n' r. destruct report; [apply quietly_error|by apply leaves_ret]. }
  intros a c2 _ H2. apply wp_ret. split; [done|]. exists n1. split; [by exists o, l|done].
Qed.

Lemma wp_copyFrame ch f layout self o l n c : rl_ch (sr_link self) = Some ch -> Inv true self n o l ->
  Holds (has (ch, f) o l) n c -> wp (copyFrame platform sse41 f layout self) (made_with self) c.
Proof.
  intros Es HI Hc. unfold copyFrame, newBuffer. eapply wp_heap; [exact Hc|]. intros c1 H1.
  set (n1 := (addBuffer None n).2) in *. set (b := (addBuffer None n).1) in *.
  assert (Inv true self n1 o l) as HI1 by by apply Inv_copy.
  assert (is_Some (hp_buffers n1 !! b)) as Hb by (cbn; by rewrite lookup_insert_eq).
  asking H1 c2 H2.
  eapply wp_quietly; [|exact H2|].
  { instantiate (1 := fun x => linked x.2 = linked self). intros n' r.
    destruct a as [map|]; [|by apply leaves_ret]. destruct (is_win platform); [apply quietly_readWin32|].
    eapply leaves_bind; [apply quietly_readPosix|]. intros filled _. by apply leaves_ret. }
  intros [filled self'] c3 El H3. cbn in El.
  eapply wp_srcReleaseFrame; [by rewrite (linked_ch _ _ El)|exact H3|]. intros r c4 H4.
  destruct (negb filled).
  - apply wp_bind. eapply wp_mono; [apply (wp_bufferUnref b true self' n1); exists o, l; split; [by eapply Inv_linked|done]|].
    intros [] c5 (n2 & (o2 & l2 & HI2 & H5) & _). eapply wp_quietly; [apply quietly_error|exact H5|]. intros u c6 _ H6.
    apply wp_ret. split; [done|]. exists n2. split; [by exists o2, l2|done].
  - apply wp_ret. split; [done|]. exists n1. split; [|exact Hb]. exists o, l. split; [by eapply Inv_linked|done].
Qed.

Lemma wp_makeBuffer ch f layout self o l n c : rl_ch (sr_link self) = Some ch -> Inv true self n o l ->
  Holds (has (ch, f) o l) n c -> wp (makeBuffer platform sse41 f layout self) (made_with self) c.
Proof.
  intros Es HI Hc. unfold makeBuffer. destruct (rp_nativeMemory (sr_props self)); [|by eapply wp_copyFrame].
  apply wp_bind. eapply wp_mono; [by eapply wp_srcNativeBuffer|]. intros [buf|] c1 H1; cbn in H1.
  - apply wp_ret. by split.
  - eapply wp_mono; [by eapply wp_readRefused|]. intros x c2 [-> H2]. split; [done|]. exists n.
    split; [by exists o, l|done].
Qed.

(** ** From the buffer to the pipeline *)

Lemma linked_stamp f md buf self : linked (stamp f md buf self).2 = linked self.
Proof. unfold stamp. destruct (rp_preserveTimestamps _), (rp_preserveFrameMetadata _); done. Qed.

Lemma stamp_id f md buf self : sb_id (stamp f md buf self).1 = sb_id buf.
Proof. unfold stamp. by destruct (rp_preserveFrameMetadata _). Qed.

Lemma quietly_map i g pts required : quietly (fl_gst_session_map_running_time i g pts required : C _) (fun _ => True).
Proof. intros n r. unfold fl_gst_session_map_running_time, look. one. Qed.

Lemma wp_given report buf self self' n c : linked self' = linked self -> Safe true self' n c ->
  wp (giveBack report buf self' : C (option SrcBuffer * _)) (made_with self) c.
Proof.
  intros El Hs. eapply wp_mono; [by eapply wp_giveBack|]. intros x c' [Ex Hx]. split; [by rewrite Ex|done].
Qed.

Lemma wp_mapTimes f buf self n c : Safe true self n c -> is_Some (hp_buffers n !! sb_id buf) ->
  wp (mapTimes f buf self) (made_with self) c.
Proof.
  intros Hs Hb. unfold mapTimes. destruct (rs_session (sr_session self)) as [i|]; [|apply wp_ret; split; [done|by exists n]].
  set (self' := put_frames self _ _). assert (Safe true self' n c) as (o & l & HI & Hc) by (by apply (Safe_linked _ self)).
  assert (forall c, Holds (idle o l) n c -> Safe true self' n c) as Hsafe by (intros; by exists o, l).
  eapply wp_quietly; [apply quietly_map|exact Hc|]. intros [r pts] c1 _ H1.
  destruct (negb _); [eapply wp_given; [done|by apply Hsafe]|].
  destruct (_ && _); [eapply wp_given; [done|by apply Hsafe]|].
  destruct (negb _); [apply wp_ret; split; [done|]; exists n; split; [by apply Hsafe|exact Hb]|].
  eapply wp_quietly; [apply quietly_map|exact H1|]. intros [r2 dts] c2 _ H2.
  destruct (negb _); [eapply wp_given; [done|by apply Hsafe]|].
  apply wp_ret; split; [done|]; exists n; split; [by apply Hsafe|exact Hb].
Qed.

Lemma wp_finishBuffer f md buf self n c : Safe true self n c -> is_Some (hp_buffers n !! sb_id buf) ->
  wp (finishBuffer f md buf self) (made_with self) c.
Proof.
  intros (o & l & HI & Hc) Hb. unfold finishBuffer.
  eapply wp_quietly; [|exact Hc|]. { instantiate (1 := fun _ => True). intros n' r. apply keeps_act. by destruct (_ && _); quiet. }
  intros [] c1 _ H1. pose proof (linked_stamp f md buf self) as El. pose proof (stamp_id f md buf self) as Ei.
  destruct (stamp f md buf self) as [buf' self']. cbn in El, Ei.
  eapply wp_quietly; [|exact H1|]. { instantiate (1 := fun _ => True). intros n' r. walk (linked self) idtac. }
  intros meta c2 _ H2. assert (Safe true self' n c2) as Hs by (exists o, l; split; [by eapply Inv_linked|done]).
  destruct (negb meta); [by eapply wp_given|].
  eapply wp_mono; [eapply wp_mapTimes; [exact Hs|by rewrite Ei]|]. intros x c3 [Ex Hx]. split; [by rewrite Ex|done].
Qed.

(** ** The callbacks *)

(** A buffer kept for another delivery is still there. *)
Definition pending_ok self n : Prop := forall p, sr_pending self = Some p -> is_Some (hp_buffers n !! sb_id p).
Definition Full st self c : Prop := exists n, Safe st self n c /\ pending_ok self n.

Lemma Full_linked st self self' c : linked self' = linked self -> Full st self c -> Full st self' c.
Proof.
  intros El (n & Hs & Hp). exists n. split; [by apply (Safe_linked _ self)|].
  intros p Ep. apply Hp. by rewrite <- (linked_pending _ _ El).
Qed.

Lemma wp_Full {A} (m : C A) R st self c : quietly m R -> Full st self c -> wp m (fun a c' => R a /\ Full st self c') c.
Proof.
  intros Hm (n & Hs & Hp). eapply wp_mono; [by apply wp_quiet|]. intros a c' [Ha Hs']. split; [done|]. by exists n.
Qed.

Lemma wp_bufferRef b st self n c : Safe st self n c ->
  wp (bufferRef b) (fun _ c' => exists n', Safe st self n' c'
    /\ forall b', is_Some (hp_buffers n !! b') -> is_Some (hp_buffers n' !! b')) c.
Proof.
  intros (o & l & HI & Hc). unfold bufferRef. apply wp_last. eapply wp_heap; [exact Hc|]. intros c1 H1. apply wp_ret. eexists. split.
  - exists o, l. split; [|exact H1]. eapply Inv_alike; [|intros b' h E'|exact HI].
    + split; try done. unfold readersOf. cbn. destruct (hp_buffers n !! b) as [h|] eqn:Eb.
      * rewrite (alter_update _ _ _ _ Eb). by apply (readersIn_update _ _ _ _ Eb).
      * by rewrite alter_id by (intros h; by rewrite Eb).
    + cbn in E'. destruct (decide (b = b')) as [->|Hb].
      * rewrite lookup_alter_eq in E'. destruct (hp_buffers n !! b') eqn:Eb; [|done]. injection E' as <-. cbn. lia.
      * rewrite lookup_alter_ne in E' by done. by eapply iv_buffers.
  - intros b' Hb'. cbn. destruct (decide (b = b')) as [->|Hb]; [rewrite lookup_alter_eq|by rewrite lookup_alter_ne].
    by destruct Hb' as [h ->].
Qed.

Notation created c' := (fun x : GstFlowReturn * option SrcBuffer * GstFrameLinkSrc => Full true x.2 c').

Lemma wp_noBuffer (flow : GstFlowReturn) self n o l c : sr_pending self = None -> Inv true self n o l -> Holds (idle o l) n c ->
  wp (noBuffer flow self) (fun x c' => created c' x) c.
Proof.
  intros Ep HI Hc. apply wp_ret. exists n. split; [by exists o, l|]. unfold pending_ok. cbn. by rewrite Ep.
Qed.

Lemma wp_takeFrame ch f self o l n c : rl_ch (sr_link self) = Some ch -> sr_pending self = None ->
  Inv true self n o l -> Holds (has (ch, f) o l) n c ->
  wp (takeFrame platform sse41 fuel f self) (fun x c' => created c' x) c.
Proof.
  intros Es Ep HI Hc. unfold takeFrame. apply wp_bind. eapply wp_mono; [by apply wp_acceptFrame|].
  intros [[md|] s1] c1 [E1 H1]; cbn in E1, H1;
    (assert (Inv true s1 n o l) as HI1 by (by eapply Inv_linked)); pose proof (linked_ch _ _ E1) as Es1;
    pose proof (linked_pending _ _ E1) as Ep1; rewrite Es in Es1; rewrite Ep in Ep1; [|by eapply wp_noBuffer].
  apply wp_bind. eapply wp_mono; [by apply wp_followRing|].
  intros [[[]|] s2] c2 [E2 H2]; cbn in E2, H2;
    (assert (Inv true s2 n o l) as HI2 by (by eapply Inv_linked)); pose proof (linked_ch _ _ E2) as Es2;
    pose proof (linked_pending _ _ E2) as Ep2; rewrite Es1 in Es2; rewrite Ep1 in Ep2; [|by eapply wp_noBuffer].
  destruct (si_info _ _ _) as [layout|].
  2: { eapply wp_srcReleaseFrame; [exact Es2|exact H2|]. intros a c3 H3. by eapply wp_noBuffer. }
  apply wp_bind. eapply wp_mono; [by eapply wp_makeBuffer|]. intros [b s3] c3 [E3 (n3 & Hs3 & Hb3)]; cbn in *.
  pose proof (linked_pending _ _ E3) as Ep3. rewrite Ep2 in Ep3.
  destruct b as [buf|]; [|apply wp_ret; exists n3; split; [exact Hs3|]; unfold pending_ok; cbn; by rewrite Ep3].
  apply wp_bind. eapply wp_mono; [by eapply wp_finishBuffer|]. intros [b s4] c4 [E4 (n4 & Hs4 & Hb4)]; cbn in *.
  pose proof (linked_pending _ _ E4) as Ep4. rewrite Ep3 in Ep4.
  destruct b as [buf4|]; [|apply wp_ret; exists n4; split; [exact Hs4|]; unfold pending_ok; cbn; by rewrite Ep4].
  destruct (negb _); [apply wp_ret; exists n4; split; [exact Hs4|]; unfold pending_ok; cbn; by rewrite Ep4|].
  apply wp_bind. eapply wp_mono; [by apply wp_bufferRef|]. intros [] c5 (n5 & (o5 & l5 & HI5 & H5) & Hb5).
  apply wp_ret. exists n5. split.
  - exists o5, l5. split; [|exact H5]. destruct HI5. by split.
  - intros p [= <-]. by apply Hb5.
Qed.

Lemma wp_srcCreateImpl self c : Full true self c ->
  wp (srcCreateImpl platform sse41 fuel self) (fun x c' => created c' x) c.
Proof.
  intros (n & Hs & Hp). unfold srcCreateImpl. destruct (sr_pending self) as [b|] eqn:Ep.
  - apply wp_bind. eapply wp_mono; [by apply wp_bufferRef|]. intros [] c1 (n1 & Hs1 & Hb). apply wp_ret. exists n1.
    split; [done|]. intros p E'. apply Hb. by apply Hp.
  - destruct Hs as (o & l & HI & Hc).
    eapply wp_quietly; [|exact Hc|].
    { instantiate (1 := fun _ => True). intros n' r. destruct (rs_session (sr_session self)); [|by apply leaves_ret].
      eapply leaves_bind; [one|]. intros now _. apply quietly_waitSession. }
    intros [r|] c1 _ H1; [by eapply wp_noBuffer|]. asking H1 c2 H2.
    apply wp_bind. eapply wp_mono; [apply wp_readFrame; [apply (iv_link _ _ _ _ _ HI)|exact H2]|].
    intros [[f|r] s3] c3 [E3 H3]; cbn in E3, H3.
    + destruct H3 as (ch & Es & H3). eapply wp_takeFrame; [by rewrite (linked_ch _ _ E3)|by rewrite (linked_pending _ _ E3)| |exact H3].
      by eapply Inv_linked.
    + eapply wp_noBuffer; [by rewrite (linked_pending _ _ E3)|by eapply Inv_linked|exact H3].
Qed.

Lemma quietly_cancelSource self : quietly (cancelSource self) (fun _ => True).
Proof. intros n r. unfold cancelSource. walk (linked self) idtac. Qed.

Lemma wp_srcCreate self c : Full true self c -> wp (srcCreate platform sse41 fuel self) (fun x c' => created c' x) c.
Proof.
  intros Hf. unfold srcCreate. apply wp_bind. eapply wp_mono; [by apply wp_srcCreateImpl|]. intros [[r b] s] c1 H1. cbn in H1.
  apply wp_bind. eapply wp_mono; [apply wp_Full; [|exact H1]|].
  - instantiate (1 := fun _ => True). intros n' r'. destruct (_ && _); [apply quietly_cancelSource|by apply leaves_ret].
  - intros a c2 [_ H2]. by apply wp_ret.
Qed.

Lemma wp_clearPending st self c : Full st self c ->
  wp (clearPending self) (fun s c' => Full st s c' /\ s = put_pending self None) c.
Proof.
  intros (n & Hs & Hp). unfold clearPending. destruct (sr_pending self) as [b|] eqn:Ep.
  - apply wp_bind. eapply wp_mono; [by apply wp_bufferUnref|]. intros [] c1 (n1 & (o & l & HI & H1) & _).
    apply wp_ret. split; [|done]. exists n1. split; [|by intros p]. exists o, l. split; [|done]. destruct HI. by split.
  - apply wp_ret. split; [by exists n|]. destruct self. cbn in *. by subst.
Qed.

Lemma wp_srcProbe st self c : Full st self c -> wp (srcProbe self) (fun x c' => Full st x.2 c') c.
Proof.
  intros Hf. unfold srcProbe. apply wp_bind. eapply wp_mono; [apply wp_Full; [|exact Hf]|].
  - instantiate (1 := fun x => linked x.2 = linked self). intros n r. destruct (rs_session (sr_session self)); [apply quietly_srcEmitGaps|].
    by apply leaves_ret.
  - intros [ok s] c1 [El H1]. cbn in El. apply (Full_linked _ _ s) in H1; [|done]. destruct (negb ok).
    + apply wp_bind. eapply wp_mono; [apply wp_Full; [apply quietly_error|exact H1]|]. intros a c2 [_ H2]. by apply wp_ret.
    + apply wp_bind. eapply wp_mono; [by apply wp_clearPending|]. intros s2 c2 [H2 _]. by apply wp_ret.
Qed.

(** ** Closing the ring *)

Lemma apart_closed self st n o l ch : Inv st self n o l -> rl_ch (sr_link self) = Some ch ->
  (forall x, x ∈ readersOf n -> hp_nativeOwner n <> Some (rd_owner x)) -> apart_from ch l = true.
Proof.
  intros HI Es Hno. apply (apart_leases n); [|apply HI]. intros x Hx Ex.
  destruct (iv_readers _ _ _ _ _ HI x Hx) as (cx & Ecx & _ & H). rewrite Ex in Ecx. injection Ecx as <-.
  by destruct (H Es) as [_ ?%Hno].
Qed.

(** Without its channel the element is stopped; the owners live on with their
    readers. *)
Lemma Inv_stopped st self n n' o o' l : Inv st self n o l ->
  (forall w, channelOf n' w = channelOf n w) -> hp_buffers n' = hp_buffers n -> hp_nativeOwner n' = None ->
  (forall w, is_Some (channelOf n w) -> (countOf w (readersOf n) <= refsOf n' w)%nat) ->
  (forall x ch, x ∈ readersOf n -> channelOf n (rd_owner x) = Some ch -> ch ∈ o -> ch ∈ o') ->
  Inv false (put_ch self None) n' o' l.
Proof.
  intros [HL HR HD HC HN Hk Hd Hb] Hch Eb En Hr Ho.
  assert (readersOf n' = readersOf n) as Er by (unfold readersOf; by rewrite Eb).
  split; cbn.
  - rewrite (omap_lease_ext n n'), Er; done.
  - intros x. rewrite Er, Hch. intros Hx. destruct (HR x Hx) as (ch & Ec & Hco & _). exists ch. repeat split; try done. by eapply Ho.
  - intros x y. rewrite Er, !Hch. apply HD.
  - intros w. rewrite Er, Hch, En. intros Hw. rewrite decide_False by done. pose proof (Hr w Hw). lia.
  - by rewrite En.
  - done.
  - by rewrite En.
  - rewrite Eb. done.
Qed.

Lemma wp_closeRing st self n c : Safe st self n c -> sr_pending self = None ->
  wp (closeRing self) (fun s c' => Full false s c') c.
Proof.
  intros (o & l & HI & Hc) Ep. unfold closeRing, nativeOwner. eapply wp_heap; [exact Hc|]. intros c1 H1. cbn [fst snd] in *.
  assert (forall n' o' c', Inv false (put_ch self None) n' o' l -> Holds (idle o' l) n' c' -> Full false (put_ch self None) c') as Hfin.
  { intros n' o' c' HI' H'. exists n'. split; [by exists o', l|]. unfold pending_ok. cbn. by rewrite Ep. }
  destruct (hp_nativeOwner n) as [w|] eqn:Ew.
  - destruct (iv_native _ _ _ _ _ HI w Ew) as (ch & Ec & Es). pose proof (iv_counts _ _ _ _ _ HI w (mk_is_Some _ _ Ec)) as Hcnt.
    rewrite decide_True in Hcnt by done.
    set (n2 := dropped w n (hp_buffers n) None).
    assert (forall o', (forall x cx, x ∈ readersOf n -> channelOf n (rd_owner x) = Some cx -> cx ∈ o -> cx ∈ o') ->
      Inv false (put_ch self None) n2 o' l) as HI2.
    { intros o' Ho'. eapply (Inv_stopped _ _ n); [exact HI|intros; by apply channelOf_alter|done|done| |exact Ho'].
      intros v Hv. unfold n2. rewrite refsOf_dropped. pose proof (iv_counts _ _ _ _ _ HI v Hv) as H.
      destruct (decide (v = w)) as [->|]; [lia|]. destruct (decide (hp_nativeOwner n = Some v)); lia. }
    unfold deleteNativeOwner, dropOwner. apply wp_bind, wp_bind. eapply wp_heap; [exact H1|]. intros c2 H2. cbn [fst snd] in *.
    eapply wp_heap; [exact H2|]. intros c3 H3. cbn [hp_owners hp_buffers hp_nativeOwner] in *.
    unfold channelOf in Ec. unfold refsOf in Hcnt. destruct (hp_owners n !! w) as [ow|] eqn:Eo; [|done]. injection Ec as Ec.
    destruct (Nat.eqb_spec (ow_refs ow) 1) as [E1|E1]; cbn [fst snd] in *.
    + assert (countOf w (readersOf n) = 0%nat) as Hz by lia.
      assert (forall x, x ∈ readersOf n -> hp_nativeOwner n <> Some (rd_owner x)) as Hno.
      { intros x Hx E'. rewrite Ew in E'. injection E' as E'. pose proof (countOf_elem x _ Hx). rewrite <- E' in *. lia. }
      rewrite Ec. eapply wp_last, wp_closing; [by apply (iv_link _ _ _ _ _ HI)|by eapply apart_closed|exact H3|].
      intros c4 H4. apply wp_ret. apply wp_ret, wp_ret. eapply Hfin; [|exact H4]. apply HI2.
      intros x cx Hx Ex Hcx. apply list_elem_of_filter. split; [|done]. intros ->.
      destruct (iv_readers _ _ _ _ _ HI x Hx) as (cx & Ecx & _ & H). rewrite Ex in Ecx. injection Ecx as <-.
      by destruct (H Es) as [_ ?%Hno].
    + apply wp_ret. apply wp_ret, wp_ret. eapply Hfin; [|exact H3]. by apply HI2.
  - apply wp_bind, wp_ret. destruct (rl_ch (sr_link self)) as [ch|] eqn:Es.
    + assert (forall x, x ∈ readersOf n -> hp_nativeOwner n <> Some (rd_owner x)) as Hno by (intros; by rewrite Ew).
      eapply wp_closing; [by apply (iv_link _ _ _ _ _ HI)|by eapply apart_closed|exact H1|]. intros c2 H2. apply wp_ret.
      eapply Hfin; [|exact H2]. eapply (Inv_stopped _ _ n); [exact HI|done|done|done| |].
      * intros v Hv. pose proof (iv_counts _ _ _ _ _ HI v Hv). lia.
      * intros x cx Hx Ex Hcx. apply list_elem_of_filter. split; [|done]. intros ->.
        destruct (iv_readers _ _ _ _ _ HI x Hx) as (cx & Ecx & _ & H). rewrite Ex in Ecx. injection Ecx as <-.
        by destruct (H Es) as [_ ?%Hno].
    + apply wp_ret. exists n. split; [|unfold pending_ok; by rewrite Ep]. exists o, l. split; [|done].
      destruct HI as [HL HR HD HC HN Hk Hd Hb]. split; try done.
      intros x Hx. destruct (HR x Hx) as (cx & Ecx & Ho & _). exists cx. rewrite Es. by repeat split.
Qed.

(** ** Starting *)

Lemma Inv_started self n o l : Inv false self n o l -> Inv true self n o l.
Proof.
  intros [HL HR HD HC HN Hk Hd Hb]. split; try done. intros x Hx. destruct (HR x Hx) as (ch & Ec & Ho & H).
  exists ch. repeat split; try done; by destruct (H ltac:(eassumption)).
Qed.

Lemma opens_max ch l : ch ∈ l -> ch <= foldr Z.max 0 l.
Proof. induction l as [|x l IH]; [by intros ?%elem_of_nil|]. intros [->|H]%elem_of_cons; cbn; [lia|]. specialize (IH H). lia. Qed.

Lemma newChannel_fresh log : newChannel log ∉ opens log.
Proof. unfold newChannel. intros H%opens_max. lia. Qed.

Lemma Holds_open Φ n c : Holds Φ n c -> exists r, Φ r /\ At n r c /\ ri_open r = opens (c_log c).
Proof.
  intros (r & Hr & En & log & El & Hf). exists r. split; [done|]. split; [by split; [|exists log]|].
  rewrite El. cbn. by apply (follow_ring_open log ring0).
Qed.

(** Another channel instead of the last one, which left no owner. *)
Lemma Inv_channel st self self' n o o' l : Inv st self n o l -> hp_nativeOwner n = None ->
  (forall x, x ∈ o -> x ∈ o') -> (forall x, rl_ch (sr_link self') = Some x -> x ∉ o /\ x ∈ o') -> Inv st self' n o' l.
Proof.
  intros [HL HR HD HC HN Hk Hd Hb] En Ho Hch. split; try done.
  - intros x Hx. destruct (HR x Hx) as (cx & Ec & Hco & _). exists cx. split; [done|]. split; [by apply Ho|].
    intros E'. by destruct (Hch _ E') as [? _].
  - by rewrite En.
  - intros x E'. by destruct (Hch x E').
Qed.

Lemma wp_openRing self c : Full false self c ->
  wp (openRing self) (fun x c' => Full false x.2 c' /\ rl_delegated (sr_link x.2) = rl_delegated (sr_link self)
    /\ rs_session (sr_session x.2) = rs_session (sr_session self)) c.
Proof.
  intros (n & (o & l & HI & Hc) & Hp). unfold openRing. destruct (rl_delegated (sr_link self)) eqn:Ed.
  { apply wp_ret. split; [|done]. exists n. split; [by exists o, l|done]. }
  assert (hp_nativeOwner n = None) as En.
  { destruct (hp_nativeOwner n) eqn:En; [|done]. pose proof (iv_delegated _ _ _ _ _ HI eq_refl). rewrite En in *. intuition congruence. }
  apply Holds_open in Hc as (r & (Ho & Hl & Hr) & Hc & Eo).
  unfold flCreateChannelEx. apply wp_bind. unfold wp at 1, bind at 1.
  apply wp_step_at. intros c2 H2. cbn [snd]. apply wp_ret. cbn [snd]. split; [|done]. exists n. split; [|exact Hp].
  unfold opened in H2. destruct (bool_decide (el_create _ _ = FL_OK)); cbn in *.
  - assert (newChannel (c_log c) ∉ o) as Hnew by (rewrite <- Ho, Eo; apply newChannel_fresh).
    exists (newChannel (c_log c) :: o), l. split.
    + eapply Inv_channel; [exact HI|done|intros; by right|]. intros x [= <-]. split; [done|by left].
    + eexists. split; [|eapply at_later; [exact Hc|exact H2|]].
      2: { rewrite follow_one. cbn. rewrite bool_decide_eq_false_2 by (by rewrite Ho). reflexivity. }
      split; cbn; [by rewrite Ho|done].
  - exists o, l. split.
    + by eapply Inv_channel.
    + exists r. split; [done|]. by eapply at_later.
Qed.

Lemma Inv_newOwner self n o l ch b : Inv false self n o l -> rl_ch (sr_link self) = Some ch ->
  (b = false -> rl_delegated (sr_link self) = true) ->
  Inv b self (mkHeap (hp_owners n ++ [mkOwner ch 1]) (hp_buffers n) (Some (length (hp_owners n)))) o l.
Proof.
  intros [HL HR HD HC HN Hk Hd Hb] Es Hdel. set (n' := mkHeap _ _ _).
  assert (forall x, x ∈ readersOf n -> channelOf n' (rd_owner x) = channelOf n (rd_owner x)) as Hch.
  { intros x Hx. destruct (HR x Hx) as (cx & Ec & _). unfold channelOf in *. cbn.
    destruct (hp_owners n !! rd_owner x) eqn:Eo; [|done]. by rewrite (lookup_app_l_Some _ _ _ _ Eo). }
  assert (forall v, is_Some (channelOf n' v) -> is_Some (channelOf n v) /\ refsOf n' v = refsOf n v \/ v = length (hp_owners n)) as Hv.
  { intros v [cv Ev]. unfold channelOf, refsOf in *. cbn in *. destruct (decide (v = length (hp_owners n))); [by right|left].
    destruct (hp_owners n !! v) eqn:Eo.
    - rewrite (lookup_app_l_Some _ _ _ _ Eo). split; [by eexists|done].
    - apply lookup_ge_None in Eo. rewrite lookup_app_r in Ev by done.
      destruct (v - length (hp_owners n))%nat eqn:E1; [lia|done]. }
  assert (countOf (length (hp_owners n)) (readersOf n) = 0%nat) as Hz.
  { unfold countOf. destruct (filter _ _) as [|x t] eqn:Ef; [done|]. assert (x ∈ x :: t) as Hx by by left.
    rewrite <- Ef in Hx. apply list_elem_of_filter in Hx as [E' Hx]. destruct (HR x Hx) as (cx & Ec & _). unfold channelOf in Ec.
    rewrite E', (lookup_ge_None_2 (hp_owners n)) in Ec by lia. done. }
  split; try done.
  - rewrite HL. change (readersOf n') with (readersOf n). enough (omap (leaseOf n) (readersOf n) = omap (leaseOf n') (readersOf n)) as -> by done.
    clear - Hch. induction (readersOf n) as [|x t IH]; [done|]. cbn.
    replace (leaseOf n' x) with (leaseOf n x) by (unfold leaseOf; rewrite Hch; [done|by left]).
    by rewrite IH by (intros; apply Hch; by right).
  - intros x Hx. destruct (HR x Hx) as (cx & Ec & Ho & H). exists cx. rewrite Hch by done. repeat split; try done; by destruct (H ltac:(eassumption)).
  - intros x y Hx Hy. rewrite !Hch by done. by apply HD.
  - intros v Hv'. change (readersOf n') with (readersOf n). cbn [hp_nativeOwner n']. destruct (Hv v Hv') as [[H1 H2]| ->].
    + pose proof (HC v H1) as H. rewrite H2. destruct (decide (Some (length (hp_owners n)) = Some v)) as [E'|]; [|lia].
      injection E' as <-. destruct H1 as [cx Ecx]. unfold channelOf in Ecx. by rewrite (lookup_ge_None_2 (hp_owners n)) in Ecx by lia.
    + rewrite Hz, decide_True by done. unfold refsOf. cbn. by rewrite lookup_app_r, Nat.sub_diag by lia.
  - intros w [= <-]. exists ch. split; [|done]. unfold channelOf. cbn. by rewrite lookup_app_r, Nat.sub_diag by lia.
  - intros Hb' _. by apply Hdel.
Qed.

Lemma Full_started self c : Full false self c -> Full true self c.
Proof. intros (n & (o & l & HI & Hc) & Hp). exists n. split; [|done]. exists o, l. split; [by apply Inv_started|done]. Qed.

Lemma Full_any b self c : Full false self c -> Full b self c.
Proof. destruct b; [apply Full_started|done]. Qed.

(** Whether it started or not. *)
Notation outcome := (fun (x : bool * GstFrameLinkSrc) c => Full x.1 x.2 c).

Lemma wp_refuseSrc self c : Full false self c -> wp (refuseSrc self) outcome c.
Proof.
  intros Hf. unfold refuseSrc. apply wp_bind. eapply wp_mono; [apply wp_Full; [apply quietly_error|exact Hf]|].
  intros a c1 [_ H1]. by apply wp_ret.
Qed.

Lemma Full_asking {A B} (m : C A) (k : A -> C B) st self c Q : quietly m (fun _ => True) -> Full st self c ->
  (forall a c', Full st self c' -> wp (k a) Q c') -> wp (bind m k) Q c.
Proof. intros Hm Hf Hk. apply wp_bind. eapply wp_mono; [by eapply wp_Full|]. intros a c' [_ H]. by apply Hk. Qed.

Lemma quietly_on_channel_any {A} self (null : A) k : (forall ch, quietly (k ch) (fun _ => True)) ->
  quietly (on_channel self null k) (fun _ => True).
Proof. by apply quietly_on_channel. Qed.

Lemma quietly_flQuery ch : quietly (flQuery ch : C _) (fun _ => True).
Proof. intros n r. apply keeps_ask. Qed.

Lemma wp_useRing self c : Full false self c ->
  (is_some (rs_session (sr_session self)) = true -> rl_delegated (sr_link self) = true) ->
  wp (useRing self) outcome c.
Proof.
  intros Hf Hdel. unfold useRing.
  eapply Full_asking; [apply quietly_on_channel_any, quietly_flQuery|exact Hf|]. intros [rs info] c1 H1.
  destruct (negb _); [by apply wp_ret|]. set (s1 := put_cinfo self info).
  apply (Full_linked _ _ s1) in H1; [|done]. destruct (_ && _); [by apply wp_refuseSrc|].
  set (s2 := put_expired _ _). set (b := negb (is_some (rs_session (sr_session self)))).
  apply wp_bind. apply (wp_mono _ (fun _ c' => Full b s2 c')).
  { destruct (rp_nativeMemory _); [|apply wp_ret, Full_any; by apply (Full_linked _ s1)]. unfold on_channel.
    destruct (rl_ch (sr_link s1)) as [ch|] eqn:Es; [|apply wp_ret, Full_any; by apply (Full_linked _ s1)].
    destruct H1 as (n & (o & l & HI & H1) & Hp). unfold newOwner. apply wp_last. eapply wp_heap; [exact H1|]. intros c2 H2.
    apply wp_ret. apply (Full_linked _ s1); [done|]. eexists. split; [exists o, l; split; [|exact H2]|exact Hp].
    apply Inv_newOwner; [done|done|]. unfold b. intros Hb. apply Hdel. by destruct (is_some _). }
  intros [] c2 H2. change (rs_session (sr_session s2)) with (rs_session (sr_session self)). unfold b in *.
  destruct (rs_session (sr_session self)) as [i|]; [|by apply wp_ret].
  eapply Full_asking; [intros n r; apply keeps_track_ready|exact H2|]. intros a c3 H3. by apply wp_ret, Full_any.
Qed.

Lemma quietly_srcStartSession self : quietly (srcStartSession self) (fun x => linked x.2 = linked self
  /\ (x.1 = true -> is_some (rs_session (sr_session x.2)) = true -> rl_delegated (sr_link x.2) = true)).
Proof.
  intros n r. unfold srcStartSession. destruct (rs_session (sr_session self)) as [i|] eqn:Ei.
  2: { apply leaves_ret; [done|]. split; [done|]. cbn. by rewrite Ei. }
  eapply leaves_bind; [session|]. intros [rs cfg] _. cbv beta.
  destruct (_ || _) eqn:Ec.
  { unfold refuseSrc. eapply leaves_bind; [apply quietly_error|]. intros a _. by apply leaves_ret. }
  assert (rl_delegated (sr_link self) = true) as Hd.
  { destruct (rl_delegated (sr_link self)) eqn:Ed; [done|]. cbn in Ec. rewrite Ed, orb_true_r in Ec. cbn in Ec. discriminate. }
  apply (leaves_bind _ _ _ _ r _ _ (fun _ => r) (fun x => linked x.2 = linked self)).
  - walk (linked self) idtac.
  - intros [ok s1] El. cbn in El. destruct ok; cbn [negb]; apply leaves_ret; try done.
    unfold linked in *. cbn. simplify_eq. split; congruence.
Qed.

Lemma wp_srcStart self c : Full false self c -> wp (srcStart platform self) outcome c.
Proof.
  intros Hf. unfold srcStart.
  eapply Full_asking; [|exact Hf|]. { intros n r. unfold validSessionContext. walk (linked self) idtac. }
  intros valid c1 H1. destruct (negb valid); [by apply wp_ret|].
  apply wp_bind. eapply wp_mono; [apply wp_Full; [apply quietly_srcStartSession|exact H1]|].
  intros [ok s1] c2 [[El Hdel] H2]. cbn in El, Hdel. apply (Full_linked _ _ s1) in H2; [|done].
  destruct ok; cbn [negb]; [|by apply wp_ret]. specialize (Hdel eq_refl).
  eapply Full_asking; [|exact H2|]. { intros n r. unfold nativeAdoption, on_channel, flQueryConsumerFlags. walk (linked self) idtac. }
  intros ok c3 H3. destruct (negb ok); [by apply wp_refuseSrc|]. destruct (_ && _); [by apply wp_refuseSrc|].
  apply wp_bind. eapply wp_mono; [by apply wp_openRing|]. intros [rs s2] c4 (H4 & Ed & Es). cbn in *.
  destruct (negb _); [by apply wp_refuseSrc|]. apply wp_useRing; [done|]. by rewrite Ed, Es.
Qed.

(** ** Set-up by the application *)

Lemma wp_srcAdoptChannel ch st self n o l c : Inv st self n o l -> Holds (idle o l) n c -> pending_ok self n ->
  (forall x, ch = Some x -> x ∉ o) -> wp (srcAdoptChannel ch self) (fun x c' => Full st x.2 c') c.
Proof.
  intros HI Hc Hp Hch. unfold srcAdoptChannel, gst_state, flQuery, flQueryConsumerFlags.
  assert (forall c', Holds (idle o l) n c' -> Full st self c') as Hfin by (intros c' H'; exists n; split; [by exists o, l|done]).
  asking Hc c1 H1. destruct ch as [ch|]; [|by apply wp_ret, Hfin].
  destruct (_ || _ || _) eqn:Eg; [by apply wp_ret, Hfin|]. apply orb_false_elim in Eg as [[_ Eg]%orb_false_elim _].
  asking H1 c2 H2. destruct a0 as [r info]. destruct (negb _); [by apply wp_ret, Hfin|].
  destruct (_ || _ || _); [by apply wp_ret, Hfin|].
  asking H2 c3 H3. destruct a0 as [r2 flags]. destruct (negb _); [by apply wp_ret, Hfin|].
  destruct (_ && _); [by apply wp_ret, Hfin|]. destruct (_ && _); [by apply wp_ret, Hfin|].
  destruct (_ && _); [by apply wp_ret, Hfin|].
  assert (hp_nativeOwner n = None) as En.
  { destruct (hp_nativeOwner n) as [w|] eqn:En; [|done]. destruct (iv_native _ _ _ _ _ HI w En) as (ch' & _ & Es).
    by rewrite Es in Eg. }
  eapply (wp_moves _ _ _ _ (fun _ => idle (ch :: o) l)); [exact H3| |].
  { intros [] rg (Ho & Hl & Hr). rewrite follow_one. cbn. rewrite bool_decide_eq_false_2 by (rewrite Ho; by apply Hch).
    eexists. split; [reflexivity|]. split; cbn; [by rewrite Ho|done]. }
  intros [] c4 H4. apply wp_ret. exists n. split; [|exact Hp]. exists (ch :: o), l. split; [|exact H4].
  eapply Inv_channel; [exact HI|done|intros; by right|]. intros x [= <-]. split; [by apply Hch|by left].
Qed.

Lemma quietly_setup self : (forall p, quietly (srcApplyMemoryPolicy platform p self) (fun x => linked x.2 = linked self))
  /\ (forall ctx, quietly (srcSessionContext ctx self) (fun x => linked x = linked self))
  /\ (forall contract requirements, quietly (srcDecideAllocation contract requirements self) (fun _ => True)).
Proof.
  repeat split; intros.
  - intros n r. unfold srcApplyMemoryPolicy, gst_state. walk (linked self) idtac.
  - intros n r. unfold srcSessionContext, gst_state. walk (linked self) idtac. apply leaves_ret; [done|]. by case_bool_decide.
  - intros n r. unfold srcDecideAllocation. walk (linked self) idtac.
Qed.

(** Properties touch neither the ring nor the buffers. *)
Lemma wp_srcSetProperty prop st self c : Full st self c ->
  wp (srcSetProperty prop self) (fun s c' => Full st s c') c.
Proof.
  intros Hf. unfold srcSetProperty, gst_state. eapply Full_asking; [intros n r; apply keeps_ask|exact Hf|]. intros state c1 H1.
  destruct (_ && _); [by apply wp_ret|]. destruct (po_applied _); [by apply wp_ret|]. apply wp_ret.
  destruct H1 as (n & (o & l & HI & H1) & Hp). exists n.
  match goal with |- Safe _ ?s _ _ /\ _ => assert (sr_link s = sr_link self /\ sr_pending s = sr_pending self) as [E1 E2] by (by case_match) end.
  split.
  - exists o, l. split; [|done]. destruct HI. split; rewrite ?E1; done.
  - intros p Ep. rewrite E2 in Ep. by apply Hp.
Qed.

(** ** The life of the element *)

Lemma wp_still {B} st life (m : C B) (f : B -> GstFrameLinkSrc) c :
  wp m (fun x c' => Full st (f x) c') c ->
  wp (let! x := m in ret (mkLife st (f x) (lf_out life))) (fun lf c' => Full (lf_started lf) (lf_self lf) c') c.
Proof. intros Hm. apply wp_bind. eapply wp_mono; [exact Hm|]. intros x c' H. by apply wp_ret. Qed.

Lemma wp_second {A B} (m : C (A * B)) Q c : wp m (fun x => Q x.2) c -> wp (second m) Q c.
Proof. intros Hm. unfold second. apply wp_bind. eapply wp_mono; [exact Hm|]. intros [a b] c' H. by apply wp_ret. Qed.

Notation alive := (fun lf c => Full (lf_started lf) (lf_self lf) c).

Lemma wp_srcCallback k life c : Full (lf_started life) (lf_self life) c ->
  wp (srcCallback platform sse41 fuel k life) alive c.
Proof.
  intros Hf. destruct (quietly_setup (lf_self life)) as (Q1 & Q2 & Q3).
  destruct life as [st self out]. cbn [lf_started lf_self] in *.
  destruct k; cbn [srcCallback lf_started lf_self].
  - destruct st; [done|]. apply wp_bind. eapply wp_mono; [by apply wp_srcStart|]. intros [ok s] c1 H1. by apply wp_ret.
  - destruct st; [|done]. apply wp_bind. eapply wp_mono; [by apply wp_srcCreate|]. intros [[r b] s] c1 H1. by apply wp_ret.
  - destruct st; [|done]. unfold still. apply (wp_still _ _ _ id), wp_second. by apply wp_srcProbe.
  - destruct st; [|done]. apply wp_bind. unfold srcStop. apply wp_bind. eapply wp_mono; [by apply wp_clearPending|].
    intros s c1 [H1 ->]. eapply Full_asking; [apply quietly_cancelSource|exact H1|]. intros a c2 H2.
    assert (forall b, linked (if is_win platform then srcDropStaging b else b) = linked b) as Hd by (intros b; by destruct (is_win _)).
    apply (Full_linked _ _ _ _ (Hd _)) in H2. destruct H2 as (n & Hs & Hp).
    eapply wp_mono; [eapply wp_closeRing; [exact Hs|by rewrite (linked_pending _ _ (Hd _))]|]. intros s c3 H3. by apply wp_ret.
  - destruct st; [done|]. unfold still. apply (wp_still _ _ _ id). unfold srcFinalize. apply wp_bind.
    eapply wp_mono; [by apply wp_clearPending|]. intros s c1 [H1 ->].
    eapply Full_asking; [apply quietly_cancelSource|exact H1|]. intros a c2 (n & Hs & Hp). by eapply wp_closeRing.
  - destruct Hf as (n & (o & l & HI & Hc) & Hp). unfold pipelineHolds. eapply wp_heap; [exact Hc|]. intros c1 H1. cbn [fst snd] in *.
    destruct (hp_buffers n !! b) as [h|] eqn:Eb; [|done].
    match goal with |- wp (if negb ?g then _ else _) _ _ => destruct g eqn:Eg; [|done] end. cbn [negb].
    apply wp_bind. eapply wp_mono; [apply (wp_bufferUnref b st self n); by exists o, l|]. intros [] c2 (n2 & Hs2 & Hst).
    apply wp_ret. exists n2. split; [done|]. intros p Ep. cbn in Ep. destruct (Hp p Ep) as [h' Eh'].
    apply (Hst _ _ Eh'). destruct (decide (sb_id p = b)) as [Eid|]; [right|by left]. subst b. rewrite Eb in Eh'. injection Eh' as ->.
    unfold keepsPending in Eg. rewrite Ep, Nat.eqb_refl in Eg. by apply Nat.ltb_lt in Eg.
  - destruct Hf as (n & (o & l & HI & Hc) & Hp). apply Holds_open in Hc as (r & (Ho & Hl & Hr) & Hc & Eo).
    apply wp_bind. unfold wp at 1. match goal with |- context [bool_decide ?P] => idtac | _ => idtac end.
    destruct (match channel with Some ch => bool_decide (ch ∉ opens (c_log c)) | None => true end) eqn:Eg; cbn [negb]; [|done].
    unfold still. apply (wp_still _ _ _ id), wp_second. eapply wp_srcAdoptChannel; [exact HI|by exists r|exact Hp|].
    intros x ->. apply bool_decide_eq_true in Eg. by rewrite <- Ho, Eo.
  - unfold still. apply (wp_still _ _ _ id), wp_second. eapply wp_mono; [apply wp_Full; [apply Q1|exact Hf]|].
    intros x c1 [El H1]. by eapply Full_linked.
  - eapply Full_asking; [apply Q3|exact Hf|]. intros a c1 H1. by apply wp_ret.
  - unfold still. apply (wp_still _ _ _ id). eapply wp_mono; [apply wp_Full; [apply Q2|exact Hf]|].
    intros x c1 [El H1]. by eapply Full_linked.
  - unfold still. apply (wp_still _ _ _ id). by apply wp_srcSetProperty.
Qed.

Lemma wp_srcCallbacks l life c : Full (lf_started life) (lf_self life) c ->
  wp (srcCallbacks platform sse41 fuel l life) alive c.
Proof.
  revert life c. induction l as [|k l IH]; intros life c Hf; cbn [srcCallbacks]; [by apply wp_ret|].
  apply wp_bind. eapply wp_mono; [by apply wp_srcCallback|]. intros life' c' H'. by apply IH.
Qed.

(** C24: The source keeps no frame and closes no ring under a reader.  Whatever
    callbacks, property changes and hand-overs of channels come, and whatever the ring,
    the session and the pipeline answer, between callbacks: every frame that was read
    was released once, or leased once, or the ring refused to lease it; the leases
    still open are those of the native buffers still alive, one each, and each was
    completed once when its buffer went; a channel was closed only when no lease of it
    was left, and never twice; and a buffer kept for another delivery still exists. *)
Theorem source_frames_settled l life c c' : c_log c = [] -> c_native c = emptyHeap ->
  srcCallbacks platform sse41 fuel l srcLife_init c = Some (life, c') ->
  exists r, follow ring_step ring0 (c_log c') = Some r /\ ri_reads r = []
    /\ ri_leases r ≡ₚ omap (leaseOf (c_native c')) (readersOf (c_native c'))
    /\ (forall ch, rl_ch (sr_link (lf_self life)) = Some ch -> ch ∈ ri_open r)
    /\ pending_ok (lf_self life) (c_native c').
Proof.
  intros Hl Hn Hrun.
  assert (Full false src_init c) as Hf.
  { exists emptyHeap. split; [|done]. exists [], []. split.
    - split; try done; intros; set_solver.
    - exists ring0. split; [done|]. split; [done|]. by exists []. }
  pose proof (wp_srcCallbacks l srcLife_init c Hf) as H. unfold wp in H. rewrite Hrun in H.
  destruct H as (n & (o & ls & HI & (r & (Ho & Hls & Hr) & En & log & El & Hfl)) & Hp). subst n. exists r.
  rewrite El. split; [exact Hfl|]. split; [exact Hr|]. rewrite Hls, Ho. split; [apply HI|]. split; [apply HI|done].
Qed.
End Safe.

(** ** An example: a dma-buf is delivered and outlives the element *)

Definition srcInfo : flChannelInfo := mkChannelInfo 1 4 2 FL_FORMAT_BGRA8 3 1.
Definition srcFrame : flFrame := mkFrame 0 50 1000 1 1.

Definition srcElement : Element := {|
  el_now t := Z.of_nat t; el_state _ := GST_STATE_NULL; el_running _ _ t := t; el_delay := None;
  el_frame_map _ _ := None; el_buffer _ := Some (mkPlaneAt 5000 0); el_push _ := true;
  el_flushing _ := false; el_ok _ := true; el_context _ := None; el_fd t := Z.of_nat t;
  el_others _ _ := []; el_sleeps _ := []; el_written _ := true;
  el_open _ _ := (FL_INVALID, None); el_open_slot _ _ := (FL_INVALID, None); el_create _ _ := FL_OK;
  el_query _ _ := (FL_OK, srcInfo); el_flags _ _ := (FL_INVALID, 0);
  el_acquire _ _ := (FL_INVALID, mkBuffer 0 0); el_metadata _ _ := FL_OK; el_submit _ _ := FL_OK; el_retain _ _ := (FL_OK, 1);
  el_frame _ _ := (FL_OK, srcFrame); el_age _ _ := (FL_OK, 0); el_get_metadata _ _ := (FL_OK, zeroMetadata);
  el_release _ _ := FL_OK; el_lease _ _ := (FL_OK, 9); el_complete _ _ := FL_OK; el_collect _ _ := FL_OK;
  el_map _ _ := (FL_OK, mkPlaneAt 2000 32); el_planes _ _ := (FL_INVALID, zeroMapped);
|}.

Definition srcDmabuf : LinuxImage.flDmabuf := LinuxImage.mkDmabuf [30; 0; 0; 0] [64; 0; 0; 0] [16; 0; 0; 0] 1 0 0.

Definition srcImages (dmabuf : LinuxImage.flDmabuf) : SourceImages := {|
  si_format _ := GST_VIDEO_FORMAT_BGRA; si_info _ _ _ := Some (mkLayout 32 [0] [16]); si_set_caps _ _ := true;
  si_readback _ := None; si_dmabuf _ _ := (FL_OK, dmabuf); si_stat _ _ := Some (1, 2); si_memory _ := true;
  si_texture _ _ := false; si_pitch _ := None; si_ahb _ _ := None;
|}.

Definition srcCore : Core Heap := mkCore 1 (fun _ => ([], newSession 1)) empty emptyHeap [].
Definition srcScript : list SrcCallback :=
  [SrcSetProperty (SRC_PROP_NATIVE_MEMORY true); SrcStart; SrcCreate; SrcProbe; SrcStop; Unref 0].
Definition srcRun (l : list SrcCallback) : SrcLife * Core Heap :=
  default (srcLife_init, srcCore) (srcCallbacks (E := srcElement) (SI := srcImages srcDmabuf) Linux true 5 l srcLife_init srcCore).

(** Stopping leaves the channel to the buffer's reader; the buffer takes it along. *)
Lemma source_frames_settled_witness :
  c_log (srcRun srcScript).2
  = [DOpen 1; DRead 1 srcFrame; DNative (NDup 13); DLease 1 srcFrame 9; DComplete 1 9; DClose 1]
  /\ exists r, follow ring_step ring0 (c_log (srcRun srcScript).2) = Some r /\ ri_reads r = [] /\ ri_leases r ≡ₚ [].
Proof.
  split; [by vm_compute|].
  destruct (source_frames_settled (E := srcElement) (SI := srcImages srcDmabuf) Linux true 5 srcScript
    (srcRun srcScript).1 srcCore (srcRun srcScript).2) as (r & Hf & Hr & Hl & _); [done|done|by vm_compute|].
  exists r. split; [exact Hf|]. split; [exact Hr|]. rewrite Hl. by vm_compute.
Defined.
