(* ===== verification/GstSourceEnd.v ===== *)
(** * What the video source promises of its output (GstSource.v)

    The layout of native memory stays inside the memory, and the end of a session is
    the announced one. *)
From stdpp Require Import gmap.
From S2P Require Import Prelude Api Memory Session EventChannel SessionContext Bytes GstVideo Element GstSource GstSourceSafe.
From S2P Require LinuxImage.

Section Native.
Context `{E : Element} {SI : SourceImages}.
Notation Core := (Core Heap).
Notation C := (C Heap).

(** Rows of plane [i]. *)
Definition rowsOf (height : Z) (i : nat) : Z := match i with O => height | S _ => height / 2 end.

(** A plane of the image, inside [bytes]. *)
Record plane_inside (d : LinuxImage.flDmabuf) (height bytes : Z) (i : nat) (offset stride : Z) : Prop := mkInside {
  pi_offset : offset = nth i (LinuxImage.db_offset d) 0;
  pi_stride : stride = nth i (LinuxImage.db_stride d) 0;
  pi_int : stride <= G_MAXINT;
  pi_rows : 0 < rowsOf height i;
  pi_end : offset + stride * rowsOf height i <= bytes;
}.

Lemma inside_mono d height b b' i o s : plane_inside d height b i o s -> b <= b' -> plane_inside d height b' i o s.
Proof. intros [? ? ? ? ?] Hb. split; try done. lia. Qed.

Lemma dmabufPlanes_inside d first height : (forall i, 0 <= nth i (LinuxImage.db_stride d) 0) -> 0 <= height -> forall l bytes c,
  0 <= bytes <= UINT64_MAX ->
  wp (dmabufPlanes l d first height bytes : C _) (fun x _ =>
    match x with
    | Some (total, offsets, strides) => bytes <= total <= UINT64_MAX /\ length offsets = length l /\ length strides = length l
      /\ forall k i, l !! k = Some i -> exists o s, offsets !! k = Some o /\ strides !! k = Some s /\ plane_inside d height total i o s
    | None => True
    end) c.
Proof.
  intros Hs Hh l. induction l as [|i l IH]; intros bytes c Hb; cbn [dmabufPlanes].
  { apply wp_ret. repeat split; try done. lia. }
  apply wp_bind, wp_ask. intros st c1 _. destruct (negb _); [by apply wp_ret|].
  fold (rowsOf height i). set (stride := nth i (LinuxImage.db_stride d) 0) in *. set (offset := nth i (LinuxImage.db_offset d) 0) in *.
  destruct (_ || _ || _ || _) eqn:Eg; [by apply wp_ret|]. apply orb_false_elim in Eg as [Eg E4].
  apply orb_false_elim in Eg as [Eg E3]. apply orb_false_elim in Eg as [E1 E2].
  assert (0 < rowsOf height i) as Hrows.
  { unfold truthy in E3. assert (0 <= rowsOf height i) by (unfold rowsOf; destruct i; [done|by apply Z.div_pos]). lia. }
  assert (offset + stride * rowsOf height i <= UINT64_MAX) as Hend.
  { assert (stride * rowsOf height i <= (UINT64_MAX - offset) / rowsOf height i * rowsOf height i) by (apply Z.mul_le_mono_nonneg_r; lia).
    pose proof (Z.mul_div_le (UINT64_MAX - offset) (rowsOf height i)). lia. }
  apply wp_bind. eapply wp_mono; [apply IH; lia|]. intros [[[total offsets] strides]|] c2; [|by intros _; apply wp_ret].
  intros (Ht & Hlo & Hls & Hp). apply wp_ret. split; [lia|]. split; [cbn; by rewrite Hlo|]. split; [cbn; by rewrite Hls|].
  intros [|k] j Ej; cbn in Ej.
  - injection Ej as <-. exists offset, stride. split; [done|]. split; [done|]. split; try done; lia.
  - apply (Hp k j Ej).
Qed.

Lemma nth_padTo k l i o : l !! i = Some o -> nth i (padTo k l) 0 = o.
Proof.
  intros Hi. unfold padTo. rewrite app_nth1 by (by apply lookup_lt_Some in Hi). by apply nth_lookup_Some with (d := 0) in Hi.
Qed.

(** What the buffer of the image [x] says of its memory. *)
Definition describes self (x : flResult * LinuxImage.flDmabuf) (buf : SrcBuffer) : Prop :=
  let height := info_height (rl_cinfo (sr_link self)) in
  x.1 = FL_OK /\ LinuxImage.db_modifier x.2 = 0 /\ LinuxImage.db_planes x.2 = Z.of_nat (planesOf self)
  /\ exists layout, sb_layout buf = Some layout /\ vl_size layout <= UINT64_MAX
     /\ forall i, (i < planesOf self)%nat ->
        plane_inside x.2 height (vl_size layout) i (nth i (vl_offset layout) 0) (nth i (vl_stride layout) 0).

(** On Linux a native buffer describes memory that is there.  When the source
    makes a buffer out of a dma-buf, the image is linear and has as many planes as the
    format; each plane starts at the offset the ring names, its stride fits an [int],
    it has rows, and its last row ends inside the size given to the allocator - which
    is computed without wrapping around. *)
Theorem source_dmabuf_inside self f c buf c' :
  (forall t image i, 0 <= nth i (LinuxImage.db_stride (si_dmabuf t image).2) 0) ->
  0 <= info_height (rl_cinfo (sr_link self)) ->
  srcNativeBuffer Linux f self c = Some (Some buf, c') ->
  describes self (si_dmabuf (c_tick c) (fr_image f)) buf.
Proof.
  intros Hst Hh Hrun.
  enough (wp (srcNativeBuffer Linux f self) (fun x _ => forall buf, x = Some buf ->
    describes self (si_dmabuf (c_tick c) (fr_image f)) buf) c) as H by (unfold wp in H; rewrite Hrun in H; by apply H).
  clear Hrun. unfold srcNativeBuffer. apply wp_bind. unfold wp at 1, nativeOwner, native.
  destruct (hp_nativeOwner (c_native c)) as [o|]; [|by apply wp_ret]. unfold dmabufBuffer.
  apply wp_bind, wp_step_at. intros c1 _. cbn [c_tick].
  specialize (Hst (c_tick c) (fr_image f)). destruct (si_dmabuf (c_tick c) (fr_image f)) as [r d]. cbn [snd] in Hst.
  destruct (_ || _) eqn:E1; [by apply wp_ret|]. destruct (negb (LinuxImage.db_planes d =? _)) eqn:E2; [by apply wp_ret|].
  apply wp_bind, wp_ask. intros [first|] c2 _; [|by apply wp_ret].
  apply wp_bind. eapply wp_mono; [apply (dmabufPlanes_inside d first _ Hst Hh); done|].
  intros [[[total offsets] strides]|] c3; [|by intros _; apply wp_ret]. intros (Ht & _ & _ & Hp).
  apply wp_bind, wp_step. intros fd c4 _. destruct (fd <? 0); [by apply wp_ret|].
  apply wp_bind, wp_ask. intros mem c5 _. destruct (negb mem); [apply wp_bind, wp_act; intros c6 _; by apply wp_ret|].
  unfold leaseBuffer, on_channel. destruct (rl_ch (sr_link self)); [|by apply wp_ret].
  apply wp_bind, wp_step. intros [rl tok] c6 _. destruct (negb (bool_decide (rl = FL_OK))); [by apply wp_ret|].
  apply wp_bind, wp_true. intros b c7. apply wp_ret. intros buf' [= <-].
  apply orb_false_elim in E1 as [E1 E3]. case_bool_decide; [|done]. subst r.
  split; [done|]. cbn. split; [lia|]. split; [lia|]. eexists. split; [reflexivity|]. cbn. split; [lia|].
  intros i Hi. destruct (Hp i i) as (os & ss & Eo & Es & Hin).
  { by apply lookup_seq_lt. }
  by rewrite (nth_padTo _ _ _ _ Eo), (nth_padTo _ _ _ _ Es).
Qed.
End Native.

(** ** The end of a session *)

Section End.
Context `{E : Element} {SI : SourceImages}.
Context (platform : Platform) (sse41 : bool) (fuel : nat).
Notation Core := (Core Heap).
Notation C := (C Heap).
Implicit Types (self : GstFrameLinkSrc) (c : Core).

(** The gaps a stretch of the log took off the event stream, and those it pushed. *)
Definition took (log : list Did) : list FlGstVideoEvent :=
  omap (fun d => match d with DTook e => if ev_kind e =? FL_GST_VIDEO_GAP then Some e else None | _ => None end) log.
Definition down (log : list Did) : list (Z * Z) :=
  omap (fun d => match d with DGap pts duration => Some (pts, duration) | _ => None end) log.
Definition reading (d : Did) : bool := match d with DRead _ _ => true | _ => false end.

(** The gap [e], downstream: as long, and at the time the session mapped its own to. *)
Definition gapGone (generation : Z) (e : FlGstVideoEvent) (gap : Z * Z) : Prop :=
  gap.2 = ev_durationNs e /\ exists w, SessionContext.fl_gst_session_map_running_time GSession generation
    (ev_ptsNs e) true (Some 0) w = (FL_GST_SESSION_READY, Some gap.1).

(** What the counters say, and the session of the stream. *)
Definition tally self : Z * Z := (rs_frames (sr_session self), rs_lastPts (sr_session self)).
Definition sameStream self self' : Prop := tally self' = tally self /\ generationOf self' = generationOf self.
Definition pending self : list FlGstVideoEvent := rs_pendingGaps (sr_session self).

(** The event [kind] at [pts] came, or the session has no event stream. *)
Definition heard (generation kind pts : Z) (log : list Did) : Prop :=
  (exists w, SessionContext.fl_gst_session_has_event_stream GSession generation w = false)
  \/ exists e, DTook e ∈ log /\ ev_kind e = kind /\ ev_ptsNs e = pts.

(** The stream ended as announced: what was announced is what the counters say; no
    frame was read since; the announced end came on the event stream; and the gaps
    that were [waiting] and those that came since are downstream, in their order. *)
Definition ended (waiting : list FlGstVideoEvent) self c : Prop := exists before after frames pts,
  c_log c = before ++ DEnded frames pts :: after /\ Forall (fun d => reading d = false) after
  /\ tally self = (frames, pts) /\ heard (generationOf self) FL_GST_VIDEO_END (Z.max 0 pts) after
  /\ pending self = [] /\ Forall2 (gapGone (generationOf self)) (waiting ++ took after) (down after).

Lemma wp_look {A} i (f : World -> A) (Q : A -> Core -> Prop) c :
  (forall w c', after [] c c' -> Q (f w) c') -> wp (look i f) Q c.
Proof. intros H. apply H. by split; [rewrite app_nil_r|..]. Qed.

Lemma wp_receive i generation timeout (Q : FlGstSessionResult * FlGstVideoEvent -> Core -> Prop) c :
  (forall r e c', after (if bool_decide (r = FL_GST_SESSION_READY) then [DTook e] else []) c c' -> Q (r, e) c') ->
  wp (fl_gst_session_receive_video_event i generation timeout) Q c.
Proof.
  intros H. apply wp_bind, wp_look. intros w c1 H1. destruct (eventChannel _ _ _) as [k|].
  - apply wp_locked. intros [r e] c2 H2. apply H. exact (after_trans _ _ _ _ _ H1 H2).
  - apply wp_ret, H, H1.
Qed.

(** A stretch without frames and gaps; in the end [self'] has put the gaps aside. *)
Definition listened self l self' : Prop :=
  Forall (fun d => reading d = false) l /\ down l = [] /\ sameStream self self' /\ pending self' = pending self ++ took l.

Lemma listened_trans self l1 self1 l2 self2 :
  listened self l1 self1 -> listened self1 l2 self2 -> listened self (l1 ++ l2) self2.
Proof.
  intros (R1 & D1 & [T1 G1] & P1) (R2 & D2 & [T2 G2] & P2). split; [by apply Forall_app|].
  unfold down, took in *. rewrite !omap_app, D1, D2, P2, P1, <- app_assoc. repeat split; congruence.
Qed.

(** One event, and what is left of the loop. *)
Lemma listened_event self e self' : sameStream self self' ->
  pending self' = pending self ++ (if ev_kind e =? FL_GST_VIDEO_GAP then [e] else []) -> listened self [DTook e] self'.
Proof. intros Hs Hp. split; [by repeat constructor|]. split; [done|]. split; [done|]. rewrite Hp. cbn. by case_match. Qed.

Lemma wp_eventLoop k i kind pts deadline self c : kind <> FL_GST_VIDEO_GAP ->
  wp (eventLoop k i kind pts deadline self) (fun x c' => x.1 = true -> exists l, after l c c' /\ listened self l x.2
    /\ exists e, DTook e ∈ l /\ ev_kind e = kind /\ ev_ptsNs e = pts) c.
Proof.
  intros Hkind. revert self c. induction k as [|k IH]; intros self c; cbn [eventLoop]; [done|].
  apply wp_bind, wp_ask. intros now c1 H1. destruct (_ <=? _); [by apply wp_ret|].
  apply wp_bind, wp_ask. intros now' c2 H2. apply wp_bind, wp_receive. intros r e c3 H3.
  destruct (bool_decide (r = FL_GST_SESSION_READY)) eqn:Er; cbn [negb]; [|by apply wp_ret].
  pose proof (after_trans _ _ _ _ _ (after_trans _ _ _ _ _ H1 H2) H3) as H. cbn [app] in H. clear Er H1 H2 H3.
  assert (forall s1, listened self [DTook e] s1 -> wp (eventLoop k i kind pts deadline s1)
    (fun x c' => x.1 = true -> exists l, after l c c' /\ listened self l x.2
      /\ exists e, DTook e ∈ l /\ ev_kind e = kind /\ ev_ptsNs e = pts) c3) as Hgo.
  { intros s1 Hs. eapply wp_mono; [apply IH|]. intros x c4 Hx Et. destruct (Hx Et) as (l & Hl & Hr & e' & Hin & He).
    exists ([DTook e] ++ l). split; [by eapply after_trans|]. split; [by eapply listened_trans|].
    exists e'. split; [|done]. apply elem_of_app. by right. }
  destruct (ev_kind e =? FL_GST_VIDEO_GAP) eqn:Eg.
  { destruct (32 <=? _); [by apply wp_ret|]. apply Hgo, listened_event; [by split|]. by rewrite Eg. }
  assert (listened self [DTook e] self) as Hself by (apply listened_event; [by split|]; by rewrite Eg, app_nil_r).
  destruct (_ && _) eqn:Ek.
  { apply wp_ret. intros _. exists [DTook e]. split; [done|]. split; [done|]. exists e. split; [by left|]. lia. }
  destruct (negb _); [by apply wp_ret|]. by apply Hgo.
Qed.

Lemma wp_srcVideoEvents i kind pts self c : kind <> FL_GST_VIDEO_GAP ->
  wp (srcVideoEvents fuel i kind pts self) (fun x c' => x.1 = true -> exists l, after l c c' /\ listened self l x.2
    /\ heard (generationOf self) kind pts l) c.
Proof.
  intros Hkind. apply wp_bind, wp_look. intros w c1 H1. destruct (SessionContext.fl_gst_session_has_event_stream _ _ w) eqn:Ew; cbn [negb].
  - apply wp_bind, wp_ask. intros now c2 H2. eapply wp_mono; [by apply wp_eventLoop|].
    intros x c3 Hx Et. destruct (Hx Et) as (l & Hl & Hr & He). exists l. split; [|split; [done|by right]].
    exact (after_trans _ _ _ _ _ (after_trans _ _ _ _ _ H1 H2) Hl).
  - apply wp_ret. intros _. exists []. split; [done|]. split; [|left; by exists w].
    split; [done|]. split; [done|]. split; [by split|]. by rewrite app_nil_r.
Qed.

Lemma map_running_time_out generation pts w :
  (SessionContext.fl_gst_session_map_running_time GSession generation pts true (Some 0) w).2 <> None.
Proof.
  unfold SessionContext.fl_gst_session_map_running_time. destruct (_ || _); [done|]. destruct (refusedFor _ _); [done|].
  destruct (negb _); [done|]. unfold mapped_pts, flSessionMapPts. repeat case_match; simplify_eq; done.
Qed.

Lemma wp_emitGaps l i self c :
  wp (emitGaps l i self) (fun ok c' => ok = true -> exists log, after log c c'
    /\ Forall (fun d => reading d = false) log /\ took log = [] /\ Forall2 (gapGone (generationOf self)) l (down log)) c.
Proof.
  revert c. induction l as [|e l IH]; intros c; cbn [emitGaps].
  { apply wp_ret. intros _. exists []. split; [apply after_nil|]. split; [done|]. split; [done|constructor]. }
  apply wp_bind, wp_look. intros w c1 H1. destruct (SessionContext.fl_gst_session_map_running_time _ _ _ _ _ _) as [r out] eqn:Em.
  case_bool_decide as Er; cbn [negb orb]; [|by apply wp_ret]. destruct (_ <? _); [by apply wp_ret|].
  apply wp_bind, wp_step. intros [|] c2 H2; cbn [negb]; [|by apply wp_ret].
  eapply wp_mono; [apply IH|]. intros ok c3 Hx Et. destruct (Hx Et) as (log & Hl & Hr & Ht & Hg).
  exists ([DGap (default 0 out) (ev_durationNs e)] ++ log). split; [exact (after_trans _ _ _ _ _ (after_trans _ _ _ _ _ H1 H2) Hl)|].
  split; [by constructor|]. split; [exact Ht|]. constructor; [|exact Hg]. split; [done|]. exists w. subst r.
  pose proof (map_running_time_out (generationOf self) (ev_ptsNs e) w) as Hout. rewrite Em in Hout. by destruct out.
Qed.

Lemma wp_terminal self c :
  wp (terminal fuel self) (fun x c' => x.1 = Some GST_FLOW_EOS -> ended (pending self) x.2 c') c.
Proof.
  unfold terminal. destruct (rs_session (sr_session self)) as [i|]; [|by apply wp_ret].
  apply wp_bind. unfold fl_gst_session_wait_video_eos. apply wp_locked. intros [[r frames] pts] c1 H1. cbn in H1.
  destruct (bool_decide (r = FL_GST_SESSION_READY)); cbn [negb orb]; [|by apply wp_ret].
  destruct (_ <? _); [by apply wp_ret|].
  destruct (_ || _) eqn:Et; [apply wp_bind, wp_act; intros c2 _; by apply wp_ret|].
  assert (tally self = (frames, pts)) as Etally by (unfold tally; f_equal; lia).
  apply wp_bind. eapply wp_mono; [by apply wp_srcVideoEvents|]. intros [ok s1] c2 E1.
  destruct ok; cbn [negb fst] in *; [|apply wp_bind, wp_act; intros c3 _; by apply wp_ret].
  destruct (E1 eq_refl) as (l & Hl & (R1 & D1 & [T1 G1] & P1) & Hend). cbn [snd] in *.
  apply wp_bind. unfold srcEmitGaps. apply wp_bind. eapply wp_mono; [apply wp_emitGaps|]. intros [|] c3 E2;
    [|apply wp_ret; apply wp_bind, wp_act; intros c4 _; by apply wp_ret].
  destruct (E2 eq_refl) as (l2 & Hl2 & R2 & T2 & Hg). apply wp_ret, wp_ret. intros _.
  exists (c_log c), (l ++ l2), frames, pts. cbn [snd].
  pose proof (af_log _ _ _ (after_trans _ _ _ _ _ (after_trans _ _ _ _ _ H1 Hl) Hl2)) as El.
  split; [by rewrite El, <- !app_assoc|]. split; [by apply Forall_app|]. split; [by rewrite <- Etally, <- T1|].
  change (generationOf (put_pendingGaps s1 [])) with (generationOf s1). rewrite G1.
  split; [|split; [done|]].
  - replace (Z.max 0 pts) with (if pts <? 0 then 0 else pts) by (destruct (Z.ltb_spec pts 0); lia).
    destruct Hend as [Hend|(e & Hin & He)]; [by left|right]. exists e. split; [|done]. apply elem_of_app. by left.
  - unfold took, down in *. rewrite !omap_app, D1, T2, app_nil_r. rewrite G1 in Hg. fold (pending s1) in Hg. by rewrite P1 in Hg.
Qed.

Lemma wp_terminal_none self c : wp (terminal fuel self) (fun x _ => x.1 = None -> x.2 = self) c.
Proof.
  unfold terminal. destruct (rs_session (sr_session self)) as [i|]; [|by apply wp_ret].
  apply wp_bind, wp_true. intros [[r frames] pts] c1. destruct (_ || _); [by apply wp_ret|].
  destruct (_ || _); [apply wp_bind, wp_true; intros; by apply wp_ret|].
  apply wp_bind, wp_true. intros [ok s1] c2. destruct (negb ok); [apply wp_bind, wp_true; intros; by apply wp_ret|].
  apply wp_bind, wp_true. intros [ok2 s2] c3. destruct (negb ok2); [apply wp_bind, wp_true; intros; by apply wp_ret|by apply wp_ret].
Qed.

(** A piece of code that never answers EOS. *)
Ltac skip := repeat first
  [ apply wp_ret; done
  | match goal with
    | |- wp (match ?x with _ => _ end) _ _ => destruct x
    | |- wp (if ?x then _ else _) _ _ => destruct x
    | |- wp (bind _ _) _ _ => apply wp_bind, wp_true; intros ? ?
    end ].

Lemma wp_takeVideoEnd self (Q : bool * GstFrameLinkSrc -> Core -> Prop) c :
  (forall ok self' c', pending self' = pending self -> Q (ok, self') c') -> wp (takeVideoEnd self) Q c.
Proof.
  intros HQ. unfold takeVideoEnd. destruct (rs_session _); [|by apply wp_ret, HQ]. destruct (_ || _); [by apply wp_ret, HQ|].
  apply wp_bind, wp_true. intros [r e] c1. destruct (negb _); [by apply wp_ret, HQ|].
  apply wp_bind, wp_true. intros r2 c2. destruct (negb _); by apply wp_ret, HQ.
Qed.

(** Up to the end, nothing touches the gaps that wait. *)
Lemma wp_beforeRead deadline self c :
  wp (beforeRead fuel deadline self) (fun x c' => (x.1 = Some GST_FLOW_EOS -> ended (pending self) x.2 c')
    /\ (x.1 = None -> pending x.2 = pending self)) c.
Proof.
  unfold beforeRead. apply wp_bind, wp_true. intros current c1. destruct (negb current); [skip|].
  apply wp_bind, wp_true. intros flushing c2. destruct (flushing : bool); [skip|].
  apply wp_bind, wp_true. intros collected c3. destruct (_ && _); [skip|].
  apply wp_bind, wp_takeVideoEnd. intros ok s1 c4 <-. destruct (negb ok); [skip|].
  pose proof (wp_terminal s1 c4) as H1. pose proof (wp_terminal_none s1 c4) as H2. unfold wp in *.
  destruct (terminal _ _ _) as [[x c5]|]; [|done]. split; [done|]. intros Hx. by rewrite (H2 Hx).
Qed.

Lemma wp_readEnd k deadline self c :
  wp (readFrame fuel k deadline self) (fun x c' => x.1 = Return GST_FLOW_EOS -> ended (pending self) x.2 c') c.
Proof.
  revert self c. induction k as [|k IH]; intros self c; cbn [readFrame]; [done|].
  apply wp_bind. eapply wp_mono; [apply wp_beforeRead|]. intros [[r|] s1] c1 [H1 H2]; cbn in H1, H2.
  { apply wp_ret. cbn. intros [= ->]. by apply H1. }
  specialize (H2 eq_refl). clear H1. rewrite <- H2.
  apply wp_bind, wp_true. intros [r f] c2. destruct (bool_decide (r = FL_OK)).
  - destruct (negb (truthy _)); [skip|]. apply wp_bind, wp_true. intros [r2 age] c3.
    destruct (negb (bool_decide _)); [skip|]. destruct (_ <? age); [|skip]. apply wp_bind, wp_true. intros ? c4.
    apply (IH (put_expired s1 (inc64 (sr_expired s1)))).
  - destruct (_ || _); [apply IH|skip].
Qed.

Lemma wp_takeFrame_end f self c :
  wp (takeFrame platform sse41 fuel f self) (fun x _ => x.1.1 <> GST_FLOW_EOS) c.
Proof. unfold takeFrame, noBuffer. skip. Qed.

Lemma wp_waitSession k i deadline self c :
  wp (waitSession k i deadline self) (fun x _ => x <> Some GST_FLOW_EOS) c.
Proof.
  revert c. induction k as [|k IH]; intros c; cbn [waitSession]; [done|].
  apply wp_bind, wp_true. intros flushing c1. destruct (flushing : bool); [skip|].
  apply wp_bind, wp_true. intros now c2. destruct (_ <=? _); [skip|].
  apply wp_bind, wp_true. intros r c3. destruct (bool_decide _); [apply IH|skip].
Qed.

End End.

(** ** Examples *)

(** NV12: two planes in one dma-buf. *)
Definition endDmabuf : LinuxImage.flDmabuf := LinuxImage.mkDmabuf [30; 30; 0; 0] [64; 192; 0; 0] [32; 32; 0; 0] 2 0 0.
Definition endSource : GstFrameLinkSrc := put_cinfo (put_ch src_init (Some 1)) (mkChannelInfo 1 4 4 FL_FORMAT_NV12 3 1).
Definition endHeap : Core Heap := mkCore 1 (fun _ => ([], newSession 1)) empty (mkHeap [mkOwner 1 1] empty (Some 0%nat)) [].

Definition endMade : option SrcBuffer * Core Heap :=
  default (None, endHeap) (srcNativeBuffer (E := srcElement) (SI := srcImages endDmabuf) Linux srcFrame endSource endHeap).
Definition endLayout : VideoLayout := mkLayout 256 [64; 192; 0; 0] [32; 32; 0; 0].
Definition endBuffer : SrcBuffer :=
  mkSrcBuffer 0 GST_CLOCK_TIME_NONE GST_CLOCK_TIME_NONE GST_CLOCK_TIME_NONE false None (Some endLayout).

Lemma source_dmabuf_inside_witness : endMade.1 = Some endBuffer /\ describes endSource (FL_OK, endDmabuf) endBuffer.
Proof.
  split; [by vm_compute|].
  apply (source_dmabuf_inside (E := srcElement) (SI := srcImages endDmabuf) endSource srcFrame endHeap endBuffer endMade.2).
  - intros t image i. do 5 (destruct i as [|i]; [by vm_compute|]). by destruct i.
  - by vm_compute.
  - by vm_compute.
Defined.

(** A coordinated stream of one frame. *)
Definition endConfig : flSessionConfig :=
  mkConfig 1 (exId 7) (exId 9) 3 1 2 (mkVideo FL_FORMAT_BGRA8 4 2 60 1) (exAudio 48000) 1000 4 100 5000 2000.
Definition endCaps : flSessionCapabilities :=
  mkCaps 1 1 1 (mkVideo FL_FORMAT_BGRA8 4 2 60 1 :: replicate 7 zeroVideo) (exAudio 48000 :: replicate 7 zeroAudio).
Definition endCalls : list Call :=
  [RegisterTrack 2; Configure (Some endConfig) (Some endCaps) (Some endCaps); TrackReady 2 3;
   SetMapping 3 (Some (mkMapping (exId 9) (exId 11) 500 2000 10)) 50; VideoEos 3 1 1000;
   PublishEvents (Some endConfig) (Some 5) false;
   ReaderOn 0 (Bytes (eventRecord 3 1 (mkEvent FL_GST_VIDEO_GAP 1 2000 500)));
   ReaderOn 0 (Bytes (eventRecord 3 2 (mkEvent FL_GST_VIDEO_END 1 1000 0)))].
Definition endCore : Core Heap := mkCore 1 (fun _ => run endCalls ([], newSession 3)) empty emptyHeap [].

Definition endElement : Element := {|
  el_now t := Z.of_nat t; el_state _ := GST_STATE_NULL; el_running _ _ t := t; el_delay := None;
  el_frame_map _ _ := None; el_buffer _ := Some (mkPlaneAt 5000 0); el_push _ := true;
  el_flushing _ := false; el_ok _ := true; el_context _ := None; el_fd t := Z.of_nat t;
  el_others _ _ := []; el_sleeps _ := []; el_written _ := true;
  el_open _ _ := (FL_INVALID, None); el_open_slot _ _ := (FL_INVALID, None); el_create _ _ := FL_OK;
  el_query _ _ := (FL_OK, srcInfo); el_flags _ _ := (FL_OK, 0);
  el_acquire _ _ := (FL_INVALID, mkBuffer 0 0); el_metadata _ _ := FL_OK; el_submit _ _ := FL_OK; el_retain _ _ := (FL_OK, 1);
  el_frame _ _ := (FL_OK, srcFrame); el_age _ _ := (FL_OK, 0); el_get_metadata _ _ := (FL_OK, mkMetadata 1 0 0 0 3 0 0);
  el_release _ _ := FL_OK; el_lease _ _ := (FL_OK, 9); el_complete _ _ := FL_OK; el_collect _ _ := FL_OK;
  el_map _ _ := (FL_OK, mkPlaneAt 2000 32); el_planes _ _ := (FL_INVALID, zeroMapped);
|}.
Definition endRun (l : list SrcCallback) : SrcLife * Core Heap :=
  default (srcLife_init, endCore) (srcCallbacks (E := endElement) (SI := srcImages srcDmabuf) Linux true 5 l srcLife_init endCore).
Definition endScript : list SrcCallback :=
  [SrcSetProperty (SRC_PROP_WIDTH 4); SrcSetProperty (SRC_PROP_HEIGHT 2); SrcAdoptChannel (Some 7);
   SrcSessionContext (Some (Some 0%nat)); SrcStart; SrcCreate; SrcProbe].
Definition endLast : GstFlowReturn * option SrcBuffer * GstFrameLinkSrc * Core Heap :=
  default (GST_FLOW_OK, None, src_init, endCore)
    (srcCreate (E := endElement) (SI := srcImages srcDmabuf) Linux true 5 (lf_self (endRun endScript).1) (endRun endScript).2).

