(* ===== verification/GstAudio.v ===== *)
(** * What the audio elements share

    [FlAudioStartup] (gst/fl_gst_audio_startup.hpp) - the set-up of a standalone
    element, run by a worker thread - with the deferred output of
    fl_gst_audio_startup.cpp, over the element's world of Element.v; and the data
    of both audio elements: PCM blocks, events, state changes, properties.

    The worker calls the transport (LocalSession.v); here that call is one answer,
    which is there at some round of a wait.  What it does to the session meanwhile
    is part of what others do to it. *)
From Stdlib Require Import QArith.
From stdpp Require Import strings.
From S2P Require Import Prelude Api Session EventChannel SessionContext Bytes AudioWire GstVideo Element.
#[local] Open Scope Z_scope.

(** ** Data *)

Inductive GstStateChange :=
| GST_STATE_CHANGE_NULL_TO_READY | GST_STATE_CHANGE_READY_TO_PAUSED | GST_STATE_CHANGE_PAUSED_TO_PLAYING
| GST_STATE_CHANGE_PLAYING_TO_PAUSED | GST_STATE_CHANGE_PAUSED_TO_READY | GST_STATE_CHANGE_READY_TO_NULL.
Inductive GstStateChangeReturn := GST_STATE_CHANGE_FAILURE | GST_STATE_CHANGE_SUCCESS.
Inductive GstPadProbeReturn := GST_PAD_PROBE_OK | GST_PAD_PROBE_DROP.

#[export] Instance GstStateChange_eq_dec : EqDecision GstStateChange.
Proof. solve_decision. Defined.
#[export] Instance GstStateChangeReturn_eq_dec : EqDecision GstStateChangeReturn.
Proof. solve_decision. Defined.
#[export] Instance GstPadProbeReturn_eq_dec : EqDecision GstPadProbeReturn.
Proof. solve_decision. Defined.

(** A buffer: its times, its size and the DISCONT flag. *)
Record AudioBuffer := mkAudioBuffer { ab_pts : Z; ab_dts : Z; ab_duration : Z; ab_size : Z; ab_discont : bool }.

(** [GstStructure] of the terminal record: whether the event has the private type,
    and the fields that are there. *)
Record AudioTerminal := mkTerminal {
  te_private : bool; te_version : option Z; te_generation : option Z; te_blocks : option Z;
  te_bytes : option Z; te_frames : option Z; te_last : option Z;
}.

(** [GstCaps]: the name is audio/x-raw, and the fields of their type. *)
Record AudioCaps := mkAudioCaps {
  ac_raw : bool; ac_format : option string; ac_layout : option string;
  ac_rate : option Z; ac_channels : option Z;
  ac_mask : option (option Z);       (* channel-mask, and whether it is a bitmask *)
}.

Inductive AudioEvent :=
| AuFlushStart | AuFlushStop
| AuCaps (caps : option AudioCaps)
| AuSegment (segment : GstSegment)
| AuGap (pts duration : Z)
| AuTerminal (record : AudioTerminal)
| AuEos
| AuOther.

Inductive AudioItem := ItemEvent (e : AudioEvent) | ItemBuffer (b : option AudioBuffer).

Record AudioProps := mkAudioProps {
  ap_path : option string; ap_format : option string; ap_tracks : option string;
  ap_rate : Z; ap_channels : Z; ap_queueMs : Z; ap_connectMs : Z; ap_idleMs : Z;
}.

(** [gst_framelink_audio_*_init] *)
Definition audioDefaults : AudioProps :=
  mkAudioProps None (Some "S16LE"%string) (Some "audio"%string) 48000 2 80 15000 15000.

(** [s&&!strcmp(s,t)] *)
Definition equals (o : option string) (t : string) : bool := match o with Some s => String.eqb s t | None => false end.
(** [s&&*s] *)
Definition nonempty (o : option string) : bool := match o with Some s => negb (String.eqb s ""%string) | None => false end.

Inductive AudioProperty :=
| PROP_SESSION (v : option string) | PROP_FORMAT (v : option string) | PROP_TRACKS (v : option string)
| PROP_RATE (v : Z) | PROP_CHANNELS (v : Z) | PROP_QUEUE (v : Z) | PROP_CONNECT (v : Z) | PROP_IDLE (v : Z).

Definition setProps (prop : AudioProperty) (p : AudioProps) : AudioProps :=
  match prop with
  | PROP_SESSION v => mkAudioProps v (ap_format p) (ap_tracks p) (ap_rate p) (ap_channels p) (ap_queueMs p) (ap_connectMs p) (ap_idleMs p)
  | PROP_FORMAT v => mkAudioProps (ap_path p) v (ap_tracks p) (ap_rate p) (ap_channels p) (ap_queueMs p) (ap_connectMs p) (ap_idleMs p)
  | PROP_TRACKS v => mkAudioProps (ap_path p) (ap_format p) v (ap_rate p) (ap_channels p) (ap_queueMs p) (ap_connectMs p) (ap_idleMs p)
  | PROP_RATE v => mkAudioProps (ap_path p) (ap_format p) (ap_tracks p) v (ap_channels p) (ap_queueMs p) (ap_connectMs p) (ap_idleMs p)
  | PROP_CHANNELS v => mkAudioProps (ap_path p) (ap_format p) (ap_tracks p) (ap_rate p) v (ap_queueMs p) (ap_connectMs p) (ap_idleMs p)
  | PROP_QUEUE v => mkAudioProps (ap_path p) (ap_format p) (ap_tracks p) (ap_rate p) (ap_channels p) v (ap_connectMs p) (ap_idleMs p)
  | PROP_CONNECT v => mkAudioProps (ap_path p) (ap_format p) (ap_tracks p) (ap_rate p) (ap_channels p) (ap_queueMs p) v (ap_idleMs p)
  | PROP_IDLE v => mkAudioProps (ap_path p) (ap_format p) (ap_tracks p) (ap_rate p) (ap_channels p) (ap_queueMs p) (ap_connectMs p) v
  end.

Definition FL_GST_TRACK_VIDEO : Z := 1.
Definition FL_GST_TRACK_AUDIO : Z := 2.

(** [flAudioFormat] of the properties *)
Definition formatOf (p : AudioProps) : flAudioFormat :=
  mkAudio (if equals (ap_format p) "F32LE" then FL_PCM_F32 else FL_PCM_S16) (ap_rate p) (ap_channels p).

Definition zeroTime : GstSegment := mkSegment GST_FORMAT_TIME (Some 1%Q) (Some 1%Q) 0 0 0 UINT64_MAX.

(** ** The world of an audio element *)

Class AudioWorld := {
  au_session : nat -> nat;        (* g_object_new: where the session is *)
  au_open : nat -> option bool;   (* the worker: not there yet, or the answer of the transport *)
  au_cancelled : nat -> bool;     (* another thread cancelled the start-up *)
  au_outer : nat -> bool;         (* the caller's own cancellable *)
  au_parent : nat -> bool;        (* the parent class changes state *)
  au_accepts : nat -> bool;       (* gst_pad_send_event, gst_pad_chain, a sticky segment *)
  au_plugins : nat -> bool;       (* the elements inside could be made *)
  au_read : nat -> option (list Z); (* g_input_stream_read: an error, or the bytes *)
  au_playing : nat -> GstFlowReturn; (* gst_base_src_wait_playing *)
}.

Record FlAudioStartup := mkStartup {
  su_session : nat; su_producer : bool;
  su_cancelled : bool;                 (* of [cancel_] *)
  su_done : bool; su_ok : bool;
  su_connection : option Z;
}.

Definition startup_cancelled (s : FlAudioStartup) : FlAudioStartup :=
  mkStartup (su_session s) (su_producer s) true (su_done s) (su_ok s) (su_connection s).
Definition startup_done (s : FlAudioStartup) (ok : bool) : FlAudioStartup :=
  mkStartup (su_session s) (su_producer s) (su_cancelled s) true ok (su_connection s).
Definition startup_connected (s : FlAudioStartup) (c : option Z) : FlAudioStartup :=
  mkStartup (su_session s) (su_producer s) (su_cancelled s) (su_done s) (su_ok s) c.

Section Audio.
Context `{E : Element} `{W : AudioWorld}.
Notation C := (C (option FlAudioStartup)).

(** [*s->startup], and what it points at *)
Definition startup : C (option FlAudioStartup) := native (fun n => (n, n)).
Definition putStartup (s : option FlAudioStartup) : C unit := native (fun _ => (tt, s)).

(** ** The session *)

Definition fl_gst_session_claim_audio_stream (i : nat) (producer : bool) (generation : Z) : C (option Z) :=
  locked i (fun _ st => let '(a, w) := perform (ClaimAudio producer generation) st.2 in
                        Some (match a with Stream s => s | _ => None end, ((ClaimAudio producer generation, a) :: st.1, w)))
    (fun s => match s with Some stream => [DRef stream] | None => [] end).

Definition unref (stream : option Z) : C unit := act (match stream with Some s => [DUnref s] | None => [] end).

(** A new object, where none was. *)
Definition fl_gst_session_new (required : Z) : C nat := fun c =>
  let i := au_session (c_tick c) in
  Some (i, mkCore (S (c_tick c)) (update (c_sessions c) i ([], newSession required)) (c_mem c) (c_native c) (c_log c)).

(** [fl_gst_session_cancel(s->session)]: nothing for a null session. *)
Definition cancelSession (session : option nat) : C unit :=
  match session with Some i => fl_gst_session_cancel i | None => ret tt end.

(** ** [FlAudioStartup] *)

(** The worker's last lines, once the transport answered. *)
Definition workerEnds (s : FlAudioStartup) (ok : bool) : C FlAudioStartup :=
  let i := su_session s in
  let! ok :=
    (if ok then
       let! (r, config) := fl_gst_session_get_config i zeroConfig in
       return_if negb (bool_decide (r = FL_GST_SESSION_READY)) with ret false ;;
       let! r := fl_gst_session_register_track i FL_GST_TRACK_AUDIO in
       return_if negb (bool_decide (r = FL_GST_SESSION_READY)) with ret false ;;
       let! r := fl_gst_session_track_ready i FL_GST_TRACK_AUDIO (c_generation config) in
       ret (bool_decide (r = FL_GST_SESSION_READY))
     else ret false) in
  let s := startup_done s ok in
  putStartup (Some s) ;;
  (if negb ok && negb (su_cancelled s) then element_error else ret tt) ;;
  ret s.

Definition startupCancel (s : FlAudioStartup) : C unit :=
  putStartup (Some (startup_cancelled s)) ;; fl_gst_session_cancel (su_session s).

(** [wait], one unit of [n] per round of 5 ms: done, cancelled, or still waiting. *)
Fixpoint startupWait (n : nat) (s : FlAudioStartup) : C (bool * FlAudioStartup) :=
  let! other := ask au_cancelled in
  let s := if (other : bool) then startup_cancelled s else s in
  putStartup (Some s) ;;
  let! outer := ask au_outer in
  return_if su_cancelled s || outer with ret (false, s) ;;
  return_if su_done s with ret (su_ok s, s) ;;
  match n with
  | O => fun _ => None
  | S n =>
    let! finished := ask au_open in
    match finished with
    | Some ok => let! s := workerEnds s ok in startupWait n s
    | None => startupWait n s
    end
  end.

(** [connection]: the stream, claimed once; the caller gets a reference of its own. *)
Definition startupConnection (n : nat) (s : FlAudioStartup) : C (option Z) :=
  let! (ok, s) := startupWait n s in
  return_if negb ok with ret None ;;
  let! claimed :=
    match su_connection s with
    | Some c => ret (Some c)
    | None =>
      let! (r, config) := fl_gst_session_get_config (su_session s) zeroConfig in
      return_if negb (bool_decide (r = FL_GST_SESSION_READY)) with ret None ;;
      let! c := fl_gst_session_claim_audio_stream (su_session s) (su_producer s) (c_generation config) in
      putStartup (Some (startup_connected s c)) ;;
      ret c
    end in
  match claimed with
  | Some c => act [DRef c] ;; ret (Some c)
  | None => ret None
  end.

(** The destructor: cancelled, joined, and the reference to the stream goes. *)
Definition startupDestroy : C unit :=
  let! o := startup in
  match o with
  | Some s =>
    startupCancel s ;;
    unref (su_connection s) ;;
    putStartup None
  | None => ret tt
  end.

(** [*s->startup=std::make_shared<FlAudioStartup>(...)]: an old one goes. *)
Definition startupCreate (session : nat) (producer : bool) : C unit :=
  startupDestroy ;; putStartup (Some (mkStartup session producer false false false None)).

(** [( *s->startup)->cancel()], if there is one *)
Definition cancelStartup : C bool :=
  let! o := startup in
  match o with
  | Some s => startupCancel s ;; ret true
  | None => ret false
  end.

(** [writeBytes] of the deferred output: whether there is a stream to write on. *)
Definition writeBytes (n : nat) : C bool :=
  let! o := startup in
  match o with
  | None => ret false
  | Some s =>
    let! c := startupConnection n s in
    unref c ;;
    ret (is_some c)
  end.

(** [closeStream] *)
Definition closeStream : C unit := let! _ := cancelStartup in ret tt.
End Audio.
