(* ===== verification/GstAudioSink.v ===== *)
(** * framelinkaudiosink (gst/gstframelinkaudio.cpp)

    The PCM a pipeline gives it is inspected at the bin's pad, queued inside,
    wrapped by gdppay and written to the session's stream.  The probes run on the
    streaming threads, one of them after the queue; the callbacks are atomic here,
    with what other threads do to the session between their calls. *)
From Stdlib Require Import QArith.
From stdpp Require Import strings.
From S2P Require Import Prelude Api Session EventChannel SessionContext Bytes AudioWire GstVideo Element GstAudio.
#[local] Open Scope Z_scope.

(** ** State: the fields of [GstFrameLinkAudioSink], in groups *)

Record AudioSinkLink := mkAudioLink {
  al_session : option nat; al_connection : option Z; al_local : bool; al_registered : bool;
  al_config : flSessionConfig;
}.
Record AudioTimeline := mkTimeline {
  tl_haveSegment : bool; tl_segment : GstSegment; tl_samples : Z; tl_origin : Z;
}.
Record AudioCounts := mkCounts { cn_blocks : Z; cn_bytes : Z; cn_totalSamples : Z }.

(** What the elements inside were told: the caps of the filter with the channel
    mask, the limits of the queue, and whether the writer has a stream. *)
Record AudioPipe := mkPipe {
  pi_caps : flAudioFormat; pi_mask : option Z; pi_maxBytes : Z; pi_maxTime : Z; pi_writer : bool;
}.

Record GstFrameLinkAudioSink := mkAudioSink {
  as_props : AudioProps; as_link : AudioSinkLink; as_time : AudioTimeline; as_counts : AudioCounts;
  as_pipe : AudioPipe; as_elements : bool; as_failed : bool; as_drainEmptyHeader : bool;
}.
Implicit Types (self : GstFrameLinkAudioSink).

Definition put_props self v := mkAudioSink v (as_link self) (as_time self) (as_counts self) (as_pipe self)
  (as_elements self) (as_failed self) (as_drainEmptyHeader self).
Definition put_link self v := mkAudioSink (as_props self) v (as_time self) (as_counts self) (as_pipe self)
  (as_elements self) (as_failed self) (as_drainEmptyHeader self).
Definition put_time self v := mkAudioSink (as_props self) (as_link self) v (as_counts self) (as_pipe self)
  (as_elements self) (as_failed self) (as_drainEmptyHeader self).
Definition put_counts self v := mkAudioSink (as_props self) (as_link self) (as_time self) v (as_pipe self)
  (as_elements self) (as_failed self) (as_drainEmptyHeader self).
Definition put_pipe self v := mkAudioSink (as_props self) (as_link self) (as_time self) (as_counts self) v
  (as_elements self) (as_failed self) (as_drainEmptyHeader self).
Definition put_failed self v := mkAudioSink (as_props self) (as_link self) (as_time self) (as_counts self) (as_pipe self)
  (as_elements self) v (as_drainEmptyHeader self).
Definition put_drain self v := mkAudioSink (as_props self) (as_link self) (as_time self) (as_counts self) (as_pipe self)
  (as_elements self) (as_failed self) v.

Definition put_session self v := let l := as_link self in
  put_link self (mkAudioLink v (al_connection l) (al_local l) (al_registered l) (al_config l)).
Definition put_connection self v := let l := as_link self in
  put_link self (mkAudioLink (al_session l) v (al_local l) (al_registered l) (al_config l)).
Definition put_local self v := let l := as_link self in
  put_link self (mkAudioLink (al_session l) (al_connection l) v (al_registered l) (al_config l)).
Definition put_registered self v := let l := as_link self in
  put_link self (mkAudioLink (al_session l) (al_connection l) (al_local l) v (al_config l)).
Definition put_config self v := let l := as_link self in
  put_link self (mkAudioLink (al_session l) (al_connection l) (al_local l) (al_registered l) v).
Definition put_writer self v := let p := as_pipe self in
  put_pipe self (mkPipe (pi_caps p) (pi_mask p) (pi_maxBytes p) (pi_maxTime p) v).

Definition sessionOf self : option nat := al_session (as_link self).
Definition configOf self : flSessionConfig := al_config (as_link self).

(** [gst_framelink_audio_sink_init]: whether the elements inside could be made,
    and linked. *)
Definition audio_sink_init (elements linked : bool) : GstFrameLinkAudioSink :=
  mkAudioSink audioDefaults (mkAudioLink None None false false zeroConfig)
    (mkTimeline false zeroTime 0 0) (mkCounts 0 0 0) (mkPipe zeroAudio None 0 0 false)
    elements (elements && negb linked) false.

(** [gst_structure_get_value(st,"channel-mask")] against the session's layout. *)
Definition badMask (layout : Z) (caps : option AudioCaps) : bool :=
  match caps with
  | Some c =>
    match ac_mask c with
    | None => false
    | Some None => true
    | Some (Some mask) => if layout =? 2 then negb (mask =? 3) else negb (mask =? 0) && negb (mask =? 4)
    end
  | None => false
  end.

(** The distance of two unsigned numbers is at most one. *)
Definition within1 (a b : Z) : bool := negb (1 <? (if b <? a then a - b else b - a)).

Section Sink.
Context `{E : Element} `{W : AudioWorld} (fuel : nat).
Notation C := (C (option FlAudioStartup)).

(** [reject]: the first refusal is an error, and ends the session. *)
Definition reject self : C (GstPadProbeReturn * GstFrameLinkAudioSink) :=
  return_if as_failed self with ret (GST_PAD_PROBE_DROP, self) ;;
  element_error ;;
  cancelSession (sessionOf self) ;;
  ret (GST_PAD_PROBE_DROP, put_failed self true).

Definition runningTime (segment : GstSegment) (t : Z) : option Z :=
  match fl_gst_segment_running_time el_running (Some segment) t (Some 0) with
  | (true, Some running) => Some running
  | _ => None
  end.

(** ** Events at the pad *)

Definition inspectEvent (event : AudioEvent) self : C (GstPadProbeReturn * GstFrameLinkAudioSink) :=
  let t := as_time self in
  match event with
  | AuFlushStart | AuFlushStop =>
    cancelSession (sessionOf self) ;;
    ret (GST_PAD_PROBE_OK, put_failed self true)
  | AuCaps caps =>
    return_if badMask (a_layout (c_audio (configOf self))) caps with reject self ;;
    ret (GST_PAD_PROBE_OK, self)
  | AuSegment segment =>
    return_if negb (seg_format segment =? GST_FORMAT_TIME) || negb (isOne (seg_rate segment))
           || negb (isOne (seg_applied_rate segment)) with reject self ;;
    return_if tl_haveSegment t
           && (negb (seg_start segment =? seg_start (tl_segment t)) || negb (seg_base segment =? seg_base (tl_segment t))
               || negb (seg_offset segment =? seg_offset (tl_segment t)) || negb (seg_stop segment =? seg_stop (tl_segment t)))
      with reject self ;;
    ret (GST_PAD_PROBE_OK, put_time self (mkTimeline true segment (tl_samples t) (tl_origin t)))
  | AuGap pts duration =>
    match tl_haveSegment t, runningTime (tl_segment t) pts with
    | true, Some running =>
      return_if negb (clockValid duration) || (INT64_MAX - running <? duration) with reject self ;;
      act [DGap running duration] ;;
      ret (GST_PAD_PROBE_OK, put_time self (mkTimeline true (tl_segment t) 0 (running + duration)))
    | _, _ => reject self
    end
  | AuTerminal _ => reject self
  | AuEos =>
    let c := as_counts self in
    act [DStats (cn_blocks c) (cn_totalSamples c) (cn_bytes c) 0] ;;
    ret (GST_PAD_PROBE_OK, self)
  | AuOther => ret (GST_PAD_PROBE_OK, self)
  end.

(** ** PCM at the pad *)

(** A standalone element waits for its start-up at the first block. *)
Definition startedUp self : C (bool * GstFrameLinkAudioSink) :=
  let! o := startup in
  match o with
  | None => ret (true, self)
  | Some s =>
    let! (ok, _) := startupWait fuel s in
    return_if negb ok with ret (false, self) ;;
    match sessionOf self with
    | None => ret (false, self)      (* get_config of a null session *)
    | Some i =>
      let! (r, config) := fl_gst_session_get_config i (configOf self) in
      ret (bool_decide (r = FL_GST_SESSION_READY), put_config self config)
    end
  end.

(** [flSessionSampleOffset(n,rate,&out)==FL_SESSION_OK] *)
Definition sampleOffset (n rate : Z) : option Z :=
  match flSessionSampleOffset n rate (Some 0) with
  | (FL_SESSION_OK, Some out) => Some out
  | _ => None
  end.

(** The timeline at a block: a mark of discontinuity starts it anew. *)
Definition blockTimeline (b : AudioBuffer) (running : Z) (t : AudioTimeline) : AudioTimeline :=
  let '(samples, origin) := if ab_discont b then (0, GST_CLOCK_TIME_NONE) else (tl_samples t, tl_origin t) in
  mkTimeline (tl_haveSegment t) (tl_segment t) samples (if origin =? GST_CLOCK_TIME_NONE then running else origin).

(** The block starts where the samples before it end, and lasts as long as its
    own, to the nanosecond. *)
Definition continuous (rate running duration count : Z) (t : AudioTimeline) : bool :=
  return_if UINT64_MAX - tl_samples t <? count with false ;;
  match sampleOffset (tl_samples t) rate, sampleOffset (wrap64 (tl_samples t + count)) rate with
  | Some first, Some last =>
    return_if GST_CLOCK_TIME_NONE - 1 - tl_origin t <? first with false ;;
    within1 running (wrap64 (tl_origin t + first)) && within1 duration (last - first)
  | _, _ => false
  end.

Definition inspectBuffer (b : AudioBuffer) self : C (GstPadProbeReturn * GstFrameLinkAudioSink) :=
  let! (ok, self) := startedUp self in
  return_if negb ok with reject self ;;
  return_if negb (is_some (sessionOf self)) || negb (tl_haveSegment (as_time self))
         || negb (clockValid (ab_pts b)) || negb (clockValid (ab_duration b)) with reject self ;;
  match sessionOf self, runningTime (tl_segment (as_time self)) (ab_pts b) with
  | Some i, Some running =>
    return_if (INT64_MAX <? running) || (GST_CLOCK_TIME_NONE - 1 - running <? ab_duration b) with reject self ;;
    let c := configOf self in
    let bpf := bytesPerFrame (c_audio c) in
    let size := ab_size b in
    let count := size / bpf in
    return_if negb (truthy size) || truthy (size mod bpf) || (queueBudget c <? size) with reject self ;;
    let self := put_time self (blockTimeline b running (as_time self)) in
    let t := as_time self in
    return_if negb (continuous (a_rate (c_audio c)) running (ab_duration b) count t) with reject self ;;
    let! r := fl_gst_session_wait i (c_generation c) (c_connectTimeoutMs c) in
    return_if negb (bool_decide (r = FL_GST_SESSION_READY)) with reject self ;;
    return_if clockValid (ab_dts b) && negb (is_some (runningTime (tl_segment t) (ab_dts b))) with reject self ;;
    act [DPcm (c_audio c) (queueBudget c) running (ab_duration b) size (ab_discont b)] ;;
    let n := as_counts self in
    ret (GST_PAD_PROBE_OK,
         put_counts
           (put_time self (mkTimeline (tl_haveSegment t) (tl_segment t) (wrap64 (tl_samples t + count)) (tl_origin t)))
           (mkCounts (inc64 (cn_blocks n)) (wrap64 (cn_bytes n + size)) (wrap64 (cn_totalSamples n + count))))
  | _, _ => reject self
  end.

(** [inspect] *)
Definition inspect (item : AudioItem) self : C (GstPadProbeReturn * GstFrameLinkAudioSink) :=
  return_if as_failed self with ret (GST_PAD_PROBE_DROP, self) ;;
  match item with
  | ItemEvent e => inspectEvent e self
  | ItemBuffer None => ret (GST_PAD_PROBE_OK, self)
  | ItemBuffer (Some b) => inspectBuffer b self
  end.
(** ** The end, behind the queue *)

Definition emptyStream self : bool := cn_blocks (as_counts self) =? 0.

(** gdppay gives its first headers away only with a buffer: an empty trigger. *)
Definition drainHeaders self : C (bool * GstFrameLinkAudioSink) :=
  let self := put_drain self true in
  let! flow := ask au_accepts in
  ret (flow, put_drain self false).

(** The probe at the payloader's pad, on the end of the stream: the terminal
    record goes before it. *)
Definition terminal (event : AudioEvent) self : C (GstPadProbeReturn * GstFrameLinkAudioSink) :=
  match event with
  | AuEos =>
    return_if as_failed self with ret (GST_PAD_PROBE_OK, self) ;;
    let c := configOf self in
    let! (r, frames, last) :=
      (if truthy (c_videoTrackId c)
       then match sessionOf self with
            | Some i => fl_gst_session_wait_video_eos i (c_generation c) (c_idleTimeoutMs c)
            | None => ret (FL_GST_SESSION_INVALID, 0, -1)
            end
       else ret (FL_GST_SESSION_READY, 0, -1)) in
    return_if negb (bool_decide (r = FL_GST_SESSION_READY)) with reject self ;;
    let! segment := (if emptyStream self
                     then let! sticky := ask au_accepts in (if (sticky : bool) then ret true else ask au_accepts)
                     else ret true) in
    return_if negb segment with reject self ;;
    let n := as_counts self in
    let! sent := step au_accepts (fun ok : bool =>
      if ok then [DTerminal (c_generation c) (cn_blocks n) (cn_bytes n) frames last] else []) in
    return_if negb sent with reject self ;;
    let! (drained, self) := (if emptyStream self then drainHeaders self else ret (true, self)) in
    return_if negb drained with reject self ;;
    act [DEos] ;;
    ret (GST_PAD_PROBE_OK, self)
  | _ => ret (GST_PAD_PROBE_OK, self)
  end.

(** The probe behind the payloader: the trigger's packet is dropped. *)
Definition payOutput (bytes : list Z) self : GstPadProbeReturn :=
  return_if negb (as_drainEmptyHeader self) with GST_PAD_PROBE_OK ;;
  let header := take 10 bytes in
  if (length header =? 10)%nat && (GST_READ_UINT16_BE header 4 =? 1) && (GST_READ_UINT32_BE header 6 =? 0)
  then GST_PAD_PROBE_DROP else GST_PAD_PROBE_OK.

(** The probe in front of the writer: the segment of the serialized bytes. *)
Definition wireEvent (event : AudioEvent) : AudioEvent :=
  match event with AuSegment _ => AuSegment zeroTime | e => e end.

(** ** State changes *)

(** The session of a standalone element, and its start-up. *)
Definition openLocal self : C GstFrameLinkAudioSink :=
  let p := as_props self in
  let! i := fl_gst_session_new FL_GST_TRACK_AUDIO in
  startupCreate i true ;;
  ret (put_config (put_local (put_session self (Some i)) true)
         (mkConfig 0 zeroId zeroId 0 0 2 zeroVideo (formatOf p) 0 0 (ap_queueMs p) (ap_connectMs p) (ap_idleMs p))).

Definition refuse self : C (bool * GstFrameLinkAudioSink) := element_error ;; ret (false, self).

(** The checks, and the session: of the context, or one of its own. *)
Definition openSession self : C (bool * GstFrameLinkAudioSink) :=
  let p := as_props self in
  let tracks := ap_tracks p in
  let! valid := validSessionContext in
  return_if negb valid with ret (false, self) ;;
  return_if negb (as_elements self) || negb (equals tracks "audio" || equals tracks "av") with refuse self ;;
  let standalone := negb (is_some (sessionOf self)) && nonempty (ap_path p) in
  return_if standalone && (negb (equals (ap_format p) "S16LE" || equals (ap_format p) "F32LE") || negb (equals tracks "audio"))
    with refuse self ;;
  let! self := (if standalone then openLocal self else ret self) in
  match sessionOf self with
  | None => refuse self
  | Some i =>
    let! (ok, self) :=
      (if al_local (as_link self) then ret (true, self)
       else let! (r, config) := fl_gst_session_get_config i (configOf self) in
            ret (bool_decide (r = FL_GST_SESSION_READY), put_config self config)) in
    return_if negb ok || negb (truthy (c_audioTrackId (configOf self))) with refuse self ;;
    return_if negb (al_local (as_link self))
           && negb (Bool.eqb (truthy (c_videoTrackId (configOf self))) (equals tracks "av")) with refuse self ;;
    ret (true, self)
  end.

(** [fl_gst_session_cancel(s->session);g_clear_object(&s->connection);] *)
Definition dropConnection self : C GstFrameLinkAudioSink :=
  cancelSession (sessionOf self) ;;
  unref (al_connection (as_link self)) ;;
  ret (put_connection self None).

(** The authenticated stream of a shared session, and the track's registration. *)
Definition openStream self : C (bool * GstFrameLinkAudioSink) :=
  match sessionOf self, al_local (as_link self) with
  | Some i, false =>
    let! stream := fl_gst_session_claim_audio_stream i true (c_generation (configOf self)) in
    let self := put_connection self stream in
    return_if negb (is_some stream) with refuse self ;;
    return_if al_registered (as_link self) with ret (true, self) ;;
    let! r := fl_gst_session_register_track i FL_GST_TRACK_AUDIO in
    return_if negb (bool_decide (r = FL_GST_SESSION_READY))
      with (let! self := dropConnection self in ret (false, self)) ;;
    ret (true, put_registered self true)
  | _, _ => ret (true, self)
  end.

(** The caps of the filter, the limits of the queue, the stream of the writer. *)
Definition configurePipe self : GstFrameLinkAudioSink :=
  let c := configOf self in
  put_pipe self (mkPipe (c_audio c) (if a_layout (c_audio c) =? 2 then Some 3 else None)
                   (wrap32 (queueBudget c)) (c_audioQueueMs c * 1000000) true).

Definition startRun self : C GstFrameLinkAudioSink :=
  act [DStart] ;;
  ret (put_counts (put_time (put_failed self false) (mkTimeline false (tl_segment (as_time self)) 0 GST_CLOCK_TIME_NONE))
         (mkCounts 0 0 0)).

Definition sinkOpen self : C (bool * GstFrameLinkAudioSink) :=
  let! (ok, self) := openSession self in
  return_if negb ok with ret (false, self) ;;
  let! (ok, self) := openStream self in
  return_if negb ok with ret (false, self) ;;
  let! self := startRun (configurePipe self) in
  match sessionOf self, al_local (as_link self) with
  | Some i, false =>
    let! r := fl_gst_session_track_ready i FL_GST_TRACK_AUDIO (c_generation (configOf self)) in
    return_if negb (bool_decide (r = FL_GST_SESSION_READY))
      with (let! self := dropConnection self in ret (false, put_writer self false)) ;;
    ret (true, self)
  | _, _ => ret (true, self)
  end.

(** Back in NULL: the start-up, the stream and a session of its own go. *)
Definition sinkClose self : C GstFrameLinkAudioSink :=
  let! o := startup in
  let! self := match o with
               | Some _ => (let! _ := cancelStartup in startupDestroy) ;; ret (put_writer self false)
               | None => ret self
               end in
  let! self := (if is_some (al_connection (as_link self))
                then let! self := dropConnection self in ret (put_writer self false) else ret self) in
  ret (if al_local (as_link self) then put_local (put_session self None) false else self).

Definition changeState (transition : GstStateChange) self : C (GstStateChangeReturn * GstFrameLinkAudioSink) :=
  (match transition with
   | GST_STATE_CHANGE_PAUSED_TO_READY =>
     let! was := cancelStartup in
     if (was : bool) then ret tt else cancelSession (sessionOf self)
   | _ => ret tt
   end) ;;
  let! (ok, self) := (if bool_decide (transition = GST_STATE_CHANGE_NULL_TO_READY) then sinkOpen self else ret (true, self)) in
  return_if negb ok with ret (GST_STATE_CHANGE_FAILURE, self) ;;
  let! parent := ask au_parent in
  let result := if (parent : bool) then GST_STATE_CHANGE_SUCCESS else GST_STATE_CHANGE_FAILURE in
  let! self :=
    (if bool_decide (transition = GST_STATE_CHANGE_READY_TO_NULL)
        || (bool_decide (transition = GST_STATE_CHANGE_NULL_TO_READY) && negb parent)
     then sinkClose self else ret self) in
  ret (result, self).

(** The object goes. *)
Definition finalize self : C GstFrameLinkAudioSink :=
  (let! _ := cancelStartup in startupDestroy) ;;
  let! self := (if is_some (al_connection (as_link self)) then dropConnection self else ret self) in
  ret (put_session self None).

(** ** The rest of its interface *)

Definition setContext (context : option (option nat)) self : C GstFrameLinkAudioSink :=
  match context with
  | Some (Some i) =>
    let! state := gst_state in
    return_if negb (state =? GST_STATE_NULL) with (element_error ;; ret self) ;;
    ret (if bool_decide (sessionOf self = Some i) then self
         else put_registered (put_session self (Some i)) false)
  | _ => ret self
  end.

Definition setProperty (prop : AudioProperty) self : C GstFrameLinkAudioSink :=
  let! state := gst_state in
  return_if negb (state =? GST_STATE_NULL) with ret self ;;
  ret (put_props self (setProps prop (as_props self))).

(** [handleSinkMessage], for an error of an element inside or any other message. *)
Definition handleMessage (childError : bool) self : C GstFrameLinkAudioSink :=
  return_if childError && is_some (sessionOf self)
    with (cancelSession (sessionOf self) ;; ret (put_failed self true)) ;;
  ret self.

(** [sinkSendEvent]: whether it is passed on. *)
Definition sendEvent (seek : bool) self : bool := negb (seek && is_some (sessionOf self)).

(** ** A life of the element *)

Inductive AudioSinkCallback :=
| SinkChangeState (t : GstStateChange) | SinkInspect (item : AudioItem) | SinkTerminal (e : AudioEvent)
| SinkContext (context : option (option nat)) | SinkProperty (p : AudioProperty) | SinkMessage (childError : bool)
| SinkWrite | SinkCloseStream | SinkFinalize.

Definition only {A B} (m : C (A * B)) : C B := let! (_, b) := m in ret b.

Definition sinkCallback (k : AudioSinkCallback) self : C GstFrameLinkAudioSink :=
  match k with
  | SinkChangeState t => only (changeState t self)
  | SinkInspect item => only (inspect item self)
  | SinkTerminal e => only (terminal e self)
  | SinkContext c => setContext c self
  | SinkProperty p => setProperty p self
  | SinkMessage b => handleMessage b self
  | SinkWrite => let! _ := writeBytes fuel in ret self
  | SinkCloseStream => closeStream ;; ret self
  | SinkFinalize => finalize self
  end.

Fixpoint sinkCallbacks (l : list AudioSinkCallback) self : C GstFrameLinkAudioSink :=
  match l with
  | [] => ret self
  | k :: l => let! self := sinkCallback k self in sinkCallbacks l self
  end.
End Sink.
