(* ===== verification/GstAudioTime.v ===== *)
(** * The timeline of framelinkaudiosink (GstAudioSink.v)

    The receiver plays PCM by its time stamps, and ends when it has as much as the
    terminal record says.  What the sink lets through says both truly. *)
From Stdlib Require Import QArith.
From stdpp Require Import strings.
From S2P Require Import Prelude Api Session EventChannel SessionContext Bytes AudioWire GstVideo Element GstAudio GstAudioSink.
#[local] Open Scope Z_scope.

(** ** The start-up, in any log where cancelling and errors do not matter *)

Section Startup.
Context {H : Type} (next : H -> Did -> option H) (base : list Did) (h0 : H) (h : H).
Context `{E : Element} `{W : AudioWorld}.
Notation C := (C (option FlAudioStartup)).
Notation kept m := (leaves next base h0 (fun _ => True) h (m : C _) (fun _ => h) (fun _ => True)).
Context (Hc : quiet next h [DCancelled]) (He : quiet next h [DError]).
Context (Hr : forall s, quiet next h [DRef s]) (Hu : forall s, quiet next h [DUnref s]).

Ltac around := walk ltac:(fun h A => apply (leaves_bind _ _ _ _ h _ _ (fun _ => h) (fun _ => True)))
  ltac:(first [apply keeps_native; done|apply keeps_cancel; exact Hc|apply keeps_act; first [exact Hc|exact He|apply Hr|apply Hu]|session|eauto with startup]) done.

Create HintDb startup.

Lemma keeps_unref s : kept (unref s).
Proof. unfold unref. apply keeps_act. destruct s; [done|constructor]. Qed.

Lemma keeps_claim i p g : kept (fl_gst_session_claim_audio_stream i p g).
Proof. unfold fl_gst_session_claim_audio_stream. apply keeps_locked. intros [s|]; [done|constructor]. Qed.

Lemma keeps_cancelSession o : kept (cancelSession o).
Proof. unfold cancelSession. around. Qed.

Lemma keeps_workerEnds s ok : kept (workerEnds s ok).
Proof. unfold workerEnds, putStartup, element_error. around. Qed.

Lemma keeps_startupCancel s : kept (startupCancel s).
Proof. unfold startupCancel, putStartup. around. Qed.

#[local] Hint Resolve keeps_unref keeps_claim keeps_cancelSession keeps_workerEnds keeps_startupCancel : startup.

Lemma keeps_cancelStartup : kept cancelStartup.
Proof. unfold cancelStartup, startup. around. Qed.

Lemma keeps_startupWait n s : kept (startupWait n s).
Proof.
  revert s. induction n as [|n IH]; intros s; cbn [startupWait]; unfold putStartup; around; [apply leaves_stuck|apply IH..].
Qed.

#[local] Hint Resolve keeps_cancelStartup keeps_startupWait : startup.

Lemma keeps_startupConnection n s : kept (startupConnection n s).
Proof. unfold startupConnection, putStartup. around. Qed.

#[local] Hint Resolve keeps_startupConnection : startup.

Lemma keeps_startupDestroy : kept startupDestroy.
Proof. unfold startupDestroy, startup, putStartup. around. Qed.

#[local] Hint Resolve keeps_startupDestroy : startup.

Lemma keeps_startupCreate i p : kept (startupCreate i p).
Proof. unfold startupCreate, putStartup. around. Qed.

Lemma keeps_writeBytes n : kept (writeBytes n).
Proof. unfold writeBytes, startup. around. Qed.

Lemma keeps_session_new required : kept (fl_gst_session_new required).
Proof. intros c Hat. split; [|done]. eapply (at_after _ _ _ _ _ []); [exact Hat|done|by rewrite app_nil_r|done]. Qed.
End Startup.

(** ** What the log has to say *)

(** Sample frames since the origin of the time line, the origin, and the blocks and
    bytes of the run, modulo 2^64 as the counters are. *)
Record Pcm := mkPcm { pm_samples : Z; pm_origin : option Z; pm_blocks : Z; pm_bytes : Z }.

(** The time of sample [n], in nanoseconds, rounded down. *)
Definition sampleTime (n rate : Z) : Z := n * 1000000000 / rate.

(** A block: whole sample frames, within the budget, at the time its first sample
    has by the count of those before it, and as long as its own - to the
    nanosecond.  The first block, and one marked DISCONT, sets the origin. *)
Definition pcm_block (a : flAudioFormat) (budget pts duration size : Z) (discont : bool) (h : Pcm) : option Pcm :=
  let bpf := bytesPerFrame a in
  let count := size / bpf in
  let '(origin, samples) := if discont then (pts, 0) else (default pts (pm_origin h), pm_samples h) in
  if (0 <? size) && (size mod bpf =? 0) && (size <=? budget)
     && (8000 <=? a_rate a) && (a_rate a <=? 192000)
     && (Z.abs (pts - (origin + sampleTime samples (a_rate a))) <=? 1)
     && (Z.abs (duration - (sampleTime (samples + count) (a_rate a) - sampleTime samples (a_rate a))) <=? 1)
  then Some (mkPcm (samples + count) (Some origin) (inc64 (pm_blocks h)) (wrap64 (pm_bytes h + size)))
  else None.

Definition pcm_step (h : Pcm) (d : Did) : option Pcm :=
  match d with
  | DStart => Some (mkPcm 0 None 0 0)
  | DGap pts duration => Some (mkPcm 0 (Some (pts + duration)) (pm_blocks h) (pm_bytes h))
  | DPcm a budget pts duration size discont => pcm_block a budget pts duration size discont h
  | DTerminal _ blocks bytes _ _ =>
    if (blocks =? pm_blocks h) && (bytes =? pm_bytes h) then Some h else None
  | _ => Some h
  end.

Definition timeOf (self : GstFrameLinkAudioSink) : Pcm :=
  let t := as_time self in
  mkPcm (tl_samples t) (if tl_origin t =? GST_CLOCK_TIME_NONE then None else Some (tl_origin t))
    (cn_blocks (as_counts self)) (cn_bytes (as_counts self)).

Definition wf_time (t : AudioTimeline) : Prop := u64 (tl_samples t) /\ 0 <= tl_origin t.

(** Sizes and durations are unsigned. *)
Definition wf_item (item : AudioItem) : Prop :=
  match item with
  | ItemEvent (AuGap _ duration) => 0 <= duration
  | ItemBuffer (Some b) => 0 <= ab_size b /\ 0 <= ab_duration b
  | _ => True
  end.
Definition wf_callback (k : AudioSinkCallback) : Prop :=
  match k with SinkInspect item => wf_item item | _ => True end.

Lemma sampleOffset_exact n rate out : u64 n -> sampleOffset n rate = Some out ->
  8000 <= rate <= 192000 /\ out = sampleTime n rate /\ 0 <= out.
Proof.
  intros Hn. unfold sampleOffset. destruct ((rate <? 8000) || (192000 <? rate)) eqn:Er.
  { unfold flSessionSampleOffset. by rewrite Er. }
  rewrite session_sample_offset_exact by (done || lia). destruct (_ <=? INT64_MAX); [|done]. intros [= <-].
  split; [lia|]. split; [done|]. apply Z.div_pos; ulia.
Qed.

Lemma within1_abs a b : within1 a b = true -> Z.abs (a - b) <= 1.
Proof. unfold within1. destruct (b <? a) eqn:E; lia. Qed.

Lemma continuous_exact rate running duration count t : wf_time t -> 0 <= count ->
  continuous rate running duration count t = true ->
  8000 <= rate <= 192000 /\ wrap64 (tl_samples t + count) = tl_samples t + count /\ u64 (tl_samples t + count)
  /\ Z.abs (running - (tl_origin t + sampleTime (tl_samples t) rate)) <= 1
  /\ Z.abs (duration - (sampleTime (tl_samples t + count) rate - sampleTime (tl_samples t) rate)) <= 1.
Proof.
  intros [Hs Ho] Hc. unfold continuous. destruct (_ <? count) eqn:E1; [done|].
  assert (u64 (tl_samples t + count)) as Hn by ulia. rewrite (wrap64_small (tl_samples t + count)) by ulia.
  destruct (sampleOffset (tl_samples t) rate) as [first|] eqn:Ef; [|done].
  destruct (sampleOffset (tl_samples t + count) rate) as [last|] eqn:El; [|done].
  apply sampleOffset_exact in Ef as (Hr & -> & H0); [|done]. apply sampleOffset_exact in El as (_ & -> & _); [|done].
  unfold GST_CLOCK_TIME_NONE. destruct (_ <? sampleTime _ _) eqn:E2; [done|]. intros H.
  apply andb_prop in H as [H1 H2]. rewrite wrap64_small in H1 by ulia.
  apply within1_abs in H1, H2. repeat split; try done; try ulia.
Qed.

(** ** The block that passes *)

Lemma blockTimeline_wf b running t : wf_time t -> 0 <= running -> wf_time (blockTimeline b running t).
Proof.
  intros [Hs Ho] Hr. unfold blockTimeline. destruct (ab_discont b); split; cbn; try ulia; by case_match.
Qed.

(** The sink after the block. *)
Definition passed self t count size : GstFrameLinkAudioSink :=
  let n := as_counts self in
  put_counts
    (put_time self (mkTimeline (tl_haveSegment t) (tl_segment t) (wrap64 (tl_samples t + count)) (tl_origin t)))
    (mkCounts (inc64 (cn_blocks n)) (wrap64 (cn_bytes n + size)) (wrap64 (cn_totalSamples n + count))).

Lemma block_passes self b running a budget :
  let t := blockTimeline b running (as_time self) in
  let bpf := bytesPerFrame a in
  wf_time (as_time self) -> 0 <= running <= INT64_MAX -> 0 <= ab_size b ->
  ab_size b <> 0 -> ab_size b mod bpf = 0 -> ab_size b <= budget ->
  continuous (a_rate a) running (ab_duration b) (ab_size b / bpf) t = true ->
  pcm_step (timeOf self) (DPcm a budget running (ab_duration b) (ab_size b) (ab_discont b))
    = Some (timeOf (passed self t (ab_size b / bpf) (ab_size b)))
  /\ wf_time (as_time (passed self t (ab_size b / bpf) (ab_size b))).
Proof.
  intros t bpf Hw Hr Hs Hn Hm Hb Hc.
  assert (0 <= ab_size b / bpf) as Hcount.
  { assert (0 <= bpf) by (unfold bpf, bytesPerFrame, wrap32; apply Z.mod_pos_bound; lia).
    destruct (Z.eq_dec bpf 0) as [->|]; [by rewrite Zdiv_0_r|]. apply Z.div_pos; lia. }
  apply continuous_exact in Hc as (Hrate & Ewrap & Hu & H1 & H2); [|apply blockTimeline_wf; [done|lia]|done].
  assert (tl_origin t <> GST_CLOCK_TIME_NONE) as Horigin.
  { unfold t, blockTimeline, GST_CLOCK_TIME_NONE. destruct (ab_discont b); cbn; [ulia|]. case_match; ulia. }
  pose proof (blockTimeline_wf b running (as_time self) Hw ltac:(lia)) as Hwt. fold t in Hwt.
  split; [|split; cbn; [by rewrite Ewrap|apply Hwt]].
  cbn [pcm_step]. unfold pcm_block. fold bpf.
  replace (if ab_discont b then (running, 0) else (default running (pm_origin (timeOf self)), pm_samples (timeOf self)))
    with (tl_origin t, tl_samples t).
  2: { unfold t, blockTimeline, timeOf. destruct (ab_discont b); cbn; [done|]. by case_match. }
  replace (_ && _ && _ && _ && _ && _ && _) with true by lia.
  unfold timeOf. cbn. rewrite Ewrap. by destruct (Z.eqb_spec (tl_origin t) GST_CLOCK_TIME_NONE).
Qed.

(** ** The callbacks *)

Section Time.
Context `{E : Element} `{W : AudioWorld} (fuel : nat) (base : list Did) (h0 : Pcm).
Notation C := (C (option FlAudioStartup)).
Notation at_ h c := (at_ pcm_step base h0 (fun _ : option FlAudioStartup => True) h c).
Notation kept m := (forall h, leaves pcm_step base h0 (fun _ => True) h (m : C _) (fun _ => h) (fun _ => True)).
Context (Hrunning : forall s f t, 0 <= el_running s f t).
Implicit Types (self : GstFrameLinkAudioSink).

(** An element that failed lets nothing through, whatever its fields say. *)
Definition timed self (c : Core (option FlAudioStartup)) : Prop :=
  wf_time (as_time self) /\ exists h, at_ h c /\ (as_failed self = false -> h = timeOf self).

Lemma wp_kept {A} (m : C A) (Q : A -> Core _ -> Prop) h c :
  kept m -> at_ h c -> (forall a c', at_ h c' -> Q a c') -> wp m Q c.
Proof. intros Hm Hat HQ. eapply wp_mono; [by apply (Hm h)|]. intros a c' [Hc' _]. by apply HQ. Qed.

(** The same element, as far as its time goes. *)
Definition same_time self self' : Prop :=
  as_time self' = as_time self /\ as_counts self' = as_counts self /\ (as_failed self' = false -> as_failed self = false).

Lemma timed_same self self' c : timed self c -> same_time self self' -> timed self' c.
Proof.
  intros [Hw (h & Hat & Hh)] (Et & En & Ef). split; [by rewrite Et|]. exists h. split; [done|].
  intros Hf. rewrite Hh by auto. unfold timeOf. by rewrite Et, En.
Qed.

Lemma same_time_refl self : same_time self self.
Proof. done. Qed.

Lemma same_time_trans s1 s2 s3 : same_time s1 s2 -> same_time s2 s3 -> same_time s1 s3.
Proof. intros (E1 & E2 & E3) (F1 & F2 & F3). split; [congruence|]. split; [congruence|auto]. Qed.

(** Code that leaves the time alone. *)
Definition aside {A} (m : C A) self (S : A -> GstFrameLinkAudioSink) : Prop :=
  forall h, leaves pcm_step base h0 (fun _ => True) h m (fun _ => h) (fun x => same_time self (S x)).

Lemma wp_aside {A} (m : C A) self (S : A -> GstFrameLinkAudioSink) c :
  aside m self S -> timed self c -> wp m (fun x c' => timed (S x) c') c.
Proof.
  intros Hm [Hw (h & Hat & Hh)]. eapply wp_mono; [by apply (Hm h)|]. intros x c' [Hat' Hs].
  apply (timed_same self); [|done]. split; [done|]. by exists h.
Qed.

Ltac start_ups := first
  [ apply keeps_unref | apply keeps_claim | apply keeps_cancelSession | apply keeps_cancelStartup
  | apply keeps_startupDestroy | apply keeps_startupCreate | apply keeps_session_new | apply keeps_startupWait
  | apply keeps_writeBytes | apply keeps_native ]; solve [done|quiet|intros; quiet].
Ltac still := unfold same_time in *; cbn in *; intuition congruence.
Ltac between self h A :=
  lazymatch A with
  | GstFrameLinkAudioSink => apply (leaves_bind _ _ _ _ h _ _ (fun _ => h) (fun x => same_time self x))
  | (_ * GstFrameLinkAudioSink)%type => apply (leaves_bind _ _ _ _ h _ _ (fun _ => h) (fun x => same_time self x.2))
  | _ => apply (leaves_bind _ _ _ _ h _ _ (fun _ => h) (fun _ => True))
  end.
Ltac wander self := walk ltac:(fun h A => between self h A) ltac:(first [session|start_ups]) ltac:(first [done|still|repeat case_match; still]).

Lemma aside_reject self self0 : same_time self0 self -> aside (reject self) self0 snd.
Proof. intros Hs h. unfold reject. wander self0. Qed.

Lemma aside_refuse self self0 : same_time self0 self -> aside (refuse self) self0 snd.
Proof. intros Hs h. unfold refuse. wander self0. Qed.

Lemma aside_openSession self : aside (openSession self) self snd.
Proof. intros h. unfold openSession, validSessionContext, openLocal, refuse. wander self. Qed.

Lemma aside_dropConnection self self0 : same_time self0 self -> aside (dropConnection self) self0 id.
Proof. intros Hs h. unfold dropConnection, id. wander self0. Qed.

Lemma aside_openStream self self0 : same_time self0 self -> aside (openStream self) self0 snd.
Proof. intros Hs h. unfold openStream, dropConnection, refuse. wander self0. Qed.

Lemma aside_sinkClose self : aside (sinkClose self) self id.
Proof. intros h. unfold sinkClose, dropConnection, startup, id. wander self. Qed.

Lemma aside_finalize self : aside (finalize self) self id.
Proof. intros h. unfold finalize, dropConnection, id. wander self. Qed.

Lemma aside_setContext context self : aside (setContext context self) self id.
Proof. intros h. unfold setContext, id. wander self. Qed.

Lemma aside_setProperty prop self : aside (setProperty prop self) self id.
Proof. intros h. unfold setProperty, id. wander self. Qed.

Lemma aside_handleMessage b self : aside (handleMessage b self) self id.
Proof. intros h. unfold handleMessage, id. wander self. Qed.

Lemma startedUp_same self h : leaves pcm_step base h0 (fun _ => True) h (startedUp fuel self) (fun _ => h)
  (fun x => same_time self x.2 /\ as_failed x.2 = as_failed self).
Proof.
  unfold startedUp, startup. walk ltac:(fun h A => apply (leaves_bind _ _ _ _ h _ _ (fun _ => h) (fun _ => True)))
    ltac:(first [session|start_ups]) ltac:(done).
Qed.

(** ** What changes the time *)

Lemma wp_run {A} (m : C A) self (S : A -> GstFrameLinkAudioSink) (Q : A -> Core _ -> Prop) c :
  aside m self S -> timed self c -> (forall x c', timed (S x) c' -> Q x c') -> wp m Q c.
Proof. intros Hm Hs HQ. eapply wp_mono; [by apply (wp_aside m self S)|]. exact HQ. Qed.

(** A refusal: whatever was assigned before it does not matter any more. *)
Lemma timed_reject self0 self c : timed self0 c -> wf_time (as_time self) -> wp (reject self) (fun x c' => timed x.2 c') c.
Proof.
  intros [_ (h & Hat & _)] Hw. unfold reject. destruct (as_failed self) eqn:Ef.
  { apply wp_ret. split; [done|]. exists h. split; [done|]. cbn. congruence. }
  apply wp_bind. apply (wp_kept _ _ h); [intros h'; unfold element_error; one|done|]. intros a c1 H1.
  apply wp_bind. apply (wp_kept _ _ h); [intros h'; start_ups|done|]. intros b c2 H2.
  apply wp_ret. split; [done|]. by exists h.
Qed.

Lemma timed_aside_reject self c : timed self c -> wp (reject self) (fun x c' => timed x.2 c') c.
Proof. intros Hs. eapply timed_reject; [exact Hs|apply Hs]. Qed.

(** A call in between. *)
Lemma wp_between {A} (m : C A) self (Q : A -> Core _ -> Prop) c :
  kept m -> timed self c -> (forall a c', timed self c' -> Q a c') -> wp m Q c.
Proof.
  intros Hm [Hw (h & Hat & Hh)] HQ. apply (wp_kept m _ h); [done|done|]. intros a c' Hat'. apply HQ. split; [done|]. by exists h.
Qed.

(** One entry of the log that takes the time of one sink to that of another. *)
Lemma timed_act d self self' c (Q : unit -> Core _ -> Prop) : timed self c -> as_failed self = false ->
  pcm_step (timeOf self) d = Some (timeOf self') -> wf_time (as_time self') ->
  (forall c', timed self' c' -> Q tt c') -> wp (act [d] : C unit) Q c.
Proof.
  intros [_ (h & Hat & Hh)] Hf Hd Hw HQ. specialize (Hh Hf) as ->. apply wp_act. intros c' Ha. apply HQ.
  split; [done|]. exists (timeOf self'). split; [|done]. eapply at_later; [exact Hat|exact Ha|exact Hd].
Qed.

Lemma runningTime_bounds segment t running : runningTime segment t = Some running -> 0 <= running <= INT64_MAX.
Proof.
  unfold runningTime, fl_gst_segment_running_time. destruct (_ || _); [done|].
  destruct (_ || _) eqn:E1; [done|]. intros [= <-]. split; [apply Hrunning|lia].
Qed.

Lemma timed_inspectEvent event self c : timed self c -> as_failed self = false -> wf_item (ItemEvent event) ->
  wp (inspectEvent event self) (fun x c' => timed x.2 c') c.
Proof.
  intros Hs Hf Hwf. pose proof Hs as [Hw _]. destruct event as [| |caps|segment|pts duration|record| |]; cbn [inspectEvent].
  1, 2: apply wp_bind, (wp_between _ self); [intros h; start_ups|done|]; intros a c1 H1; apply wp_ret;
    apply (timed_same self); [exact H1|still].
  - destruct (badMask _ _); [by apply timed_aside_reject|by apply wp_ret].
  - destruct (_ || _ || _); [by apply timed_aside_reject|]. destruct (_ && _); [by apply timed_aside_reject|].
    apply wp_ret. destruct Hs as [_ (h & Hat & Hh)]. split; [exact Hw|]. exists h. split; [done|]. intros _. by rewrite Hh.
  - destruct (tl_haveSegment _); [|by apply timed_aside_reject].
    destruct (runningTime _ _) as [running|] eqn:Er; [|by apply timed_aside_reject]. apply runningTime_bounds in Er.
    destruct (_ || _) eqn:Ed; [by apply timed_aside_reject|]. cbn in Hwf. apply wp_bind.
    apply (timed_act _ self (put_time self (mkTimeline true (tl_segment (as_time self)) 0 (running + duration)))).
    + done.
    + done.
    + cbn. unfold timeOf. cbn. unfold GST_CLOCK_TIME_NONE. by replace (running + duration =? UINT64_MAX) with false by ulia.
    + split; cbn; ulia.
    + intros c1 H1. by apply wp_ret.
  - by apply timed_aside_reject.
  - apply wp_bind, (wp_between _ self); [intros h; one|done|]. intros a c1 H1. by apply wp_ret.
  - by apply wp_ret.
Qed.

Lemma timed_startedUp self c : timed self c -> as_failed self = false ->
  wp (startedUp fuel self) (fun x c' => timed x.2 c' /\ as_failed x.2 = false) c.
Proof.
  intros [Hw (h & Hat & Hh)] Hf. eapply wp_mono; [by apply (startedUp_same self h)|].
  intros x c' (Hat' & Hsame & Hf'). split; [|congruence]. apply (timed_same self); [|done]. split; [done|]. by exists h.
Qed.

Lemma timed_inspectBuffer b self c : timed self c -> as_failed self = false -> wf_item (ItemBuffer (Some b)) ->
  wp (inspectBuffer fuel b self) (fun x c' => timed x.2 c') c.
Proof.
  intros Hs Hf [Hsize Hdur]. unfold inspectBuffer. apply wp_bind. eapply wp_mono; [by apply timed_startedUp|].
  clear self Hs Hf. intros [ok self] c1 [Hs Hf]. cbn [snd] in Hs, Hf. pose proof Hs as [Hw _].
  destruct ok; cbn [negb]; [|by apply timed_aside_reject]. destruct (_ || _ || _ || _); [by apply timed_aside_reject|].
  destruct (sessionOf self) as [i|]; [|by apply timed_aside_reject].
  destruct (runningTime _ _) as [running|] eqn:Er; [|by apply timed_aside_reject]. apply runningTime_bounds in Er.
  destruct (_ || _); [by apply timed_aside_reject|]. destruct (_ || _ || _) eqn:Ez; [by apply timed_aside_reject|].
  set (t := blockTimeline b running (as_time self)). cbv zeta.
  assert (wf_time t) as Hwt by (apply blockTimeline_wf; [done|lia]).
  destruct (negb (continuous _ _ _ _ _)) eqn:Ec; [by apply (timed_reject self)|].
  apply wp_bind, (wp_between _ self); [intros h; unfold fl_gst_session_wait; one|done|]. intros r c2 H2.
  destruct (negb (bool_decide _)); [by apply (timed_reject self)|]. destruct (_ && _); [by apply (timed_reject self)|].
  destruct (block_passes self b running (c_audio (configOf self)) (queueBudget (configOf self))) as [Hd Hw'];
    [done|done|done|ulia|ulia|lia|by apply negb_false_iff in Ec|].
  apply wp_bind. eapply timed_act; [exact H2|done|exact Hd|done|]. intros c3 H3. by apply wp_ret.
Qed.

Lemma timed_inspect item self c : timed self c -> wf_item item ->
  wp (inspect fuel item self) (fun x c' => timed x.2 c') c.
Proof.
  intros Hs Hwf. unfold inspect. destruct (as_failed self) eqn:Ef; [by apply wp_ret|].
  destruct item as [e|[b|]]; [by apply timed_inspectEvent|by apply timed_inspectBuffer|by apply wp_ret].
Qed.

Lemma aside_drainHeaders self : aside (drainHeaders self) self snd.
Proof. intros h. unfold drainHeaders. wander self. Qed.

(** The terminal record says what was counted. *)
Lemma timed_terminal event self c : timed self c -> wp (terminal event self) (fun x c' => timed x.2 c') c.
Proof.
  intros Hs. unfold terminal. destruct event; try by apply wp_ret. destruct (as_failed self) eqn:Ef; [by apply wp_ret|].
  apply wp_bind, (wp_between _ self); [|done|].
  { intros h. unfold fl_gst_session_wait_video_eos. destruct (truthy _); [|by apply leaves_ret].
    destruct (sessionOf self); [|by apply leaves_ret]. apply keeps_locked. intros [[r f] p]. quiet. }
  intros [[r frames] last] c1 H1. destruct (negb (bool_decide _)); [by apply timed_aside_reject|].
  apply wp_bind, (wp_between _ self); [intros h; wander self|done|]. intros segment c2 H2.
  destruct (negb segment); [by apply timed_aside_reject|].
  apply wp_bind. apply wp_step. intros sent c3 Ha. assert (timed self c3) as H3.
  { destruct H2 as [Hw (h & Hat & Hh)]. specialize (Hh Ef) as ->. split; [done|]. exists (timeOf self). split; [|done].
    eapply at_later; [exact Hat|exact Ha|]. destruct sent; [|done]. unfold follow. cbn. by rewrite !Z.eqb_refl. }
  destruct (negb sent); [by apply timed_aside_reject|].
  apply wp_bind. apply (wp_run _ self snd); [|done|].
  { intros h. destruct (emptyStream self); [apply aside_drainHeaders|by apply leaves_ret]. }
  intros [drained self'] c4 H4. cbn [snd] in H4. destruct (negb drained); [by apply timed_aside_reject|].
  apply wp_bind, (wp_between _ self'); [intros h; one|done|]. intros a c5 H5. by apply wp_ret.
Qed.

Lemma timed_startRun self c : timed self c -> wp (startRun self) (fun self' c' => timed self' c') c.
Proof.
  intros [_ (h & Hat & _)]. unfold startRun. apply wp_bind, wp_act. intros c1 Ha. apply wp_ret.
  split; [split; cbn; unfold GST_CLOCK_TIME_NONE; ulia|]. exists (mkPcm 0 None 0 0). split; [|done].
  eapply at_later; [exact Hat|exact Ha|done].
Qed.

Lemma timed_sinkOpen self c : timed self c -> wp (sinkOpen self) (fun x c' => timed x.2 c') c.
Proof.
  intros Hs. unfold sinkOpen. apply wp_bind. apply (wp_run _ self snd); [apply aside_openSession|done|].
  clear self Hs. intros [ok self] c1 Hs. cbn [snd] in Hs. destruct (negb ok); [by apply wp_ret|].
  apply wp_bind. apply (wp_run _ self snd); [by apply aside_openStream|done|].
  clear self Hs ok. intros [ok self] c2 Hs. cbn [snd] in Hs. destruct (negb ok); [by apply wp_ret|].
  apply wp_bind. eapply wp_mono; [apply (timed_startRun (configurePipe self)); by apply (timed_same self)|].
  clear self Hs. intros self c3 Hs. destruct (sessionOf self) as [i|]; [|by apply wp_ret].
  destruct (al_local _); [by apply wp_ret|]. apply wp_bind, (wp_between _ self); [intros h; session|done|].
  intros r c4 H4. destruct (negb _); [|by apply wp_ret].
  apply wp_bind. apply (wp_run _ self id); [by apply aside_dropConnection|done|]. intros self' c5 H5. apply wp_ret.
  by apply (timed_same self').
Qed.

Lemma timed_changeState t self c : timed self c -> wp (changeState t self) (fun x c' => timed x.2 c') c.
Proof.
  intros Hs. unfold changeState. apply wp_bind, (wp_between _ self); [|done|].
  { intros h. destruct t; try by apply leaves_ret. wander self. }
  intros _ c1 H1. apply wp_bind. eapply (wp_mono _ (fun x c' => timed x.2 c')).
  { case_bool_decide; [by apply timed_sinkOpen|by apply wp_ret]. }
  clear self Hs H1. intros [ok self] c2 Hs. cbn [snd] in Hs. destruct (negb ok); [by apply wp_ret|].
  apply wp_bind, (wp_between _ self); [intros h; one|done|]. intros parent c3 H3. apply wp_bind.
  apply (wp_run _ self id); [|done|intros self' c4 H4; by apply wp_ret].
  intros h. destruct (_ || _); [apply aside_sinkClose|by apply leaves_ret].
Qed.

Lemma timed_sinkCallback k self c : timed self c -> wf_callback k ->
  wp (sinkCallback fuel k self) (fun self' c' => timed self' c') c.
Proof.
  intros Hs Hwf. destruct k as [t|item|e|ctx|p|b| | |]; cbn [sinkCallback].
  4: apply (wp_run _ self id); [apply aside_setContext|done|done].
  4: apply (wp_run _ self id); [apply aside_setProperty|done|done].
  4: apply (wp_run _ self id); [apply aside_handleMessage|done|done].
  6: apply (wp_run _ self id); [apply aside_finalize|done|done].
  4, 5: apply wp_bind, (wp_between _ self); [intros h; unfold closeStream; wander self|done|]; intros a c1 H1; by apply wp_ret.
  all: apply wp_bind; eapply wp_mono; [first [by apply timed_changeState|by apply timed_inspect|by apply timed_terminal]|];
    intros [a self'] c1 H1; by apply wp_ret.
Qed.

Lemma timed_sinkCallbacks l self c : timed self c -> Forall wf_callback l ->
  wp (sinkCallbacks fuel l self) (fun self' c' => timed self' c') c.
Proof.
  revert self c. induction l as [|k l IH]; intros self c Hs Hl; cbn [sinkCallbacks]; [by apply wp_ret|].
  apply Forall_cons in Hl as [Hk Hl]. apply wp_bind. eapply wp_mono; [by apply timed_sinkCallback|].
  intros self' c1 H1. by apply IH.
Qed.
End Time.

Definition pcm0 : Pcm := mkPcm 0 (Some 0) 0 0.

Lemma sink_timed `{E : Element} `{W : AudioWorld} fuel elements linked l c self c' :
  (forall s f t, 0 <= el_running s f t) -> Forall wf_callback l -> c_log c = [] ->
  sinkCallbacks fuel l (audio_sink_init elements linked) c = Some (self, c') ->
  exists h, follow pcm_step pcm0 (c_log c') = Some h /\ (as_failed self = false -> h = timeOf self).
Proof.
  intros Hr Hl Hc Hrun.
  pose proof (timed_sinkCallbacks fuel [] pcm0 Hr l (audio_sink_init elements linked) c) as H. unfold wp in H.
  rewrite Hrun in H. destruct H as [_ (h & (_ & log & El & Hf) & Hh)]; [|done|].
  - split; [split; cbn; ulia|]. exists pcm0. split; [|done]. split; [done|]. by exists [].
  - exists h. cbn in El. by rewrite El.
Qed.

(** C27: The audio sink lets PCM through on one exact time line.  Whatever its pads, its
    application, its session and its start-up do: every block that passes holds whole
    sample frames within the negotiated budget; it starts, to the nanosecond, where
    the samples since the origin put it - so there is no drift, however many blocks
    pass - and lasts as long as its own samples; only the first block, a DISCONT mark
    or a gap sets an origin; and a terminal record names exactly the blocks and bytes
    that passed since the sink was opened, as its counters do. *)
Theorem audio_sink_timeline `{E : Element} `{W : AudioWorld} fuel elements linked l c self c' :
  (forall s f t, 0 <= el_running s f t) -> Forall wf_callback l -> c_log c = [] ->
  sinkCallbacks fuel l (audio_sink_init elements linked) c = Some (self, c') ->
  exists h, follow pcm_step pcm0 (c_log c') = Some h /\ (as_failed self = false -> h = timeOf self).
Proof. intros. by eapply sink_timed. Qed.

(** ** An example: two blocks, a gap, a block and the end, of an A/V session *)

Definition audioConfig : flSessionConfig :=
  mkConfig 1 (exId 7) (exId 9) 3 1 2 (mkVideo FL_FORMAT_BGRA8 4 2 60 1) (exAudio 48000) 1000 4 100 5000 2000.
Definition audioCaps : flSessionCapabilities :=
  mkCaps 1 1 1 (mkVideo FL_FORMAT_BGRA8 4 2 60 1 :: replicate 7 zeroVideo) (exAudio 48000 :: replicate 7 zeroAudio).
(** The video track is ready and has ended, and the audio stream is published. *)
Definition audioCalls (producer : bool) : list Call :=
  [RegisterTrack 1; Configure (Some audioConfig) (Some audioCaps) (Some audioCaps); TrackReady 1 3;
   SetMapping 3 (Some (mkMapping (exId 9) (exId 11) 0 1000 10)) 50;
   PublishAudio (Some audioConfig) (Some 11) producer] ++ (if producer then [VideoEos 3 7 900] else []).
Definition audioCore (producer : bool) : Core (option FlAudioStartup) :=
  mkCore 1 (fun _ => run (audioCalls producer) ([], newSession 3)) empty None [].

Definition audioElement : Element := {|
  el_now t := Z.of_nat t; el_state _ := GST_STATE_NULL; el_running _ _ t := Z.max 0 t; el_delay := None;
  el_frame_map _ _ := None; el_buffer _ := None; el_push _ := true;
  el_flushing _ := false; el_ok _ := true; el_context _ := None; el_fd t := Z.of_nat t;
  el_others _ _ := []; el_sleeps _ := []; el_written _ := true;
  el_open _ _ := (FL_INVALID, None); el_open_slot _ _ := (FL_INVALID, None); el_create _ _ := FL_INVALID;
  el_query _ _ := (FL_INVALID, flChannelInfo_zero); el_flags _ _ := (FL_INVALID, 0);
  el_acquire _ _ := (FL_INVALID, mkBuffer 0 0); el_metadata _ _ := FL_INVALID; el_submit _ _ := FL_INVALID; el_retain _ _ := (FL_INVALID, 1);
  el_frame _ _ := (FL_INVALID, mkFrame 0 0 0 0 0); el_age _ _ := (FL_INVALID, 0); el_get_metadata _ _ := (FL_INVALID, mkMetadata 1 0 0 0 3 0 0);
  el_release _ _ := FL_INVALID; el_lease _ _ := (FL_INVALID, 9); el_complete _ _ := FL_INVALID; el_collect _ _ := FL_INVALID;
  el_map _ _ := (FL_INVALID, mkPlaneAt 0 0); el_planes _ _ := (FL_INVALID, zeroMapped);
|}.
Definition audioWorld : AudioWorld := {|
  au_session t := t; au_open _ := Some true; au_cancelled _ := false; au_outer _ := false; au_parent _ := true;
  au_accepts _ := true; au_plugins _ := true; au_read _ := None; au_playing _ := GST_FLOW_OK;
|}.

Definition tenMs (pts : Z) (discont : bool) : AudioItem :=
  ItemBuffer (Some (mkAudioBuffer pts GST_CLOCK_TIME_NONE 10000000 1920 discont)).
Definition sinkScript : list AudioSinkCallback :=
  [SinkContext (Some (Some 0%nat)); SinkProperty (PROP_TRACKS (Some "av"%string));
   SinkChangeState GST_STATE_CHANGE_NULL_TO_READY; SinkInspect (ItemEvent (AuSegment zeroTime));
   SinkInspect (tenMs 5 true); SinkInspect (tenMs 10000006 false); SinkInspect (ItemEvent (AuGap 20000005 7));
   SinkInspect (tenMs 20000012 false); SinkInspect (ItemEvent AuEos); SinkTerminal AuEos].
Definition sinkRun (l : list AudioSinkCallback) : GstFrameLinkAudioSink * Core (option FlAudioStartup) :=
  default (audio_sink_init true true, audioCore true)
    (sinkCallbacks (E := audioElement) (W := audioWorld) 5 l (audio_sink_init true true) (audioCore true)).

(** Three blocks of 10 ms pass; a late one after that would not. *)
Lemma audio_sink_timeline_witness :
  (exists h, follow pcm_step pcm0 (c_log (sinkRun sinkScript).2) = Some h
     /\ (as_failed (sinkRun sinkScript).1 = false -> h = timeOf (sinkRun sinkScript).1))
  /\ timeOf (sinkRun sinkScript).1 = mkPcm 480 (Some 20000012) 3 5760
  /\ as_failed (sinkRun (sinkScript ++ [SinkInspect (tenMs 30000020 false)])).1 = true.
Proof.
  split; [|split; by vm_compute].
  apply (audio_sink_timeline (E := audioElement) (W := audioWorld) 5 true true sinkScript (audioCore true)).
  - intros s f t. change (0 <= Z.max 0 t). lia.
  - repeat constructor; vm_compute; congruence.
  - by vm_compute.
  - by vm_compute.
Defined.
