(* ===== verification/GstAudioSrc.v ===== *)
(** * framelinkaudiosrc (gst/gstframelinkaudiosrc.cpp)

    The reader inside gives gdpdepay the bytes of the session's stream as they
    come, after a look at the packets in them (AudioWire.v); what gdpdepay makes of
    them is inspected at the bin's pad: PCM gets the receiver's times, and the end
    comes only with a terminal record that fits. *)
From Stdlib Require Import QArith.
From stdpp Require Import strings.
From S2P Require Import Prelude Api Session EventChannel SessionContext Bytes AudioWire GstVideo Element GstAudio.
#[local] Open Scope Z_scope.

(** ** State *)

Record FlAudioReader := mkReader {
  rd_pendingDelivery : option (list Z); rd_session : option nat; rd_connection : option Z;
  rd_eos : bool; rd_wire : Wire;
}.

Record GstFrameLinkAudioSrc := mkAudioSrc {
  ar_props : AudioProps; ar_reader : FlAudioReader; ar_elements : bool;
  ar_session : option nat; ar_local : bool; ar_registered : bool;
  ar_failed : bool; ar_segment : bool; ar_receivedSegment : GstSegment;
  ar_blocks : Z; ar_bytes : Z;
}.
Implicit Types (self : GstFrameLinkAudioSrc).

Definition set_props self v := mkAudioSrc v (ar_reader self) (ar_elements self) (ar_session self) (ar_local self)
  (ar_registered self) (ar_failed self) (ar_segment self) (ar_receivedSegment self) (ar_blocks self) (ar_bytes self).
Definition set_reader self v := mkAudioSrc (ar_props self) v (ar_elements self) (ar_session self) (ar_local self)
  (ar_registered self) (ar_failed self) (ar_segment self) (ar_receivedSegment self) (ar_blocks self) (ar_bytes self).
Definition set_link self session local registered := mkAudioSrc (ar_props self) (ar_reader self) (ar_elements self)
  session local registered (ar_failed self) (ar_segment self) (ar_receivedSegment self) (ar_blocks self) (ar_bytes self).
Definition set_failed self v := mkAudioSrc (ar_props self) (ar_reader self) (ar_elements self) (ar_session self)
  (ar_local self) (ar_registered self) v (ar_segment self) (ar_receivedSegment self) (ar_blocks self) (ar_bytes self).
Definition set_received self segment := mkAudioSrc (ar_props self) (ar_reader self) (ar_elements self) (ar_session self)
  (ar_local self) (ar_registered self) (ar_failed self) true segment (ar_blocks self) (ar_bytes self).
Definition set_counts self blocks bytes := mkAudioSrc (ar_props self) (ar_reader self) (ar_elements self)
  (ar_session self) (ar_local self) (ar_registered self) (ar_failed self) (ar_segment self) (ar_receivedSegment self)
  blocks bytes.
(** [s->failed=s->segment=FALSE;s->blocks=s->bytes=0;] *)
Definition set_run self := mkAudioSrc (ar_props self) (ar_reader self) (ar_elements self) (ar_session self)
  (ar_local self) (ar_registered self) false false (ar_receivedSegment self) 0 0.

Definition on_reader self (f : FlAudioReader -> FlAudioReader) := set_reader self (f (ar_reader self)).
Definition set_pending (r : FlAudioReader) v := mkReader v (rd_session r) (rd_connection r) (rd_eos r) (rd_wire r).
Definition set_rdSession (r : FlAudioReader) v := mkReader (rd_pendingDelivery r) v (rd_connection r) (rd_eos r) (rd_wire r).
Definition set_connection (r : FlAudioReader) v := mkReader (rd_pendingDelivery r) (rd_session r) v (rd_eos r) (rd_wire r).
Definition set_eos (r : FlAudioReader) v := mkReader (rd_pendingDelivery r) (rd_session r) (rd_connection r) v (rd_wire r).
Definition set_wire (r : FlAudioReader) v := mkReader (rd_pendingDelivery r) (rd_session r) (rd_connection r) (rd_eos r) v.

(** [gst_framelink_audio_src_init]; objects start as zero bytes. *)
Definition audio_src_init (elements : bool) : GstFrameLinkAudioSrc :=
  mkAudioSrc audioDefaults (mkReader None None None false (wireStart (replicate GDP_HEADER 0)))
    elements None false false false false zeroTime 0 0.

Section Source.
Context `{E : Element} `{W : AudioWorld} (fuel : nat).
Notation C := (C (option FlAudioStartup)).

(** ** The reader *)

(** [fl_gst_session_wait(...,&config)] *)
Definition waitConfig (i : nat) (generation timeout : Z) (config : flSessionConfig)
  : C (FlGstSessionResult * flSessionConfig) :=
  locked i (fun sleeps st =>
    '(r, out, st) ← SessionContext.fl_gst_session_wait GSession generation timeout (Some config) st sleeps;
    Some ((r, default config out), st)) (fun _ => []).

(** The wait for the required tracks, in steps of 50 ms, till the deadline. *)
Fixpoint awaitTracks (n : nat) (i : nat) (deadline : Z) (ready : FlGstSessionResult) (config : flSessionConfig)
  : C (FlGstSessionResult * flSessionConfig) :=
  let! cancelled := ask au_outer in
  return_if cancelled with ret (ready, config) ;;
  let! now := g_get_monotonic_time in
  let remaining := deadline - now in
  return_if remaining <=? 0 with ret (ready, config) ;;
  match n with
  | O => fun _ => None
  | S n =>
    let! (result, config) := waitConfig i (c_generation config) (Z.min 50 ((remaining + 999) / 1000)) config in
    return_if negb (bool_decide (result = FL_GST_SESSION_TIMEOUT)) with ret (result, config) ;;
    awaitTracks n i deadline result config
  end.

(** The stream: from the start-up of a standalone element, or claimed. *)
Definition connect (i : nat) : C (option Z) :=
  let! o := startup in
  match o with
  | Some s => startupConnection fuel s
  | None =>
    let! (r, config) := fl_gst_session_get_config i zeroConfig in
    return_if negb (bool_decide (r = FL_GST_SESSION_READY)) with ret None ;;
    let! now := g_get_monotonic_time in
    let! (result, config) := awaitTracks fuel i (now + c_connectTimeoutMs config * 1000) FL_GST_SESSION_TIMEOUT config in
    let! cancelled := ask au_outer in
    return_if negb (bool_decide (result = FL_GST_SESSION_READY)) || cancelled with ret None ;;
    fl_gst_session_claim_audio_stream i false (c_generation config)
  end.

(** A look at the bytes, against the configuration of now. *)
Definition looksBounded (i : nat) (bytes : list Z) (r : FlAudioReader) : C (bool * FlAudioReader) :=
  let! (result, c) := fl_gst_session_get_config i zeroConfig in
  return_if negb (bool_decide (result = FL_GST_SESSION_READY)) with ret (false, r) ;;
  match boundedWire c bytes (rd_wire r) with
  | Some (ok, w) => ret (ok, set_wire r w)
  | None => fun _ => None
  end.

(** After a wait for PLAYING the read starts over. *)
Definition retryOr (again : C (GstFlowReturn * option (list Z) * FlAudioReader)) (r : FlAudioReader)
  : C (GstFlowReturn * option (list Z) * FlAudioReader) :=
  let! flow := ask au_playing in
  return_if negb (bool_decide (flow = GST_FLOW_OK)) with ret (flow, None, r) ;;
  again.

Definition readError (r : FlAudioReader) : C (GstFlowReturn * option (list Z) * FlAudioReader) :=
  element_error ;; ret (GST_FLOW_ERROR, None, r).

(** [readChunkImpl], one unit of [n] per [goto retry]. *)
Fixpoint readChunkImpl (n : nat) (i : nat) (r : FlAudioReader) : C (GstFlowReturn * option (list Z) * FlAudioReader) :=
  match n with
  | O => fun _ => None
  | S n =>
    match rd_pendingDelivery r with
    | Some bytes => ret (GST_FLOW_OK, Some bytes, r)
    | None =>
      return_if rd_eos r with ret (GST_FLOW_EOS, None, r) ;;
      let! connection :=
        match rd_connection r with
        | Some c => ret (Some c)
        | None =>
          let! c := connect i in
          (if is_some c then (let! _ := fl_gst_session_get_config i zeroConfig in ret tt) else ret tt) ;;
          ret c
        end in
      let r := set_connection r connection in
      match connection with
      | None =>
        let! cancelled := ask au_outer in
        if (cancelled : bool) then retryOr (readChunkImpl n i r) r else readError r
      | Some _ =>
        let! data := ask au_read in
        match data with
        | Some ((_ :: _) as bytes) =>
          let! (bounded, r) := looksBounded i bytes r in
          return_if negb bounded
            with (element_error ;; fl_gst_session_cancel i ;; ret (GST_FLOW_ERROR, None, r)) ;;
          act [DChunk bytes] ;;
          ret (GST_FLOW_OK, Some bytes, set_pending r (Some bytes))
        | _ =>
          let! cancelled := ask au_outer in
          return_if cancelled with retryOr (readChunkImpl n i r) r ;;
          return_if bool_decide (data = Some []) && rd_eos r with ret (GST_FLOW_EOS, None, r) ;;
          readError r
        end
      end
    end
  end.

Definition readChunk self : C (GstFlowReturn * GstFrameLinkAudioSrc) :=
  match rd_session (ar_reader self) with
  | None => ret (GST_FLOW_ERROR, self)      (* a reader that runs has its session *)
  | Some i =>
    let! (result, _, r) := readChunkImpl fuel i (ar_reader self) in
    (if bool_decide (result = GST_FLOW_ERROR) || bool_decide (result = GST_FLOW_NOT_NEGOTIATED)
     then fl_gst_session_cancel i else ret tt) ;;
    ret (result, set_reader self r)
  end.

Definition startReader self : GstFrameLinkAudioSrc :=
  on_reader self (fun r => mkReader (rd_pendingDelivery r) (rd_session r) (rd_connection r) false
                             (wireStart (wr_header (rd_wire r)))).

Definition stopReader self : C GstFrameLinkAudioSrc :=
  unref (rd_connection (ar_reader self)) ;;
  ret (on_reader self (fun r => set_connection (set_pending r None) None)).

(** The base class pushed the chunk. *)
Definition chunkPushed self : GstFrameLinkAudioSrc := on_reader self (fun r => set_pending r None).

(** ** At the pad *)

(** [badInput] *)
Definition badInput self : C (GstPadProbeReturn * GstFrameLinkAudioSrc) :=
  return_if ar_failed self with ret (GST_PAD_PROBE_DROP, self) ;;
  element_error ;;
  cancelSession (ar_session self) ;;
  ret (GST_PAD_PROBE_DROP, set_failed self true).

Definition receivedTime self (t : Z) : option Z :=
  match fl_gst_segment_running_time el_running (Some (ar_receivedSegment self)) t (Some 0) with
  | (true, Some running) => Some running
  | _ => None
  end.

(** [fl_gst_session_map_running_time(...)==READY] *)
Definition mapTime (i : nat) (c : flSessionConfig) (running : Z) : C (option Z) :=
  let! (r, mapped) := fl_gst_session_map_running_time i (c_generation c) running (truthy (c_videoTrackId c)) in
  ret (if bool_decide (r = FL_GST_SESSION_READY) then Some mapped else None).

(** The record is of this session and counts what came. *)
Definition fits (record : AudioTerminal) (c : flSessionConfig) self : bool :=
  te_private record && bool_decide (te_version record = Some 1)
  && bool_decide (te_generation record = Some (c_generation c))
  && bool_decide (te_blocks record = Some (ar_blocks self)) && bool_decide (te_bytes record = Some (ar_bytes self)).

(** What the log keeps of a record that was accepted: what the record itself says. *)
Definition accepted (record : AudioTerminal) (frames last : Z) : Did :=
  DTerminal (default 0 (te_generation record)) (default 0 (te_blocks record)) (default 0 (te_bytes record)) frames last.

Definition inspectTerminal (i : nat) (c : flSessionConfig) (record : AudioTerminal) self
  : C (GstPadProbeReturn * GstFrameLinkAudioSrc) :=
  return_if negb (fits record c self) with badInput self ;;
  let frames := default 0 (te_frames record) in
  let last := default (-1) (te_last record) in
  let! accounted :=
    (if truthy (c_videoTrackId c) then
       return_if negb (is_some (te_frames record)) || negb (is_some (te_last record)) with ret false ;;
       let! r := fl_gst_session_video_eos i (c_generation c) frames last in
       ret (bool_decide (r = FL_GST_SESSION_READY))
     else ret true) in
  return_if negb accounted with badInput self ;;
  act [accepted record frames last; DEos] ;;
  ret (GST_PAD_PROBE_OK, on_reader self (fun r => set_eos r true)).

Definition capsAgree (c : flSessionConfig) (caps : option AudioCaps) : bool :=
  match caps with
  | Some caps =>
    ac_raw caps && equals (ac_format caps) (if a_pcm (c_audio c) =? FL_PCM_S16 then "S16LE" else "F32LE")
    && equals (ac_layout caps) "interleaved"
    && bool_decide (wrap32 <$> ac_rate caps = Some (a_rate (c_audio c)))
    && bool_decide (wrap32 <$> ac_channels caps = Some (a_layout (c_audio c)))
  | None => false      (* no caps, or not exactly one structure *)
  end.

Definition inspectPcmEvent (i : nat) (c : flSessionConfig) (event : AudioEvent) self
  : C (GstPadProbeReturn * GstFrameLinkAudioSrc) :=
  match event with
  | AuTerminal record => inspectTerminal i c record self
  | AuEos => return_if negb (rd_eos (ar_reader self)) with badInput self ;; ret (GST_PAD_PROBE_OK, self)
  | AuCaps caps => return_if negb (capsAgree c caps) with badInput self ;; ret (GST_PAD_PROBE_OK, self)
  | AuGap pts duration =>
    match ar_segment self, receivedTime self pts with
    | true, Some running =>
      let! mapped := mapTime i c running in
      match mapped with
      | Some mapped =>
        return_if negb (clockValid duration) || (INT64_MAX - mapped <? duration) with badInput self ;;
        act [DGap mapped duration] ;;
        ret (GST_PAD_PROBE_OK, self)
      | None => badInput self
      end
    | _, _ => badInput self
    end
  | AuSegment segment =>
    return_if negb (seg_format segment =? GST_FORMAT_TIME) || negb (isOne (seg_rate segment))
           || negb (isOne (seg_applied_rate segment)) with badInput self ;;
    ret (GST_PAD_PROBE_OK, set_received self segment)
  | _ => ret (GST_PAD_PROBE_OK, self)
  end.

Definition inspectPcmBuffer (i : nat) (c : flSessionConfig) (b : AudioBuffer) self
  : C (GstPadProbeReturn * GstFrameLinkAudioSrc) :=
  let bpf := bytesPerFrame (c_audio c) in
  let size := ab_size b in
  return_if negb (ar_segment self) || negb (truthy size) || truthy (size mod bpf) || (queueBudget c <? size)
         || negb (clockValid (ab_pts b)) || negb (clockValid (ab_duration b)) with badInput self ;;
  match receivedTime self (ab_pts b) with
  | None => badInput self
  | Some running =>
    let! mapped := mapTime i c running in
    match mapped with
    | None => badInput self
    | Some mapped =>
      return_if INT64_MAX - mapped <? ab_duration b with badInput self ;;
      let! dts :=
        (if clockValid (ab_dts b) then
           match receivedTime self (ab_dts b) with
           | Some running => let! dts := mapTime i c running in ret (is_some dts)
           | None => ret false
           end
         else ret true) in
      return_if negb dts with badInput self ;;
      act [DPcm (c_audio c) (queueBudget c) mapped (ab_duration b) size (ab_discont b)] ;;
      ret (GST_PAD_PROBE_OK, set_counts self (inc64 (ar_blocks self)) (wrap64 (ar_bytes self + size)))
    end
  end.

(** [inspectPcm] *)
Definition inspectPcm (item : AudioItem) self : C (GstPadProbeReturn * GstFrameLinkAudioSrc) :=
  return_if ar_failed self with ret (GST_PAD_PROBE_DROP, self) ;;
  match ar_session self with
  | None => badInput self      (* get_config of a null session *)
  | Some i =>
    let! (r, c) := fl_gst_session_get_config i zeroConfig in
    return_if negb (bool_decide (r = FL_GST_SESSION_READY)) with badInput self ;;
    match item with
    | ItemEvent e => inspectPcmEvent i c e self
    | ItemBuffer None => ret (GST_PAD_PROBE_OK, self)
    | ItemBuffer (Some b) => inspectPcmBuffer i c b self
    end
  end.

(** ** State changes *)

Definition srcRefuse self : C (bool * GstFrameLinkAudioSrc) := element_error ;; ret (false, self).

(** Standalone: a session of its own, set up by a start-up. *)
Definition srcOpenLocal self : C (bool * GstFrameLinkAudioSrc) :=
  let p := ar_props self in
  return_if negb (nonempty (ap_path p)) || negb (equals (ap_tracks p) "audio")
         || negb (equals (ap_format p) "S16LE" || equals (ap_format p) "F32LE") with srcRefuse self ;;
  let! i := fl_gst_session_new FL_GST_TRACK_AUDIO in
  startupCreate i false ;;
  ret (true, set_link self (Some i) true (ar_registered self)).

(** In a shared session: registered once, ready for its generation. *)
Definition srcOpenShared (i : nat) self : C (bool * GstFrameLinkAudioSrc) :=
  let! (r, c) := fl_gst_session_get_config i zeroConfig in
  return_if negb (bool_decide (r = FL_GST_SESSION_READY)) || negb (truthy (c_audioTrackId c))
         || negb (Bool.eqb (truthy (c_videoTrackId c)) (equals (ap_tracks (ar_props self)) "av")) with srcRefuse self ;;
  let! registered :=
    (if ar_registered self then ret true
     else let! r := fl_gst_session_register_track i FL_GST_TRACK_AUDIO in ret (bool_decide (r = FL_GST_SESSION_READY))) in
  return_if negb registered with srcRefuse self ;;
  let self := set_link self (ar_session self) (ar_local self) true in
  let! r := fl_gst_session_track_ready i FL_GST_TRACK_AUDIO (c_generation c) in
  return_if negb (bool_decide (r = FL_GST_SESSION_READY)) with srcRefuse self ;;
  ret (true, self).

Definition srcOpen self : C (bool * GstFrameLinkAudioSrc) :=
  let tracks := ap_tracks (ar_props self) in
  let! valid := validSessionContext in
  return_if negb valid with ret (false, self) ;;
  return_if negb (ar_elements self) || negb (equals tracks "audio" || equals tracks "av") with srcRefuse self ;;
  let! (ok, self) := match ar_session self with
                     | None => srcOpenLocal self
                     | Some i => srcOpenShared i self
                     end in
  return_if negb ok with ret (false, self) ;;
  act [DStart] ;;
  ret (true, set_run (on_reader self (fun r => set_rdSession r (ar_session self)))).

Definition srcClose self : C GstFrameLinkAudioSrc :=
  let! self :=
    (if ar_elements self then
       let! was := cancelStartup in
       (if (was : bool) then startupDestroy else ret tt) ;;
       ret (on_reader self (fun r => set_rdSession r None))
     else ret self) in
  ret (if ar_local self then set_link self None false (ar_registered self) else self).

Definition stateSrc (transition : GstStateChange) self : C (GstStateChangeReturn * GstFrameLinkAudioSrc) :=
  let! (ok, self) := (if bool_decide (transition = GST_STATE_CHANGE_NULL_TO_READY) then srcOpen self else ret (true, self)) in
  return_if negb ok with ret (GST_STATE_CHANGE_FAILURE, self) ;;
  (if bool_decide (transition = GST_STATE_CHANGE_PAUSED_TO_READY)
   then cancelSession (ar_session self) ;; (let! _ := cancelStartup in ret tt) else ret tt) ;;
  let! parent := ask au_parent in
  let! self :=
    (if bool_decide (transition = GST_STATE_CHANGE_READY_TO_NULL)
        || (bool_decide (transition = GST_STATE_CHANGE_NULL_TO_READY) && negb parent)
     then srcClose self else ret self) in
  ret (if (parent : bool) then GST_STATE_CHANGE_SUCCESS else GST_STATE_CHANGE_FAILURE, self).

(** The objects go: the bin's session, the reader's buffer, stream and start-up. *)
Definition finalizeReader self : C GstFrameLinkAudioSrc :=
  let! self := stopReader self in
  startupDestroy ;;
  ret (on_reader self (fun r => set_rdSession r None)).
Definition finalizeSrc self : C GstFrameLinkAudioSrc :=
  let! self := finalizeReader self in
  ret (set_link self None (ar_local self) (ar_registered self)).

(** ** The rest of its interface *)

Definition contextSrc (context : option (option nat)) self : C GstFrameLinkAudioSrc :=
  match context with
  | Some (Some i) =>
    let! state := gst_state in
    return_if negb (state =? GST_STATE_NULL) with (element_error ;; ret self) ;;
    ret (if bool_decide (ar_session self = Some i) then self else set_link self (Some i) (ar_local self) false)
  | _ => ret self
  end.

Definition setSrc (prop : AudioProperty) self : C GstFrameLinkAudioSrc :=
  let! state := gst_state in
  return_if negb (state =? GST_STATE_NULL) with ret self ;;
  ret (set_props self (setProps prop (ar_props self))).

Definition handleSrcMessage (childError : bool) self : C GstFrameLinkAudioSrc :=
  return_if childError && is_some (ar_session self)
    with (cancelSession (ar_session self) ;; ret (set_failed self true)) ;;
  ret self.

(** ** A life of the element *)

Inductive AudioSrcCallback :=
| SrcState (t : GstStateChange) | ReaderStart | ReaderStop | SrcRead | SrcPushed | SrcInspect (item : AudioItem)
| SrcContext (context : option (option nat)) | SrcProperty (p : AudioProperty) | SrcMessage (childError : bool)
| SrcFinalizeAll.

Definition second {A B} (m : C (A * B)) : C B := let! (_, b) := m in ret b.

Definition audioSrcCallback (k : AudioSrcCallback) self : C GstFrameLinkAudioSrc :=
  match k with
  | SrcState t => second (stateSrc t self)
  | ReaderStart => ret (startReader self)
  | ReaderStop => stopReader self
  | SrcRead => second (readChunk self)
  | SrcPushed => ret (chunkPushed self)
  | SrcInspect item => second (inspectPcm item self)
  | SrcContext c => contextSrc c self
  | SrcProperty p => setSrc p self
  | SrcMessage b => handleSrcMessage b self
  | SrcFinalizeAll => finalizeSrc self
  end.

Fixpoint audioSrcCallbacks (l : list AudioSrcCallback) self : C GstFrameLinkAudioSrc :=
  match l with
  | [] => ret self
  | k :: l => let! self := audioSrcCallback k self in audioSrcCallbacks l self
  end.
End Source.
