(* ===== verification/GstAudioEnd.v ===== *)
(** * The end of an audio stream

    The sink ends its stream with a record of what it let through, and the source
    ends its own only with such a record that counts what came: the end of one is
    the end of the other. *)
From Stdlib Require Import QArith.
From stdpp Require Import strings.
From S2P Require Import Prelude Api Session EventChannel SessionContext Bytes AudioWire GstVideo Element GstAudio.
From S2P Require Import GstAudioSink GstAudioTime GstAudioSrc.
#[local] Open Scope Z_scope.

(** ** Accounts *)

(** Blocks and bytes of PCM let through since the element was opened. *)
Definition deliver (n : Z * Z) (d : Did) : Z * Z :=
  match d with
  | DStart => (0, 0)
  | DPcm _ _ _ _ size _ => (n.1 + 1, n.2 + size)
  | _ => n
  end.
Definition delivered (log : list Did) : Z * Z := foldl deliver (0, 0) log.

(** The counters, and what a terminal record has to say. *)
Definition account (h : Z * Z) (d : Did) : option (Z * Z) :=
  match d with
  | DStart => Some (0, 0)
  | DPcm _ _ _ _ size _ => Some (inc64 h.1, wrap64 (h.2 + size))
  | DTerminal _ blocks bytes _ _ => if (blocks =? h.1) && (bytes =? h.2) then Some h else None
  | _ => Some h
  end.

Lemma wrap64_add a b : wrap64 (wrap64 a + b) = wrap64 (a + b).
Proof. unfold wrap64. by rewrite Zplus_mod_idemp_l. Qed.

Lemma account_delivered log n h : follow account (wrap64 n.1, wrap64 n.2) log = Some h ->
  h = (wrap64 (foldl deliver n log).1, wrap64 (foldl deliver n log).2).
Proof.
  revert n. induction log as [|d log IH]; intros n; [by intros [= <-]|]. cbn [foldl]. rewrite follow_cons.
  destruct d; cbn; try apply IH.
  - intros H. by apply (IH (0, 0)).
  - unfold inc64. rewrite !wrap64_add. intros H. by apply (IH (n.1 + 1, n.2 + size)).
  - destruct (_ && _); [apply IH|done].
Qed.

(** A terminal record in an accounted log says what was delivered before it. *)
Lemma account_terminal log l1 l2 h g blocks bytes frames last :
  follow account (0, 0) log = Some h -> log = l1 ++ DTerminal g blocks bytes frames last :: l2 ->
  blocks = wrap64 (delivered l1).1 /\ bytes = wrap64 (delivered l1).2.
Proof.
  intros H ->. rewrite follow_app in H. destruct (follow account (0, 0) l1) as [h1|] eqn:E1; [|done].
  apply (account_delivered l1 (0, 0)) in E1. fold (delivered l1) in E1. subst h1.
  cbn [mbind option_bind] in H. rewrite follow_cons in H. cbn in H. destruct (_ && _) eqn:E; [|done]. lia.
Qed.

(** The sink's time line accounts. *)
Lemma pcm_account h d h' : pcm_step h d = Some h' ->
  account (pm_blocks h, pm_bytes h) d = Some (pm_blocks h', pm_bytes h').
Proof.
  destruct d; cbn; try (by intros [= <-]).
  - unfold pcm_block. destruct (if discont then _ else _) as [origin samples]. case_match; [|done]. by intros [= <-].
  - destruct (_ && _); [|done]. by intros [= <-].
Qed.

Lemma pcm_accounts log h h' : follow pcm_step h log = Some h' ->
  follow account (pm_blocks h, pm_bytes h) log = Some (pm_blocks h', pm_bytes h').
Proof.
  revert h. induction log as [|d log IH]; intros h; [by intros [= <-]|].
  rewrite !follow_cons. destruct (pcm_step h d) as [h1|] eqn:E; [|done]. apply pcm_account in E. rewrite E. apply IH.
Qed.

(** ** The source accounts *)

Section Source.
Context `{E : Element} `{W : AudioWorld} (fuel : nat) (base : list Did) (h0 : Z * Z).
Notation C := (C (option FlAudioStartup)).
Notation leaves h m T R := (leaves account base h0 (fun _ => True) h (m : C _) T R).
Implicit Types (self : GstFrameLinkAudioSrc).

Definition countsOf self : Z * Z := (ar_blocks self, ar_bytes self).

(** Code that ends with the source's counters right. *)
Notation counted self m := (leaves (countsOf self) m (fun x => countsOf x.2) (fun _ => True)).

Ltac start_ups := first
  [ apply keeps_unref | apply keeps_claim | apply keeps_cancelSession | apply keeps_cancelStartup
  | apply keeps_startupDestroy | apply keeps_startupCreate | apply keeps_session_new | apply keeps_startupWait
  | apply keeps_startupConnection | apply keeps_native ]; solve [done|quiet|intros; quiet].
Ltac between h A :=
  lazymatch A with
  | GstFrameLinkAudioSrc => apply (leaves_bind _ _ _ _ h _ _ (fun _ => h) (fun x => countsOf x = h))
  | (_ * GstFrameLinkAudioSrc)%type => apply (leaves_bind _ _ _ _ h _ _ (fun _ => h) (fun x => countsOf x.2 = h))
  | _ => apply (leaves_bind _ _ _ _ h _ _ (fun _ => h) (fun _ => True))
  end.
Ltac count known := walk ltac:(fun h A => between h A) ltac:(first [session|start_ups|known]) ltac:(first [done|case_match; done]).

Lemma keeps_awaitTracks h n i deadline r config : leaves h (awaitTracks n i deadline r config) (fun _ => h) (fun _ => True).
Proof.
  revert r config. induction n as [|n IH]; intros r config; cbn [awaitTracks]; unfold waitConfig, g_get_monotonic_time;
    count ltac:(apply IH). apply leaves_stuck.
Qed.

Lemma keeps_connect h i : leaves h (connect fuel i) (fun _ => h) (fun _ => True).
Proof. unfold connect, startup, g_get_monotonic_time. count ltac:(apply keeps_awaitTracks). Qed.

Lemma keeps_looksBounded h i bytes r : leaves h (looksBounded i bytes r) (fun _ => h) (fun _ => True).
Proof. unfold looksBounded. count idtac. apply leaves_stuck. Qed.

Lemma keeps_readChunkImpl h n i r : leaves h (readChunkImpl fuel n i r) (fun _ => h) (fun _ => True).
Proof.
  revert r. induction n as [|n IH]; intros r; cbn [readChunkImpl]; [apply leaves_stuck|].
  unfold retryOr, readError. count ltac:(first [apply keeps_connect|apply keeps_looksBounded|apply IH]).
Qed.

(** Most code leaves the counters alone. *)
Notation steady self m S := (forall h, h = countsOf self -> leaves h m (fun _ => h) (fun x => countsOf (S x) = h)).

Lemma steady_counted {A} self (m : C A) (S : A -> GstFrameLinkAudioSrc) :
  steady self m S -> leaves (countsOf self) m (fun x => countsOf (S x)) (fun _ => True).
Proof. intros Hm c Hc. eapply wp_mono; [by apply (Hm _ eq_refl)|]. by intros x c' [Hc' Hx]; rewrite Hx. Qed.

Lemma steady_badInput self : steady self (badInput self) snd.
Proof. intros h Hh. unfold badInput. count idtac. Qed.

Lemma steady_readChunk self : steady self (readChunk fuel self) snd.
Proof.
  intros h Hh. unfold readChunk. destruct (rd_session _) as [i|]; [|by apply leaves_ret].
  eapply leaves_bind; [apply keeps_readChunkImpl|]. intros [[r o] rd] _.
  eapply (leaves_bind _ _ _ _ _ _ _ (fun _ => h) (fun _ => True)); [destruct (_ || _); [session|by apply leaves_ret]|].
  intros a _. by apply leaves_ret.
Qed.

Lemma steady_stopReader self : steady self (stopReader self) id.
Proof. intros h Hh. unfold stopReader, id. count idtac. Qed.

Lemma steady_srcOpenLocal self : steady self (srcOpenLocal self) snd.
Proof. intros h Hh. unfold srcOpenLocal, srcRefuse. count idtac. Qed.

Lemma steady_srcOpenShared i self : steady self (srcOpenShared i self) snd.
Proof. intros h Hh. unfold srcOpenShared, srcRefuse. count idtac. Qed.

Lemma steady_srcClose self : steady self (srcClose self) id.
Proof. intros h Hh. unfold srcClose, id. count idtac. Qed.

Lemma steady_finalizeSrc self : steady self (finalizeSrc self) id.
Proof. intros h Hh. unfold finalizeSrc, finalizeReader, stopReader, id. count idtac. Qed.

Lemma steady_contextSrc context self : steady self (contextSrc context self) id.
Proof. intros h Hh. unfold contextSrc, id. count idtac. Qed.

Lemma steady_setSrc prop self : steady self (setSrc prop self) id.
Proof. intros h Hh. unfold setSrc, id. count idtac. Qed.

Lemma steady_handleSrcMessage b self : steady self (handleSrcMessage b self) id.
Proof. intros h Hh. unfold handleSrcMessage, id. count idtac. Qed.

(** A run starts at zero. *)
Lemma counted_srcOpen self : counted self (srcOpen self).
Proof.
  unfold srcOpen, validSessionContext.
  apply (leaves_bind _ _ _ _ _ _ _ (fun _ => countsOf self) (fun _ => True)); [count idtac|]. intros valid _.
  destruct (negb valid); [by apply leaves_ret|]. destruct (_ || _).
  { unfold srcRefuse. eapply leaves_bind; [one|]. intros a _. by apply leaves_ret. }
  apply (leaves_bind _ _ _ _ _ _ _ (fun x => countsOf x.2) (fun _ => True)).
  { destruct (ar_session self) as [i|].
    - apply (steady_counted self _ snd). apply steady_srcOpenShared.
    - apply (steady_counted self _ snd). apply steady_srcOpenLocal. }
  intros [ok self'] _. cbn [snd]. destruct (negb ok); [by apply leaves_ret|].
  apply (leaves_bind _ _ _ _ _ _ _ (fun _ => (0, 0)) (fun _ => True)); [by apply leaves_step|]. intros a _. by apply leaves_ret.
Qed.

Lemma counted_badInput self : counted self (badInput self).
Proof. apply (steady_counted self _ snd). apply steady_badInput. Qed.

Lemma counted_bind {A B} self (m : C A) (k : A -> C (B * GstFrameLinkAudioSrc)) :
  leaves (countsOf self) m (fun _ => countsOf self) (fun _ => True) ->
  (forall a, counted self (k a)) -> counted self (bind m k).
Proof. intros Hm Hk. eapply leaves_bind; [exact Hm|]. intros a _. apply Hk. Qed.

Lemma keeps_mapTime h i c t : leaves h (mapTime i c t) (fun _ => h) (fun _ => True).
Proof. unfold mapTime, fl_gst_session_map_running_time, look. count idtac. Qed.

(** A record that fits says what the counters say. *)
Lemma fits_accounts record c self frames last : fits record c self = true ->
  follow account (countsOf self) [accepted record frames last; DEos] = Some (countsOf self).
Proof.
  unfold fits. rewrite !andb_true_iff, !bool_decide_eq_true. intros [[_ Eb] Ey].
  unfold accepted. rewrite Eb, Ey. unfold follow. cbn. by rewrite !Z.eqb_refl.
Qed.

Lemma counted_inspectPcmEvent i c event self : counted self (inspectPcmEvent i c event self).
Proof.
  destruct event as [| |caps|segment|pts duration|record| |]; cbn [inspectPcmEvent]; try by apply leaves_ret.
  - destruct (negb _); [apply counted_badInput|by apply leaves_ret].
  - destruct (_ || _ || _); [apply counted_badInput|by apply leaves_ret].
  - destruct (ar_segment self); [|apply counted_badInput]. destruct (receivedTime _ _); [|apply counted_badInput].
    apply counted_bind; [apply keeps_mapTime|]. intros [mapped|]; [|apply counted_badInput].
    destruct (_ || _); [apply counted_badInput|]. apply counted_bind; [one|]. intros a. by apply leaves_ret.
  - unfold inspectTerminal. destruct (fits record c self) eqn:Ef; cbn [negb]; [|apply counted_badInput].
    apply counted_bind; [count idtac|]. intros accounted. destruct (negb accounted); [apply counted_badInput|].
    apply (leaves_bind _ _ _ _ _ _ _ (fun _ => countsOf self) (fun _ => True)); [|intros a _; by apply leaves_ret].
    apply leaves_step. intros _. by apply (fits_accounts record c).
  - destruct (negb _); [apply counted_badInput|by apply leaves_ret].
Qed.

Lemma counted_inspectPcmBuffer i c b self : counted self (inspectPcmBuffer i c b self).
Proof.
  unfold inspectPcmBuffer. destruct (_ || _); [apply counted_badInput|].
  destruct (receivedTime _ _) as [running|]; [|apply counted_badInput].
  apply counted_bind; [apply keeps_mapTime|]. intros [mapped|]; [|apply counted_badInput].
  destruct (_ <? _); [apply counted_badInput|].
  apply counted_bind; [count ltac:(apply keeps_mapTime)|]. intros dts. destruct (negb dts); [apply counted_badInput|].
  apply (leaves_bind _ _ _ _ _ _ _ (fun _ => (inc64 (ar_blocks self), wrap64 (ar_bytes self + ab_size b))) (fun _ => True));
    [by apply leaves_step|]. intros a _. by apply leaves_ret.
Qed.

Lemma counted_inspectPcm item self : counted self (inspectPcm item self).
Proof.
  unfold inspectPcm. destruct (ar_failed self); [by apply leaves_ret|].
  destruct (ar_session self) as [i|]; [|apply counted_badInput].
  apply counted_bind; [session|]. intros [r c]. destruct (negb _); [apply counted_badInput|].
  destruct item as [e|[b|]]; [apply counted_inspectPcmEvent|apply counted_inspectPcmBuffer|by apply leaves_ret].
Qed.

Lemma counted_stateSrc t self : counted self (stateSrc t self).
Proof.
  unfold stateSrc. apply (leaves_bind _ _ _ _ _ _ _ (fun x => countsOf x.2) (fun _ => True)).
  { case_bool_decide; [apply counted_srcOpen|by apply leaves_ret]. }
  clear self. intros [ok self] _. cbn [snd]. destruct (negb ok); [by apply leaves_ret|].
  apply counted_bind; [case_bool_decide; count idtac|]. intros _.
  apply counted_bind; [one|]. intros parent.
  apply (leaves_bind _ _ _ _ _ _ _ (fun x => countsOf x) (fun _ => True)); [|intros a _; by apply leaves_ret].
  destruct (_ || _); [|by apply leaves_ret]. apply (steady_counted self _ id). apply steady_srcClose.
Qed.

Lemma counted_callback k self : leaves (countsOf self) (audioSrcCallback fuel k self) countsOf (fun _ => True).
Proof.
  destruct k as [t| | | | |item|ctx|p|b|]; cbn [audioSrcCallback]; try by apply leaves_ret.
  2: apply (steady_counted self _ id), steady_stopReader.
  4: apply (steady_counted self _ id), steady_contextSrc.
  4: apply (steady_counted self _ id), steady_setSrc.
  4: apply (steady_counted self _ id), steady_handleSrcMessage.
  4: apply (steady_counted self _ id), steady_finalizeSrc.
  all: unfold second; apply (leaves_bind _ _ _ _ _ _ _ (fun x => countsOf x.2) (fun _ => True));
    [|intros [a s] _; by apply leaves_ret].
  - apply counted_stateSrc.
  - apply (steady_counted self _ snd), steady_readChunk.
  - apply counted_inspectPcm.
Qed.

Lemma counted_callbacks l self : leaves (countsOf self) (audioSrcCallbacks fuel l self) countsOf (fun _ => True).
Proof.
  revert self. induction l as [|k l IH]; intros self; cbn [audioSrcCallbacks]; [by apply leaves_ret|].
  eapply leaves_bind; [apply counted_callback|]. intros self' _. apply IH.
Qed.
End Source.

Lemma src_accounts `{E : Element} `{W : AudioWorld} fuel elements l c self c' : c_log c = [] ->
  audioSrcCallbacks fuel l (audio_src_init elements) c = Some (self, c') ->
  follow account (0, 0) (c_log c') = Some (countsOf self).
Proof.
  intros Hc Hrun. pose proof (counted_callbacks fuel [] (0, 0) l (audio_src_init elements) c) as H. unfold wp in H.
  rewrite Hrun in H. destruct H as [(_ & log & El & Hf) _]; [split; [done|]; by exists []|].
  cbn in El. by rewrite El.
Qed.

(** C28: The two ends of an audio stream agree on what went over it.  Take any run of
    the producer's element and any run of the consumer's, each against any session,
    pipeline and socket.  A terminal record that the consumer accepted (the entry of
    its log has the fields of the record it was given, not its own counters) and
    that is one the producer sent, means that the
    consumer has let through as many blocks and bytes of PCM since it was opened as
    the producer had - counted, as both do, modulo 2^64. *)
Theorem audio_end_agrees (E1 E2 : Element) (W1 W2 : AudioWorld) fuel1 fuel2 plugins1 linked plugins2
    sinkCalls srcCalls sink src cs cs' cr cr' g blocks bytes frames last l1 l2 r1 r2 :
  (forall s f t, 0 <= el_running (Element := E1) s f t) -> Forall wf_callback sinkCalls ->
  c_log cs = [] -> c_log cr = [] ->
  sinkCallbacks (E := E1) (W := W1) fuel1 sinkCalls (audio_sink_init plugins1 linked) cs = Some (sink, cs') ->
  audioSrcCallbacks (E := E2) (W := W2) fuel2 srcCalls (audio_src_init plugins2) cr = Some (src, cr') ->
  c_log cs' = l1 ++ DTerminal g blocks bytes frames last :: l2 ->
  c_log cr' = r1 ++ DTerminal g blocks bytes frames last :: r2 ->
  wrap64 (delivered r1).1 = wrap64 (delivered l1).1 /\ wrap64 (delivered r1).2 = wrap64 (delivered l1).2.
Proof.
  intros Hr Hw Hcs Hcr Hsink Hsrc Hls Hrs.
  destruct (sink_timed fuel1 plugins1 linked sinkCalls cs sink cs' Hr Hw Hcs Hsink) as (h & Hh & _).
  apply pcm_accounts in Hh. apply src_accounts in Hsrc; [|done].
  destruct (account_terminal _ _ _ _ _ _ _ _ _ Hh Hls), (account_terminal _ _ _ _ _ _ _ _ _ Hsrc Hrs). split; congruence.
Qed.

(** ** An example: what the sink of GstAudioTime.v sends, received *)

Definition srcScript : list AudioSrcCallback :=
  [SrcContext (Some (Some 0%nat)); SrcProperty (PROP_TRACKS (Some "av"%string)); SrcState GST_STATE_CHANGE_NULL_TO_READY;
   ReaderStart; SrcInspect (ItemEvent (AuSegment zeroTime)); SrcInspect (tenMs 5 true);
   SrcInspect (tenMs 10000006 false); SrcInspect (ItemEvent (AuGap 20000005 7)); SrcInspect (tenMs 20000012 false);
   SrcInspect (ItemEvent (AuTerminal (mkTerminal true (Some 1) (Some 3) (Some 3) (Some 5760) (Some 7) (Some 900))))].
Definition srcRun : GstFrameLinkAudioSrc * Core (option FlAudioStartup) :=
  default (audio_src_init true, audioCore false)
    (audioSrcCallbacks (E := audioElement) (W := audioWorld) 5 srcScript (audio_src_init true) (audioCore false)).

(** The entries before the terminal record. *)
Fixpoint upTo (log : list Did) : list Did :=
  match log with
  | [] => []
  | DTerminal _ _ _ _ _ :: _ => []
  | d :: log => d :: upTo log
  end.
Fixpoint from (log : list Did) : list Did :=
  match log with
  | [] => []
  | DTerminal _ _ _ _ _ :: log => log
  | _ :: log => from log
  end.

Lemma audio_end_agrees_witness :
  delivered (upTo (c_log srcRun.2)) = (3, 5760) /\ DEos ∈ c_log srcRun.2
  /\ wrap64 (delivered (upTo (c_log srcRun.2))).1 = wrap64 (delivered (upTo (c_log (sinkRun sinkScript).2))).1
  /\ wrap64 (delivered (upTo (c_log srcRun.2))).2 = wrap64 (delivered (upTo (c_log (sinkRun sinkScript).2))).2.
Proof.
  split; [by vm_compute|]. split; [by apply (bool_decide_unpack _); vm_compute|].
  apply (audio_end_agrees audioElement audioElement audioWorld audioWorld 5 5 true true true sinkScript srcScript
    (sinkRun sinkScript).1 srcRun.1 (audioCore true) (sinkRun sinkScript).2 (audioCore false) srcRun.2
    3 3 5760 7 900 _ (from (c_log (sinkRun sinkScript).2)) _ (from (c_log srcRun.2))).
  - intros s f t. change (0 <= Z.max 0 t). lia.
  - repeat constructor; vm_compute; congruence.
  - by vm_compute.
  - by vm_compute.
  - by vm_compute.
  - by vm_compute.
  - by vm_compute.
  - by vm_compute.
Defined.
