(* ===== verification/GstAudioStreams.v ===== *)
(** * Who holds the audio stream

    The stream of a session is claimed once, and the reference that comes with the
    claim has to be given back: by the element, by its start-up, by the writer that
    borrows it.  The log is followed with the references not given back yet. *)
From stdpp Require Import strings.
From S2P Require Import Prelude Api Session EventChannel SessionContext Bytes AudioWire GstVideo Element GstAudio.
From S2P Require Import GstAudioSink GstAudioTime.

Definition hold (r : list Z) (d : Did) : option (list Z) :=
  match d with
  | DRef s => Some (s :: r)
  | DUnref s => give s r
  | _ => Some r
  end.

Definition startupRefs (n : option FlAudioStartup) : list Z :=
  match n with Some s => option_list (su_connection s) | None => [] end.

Section Streams.
Context `{E : Element} `{W : AudioWorld}.
Notation C := (C (option FlAudioStartup)).
Notation world := (Core (option FlAudioStartup)).
Implicit Types (l : list Z) (n : option FlAudioStartup) (c : world).

(** The references in use are [l] and those of the start-up [n]. *)
Definition owns l n c : Prop :=
  exists r, at_ hold [] [] (fun n' => n' = n) r c /\ r ≡ₚ l ++ startupRefs n.
Definition held l c : Prop := exists n, owns l n c.

Notation kept m := (forall n h, leaves hold [] [] (fun n' => n' = n) h (m : C _) (fun _ => h) (fun _ => True)).

Lemma wp_keep {A} (m : C A) (Q : A -> world -> Prop) l n c :
  kept m -> owns l n c -> (forall a c', owns l n c' -> Q a c') -> wp m Q c.
Proof.
  intros Hm (r & Hat & Hr) HQ. eapply wp_mono; [by apply (Hm n r)|]. intros a c' [Hat' _]. apply HQ. by exists r.
Qed.

Lemma wp_put s' l n c (Q : unit -> world -> Prop) : owns l n c -> startupRefs s' = startupRefs n ->
  (forall c', owns l s' c' -> Q tt c') -> wp (putStartup s') Q c.
Proof.
  intros (r & (Hn & log & El & Hf) & Hr) Hs HQ. apply HQ. exists r. split; [|by rewrite Hs].
  split; [done|]. by exists log.
Qed.

(** Changing the start-up and the references together. *)
Lemma wp_put_refs s' l l' n c (Q : unit -> world -> Prop) : owns l n c -> l ++ startupRefs n ≡ₚ l' ++ startupRefs s' ->
  (forall c', owns l' s' c' -> Q tt c') -> wp (putStartup s') Q c.
Proof.
  intros (r & (Hn & log & El & Hf) & Hr) Hs HQ. apply HQ. exists r. split; [|by rewrite Hr].
  split; [done|]. by exists log.
Qed.

Lemma wp_ref x l n c (Q : unit -> world -> Prop) : owns l n c ->
  (forall c', owns (x :: l) n c' -> Q tt c') -> wp (act [DRef x]) Q c.
Proof.
  intros (r & Hat & Hr) HQ. apply wp_act. intros c' Ha. apply HQ. exists (x :: r). split; [|cbn; by rewrite Hr].
  by eapply at_later; [exact Hat|exact Ha|].
Qed.

Lemma wp_unref o l n c (Q : unit -> world -> Prop) : owns (option_list o ++ l) n c ->
  (forall c', owns l n c' -> Q tt c') -> wp (unref o) Q c.
Proof.
  intros (r & Hat & Hr) HQ. unfold unref. apply wp_act. intros c' Ha. apply HQ. destruct o as [x|]; cbn in *.
  - destruct (give_elem x r) as (r' & Eg & Hr'). { rewrite Hr. by left. }
    exists r'. split; [eapply at_later; [exact Hat|exact Ha|exact Eg]|].
    apply (Permutation_cons_inv (a := x)). by rewrite <- Hr', Hr.
  - exists r. split; [by eapply at_later; [exact Hat|exact Ha|]|done].
Qed.

Lemma wp_startup l n c (Q : option FlAudioStartup -> world -> Prop) : owns l n c ->
  (forall c', owns l n c' -> Q n c') -> wp startup Q c.
Proof. intros Ho HQ. pose proof Ho as (r & (<- & Hlog) & Hr). apply HQ. exists r. by split. Qed.

Lemma kept_cancelSession o : kept (cancelSession o).
Proof. intros n h. unfold cancelSession. destruct o; [apply keeps_cancel; quiet|by apply leaves_ret]. Qed.

(** ** The start-up *)

Lemma wp_startupCancel s l c (Q : unit -> world -> Prop) : owns l (Some s) c ->
  (forall c', owns l (Some (startup_cancelled s)) c' -> Q tt c') -> wp (startupCancel s) Q c.
Proof.
  intros Ho HQ. unfold startupCancel. apply wp_bind. eapply wp_put; [exact Ho|done|]. intros c1 H1.
  eapply wp_keep; [|exact H1|]; [intros n h; session|]. intros [] c2. apply HQ.
Qed.

Lemma wp_cancelStartup l n c (Q : bool -> world -> Prop) : owns l n c ->
  (forall b n' c', owns l n' c' -> startupRefs n' = startupRefs n -> (n = None -> n' = None) -> Q b c') -> wp cancelStartup Q c.
Proof.
  intros Ho HQ. unfold cancelStartup. apply wp_bind. eapply wp_startup; [exact Ho|]. intros c1 H1.
  destruct n as [s|]; [|by apply wp_ret, (HQ _ None)]. apply wp_bind. eapply wp_startupCancel; [exact H1|].
  intros c2 H2. by apply wp_ret, (HQ _ (Some (startup_cancelled s))).
Qed.

Lemma wp_workerEnds s ok l c (Q : FlAudioStartup -> world -> Prop) : owns l (Some s) c ->
  (forall s' c', owns l (Some s') c' -> su_connection s' = su_connection s -> Q s' c') -> wp (workerEnds s ok) Q c.
Proof.
  intros Ho HQ. unfold workerEnds. apply wp_bind. eapply wp_keep; [|exact Ho|].
  { intros n h. walk ltac:(fun h A => apply (leaves_bind _ _ _ _ h _ _ (fun _ => h) (fun _ => True))) ltac:(session) done. }
  intros ok' c1 H1. apply wp_bind. eapply wp_put; [exact H1|done|]. intros c2 H2.
  apply wp_bind. eapply wp_keep; [|exact H2|].
  { intros n h. unfold element_error. destruct (_ && _); [one|by apply leaves_ret]. }
  intros a c3 H3. by apply wp_ret, HQ.
Qed.

Lemma wp_startupWait k s l c (Q : bool * FlAudioStartup -> world -> Prop) : owns l (Some s) c ->
  (forall b s' c', owns l (Some s') c' -> su_connection s' = su_connection s -> Q (b, s') c') -> wp (startupWait k s) Q c.
Proof.
  revert s c. induction k as [|k IH]; intros s c Ho HQ; cbn [startupWait]; apply wp_bind.
  all: eapply wp_keep; [|exact Ho|]; [intros n h; one|]; intros other c1 H1.
  all: set (s1 := if other then startup_cancelled s else s).
  all: assert (su_connection s1 = su_connection s) as Es by (unfold s1; by destruct other).
  all: apply wp_bind; eapply wp_put; [exact H1|cbn; by rewrite Es|]; intros c2 H2.
  all: apply wp_bind; eapply wp_keep; [|exact H2|]; [intros n h; one|]; intros outer c3 H3.
  all: destruct (_ || _); [by apply wp_ret, HQ|]; destruct (su_done s1); [by apply wp_ret, HQ|]; try done.
  apply wp_bind. eapply wp_keep; [|exact H3|]; [intros n h; one|]. intros [ok|] c4 H4.
  - apply wp_bind. eapply wp_workerEnds; [exact H4|]. intros s' c5 H5 E5. eapply IH; [exact H5|].
    intros b s2 c6 H6 E6. apply HQ; [done|congruence].
  - eapply IH; [exact H4|]. intros b s2 c6 H6 E6. apply HQ; [done|congruence].
Qed.

Lemma wp_claim i p g l n c (Q : option Z -> world -> Prop) : owns l n c ->
  (forall o c', owns (option_list o ++ l) n c' -> Q o c') -> wp (fl_gst_session_claim_audio_stream i p g) Q c.
Proof.
  intros (r & Hat & Hr) HQ. unfold fl_gst_session_claim_audio_stream. apply wp_locked. intros [x|] c' Ha; apply HQ; cbn.
  - exists (x :: r). split; [by eapply at_later; [exact Hat|exact Ha|]|cbn; by rewrite Hr].
  - exists r. split; [by eapply at_later; [exact Hat|exact Ha|]|done].
Qed.

Lemma wp_startupConnection k s l c (Q : option Z -> world -> Prop) : owns l (Some s) c ->
  (forall o c', held (option_list o ++ l) c' -> Q o c') -> wp (startupConnection k s) Q c.
Proof.
  intros Ho HQ. unfold startupConnection. apply wp_bind. eapply wp_startupWait; [exact Ho|].
  clear Ho. intros ok s1 c1 Ho _. destruct (negb ok); [apply wp_ret, HQ; by eexists|].
  apply wp_bind. eapply (wp_mono _ (fun o c' => exists s', owns l (Some s') c')).
  - destruct (su_connection s1) as [x|] eqn:Ex; [apply wp_ret; by eexists|].
    apply wp_bind. eapply wp_keep; [|exact Ho|]; [intros n h; session|]. intros [r config] c2 H2.
    destruct (negb _); [apply wp_ret; by eexists|]. apply wp_bind. eapply wp_claim; [exact H2|]. intros o c3 H3.
    apply wp_bind. eapply (wp_put_refs _ _ l); [exact H3| |].
    { cbn. rewrite Ex. cbn. rewrite app_nil_r. apply Permutation_app_comm. }
    intros c4 H4. apply wp_ret. by eexists.
  - intros [x|] c2 (s' & H2); [|apply wp_ret, HQ; by eexists]. apply wp_bind. eapply wp_ref; [exact H2|].
    intros c3 H3. apply wp_ret, HQ. by eexists.
Qed.

(** The reference of the start-up goes with it. *)
Lemma wp_drop s l c (Q : unit -> world -> Prop) : owns l (Some s) c ->
  (forall c', owns l None c' -> Q tt c') -> wp (unref (su_connection s) ;; putStartup None) Q c.
Proof.
  intros (r & Hat & Hr) HQ. unfold unref. apply wp_bind, wp_act. intros c1 Ha. apply HQ. cbn in Hr.
  destruct (su_connection s) as [x|]; cbn in *.
  - destruct (give_elem x r) as (r' & Eg & Hr'); [rewrite Hr; set_solver|]. exists r'. cbn. rewrite app_nil_r. split.
    + assert (at_ hold [] [] (fun n => n = Some s) r' c1) as (_ & Hlog) by (eapply at_later; [exact Hat|exact Ha|exact Eg]).
      by split.
    + apply (Permutation_cons_inv (a := x)). rewrite <- Hr', Hr. by rewrite Permutation_app_comm.
  - exists r. cbn. split; [|done].
    assert (at_ hold [] [] (fun n => n = Some s) r c1) as (_ & Hlog) by (by eapply at_later; [exact Hat|exact Ha|]). by split.
Qed.

Lemma wp_startupDestroy l c (Q : unit -> world -> Prop) : held l c ->
  (forall c', owns l None c' -> Q tt c') -> wp startupDestroy Q c.
Proof.
  intros (n & Ho) HQ. unfold startupDestroy. apply wp_bind. eapply wp_startup; [exact Ho|]. intros c1 H1.
  destruct n as [s|]; [|by apply wp_ret, HQ]. apply wp_bind. eapply wp_startupCancel; [exact H1|]. intros c2 H2.
  by apply (wp_drop (startup_cancelled s) l).
Qed.

Lemma wp_startupCreate i p l c (Q : unit -> world -> Prop) : held l c ->
  (forall c', held l c' -> Q tt c') -> wp (startupCreate i p) Q c.
Proof.
  intros Ho HQ. unfold startupCreate. apply wp_bind. eapply wp_startupDestroy; [exact Ho|]. intros c1 H1.
  eapply wp_put; [exact H1|done|]. intros c2 H2. apply HQ. by eexists.
Qed.

Lemma wp_writeBytes k l c (Q : bool -> world -> Prop) : held l c ->
  (forall b c', held l c' -> Q b c') -> wp (writeBytes k) Q c.
Proof.
  intros (n & Ho) HQ. unfold writeBytes. apply wp_bind. eapply wp_startup; [exact Ho|]. intros c1 H1.
  destruct n as [s|]; [|apply wp_ret, HQ; by eexists]. apply wp_bind. eapply wp_startupConnection; [exact H1|].
  intros o c2 (n & H2). apply wp_bind. eapply wp_unref; [exact H2|]. intros c3 H3. apply wp_ret, HQ. by eexists.
Qed.

(** ** The producer's element *)

Implicit Types (self : GstFrameLinkAudioSink).
Definition connOf self : option Z := al_connection (as_link self).
Definition localOf self : bool := al_local (as_link self).
Definition same_link self self' : Prop := connOf self' = connOf self /\ localOf self' = localOf self.

(** Code that touches neither the references nor the link; a start-up may change,
    but does not come into being. *)
Definition bystander {A} (m : C A) self (S : A -> GstFrameLinkAudioSink) : Prop :=
  forall l n c, owns l n c ->
  wp m (fun x c' => (exists n', owns l n' c' /\ (n = None -> n' = None)) /\ same_link self (S x)) c.
Definition aloof {A} (m : C A) self (S : A -> GstFrameLinkAudioSink) : Prop :=
  forall n h, leaves hold [] [] (fun n' => n' = n) h m (fun _ => h) (fun x => same_link self (S x)).

Lemma aloof_bystander {A} (m : C A) self S : aloof m self S -> bystander m self S.
Proof.
  intros Hm l n c (r & Hat & Hr). eapply wp_mono; [by apply (Hm n r)|]. intros x c' [Hat' Hs]. split; [|done].
  exists n. split; [by exists r|done].
Qed.

Lemma bystander_bind {A B} (m : C A) (k : A -> C B) self S T :
  bystander m self S -> (forall a, bystander (k a) (S a) T) -> bystander (bind m k) self T.
Proof.
  intros Hm Hk l n c Ho. apply wp_bind. eapply wp_mono; [by apply (Hm l n)|].
  intros a c1 [(n1 & H1 & E1) [F1 G1]]. eapply wp_mono; [by apply (Hk a l n1)|].
  intros b c2 [(n2 & H2 & E2) [F2 G2]]. split; [exists n2; split; [done|auto]|]. split; congruence.
Qed.

Ltac linked := unfold same_link, connOf, localOf in *; cbn in *; intuition congruence.
Ltac between self h A :=
  lazymatch A with
  | GstFrameLinkAudioSink => apply (leaves_bind _ _ _ _ h _ _ (fun _ => h) (fun x => same_link self x))
  | (_ * GstFrameLinkAudioSink)%type => apply (leaves_bind _ _ _ _ h _ _ (fun _ => h) (fun x => same_link self x.2))
  | _ => apply (leaves_bind _ _ _ _ h _ _ (fun _ => h) (fun _ => True))
  end.
Ltac wander self := walk ltac:(fun h A => between self h A) ltac:(first [session|apply kept_cancelSession])
  ltac:(first [done|linked|repeat case_match; linked]).

Lemma aloof_reject self0 self : same_link self0 self -> aloof (reject self) self0 snd.
Proof. intros Hs n h. unfold reject, element_error. wander self0. Qed.

Lemma aloof_inspectEvent e self : aloof (inspectEvent e self) self snd.
Proof.
  intros n h. destruct e; cbn [inspectEvent]; wander self; apply aloof_reject; linked.
Qed.

Lemma bystander_startedUp fuel self : bystander (startedUp fuel self) self snd.
Proof.
  intros l n c Ho. unfold startedUp. apply wp_bind. eapply wp_startup; [exact Ho|]. clear c Ho. intros c Ho.
  destruct n as [s|]; [|apply wp_ret; split; [by exists None|done]].
  apply wp_bind. eapply wp_startupWait; [exact Ho|]. intros ok s' c1 H1 _.
  destruct (negb ok); [apply wp_ret; split; [by exists (Some s')|done]|].
  destruct (sessionOf self); [|apply wp_ret; split; [by exists (Some s')|done]].
  apply wp_bind. eapply wp_keep; [|exact H1|]; [intros n' h; session|]. intros [r config] c2 H2. apply wp_ret.
  split; [by exists (Some s')|done].
Qed.

Lemma bystander_inspectBuffer fuel b self : bystander (inspectBuffer fuel b self) self snd.
Proof.
  unfold inspectBuffer. apply (bystander_bind _ _ _ snd); [apply bystander_startedUp|]. clear self.
  intros [ok self]. cbn [snd]. apply aloof_bystander. intros n h. unfold fl_gst_session_wait, reject, element_error.
  wander self.
Qed.

Lemma bystander_inspect fuel item self : bystander (inspect fuel item self) self snd.
Proof.
  unfold inspect. destruct (as_failed self); [apply aloof_bystander; intros n h; by apply leaves_ret|].
  destruct item as [e|[b|]]; [apply aloof_bystander, aloof_inspectEvent|apply bystander_inspectBuffer|].
  apply aloof_bystander. intros n h. by apply leaves_ret.
Qed.

Lemma aloof_terminal e self : aloof (terminal e self) self snd.
Proof.
  intros n h. unfold terminal, fl_gst_session_wait_video_eos, drainHeaders. destruct e; wander self; apply aloof_reject; linked.
Qed.

Lemma aloof_setContext ctx self : aloof (setContext ctx self) self id.
Proof. intros n h. unfold setContext, id. wander self. Qed.

Lemma aloof_setProperty p self : aloof (setProperty p self) self id.
Proof. intros n h. unfold setProperty, id. wander self. Qed.

Lemma aloof_handleMessage b self : aloof (handleMessage b self) self id.
Proof. intros n h. unfold handleMessage, id. wander self. Qed.

(** ** Opening and closing it *)

(** At rest: nothing is held, and no start-up is there. *)
Definition rests self c : Prop := owns [] None c /\ connOf self = None /\ localOf self = false.
(** In use: the connection is the reference held, and a shared session has no start-up. *)
Definition runs self c : Prop :=
  exists n, owns (option_list (connOf self)) n c /\ (localOf self = false -> n = None).

Lemma rests_runs self c : rests self c -> runs self c.
Proof. intros (Ho & E1 & E2). exists None. by rewrite E1. Qed.

Lemma rests_same self self' c : rests self c -> same_link self self' -> rests self' c.
Proof. intros (Ho & E1 & E2) [F1 F2]. split; [done|]. split; congruence. Qed.

Lemma wp_dropConnection self n c (Q : GstFrameLinkAudioSink -> world -> Prop) :
  owns (option_list (connOf self)) n c ->
  (forall self' c', owns [] n c' -> connOf self' = None -> localOf self' = localOf self -> sessionOf self' = sessionOf self -> Q self' c') ->
  wp (dropConnection self) Q c.
Proof.
  intros Ho HQ. unfold dropConnection. apply wp_bind. eapply wp_keep; [apply kept_cancelSession|exact Ho|].
  intros _ c1 H1. apply wp_bind. eapply (wp_unref _ []); [by rewrite app_nil_r|]. intros c2 H2. by apply wp_ret, HQ.
Qed.

Lemma wp_quiet_self {A} (m : C A) self (S : A -> GstFrameLinkAudioSink) (Q : A -> world -> Prop) c :
  aloof m self S -> rests self c -> (forall a c', rests (S a) c' -> Q a c') -> wp m Q c.
Proof.
  intros Hm Hs HQ. eapply wp_mono; [apply (aloof_bystander m self S Hm [] None c), Hs|].
  intros a c' [(n' & Ho & En) Hl]. rewrite En in Ho by done. apply HQ. apply (rests_same self); [|done].
  split; [done|apply Hs].
Qed.

Lemma wp_refuse self c : rests self c -> wp (refuse self) (fun x c' => (x.1 = true -> False) /\ rests x.2 c') c.
Proof. intros Hs. unfold refuse, element_error. apply wp_bind. eapply wp_keep; [intros n h; one|apply Hs|]. intros a c1 H1. apply wp_ret. split; [done|]. split; [done|apply Hs]. Qed.

(** The session is there: shared, or of its own with a start-up. *)
Definition opened self c : Prop := connOf self = None /\ exists n, owns [] n c /\ (localOf self = false -> n = None).

Lemma kept_session_new required : kept (fl_gst_session_new required).
Proof. intros n h c Hat. split; [|done]. eapply (at_after _ _ _ _ _ []); [exact Hat|apply Hat|by rewrite app_nil_r|done]. Qed.

Lemma wp_openLocal self c : rests self c ->
  wp (openLocal self) (fun self' c' => opened self' c' /\ localOf self' = true
    /\ is_some (sessionOf self') = true /\ truthy (c_audioTrackId (configOf self')) = true) c.
Proof.
  intros (Ho & E1 & E2). unfold openLocal. apply wp_bind. eapply wp_keep; [apply kept_session_new|exact Ho|].
  intros i c1 H1. apply wp_bind. eapply wp_startupCreate; [by exists None|]. intros c2 (n & H2). apply wp_ret.
  split; [|done]. split; [exact E1|]. by exists n.
Qed.

Lemma wp_refused self c (P : GstFrameLinkAudioSink -> world -> Prop) : rests self c ->
  wp (refuse self) (fun x c' => if x.1 then P x.2 c' else rests x.2 c') c.
Proof. intros Hs. eapply wp_mono; [by apply wp_refuse|]. intros [[] s] c2 [H2 H3]; [by destruct H2|done]. Qed.

Lemma wp_openSession self c : rests self c ->
  wp (openSession self) (fun x c' => if x.1 then opened x.2 c' else rests x.2 c') c.
Proof.
  intros Hs. unfold openSession. apply wp_bind. eapply (wp_quiet_self _ self (fun _ => self)); [|exact Hs|].
  { intros n h. unfold validSessionContext, element_error. wander self. }
  clear c Hs. intros valid c Hs. destruct (negb valid); [by apply wp_ret|].
  destruct (_ || negb _); [by apply wp_refused|]. set (standalone := _ && nonempty _).
  destruct (standalone && _); [by apply wp_refused|]. apply wp_bind. destruct standalone.
  - eapply wp_mono; [by apply wp_openLocal|]. intros self1 c1 (Ho & El & Ei & Et).
    destruct (sessionOf self1); [|done]. unfold localOf in El. apply wp_bind. rewrite El. apply wp_ret. rewrite El, Et. cbn. by apply wp_ret.
  - apply wp_ret. destruct (sessionOf self) as [i|]; [|by apply wp_refused]. pose proof Hs as (_ & E1 & E2). unfold localOf in E2.
    rewrite E2. apply wp_bind. eapply (wp_quiet_self _ self snd); [|exact Hs|].
    { intros n h. wander self. }
    intros [ok self1] c1 H1. cbn [snd] in H1.
    destruct (_ || _); [by apply wp_refused|]. destruct (_ && _); [by apply wp_refused|]. apply wp_ret.
    destruct H1 as (Ho & F1 & F2). split; [done|]. by exists None.
Qed.

Lemma wp_openStream self c : opened self c ->
  wp (openStream self) (fun x c' => if x.1 then runs x.2 c' else rests x.2 c') c.
Proof.
  intros (E1 & n & Ho & En). unfold openStream. destruct (sessionOf self) as [i|]; [|apply wp_ret; exists n; cbn; by rewrite E1].
  destruct (al_local (as_link self)) eqn:El; [apply wp_ret; exists n; cbn; by rewrite E1|]. specialize (En El) as ->.
  apply wp_bind. eapply wp_claim; [exact Ho|]. intros [x|] c1 H1; cbn [is_some negb].
  - destruct (al_registered _); [apply wp_ret; by exists None|]. apply wp_bind.
    eapply wp_keep; [|exact H1|]; [intros n h; session|]. intros r c2 H2. destruct (negb _).
    + apply wp_bind. eapply (wp_dropConnection (put_connection self (Some x))); [exact H2|]. intros self' c3 H3 F1 F2 _.
      apply wp_ret. split; [done|]. split; [done|]. unfold localOf in *. cbn in *. congruence.
    + apply wp_ret. by exists None.
  - by apply (wp_refused (put_connection self None)).
Qed.

Lemma wp_sinkOpen self c : rests self c ->
  wp (sinkOpen self) (fun x c' => if x.1 then runs x.2 c' else rests x.2 c') c.
Proof.
  intros Hs. unfold sinkOpen. apply wp_bind. eapply wp_mono; [by apply wp_openSession|].
  clear self c Hs. intros [[] self] c Hs; cbn [fst snd] in Hs; [|by apply wp_ret]. cbn [negb].
  apply wp_bind. eapply wp_mono; [by apply wp_openStream|].
  clear self c Hs. intros [[] self] c Hs; cbn [fst snd] in Hs; [|by apply wp_ret]. cbn [negb].
  destruct Hs as (n & Ho & En). unfold startRun. apply wp_bind, wp_bind.
  eapply wp_keep; [intros n' h; one|exact Ho|]. intros _ c1 H1. apply wp_ret.
  set (self1 := put_counts _ _). change (connOf self) with (connOf self1) in H1. change (localOf self) with (localOf self1) in En.
  destruct (sessionOf self1) as [i|]; [|apply wp_ret; by exists n].
  destruct (al_local (as_link self1)) eqn:El; [apply wp_ret; by exists n|].
  apply wp_bind. eapply wp_keep; [|exact H1|]; [intros n' h; session|]. intros r c2 H2.
  destruct (negb _); [|apply wp_ret; by exists n]. apply wp_bind. eapply wp_dropConnection; [exact H2|].
  intros self' c3 H3 F1 F2 _. apply wp_ret. rewrite (En El) in H3. split; [done|]. split; [done|]. unfold localOf in *. cbn in *. congruence.
Qed.

Lemma wp_sinkClose self c : runs self c -> wp (sinkClose self) (fun self' c' => rests self' c') c.
Proof.
  intros (n & Ho & _). unfold sinkClose. apply wp_bind. eapply wp_startup; [exact Ho|]. clear c Ho. intros c Ho.
  apply wp_bind. apply (wp_mono _ (fun self' c' => owns (option_list (connOf self')) None c' /\ same_link self self')).
  { destruct n as [s|]; [|by apply wp_ret]. apply wp_bind, wp_bind. eapply wp_cancelStartup; [exact Ho|].
    intros b n' c1 H1 _ _. eapply wp_startupDestroy; [by exists n'|]. intros c2 H2. by apply wp_ret. }
  intros self1 c1 [H1 Hl]. apply wp_bind.
  apply (wp_mono _ (fun self' c' => owns [] None c' /\ connOf self' = None)).
  { destruct (al_connection (as_link self1)) as [x|] eqn:Ex; cbn [is_some].
    - apply wp_bind. eapply wp_dropConnection; [exact H1|]. intros self2 c2 H2 F1 _ _. by apply wp_ret.
    - apply wp_ret. unfold connOf in *. by rewrite Ex in *. }
  intros self2 c2 [H2 F1]. apply wp_ret. split; [done|]. destruct (al_local (as_link self2)) eqn:El; split; done.
Qed.

Lemma wp_finalize self c : runs self c -> wp (finalize self) (fun self' c' => owns [] None c' /\ connOf self' = None) c.
Proof.
  intros (n & Ho & _). unfold finalize. apply wp_bind, wp_bind. eapply wp_cancelStartup; [exact Ho|].
  intros b n' c1 H1 _ _. eapply wp_startupDestroy; [by exists n'|]. clear Ho H1. intros c2 Ho. apply wp_bind.
  apply (wp_mono _ (fun self' c' => owns [] None c' /\ connOf self' = None)); [|intros self' c' H'; by apply wp_ret].
  destruct (al_connection (as_link self)) as [x|] eqn:Ex; cbn [is_some].
  - eapply wp_dropConnection; [exact Ho|]. intros self' c3 H3 F1 _ _. done.
  - apply wp_ret. unfold connOf in *. by rewrite Ex in *.
Qed.

Lemma kept_bystander {A} (m : C A) self : kept m -> bystander m self (fun _ => self).
Proof. intros Hm. apply aloof_bystander. intros n h. eapply leaves_mono; [apply Hm|done]. Qed.

Lemma runs_bystander {A} (m : C A) self S c : bystander m self S -> runs self c ->
  wp m (fun x c' => runs (S x) c') c.
Proof.
  intros Hm (n & Ho & En). eapply wp_mono; [by apply (Hm _ _ _ Ho)|]. intros x c' [(n' & H' & E') [F1 F2]].
  exists n'. rewrite F1. split; [done|]. rewrite F2. auto.
Qed.

Lemma rests_bystander {A} (m : C A) self S c : bystander m self S -> rests self c ->
  wp m (fun x c' => rests (S x) c') c.
Proof.
  intros Hm (Ho & E1 & E2). eapply wp_mono; [by apply (Hm _ _ _ Ho)|]. intros x c' [(n' & H' & E') [F1 F2]].
  rewrite E' in H' by done. split; [done|]. split; congruence.
Qed.

(** ** A life of it: state changes come in order, and nothing comes after the end *)

Definition fromState (t : GstStateChange) : Z :=
  match t with
  | GST_STATE_CHANGE_NULL_TO_READY => GST_STATE_NULL
  | GST_STATE_CHANGE_READY_TO_PAUSED | GST_STATE_CHANGE_READY_TO_NULL => GST_STATE_READY
  | GST_STATE_CHANGE_PAUSED_TO_PLAYING | GST_STATE_CHANGE_PAUSED_TO_READY => GST_STATE_PAUSED
  | GST_STATE_CHANGE_PLAYING_TO_PAUSED => GST_STATE_PLAYING
  end.
Definition toState (t : GstStateChange) : Z :=
  match t with
  | GST_STATE_CHANGE_READY_TO_NULL => GST_STATE_NULL
  | GST_STATE_CHANGE_NULL_TO_READY | GST_STATE_CHANGE_PAUSED_TO_READY => GST_STATE_READY
  | GST_STATE_CHANGE_READY_TO_PAUSED | GST_STATE_CHANGE_PLAYING_TO_PAUSED => GST_STATE_PAUSED
  | GST_STATE_CHANGE_PAUSED_TO_PLAYING => GST_STATE_PLAYING
  end.
Definition GONE : Z := 0.

Definition lifeStep (fuel : nat) (k : AudioSinkCallback) (life : Z * GstFrameLinkAudioSink)
  : C (Z * GstFrameLinkAudioSink) :=
  let '(state, self) := life in
  return_if state =? GONE with ret life ;;
  match k with
  | SinkChangeState t =>
    return_if negb (fromState t =? state) with ret life ;;
    let! (r, self) := changeState t self in
    ret ((if bool_decide (r = GST_STATE_CHANGE_SUCCESS) then toState t else state), self)
  | SinkFinalize =>
    return_if negb (state =? GST_STATE_NULL) with ret life ;;
    let! self := finalize self in
    ret (GONE, self)
  | k => let! self := sinkCallback fuel k self in ret (state, self)
  end.

Fixpoint sinkLife (fuel : nat) (l : list AudioSinkCallback) (life : Z * GstFrameLinkAudioSink)
  : C (Z * GstFrameLinkAudioSink) :=
  match l with
  | [] => ret life
  | k :: l => let! life := lifeStep fuel k life in sinkLife fuel l life
  end.

Definition settled (life : Z * GstFrameLinkAudioSink) c : Prop :=
  let '(state, self) := life in
  if state =? GONE then owns [] None c /\ connOf self = None
  else if state =? GST_STATE_NULL then rests self c else runs self c.

Lemma runs_changeState t self c : runs self c -> t <> GST_STATE_CHANGE_NULL_TO_READY ->
  wp (changeState t self) (fun x c' => if bool_decide (t = GST_STATE_CHANGE_READY_TO_NULL) then rests x.2 c' else runs x.2 c') c.
Proof.
  intros Hs Ht. unfold changeState. apply wp_bind. apply (wp_mono _ (fun _ c' => runs self c')).
  { destruct t; try by apply wp_ret. destruct Hs as (n & Ho & En). apply wp_bind. eapply wp_cancelStartup; [exact Ho|].
    intros b n' c1 H1 _ E1. assert (runs self c1) as H2 by (exists n'; auto). destruct b; [by apply wp_ret|].
    eapply wp_mono; [apply (runs_bystander _ self (fun _ => self)); [apply kept_bystander, kept_cancelSession|exact H2]|done]. }
  clear c Hs. intros _ c Hs. rewrite !(bool_decide_eq_false_2 (t = GST_STATE_CHANGE_NULL_TO_READY)) by done.
  apply wp_bind, wp_ret. cbn [negb andb orb]. apply wp_bind.
  eapply wp_mono; [apply (runs_bystander _ self (fun _ => self)); [apply kept_bystander; intros n h; one|exact Hs]|].
  intros parent c1 H1. rewrite orb_false_r. apply wp_bind. case_bool_decide.
  - eapply wp_mono; [by apply wp_sinkClose|]. intros self' c2 H2. by apply wp_ret.
  - by apply wp_ret, wp_ret.
Qed.

Lemma rests_changeState self c : rests self c ->
  wp (changeState GST_STATE_CHANGE_NULL_TO_READY self)
    (fun x c' => if bool_decide (x.1 = GST_STATE_CHANGE_SUCCESS) then runs x.2 c' else rests x.2 c') c.
Proof.
  intros Hs. unfold changeState. apply wp_bind, wp_ret, wp_bind. rewrite bool_decide_eq_true_2 by done.
  eapply wp_mono; [by apply wp_sinkOpen|]. clear self c Hs. intros [[] self] c Hs; cbn [fst snd] in Hs; [|by apply wp_ret].
  cbn [negb]. apply wp_bind.
  eapply wp_mono; [apply (runs_bystander _ self (fun _ => self)); [apply kept_bystander; intros n h; one|exact Hs]|].
  intros parent c1 H1. apply wp_bind. destruct parent; cbn.
  - by apply wp_ret, wp_ret.
  - eapply wp_mono; [by apply wp_sinkClose|]. intros self' c2 H2. by apply wp_ret.
Qed.

(** The writer and the end of its stream. *)
Lemma bystander_startup {A} (m : C A) self :
  (forall l s c, owns l (Some s) c -> wp m (fun _ c' => held l c') c) ->
  (forall l c, owns l None c -> wp m (fun _ c' => owns l None c') c) ->
  bystander m self (fun _ => self).
Proof.
  intros Hsome Hnone l [s|] c Ho.
  - eapply wp_mono; [by apply (Hsome l s)|]. intros x c' (n' & H'). split; [by exists n'|done].
  - eapply wp_mono; [by apply (Hnone l)|]. intros x c' H'. split; [by exists None|done].
Qed.

Lemma bystander_writeBytes fuel self : bystander (writeBytes fuel) self (fun _ => self).
Proof.
  apply bystander_startup.
  - intros l s c Ho. apply (wp_writeBytes fuel l c); [by exists (Some s)|done].
  - intros l c Ho. unfold writeBytes. apply wp_bind. eapply wp_startup; [exact Ho|]. intros c1 H1. by apply wp_ret.
Qed.

Lemma bystander_closeStream self : bystander closeStream self (fun _ => self).
Proof.
  apply bystander_startup; intros; unfold closeStream; apply wp_bind; (eapply wp_cancelStartup; [eassumption|]);
    intros b n' c1 H1 H2 H3; apply wp_ret; [by exists n'|by rewrite <- H3].
Qed.

(** What comes between state changes. *)
Lemma bystander_callback fuel k self : match k with SinkChangeState _ | SinkFinalize => False | _ => True end ->
  bystander (sinkCallback fuel k self) self id.
Proof.
  assert (forall (s : GstFrameLinkAudioSink), bystander (ret s) s id) as Hret.
  { intros s. apply aloof_bystander. intros n h. by apply leaves_ret. }
  destruct k as [t|item|e|ctx|p|b| | |]; try done; intros _; cbn [sinkCallback]; unfold only.
  - apply (bystander_bind _ _ _ snd); [apply bystander_inspect|]. by intros [r s].
  - apply (bystander_bind _ _ _ snd); [apply aloof_bystander, aloof_terminal|]. by intros [r s].
  - apply aloof_bystander, aloof_setContext.
  - apply aloof_bystander, aloof_setProperty.
  - apply aloof_bystander, aloof_handleMessage.
  - apply (bystander_bind _ _ _ (fun _ => self)); [apply bystander_writeBytes|]. by intros b.
  - apply (bystander_bind _ _ _ (fun _ => self)); [apply bystander_closeStream|]. by intros b.
Qed.

Lemma settled_callback fuel k state self c : match k with SinkChangeState _ | SinkFinalize => False | _ => True end ->
  (state =? GONE) = false -> settled (state, self) c ->
  wp (let! self := sinkCallback fuel k self in ret (state, self)) settled c.
Proof.
  intros Hk Eg. unfold settled. rewrite Eg. intros Hs. apply wp_bind. destruct (state =? GST_STATE_NULL) eqn:En.
  - eapply wp_mono; [by apply (rests_bystander _ self id); [apply bystander_callback|]|]. intros s c1 H1. apply wp_ret. by rewrite Eg, En.
  - eapply wp_mono; [by apply (runs_bystander _ self id); [apply bystander_callback|]|]. intros s c1 H1. apply wp_ret. by rewrite Eg, En.
Qed.

Lemma settled_lifeStep fuel k life c : settled life c -> wp (lifeStep fuel k life) settled c.
Proof.
  destruct life as [state self]. intros Hs. unfold lifeStep. destruct (state =? GONE) eqn:Eg; [by apply wp_ret|].
  destruct k as [t| | | | | | | |]; try by apply settled_callback.
  - destruct (negb (fromState t =? state)) eqn:Ef; [by apply wp_ret|]. apply negb_false_iff, Z.eqb_eq in Ef. subst state.
    apply wp_bind. destruct (decide (t = GST_STATE_CHANGE_NULL_TO_READY)) as [->|Ht].
    + eapply wp_mono; [by apply rests_changeState|]. intros [r s] c1 H1. apply wp_ret. by destruct r.
    + assert (runs self c) as Hr by (unfold settled in Hs; by destruct t).
      eapply wp_mono; [by apply runs_changeState|]. intros [r s] c1 H1. apply wp_ret. cbn [fst snd] in *.
      destruct t; try done; destruct r; cbn in *; try done; by apply rests_runs.
  - destruct (negb (state =? GST_STATE_NULL)) eqn:En; [by apply wp_ret|]. apply negb_false_iff in En.
    unfold settled in Hs. rewrite Eg, En in Hs. apply wp_bind.
    eapply wp_mono; [by apply wp_finalize, rests_runs|]. intros s c1 H1. by apply wp_ret.
Qed.

Lemma settled_sinkLife fuel (ks : list AudioSinkCallback) life c : settled life c -> wp (sinkLife fuel ks life) settled c.
Proof.
  revert life c. induction ks as [|k ks IH]; intros life c Hs; cbn [sinkLife]; [by apply wp_ret|].
  apply wp_bind. eapply wp_mono; [by apply settled_lifeStep|]. intros life' c1 H1. by apply IH.
Qed.
End Streams.

(** C29: The audio sink gives every reference to the session's stream back.  In any life
    of the element - state changes in GStreamer's order, with whatever buffers,
    events, contexts, properties, errors and writes between them, shared session or
    standalone, succeeding or failing at any point: a reference is released only
    while it is held; the ones held are that of the element's connection and that of
    its start-up; and in NULL, and when the object is gone, there are none, and the
    element has no connection left. *)
Theorem audio_sink_stream_returned `{E : Element} `{W : AudioWorld} fuel l elements linked c state self c' :
  c_log c = [] -> c_native c = None ->
  sinkLife fuel l (GST_STATE_NULL, audio_sink_init elements linked) c = Some ((state, self), c') ->
  exists r, follow hold [] (c_log c') = Some r
    /\ r ≡ₚ option_list (connOf self) ++ startupRefs (c_native c')
    /\ (state = GST_STATE_NULL \/ state = GONE -> r = [] /\ connOf self = None).
Proof.
  intros Hl Hn Hrun.
  pose proof (settled_sinkLife fuel l (GST_STATE_NULL, audio_sink_init elements linked) c) as H. unfold wp in H.
  rewrite Hrun in H. unfold settled in H at 2.
  assert (rests (audio_sink_init elements linked) c) as Hs.
  { split; [|done]. exists []. split; [|done]. split; [done|]. by exists []. }
  specialize (H Hs). destruct (Z.eqb_spec state GONE) as [->|Hg].
  - destruct H as ((r & (En & log & El & Hf) & Hr) & Ec). exists r. cbn in El. rewrite El, Ec, En. split; [done|].
    split; [done|]. intros _. split; [by apply Permutation_nil_r in Hr|done].
  - destruct (Z.eqb_spec state GST_STATE_NULL) as [->|Hnull].
    + destruct H as ((r & (En & log & El & Hf) & Hr) & Ec & _). exists r. cbn in El. rewrite El, Ec, En. split; [done|].
      split; [done|]. intros _. split; [by apply Permutation_nil_r in Hr|done].
    + destruct H as (n & (r & (En & log & El & Hf) & Hr) & _). exists r. cbn in El. rewrite El, En. split; [done|].
      split; [done|]. by intros [?|?].
Qed.

(** ** An example: a shared session, opened, used and closed, and the object disposed of *)

Definition streamScript : list AudioSinkCallback :=
  sinkScript ++ [SinkChangeState GST_STATE_CHANGE_READY_TO_PAUSED; SinkChangeState GST_STATE_CHANGE_PAUSED_TO_READY;
                 SinkChangeState GST_STATE_CHANGE_READY_TO_NULL; SinkFinalize].
Definition streamRun (l : list AudioSinkCallback) : Z * GstFrameLinkAudioSink * Core (option FlAudioStartup) :=
  default (0, audio_sink_init true true, audioCore true)
    (sinkLife (E := audioElement) (W := audioWorld) 5 l (GST_STATE_NULL, audio_sink_init true true) (audioCore true)).

(** The stream 11 is held in READY, and given back. *)
Lemma audio_sink_stream_returned_witness :
  connOf (streamRun sinkScript).1.2 = Some 11
  /\ filter (fun d => d = DRef 11 \/ d = DUnref 11) (c_log (streamRun streamScript).2) = [DRef 11; DUnref 11]
  /\ exists r, follow hold [] (c_log (streamRun streamScript).2) = Some r
    /\ r ≡ₚ option_list (connOf (streamRun streamScript).1.2) ++ startupRefs (c_native (streamRun streamScript).2)
    /\ ((streamRun streamScript).1.1 = GST_STATE_NULL \/ (streamRun streamScript).1.1 = GONE ->
        r = [] /\ connOf (streamRun streamScript).1.2 = None).
Proof.
  split; [by vm_compute|]. split; [by vm_compute|].
  apply (audio_sink_stream_returned (E := audioElement) (W := audioWorld) 5 streamScript true true (audioCore true));
    by vm_compute.
Defined.
