(* ===== verification/GstAvBin.v ===== *)
(** * What the bins framelinkavsink and framelinkavsrc share

    Each bin joins two elements of this library on one session.  It works on several
    threads - the application's state changes, a worker that sets the session up,
    calls of [releaseMedia] in the pool of GLib, the streaming threads at the pads, a
    drainer - that meet in the mutex of [Shared].  The model is a system of their
    steps: a critical section, or the code between two of them.  [Shared] objects
    have addresses: a call keeps the one it started with, and touching one that was
    deleted ends the run.

    Here is what both source files repeat: the properties, the offer, the children,
    the log, and who holds the video channel. *)
From stdpp Require Import strings.
From S2P Require Import Prelude Api Session GstVideo Element GstAudio.
#[local] Open Scope Z_scope.

(** ** Properties and the offer *)

Record AvProps := mkAvProps {
  vp_path : option string; vp_tracks : option string; vp_videoFormat : option string; vp_audioFormat : option string;
  vp_width : Z; vp_height : Z; vp_fpsN : Z; vp_fpsD : Z; vp_rate : Z; vp_channels : Z;
  vp_connectMs : Z; vp_idleMs : Z; vp_audioQueueMs : Z; vp_videoQueue : Z; vp_videoPool : Z;
}.

Definition wantVideo (p : AvProps) : bool := equals (vp_tracks p) "av" || equals (vp_tracks p) "video".
Definition wantAudio (p : AvProps) : bool := equals (vp_tracks p) "av" || equals (vp_tracks p) "audio".

Definition videoFormat (f : option string) : Z :=
  return_if equals f "RGBA" with FL_FORMAT_RGBA8 ;;
  return_if equals f "NV12" with FL_FORMAT_NV12 ;;
  return_if equals f "RGB10A2_LE" with FL_FORMAT_RGB10A2 ;;
  FL_FORMAT_BGRA8.
Definition validVideoFormat (f : option string) : bool :=
  equals f "BGRA" || equals f "RGBA" || equals f "NV12" || equals f "RGB10A2_LE".
Definition validAudioFormat (f : option string) : bool := equals f "S16LE" || equals f "F32LE".

(** The capabilities the worker offers: one format per track. *)
Definition offered (p : AvProps) : flSessionCapabilities :=
  mkCaps FL_SESSION_OPTIONAL_TRACKS_VERSION (if wantVideo p then 1 else 0) (if wantAudio p then 1 else 0)
    ((if wantVideo p then mkVideo (videoFormat (vp_videoFormat p)) (vp_width p) (vp_height p) (vp_fpsN p) (vp_fpsD p)
      else zeroVideo) :: replicate 7 zeroVideo)
    ((if wantAudio p then mkAudio (if equals (vp_audioFormat p) "F32LE" then FL_PCM_F32 else FL_PCM_S16) (vp_rate p) (vp_channels p)
      else zeroAudio) :: replicate 7 zeroAudio).

Inductive AvProperty :=
| PropSession (v : option string) | PropTracks (v : option string) (plugins : bool * bool)
| PropVideoFormat (v : option string) | PropWidth (v : Z) | PropHeight (v : Z) | PropFramerate (n d : Z)
| PropAudioFormat (v : option string) | PropRate (v : Z) | PropChannels (v : Z) | PropConnect (v : Z) | PropIdle (v : Z)
| PropAudioQueue (v : Z) | PropVideoQueue (v : Z) | PropVideoPool (v : Z).

(** One assignment of [setProperty]; refused track sets leave the old ones. *)
Definition assign (k : AvProperty) (p : AvProps) : AvProps :=
  let 'mkAvProps path tracks vf af w h n d rate ch connect idle aq vq pool := p in
  match k with
  | PropSession v => mkAvProps v tracks vf af w h n d rate ch connect idle aq vq pool
  | PropTracks v _ =>
    if equals v "av" || equals v "audio" || equals v "video" then mkAvProps path v vf af w h n d rate ch connect idle aq vq pool else p
  | PropVideoFormat v => mkAvProps path tracks v af w h n d rate ch connect idle aq vq pool
  | PropWidth v => mkAvProps path tracks vf af v h n d rate ch connect idle aq vq pool
  | PropHeight v => mkAvProps path tracks vf af w v n d rate ch connect idle aq vq pool
  | PropFramerate n d => mkAvProps path tracks vf af w h n d rate ch connect idle aq vq pool
  | PropAudioFormat v => mkAvProps path tracks vf v w h n d rate ch connect idle aq vq pool
  | PropRate v => mkAvProps path tracks vf af w h n d v ch connect idle aq vq pool
  | PropChannels v => mkAvProps path tracks vf af w h n d rate v connect idle aq vq pool
  | PropConnect v => mkAvProps path tracks vf af w h n d rate ch v idle aq vq pool
  | PropIdle v => mkAvProps path tracks vf af w h n d rate ch connect v aq vq pool
  | PropAudioQueue v => mkAvProps path tracks vf af w h n d rate ch connect idle v vq pool
  | PropVideoQueue v => mkAvProps path tracks vf af w h n d rate ch connect idle aq v pool
  | PropVideoPool v => mkAvProps path tracks vf af w h n d rate ch connect idle aq vq v
  end.

(** ** The bin and its threads *)

(** The fields of the element both bins have.  [av_probes] is whether the pads carry
    their probes; a pair is for the video and the audio child. *)
Record AvBin := mkAvBin {
  av_props : AvProps; av_video : bool; av_audio : bool;
  av_session : option nat; av_local : bool; av_cancel : bool;
  av_probes : bool; av_locked : bool * bool;
}.
Implicit Types (b : AvBin).

Definition set_props b v := mkAvBin v (av_video b) (av_audio b) (av_session b) (av_local b) (av_cancel b) (av_probes b) (av_locked b).
Definition set_children b video audio :=
  mkAvBin (av_props b) video audio (av_session b) (av_local b) (av_cancel b) (av_probes b) (av_locked b).
Definition set_session b i local cancel := mkAvBin (av_props b) (av_video b) (av_audio b) i local cancel (av_probes b) (av_locked b).
Definition set_probes b v := mkAvBin (av_props b) (av_video b) (av_audio b) (av_session b) (av_local b) (av_cancel b) v (av_locked b).
Definition set_locked b v := mkAvBin (av_props b) (av_video b) (av_audio b) (av_session b) (av_local b) (av_cancel b) (av_probes b) v.

(** A call of [releaseMedia], from step to step. *)
Inductive Task :=
| Queued
| Took (sh : nat) (ch : option Z)            (* the guards passed, the channel is its own *)
| Clocked (sh : nat) (ch : option Z)         (* the pipeline's clock is the system clock *)
| Timed (sh : nat) (base : Z) (ch : option Z)  (* the base time is as it has to be *)
| Adopted (sh : nat) (base : Z)              (* the video child has the channel, if there is one *)
| Started (sh : nat) (base : Z)              (* the children run *)
| Failing (sh : nat).

(** What the steps did. *)
Inductive AvDid :=
| VOpen (ch : Z)             (* a channel came: from the transport, or the application *)
| VClose (ch : Z)
| VSession (i : nat) (tracks : bool * bool)  (* made, for these children *)
| VCancel (i : nat)
| VDrop (i : nat)
| VReset (calls : nat)       (* [Shared] is deleted, with so many calls of [releaseMedia] under way *)
| VEpoch (i : nat) (e : Z)   (* session [i] was set up, with this epoch *)
| VReady (i : nat)           (* its other end is ready, or knows that this one is *)
| VStart (i : nat) (base : Z)  (* its media is released *)
| VChild (i : nat) (track : nat)  (* one of its children was started, and that succeeded *)
| VFail (i : nat)            (* its set-up failed, or took too long *)
| VFlush (i : nat) (track : nat)  (* FLUSH_START at a pad *)
| VPass (i : nat) (track : nat) (event : bool)  (* a buffer or an event went on to a child, through a pad that holds them *)
| VChildEos (i : nat) (track : nat)
| VDrained (i : nat)         (* the drain was confirmed, or reported *)
| VEos (i : nat)             (* EOS of the children left the bin *)
| VSetup (i : nat)           (* session [i] was set up *)
| VConfigure (video : option (Z * Z * option string * bool)) (audio : option (option string * Z * Z * Z * Z * Z))
| VChildError (i : nat)
| VDrain (i : nat)           (* the drain is going to be reported *)
| VError.

Inductive Life := Alive | Stale | Gone.
#[export] Instance Life_eq_dec : EqDecision Life.
Proof. solve_decision. Defined.

Record System (SH W D : Type) := mkSystem {
  sy_bin : AvBin;
  sy_addr : nat; sy_shared : SH;           (* [s->shared], and what it points at *)
  sy_state : Z; sy_stopping : bool;        (* of the element; stopping: it waits for its threads *)
  sy_worker : W; sy_drainer : D; sy_tasks : list Task;
  sy_child : option Z; sy_running : bool * bool;  (* the video child's channel; the children that left NULL *)
  sy_sessions : nat;                       (* made so far *)
  sy_life : Life;
  sy_log : list AvDid;
}.
Arguments mkSystem {SH W D}.
Arguments sy_bin {SH W D}.
Arguments sy_addr {SH W D}.
Arguments sy_shared {SH W D}.
Arguments sy_state {SH W D}.
Arguments sy_stopping {SH W D}.
Arguments sy_worker {SH W D}.
Arguments sy_drainer {SH W D}.
Arguments sy_tasks {SH W D}.
Arguments sy_child {SH W D}.
Arguments sy_running {SH W D}.
Arguments sy_sessions {SH W D}.
Arguments sy_life {SH W D}.
Arguments sy_log {SH W D}.

(** What the calls in a step of [releaseMedia] answer. *)
Record Answers := mkAnswers {
  an_clock : bool;                           (* monotonicSystemClock *)
  an_base : Z;                               (* gst_element_get_base_time *)
  an_query : bool;                           (* the channel answers the child's queries *)
  an_video : bool * bool; an_audio : bool * bool;  (* set_state of a child: it left NULL; it succeeded *)
}.

Section Steps.
Context {SH W D : Type}.
Notation S := (System SH W D).
Implicit Types (s : S).

Definition on_bin s f : S := mkSystem (f (sy_bin s)) (sy_addr s) (sy_shared s) (sy_state s) (sy_stopping s) (sy_worker s)
  (sy_drainer s) (sy_tasks s) (sy_child s) (sy_running s) (sy_sessions s) (sy_life s) (sy_log s).
Definition on_shared s f : S := mkSystem (sy_bin s) (sy_addr s) (f (sy_shared s)) (sy_state s) (sy_stopping s) (sy_worker s)
  (sy_drainer s) (sy_tasks s) (sy_child s) (sy_running s) (sy_sessions s) (sy_life s) (sy_log s).
Definition with_state s state stopping : S := mkSystem (sy_bin s) (sy_addr s) (sy_shared s) state stopping (sy_worker s)
  (sy_drainer s) (sy_tasks s) (sy_child s) (sy_running s) (sy_sessions s) (sy_life s) (sy_log s).
Definition with_worker s w : S := mkSystem (sy_bin s) (sy_addr s) (sy_shared s) (sy_state s) (sy_stopping s) w
  (sy_drainer s) (sy_tasks s) (sy_child s) (sy_running s) (sy_sessions s) (sy_life s) (sy_log s).
Definition with_drainer s d : S := mkSystem (sy_bin s) (sy_addr s) (sy_shared s) (sy_state s) (sy_stopping s) (sy_worker s)
  d (sy_tasks s) (sy_child s) (sy_running s) (sy_sessions s) (sy_life s) (sy_log s).
Definition with_tasks s l : S := mkSystem (sy_bin s) (sy_addr s) (sy_shared s) (sy_state s) (sy_stopping s) (sy_worker s)
  (sy_drainer s) l (sy_child s) (sy_running s) (sy_sessions s) (sy_life s) (sy_log s).
Definition with_child s ch running : S := mkSystem (sy_bin s) (sy_addr s) (sy_shared s) (sy_state s) (sy_stopping s) (sy_worker s)
  (sy_drainer s) (sy_tasks s) ch running (sy_sessions s) (sy_life s) (sy_log s).
Definition with_life s v : S := mkSystem (sy_bin s) (sy_addr s) (sy_shared s) (sy_state s) (sy_stopping s) (sy_worker s)
  (sy_drainer s) (sy_tasks s) (sy_child s) (sy_running s) (sy_sessions s) v (sy_log s).
Definition did s l : S := mkSystem (sy_bin s) (sy_addr s) (sy_shared s) (sy_state s) (sy_stopping s) (sy_worker s)
  (sy_drainer s) (sy_tasks s) (sy_child s) (sy_running s) (sy_sessions s) (sy_life s) (sy_log s ++ l).
(** [delete s->shared;s->shared=new Shared], and what it is now. *)
Definition renew s (x : SH) : S := mkSystem (sy_bin s) (sy_addr s + 1) x (sy_state s) (sy_stopping s) (sy_worker s)
  (sy_drainer s) (sy_tasks s) (sy_child s) (sy_running s) (sy_sessions s) (sy_life s) (sy_log s).
(** [fl_gst_session_new], [s->session], [s->local] and [s->cancel] *)
Definition new_session s : S := mkSystem (set_session (sy_bin s) (Some (sy_sessions s)) true true) (sy_addr s) (sy_shared s) (sy_state s)
  (sy_stopping s) (sy_worker s) (sy_drainer s) (sy_tasks s) (sy_child s) (sy_running s) (sy_sessions s + 1) (sy_life s)
  (sy_log s ++ [VSession (sy_sessions s) (av_video (sy_bin s), av_audio (sy_bin s))]).

(** Logged for the session of now, if there is one. *)
Definition ofSession s (f : nat -> AvDid) : list AvDid :=
  match av_session (sy_bin s) with Some i => [f i] | None => [] end.
Definition closes (ch : option Z) : list AvDid := match ch with Some c => [VClose c] | None => [] end.
Definition opens (ch : option Z) : list AvDid := match ch with Some c => [VOpen c] | None => [] end.

(** ** The children *)

(** The "adopt-channel" of the video child: in NULL, with no channel yet, one that
    answers its queries (GstSink.v, GstSource.v). *)
Definition adopts s (ch : option Z) (query : bool) : bool :=
  negb (fst (sy_running s)) && match sy_child s, ch with None, Some _ => query | _, _ => false end.
Definition adopt s (ch : option Z) : S := with_child s ch (sy_running s).

(** The loop of [releaseMedia] over the children. *)
Definition startVideo (r : bool * bool) s : bool * S :=
  return_if negb (av_video (sy_bin s)) with (true, s) ;;
  let s := on_bin s (fun b => set_locked b (false, snd (av_locked b))) in
  let s := with_child s (sy_child s) (fst (sy_running s) || fst r, snd (sy_running s)) in
  (snd r, did s (if snd r then ofSession s (fun i => VChild i 0) else [])).
Definition startAudio (r : bool * bool) s : bool * S :=
  return_if negb (av_audio (sy_bin s)) with (true, s) ;;
  let s := on_bin s (fun b => set_locked b (fst (av_locked b), false)) in
  let s := with_child s (sy_child s) (fst (sy_running s), snd (sy_running s) || fst r) in
  (snd r, did s (if snd r then ofSession s (fun i => VChild i 1) else [])).
Definition startChildren (a : Answers) s : bool * S :=
  let '(ok, s) := startVideo (an_video a) s in
  return_if negb ok with (false, s) ;;
  startAudio (an_audio a) s.

(** The children go to NULL, unlocked: one that left NULL closes its channel. *)
Definition stopChildren s : S :=
  let s := if fst (sy_running s) then with_child (did s (closes (sy_child s))) None (false, false)
           else with_child s (sy_child s) (false, false) in
  on_bin s (fun b => set_locked b (false, false)).

(** [rebuild]: the old children go with what they hold; [plugins] says which
    factories there are. *)
Definition rebuild (plugins : bool * bool) s : S :=
  let s := with_child (did s (closes (sy_child s))) None (false, false) in
  on_bin s (fun b => set_locked (set_children b (wantVideo (av_props b) && fst plugins) (wantAudio (av_props b) && snd plugins)) (false, false)).

Definition adoptChannel (ch : option Z) (query : bool) s : bool * S :=
  return_if av_local (sy_bin s) || negb (av_video (sy_bin s)) || negb (sy_state s =? GST_STATE_NULL) with (false, s) ;;
  return_if negb (adopts s ch query) with (false, s) ;;
  (true, adopt (did s (opens ch)) ch).

Definition setProperty (k : AvProperty) s : S :=
  return_if negb (sy_state s =? GST_STATE_NULL) with s ;;
  let s := on_bin s (fun b => set_props b (assign k (av_props b))) in
  match k with
  | PropTracks v plugins => if equals v "av" || equals v "audio" || equals v "video" then rebuild plugins s else s
  | _ => s
  end.

End Steps.

(** ** Who holds a channel *)

Fixpoint opened (log : list AvDid) : list Z :=
  match log with [] => [] | VOpen c :: l => c :: opened l | _ :: l => opened l end.
Fixpoint closed (log : list AvDid) : list Z :=
  match log with [] => [] | VClose c :: l => c :: closed l | _ :: l => closed l end.

Definition held (ch : option Z) : list Z := match ch with Some c => [c] | None => [] end.
Definition underWay (t : Task) : bool := match t with Queued => false | _ => true end.
Definition address (t : Task) : nat :=
  match t with Queued => 0%nat | Took n _ | Clocked n _ | Timed n _ _ | Adopted n _ | Started n _ | Failing n => n end.
Definition taskHolds (t : Task) : list Z :=
  match t with Took _ ch | Clocked _ ch | Timed _ _ ch => held ch | _ => [] end.

(** [True] of every reset: no call of [releaseMedia] was under way. *)
Definition clean (log : list AvDid) : Prop := forall n, VReset n ∈ log -> n = 0%nat.

Notation count l c := (count_occ Z.eq_dec l c).
Definition tasksHold (l : list Task) : list Z := concat (map taskHolds l).

Lemma opened_app l k : opened (l ++ k) = opened l ++ opened k.
Proof. induction l as [|[] l IH]; simpl; congruence. Qed.

Lemma closed_app l k : closed (l ++ k) = closed l ++ closed k.
Proof. induction l as [|[] l IH]; simpl; congruence. Qed.

Lemma opened_opens ch : opened (opens ch) = held ch.
Proof. by destruct ch. Qed.

Lemma opened_closes ch : opened (closes ch) = [].
Proof. by destruct ch. Qed.

Lemma closed_closes ch : closed (closes ch) = held ch.
Proof. by destruct ch. Qed.

Lemma closed_opens ch : closed (opens ch) = [].
Proof. by destruct ch. Qed.

(** What is said of the session holds no channel. *)
Definition silent (d : AvDid) : Prop := match d with VOpen _ | VClose _ => False | _ => True end.

Lemma opened_silent l : Forall silent l -> opened l = [].
Proof. induction 1 as [|[] l Hd _ IH]; done. Qed.

Lemma closed_silent l : Forall silent l -> closed l = [].
Proof. induction 1 as [|[] l Hd _ IH]; done. Qed.

Lemma silent_ofSession {SH W D} (s : System SH W D) f : (forall i, silent (f i)) -> Forall silent (ofSession s f).
Proof. intros Hf. unfold ofSession. destruct (av_session (sy_bin s)); auto. Qed.

Lemma opened_ofSession {SH W D} (s : System SH W D) f : (forall i, silent (f i)) -> opened (ofSession s f) = [].
Proof. intros Hf. by apply opened_silent, silent_ofSession. Qed.

Lemma closed_ofSession {SH W D} (s : System SH W D) f : (forall i, silent (f i)) -> closed (ofSession s f) = [].
Proof. intros Hf. by apply closed_silent, silent_ofSession. Qed.

Lemma count_tasks_delete l n t c : l !! n = Some t -> count (tasksHold l) c = (count (taskHolds t) c + count (tasksHold (delete n l)) c)%nat.
Proof.
  intros Hn. rewrite <- (take_drop_middle l n t Hn) at 1. rewrite delete_take_drop. unfold tasksHold.
  rewrite !map_app, !concat_app, !count_occ_app. simpl. rewrite count_occ_app. lia.
Qed.

Lemma count_tasks_insert l n t t' c : l !! n = Some t ->
  (count (tasksHold (<[n := t']> l)) c + count (taskHolds t) c = count (tasksHold l) c + count (taskHolds t') c)%nat.
Proof.
  intros Hn. rewrite <- (take_drop_middle l n t Hn) at 2.
  rewrite insert_take_drop by (by eapply lookup_lt_Some). unfold tasksHold.
  rewrite !map_app, !concat_app, !count_occ_app. simpl. rewrite !count_occ_app. lia.
Qed.

Lemma tasksHold_queued l : tasksHold (l ++ [Queued]) = tasksHold l.
Proof. unfold tasksHold. rewrite map_app, concat_app. simpl. by rewrite app_nil_r. Qed.

(** What a call that made a step leaves of the calls. *)
Definition goesOn (l : list Task) (n : nat) (t : option Task) : list Task :=
  match t with Some t => <[n := t]> l | None => delete n l end.

Lemma goesOn_elem l n t x : x ∈ goesOn l n t -> x ∈ l \/ t = Some x.
Proof.
  destruct t as [t|]; simpl; intros [i Hi]%list_elem_of_lookup.
  - destruct (decide (i = n)) as [->|Hn].
    + apply list_lookup_insert_Some in Hi as [(_ & <- & _)|[? _]]; [by right|done].
    + left. rewrite list_lookup_insert_ne in Hi by done. by eapply list_elem_of_lookup_2.
  - left. destruct (decide (i < n)%nat).
    + rewrite list_lookup_delete_lt in Hi by done. by eapply list_elem_of_lookup_2.
    + rewrite list_lookup_delete_ge in Hi by lia. by eapply list_elem_of_lookup_2.
Qed.

Lemma count_goesOn l n t t' c : l !! n = Some t ->
  (count (tasksHold (goesOn l n t')) c + count (taskHolds t) c = count (tasksHold l) c + count (default [] (taskHolds <$> t')) c)%nat.
Proof.
  intros Hn. destruct t' as [t'|]; simpl; [by apply count_tasks_insert|]. rewrite (count_tasks_delete _ _ _ c Hn). lia.
Qed.

Lemma holds_nothing (l : list Z) : (forall c, count l c = 0%nat) -> l = [].
Proof. intros H. destruct l as [|c l]; [done|]. specialize (H c). simpl in H. by destruct (Z.eq_dec c c). Qed.

Lemma idle_holds_nothing l : Forall (fun t => underWay t = false) l -> tasksHold l = [].
Proof. induction 1 as [|[] l Ht _ IH]; simpl; done. Qed.

(** That the children of a session were started. *)
Definition childStarted (d : AvDid) : Prop := match d with VChild _ _ => True | _ => False end.

(** Starting the children changes their locks and whether they run; when it succeeds
    every child of the bin was started. *)
Lemma start_children {SH W D} a (s : System SH W D) : exists v run l,
  (startChildren a s).2 = with_child (on_bin (did s l) (fun b => set_locked b v)) (sy_child s) run /\ Forall childStarted l /\
  ((startChildren a s).1 = true -> forall i, av_session (sy_bin s) = Some i ->
    (av_video (sy_bin s) = true -> VChild i 0 ∈ l) /\ (av_audio (sy_bin s) = true -> VChild i 1 ∈ l)).
Proof.
  unfold startChildren, startVideo, startAudio, did, ofSession. destruct s as [[p ve au i lo ca pr lk] addr x st sp w d l ch run n life log]. simpl.
  destruct ve, au, (an_video a) as [rv []], (an_audio a) as [ra []], i as [i|]; simpl.
  all: eexists _, _, _; split; [unfold with_child, on_bin, did; simpl; rewrite <- ?app_assoc; simpl; try done; by rewrite app_nil_r|].
  all: split; [by repeat constructor|intros E j Ej; simplify_eq; try done; set_solver].
Qed.

Lemma did_nil {SH W D} (s : System SH W D) : did s [] = s.
Proof. destruct s. unfold did. simpl. by rewrite app_nil_r. Qed.

Lemma did_did {SH W D} (s : System SH W D) l k : did (did s l) k = did s (l ++ k).
Proof. destruct s. unfold did. simpl. by rewrite app_assoc. Qed.

Lemma clean_holds log : forallb (fun d => match d with VReset (Datatypes.S _) => false | _ => true end) log = true -> clean log.
Proof.
  intros H n Hn. apply list_elem_of_In in Hn. rewrite forallb_forall in H. specialize (H _ Hn). by destruct n.
Qed.

Lemma clean_before l k : clean (l ++ k) -> clean l.
Proof. intros H n Hn. apply H, elem_of_app. by left. Qed.

(** ** What a log says before what *)

Definition inOrder (needs : list AvDid -> AvDid -> Prop) (log : list AvDid) : Prop :=
  forall l1 d l2, log = l1 ++ d :: l2 -> needs l1 d.

Lemma inOrder_nil needs : inOrder needs [].
Proof. intros [|] d l2; done. Qed.

Lemma inOrder_snoc needs l d : inOrder needs l -> needs l d -> inOrder needs (l ++ [d]).
Proof.
  intros Hl Hd l1 d' l2. destruct l2 as [|x l2 _] using rev_ind.
  - intros [-> [= ->]]%app_inj_tail. done.
  - rewrite app_comm_cons, app_assoc. intros [-> _]%app_inj_tail. by apply (Hl l1 d' l2).
Qed.

Lemma inOrder_app needs l k : inOrder needs l -> Forall (fun d => forall l', needs (l ++ l') d) k -> inOrder needs (l ++ k).
Proof.
  intros Hl Hk. induction k as [|d k IH] using rev_ind; [by rewrite app_nil_r|].
  apply Forall_app in Hk as [Hk Hd]. rewrite app_assoc. apply inOrder_snoc; [by apply IH|].
  by inversion Hd.
Qed.
