(* ===== verification/GstAvStart.v ===== *)
(** * The children of a session, for both bins

    A bin says that the media of a session was released only when all the children
    the session was made for were started.  The children of a bin change when its
    tracks do, and a call of [releaseMedia] may be left from an earlier session; so
    this is an invariant of the whole system, over what GstAvSink.v and GstAvSrc.v
    have in common. *)
From stdpp Require Import list.
From S2P Require Import Prelude Session Element GstAudio GstAvBin.
#[local] Open Scope Z_scope.

(** [P i] of the session there is. *)
Definition ofNow {SH W D} (s : System SH W D) (P : nat -> Prop) : Prop := exists i, av_session (sy_bin s) = Some i /\ P i.

(** The children session [i] was made for were started. *)
Definition allStarted (i : nat) (l : list AvDid) : Prop :=
  exists tr, VSession i tr ∈ l /\ (fst tr = true -> VChild i 0 ∈ l) /\ (snd tr = true -> VChild i 1 ∈ l).

Lemma prefix_in (l k : list AvDid) d : l `prefix_of` k -> d ∈ l -> d ∈ k.
Proof. intros [m ->] H. apply elem_of_app. by left. Qed.

Lemma allStarted_grows i l k : l `prefix_of` k -> allStarted i l -> allStarted i k.
Proof. intros Hp (tr & H1 & H2 & H3). exists tr. split_and!; eauto using prefix_in. Qed.

(** [idle] workers, and the two flags of [Shared] a call looks at. *)
Section Start.
Context {SH W D : Type} (idle : W -> bool) (ok cancelled : SH -> bool).
Implicit Types (s : System SH W D).

(** The session of now was made for the children of now. *)
Definition made s : Prop := ofNow s (fun i => VSession i (av_video (sy_bin s), av_audio (sy_bin s)) ∈ sy_log s).

(** A call is of an earlier [Shared], or of the session; past the loop over the
    children it started them. *)
Definition sound s (t : Task) : Prop :=
  (address t <= sy_addr s)%nat /\
  (address t = sy_addr s -> sy_state s <> GST_STATE_NULL /\ made s /\
    match t with Started _ _ => ofNow s (fun i => allStarted i (sy_log s)) | _ => True end).

Record kids s : Prop := {
  k_local : av_local (sy_bin s) = is_some (av_session (sy_bin s));
  k_made : idle (sy_worker s) = false -> sy_state s <> GST_STATE_NULL -> made s;
  k_setup : ok (sy_shared s) = true -> idle (sy_worker s) = false;
  k_stopping : sy_state s = GST_STATE_NULL -> sy_stopping s = true -> cancelled (sy_shared s) = true;
  k_rest : sy_state s = GST_STATE_NULL -> sy_stopping s = false -> idle (sy_worker s) = true;
  k_calls : forall t, t ∈ sy_tasks s -> underWay t = true -> sound s t;
}.

(** A call that gets past the guards finds the children of its session. *)
Lemma kids_taken s : kids s -> ok (sy_shared s) = true -> cancelled (sy_shared s) = false -> sy_state s <> GST_STATE_NULL /\ made s.
Proof.
  intros Hk E1 E2. pose proof (k_setup _ Hk E1) as Ew. assert (sy_state s <> GST_STATE_NULL) as Hn.
  { intros En. destruct (sy_stopping s) eqn:Es; [pose proof (k_stopping _ Hk En Es)|pose proof (k_rest _ Hk En Es)]; congruence. }
  split; [done|]. by apply (k_made _ Hk).
Qed.

(** ** A step within a session *)

Record keeps s s' : Prop := {
  c_log : sy_log s `prefix_of` sy_log s';
  c_session : av_session (sy_bin s') = av_session (sy_bin s);
  c_local : av_local (sy_bin s') = av_local (sy_bin s);
  c_addr : sy_addr s' = sy_addr s;
  c_children : (av_video (sy_bin s') = av_video (sy_bin s) /\ av_audio (sy_bin s') = av_audio (sy_bin s)) \/ sy_state s = GST_STATE_NULL;
  c_state : sy_state s' = GST_STATE_NULL -> sy_state s = GST_STATE_NULL;
  c_made : idle (sy_worker s') = false -> sy_state s' <> GST_STATE_NULL ->
    (idle (sy_worker s) = false /\ sy_state s <> GST_STATE_NULL) \/ made s';
  c_setup : ok (sy_shared s') = true -> (ok (sy_shared s) = true /\ (idle (sy_worker s) = false -> idle (sy_worker s') = false)) \/ idle (sy_worker s') = false;
  c_stopping : sy_state s' = GST_STATE_NULL -> sy_stopping s' = true ->
    (sy_stopping s = true /\ (cancelled (sy_shared s) = true -> cancelled (sy_shared s') = true)) \/ cancelled (sy_shared s') = true;
  c_rest : sy_state s' = GST_STATE_NULL -> sy_stopping s' = false ->
    (sy_stopping s = false /\ (idle (sy_worker s) = true -> idle (sy_worker s') = true)) \/ idle (sy_worker s') = true;
  c_calls : forall t, t ∈ sy_tasks s' -> underWay t = true -> t ∈ sy_tasks s \/ sound s' t;
}.

Lemma made_kept s s' : keeps s s' -> sy_state s <> GST_STATE_NULL -> made s -> made s'.
Proof.
  intros Hp Hn (i & H1 & H2). exists i. destruct (c_children _ _ Hp) as [[-> ->]|?]; [|done].
  rewrite (c_session _ _ Hp). split; [done|]. eapply prefix_in; [apply (c_log _ _ Hp)|done].
Qed.

Lemma sound_kept s s' t : keeps s s' -> sound s t -> sound s' t.
Proof.
  intros Hk [H1 H2]. pose proof Hk as [Hl Hs _ Ha _ Hst _ _ _ _ _]. split; [by rewrite Ha|]. rewrite Ha. intros E.
  destruct (H2 E) as (H3 & H4 & H5). split_and!; [auto|by eapply made_kept|]. destruct t; try done.
  destruct H5 as (i & H6 & H7). exists i. rewrite Hs. split; [done|]. by eapply allStarted_grows.
Qed.

Lemma kids_keeps s s' : kids s -> keeps s s' -> kids s'.
Proof.
  intros Hk Hp. pose proof Hp as [_ Hs Hlo _ _ Hst C1 C2 C3 C4 C5]. constructor.
  - rewrite Hs, Hlo. apply Hk.
  - intros E1 E2. destruct (C1 E1 E2) as [[E3 E4]|]; [|done]. eapply made_kept; [done..|]. by apply (k_made _ Hk).
  - intros E. destruct (C2 E) as [[E1 E2]|]; [|done]. by apply E2, (k_setup _ Hk).
  - intros E1 E2. destruct (C3 E1 E2) as [[E3 E4]|]; [|done]. apply E4, (k_stopping _ Hk); auto.
  - intros E1 E2. destruct (C4 E1 E2) as [[E3 E4]|]; [|done]. apply E4, (k_rest _ Hk); auto.
  - intros t H1 H2. destruct (C5 t H1 H2); [|done]. eapply sound_kept; [done|]. by apply (k_calls _ Hk).
Qed.

(** ** Sessions come and go *)

Lemma kids_new s : kids s -> sy_state s = GST_STATE_NULL -> kids (new_session s).
Proof.
  intros [K1 K2 K3 K4 K5 K6] En. constructor; try done. intros t H1 H2. destruct (K6 t H1 H2) as [H3 H4].
  split; [done|]. intros E. by destruct (H4 E).
Qed.

Lemma kids_fresh s : av_local (sy_bin s) = is_some (av_session (sy_bin s)) -> idle (sy_worker s) = true -> ok (sy_shared s) = false ->
  sy_stopping s = false -> (forall t, t ∈ sy_tasks s -> underWay t = true -> (address t < sy_addr s)%nat) -> kids s.
Proof.
  intros H1 H2 H3 H4 H5. constructor; try done; try congruence. intros t H6 H7. specialize (H5 t H6 H7). split; [lia|]. intros E. lia.
Qed.

(** To NULL without a session: there is no call that could see it. *)
Lemma kids_thin s : kids s -> av_local (sy_bin s) = false -> sy_state s <> GST_STATE_NULL -> kids (with_state s GST_STATE_NULL false).
Proof.
  intros [K1 K2 K3 K4 K5 K6] El Hn. rewrite El in K1.
  assert (~ made s) as Hm by (intros (i & E & _); by rewrite E in K1).
  constructor; simpl; try done; [congruence| |].
  - intros _ _. destruct (idle (sy_worker s)) eqn:E; [done|]. by destruct (Hm (K2 eq_refl Hn)).
  - intros t H1 H2. destruct (K6 t H1 H2) as [H3 H4]. split; [done|]. intros E. by destruct (H4 E) as (_ & ? & _).
Qed.

(** ** Steps both bins have *)

(** A step is a record of what it keeps, most of it by computation. *)
#[local] Ltac keep :=
  constructor; simpl; rewrite <- ?app_assoc;
  try solve [done | by apply prefix_app_r | by left | auto | intros; left; auto | intros; right; auto | intros; congruence].

Lemma kids_did s l : kids s -> kids (did s l).
Proof. intros Hk. apply (kids_keeps s); [done|]. keep. Qed.

Lemma kids_child s ch run : kids s -> kids (with_child s ch run).
Proof. intros Hk. apply (kids_keeps s); [done|]. keep. Qed.

Lemma kids_life s v : kids s -> kids (with_life s v).
Proof. intros Hk. apply (kids_keeps s); [done|]. keep. Qed.

Lemma kids_drainer s d : kids s -> kids (with_drainer s d).
Proof. intros Hk. apply (kids_keeps s); [done|]. keep. Qed.

Lemma kids_state s state : kids s -> sy_state s <> GST_STATE_NULL -> state <> GST_STATE_NULL -> kids (with_state s state false).
Proof. intros Hk H1 H2. apply (kids_keeps s); [done|]. keep. Qed.

Lemma kids_bin s f : kids s -> (forall b, av_local (f b) = av_local b /\ av_session (f b) = av_session b /\
  av_video (f b) = av_video b /\ av_audio (f b) = av_audio b) -> kids (on_bin s f).
Proof. intros Hk F. destruct (F (sy_bin s)) as (E1 & E2 & E3 & E4). apply (kids_keeps s); [done|]. keep. Qed.

(** [Shared], by one that has a worker if it says that the set-up went well. *)
Lemma kids_shared s f : kids s -> (forall x, cancelled x = true -> cancelled (f x) = true) ->
  (ok (f (sy_shared s)) = true -> ok (sy_shared s) = true \/ idle (sy_worker s) = false) -> kids (on_shared s f).
Proof.
  intros Hk F1 F2. apply (kids_keeps s); [done|]. keep. simpl. intros E. destruct (F2 E); auto.
Qed.

Lemma kids_worker s w : kids s -> idle (sy_worker s) = false -> idle w = false -> kids (with_worker s w).
Proof.
  intros Hk E1 E2. apply (kids_keeps s); [done|]. keep. simpl. intros E3 E4. left. by rewrite E1.
Qed.

(** NULL is left with a worker for the session of now, or without one. *)
Lemma kids_ready s w : kids s -> idle w = true /\ idle (sy_worker s) = true \/ idle w = false /\ made s -> kids (with_state (with_worker s w) GST_STATE_READY false).
Proof.
  intros Hk Hw. apply (kids_keeps s); [done|]. keep; simpl.
  - intros E _. right. by destruct Hw as [[? _]|[_ ?]]; [congruence|].
  - intros E. pose proof (k_setup _ Hk E). right. by destruct Hw as [[_ ?]|[? _]]; [congruence|].
Qed.

(** The way to NULL: the session is cancelled. *)
Lemma kids_closing s f g w : kids s -> cancelled (f (sy_shared s)) = true -> (ok (f (sy_shared s)) = true -> ok (sy_shared s) = true) ->
  (forall b, av_local (g b) = av_local b /\ av_session (g b) = av_session b /\ av_video (g b) = av_video b /\ av_audio (g b) = av_audio b) ->
  idle w = idle (sy_worker s) \/ idle w = false /\ made s ->
  kids (with_state (on_bin (with_worker (on_shared s f) w) g) (sy_state s) true).
Proof.
  intros Hk F1 F2 G Hw. destruct (G (sy_bin s)) as (E1 & E2 & E3 & E4). apply (kids_keeps s); [done|]. keep; simpl.
  - intros E5 E6. destruct Hw as [E|[E (i & H1 & H2)]]; [rewrite E in E5; auto|right]. exists i. simpl. by rewrite E2, E3, E4.
  - intros E. destruct Hw as [->|[-> _]]; auto.
Qed.

Lemma kids_tasks s l : kids s -> (forall t, t ∈ l -> underWay t = true -> t ∈ sy_tasks s \/ sound s t) -> kids (with_tasks s l).
Proof. intros Hk Hl. apply (kids_keeps s); [done|]. keep. Qed.

Lemma kids_enqueue s : kids s -> kids (with_tasks s (sy_tasks s ++ [Queued])).
Proof. intros Hk. apply kids_tasks; [done|]. intros t [?| ->%list_elem_of_singleton]%elem_of_app; [by left|done]. Qed.

Lemma kids_ends s n : kids s -> kids (with_tasks s (delete n (sy_tasks s))).
Proof. intros Hk. apply kids_tasks; [done|]. intros t [?|?]%(goesOn_elem _ n None); [by left|done]. Qed.

(** A call passes the guards, and goes on. *)
Lemma kids_takes s f n t : kids s -> ok (sy_shared s) = true -> cancelled (sy_shared s) = false ->
  (forall x, ok (f x) = ok x) -> (forall x, cancelled (f x) = cancelled x) -> address t = sy_addr s -> (forall sh b, t <> Started sh b) ->
  kids (with_tasks (on_shared s f) (<[n := t]> (sy_tasks s))).
Proof.
  intros Hk E1 E2 F1 F2 Ha Hn. destruct (kids_taken _ Hk E1 E2) as [H1 H2].
  apply (kids_shared _ f) in Hk; [|intros x; by rewrite F2|rewrite F1; auto].
  apply (kids_tasks _ (<[n := t]> (sy_tasks s)) Hk). intros x [?|[= <-]]%(goesOn_elem _ n (Some t)) _; [by left|right].
  split; [simpl; lia|]. intros _. split_and!; [done|done|]. destruct t; try done. by destruct (Hn sh base).
Qed.

Lemma kids_goes s n t t' : kids s -> sy_tasks s !! n = Some t -> underWay t = true -> address t' = address t -> (forall sh b, t' <> Started sh b) ->
  kids (with_tasks s (<[n := t']> (sy_tasks s))).
Proof.
  intros Hk Hn Hu Ha Hs. apply kids_tasks; [done|]. intros x [?|[= <-]]%(goesOn_elem _ n (Some t')) _; [by left|right].
  destruct (k_calls _ Hk t (list_elem_of_lookup_2 _ _ _ Hn) Hu) as [H1 H2]. unfold sound. rewrite Ha. split; [done|]. intros E.
  destruct (H2 E) as (H3 & H4 & _). split_and!; [done|done|]. destruct t'; try done. by destruct (Hs sh base).
Qed.

(** The tracks change in NULL, where no call has to do with them. *)
Lemma kids_rebuild plugins s : kids s -> sy_state s = GST_STATE_NULL -> kids (rebuild plugins s).
Proof. intros Hk En. apply (kids_keeps s); [done|]. unfold rebuild. keep. Qed.

(** The loop over the children, and what becomes of the call. *)
Lemma kids_starts a s n t t' : kids s -> sy_tasks s !! n = Some t -> underWay t = true -> address t' = address t ->
  ((exists sh b, t' = Started sh b) -> (startChildren a s).1 = true) ->
  kids (with_tasks (startChildren a s).2 (<[n := t']> (sy_tasks s))).
Proof.
  intros Hk Hn Hu Ha Hs. destruct (k_calls _ Hk t (list_elem_of_lookup_2 _ _ _ Hn) Hu) as [H1 H2].
  destruct (start_children a s) as (v & run & l & E & _ & Hc). rewrite E.
  apply (kids_did _ l), (kids_bin _ (fun b => set_locked b v)), (kids_child _ (sy_child s) run) in Hk; [|done].
  apply (kids_tasks _ (<[n := t']> (sy_tasks s)) Hk). intros x [?|[= <-]]%(goesOn_elem _ n (Some t')) _; [by left|right].
  unfold sound. rewrite Ha. split; [done|]. simpl. intros Ea. destruct (H2 Ea) as (H3 & (i & Ei & Hi) & _).
  assert (VSession i (av_video (sy_bin s), av_audio (sy_bin s)) ∈ sy_log s ++ l) as Hi' by (apply elem_of_app; by left).
  split_and!; [done|by exists i|]. destruct t'; try done. destruct (Hc (Hs ltac:(eauto)) i Ei) as [Hv Hau].
  exists i. split; [done|]. eexists. split_and!; [exact Hi'|..]; simpl; intros Ev; apply elem_of_app; right; auto.
Qed.

End Start.
