(* ===== verification/GstAvSink.v ===== *)
(** * framelinkavsink (gst/gstframelinkavsink.cpp)

    The producer's bin over GstAvBin.v.  A state change is one step, except the way
    to NULL, which waits for the worker and the drainer; the code of the worker, of
    [releaseMedia] and of the drainer is cut where it takes or leaves the mutex. *)
From stdpp Require Import strings.
From S2P Require Import Prelude Api Session GstVideo Element GstAudio GstAvBin.
#[local] Open Scope Z_scope.

(** ** Data *)

Record Shared := mkShared {
  sh_setupDone : bool; sh_setupOk : bool; sh_released : bool; sh_cancelled : bool; sh_playing : bool;
  sh_flushing : bool * bool;
  sh_epoch : Z;
  sh_channel : option Z;
}.
Definition newShared : Shared := mkShared false false false false false (false, false) (-1) None.

Definition set_setup (x : Shared) ok ch := mkShared true ok (sh_released x) (sh_cancelled x) (sh_playing x) (sh_flushing x) (sh_epoch x) ch.
Definition set_failed (x : Shared) := mkShared (sh_setupDone x) false (sh_released x) (sh_cancelled x) (sh_playing x) (sh_flushing x) (sh_epoch x) (sh_channel x).
Definition set_released (x : Shared) := mkShared (sh_setupDone x) (sh_setupOk x) true (sh_cancelled x) (sh_playing x) (sh_flushing x) (sh_epoch x) (sh_channel x).
Definition set_cancelled (x : Shared) := mkShared (sh_setupDone x) (sh_setupOk x) (sh_released x) true (sh_playing x) (sh_flushing x) (sh_epoch x) (sh_channel x).
Definition set_playing (x : Shared) v := mkShared (sh_setupDone x) (sh_setupOk x) (sh_released x) (sh_cancelled x) v (sh_flushing x) (sh_epoch x) (sh_channel x).
Definition set_flushing (x : Shared) v := mkShared (sh_setupDone x) (sh_setupOk x) (sh_released x) (sh_cancelled x) (sh_playing x) v (sh_epoch x) (sh_channel x).
Definition set_epoch (x : Shared) v := mkShared (sh_setupDone x) (sh_setupOk x) (sh_released x) (sh_cancelled x) (sh_playing x) (sh_flushing x) v (sh_channel x).
Definition take_channel (x : Shared) := mkShared (sh_setupDone x) (sh_setupOk x) (sh_released x) (sh_cancelled x) (sh_playing x) (sh_flushing x) (sh_epoch x) None.

(** The worker of [startWorker]. *)
Inductive Worker :=
| NoWorker
| Opening (caps : flSessionCapabilities)
| WOpened (ok : bool) (ch : option Z)        (* fl_gst_session_open_local_av_epoch came back *)
| Waited (ok : bool) (ch : option Z)         (* and fl_gst_session_local_ready_cancellable *)
| Published (ok : bool)
| WorkerDone.
Definition workerHolds (w : Worker) : list Z := match w with WOpened _ ch | Waited _ ch => held ch | _ => [] end.

(** The EOS messages of the children, and the thread that waits for the drain. *)
Inductive DrainThread := NoDrainer | Draining | DrainerDone.
Record Drainer := mkDrainer { dr_thread : DrainThread; dr_eosNeeded : nat; dr_heldEos : nat }.

Notation AvSink := (System Shared Worker Drainer).
Implicit Types (s : AvSink).

(** ** At the pads *)

Inductive Hold := HoldWait | HoldPass | HoldFail (error : bool) (flushing : bool).

(** [holdProbe]: what data does when it looks at [Shared], its deadline passed or
    not.  What fails posts an error or not; an event goes on all the same, a buffer
    takes the flow FLUSHING or ERROR. *)
Definition holdProbe (x : Shared) (track : nat) (deadline : bool) : Hold :=
  let flushing := match track with O => fst (sh_flushing x) | Datatypes.S _ => snd (sh_flushing x) end in
  let failed := sh_setupDone x && negb (sh_setupOk x) in
  return_if sh_released x with HoldPass ;;
  return_if negb (sh_cancelled x) && negb flushing && negb failed && (sh_setupDone x || negb deadline) with HoldWait ;;
  HoldFail (negb failed && negb (sh_cancelled x || flushing)) (sh_cancelled x || flushing).

(** FLUSH_START and FLUSH_STOP. *)
Definition holdFlush (track : nat) (start : bool) s : AvSink :=
  let s := on_shared s (fun x => set_flushing x
    match track with O => (start, snd (sh_flushing x)) | Datatypes.S _ => (fst (sh_flushing x), start) end) in
  if start then did s (ofSession s (fun i => VFlush i track)) else s.

(** A buffer or an [event] at a pad with a probe.  An event whose wait fails goes on
    to the child. *)
Definition padData (track : nat) (event deadline : bool) s : AvSink :=
  let pass := ofSession s (fun i => VPass i track event) in
  match holdProbe (sy_shared s) track deadline with
  | HoldWait => s
  | HoldPass => did s pass
  | HoldFail error _ => did s ((if error then VError :: ofSession s VFail else []) ++ if event then pass else [])
  end.

(** [chooseEpoch] *)
Definition chooseEpoch s : Z := sh_epoch (sy_shared s).

(** ** [releaseMedia] *)

(** [fail]: the error, the cancelled session, and under the lock the failed set-up. *)
Definition failMedia s : AvSink := on_shared (did s (VError :: ofSession s VCancel ++ ofSession s VFail)) set_failed.

(** One step of one call; [None] is the end of it. *)
Definition releaseMedia (t : Task) (a : Answers) s : option Task * AvSink :=
  let x := sy_shared s in
  match t with
  | Queued =>
    return_if sh_released x || sh_cancelled x || negb (sh_setupOk x) || negb (sh_playing x) with (None, s) ;;
    (Some (Took (sy_addr s) (sh_channel x)), on_shared s take_channel)
  | Took sh ch =>
    return_if negb (an_clock a) with (Some (Failing sh), did s (closes ch)) ;;
    (Some (Clocked sh ch), s)
  | Clocked sh ch =>
    return_if negb (sh =? sy_addr s)%nat with (Some (Clocked sh ch), with_life s Stale) ;;
    return_if negb (an_base a =? sh_epoch x) with (Some (Failing sh), did s (closes ch)) ;;
    (Some (Timed sh (an_base a) ch), s)
  | Timed sh base ch =>
    return_if negb (av_video (sy_bin s)) with (Some (Adopted sh base), s) ;;
    return_if negb (adopts s ch (an_query a)) with (Some (Failing sh), did s (closes ch)) ;;
    (Some (Adopted sh base), adopt s ch)
  | Adopted sh base =>
    let '(ok, s) := startChildren a s in
    (Some (if ok then Started sh base else Failing sh), s)
  | Started sh base =>
    return_if negb (sh =? sy_addr s)%nat with (Some (Started sh base), with_life s Stale) ;;
    (None, did (on_shared s set_released) (ofSession s (fun i => VStart i base)))
  | Failing sh =>
    return_if negb (sh =? sy_addr s)%nat with (Some (Failing sh), with_life s Stale) ;;
    (None, failMedia s)
  end.

(** ** State changes *)

Definition wantedTracks (b : AvBin) : nat := (if av_video b then 1 else 0) + (if av_audio b then 1 else 0).

Definition stopSession s : AvSink := did (on_shared s set_cancelled) (ofSession s VCancel).

(** [resetSession], when the threads have ended. *)
Definition resetSession s : AvSink :=
  let d := sy_drainer s in
  let s := with_drainer (with_worker s NoWorker) (mkDrainer NoDrainer (dr_eosNeeded d) 0) in
  let s := did s (closes (sh_channel (sy_shared s)) ++ [VReset (length (filter underWay (sy_tasks s)))]) in
  let s := renew s newShared in
  if av_local (sy_bin s) then on_bin (did s (ofSession s VDrop)) (fun b => set_session b None false false)
  else on_bin s (fun b => set_session b (av_session b) false false).

(** The end of [changeState] on the way to NULL, up to [joinThreads]. *)
Definition closing s : AvSink :=
  let s := stopChildren (stopSession s) in
  with_state (on_bin s (fun b => set_probes b false)) (sy_state s) true.

(** NULL to READY.  [pipeline]: the bin is inside one; [now]: the system clock;
    [parent]: the base class succeeds, [children]: the unlocked ones left NULL. *)
Definition parentReady (parent : bool) (children : bool * bool) s : AvSink :=
  let b := sy_bin s in
  let s := with_child s (sy_child s)
             (fst (sy_running s) || (av_video b && negb (fst (av_locked b)) && fst children),
              snd (sy_running s) || (av_audio b && negb (snd (av_locked b)) && snd children)) in
  return_if negb parent with (if av_local b then closing s else s) ;;
  with_state s GST_STATE_READY false.

Definition nullToReady (pipeline : bool) (now : Z) (parent : bool) (children : bool * bool) s : AvSink :=
  let b := sy_bin s in
  let p := av_props b in
  return_if negb (wantVideo p) && negb (wantAudio p) with did s [VError] ;;
  return_if (wantVideo p && negb (av_video b)) || (wantAudio p && negb (av_audio b)) with did s [VError] ;;
  return_if negb (nonempty (vp_path p)) with parentReady parent children s ;;
  return_if wantVideo p && (negb (validVideoFormat (vp_videoFormat p)) || negb (truthy (vp_fpsN p)) || negb (truthy (vp_fpsD p)))
    with did s [VError] ;;
  return_if wantAudio p && negb (validAudioFormat (vp_audioFormat p)) with did s [VError] ;;
  let s := new_session s in
  let s := with_drainer s (mkDrainer (dr_thread (sy_drainer s)) (wantedTracks b) (dr_heldEos (sy_drainer s))) in
  return_if negb pipeline with did s [VError] ;;
  let s := on_shared s (fun x => set_epoch x now) in
  let s := on_bin s (fun b => set_probes (set_locked b (true, true)) true) in
  parentReady parent children (with_worker s (Opening (offered p))).

Definition readyToPaused (parent : bool) s : AvSink :=
  return_if av_local (sy_bin s) && sh_cancelled (sy_shared s) with did s [VError] ;;
  if parent then with_state s GST_STATE_PAUSED false else s.

Definition pausedToPlaying (clock parent : bool) s : AvSink :=
  let up s := if (parent : bool) then with_state s GST_STATE_PLAYING false else s in
  return_if negb (av_local (sy_bin s)) with up s ;;
  return_if negb clock with stopSession (did s [VError]) ;;
  let x := sy_shared s in
  let s := on_shared s (fun x => set_playing x true) in
  up (if negb (sh_released x) && (sh_setupDone x && sh_setupOk x) then with_tasks s (sy_tasks s ++ [Queued]) else s).

Definition playingToPaused s : AvSink :=
  with_state (if av_local (sy_bin s) then on_shared s (fun x => set_playing x false) else s) GST_STATE_PAUSED false.

Definition pausedToReady s : AvSink := with_state (if av_local (sy_bin s) then stopSession s else s) GST_STATE_READY false.

(** READY to NULL; a session's threads are waited for. *)
Definition readyToNull s : AvSink :=
  if av_local (sy_bin s) then closing s else with_state (stopChildren s) GST_STATE_NULL false.

(** ** Messages *)

(** EOS of a child. *)
Definition handleMessage (track : nat) s : AvSink :=
  return_if negb (av_local (sy_bin s)) with s ;;
  let d := sy_drainer s in
  let n := (dr_heldEos d + 1)%nat in
  let s := did s (ofSession s (fun i => VChildEos i track)) in
  let drain := match dr_thread d with NoDrainer => (n =? dr_eosNeeded d)%nat | _ => false end in
  with_drainer s (mkDrainer (if drain then Draining else dr_thread d) (dr_eosNeeded d) n).

(** The drainer, when [fl_gst_session_finish_local_cancellable] is back. *)
Definition drainerEnds (ok : bool) s : AvSink :=
  let d := sy_drainer s in
  let s := did s (if ok then ofSession s VDrained else []) in
  return_if negb ok
    with with_drainer (if sh_cancelled (sy_shared s) then s else did s [VError]) (mkDrainer DrainerDone (dr_eosNeeded d) (dr_heldEos d)) ;;
  let s := did s (concat (replicate (dr_heldEos d) (ofSession s VEos))) in
  with_drainer s (mkDrainer DrainerDone (dr_eosNeeded d) 0).

(** ** The system *)

Inductive Action :=
| NullToReady (pipeline : bool) (now : Z) (parent : bool) (children : bool * bool)
| ReadyToPaused (parent : bool) | PausedToPlaying (clock parent : bool) | PlayingToPaused | PausedToReady
| ReadyToNull | ResetSession
| SetupOpens (ok : bool) (ch : option Z)     (* the worker *)
| SetupReady (ok : bool) | SetupPublish | SetupEnds
| Release (n : nat) (a : Answers)            (* a call of releaseMedia *)
| PadData (track : nat) (event deadline : bool) | PadFlush (track : nat) (start : bool)
| ChildEos (track : nat) | DrainerEnds (ok : bool)
| Adopt (ch : option Z) (query : bool) | Property (k : AvProperty) | Finalize.

(** The worker, from step to step. *)
Definition worker (k : Action) s : option AvSink :=
  match k, sy_worker s with
  | SetupOpens ok ch, Opening caps =>
    return_if is_some ch && negb (ok && truthy (cap_videoCount caps)) with None ;;    (* LocalSession.v *)
    let s := did s (opens ch ++ if ok then ofSession s (fun i => VEpoch i (chooseEpoch s)) else []) in
    Some (with_worker s (if ok then WOpened ok ch else Waited ok ch))
  | SetupReady ok, WOpened _ ch => Some (with_worker (did s (if ok then ofSession s VReady else [])) (Waited ok ch))
  | SetupPublish, Waited ok ch =>
    let post := negb ok && negb (sh_cancelled (sy_shared s)) in
    Some (with_worker (did (on_shared s (fun x => set_setup x ok ch)) ((if ok then [] else ofSession s VFail) ++ if post then [VError] else [])) (Published ok))
  | SetupEnds, Published ok => Some (with_worker (if ok then with_tasks s (sy_tasks s ++ [Queued]) else s) WorkerDone)
  | _, _ => None
  end.

(** [dispose], the children's end and [finalize]. *)
Definition finalize s : AvSink :=
  let s := stopSession s in
  let s := did s (closes (sy_child s) ++ closes (sh_channel (sy_shared s)) ++ ofSession s VDrop) in
  with_life (with_child (on_shared s take_channel) None (false, false)) Gone.

(** Whether the threads of [joinThreads] have ended. *)
Definition joined s : bool :=
  match sy_worker s with NoWorker | WorkerDone => true | _ => false end
  && match dr_thread (sy_drainer s) with Draining => false | _ => true end.

(** [None]: there is no such step now.  The base class drives the state one
    transition at a time; an element is finalized in NULL, with no call under way. *)
Definition act (k : Action) s : option AvSink :=
  let changes state s' := return_if negb (sy_state s =? state) || sy_stopping s with None ;; Some (s' : AvSink) in
  match k with
  | NullToReady pipeline now parent children => changes GST_STATE_NULL (nullToReady pipeline now parent children s)
  | ReadyToPaused parent => changes GST_STATE_READY (readyToPaused parent s)
  | PausedToPlaying clock parent => changes GST_STATE_PAUSED (pausedToPlaying clock parent s)
  | PlayingToPaused => changes GST_STATE_PLAYING (playingToPaused s)
  | PausedToReady => changes GST_STATE_PAUSED (pausedToReady s)
  | ReadyToNull => changes GST_STATE_READY (readyToNull s)
  | ResetSession =>
    return_if negb (sy_stopping s && joined s) with None ;; Some (with_state (resetSession s) GST_STATE_NULL false)
  | Release n a =>
    match sy_tasks s !! n with
    | None => None
    | Some t => let '(t', s') := releaseMedia t a s in
      Some (with_tasks s' (goesOn (sy_tasks s') n t'))
    end
  | PadData track event deadline => return_if negb (av_probes (sy_bin s)) with None ;; Some (padData track event deadline s)
  | PadFlush track start => return_if negb (av_probes (sy_bin s)) with None ;; Some (holdFlush track start s)
  | ChildEos track =>
    return_if negb ((sy_state s =? GST_STATE_PAUSED) || (sy_state s =? GST_STATE_PLAYING)) with None ;; Some (handleMessage track s)
  | DrainerEnds ok => match dr_thread (sy_drainer s) with Draining => Some (drainerEnds ok s) | _ => None end
  | Adopt ch query => Some (snd (adoptChannel ch query s))
  | Property p => Some (setProperty p s)
  | Finalize => return_if negb (sy_state s =? GST_STATE_NULL) || sy_stopping s || negb (match sy_tasks s with [] => true | _ => false end)
                with None ;; Some (finalize s)
  | _ => worker k s
  end.

Definition avSinkProps : AvProps :=
  mkAvProps None (Some "av"%string) (Some "BGRA"%string) (Some "S16LE"%string) 1280 720 30 1 48000 2 15000 15000 80 2 0.

(** [gst_framelink_av_sink_init] *)
Definition av_sink_init (plugins : bool * bool) : AvSink :=
  mkSystem (mkAvBin avSinkProps (fst plugins) (snd plugins) None false false false (false, false)) 0 newShared
    GST_STATE_NULL false NoWorker (mkDrainer NoDrainer 0 0) [] None (false, false) 0 Alive [].

(** A run: steps of any threads in any order, while nothing was touched after it was
    deleted. *)
Inductive reachable (plugins : bool * bool) : AvSink -> Prop :=
| reachable_init : reachable plugins (av_sink_init plugins)
| reachable_step s k s' : reachable plugins s -> sy_life s = Alive -> act k s = Some s' -> reachable plugins s'.

Fixpoint acts (l : list Action) s : option AvSink :=
  match l with
  | [] => Some s
  | k :: l => if decide (sy_life s = Alive) then s' ← act k s; acts l s' else None
  end.
