(* ===== verification/GstAvSinkSafe.v ===== *)
(** * The channels of framelinkavsink

    Over every interleaving of the steps of GstAvSink.v each video channel has one
    owner until it is closed, once - as long as no call of [releaseMedia] outlives
    its session; GstAvSinkGate.v shows what happens then. *)
From stdpp Require Import strings.
From S2P Require Import Prelude Api Session GstVideo Element GstAudio GstAvBin GstAvSink.
#[local] Open Scope Z_scope.
Implicit Types (s : System Shared Worker Drainer).

(** ** Ownership *)

(** Who has a channel now. *)
Definition holders s : list Z :=
  workerHolds (sy_worker s) ++ held (sh_channel (sy_shared s)) ++ tasksHold (sy_tasks s) ++ held (sy_child s).

Definition unpublished (w : Worker) : bool := match w with Opening _ | WOpened _ _ | Waited _ _ => true | _ => false end.

(** The session will have video, and so a channel. *)
Definition offersVideo (w : Worker) : bool := match w with Opening caps => truthy (cap_videoCount caps) | _ => false end.

Record owned s : Prop := {
  o_alive : sy_life s <> Stale;
  o_count : forall c, count (opened (sy_log s)) c = (count (closed (sy_log s)) c + (count (workerHolds (sy_worker s)) c +
    (count (held (sh_channel (sy_shared s))) c + (count (tasksHold (sy_tasks s)) c + count (held (sy_child s)) c))))%nat;
  o_calls : forall t, t ∈ sy_tasks s -> underWay t = true -> address t = sy_addr s;
  o_setup : sh_setupDone (sy_shared s) = false -> sh_channel (sy_shared s) = None /\ sh_setupOk (sy_shared s) = false;
  o_worker : unpublished (sy_worker s) = true -> sh_setupDone (sy_shared s) = false;
  o_idle : sy_state s = GST_STATE_NULL -> sy_stopping s = false ->
    sy_worker s = NoWorker /\ sh_setupDone (sy_shared s) = false;
  o_null : sy_state s = GST_STATE_NULL ->
    Forall (fun t => underWay t = false) (sy_tasks s) /\ (sh_cancelled (sy_shared s) = true \/ sh_setupOk (sy_shared s) = false /\ sy_worker s = NoWorker);
  o_video : sy_state s <> GST_STATE_NULL -> av_video (sy_bin s) = false ->
    offersVideo (sy_worker s) = false /\ workerHolds (sy_worker s) = [] /\ sh_channel (sy_shared s) = None /\ tasksHold (sy_tasks s) = [];
  o_thin : av_local (sy_bin s) = false ->
    sy_worker s = NoWorker /\ sh_setupDone (sy_shared s) = false /\ Forall (fun t => underWay t = false) (sy_tasks s);
}.

(** The log only grows. *)
Ltac grows := rewrite <- ?app_assoc; first [done | by apply prefix_app_r].

Lemma release_log t a s : sy_log s `prefix_of` sy_log (releaseMedia t a s).2.
Proof.
  destruct t; simpl; unfold startChildren, startVideo, startAudio; repeat case_match; simplify_eq; simpl; grows.
Qed.

Lemma act_log k s s' : act k s = Some s' -> sy_log s `prefix_of` sy_log s'.
Proof.
  destruct k; simpl; unfold worker, nullToReady, parentReady, readyToPaused, pausedToPlaying, playingToPaused, pausedToReady,
    readyToNull, closing, resetSession, holdFlush, padData, handleMessage, drainerEnds, adoptChannel, setProperty, finalize, stopChildren, stopSession;
    intros H.
  all: repeat case_match; simplify_eq; simpl; try grows.
  all: pose proof (release_log t a s) as E; match goal with H : releaseMedia _ _ _ = _ |- _ => by rewrite H in E end.
Qed.

(** Count what a step opens and closes. *)
Ltac counts_app :=
  rewrite ?opened_app, ?closed_app, ?opened_opens, ?closed_opens, ?opened_closes, ?closed_closes;
  rewrite ?opened_ofSession, ?closed_ofSession by done;
  rewrite ?count_occ_app.
Ltac counts :=
  let c := fresh "c" in intros c;
  match goal with H : forall c, count (opened _) c = _ |- _ =>
    specialize (H c); counts_app; simpl in *; try (clear - H; lia)
  end.

Ltac owns Ho := destruct Ho as [Halive Hcount Hcalls Hsetup Hworker Hidle Hnull Hvideo Hthin]; constructor; simpl in *.

Lemma owned_stopSession s : owned s -> owned (stopSession s).
Proof.
  intros Ho. owns Ho; try done.
  - counts.
  - intros E. destruct (Hnull E). auto.
Qed.

Lemma owned_stopChildren s : owned s -> owned (stopChildren s).
Proof. intros Ho. unfold stopChildren. destruct (fst (sy_running s)); owns Ho; try done; counts. Qed.

(** A step that only says something, at the pads or in a message. *)
Lemma owned_did s l : Forall silent l -> owned s -> owned (did s l).
Proof. intros Hl Ho. owns Ho; try done. counts. rewrite (opened_silent l), (closed_silent l) by done. simpl. lia. Qed.

(** [gst_element_call_async] *)
Lemma owned_enqueue s : owned s -> owned (with_tasks s (sy_tasks s ++ [Queued])).
Proof.
  intros Ho. owns Ho; rewrite ?tasksHold_queued; try done.
  - intros t [|[= ->]%list_elem_of_singleton]%elem_of_app; [auto|done].
  - intros E. destruct (Hnull E) as [H ?]. split; [|done]. apply Forall_app. auto.
  - intros E. destruct (Hthin E) as (? & ? & ?). split_and!; try done. apply Forall_app. auto.
Qed.

(** What holds while the worker has not published. *)
Lemma owned_setup s w l : owned s -> unpublished (sy_worker s) = true -> unpublished w = true -> offersVideo w = false ->
  (forall c, (count (opened l) c + count (workerHolds (sy_worker s)) c = count (closed l) c + count (workerHolds w) c)%nat) ->
  (sy_state s <> GST_STATE_NULL -> av_video (sy_bin s) = false -> workerHolds w = []) ->
  owned (with_worker (did s l) w).
Proof.
  intros Ho Hs Hw Hop Hc Hv. owns Ho; try done.
  - counts. specialize (Hc c). lia.
  - auto.
  - intros E1 E2. destruct (Hidle E1 E2) as [E _]. by rewrite E in Hs.
  - intros E. destruct (Hnull E) as [? [?|[_ E2]]]; [auto|]. by rewrite E2 in Hs.
  - intros E1 E2. destruct (Hvideo E1 E2) as (_ & _ & ? & ?). auto.
  - intros E. destruct (Hthin E) as [E2 _]. by rewrite E2 in Hs.
Qed.

Lemma owned_error s : owned s -> owned (did s [VError]).
Proof. apply owned_did. by repeat constructor. Qed.

Lemma owned_worker k s s' : owned s -> worker k s = Some s' -> owned s'.
Proof.
  intros Ho H. unfold worker in H. destruct k; try discriminate; destruct (sy_worker s) eqn:Ew; try discriminate.
  - destruct (is_some ch && _) eqn:Eg; [done|]. injection H as <-. apply owned_setup; rewrite ?Ew; try by destruct ok.
    + intros c. rewrite opened_app, closed_app, opened_opens, closed_opens.
      destruct ok; rewrite ?opened_ofSession, ?closed_ofSession by done; simpl; rewrite ?app_nil_r; lia.
    + intros E1 E2. destruct (o_video _ Ho E1 E2) as [E3 _]. destruct ch as [c|]; [|by destruct ok].
      rewrite Ew in E3. simpl in E3. rewrite E3, andb_false_r in Eg. done.
  - injection H as <-. apply owned_setup; rewrite ?Ew; try done.
    + intros c. destruct ok; rewrite ?opened_ofSession, ?closed_ofSession by done; simpl; lia.
    + intros E1 E2. destruct (o_video _ Ho E1 E2) as (_ & E & _). by rewrite Ew in E.
  - injection H as <-. owns Ho; rewrite Ew in *; simpl in *; try done.
    + destruct (Hsetup (Hworker eq_refl)) as [E _]. rewrite E in Hcount. destruct ok; [counts|]. destruct (_ && _); counts.
    + intros E1 E2. by destruct (Hidle E1 E2).
    + intros E. destruct (Hnull E) as [? [?|[_ ?]]]; [auto|done].
    + intros E1 E2. destruct (Hvideo E1 E2) as (_ & E & _ & ?). by destruct ch.
    + intros E. by destruct (Hthin E).
  - injection H as <-. assert (owned (with_worker s WorkerDone)) as H.
    { owns Ho; rewrite Ew in *; try done.
      - intros E1 E2. by destruct (Hidle E1 E2).
      - intros E. destruct (Hnull E) as [? [?|[_ ?]]]; [auto|done].
      - intros E. by destruct (Hthin E). }
    destruct ok; [by apply owned_enqueue in H|done].
Qed.

(** *** [releaseMedia] *)

(** A call goes on, or ends, with nothing but its own part of the channels changed. *)
Lemma owned_call s n t t' l child run : sy_tasks s !! n = Some t -> underWay t = true -> owned s ->
  (forall x, t' = Some x -> underWay x = true /\ address x = address t) -> opened l = [] ->
  (forall c, (count (taskHolds t) c + count (held (sy_child s)) c
    = count (closed l) c + (count (default [] (taskHolds <$> t')) c + count (held child) c))%nat) ->
  (taskHolds t = [] -> default [] (taskHolds <$> t') = []) ->
  owned (with_tasks (with_child (did s l) child run) (goesOn (sy_tasks s) n t')).
Proof.
  intros Hn Hu Ho Ht Hop Hl Hnil. pose proof (fun c => count_goesOn _ _ _ t' c Hn) as Hc. owns Ho; try done.
  - counts. rewrite Hop. specialize (Hl c). specialize (Hc c). simpl. lia.
  - intros x [Hx| ->]%goesOn_elem; [auto|]. intros _. destruct (Ht x eq_refl) as [_ ->].
    apply Hcalls; [by eapply list_elem_of_lookup_2|done].
  - intros E. destruct (Hnull E) as [H _]. rewrite Forall_lookup in H. by rewrite (H _ _ Hn) in Hu.
  - intros E1 E2. destruct (Hvideo E1 E2) as (H1 & H2 & H3 & H4). split_and!; try done. apply holds_nothing. intros c.
    specialize (Hc c). rewrite H4 in Hc. simpl in Hc. destruct (taskHolds t) as [|x k] eqn:Ek.
    + rewrite Hnil in Hc by done. simpl in Hc. lia.
    + pose proof (count_tasks_delete _ _ _ x Hn) as Hx. rewrite H4, Ek in Hx. simpl in Hx. destruct (Z.eq_dec x x); [lia|done].
  - intros E. destruct (Hthin E) as (_ & _ & H). rewrite Forall_lookup in H. by rewrite (H _ _ Hn) in Hu.
Qed.

Lemma owned_call_quiet s n t t' child run : sy_tasks s !! n = Some t -> underWay t = true -> owned s ->
  (forall x, t' = Some x -> underWay x = true /\ address x = address t) ->
  (forall c, (count (taskHolds t) c + count (held (sy_child s)) c
    = count (default [] (taskHolds <$> t')) c + count (held child) c)%nat) ->
  (taskHolds t = [] -> default [] (taskHolds <$> t') = []) ->
  owned (with_tasks (with_child s child run) (goesOn (sy_tasks s) n t')).
Proof.
  intros Hn Hu Ho Ht Hl Hnil. pose proof (owned_call s n t t' [] child run Hn Hu Ho Ht eq_refl Hl Hnil) as H.
  unfold with_child, with_tasks, did in *. simpl in H. by rewrite app_nil_r in H.
Qed.

(** The end of a call that holds nothing, with what it writes under the lock. *)
Lemma owned_shared s f : owned s -> (forall x, sh_channel (f x) = sh_channel x) -> (forall x, sh_setupDone (f x) = sh_setupDone x) ->
  (forall x, sh_setupOk x = false -> sh_setupOk (f x) = false) -> (forall x, sh_cancelled x = true -> sh_cancelled (f x) = true) ->
  owned (on_shared s f).
Proof.
  intros Ho F1 F2 F3 F4. owns Ho; rewrite ?F1, ?F2; try done.
  - intros E. destruct (Hsetup E). auto.
  - intros E. destruct (Hnull E) as [? [?|[? ?]]]; auto.
Qed.

Lemma owned_bin s f : owned s -> (forall b, av_video (f b) = av_video b /\ av_local (f b) = av_local b) -> owned (on_bin s f).
Proof. intros Ho F. destruct (F (sy_bin s)) as [E1 E2]. owns Ho; rewrite ?E1, ?E2; done. Qed.

Lemma owned_queued s n : sy_tasks s !! n = Some Queued -> owned s -> owned (with_tasks s (delete n (sy_tasks s))).
Proof.
  intros Hn Ho. pose proof (fun c => count_tasks_delete _ _ _ c Hn) as Hc. simpl in Hc. owns Ho; try done.
  - counts. rewrite Hc in Hcount. lia.
  - intros t [Ht|?]%(goesOn_elem _ n None); [auto|done].
  - intros E. destruct (Hnull E) as [H ?]. split; [|done]. apply Forall_forall. intros t [Ht|?]%(goesOn_elem _ n None); [|done].
    by eapply Forall_forall in H.
  - intros E1 E2. destruct (Hvideo E1 E2) as (? & ? & ? & H). split_and!; try done. apply holds_nothing. intros c. specialize (Hc c).
    rewrite H in Hc. simpl in Hc. lia.
  - intros E. destruct (Hthin E) as (? & ? & H). split_and!; try done. apply Forall_forall. intros t [Ht|?]%(goesOn_elem _ n None); [|done].
    by eapply Forall_forall in H.
Qed.

Lemma owned_take s n : sy_tasks s !! n = Some Queued -> owned s -> sh_cancelled (sy_shared s) = false -> sh_setupOk (sy_shared s) = true ->
  owned (with_tasks (on_shared s take_channel) (<[n := Took (sy_addr s) (sh_channel (sy_shared s))]> (sy_tasks s))).
Proof.
  intros Hn Ho Hca Hok. pose proof (fun c => count_goesOn _ _ _ (Some (Took (sy_addr s) (sh_channel (sy_shared s)))) c Hn) as Hc. simpl in Hc.
  owns Ho; try done.
  - counts. specialize (Hc c). lia.
  - intros t [Ht|[= <-]]%(goesOn_elem _ n (Some _)); auto.
  - intros E. destruct (Hsetup E). auto.
  - intros E. destruct (Hnull E) as [? [?|[? ?]]]; congruence.
  - intros E1 E2. destruct (Hvideo E1 E2) as (? & ? & H1 & H2). rewrite H1, H2 in *. split_and!; try done. apply holds_nothing.
    intros c. specialize (Hc c). simpl in Hc. lia.
  - intros E. destruct (Hthin E) as (_ & E1 & _). destruct (Hsetup E1). congruence.
Qed.

(** A call that gives up closes its channel; one that goes on keeps it. *)
Lemma owned_fails s n t sh ch : sy_tasks s !! n = Some t -> underWay t = true -> address t = sh -> taskHolds t = held ch -> owned s ->
  owned (with_tasks (did s (closes ch)) (<[n := Failing sh]> (sy_tasks s))).
Proof.
  intros Hn Hu Ha Hh Ho. apply (owned_call s n t (Some (Failing sh)) (closes ch) (sy_child s) (sy_running s)); try done.
  - by intros x [= <-].
  - apply opened_closes.
  - intros c. rewrite closed_closes, Hh. simpl. lia.
Qed.

Lemma owned_goes s n t t' : sy_tasks s !! n = Some t -> underWay t = true -> underWay t' = true -> address t' = address t ->
  taskHolds t' = taskHolds t -> owned s -> owned (with_tasks s (<[n := t']> (sy_tasks s))).
Proof.
  intros Hn Hu Hu' Ha Hh Ho. apply (owned_call_quiet s n t (Some t') (sy_child s) (sy_running s)); simpl; rewrite ?Hh; try done.
  by intros x [= <-].
Qed.

(** One that ends has nothing. *)
Lemma owned_ends s n t : sy_tasks s !! n = Some t -> underWay t = true -> taskHolds t = [] -> owned s ->
  owned (with_tasks s (delete n (sy_tasks s))).
Proof. intros Hn Hu Hh Ho. apply (owned_call_quiet s n t None (sy_child s) (sy_running s)); rewrite ?Hh; done. Qed.

Lemma no_video_no_channel s n t : owned s -> sy_tasks s !! n = Some t -> underWay t = true -> av_video (sy_bin s) = false -> taskHolds t = [].
Proof.
  intros Ho Hn Hu Hv. destruct (decide (sy_state s = GST_STATE_NULL)) as [E|E].
  - destruct (o_null _ Ho E) as [H _]. rewrite Forall_lookup in H. by rewrite (H _ _ Hn) in Hu.
  - destruct (o_video _ Ho E Hv) as (_ & _ & _ & H). apply holds_nothing. intros c.
    pose proof (count_tasks_delete _ _ _ c Hn) as Hc. rewrite H in Hc. simpl in Hc. lia.
Qed.

(** A call under way makes a step. *)
Lemma owned_release s n t a : sy_tasks s !! n = Some t -> owned s ->
  owned (with_tasks (releaseMedia t a s).2 (goesOn (sy_tasks (releaseMedia t a s).2) n (releaseMedia t a s).1)).
Proof.
  intros Hn Ho. pose proof (o_calls _ Ho t (list_elem_of_lookup_2 _ _ _ Hn)) as Ha.
  destruct t as [|sh ch|sh ch|sh base ch|sh base|sh base|sh]; simpl in Ha |- *; rewrite <- ?Ha, ?Nat.eqb_refl by done; simpl.
  - destruct (_ || negb (sh_playing _)) eqn:E; simpl; [by apply owned_queued|].
    rewrite !orb_false_iff, negb_false_iff in E. destruct E as [[[_ E1] E2] _]. by apply owned_take.
  - destruct (negb (an_clock a)); simpl; [by eapply owned_fails|by eapply owned_goes].
  - destruct (negb (_ =? _)); simpl; [by eapply owned_fails|by eapply owned_goes].
  - destruct (negb (av_video _)) eqn:E; simpl.
    + eapply owned_goes; try done. simpl. symmetry. apply (no_video_no_channel s n _ Ho Hn eq_refl). by apply negb_true_iff.
    + destruct (negb (adopts _ _ _)) eqn:E1; simpl; [by eapply owned_fails|].
      unfold adopts in E1. destruct (fst (sy_running s)), (sy_child s) eqn:Ec, ch as [ch|]; try done.
      apply (owned_call_quiet s n (Timed sh base (Some ch)) (Some (Adopted sh base)) (Some ch) (sy_running s)); try done.
      * by intros x [= <-].
      * intros c. rewrite Ec. simpl. lia.
  - destruct (start_children a s) as (v & run & l & E & Hl & _). destruct (startChildren a s) as [ok s']. simpl in E. subst s'. simpl.
    assert (owned (with_tasks (with_child s (sy_child s) run)
      (goesOn (sy_tasks s) n (Some (if ok then Started sh base else Failing sh))))) as H.
    { eapply owned_call_quiet; try done; destruct ok; try done; by intros x [= <-]. }
    apply (owned_did _ l) in H; [exact (owned_bin _ (fun b => set_locked b v) H (fun _ => conj eq_refl eq_refl))|].
    eapply Forall_impl; [exact Hl|]. by intros [].
  - pose proof (owned_ends s n _ Hn eq_refl eq_refl Ho) as H. apply (owned_shared _ set_released) in H; try done.
    refine (owned_did _ (ofSession s _) _ H). by apply silent_ofSession.
  - pose proof (owned_ends s n _ Hn eq_refl eq_refl Ho) as H. apply (owned_shared _ set_failed) in H; try done.
    refine (owned_did _ (VError :: ofSession s _ ++ ofSession s _) _ H). constructor; [done|]. apply Forall_app. split; by apply silent_ofSession.
Qed.

(** *** State changes, messages, properties *)

(** What the bin is when it leaves NULL: the worker offers video to a video child. *)
Definition ready_to (w : Worker) s : Prop :=
  w = NoWorker \/ exists caps, w = Opening caps /\ (offersVideo w = true -> av_video (sy_bin s) = true) /\ av_local (sy_bin s) = true.

Lemma owned_closing s : owned (with_state (stopSession s) (sy_state s) true) -> owned (closing s).
Proof.
  intros H. apply owned_stopChildren, (owned_bin _ (fun b => set_probes b false)) in H; [|done].
  unfold closing, stopChildren in *. simpl in *. destruct (fst (sy_running s)); exact H.
Qed.

Lemma owned_parentReady parent children w s : owned s -> sy_state s = GST_STATE_NULL -> sy_stopping s = false -> ready_to w s ->
  owned (parentReady parent children (with_worker s w)).
Proof.
  intros Ho En Es Hw. unfold parentReady. set (run := (_, _)).
  destruct (o_idle _ Ho En Es) as [Ew Ed]. destruct (o_setup _ Ho Ed) as [Ech Eok]. destruct (o_null _ Ho En) as [Hq _].
  assert (tasksHold (sy_tasks s) = []) as Hno by by apply idle_holds_nothing.
  assert (workerHolds w = []) as Hwh by (destruct Hw as [->|(v & -> & _)]; done).
  assert (av_local (sy_bin s) = false -> w = NoWorker) as Hlocal by (destruct Hw as [->|(v & _ & _ & ?)]; [done|congruence]).
  assert (offersVideo w = true -> av_video (sy_bin s) = true) as Hv by (by destruct Hw as [->|(v & _ & H & _)]).
  destruct parent; simpl; [|destruct (av_local (sy_bin s)) eqn:El].
  - owns Ho; try done; [counts; rewrite Hwh, Ew in *; simpl in *; lia| |auto].
    intros _ Ev. split_and!; try done. rewrite Ev in Hv. destruct (offersVideo w); [by specialize (Hv eq_refl)|done].
  - apply owned_closing. owns Ho; try done; [counts; rewrite Hwh, Ew in *; simpl in *; lia|intros _; destruct (Hnull En); auto|congruence].
  - rewrite Hlocal by done. owns Ho; try done; [counts; rewrite Ew in *; simpl in *; lia|auto..].
Qed.

Lemma owned_nullToReady pipeline now parent children s : owned s -> sy_state s = GST_STATE_NULL -> sy_stopping s = false ->
  owned (nullToReady pipeline now parent children s).
Proof.
  intros Ho En Es. pose proof owned_error as He.
  destruct (o_idle _ Ho En Es) as [Ew _].
  unfold nullToReady. destruct (_ && negb (wantAudio _)); [auto|]. destruct (_ || _ && negb (av_audio _)) eqn:Ev; [auto|].
  destruct (negb (nonempty _)).
  { assert (with_worker s NoWorker = s) as E by (destruct s; unfold with_worker; simpl in *; by rewrite Ew). rewrite <- E. apply owned_parentReady; try done. by left. }
  destruct (wantVideo _ && (_ || _)); [auto|]. destruct (wantAudio _ && negb (validAudioFormat _)); [auto|].
  set (x := with_drainer (new_session s) _).
  assert (owned x) as Hx by (owns Ho; try done; counts).
  destruct pipeline; simpl; [|auto].
  apply (owned_shared _ (fun y => set_epoch y now)) in Hx; try done. apply (owned_bin _ (fun b => set_probes (set_locked b (true, true)) true)) in Hx; [|done].
  apply owned_parentReady; try done. right. eexists. split_and!; [done| |done]. simpl. intros E. destruct (wantVideo _); [|done].
  by destruct (av_video (sy_bin s)).
Qed.

Lemma owned_state s state : owned s -> sy_state s <> GST_STATE_NULL -> state <> GST_STATE_NULL -> owned (with_state s state false).
Proof. intros Ho E E'. owns Ho; solve [done|congruence|auto]. Qed.

Lemma owned_closes s : owned s -> sy_state s <> GST_STATE_NULL -> owned (closing s).
Proof. intros Ho E. apply owned_closing. apply owned_stopSession in Ho. owns Ho; solve [done|congruence|auto]. Qed.

Lemma owned_changes k s s' : owned s -> match k with ReadyToPaused _ | PausedToPlaying _ _ | PlayingToPaused | PausedToReady | ReadyToNull => True | _ => False end ->
  act k s = Some s' -> owned s'.
Proof.
  intros Ho Hk H. destruct k; try done; simpl in H; destruct (_ || sy_stopping s) eqn:Es; try done;
    rewrite orb_false_iff, negb_false_iff, Z.eqb_eq in Es; destruct Es as [Es _]; injection H as <-;
    assert (sy_state s <> GST_STATE_NULL) as En by (rewrite Es; done).
  - unfold readyToPaused. destruct (_ && _); [by apply owned_error|]. destruct parent; [by apply owned_state|done].
  - unfold pausedToPlaying. destruct (negb (av_local _)); [destruct parent; [by apply owned_state|done]|].
    destruct (negb clock); [by apply owned_stopSession, owned_error|].
    apply (owned_shared _ (fun x => set_playing x true)) in Ho; try done.
    destruct (_ && (_ && _)), parent; try apply owned_state; try apply (owned_enqueue _ Ho); done.
  - unfold playingToPaused. destruct (av_local _); apply owned_state; try done. by apply owned_shared.
  - unfold pausedToReady. destruct (av_local _); apply owned_state; try done. by apply owned_stopSession.
  - unfold readyToNull. destruct (av_local _) eqn:El; [by apply owned_closes|].
    destruct (o_thin _ Ho El) as (E1 & E2 & E3). destruct (o_setup _ Ho E2) as [_ E4].
    assert (owned (with_state s GST_STATE_NULL false)) as H by (owns Ho; solve [done|auto]).
    apply owned_stopChildren in H. unfold stopChildren in *. simpl in *. by destruct (fst (sy_running s)).
Qed.

Lemma owned_reset s : owned s -> joined s = true -> clean (sy_log (resetSession s)) ->
  owned (with_state (resetSession s) GST_STATE_NULL false).
Proof.
  intros Ho Hj Hc. assert (workerHolds (sy_worker s) = []) as Hw.
  { unfold joined in Hj. by destruct (sy_worker s). }
  assert (Forall (fun t => underWay t = false) (sy_tasks s)) as Hq.
  { assert (length (filter (fun t => Is_true (underWay t)) (sy_tasks s)) = 0%nat) as Hf.
    { apply Hc. unfold resetSession. destruct (av_local _); simpl; set_solver. }
    apply Forall_forall. intros t Ht. destruct (underWay t) eqn:Eu; [|done].
    assert (t ∈ filter (fun t => Is_true (underWay t)) (sy_tasks s)) as H by (apply list_elem_of_filter; rewrite Eu; done).
    destruct (filter _ _); [by apply not_elem_of_nil in H|done]. }
  assert (tasksHold (sy_tasks s) = []) as Hno by by apply idle_holds_nothing.
  unfold resetSession. destruct (av_local _) eqn:El; owns Ho.
  all: rewrite ?Hno; try done; try (intros _; by split; [|right]).
  all: first [counts; rewrite ?Hw, ?Hno in Hcount; simpl in Hcount; lia|rewrite Forall_forall in Hq; intros t Ht Eu; by rewrite Hq in Eu].
Qed.

Lemma owned_property p s : owned s -> owned (setProperty p s).
Proof.
  intros Ho. unfold setProperty. destruct (sy_state s =? GST_STATE_NULL) eqn:En; [|done]. simpl.
  assert (owned (on_bin s (fun b => set_props b (assign p (av_props b))))) as H by by apply owned_bin.
  destruct p; try done. destruct (_ || _ || _); [|done]. apply Z.eqb_eq in En. unfold rebuild.
  owns H; try done; counts.
Qed.

Lemma owned_adopt ch query s : owned s -> owned (snd (adoptChannel ch query s)).
Proof.
  intros Ho. unfold adoptChannel. destruct (_ || _ || _); [done|]. destruct (negb (adopts _ _ _)) eqn:E; [done|]. simpl.
  unfold adopts in E. destruct (fst (sy_running s)), (sy_child s) eqn:Ec, ch as [ch|]; try done.
  owns Ho; try done. counts. rewrite Ec in *. simpl in *. lia.
Qed.

Lemma owned_drainer s d : owned s -> owned (with_drainer s d).
Proof. intros Ho. owns Ho; done. Qed.

Lemma owned_finalize s : owned s -> owned (finalize s).
Proof.
  intros Ho. unfold finalize. apply owned_stopSession in Ho. owns Ho; try done.
  - counts. revert Hcount. counts_app. simpl. lia.
  - intros E. by destruct (Hsetup E).
  - intros E1 E2. destruct (Hvideo E1 E2) as (? & ? & _ & ?). done.
Qed.

Lemma owned_padData track event deadline s : owned s -> owned (padData track event deadline s).
Proof.
  intros Ho. unfold padData. destruct (holdProbe _ _ _) as [| |error ?]; [done|..]; (apply owned_did; [|done]).
  - by apply silent_ofSession.
  - apply Forall_app. split; [destruct error; [constructor; [done|]|]|destruct event]; try done; by apply silent_ofSession.
Qed.

Lemma owned_holdFlush track start s : owned s -> owned (holdFlush track start s).
Proof.
  intros Ho. unfold holdFlush. set (x := on_shared s _). assert (owned x) by by apply owned_shared.
  destruct start; [|done]. apply owned_did; [by apply silent_ofSession|done].
Qed.

Lemma owned_handleMessage track s : owned s -> owned (handleMessage track s).
Proof.
  intros Ho. unfold handleMessage. destruct (negb _); [done|]. apply owned_drainer, owned_did; [by apply silent_ofSession|done].
Qed.

Lemma owned_drainerEnds ok s : owned s -> owned (drainerEnds ok s).
Proof.
  intros Ho. unfold drainerEnds. destruct ok; rewrite ?did_nil, ?did_did; simpl; apply owned_drainer.
  - apply owned_did; [|done]. apply Forall_app. split; [by apply silent_ofSession|]. induction (dr_heldEos (sy_drainer s)); simpl; [done|].
    apply Forall_app. split; [by apply silent_ofSession|done].
  - destruct (sh_cancelled _); [done|by apply owned_error].
Qed.

Lemma owned_act k s s' : owned s -> act k s = Some s' -> clean (sy_log s') -> owned s'.
Proof.
  intros Ho H Hc. destruct k; try (refine (owned_changes _ s s' Ho _ H); exact I). all: try exact (owned_worker _ _ _ Ho H). all: simpl in H.
  - destruct (_ || sy_stopping s) eqn:E; [done|]. injection H as <-. rewrite orb_false_iff, negb_false_iff, Z.eqb_eq in E.
    destruct E. by apply owned_nullToReady.
  - destruct (negb (_ && _)) eqn:E; [done|]. injection H as <-. rewrite negb_false_iff, andb_true_iff in E. destruct E.
    by apply owned_reset.
  - destruct (sy_tasks s !! n) as [t|] eqn:En; [|done]. pose proof (owned_release s n t a En Ho) as Hr.
    destruct (releaseMedia t a s) as [t' x]. by injection H as <-.
  - destruct (negb _); [done|]. injection H as <-. by apply owned_padData.
  - destruct (negb _); [done|]. injection H as <-. by apply owned_holdFlush.
  - destruct (negb _); [done|]. injection H as <-. by apply owned_handleMessage.
  - destruct (dr_thread _); try done. injection H as <-. by apply owned_drainerEnds.
  - injection H as <-. by apply owned_adopt.
  - injection H as <-. by apply owned_property.
  - destruct (_ || _ || _); [done|]. injection H as <-. by apply owned_finalize.
Qed.

Lemma reachable_owned plugins s : reachable plugins s -> clean (sy_log s) -> owned s.
Proof.
  induction 1 as [|s k s' _ IH Hl H]; intros Hc.
  - constructor; simpl; try done; intros; split_and?; auto; by apply not_elem_of_nil in H.
  - destruct (act_log _ _ _ H) as [l El]. eapply owned_act; [|done|done]. apply IH. rewrite El in Hc. by eapply clean_before.
Qed.

(** A life with video: the session is set up, its media starts, ends, and the bin
    goes. *)
Definition goodAnswers : Answers := mkAnswers true 500 true (true, true) (true, true).
Definition setup : list Action :=
  [Property (PropSession (Some "p"%string)); NullToReady true 500 true (false, false); ReadyToPaused true;
   SetupOpens true (Some 7); SetupReady true; SetupPublish].
Definition released : list Action :=
  setup ++ [PausedToPlaying true true] ++ replicate 6 (Release 0 goodAnswers) ++ [SetupEnds; Release 0 goodAnswers].
Definition aLife : list Action :=
  released ++ [PadData 0 true false; PadData 0 false false; PadData 1 false false; ChildEos 0; ChildEos 1; DrainerEnds true;
    PlayingToPaused; PausedToReady; ReadyToNull; ResetSession].

Lemma acts_reachable plugins l s s' : reachable plugins s -> acts l s = Some s' -> reachable plugins s'.
Proof.
  revert s. induction l as [|k l IH]; intros s Hr; simpl; [by intros [= <-]|].
  destruct (decide (sy_life s = Alive)); [|done]. destruct (act k s) as [x|] eqn:E; [|done]. simpl.
  apply IH. by eapply reachable_step.
Qed.

Lemma release_life t a s : sy_life (releaseMedia t a s).2 = Gone -> sy_life s = Gone.
Proof.
  destruct t; simpl; unfold startChildren, startVideo, startAudio; repeat case_match; simplify_eq; simpl; done.
Qed.

(** A bin is gone after [finalize] only. *)
Lemma act_gone k s s' : act k s = Some s' -> sy_life s = Alive -> sy_life s' = Gone ->
  sy_child s' = None /\ sy_state s' = GST_STATE_NULL /\ sy_stopping s' = false.
Proof.
  destruct k; simpl; unfold worker, nullToReady, parentReady, readyToPaused, pausedToPlaying, playingToPaused, pausedToReady,
    readyToNull, closing, resetSession, holdFlush, padData, handleMessage, drainerEnds, adoptChannel, setProperty, stopChildren, stopSession;
    intros H Hl Hg.
  all: try (exfalso; repeat case_match; simplify_eq; simpl in *; congruence).
  - exfalso. destruct (sy_tasks s !! n) as [t|]; [|done]. pose proof (release_life t a s) as Hr.
    destruct (releaseMedia t a s) as [t' x]. injection H as <-. simpl in *. rewrite Hr in Hl; done.
  - destruct (_ || _ || _) eqn:E; [done|]. injection H as <-. simpl. rewrite !orb_false_iff, negb_false_iff, Z.eqb_eq in E.
    by destruct E as [[? ?] _].
Qed.

(** C31: Over any interleaving of the threads of framelinkavsink in which no call
    of [releaseMedia] is under way when [resetSession] runs, nothing deleted is
    touched, and every video channel that came has one owner - the worker, [Shared],
    one call, or the video sink - until it is closed, once.  At rest in NULL only
    the video sink can have one; a finalized bin has closed them all. *)
Theorem avsink_channel_owned plugins s : reachable plugins s -> clean (sy_log s) ->
  sy_life s <> Stale /\ opened (sy_log s) ≡ₚ closed (sy_log s) ++ holders s /\
  (sy_state s = GST_STATE_NULL -> sy_stopping s = false -> holders s = held (sy_child s)) /\
  (sy_life s = Gone -> opened (sy_log s) ≡ₚ closed (sy_log s)).
Proof.
  intros Hr Hc. pose proof (reachable_owned _ _ Hr Hc) as Ho.
  assert (opened (sy_log s) ≡ₚ closed (sy_log s) ++ holders s) as Hp.
  { apply (Permutation_count_occ Z.eq_dec). intros c. unfold holders. rewrite !count_occ_app. apply (o_count _ Ho). }
  assert (sy_state s = GST_STATE_NULL -> sy_stopping s = false -> holders s = held (sy_child s)) as Hi.
  { intros E1 E2. destruct (o_idle _ Ho E1 E2) as [Ew Ed], (o_null _ Ho E1) as [Hq _]. unfold holders.
    by rewrite Ew, (proj1 (o_setup _ Ho Ed)), idle_holds_nothing. }
  split_and!; [apply (o_alive _ Ho)|done|done|]. intros Hg.
  assert (holders s = []) as E; [|by rewrite E, app_nil_r in Hp].
  destruct Hr as [|x k s' Hr Hl H]; [done|]. destruct (act_gone _ _ _ H Hl Hg) as (E1 & E2 & E3). by rewrite Hi, E1.
Qed.

Lemma avsink_channel_owned_witness :
  exists s, acts (aLife ++ [Finalize]) (av_sink_init (true, true)) = Some s /\ opened (sy_log s) = [7] /\ clean (sy_log s) /\
    sy_life s <> Stale /\ opened (sy_log s) ≡ₚ closed (sy_log s) ++ holders s /\
    (sy_state s = GST_STATE_NULL -> sy_stopping s = false -> holders s = held (sy_child s)) /\
    (sy_life s = Gone -> opened (sy_log s) ≡ₚ closed (sy_log s)).
Proof.
  eexists. split; [vm_compute; reflexivity|]. split; [reflexivity|].
  match goal with |- clean ?l /\ _ => assert (clean l) as Hc by by apply clean_holds end.
  split; [done|]. eapply (avsink_channel_owned (true, true)); [|done].
  eapply (acts_reachable _ (aLife ++ [Finalize])); [apply reachable_init|vm_compute; reflexivity].
Defined.
