(* ===== verification/GstAvSinkStart.v ===== *)
(** * What framelinkavsink starts, and why it lets an event go

    Two invariants of the system of GstAvSink.v that its gate needs: a call of
    [releaseMedia] ends well only when it started the children of the session
    (GstAvStart.v); and the flags for which the wait at a pad fails are those of a
    set-up that failed, a session that was cancelled, or a pad that is flushing. *)
From stdpp Require Import strings.
From S2P Require Import Prelude Api Session GstVideo Element GstAudio GstAvBin GstAvStart GstAvSink GstAvSinkSafe.
#[local] Open Scope Z_scope.
Implicit Types (s : System Shared Worker Drainer).

Definition idle (w : Worker) : bool := match w with NoWorker => true | _ => false end.
Notation kids := (kids (SH := Shared) (W := Worker) (D := Drainer) idle sh_setupOk sh_cancelled).
Notation made := (made (SH := Shared) (W := Worker) (D := Drainer)).

(** ** The children *)

Lemma kids_closes s w : kids s -> idle w = idle (sy_worker s) \/ idle w = false /\ made s -> kids (closing (with_worker s w)).
Proof.
  intros Hk Hw. apply (kids_closing _ _ _ s set_cancelled (fun b => set_probes (set_locked b (false, false)) false) w) in Hk; try done.
  apply (kids_did _ _ _ _ (ofSession s VCancel ++ if fst (sy_running s) then closes (sy_child s) else [])) in Hk.
  apply (kids_child _ _ _ _ (if fst (sy_running s) then None else sy_child s) (false, false)) in Hk.
  unfold closing, stopChildren, stopSession. simpl. destruct (fst (sy_running s)); [|rewrite app_nil_r in Hk; exact Hk].
  unfold did in *. simpl in *. rewrite app_assoc in Hk. exact Hk.
Qed.

Lemma kids_parentReady parent children s w : kids s -> sy_state s = GST_STATE_NULL -> sy_stopping s = false ->
  idle w = true \/ idle w = false /\ made s -> kids (parentReady parent children (with_worker s w)).
Proof.
  intros Hk En Es Hw. unfold parentReady. simpl. set (run := (_, _)).
  pose proof (k_rest _ _ _ _ Hk En Es) as Hi. pose proof (kids_child _ _ _ _ (sy_child s) run Hk) as Hx.
  destruct parent; simpl; [apply (kids_ready _ _ _ _ w) in Hx; [exact Hx|destruct Hw; auto]|].
  destruct (av_local (sy_bin s)) eqn:El.
  - apply (kids_closes _ w) in Hx; [exact Hx|]. destruct Hw as [E|]; [left; simpl; congruence|by right].
  - assert (idle w = true) as E.
    { destruct Hw as [|[_ (i & Ei & _)]]; [done|]. pose proof (k_local _ _ _ _ Hk) as H. rewrite El, Ei in H. done. }
    assert (w = sy_worker s) as -> by (by destruct w, (sy_worker s)). exact Hx.
Qed.

Lemma kids_error s : kids s -> kids (did s [VError]).
Proof. apply kids_did. Qed.

Lemma kids_nullToReady pipeline now parent children s : kids s -> sy_state s = GST_STATE_NULL -> sy_stopping s = false ->
  kids (nullToReady pipeline now parent children s).
Proof.
  intros Hk En Es. pose proof kids_error as He. unfold nullToReady.
  destruct (_ && negb (wantAudio _)); [auto|]. destruct (_ || _ && negb (av_audio _)); [auto|].
  destruct (negb (nonempty _)).
  { pose proof (kids_parentReady parent children s NoWorker Hk En Es (or_introl eq_refl)) as H. pose proof (k_rest _ _ _ _ Hk En Es) as Ew.
    destruct s as [b ad x st sp w d l ch run n li lg]. simpl in *. by destruct w. }
  destruct (wantVideo _ && (_ || _)); [auto|]. destruct (wantAudio _ && negb (validAudioFormat _)); [auto|].
  pose proof (kids_new _ _ _ _ Hk En) as Hn. set (d := mkDrainer _ _ _). apply (kids_drainer _ _ _ _ d) in Hn.
  destruct pipeline; simpl; [|auto].
  apply (kids_shared _ _ _ _ (fun x => set_epoch x now)) in Hn; [|done|by left].
  apply (kids_bin _ _ _ _ (fun b => set_probes (set_locked b (true, true)) true)) in Hn; [|done].
  apply kids_parentReady; try done. right. split; [done|]. exists (sy_sessions s). split; [done|]. simpl. set_solver.
Qed.

Lemma kids_worker_acts k s s' : kids s -> worker k s = Some s' -> kids s'.
Proof.
  intros Hk H. unfold worker in H. destruct k; try discriminate; destruct (sy_worker s) eqn:Ew; try discriminate.
  all: assert (forall w, idle w = false -> kids (with_worker s w)) as Hw by (intros w Ei; apply kids_worker; [done|by rewrite Ew|done]).
  - destruct (_ && negb _); [done|]. injection H as <-. set (l := opens ch ++ _).
    exact (kids_did _ _ _ _ l (Hw (if ok then WOpened ok ch else Waited ok ch) ltac:(by destruct ok))).
  - injection H as <-. exact (kids_did _ _ _ _ _ (Hw (Waited ok ch) eq_refl)).
  - injection H as <-. pose proof (Hw (Published ok) eq_refl) as Hx. apply (kids_did _ _ _ _ ((if ok then [] else ofSession s VFail) ++ if negb ok && negb (sh_cancelled (sy_shared s)) then [VError] else [])) in Hx.
    apply (kids_shared _ _ _ _ (fun x => set_setup x ok ch)) in Hx; [exact Hx|done|by right].
  - injection H as <-. destruct ok; [|by apply Hw]. exact (kids_enqueue _ _ _ _ (Hw WorkerDone eq_refl)).
Qed.

(** A call under way makes a step. *)
Lemma kids_release s n t a : sy_tasks s !! n = Some t -> kids s ->
  kids (with_tasks (releaseMedia t a s).2 (goesOn (sy_tasks (releaseMedia t a s).2) n (releaseMedia t a s).1)).
Proof.
  intros Hn Hk. pose proof (fun l => kids_did _ _ _ _ l Hk) as Hl. pose proof (kids_life _ _ _ _ Stale Hk) as Hst.
  assert (forall x t', kids x -> sy_tasks x !! n = Some t -> underWay t = true -> address t' = address t -> (forall sh b, t' <> Started sh b) ->
    kids (with_tasks x (<[n := t']> (sy_tasks x)))) as Hgo by (intros; by eapply kids_goes).
  destruct t as [|sh ch|sh ch|sh base ch|sh base|sh base|sh]; simpl.
  - destruct (_ || negb (sh_playing _)) eqn:E; simpl; [by apply kids_ends|].
    rewrite !orb_false_iff, negb_false_iff in E. destruct E as [[[_ E1] E2] _]. by apply kids_takes.
  - destruct (negb (an_clock a)); simpl; [by apply (Hgo (did s (closes ch)))|by apply Hgo].
  - destruct (negb (sh =? sy_addr s)%nat); simpl.
    + destruct (k_calls _ _ _ _ Hk _ (list_elem_of_lookup_2 _ _ _ Hn) eq_refl). by apply (Hgo (with_life s Stale)).
    + destruct (negb (_ =? _)); simpl; [by apply (Hgo (did s (closes ch)))|by apply Hgo].
  - destruct (negb (av_video _)); simpl; [by apply Hgo|]. destruct (negb (adopts _ _ _)); simpl; [by apply (Hgo (did s (closes ch)))|].
    apply (Hgo (adopt s ch)); try done. by apply kids_child.
  - destruct (start_children a s) as (v & run & l & E & _).
    pose proof (kids_starts _ _ _ a s n _ (if (startChildren a s).1 then Started sh base else Failing sh) Hk Hn eq_refl) as Hx.
    destruct (startChildren a s) as [ok s']. simpl in *. subst s'. destruct ok; apply Hx; try done. by intros (? & ? & ?).
  - destruct (negb (sh =? sy_addr s)%nat); simpl; [|].
    + apply kids_tasks; [done|]. intros x [?|[= <-]]%(goesOn_elem _ n (Some (Started sh base))) _; [by left|left].
      by eapply list_elem_of_lookup_2.
    + pose proof (kids_ends _ _ _ _ n Hk) as Hx. apply (kids_shared _ _ _ _ set_released) in Hx; [|done|by left].
      exact (kids_did _ _ _ _ _ Hx).
  - destruct (negb (sh =? sy_addr s)%nat); simpl; [by apply (Hgo (with_life s Stale))|].
    pose proof (kids_ends _ _ _ _ n Hk) as Hx. apply (kids_shared _ _ _ _ set_failed) in Hx; [|done|done]. exact (kids_did _ _ _ _ _ Hx).
Qed.

Lemma kids_stopSession s : kids s -> kids (stopSession s).
Proof. intros Hk. apply kids_did, kids_shared; [done|done|by left]. Qed.

Lemma kids_property p s : kids s -> kids (setProperty p s).
Proof.
  intros Hk. unfold setProperty. destruct (negb _) eqn:E; [done|]. apply negb_false_iff, Z.eqb_eq in E.
  apply (kids_bin _ _ _ _ (fun b => set_props b (assign p (av_props b)))) in Hk; [|done].
  destruct p; try done. destruct (_ || _ || _); [|done]. by apply kids_rebuild.
Qed.

Lemma kids_reset s : kids s -> kids (with_state (resetSession s) GST_STATE_NULL false).
Proof.
  intros Hk. pose proof (k_local _ _ _ _ Hk) as El. unfold resetSession. simpl.
  assert (forall t, t ∈ sy_tasks s -> underWay t = true -> (address t < sy_addr s + 1)%nat) as Hb.
  { intros t H1 H2. destruct (k_calls _ _ _ _ Hk t H1 H2). lia. }
  destruct (av_local (sy_bin s)); apply kids_fresh; simpl; try done.
Qed.

Lemma kids_act k s s' : kids s -> act k s = Some s' -> kids s'.
Proof.
  intros Hk H. destruct k; try exact (kids_worker_acts _ _ _ Hk H). all: simpl in H.
  1-6: destruct (_ || sy_stopping s) eqn:E; [done|]; injection H as <-; rewrite orb_false_iff, negb_false_iff, Z.eqb_eq in E; destruct E as [E1 E2].
  2-6: assert (sy_state s <> GST_STATE_NULL) as Hn by (by rewrite E1).
  - by apply kids_nullToReady.
  - unfold readyToPaused. destruct (_ && _); [by apply kids_error|]. destruct parent; [by apply kids_state|done].
  - unfold pausedToPlaying. destruct (negb (av_local _)); [destruct parent; [by apply kids_state|done]|].
    destruct (negb clock); [by apply kids_stopSession, kids_error|].
    apply (kids_shared _ _ _ _ (fun x => set_playing x true)) in Hk; [|done|by left]. apply kids_enqueue in Hk as Hq.
    destruct (_ && (_ && _)), parent; try apply kids_state; done.
  - unfold playingToPaused. apply kids_state; [|by destruct (av_local _)|done]. destruct (av_local _); [|done]. apply kids_shared; [done|done|by left].
  - unfold pausedToReady. apply kids_state; [|by destruct (av_local _)|done]. destruct (av_local _); [by apply kids_stopSession|done].
  - unfold readyToNull. destruct (av_local _) eqn:El.
    + apply (kids_closes _ (sy_worker s)) in Hk; [|by left]. by destruct s.
    + apply (kids_child _ _ _ _ (if fst (sy_running s) then None else sy_child s) (false, false)),
        (kids_did _ _ _ _ (if fst (sy_running s) then closes (sy_child s) else [])),
        (kids_bin _ _ _ _ (fun b => set_locked b (false, false))), kids_thin in Hk; try done.
      unfold stopChildren. destruct (fst (sy_running s)); [exact Hk|]. unfold did in Hk. simpl in Hk. rewrite app_nil_r in Hk. exact Hk.
  - destruct (negb (_ && _)); [done|]. injection H as <-. by apply kids_reset.
  - destruct (sy_tasks s !! n) as [t|] eqn:En; [|done]. pose proof (kids_release s n t a En Hk) as Hr.
    destruct (releaseMedia t a s) as [t' x]. by injection H as <-.
  - destruct (negb _); [done|]. injection H as <-. unfold padData. destruct (holdProbe _ _ _); [done|by apply kids_did..].
  - destruct (negb _); [done|]. injection H as <-. unfold holdFlush.
    assert (kids (on_shared s (fun x => set_flushing x match track with O => (start, snd (sh_flushing x)) | Datatypes.S _ => (fst (sh_flushing x), start) end))) as Hx
      by (apply kids_shared; [done|done|by left]).
    destruct start; [by apply kids_did|done].
  - destruct (negb _); [done|]. injection H as <-. unfold handleMessage. destruct (negb _); [done|]. by apply kids_drainer, kids_did.
  - destruct (dr_thread _); try done. injection H as <-. unfold drainerEnds. set (x := did s _). assert (kids x) by by apply kids_did.
    destruct (negb ok); apply kids_drainer; [destruct (sh_cancelled _)|]; by try apply kids_did.
  - injection H as <-. unfold adoptChannel. destruct (_ || _ || _); [done|]. destruct (negb (adopts _ _ _)); [done|]. by apply kids_child, kids_did.
  - injection H as <-. by apply kids_property.
  - destruct (_ || _ || _); [done|]. injection H as <-. unfold finalize.
    apply kids_life, kids_child, kids_shared; [|done|by left]. by apply kids_did, kids_stopSession.
Qed.

Lemma kids_init plugins : kids (av_sink_init plugins).
Proof. apply kids_fresh; try done. intros t Ht. by apply not_elem_of_nil in Ht. Qed.

(** ** Why a wait fails *)

Record why s : Prop := {
  y_failed : sh_setupDone (sy_shared s) = true -> sh_setupOk (sy_shared s) = false -> ofNow s (fun i => VFail i ∈ sy_log s);
  y_cancelled : sh_cancelled (sy_shared s) = true -> ofNow s (fun i => VCancel i ∈ sy_log s);
  y_flushing0 : fst (sh_flushing (sy_shared s)) = true -> ofNow s (fun i => VFlush i 0 ∈ sy_log s);
  y_flushing1 : snd (sh_flushing (sy_shared s)) = true -> ofNow s (fun i => exists t, VFlush i (Datatypes.S t) ∈ sy_log s);
  y_clear : sy_state s = GST_STATE_NULL -> sy_stopping s = false -> sh_setupDone (sy_shared s) = false /\
    sh_cancelled (sy_shared s) = false /\ sh_flushing (sy_shared s) = (false, false);
  y_probes : av_probes (sy_bin s) = true -> sy_state s <> GST_STATE_NULL /\ sy_stopping s = false /\ is_some (av_session (sy_bin s)) = true;
  y_worker : sy_worker s <> NoWorker -> is_some (av_session (sy_bin s)) = true;
}.

(** A step of the session: what it raises a flag for is in the log. *)
Record follows s s' : Prop := {
  f_log : sy_log s `prefix_of` sy_log s';
  f_session : av_session (sy_bin s') = av_session (sy_bin s);
  f_failed : sh_setupDone (sy_shared s') = true -> sh_setupOk (sy_shared s') = false ->
    (sh_setupDone (sy_shared s) = true /\ sh_setupOk (sy_shared s) = false) \/ ofNow s' (fun i => VFail i ∈ sy_log s');
  f_cancelled : sh_cancelled (sy_shared s') = true -> sh_cancelled (sy_shared s) = true \/ ofNow s' (fun i => VCancel i ∈ sy_log s');
  f_flushing0 : fst (sh_flushing (sy_shared s')) = true -> fst (sh_flushing (sy_shared s)) = true \/ ofNow s' (fun i => VFlush i 0 ∈ sy_log s');
  f_flushing1 : snd (sh_flushing (sy_shared s')) = true ->
    snd (sh_flushing (sy_shared s)) = true \/ ofNow s' (fun i => exists t, VFlush i (Datatypes.S t) ∈ sy_log s');
  f_clear : sy_state s' = GST_STATE_NULL -> sy_stopping s' = false -> (sy_state s = GST_STATE_NULL /\ sy_stopping s = false) /\
    (sh_setupDone (sy_shared s) = false -> sh_setupDone (sy_shared s') = false) /\
    (sh_cancelled (sy_shared s) = false -> sh_cancelled (sy_shared s') = false) /\ sh_flushing (sy_shared s') = sh_flushing (sy_shared s);
  f_probes : av_probes (sy_bin s') = true -> (av_probes (sy_bin s) = true \/ is_some (av_session (sy_bin s)) = true) /\
    (sy_state s' = sy_state s /\ sy_stopping s' = sy_stopping s /\ av_probes (sy_bin s) = true \/ sy_state s' <> GST_STATE_NULL /\ sy_stopping s' = false);
  f_worker : sy_worker s' <> NoWorker -> sy_worker s <> NoWorker \/ is_some (av_session (sy_bin s)) = true;
}.

Lemma ofNow_follows s s' P Q : av_session (sy_bin s') = av_session (sy_bin s) -> (forall i, P i -> Q i) -> ofNow s P -> ofNow s' Q.
Proof. intros E H (i & H1 & H2). exists i. rewrite E. auto. Qed.

Lemma why_follows s s' : why s -> follows s s' -> why s'.
Proof.
  intros [Y1 Y2 Y3 Y4 Y5 Y6 Y7] [Hl Hs F1 F2 F3 F4 F5 F6 F7]. pose proof (fun d => prefix_in _ _ d Hl) as Hin.
  constructor.
  - intros E1 E2. destruct (F1 E1 E2) as [[E3 E4]|]; [|done]. eapply ofNow_follows; [done| |by apply Y1]. auto.
  - intros E. destruct (F2 E) as [E1|]; [|done]. eapply ofNow_follows; [done| |by apply Y2]. auto.
  - intros E. destruct (F3 E) as [E1|]; [|done]. eapply ofNow_follows; [done| |by apply Y3]. auto.
  - intros E. destruct (F4 E) as [E1|]; [|done]. eapply ofNow_follows; [done| |by apply Y4]. intros i [t Ht]. exists t. auto.
  - intros E1 E2. destruct (F5 E1 E2) as ([E3 E4] & E5 & E6 & E7). destruct (Y5 E3 E4) as (E8 & E9 & E10). rewrite E7. auto.
  - intros E. rewrite Hs. destruct (F6 E) as [Hse Hst]. assert (is_some (av_session (sy_bin s)) = true) as H1.
    { destruct Hse as [Hp|]; [|done]. by destruct (Y6 Hp) as (_ & _ & ?). }
    destruct Hst as [(E1 & E2 & Hp)|[E1 E2]]; [|by split_and!]. destruct (Y6 Hp) as (H2 & H3 & _). rewrite E1, E2. by split_and!.
  - intros E. rewrite Hs. destruct (F7 E); auto.
Qed.

Ltac follow :=
  constructor; simpl; rewrite <- ?app_assoc;
  try solve [done | by apply prefix_app_r | auto | intros; left; auto | intros E; split_and!; auto; left; auto | done].

Lemma why_did s l : why s -> why (did s l).
Proof. intros Hy. apply (why_follows s); [done|]. follow. Qed.
Lemma why_child s ch run : why s -> why (with_child s ch run).
Proof. intros Hy. apply (why_follows s); [done|]. follow. Qed.
Lemma why_life s v : why s -> why (with_life s v).
Proof. intros Hy. apply (why_follows s); [done|]. follow. Qed.
Lemma why_drainer s v : why s -> why (with_drainer s v).
Proof. intros Hy. apply (why_follows s); [done|]. follow. Qed.
Lemma why_tasks s v : why s -> why (with_tasks s v).
Proof. intros Hy. apply (why_follows s); [done|]. follow. Qed.
Lemma why_bin s f : why s -> (forall b, av_session (f b) = av_session b /\ (av_probes (f b) = true -> av_probes b = true)) -> why (on_bin s f).
Proof. intros Hy F. destruct (F (sy_bin s)). apply (why_follows s); [done|]. follow. Qed.
Lemma why_state s state : why s -> state <> GST_STATE_NULL -> why (with_state s state false).
Proof. intros Hy H. apply (why_follows s); [done|]. follow. Qed.

Lemma why_worker s w : why s -> is_some (av_session (sy_bin s)) = true -> why (with_worker s w).
Proof. intros Hy H. apply (why_follows s); [done|]. follow. Qed.

(** What raises no flag. *)
Lemma why_shared s f : why s -> (forall x, sh_setupDone (f x) = sh_setupDone x) -> (forall x, sh_setupOk (f x) = sh_setupOk x) ->
  (forall x, sh_cancelled (f x) = sh_cancelled x) -> (forall x, sh_flushing (f x) = sh_flushing x) -> why (on_shared s f).
Proof. intros Hy F1 F2 F3 F4. apply (why_follows s); [done|]. follow; simpl; rewrite ?F1, ?F2, ?F3, ?F4; auto. Qed.

(** The set-up came to its end, or failed after it. *)
Lemma why_outcome s f l : why s -> (sh_setupOk (f (sy_shared s)) = false -> ofNow s (fun i => VFail i ∈ l)) ->
  (forall x, sh_cancelled (f x) = sh_cancelled x) -> (forall x, sh_flushing (f x) = sh_flushing x) ->
  (sy_state s = GST_STATE_NULL -> sy_stopping s = true) -> why (on_shared (did s l) f).
Proof.
  intros Hy F1 F2 F3 Hn. apply (why_follows s); [done|]. follow; simpl; rewrite ?F2, ?F3; auto.
  - intros _ E. right. destruct (F1 E) as (i & H1 & H2). exists i. split; [done|]. simpl. apply elem_of_app. by right.
  - intros E1 E2. by rewrite Hn in E2.
Qed.

Lemma why_flush s track start : why s -> av_probes (sy_bin s) = true -> why (holdFlush track start s).
Proof.
  intros Hy Hp. destruct (y_probes _ Hy Hp) as (Hn & _ & Hs). destruct (av_session (sy_bin s)) as [i|] eqn:Es; [|done].
  unfold holdFlush, ofSession. simpl. rewrite Es. apply (why_follows s); [done|]. destruct start; follow.
  all: simpl; destruct track as [|t]; simpl; auto; intros ?; try done; right; exists i; (split; [done|]); simpl; first [exists t; set_solver|set_solver].
Qed.

(** A cancelled session. *)
Lemma why_stopSession s : why s -> is_some (av_session (sy_bin s)) = true -> sy_state s <> GST_STATE_NULL -> why (stopSession s).
Proof.
  intros Hy Hs Hn. destruct (av_session (sy_bin s)) as [i|] eqn:Es; [|done]. unfold stopSession, ofSession. simpl. rewrite Es.
  apply (why_follows s); [done|]. follow. simpl. intros _. right. exists i. split; [done|]. simpl. set_solver.
Qed.

Lemma why_closing s w f ch run : why s -> is_some (av_session (sy_bin s)) = true ->
  (forall b, av_session (f b) = av_session b /\ av_local (f b) = av_local b) -> why (closing (with_child (with_worker (on_bin s f) w) ch run)).
Proof.
  intros Hy Hs F. destruct (F (sy_bin s)) as [F1 F2]. destruct (av_session (sy_bin s)) as [i|] eqn:Es; [|done].
  apply (why_follows s); [done|]. unfold closing, stopChildren, stopSession, ofSession. simpl. rewrite F1. destruct (fst run); follow.
  all: simpl; rewrite ?Es; auto; intros _; right; exists i; (split; [done|]); simpl; set_solver.
Qed.

Lemma why_new s : why s -> sy_state s = GST_STATE_NULL -> sy_stopping s = false -> why (new_session s).
Proof.
  intros [Y1 Y2 Y3 Y4 Y5 Y6 Y7] En Es. destruct (Y5 En Es) as (E1 & E2 & E3).
  constructor; simpl; rewrite ?E1, ?E2, ?E3; try done. intros E. by destruct (Y6 E).
Qed.

(** To READY, with the probes of a session or without. *)
Lemma why_parentReady parent children s w f : why s -> sy_state s = GST_STATE_NULL -> sy_stopping s = false ->
  (forall b, av_session (f b) = av_session b /\ av_local (f b) = av_local b) ->
  av_local (sy_bin s) = is_some (av_session (sy_bin s)) ->
  (w = sy_worker s /\ av_probes (f (sy_bin s)) = false \/ is_some (av_session (sy_bin s)) = true) ->
  why (parentReady parent children (with_worker (on_bin s f) w)).
Proof.
  intros Hy En Es F El Hw. destruct (F (sy_bin s)) as [F1 F2]. unfold parentReady. simpl. rewrite F2. set (run := (_, _)).
  destruct parent; simpl; [|destruct (av_local (sy_bin s)) eqn:E].
  - apply (why_follows s); [done|]. follow; simpl; auto.
    + intros E. destruct Hw as [[_ E1]|E1]; [congruence|]. auto.
    + intros E. destruct Hw as [[-> _]|E1]; auto.
  - apply why_closing; [done|congruence|done].
  - destruct Hw as [[-> Hp]|Hw]; [|by rewrite Hw in El]. apply (why_follows s); [done|]. follow. simpl. rewrite Hp. done.
Qed.

Lemma why_error s : why s -> why (did s [VError]).
Proof. apply why_did. Qed.

Lemma why_nullToReady pipeline now parent children s : why s -> kids s -> sy_state s = GST_STATE_NULL -> sy_stopping s = false ->
  why (nullToReady pipeline now parent children s).
Proof.
  intros Hy Hk En Es. pose proof why_error as He. unfold nullToReady.
  destruct (_ && negb (wantAudio _)); [auto|]. destruct (_ || _ && negb (av_audio _)); [auto|].
  destruct (negb (nonempty _)).
  { assert (av_probes (sy_bin s) = false) as Hp by (destruct (av_probes _) eqn:E; [by destruct (y_probes _ Hy E)|done]).
    pose proof (why_parentReady parent children s (sy_worker s) (fun b => b) Hy En Es ltac:(done) (k_local _ _ _ _ Hk)) as H.
    destruct s. apply H. by left. }
  destruct (wantVideo _ && (_ || _)); [auto|]. destruct (wantAudio _ && negb (validAudioFormat _)); [auto|].
  set (d := mkDrainer _ _ _). pose proof (why_drainer _ d (why_new _ Hy En Es)) as Hn. destruct pipeline; simpl; [|auto].
  apply (why_shared _ (fun x => set_epoch x now)) in Hn; try done.
  apply (why_parentReady parent children _ (Opening (offered (av_props (sy_bin s)))) (fun b => set_probes (set_locked b (true, true)) true)) in Hn; try done.
  by right.
Qed.

Lemma why_worker_acts k s s' : why s -> kids s -> worker k s = Some s' -> why s'.
Proof.
  intros Hy Hk H. unfold worker in H. destruct k; try discriminate; destruct (sy_worker s) eqn:Ew; try discriminate.
  all: assert (sy_worker s <> NoWorker) as Hn by (by rewrite Ew); pose proof (y_worker _ Hy Hn) as Hs.
  - destruct (_ && negb _); [done|]. injection H as <-. set (l := opens ch ++ _). exact (why_worker _ _ (why_did _ l Hy) Hs).
  - injection H as <-. exact (why_worker _ _ (why_did _ _ Hy) Hs).
  - injection H as <-. set (l := (if ok then [] else ofSession s VFail) ++ _).
    apply (why_outcome s (fun x => set_setup x ok ch) l) in Hy; try done; [exact (why_worker _ (Published ok) Hy Hs)|..].
    + unfold l, ofSession. destruct (av_session (sy_bin s)) as [i|] eqn:Es; [|done]. simpl. intros ->. exists i. split; [done|]. set_solver.
    + intros En. destruct (sy_stopping s) eqn:Est; [done|]. pose proof (k_rest _ _ _ _ Hk En Est) as Hi. by rewrite Ew in Hi.
  - injection H as <-. apply (why_worker _ WorkerDone) in Hy; [|done]. destruct ok; [by apply (why_tasks _ (sy_tasks s ++ [Queued])) in Hy|done].
Qed.

Lemma why_release s t a l : t ∈ sy_tasks s -> why s -> kids s -> why (with_tasks (releaseMedia t a s).2 l).
Proof.
  intros Ht Hy Hk. apply why_tasks. pose proof (fun k => why_did _ k Hy) as Hl.
  destruct t as [|sh ch|sh ch|sh base ch|sh base|sh base|sh]; simpl.
  - destruct (_ || negb (sh_playing _)); simpl; [done|by apply why_shared].
  - by destruct (negb (an_clock a)); simpl.
  - destruct (negb (sh =? sy_addr s)%nat); simpl; [by apply why_life|]. destruct (negb (an_base a =? _)); simpl; auto.
  - destruct (negb (av_video _)); simpl; [done|]. destruct (negb (adopts _ _ _)); simpl; [done|by apply why_child].
  - destruct (start_children a s) as (v & run & k & E & _). destruct (startChildren a s) as [ok s']. simpl in *. subst s'.
    apply why_child, why_bin; [done|by intros b].
  - destruct (negb (sh =? sy_addr s)%nat); simpl; [by apply why_life|]. by apply why_did, why_shared.
  - destruct (sh =? sy_addr s)%nat eqn:Ea; simpl; [|by apply why_life]. apply Nat.eqb_eq in Ea.
    destruct (k_calls _ _ _ _ Hk _ Ht eq_refl) as [_ H]. destruct (H Ea) as (Hn & (i & Es & _) & _).
    apply why_outcome; try done. unfold ofSession. rewrite Es. intros _. exists i. split; [done|]. set_solver.
Qed.

Lemma why_reset s : why s -> sy_stopping s = true -> why (with_state (resetSession s) GST_STATE_NULL false).
Proof.
  intros Hy Hs. assert (av_probes (sy_bin s) = false) as Hp.
  { destruct (av_probes _) eqn:E; [|done]. destruct (y_probes _ Hy E) as (_ & E1 & _). congruence. }
  unfold resetSession. simpl. destruct (av_local (sy_bin s)); constructor; simpl; rewrite ?Hp; done.
Qed.

(** Without a session no flag is up. *)
Lemma why_thin s : why s -> kids s -> av_local (sy_bin s) = false -> why (with_state s GST_STATE_NULL false).
Proof.
  intros [Y1 Y2 Y3 Y4 Y5 Y6 Y7] Hk El. pose proof (k_local _ _ _ _ Hk) as E. rewrite El in E.
  assert (forall P, ~ ofNow s P) as Hno by (intros P (i & Es & _); by rewrite Es in E). constructor; try done; simpl.
  - intros _ _. split_and!.
    + destruct (sh_setupDone _) eqn:E1; [|done]. destruct (sh_setupOk (sy_shared s)) eqn:E2; [|by destruct (Hno _ (Y1 eq_refl eq_refl))].
      pose proof (k_setup _ _ _ _ Hk E2) as Hw. rewrite Y7 in E; [done|]. by destruct (sy_worker s).
    + destruct (sh_cancelled _); [by destruct (Hno _ (Y2 eq_refl))|done].
    + destruct (sh_flushing _) as [[] []]; simpl in *; try done; first [by destruct (Hno _ (Y3 eq_refl))|by destruct (Hno _ (Y4 eq_refl))].
  - intros Ep. destruct (Y6 Ep) as (_ & _ & H). congruence.
Qed.

Lemma why_stopChildren s : why s -> why (stopChildren s).
Proof. intros Hy. unfold stopChildren. apply why_bin; [|by intros b]. destruct (fst (sy_running s)); apply why_child; [by apply why_did|done]. Qed.

Lemma why_property p s : why s -> why (setProperty p s).
Proof.
  intros Hy. unfold setProperty. destruct (negb _); [done|]. apply (why_bin _ (fun b => set_props b (assign p (av_props b)))) in Hy; [|by intros b].
  destruct p; try done. destruct (_ || _ || _); [|done]. apply why_bin; [by apply why_child, why_did|by intros b].
Qed.

(** [finalize] apart: it cancels without a session, and nothing follows it. *)
Lemma why_act k s s' : why s -> kids s -> act k s = Some s' -> sy_life s' <> Gone -> why s'.
Proof.
  intros Hy Hk H Hg. pose proof (k_local _ _ _ _ Hk) as Hl. destruct k; try exact (why_worker_acts _ _ _ Hy Hk H). all: simpl in H.
  1-6: destruct (_ || sy_stopping s) eqn:E; [done|]; injection H as <-; rewrite orb_false_iff, negb_false_iff, Z.eqb_eq in E; destruct E as [E1 E2].
  2-6: assert (sy_state s <> GST_STATE_NULL) as Hn by (by rewrite E1).
  - by apply why_nullToReady.
  - unfold readyToPaused. destruct (_ && _); [by apply why_error|]. destruct parent; [by apply why_state|done].
  - unfold pausedToPlaying. destruct (av_local _); simpl; [|destruct parent; [by apply why_state|done]].
    destruct (negb clock); [apply why_stopSession; [by apply why_error|done|done]|].
    apply (why_shared _ (fun x => set_playing x true)) in Hy; try done. pose proof (why_tasks _ (sy_tasks s ++ [Queued]) Hy) as Hq.
    destruct (_ && (_ && _)), parent; try apply why_state; done.
  - unfold playingToPaused. apply why_state; [|done]. destruct (av_local _); [by apply why_shared|done].
  - unfold pausedToReady. apply why_state; [|done]. destruct (av_local _); [by apply why_stopSession|done].
  - unfold readyToNull. destruct (av_local _) eqn:El.
    + apply (why_closing s (sy_worker s) (fun b => b) (sy_child s) (sy_running s)) in Hy; [|done|done]. by destruct s.
    + apply why_thin, why_stopChildren in Hy; try done. unfold stopChildren in *. simpl in *. by destruct (fst (sy_running s)).
  - destruct (sy_stopping s) eqn:E; [|done]. destruct (joined s); [|done]. injection H as <-. by apply why_reset.
  - destruct (sy_tasks s !! n) as [t|] eqn:En; [|done].
    pose proof (fun l => why_release s t a l (list_elem_of_lookup_2 _ _ _ En) Hy Hk) as Hr.
    destruct (releaseMedia t a s) as [t' x]. by injection H as <-.
  - destruct (negb _); [done|]. injection H as <-. unfold padData. destruct (holdProbe _ _ _); [done|by apply why_did..].
  - destruct (av_probes _) eqn:E; [|done]. injection H as <-. by apply why_flush.
  - destruct (negb _); [done|]. injection H as <-. unfold handleMessage. destruct (negb _); [done|]. by apply why_drainer, why_did.
  - destruct (dr_thread _); try done. injection H as <-. unfold drainerEnds. set (x := did s _). assert (why x) by by apply why_did.
    destruct (negb ok); apply why_drainer; [destruct (sh_cancelled _)|]; by try apply why_did.
  - injection H as <-. unfold adoptChannel. destruct (_ || _ || _); [done|]. destruct (negb (adopts _ _ _)); [done|]. by apply why_child, why_did.
  - injection H as <-. by apply why_property.
  - destruct (_ || _ || _); [done|]. by injection H as <-.
Qed.

Lemma why_init plugins : why (av_sink_init plugins).
Proof. by constructor. Qed.
