(* ===== verification/GstAvSinkGate.v ===== *)
(** * The gate of framelinkavsink

    What leaves the bin comes after what it waits for, over every interleaving of
    the steps of GstAvSink.v; and three accidents. *)
From stdpp Require Import strings.
From S2P Require Import Prelude Api Session GstVideo Element GstAudio GstAvBin GstAvStart GstAvSink GstAvSinkSafe GstAvSinkStart.
#[local] Open Scope Z_scope.
Implicit Types (s : System Shared Worker Drainer).

(** ** The order of the log *)

Definition tracksOf (tr : bool * bool) : nat := (if fst tr then 1 else 0) + (if snd tr then 1 else 0).

(** The EOS the children of session [i] have posted. *)
Fixpoint eosOf (i : nat) (log : list AvDid) : nat :=
  match log with
  | [] => 0
  | VChildEos j _ :: l => (if (j =? i)%nat then 1 else 0) + eosOf i l
  | _ :: l => eosOf i l
  end.

(** An event may go on to a child early: the wait of session [i] at its pad failed. *)
Definition letGo (l : list AvDid) (i track : nat) : Prop :=
  VFail i ∈ l \/ VCancel i ∈ l \/ exists t, VFlush i t ∈ l /\ (t = 0%nat <-> track = 0%nat).

(** What has to be in the log before an entry. *)
Definition needs (l : list AvDid) (d : AvDid) : Prop :=
  match d with
  | VReady i => exists e, VEpoch i e ∈ l
  | VStart i base => VReady i ∈ l /\ VEpoch i base ∈ l /\ allStarted i l
  | VPass i track event => (exists base, VStart i base ∈ l) \/ event = true /\ letGo l i track
  | VDrained i => exists tr, VSession i tr ∈ l /\ (tracksOf tr <= eosOf i l)%nat
  | VEos i => VDrained i ∈ l
  | _ => True
  end.

Lemma eosOf_app i l k : eosOf i (l ++ k) = (eosOf i l + eosOf i k)%nat.
Proof. induction l as [|[] l IH]; simpl; lia. Qed.

(** Entries that need nothing, and that nothing needs. *)
Definition plain (d : AvDid) : Prop :=
  match d with VReady _ | VStart _ _ | VPass _ _ _ | VDrained _ | VEos _ => False | _ => True end.

Lemma plain_ofSession s f : (forall i, plain (f i)) -> Forall plain (ofSession s f).
Proof. intros Hf. unfold ofSession. destruct (av_session (sy_bin s)); auto. Qed.

Lemma inOrder_plain l k : inOrder needs l -> Forall plain k -> inOrder needs (l ++ k).
Proof. intros Hl Hk. apply inOrder_app; [done|]. eapply Forall_impl; [exact Hk|]. intros [] Hp l'; simpl; done. Qed.

(** ** The invariant *)

(** The session of now has its epoch; its other end is ready too. *)
Definition epoched s : Prop := exists i, av_session (sy_bin s) = Some i /\ VEpoch i (sh_epoch (sy_shared s)) ∈ sy_log s.
Definition readied s : Prop :=
  exists i, av_session (sy_bin s) = Some i /\ VReady i ∈ sy_log s /\ VEpoch i (sh_epoch (sy_shared s)) ∈ sy_log s.

Definition baseOf (t : Task) (e : Z) : Z := match t with Timed _ b _ | Adopted _ b | Started _ b => b | _ => e end.

(** A call of this session came after READY, with the base time it was set up for. *)
Definition goodCall s (t : Task) : Prop :=
  (address t <= sy_addr s)%nat /\
  (address t = sy_addr s -> readied s /\ baseOf t (sh_epoch (sy_shared s)) = sh_epoch (sy_shared s)).

Definition workerSays s : Prop :=
  match sy_worker s with
  | NoWorker => True
  | WOpened _ _ => epoched s
  | Waited ok _ | Published ok => ok = true -> readied s
  | Opening _ | WorkerDone => True
  end.

(** What the drainer can count on. *)
Definition counted s : Prop :=
  let d := sy_drainer s in
  match av_session (sy_bin s) with
  | None => dr_heldEos d = 0%nat /\ dr_thread d <> Draining
  | Some i => (exists tr, VSession i tr ∈ sy_log s /\ dr_eosNeeded d = tracksOf tr) /\ (dr_heldEos d <= eosOf i (sy_log s))%nat /\
    (dr_thread d = Draining -> (dr_eosNeeded d <= eosOf i (sy_log s))%nat)
  end.

Record gated s : Prop := {
  g_order : inOrder needs (sy_log s);
  g_local : av_local (sy_bin s) = is_some (av_session (sy_bin s));
  g_worker : workerSays s;
  g_thread : sy_worker s <> NoWorker -> is_some (av_session (sy_bin s)) = true;
  g_setup : sh_setupOk (sy_shared s) = true -> readied s;
  g_calls : forall t, t ∈ sy_tasks s -> underWay t = true -> goodCall s t;
  g_released : sh_released (sy_shared s) = true -> exists i b, av_session (sy_bin s) = Some i /\ VStart i b ∈ sy_log s;
  g_counted : counted s;
  g_idle : sy_state s = GST_STATE_NULL -> sy_stopping s = false ->
    sy_worker s = NoWorker /\ sh_setupOk (sy_shared s) = false /\ sh_released (sy_shared s) = false /\
    dr_thread (sy_drainer s) <> Draining /\ dr_heldEos (sy_drainer s) = 0%nat /\
    forall t, t ∈ sy_tasks s -> underWay t = true -> address t <> sy_addr s;
}.

(** ** Steps that keep to the session *)

(** [s'] is [s] with more in the log, of the same session. *)
Record after s s' (l : list AvDid) : Prop := {
  a_log : sy_log s' = sy_log s ++ l;
  a_session : av_session (sy_bin s') = av_session (sy_bin s);
  a_local : av_local (sy_bin s') = av_local (sy_bin s);
  a_addr : sy_addr s' = sy_addr s;
  a_epoch : sh_epoch (sy_shared s') = sh_epoch (sy_shared s);
}.

Lemma readied_after s s' l : after s s' l -> readied s -> readied s'.
Proof. intros [El Es _ _ Ee] (i & H1 & H2 & H3). exists i. rewrite El, Es, Ee. split_and!; [done|..]; apply elem_of_app; by left. Qed.

Lemma epoched_after s s' l : after s s' l -> epoched s -> epoched s'.
Proof. intros [El Es _ _ Ee] (i & H1 & H2). exists i. rewrite El, Es, Ee. split; [done|]. apply elem_of_app; by left. Qed.

Lemma goodCall_after s s' l t : after s s' l -> goodCall s t -> goodCall s' t.
Proof.
  intros Ha [H1 H2]. pose proof Ha as [_ _ _ Ead Ee]. split; [by rewrite Ead|]. rewrite Ead, Ee. intros E.
  destruct (H2 E). split; [by eapply readied_after|done].
Qed.

Lemma counted_after s s' l : after s s' l -> sy_drainer s' = sy_drainer s -> counted s -> counted s'.
Proof.
  intros [El Es _ _ _] Ed H. unfold counted in *. rewrite Es, Ed, El. destruct (av_session (sy_bin s)) as [i|]; [|done].
  destruct H as ((tr & H1 & H2) & H3 & H4). rewrite eosOf_app. split_and!; [|lia|intros E; specialize (H4 E); lia].
  exists tr. split; [apply elem_of_app; by left|done].
Qed.

Lemma workerSays_after s s' l : after s s' l -> sy_worker s' = sy_worker s -> workerSays s -> workerSays s'.
Proof.
  intros Ha Ew. unfold workerSays. rewrite Ew.
  destruct (sy_worker s); try done; intros H; try (intros E; specialize (H E)); first [by eapply epoched_after|by eapply readied_after].
Qed.

(** A step that does not open the gate. *)
Record quiet s s' (l : list AvDid) : Prop := {
  q_after : after s s' l;
  q_plain : Forall plain l;
  q_worker : sy_worker s' = sy_worker s;
  q_drainer : sy_drainer s' = sy_drainer s;
  q_setup : sh_setupOk (sy_shared s') = true -> sh_setupOk (sy_shared s) = true;
  q_released : sh_released (sy_shared s') = sh_released (sy_shared s);
  q_calls : forall t, t ∈ sy_tasks s' -> underWay t = true -> t ∈ sy_tasks s;
  q_idle : sy_state s' = GST_STATE_NULL -> sy_stopping s' = false -> sy_state s = GST_STATE_NULL /\ sy_stopping s = false;
}.

Lemma gated_quiet s s' l : gated s -> quiet s s' l -> gated s'.
Proof.
  intros [Ho Hl Hw Ht Hs Hc Hr Hd Hi] [Ha Hp Ew Ed Es Er Ec Ei]. pose proof Ha as [El Ess Elo Ead _]. constructor.
  - rewrite El. by apply inOrder_plain.
  - congruence.
  - by eapply workerSays_after.
  - by rewrite Ew, Ess.
  - intros E. eapply readied_after; [done|auto].
  - intros t H1 H2. eapply goodCall_after; [done|auto].
  - rewrite Er. intros E. destruct (Hr E) as (i & b & H1 & H2). exists i, b. rewrite Ess, El. split; [done|]. apply elem_of_app. by left.
  - by eapply counted_after.
  - intros E1 E2. destruct (Ei E1 E2) as [E3 E4]. destruct (Hi E3 E4) as (H1 & H2 & H3 & H4 & H5 & H6). rewrite Ew, Er, Ed, Ead.
    split_and!; try done; [|auto]. destruct (sh_setupOk (sy_shared s')); [|done]. rewrite <- H2. symmetry. auto.
Qed.

Lemma gated_says s l : Forall plain l -> gated s -> gated (did s l).
Proof. intros Hl Hg. eapply (gated_quiet _ _ l Hg). constructor; [constructor|..]; simpl; done. Qed.

Lemma gated_stopSession s : gated s -> gated (stopSession s).
Proof.
  intros Hg. eapply (gated_quiet _ _ (ofSession s VCancel) Hg). constructor; [constructor|..]; simpl; try done. by apply plain_ofSession.
Qed.

Lemma gated_stopChildren s : gated s -> gated (stopChildren s).
Proof.
  intros Hg. eapply (gated_quiet _ _ (if fst (sy_running s) then closes (sy_child s) else []) Hg). unfold stopChildren.
  constructor; [constructor|..]; destruct (fst (sy_running s)); simpl; try done; [by rewrite app_nil_r|by destruct (sy_child s); constructor].
Qed.

Lemma gated_state s state stopping : gated s ->
  (state = GST_STATE_NULL -> stopping = false -> sy_state s = GST_STATE_NULL /\ sy_stopping s = false) -> gated (with_state s state stopping).
Proof.
  intros Hg Hi. eapply (gated_quiet _ _ [] Hg). constructor; [constructor|..]; simpl; try done; by rewrite app_nil_r.
Qed.

Lemma gated_shared s f : gated s -> (forall x, sh_epoch (f x) = sh_epoch x) -> (forall x, sh_setupOk (f x) = true -> sh_setupOk x = true) ->
  (forall x, sh_released (f x) = sh_released x) -> gated (on_shared s f).
Proof.
  intros Hg F1 F2 F3. eapply (gated_quiet _ _ [] Hg). constructor; [constructor|..]; simpl; try done; [by rewrite app_nil_r|auto..].
Qed.

Lemma gated_bin s f : gated s -> (forall b, av_local (f b) = av_local b /\ av_session (f b) = av_session b) -> gated (on_bin s f).
Proof.
  intros Hg F. eapply (gated_quiet _ _ [] Hg). destruct (F (sy_bin s)).
  constructor; [constructor|..]; simpl; try done; by rewrite app_nil_r.
Qed.

Lemma gated_child s ch run : gated s -> gated (with_child s ch run).
Proof.
  intros Hg. eapply (gated_quiet _ _ [] Hg). constructor; [constructor|..]; simpl; try done; by rewrite app_nil_r.
Qed.

Lemma gated_life s v : gated s -> gated (with_life s v).
Proof.
  intros Hg. eapply (gated_quiet _ _ [] Hg). constructor; [constructor|..]; simpl; try done; by rewrite app_nil_r.
Qed.

Lemma gated_tasks s l : gated s -> (forall t, t ∈ l -> underWay t = true -> t ∈ sy_tasks s) -> gated (with_tasks s l).
Proof.
  intros Hg Hl. eapply (gated_quiet _ _ [] Hg). constructor; [constructor|..]; simpl; try done; by rewrite app_nil_r.
Qed.

Lemma gated_enqueue s : gated s -> gated (with_tasks s (sy_tasks s ++ [Queued])).
Proof. intros Hg. apply gated_tasks; [done|]. intros t [?| ->%list_elem_of_singleton]%elem_of_app; done. Qed.

(** A call that goes on as good as before. *)
Lemma gated_call s n t : gated s -> goodCall s t -> sy_state s <> GST_STATE_NULL \/ address t <> sy_addr s \/ sy_stopping s = true ->
  gated (with_tasks s (<[n := t]> (sy_tasks s))).
Proof.
  intros [Ho Hl Hw Ht Hs Hc Hr Hd Hi] Hg Hn. constructor; try done.
  - intros x [Hx|[= <-]]%(goesOn_elem _ n (Some t)) Hu; [by apply Hc|done].
  - simpl. intros E1 E2. destruct (Hi E1 E2) as (H1 & H2 & H3 & H4 & H5 & H6). split_and!; try done.
    intros x [Hx|[= <-]]%(goesOn_elem _ n (Some t)) Hu; [by apply H6|]. destruct Hn as [?|[?|?]]; congruence.
Qed.

Lemma gated_closing s : gated (with_state s (sy_state s) true) -> gated (closing s).
Proof.
  intros H. apply gated_stopSession, gated_stopChildren, (gated_bin _ (fun b => set_probes b false)) in H; [|done].
  unfold closing, stopChildren in *. simpl in *. destruct (fst (sy_running s)); exact H.
Qed.

(** ** The steps *)

Lemma gated_opening s v state stopping : gated s -> is_some (av_session (sy_bin s)) = true ->
  (state = GST_STATE_NULL -> stopping = true) -> gated (with_state (with_worker s (Opening v)) state stopping).
Proof.
  intros [Ho Hl Hw Ht Hs Hc Hr Hd Hi] Hse Hn. constructor; try done. simpl. intros E1 E2. rewrite Hn in E2; done.
Qed.

Lemma gated_parentReady parent children s : gated s -> gated (parentReady parent children s).
Proof.
  intros Hg. unfold parentReady. set (x := with_child _ _ _). assert (gated x) as Hx by by apply gated_child.
  destruct parent; simpl; [by apply gated_state|]. destruct (av_local _); [|done].
  apply gated_closing. by apply gated_state.
Qed.

Lemma gated_openReady parent children v s : gated s -> is_some (av_session (sy_bin s)) = true -> sy_state s = GST_STATE_NULL ->
  gated (parentReady parent children (with_worker s (Opening v))).
Proof.
  intros Hg Hs En. unfold parentReady. set (run := (_, _)). pose proof (gated_child _ (sy_child s) run Hg) as Hx.
  destruct parent; simpl; [exact (gated_opening _ v GST_STATE_READY false Hx Hs ltac:(done))|].
  rewrite (g_local _ Hg), Hs. apply gated_closing. exact (gated_opening _ v (sy_state s) true Hx Hs ltac:(done)).
Qed.

(** A new session, before its worker starts. *)
Lemma gated_new s f : gated s -> sy_state s = GST_STATE_NULL -> sy_stopping s = false ->
  (forall x, sh_setupOk (f x) = sh_setupOk x) -> (forall x, sh_released (f x) = sh_released x) ->
  let d := mkDrainer (dr_thread (sy_drainer s)) (wantedTracks (sy_bin s)) (dr_heldEos (sy_drainer s)) in
  gated (on_shared (with_drainer (new_session s) d) f).
Proof.
  intros [Ho Hl Hw Ht Hs Hc Hr Hd Hi] E1 E2 F1 F2 d. destruct (Hi E1 E2) as (H1 & H2 & H3 & H4 & H5 & H6).
  constructor; simpl; rewrite ?F1, ?F2; try done.
  - apply inOrder_plain; [done|]. by constructor.
  - unfold workerSays. simpl. by rewrite H1.
  - congruence.
  - intros t H7 H8. destruct (Hc t H7 H8) as [H9 _]. split; [done|]. intros E. by destruct (H6 t H7 H8).
  - congruence.
  - unfold counted. simpl. rewrite H5. split_and!; [|lia|done]. eexists. split; [apply elem_of_app; right; by apply list_elem_of_singleton|].
    done.
Qed.

Lemma gated_error s : gated s -> gated (did s [VError]).
Proof. apply gated_says. by constructor. Qed.

Lemma gated_nullToReady pipeline now parent children s : gated s -> sy_state s = GST_STATE_NULL -> sy_stopping s = false ->
  gated (nullToReady pipeline now parent children s).
Proof.
  intros Hg En Es. pose proof gated_error as He. unfold nullToReady.
  destruct (_ && negb (wantAudio _)); [auto|]. destruct (_ || _ && negb (av_audio _)); [auto|].
  destruct (negb (nonempty _)); [by apply gated_parentReady|].
  destruct (wantVideo _ && (_ || _)); [auto|]. destruct (wantAudio _ && negb (validAudioFormat _)); [auto|].
  destruct pipeline; simpl.
  - apply gated_openReady; try done. apply gated_bin; [|done]. by apply gated_new.
  - apply He. by apply (gated_new s (fun x => x)).
Qed.

(** The worker's next step, with what it learned. *)
Lemma gated_work s w l : gated s -> sy_worker s <> NoWorker -> inOrder needs (sy_log s ++ l) -> workerSays (with_worker (did s l) w) ->
  gated (with_worker (did s l) w).
Proof.
  intros [Ho Hl Hw Ht Hs Hc Hr Hd Hi] Hn Hol Hsay.
  assert (after s (with_worker (did s l) w) l) as Ha by by constructor.
  constructor; simpl; try done; [auto|..].
  - intros E. by eapply readied_after, Hs.
  - intros t H1 H2. by eapply goodCall_after, Hc.
  - intros E. destruct (Hr E) as (i & b & H1 & H2). exists i, b. split; [done|]. apply elem_of_app. by left.
  - by eapply counted_after.
  - intros E1 E2. by destruct (Hi E1 E2).
Qed.

Lemma gated_worker k s s' : gated s -> worker k s = Some s' -> gated s'.
Proof.
  intros Hg H. unfold worker in H. destruct k; try discriminate; destruct (sy_worker s) eqn:Ew; try discriminate.
  all: assert (sy_worker s <> NoWorker) as Hn by (by rewrite Ew); pose proof (g_thread _ Hg Hn) as Hse;
    destruct (av_session (sy_bin s)) as [i|] eqn:Es; try done; pose proof (g_worker _ Hg) as Hw; unfold workerSays in Hw; rewrite Ew in Hw.
  - destruct (_ && negb _); [done|]. injection H as <-. unfold ofSession. rewrite Es. apply gated_work; try done.
    + apply inOrder_plain; [apply (g_order _ Hg)|]. apply Forall_app. split; [by destruct ch; constructor|destruct ok; by constructor].
    + destruct ok; simpl; [|done]. exists i. split; [done|]. simpl. set_solver.
  - injection H as <-. unfold ofSession. rewrite Es. destruct Hw as (j & Ej & He). assert (j = i) as -> by congruence.
    apply gated_work; try done.
    + destruct ok; [|rewrite app_nil_r; apply (g_order _ Hg)]. apply inOrder_snoc; [apply (g_order _ Hg)|]. by eexists.
    + intros ->. exists i. split_and!; [done|simpl; set_solver..].
  - injection H as <-. set (l := (if ok then [] else ofSession s VFail) ++ if negb ok && negb (sh_cancelled (sy_shared s)) then [VError] else []).
    assert (gated (with_worker (did s l) (Published ok))) as Hx.
    { apply gated_work; try done.
      - apply inOrder_plain; [apply (g_order _ Hg)|]. apply Forall_app. split; [destruct ok; [done|by apply plain_ofSession]|destruct (_ && _); by constructor].
      - intros E. eapply (readied_after s _ l); [by constructor|auto]. }
    clearbody l. destruct Hx as [Ho Hl Hwo Ht Hs Hc Hr Hd Hi]. constructor; try done.
    intros E1 E2. by destruct (Hi E1 E2).
  - injection H as <-. assert (gated (with_worker s WorkerDone)) as Hx.
    { pose proof (gated_work s WorkerDone [] Hg Hn) as Hx. unfold with_worker, did in *. simpl in Hx. rewrite app_nil_r in Hx.
      by apply Hx; [apply (g_order _ Hg)|]. }
    destruct ok; [|done]. exact (gated_enqueue _ Hx).
Qed.

Lemma gated_closes s ch : gated s -> gated (did s (closes ch)).
Proof. apply gated_says. destruct ch; by constructor. Qed.

(** A call that was under way goes on. *)
Lemma gated_goes s n t t' : gated s -> sy_tasks s !! n = Some t -> underWay t = true -> address t' = address t ->
  (address t = sy_addr s -> baseOf t' (sh_epoch (sy_shared s)) = sh_epoch (sy_shared s)) ->
  gated (with_tasks s (<[n := t']> (sy_tasks s))).
Proof.
  intros Hg Hn Hu Ha Hb. pose proof (list_elem_of_lookup_2 _ _ _ Hn) as Hin. destruct (g_calls _ Hg t Hin Hu) as [H1 H2].
  apply gated_call; [done| |].
  - split; [by rewrite Ha|]. rewrite Ha. intros E. destruct (H2 E). auto.
  - destruct (decide (sy_state s = GST_STATE_NULL)) as [E|]; [|by left]. destruct (sy_stopping s) eqn:Es; [by right; right|].
    right; left. rewrite Ha. destruct (g_idle _ Hg E Es) as (_ & _ & _ & _ & _ & H). auto.
Qed.

Lemma gated_ends s n : gated s -> gated (with_tasks s (delete n (sy_tasks s))).
Proof. intros Hg. apply gated_tasks; [done|]. by intros t [?|?]%(goesOn_elem _ n None). Qed.

(** The gate opens. *)
Lemma gated_start s base : gated s -> readied s -> ofNow s (fun i => allStarted i (sy_log s)) -> base = sh_epoch (sy_shared s) -> (sy_state s = GST_STATE_NULL -> sy_stopping s = true) ->
  gated (did (on_shared s set_released) (ofSession s (fun i => VStart i base))).
Proof.
  intros Hg (i & Es & H1 & H2) (j & Ej & Hall) -> Hn. assert (j = i) as -> by congruence. unfold ofSession. rewrite Es. set (l := [VStart i _]).
  assert (after s (did (on_shared s set_released) l) l) as Ha by by constructor.
  destruct Hg as [Ho Hl Hw Ht Hs Hc Hr Hd Hi]. constructor; simpl; try done.
  - by apply inOrder_snoc.
  - by eapply workerSays_after.
  - intros E. by eapply readied_after, Hs.
  - intros t H3 H4. by eapply goodCall_after, Hc.
  - intros _. exists i, (sh_epoch (sy_shared s)). split; [done|]. unfold l. set_solver.
  - by eapply counted_after.
  - intros E1 E2. by rewrite Hn in E2.
Qed.

(** A call under way makes a step. *)
Lemma gated_release s n t a : sy_tasks s !! n = Some t -> gated s -> kids s ->
  gated (with_tasks (releaseMedia t a s).2 (goesOn (sy_tasks (releaseMedia t a s).2) n (releaseMedia t a s).1)).
Proof.
  intros Hn Hg Hk. pose proof (g_calls _ Hg t (list_elem_of_lookup_2 _ _ _ Hn)) as Hc.
  destruct t as [|sh ch|sh ch|sh base ch|sh base|sh base|sh]; simpl.
  - destruct (_ || negb (sh_playing _)) eqn:E; simpl; [by apply gated_ends|].
    rewrite !orb_false_iff, negb_false_iff in E. destruct E as [[_ E] _].
    pose proof (g_setup _ Hg E) as Hr. apply (gated_shared _ take_channel) in Hg; try done.
    apply (gated_call _ n (Took (sy_addr s) (sh_channel (sy_shared s)))) in Hg; [done|by split|].
    destruct (decide (sy_state s = GST_STATE_NULL)) as [E1|]; [|by left]. destruct (sy_stopping s) eqn:E2; [by right; right|].
    destruct (g_idle _ Hg E1 E2) as (_ & H & _). simpl in H. congruence.
  - destruct (negb (an_clock a)); simpl; [|by eapply gated_goes].
    exact (gated_goes _ n _ (Failing sh) (gated_closes _ ch Hg) Hn eq_refl eq_refl (fun _ => eq_refl)).
  - destruct (sh =? sy_addr s)%nat eqn:Ea; simpl.
    + apply Nat.eqb_eq in Ea. destruct (an_base a =? _) eqn:Eb; simpl.
      * eapply gated_goes; try done. intros _. by apply Z.eqb_eq in Eb.
      * exact (gated_goes _ n _ (Failing sh) (gated_closes _ ch Hg) Hn eq_refl eq_refl (fun _ => eq_refl)).
    + exact (gated_goes _ n _ (Clocked sh ch) (gated_life _ Stale Hg) Hn eq_refl eq_refl (fun _ => eq_refl)).
  - assert (address (Timed sh base ch) = sy_addr s -> base = sh_epoch (sy_shared s)) as Hb by (intros E; by apply Hc).
    destruct (negb (av_video _)); simpl; [by eapply gated_goes|]. destruct (negb (adopts _ _ _)); simpl.
    + exact (gated_goes _ n _ (Failing sh) (gated_closes _ ch Hg) Hn eq_refl eq_refl (fun _ => eq_refl)).
    + exact (gated_goes _ n _ (Adopted sh base) (gated_child _ ch _ Hg) Hn eq_refl eq_refl Hb).
  - assert (address (Adopted sh base) = sy_addr s -> base = sh_epoch (sy_shared s)) as Hb by (intros E; by apply Hc).
    destruct (start_children a s) as (v & run & l & E & Hl & _). destruct (startChildren a s) as [ok s']. simpl in E. subst s'. simpl.
    pose proof (gated_goes _ n _ (if ok then Started sh base else Failing sh) (gated_child _ (sy_child s) run Hg) Hn eq_refl) as Hx.
    assert (gated (with_tasks (with_child s (sy_child s) run) (<[n := if ok then Started sh base else Failing sh]> (sy_tasks s)))) as Hy.
    { destruct ok; by apply Hx. }
    apply (gated_says _ l) in Hy; [exact (gated_bin _ (fun b => set_locked b v) Hy (fun _ => conj eq_refl eq_refl))|].
    eapply Forall_impl; [exact Hl|]. by intros [].
  - destruct (sh =? sy_addr s)%nat eqn:Ea; simpl.
    + apply Nat.eqb_eq in Ea. destruct (Hc eq_refl) as [_ Hb]. destruct (Hb Ea) as [Hr Eb]. simpl in Eb.
      refine (gated_start (with_tasks s (delete n (sy_tasks s))) base (gated_ends _ _ Hg) Hr _ Eb _).
      { by apply (k_calls _ _ _ _ Hk _ (list_elem_of_lookup_2 _ _ _ Hn)). }
      simpl. intros E. destruct (sy_stopping s) eqn:Es; [done|]. destruct (g_idle _ Hg E Es) as (_ & _ & _ & _ & _ & H).
      by destruct (H _ (list_elem_of_lookup_2 _ _ _ Hn) eq_refl).
    + exact (gated_goes _ n _ (Started sh base) (gated_life _ Stale Hg) Hn eq_refl eq_refl (fun E => proj2 (proj2 (Hc eq_refl) E))).
  - destruct (sh =? sy_addr s)%nat eqn:Ea; simpl.
    + pose proof (gated_ends _ n Hg) as H. apply (gated_says _ (VError :: ofSession s VCancel ++ ofSession s VFail)) in H.
      * apply (gated_shared _ set_failed) in H; done.
      * constructor; [done|]. apply Forall_app. split; by apply plain_ofSession.
    + exact (gated_goes _ n _ (Failing sh) (gated_life _ Stale Hg) Hn eq_refl eq_refl (fun _ => eq_refl)).
Qed.

(** What goes on to a child. *)
Lemma gated_pass s l i track event : gated s -> av_session (sy_bin s) = Some i -> needs (sy_log s ++ l) (VPass i track event) -> Forall plain l ->
  gated (did s (l ++ [VPass i track event])).
Proof.
  intros Hg Es Hneed Hp. set (k := l ++ _). assert (after s (did s k) k) as Ha by by constructor.
  destruct Hg as [Ho Hl Hw Ht Hs Hc Hr Hd Hid]. constructor; simpl; try done.
  - unfold k. rewrite app_assoc. apply inOrder_snoc; [by apply inOrder_plain|done].
  - by eapply workerSays_after.
  - intros E. by eapply readied_after, Hs.
  - intros t H3 H4. by eapply goodCall_after, Hc.
  - intros E. destruct (Hr E) as (j & b & H1 & H2). exists j, b. split; [done|]. apply elem_of_app. by left.
  - by eapply counted_after.
Qed.

(** Why the wait at the pad failed, whatever it was, is in the log. *)
Lemma failed_letGo s track deadline error flushing i : why s -> holdProbe (sy_shared s) track deadline = HoldFail error flushing ->
  av_session (sy_bin s) = Some i -> letGo (sy_log s ++ if error then VError :: ofSession s VFail else []) i track.
Proof.
  intros [Y1 Y2 Y3 Y4 _ _ _] H Es. unfold holdProbe in H. unfold letGo, ofSession. rewrite Es.
  assert (forall P, ofNow s P -> P i) as Hnow by (intros P (j & Ej & Hj); congruence).
  destruct (sh_released _); [done|]. destruct (_ && (_ || _)) eqn:E; [done|]. injection H as <- <-.
  destruct (sh_cancelled _) eqn:Ec; [right; left; apply elem_of_app; left; by apply Hnow, Y2|].
  destruct (match track with O => _ | Datatypes.S _ => _ end) eqn:Ef; simpl.
  { right; right. destruct track as [|u]; simpl in *.
    - exists 0%nat. split; [|done]. apply elem_of_app. left. by apply Hnow, Y3.
    - destruct (Hnow _ (Y4 Ef)) as [t Ht]. exists (Datatypes.S t). split; [apply elem_of_app; by left|lia]. }
  left. destruct (sh_setupDone _ && _) eqn:Ed; simpl.
  - rewrite andb_true_iff, negb_true_iff in Ed. destruct Ed. apply elem_of_app. left. by apply Hnow, Y1.
  - set_solver.
Qed.

Lemma gated_padData track event deadline s : gated s -> why s -> av_probes (sy_bin s) = true -> gated (padData track event deadline s).
Proof.
  intros Hg Hy Hp. destruct (y_probes _ Hy Hp) as (_ & _ & Hs). destruct (av_session (sy_bin s)) as [i|] eqn:Es; [|done].
  unfold padData. assert (forall f, ofSession s f = [f i]) as Hof by (intros f; unfold ofSession; by rewrite Es).
  destruct (holdProbe (sy_shared s) track deadline) as [| |error flushing] eqn:Eh; [done|..]; rewrite ?Hof.
  - apply (gated_pass s []); try done. rewrite app_nil_r. left. unfold holdProbe in Eh. destruct (sh_released (sy_shared s)) eqn:Er.
    + destruct (g_released _ Hg Er) as (j & b & Ej & Hj). exists b. congruence.
    + by destruct (_ && _ && _ && _).
  - pose proof (failed_letGo s track deadline error flushing i Hy Eh Es) as Hl. rewrite ?Hof in Hl.
    assert (Forall plain (if error then VError :: [VFail i] else [])) as Hpl by (destruct error; by repeat constructor).
    destruct event; [|rewrite app_nil_r; by apply gated_says]. apply gated_pass; try done. by right.
Qed.

Lemma gated_holdFlush track start s : gated s -> gated (holdFlush track start s).
Proof.
  intros Hg. unfold holdFlush. set (x := on_shared s _). assert (gated x) by by apply gated_shared.
  destruct start; [|done]. apply gated_says; [by apply plain_ofSession|done].
Qed.

(** What the EOS messages and the drainer do. *)
Lemma gated_drainer s d l : gated s -> inOrder needs (sy_log s ++ l) -> counted (with_drainer (did s l) d) ->
  (sy_state s = GST_STATE_NULL -> sy_stopping s = false -> dr_thread d <> Draining /\ dr_heldEos d = 0%nat) ->
  gated (with_drainer (did s l) d).
Proof.
  intros [Ho Hl Hw Ht Hs Hc Hr Hd Hi] Hol Hco Hn.
  assert (after s (with_drainer (did s l) d) l) as Ha by by constructor.
  constructor; simpl; try done.
  - by eapply workerSays_after.
  - intros E. by eapply readied_after, Hs.
  - intros t H1 H2. by eapply goodCall_after, Hc.
  - intros E. destruct (Hr E) as (i & b & H1 & H2). exists i, b. split; [done|]. apply elem_of_app. by left.
  - intros E1 E2. destruct (Hi E1 E2) as (H1 & H2 & H3 & _ & _ & H6), (Hn E1 E2). done.
Qed.

Lemma gated_handleMessage track s : gated s -> sy_state s <> GST_STATE_NULL -> gated (handleMessage track s).
Proof.
  intros Hg Hn. unfold handleMessage. destruct (av_local (sy_bin s)) eqn:El; [simpl|done]. pose proof (g_counted _ Hg) as Hd.
  rewrite (g_local _ Hg) in El. unfold ofSession, counted in *. destruct (av_session (sy_bin s)) as [i|] eqn:Es; [|done].
  apply gated_drainer; [done|apply inOrder_plain; [apply (g_order _ Hg)|by constructor]| |done].
  unfold counted. simpl. rewrite Es, eosOf_app. simpl. rewrite Nat.eqb_refl. destruct Hd as ((tr & H1 & H2) & H3 & H4).
  split_and!; [exists tr; split; [apply elem_of_app; by left|done]|lia|].
  destruct (dr_thread (sy_drainer s)); try done; [|intros _; specialize (H4 eq_refl); lia].
  destruct (_ =? _)%nat eqn:E; [|done]. apply Nat.eqb_eq in E. lia.
Qed.

Lemma gated_drainerEnds ok s : gated s -> dr_thread (sy_drainer s) = Draining -> gated (drainerEnds ok s).
Proof.
  intros Hg Ht. pose proof (g_counted _ Hg) as Hd. unfold drainerEnds, counted in *. set (d := sy_drainer s) in *.
  assert (forall x, sy_state s = GST_STATE_NULL -> sy_stopping s = false -> x) as Hidle.
  { intros x E1 E2. destruct (g_idle _ Hg E1 E2) as (_ & _ & _ & H & _). by destruct H. }
  destruct (av_session (sy_bin s)) as [i|] eqn:Es; [|by destruct Hd]. destruct Hd as (Hv & H3 & H4). specialize (H4 Ht).
  destruct ok; rewrite ?did_nil, ?did_did; simpl.
  - unfold ofSession. simpl. rewrite Es. apply gated_drainer; [done| | |by intros; apply Hidle].
    + rewrite app_assoc. apply inOrder_app.
      * apply inOrder_snoc; [apply (g_order _ Hg)|]. destruct Hv as (tr & H1 & H2). exists tr. split; [done|lia].
      * generalize (dr_heldEos d). intros n. induction n as [|n IH]; simpl; [done|]. constructor; [|by apply IH]. intros l'. simpl. set_solver.
    + unfold counted. simpl. rewrite Es. destruct Hv as (tr & H1 & H2).
      split_and!; [exists tr; split; [apply elem_of_app; by left|done]|lia|done].
  - set (l := if sh_cancelled (sy_shared s) then [] else [VError]).
    assert ((if sh_cancelled (sy_shared s) then s else did s [VError]) = did s l) as ->.
    { unfold l. destruct (sh_cancelled _); [|done]. destruct s. unfold did. simpl. by rewrite app_nil_r. }
    apply gated_drainer; [done| | |by intros; apply Hidle].
    + apply inOrder_plain; [apply (g_order _ Hg)|]. unfold l. destruct (sh_cancelled _); by constructor.
    + unfold counted. simpl. rewrite Es, eosOf_app. destruct Hv as (tr & H1 & H2).
      split_and!; [exists tr; split; [apply elem_of_app; by left|done]|lia|done].
Qed.

(** A bin with a new [Shared] and no session; calls of another one may be left. *)
Lemma gated_fresh s : inOrder needs (sy_log s) -> av_local (sy_bin s) = false -> av_session (sy_bin s) = None -> sy_shared s = newShared ->
  sy_worker s = NoWorker -> dr_thread (sy_drainer s) = NoDrainer -> dr_heldEos (sy_drainer s) = 0%nat ->
  (forall t, t ∈ sy_tasks s -> underWay t = true -> (address t < sy_addr s)%nat) -> gated s.
Proof.
  intros Ho El Es Esh Ew Ed Eh Hc. constructor; rewrite ?El, ?Es, ?Esh, ?Ew; try done.
  - unfold workerSays. by rewrite Ew.
  - intros t H1 H2. specialize (Hc t H1 H2). split; [lia|]. intros E. lia.
  - unfold counted. by rewrite Es, Ed.
  - intros _ _. rewrite Ed. split_and!; try done. intros t H1 H2. specialize (Hc t H1 H2). lia.
Qed.

Lemma gated_reset s : gated s -> gated (with_state (resetSession s) GST_STATE_NULL false).
Proof.
  intros Hg. assert (forall t, t ∈ sy_tasks s -> underWay t = true -> (address t < sy_addr s + 1)%nat) as Hb.
  { intros t H1 H2. destruct (g_calls _ Hg t H1 H2). lia. }
  pose proof (g_local _ Hg) as El. unfold resetSession. simpl.
  destruct (av_local (sy_bin s)); apply gated_fresh; simpl; try done.
  - apply inOrder_plain; [apply inOrder_plain; [apply (g_order _ Hg)|]|by apply plain_ofSession].
    apply Forall_app. split; [by destruct (sh_channel _); constructor|by constructor].
  - apply inOrder_plain; [apply (g_order _ Hg)|]. apply Forall_app. split; [by destruct (sh_channel _); constructor|by constructor].
  - by destruct (av_session (sy_bin s)).
Qed.

(** Without a session there is nothing to wait for. *)
Lemma gated_thin s : gated s -> av_local (sy_bin s) = false -> gated (with_state s GST_STATE_NULL false).
Proof.
  intros Hg El. assert (av_session (sy_bin s) = None) as Es.
  { pose proof (g_local _ Hg) as H. rewrite El in H. by destruct (av_session _). }
  destruct Hg as [Ho Hl Hw Ht Hs Hc Hr Hd Hi]. constructor; try done. simpl.
  unfold counted, readied in *. rewrite Es in *. destruct Hd as [Hd1 Hd2]. intros _ _. split_and!; try done.
  - assert (sy_worker s <> NoWorker -> False) as Hn by (intros E; by specialize (Ht E)). destruct (sy_worker s); try done; by destruct Hn.
  - destruct (sh_setupOk _); [|done]. by destruct (Hs eq_refl) as (i & ? & _).
  - destruct (sh_released _); [|done]. by destruct (Hr eq_refl) as (i & b & ? & _).
  - intros t H1 H2 E. destruct (Hc t H1 H2) as [_ H]. destruct (H E) as [(i & E1 & _) _]. congruence.
Qed.

Lemma gated_finalize s : gated s -> gated (finalize s).
Proof.
  intros Hg. unfold finalize. apply gated_life, gated_child. apply gated_shared; try done. apply gated_says; [|by apply gated_stopSession].
  repeat (apply Forall_app; split); [by destruct (sy_child _); constructor|by destruct (sh_channel _); constructor|by apply plain_ofSession].
Qed.

Lemma gated_property p s : gated s -> gated (setProperty p s).
Proof.
  intros Hg. unfold setProperty. destruct (negb _); [done|]. apply (gated_bin _ (fun b => set_props b (assign p (av_props b)))) in Hg; [|done].
  destruct p; try done. destruct (_ || _ || _); [|done]. unfold rebuild. apply gated_bin; [|done]. by apply gated_child, gated_closes.
Qed.

Lemma gated_adopt ch query s : gated s -> gated (snd (adoptChannel ch query s)).
Proof.
  intros Hg. unfold adoptChannel. destruct (_ || _ || _); [done|]. destruct (negb (adopts _ _ _)); [done|]. simpl.
  apply gated_child, gated_says; [by destruct ch; constructor|done].
Qed.

Lemma gated_act k s s' : gated s -> kids s -> why s -> act k s = Some s' -> gated s'.
Proof.
  intros Hg Hk Hy H. destruct k; try exact (gated_worker _ _ _ Hg H). all: simpl in H.
  1-6: destruct (_ || sy_stopping s) eqn:E; [done|]; injection H as <-; rewrite orb_false_iff, negb_false_iff, Z.eqb_eq in E; destruct E as [E1 E2].
  - by apply gated_nullToReady.
  - unfold readyToPaused. destruct (_ && _); [by apply gated_error|]. destruct parent; [by apply gated_state|done].
  - unfold pausedToPlaying. assert (forall x, gated x -> gated (if parent then with_state x GST_STATE_PLAYING false else x)) as Hup.
    { intros x Hx. destruct parent; [by apply gated_state|done]. }
    destruct (negb (av_local _)); [by apply Hup|]. destruct (negb clock); [by apply gated_stopSession, gated_error|]. apply Hup.
    apply (gated_shared _ (fun x => set_playing x true)) in Hg; try done. destruct (_ && (_ && _)); [by apply gated_enqueue in Hg|done].
  - unfold playingToPaused. apply gated_state; [|done]. destruct (av_local _); [by apply gated_shared|done].
  - unfold pausedToReady. apply gated_state; [|done]. destruct (av_local _); [by apply gated_stopSession|done].
  - unfold readyToNull. destruct (av_local _) eqn:El; [apply gated_closing; by apply gated_state|].
    apply gated_thin; [by apply gated_stopChildren|]. unfold stopChildren. by destruct (fst (sy_running s)).
  - destruct (negb (_ && _)); [done|]. injection H as <-. by apply gated_reset.
  - destruct (sy_tasks s !! n) as [t|] eqn:En; [|done]. pose proof (gated_release s n t a En Hg Hk) as Hr.
    destruct (releaseMedia t a s) as [t' x]. by injection H as <-.
  - destruct (av_probes _) eqn:E; [|done]. injection H as <-. by apply gated_padData.
  - destruct (negb _); [done|]. injection H as <-. by apply gated_holdFlush.
  - destruct (negb _) eqn:E; [done|]. injection H as <-. apply gated_handleMessage; [done|]. intros En. by rewrite En in E.
  - destruct (dr_thread _) eqn:E; try done. injection H as <-. by apply gated_drainerEnds.
  - injection H as <-. by apply gated_adopt.
  - injection H as <-. by apply gated_property.
  - destruct (_ || _ || _); [done|]. injection H as <-. by apply gated_finalize.
Qed.

(** C30: The order of what framelinkavsink does, over any interleaving of its threads,
    calls of [releaseMedia] left from an earlier session included.  The media of a session
    is released only after the consumer reported ready and every sink the session
    was made for was started and did not fail, at the base time that is the epoch the
    session was negotiated with.  A buffer passes a pad only after that; an event
    does, or goes on because the wait at its pad failed: the set-up of the session
    failed or took too long, the session was cancelled, or that pad was flushed.  The
    EOS of the sinks leaves the bin only after the consumer confirmed the drain,
    which it is asked for when every sink has posted its own. *)
Theorem avsink_gate plugins s : reachable plugins s -> inOrder needs (sy_log s).
Proof.
  intros Hr. apply g_order. cut (gated s /\ kids s /\ (sy_life s <> Gone -> why s)); [by intros []|].
  induction Hr as [|s k s' _ (Hg & Hk & Hy) Hl H].
  - split_and!; [|apply kids_init|intros _; apply why_init]. apply gated_fresh; simpl; try done; [apply inOrder_nil|].
    intros t Ht. by apply not_elem_of_nil in Ht.
  - assert (why s) as Hw by (apply Hy; by rewrite Hl). split_and!; [by eapply gated_act|by eapply kids_act|by apply (why_act k s)].
Qed.

Lemma avsink_gate_witness : exists s, acts aLife (av_sink_init (true, true)) = Some s /\ VPass 0 0 true ∈ sy_log s /\
  VPass 0 1 false ∈ sy_log s /\ VEos 0 ∈ sy_log s /\ inOrder needs (sy_log s).
Proof.
  eexists. split; [vm_compute; reflexivity|]. split_and!; [set_solver..|]. eapply (avsink_gate (true, true)).
  eapply (acts_reachable _ aLife); [apply reachable_init|vm_compute; reflexivity].
Defined.

(** ** Three accidents *)

(** When the audio sink fails to start, the video sink was started before it and
    runs on.  The comment in [holdProbe] has an event whose wait fails go to a sink
    that is locked and flushing, and fail there; this one goes to one that runs. *)
Definition halfStarted : list Action :=
  setup ++ [SetupEnds; PausedToPlaying true true] ++ replicate 5 (Release 0 (mkAnswers true 500 true (true, true) (true, false))) ++
  [Release 0 goodAnswers].

Lemma event_reaches_running_child : exists s s', acts halfStarted (av_sink_init (true, true)) = Some s /\
  fst (sy_running s) = true /\ fst (av_locked (sy_bin s)) = false /\ sh_setupOk (sy_shared s) = false /\ VFail 0 ∈ sy_log s /\
  acts [PadData 0 true false] s = Some s' /\ sy_log s' = sy_log s ++ [VPass 0 0 true].
Proof. eexists _, _. split; [vm_compute; reflexivity|]. split_and!; [done..|set_solver|by vm_compute|done]. Qed.

(** [releaseMedia] can be under way twice: the worker calls it, and so does the
    change to PLAYING when the set-up was published in between.  The second call
    finds no channel, the video sink refuses that, and the session is cancelled. *)
Definition twoCalls : list Action :=
  setup ++ [PausedToPlaying true true; SetupEnds; Release 0 goodAnswers].

Lemma second_call_cancels : exists s s', acts twoCalls (av_sink_init (true, true)) = Some s /\
  sy_tasks s = [Took 0 (Some 7); Queued] /\ sh_setupOk (sy_shared s) = true /\
  acts (replicate 5 (Release 1 goodAnswers)) s = Some s' /\
  sh_setupOk (sy_shared s') = false /\ sy_log s' = sy_log s ++ [VError; VCancel 0; VFail 0].
Proof. eexists _, _. split; [vm_compute; reflexivity|]. by vm_compute. Qed.

(** [resetSession] joins its threads, not the calls in the pool: one that was under
    way goes on with the [Shared] that is deleted. *)
Definition outlived : list Action :=
  twoCalls ++ [Release 0 goodAnswers; PlayingToPaused; PausedToReady; ReadyToNull; ResetSession; Release 0 goodAnswers].

Lemma call_outlives_shared : exists s, acts outlived (av_sink_init (true, true)) = Some s /\ sy_life s = Stale.
Proof. eexists. split; [vm_compute; reflexivity|done]. Qed.

(** Outside a pipeline the change to READY fails, but the session it made stays, and
    the bin takes no channel from the application any more. *)
Lemma refused_open_stays_local ch query : exists s,
  acts [Property (PropSession (Some "p"%string)); NullToReady false 500 true (false, false)] (av_sink_init (true, true)) = Some s /\
  sy_state s = GST_STATE_NULL /\ av_session (sy_bin s) = Some 0%nat /\
  forall s', acts [Property (PropSession None); Adopt ch query] s = Some s' -> sy_child s' = None.
Proof. eexists. split; [vm_compute; reflexivity|]. split_and!; [done|done|]. intros s'. vm_compute. by intros [= <-]. Qed.
