(* ===== verification/GstAvSrc.v ===== *)
(** * framelinkavsrc (gst/gstframelinkavsrc.cpp)

    The consumer's bin over GstAvBin.v.  It releases its children first and reports
    ready afterwards; its pads are watched for EOS, not held.  As in GstAvSink.v a
    state change is one step, except the way to NULL, and the code of the threads is
    cut where it takes or leaves the mutex. *)
From stdpp Require Import strings.
From S2P Require Import Prelude Api Session GstVideo Element GstAudio GstAvBin.
#[local] Open Scope Z_scope.

(** ** Data *)

Record Shared := mkShared {
  sh_setupDone : bool; sh_setupOk : bool; sh_released : bool; sh_readySent : bool; sh_cancelled : bool; sh_playing : bool; sh_failed : bool;
  sh_eos : bool * bool;
  sh_channel : option Z;
}.
Definition newShared : Shared := mkShared false false false false false false false (false, false) None.

Definition set_setup (x : Shared) ok ch := mkShared true ok (sh_released x) (sh_readySent x) (sh_cancelled x) (sh_playing x) (sh_failed x) (sh_eos x) ch.
Definition set_released (x : Shared) := mkShared (sh_setupDone x) (sh_setupOk x) true (sh_readySent x) (sh_cancelled x) (sh_playing x) (sh_failed x) (sh_eos x) (sh_channel x).
Definition set_readySent (x : Shared) v := mkShared (sh_setupDone x) (sh_setupOk x) (sh_released x) v (sh_cancelled x) (sh_playing x) (sh_failed x) (sh_eos x) (sh_channel x).
Definition set_cancelled (x : Shared) := mkShared (sh_setupDone x) (sh_setupOk x) (sh_released x) (sh_readySent x) true (sh_playing x) (sh_failed x) (sh_eos x) (sh_channel x).
Definition set_playing (x : Shared) v := mkShared (sh_setupDone x) (sh_setupOk x) (sh_released x) (sh_readySent x) (sh_cancelled x) v (sh_failed x) (sh_eos x) (sh_channel x).
Definition set_failed (x : Shared) := mkShared (sh_setupDone x) (sh_setupOk x) (sh_released x) (sh_readySent x) (sh_cancelled x) (sh_playing x) true (sh_eos x) (sh_channel x).
Definition set_eos (x : Shared) v := mkShared (sh_setupDone x) (sh_setupOk x) (sh_released x) (sh_readySent x) (sh_cancelled x) (sh_playing x) (sh_failed x) v (sh_channel x).
Definition take_channel (x : Shared) := mkShared (sh_setupDone x) (sh_setupOk x) (sh_released x) (sh_readySent x) (sh_cancelled x) (sh_playing x) (sh_failed x) (sh_eos x) None.

(** The worker of [startWorker]. *)
Inductive Worker :=
| NoWorker
| Opening (caps : flSessionCapabilities)
| WOpened (ok : bool) (ch : option Z)        (* fl_gst_session_open_local_av came back *)
| Published                                  (* it succeeded, [Shared] says so *)
| Awaiting                                   (* releaseMedia is called *)
| Reporting                                  (* the children run: fl_gst_session_local_ready_cancellable *)
| Reported (ok : bool)
| Ending (ok : bool)
| WorkerDone.

(** The thread that reports the drain, and the properties only this bin has. *)
Inductive DrainThread := NoDrainer | DrainWaits | DrainAsks | DrainerDone.
Record SrcThread := mkSrcThread { st_drainer : DrainThread; st_latencyMs : Z; st_nativeMemory : bool }.

Notation AvSrc := (System Shared Worker SrcThread).
Implicit Types (s : AvSrc).

Definition set_drainer (d : SrcThread) v := mkSrcThread v (st_latencyMs d) (st_nativeMemory d).
Definition drainer s v : AvSrc := with_drainer s (set_drainer (sy_drainer s) v).

(** ** [releaseMedia] *)

Definition stopSession s : AvSrc := did (on_shared s set_cancelled) (ofSession s VCancel).

(** One step of one call; [None] is the end of it.  The children take the base time
    the bin has when they start; it is not looked at before, so [Timed] does not
    occur here. *)
Definition releaseMedia (t : Task) (a : Answers) s : option Task * AvSrc :=
  let x := sy_shared s in
  match t with
  | Queued =>
    return_if sh_released x || sh_cancelled x || negb (sh_setupOk x) || negb (sh_playing x) with (None, s) ;;
    (Some (Took (sy_addr s) (sh_channel x)), on_shared s take_channel)
  | Took sh ch =>
    return_if negb (an_clock a) with (Some (Failing sh), did s (closes ch)) ;;
    (Some (Clocked sh ch), s)
  | Clocked sh ch | Timed sh _ ch =>
    return_if negb (av_video (sy_bin s)) with (Some (Adopted sh 0), s) ;;
    return_if negb (adopts s ch (an_query a)) with (Some (Failing sh), did s (closes ch)) ;;
    (Some (Adopted sh 0), adopt s ch)
  | Adopted sh _ =>
    let '(ok, s) := startChildren a s in
    (Some (if ok then Started sh (an_base a) else Failing sh), s)
  | Started sh base =>
    return_if negb (sh =? sy_addr s)%nat with (Some (Started sh base), with_life s Stale) ;;
    (None, did (on_shared s set_released) (ofSession s (fun i => VStart i base)))
  | Failing _ => (None, stopSession (did s [VError]))
  end.

(** ** EOS at the pads, and the drain *)

(** [eosProbe], for EOS *)
Definition eosProbe (track : nat) s : AvSrc :=
  let s := did s (ofSession s (fun i => VChildEos i track)) in
  let s := on_shared s (fun x => set_eos x match track with O => (true, snd (sh_eos x)) | Datatypes.S _ => (fst (sh_eos x), true) end) in
  let x := sy_shared s in
  return_if sh_failed x || (av_video (sy_bin s) && negb (fst (sh_eos x))) || (av_audio (sy_bin s) && negb (snd (sh_eos x)))
            || match st_drainer (sy_drainer s) with NoDrainer => false | _ => true end
    with s ;;
  drainer s DrainWaits.

(** The drainer wakes up: READY was reported, or the session is cancelled. *)
Definition drainerWakes s : AvSrc :=
  let x := sy_shared s in
  return_if sh_failed x || sh_cancelled x with drainer s DrainerDone ;;
  drainer (did s (ofSession s VDrain)) DrainAsks.

(** [fl_gst_session_finish_local_cancellable] is back. *)
Definition drainerEnds (ok : bool) s : AvSrc :=
  let s := if ok then did s (ofSession s VDrained) else if sh_cancelled (sy_shared s) then s else did s [VError] in
  drainer s DrainerDone.

(** [handleMessage], for an ERROR; others only go on. *)
Definition handleMessage s : AvSrc :=
  if av_local (sy_bin s) then on_shared (did s (ofSession s VChildError)) set_failed else s.

(** ** State changes *)

Definition configureChildren s : AvSrc :=
  let b := sy_bin s in
  let p := av_props b in
  did s [VConfigure (if av_video b then Some (vp_width p, vp_height p, vp_videoFormat p, st_nativeMemory (sy_drainer s)) else None)
           (if av_audio b then Some (vp_audioFormat p, vp_rate p, vp_channels p, vp_audioQueueMs p, vp_connectMs p, vp_idleMs p) else None)].

(** [resetSession], when the threads have ended. *)
Definition resetSession s : AvSrc :=
  let s := drainer (with_worker s NoWorker) NoDrainer in
  let s := did s (closes (sh_channel (sy_shared s)) ++ [VReset (length (filter underWay (sy_tasks s)))]) in
  let s := renew s newShared in
  if av_local (sy_bin s) then on_bin (did s (ofSession s VDrop)) (fun b => set_session b None false false)
  else on_bin s (fun b => set_session b (av_session b) false false).

(** The end of [changeState] on the way to NULL, up to [joinThreads]. *)
Definition closing s : AvSrc :=
  let s := stopChildren (stopSession s) in
  with_state (on_bin s (fun b => set_probes b false)) (sy_state s) true.

Definition parentReady (parent : bool) (children : bool * bool) s : AvSrc :=
  let b := sy_bin s in
  let s := with_child s (sy_child s)
             (fst (sy_running s) || (av_video b && negb (fst (av_locked b)) && fst children),
              snd (sy_running s) || (av_audio b && negb (snd (av_locked b)) && snd children)) in
  return_if negb parent with (if av_local b then closing s else s) ;;
  with_state s GST_STATE_READY false.

(** NULL to READY: what can be refused is refused before anything is made. *)
Definition nullToReady (pipeline parent : bool) (children : bool * bool) s : AvSrc :=
  let b := sy_bin s in
  let p := av_props b in
  return_if negb (wantVideo p) && negb (wantAudio p) with did s [VError] ;;
  return_if (wantVideo p && negb (av_video b)) || (wantAudio p && negb (av_audio b)) with did s [VError] ;;
  return_if wantVideo p && (negb (validVideoFormat (vp_videoFormat p)) || negb (truthy (vp_fpsN p)) || negb (truthy (vp_fpsD p)))
    with did s [VError] ;;
  return_if wantAudio p && negb (validAudioFormat (vp_audioFormat p)) with did s [VError] ;;
  let s := configureChildren s in
  return_if negb (nonempty (vp_path p)) with parentReady parent children s ;;
  return_if negb pipeline with did s [VError] ;;
  let s := on_bin (new_session s) (fun b => set_probes (set_locked b (true, true)) true) in
  parentReady parent children (with_worker s (Opening (offered p))).

Definition readyToPaused (parent : bool) s : AvSrc :=
  return_if av_local (sy_bin s) && sh_cancelled (sy_shared s) with did s [VError] ;;
  if parent then with_state s GST_STATE_PAUSED false else s.

Definition pausedToPlaying (clock parent : bool) s : AvSrc :=
  let up s := if (parent : bool) then with_state s GST_STATE_PLAYING false else s in
  return_if negb (av_local (sy_bin s)) with up s ;;
  return_if negb clock with stopSession (did s [VError]) ;;
  let x := sy_shared s in
  let s := on_shared s (fun x => set_playing x true) in
  up (if negb (sh_released x) && (sh_setupDone x && sh_setupOk x) then with_tasks s (sy_tasks s ++ [Queued]) else s).

Definition playingToPaused s : AvSrc :=
  with_state (if av_local (sy_bin s) then on_shared s (fun x => set_playing x false) else s) GST_STATE_PAUSED false.

Definition pausedToReady s : AvSrc := with_state (if av_local (sy_bin s) then stopSession s else s) GST_STATE_READY false.

Definition readyToNull s : AvSrc :=
  if av_local (sy_bin s) then closing s else with_state (stopChildren s) GST_STATE_NULL false.

(** ** Adoption and properties *)

Definition adoptSource (ch : option Z) (query : bool) s : AvSrc :=
  return_if av_local (sy_bin s) || negb (av_video (sy_bin s)) || negb (sy_state s =? GST_STATE_NULL) with s ;;
  snd (adoptChannel ch query (configureChildren s)).

Inductive SrcProperty := Common (k : AvProperty) | PropLatency (v : Z) | PropNative (v : bool).

Definition setSource (k : SrcProperty) s : AvSrc :=
  return_if negb (sy_state s =? GST_STATE_NULL) with s ;;
  let d := sy_drainer s in
  match k with
  | Common k => setProperty k s
  | PropLatency v => with_drainer s (mkSrcThread (st_drainer d) v (st_nativeMemory d))
  | PropNative v => with_drainer s (mkSrcThread (st_drainer d) (st_latencyMs d) v)
  end.

(** ** The system *)

Inductive Action :=
| NullToReady (pipeline parent : bool) (children : bool * bool)
| ReadyToPaused (parent : bool) | PausedToPlaying (clock parent : bool) | PlayingToPaused | PausedToReady
| ReadyToNull | ResetSession
| SetupOpens (ok : bool) (ch : option Z) | SetupPublish | SetupCalls | SetupSees   (* the worker *)
| SetupReports (ok : bool) | SetupReady | SetupEnds
| Release (n : nat) (a : Answers)            (* a call of releaseMedia *)
| PadEos (track : nat) | DrainerWakes | DrainerEnds (ok : bool) | ChildError
| Adopt (ch : option Z) (query : bool) | Property (k : SrcProperty) | Finalize.

(** The worker, from step to step. *)
Definition worker (k : Action) s : option AvSrc :=
  match k, sy_worker s with
  | SetupOpens ok ch, Opening caps =>
    return_if is_some ch && negb (ok && truthy (cap_videoCount caps)) with None ;;    (* LocalSession.v *)
    Some (with_worker (did s (opens ch ++ if ok then ofSession s VSetup else [])) (WOpened ok ch))
  | SetupPublish, WOpened ok ch =>
    Some (with_worker (on_shared s (fun x => set_setup x ok ch)) (if ok then Published else Ending false))
  | SetupCalls, Published => Some (with_worker (with_tasks s (sy_tasks s ++ [Queued])) Awaiting)
  | SetupSees, Awaiting =>
    let x := sy_shared s in
    return_if negb (sh_released x || sh_cancelled x) with None ;;
    Some (with_worker s (if sh_released x then Reporting else Ending false))
  | SetupReports ok, Reporting => Some (with_worker (did s (if ok then ofSession s VReady else [])) (Reported ok))
  | SetupReady, Reported ok => Some (with_worker (on_shared s (fun x => set_readySent x ok)) (Ending ok))
  | SetupEnds, Ending ok =>
    let post := negb ok && negb (sh_cancelled (sy_shared s)) in
    Some (with_worker (did s (if post then [VError] else [])) WorkerDone)
  | _, _ => None
  end.

(** [dispose], the children's end and [finalize]. *)
Definition finalize s : AvSrc :=
  let s := stopSession s in
  let s := did s (closes (sy_child s) ++ closes (sh_channel (sy_shared s)) ++ ofSession s VDrop) in
  with_life (with_child (on_shared s take_channel) None (false, false)) Gone.

Definition joined s : bool :=
  match sy_worker s with NoWorker | WorkerDone => true | _ => false end
  && match st_drainer (sy_drainer s) with NoDrainer | DrainerDone => true | _ => false end.

(** [None]: there is no such step now, as in GstAvSink.v. *)
Definition act (k : Action) s : option AvSrc :=
  let changes state s' := return_if negb (sy_state s =? state) || sy_stopping s with None ;; Some (s' : AvSrc) in
  match k with
  | NullToReady pipeline parent children => changes GST_STATE_NULL (nullToReady pipeline parent children s)
  | ReadyToPaused parent => changes GST_STATE_READY (readyToPaused parent s)
  | PausedToPlaying clock parent => changes GST_STATE_PAUSED (pausedToPlaying clock parent s)
  | PlayingToPaused => changes GST_STATE_PLAYING (playingToPaused s)
  | PausedToReady => changes GST_STATE_PAUSED (pausedToReady s)
  | ReadyToNull => changes GST_STATE_READY (readyToNull s)
  | ResetSession =>
    return_if negb (sy_stopping s && joined s) with None ;; Some (with_state (resetSession s) GST_STATE_NULL false)
  | Release n a =>
    match sy_tasks s !! n with
    | None => None
    | Some t => let '(t', s') := releaseMedia t a s in Some (with_tasks s' (goesOn (sy_tasks s') n t'))
    end
  | PadEos track => return_if negb (av_probes (sy_bin s)) with None ;; Some (eosProbe track s)
  | DrainerWakes =>
    match st_drainer (sy_drainer s) with
    | DrainWaits => return_if negb (sh_readySent (sy_shared s) || sh_cancelled (sy_shared s)) with None ;; Some (drainerWakes s)
    | _ => None
    end
  | DrainerEnds ok => match st_drainer (sy_drainer s) with DrainAsks => Some (drainerEnds ok s) | _ => None end
  | ChildError => Some (handleMessage s)
  | Adopt ch query => Some (adoptSource ch query s)
  | Property p => Some (setSource p s)
  | Finalize => return_if negb (sy_state s =? GST_STATE_NULL) || sy_stopping s || negb (match sy_tasks s with [] => true | _ => false end)
                with None ;; Some (finalize s)
  | _ => worker k s
  end.

Definition avSrcProps : AvProps :=
  mkAvProps None (Some "av"%string) (Some "BGRA"%string) (Some "S16LE"%string) 1280 720 30 1 48000 2 15000 15000 80 2 8.

(** [gst_framelink_av_src_init] *)
Definition av_src_init (plugins : bool * bool) : AvSrc :=
  mkSystem (mkAvBin avSrcProps (fst plugins) (snd plugins) None false false false (false, false)) 0 newShared
    GST_STATE_NULL false NoWorker (mkSrcThread NoDrainer 150 false) [] None (false, false) 0 Alive [].

(** A run, as in GstAvSink.v. *)
Inductive reachable (plugins : bool * bool) : AvSrc -> Prop :=
| reachable_init : reachable plugins (av_src_init plugins)
| reachable_step s k s' : reachable plugins s -> sy_life s = Alive -> act k s = Some s' -> reachable plugins s'.

Fixpoint acts (l : list Action) s : option AvSrc :=
  match l with
  | [] => Some s
  | k :: l => if decide (sy_life s = Alive) then s' ← act k s; acts l s' else None
  end.
