(* ===== verification/GstAvSrcGate.v ===== *)
(** * What framelinkavsrc reports

    The consumer says that it is ready, and that it has drained the session, only
    when that is so: over every interleaving of the steps of GstAvSrc.v. *)
From stdpp Require Import strings.
From S2P Require Import Prelude Api Session GstVideo Element GstAudio GstAvBin GstAvStart GstAvSrc.
#[local] Open Scope Z_scope.
Implicit Types (s : System Shared Worker SrcThread).

(** ** What it starts

    A call of [releaseMedia] ends well only when it started the children of the
    session: the invariant of GstAvStart.v. *)

Definition srcIdle (w : Worker) : bool := match w with NoWorker => true | _ => false end.
Notation kids := (kids (SH := Shared) (W := Worker) (D := SrcThread) srcIdle sh_setupOk sh_cancelled).
Notation made := (made (SH := Shared) (W := Worker) (D := SrcThread)).

Lemma src_kids_closes s w : kids s -> srcIdle w = srcIdle (sy_worker s) \/ srcIdle w = false /\ made s -> kids (closing (with_worker s w)).
Proof.
  intros Hk Hw. apply (kids_closing _ _ _ s set_cancelled (fun b => set_probes (set_locked b (false, false)) false) w) in Hk; try done.
  apply (kids_did _ _ _ _ (ofSession s VCancel ++ if fst (sy_running s) then closes (sy_child s) else [])) in Hk.
  apply (kids_child _ _ _ _ (if fst (sy_running s) then None else sy_child s) (false, false)) in Hk.
  unfold closing, stopChildren, stopSession. simpl. destruct (fst (sy_running s)); [|rewrite app_nil_r in Hk; exact Hk].
  unfold did in *. simpl in *. rewrite app_assoc in Hk. exact Hk.
Qed.

Lemma src_kids_parentReady parent children s w : kids s -> sy_state s = GST_STATE_NULL -> sy_stopping s = false ->
  srcIdle w = true \/ srcIdle w = false /\ made s -> kids (parentReady parent children (with_worker s w)).
Proof.
  intros Hk En Es Hw. unfold parentReady. simpl. set (run := (_, _)).
  pose proof (k_rest _ _ _ _ Hk En Es) as Hi. pose proof (kids_child _ _ _ _ (sy_child s) run Hk) as Hx.
  destruct parent; simpl; [apply (kids_ready _ _ _ _ w) in Hx; [exact Hx|destruct Hw; auto]|].
  destruct (av_local (sy_bin s)) eqn:El.
  - apply (src_kids_closes _ w) in Hx; [exact Hx|]. destruct Hw as [E|]; [left; simpl; congruence|by right].
  - assert (srcIdle w = true) as E.
    { destruct Hw as [|[_ (i & Ei & _)]]; [done|]. pose proof (k_local _ _ _ _ Hk) as H. rewrite El, Ei in H. done. }
    assert (w = sy_worker s) as -> by (by destruct w, (sy_worker s)). exact Hx.
Qed.

Lemma src_kids_error s : kids s -> kids (did s [VError]).
Proof. apply kids_did. Qed.

Lemma src_kids_nullToReady pipeline parent children s : kids s -> sy_state s = GST_STATE_NULL -> sy_stopping s = false ->
  kids (nullToReady pipeline parent children s).
Proof.
  intros Hk En Es. pose proof src_kids_error as He. unfold nullToReady.
  destruct (_ && negb (wantAudio _)); [auto|]. destruct (_ || _ && negb (av_audio _)); [auto|].
  destruct (wantVideo _ && (_ || _)); [auto|]. destruct (wantAudio _ && negb (validAudioFormat _)); [auto|].
  unfold configureChildren. set (l := [VConfigure _ _]). pose proof (kids_did _ _ _ _ l Hk) as Hc.
  destruct (negb (nonempty _)).
  { pose proof (src_kids_parentReady parent children _ NoWorker Hc En Es (or_introl eq_refl)) as H. pose proof (k_rest _ _ _ _ Hk En Es) as Ew.
    destruct s as [b ad x st sp w d lt ch run n li lg]. simpl in *. by destruct w. }
  destruct pipeline; simpl; [|by apply He].
  pose proof (kids_new _ _ _ _ Hc En) as Hn.
  apply (kids_bin _ _ _ _ (fun b => set_probes (set_locked b (true, true)) true)) in Hn; [|done].
  apply src_kids_parentReady; try done. right. split; [done|]. exists (sy_sessions s). split; [done|]. simpl. set_solver.
Qed.

Lemma src_kids_worker_acts k s s' : kids s -> worker k s = Some s' -> kids s'.
Proof.
  intros Hk H. unfold worker in H. destruct k; try discriminate; destruct (sy_worker s) as [|caps|ok' ch'| | | |ok'|ok'|] eqn:Ew; try discriminate.
  all: assert (forall w, srcIdle w = false -> kids (with_worker s w)) as Hw by (intros w Ei; apply kids_worker; [done|by rewrite Ew|done]).
  - destruct (_ && negb _); [done|]. injection H as <-. exact (kids_did _ _ _ _ _ (Hw (WOpened ok ch) eq_refl)).
  - injection H as <-. set (w := if ok' then _ else _). pose proof (Hw w ltac:(by destruct ok')) as Hx.
    apply (kids_shared _ _ _ _ (fun x => set_setup x ok' ch')) in Hx; [exact Hx|done|]. right. by destruct ok'.
  - injection H as <-. exact (kids_enqueue _ _ _ _ (Hw Awaiting eq_refl)).
  - destruct (negb _); [done|]. injection H as <-. apply Hw. by destruct (sh_released _).
  - injection H as <-. exact (kids_did _ _ _ _ _ (Hw (Reported ok) eq_refl)).
  - injection H as <-. pose proof (Hw (Ending ok') eq_refl) as Hx.
    by apply (kids_shared _ _ _ _ (fun x => set_readySent x ok')) in Hx; [|done|left].
  - injection H as <-. exact (kids_did _ _ _ _ _ (Hw WorkerDone eq_refl)).
Qed.

Lemma src_kids_stopSession s : kids s -> kids (stopSession s).
Proof. intros Hk. apply kids_did, kids_shared; [done|done|by left]. Qed.

(** A call under way makes a step. *)
Lemma src_kids_release s n t a : sy_tasks s !! n = Some t -> kids s ->
  kids (with_tasks (releaseMedia t a s).2 (goesOn (sy_tasks (releaseMedia t a s).2) n (releaseMedia t a s).1)).
Proof.
  intros Hn Hk. pose proof (fun l => kids_did _ _ _ _ l Hk) as Hl. pose proof (kids_life _ _ _ _ Stale Hk) as Hst.
  assert (forall x t', kids x -> sy_tasks x !! n = Some t -> underWay t = true -> address t' = address t -> (forall sh b, t' <> Started sh b) ->
    kids (with_tasks x (<[n := t']> (sy_tasks x)))) as Hgo by (intros; by eapply kids_goes).
  destruct t as [|sh ch|sh ch|sh base ch|sh base|sh base|sh]; simpl.
  - destruct (_ || negb (sh_playing _)) eqn:E; simpl; [by apply kids_ends|].
    rewrite !orb_false_iff, negb_false_iff in E. destruct E as [[[_ E1] E2] _]. by apply kids_takes.
  - destruct (negb (an_clock a)); simpl; [by apply (Hgo (did s (closes ch)))|by apply Hgo].
  - destruct (negb (av_video _)); simpl; [by apply Hgo|]. destruct (negb (adopts _ _ _)); simpl; [by apply (Hgo (did s (closes ch)))|].
    apply (Hgo (adopt s ch)); try done. by apply kids_child.
  - destruct (negb (av_video _)); simpl; [by apply Hgo|]. destruct (negb (adopts _ _ _)); simpl; [by apply (Hgo (did s (closes ch)))|].
    apply (Hgo (adopt s ch)); try done. by apply kids_child.
  - destruct (start_children a s) as (v & run & l & E & _).
    pose proof (kids_starts _ _ _ a s n _ (if (startChildren a s).1 then Started sh (an_base a) else Failing sh) Hk Hn eq_refl) as Hx.
    destruct (startChildren a s) as [ok s']. simpl in *. subst s'. destruct ok; apply Hx; try done. by intros (? & ? & ?).
  - destruct (negb (sh =? sy_addr s)%nat); simpl; [|].
    + apply kids_tasks; [done|]. intros x [?|[= <-]]%(goesOn_elem _ n (Some (Started sh base))) _; [by left|left].
      by eapply list_elem_of_lookup_2.
    + pose proof (kids_ends _ _ _ _ n Hk) as Hx. apply (kids_shared _ _ _ _ set_released) in Hx; [|done|by left].
      exact (kids_did _ _ _ _ _ Hx).
  - apply (kids_ends _ _ _ _ n), src_kids_error, src_kids_stopSession in Hk. exact Hk.
Qed.

Lemma src_kids_property p s : kids s -> kids (setProperty p s).
Proof.
  intros Hk. unfold setProperty. destruct (negb _) eqn:E; [done|]. apply negb_false_iff, Z.eqb_eq in E.
  apply (kids_bin _ _ _ _ (fun b => set_props b (assign p (av_props b)))) in Hk; [|done].
  destruct p; try done. destruct (_ || _ || _); [|done]. by apply kids_rebuild.
Qed.

Lemma src_kids_reset s : kids s -> kids (with_state (resetSession s) GST_STATE_NULL false).
Proof.
  intros Hk. pose proof (k_local _ _ _ _ Hk) as El. unfold resetSession. simpl.
  assert (forall t, t ∈ sy_tasks s -> underWay t = true -> (address t < sy_addr s + 1)%nat) as Hb.
  { intros t H1 H2. destruct (k_calls _ _ _ _ Hk t H1 H2). lia. }
  destruct (av_local (sy_bin s)); apply kids_fresh; simpl; try done.
Qed.

Lemma src_kids_act k s s' : kids s -> act k s = Some s' -> kids s'.
Proof.
  intros Hk H. destruct k; try exact (src_kids_worker_acts _ _ _ Hk H). all: simpl in H.
  1-6: destruct (_ || sy_stopping s) eqn:E; [done|]; injection H as <-; rewrite orb_false_iff, negb_false_iff, Z.eqb_eq in E; destruct E as [E1 E2].
  2-6: assert (sy_state s <> GST_STATE_NULL) as Hn by (by rewrite E1).
  - by apply src_kids_nullToReady.
  - unfold readyToPaused. destruct (_ && _); [by apply src_kids_error|]. destruct parent; [by apply kids_state|done].
  - unfold pausedToPlaying. destruct (negb (av_local _)); [destruct parent; [by apply kids_state|done]|].
    destruct (negb clock); [by apply src_kids_stopSession, src_kids_error|].
    apply (kids_shared _ _ _ _ (fun x => set_playing x true)) in Hk; [|done|by left]. apply kids_enqueue in Hk as Hq.
    destruct (_ && (_ && _)), parent; try apply kids_state; done.
  - unfold playingToPaused. apply kids_state; [|by destruct (av_local _)|done]. destruct (av_local _); [|done]. apply kids_shared; [done|done|by left].
  - unfold pausedToReady. apply kids_state; [|by destruct (av_local _)|done]. destruct (av_local _); [by apply src_kids_stopSession|done].
  - unfold readyToNull. destruct (av_local _) eqn:El.
    + apply (src_kids_closes _ (sy_worker s)) in Hk; [|by left]. by destruct s.
    + apply (kids_child _ _ _ _ (if fst (sy_running s) then None else sy_child s) (false, false)),
        (kids_did _ _ _ _ (if fst (sy_running s) then closes (sy_child s) else [])),
        (kids_bin _ _ _ _ (fun b => set_locked b (false, false))), kids_thin in Hk; try done.
      unfold stopChildren. destruct (fst (sy_running s)); [exact Hk|]. unfold did in Hk. simpl in Hk. rewrite app_nil_r in Hk. exact Hk.
  - destruct (negb (_ && _)); [done|]. injection H as <-. by apply src_kids_reset.
  - destruct (sy_tasks s !! n) as [t|] eqn:En; [|done]. pose proof (src_kids_release s n t a En Hk) as Hr.
    destruct (releaseMedia t a s) as [t' x]. by injection H as <-.
  - destruct (negb _); [done|]. injection H as <-. unfold eosProbe. set (x := on_shared _ _).
    assert (kids x) by (apply kids_shared; [by apply kids_did|done|by left]). destruct (_ || _); [done|by apply kids_drainer].
  - destruct (st_drainer _); try done. destruct (negb _); [done|]. injection H as <-. unfold drainerWakes.
    destruct (_ || _); apply kids_drainer; [done|by apply kids_did].
  - destruct (st_drainer _); try done. injection H as <-. unfold drainerEnds. apply kids_drainer.
    destruct ok; [by apply kids_did|]. destruct (sh_cancelled _); [done|by apply src_kids_error].
  - injection H as <-. unfold handleMessage. destruct (av_local _); [|done]. apply kids_shared; [by apply kids_did|done|by left].
  - injection H as <-. unfold adoptSource. destruct (_ || _ || _); [done|]. unfold adoptChannel.
    assert (kids (configureChildren s)) by by apply kids_did.
    destruct (_ || _ || _); [done|]. destruct (negb (adopts _ _ _)); [done|]. by apply kids_child, kids_did.
  - injection H as <-. unfold setSource. destruct (negb _); [done|]. destruct k; [by apply src_kids_property|by apply kids_drainer..].
  - destruct (_ || _ || _); [done|]. injection H as <-. unfold finalize.
    apply kids_life, kids_child, kids_shared; [|done|by left]. by apply kids_did, src_kids_stopSession.
Qed.

Lemma src_kids_init plugins : kids (av_src_init plugins).
Proof. apply kids_fresh; try done. intros t Ht. by apply not_elem_of_nil in Ht. Qed.

(** ** The order of the log *)

(** Every pad of the session has had EOS. *)
Definition allEos (i : nat) (l : list AvDid) : Prop :=
  exists tr, VSession i tr ∈ l /\ (fst tr = true -> VChildEos i 0 ∈ l) /\ (snd tr = true -> exists t, VChildEos i (Datatypes.S t) ∈ l).

Definition reports (l : list AvDid) (d : AvDid) : Prop :=
  match d with
  | VStart i _ => VSetup i ∈ l /\ allStarted i l
  | VReady i => exists base, VStart i base ∈ l
  | VDrain i => VReady i ∈ l /\ allEos i l /\ VChildError i ∉ l
  | VDrained i => VDrain i ∈ l
  | _ => True
  end.

(** Entries that need nothing. *)
Definition free (d : AvDid) : Prop := match d with VStart _ _ | VReady _ | VDrain _ | VDrained _ | VChildError _ => False | _ => True end.

Lemma free_ofSession s f : (forall i, free (f i)) -> Forall free (ofSession s f).
Proof. intros Hf. unfold ofSession. destruct (av_session (sy_bin s)); auto. Qed.

Lemma inOrder_free l k : inOrder reports l -> Forall free k -> inOrder reports (l ++ k).
Proof. intros Hl Hk. apply inOrder_app; [done|]. eapply Forall_impl; [exact Hk|]. intros [] Hp l'; simpl; done. Qed.

Lemma free_no_error l i : Forall free l -> VChildError i ∉ l.
Proof. intros Hl Hi. rewrite Forall_forall in Hl. by apply Hl in Hi. Qed.

Lemma allEos_grows i l k : allEos i l -> allEos i (l ++ k).
Proof.
  intros (tr & H1 & H2 & H3). exists tr. split_and!; [apply elem_of_app; by left|intros E; apply elem_of_app; left; auto|].
  intros E. destruct (H3 E) as [t Ht]. exists t. apply elem_of_app. by left.
Qed.

(** ** The invariant *)

Definition goodCall s (t : Task) : Prop :=
  (address t <= sy_addr s)%nat /\ (address t = sy_addr s -> ofNow s (fun i => VSetup i ∈ sy_log s)).

Definition says (d : nat -> AvDid) s : Prop := ofNow s (fun i => d i ∈ sy_log s).
Definition started s : Prop := ofNow s (fun i => exists base, VStart i base ∈ sy_log s).
Definition sawEos (track : bool) s : Prop :=
  ofNow s (fun i => if track then VChildEos i 0 ∈ sy_log s else exists t, VChildEos i (Datatypes.S t) ∈ sy_log s).

Definition workerSays s : Prop :=
  match sy_worker s with
  | WOpened ok _ => ok = true -> says VSetup s
  | Published | Awaiting => says VSetup s
  | Reporting => started s
  | Reported ok => ok = true -> says VReady s
  | _ => True
  end.

Definition drainSays s : Prop :=
  match st_drainer (sy_drainer s) with
  | DrainWaits => ofNow s (fun i => allEos i (sy_log s))
  | DrainAsks => says VDrain s
  | _ => True
  end.

(** In NULL nothing is left of a session. *)
Record resting s : Prop := {
  r_worker : sy_worker s = NoWorker;
  r_setup : sh_setupOk (sy_shared s) = false; r_released : sh_released (sy_shared s) = false;
  r_ready : sh_readySent (sy_shared s) = false; r_eos : sh_eos (sy_shared s) = (false, false);
  r_drainer : st_drainer (sy_drainer s) <> DrainWaits /\ st_drainer (sy_drainer s) <> DrainAsks;
  r_calls : forall t, t ∈ sy_tasks s -> underWay t = true -> address t <> sy_addr s;
}.

Record honest s : Prop := {
  h_order : inOrder reports (sy_log s);
  h_local : av_local (sy_bin s) = is_some (av_session (sy_bin s));
  h_ids : (forall i, VChildError i ∈ sy_log s -> (i < sy_sessions s)%nat) /\ (forall i, av_session (sy_bin s) = Some i -> (i < sy_sessions s)%nat);
  h_worker : workerSays s;
  h_thread : sy_worker s <> NoWorker -> is_some (av_session (sy_bin s)) = true;
  h_setup : sh_setupOk (sy_shared s) = true -> says VSetup s;
  h_released : sh_released (sy_shared s) = true -> started s;
  h_ready : sh_readySent (sy_shared s) = true -> says VReady s;
  h_failed : sh_failed (sy_shared s) = false -> forall i, av_session (sy_bin s) = Some i -> VChildError i ∉ sy_log s;
  h_eos : (fst (sh_eos (sy_shared s)) = true -> sawEos true s) /\ (snd (sh_eos (sy_shared s)) = true -> sawEos false s);
  h_probes : av_probes (sy_bin s) = true -> (sy_state s <> GST_STATE_NULL /\ sy_stopping s = false) /\
    ofNow s (fun i => VSession i (av_video (sy_bin s), av_audio (sy_bin s)) ∈ sy_log s);
  h_drain : drainSays s;
  h_calls : forall t, t ∈ sy_tasks s -> underWay t = true -> goodCall s t;
  h_idle : sy_state s = GST_STATE_NULL -> sy_stopping s = false -> resting s;
}.

(** ** A step within the session *)

Record after s s' (l : list AvDid) : Prop := {
  a_log : sy_log s' = sy_log s ++ l;
  a_session : av_session (sy_bin s') = av_session (sy_bin s);
  a_local : av_local (sy_bin s') = av_local (sy_bin s);
  a_addr : sy_addr s' = sy_addr s;
  a_sessions : sy_sessions s' = sy_sessions s;
}.

Section After.
Context (s s' : System Shared Worker SrcThread) (l : list AvDid) (Ha : after s s' l).

Lemma ofNow_after P Q : (forall i, P i -> Q i) -> ofNow s P -> ofNow s' Q.
Proof. intros H (i & H1 & H2). exists i. destruct Ha as [_ -> _ _ _]. auto. Qed.

Lemma in_after d : d ∈ sy_log s -> d ∈ sy_log s'.
Proof. destruct Ha as [-> _ _ _ _]. intros H. apply elem_of_app. by left. Qed.

Lemma says_after d : says d s -> says d s'.
Proof. apply ofNow_after. intros i. apply in_after. Qed.

Lemma started_after : started s -> started s'.
Proof. apply ofNow_after. intros i [b Hb]. exists b. by apply in_after. Qed.

Lemma sawEos_after track : sawEos track s -> sawEos track s'.
Proof. apply ofNow_after. intros i. destruct track; [apply in_after|]. intros [t Ht]. exists t. by apply in_after. Qed.

Lemma honestCall_after t : goodCall s t -> goodCall s' t.
Proof. intros [H1 H2]. unfold goodCall. destruct Ha as [_ _ _ E _]. rewrite E. split; [done|]. intros E1. apply (says_after VSetup), H2, E1. Qed.

Lemma srcWorker_after : sy_worker s' = sy_worker s -> workerSays s -> workerSays s'.
Proof.
  unfold workerSays. intros ->. destruct (sy_worker s); auto using says_after, started_after.
Qed.

Lemma srcDrain_after : st_drainer (sy_drainer s') = st_drainer (sy_drainer s) -> drainSays s -> drainSays s'.
Proof.
  unfold drainSays. intros ->. destruct (st_drainer (sy_drainer s)); auto using says_after.
  apply ofNow_after. intros i Hi. destruct Ha as [-> _ _ _ _]. by apply allEos_grows.
Qed.

(** What such a step has to show of what it changes. *)
Record within : Prop := {
  w_order : inOrder reports (sy_log s');
  w_errors : forall i, VChildError i ∈ l -> av_session (sy_bin s) = Some i /\ sh_failed (sy_shared s') = true;
  w_worker : sy_worker s' = sy_worker s \/ sy_worker s <> NoWorker /\ workerSays s';
  w_setup : sh_setupOk (sy_shared s') = true -> sh_setupOk (sy_shared s) = true \/ says VSetup s';
  w_released : sh_released (sy_shared s') = true -> sh_released (sy_shared s) = true \/ started s';
  w_ready : sh_readySent (sy_shared s') = true -> sh_readySent (sy_shared s) = true \/ says VReady s';
  w_failed : sh_failed (sy_shared s') = false -> sh_failed (sy_shared s) = false;
  w_eos0 : fst (sh_eos (sy_shared s')) = true -> fst (sh_eos (sy_shared s)) = true \/ sawEos true s';
  w_eos1 : snd (sh_eos (sy_shared s')) = true -> snd (sh_eos (sy_shared s)) = true \/ sawEos false s';
  w_probes : av_probes (sy_bin s') = true -> av_probes (sy_bin s) = true /\ (sy_state s' <> GST_STATE_NULL /\ sy_stopping s' = false) /\
    av_video (sy_bin s') = av_video (sy_bin s) /\ av_audio (sy_bin s') = av_audio (sy_bin s);
  w_drain : st_drainer (sy_drainer s') = st_drainer (sy_drainer s) \/ drainSays s';
  w_calls : forall t, t ∈ sy_tasks s' -> underWay t = true -> t ∈ sy_tasks s \/ goodCall s' t;
  w_idle : sy_state s' = GST_STATE_NULL -> sy_stopping s' = false -> sy_state s = GST_STATE_NULL /\ sy_stopping s = false /\ (resting s -> resting s');
}.

Lemma honest_within : honest s -> within -> honest s'.
Proof.
  intros H [W1 W2 W3 W4 W5 W6 W7 W8 W9 W10 W11 W12 W13]. pose proof Ha as [El Es Elo Ead Ese]. destruct H as [Ho Hl [Hi1 Hi2] Hw Ht Hs Hr Hy Hf [He1 He2] Hp Hd Hc Hi].
  constructor; try done.
  - congruence.
  - rewrite Ese, Es, El. split; [|done]. intros i [H|H]%elem_of_app; [auto|]. apply Hi2. by apply W2.
  - destruct W3 as [E|[_ E]]; [by apply srcWorker_after|done].
  - rewrite Es. destruct W3 as [E|[E _]]; [by rewrite E|auto].
  - intros E. destruct (W4 E); [by apply says_after, Hs|done].
  - intros E. destruct (W5 E); [by apply started_after, Hr|done].
  - intros E. destruct (W6 E); [by apply says_after, Hy|done].
  - intros E i Hn. rewrite El. intros [H|H]%elem_of_app; [by apply (Hf (W7 E) i); [congruence|]|]. destruct (W2 i H). congruence.
  - split; intros E; [destruct (W8 E) as [E1|]; [apply sawEos_after, He1, E1|done]|destruct (W9 E) as [E1|]; [apply sawEos_after, He2, E1|done]].
  - intros E. destruct (W10 E) as (E1 & E2 & E3 & E4). split; [done|]. rewrite E3, E4. destruct (Hp E1) as [_ H].
    revert H. apply ofNow_after. intros i. apply in_after.
  - destruct W11 as [E|E]; [by apply srcDrain_after|done].
  - intros t H1 H2. destruct (W12 t H1 H2); [by apply honestCall_after, Hc|done].
  - intros E1 E2. destruct (W13 E1 E2) as (E3 & E4 & E5). auto.
Qed.
End After.

(** ** Steps that report nothing *)

Definition sameFlags (x y : Shared) : Prop :=
  sh_released y = sh_released x /\ sh_readySent y = sh_readySent x /\ sh_failed y = sh_failed x /\ sh_eos y = sh_eos x /\
  (sh_setupOk y = true -> sh_setupOk x = true).

Record quiet s s' (l : list AvDid) : Prop := {
  q_after : after s s' l;
  q_free : Forall free l;
  q_worker : sy_worker s' = sy_worker s;
  q_drainer : st_drainer (sy_drainer s') = st_drainer (sy_drainer s);
  q_flags : sameFlags (sy_shared s) (sy_shared s');
  q_probes : av_probes (sy_bin s') = true -> av_probes (sy_bin s) = true /\ (sy_state s' <> GST_STATE_NULL /\ sy_stopping s' = false) /\
    av_video (sy_bin s') = av_video (sy_bin s) /\ av_audio (sy_bin s') = av_audio (sy_bin s);
  q_calls : forall t, t ∈ sy_tasks s' -> underWay t = true -> t ∈ sy_tasks s;
  q_idle : sy_state s' = GST_STATE_NULL -> sy_stopping s' = false -> sy_state s = GST_STATE_NULL /\ sy_stopping s = false;
}.

Lemma resting_quiet s s' l : quiet s s' l -> resting s -> resting s'.
Proof.
  intros [[_ _ _ Ead _] _ Ew Ed (F1 & F2 & F3 & F4 & F5) _ Hc _] [R1 R2 R3 R4 R5 R6 R7].
  constructor; rewrite ?Ew, ?Ed, ?F1, ?F2, ?F4, ?Ead; try done; [|auto].
  destruct (sh_setupOk (sy_shared s')); [|done]. rewrite <- R2. symmetry. auto.
Qed.

Lemma honest_quiet s s' l : honest s -> quiet s s' l -> honest s'.
Proof.
  intros Hg Hq. pose proof (resting_quiet _ _ _ Hq) as Hr. destruct Hq as [Ha Hl Ew Ed (F1 & F2 & F3 & F4 & F5) Hp Hc Hi].
  eapply (honest_within _ _ l Ha Hg). constructor; rewrite ?F1, ?F2, ?F3, ?F4; auto.
  - destruct Ha as [-> _ _ _ _]. by apply inOrder_free; [apply (h_order _ Hg)|].
  - intros i H. by apply free_no_error in H.
  - intros E1 E2. destruct (Hi E1 E2). done.
Qed.

Lemma probes_here s : honest s -> av_probes (sy_bin s) = true -> av_probes (sy_bin s) = true /\ (sy_state s <> GST_STATE_NULL /\ sy_stopping s = false) /\
  av_video (sy_bin s) = av_video (sy_bin s) /\ av_audio (sy_bin s) = av_audio (sy_bin s).
Proof. intros Hg E. by destruct (h_probes _ Hg E). Qed.

Lemma sameFlags_refl x : sameFlags x x.
Proof. by split_and!. Qed.

#[local] Hint Resolve sameFlags_refl probes_here : honest.
Ltac quietly Hg l :=
  eapply (honest_quiet _ _ l Hg); constructor; [constructor|..]; simpl; rewrite ?app_nil_r; eauto with honest.

Lemma honest_says s l : Forall free l -> honest s -> honest (did s l).
Proof. intros Hl Hg. quietly Hg l. Qed.

Lemma honest_state s state stopping : honest s -> ((state <> GST_STATE_NULL /\ stopping = false) \/ av_probes (sy_bin s) = false) ->
  (state = GST_STATE_NULL -> stopping = false -> sy_state s = GST_STATE_NULL /\ sy_stopping s = false) -> honest (with_state s state stopping).
Proof. intros Hg Hn Hi. quietly Hg (@nil AvDid). intros E. destruct Hn; [done|congruence]. Qed.

Lemma honest_shared s f : honest s -> (forall x, sameFlags x (f x)) -> honest (on_shared s f).
Proof. intros Hg Hf. quietly Hg (@nil AvDid). Qed.

Lemma honest_bin s f : honest s -> (forall b, av_local (f b) = av_local b /\ av_session (f b) = av_session b) ->
  (av_probes (f (sy_bin s)) = true -> av_probes (sy_bin s) = true /\
    av_video (f (sy_bin s)) = av_video (sy_bin s) /\ av_audio (f (sy_bin s)) = av_audio (sy_bin s)) -> honest (on_bin s f).
Proof.
  intros Hg F Hp. destruct (F (sy_bin s)). quietly Hg (@nil AvDid). intros E. destruct (Hp E) as (E1 & E2 & E3).
  destruct (h_probes _ Hg E1) as [[? ?] _]. by split_and!.
Qed.

Lemma honest_child s ch run : honest s -> honest (with_child s ch run).
Proof. intros Hg. quietly Hg (@nil AvDid). Qed.

Lemma honest_life s v : honest s -> honest (with_life s v).
Proof. intros Hg. quietly Hg (@nil AvDid). Qed.

Lemma honest_tasks s l : honest s -> (forall t, t ∈ l -> underWay t = true -> t ∈ sy_tasks s) -> honest (with_tasks s l).
Proof. intros Hg Hl. quietly Hg (@nil AvDid). Qed.

Lemma honest_enqueue s : honest s -> honest (with_tasks s (sy_tasks s ++ [Queued])).
Proof. intros Hg. apply honest_tasks; [done|]. intros t [?| ->%list_elem_of_singleton]%elem_of_app; done. Qed.

Lemma honest_stopSession s : honest s -> honest (stopSession s).
Proof. intros Hg. apply honest_says; [by apply free_ofSession|]. apply honest_shared; [done|]. by intros x; split_and!. Qed.

Lemma honest_stopChildren s : honest s -> honest (stopChildren s).
Proof.
  intros Hg. unfold stopChildren. apply honest_bin; [|done|done]. destruct (fst (sy_running s)); apply honest_child; [|done].
  apply honest_says; [by destruct (sy_child s); constructor|done].
Qed.

(** The children stop, the probes go, the threads are waited for. *)
Lemma honest_closing s : honest s -> honest (closing s).
Proof.
  intros Hg. unfold closing. apply honest_state; [|by right|done]. apply honest_bin; [|done|done].
  by apply honest_stopChildren, honest_stopSession.
Qed.

(** ** From NULL to READY *)

(** A state that is not at rest, with a worker that starts. *)
Lemma honest_opening s caps state stopping : honest s -> is_some (av_session (sy_bin s)) = true ->
  ((state <> GST_STATE_NULL /\ stopping = false) \/ av_probes (sy_bin s) = false) -> (state = GST_STATE_NULL -> stopping = true) ->
  honest (with_state (with_worker s (Opening caps)) state stopping).
Proof.
  intros Hg Hs Hn Hst. apply (honest_state s state stopping) in Hg; [|done|intros E E'; rewrite Hst in E'; done].
  destruct Hg. constructor; try done. simpl in *. intros E1 E2. by rewrite Hst in E2.
Qed.

Lemma honest_parentReady parent children s : honest s -> sy_state s = GST_STATE_NULL -> honest (parentReady parent children s).
Proof.
  intros Hg En. unfold parentReady. set (x := with_child _ _ _). assert (honest x) as Hx by by apply honest_child.
  assert (av_probes (sy_bin s) = false) as Ep by (destruct (av_probes (sy_bin s)) eqn:E; [by destruct (h_probes _ Hg E) as [[? _] _]|done]).
  destruct parent; simpl; [by apply honest_state; [|left|]|]. destruct (av_local _); [|done]. by apply honest_closing.
Qed.

(** A new session: nothing was logged of it. *)
Lemma honest_new s : honest s -> sy_state s = GST_STATE_NULL -> sy_stopping s = false -> honest (new_session s).
Proof.
  intros [Ho Hl [Hi1 Hi2] Hw Ht Hs Hr Hy Hf He Hp Hd Hc Hi] En Es. destruct (Hi En Es) as [R1 R2 R3 R4 R5 [R6 R7] R8].
  constructor; simpl; try done.
  - apply inOrder_free; [done|by constructor].
  - split; [|intros i [= <-]; lia]. intros i [H|H%list_elem_of_singleton]%elem_of_app; [|done]. specialize (Hi1 i H). lia.
  - unfold workerSays. simpl. by rewrite R1.
  - congruence.
  - congruence.
  - congruence.
  - intros _ i [= <-] [H|H%list_elem_of_singleton]%elem_of_app; [|done]. specialize (Hi1 _ H). lia.
  - by rewrite R5.
  - intros E. by destruct (Hp E) as [[? _] _].
  - unfold drainSays in *. simpl. by destruct (st_drainer _).
  - intros t H1 H2. destruct (Hc t H1 H2) as [H3 _]. split; [done|]. intros E. by destruct (R8 t H1 H2).
Qed.

Lemma honest_openReady parent children caps s : honest s -> sy_state s = GST_STATE_NULL -> sy_stopping s = false ->
  honest (parentReady parent children (with_worker (on_bin (new_session s) (fun b => set_probes (set_locked b (true, true)) true)) (Opening caps))).
Proof.
  intros Hg En Es. pose proof (honest_new _ Hg En Es) as Hn. unfold parentReady. set (run := (_ || _, _ || _)).
  apply (honest_child _ (sy_child s) run) in Hn. destruct parent; simpl.
  - apply (honest_opening _ caps GST_STATE_READY false) in Hn; [|done|by left|done].
    destruct Hn as [Ho Hl Hids Hw Ht Hs Hr Hy Hf He Hp Hd Hc Hi]. constructor; try done.
    intros _. split; [done|]. exists (sy_sessions s). split; [done|]. simpl. apply elem_of_app. right. by apply list_elem_of_singleton.
  - assert (av_probes (sy_bin s) = false) as Ep by (destruct (av_probes (sy_bin s)) eqn:E; [by destruct (h_probes _ Hg E) as [[? _] _]|done]).
    apply (honest_opening _ caps (sy_state s) true) in Hn; [|done|by right|done].
    apply honest_stopSession, honest_stopChildren, (honest_bin _ (fun b => set_probes (set_locked b (false, false)) false)) in Hn; [|done|done].
    unfold closing, stopChildren, run in *. simpl in *. destruct (_ || _); exact Hn.
Qed.

Lemma honest_error s : honest s -> honest (did s [VError]).
Proof. apply honest_says. by constructor. Qed.

Lemma honest_nullToReady pipeline parent children s : honest s -> sy_state s = GST_STATE_NULL -> sy_stopping s = false ->
  honest (nullToReady pipeline parent children s).
Proof.
  intros Hg En Es. pose proof honest_error as He. unfold nullToReady.
  destruct (_ && negb (wantAudio _)); [auto|]. destruct (_ || _ && negb (av_audio _)); [auto|].
  destruct (wantVideo _ && (_ || _)); [auto|]. destruct (wantAudio _ && negb (validAudioFormat _)); [auto|].
  assert (honest (configureChildren s)) as Hc by (apply honest_says; [by constructor|done]).
  destruct (negb (nonempty _)); [by apply honest_parentReady|].
  destruct pipeline; simpl; [by apply honest_openReady|by apply He].
Qed.

(** ** The worker *)

Lemma says_now s l d i : av_session (sy_bin s) = Some i -> d i ∈ l -> ofNow (did s l) (fun j => d j ∈ sy_log (did s l)).
Proof. intros Es Hi. exists i. split; [done|]. simpl. apply elem_of_app. by right. Qed.

(** The worker's next step: what it learned, and what it writes under the lock. *)
Lemma honest_work s f l w : honest s -> sy_worker s <> NoWorker -> inOrder reports (sy_log s ++ l) -> (forall i, VChildError i ∉ l) ->
  let s' := with_worker (did (on_shared s f) l) w in
  workerSays s' -> (sh_setupOk (f (sy_shared s)) = true -> sh_setupOk (sy_shared s) = true \/ says VSetup s') ->
  (sh_readySent (f (sy_shared s)) = true -> sh_readySent (sy_shared s) = true \/ says VReady s') ->
  sh_released (f (sy_shared s)) = sh_released (sy_shared s) -> sh_failed (f (sy_shared s)) = sh_failed (sy_shared s) ->
  sh_eos (f (sy_shared s)) = sh_eos (sy_shared s) -> honest s'.
Proof.
  intros Hg Hn Hol Hl s' Hw Hs Hr E1 E2 E3. apply (honest_within s s' l); [by constructor|exact Hg|].
  constructor; simpl; rewrite ?E1, ?E2, ?E3; try done; auto with honest.
  - intros i Hi. by apply Hl in Hi.
  - intros En Es. by destruct (r_worker _ (h_idle _ Hg En Es)).
Qed.

Lemma error_free l : Forall free l -> forall i, VChildError i ∉ l.
Proof. intros Hl i. by apply free_no_error. Qed.

(** The same when it says nothing. *)
Lemma honest_work_quiet s f w : honest s -> sy_worker s <> NoWorker ->
  let s' := with_worker (on_shared s f) w in
  workerSays s' -> (sh_setupOk (f (sy_shared s)) = true -> sh_setupOk (sy_shared s) = true \/ says VSetup s) ->
  (sh_readySent (f (sy_shared s)) = true -> sh_readySent (sy_shared s) = true \/ says VReady s) ->
  sh_released (f (sy_shared s)) = sh_released (sy_shared s) -> sh_failed (f (sy_shared s)) = sh_failed (sy_shared s) ->
  sh_eos (f (sy_shared s)) = sh_eos (sy_shared s) -> honest s'.
Proof.
  intros Hg Hn s' Hw Hs Hr E1 E2 E3. unfold s' in *. rewrite <- (did_nil (on_shared s f)) in *. apply honest_work; auto.
  - rewrite app_nil_r. apply (h_order _ Hg).
  - intros i. apply not_elem_of_nil.
  - intros E. destruct (Hs E) as [?|(i & H1 & H2)]; [by left|right]. exists i. split; [done|]. simpl. rewrite app_nil_r. done.
  - intros E. destruct (Hr E) as [?|(i & H1 & H2)]; [by left|right]. exists i. split; [done|]. simpl. rewrite app_nil_r. done.
Qed.

Lemma honest_worker k s s' : honest s -> worker k s = Some s' -> honest s'.
Proof.
  intros Hg H. unfold worker in H. destruct k; try discriminate; destruct (sy_worker s) as [|caps|ok' ch'| | | |ok'|ok'|] eqn:Ew; try discriminate.
  all: assert (sy_worker s <> NoWorker) as Hn by (by rewrite Ew); pose proof (h_thread _ Hg Hn) as Hse;
    destruct (av_session (sy_bin s)) as [i|] eqn:Es; try done; pose proof (h_worker _ Hg) as Hw; unfold workerSays in Hw; rewrite Ew in Hw;
    pose proof (h_order _ Hg) as Ho.
  - destruct (_ && negb _); [done|]. injection H as <-. unfold ofSession. rewrite Es. set (l := opens ch ++ _).
    assert (Forall free l) as Hl by (apply Forall_app; split; [by destruct ch; constructor|destruct ok; by constructor]).
    apply (honest_work s id); simpl; auto using inOrder_free, error_free.
    intros ->. exists i. split; [done|]. simpl. unfold l. set_solver.
  - injection H as <-. apply honest_work_quiet; auto. destruct ok'; [|done]. by apply Hw.
  - injection H as <-. apply honest_enqueue in Hg. by apply (honest_work_quiet _ id _ Hg); auto.
  - destruct (negb _) eqn:E; [done|]. injection H as <-. apply (honest_work_quiet s id); auto.
    destruct (sh_released (sy_shared s)) eqn:Er; [|done]. apply (h_released _ Hg Er).
  - injection H as <-. unfold ofSession. rewrite Es. destruct Hw as (j & Ej & Hb). assert (j = i) as -> by congruence.
    apply (honest_work s id); simpl; auto.
    + destruct ok; [|by rewrite app_nil_r]. by apply inOrder_snoc.
    + intros j. destruct ok; set_solver.
    + intros ->. exists i. split; [done|]. simpl. set_solver.
  - injection H as <-. apply honest_work_quiet; auto. done.
  - injection H as <-. set (l := if _ && _ then [VError] else []).
    assert (Forall free l) as Hl by (unfold l; destruct (_ && _); by constructor).
    apply (honest_work s id); simpl; auto using inOrder_free, error_free.
Qed.

(** ** [releaseMedia] *)

(** A call of [s]: its address is known, or another session's. *)
Lemma honest_call s n t : honest s -> goodCall s t -> (sy_state s = GST_STATE_NULL -> sy_stopping s = false -> address t <> sy_addr s) ->
  honest (with_tasks s (<[n := t]> (sy_tasks s))).
Proof.
  intros [Ho Hl Hids Hw Ht Hs Hr Hy Hf He Hp Hd Hc Hi] Hgo Hn. constructor; try done.
  - intros x [Hx|[= <-]]%(goesOn_elem _ n (Some t)) Hu; [by apply Hc|done].
  - intros E1 E2. destruct (Hi E1 E2) as [R1 R2 R3 R4 R5 R6 R7]. constructor; try done.
    intros x [Hx|[= <-]]%(goesOn_elem _ n (Some t)) Hu; [by apply R7|by apply Hn].
Qed.

Lemma honest_goes s n t t' : honest s -> sy_tasks s !! n = Some t -> underWay t = true -> address t' = address t ->
  honest (with_tasks s (<[n := t']> (sy_tasks s))).
Proof.
  intros Hg Hn Hu Ha. pose proof (list_elem_of_lookup_2 _ _ _ Hn) as Hin. pose proof (h_calls _ Hg t Hin Hu) as Hc.
  apply honest_call; [done| |].
  - unfold goodCall. by rewrite Ha.
  - intros E1 E2. rewrite Ha. by apply (r_calls _ (h_idle _ Hg E1 E2)).
Qed.

Lemma honest_ends s n : honest s -> honest (with_tasks s (delete n (sy_tasks s))).
Proof. intros Hg. apply honest_tasks; [done|]. by intros t [?|?]%(goesOn_elem _ n None). Qed.

Lemma honest_closed s ch : honest s -> honest (did s (closes ch)).
Proof. apply honest_says. by destruct ch; constructor. Qed.

Lemma honest_start s base : honest s -> says VSetup s -> ofNow s (fun i => allStarted i (sy_log s)) -> (sy_state s = GST_STATE_NULL -> sy_stopping s = true) ->
  honest (did (on_shared s set_released) (ofSession s (fun i => VStart i base))).
Proof.
  intros Hg (i & Es & Hi) (j & Ej & Hall) Hn. assert (j = i) as -> by congruence. unfold ofSession. rewrite Es. set (s' := did _ _).
  apply (honest_within s s' [VStart i base]); [by constructor|exact Hg|]. constructor; simpl; try done; auto with honest.
  - apply inOrder_snoc; [apply (h_order _ Hg)|done].
  - set_solver.
  - intros _. right. exists i. split; [done|]. exists base. simpl. set_solver.
  - intros E1 E2. by rewrite Hn in E2.
Qed.

Lemma honest_release s n t a : sy_tasks s !! n = Some t -> honest s -> kids s ->
  honest (with_tasks (releaseMedia t a s).2 (goesOn (sy_tasks (releaseMedia t a s).2) n (releaseMedia t a s).1)).
Proof.
  intros Hn Hg Hk. pose proof (h_calls _ Hg t (list_elem_of_lookup_2 _ _ _ Hn)) as Hc.
  assert (forall sh ch, honest (with_tasks s (<[n := Adopted sh 0]> (sy_tasks s))) -> honest (with_tasks (did s (closes ch)) (<[n := Failing sh]> (sy_tasks s))) ->
    honest (with_tasks (adopt s ch) (<[n := Adopted sh 0]> (sy_tasks s))) ->
    let r := return_if negb (av_video (sy_bin s)) with (Some (Adopted sh 0), s) ;;
             return_if negb (adopts s ch (an_query a)) with (Some (Failing sh), did s (closes ch)) ;;
             (Some (Adopted sh 0), adopt s ch) in
    honest (with_tasks r.2 (goesOn (sy_tasks r.2) n r.1))) as Hadopt.
  { intros sh ch H1 H2 H3. destruct (negb (av_video _)); [done|]. by destruct (negb (adopts _ _ _)). }
  destruct t as [|sh ch|sh ch|sh base ch|sh base|sh base|sh]; simpl.
  - destruct (_ || negb (sh_playing _)) eqn:E; simpl; [by apply honest_ends|].
    rewrite !orb_false_iff, negb_false_iff in E. destruct E as [[_ E] _]. pose proof (h_setup _ Hg E) as Hr.
    assert (honest (on_shared s take_channel)) as Hx by (apply honest_shared; [done|by intros x; split_and!]).
    refine (honest_call _ n (Took (sy_addr s) (sh_channel (sy_shared s))) Hx _ _); [by split|].
    intros E1 E2. pose proof (r_setup _ (h_idle _ Hg E1 E2)). congruence.
  - destruct (negb (an_clock a)); simpl; [exact (honest_goes _ n _ (Failing sh) (honest_closed _ ch Hg) Hn eq_refl eq_refl)|].
    by eapply honest_goes.
  - apply Hadopt; [by eapply honest_goes|exact (honest_goes _ n _ (Failing sh) (honest_closed _ ch Hg) Hn eq_refl eq_refl)|].
    exact (honest_goes _ n _ (Adopted sh 0) (honest_child _ ch _ Hg) Hn eq_refl eq_refl).
  - apply Hadopt; [by eapply honest_goes|exact (honest_goes _ n _ (Failing sh) (honest_closed _ ch Hg) Hn eq_refl eq_refl)|].
    exact (honest_goes _ n _ (Adopted sh 0) (honest_child _ ch _ Hg) Hn eq_refl eq_refl).
  - destruct (start_children a s) as (v & run & l & E & Hl & _). destruct (startChildren a s) as [ok s']. simpl in E. subst s'. simpl.
    assert (Forall free l) as Hf by (eapply Forall_impl; [exact Hl|]; by intros []).
    pose proof (honest_says _ l Hf Hg) as Hx. apply (honest_bin _ (fun b => set_locked b v)) in Hx; [|done|done].
    apply (honest_child _ (sy_child s) run) in Hx. eapply honest_goes in Hx; [exact Hx|exact Hn|done|by destruct ok].
  - destruct (sh =? sy_addr s)%nat eqn:Ea; simpl.
    + apply Nat.eqb_eq in Ea. destruct (Hc eq_refl) as [_ Hb].
      refine (honest_start (with_tasks s (delete n (sy_tasks s))) base (honest_ends _ _ Hg) (Hb Ea) _ _).
      { by apply (k_calls _ _ _ _ Hk _ (list_elem_of_lookup_2 _ _ _ Hn)). }
      simpl. intros E. destruct (sy_stopping s) eqn:Es; [done|].
      by destruct (r_calls _ (h_idle _ Hg E Es) _ (list_elem_of_lookup_2 _ _ _ Hn) eq_refl).
    + exact (honest_goes _ n _ (Started sh base) (honest_life _ Stale Hg) Hn eq_refl eq_refl).
  - apply (honest_ends _ n), honest_error, honest_stopSession in Hg. exact Hg.
Qed.

(** ** EOS, errors, the drain *)

Lemma honest_eosProbe track s : honest s -> av_probes (sy_bin s) = true -> honest (eosProbe track s).
Proof.
  intros Hg Hp. destruct (h_probes _ Hg Hp) as [[Hn Hst] (i & Es & Htr)]. unfold eosProbe.
  set (f := fun x => set_eos x _). unfold ofSession. rewrite Es. set (x := on_shared (did s [VChildEos i track]) f).
  assert (honest x) as Hx.
  { apply (honest_within s x [VChildEos i track]); [by constructor|exact Hg|]. constructor; simpl; try done; auto with honest.
    - apply inOrder_free; [apply (h_order _ Hg)|by constructor].
    - set_solver.
    - destruct track; simpl; [|by left]. intros _. right. exists i. split; [done|]. simpl. set_solver.
    - destruct track; simpl; [by left|]. intros _. right. exists i. split; [done|]. exists track. simpl. set_solver. }
  destruct (_ || _) eqn:E; [done|]. rewrite !orb_false_iff in E. destruct E as [[[_ E1] E2] E3].
  apply (honest_within x (drainer x DrainWaits) []); [by constructor; rewrite ?app_nil_r|exact Hx|].
  constructor; simpl; try done; auto with honest.
  - apply (h_order _ Hx).
  - set_solver.
  - right. exists i. split; [done|]. exists (av_video (sy_bin s), av_audio (sy_bin s)). simpl.
    destruct (h_eos _ Hx) as [H1 H2]. assert (forall j, av_session (sy_bin x) = Some j -> j = i) as Hj by (intros j Ej; simpl in Ej; congruence).
    split_and!; [apply elem_of_app; by left|intros Ev|intros Ev].
    + change (av_video (sy_bin x) = true) in Ev. rewrite Ev in E1. apply negb_false_iff in E1. destruct (H1 E1) as (j & Ej & H).
      rewrite (Hj j Ej) in H. exact H.
    + change (av_audio (sy_bin x) = true) in Ev. rewrite Ev in E2. apply negb_false_iff in E2. destruct (H2 E2) as (j & Ej & H).
      rewrite (Hj j Ej) in H. exact H.
Qed.

(** What moves the drainer. *)
Lemma honest_drainer s v l : honest s -> inOrder reports (sy_log s ++ l) -> (forall i, VChildError i ∉ l) ->
  drainSays (drainer (did s l) v) -> (sy_state s = GST_STATE_NULL -> sy_stopping s = false -> v <> DrainWaits /\ v <> DrainAsks) ->
  honest (drainer (did s l) v).
Proof.
  intros Hg Ho Hl Hd Hi. apply (honest_within s _ l); [by constructor|exact Hg|]. constructor; simpl; try done; auto with honest.
  - intros i H. by apply Hl in H.
  - intros E1 E2. split_and!; try done. intros [R1 R2 R3 R4 R5 R6 R7]. by constructor; try apply Hi.
Qed.

Lemma honest_drainerWakes s : honest s -> st_drainer (sy_drainer s) = DrainWaits ->
  (sh_readySent (sy_shared s) || sh_cancelled (sy_shared s)) = true -> honest (drainerWakes s).
Proof.
  intros Hg Hd Hw. pose proof (h_drain _ Hg) as Hs. unfold drainSays in Hs. rewrite Hd in Hs. unfold drainerWakes.
  destruct (sh_failed _ || _) eqn:E.
  - rewrite <- (did_nil s) at 1. apply honest_drainer; try done; [rewrite app_nil_r; apply (h_order _ Hg)|intros j; apply not_elem_of_nil].
  - rewrite orb_false_iff in E. destruct E as [Ef Ec]. rewrite Ec, orb_false_r in Hw. destruct Hs as (i & Es & Ha).
    destruct (h_ready _ Hg Hw) as (j & Ej & Hr). assert (j = i) as -> by congruence. unfold ofSession. rewrite Es. apply honest_drainer; try done.
    + apply inOrder_snoc; [apply (h_order _ Hg)|]. split_and!; [done|done|]. by apply (h_failed _ Hg).
    + intros j. set_solver.
    + exists i. split; [done|]. simpl. set_solver.
    + intros E1 E2. destruct (r_drainer _ (h_idle _ Hg E1 E2)). congruence.
Qed.

Lemma honest_drainerEnds ok s : honest s -> st_drainer (sy_drainer s) = DrainAsks -> honest (drainerEnds ok s).
Proof.
  intros Hg Hd. pose proof (h_drain _ Hg) as Hs. unfold drainSays in Hs. rewrite Hd in Hs. destruct Hs as (i & Es & Ha).
  unfold drainerEnds, ofSession. rewrite Es. destruct ok; [|destruct (sh_cancelled _)].
  - apply honest_drainer; try done; [by apply inOrder_snoc; [apply (h_order _ Hg)|]|set_solver].
  - rewrite <- (did_nil s) at 1. apply honest_drainer; try done; [rewrite app_nil_r; apply (h_order _ Hg)|intros j; apply not_elem_of_nil].
  - apply honest_drainer; try done; [apply inOrder_free; [apply (h_order _ Hg)|by constructor]|set_solver].
Qed.

Lemma honest_handleMessage s : honest s -> honest (handleMessage s).
Proof.
  intros Hg. unfold handleMessage. destruct (av_local (sy_bin s)) eqn:El; [|done]. rewrite (h_local _ Hg) in El.
  destruct (av_session (sy_bin s)) as [i|] eqn:Es; [|done]. unfold ofSession. rewrite Es.
  apply (honest_within s _ [VChildError i]); [by constructor|exact Hg|]. constructor; simpl; try done; auto with honest.
  - apply inOrder_snoc; [apply (h_order _ Hg)|done].
  - intros j H. apply list_elem_of_singleton in H. split; congruence.
  - intros E1 E2. split_and!; try done. intros [R1 R2 R3 R4 R5 R6 R7]. by constructor.
Qed.

(** ** Back to NULL, and the end *)

(** A bin with a new [Shared] and no session. *)
Lemma honest_fresh s : inOrder reports (sy_log s) -> (forall i, VChildError i ∈ sy_log s -> (i < sy_sessions s)%nat) ->
  av_local (sy_bin s) = false -> av_session (sy_bin s) = None -> av_probes (sy_bin s) = false -> sy_shared s = newShared ->
  sy_worker s = NoWorker -> st_drainer (sy_drainer s) = NoDrainer ->
  (forall t, t ∈ sy_tasks s -> underWay t = true -> (address t < sy_addr s)%nat) -> honest s.
Proof.
  intros Ho Hids El Es Ep Esh Ew Ed Hc. constructor; rewrite ?El, ?Es, ?Ep, ?Esh, ?Ew; try done.
  - unfold workerSays. by rewrite Ew.
  - unfold drainSays. by rewrite Ed.
  - intros t H1 H2. specialize (Hc t H1 H2). split; [lia|]. intros E. lia.
  - intros _ _. constructor; rewrite ?Esh, ?Ew, ?Ed; try done. intros t H1 H2. specialize (Hc t H1 H2). lia.
Qed.

Lemma honest_reset s : honest s -> sy_stopping s = true -> honest (with_state (resetSession s) GST_STATE_NULL false).
Proof.
  intros Hg Est.
  assert (av_probes (sy_bin s) = false) as Ep.
  { destruct (av_probes _) eqn:E; [|done]. destruct (h_probes _ Hg E) as [[_ ?] _]. congruence. }
  set (l := closes (sh_channel (sy_shared s)) ++ [VReset (length (filter underWay (sy_tasks s)))]).
  assert (honest (did s l)) as H1.
  { apply honest_says; [|done]. apply Forall_app. split; [by destruct (sh_channel _); constructor|by constructor]. }
  assert (honest (did (did s l) (ofSession s VDrop))) as H2 by (apply honest_says; [by apply free_ofSession|done]).
  assert (forall t, t ∈ sy_tasks s -> underWay t = true -> (address t < sy_addr s + 1)%nat) as Hb.
  { intros t Ht Hu. destruct (h_calls _ Hg t Ht Hu). lia. }
  pose proof (h_local _ Hg) as El. unfold resetSession. simpl.
  destruct (av_local (sy_bin s)); apply honest_fresh; simpl; try done.
  - apply (h_order _ H2).
  - apply (h_ids _ H2).
  - apply (h_order _ H1).
  - apply (h_ids _ H1).
  - by destruct (av_session (sy_bin s)).
Qed.

(** Without a session there is nothing to wait for. *)
Lemma honest_thin s : honest s -> av_local (sy_bin s) = false -> honest (with_state s GST_STATE_NULL false).
Proof.
  intros Hg El. assert (forall P, ~ ofNow s P) as Hno.
  { intros P (i & Es & _). pose proof (h_local _ Hg) as H. rewrite El, Es in H. done. }
  assert (av_probes (sy_bin s) = false) as Ep.
  { destruct (av_probes _) eqn:E; [|done]. destruct (h_probes _ Hg E) as [_ H]. by apply Hno in H. }
  assert (sy_worker s <> NoWorker -> False) as Hw.
  { intros E. pose proof (h_thread _ Hg E) as H. pose proof (h_local _ Hg) as H'. congruence. }
  destruct Hg as [Ho Hl Hids Hws Ht Hs Hr Hy Hf [He1 He2] Hp Hd Hc Hi]. unfold drainSays, says, started, sawEos in *.
  constructor; try done; simpl; [by rewrite Ep|]. intros _ _. constructor; simpl.
  - destruct (sy_worker s); try done; by destruct Hw.
  - destruct (sh_setupOk _); [by destruct (Hno _ (Hs eq_refl))|done].
  - destruct (sh_released _); [by destruct (Hno _ (Hr eq_refl))|done].
  - destruct (sh_readySent _); [by destruct (Hno _ (Hy eq_refl))|done].
  - destruct (sh_eos _) as [[] []]; simpl in *; try done; first [by destruct (Hno _ (He1 eq_refl))|by destruct (Hno _ (He2 eq_refl))].
  - destruct (st_drainer _); try done; by apply Hno in Hd.
  - intros t H1 H2 E. destruct (Hc t H1 H2) as [_ H]. by apply Hno in H.
Qed.

Lemma honest_finalize s : honest s -> honest (finalize s).
Proof.
  intros Hg. unfold finalize. apply honest_life, honest_child. apply honest_shared; [|by intros x; split_and!].
  apply honest_says; [|by apply honest_stopSession].
  repeat (apply Forall_app; split); [by destruct (sy_child _); constructor|by destruct (sh_channel _); constructor|by apply free_ofSession].
Qed.

Lemma honest_adopt ch query s : honest s -> honest (adoptSource ch query s).
Proof.
  intros Hg. unfold adoptSource. destruct (_ || _ || _); [done|].
  assert (honest (configureChildren s)) as Hc by (apply honest_says; [by constructor|done]). unfold adoptChannel.
  destruct (_ || _ || _); [done|]. destruct (negb (adopts _ _ _)); [done|]. simpl.
  apply honest_child, honest_says; [by destruct ch; constructor|done].
Qed.

Lemma honest_setSource k s : honest s -> honest (setSource k s).
Proof.
  intros Hg. unfold setSource. destruct (sy_state s =? GST_STATE_NULL) eqn:E; [simpl|done]. apply Z.eqb_eq in E.
  assert (av_probes (sy_bin s) = false) as Ep.
  { destruct (av_probes _) eqn:E'; [|done]. by destruct (h_probes _ Hg E') as [[? _] _]. }
  assert (forall d, st_drainer d = st_drainer (sy_drainer s) -> honest (with_drainer s d)) as Hd.
  { intros d Ed. quietly Hg (@nil AvDid). }
  destruct k as [k|v|v]; [|by apply Hd..]. unfold setProperty. destruct (negb _); [done|].
  assert (honest (on_bin s (fun b => set_props b (assign k (av_props b))))) as Hx by by apply honest_bin.
  destruct k; try done. destruct (_ || _ || _); [|done]. unfold rebuild.
  apply honest_bin; [by apply honest_child, honest_closed|done|]. simpl. congruence.
Qed.

Lemma honest_act k s s' : honest s -> kids s -> act k s = Some s' -> honest s'.
Proof.
  intros Hg Hk H. destruct k; try exact (honest_worker _ _ _ Hg H). all: simpl in H.
  1-6: destruct (_ || sy_stopping s) eqn:E; [done|]; injection H as <-; rewrite orb_false_iff, negb_false_iff, Z.eqb_eq in E; destruct E as [E1 E2].
  - by apply honest_nullToReady.
  - unfold readyToPaused. destruct (_ && _); [by apply honest_error|]. destruct parent; [by apply honest_state; [|left|]|done].
  - unfold pausedToPlaying. assert (forall x, honest x -> honest (if parent then with_state x GST_STATE_PLAYING false else x)) as Hup.
    { intros x Hx. destruct parent; [by apply honest_state; [|left|]|done]. }
    destruct (negb (av_local _)); [by apply Hup|]. destruct (negb clock); [by apply honest_stopSession, honest_error|]. apply Hup.
    apply (honest_shared _ (fun x => set_playing x true)) in Hg; [|by intros x; split_and!].
    destruct (_ && (_ && _)); [by apply honest_enqueue in Hg|done].
  - unfold playingToPaused. apply honest_state; [|by left|done]. destruct (av_local _); [|done].
    apply honest_shared; [done|by intros x; split_and!].
  - unfold pausedToReady. apply honest_state; [|by left|done]. destruct (av_local _); [by apply honest_stopSession|done].
  - unfold readyToNull. destruct (av_local _) eqn:El; [by apply honest_closing|].
    apply honest_thin; [by apply honest_stopChildren|]. unfold stopChildren. by destruct (fst (sy_running s)).
  - destruct (negb (_ && _)) eqn:E; [done|]. injection H as <-. rewrite negb_false_iff, andb_true_iff in E. destruct E. by apply honest_reset.
  - destruct (sy_tasks s !! n) as [t|] eqn:En; [|done]. pose proof (honest_release s n t a En Hg Hk) as Hr.
    destruct (releaseMedia t a s) as [t' x]. by injection H as <-.
  - destruct (negb _) eqn:E; [done|]. injection H as <-. apply honest_eosProbe; [done|by apply negb_false_iff].
  - destruct (st_drainer _) eqn:E; try done. destruct (negb _) eqn:E'; [done|]. injection H as <-.
    apply honest_drainerWakes; [done..|by apply negb_false_iff].
  - destruct (st_drainer _) eqn:E; try done. injection H as <-. by apply honest_drainerEnds.
  - injection H as <-. by apply honest_handleMessage.
  - injection H as <-. by apply honest_adopt.
  - injection H as <-. by apply honest_setSource.
  - destruct (_ || _ || _); [done|]. injection H as <-. by apply honest_finalize.
Qed.

(** C32: Over any interleaving of the threads of framelinkavsrc, calls of
    [releaseMedia] left from an earlier session included: it reports ready for a
    session only after that session was set up, and every source it was made for was
    started and did not fail; it reports the drain only after that, when every track
    of the session has had EOS at its pad, and not for a session in which an error
    had been posted. *)
Theorem avsrc_reports_truthfully plugins s : reachable plugins s -> inOrder reports (sy_log s).
Proof.
  intros Hr. apply h_order. cut (honest s /\ kids s); [by intros []|].
  induction Hr as [|s k s' _ [Hg Hk] _ H]; [split; [|exact (src_kids_init plugins)]|split; [by eapply honest_act|by eapply src_kids_act]].
  apply honest_fresh; simpl; try done; [apply inOrder_nil|intros i Hi; by apply not_elem_of_nil in Hi|].
  intros t Ht. by apply not_elem_of_nil in Ht.
Qed.

Definition goodAnswers : Answers := mkAnswers true 0 true (true, true) (true, true).
(** A session with both tracks, from NULL to NULL. *)
Definition srcLife : list Action :=
  [Property (Common (PropSession (Some "p"%string))); NullToReady true true (false, false); ReadyToPaused true; PausedToPlaying true true;
   SetupOpens true (Some 7); SetupPublish; SetupCalls] ++ replicate 5 (Release 0 goodAnswers) ++
  [SetupSees; SetupReports true; SetupReady; SetupEnds; PadEos 0; PadEos 1; DrainerWakes; DrainerEnds true;
   PlayingToPaused; PausedToReady; ReadyToNull; ResetSession].

Lemma acts_reach plugins l s s' : reachable plugins s -> acts l s = Some s' -> reachable plugins s'.
Proof.
  revert s. induction l as [|k l IH]; intros s Hr; simpl; [by intros [= <-]|].
  destruct (decide (sy_life s = Alive)); [|done]. destruct (act k s) as [x|] eqn:E; [|done]. simpl.
  apply IH. by eapply reachable_step.
Qed.

Lemma avsrc_reports_truthfully_witness : exists s, acts srcLife (av_src_init (true, true)) = Some s /\ VReady 0 ∈ sy_log s /\
  VDrained 0 ∈ sy_log s /\ inOrder reports (sy_log s).
Proof.
  eexists. split; [vm_compute; reflexivity|]. split_and!; [set_solver|set_solver|]. eapply (avsrc_reports_truthfully (true, true)).
  eapply (acts_reach _ srcLife); [apply reachable_init|vm_compute; reflexivity].
Defined.
