(* ===== verification/FileSystem.v ===== *)
(** * Programs over a directory of files

    [runtime/av_rendezvous.cpp] works on the entries of one private directory with
    plain system calls, against other processes doing the same and dying at any
    time.  A [Prog] is such a program, one call at a time; [sys_step] is what the
    kernel may answer and how the directory changes; [Directory] is the shared
    state.  Every call may fail; reads and writes may be short. *)
From stdpp Require Import gmap.
From S2P Require Import Prelude.

(** ** Calls *)

(** The fields of [struct stat] the code looks at. *)
Record FileStat := mkFileStat { fst_uid : Z; fst_perm : Z; fst_dir : bool; fst_reg : bool; fst_nlink : Z }.

(** [O_CREAT] and [O_EXCL]; the access mode. *)
Inductive OpenMode := OpenRead | OpenCreate | OpenExclusive.

Inductive Sys : Type -> Type :=
| Mkdir (path : list Z) : Sys Z
| Errno : Sys Z
| OpenDir (path : list Z) : Sys Z
| OpenRandom : Sys Z                                   (* open("/dev/urandom") *)
| OpenAt (dir : Z) (name : list Z) (mode : OpenMode) : Sys Z
| Fstat (fd : Z) : Sys (option FileStat)
| Flock (fd : Z) : Sys Z                               (* LOCK_EX|LOCK_NB *)
| Write (fd : Z) (bytes : list Z) : Sys Z
| Fsync (fd : Z) : Sys Z
| RenameAt (dir : Z) (old new : list Z) : Sys Z
| UnlinkAt (dir : Z) (name : list Z) : Sys Z
| Read (fd : Z) (n : nat) : Sys (option (list Z))      (* [None] is -1 *)
| Close (fd : Z) : Sys unit.

(** [Hang]: a loop that used up its fuel - the process is still in it. *)
Inductive Prog (A : Type) : Type :=
| Ret (a : A)
| Do {X : Type} (c : Sys X) (k : X -> Prog A)
| Hang.
Arguments Ret {A} a.
Arguments Do {A X} c k.
Arguments Hang {A}.

Fixpoint bind {A B} (p : Prog A) (f : A -> Prog B) : Prog B :=
  match p with
  | Ret a => f a
  | Do c k => Do c (fun x => bind (k x) f)
  | Hang => Hang
  end.

Definition sys {X} (c : Sys X) : Prog X := Do c Ret.

Declare Scope prog_scope.
Delimit Scope prog_scope with prog.
Notation "'let$' x := p 'in' q" := (bind p (fun x => q))
  (at level 200, x pattern, p at level 100, q at level 200,
   format "'[v' 'let$'  x  :=  p  'in' '/' q ']'") : prog_scope.
Notation "p ;$ q" := (bind p (fun _ => q)) (at level 100, q at level 200, right associativity) : prog_scope.
#[global] Open Scope prog_scope.

(** ** The shared state *)

(** What a descriptor of a process refers to. *)
Inductive File := AFile (inode offset : nat) | ADirectory | ARandom.

#[export] Instance File_eq_dec : EqDecision File.
Proof. solve_decision. Defined.

Record Directory := mkDirectory {
  d_names : gmap (list Z) nat;         (* entry to inode *)
  d_data : gmap nat (list Z);          (* contents *)
  d_lock : gmap nat (nat * Z);         (* exclusive flock: process and descriptor *)
  d_files : gmap (nat * Z) File;       (* open descriptors *)
  d_next : nat;                        (* the next inode *)
}.

Definition set_names (d : Directory) v := mkDirectory v (d_data d) (d_lock d) (d_files d) (d_next d).
Definition set_data (d : Directory) v := mkDirectory (d_names d) v (d_lock d) (d_files d) (d_next d).
Definition set_lock (d : Directory) v := mkDirectory (d_names d) (d_data d) v (d_files d) (d_next d).
Definition set_files (d : Directory) v := mkDirectory (d_names d) (d_data d) (d_lock d) v (d_next d).

Definition open_file (d : Directory) (pid : nat) (fd : Z) (f : File) : Directory :=
  set_files d (<[(pid, fd) := f]> (d_files d)).

(** A new, empty file. *)
Definition create (d : Directory) (name : list Z) : Directory :=
  mkDirectory (<[name := d_next d]> (d_names d)) (<[d_next d := []]> (d_data d))
    (d_lock d) (d_files d) (S (d_next d)).

(** Closing a descriptor gives up the lock taken through it. *)
Definition close_file (d : Directory) (pid : nat) (fd : Z) : Directory :=
  mkDirectory (d_names d) (d_data d) (filter (fun x => x.2 <> (pid, fd)) (d_lock d))
    (delete (pid, fd) (d_files d)) (d_next d).

(** A process that dies has its descriptors closed. *)
Definition exit_process (d : Directory) (pid : nat) : Directory :=
  mkDirectory (d_names d) (d_data d) (filter (fun x => x.2.1 <> pid) (d_lock d))
    (filter (fun x => x.1.1 <> pid) (d_files d)) (d_next d).

(** Bytes written over the contents at an offset. *)
Definition overwrite (old : list Z) (offset : nat) (bytes : list Z) : list Z :=
  take offset old ++ bytes ++ drop (offset + length bytes) old.

(** ** What a call may answer *)

Definition opens (pid : nat) (d : Directory) (f : Directory -> File -> Prop) (x : Z) (d' : Directory) : Prop :=
  (x < 0 /\ d' = d)
  \/ (0 <= x /\ d_files d !! (pid, x) = None
      /\ exists d1 file, f d1 file /\ d' = open_file d1 pid x file).

Definition sys_step {X} (pid : nat) (d : Directory) (c : Sys X) : X -> Directory -> Prop :=
  match c in Sys X return X -> Directory -> Prop with
  | Mkdir _ | Errno | Fsync _ => fun _ d' => d' = d
  | Fstat _ => fun _ d' => d' = d
  | OpenDir _ => opens pid d (fun d1 f => d1 = d /\ f = ADirectory)
  | OpenRandom => opens pid d (fun d1 f => d1 = d /\ f = ARandom)
  | OpenAt _ name mode =>
    opens pid d (fun d1 f =>
      match d_names d !! name with
      | Some ino => mode <> OpenExclusive /\ d1 = d /\ f = AFile ino 0
      | None => mode <> OpenRead /\ d1 = create d name /\ f = AFile (d_next d) 0
      end)
  | Flock fd => fun x d' =>
    (x <> 0 /\ d' = d)
    \/ (x = 0 /\ exists ino off, d_files d !! (pid, fd) = Some (AFile ino off)
        /\ (d_lock d !! ino = None \/ d_lock d !! ino = Some (pid, fd))
        /\ d' = set_lock d (<[ino := (pid, fd)]> (d_lock d)))
  | Write fd bytes => fun x d' =>
    (x < 0 /\ d' = d)
    \/ (0 <= x <= Z.of_nat (length bytes) /\ exists ino off old,
        d_files d !! (pid, fd) = Some (AFile ino off) /\ d_data d !! ino = Some old
        /\ d' = set_files (set_data d (<[ino := overwrite old off (take (Z.to_nat x) bytes)]> (d_data d)))
                  (<[(pid, fd) := AFile ino (off + Z.to_nat x)]> (d_files d)))
  | RenameAt _ old new => fun x d' =>
    (x <> 0 /\ d' = d)
    \/ (x = 0 /\ exists ino, d_names d !! old = Some ino
        /\ d' = set_names d (<[new := ino]> (delete old (d_names d))))
  | UnlinkAt _ name => fun x d' =>
    (x <> 0 /\ d' = d)
    \/ (x = 0 /\ is_Some (d_names d !! name) /\ d' = set_names d (delete name (d_names d)))
  | Read fd n => fun x d' =>
    (x = None /\ d' = d)
    \/ (exists bs, x = Some bs /\ (length bs <= n)%nat /\
        match d_files d !! (pid, fd) with
        | Some (AFile ino off) => exists old, d_data d !! ino = Some old
            /\ bs `prefix_of` drop off old
            /\ d' = set_files d (<[(pid, fd) := AFile ino (off + length bs)]> (d_files d))
        | Some ARandom => Forall u8 bs /\ d' = d
        | _ => False
        end)
  | Close fd => fun _ d' => d' = close_file d pid fd
  end.

(** One step of a program. *)
Definition prog_step {A} (pid : nat) (d : Directory) (p : Prog A) (d' : Directory) (p' : Prog A) : Prop :=
  match p with
  | Do c k => exists x, sys_step pid d c x d' /\ p' = k x
  | _ => False
  end.
