(* ===== verification/Rendezvous.v ===== *)
(** * The rendezvous record (runtime/av_rendezvous.cpp, the POSIX branch)

    An owner publishes the port and the private token of its listener as a file in
    a private directory; a client reads it.  The record appears by renaming a
    complete temporary file, under a lock that lives as long as the owner.

    Fuel: [rounds] bounds the retries of an interrupted call and the chunks of a
    short read or write; a loop that uses it up is still running ([Hang]). *)
From stdpp Require Import gmap.
From S2P Require Import Prelude FileSystem.
From S2P Require Process.

Notation Endpoint := Process.Endpoint.
Notation ep_port := Process.ep_port.
Notation ep_token := Process.ep_token.

(** ** The record *)

Definition wireSize : nat := 38.
Definition recordMagic : list Z := [70; 65; 82; 49].                         (* "FAR1" *)
Definition recordName : list Z := [101; 110; 100; 112; 111; 105; 110; 116].  (* "endpoint" *)
(** ".owner.lock" *)
Definition lockName : list Z := [46; 111; 119; 110; 101; 114; 46; 108; 111; 99; 107].
(** ".publish-" *)
Definition tempPrefix : list Z := [46; 112; 117; 98; 108; 105; 115; 104; 45].

Definition encode (e : Endpoint) : list Z :=
  recordMagic ++ [Z.land (ep_port e) 255; Z.shiftr (ep_port e) 8] ++ ep_token e.

Definition decode (b : list Z) : option Endpoint :=
  return_if negb (Nat.eqb (length b) wireSize) || negb (bool_decide (take 4 b = recordMagic)) with None ;;
  let port := Z.lor (nth 4 b 0) (Z.shiftl (nth 5 b 0) 8) in
  let token := take 32 (drop 6 b) in
  return_if negb (truthy port) || forallb (fun c => c =? 0) token with None ;;
  Some (Process.mkEndpoint port token).

(** ** Private files *)

Section Code.
Context (euid : Z) (rounds : nat).

Definition EINTR : Z := 4.
Definition EEXIST : Z := 17.

(** [~Fd] *)
Definition dropFd (fd : Z) : Prog unit := if 0 <=? fd then sys (Close fd) else Ret tt.

Definition check (fd : Z) (directory : bool) : Prog bool :=
  let$ st := sys (Fstat fd) in
  Ret match st with
      | None => false
      | Some st =>
        negb (negb (fst_uid st =? euid) || truthy (Z.land (fst_perm st) 63)
              || (if directory then negb (fst_dir st) else negb (fst_reg st) || negb (fst_nlink st =? 1)))
      end.

(** [while(normalized.size()>1 && normalized.back()=='/') normalized.pop_back();] *)
Fixpoint stripSlashes (reversed : list Z) : list Z :=
  match reversed with
  | 47 :: (_ :: _) as r => stripSlashes r
  | _ => reversed
  end.
Definition normalized (path : list Z) : list Z := rev (stripSlashes (rev path)).

Definition openDir (path : list Z) (create : bool) : Prog Z :=
  if Nat.eqb (length path) 0 || existsb (fun c => c =? 0) path then Ret (-1) else
  let$ refused :=
    (if create
     then let$ r := sys (Mkdir path) in
          if truthy r then let$ e := sys Errno in Ret (negb (e =? EEXIST)) else Ret false
     else Ret false) in
  if (refused : bool) then Ret (-1) else
  let$ fd := sys (OpenDir (normalized path)) in
  if fd <? 0 then Ret (-1) else
  let$ ok := check fd true in
  if (ok : bool) then Ret fd else sys (Close fd) ;$ Ret (-1).

(** The loop of [secureRandom]; [have] has been read. *)
Fixpoint randomLoop (fuel : nat) (fd : Z) (n : nat) (have : list Z) : Prog (option (list Z)) :=
  if (n <=? length have)%nat then Ret (Some have) else
  match fuel with
  | O => Hang
  | S fuel' =>
    let$ k := sys (Read fd (n - length have)) in
    match k with
    | None => let$ e := sys Errno in
              if e =? EINTR then randomLoop fuel' fd n have else Ret None
    | Some [] => Ret None
    | Some bs => randomLoop fuel' fd n (have ++ bs)
    end
  end.

Definition secureRandom (n : nat) : Prog (option (list Z)) :=
  let$ fd := sys OpenRandom in
  if fd <? 0 then Ret None else
  let$ r := randomLoop rounds fd n [] in
  dropFd fd ;$ Ret r.

(** "0123456789abcdef"[i] *)
Definition hexDigit (i : Z) : Z := if i <? 10 then 48 + i else 87 + i.

Definition tempName : Prog (option (list Z)) :=
  let$ random := secureRandom 16 in
  Ret match random with
      | None => None
      | Some random =>
        Some (tempPrefix ++ concat (map (fun c => [hexDigit (Z.shiftr c 4); hexDigit (Z.land c 15)]) random))
      end.

(** ** The owner *)

(** [RendezvousOwner::Impl] *)
Record Impl := mkImpl { im_endpoint : Endpoint; im_dir : Z; im_lock : Z }.

(** [~Impl]: the members in reverse order. *)
Definition dropImpl (dir lock : Z) : Prog unit := dropFd lock ;$ dropFd dir.

(** [while(written<bytes.size())] *)
Fixpoint writeLoop (fuel : nat) (fd : Z) (bytes : list Z) (written : nat) : Prog bool :=
  if (length bytes <=? written)%nat then Ret true else
  match fuel with
  | O => Hang
  | S fuel' =>
    let$ n := sys (Write fd (drop written bytes)) in
    let$ interrupted := (if n <? 0 then let$ e := sys Errno in Ret (e =? EINTR) else Ret false) in
    if (interrupted : bool) then writeLoop fuel' fd bytes written else
    if n <=? 0 then Ret false else writeLoop fuel' fd bytes (written + Z.to_nat n)
  end.

(** From the open temporary file to the record. *)
Definition publishFile (e : Endpoint) (dir lock f : Z) (temp bytes : list Z) : Prog (bool * option Impl) :=
  let abandon := sys (UnlinkAt dir temp) ;$ dropFd f ;$ dropImpl dir lock ;$ Ret (false, None) in
  let$ ok := writeLoop rounds f bytes 0 in
  if negb ok then abandon else
  let$ synced := sys (Fsync f) in
  let$ r := (if truthy synced then Ret synced else sys (RenameAt dir temp recordName)) in
  if truthy r then abandon else
  dropFd f ;$ Ret (true, Some (mkImpl e dir lock)).

(** [RendezvousOwner::publish]; the result and [impl_]. *)
Definition publish (impl : option Impl) (directory : list Z) (e : Endpoint) : Prog (bool * option Impl) :=
  match impl with
  | Some _ => Ret (false, impl)
  | None =>
    let bytes := encode e in
    match decode bytes with
    | None => Ret (false, None)
    | Some _ =>
      let$ temp := tempName in
      match temp with
      | None => Ret (false, None)
      | Some temp =>
        let$ dir := openDir directory true in
        if dir <? 0 then Ret (false, None) else
        let$ lock := sys (OpenAt dir lockName OpenCreate) in
        let abandon := dropImpl dir lock ;$ Ret (false, None) in
        let$ safe := (if lock <? 0 then Ret false else check lock false) in
        if negb safe then abandon else
        let$ locked := sys (Flock lock) in
        if truthy locked then abandon else
        let$ f := sys (OpenAt dir temp OpenExclusive) in
        if f <? 0 then abandon else
        publishFile e dir lock f temp bytes
      end
    end
  end.

(** [do{n=::read(...);}while(n<0&&errno==EINTR);] *)
Fixpoint readRecord (fuel : nat) (fd : Z) : Prog (option (list Z)) :=
  match fuel with
  | O => Hang
  | S fuel' =>
    let$ n := sys (Read fd (S wireSize)) in
    match n with
    | Some bs => Ret (Some bs)
    | None => let$ e := sys Errno in if e =? EINTR then readRecord fuel' fd else Ret None
    end
  end.

(** [RendezvousOwner::close]; what [impl_] is afterwards. *)
Definition close (impl : option Impl) : Prog (option Impl) :=
  match impl with
  | None => Ret None
  | Some im =>
    let expected := encode (im_endpoint im) in
    let$ f := sys (OpenAt (im_dir im) recordName OpenRead) in
    let$ safe := (if f <? 0 then Ret false else check f false) in
    (if (safe : bool)
     then let$ b := readRecord rounds f in
          if bool_decide (b = Some expected)
          then let$ _ := sys (UnlinkAt (im_dir im) recordName) in Ret tt
          else Ret tt
     else Ret tt) ;$
    dropImpl (im_dir im) (im_lock im) ;$
    dropFd f ;$
    Ret None
  end.

(** ** The client *)

Definition readEndpoint (directory : list Z) : Prog (option Endpoint) :=
  let$ dir := openDir directory false in
  if dir <? 0 then Ret None else
  let$ f := sys (OpenAt dir recordName OpenRead) in
  if f <? 0 then dropFd dir ;$ Ret None else
  let$ safe := check f false in
  let$ b := (if (safe : bool) then readRecord rounds f else Ret None) in
  dropFd f ;$ dropFd dir ;$
  Ret (match b with Some b => decode b | None => None end).
End Code.
