(* ===== verification/RendezvousSystem.v ===== *)
(** * Owners, clients and crashes around one rendezvous directory

    Any number of processes publish, close and read, one system call at a time,
    interleaved in any way, and die at any time.  Every endpoint a client reads was
    published, complete; while an owner lives the record is its own, and there is
    one owner.  Assumed: only these programs touch the directory - it is private
    to the user, which the code checks.

    The proof gives each process a ghost state - what it may do to the directory -
    and shows that the programs obey it ([obeys]) and that obeying it keeps the
    directory sound ([sound_step]). *)
From stdpp Require Import gmap.
From S2P Require Import Prelude FileSystem Rendezvous.
From S2P Require Process.

(** ** The system *)

Section System.
Context (euid : Z) (rounds : nat).

(** A process between calls, or in one; [impl] is its [impl_]. *)
Inductive Process :=
| Idle (impl : option Impl)
| Publishing (p : Prog (bool * option Impl))
| Closing (p : Prog (option Impl))
| Reading (impl : option Impl) (p : Prog (option Endpoint)).

Record State := mkState {
  st_dir : Directory;
  st_proc : nat -> Process;
  st_asked : list Endpoint;     (* the endpoints given to [publish] *)
  st_read : list Endpoint;      (* the endpoints [readEndpoint] answered *)
}.

Definition update {A} (f : nat -> A) (pid : nat) (x : A) : nat -> A :=
  fun q => if Nat.eqb q pid then x else f q.

Definition with_proc (S : State) (pid : nat) (p : Process) : State :=
  mkState (st_dir S) (update (st_proc S) pid p) (st_asked S) (st_read S).
Definition moved (S : State) (pid : nat) (d : Directory) (p : Process) : State :=
  mkState d (update (st_proc S) pid p) (st_asked S) (st_read S).

(** An [av::Endpoint] as the C++ type has it. *)
Definition wf_endpoint (e : Endpoint) : Prop :=
  0 <= ep_port e < 65536 /\ length (ep_token e) = 32%nat /\ Forall u8 (ep_token e).

Inductive step (S : State) : State -> Prop :=
| s_publish pid impl path e :
    st_proc S pid = Idle impl -> wf_endpoint e ->
    step S (mkState (st_dir S) (update (st_proc S) pid (Publishing (publish euid rounds impl path e)))
              (e :: st_asked S) (st_read S))
| s_close pid impl :
    st_proc S pid = Idle impl -> step S (with_proc S pid (Closing (close euid rounds impl)))
| s_read pid impl path :
    st_proc S pid = Idle impl -> step S (with_proc S pid (Reading impl (readEndpoint euid rounds path)))
| s_publishing pid p d p' :
    st_proc S pid = Publishing p -> prog_step pid (st_dir S) p d p' -> step S (moved S pid d (Publishing p'))
| s_closing pid p d p' :
    st_proc S pid = Closing p -> prog_step pid (st_dir S) p d p' -> step S (moved S pid d (Closing p'))
| s_reading pid impl p d p' :
    st_proc S pid = Reading impl p -> prog_step pid (st_dir S) p d p' -> step S (moved S pid d (Reading impl p'))
| s_published pid ok impl :
    st_proc S pid = Publishing (Ret (ok, impl)) -> step S (with_proc S pid (Idle impl))
| s_closed pid impl :
    st_proc S pid = Closing (Ret impl) -> step S (with_proc S pid (Idle impl))
| s_answered pid impl r :
    st_proc S pid = Reading impl (Ret r) ->
    step S (mkState (st_dir S) (update (st_proc S) pid (Idle impl)) (st_asked S)
              (match r with Some e => e :: st_read S | None => st_read S end))
| s_crash pid :
    step S (moved S pid (exit_process (st_dir S) pid) (Idle None)).

(** An empty directory, nobody in it. *)
Definition initial : State :=
  mkState (mkDirectory ∅ ∅ ∅ ∅ 0) (fun _ => Idle None) [] [].

Inductive reachable : State -> Prop :=
| reach_start : reachable initial
| reach_step S S' : reachable S -> step S S' -> reachable S'.
End System.

(** * The record *)

Lemma record_length_encode e : wf_endpoint e -> length (encode e) = wireSize.
Proof. intros (_ & H & _). unfold encode. rewrite !length_app, H. done. Qed.

Lemma port_bytes p : 0 <= p < 65536 -> Z.lor (Z.land p 255) (Z.shiftl (Z.shiftr p 8) 8) = p.
Proof.
  intros Hp. apply Z.bits_inj'. intros n Hn. rewrite Z.lor_spec, Z.land_spec.
  change 255 with (Z.ones 8). destruct (decide (n < 8)).
  - rewrite Z.ones_spec_low, andb_true_r, Z.shiftl_spec_low, orb_false_r by lia. done.
  - rewrite Z.ones_spec_high, andb_false_r, Z.shiftl_spec, Z.shiftr_spec by lia.
    by replace (n - 8 + 8) with n by lia.
Qed.

(** An endpoint [publish] accepts. *)
Definition valid_endpoint (e : Endpoint) : Prop :=
  wf_endpoint e /\ ep_port e <> 0 /\ forallb (fun c => c =? 0) (ep_token e) = false.

Lemma record_decode_encode e :
  wf_endpoint e ->
  decode (encode e) = if truthy (ep_port e) && negb (forallb (fun c => c =? 0) (ep_token e)) then Some e else None.
Proof.
  intros Hw. unfold decode. rewrite record_length_encode by done. destruct Hw as (Hp & Ht & _).
  change (take 4 (encode e)) with recordMagic. rewrite bool_decide_eq_true_2 by done. cbn [negb orb Nat.eqb wireSize].
  change (nth 4 (encode e) 0) with (Z.land (ep_port e) 255).
  change (nth 5 (encode e) 0) with (Z.shiftr (ep_port e) 8). rewrite port_bytes by done.
  change (drop 6 (encode e)) with (ep_token e). rewrite firstn_all2 by lia.
  destruct (truthy (ep_port e)); cbn [negb orb andb]; [|done].
  destruct (forallb _ _); [done|]. by destruct e.
Qed.

Lemma decode_valid e : wf_endpoint e -> is_Some (decode (encode e)) -> valid_endpoint e.
Proof.
  intros Hw [x Hx]. rewrite record_decode_encode in Hx by done. destruct (truthy (ep_port e)) eqn:E1; [|done].
  destruct (forallb _ _) eqn:E2; [done|]. split; [done|]. split; [by apply truthy_true|done].
Qed.

(** What a reader makes of the beginning of a record. *)
Lemma decode_prefix bs off e e' :
  valid_endpoint e -> bs `prefix_of` drop off (encode e) -> decode bs = Some e' -> e' = e.
Proof.
  intros (Hw & Hp & Ht) Hb Hd. assert (length bs = wireSize) as Hlen.
  { unfold decode in Hd. destruct (Nat.eqb (length bs) wireSize) eqn:E; [by apply Nat.eqb_eq|done]. }
  pose proof (prefix_length _ _ Hb) as Hle. rewrite length_drop, record_length_encode, Hlen in Hle by done.
  assert (off = 0)%nat as -> by (unfold wireSize in *; lia). rewrite drop_0 in Hb.
  assert (bs = encode e) as ->.
  { apply prefix_length_eq; [done|]. by rewrite record_length_encode, Hlen by done. }
  rewrite record_decode_encode, Ht in Hd by done.
  assert (truthy (ep_port e) = true) as Ht' by (apply truthy_true; exact Hp). rewrite Ht' in Hd.
  by injection Hd.
Qed.

(** * What a process may do *)

(** The ghost state of a process: the lock file it has open, whether it holds the
    lock, its temporary file and what it wrote there, the record it reads, the
    endpoint it published. *)
Record Ghost := mkGhost {
  g_lockfd : option Z;
  g_lock : bool;
  g_temp : option (Z * list Z * list Z);
  g_record : option Z;
  g_pub : option Endpoint;
}.
Definition noGhost : Ghost := mkGhost None false None None None.

Definition set_temp g v := mkGhost (g_lockfd g) (g_lock g) v (g_record g) (g_pub g).
Definition set_pub g v := mkGhost (g_lockfd g) (g_lock g) (g_temp g) (g_record g) v.

Definition isTemp (name : list Z) : Prop := tempPrefix `prefix_of` name.

Section Obeys.
(** The endpoints given to [publish]. *)
Context (asked : Endpoint -> Prop).

Definition genuine (bs : list Z) : Prop := exists e, asked e /\ valid_endpoint e /\ bs = encode e.

Definition allowed {X} (g : Ghost) (c : Sys X) : Prop :=
  match c with
  | OpenAt _ name OpenRead => name <> lockName
  | OpenAt _ name OpenCreate => name = lockName /\ g_lockfd g = None /\ g_lock g = false
  | OpenAt _ name OpenExclusive => isTemp name /\ g_temp g = None
  | Flock fd => g_lockfd g = Some fd
  | Write fd _ => exists name w, g_temp g = Some (fd, name, w)
  | Read fd _ => forall name w, g_temp g <> Some (fd, name, w)
  | RenameAt _ old new =>
    new = recordName /\ g_lock g = true /\ exists fd w, g_temp g = Some (fd, old, w) /\ genuine w
  | UnlinkAt _ name =>
    (exists fd w, g_temp g = Some (fd, name, w)) \/ (name = recordName /\ g_lock g = true)
  | _ => True
  end.

(** [fd] is none of the descriptors the ghost state names. *)
Definition fresh (g : Ghost) (fd : Z) : Prop :=
  g_lockfd g <> Some fd /\ g_record g <> Some fd /\ forall n w, g_temp g <> Some (fd, n, w).

(** What the ghost state knows of an answer. *)
Definition plausible {X} (g : Ghost) (c : Sys X) : X -> Prop :=
  match c in Sys X return X -> Prop with
  | OpenDir _ | OpenRandom | OpenAt _ _ _ => fun x => 0 <= x -> fresh g x
  | Write _ bytes => fun x => x <= Z.of_nat (length bytes)
  | Read fd _ => fun x =>
    g_record g = Some fd ->
    match x with Some bs => exists r off, genuine r /\ bs `prefix_of` drop off r | None => True end
  | _ => fun _ => True
  end.

Definition closed_ghost (g : Ghost) (fd : Z) : Ghost :=
  mkGhost (if bool_decide (g_lockfd g = Some fd) then None else g_lockfd g)
    (if bool_decide (g_lockfd g = Some fd) then false else g_lock g)
    (match g_temp g with Some (f, n, w) => if f =? fd then None else Some (f, n, w) | None => None end)
    (if bool_decide (g_record g = Some fd) then None else g_record g)
    (if bool_decide (g_lockfd g = Some fd) then None else g_pub g).

Definition after {X} (g : Ghost) (c : Sys X) : X -> Ghost :=
  match c in Sys X return X -> Ghost with
  | OpenAt _ name mode => fun x =>
    if x <? 0 then g else
    match mode with
    | OpenRead => if bool_decide (name = recordName)
                  then mkGhost (g_lockfd g) (g_lock g) (g_temp g) (Some x) (g_pub g) else g
    | OpenCreate => mkGhost (Some x) (g_lock g) (g_temp g) (g_record g) (g_pub g)
    | OpenExclusive => set_temp g (Some (x, name, []))
    end
  | Flock _ => fun x => if x =? 0 then mkGhost (g_lockfd g) true (g_temp g) (g_record g) (g_pub g) else g
  | Write fd bytes => fun x =>
    match g_temp g with
    | Some (f, n, w) => if x <? 0 then g else set_temp g (Some (f, n, w ++ take (Z.to_nat x) bytes))
    | None => g
    end
  | RenameAt _ _ _ => fun x =>
    if x =? 0
    then set_pub (set_temp g None)
           (match g_temp g with Some (_, _, w) => decode w | None => None end)
    else g
  | UnlinkAt _ name => fun x =>
    if x =? 0
    then if bool_decide (name = recordName) then set_pub g None else set_temp g None
    else g
  | Close fd => fun _ => closed_ghost g fd
  | _ => fun _ => g
  end.

(** Every run of [p] from [g] does only what is allowed and ends in [Q]. *)
Fixpoint obeys {A} (g : Ghost) (p : Prog A) (Q : A -> Ghost -> Prop) : Prop :=
  match p with
  | Ret a => Q a g
  | Do c k => allowed g c /\ forall x, plausible g c x -> obeys (after g c x) (k x) Q
  | Hang => True
  end.

Lemma obeys_bind {A B} g (p : Prog A) (f : A -> Prog B) (Q : A -> Ghost -> Prop) R :
  obeys g p Q -> (forall a g', Q a g' -> obeys g' (f a) R) -> obeys g (bind p f) R.
Proof.
  revert g. induction p as [a|X c k IH|]; intros g; cbn [bind obeys]; [by auto| |done].
  intros [Ha Hk] Hf. split; [done|]. intros x Hx. by apply IH; [apply Hk|].
Qed.

Lemma closed_fresh g fd : fresh g fd -> closed_ghost g fd = g.
Proof.
  intros (H1 & H2 & H3). unfold closed_ghost. rewrite !(bool_decide_eq_false_2 (g_lockfd g = _)) by done.
  rewrite (bool_decide_eq_false_2 (g_record g = _)) by done. destruct g as [lfd l t r p]; simpl in *.
  destruct t as [[[f n] w]|]; [|done]. destruct (f =? fd) eqn:E; [|done]. apply Z.eqb_eq in E as ->.
  by destruct (H3 n w).
Qed.

Lemma obeys_mono {A} g (p : Prog A) (Q R : A -> Ghost -> Prop) :
  obeys g p Q -> (forall a g', Q a g' -> R a g') -> obeys g p R.
Proof.
  revert g. induction p as [a|X c k IH|]; intros g; cbn [obeys]; [by auto| |done].
  intros [Ha Hk] Hf. split; [done|]. intros x Hx. by apply IH; [apply Hk|].
Qed.

(** ** The programs obey *)

Section Programs.
Context (euid : Z) (rounds : nat).

(** Calls that do not concern the ghost state. *)
Lemma obeys_check g fd directory : obeys g (check euid fd directory) (fun _ g' => g' = g).
Proof. unfold check. split; [done|]. by intros st _. Qed.

Lemma obeys_dropFd g fd : fresh g fd -> obeys g (dropFd fd) (fun _ g' => g' = g).
Proof.
  intros Hf. unfold dropFd. destruct (0 <=? fd); [|done]. split; [done|]. intros x _. by apply closed_fresh.
Qed.

Lemma obeys_openDir g path create :
  obeys g (openDir euid path create) (fun fd g' => g' = g /\ (0 <= fd -> fresh g fd)).
Proof.
  unfold openDir. destruct (_ || _); [split; [done|lia]|].
  eapply obeys_bind with (Q := fun _ g' => g' = g).
  { destruct create; [|done]. split; [done|]. intros r _. cbn [after bind].
    destruct (truthy r); [|done]. split; [done|]. by intros e _. }
  intros [] g' ->; [split; [done|lia]|]. split; [done|]. intros fd Hfd. cbn [after bind].
  destruct (fd <? 0) eqn:E; [split; [done|lia]|].
  eapply obeys_bind; [apply obeys_check|]. intros [] g' ->; [by split|].
  split; [done|]. intros x _. cbn [after bind]. rewrite closed_fresh by (apply Hfd; lia). split; [done|lia].
Qed.

Lemma obeys_randomLoop g fuel fd n have :
  fresh g fd -> obeys g (randomLoop fuel fd n have) (fun _ g' => g' = g).
Proof.
  intros (_ & _ & Hf). revert have. induction fuel as [|fuel IH]; intros have; cbn [randomLoop];
    (destruct (n <=? length have)%nat; [done|]); [done|].
  split; [exact Hf|]. intros [[|b bs]|] _; cbn [after bind]; [done|apply IH|].
  split; [done|]. intros e _. cbn [after bind]. destruct (e =? EINTR); [apply IH|done].
Qed.

Lemma obeys_tempName g :
  obeys g (tempName rounds) (fun r g' => g' = g /\ match r with Some t => isTemp t | None => True end).
Proof.
  unfold tempName. eapply obeys_bind with (Q := fun _ g' => g' = g).
  - unfold secureRandom. split; [done|]. intros fd Hfd. cbn [after bind].
    destruct (fd <? 0) eqn:E; [done|]. assert (fresh g fd) as Hf by (apply Hfd; lia).
    eapply obeys_bind; [apply obeys_randomLoop, Hf|]. intros r g' ->.
    eapply obeys_bind; [by apply obeys_dropFd|]. by intros [] g' ->.
  - intros [r|] g' ->; (split; [done|]); [|done]. by eexists.
Qed.

Lemma obeys_writeLoop g fuel fd name bytes written :
  g_temp g = Some (fd, name, take written bytes) -> (written <= length bytes)%nat ->
  obeys g (writeLoop fuel fd bytes written)
    (fun ok g' => exists w, g' = set_temp g (Some (fd, name, w)) /\ (ok = true -> w = bytes)).
Proof.
  revert g written. induction fuel as [|fuel IH]; intros g written Hg Hw; cbn [writeLoop];
    destruct (length bytes <=? written)%nat eqn:E.
  all: try (apply Nat.leb_le in E; exists (take written bytes); split;
    [destruct g; simpl in *; by rewrite Hg|intros _; by apply firstn_all2]).
  { done. }
  split; [by exists name, (take written bytes)|]. intros n Hn. cbn [bind plausible] in *. rewrite length_drop in Hn.
  assert (after g (Write fd (drop written bytes)) n
    = if n <? 0 then g else set_temp g (Some (fd, name, take (written + Z.to_nat n) bytes))) as ->.
  { cbn [after]. rewrite Hg. destruct (n <? 0); [done|]. by rewrite take_take_drop. }
  destruct (n <? 0) eqn:En.
  - split; [done|]. intros e _. cbn [after bind]. destruct (e =? EINTR); [by apply IH|].
    destruct (n <=? 0) eqn:En2; [|lia]. exists (take written bytes). split; [|done]. destruct g; simpl in *. by rewrite Hg.
  - cbn [bind]. destruct (n <=? 0) eqn:En2.
    + exists (take (written + Z.to_nat n) bytes). by split.
    + eapply obeys_mono; [apply IH; [done|lia]|]. intros ok g' (w & -> & Hok). by exists w.
Qed.

(** *** Owners *)

(** Between two calls. *)
Definition idle_ghost (impl : option Impl) : Ghost :=
  match impl with
  | None => noGhost
  | Some im => mkGhost (Some (im_lock im)) true None None (Some (im_endpoint im))
  end.
Definition idle_ok (impl : option Impl) (g : Ghost) : Prop :=
  g = idle_ghost impl /\ match impl with Some im => asked (im_endpoint im) /\ 0 <= im_lock im | None => True end.

(** Closing the lock file and the directory. *)
Lemma obeys_dropImpl g dir lock :
  (0 <= lock -> g_lockfd g = Some lock) -> (lock < 0 -> g_lockfd g = None /\ g_lock g = false /\ g_pub g = None) ->
  obeys g (dropImpl dir lock) (fun _ g' =>
    g_lockfd g' = None /\ g_lock g' = false /\ g_pub g' = None
    /\ (g_temp g = None -> g_temp g' = None)
    /\ (g_record g' = None \/ g_record g' = g_record g)).
Proof.
  intros H1 H2. unfold dropImpl. set (g1 := if 0 <=? lock then closed_ghost g lock else g).
  assert (g_lockfd g1 = None /\ g_lock g1 = false /\ g_pub g1 = None /\ (g_temp g = None -> g_temp g1 = None)
    /\ (g_record g1 = None \/ g_record g1 = g_record g)) as Hg1.
  { unfold g1. destruct (0 <=? lock) eqn:E.
    - unfold closed_ghost. rewrite !(bool_decide_eq_true_2 (g_lockfd g = _)) by (apply H1; lia). simpl.
      split_and!; try done; [by intros ->|]. case_bool_decide; [by left|by right].
    - destruct (H2 ltac:(lia)) as (-> & -> & ->). split_and!; try done. by right. }
  eapply obeys_bind with (Q := fun _ g' => g' = g1).
  { unfold dropFd, g1. destruct (0 <=? lock); [|done]. split; [done|]. by intros x _. }
  intros [] g' ->. destruct Hg1 as (A1 & A2 & A3 & A4 & A5). unfold dropFd. destruct (0 <=? dir).
  - split; [done|]. intros x _. cbn [after]. unfold closed_ghost. rewrite A1, A2, A3. simpl.
    split_and!; try done.
    + intros Ht. by rewrite (A4 Ht).
    + case_bool_decide; [by left|done].
  - by split_and!.
Qed.

(** The ghost state of an owner that publishes: the lock held, a temporary file. *)
Definition publishing (lock : Z) (temp : option (Z * list Z * list Z)) : Ghost :=
  mkGhost (Some lock) true temp None None.

Lemma obeys_dropAll g dir lock :
  g_temp g = None -> g_record g = None ->
  (0 <= lock -> g_lockfd g = Some lock) -> (lock < 0 -> g_lockfd g = None /\ g_lock g = false /\ g_pub g = None) ->
  obeys g (let$ _ := dropImpl dir lock in Ret (false, None)) (fun r g' => idle_ok r.2 g').
Proof.
  intros Ht Hr H1 H2. eapply obeys_bind; [by apply obeys_dropImpl|].
  intros [] [lfd l t r p] (A1 & A2 & A3 & A4 & A5). simpl in *. split; [|done].
  subst. rewrite A4 by done. unfold idle_ghost, noGhost. f_equal. destruct A5 as [->| ->]; done.
Qed.

Lemma temp_names name : isTemp name -> name <> recordName /\ name <> lockName.
Proof. intros [k ->]. unfold tempPrefix, recordName, lockName. split; intros H; simpl in H; discriminate. Qed.

Lemma obeys_giveUp dir lock f temp w :
  isTemp temp -> 0 <= f -> 0 <= lock -> f <> lock ->
  obeys (publishing lock (Some (f, temp, w)))
    (let$ _ := sys (UnlinkAt dir temp) in let$ _ := dropFd f in
     let$ _ := dropImpl dir lock in Ret (false, None)) (fun r g' => idle_ok r.2 g').
Proof.
  intros Ht Hf Hl Hne. destruct (temp_names _ Ht) as [Hn _]. split; [left; by exists f, w|].
  intros x _. cbn [after bind]. rewrite (bool_decide_eq_false_2 (temp = recordName)) by done.
  unfold dropFd. replace (0 <=? f) with true by lia. split; [done|]. intros y _. cbn [after bind].
  assert (closed_ghost (if x =? 0 then set_temp (publishing lock (Some (f, temp, w))) None
                        else publishing lock (Some (f, temp, w))) f = publishing lock None) as ->.
  { unfold closed_ghost, publishing. destruct (x =? 0); simpl; rewrite ?Z.eqb_refl;
      rewrite (bool_decide_eq_false_2 (Some lock = Some f)) by congruence; done. }
  apply obeys_dropAll; simpl; (done || lia).
Qed.

Lemma obeys_publishFile e dir lock f temp :
  isTemp temp -> 0 <= f -> 0 <= lock -> f <> lock -> asked e -> valid_endpoint e ->
  obeys (publishing lock (Some (f, temp, []))) (publishFile rounds e dir lock f temp (encode e))
    (fun r g' => idle_ok r.2 g').
Proof.
  intros Ht Hf Hl Hne Ha Hv. unfold publishFile. cbv zeta.
  eapply obeys_bind; [apply (obeys_writeLoop _ _ _ temp); [done|lia]|].
  intros ok g' (w & -> & Hok). change (set_temp _ _) with (publishing lock (Some (f, temp, w))).
  destruct ok; cbn [negb]; [|by apply obeys_giveUp]. rewrite (Hok eq_refl).
  split; [done|]. intros synced _. cbn [after bind]. destruct (truthy synced) eqn:Es; cbn [bind].
  { rewrite Es. by apply obeys_giveUp. }
  split.
  { split; [done|]. split; [done|]. exists f, (encode e). split; [done|]. by exists e. }
  intros r _. cbn [after bind]. destruct (truthy r) eqn:Er.
  - replace (r =? 0) with false by (unfold truthy in Er; lia). by apply obeys_giveUp.
  - replace (r =? 0) with true by (unfold truthy in Er; lia). cbn [g_temp publishing].
    destruct Hv as (Hw & Hp & Hz). rewrite record_decode_encode by done.
    assert (truthy (ep_port e) = true) as -> by (apply truthy_true; exact Hp). rewrite Hz. cbn [negb andb].
    unfold dropFd. replace (0 <=? f) with true by lia. split; [done|]. intros x _. cbn [after bind].
    split; [|done]. unfold closed_ghost. simpl.
    rewrite !(bool_decide_eq_false_2 (Some lock = Some f)) by congruence. done.
Qed.

Lemma obeys_publish impl g path e :
  idle_ok impl g -> wf_endpoint e -> asked e ->
  obeys g (publish euid rounds impl path e) (fun r g' => idle_ok r.2 g').
Proof.
  intros [-> Hi] Hw Ha. unfold publish. destruct impl as [im|]; [by split|]. cbv zeta.
  destruct (decode (encode e)) as [v|] eqn:Ev; [|done].
  assert (valid_endpoint e) as Hv by (apply decode_valid; [done|by eexists]).
  eapply obeys_bind; [apply obeys_tempName|]. intros [temp|] g' [-> Ht]; [|done].
  eapply obeys_bind; [apply obeys_openDir|]. intros dir g' [-> _]. destruct (dir <? 0); [done|].
  split; [done|]. intros lock _. cbn [after bind].
  destruct (lock <? 0) eqn:El; cbn [bind negb]; [apply obeys_dropAll; simpl; (done || lia)|].
  set (g1 := mkGhost (Some lock) false None None None).
  eapply obeys_bind; [apply obeys_check|]. intros [] g' ->; cbn [negb];
    [|apply obeys_dropAll; simpl; (done || lia)].
  split; [done|]. intros locked _. cbn [after bind]. destruct (truthy locked) eqn:Elk.
  { replace (locked =? 0) with false by (unfold truthy in Elk; lia). apply obeys_dropAll; simpl; (done || lia). }
  replace (locked =? 0) with true by (unfold truthy in Elk; lia). change (mkGhost _ _ _ _ _) with (publishing lock None).
  split; [by split|]. intros f Hf. cbn [after bind].
  destruct (f <? 0) eqn:Ef; [apply obeys_dropAll; simpl; (done || lia)|].
  apply obeys_publishFile; try done; try lia. destruct (Hf ltac:(lia)) as (Hne & _). simpl in Hne. congruence.
Qed.

(** *** Readers *)

Lemma obeys_readRecord g fuel fd :
  g_record g = Some fd -> g_temp g = None ->
  obeys g (readRecord fuel fd) (fun b g' => g' = g
    /\ match b with Some bs => exists r off, genuine r /\ bs `prefix_of` drop off r | None => True end).
Proof.
  intros Hg Ht. induction fuel as [|fuel IH]; [done|]. split; [intros nm w; by rewrite Ht|]. intros [bs|] Hx; cbn [after bind].
  - split; [done|]. by apply Hx.
  - split; [done|]. intros e _. cbn [after bind]. destruct (e =? EINTR); [exact IH|done].
Qed.

(** Opening the record, from a ghost state without one. *)
Definition with_record g fd := mkGhost (g_lockfd g) (g_lock g) (g_temp g) (Some fd) (g_pub g).

Lemma after_openRecord g dir fd :
  0 <= fd -> after g (OpenAt dir recordName OpenRead) fd = with_record g fd.
Proof. intros H. cbn [after]. by replace (fd <? 0) with false by lia. Qed.

Lemma closed_record g fd : g_record g = None -> fresh g fd -> closed_ghost (with_record g fd) fd = g.
Proof.
  intros Hr Hf. pose proof (closed_fresh g fd Hf) as H. unfold closed_ghost in *. simpl.
  destruct g as [lfd l t r p]. simpl in *. subst r. rewrite (bool_decide_eq_true_2 (Some fd = Some fd)) by done.
  injection H as E1 E2 E3 E4. by f_equal.
Qed.

Lemma obeys_readEndpoint g path :
  g_record g = None -> g_temp g = None ->
  obeys g (readEndpoint euid rounds path) (fun r g' => g' = g /\ match r with Some e => asked e | None => True end).
Proof.
  intros Hg Ht. unfold readEndpoint. eapply obeys_bind; [apply obeys_openDir|]. intros dir g' [-> Hd].
  destruct (dir <? 0) eqn:Ed; [done|]. assert (fresh g dir) as Hfd by (apply Hd; lia).
  split; [by intros [=]|]. intros f Hf. destruct (f <? 0) eqn:Ef.
  { assert (after g (OpenAt dir recordName OpenRead) f = g) as -> by (cbn [after]; by rewrite Ef).
    cbn [bind]. rewrite Ef. eapply obeys_bind; [by apply obeys_dropFd|]. by intros [] g' ->. }
  rewrite after_openRecord by lia. cbn [bind]. rewrite Ef. assert (fresh g f) as Hff by (apply Hf; lia).
  eapply obeys_bind; [apply obeys_check|]. intros safe g' ->.
  eapply obeys_bind with (Q := fun b g' => g' = with_record g f
    /\ match b with Some bs => exists r off, genuine r /\ bs `prefix_of` drop off r | None => True end).
  { destruct safe; [by apply obeys_readRecord|done]. }
  intros b g' [-> Hb]. eapply obeys_bind with (Q := fun _ g' => g' = g).
  { unfold dropFd. replace (0 <=? f) with true by lia. split; [done|]. intros x _. by apply closed_record. }
  intros [] g' ->. eapply obeys_bind; [by apply obeys_dropFd|]. intros [] g' ->. split; [done|].
  destruct b as [bs|]; [|done]. destruct (decode bs) as [e'|] eqn:E; [|done].
  destruct Hb as (r & off & (e & Ha & Hv & ->) & Hpre). by rewrite (decode_prefix bs off e e').
Qed.

Lemma obeys_close impl g : idle_ok impl g -> obeys g (close euid rounds impl) (fun r g' => idle_ok r g').
Proof.
  intros [-> Hi]. unfold close. destruct impl as [im|]; [|done]. destruct Hi as [Ha Hl]. cbv zeta.
  set (g := idle_ghost (Some im)). split; [by intros [=]|]. intros f Hf.
  set (g1 := after g (OpenAt (im_dir im) recordName OpenRead) f).
  assert (0 <= f -> g1 = with_record g f /\ fresh g f) as Hopen
    by (intros H; split; [by apply after_openRecord|by apply Hf]).
  assert (f < 0 -> g1 = g) as Hnone by (intros H; unfold g1; cbn [after]; by replace (f <? 0) with true by lia).
  set (held g' := g_lockfd g' = Some (im_lock im) /\ g_temp g' = None
    /\ g_record g' = (if f <? 0 then None else Some f)).
  assert (held g1) as Hg1.
  { unfold held. destruct (f <? 0) eqn:E; [by rewrite Hnone by lia|].
    by destruct (Hopen ltac:(lia)) as [-> _]. }
  cbn [bind]. eapply obeys_bind with (Q := fun _ g' => g' = g1).
  { destruct (f <? 0); [done|]. apply obeys_check. }
  intros safe g' ->. eapply obeys_bind with (Q := fun _ g' => held g').
  { destruct safe; [|exact Hg1]. destruct (f <? 0) eqn:E.
    - eapply obeys_bind with (Q := fun _ g' => g' = g1); [|].
      + assert (g_temp g1 = None) as Ht by apply Hg1. clear -Ht.
        induction rounds as [|n IH]; [done|]. split; [intros nm w; by rewrite Ht|]. intros [bs|] _; cbn [after bind]; [done|].
        split; [done|]. intros e _. cbn [after bind]. destruct (e =? EINTR); [exact IH|done].
      + intros b g' ->. case_bool_decide; [|exact Hg1]. split; [right; split; [done|]; by rewrite Hnone by lia|].
        intros x _. cbn [after bind]. rewrite bool_decide_eq_true_2 by done. destruct (x =? 0); [|exact Hg1].
        by rewrite Hnone by lia.
    - destruct (Hopen ltac:(lia)) as [Eg Hff].
      eapply obeys_bind; [by apply obeys_readRecord; rewrite Eg|].
      intros b g' [-> _]. case_bool_decide; [|exact Hg1]. split; [right; split; [done|]; by rewrite Eg|].
      intros x _. cbn [after bind]. rewrite bool_decide_eq_true_2 by done. destruct (x =? 0); [|exact Hg1].
      by rewrite Eg. }
  intros [] g' (H1 & H2 & H3).
  eapply obeys_bind; [apply obeys_dropImpl; [done|lia]|].
  intros [] [lfd l t r p] (A1 & A2 & A3 & A4 & A5). simpl in *. subst lfd l p. rewrite A4 by done.
  unfold dropFd. destruct (0 <=? f) eqn:E.
  - replace (f <? 0) with false in H3 by lia. split; [done|]. intros x _. cbn [after bind]. split; [|done].
    unfold closed_ghost, idle_ghost, noGhost. simpl. f_equal. destruct A5 as [->| ->]; [done|].
    rewrite H3. by rewrite bool_decide_eq_true_2.
  - replace (f <? 0) with true in H3 by lia. split; [|done]. unfold idle_ghost, noGhost. f_equal.
    destruct A5 as [->| ->]; [done|exact H3].
Qed.
End Programs.
End Obeys.
