(* ===== verification/RendezvousSafe.v ===== *)
(** * The rendezvous directory stays sound

    What holds of the directory in every reachable state of RendezvousSystem.v, and
    the two promises of the record that follow from it: a client reads only what was
    published, and a live owner's record is its own. *)
From stdpp Require Import gmap.
From S2P Require Import Prelude FileSystem Rendezvous RendezvousSystem.
From S2P Require Process.

Section Sound.
Context (asked : Endpoint -> Prop).
Implicit Types (d : Directory) (g : nat -> Ghost).

(** The inode holds a complete record and nobody writes it any more. *)
Definition frozen d g (ino : nat) : Prop :=
  (ino < d_next d)%nat
  /\ (exists bs, d_data d !! ino = Some bs /\ genuine asked bs)
  /\ forall q fd n w, g_temp (g q) = Some (fd, n, w) -> d_names d !! n <> Some ino.

Record sound d g : Prop := {
  so_inj a b i : d_names d !! a = Some i -> d_names d !! b = Some i -> a = b;
  so_names a i : d_names d !! a = Some i -> (i < d_next d)%nat;
  so_files k i o : d_files d !! k = Some (AFile i o) -> (i < d_next d)%nat;
  so_record i : d_names d !! recordName = Some i -> frozen d g i;
  so_lockfd p fd : g_lockfd (g p) = Some fd ->
    exists i o, d_files d !! (p, fd) = Some (AFile i o) /\ d_names d !! lockName = Some i;
  so_lock p : g_lock (g p) = true ->
    exists fd i, g_lockfd (g p) = Some fd /\ d_names d !! lockName = Some i /\ d_lock d !! i = Some (p, fd);
  so_temp p fd n w : g_temp (g p) = Some (fd, n, w) ->
    isTemp n /\ exists i, d_files d !! (p, fd) = Some (AFile i (length w)) /\ d_data d !! i = Some w
      /\ d_names d !! n = Some i;
  so_unique p q fd fd' n w w' :
    g_temp (g p) = Some (fd, n, w) -> g_temp (g q) = Some (fd', n, w') -> p = q;
  so_reading p fd : g_record (g p) = Some fd ->
    exists i o, d_files d !! (p, fd) = Some (AFile i o) /\ frozen d g i;
  so_pub p e : g_pub (g p) = Some e ->
    g_lock (g p) = true
    /\ exists i, d_names d !! recordName = Some i /\ d_data d !! i = Some (encode e);
}.

(** One owner. *)
Lemma one_owner d g p q : sound d g -> g_lock (g p) = true -> g_lock (g q) = true -> p = q.
Proof.
  intros H Hp Hq. destruct (so_lock _ _ H p Hp) as (fd & i & _ & H1 & H2).
  destruct (so_lock _ _ H q Hq) as (fd' & i' & _ & H3 & H4). congruence.
Qed.

Lemma others_pub d g p q : sound d g -> g_lock (g p) = true -> q <> p -> g_pub (g q) = None.
Proof.
  intros H Hp Hq. destruct (g_pub (g q)) as [e|] eqn:E; [|done]. exfalso. apply Hq.
  apply (one_owner d g); [done|by apply (so_pub _ _ H q e)|done].
Qed.

(** ** Changing one process's ghost state *)

Lemma update_eq {A} (f : nat -> A) p x : update f p x p = x.
Proof. unfold update. by rewrite Nat.eqb_refl. Qed.
Lemma update_ne {A} (f : nat -> A) p q x : q <> p -> update f p x q = f q.
Proof. unfold update. intros H. by rewrite (proj2 (Nat.eqb_neq q p) H). Qed.
Lemma update_cases {A} (f : nat -> A) p x q : q = p /\ update f p x q = x \/ q <> p /\ update f p x q = f q.
Proof. destruct (decide (q = p)) as [->|H]; [left; by rewrite update_eq|right; by rewrite update_ne]. Qed.

(** The temporary file is the old one, or none, or a new one whose inode nobody knows. *)
Definition temp_change d g p (gp : Ghost) : Prop :=
  forall fd n w, g_temp gp = Some (fd, n, w) ->
    g_temp (g p) = Some (fd, n, w)
    \/ (isTemp n /\ (exists i, d_files d !! (p, fd) = Some (AFile i (length w)) /\ d_data d !! i = Some w
          /\ d_names d !! n = Some i /\ ~ frozen d g i)
        /\ forall q fd' w', q <> p -> g_temp (g q) <> Some (fd', n, w')).

Lemma frozen_update d g p gp i : temp_change d g p gp -> frozen d g i -> frozen d (update g p gp) i.
Proof.
  intros Ht (H1 & H2 & H3). split_and!; [done|done|]. intros q fd n w Hq Hn.
  destruct (update_cases g p gp q) as [[-> E]|[Hne E]]; rewrite E in Hq; [|by eapply H3].
  destruct (Ht _ _ _ Hq) as [Hold|(_ & (j & _ & _ & Hj & Hnf) & _)]; [by eapply H3|].
  apply Hnf. rewrite Hn in Hj. by simplify_eq.
Qed.

Lemma sound_update d g p gp :
  sound d g -> temp_change d g p gp ->
  (forall fd, g_lockfd gp = Some fd ->
     exists i o, d_files d !! (p, fd) = Some (AFile i o) /\ d_names d !! lockName = Some i) ->
  (g_lock gp = true -> exists fd i, g_lockfd gp = Some fd /\ d_names d !! lockName = Some i
     /\ d_lock d !! i = Some (p, fd)) ->
  (forall fd, g_record gp = Some fd -> exists i o, d_files d !! (p, fd) = Some (AFile i o) /\ frozen d g i) ->
  (forall e, g_pub gp = Some e -> g_lock gp = true
     /\ exists i, d_names d !! recordName = Some i /\ d_data d !! i = Some (encode e)) ->
  sound d (update g p gp).
Proof.
  intros H Ht Hlf Hl Hr Hp. pose proof (frozen_update d g p gp) as Hf.
  split; try apply H.
  - intros i Hi. apply Hf; [done|]. by apply H.
  - intros q fd Hq. destruct (update_cases g p gp q) as [[-> E]|[_ E]]; rewrite E in Hq; [by apply Hlf|by apply H].
  - intros q Hq. destruct (update_cases g p gp q) as [[-> E]|[_ E]]; rewrite E in *; [by apply Hl|by apply H].
  - intros q fd n w Hq. destruct (update_cases g p gp q) as [[-> E]|[_ E]]; rewrite E in Hq; [|by apply H].
    destruct (Ht _ _ _ Hq) as [Hold|(H1 & (i & H2 & H3 & H4 & _) & _)]; [by apply H|]. split; [done|by exists i].
  - intros q q' fd fd' n w w' Hq Hq'.
    destruct (update_cases g p gp q) as [[-> E]|[Hne E]]; rewrite E in Hq;
      destruct (update_cases g p gp q') as [[-> E']|[Hne' E']]; rewrite E' in Hq'; try done.
    + destruct (Ht _ _ _ Hq) as [Hold|(_ & _ & Hno)]; [by eapply (so_unique _ _ H)|by destruct (Hno q' fd' w')].
    + destruct (Ht _ _ _ Hq') as [Hold|(_ & _ & Hno)]; [by eapply (so_unique _ _ H)|by destruct (Hno q fd w)].
    + by eapply (so_unique _ _ H).
  - intros q fd Hq. destruct (update_cases g p gp q) as [[-> E]|[_ E]]; rewrite E in Hq.
    + destruct (Hr _ Hq) as (i & o & H1 & H2). exists i, o. split; [done|by apply Hf].
    + destruct (so_reading _ _ H q fd Hq) as (i & o & H1 & H2). exists i, o. split; [done|by apply Hf].
  - intros q e Hq. destruct (update_cases g p gp q) as [[-> E]|[_ E]]; rewrite E in *; [by apply Hp|by apply H].
Qed.

Lemma sound_ext d g g' : (forall q, g q = g' q) -> sound d g -> sound d g'.
Proof.
  intros E [A1 A2 A3 A4 A5 A6 A7 A8 A9 A10].
  assert (forall i, frozen d g i -> frozen d g' i) as Hf.
  { intros i (B1 & B2 & B3). split_and!; [done|done|]. intros q fd n w. rewrite <- E. apply B3. }
  split; try done.
  - intros i Hi. by apply Hf, A4.
  - intros q fd. rewrite <- E. apply A5.
  - intros q. rewrite <- E. apply A6.
  - intros q fd n w. rewrite <- E. apply A7.
  - intros q q' fd fd' n w w'. rewrite <- !E. apply A8.
  - intros q fd. rewrite <- E. intros Hq. destruct (A9 q fd Hq) as (i & o & B1 & B2). exists i, o. split; [done|by apply Hf].
  - intros q e'. rewrite <- E. apply A10.
Qed.

Lemma temp_same d g p gp : g_temp gp = g_temp (g p) \/ g_temp gp = None -> temp_change d g p gp.
Proof. intros [E|E] fd n w; rewrite E; [by left|done]. Qed.

Lemma sound_same d g p : sound d g -> sound d (update g p (g p)).
Proof.
  intros H. apply sound_update; [done|by apply temp_same; left|apply H..].
Qed.

(** ** Changing the directory *)

(** Descriptors that no ghost state names come and go. *)
Definition keeps_files d d' g : Prop :=
  d_names d' = d_names d /\ d_data d' = d_data d /\ d_next d' = d_next d
  /\ (forall k i o, d_files d' !! k = Some (AFile i o) -> (i < d_next d)%nat)
  /\ (forall q fd i o, ~ fresh (g q) fd -> d_files d !! (q, fd) = Some (AFile i o) ->
       exists o', d_files d' !! (q, fd) = Some (AFile i o')
         /\ ((exists n w, g_temp (g q) = Some (fd, n, w)) -> o' = o))
  /\ (forall q fd i, g_lock (g q) = true -> g_lockfd (g q) = Some fd -> d_names d !! lockName = Some i ->
       d_lock d !! i = Some (q, fd) -> d_lock d' !! i = Some (q, fd)).

Lemma sound_files d d' g : sound d g -> keeps_files d d' g -> sound d' g.
Proof.
  intros H (En & Ed & Ex & Hf & Hk & Hl).
  assert (forall i, frozen d g i -> frozen d' g i) as Hfr.
  { intros i (H1 & H2 & H3). by split; [rewrite Ex|rewrite Ed, En]. }
  split; rewrite ?En, ?Ed, ?Ex; try apply H.
  - exact Hf.
  - intros i Hi. apply Hfr. by apply H.
  - intros p fd Hp. destruct (so_lockfd _ _ H p fd Hp) as (i & o & H1 & H2).
    destruct (Hk p fd i o) as (o' & Ho & _); [by intros [Hc _]|done|]. by exists i, o'.
  - intros p Hp. destruct (so_lock _ _ H p Hp) as (fd & i & H1 & H2 & H3). exists fd, i.
    split; [done|]. split; [done|]. by apply Hl.
  - intros p fd n w Hp. destruct (so_temp _ _ H p fd n w Hp) as (H1 & i & H2 & H3 & H4). split; [done|].
    exists i. split; [|by split]. destruct (Hk p fd i (length w)) as (o' & Ho & Hsame); [|done|].
    { intros (_ & _ & Hc). by destruct (Hc n w). }
    by rewrite Ho, Hsame by by exists n, w.
  - intros p fd Hp. destruct (so_reading _ _ H p fd Hp) as (i & o & H1 & H2).
    destruct (Hk p fd i o) as (o' & Ho & _); [by intros (_ & Hc & _)|done|]. exists i, o'. split; [done|by apply Hfr].
Qed.

(** Every descriptor a ghost state names is open. *)
Lemma sound_open_files d g p fd : sound d g -> d_files d !! (p, fd) = None -> fresh (g p) fd.
Proof.
  intros H Hn. split_and!.
  - intros E. destruct (so_lockfd _ _ H p fd E) as (i & o & H1 & _). congruence.
  - intros E. destruct (so_reading _ _ H p fd E) as (i & o & H1 & _). congruence.
  - intros n w E. destruct (so_temp _ _ H p fd n w E) as (_ & i & H1 & _). congruence.
Qed.

Lemma sound_open d g p fd f :
  sound d g -> d_files d !! (p, fd) = None -> (forall i o, f = AFile i o -> (i < d_next d)%nat) ->
  sound (open_file d p fd f) g.
Proof.
  intros H Hn Hf. apply (sound_files d); [done|]. split_and!; try done; simpl.
  - intros k i o. rewrite lookup_insert_Some. intros [[_ E]|[_ E]]; [by eapply Hf|by eapply (so_files _ _ H)].
  - intros q fd' i o Hq E. exists o. split; [|done]. rewrite lookup_insert_ne; [done|]. intros [= <- <-]. congruence.
Qed.

Lemma sound_create d g name :
  sound d g -> d_names d !! name = None -> name <> recordName ->
  sound (create d name) g.
Proof.
  intros H Hn Hr.
  assert (forall i, (i < d_next d)%nat -> d_data (create d name) !! i = d_data d !! i) as Hd.
  { intros i Hi. unfold create. simpl. apply lookup_insert_ne. lia. }
  assert (forall a i, d_names d !! a = Some i -> d_names (create d name) !! a = Some i) as Hold.
  { intros a i Ha. unfold create. simpl. rewrite lookup_insert_ne; [done|]. intros ->. congruence. }
  assert (forall a i, d_names (create d name) !! a = Some i -> (i < d_next d)%nat -> d_names d !! a = Some i) as Hnew.
  { intros a i. unfold create. simpl. rewrite lookup_insert_Some. intros [[_ <-]|[_ Ha]]; [lia|done]. }
  assert (forall i, frozen d g i -> frozen (create d name) g i) as Hf.
  { intros i (H1 & (bs & H2 & H2') & H3). split_and!; [simpl; lia|exists bs; by rewrite Hd|].
    intros q fd n w Hq Hc. by apply (H3 q fd n w Hq), Hnew. }
  split.
  - intros a b i. unfold create. simpl. rewrite !lookup_insert_Some.
    intros [[<- <-]|[Ha Ha']] [[<- Hb]|[Hb Hb']]; try done.
    + by pose proof (so_names _ _ H _ _ Hb'); lia.
    + subst i. by pose proof (so_names _ _ H _ _ Ha'); lia.
    + by eapply (so_inj _ _ H).
  - intros a i. unfold create. simpl. rewrite lookup_insert_Some. intros [[_ <-]|[_ Ha]]; [lia|].
    pose proof (so_names _ _ H _ _ Ha). lia.
  - intros k i o Hk. pose proof (so_files _ _ H _ _ _ Hk). simpl. lia.
  - intros i. unfold create at 1. simpl. rewrite lookup_insert_ne by done. intros Hi. by apply Hf, H.
  - intros p fd Hp. destruct (so_lockfd _ _ H p fd Hp) as (i & o & H1 & H2). exists i, o. split; [done|by apply Hold].
  - intros p Hp. destruct (so_lock _ _ H p Hp) as (fd & i & H1 & H2 & H3). exists fd, i.
    split; [done|]. split; [by apply Hold|done].
  - intros p fd n w Hp. destruct (so_temp _ _ H p fd n w Hp) as (H1 & i & H2 & H3 & H4). split; [done|].
    exists i. split; [done|]. split; [|by apply Hold]. rewrite Hd; [done|by eapply (so_names _ _ H)].
  - apply H.
  - intros p fd Hp. destruct (so_reading _ _ H p fd Hp) as (i & o & H1 & H2). exists i, o. split; [done|by apply Hf].
  - intros p e Hp. destruct (so_pub _ _ H p e Hp) as (H1 & i & H2 & H3). split; [done|]. exists i.
    split; [by apply Hold|]. rewrite Hd; [done|by eapply (so_names _ _ H)].
Qed.

Lemma sound_delete d g name :
  sound d g -> name <> lockName -> (forall q fd w, g_temp (g q) <> Some (fd, name, w)) ->
  (name = recordName -> forall q, g_pub (g q) = None) ->
  sound (set_names d (delete name (d_names d))) g.
Proof.
  intros H Hl Ht Hp.
  assert (forall i, frozen d g i -> frozen (set_names d (delete name (d_names d))) g i) as Hf.
  { intros i (H1 & H2 & H3). split_and!; [done|done|]. intros q fd n w Hq. simpl.
    rewrite lookup_delete_Some. intros [_ Hc]. by apply (H3 q fd n w Hq). }
  split; simpl; try apply H.
  - intros a b i. rewrite !lookup_delete_Some. intros [_ Ha] [_ Hb]. by eapply (so_inj _ _ H).
  - intros a i. rewrite lookup_delete_Some. intros [_ Ha]. by eapply (so_names _ _ H).
  - intros i. rewrite lookup_delete_Some. intros [_ Hi]. by apply Hf, H.
  - intros p fd Hq. destruct (so_lockfd _ _ H p fd Hq) as (i & o & H1 & H2). exists i, o.
    by rewrite lookup_delete_ne.
  - intros p Hq. destruct (so_lock _ _ H p Hq) as (fd & i & H1 & H2 & H3). exists fd, i. by rewrite lookup_delete_ne.
  - intros p fd n w Hq. destruct (so_temp _ _ H p fd n w Hq) as (H1 & i & H2 & H3 & H4). split; [done|].
    exists i. split_and!; try done. rewrite lookup_delete_ne; [done|]. intros ->. by apply (Ht p fd w).
  - intros p fd Hq. destruct (so_reading _ _ H p fd Hq) as (i & o & H1 & H2). exists i, o. split; [done|by apply Hf].
  - intros p e Hq. destruct (so_pub _ _ H p e Hq) as (H1 & i & H2 & H3). split; [done|]. exists i.
    rewrite lookup_delete_ne; [done|]. intros ->. by rewrite (Hp eq_refl p) in Hq.
Qed.

(** The record appears: [old] is complete and nobody's temporary file any more. *)
Lemma sound_rename d g old i :
  sound d g -> d_names d !! old = Some i -> frozen d g i -> old <> lockName -> old <> recordName ->
  (forall q fd w, g_temp (g q) <> Some (fd, old, w)) -> (forall q, g_pub (g q) = None) ->
  sound (set_names d (<[recordName := i]> (delete old (d_names d)))) g.
Proof.
  intros H Ho Hi Hl Hr Ht Hp. set (d' := set_names d _).
  assert (forall a j, d_names d' !! a = Some j -> (a = recordName /\ j = i)
    \/ (a <> recordName /\ a <> old /\ d_names d !! a = Some j)) as Hd.
  { intros a j. unfold d'. simpl. rewrite lookup_insert_Some, lookup_delete_Some. naive_solver. }
  assert (forall a j, a <> recordName -> a <> old -> d_names d !! a = Some j -> d_names d' !! a = Some j) as Hk.
  { intros a j H1 H2 H3. unfold d'. simpl. by rewrite lookup_insert_ne, lookup_delete_ne. }
  assert (forall n, isTemp n -> n <> recordName) as Htn by (intros n Hn; by apply temp_names).
  assert (forall j, frozen d g j -> frozen d' g j) as Hf.
  { intros j (H1 & H2 & H3). split_and!; [done|done|]. intros q fd n w Hq Hc.
    destruct (Hd _ _ Hc) as [[-> _]|(_ & _ & Hc')]; [|by apply (H3 q fd n w Hq)].
    by destruct (Htn recordName (proj1 (so_temp _ _ H q fd _ w Hq))). }
  split.
  - intros a b j Ha Hb. destruct (Hd _ _ Ha) as [[-> ->]|(A1 & A2 & A3)]; destruct (Hd _ _ Hb) as [[-> ?]|(B1 & B2 & B3)]; try done.
    + by destruct B2; eapply (so_inj _ _ H).
    + subst j. by destruct A2; eapply (so_inj _ _ H).
    + by eapply (so_inj _ _ H).
  - intros a j Ha. destruct (Hd _ _ Ha) as [[-> ->]|(_ & _ & A3)]; [by eapply (so_names _ _ H)|by eapply (so_names _ _ H)].
  - apply H.
  - intros j Hj. destruct (Hd _ _ Hj) as [[_ ->]|(A1 & _)]; [by apply Hf|done].
  - intros p fd Hq. destruct (so_lockfd _ _ H p fd Hq) as (j & o & H1 & H2). exists j, o. split; [done|]. by apply Hk.
  - intros p Hq. destruct (so_lock _ _ H p Hq) as (fd & j & H1 & H2 & H3). exists fd, j. split; [done|]. split; [by apply Hk|done].
  - intros p fd n w Hq. destruct (so_temp _ _ H p fd n w Hq) as (H1 & j & H2 & H3 & H4). split; [done|].
    exists j. split_and!; try done. apply Hk; [by apply Htn| |done]. intros ->. by apply (Ht p fd w).
  - apply H.
  - intros p fd Hq. destruct (so_reading _ _ H p fd Hq) as (j & o & H1 & H2). exists j, o. split; [done|by apply Hf].
  - intros p e Hq. by rewrite Hp in Hq.
Qed.

Lemma sound_lock d g p fd ino off :
  sound d g -> d_files d !! (p, fd) = Some (AFile ino off) -> g_lockfd (g p) = Some fd ->
  d_lock d !! ino = None \/ d_lock d !! ino = Some (p, fd) ->
  let d' := set_lock d (<[ino := (p, fd)]> (d_lock d)) in
  sound d' g /\ d_names d' !! lockName = Some ino /\ d_lock d' !! ino = Some (p, fd).
Proof.
  intros H Hf Hg Hfree d'. destruct (so_lockfd _ _ H p fd Hg) as (i & o & H1 & H2).
  assert (i = ino) as -> by congruence. split; [|split; [done|unfold d'; simpl; by rewrite lookup_insert_eq]].
  apply (sound_files d); [done|]. split_and!; try done; [apply H|intros q fd' j oo _ E; by exists oo|].
  intros q fd' i Hq Hq' Hi Hl. unfold d'. simpl. rewrite Hi in H2. simplify_eq.
  rewrite lookup_insert_eq. destruct Hfree; congruence.
Qed.

Lemma overwrite_end w bs : overwrite w (length w) bs = w ++ bs.
Proof. unfold overwrite. rewrite firstn_all, drop_ge by lia. by rewrite app_nil_r. Qed.

Lemma sound_write d g p fd n w i bs :
  sound d g -> g_temp (g p) = Some (fd, n, w) -> d_files d !! (p, fd) = Some (AFile i (length w)) ->
  d_data d !! i = Some w ->
  sound (set_files (set_data d (<[i := w ++ bs]> (d_data d)))
           (<[(p, fd) := AFile i (length w + length bs)]> (d_files d)))
    (update g p (set_temp (g p) (Some (fd, n, w ++ bs)))).
Proof.
  intros H Ht Hf Hd. destruct (so_temp _ _ H p fd n w Ht) as (Hn & i' & Hf' & _ & Hi).
  assert (i' = i) as -> by congruence. set (gp := set_temp _ _). set (d' := set_files _ _).
  assert (forall j, frozen d g j -> j <> i) as Hne by (intros j (_ & _ & H3) ->; by apply (H3 p fd n w)).
  assert (forall j, frozen d g j -> frozen d' (update g p gp) j) as Hfr.
  { intros j Hj. pose proof (Hne j Hj) as Hji. destruct Hj as (H1 & (b & H2 & H2') & H3).
    split_and!; [done|exists b; by unfold d'; simpl; rewrite lookup_insert_ne by congruence|].
    intros q fd' n' w' Hq Hc. destruct (update_cases g p gp q) as [[-> E]|[_ E]]; rewrite E in Hq;
      [|by apply (H3 q fd' n' w')]. injection Hq as <- <- <-. unfold d' in Hc. simpl in Hc. congruence. }
  assert (forall q fd' f, d_files d !! (q, fd') = Some f -> (q, fd') <> (p, fd) -> d_files d' !! (q, fd') = Some f) as Hfl.
  { intros q fd' f Hq Hc. unfold d'. simpl. by rewrite lookup_insert_ne by congruence. }
  assert (forall q fd' j o, d_files d !! (q, fd') = Some (AFile j o) -> exists o', d_files d' !! (q, fd') = Some (AFile j o')) as Hfl'.
  { intros q fd' j o Hq. destruct (decide ((q, fd') = (p, fd))) as [[= -> ->]|Hc]; [|exists o; by apply Hfl].
    rewrite Hf in Hq. simplify_eq. exists (length w + length bs)%nat. unfold d'. simpl. by rewrite lookup_insert_eq. }
  split.
  - apply H.
  - apply H.
  - intros k j o. unfold d'. simpl. rewrite lookup_insert_Some. intros [[_ [= <- _]]|[_ Hk]];
      [by eapply (so_names _ _ H)|by eapply (so_files _ _ H)].
  - intros j Hj. by apply Hfr, H.
  - intros q fd' Hq. assert (g_lockfd (g q) = Some fd') as Hq'
      by (destruct (update_cases g p gp q) as [[-> E]|[_ E]]; rewrite E in Hq; exact Hq).
    destruct (so_lockfd _ _ H q fd' Hq') as (j & o & H1 & H2). destruct (Hfl' q fd' j o H1) as [o' Ho]. by exists j, o'.
  - intros q Hq. assert (g_lock (g q) = true) as Hq'
      by (destruct (update_cases g p gp q) as [[-> E]|[_ E]]; rewrite E in Hq; exact Hq).
    destruct (so_lock _ _ H q Hq') as (fd' & j & H1 & H2 & H3). exists fd', j. split; [|done].
    destruct (update_cases g p gp q) as [[-> E]|[_ E]]; rewrite E; exact H1.
  - intros q fd' n' w' Hq. destruct (update_cases g p gp q) as [[-> E]|[Hqp E]]; rewrite E in Hq.
    + injection Hq as <- <- <-. split; [done|]. exists i. unfold d'. simpl. rewrite !lookup_insert_eq, length_app. done.
    + destruct (so_temp _ _ H q fd' n' w' Hq) as (H1 & j & H2 & H3 & H4). split; [done|]. exists j.
      split; [apply Hfl; [done|congruence]|]. split; [|done]. unfold d'. simpl. rewrite lookup_insert_ne; [done|].
      intros ->. assert (n' = n) as -> by by eapply (so_inj _ _ H). by destruct Hqp; eapply (so_unique _ _ H).
  - intros q q' fd1 fd2 n' w1 w2 Hq Hq'.
    destruct (update_cases g p gp q) as [[-> E]|[Hqp E]]; rewrite E in Hq;
      destruct (update_cases g p gp q') as [[-> E']|[Hqp' E']]; rewrite E' in Hq'; try done.
    + injection Hq as <- <- <-. by eapply (so_unique _ _ H).
    + injection Hq' as <- <- <-. by eapply (so_unique _ _ H).
    + by eapply (so_unique _ _ H).
  - intros q fd' Hq. assert (g_record (g q) = Some fd') as Hq'
      by (destruct (update_cases g p gp q) as [[-> E]|[_ E]]; rewrite E in Hq; exact Hq).
    destruct (so_reading _ _ H q fd' Hq') as (j & o & H1 & H2). destruct (Hfl' q fd' j o H1) as [o' Ho].
    exists j, o'. split; [done|by apply Hfr].
  - intros q e Hq. assert (g_pub (g q) = Some e) as Hq'
      by (destruct (update_cases g p gp q) as [[-> E]|[_ E]]; rewrite E in Hq; exact Hq).
    destruct (so_pub _ _ H q e Hq') as (H1 & j & H2 & H3). split.
    + destruct (update_cases g p gp q) as [[-> E]|[_ E]]; rewrite E; exact H1.
    + exists j. split; [done|]. unfold d'. simpl. rewrite lookup_insert_ne; [done|]. intros <-.
      by apply (Hne i); [apply H|].
Qed.

(** ** Closing and dying *)

(** [gp] knows part of what [g] knows. *)
Record forgets (gp g : Ghost) : Prop := {
  fg_lockfd : g_lockfd gp = g_lockfd g \/ g_lockfd gp = None /\ g_lock gp = false;
  fg_lock : g_lock gp = g_lock g \/ g_lock gp = false;
  fg_temp : g_temp gp = g_temp g \/ g_temp gp = None;
  fg_record : g_record gp = g_record g \/ g_record gp = None;
  fg_pub : g_pub gp = None \/ g_pub gp = g_pub g /\ g_lock gp = g_lock g;
}.

Lemma sound_forget d g p gp : sound d g -> forgets gp (g p) -> sound d (update g p gp).
Proof.
  intros H [F1 F2 F3 F4 F5]. apply sound_update; [done|by apply temp_same| | | |].
  - intros fd Hfd. apply H. destruct F1 as [E|[E _]]; congruence.
  - intros Hl. destruct (so_lock _ _ H p) as (fd & i & H1 & H2 & H3); [destruct F2; congruence|].
    exists fd, i. split_and!; try done. destruct F1 as [E|[_ E]]; congruence.
  - intros fd Hfd. apply H. destruct F4; congruence.
  - intros e He. destruct F5 as [E|[E1 E2]]; [congruence|]. rewrite E2. apply H. congruence.
Qed.

Lemma closed_forgets (g : Ghost) fd : forgets (closed_ghost g fd) g.
Proof.
  unfold closed_ghost. split; simpl.
  - case_bool_decide; [by right|by left].
  - case_bool_decide; [by right|by left].
  - destruct (g_temp g) as [[[f n] w]|]; [destruct (f =? fd); [by right|by left]|by left].
  - case_bool_decide; [by right|by left].
  - case_bool_decide; [by left|by right].
Qed.

Lemma closed_is_fresh (g : Ghost) fd : fresh (closed_ghost g fd) fd.
Proof.
  unfold closed_ghost. split_and!; simpl.
  - by case_bool_decide.
  - by case_bool_decide.
  - intros n w. destruct (g_temp g) as [[[f n'] w']|]; [|done]. destruct (f =? fd) eqn:E; [done|].
    intros [= -> _ _]. lia.
Qed.

Lemma sound_close d g p fd : sound d g -> sound (close_file d p fd) (update g p (closed_ghost (g p) fd)).
Proof.
  intros H. apply (sound_files d); [apply sound_forget; [done|apply closed_forgets]|].
  set (g' := update _ _ _). assert (fresh (g' p) fd) as Hf by (unfold g'; rewrite update_eq; apply closed_is_fresh).
  split_and!; try done; simpl.
  - intros k i o. rewrite lookup_delete_Some. intros [_ Hk]. by eapply (so_files _ _ H).
  - intros q fd' i o Hq Hk. exists o. split; [|done]. rewrite lookup_delete_ne; [done|]. by intros [= <- <-].
  - intros q fd' i _ Hq _ Hl. apply map_lookup_filter_Some. split; [done|]. simpl. intros [= -> ->].
    by destruct Hf as [Hf _].
Qed.

Lemma sound_exit d g p : sound d g -> sound (exit_process d p) (update g p noGhost).
Proof.
  intros H. apply (sound_files d); [apply sound_forget; [done|by split; (by right) || (by left)]|].
  set (g' := update _ _ _). assert (g' p = noGhost) as Hg by apply update_eq.
  split_and!; try done; simpl.
  - intros k i o [Hk _]%map_lookup_filter_Some. by eapply (so_files _ _ H).
  - intros q fd' i o Hq Hk. exists o. split; [|done]. apply map_lookup_filter_Some. split; [done|]. simpl. intros ->.
    apply Hq. rewrite Hg. by split_and!.
  - intros q fd' i Hl _ _ Hk. apply map_lookup_filter_Some. split; [done|]. simpl. intros ->.
    by rewrite Hg in Hl.
Qed.

(** ** Every allowed call *)

Lemma opened_sound d g p name ino x :
  sound d g -> d_names d !! name = Some ino -> d_files d !! (p, x) = None ->
  sound (open_file d p x (AFile ino 0)) g.
Proof.
  intros H Hn Hx. apply sound_open; [done|done|]. intros i o [= <- _]. by eapply (so_names _ _ H).
Qed.

Lemma sound_openat d g p dir name mode x d' :
  sound d g -> allowed asked (g p) (OpenAt dir name mode) -> sys_step p d (OpenAt dir name mode) x d' ->
  plausible asked (g p) (OpenAt dir name mode) x /\ sound d' (update g p (after (g p) (OpenAt dir name mode) x)).
Proof.
  intros H Ha [[Hx ->]|(Hx & Hfree & d1 & f & Hf & ->)].
  { split; [intros Hc; lia|]. cbn [after]. replace (x <? 0) with true by lia. by apply sound_same. }
  split; [intros _; by apply (sound_open_files d)|]. cbn [after]. replace (x <? 0) with false by lia.
  destruct (d_names d !! name) as [ino|] eqn:En; destruct Hf as (Hm & -> & ->).
  - pose proof (opened_sound d g p name ino x H En Hfree) as H1.
    assert (d_files (open_file d p x (AFile ino 0)) !! (p, x) = Some (AFile ino 0)) as Hl
      by (simpl; apply lookup_insert_eq).
    destruct mode; [| |done].
    + case_bool_decide as Er; [|by apply sound_same]. subst name.
      apply sound_update; [done|by apply temp_same; left|apply H1|apply H1| |apply H1].
      intros fd [= <-]. exists ino, 0%nat. split; [done|]. by apply H1.
    + destruct Ha as (-> & Hlf & Hlk). apply sound_update; [done|by apply temp_same; left| | |apply H1|apply H1].
      * intros fd [= <-]. by exists ino, 0%nat.
      * simpl. by rewrite Hlk.
  - assert (name <> recordName) as Hnr.
    { destruct mode; [done|destruct Ha as (-> & _); done|]. by apply temp_names, Ha. }
    pose proof (sound_create d g name H En Hnr) as H0.
    assert (d_names (create d name) !! name = Some (d_next d)) as En' by (simpl; apply lookup_insert_eq).
    pose proof (opened_sound (create d name) g p name (d_next d) x H0 En' Hfree) as H1.
    set (d1 := open_file _ _ _ _) in *.
    assert (d_files d1 !! (p, x) = Some (AFile (d_next d) 0)) as Hl by (simpl; apply lookup_insert_eq).
    destruct mode; [done| |].
    + destruct Ha as (-> & Hlf & Hlk). apply sound_update; [done|by apply temp_same; left| | |apply H1|apply H1].
      * intros fd [= <-]. by exists (d_next d), 0%nat.
      * simpl. by rewrite Hlk.
    + destruct Ha as [Ht Hg]. apply sound_update; [done| |apply H1|apply H1|apply H1|apply H1].
      intros fd n w [= <- <- <-]. right. split; [done|]. split.
      * exists (d_next d). split_and!; [done|simpl; apply lookup_insert_eq|done|].
        intros (_ & (bs & Hb & (e & _ & [Hw _] & ->)) & _). simpl in Hb. rewrite lookup_insert_eq in Hb.
        injection Hb as Hb. pose proof (record_length_encode e Hw) as Hlen. by rewrite <- Hb in Hlen.
      * intros q fd' w' _ Hq. destruct (so_temp _ _ H q fd' name w' Hq) as (_ & i & _ & _ & Hc). congruence.
Qed.

Lemma sound_renameat d g p dir old x d' :
  sound d g -> allowed asked (g p) (RenameAt dir old recordName) -> sys_step p d (RenameAt dir old recordName) x d' ->
  sound d' (update g p (after (g p) (RenameAt dir old recordName) x)).
Proof.
  intros H (_ & Hlk & fd & w & Ht & Hw) [[Hx ->]|(-> & ino & Hn & ->)]; cbn [after].
  { replace (x =? 0) with false by lia. by apply sound_same. }
  cbn [Z.eqb]. rewrite Ht. destruct (so_temp _ _ H p fd old w Ht) as (Hi & i & Hf & Hd & Hn').
  assert (i = ino) as -> by congruence. destruct (temp_names old Hi) as [Hr Hl].
  set (g0 := update g p (set_pub (set_temp (g p) None) None)).
  assert (g0 p = set_pub (set_temp (g p) None) None) as Hg0 by apply update_eq.
  assert (sound d g0) as H0.
  { apply sound_forget; [done|]. by split; simpl; [left|left|right|left|left]. }
  assert (forall q fd' n w', g_temp (g0 q) = Some (fd', n, w') -> q <> p /\ g_temp (g q) = Some (fd', n, w')) as Hg.
  { intros q fd' n w' Hq. destruct (update_cases g p (set_pub (set_temp (g p) None) None) q) as [[-> E]|[Hne E]];
      unfold g0 in Hq; rewrite E in Hq; done. }
  assert (frozen d g0 ino) as Hfr.
  { split_and!; [by eapply (so_names _ _ H)|by exists w|]. intros q fd' n w' Hq Hc. destruct (Hg _ _ _ _ Hq) as [Hne Hq'].
    assert (n = old) as -> by by eapply (so_inj _ _ H). by destruct Hne; eapply (so_unique _ _ H). }
  assert (forall q, g_pub (g0 q) = None) as Hpub.
  { intros q. destruct (update_cases g p (set_pub (set_temp (g p) None) None) q) as [[-> E]|[Hne E]];
      unfold g0; rewrite E; [done|]. by apply (others_pub d g p). }
  pose proof (sound_rename d g0 old ino H0 Hn Hfr Hl Hr) as H2. set (d2 := set_names d _) in *.
  assert (sound d2 g0) as H3.
  { apply H2; [|done]. intros q fd' w' Hq. destruct (Hg _ _ _ _ Hq) as [Hne Hq'].
    by destruct Hne; eapply (so_unique _ _ H). }
  destruct Hw as (e & _ & Hv & ->).
  assert (decode (encode e) = Some e) as ->.
  { destruct Hv as (Hw & Hp & Hz). rewrite record_decode_encode, Hz by done.
    assert (truthy (ep_port e) = true) as -> by (apply truthy_true; exact Hp). done. }
  set (gp := set_pub (set_temp (g p) None) (Some e)).
  assert (forall q, update g0 p gp q = update g p gp q) as Hsame.
  { intros q. unfold g0, update. by destruct (Nat.eqb q p). }
  assert (sound d2 (update g0 p gp)) as H4.
  { apply sound_update; [done|by apply temp_same; right| | | |].
    - intros fd' Hq. apply (so_lockfd _ _ H3 p). by rewrite Hg0.
    - intros Hq. destruct (so_lock _ _ H3 p) as (fd' & i & A1 & A2 & A3); [by rewrite Hg0|].
      exists fd', i. rewrite Hg0 in A1. by split_and!.
    - intros fd' Hq. apply (so_reading _ _ H3 p). by rewrite Hg0.
    - intros e' [= <-]. split; [exact Hlk|]. exists ino. split; [unfold d2; simpl; apply lookup_insert_eq|exact Hd]. }
  by apply (sound_ext d2 (update g0 p gp)).
Qed.

Lemma sound_unlinkat d g p dir name x d' :
  sound d g -> allowed asked (g p) (UnlinkAt dir name) -> sys_step p d (UnlinkAt dir name) x d' ->
  sound d' (update g p (after (g p) (UnlinkAt dir name) x)).
Proof.
  intros H Ha [[Hx ->]|(-> & _ & ->)]; cbn [after].
  { replace (x =? 0) with false by lia. by apply sound_same. }
  cbn [Z.eqb]. destruct Ha as [(fd & w & Ht)|[-> Hl]].
  - destruct (so_temp _ _ H p fd name w Ht) as (Hi & _). destruct (temp_names name Hi) as [Hr Hl].
    rewrite bool_decide_eq_false_2 by done. apply sound_delete; [|done| |done].
    + apply sound_forget; [done|]. by split; simpl; [left|left|right|left|right].
    + intros q fd' w' Hq. destruct (update_cases g p (set_temp (g p) None) q) as [[-> E]|[Hne E]]; rewrite E in Hq; [done|].
      by destruct Hne; eapply (so_unique _ _ H).
  - rewrite bool_decide_eq_true_2 by done. apply sound_delete; [|done| |].
    + apply sound_forget; [done|]. by split; simpl; left.
    + intros q fd w Hq. assert (exists q', g_temp (g q') = Some (fd, recordName, w)) as [q' Hq'].
      { destruct (update_cases g p (set_pub (g p) None) q) as [[-> E]|[_ E]]; rewrite E in Hq; [by exists p|by exists q]. }
      by destruct (proj1 (temp_names _ (proj1 (so_temp _ _ H q' fd _ w Hq')))).
    + intros _ q. destruct (update_cases g p (set_pub (g p) None) q) as [[-> E]|[Hne E]]; rewrite E; [done|].
      by apply (others_pub d g p).
Qed.

Lemma sound_read d g p fd n x d' :
  sound d g -> (forall name w, g_temp (g p) <> Some (fd, name, w)) -> sys_step p d (Read fd n) x d' ->
  plausible asked (g p) (Read fd n) x /\ sound d' g.
Proof.
  intros H Ha [[-> ->]|(bs & -> & _ & Hf)]; [done|].
  destruct (d_files d !! (p, fd)) as [[ino off| |]|] eqn:E; [|done| |done].
  - destruct Hf as (old & Hd & Hb & ->). split.
    + intros Hr. destruct (so_reading _ _ H p fd Hr) as (i & o & H1 & (_ & (r & H2 & H3) & _)).
      assert (i = ino) as -> by congruence. exists r, off. split; [done|]. congruence.
    + apply (sound_files d); [done|]. split_and!; try done; simpl.
      * intros k i o. rewrite lookup_insert_Some. intros [[_ [= <- _]]|[_ Hk]]; by eapply (so_files _ _ H).
      * intros q fd' i o Hq Hk. destruct (decide ((q, fd') = (p, fd))) as [[= -> ->]|Hne].
        -- exists (off + length bs)%nat. rewrite lookup_insert_eq. split; [congruence|]. intros (nm & w & Ht).
           by destruct (Ha nm w).
        -- exists o. by rewrite lookup_insert_ne by congruence.
  - destruct Hf as [_ ->]. split; [|done]. intros Hr.
    destruct (so_reading _ _ H p fd Hr) as (i & o & H1 & _). congruence.
Qed.

Lemma sound_step {X} d g p (c : Sys X) x d' :
  sound d g -> allowed asked (g p) c -> sys_step p d c x d' ->
  plausible asked (g p) c x /\ sound d' (update g p (after (g p) c x)).
Proof.
  intros H Ha Hs. revert x Ha Hs. destruct c; intros x Ha Hs.
  - rewrite Hs. split; [done|by apply sound_same].
  - rewrite Hs. split; [done|by apply sound_same].
  - destruct Hs as [[Hx ->]|(Hx & Hf & d1 & f & [-> ->] & ->)].
    + split; [intros Hc; lia|by apply sound_same].
    + split; [intros _; by apply (sound_open_files d)|]. apply sound_same. by apply sound_open.
  - destruct Hs as [[Hx ->]|(Hx & Hf & d1 & f & [-> ->] & ->)].
    + split; [intros Hc; lia|by apply sound_same].
    + split; [intros _; by apply (sound_open_files d)|]. apply sound_same. by apply sound_open.
  - exact (sound_openat d g p _ _ _ x d' H Ha Hs).
  - rewrite Hs. split; [done|by apply sound_same].
  - split; [done|]. destruct Hs as [[Hx ->]|(-> & ino & off & Hf & Hl & ->)]; cbn [after].
    + replace (x =? 0) with false by lia. by apply sound_same.
    + destruct (sound_lock d g p fd ino off H Hf Ha Hl) as (H1 & H2 & H3).
      apply sound_update; [done|by apply temp_same; left|apply H1| |apply H1|].
      * intros _. exists fd, ino. by split_and!.
      * intros e He. split; [done|]. by apply (so_pub _ _ H1 p).
  - destruct Ha as (name & w & Ht). cbn [after]. rewrite Ht.
    destruct Hs as [[Hx ->]|(Hx & ino & off & old & Hf & Hd & ->)].
    + split; [cbn [plausible]; lia|]. replace (x <? 0) with true by lia. by apply sound_same.
    + split; [cbn [plausible]; lia|]. replace (x <? 0) with false by lia.
      destruct (so_temp _ _ H p fd name w Ht) as (_ & i & Hf' & Hd' & _).
      assert (i = ino) as -> by congruence. assert (off = length w) as -> by congruence.
      assert (old = w) as -> by congruence. rewrite overwrite_end.
      pose proof (sound_write d g p fd name w ino (take (Z.to_nat x) bytes) H Ht Hf' Hd') as Hw.
      by rewrite length_take_le in Hw by lia.
  - rewrite Hs. split; [done|by apply sound_same].
  - split; [done|]. assert (new = recordName) as -> by apply Ha. exact (sound_renameat d g p _ _ x d' H Ha Hs).
  - split; [done|]. exact (sound_unlinkat d g p _ _ x d' H Ha Hs).
  - destruct (sound_read d g p fd n x d' H Ha Hs) as [H1 H2]. split; [done|by apply sound_same].
  - rewrite Hs. split; [done|]. by apply sound_close.
Qed.
End Sound.

(** * Every reachable state *)

Section Reachable.
Context (euid : Z) (rounds : nat) (asked : Endpoint -> Prop).

(** What a process goes on to do, from its ghost state. *)
Definition behaves (g : Ghost) (P : Process) : Prop :=
  match P with
  | Idle impl => idle_ok asked impl g
  | Publishing p => obeys asked g p (fun r g' => idle_ok asked r.2 g')
  | Closing p => obeys asked g p (fun r g' => idle_ok asked r g')
  | Reading impl p => obeys asked g p (fun r g' =>
      idle_ok asked impl g' /\ match r with Some e => asked e | None => True end)
  end.

Definition good (S : State) : Prop :=
  exists g, sound asked (st_dir S) g /\ (forall p, behaves (g p) (st_proc S p))
    /\ Forall asked (st_read S).

Lemma behaves_update g procs p gp P :
  (forall q, behaves (g q) (procs q)) -> behaves gp P ->
  forall q, behaves (update g p gp q) (update procs p P q).
Proof.
  intros H HP q. destruct (update_cases g p gp q) as [[-> E]|[Hne E]]; rewrite E.
  - by rewrite update_eq.
  - by rewrite update_ne.
Qed.

Lemma behaves_stays g procs p P :
  (forall q, behaves (g q) (procs q)) -> behaves (g p) P -> forall q, behaves (g q) (update procs p P q).
Proof.
  intros H HP q. destruct (update_cases procs p P q) as [[-> E]|[_ E]]; by rewrite E.
Qed.

(** One call of a program that obeys. *)
Lemma good_call {A} d g procs p (prog prog' : Prog A) d' (wrap : Prog A -> Process) Q reads asked_list :
  sound asked d g -> (forall q, behaves (g q) (procs q)) -> Forall asked reads ->
  obeys asked (g p) prog Q -> (forall gp pr, obeys asked gp pr Q -> behaves gp (wrap pr)) ->
  prog_step p d prog d' prog' ->
  good (mkState d' (update procs p (wrap prog')) asked_list reads).
Proof.
  intros H Hb Hr Ho Hw Hs. destruct prog as [a|X c k|]; [done| |done].
  destruct Hs as (x & Hs & ->). destruct Ho as [Ha Hk]. destruct (sound_step asked d g p c x d' H Ha Hs) as [Hp Hd].
  exists (update g p (after (g p) c x)). split; [exact Hd|]. split; [|exact Hr].
  apply behaves_update; [done|]. by apply Hw, Hk.
Qed.

Lemma idle_noGhost impl : idle_ok asked impl (idle_ghost impl) -> g_record (idle_ghost impl) = None
  /\ g_temp (idle_ghost impl) = None.
Proof. by destruct impl. Qed.

Lemma step_good S S' : step euid rounds S S' -> (forall e, e ∈ st_asked S' -> asked e) -> good S -> good S'.
Proof.
  intros Hs Hasked (g & H & Hb & Hr).
  destruct Hs as [p impl path e Hp Hw|p impl Hp|p impl path Hp|p prog d prog' Hp Hs|p prog d prog' Hp Hs
    |p impl prog d prog' Hp Hs|p ok impl Hp|p impl Hp|p impl r Hp|p];
    try (pose proof (Hb p) as Hbp; rewrite Hp in Hbp).
  - exists g. split; [done|]. split; [|done]. apply behaves_stays; [done|].
    apply obeys_publish; [exact Hbp|done|]. apply Hasked. simpl. by left.
  - exists g. split; [done|]. split; [|done]. apply behaves_stays; [done|]. by apply obeys_close.
  - exists g. split; [done|]. split; [|done]. apply behaves_stays; [done|]. cbn [behaves].
    pose proof Hbp as [E Hi]. destruct (idle_noGhost impl) as [E1 E2]; [by split|].
    eapply obeys_mono; [apply obeys_readEndpoint; by rewrite E|]. intros r g' [-> Hr']. by split.
  - by apply (good_call (st_dir S) g (st_proc S) p prog prog' d Publishing _ _ _ H Hb Hr Hbp).
  - by apply (good_call (st_dir S) g (st_proc S) p prog prog' d Closing _ _ _ H Hb Hr Hbp).
  - by apply (good_call (st_dir S) g (st_proc S) p prog prog' d (Reading impl) _ _ _ H Hb Hr Hbp).
  - exists g. split; [done|]. split; [|done]. by apply behaves_stays.
  - exists g. split; [done|]. split; [|done]. by apply behaves_stays.
  - destruct Hbp as [Hi Hrd]. exists g. split; [done|]. split; [by apply behaves_stays|]. simpl.
    destruct r as [e|]; [|done]. by apply Forall_cons.
  - exists (update g p noGhost). split; [by apply sound_exit|]. split; [|done]. by apply behaves_update.
Qed.
End Reachable.

Lemma asked_grows euid rounds S S' : step euid rounds S S' -> forall e, e ∈ st_asked S -> e ∈ st_asked S'.
Proof. intros []; simpl; auto. intros e'. by right. Qed.

Lemma reachable_good euid rounds S :
  reachable euid rounds S -> forall asked, (forall e, e ∈ st_asked S -> asked e) -> good asked S.
Proof.
  induction 1 as [|S S' Hr IH Hs]; intros asked Ha.
  - exists (fun _ => noGhost). split; [|split; [done|constructor]]. by split.
  - eapply step_good; [exact Hs|done|]. apply IH. intros e He. apply Ha. by eapply asked_grows.
Qed.

(** * Theorems *)

(** C17: A client of the rendezvous reads only published endpoints: whatever owners,
    clients and crashes interleave - any system call failing, reads and writes cut
    short, a process dying between two calls - every port and token that
    [readEndpoint] ever answers was passed, exactly so, to [publish].  No client
    sees half a record, or a port with another owner's token. *)
Theorem rendezvous_reads_published euid rounds S e :
  reachable euid rounds S -> e ∈ st_read S -> e ∈ st_asked S.
Proof.
  intros Hr He. destruct (reachable_good euid rounds S Hr (fun e => e ∈ st_asked S)) as (g & _ & _ & HF); [done|].
  by eapply Forall_forall in HF.
Qed.

(** C18: There is one owner, and while it lives the record is its own: in every
    reachable state, if [publish] succeeded for a process that has not called
    [close] since, the entry "endpoint" is a file with exactly the 38 bytes of its
    endpoint, and no other process has published. *)
Theorem rendezvous_owner_exclusive euid rounds S p im :
  reachable euid rounds S -> st_proc S p = Idle (Some im) ->
  (exists ino, d_names (st_dir S) !! recordName = Some ino
     /\ d_data (st_dir S) !! ino = Some (encode (im_endpoint im)))
  /\ forall q im', st_proc S q = Idle (Some im') -> q = p.
Proof.
  intros Hr Hp. destruct (reachable_good euid rounds S Hr (fun _ => True)) as (g & H & Hb & _); [done|].
  assert (forall q im', st_proc S q = Idle (Some im') -> g q = idle_ghost (Some im')) as Hi.
  { intros q im' Hq. pose proof (Hb q) as Hbq. rewrite Hq in Hbq. apply Hbq. }
  split.
  - apply (so_pub _ _ _ H p). by rewrite (Hi p im Hp).
  - intros q im' Hq. apply (one_owner (fun _ => True) (st_dir S) g); [done| |]; [by rewrite (Hi q im' Hq)|by rewrite (Hi p im Hp)].
Qed.

(** ** An example run: one process publishes, another reads *)

(** A kernel where every call succeeds at once. *)
Definition next_fd (d : Directory) : Z := 3 + Z.of_nat (size (d_files d)).

Definition try_open (pid : nat) (d d1 : Directory) (f : File) : option (Z * Directory) :=
  let fd := next_fd d in
  match d_files d !! (pid, fd) with None => Some (fd, open_file d1 pid fd f) | Some _ => None end.

Definition happy {X} (pid : nat) (d : Directory) (c : Sys X) : option (X * Directory) :=
  match c in Sys X return option (X * Directory) with
  | Mkdir _ | Errno | Fsync _ => Some (0, d)
  | OpenDir _ => try_open pid d d ADirectory
  | OpenRandom => try_open pid d d ARandom
  | OpenAt _ name mode =>
    match d_names d !! name, mode with
    | Some ino, OpenRead | Some ino, OpenCreate => try_open pid d d (AFile ino 0)
    | None, OpenCreate | None, OpenExclusive => try_open pid d (create d name) (AFile (d_next d) 0)
    | _, _ => None
    end
  | Fstat fd => Some (Some (mkFileStat 1000 448 (bool_decide (d_files d !! (pid, fd) = Some ADirectory))
                             (negb (bool_decide (d_files d !! (pid, fd) = Some ADirectory))) 1), d)
  | Flock fd =>
    match d_files d !! (pid, fd) with
    | Some (AFile ino _) => match d_lock d !! ino with
                            | None => Some (0, set_lock d (<[ino := (pid, fd)]> (d_lock d)))
                            | Some _ => None
                            end
    | _ => None
    end
  | Write fd bytes =>
    match d_files d !! (pid, fd) with
    | Some (AFile ino off) =>
      match d_data d !! ino with
      | Some old => Some (Z.of_nat (length bytes),
          set_files (set_data d (<[ino := overwrite old off (take (Z.to_nat (Z.of_nat (length bytes))) bytes)]> (d_data d)))
            (<[(pid, fd) := AFile ino (off + Z.to_nat (Z.of_nat (length bytes)))]> (d_files d)))
      | None => None
      end
    | _ => None
    end
  | RenameAt _ old new =>
    match d_names d !! old with
    | Some ino => Some (0, set_names d (<[new := ino]> (delete old (d_names d))))
    | None => None
    end
  | UnlinkAt _ name =>
    match d_names d !! name with Some _ => Some (0, set_names d (delete name (d_names d))) | None => None end
  | Read fd n =>
    match d_files d !! (pid, fd) with
    | Some (AFile ino off) =>
      match d_data d !! ino with
      | Some old => let bs := take n (drop off old) in
          Some (Some bs, set_files d (<[(pid, fd) := AFile ino (off + length bs)]> (d_files d)))
      | None => None
      end
    | Some ARandom => Some (Some (replicate n 7), d)
    | _ => None
    end
  | Close fd => Some (tt, close_file d pid fd)
  end.

Lemma try_open_step pid d d1 f (P : Directory -> File -> Prop) x d' :
  try_open pid d d1 f = Some (x, d') -> P d1 f -> opens pid d P x d'.
Proof.
  unfold try_open. destruct (d_files d !! _) eqn:E; [done|]. intros [= <- <-] HP. right.
  split; [unfold next_fd; lia|]. split; [done|]. by exists d1, f.
Qed.

Lemma happy_step {X} pid d (c : Sys X) x d' : happy pid d c = Some (x, d') -> sys_step pid d c x d'.
Proof.
  revert x. destruct c; intros x; cbn [happy sys_step].
  - by intros [= _ <-].
  - by intros [= _ <-].
  - intros H. by eapply try_open_step.
  - intros H. by eapply try_open_step.
  - destruct (d_names d !! name) as [ino|] eqn:E, mode; try done; intros H; (eapply try_open_step; [exact H|]);
      by split_and!.
  - by intros [= _ <-].
  - destruct (d_files d !! (pid, fd)) as [[ino off| |]|] eqn:E; try done.
    destruct (d_lock d !! ino) eqn:E2; [done|]. intros [= <- <-]. right. split; [done|]. exists ino, off.
    split; [done|]. split; [by left|done].
  - destruct (d_files d !! (pid, fd)) as [[ino off| |]|] eqn:E; try done.
    destruct (d_data d !! ino) as [old|] eqn:E2; [|done]. intros [= <- <-]. right. split; [lia|].
    by exists ino, off, old.
  - by intros [= _ <-].
  - destruct (d_names d !! old) as [ino|] eqn:E; [|done]. intros [= <- <-]. right. split; [done|]. by exists ino.
  - destruct (d_names d !! name) as [ino|] eqn:E; [|done]. intros [= <- <-]. right. by split; [|split].
  - destruct (d_files d !! (pid, fd)) as [[ino off| |]|] eqn:E; try done.
    + destruct (d_data d !! ino) as [old|] eqn:E2; [|done]. intros [= <- <-]. right.
      exists (take n (drop off old)). split; [done|]. split; [rewrite length_take; lia|]. exists old. split; [done|].
      split; [apply prefix_take|done].
    + intros [= <- <-]. right. exists (replicate n 7). split; [done|]. rewrite length_replicate. split; [done|].
      split; [|done]. apply Forall_replicate. unfold u8. lia.
  - by intros [= _ <-].
Qed.

(** Run a program to its end. *)
Fixpoint drive {A} (fuel pid : nat) (d : Directory) (p : Prog A) : option (Directory * A) :=
  match fuel, p with
  | _, Ret a => Some (d, a)
  | S fuel', Do c k =>
    match happy pid d c with Some (x, d') => drive fuel' pid d' (k x) | None => None end
  | _, _ => None
  end.

Section Drive.
Context (euid : Z) (rounds : nat).

(** The states a running program passes through. *)
Lemma drive_reach {A} (wrap : Prog A -> Process) :
  (forall S pid p d p', st_proc S pid = wrap p -> prog_step pid (st_dir S) p d p' ->
     step euid rounds S (moved S pid d (wrap p'))) ->
  forall fuel pid p S d a, reachable euid rounds S -> st_proc S pid = wrap p ->
  drive fuel pid (st_dir S) p = Some (d, a) ->
  exists S', reachable euid rounds S' /\ st_dir S' = d /\ st_proc S' pid = wrap (Ret a)
    /\ st_asked S' = st_asked S /\ st_read S' = st_read S
    /\ forall q, q <> pid -> st_proc S' q = st_proc S q.
Proof.
  intros Hw. induction fuel as [|fuel IH]; intros pid p S d a Hr Hp Hd.
  - destruct p; [|done|done]. injection Hd as <- <-. by exists S.
  - destruct p as [b|X c k|]; [|cbn [drive] in Hd|done].
    + injection Hd as <- <-. by exists S.
    + destruct (happy pid (st_dir S) c) as [[x d1]|] eqn:E; [|done].
      destruct (IH pid (k x) (moved S pid d1 (wrap (k x))) d a) as (S' & H1 & H2 & H3 & H4 & H5 & H6).
      * eapply reach_step; [exact Hr|]. apply Hw with (p := Do c k); [done|]. exists x. split; [|done].
        by apply happy_step.
      * simpl. apply update_eq.
      * exact Hd.
      * exists S'. split_and!; try done. intros q Hq. rewrite H6 by done. simpl. by apply update_ne.
Qed.

Lemma publish_reach S pid impl path e fuel d ok impl' :
  reachable euid rounds S -> st_proc S pid = Idle impl -> wf_endpoint e ->
  drive fuel pid (st_dir S) (publish euid rounds impl path e) = Some (d, (ok, impl')) ->
  exists S', reachable euid rounds S' /\ st_dir S' = d /\ st_proc S' pid = Idle impl'
    /\ st_asked S' = e :: st_asked S /\ st_read S' = st_read S
    /\ forall q, q <> pid -> st_proc S' q = st_proc S q.
Proof.
  intros Hr Hp Hw Hd. pose proof (s_publish euid rounds S pid impl path e Hp Hw) as H0.
  set (S0 := mkState _ _ _ _) in H0.
  destruct (drive_reach Publishing (s_publishing euid rounds) fuel pid _ S0 d (ok, impl')
    (reach_step _ _ _ _ Hr H0) (update_eq _ _ _) Hd) as (S1 & H1 & H2 & H3 & H4 & H5 & H6).
  exists (with_proc S1 pid (Idle impl')).
  split; [exact (reach_step _ _ _ _ H1 (s_published euid rounds S1 pid ok impl' H3))|].
  simpl. rewrite update_eq. split_and!; try done. intros q Hq. rewrite update_ne, H6 by done. by apply update_ne.
Qed.

Lemma read_reach S pid impl path fuel d r :
  reachable euid rounds S -> st_proc S pid = Idle impl ->
  drive fuel pid (st_dir S) (readEndpoint euid rounds path) = Some (d, r) ->
  exists S', reachable euid rounds S' /\ st_dir S' = d
    /\ st_asked S' = st_asked S
    /\ st_read S' = (match r with Some e => e :: st_read S | None => st_read S end)
    /\ forall q, q <> pid -> st_proc S' q = st_proc S q.
Proof.
  intros Hr Hp Hd. pose proof (s_read euid rounds S pid impl path Hp) as H0.
  set (S0 := with_proc _ _ _) in H0.
  destruct (drive_reach (Reading impl) (fun S p => s_reading euid rounds S p impl) fuel pid _ S0 d r
    (reach_step _ _ _ _ Hr H0) (update_eq _ _ _) Hd) as (S1 & H1 & H2 & H3 & H4 & H5 & H6).
  eexists. split; [exact (reach_step _ _ _ _ H1 (s_answered euid rounds S1 pid impl r H3))|].
  simpl. rewrite H5. split_and!; try done. intros q Hq. rewrite update_ne, H6 by done. by apply update_ne.
Qed.
End Drive.

Definition exEndpoint : Endpoint := Process.mkEndpoint 4660 (replicate 32 5).
Definition exPath : list Z := [47; 116; 109; 112; 47].    (* "/tmp/" *)

(** The directory after process 1 published. *)
Definition exPublished : option (Directory * (bool * option Impl)) :=
  drive 40 1 (st_dir initial) (publish 1000 8 None exPath exEndpoint).
Definition exOwner : Impl := mkImpl exEndpoint 3 4.

Lemma rendezvous_run :
  exists S, reachable 1000 8 S /\ st_proc S 1 = Idle (Some exOwner) /\ st_read S = [exEndpoint].
Proof.
  assert (wf_endpoint exEndpoint) as Hw.
  { split; [simpl; lia|]. split; [done|]. apply Forall_replicate. unfold u8. lia. }
  destruct exPublished as [[d [ok impl]]|] eqn:E; [|by vm_compute in E].
  destruct (publish_reach 1000 8 initial 1 None exPath exEndpoint 40 d ok impl (reach_start _ _) eq_refl Hw E)
    as (S1 & H1 & H2 & H3 & H4 & H5 & H6).
  assert (impl = Some exOwner /\ drive 40 2 d (readEndpoint 1000 8 exPath) = Some (match drive 40 2 d (readEndpoint 1000 8 exPath) with Some (d', _) => d' | None => d end, Some exEndpoint)) as [-> E2].
  { clear -E. vm_compute in E. injection E as <- <- <-. by split; vm_compute. }
  rewrite <- H2 in E2.
  destruct (read_reach 1000 8 S1 2 None exPath 40 _ (Some exEndpoint) H1 (H6 2%nat ltac:(done)) E2)
    as (S2 & A1 & A2 & A3 & A4 & A5).
  exists S2. split; [exact A1|]. split; [by rewrite A5|]. by rewrite A4, H5.
Qed.

Lemma rendezvous_reads_published_witness :
  exists S, reachable 1000 8 S /\ exEndpoint ∈ st_read S /\ exEndpoint ∈ st_asked S.
Proof.
  destruct rendezvous_run as (S & H1 & _ & H3). assert (exEndpoint ∈ st_read S) as Hin by (rewrite H3; by left).
  exists S. split; [exact H1|]. split; [exact Hin|].
  exact (rendezvous_reads_published 1000 8 S exEndpoint H1 Hin).
Defined.

Lemma rendezvous_owner_exclusive_witness :
  exists S, reachable 1000 8 S /\ st_proc S 1 = Idle (Some exOwner)
    /\ exists ino, d_names (st_dir S) !! recordName = Some ino
         /\ d_data (st_dir S) !! ino = Some (encode exEndpoint).
Proof.
  destruct rendezvous_run as (S & H1 & H2 & _). exists S. split; [exact H1|]. split; [exact H2|].
  exact (proj1 (rendezvous_owner_exclusive 1000 8 S 1 exOwner H1 H2)).
Defined.
